(* ===== verification/_CoqProject ===== *)
-Q . S2P
Prelude.v
Conc.v
Ocpp.v
Errors.v
Queue.v
State.v
Message.v
ClientDispatcher.v
ClientInvariant.v
ClientSafety.v
ServerDispatcher.v
ServerInvariant.v
ServerOrder.v
ServerSafety.v
ServerTheorems.v
Endpoint.v
GoTypes.v
GoJson.v
Schema.v
Messages16.v
Messages201.v
Panic.v
Peer.v
PeerTheorems.v
PeerInstances.v
CallbackQueue.v
Facade.v
Services.v
Facades.v
FacadeTheorems.v
Wiring.v
WiringTheorems.v
Wrappers.v
Payloads.v
MessageTheorems.v
Delivery.v
ConfigKeys.v
ConfigManager.v
WebSocket.v
WebSocketTheorems.v
WsClient.v
WsClientTheorems.v
WsServer.v
WsRegistry.v
WsLife.v
WsLifeTheorems.v
Lifecycle.v
LifecycleTheorems.v
CgIR.v
CgMapping.v
CgPlacement.v
CgSchema.v
CgWalk.v
CgOverrides.v
CgManifest.v
CgEmit.v
CgPlacementTheorems.v
CgWalkTheorems.v
CgSchemaTheorems.v
CgOverridesTheorems.v
CgEmitTheorems.v
CgTreeTheorems.v
ScTypes.v
ScClassify.v
ScClassifyTheorems.v
ScGoWalk.v
ScGoWalkTheorems.v
ScSchemaWalk.v
ScSchemaWalkTheorems.v
ScTree.v
ScCompare.v
ScCompareTheorems.v
ScEvidence.v
ScRegistry.v
ScRun.v
ScRunTheorems.v
CanonJson.v
CanonJsonTheorems.v
EvalIR.v
