(* ===== verification/Prelude.v ===== *)
(** * A verification library for ocpp-go

    ocpp-go implements the OCPP 1.6 and 2.0.1 protocols over websockets.  A
    facade ([chargePoint], [centralSystem], [chargingStation], [csms]) offers one
    typed method per message and routes the peer's requests to user handlers.  It
    owns an endpoint of the package ocppj, which encodes, parses and validates
    messages and hands outgoing requests to a dispatcher.  The dispatcher queues
    them, sends one at a time and matches each with a response, an error, a
    cancellation or a timeout.  Below is the package ws: a server with a registry
    of connections, a client that reconnects, and the two pumps of a connection.
    The message types of the profile packages are structs with JSON and validation
    tags; those of 2.0.1 come from a code generator under src/internal/codegen that
    reads the JSON schemas of the standard, and a check under
    src/internal/schemacheck compares the Go sources with these schemas.  The tests
    compare both generations of messages with two helpers under src/ocpp2.0.1_test.

    ** Technique

    Sequential code is functions on records.  Concurrent code is programs of
    atomic actions ([Conc.proc]): an action is a critical section, a channel
    operation, an atomic access or a call out of the package, it may block, and a
    choice of the environment decides select arms, network results and user code.
    [Conc.exec] runs a pool of such goroutines under a schedule; a theorem about
    all schedules is proved with an invariant over ownership tokens ([Conc.safe],
    [exec_invariant]).  Code that calls user handlers is in a monad with a state,
    a log and panics ([Panic.M]).  Schedules are finite and arbitrary, there is no
    fuel; loops are threads, whose iterations a schedule drives.  Witnesses run
    concrete schedules by evaluation.  Fallible code of the two
    tools is in an error monad ([CgSchema.result]).  Fuel occurs in the generator's
    graph traversals, where it is the number of definitions and is proved to suffice
    ([reach_exact], [cycles_detected]), in the walk to the module root, whose depth
    is a parameter, and in the check's walk over Go structs and its expansion of
    fields, where it is the number of structs and is proved to suffice
    ([walk_depth_enough], [expansion_depth_enough]), and in the parser of canonical
    JSON, where it is twice the length of the input ([parse_enough]).  The check's
    walk over a schema has a depth and the result [None] if it is reached; it is
    proved which documents a depth exists for.  A float64 of the check is a rational number, rounded where
    the code converts or divides.

    ** Files

    - [Prelude]: Go's 64-bit integers, automation, lists.  [Conc]: goroutines,
      their logic, progress.
    - [Ocpp] (src/ocpp/ocpp.go): errors with markers, [errors.Is], profiles.
      [Errors], [Message]: the sentinels of ocppj and what a queue holds.
    - [Queue], [State] (src/ocppj/queue.go, state.go): request queues and pending
      state, behind pointers where the code shares them; the class [RequestQueue].
    - [ClientDispatcher] (src/ocppj/dispatcher.go), [ClientInvariant],
      [ClientSafety]: the client dispatcher, its invariant, its theorems.
    - [ServerDispatcher] (src/ocppj/dispatcher.go), [ServerInvariant],
      [ServerOrder], [ServerSafety], [ServerTheorems]: the same for the server.
    - [Endpoint] (src/ocppj/ocppj.go, validation.go): messages to and from JSON.
    - [GoTypes], [GoJson], [Schema]: Go types with their tags, the values they
      hold, how encoding/json reads and writes them, with [DateTime] and
      [CustomData] (src/ocpp2.0.1/types).  [Messages16], [Messages201]: the types,
      constants, validators, constructors and features of the profile packages of
      both versions.  [Payloads], [MessageTheorems]: the tables of a version, the
      codec as an instance of the endpoint's, the theorems.  [Delivery]: endpoints
      and facades that exchange these messages.
    - [Panic] (src/ocppj/panic.go), [Peer] (src/ocppj/client.go, server.go),
      [PeerTheorems], [PeerInstances]: the endpoints over the interfaces
      [ClientEnv] and [ServerEnv], and their instances over the dispatchers.
    - [CallbackQueue] (src/internal/callbackqueue): response callbacks.
    - [Facade], [Services], [Facades], [FacadeTheorems], [Wrappers]
      (src/ocpp1.6, src/ocpp2.0.1): request handling shared by the four facades,
      profile and routing tables, the facades themselves, the 105 typed methods.
      [Wiring], [WiringTheorems]: the constructors, which connect facade and
      endpoint, the setters, and a call from one facade to the other and back.
    - [Lifecycle], [LifecycleTheorems] (charge_point.go, charging_station.go):
      handler generations of the client facades, Start and Stop.
    - [ConfigKeys], [ConfigManager] (src/ocpp1.6/configmanager): configuration
      keys and their manager.
    - [WebSocket], [WebSocketTheorems] (src/ws/websocket.go): one connection.
      [WsClient], [WsClientTheorems] (src/ws/client.go): reconnection.
      [WsServer], [WsRegistry] (src/ws/server.go): admission and registry.
      [WsLife], [WsLifeTheorems] (src/ws/server.go): Start, Shutdown, Write and
      the error channel.
    - The generator (src/internal/codegen): [CgIR] (ir.go, types.go, naming.go),
      [CgMapping] (mapping.go), [CgPlacement] (placement.go), [CgSchema]
      (schema.go), [CgWalk] (walk.go), [CgOverrides] (overrides.go), [CgManifest]
      (manifest.go), [CgEmit] (emit.go, write.go); theorems in
      [CgPlacementTheorems], [CgWalkTheorems], [CgSchemaTheorems],
      [CgOverridesTheorems], [CgEmitTheorems], [CgTreeTheorems] and at the end of
      [CgManifest].
    - The schema check (src/internal/schemacheck): [ScTypes] (contract.go,
      analysis_types.go, resolver.go), [ScClassify] (classify.go), [ScGoWalk]
      (ast_walk.go), [ScSchemaWalk] (schema_walk.go), [ScTree] (discover.go,
      treeindex.go, expand.go), [ScCompare] (pair.go, complexity.go, percentile.go,
      sharedtypes.go, parts of selfcheck.go and orchestrate.go), [ScEvidence]
      (evidence.go), [ScRegistry] (classifications.go), [ScRun] (the self-checks,
      the comparison and the decision to publish, main.go); theorems in
      [ScClassifyTheorems], [ScGoWalkTheorems], [ScSchemaWalkTheorems],
      [ScCompareTheorems], [ScRunTheorems] and at the ends of [ScEvidence] and
      [ScRegistry].
    - The test helpers (src/ocpp2.0.1_test/internal): [CanonJson],
      [CanonJsonTheorems] (canonjson.go), [EvalIR] (ireval/evaluator.go).

    ** What is shown

    - Dispatchers: each request has at most one outcome and none is lost at rest;
      requests go out once, in order, one at a time; timeouts hit their own request
      (server); channels do not panic; outside its select the server's pump waits
      for nothing but the cancel callback and the socket's Write.  Where a
      server theorem assumes [strict = true], peers answer only what was written
      to them and the wait of [DeleteClientAndWait] is not cut short.
    - Endpoints: a request, response or error that one side reports as sent reaches
      the other side's handler, a payload as its wire value; a handler's panic is
      contained and answered; a replayed response is ignored; errors carry the
      message id.
    - Facades: every request that reaches the endpoint of a facade as its
      constructor wired it is answered exactly once, unless a stopping client drops
      it; a request sent by one facade comes back to its own callback with the
      response of the peer's handler;
      dispatch and typed methods cannot fail a type assertion; the roles' tables
      match; one handler goroutine at a time, joined by Stop.
    - Messages: a request or response of any message that is accepted and written
      is read back with the wire value of every field, which is the value itself but
      for fractions of seconds, what omitempty leaves out and null; what a peer's bytes are decoded to has
      the type of the message; enumeration fields accept their constants.
    - Configuration: failed updates change nothing, mandatory keys stay, values do
      not alias.
    - Websockets: connects and disconnects of an id alternate, no gate stays shut;
      a connection is closed once, writes in order, and its channels do not panic;
      reconnection waits stay within their bounds; the server's error channel is
      safe and a shutdown leaves no connection open.
    - Generator: the manifest accounts for every schema file; a document that is
      read is closed under references; the merged representation is closed and free
      of cycles, and reach sets are exact; identifiers do not collide; an accepted
      override table only tightens the emitted tags and never fails to compose; what
      was accepted is rendered, or go/format refuses a text; a run writes whole files or nothing.
    - Schema check: the classifier reports a bug or an override exactly where the
      two declarations disagree, but for the listed cases it does not tell; the
      fields it reads from a struct are those
      encoding/json marshals; the walk of a schema ends exactly if the document has
      no endless chain; the rows of a message are exactly the paths to compare; a
      report is published only if it is complete, consistent with its summary and,
      with a registry, judged row by row on confirmed evidence.
    - Test helpers: canonical JSON is a fixed point and identifies exactly the
      inputs that differ in the order of members and in blanks; the evaluator gives
      the first violation of a payload, or else the first keyword it leaves open.
    - Refinement: [clientState] implements a one-slot register, the callback queue
      a map from client and request to callback, [computeReach] reachability.
    - Some theorems exhibit executions in which the code does not keep a promise:
      a client timer that cancels the next request, requests of a deleted client
      dropped in silence, a panicking callback that takes others with it, a
      disconnect reported before its connect, a stale request served after a
      restart, pings that crash a closing connection, a stopped client that
      reconnects or a restarted one that does not, a back-off that overflows, a
      server whose restart returns at once, a schema walk that never ends, rows of
      promoted fields at the wrong path, a null the check does not see, a schema file
      overwritten by another of its name, embedded structs dropped from a comparison.

    ** Parameters

    The JSON encoder and decoder, the payload codecs (reflection), the validator
    and the id generator are parameters of [Endpoint] and [Peer]; [Payloads] gives
    the codecs of the message types, over the time layout and the ISO-8601 parser of
    a third party.  Of [encoding/json] the theorems assume that it reads back the
    values it can carry exactly ([Endpoint.json_exact]: valid UTF-8, numbers a
    float64 holds, 10000 levels), of RFC 3339 that it keeps whole seconds.  The tag
    validator is a third party's too.  User handlers are
    arbitrary functions that may panic.  For the generator the file system, path
    functions, the JSON and YAML decoders, go/format and the text of a float64 are
    parameters, and text is ASCII.  For the check the Go parser, go/format,
    [strconv.Unquote] and the conversions of float64 to and from text are parameters,
    and the files are its input.  The gorilla websocket library and the
    network are choices of the environment.  Each hypothesis is met by an instance
    in a witness.

    ** Not modelled

    The validation library that interprets tags; the constructors of the facades
    with transport options, which only build the websocket endpoint; TLS, HTTP
    routing and construction options of the websocket server; dial options and
    headers of the client; logging; the command lines of the two tools, the
    generator's dump and its attribution of YAML errors to rows; the check's parsers
    and directory listings, the digest of the schema files and the rendering of its
    report; mocks, examples and scripts. *)

From stdpp Require Export base tactics gmap strings list fin_maps sets.
From Stdlib Require Export ZArith Lia.

(** ** Go scalars

    [int] and [time.Duration] are 64-bit two's complement; a duration counts
    nanoseconds. *)
Definition wrap64 (z : Z) : Z := (z + 2 ^ 63) `mod` 2 ^ 64 - 2 ^ 63.

Definition in_int64 (z : Z) : Prop := (- 2 ^ 63 <= z < 2 ^ 63)%Z.

Definition nanosecond : Z := 1.
Definition second : Z := 1000000000.
Definition hour : Z := 3600 * second.

Lemma wrap64_id z : in_int64 z → wrap64 z = z.
Proof.
  unfold in_int64, wrap64. intros H.
  rewrite Z.mod_small by lia. lia.
Qed.

Lemma wrap64_range z : in_int64 (wrap64 z).
Proof.
  unfold in_int64, wrap64.
  pose proof (Z.mod_pos_bound (z + 2 ^ 63) (2 ^ 64) ltac:(lia)). lia.
Qed.

(** ** Automation *)

Create HintDb go.
Create Rewrite HintDb go.

(** Case analysis on every [match] of the goal and of the hypotheses, closing
    the absurd branches. *)
Ltac go_case :=
  repeat (simplify_eq/=; case_match); simplify_eq/=.

(** [destruct_and] then the stdpp first-order solver. *)
Ltac go_auto := repeat (destruct_and!; simplify_eq/=); eauto with go.

(** ** Options and lists *)

Lemma head_Some_inv {A} (l : list A) x :
  head l = Some x → ∃ l', l = x :: l'.
Proof. destruct l; naive_solver. Qed.

Lemma bool_decide_eq_iff (P Q : Prop) `{Decision P, Decision Q} :
  (P ↔ Q) → bool_decide P = bool_decide Q.
Proof. intros H'. by apply bool_decide_ext. Qed.

Lemma string_neq_empty_length (s : string) : s ≠ "" ↔ 0 < String.length s.
Proof. destruct s; simpl; split; intros; try lia; congruence. Qed.

Lemma NoDup_snoc {A} (l : list A) x : NoDup (l ++ [x]) ↔ NoDup l ∧ x ∉ l.
Proof.
  rewrite NoDup_app. split.
  - intros (H1 & H2 & _). split; [done|]. intros Hx. apply (H2 x Hx). set_solver.
  - intros [H1 H2]. split; [done|]. split; [set_solver|apply NoDup_singleton].
Qed.

Lemma elem_of_snoc {A} (l : list A) x y : y ∈ l ++ [x] ↔ y ∈ l ∨ y = x.
Proof. set_solver. Qed.

#[export] Hint Rewrite @NoDup_snoc @elem_of_snoc : go.

Lemma head_app_Some {A} (l k : list A) x : head l = Some x → head (l ++ k) = Some x.
Proof. by destruct l. Qed.

(** A sublist of [l1 ++ l2] whose elements are all in [l1]. *)
Lemma sublist_app_outside {A} (l l1 l2 : list A) :
  NoDup (l1 ++ l2) → l `sublist_of` (l1 ++ l2) → (∀ x, x ∈ l → x ∈ l1) → l `sublist_of` l1.
Proof.
  intros Hnd Hsub Hin. apply sublist_app_r in Hsub as (k1 & k2 & -> & H1 & H2).
  destruct k2 as [|x k2]; [by rewrite app_nil_r|].
  apply NoDup_app in Hnd as (_ & Hdis & _). destruct (Hdis x).
  - apply Hin, elem_of_app. right. left.
  - eapply sublist_subseteq; [exact H2|left].
Qed.
