(* ===== verification/Conc.v ===== *)
(** * Goroutines as programs of atomic actions

    A goroutine is a [proc]: a sequence of atomic actions on the shared
    state, each of which may block ([None]).  An action is one Go operation
    that other goroutines cannot observe half done: a critical section of a
    mutex, a channel operation, an atomic load or store, a call that leaves
    the modelled package (a network write, a user callback).  The choice
    argument resolves what the language leaves open: the arm a [select] takes
    and the outcome of a network write.

    [exec] runs a pool of goroutines under a schedule.  [safe] is a program
    logic with ownership tokens: a thread may own tokens, the invariant
    [I s o] relates the shared state to the set [o] of all owned tokens, and
    each action must re-establish it whatever the other threads own.
    [exec_invariant] is its adequacy: [I] holds in every state any schedule
    reaches, and [exec_quiet] that in a state where every goroutine is between
    operations the only tokens left are those a resting goroutine may keep. *)

From S2P Require Import Prelude.

Inductive proc (S C A : Type) : Type :=
| Ret (a : A)
| Atom (X : Type) (f : C → S → option (S * X)) (k : X → proc S C A)
| Fork (q : proc S C unit) (k : proc S C A).
Arguments Ret {S C A} a.
Arguments Atom {S C A} X f k.
Arguments Fork {S C A} q k.

Fixpoint bind {S C A B : Type} (p : proc S C A) (f : A → proc S C B) : proc S C B :=
  match p with
  | Ret a => f a
  | Atom X g k => Atom X g (λ x, bind (k x) f)
  | Fork q k => Fork q (bind k f)
  end.

Declare Scope proc_scope.
Delimit Scope proc_scope with proc.
Bind Scope proc_scope with proc.
Notation "x <- p ;; q" := (bind p%proc (λ x, q%proc))
  (at level 20, p at level 99, q at level 200, only parsing) : proc_scope.
Notation "p ;; q" := (bind p%proc (λ _, q%proc))
  (at level 100, q at level 200, right associativity, only parsing) : proc_scope.

(** An action that ignores the choice, one that never blocks, a read. *)
Definition atomic {S C X : Type} (f : S → option (S * X)) : proc S C X :=
  Atom X (λ _ s, f s) Ret.
Definition modify {S C : Type} (f : S → S) : proc S C unit :=
  Atom unit (λ _ s, Some (f s, tt)) Ret.
Definition read {S C X : Type} (f : S → X) : proc S C X :=
  Atom X (λ _ s, Some (s, f s)) Ret.
Definition choose {S C X : Type} (f : C → S → option (S * X)) : proc S C X :=
  Atom X f Ret.

(** A goroutine that runs once, or an unbounded [for] loop: [L] holds the
    variables that live across iterations, the body returns the next ones or
    [None] when the loop is left. *)
Inductive thread (S C : Type) : Type :=
| Run (p : proc S C unit)
| Loop (L : Type) (body : L → proc S C (option L)) (cur : proc S C (option L)).
Arguments Run {S C} p.
Arguments Loop {S C} L body cur.

Definition start_loop {S C L : Type} (body : L → proc S C (option L)) (l : L) : thread S C :=
  Loop L body (body l).

Section semantics.
Context {S C : Type}.

(** One action of a program: the new state, the rest, the spawned goroutines. *)
Definition pstep {A : Type} (c : C) (s : S) (p : proc S C A)
    : option (S * proc S C A * list (thread S C)) :=
  match p with
  | Ret _ => None
  | Atom X f k => match f c s with
                  | Some (s', x) => Some (s', k x, [])
                  | None => None
                  end
  | Fork q k => Some (s, k, [Run q])
  end.

Definition tstep (c : C) (s : S) (t : thread S C)
    : option (S * thread S C * list (thread S C)) :=
  match t with
  | Run p => match pstep c s p with
             | Some (s', p', ts) => Some (s', Run p', ts)
             | None => None
             end
  | Loop L body cur =>
      match cur with
      | Ret (Some l) => Some (s, Loop L body (body l), [])
      | _ => match pstep c s cur with
             | Some (s', cur', ts) => Some (s', Loop L body cur', ts)
             | None => None
             end
      end
  end.

Definition config : Type := S * list (thread S C).

Definition step1 (ic : nat * C) (cfg : config) : option config :=
  let '(s, ts) := cfg in
  match ts !! ic.1 with
  | Some t => match tstep ic.2 s t with
              | Some (s', t', new) => Some (s', <[ic.1 := t']> ts ++ new)
              | None => None
              end
  | None => None
  end.

Fixpoint exec (sched : list (nat * C)) (cfg : config) : option config :=
  match sched with
  | [] => Some cfg
  | ic :: sched' => match step1 ic cfg with
                    | Some cfg' => exec sched' cfg'
                    | None => None
                    end
  end.

(** [run p cs s] runs [p] alone, one choice per action, and returns the choices
    left: the sequential behaviour of an operation. *)
Fixpoint run {A : Type} (p : proc S C A) (cs : list C) (s : S) : option (S * A * list C) :=
  match p, cs with
  | Ret a, _ => Some (s, a, cs)
  | Atom X f k, c :: cs' => match f c s with
                            | Some (s', x) => run (k x) cs' s'
                            | None => None
                            end
  | Atom _ _ _, [] => None
  | Fork _ k, _ => run k cs s
  end.

Lemma run_bind {A B : Type} (p : proc S C A) (f : A → proc S C B) cs s :
  run (bind p f) cs s =
  match run p cs s with Some (s', a, cs') => run (f a) cs' s' | None => None end.
Proof.
  revert cs s. induction p as [a|A X g k IH|A q _ k IH]; intros [|c cs] s; simpl; try done.
  destruct (g c s) as [[s1 x]|]; [apply IH|done].
Qed.

Lemma run_modify {B : Type} (f : S → S) (k : unit → proc S C B) c cs s :
  run (bind (modify f) k) (c :: cs) s = run (k tt) cs (f s).
Proof. done. Qed.

Lemma run_atomic {X B : Type} (f : S → option (S * X)) (k : X → proc S C B) c cs s s' x :
  f s = Some (s', x) → run (bind (atomic f) k) (c :: cs) s = run (k x) cs s'.
Proof. intros Hf. simpl. by rewrite Hf. Qed.

Lemma exec_app l1 l2 cfg :
  exec (l1 ++ l2) cfg = match exec l1 cfg with Some c => exec l2 c | None => None end.
Proof.
  revert cfg. induction l1 as [|ic l1 IH]; intros cfg; simpl; [done|].
  destruct (step1 ic cfg); [apply IH|done].
Qed.

Lemma exec_atom i c l s ts X (f : C → S → option (S * X)) k s' x :
  ts !! i = Some (Run (Atom X f k)) → f c s = Some (s', x) →
  exec ((i, c) :: l) (s, ts) = exec l (s', <[i := Run (k x)]> ts).
Proof. intros Hi Hf. cbn [exec]. unfold step1. simpl. rewrite Hi. simpl. by rewrite Hf, app_nil_r. Qed.
End semantics.

(** ** Ownership tokens *)

Section logic.
Context {S C : Type} {Tok : Type} `{Countable Tok}.
Context (I : S → gset Tok → Prop).
(** What a goroutine may still own when it has ended or is between two
    iterations of its loop. *)
Context (Rest : gset Tok → Prop).

Fixpoint safe {A : Type} (o : gset Tok) (p : proc S C A) (Q : gset Tok → A → Prop) {struct p} : Prop :=
  match p with
  | Ret a => Q o a
  | Atom X f k => ∀ c s r s' x, o ## r → I s (o ∪ r) → f c s = Some (s', x) →
      ∃ o', o' ## r ∧ I s' (o' ∪ r) ∧ safe o' (k x) Q
  | Fork q k => ∃ o1 o2, o = o1 ∪ o2 ∧ o1 ## o2 ∧
      safe o1 q (λ o' _, Rest o') ∧ safe o2 k Q
  end.

Definition loop_post {L : Type} (J : L → gset Tok → Prop) (o : gset Tok) (r : option L) : Prop :=
  match r with Some l => J l o | None => Rest o end.

Definition thread_ok (o : gset Tok) (t : thread S C) : Prop :=
  match t with
  | Run p => safe o p (λ o' _, Rest o')
  | Loop L body cur => ∃ J : L → gset Tok → Prop,
      (∀ l o', J l o' → Rest o' ∧ safe o' (body l) (loop_post J)) ∧ safe o cur (loop_post J)
  end.

Lemma safe_mono {A : Type} (p : proc S C A) : ∀ o (Q Q' : gset Tok → A → Prop),
  (∀ o a, Q o a → Q' o a) → safe o p Q → safe o p Q'.
Proof.
  induction p as [a|A X f k IH|A q _ k IH]; simpl; intros o Q Q' HQ Hs.
  - eauto.
  - intros c s r s' x Hd HI Hf. destruct (Hs c s r s' x Hd HI Hf) as (o' & ? & ? & ?).
    exists o'. eauto.
  - destruct Hs as (o1 & o2 & ? & ? & ? & ?). exists o1, o2. eauto.
Qed.

Lemma safe_bind {A B : Type} (p : proc S C A) (f : A → proc S C B) : ∀ o Q,
  safe o p (λ o' a, safe o' (f a) Q) → safe o (bind p f) Q.
Proof.
  induction p as [a|A X g k IH|A q _ k IH]; simpl; intros o Q Hs.
  - done.
  - intros c s r s' x Hd HI Hf. destruct (Hs c s r s' x Hd HI Hf) as (o' & ? & ? & ?).
    exists o'. eauto.
  - destruct Hs as (o1 & o2 & ? & ? & ? & ?). exists o1, o2. eauto.
Qed.

Lemma safe_modify (f : S → S) o (Q : gset Tok → unit → Prop) :
  (∀ s r, o ## r → I s (o ∪ r) → ∃ o', o' ## r ∧ I (f s) (o' ∪ r) ∧ Q o' tt) →
  safe o (modify f : proc S C unit) Q.
Proof. intros Hf c s r s' x Hd HI Heq. simplify_eq. destruct (Hf s r Hd HI) as (o' & ? & ? & ?). eauto. Qed.

Lemma safe_read {X : Type} (f : S → X) o (Q : gset Tok → X → Prop) :
  (∀ s r, o ## r → I s (o ∪ r) → ∃ o', o' ## r ∧ I s (o' ∪ r) ∧ Q o' (f s)) →
  safe o (read f : proc S C X) Q.
Proof. intros Hf c s r s' x Hd HI Heq. simplify_eq. destruct (Hf _ r Hd HI) as (o' & ? & ? & ?). eauto. Qed.

Lemma safe_atomic {X : Type} (f : S → option (S * X)) o (Q : gset Tok → X → Prop) :
  (∀ s r s' x, o ## r → I s (o ∪ r) → f s = Some (s', x) →
     ∃ o', o' ## r ∧ I s' (o' ∪ r) ∧ Q o' x) →
  safe o (atomic f : proc S C X) Q.
Proof. intros Hf c s r s' x Hd HI Heq. destruct (Hf _ r _ _ Hd HI Heq) as (o' & ? & ? & ?). eauto. Qed.

(** Actions that leave the invariant alone, with the tokens unchanged. *)
Lemma safe_read_frame {X : Type} (f : S → X) o (Q : gset Tok → X → Prop) :
  (∀ x, Q o x) → safe o (read f : proc S C X) Q.
Proof. intros HQ. apply safe_read. eauto. Qed.

Lemma safe_atomic_frame {X : Type} (f : S → option (S * X)) o (Q : gset Tok → X → Prop) :
  (∀ s o s' x, I s o → f s = Some (s', x) → I s' o) → (∀ x, Q o x) →
  safe o (atomic f : proc S C X) Q.
Proof. intros Hf HQ. apply safe_atomic. eauto 10. Qed.

Lemma safe_modify_frame (f : S → S) o (Q : gset Tok → unit → Prop) :
  (∀ s o, I s o → I (f s) o) → Q o tt → safe o (modify f : proc S C unit) Q.
Proof. intros Hf HQ. apply safe_modify. eauto 10. Qed.

Lemma safe_choose {X : Type} (f : C → S → option (S * X)) o (Q : gset Tok → X → Prop) :
  (∀ c s r s' x, o ## r → I s (o ∪ r) → f c s = Some (s', x) →
     ∃ o', o' ## r ∧ I s' (o' ∪ r) ∧ Q o' x) →
  safe o (choose f : proc S C X) Q.
Proof. intros Hf c s r s' x Hd HI Heq. destruct (Hf _ _ r _ _ Hd HI Heq) as (o' & ? & ? & ?). eauto. Qed.

Lemma safe_choose_frame {X : Type} (f : C → S → option (S * X)) o (Q : gset Tok → X → Prop) :
  (∀ c s o s' x, I s o → f c s = Some (s', x) → I s' o) → (∀ x, Q o x) →
  safe o (choose f : proc S C X) Q.
Proof. intros Hf HQ. apply safe_choose. eauto 10. Qed.

(** *** Adequacy *)

Definition pool_ok (os : list (gset Tok)) (s : S) (ts : list (thread S C)) : Prop :=
  Forall2 thread_ok os ts ∧
  (∀ i j oi oj, i ≠ j → os !! i = Some oi → os !! j = Some oj → oi ## oj) ∧
  I s (⋃ os).

Definition others (i : nat) (os : list (gset Tok)) : gset Tok :=
  ⋃ (delete i os).

Lemma union_list_split os i (oi : gset Tok) :
  os !! i = Some oi → ⋃ os = oi ∪ others i os.
Proof.
  unfold others. revert i. induction os as [|o os IH]; intros [|i] Hi; simplify_eq/=; [done|].
  rewrite (IH i Hi). set_solver.
Qed.

Lemma elem_of_others os i x :
  x ∈ others i os → ∃ j oj, j ≠ i ∧ os !! j = Some oj ∧ x ∈ oj.
Proof.
  unfold others. revert i. induction os as [|o os IH]; intros i Hx; simpl in *; [set_solver|].
  destruct i as [|i]; simpl in *.
  - apply elem_of_union_list in Hx as (oj & Hin & Hx).
    apply list_elem_of_lookup in Hin as [j Hj]. exists (Datatypes.S j), oj. eauto with lia.
  - apply elem_of_union in Hx as [Hx|Hx].
    + exists 0, o. eauto with lia.
    + destruct (IH i Hx) as (j & oj & ? & ? & ?). exists (Datatypes.S j), oj. eauto with lia.
Qed.

Lemma others_intro os i j (oj : gset Tok) :
  j ≠ i → os !! j = Some oj → oj ⊆ others i os.
Proof.
  intros Hne Hj x Hx. unfold others. apply elem_of_union_list. exists oj. split; [|done].
  apply list_elem_of_lookup. destruct (decide (j < i)).
  - exists j. by rewrite list_lookup_delete_lt.
  - exists (j - 1). rewrite list_lookup_delete_ge by lia.
    by replace (Datatypes.S (j - 1)) with j by lia.
Qed.

Lemma others_disjoint os i oi :
  (∀ i j oi oj, i ≠ j → os !! i = Some oi → os !! j = Some oj → oi ## oj) →
  os !! i = Some oi → oi ## others i os.
Proof.
  intros Hd Hi x Hx Ho. apply elem_of_others in Ho as (j & oj & ? & ? & ?).
  by apply (Hd i j oi oj ltac:(done) Hi ltac:(done) x).
Qed.

Lemma others_insert os i o' : others i (<[i:=o']> os) = others i os.
Proof.
  unfold others. f_equal. revert i. induction os as [|o os IH]; intros [|i]; simpl; [done..|].
  by rewrite IH.
Qed.

Lemma pool_insert os s s' ts i oi o' t' :
  pool_ok os s ts → os !! i = Some oi →
  o' ## others i os → I s' (o' ∪ others i os) → thread_ok o' t' →
  pool_ok (<[i:=o']> os) s' (<[i:=t']> ts).
Proof.
  intros (HF & Hdis & _) Hi Ho' HI Hok.
  assert (i < length os) by (by eapply lookup_lt_Some).
  split; [by apply Forall2_insert|]. split.
  - intros a b oa ob Hne Ha Hb.
    destruct (decide (a = i)) as [->|]; destruct (decide (b = i)) as [->|]; try done.
    + rewrite list_lookup_insert_eq in Ha by done.
      rewrite list_lookup_insert_ne in Hb by done. simplify_eq.
      pose proof (others_intro os i b ob ltac:(done) Hb). set_solver.
    + rewrite list_lookup_insert_eq in Hb by done.
      rewrite list_lookup_insert_ne in Ha by done. simplify_eq.
      pose proof (others_intro os i a oa ltac:(done) Ha). set_solver.
    + rewrite list_lookup_insert_ne in Ha by done.
      rewrite list_lookup_insert_ne in Hb by done. by eapply (Hdis a b).
  - rewrite (union_list_split _ i o'); [|by apply list_lookup_insert_eq].
    by rewrite others_insert.
Qed.

(** A spawned goroutine takes over part of its parent's tokens. *)
Lemma pool_fork os s ts i o1 o2 t :
  pool_ok (<[i:=o1 ∪ o2]> os) s ts → i < length os →
  o1 ## o2 → thread_ok o1 t →
  ∀ t', thread_ok o2 t' →
  pool_ok (<[i:=o2]> os ++ [o1]) s (<[i:=t']> ts ++ [t]).
Proof.
  intros (HF & Hdis & HI) Hlt Hd Hok t' Hok'.
  assert (Hi : <[i:=o1 ∪ o2]> os !! i = Some (o1 ∪ o2)) by (by apply list_lookup_insert_eq).
  assert (Hsplit : ⋃ (<[i:=o2]> os ++ [o1]) = ⋃ (<[i:=o1 ∪ o2]> os)).
  { rewrite union_list_app_L. simpl.
    rewrite (union_list_split (<[i:=o2]> os) i o2) by (by apply list_lookup_insert_eq).
    rewrite (union_list_split _ i _ Hi), !others_insert. set_solver. }
  pose proof (others_disjoint _ _ _ Hdis Hi) as Hoth. rewrite others_insert in Hoth.
  assert (Hnew : ∀ a oa, a ≠ i → <[i:=o2]> os !! a = Some oa → oa ## o1 ∧ oa ## o2).
  { intros a oa Hne Ha. rewrite list_lookup_insert_ne in Ha by done.
    assert (oa ## o1 ∪ o2).
    { apply (Hdis a i); [done| |done]. by rewrite list_lookup_insert_ne. }
    set_solver. }
  split; [|split; [|by rewrite Hsplit]].
  - apply Forall2_app; [|by repeat constructor].
    rewrite <-(list_insert_insert_eq os i o2 (o1 ∪ o2)). by apply Forall2_insert.
  - intros a b oa ob Hne Ha Hb.
    apply lookup_app_Some in Ha as [Ha|[Hla Ha]]; apply lookup_app_Some in Hb as [Hb|[Hlb Hb]].
    + destruct (decide (a = i)) as [->|Hai]; destruct (decide (b = i)) as [->|Hbi]; try done.
      * rewrite list_lookup_insert_eq in Ha by done. simplify_eq. symmetry. by eapply Hnew.
      * rewrite list_lookup_insert_eq in Hb by done. simplify_eq. by eapply Hnew.
      * rewrite list_lookup_insert_ne in Ha by done.
        rewrite list_lookup_insert_ne in Hb by done.
        apply (Hdis a b); [done|..]; by rewrite list_lookup_insert_ne.
    + apply list_lookup_singleton_Some in Hb as [? <-].
      destruct (decide (a = i)) as [->|Hai]; [|by eapply Hnew].
      rewrite list_lookup_insert_eq in Ha by done. by simplify_eq.
    + apply list_lookup_singleton_Some in Ha as [? <-].
      destruct (decide (b = i)) as [->|Hbi]; [|symmetry; by eapply Hnew].
      rewrite list_lookup_insert_eq in Hb by done. by simplify_eq.
    + apply list_lookup_singleton_Some in Ha as [? _].
      apply list_lookup_singleton_Some in Hb as [? _]. lia.
Qed.

Lemma pstep_ok {A : Type} (p p' : proc S C A) c s s' new o r Q :
  safe o p Q → o ## r → I s (o ∪ r) → pstep c s p = Some (s', p', new) →
  (new = [] ∧ ∃ o', o' ## r ∧ I s' (o' ∪ r) ∧ safe o' p' Q) ∨
  (s' = s ∧ ∃ q o1 o2, new = [Run q] ∧ o = o1 ∪ o2 ∧ o1 ## o2 ∧
     safe o1 q (λ o' _, Rest o') ∧ safe o2 p' Q).
Proof.
  intros Hs Hd HI Hstep. destruct p as [a|X f k|q k]; simplify_eq/=.
  - destruct (f c s) as [[s1 x]|] eqn:Hf; simplify_eq. left. split; [done|].
    by eapply Hs.
  - right. destruct Hs as (o1 & o2 & ? & ? & ? & ?). split; [done|].
    exists q, o1, o2. auto.
Qed.

Lemma tstep_ok t t' c s s' new o r :
  thread_ok o t → o ## r → I s (o ∪ r) → tstep c s t = Some (s', t', new) →
  (new = [] ∧ ∃ o', o' ## r ∧ I s' (o' ∪ r) ∧ thread_ok o' t') ∨
  (s' = s ∧ ∃ q o1 o2, new = [Run q] ∧ o = o1 ∪ o2 ∧ o1 ## o2 ∧
     safe o1 q (λ o' _, Rest o') ∧ thread_ok o2 t').
Proof.
  intros Hok Hd HI Hstep. destruct t as [p|L body cur]; simpl in Hstep.
  - destruct (pstep c s p) as [[[s1 p1] ts]|] eqn:Hp; simplify_eq.
    destruct (pstep_ok _ _ _ _ _ _ _ _ _ Hok Hd HI Hp) as [Hl|(? & q & o1 & o2 & Hr)]; [by left|].
    right. split; [done|]. by exists q, o1, o2.
  - destruct Hok as (J & Hbody & Hcur).
    destruct cur as [[l|]|X f k|q k]; simplify_eq.
    + left. split; [done|]. exists o. split; [done|]. split; [done|].
      exists J. split; [done|]. apply Hbody, Hcur.
    + destruct (pstep c s (Atom X f k)) as [[[s1 p1] ts]|] eqn:Hp; simplify_eq.
      destruct (pstep_ok _ _ _ _ _ _ _ _ _ Hcur Hd HI Hp) as
        [(? & o' & ? & ? & ?)|(? & q & o1 & o2 & ? & ? & ? & ? & ?)].
      * left. split; [done|]. exists o'. do 2 (split; [done|]). by exists J.
      * right. split; [done|]. exists q, o1, o2. do 4 (split; [done|]). by exists J.
    + destruct (pstep c s (Fork q k)) as [[[s1 p1] ts]|] eqn:Hp; simplify_eq.
      destruct (pstep_ok _ _ _ _ _ _ _ _ _ Hcur Hd HI Hp) as
        [(? & o' & ? & ? & ?)|(? & q' & o1 & o2 & ? & ? & ? & ? & ?)].
      * left. split; [done|]. exists o'. do 2 (split; [done|]). by exists J.
      * right. split; [done|]. exists q', o1, o2. do 4 (split; [done|]). by exists J.
Qed.

Lemma step1_ok ic os s ts s' ts' :
  pool_ok os s ts → step1 ic (s, ts) = Some (s', ts') → ∃ os', pool_ok os' s' ts'.
Proof.
  intros Hpool Hstep. destruct ic as [i c]. unfold step1 in Hstep. simpl in Hstep.
  destruct (ts !! i) as [t|] eqn:Ht; [|done].
  destruct (tstep c s t) as [[[s1 t1] new]|] eqn:Hts; simplify_eq.
  pose proof Hpool as (HF & Hdis & HI).
  destruct (Forall2_lookup_r _ _ _ _ _ HF Ht) as (oi & Hoi & Hok).
  pose proof (others_disjoint _ _ _ Hdis Hoi) as Hd.
  rewrite (union_list_split _ _ _ Hoi) in HI.
  assert (Hlt : i < length os) by (by eapply lookup_lt_Some).
  destruct (tstep_ok _ _ _ _ _ _ _ _ Hok Hd HI Hts) as
    [(-> & o' & ? & ? & ?)|(-> & q & o1 & o2 & -> & -> & ? & ? & ?)].
  - exists (<[i:=o']> os). rewrite app_nil_r. by eapply pool_insert.
  - exists (<[i:=o2]> os ++ [o1]). apply pool_fork; simpl; try done.
    by rewrite list_insert_id.
Qed.

Lemma exec_ok sched os s ts s' ts' :
  pool_ok os s ts → exec sched (s, ts) = Some (s', ts') → ∃ os', pool_ok os' s' ts'.
Proof.
  revert os s ts. induction sched as [|ic sched IH]; intros os s ts Hpool Hex; cbn [exec] in Hex.
  - simplify_eq. by exists os.
  - destruct (step1 ic (s, ts)) as [[s1 ts1]|] eqn:Hs; [|done].
    destruct (step1_ok _ _ _ _ _ _ Hpool Hs) as [os' Hpool']. by eapply IH.
Qed.

(** Adequacy: the invariant holds in every state a schedule reaches. *)
Lemma exec_invariant sched os s ts s' ts' :
  pool_ok os s ts → exec sched (s, ts) = Some (s', ts') → ∃ o, I s' o.
Proof.
  intros Hpool Hex. destruct (exec_ok _ _ _ _ _ _ Hpool Hex) as [os' (_ & _ & HI)]. eauto.
Qed.

(** A goroutine that has ended, or is at the top of its loop. *)
Definition thread_quiet (t : thread S C) : bool :=
  match t with
  | Run (Ret _) | Loop _ _ (Ret _) => true
  | _ => false
  end.

Lemma thread_quiet_Rest o t : thread_ok o t → thread_quiet t = true → Rest o.
Proof.
  destruct t as [[]|L body [[l|]| |]]; simpl; try done.
  - intros (J & Hb & HJ) _. by apply (Hb l).
  - by intros (J & _ & HJ) _.
Qed.

(** Adequacy for states in which no goroutine is inside an operation. *)
Lemma exec_quiet sched os s ts s' ts' :
  pool_ok os s ts → exec sched (s, ts) = Some (s', ts') →
  Forall (λ t, thread_quiet t = true) ts' →
  ∃ os', Forall Rest os' ∧ I s' (⋃ os').
Proof.
  intros Hpool Hex Hq. destruct (exec_ok _ _ _ _ _ _ Hpool Hex) as [os' (HF & _ & HI)].
  exists os'. split; [|done]. clear -HF Hq.
  induction HF; inversion_clear Hq; constructor; eauto using thread_quiet_Rest.
Qed.

(** A pool in which only the first thread owns tokens at the start. *)
Lemma exec_invariant_head sched o s t ts s' ts' :
  I s o → thread_ok o t → Forall (thread_ok ∅) ts → exec sched (s, t :: ts) = Some (s', ts') → ∃ o', I s' o'.
Proof.
  intros HI Ht Hts. apply (exec_invariant sched (o :: replicate (length ts) ∅)).
  assert (Hu : ∀ n, ⋃ replicate n ∅ =@{gset Tok} ∅).
  { induction n as [|n IHn]; simpl; [done|]. rewrite IHn. set_solver. }
  split; [|split; [|simpl; by rewrite Hu, (right_id_L ∅ (∪))]].
  - constructor; [done|]. clear -Hts. induction Hts; simpl; by constructor.
  - intros [|i] [|j] oi oj Hne Hi Hj; simplify_eq/=.
    + apply lookup_replicate in Hj as [-> _]. set_solver.
    + apply lookup_replicate in Hi as [-> _]. set_solver.
    + apply lookup_replicate in Hi as [-> _]. set_solver.
Qed.

(** A pool whose threads own nothing at the start. *)
Lemma exec_invariant_init sched s ts s' ts' :
  I s ∅ → Forall (thread_ok ∅) ts → exec sched (s, ts) = Some (s', ts') → ∃ o, I s' o.
Proof.
  intros HI Hts. apply (exec_invariant sched (replicate (length ts) ∅)).
  assert (Hu : ∀ n, ⋃ replicate n ∅ =@{gset Tok} ∅).
  { induction n as [|n IHn]; simpl; [done|]. rewrite IHn. set_solver. }
  split; [|split; [|by rewrite Hu]].
  - induction Hts; simpl; by constructor.
  - intros i j oi oj _ Hi Hj. apply lookup_replicate in Hi as [-> _]. set_solver.
Qed.
End logic.

(** ** Progress *)

Section progress.
Context {S C : Type}.

(** Whatever the other goroutines do to the state between its actions, the
    next action of the program is enabled, for some choice of the environment. *)
Fixpoint progresses {A : Type} (p : proc S C A) : Prop :=
  match p with
  | Ret _ => True
  | Atom X f k => (∀ s, ∃ c s' x, f c s = Some (s', x)) ∧
                  (∀ c s s' x, f c s = Some (s', x) → progresses (k x))
  | Fork _ k => progresses k
  end.

Lemma progresses_bind {A B : Type} (p : proc S C A) (f : A → proc S C B) :
  progresses p → (∀ a, progresses (f a)) → progresses (bind p f).
Proof.
  intros Hp Hf. induction p as [a|A X g k IH|A q _ k IH]; simpl in *; [done| |auto].
  destruct Hp as [He Hk]. split; [done|]. intros c s s' x Hg. eapply IH; eauto.
Qed.

Lemma progresses_read {X : Type} (f : S → X) (c : C) : progresses (read f : proc S C X).
Proof. split; [|done]. intros s. by exists c, s, (f s). Qed.
Lemma progresses_modify (f : S → S) (c : C) : progresses (modify f : proc S C unit).
Proof. split; [|done]. intros s. by exists c, (f s), tt. Qed.
Lemma progresses_atomic {X : Type} (f : S → option (S * X)) (c : C) :
  (∀ s, is_Some (f s)) → progresses (atomic f : proc S C X).
Proof. intros Hf. split; [|done]. intros s. destruct (Hf s) as [[s' x] Hx]. by exists c, s', x. Qed.
Lemma progresses_choose {X : Type} (f : C → S → option (S * X)) (c : C) :
  (∀ s, is_Some (f c s)) → progresses (choose f : proc S C X).
Proof. intros Hf. split; [|done]. intros s. destruct (Hf s) as [[s' x] Hx]. by exists c, s', x. Qed.

(** Run alone, it comes to its end. *)
Lemma progresses_run {A : Type} (p : proc S C A) :
  progresses p → ∀ s, ∃ cs s' a, run p cs s = Some (s', a, []).
Proof.
  induction p as [A a|A X g k IH|A q _ k IH]; simpl; intros Hp s.
  - by exists [], s, a.
  - destruct Hp as [He Hk]. destruct (He s) as (c & s1 & x & Hg).
    destruct (IH x (Hk _ _ _ _ Hg) s1) as (cs & s' & a & Hr). exists (c :: cs), s', a. simpl. by rewrite Hg.
  - destruct (IH Hp s) as (cs & s' & a & Hr). exists cs, s', a. by destruct cs.
Qed.
End progress.

(** ** Calls out of the package

    Some choices are the answer to a call of code outside the package: until it is
    given, the call has not returned.  [waits_for answers p]: whatever the other
    goroutines do to the state, the next action of [p] is enabled without an
    answer, or it is a call, which only an answer completes. *)

Section waiting.
Context {S C : Type}.

Definition enabled {X : Type} (f : C → S → option (S * X)) (s : S) (P : C → Prop) : Prop :=
  ∃ c s' x, P c ∧ f c s = Some (s', x).
Definition is_call {X : Type} (answers : C → Prop) (f : C → S → option (S * X)) : Prop :=
  (∀ s, enabled f s answers) ∧ ∀ c s s' x, f c s = Some (s', x) → answers c.

Fixpoint waits_for (answers : C → Prop) {A : Type} (p : proc S C A) : Prop :=
  match p with
  | Ret _ => True
  | Atom X f k => ((∀ s, enabled f s (λ c, ¬ answers c)) ∨ is_call answers f) ∧
                  (∀ c s s' x, f c s = Some (s', x) → waits_for answers (k x))
  | Fork _ k => waits_for answers k
  end.

Context (answers : C → Prop).

Lemma waits_bind {A B : Type} (p : proc S C A) (f : A → proc S C B) :
  waits_for answers p → (∀ a, waits_for answers (f a)) → waits_for answers (bind p f).
Proof.
  intros Hp Hf. induction p as [a|A X g k IH|A q _ k IH]; simpl in *; [done| |auto].
  destruct Hp as [He Hk]. split; [done|]. intros c s s' x Hg. eapply IH; eauto.
Qed.

Lemma waits_atomic {X : Type} (f : S → option (S * X)) (c : C) :
  ¬ answers c → (∀ s, is_Some (f s)) → waits_for answers (atomic f : proc S C X).
Proof. intros Hc Hf. split; [|done]. left. intros s. destruct (Hf s) as [[s' x] Hx]. by exists c, s', x. Qed.
Lemma waits_read {X : Type} (f : S → X) (c : C) : ¬ answers c → waits_for answers (read f : proc S C X).
Proof. intros Hc. split; [|done]. left. intros s. by exists c, s, (f s). Qed.
Lemma waits_modify (f : S → S) (c : C) : ¬ answers c → waits_for answers (modify f : proc S C unit).
Proof. intros Hc. split; [|done]. left. intros s. by exists c, (f s), tt. Qed.
Lemma waits_call {X : Type} (f : C → S → option (S * X)) :
  is_call answers f → waits_for answers (choose f : proc S C X).
Proof. intros Hf. by split; [right|]. Qed.

(** Once every call is answered, it comes to its end. *)
Lemma waits_progress {A : Type} (p : proc S C A) : waits_for answers p → progresses p.
Proof.
  induction p as [a|A X g k IH|A q _ k IH]; simpl; [done| |auto]. intros [He Hk]. split; [|eauto].
  intros s. destruct He as [He|[He _]]; destruct (He s) as (c & s' & x & _ & Hg); eauto.
Qed.
End waiting.

(** ** Blocking and interference *)

(** Operations among other goroutines: the states in which their actions happen
    are arbitrary, or arbitrary with a property. *)

Section blocking.
Context {S C : Type}.

(** The next action of the program is enabled, for some choice, in every state
    with [P], whatever the other goroutines did in between. *)
Fixpoint progresses_in (P : S → Prop) {A : Type} (p : proc S C A) : Prop :=
  match p with
  | Ret _ => True
  | Atom X f k => (∀ s, P s → ∃ c s' x, f c s = Some (s', x)) ∧
                  (∀ c s s' x, P s → f c s = Some (s', x) → progresses_in P (k x))
  | Fork _ k => progresses_in P k
  end.

(** What a program returns when its actions happen in the given states. *)
Fixpoint observed {A : Type} (p : proc S C A) (obs : list (C * S)) : option A :=
  match p, obs with
  | Ret a, [] => Some a
  | Atom X f k, (c, s) :: obs' => match f c s with Some (_, x) => observed (k x) obs' | None => None end
  | Fork _ k, _ => observed k obs
  | _, _ => None
  end.
End blocking.

(** ** Invariants without ownership

    [keeps I p]: every action of [p], and of the goroutines it starts, keeps [I]
    whatever the others do in between. *)

Section keeps.
Context {S C : Type} (I : S → Prop).

Fixpoint keeps {A : Type} (p : proc S C A) : Prop :=
  match p with
  | Ret _ => True
  | Atom X f k => (∀ c s s' x, I s → f c s = Some (s', x) → I s') ∧ ∀ x, keeps (k x)
  | Fork q k => keeps q ∧ keeps k
  end.

Definition thread_keeps (t : thread S C) : Prop :=
  match t with
  | Run p => keeps p
  | Loop L body cur => keeps cur ∧ ∀ l, keeps (body l)
  end.

Lemma proc_keeps_bind {A B : Type} (p : proc S C A) (f : A → proc S C B) :
  keeps p → (∀ a, keeps (f a)) → keeps (bind p f).
Proof. intros Hp Hf. induction p as [a|A X g k IH|A q _ k IH]; simpl in *; [done|naive_solver..]. Qed.

Lemma keeps_modify (f : S → S) : (∀ s, I s → I (f s)) → keeps (modify f : proc S C unit).
Proof. intros Hf. split; [|done]. intros c s s' x Hs [= <- <-]. auto. Qed.
Lemma keeps_read {X : Type} (f : S → X) : keeps (read f : proc S C X).
Proof. split; [|done]. by intros c s s' x Hs [= <- <-]. Qed.
Lemma keeps_atomic {X : Type} (f : S → option (S * X)) :
  (∀ s s' x, I s → f s = Some (s', x) → I s') → keeps (atomic f : proc S C X).
Proof. intros Hf. split; [|done]. intros c s s' x Hs. by apply Hf. Qed.
Lemma keeps_choose {X : Type} (f : C → S → option (S * X)) :
  (∀ c s s' x, I s → f c s = Some (s', x) → I s') → keeps (choose f).
Proof. intros Hf. by split. Qed.

Lemma pstep_keeps {A : Type} c s (p : proc S C A) s' p' new :
  keeps p → I s → pstep c s p = Some (s', p', new) → I s' ∧ keeps p' ∧ Forall thread_keeps new.
Proof.
  destruct p as [a|X f k|q k]; simpl; intros Hp Hs Hst; [done| |].
  - destruct Hp as [Hf Hk]. destruct (f c s) as [[s1 x]|] eqn:E; simplify_eq. eauto.
  - destruct Hp. simplify_eq. split_and!; [done..|]. by repeat constructor.
Qed.

Lemma tstep_keeps c s t s' t' new :
  thread_keeps t → I s → tstep c s t = Some (s', t', new) → I s' ∧ thread_keeps t' ∧ Forall thread_keeps new.
Proof.
  destruct t as [p|L body cur]; simpl; intros Ht Hs Hst.
  - destruct (pstep c s p) as [[[s1 p1] new1]|] eqn:E; simplify_eq. by eapply pstep_keeps.
  - destruct Ht as [Hc Hb].
    assert (Hp : ∀ s1 p1 new1, pstep c s cur = Some (s1, p1, new1) → (s1, Loop L body p1, new1) = (s', t', new) →
      I s' ∧ thread_keeps t' ∧ Forall thread_keeps new).
    { intros s1 p1 new1 E [= <- <- <-]. destruct (pstep_keeps _ _ _ _ _ _ Hc Hs E) as (? & ? & ?). by repeat split. }
    destruct cur as [[l|]|X f k|q k]; cbn [pstep] in Hp, Hst.
    + simplify_eq. by repeat split; auto.
    + done.
    + destruct (f c s) as [[s1 x]|]; [|done]. eapply Hp; [reflexivity|]. by injection Hst as -> -> ->.
    + eapply Hp; [reflexivity|]. by injection Hst as -> -> ->.
Qed.

(** The invariant holds in every state a schedule reaches. *)
Lemma exec_keeps sched : ∀ s ts s' ts',
  I s → Forall thread_keeps ts → exec sched (s, ts) = Some (s', ts') → I s' ∧ Forall thread_keeps ts'.
Proof.
  induction sched as [|ic sched IH]; intros s ts s' ts' Hs Hts Hex; simpl in Hex; [by simplify_eq|].
  destruct (ts !! ic.1) as [t|] eqn:Ht; [|done].
  destruct (tstep ic.2 s t) as [[[s1 t1] new]|] eqn:E; [|done].
  destruct (tstep_keeps _ _ _ _ _ _ (proj1 (Forall_lookup _ _) Hts _ _ Ht) Hs E) as (Hs1 & Ht1 & Hnew).
  eapply (IH s1); [done| |done]. apply Forall_app. split; [by apply Forall_insert|done].
Qed.
End keeps.
