(* ===== verification/Ocpp.v ===== *)
(** * Package [ocpp]: errors and profiles (src/ocpp/ocpp.go)

    Go [error] values, [ocpp.Error] with its [Is]/[Unwrap] methods and
    [errors.Is], and [Profile], the feature table of an endpoint.  A feature's
    [reflect.Type]s, the requests and the responses are chosen by the profile
    packages and by user code: they are type parameters. *)

From S2P Require Import Prelude.
Local Open Scope string_scope.
Local Open Scope list_scope.

(** ** Error values

    [Error E] is the struct [ocpp.Error]; its [Cause] is any Go error. *)
Record Error (E : Type) := mkError {
  Code : string;
  Description : string;
  MessageId : string;
  Marker : string;
  Cause : option E
}.
Arguments mkError {E}.
Arguments Code {E}.
Arguments Description {E}.
Arguments MessageId {E}.
Arguments Marker {E}.
Arguments Cause {E}.

(** A Go [error]: a package-level variable made with [errors.New] (equal only
    to itself), the result of a [fmt.Errorf] call (with what [%w] wraps), or a
    pointer to an [ocpp.Error]. *)
Inductive error :=
| Sentinel (name text : string)
| Errorf (text : string) (wrapped : option error)
| OcppError (e : Error error).

Definition ocpp_error : Type := Error error.

Definition NewError (errorCode description messageId : string) : ocpp_error :=
  mkError errorCode description messageId "" None.

Definition NewHandlerError (errorCode description : string) : ocpp_error :=
  mkError errorCode description "" "" None.

(** [Error.Error]. *)
Definition Error_Error (err : ocpp_error) : string :=
  "ocpp message (" +:+ MessageId err +:+ "): " +:+ Code err +:+ " - " +:+ Description err.

Definition error_text (e : error) : string :=
  match e with
  | Sentinel _ text => text
  | Errorf text _ => text
  | OcppError err => Error_Error err
  end.

(** [Error.Is]: only a non-empty marker matches. *)
Definition Error_Is (err : ocpp_error) (target : error) : bool :=
  match target with
  | OcppError t => bool_decide (Marker t ≠ "") && bool_decide (Marker err = Marker t)
  | _ => false
  end.

Definition Error_Unwrap (err : ocpp_error) : option error := Cause err.

(** [errors.Is]: equality, then the [Is] method, then the unwrapped error.
    The standard library also compares pointers; two [*ocpp.Error] pointers
    with a non-empty marker that are equal also match by [Error_Is]. *)
Fixpoint errors_Is (err target : error) : bool :=
  match err with
  | Sentinel n _ =>
      match target with Sentinel m _ => bool_decide (n = m) | _ => false end
  | Errorf _ w =>
      match w with Some e => errors_Is e target | None => false end
  | OcppError o =>
      Error_Is o target ||
      match o with
      | mkError _ _ _ _ (Some e) => errors_Is e target
      | mkError _ _ _ _ None => false
      end
  end.

Definition context_Canceled : error := Sentinel "context.Canceled" "context canceled".
Definition context_DeadlineExceeded : error :=
  Sentinel "context.DeadlineExceeded" "context deadline exceeded".

(** ** Profiles *)

(** The [Dialect] constants; the zero value is the blank one. *)
Inductive Dialect := DialectUnset | V16 | V2.

#[export] Instance Dialect_eq_dec : EqDecision Dialect.
Proof. solve_decision. Defined.

Section profile.
Context {rtype : Type}.

Record Feature := mkFeature {
  GetFeatureName : string;
  GetRequestType : rtype;
  GetResponseType : rtype
}.

Record Profile := mkProfile {
  Name : string;
  Features : gmap string Feature
}.

Definition AddFeature (p : Profile) (feature : Feature) : Profile :=
  mkProfile (Name p) (<[GetFeatureName feature := feature]> (Features p)).

Definition NewProfile (name : string) (features : list Feature) : Profile :=
  foldl AddFeature (mkProfile name ∅) features.

Definition SupportsFeature (p : Profile) (name : string) : bool :=
  bool_decide (is_Some (Features p !! name)).

Definition GetFeature (p : Profile) (name : string) : option Feature :=
  Features p !! name.

Definition ParseRequest {raw Request : Type} (p : Profile) (featureName : string)
    (rawRequest : raw) (requestParser : raw → rtype → Request + error) : Request + error :=
  match Features p !! featureName with
  | None => inr (Errorf ("Feature " +:+ featureName +:+ " not found") None)
  | Some feature => requestParser rawRequest (GetRequestType feature)
  end.

Definition ParseResponse {raw Response : Type} (p : Profile) (featureName : string)
    (rawResponse : raw) (responseParser : raw → rtype → Response + error) : Response + error :=
  match Features p !! featureName with
  | None => inr (Errorf ("Feature " +:+ featureName +:+ " not found") None)
  | Some feature => responseParser rawResponse (GetResponseType feature)
  end.

(** The last feature of a list registered under a name. *)
Definition last_named (name : string) (fs : list Feature) : option Feature :=
  foldl (λ acc f, if decide (GetFeatureName f = name) then Some f else acc) None fs.

Lemma AddFeature_Name p f : Name (AddFeature p f) = Name p.
Proof. done. Qed.

Lemma foldl_AddFeature_lookup fs : ∀ p name,
  Features (foldl AddFeature p fs) !! name =
  foldl (λ acc f, if decide (GetFeatureName f = name) then Some f else acc)
    (Features p !! name) fs.
Proof.
  induction fs as [|f fs IH]; intros p name; simpl; [done|].
  rewrite IH. f_equal. simpl. rewrite lookup_insert. by repeat case_decide.
Qed.

Lemma NewProfile_lookup name fs n :
  GetFeature (NewProfile name fs) n = last_named n fs.
Proof. unfold GetFeature, NewProfile. by rewrite foldl_AddFeature_lookup. Qed.

Lemma SupportsFeature_GetFeature p n :
  SupportsFeature p n = true ↔ is_Some (GetFeature p n).
Proof. unfold SupportsFeature, GetFeature. by rewrite bool_decide_eq_true. Qed.
End profile.
Arguments Feature : clear implicits.
Arguments Profile : clear implicits.

(** ** Classification lemmas *)

Lemma errors_Is_plain_ocpp code desc id target :
  errors_Is (OcppError (NewError code desc id)) target = false.
Proof.
  simpl. unfold Error_Is. destruct target as [| |t]; simpl; [done..|].
  destruct (bool_decide_reflect (Marker t ≠ "")); simpl; [|done].
  rewrite (bool_decide_eq_false_2 ("" = Marker t)) by done. done.
Qed.

Lemma errors_Is_wrap text e target :
  errors_Is (Errorf text (Some e)) target = errors_Is e target.
Proof. done. Qed.
