(* ===== verification/Errors.v ===== *)
(** * Local error sentinels of [ocppj] (src/ocppj/ocppj.go, top of the file)

    The dispatcher synthesises four kinds of errors itself and tags each with
    a marker, so that a caller can tell it from a CALL ERROR the peer sent. *)

From S2P Require Import Prelude Ocpp.
Local Open Scope string_scope.
Local Open Scope list_scope.

(** OCPP error codes used by the layer. *)
Definition NotImplemented := "NotImplemented".
Definition NotSupported := "NotSupported".
Definition InternalError := "InternalError".
Definition MessageTypeNotSupported := "MessageTypeNotSupported".
Definition ProtocolError := "ProtocolError".
Definition SecurityError := "SecurityError".
Definition PropertyConstraintViolation := "PropertyConstraintViolation".
Definition OccurrenceConstraintViolationV2 := "OccurrenceConstraintViolation".
Definition OccurrenceConstraintViolationV16 := "OccurenceConstraintViolation".
Definition TypeConstraintViolation := "TypeConstraintViolation".
Definition GenericError := "GenericError".
Definition FormatViolationV2 := "FormatViolation".
Definition FormatViolationV16 := "FormationViolation".

Definition requestTimeoutMarker := "ocppj/request-timeout".
Definition requestCanceledMarker := "ocppj/request-canceled".
Definition dispatcherStoppedMarker := "ocppj/dispatcher-stopped".
Definition localTransportMarker := "ocppj/local-transport".

Definition ErrRequestTimeout : error := OcppError (mkError "" "" "" requestTimeoutMarker None).
Definition ErrRequestCanceled : error := OcppError (mkError "" "" "" requestCanceledMarker None).
Definition ErrDispatcherStopped : error := OcppError (mkError "" "" "" dispatcherStoppedMarker None).
Definition ErrLocalTransport : error := OcppError (mkError "" "" "" localTransportMarker None).

Definition with_marker (m : string) (e : ocpp_error) : ocpp_error :=
  mkError (Code e) (Description e) (MessageId e) m (Cause e).

Definition newRequestTimeoutError (messageID : string) : ocpp_error :=
  with_marker requestTimeoutMarker (NewError GenericError "Request timed out" messageID).

Definition NewRequestCanceledError (messageID : string) (cause : option error) : ocpp_error :=
  let description := match cause with Some c => error_text c | None => "request canceled" end in
  mkError GenericError description messageID requestCanceledMarker cause.

Definition newDispatcherStoppedError (messageID : string) : ocpp_error :=
  with_marker dispatcherStoppedMarker (NewError GenericError "Dispatcher stopped" messageID).

Definition NewLocalTransportError (code description messageID : string) : ocpp_error :=
  with_marker localTransportMarker (NewError code description messageID).

(** [markLocalTransportError] (src/ocppj/dispatcher.go): stamps an unmarked
    cancel error, leaves a marked one alone; [nil] stays [nil]. *)
Definition markLocalTransportError (err : option ocpp_error) : option ocpp_error :=
  match err with
  | Some e => if decide (Marker e = "") then Some (with_marker localTransportMarker e) else Some e
  | None => None
  end.

(** The sentinels, to state that exactly one matches. *)
Definition sentinels : list error :=
  [ErrRequestTimeout; ErrRequestCanceled; ErrDispatcherStopped; ErrLocalTransport].

(** Which of the four sentinels an error matches, as a bit list. *)
Definition classify (e : ocpp_error) : list bool :=
  map (errors_Is (OcppError e)) sentinels.

Definition unmarked_cause (c : option error) : Prop :=
  match c with
  | Some e => Forall (λ t, errors_Is e t = false) sentinels
  | None => True
  end.

Lemma classify_marked code desc id m c :
  unmarked_cause c →
  classify (mkError code desc id m c) =
  [bool_decide (m = requestTimeoutMarker); bool_decide (m = requestCanceledMarker);
   bool_decide (m = dispatcherStoppedMarker); bool_decide (m = localTransportMarker)].
Proof.
  intros Hc. unfold classify, sentinels. simpl. unfold Error_Is. simpl.
  destruct c as [e|]; simpl in Hc.
  - repeat (apply Forall_cons in Hc as [-> Hc]). by rewrite !orb_false_r.
  - by rewrite !orb_false_r.
Qed.

Lemma context_errors_unmarked :
  unmarked_cause (Some context_Canceled) ∧ unmarked_cause (Some context_DeadlineExceeded).
Proof. split; repeat constructor. Qed.

(** every locally made error matches its own sentinel and no other, and an
    error built from a CALL ERROR of the peer matches none. *)
Theorem sentinel_classification code desc id cause :
  unmarked_cause cause →
  classify (newRequestTimeoutError id) = [true; false; false; false] ∧
  classify (NewRequestCanceledError id cause) = [false; true; false; false] ∧
  classify (newDispatcherStoppedError id) = [false; false; true; false] ∧
  classify (NewLocalTransportError code desc id) = [false; false; false; true] ∧
  classify (NewError code desc id) = [false; false; false; false].
Proof.
  intros Hc. unfold newRequestTimeoutError, NewRequestCanceledError,
    newDispatcherStoppedError, NewLocalTransportError, with_marker, NewError. simpl.
  rewrite !classify_marked by done. done.
Qed.

Lemma sentinel_classification_witness :
  unmarked_cause (Some context_Canceled) ∧
  classify (NewRequestCanceledError "17" (Some context_Canceled)) = [false; true; false; false].
Proof.
  split; [apply context_errors_unmarked|].
  apply (sentinel_classification GenericError "d" "17" (Some context_Canceled)).
  apply context_errors_unmarked.
Defined.

Lemma markLocalTransportError_marked e e' :
  markLocalTransportError (Some e) = Some e' → Marker e' ≠ "".
Proof. unfold markLocalTransportError. intros; case_decide; by simplify_eq. Qed.

Lemma markLocalTransportError_id e :
  Marker e ≠ "" → markLocalTransportError (Some e) = Some e.
Proof. intros. unfold markLocalTransportError. by case_decide. Qed.

#[export] Hint Rewrite @errors_Is_plain_ocpp : go.
