(* ===== verification/Queue.v ===== *)
(** * Request queues (src/ocppj/queue.go)

    [FIFOClientQueue], the interface [RequestQueue] it implements, and
    [FIFOQueueMap].  Every method of both runs in one critical section of the
    structure's own mutex, so each is one atomic function here.  The queues of
    a [FIFOQueueMap] are pointers: a caller of [Get] may keep one after
    [Remove] or [DrainAll] detached it, so they live in a store [qheap]. *)

From S2P Require Import Prelude Ocpp.
Local Open Scope string_scope.
Local Open Scope list_scope.

Definition errQueueFull : error :=
  Errorf "request queue is full, cannot push new element" None.

Module FIFO.
Section queue.
Context {E : Type}.

Record FIFOClientQueue := mkQueue {
  elements : list E;
  capacity : Z
}.

(** [make([]interface{}, 0, capacity)] panics on a negative capacity. *)
Definition NewFIFOClientQueue (capacity : Z) : option FIFOClientQueue :=
  if decide (0 <= capacity)%Z then Some (mkQueue [] capacity) else None.

Definition Init (q : FIFOClientQueue) : FIFOClientQueue := mkQueue [] (capacity q).

Definition DrainAll (q : FIFOClientQueue) : FIFOClientQueue * list E :=
  (mkQueue [] (capacity q), elements q).

Definition full (q : FIFOClientQueue) : bool :=
  bool_decide (capacity q <= Z.of_nat (length (elements q)))%Z && bool_decide (0 < capacity q)%Z.

Definition Push (element : E) (q : FIFOClientQueue) : FIFOClientQueue * option error :=
  if full q then (q, Some errQueueFull)
  else (mkQueue (elements q ++ [element]) (capacity q), None).

Definition Peek (q : FIFOClientQueue) : option E := head (elements q).

Definition Pop (q : FIFOClientQueue) : FIFOClientQueue * option E :=
  match elements q with
  | [] => (q, None)
  | x :: l => (mkQueue l (capacity q), Some x)
  end.

Definition PopIf (predicate : E → bool) (q : FIFOClientQueue) : FIFOClientQueue * option E :=
  match elements q with
  | [] => (q, None)
  | x :: l => if predicate x then (mkQueue l (capacity q), Some x) else (q, None)
  end.

Definition Size (q : FIFOClientQueue) : nat := length (elements q).
Definition IsFull (q : FIFOClientQueue) : bool := full q.
Definition IsEmpty (q : FIFOClientQueue) : bool := bool_decide (length (elements q) = 0).

(** The fallback drain of the dispatchers for a queue without [DrainAll]:
    [for !q.IsEmpty() { outstanding = append(outstanding, q.Pop()) }].  The
    fuel is the queue's size, which the loop never exceeds
    ([drain_by_pop_DrainAll]). *)
Fixpoint drain_by_pop (fuel : nat) (q : FIFOClientQueue) (acc : list E)
    : option (FIFOClientQueue * list E) :=
  if IsEmpty q then Some (q, acc) else
  match fuel with
  | 0 => None
  | S fuel' => match Pop q with
               | (q', Some x) => drain_by_pop fuel' q' (acc ++ [x])
               | (q', None) => drain_by_pop fuel' q' acc
               end
  end.

Definition wf (q : FIFOClientQueue) : Prop :=
  (0 <= capacity q)%Z ∧ ((0 < capacity q)%Z → (Z.of_nat (length (elements q)) <= capacity q)%Z).

(** ** Operation sequences *)

Inductive op :=
| OInit | OPush (x : E) | OPop | OPopIf (p : E → bool) | ODrainAll.

(** One operation: the new queue, what it accepted, what it removed. *)
Definition apply (o : op) (q : FIFOClientQueue) : FIFOClientQueue * list E * list E :=
  match o with
  | OInit => (Init q, [], elements q)
  | OPush x => match Push x q with
               | (q', None) => (q', [x], [])
               | (q', Some _) => (q', [], [])
               end
  | OPop => let '(q', r) := Pop q in (q', [], option_list r)
  | OPopIf p => let '(q', r) := PopIf p q in (q', [], option_list r)
  | ODrainAll => let '(q', r) := DrainAll q in (q', [], r)
  end.

Fixpoint applies (os : list op) (q : FIFOClientQueue) : FIFOClientQueue * list E * list E :=
  match os with
  | [] => (q, [], [])
  | o :: os' =>
      let '(q1, i1, r1) := apply o q in
      let '(q2, i2, r2) := applies os' q1 in
      (q2, i1 ++ i2, r1 ++ r2)
  end.

Lemma full_spec q :
  full q = true ↔ (0 < capacity q)%Z ∧ (capacity q <= Z.of_nat (length (elements q)))%Z.
Proof. unfold full. rewrite andb_true_iff, !bool_decide_eq_true. tauto. Qed.

Lemma full_false q :
  full q = false ↔ ((0 < capacity q)%Z → (Z.of_nat (length (elements q)) < capacity q)%Z).
Proof.
  rewrite <-not_true_iff_false, full_spec. lia.
Qed.

Lemma apply_capacity o q : capacity (apply o q).1.1 = capacity q.
Proof.
  destruct o as [|x| |p|]; simpl; unfold Push, Pop, PopIf, DrainAll; repeat case_match; by simplify_eq/=.
Qed.

Lemma apply_flow o q q' i r :
  apply o q = (q', i, r) → elements q ++ i = r ++ elements q'.
Proof.
  destruct o as [|x| |p|]; simpl; unfold Push, Pop, PopIf, DrainAll;
    intros; repeat case_match; simplify_eq/=; rewrite ?app_nil_r; try done.
Qed.

Lemma apply_wf o q : wf q → wf (apply o q).1.1.
Proof.
  unfold wf. rewrite apply_capacity. intros [? Hc]. split; [done|]. intros Hp. specialize (Hc Hp).
  destruct q as [[|y l] cap], o as [|x| |p|]; simpl in *; unfold Push, Pop, PopIf in *; simpl in *;
    repeat case_match; simplify_eq/=; try lia.
  all: rewrite full_false in *; simpl in *; rewrite ?length_app; simpl; lia.
Qed.

(** The dispatchers' fallback drain of a queue without [DrainAll] ends within
    the queue's size and empties it into the same list, in the same order. *)
Lemma drain_by_pop_elements fuel q acc :
  length (elements q) <= fuel →
  drain_by_pop fuel q acc = Some (mkQueue [] (capacity q), acc ++ elements q).
Proof.
  revert q acc. induction fuel as [|fuel IH]; intros [[|x l] cap] acc Hlen; simpl in *; try lia.
  - by rewrite app_nil_r.
  - by rewrite app_nil_r.
  - unfold IsEmpty, Pop. simpl. rewrite IH; simpl; [|lia]. by rewrite <-app_assoc.
Qed.
End queue.
Arguments FIFOClientQueue : clear implicits.
End FIFO.

(** ** The interface

    What the dispatchers rely on: each operation acts on the queue's content
    [view] as on a list, in FIFO order. *)
Class RequestQueue (Q E : Type) := {
  rq_view : Q → list E;
  rq_push : E → Q → Q * option error;
  rq_peek : Q → option E;
  rq_popif : (E → bool) → Q → Q * option E;
  rq_drain : Q → Q * list E;
  rq_isempty : Q → bool;
}.

Class RequestQueueLaws (Q E : Type) `{RequestQueue Q E} : Prop := {
  rq_push_ok q x q' : rq_push x q = (q', None) → rq_view q' = rq_view q ++ [x];
  rq_push_err q x q' e : rq_push x q = (q', Some e) → q' = q;
  rq_peek_head q : rq_peek q = head (rq_view q);
  rq_popif_some p q q' x : rq_popif p q = (q', Some x) →
    p x = true ∧ rq_view q = x :: rq_view q';
  rq_popif_none p q q' : rq_popif p q = (q', None) →
    q' = q ∧ ∀ x, head (rq_view q) = Some x → p x = false;
  rq_drain_all q q' l : rq_drain q = (q', l) → l = rq_view q ∧ rq_view q' = [];
  rq_isempty_view q : rq_isempty q = true ↔ rq_view q = [];
}.

#[export] Instance FIFO_RequestQueue {E} : RequestQueue (FIFO.FIFOClientQueue E) E := {
  rq_view := FIFO.elements;
  rq_push := FIFO.Push;
  rq_peek := FIFO.Peek;
  rq_popif := FIFO.PopIf;
  rq_drain := FIFO.DrainAll;
  rq_isempty := FIFO.IsEmpty;
}.

(** [FIFOClientQueue] keeps the promises of [RequestQueue]. *)
#[export] Instance FIFO_RequestQueueLaws {E} :
  RequestQueueLaws (FIFO.FIFOClientQueue E) E.
Proof.
  split; simpl; unfold FIFO.Push, FIFO.Peek, FIFO.PopIf, FIFO.DrainAll, FIFO.IsEmpty;
    intros; repeat case_match; simplify_eq/=; try done.
  all: try (split; [done|]; naive_solver).
  by rewrite bool_decide_eq_true, length_zero_iff_nil.
Qed.

(** ** Queue map *)

Module QueueMap.
Section map.
Context {E : Type}.

Record FIFOQueueMap := mkMap {
  qheap : gmap nat (FIFO.FIFOClientQueue E);  (* every queue ever allocated *)
  qnext : nat;                                (* the next pointer *)
  data : gmap string nat;                     (* clientID -> *queue *)
  queueCapacity : Z
}.

Definition NewFIFOQueueMap (cap : Z) : FIFOQueueMap := mkMap ∅ 0 ∅ cap.

Definition Init (f : FIFOQueueMap) : FIFOQueueMap :=
  mkMap (qheap f) (qnext f) ∅ (queueCapacity f).

Definition DrainAll (f : FIFOQueueMap) : FIFOQueueMap * gmap string nat :=
  (mkMap (qheap f) (qnext f) ∅ (queueCapacity f), data f).

Definition Get (clientID : string) (f : FIFOQueueMap) : option nat := data f !! clientID.

(** [GetOrCreate]; creating a queue of negative capacity panics ([None]). *)
Definition GetOrCreate (clientID : string) (f : FIFOQueueMap) : option (FIFOQueueMap * nat) :=
  match data f !! clientID with
  | Some q => Some (f, q)
  | None =>
      match FIFO.NewFIFOClientQueue (queueCapacity f) with
      | Some fresh =>
          Some (mkMap (<[qnext f := fresh]> (qheap f)) (S (qnext f))
                      (<[clientID := qnext f]> (data f)) (queueCapacity f), qnext f)
      | None => None
      end
  end.

Definition Remove (clientID : string) (f : FIFOQueueMap) : FIFOQueueMap :=
  mkMap (qheap f) (qnext f) (delete clientID (data f)) (queueCapacity f).

Definition Add (clientID : string) (q : nat) (f : FIFOQueueMap) : FIFOQueueMap :=
  mkMap (qheap f) (qnext f) (<[clientID := q]> (data f)) (queueCapacity f).

(** The queue a pointer refers to, and an update through the pointer. *)
Definition deref (l : nat) (f : FIFOQueueMap) : option (FIFO.FIFOClientQueue E) := qheap f !! l.
Definition store (l : nat) (q : FIFO.FIFOClientQueue E) (f : FIFOQueueMap) : FIFOQueueMap :=
  mkMap (<[l := q]> (qheap f)) (qnext f) (data f) (queueCapacity f).

(** Every mapped queue is allocated and no two clients share one. *)
Definition wf (f : FIFOQueueMap) : Prop :=
  (∀ l, is_Some (qheap f !! l) ↔ l < qnext f) ∧
  (∀ c l, data f !! c = Some l → l < qnext f) ∧
  (∀ c1 c2 l, data f !! c1 = Some l → data f !! c2 = Some l → c1 = c2).

Lemma NewFIFOQueueMap_wf cap : wf (NewFIFOQueueMap cap).
Proof.
  split; [|split]; simpl.
  - intros l. rewrite lookup_empty. split; [by intros [? ?]|lia].
  - intros c l. by rewrite lookup_empty.
  - intros c1 c2 l. by rewrite lookup_empty.
Qed.

Lemma GetOrCreate_wf c f f' l : wf f → GetOrCreate c f = Some (f', l) → wf f'.
Proof.
  intros (Hh & Hb & Hi). unfold GetOrCreate.
  destruct (data f !! c) as [l0|] eqn:Hc; [by intros; simplify_eq|].
  destruct (FIFO.NewFIFOClientQueue _); [|done]. intros; simplify_eq.
  split; [|split]; simpl.
  - intros l. rewrite lookup_insert. case_decide; subst; [split; [lia|eauto]|].
    rewrite Hh. lia.
  - intros c1 l. rewrite lookup_insert. case_decide; intros; simplify_eq; [lia|].
    specialize (Hb c1 l ltac:(done)). lia.
  - intros c1 c2 l. rewrite !lookup_insert.
    repeat case_decide; intros; simplify_eq; try done.
    + specialize (Hb c2 _ ltac:(done)). lia.
    + specialize (Hb c1 _ ltac:(done)). lia.
    + by eapply Hi.
Qed.

Lemma Remove_wf c f : wf f → wf (Remove c f).
Proof.
  intros (Hh & Hb & Hi). split; [|split]; simpl; [done|..].
  - intros c1 l [_ ?]%lookup_delete_Some. eauto.
  - intros c1 c2 l [_ ?]%lookup_delete_Some [_ ?]%lookup_delete_Some. eauto.
Qed.

Lemma store_wf l q f : wf f → l < qnext f → wf (store l q f).
Proof.
  intros (Hh & Hb & Hi) Hl. split; [|split]; simpl; [|done..].
  intros l'. rewrite lookup_insert. case_decide; subst; [split; eauto|apply Hh].
Qed.

Lemma DrainAll_map_wf f : wf f → wf (DrainAll f).1.
Proof.
  intros (Hh & _ & _). split; [|split]; simpl; [done|..]; intros *; by rewrite lookup_empty.
Qed.

Lemma store_other l q f c l' :
  wf f → Get c f = Some l' → l ≠ l' → deref l' (store l q f) = deref l' f.
Proof. intros. unfold deref, store. simpl. by rewrite lookup_insert_ne. Qed.
End map.
Arguments FIFOQueueMap : clear implicits.
End QueueMap.

(** ** Properties *)

(** over any sequence of queue operations, what was accepted by [Push] is,
    in order, what was removed followed by what is still queued. *)
Theorem fifo_order (E : Type) (os : list (@FIFO.op E)) (q q' : FIFO.FIFOClientQueue E) ins rem :
  FIFO.applies os q = (q', ins, rem) →
  FIFO.elements q ++ ins = rem ++ FIFO.elements q'.
Proof.
  revert q q' ins rem. induction os as [|o os IH]; intros q q' ins rem; cbn [FIFO.applies].
  - intros; simplify_eq. by rewrite app_nil_r.
  - destruct (FIFO.apply o q) as [[q1 i1] r1] eqn:H1.
    destruct (FIFO.applies os q1) as [[q2 i2] r2] eqn:H2. intros; simplify_eq.
    rewrite app_assoc, (FIFO.apply_flow _ _ _ _ _ H1), <-!app_assoc. f_equal. by eapply IH.
Qed.

Lemma fifo_order_witness :
  FIFO.elements (FIFO.mkQueue [1] 2) ++ [2] = [1] ++ [2] ∧
  FIFO.applies [FIFO.OPush 2; FIFO.OPush 3; FIFO.OPopIf (λ x, bool_decide (x = 1))]
    (FIFO.mkQueue [1] 2) = (FIFO.mkQueue [2] 2, [2], [1]).
Proof.
  assert (H : FIFO.applies [FIFO.OPush 2; FIFO.OPush 3; FIFO.OPopIf (λ x, bool_decide (x = 1))]
    (FIFO.mkQueue [1] 2) = (FIFO.mkQueue [2] 2, [2], [1])) by reflexivity.
  split; [exact (fifo_order nat _ _ _ _ _ H)|exact H].
Defined.

(** a queue with a capacity never holds more elements than it, whatever
    the sequence of operations. *)
Theorem fifo_bounded (E : Type) (os : list (@FIFO.op E)) (q : FIFO.FIFOClientQueue E) :
  FIFO.wf q → FIFO.wf (FIFO.applies os q).1.1.
Proof.
  revert q. induction os as [|o os IH]; intros q Hq; cbn [FIFO.applies]; [done|].
  pose proof (FIFO.apply_wf o q Hq) as Hq1.
  destruct (FIFO.apply o q) as [[q1 i1] r1]. specialize (IH q1 Hq1).
  by destruct (FIFO.applies os q1) as [[q2 i2] r2].
Qed.

Lemma fifo_bounded_witness :
  FIFO.wf (FIFO.applies [FIFO.OPush 1; FIFO.OPush 2; FIFO.OPush 3] (FIFO.mkQueue [] 2)).1.1 ∧
  FIFO.elements (FIFO.applies [FIFO.OPush 1; FIFO.OPush 2; FIFO.OPush 3] (FIFO.mkQueue [] 2)).1.1 = [1; 2].
Proof.
  split; [|reflexivity]. apply (fifo_bounded nat). split; simpl; lia.
Defined.

(** the pop-by-pop drain both dispatchers fall back on for a queue without
    [DrainAll] terminates and returns exactly what [DrainAll] returns. *)
Theorem drain_by_pop_DrainAll (E : Type) (q : FIFO.FIFOClientQueue E) :
  FIFO.drain_by_pop (FIFO.Size q) q [] = Some (FIFO.DrainAll q).
Proof. unfold FIFO.Size. by rewrite FIFO.drain_by_pop_elements. Qed.
