(* ===== verification/State.v ===== *)
(** * Pending request state (src/ocppj/state.go)

    [clientState] holds one pending request; [serverState] maps client ids to
    [clientState] pointers.  [GetClientState] hands such a pointer to the
    caller, who may use it after the map entry is gone, so the client states
    live in a store.  Each method runs under its mutex: one atomic function. *)

From S2P Require Import Prelude Ocpp.
Local Open Scope string_scope.
Local Open Scope list_scope.

Module ClientState.
Section state.
Context {Request : Type}.

(** [pendingRequest] wraps the request only; its zero value holds [nil]. *)
Record clientState := mkState {
  requestID : string;
  pendingRequest : option Request
}.

Definition NewClientState : clientState := mkState "" None.

Definition AddPendingRequest (id : string) (req : option Request) (s : clientState) : clientState :=
  if decide (id ≠ "" ∧ requestID s = "") then mkState id req else s.

(** [GetPendingRequest]: [None] is the false flag; [Some r] the stored
    request, where [r = None] is a nil interface. *)
Definition GetPendingRequest (id : string) (s : clientState) : option (option Request) :=
  if decide (requestID s ≠ id) then None else Some (pendingRequest s).

Definition DeletePendingRequest (id : string) (s : clientState) : clientState :=
  if decide (requestID s ≠ id) then s else mkState "" (pendingRequest s).

Definition ClearPendingRequests (s : clientState) : clientState :=
  mkState "" (pendingRequest s).

Definition HasPendingRequest (s : clientState) : bool := bool_decide (requestID s ≠ "").

(** What the state promises: at most one pending request. *)
Definition pending (s : clientState) : option (string * option Request) :=
  if decide (requestID s = "") then None else Some (requestID s, pendingRequest s).

Inductive op := OAdd (id : string) (r : option Request) | ODelete (id : string) | OClear.

Definition apply (o : op) (s : clientState) : clientState :=
  match o with
  | OAdd id r => AddPendingRequest id r s
  | ODelete id => DeletePendingRequest id s
  | OClear => ClearPendingRequests s
  end.

(** The same operations on the abstract slot. *)
Definition spec_apply (o : op) (slot : option (string * option Request))
    : option (string * option Request) :=
  match o, slot with
  | OAdd id r, None => if decide (id = "") then None else Some (id, r)
  | OAdd _ _, Some p => Some p
  | ODelete id, Some (id', r) => if decide (id = id') then None else Some (id', r)
  | ODelete _, None => None
  | OClear, _ => None
  end.

Lemma pending_None s : pending s = None ↔ requestID s = "".
Proof. unfold pending. by case_decide. Qed.

Lemma pending_apply o s : pending (apply o s) = spec_apply o (pending s).
Proof.
  destruct s as [rid pr], o as [id r|id|]; simpl; unfold pending, AddPendingRequest,
    DeletePendingRequest, ClearPendingRequests; simpl;
    repeat (case_decide; simpl in *); naive_solver.
Qed.

Lemma HasPendingRequest_false s : HasPendingRequest s = false ↔ requestID s = "".
Proof. unfold HasPendingRequest. rewrite bool_decide_eq_false. destruct (decide (requestID s = "")); naive_solver. Qed.

Lemma HasPendingRequest_true s : HasPendingRequest s = true ↔ requestID s ≠ "".
Proof. unfold HasPendingRequest. by rewrite bool_decide_eq_true. Qed.

Lemma Get_is_Some id s : is_Some (GetPendingRequest id s) ↔ requestID s = id.
Proof.
  unfold GetPendingRequest. case_decide as Hd.
  - split; [by intros [? ?]|done].
  - split; [intros _; destruct (decide (requestID s = id)); naive_solver|eauto].
Qed.
End state.
Arguments clientState : clear implicits.
End ClientState.


Module ServerState.
Section state.
Context {Request : Type}.

Record serverState := mkServer {
  heap : gmap nat (ClientState.clientState Request);  (* every state allocated *)
  next : nat;
  pendingRequestState : gmap string nat
}.

Definition NewServerState : serverState := mkServer ∅ 0 ∅.

(** [getOrCreateState]: the state pointer of a client, allocated if missing. *)
Definition getOrCreateState (clientID : string) (d : serverState) : serverState * nat :=
  match pendingRequestState d !! clientID with
  | Some l => (d, l)
  | None => (mkServer (<[next d := ClientState.NewClientState]> (heap d)) (S (next d))
                      (<[clientID := next d]> (pendingRequestState d)), next d)
  end.

(** A method call through a state pointer. *)
Definition update (l : nat) (f : ClientState.clientState Request → ClientState.clientState Request)
    (d : serverState) : serverState :=
  mkServer (alter f l (heap d)) (next d) (pendingRequestState d).

Definition deref (l : nat) (d : serverState) : option (ClientState.clientState Request) := heap d !! l.

Definition AddPendingRequest (clientID requestID : string) (req : option Request) (d : serverState) : serverState :=
  let '(d', l) := getOrCreateState clientID d in
  update l (ClientState.AddPendingRequest requestID req) d'.

Definition DeletePendingRequest (clientID requestID : string) (d : serverState) : serverState :=
  match pendingRequestState d !! clientID with
  | None => d
  | Some l => update l (ClientState.DeletePendingRequest requestID) d
  end.

Definition GetClientState (clientID : string) (d : serverState) : serverState * nat :=
  match pendingRequestState d !! clientID with
  | Some l => (d, l)
  | None => getOrCreateState clientID d
  end.

Definition client (clientID : string) (d : serverState) : option (ClientState.clientState Request) :=
  l ← pendingRequestState d !! clientID; heap d !! l.

Definition HasPendingRequest (clientID : string) (d : serverState) : bool :=
  match client clientID d with
  | Some s => ClientState.HasPendingRequest s
  | None => false
  end.

Definition HasPendingRequests (d : serverState) : bool :=
  existsb (λ kl, match heap d !! kl.2 with
                 | Some s => ClientState.HasPendingRequest s
                 | None => false
                 end) (map_to_list (pendingRequestState d)).

Definition ClearClientPendingRequest (clientID : string) (d : serverState) : serverState :=
  mkServer (heap d) (next d) (delete clientID (pendingRequestState d)).

Definition ClearAllPendingRequests (d : serverState) : serverState :=
  mkServer (heap d) (next d) ∅.

(** The map points to allocated states, distinct for distinct clients, and
    nothing is allocated from [next] on. *)
Definition wf (d : serverState) : Prop :=
  (∀ l, next d <= l → heap d !! l = None) ∧
  (∀ c l, pendingRequestState d !! c = Some l → is_Some (heap d !! l)) ∧
  (∀ c1 c2 l, pendingRequestState d !! c1 = Some l → pendingRequestState d !! c2 = Some l → c1 = c2).

Inductive op :=
| OAdd (clientID requestID : string) (r : option Request)
| ODelete (clientID requestID : string)
| OGet (clientID : string)
| OClearClient (clientID : string)
| OClearAll.

Definition apply (o : op) (d : serverState) : serverState :=
  match o with
  | OAdd c i r => AddPendingRequest c i r d
  | ODelete c i => DeletePendingRequest c i d
  | OGet c => (GetClientState c d).1
  | OClearClient c => ClearClientPendingRequest c d
  | OClearAll => ClearAllPendingRequests d
  end.

(** The clients an operation names; [OClearAll] names all. *)
Definition touches (o : op) (c : string) : Prop :=
  match o with
  | OAdd c' _ _ | ODelete c' _ | OGet c' | OClearClient c' => c = c'
  | OClearAll => True
  end.

Lemma wf_bound d c l : wf d → pendingRequestState d !! c = Some l → l < next d.
Proof.
  intros (Hn & Hp & _) Hc. destruct (Hp c l Hc) as [s Hs].
  destruct (decide (next d <= l)) as [Hle|]; [|lia]. by rewrite (Hn l Hle) in Hs.
Qed.

Lemma getOrCreateState_wf c d : wf d → wf (getOrCreateState c d).1.
Proof.
  intros Hwf. pose proof (λ c l, wf_bound d c l Hwf) as Hb. destruct Hwf as (Hn & Hp & Hi).
  unfold getOrCreateState. destruct (pendingRequestState d !! c) eqn:Hc; simpl; [done|].
  split; [|split]; simpl.
  - intros l Hl. rewrite lookup_insert_ne by lia. apply Hn. lia.
  - intros c' l. rewrite !lookup_insert. repeat case_decide; intros; simplify_eq; eauto.
  - intros c1 c2 l. rewrite !lookup_insert. repeat case_decide; intros; simplify_eq; eauto.
    + specialize (Hb c2 _ ltac:(done)). lia.
    + specialize (Hb c1 _ ltac:(done)). lia.
Qed.

Lemma getOrCreateState_loc c d : pendingRequestState (getOrCreateState c d).1 !! c = Some (getOrCreateState c d).2.
Proof.
  unfold getOrCreateState. destruct (pendingRequestState d !! c) eqn:Hc; simpl; [done|].
  apply lookup_insert_eq.
Qed.

Lemma update_wf l f d : wf d → wf (update l f d).
Proof.
  intros (Hn & Hp & Hi). split; [|split]; simpl; [..|done].
  - intros l' Hl'. rewrite lookup_alter. case_decide; subst; by rewrite Hn.
  - intros c l' Hc. destruct (Hp c l' Hc) as [s Hs]. rewrite lookup_alter.
    case_decide; subst; rewrite Hs; eauto.
Qed.

Lemma NewServerState_wf : wf NewServerState.
Proof.
  split; [|split]; simpl; intros *; by rewrite ?lookup_empty.
Qed.

Lemma server_apply_wf o d : wf d → wf (apply o d).
Proof.
  intros Hwf. destruct o as [c i r|c i|c|c|]; simpl.
  - unfold AddPendingRequest. pose proof (getOrCreateState_wf c d Hwf).
    destruct (getOrCreateState c d). by apply update_wf.
  - unfold DeletePendingRequest. case_match; [by apply update_wf|done].
  - unfold GetClientState. case_match; [done|]. by apply getOrCreateState_wf.
  - destruct Hwf as (Hn & Hp & Hi). split; [done|]. split; simpl.
    + intros c' l [_ ?]%lookup_delete_Some. eauto.
    + intros c1 c2 l [_ ?]%lookup_delete_Some [_ ?]%lookup_delete_Some. eauto.
  - destruct Hwf as (Hn & Hp & Hi). split; [done|]. split; simpl; intros *; by rewrite lookup_empty.
Qed.

Lemma getOrCreateState_other c c' d :
  wf d → c ≠ c' → client c' (getOrCreateState c d).1 = client c' d.
Proof.
  intros Hwf Hne. unfold getOrCreateState, client.
  destruct (pendingRequestState d !! c) eqn:Hc; simpl; [done|].
  rewrite lookup_insert_ne by done.
  destruct (pendingRequestState d !! c') as [l|] eqn:Hc'; simpl; [|done].
  pose proof (wf_bound _ _ _ Hwf Hc'). by rewrite lookup_insert_ne by lia.
Qed.

Lemma update_other c c' l f d :
  wf d → c ≠ c' → pendingRequestState d !! c = Some l → client c' (update l f d) = client c' d.
Proof.
  intros (_ & _ & Hi) Hne Hc. unfold client. simpl.
  destruct (pendingRequestState d !! c') as [l'|] eqn:Hc'; simpl; [|done].
  apply lookup_alter_ne. intros <-. by apply Hne, (Hi _ _ l).
Qed.

Lemma apply_other o c d : wf d → ¬ touches o c → client c (apply o d) = client c d.
Proof.
  intros Hwf Ht. destruct o as [c' i r|c' i|c'|c'|]; simpl in *; [..|done].
  - unfold AddPendingRequest. pose proof (getOrCreateState_wf c' d Hwf).
    pose proof (getOrCreateState_loc c' d). pose proof (getOrCreateState_other c' c d Hwf ltac:(auto)).
    destruct (getOrCreateState c' d) as [d' l]; simpl in *. rewrite (update_other c'); auto.
  - unfold DeletePendingRequest. case_match; [|done]. rewrite (update_other c'); auto.
  - unfold GetClientState. case_match; [done|]. apply getOrCreateState_other; auto.
  - unfold client. simpl. by rewrite lookup_delete_ne by auto.
Qed.

Lemma HasPendingRequests_client d :
  HasPendingRequests d = true ↔ ∃ c, HasPendingRequest c d = true.
Proof.
  unfold HasPendingRequests, HasPendingRequest, client. rewrite existsb_exists. split.
  - intros ([c l] & Hin & Hb). exists c. apply list_elem_of_In in Hin.
    apply elem_of_map_to_list in Hin. by rewrite Hin.
  - intros [c Hc]. destruct (pendingRequestState d !! c) as [l|] eqn:Hl; [|done].
    exists (c, l). split; [|done]. by apply list_elem_of_In, elem_of_map_to_list.
Qed.
End state.
Arguments serverState : clear implicits.
End ServerState.

(** ** Properties *)

(** the one-slot [clientState] implements the abstract slot: after any
    sequence of operations, [HasPendingRequest] and [GetPendingRequest] of a
    non-empty id answer as the slot does. *)
Theorem clientState_refines_slot (Request : Type) (os : list (@ClientState.op Request)) (id : string) :
  let s := foldl (flip ClientState.apply) ClientState.NewClientState os in
  let slot := foldl (flip ClientState.spec_apply) None os in
  ClientState.HasPendingRequest s = bool_decide (is_Some slot) ∧
  (id ≠ "" → ClientState.GetPendingRequest id s =
     match slot with
     | Some (id', r) => if decide (id = id') then Some r else None
     | None => None
     end).
Proof.
  cbv zeta.
  assert (Hp : ClientState.pending (foldl (flip ClientState.apply) ClientState.NewClientState os) =
               foldl (flip ClientState.spec_apply) (@None (string * option Request)) os).
  { induction os as [|o os IH] using rev_ind; [done|].
    rewrite !foldl_app. simpl. by rewrite ClientState.pending_apply, IH. }
  rewrite <-Hp. set (s := foldl _ _ _). clearbody s. clear Hp.
  unfold ClientState.HasPendingRequest, ClientState.GetPendingRequest, ClientState.pending. split.
  - apply bool_decide_ext. case_decide; split; try done; by intros [? ?].
  - intros Hid. repeat case_decide; naive_solver.
Qed.

Lemma clientState_refines_slot_witness :
  ClientState.GetPendingRequest "a"
    (foldl (flip ClientState.apply) ClientState.NewClientState
       [ClientState.OAdd "a" (Some 1); ClientState.OAdd "b" (Some 2); ClientState.ODelete "b"])
  = Some (Some 1).
Proof.
  rewrite (proj2 (clientState_refines_slot nat
    [ClientState.OAdd "a" (Some 1); ClientState.OAdd "b" (Some 2); ClientState.ODelete "b"] "a")
    ltac:(done)).
  reflexivity.
Defined.

(** pending requests of different clients are independent: an operation
    that does not name a client leaves that client's state as it was, in any
    state reached from an empty server state. *)
Theorem serverState_isolation (Request : Type) (os : list (@ServerState.op Request)) o (c : string) :
  let d := foldl (flip ServerState.apply) ServerState.NewServerState os in
  ¬ ServerState.touches o c →
  ServerState.client c (ServerState.apply o d) = ServerState.client c d ∧
  ServerState.HasPendingRequest c (ServerState.apply o d) = ServerState.HasPendingRequest c d.
Proof.
  cbv zeta. intros Ht.
  assert (Hwf : ServerState.wf (foldl (flip ServerState.apply) (@ServerState.NewServerState Request) os)).
  { induction os as [|o' os IH] using rev_ind; [|rewrite foldl_app; by apply ServerState.server_apply_wf].
    split; [done|]. split; simpl; intros *; by rewrite lookup_empty. }
  unfold ServerState.HasPendingRequest. by rewrite ServerState.apply_other.
Qed.

Lemma serverState_isolation_witness :
  ServerState.HasPendingRequest "cp1"
    (ServerState.apply (ServerState.OClearClient "cp2")
      (foldl (flip ServerState.apply) ServerState.NewServerState
        [ServerState.OAdd "cp1" "7" (Some 1); ServerState.OAdd "cp2" "8" (Some 2)])) = true.
Proof.
  rewrite (proj2 (serverState_isolation nat
    [ServerState.OAdd "cp1" "7" (Some 1); ServerState.OAdd "cp2" "8" (Some 2)] (ServerState.OClearClient "cp2") "cp1"
    ltac:(simpl; discriminate))).
  reflexivity.
Defined.

(** [ClearAllPendingRequests] leaves no pending request in the map, and a
    [ClientState] handed out before keeps its content but is not the state
    the map returns for the client afterwards. *)
Theorem clearAll_detaches (Request : Type) (d : ServerState.serverState Request) (c : string) (l : nat) :
  ServerState.wf d → ServerState.pendingRequestState d !! c = Some l →
  let d' := ServerState.ClearAllPendingRequests d in
  ServerState.HasPendingRequests d' = false ∧
  ServerState.deref l d' = ServerState.deref l d ∧
  (ServerState.GetClientState c d').2 ≠ l.
Proof.
  intros Hwf Hl. cbv zeta. split; [|split; [done|]].
  - unfold ServerState.HasPendingRequests, ServerState.ClearAllPendingRequests. simpl.
    by rewrite map_to_list_empty.
  - unfold ServerState.GetClientState, ServerState.getOrCreateState. simpl. rewrite lookup_empty.
    simpl. pose proof (ServerState.wf_bound _ _ _ Hwf Hl). lia.
Qed.

Lemma clearAll_detaches_witness :
  let d := ServerState.AddPendingRequest "cp1" "7" (Some 1) ServerState.NewServerState in
  ServerState.HasPendingRequests (ServerState.ClearAllPendingRequests d) = false.
Proof.
  cbv zeta. refine (proj1 (clearAll_detaches nat _ "cp1" 0 _ _)); [|reflexivity].
  apply (ServerState.server_apply_wf (ServerState.OAdd "cp1" "7" (Some 1))).
  split; [done|]. split; simpl; intros *; by rewrite lookup_empty.
Defined.
