(* ===== verification/Message.v ===== *)
(** * OCPP-J messages and request bundles (src/ocppj/ocppj.go, src/ocppj/queue.go)

    The three message structs, the element type of the request queues, and
    contexts.  A nil interface or pointer is [None]. *)

From S2P Require Import Prelude Ocpp Errors Queue.
Local Open Scope string_scope.
Local Open Scope list_scope.

(** [MessageType]. *)
Definition CALL : Z := 2.
Definition CALL_RESULT : Z := 3.
Definition CALL_ERROR : Z := 4.

(** A [context.Context]: [context.Background()], whose [Done()] is nil, or one
    that can be canceled, known by an id. *)
Inductive ctx := Background | Cancelable (id : nat).

#[export] Instance ctx_eq_dec : EqDecision ctx.
Proof. solve_decision. Defined.

(** Fired contexts with their [Err()]. *)
Definition ctx_table : Type := gmap nat error.

Definition ctx_Err (t : ctx_table) (c : ctx) : option error :=
  match c with Background => None | Cancelable i => t !! i end.

(** A context keeps its first error. *)
Definition ctx_cancel (i : nat) (e : error) (t : ctx_table) : ctx_table :=
  match t !! i with Some _ => t | None => <[i := e]> t end.

Section messages.
Context {Request Response Json : Type}.

Record Call := mkCall {
  call_MessageTypeId : Z;
  UniqueId : string;
  Action : string;
  Payload : option Request
}.

Record CallResult := mkCallResult {
  cr_MessageTypeId : Z;
  cr_UniqueId : string;
  cr_Payload : option Response
}.

Record CallError := mkCallError {
  ce_MessageTypeId : Z;
  ce_UniqueId : string;
  ce_ErrorCode : string;
  ce_ErrorDescription : string;
  ce_ErrorDetails : option Json
}.

(** [RequestBundle]: [Data] is the marshalled call. *)
Record RequestBundle := mkBundle {
  bundle_Call : option Call;
  bundle_Data : option string;
  bundle_Ctx : option ctx
}.

Definition bundleCtx (b : RequestBundle) : ctx :=
  match bundle_Ctx b with Some c => c | None => Background end.

(** An [interface{}] in a request queue: a [RequestBundle], or a value of
    another type (a nil included). *)
Inductive element := EBundle (b : RequestBundle) | EOther.

(** The call of an element, through the type assertion and the nil check the
    dispatchers make. *)
Definition elem_call (e : element) : option Call :=
  match e with EBundle b => bundle_Call b | EOther => None end.

Definition elem_id (e : element) : option string := UniqueId <$> elem_call e.

Definition ids (l : list element) : list string := omap elem_id l.

(** The predicate of [CompleteRequest]'s [PopIf]. *)
Definition is_request (requestId : string) (e : element) : bool :=
  match elem_call e with
  | Some c => bool_decide (UniqueId c = requestId)
  | None => false
  end.

Lemma ids_app l1 l2 : ids (l1 ++ l2) = ids l1 ++ ids l2.
Proof. unfold ids. by rewrite omap_app. Qed.

Lemma is_request_true id e : is_request id e = true ↔ elem_id e = Some id.
Proof.
  unfold is_request, elem_id. destruct (elem_call e); simpl; [|done].
  rewrite bool_decide_eq_true. naive_solver.
Qed.

Lemma ids_cons_call e l c : elem_call e = Some c → ids (e :: l) = UniqueId c :: ids l.
Proof. intros He. unfold ids. simpl. unfold elem_id. by rewrite He. Qed.
End messages.
Arguments Call : clear implicits.
Arguments CallResult : clear implicits.
Arguments CallError : clear implicits.
Arguments RequestBundle : clear implicits.
Arguments element : clear implicits.

#[export] Hint Rewrite @ids_app : go.

(** ** The request queues, by the ids of their requests *)

Section queue_ids.
Context {Request : Type}.

Lemma popif_ids id (q q' : FIFO.FIFOClientQueue (element Request)) e :
  FIFO.PopIf (is_request id) q = (q', Some e) →
  elem_id e = Some id ∧ FIFO.elements q = e :: FIFO.elements q' ∧
  ids (FIFO.elements q) = id :: ids (FIFO.elements q').
Proof.
  intros Hp. change (rq_popif (is_request id) q = (q', Some e)) in Hp.
  apply rq_popif_some in Hp as [Hpr Hv]. simpl in Hv.
  apply is_request_true in Hpr. split; [done|]. split; [done|]. rewrite Hv.
  unfold ids. simpl. by rewrite Hpr.
Qed.

Lemma popif_front id (q : FIFO.FIFOClientQueue (element Request)) :
  (∀ e, e ∈ FIFO.elements q → is_Some (elem_id e)) → head (ids (FIFO.elements q)) = Some id →
  ∃ q' e, FIFO.PopIf (is_request id) q = (q', Some e).
Proof.
  intros Hn. unfold FIFO.PopIf. destruct (FIFO.elements q) as [|e l]; [done|]. unfold ids. simpl.
  destruct (Hn e) as [i He]; [left|]. rewrite He. intros [= ->].
  rewrite (proj2 (is_request_true id e) He). eauto.
Qed.

Lemma push_ids (b : RequestBundle Request) c q q' :
  bundle_Call b = Some c → FIFO.Push (EBundle b) q = (q', None) →
  ids (FIFO.elements q') = ids (FIFO.elements q) ++ [UniqueId c].
Proof.
  intros Hc Hp. change (rq_push (EBundle b) q = (q', None)) in Hp.
  apply rq_push_ok in Hp. simpl in Hp. rewrite Hp, ids_app. f_equal.
  by apply (ids_cons_call (EBundle b) []).
Qed.
End queue_ids.
