(* ===== verification/ClientDispatcher.v ===== *)
(** * The client dispatcher (src/ocppj/dispatcher.go, [DefaultClientDispatcher])

    State, operations and message pump of the dispatcher that queues the
    outgoing requests of a charge point and sends them one at a time.  Every
    operation is a goroutine program ([Conc.proc]) whose actions are the
    critical sections and channel operations of the code, so any interleaving
    of the pump with senders, response handlers, [Pause], [Resume], [Stop],
    timers and context cancellation is an execution of the model.  The log
    records what the environment sees (network writes, cancel callbacks,
    delivered responses) and, for the proofs, when a request enters and leaves
    the queue and when it is marked pending. *)

From S2P Require Import Prelude Conc Ocpp Errors Queue State Message.
Local Open Scope string_scope.
Local Open Scope list_scope.

(** ** [time.Timer]

    Go 1.21 semantics: a buffered channel of capacity 1 that an expired timer
    fills; [Stop] does not empty it. *)
Record timer := mkTimer { armed : option Z; fired : bool }.

Definition timer_Stop (t : timer) : timer * bool :=
  (mkTimer None (fired t), bool_decide (is_Some (armed t))).
Definition timer_drain (t : timer) : timer := mkTimer (armed t) false.
Definition timer_Reset (d : Z) (t : timer) : timer := mkTimer (Some d) (fired t).
(** The timer expires. *)
Definition timer_fire (t : timer) : option timer :=
  match armed t with Some _ => Some (mkTimer None true) | None => None end.

Definition defaultTimeoutTick : Z := 24 * hour.
Definition defaultMessageTimeout : Z := 30 * second.

(** A [chan bool] of capacity 1. *)
Record boolchan := mkChan { buffered : nat; closed : bool }.

Section dispatcher.
Context {Request : Type}.

Inductive event :=
| EvAccept (id : string)                                   (* Push accepted the request *)
| EvPosted (id : string)                                   (* SendRequest reports success for it *)
| EvTake (id : string)                                     (* it left the queue *)
| EvDrop (id : string)                                     (* it left the queue unclaimed, by Init *)
| EvPending (id : string)                                  (* it became the pending request *)
| EvWrite (id : string) (data : string)                    (* written to the network *)
| EvCancel (id : string) (req : option Request) (err : ocpp_error)  (* onRequestCancel *)
| EvHandlerPanic (action id : string)                      (* recovered callback panic *)
| EvDeliver (id : string)                                  (* response or error handler *)
| EvSendOnClosed | EvCloseOfClosed.                        (* Go run-time panics *)

(** [DefaultClientDispatcher]: [readers]/[writer] are the RWMutex, [ctxs] the
    contexts that have fired, [onRequestCancel] whether a callback is set. *)
Record dispatcher := mkDispatcher {
  requestQueue : FIFO.FIFOClientQueue (element Request);
  requestChannel : option boolchan;
  readyForDispatch : bool;
  doneC : bool;
  running : bool;
  readers : nat;
  writer : bool;
  pendingRequestState : ClientState.clientState Request;
  network : bool;
  onRequestCancel : bool;
  onHandlerPanic : bool;
  dtimer : timer;
  paused : bool;
  timeout : Z;
  timeoutOnPause : bool;
  ctxs : ctx_table;
  log : list event
}.

(** [pumpPending], the pump's token for the request in flight; the zero value
    has an empty id. *)
Record pumpPending := mkPending {
  pp_id : string;
  pp_action : string;
  pp_ctx : ctx;
  pp_payload : option Request
}.
Definition noPending : pumpPending := mkPending "" "" Background None.

Inductive arm := ArmRequest | ArmTimer | ArmReady | ArmCtxDone.
Inductive selected := SelClosed | SelRequest | SelTimer | SelReady | SelCtxDone.

(** What the environment chooses: the arm of the pump's [select], the outcome
    of a network write, whether a callback panics. *)
Inductive choice :=
| Pick (a : arm)
| NetResult (e : option error)
| CallbackPanics (b : bool)
| Go.

Abbreviation prog A := (proc dispatcher choice A).

(** *** Field updates *)
Definition set_queue (q : FIFO.FIFOClientQueue (element Request)) (d : dispatcher) : dispatcher :=
  mkDispatcher q (requestChannel d) (readyForDispatch d) (doneC d) (running d) (readers d) (writer d)
    (pendingRequestState d) (network d) (onRequestCancel d) (onHandlerPanic d) (dtimer d) (paused d)
    (timeout d) (timeoutOnPause d) (ctxs d) (log d).
Definition set_channel (c : option boolchan) (d : dispatcher) : dispatcher :=
  mkDispatcher (requestQueue d) c (readyForDispatch d) (doneC d) (running d) (readers d) (writer d)
    (pendingRequestState d) (network d) (onRequestCancel d) (onHandlerPanic d) (dtimer d) (paused d)
    (timeout d) (timeoutOnPause d) (ctxs d) (log d).
Definition set_ready (b : bool) (d : dispatcher) : dispatcher :=
  mkDispatcher (requestQueue d) (requestChannel d) b (doneC d) (running d) (readers d) (writer d)
    (pendingRequestState d) (network d) (onRequestCancel d) (onHandlerPanic d) (dtimer d) (paused d)
    (timeout d) (timeoutOnPause d) (ctxs d) (log d).
Definition set_done (b : bool) (d : dispatcher) : dispatcher :=
  mkDispatcher (requestQueue d) (requestChannel d) (readyForDispatch d) b (running d) (readers d) (writer d)
    (pendingRequestState d) (network d) (onRequestCancel d) (onHandlerPanic d) (dtimer d) (paused d)
    (timeout d) (timeoutOnPause d) (ctxs d) (log d).
Definition set_running (b : bool) (d : dispatcher) : dispatcher :=
  mkDispatcher (requestQueue d) (requestChannel d) (readyForDispatch d) (doneC d) b (readers d) (writer d)
    (pendingRequestState d) (network d) (onRequestCancel d) (onHandlerPanic d) (dtimer d) (paused d)
    (timeout d) (timeoutOnPause d) (ctxs d) (log d).
Definition set_mutex (r : nat) (w : bool) (d : dispatcher) : dispatcher :=
  mkDispatcher (requestQueue d) (requestChannel d) (readyForDispatch d) (doneC d) (running d) r w
    (pendingRequestState d) (network d) (onRequestCancel d) (onHandlerPanic d) (dtimer d) (paused d)
    (timeout d) (timeoutOnPause d) (ctxs d) (log d).
Definition set_pending (p : ClientState.clientState Request) (d : dispatcher) : dispatcher :=
  mkDispatcher (requestQueue d) (requestChannel d) (readyForDispatch d) (doneC d) (running d) (readers d) (writer d)
    p (network d) (onRequestCancel d) (onHandlerPanic d) (dtimer d) (paused d)
    (timeout d) (timeoutOnPause d) (ctxs d) (log d).
Definition set_timer (t : timer) (d : dispatcher) : dispatcher :=
  mkDispatcher (requestQueue d) (requestChannel d) (readyForDispatch d) (doneC d) (running d) (readers d) (writer d)
    (pendingRequestState d) (network d) (onRequestCancel d) (onHandlerPanic d) t (paused d)
    (timeout d) (timeoutOnPause d) (ctxs d) (log d).
Definition set_paused (b : bool) (d : dispatcher) : dispatcher :=
  mkDispatcher (requestQueue d) (requestChannel d) (readyForDispatch d) (doneC d) (running d) (readers d) (writer d)
    (pendingRequestState d) (network d) (onRequestCancel d) (onHandlerPanic d) (dtimer d) b
    (timeout d) (timeoutOnPause d) (ctxs d) (log d).
Definition set_ctxs (t : ctx_table) (d : dispatcher) : dispatcher :=
  mkDispatcher (requestQueue d) (requestChannel d) (readyForDispatch d) (doneC d) (running d) (readers d) (writer d)
    (pendingRequestState d) (network d) (onRequestCancel d) (onHandlerPanic d) (dtimer d) (paused d)
    (timeout d) (timeoutOnPause d) t (log d).
Definition emit (evs : list event) (d : dispatcher) : dispatcher :=
  mkDispatcher (requestQueue d) (requestChannel d) (readyForDispatch d) (doneC d) (running d) (readers d) (writer d)
    (pendingRequestState d) (network d) (onRequestCancel d) (onHandlerPanic d) (dtimer d) (paused d)
    (timeout d) (timeoutOnPause d) (ctxs d) (log d ++ evs).

(** [NewDefaultClientDispatcher] *)
Definition NewDefaultClientDispatcher (queue : FIFO.FIFOClientQueue (element Request)) : dispatcher :=
  mkDispatcher queue None false false false 0 false ClientState.NewClientState false false false
    (mkTimer None false) false defaultMessageTimeout false ∅ [].

(** The setters; a callback or a network is present or not. *)
Definition SetNetworkClient (client : bool) (d : dispatcher) : dispatcher :=
  mkDispatcher (requestQueue d) (requestChannel d) (readyForDispatch d) (doneC d) (running d) (readers d) (writer d)
    (pendingRequestState d) client (onRequestCancel d) (onHandlerPanic d) (dtimer d) (paused d)
    (timeout d) (timeoutOnPause d) (ctxs d) (log d).
Definition SetPendingRequestState (state : ClientState.clientState Request) (d : dispatcher) : dispatcher :=
  set_pending state d.
Definition SetOnRequestCanceled (cb : bool) (d : dispatcher) : dispatcher :=
  mkDispatcher (requestQueue d) (requestChannel d) (readyForDispatch d) (doneC d) (running d) (readers d)
    (writer d) (pendingRequestState d) (network d) cb (onHandlerPanic d) (dtimer d) (paused d) (timeout d)
    (timeoutOnPause d) (ctxs d) (log d).
Definition SetOnHandlerPanic (cb : bool) (d : dispatcher) : dispatcher :=
  mkDispatcher (requestQueue d) (requestChannel d) (readyForDispatch d) (doneC d) (running d) (readers d)
    (writer d) (pendingRequestState d) (network d) (onRequestCancel d) cb (dtimer d) (paused d) (timeout d)
    (timeoutOnPause d) (ctxs d) (log d).
Definition SetTimeout (t : Z) (d : dispatcher) : dispatcher :=
  mkDispatcher (requestQueue d) (requestChannel d) (readyForDispatch d) (doneC d) (running d) (readers d)
    (writer d) (pendingRequestState d) (network d) (onRequestCancel d) (onHandlerPanic d) (dtimer d) (paused
    d) t (timeoutOnPause d) (ctxs d) (log d).
Definition SetTimeoutOnPause (enabled : bool) (d : dispatcher) : dispatcher :=
  mkDispatcher (requestQueue d) (requestChannel d) (readyForDispatch d) (doneC d) (running d) (readers d)
    (writer d) (pendingRequestState d) (network d) (onRequestCancel d) (onHandlerPanic d) (dtimer d) (paused
    d) (timeout d) enabled (ctxs d) (log d).

(** [Start]: the state it leaves; the pump it launches is [pump_thread]. *)
Definition Start (d : dispatcher) : dispatcher :=
  set_timer (mkTimer (Some defaultTimeoutTick) false)
    (set_running true (set_done false (set_channel (Some (mkChan 0 false)) d))).

Definition IsRunning (d : dispatcher) : bool := bool_decide (is_Some (requestChannel d)).
Definition IsPaused (d : dispatcher) : bool := paused d.

(** *** Shared actions *)

(** The non-blocking, coalesced send on [readyForDispatch]. *)
Definition signal_ready : prog unit := modify (set_ready true).

(** [mutex.RLock] and [mutex.Lock]: they block while the lock is taken. *)
Definition RLock : prog unit :=
  atomic (λ d, if writer d then None else Some (set_mutex (S (readers d)) false d, tt)).
Definition RUnlock : prog unit := modify (λ d, set_mutex (pred (readers d)) (writer d) d).
Definition Lock : prog unit :=
  atomic (λ d, if writer d then None else
               if decide (readers d = 0) then Some (set_mutex 0 true d, tt) else None).
Definition Unlock : prog unit := modify (λ d, set_mutex (readers d) false d).

(** [Stop], then a non-blocking drain if it had fired, then [Reset]. *)
Definition timer_restart (after : dispatcher → Z) : prog unit :=
  (stopped <- atomic (λ d, let '(t, b) := timer_Stop (dtimer d) in Some (set_timer t d, b)) ;;
  (if stopped : bool then Ret tt else modify (λ d, set_timer (timer_drain (dtimer d)) d)) ;;
  modify (λ d, set_timer (timer_Reset (after d) (dtimer d)) d))%proc.

(** The events of elements leaving the queue. *)
Definition taken_events (l : list (element Request)) : list event := EvTake <$> ids l.

(** [CompleteRequest]: pops the front iff it is [requestId]; the winner clears
    the pending state and signals the pump. *)
Definition CompleteRequest (requestId : string) : prog bool :=
  (el <- atomic (λ d, let '(q, r) := FIFO.PopIf (is_request requestId) (requestQueue d) in
                      Some (emit (taken_events (option_list r)) (set_queue q d), r)) ;;
  match (match el with Some e => elem_call e | None => None end) with
  | Some c =>
      modify (λ d, set_pending (ClientState.DeletePendingRequest (UniqueId c) (pendingRequestState d)) d) ;;
      signal_ready ;;
      Ret true
  | None => Ret false
  end)%proc.

(** [fireRequestCancel] with [recoverCancelCallback]: without a callback
    nothing happens; a panic of the callback is recovered and reported. *)
Definition fireRequestCancel (action requestID : string) (request : option Request)
    (err : ocpp_error) : prog unit :=
  choose (λ c d,
    match c with
    | CallbackPanics p =>
        if onRequestCancel d then
          Some (emit (EvCancel requestID request (default err (markLocalTransportError (Some err))) ::
                      if p && onHandlerPanic d then [EvHandlerPanic action requestID] else []) d, tt)
        else Some (d, tt)
    | _ => None
    end).

(** The queue front as [dispatchNextRequest] reads it. *)
Definition front_call (d : dispatcher) : option (Call Request * RequestBundle Request) :=
  match FIFO.Peek (requestQueue d) with
  | Some (EBundle b) => c ← bundle_Call b; Some (c, b)
  | _ => None
  end.

(** The call at the front, as the timer arm reads it. *)
Definition peek_call (d : dispatcher) : option (Call Request) :=
  match FIFO.Peek (requestQueue d) with Some el => elem_call el | None => None end.

(** [pendingRequestState.AddPendingRequest], with the event when it takes. *)
Definition add_pending (c : Call Request) (d : dispatcher) : dispatcher :=
  let st := pendingRequestState d in
  let st' := ClientState.AddPendingRequest (UniqueId c) (Payload c) st in
  emit (if decide (ClientState.requestID st' = ClientState.requestID st) then [] else [EvPending (UniqueId c)])
    (set_pending st' d).

(** [network.Write]: the environment decides whether it fails; a failed write
    sends nothing. *)
Definition network_Write (id data : string) : prog (option error) :=
  choose (λ c d, match c with
                 | NetResult None => Some (emit [EvWrite id data] d, None)
                 | NetResult (Some e) => Some (d, Some e)
                 | _ => None
                 end).

Definition dispatchNextRequest : prog (pumpPending * bool) :=
  (front <- read front_call ;;
  match front with
  | None => Ret (noPending, false)
  | Some (c, b) =>
      match bundle_Data b with
      | None => Ret (noPending, false)
      | Some jsonMessage =>
          expired <- read (λ d, ctx_Err (ctxs d) (bundleCtx b)) ;;
          match expired with
          | Some e =>
              won <- CompleteRequest (UniqueId c) ;;
              (if won : bool then
                 fireRequestCancel (Action c) (UniqueId c) (Payload c)
                   (NewRequestCanceledError (UniqueId c) (Some e))
               else Ret tt) ;;
              Ret (noPending, false)
          | None =>
              modify (add_pending c) ;;
              res <- network_Write (UniqueId c) jsonMessage ;;
              match res with
              | Some e =>
                  won <- CompleteRequest (UniqueId c) ;;
                  (if won : bool then
                     fireRequestCancel (Action c) (UniqueId c) (Payload c)
                       (NewLocalTransportError InternalError (error_text e) (UniqueId c))
                   else Ret tt) ;;
                  Ret (noPending, true)
              | None => Ret (mkPending (UniqueId c) (Action c) (bundleCtx b) (Payload c), true)
              end
          end
      end
  end)%proc.

(** *** The message pump *)

Record pump_locals := mkLocals { rdy : bool; inflight : pumpPending }.

(** The [select]: an arm is enabled when its channel can be received from. *)
Definition select_arm (p : pumpPending) (c : choice) (d : dispatcher) : option (dispatcher * selected) :=
  match c with
  | Pick ArmRequest =>
      match requestChannel d with
      | Some (mkChan (S n) cl) => Some (set_channel (Some (mkChan n cl)) d, SelRequest)
      | Some (mkChan 0 true) => Some (d, SelClosed)
      | _ => None
      end
  | Pick ArmTimer =>
      if fired (dtimer d) then Some (set_timer (timer_drain (dtimer d)) d, SelTimer) else None
  | Pick ArmReady =>
      if readyForDispatch d then Some (set_ready false d, SelReady) else None
  | Pick ArmCtxDone =>
      if decide (pp_id p ≠ "" ∧ is_Some (ctx_Err (ctxs d) (pp_ctx p))) then Some (d, SelCtxDone) else None
  | _ => None
  end.

(** The closed-channel arm: detach the queue, clear the pending state, cancel
    every detached request, then clear and exit. *)
Fixpoint cancel_all (els : list (element Request)) : prog unit :=
  match els with
  | [] => Ret tt
  | el :: els' =>
      (match elem_call el with
       | Some c => fireRequestCancel (Action c) (UniqueId c) (Payload c)
                     (newDispatcherStoppedError (UniqueId c))
       | None => Ret tt
       end ;; cancel_all els')%proc
  end.

Definition stop_drain : prog unit :=
  (outstanding <- atomic (λ d, let '(q, l) := FIFO.DrainAll (requestQueue d) in
                               Some (emit (taken_events l) (set_queue q d), l)) ;;
  modify (λ d, set_pending (ClientState.ClearPendingRequests (pendingRequestState d)) d) ;;
  cancel_all outstanding ;;
  modify (λ d, let l := FIFO.elements (requestQueue d) in
               emit (taken_events l ++ (EvDrop <$> ids l)) (set_queue (FIFO.Init (requestQueue d)) d)) ;;
  Lock ;;
  modify (set_channel None) ;;
  Unlock ;;
  modify (set_done true))%proc.

(** The timer arm: whatever request is at the front is completed as timed out. *)
Definition timeout_arm : prog unit :=
  (has <- read (λ d, ClientState.HasPendingRequest (pendingRequestState d)) ;;
  (if has : bool then
     el <- read peek_call ;;
     match el with
     | Some c =>
         won <- CompleteRequest (UniqueId c) ;;
         if won : bool then
           fireRequestCancel (Action c) (UniqueId c) (Payload c) (newRequestTimeoutError (UniqueId c))
         else Ret tt
     | None => Ret tt
     end
   else Ret tt) ;;
  modify (λ d, set_timer (timer_Reset defaultTimeoutTick (dtimer d)) d))%proc.

(** The [pendingDone] arm: the context of the request in flight fired. *)
Definition ctx_arm (p : pumpPending) : prog unit :=
  (still <- read (λ d, ClientState.GetPendingRequest (pp_id p) (pendingRequestState d)) ;;
  match still with
  | Some _ =>
      won <- CompleteRequest (pp_id p) ;;
      if won : bool then
        e <- read (λ d, ctx_Err (ctxs d) (pp_ctx p)) ;;
        fireRequestCancel (pp_action p) (pp_id p) (pp_payload p) (NewRequestCanceledError (pp_id p) e)
      else Ret tt
  | None => Ret tt
  end)%proc.

(** The code after the [select]: dispatch if ready, unpaused, and nothing is
    pending. *)
Definition after_select (l : pump_locals) : prog (option pump_locals) :=
  (isPaused <- read IsPaused ;;
  if isPaused : bool then Ret (Some l) else
  if negb (rdy l) then Ret (Some l) else
  empty <- read (λ d, FIFO.IsEmpty (requestQueue d)) ;;
  if empty : bool then Ret (Some l) else
  has <- read (λ d, ClientState.HasPendingRequest (pendingRequestState d)) ;;
  if has : bool then Ret (Some l) else
  r <- dispatchNextRequest ;;
  if r.2 : bool then
    timer_restart timeout ;;
    Ret (Some (mkLocals false r.1))
  else Ret (Some l))%proc.

(** One iteration of [messagePump]. *)
Definition messagePump (l : pump_locals) : prog (option pump_locals) :=
  (p <- (if decide (pp_id (inflight l) = "") then Ret (inflight l)
         else cur <- read (λ d, ClientState.GetPendingRequest (pp_id (inflight l)) (pendingRequestState d)) ;;
              match cur with Some _ => Ret (inflight l) | None => Ret noPending end) ;;
  sel <- choose (select_arm p) ;;
  match sel with
  | SelClosed => stop_drain ;; Ret None
  | SelRequest => after_select (mkLocals (rdy l) p)
  | SelTimer => timeout_arm ;; after_select (mkLocals (rdy l) noPending)
  | SelReady => after_select (mkLocals true p)
  | SelCtxDone => ctx_arm p ;; after_select (mkLocals (rdy l) noPending)
  end)%proc.

Definition pump_thread : thread dispatcher choice :=
  start_loop messagePump (mkLocals true noPending).

(** *** The operations other goroutines call *)

Definition errNoNetwork : error := Errorf "cannot SendRequest, no network client was set" None.
Definition errNotRunning (id : string) : error :=
  Errorf ("cannot send request " +:+ id +:+ ", dispatcher not running") None.

Definition bundle_id (b : RequestBundle Request) : string :=
  match bundle_Call b with Some c => UniqueId c | None => "" end.

(** The send [d.requestChannel <- true]: blocks while the buffer is full or
    the channel is nil, panics on a closed channel. *)
Definition channel_send (id : string) : prog unit :=
  atomic (λ d, match requestChannel d with
               | Some (mkChan _ true) => Some (emit [EvSendOnClosed] d, tt)
               | Some (mkChan 0 false) =>
                   Some (emit [EvPosted id] (set_channel (Some (mkChan 1 false)) d), tt)
               | _ => None
               end).

Definition SendRequest (req : RequestBundle Request) : prog (option error) :=
  (net <- read network ;;
  if negb net then Ret (Some errNoNetwork) else
  err <- atomic (λ d, let '(q, e) := FIFO.Push (EBundle req) (requestQueue d) in
                      Some (emit (match e with
                                  | None => EvAccept <$> ids [EBundle req]
                                  | Some _ => []
                                  end) (set_queue q d), e)) ;;
  match err with
  | Some e => Ret (Some e)
  | None =>
      RLock ;;
      run <- read running ;;
      if negb run then RUnlock ;; Ret (Some (errNotRunning (bundle_id req)))
      else channel_send (bundle_id req) ;; RUnlock ;; Ret None
  end)%proc.

(** The critical section of [Stop]; [true] when this call stops the pump. *)
Definition stop_section (d : dispatcher) : option (dispatcher * bool) :=
  if writer d then None else
  if decide (readers d = 0) then
    if running d then
      match requestChannel d with
      | Some (mkChan n false) => Some (set_running false (set_channel (Some (mkChan n true)) d), true)
      | _ => Some (emit [EvCloseOfClosed] (set_running false d), true)
      end
    else Some (d, false)
  else None.

Definition Stop : prog unit :=
  (stopping <- atomic stop_section ;;
  if stopping : bool then atomic (λ d, if doneC d then Some (d, tt) else None) else Ret tt)%proc.

Definition pause_tick (d : dispatcher) : Z :=
  if timeoutOnPause d && bool_decide (0 < timeout d)%Z then timeout d else defaultTimeoutTick.

Definition Pause : prog unit :=
  (Lock ;; timer_restart pause_tick ;; modify (set_paused true) ;; Unlock)%proc.

Definition Resume : prog unit :=
  (modify (set_paused false) ;;
  has <- read (λ d, ClientState.HasPendingRequest (pendingRequestState d)) ;;
  if has : bool then timer_restart timeout else signal_ready)%proc.

(** How the client endpoint completes a request it received a response or an
    error for ([ParseMessage]'s pending check, then [CompleteRequest], then the
    handler only if this call won). *)
Definition handle_response (id : string) : prog unit :=
  (known <- read (λ d, ClientState.GetPendingRequest id (pendingRequestState d)) ;;
  match known with
  | Some _ =>
      won <- CompleteRequest id ;;
      if won : bool then modify (emit [EvDeliver id]) else Ret tt
  | None => Ret tt
  end)%proc.

(** The environment: a context is canceled, the timer expires. *)
Definition cancel_ctx (i : nat) (e : error) : prog unit :=
  modify (λ d, set_ctxs (ctx_cancel i e (ctxs d)) d).
Definition timer_expires : prog unit :=
  atomic (λ d, match timer_fire (dtimer d) with
               | Some t => Some (set_timer t d, tt)
               | None => None
               end).

End dispatcher.
Arguments dispatcher : clear implicits.
Arguments event : clear implicits.
Arguments pumpPending : clear implicits.
Arguments pump_locals : clear implicits.
