(* ===== verification/ClientInvariant.v ===== *)
(** * The client dispatcher's invariant

    Ownership tokens and the invariant that relates the dispatcher's state and
    log to the tokens its goroutines own, with one lemma per kind of state
    change.  A goroutine that popped a request owns the right to clear its
    pending state ([TDel]) and to notify its outcome ([TNotify]); a sender
    owns its request id ([TSend]); the pump owns its position ([TMode]). *)

From S2P Require Import Prelude Conc Ocpp Errors Queue State Message ClientDispatcher.
Local Open Scope string_scope.
Local Open Scope list_scope.

(** Where the pump is. *)
Inductive mode :=
| MFree
| MIdle                    (* it saw no pending request *)
| MFront (id : string)     (* and read this request at the front *)
| MSent (id : string)      (* and marked it pending *)
| MClosed                  (* it saw the request channel closed *)
| MDraining                (* it detached the queue *)
| MDrained.                (* and cleared the pending state *)

(** Where a [SendRequest] is: before the push, after it, under the read lock,
    under the read lock having seen the dispatcher running. *)
Inductive phase := PNew | PPushed | PLocked | PRunning.

Inductive token :=
| TSend (id : string) (p : phase)
| TNotify (id : string)
| TDel (id : string)
| TSeen (id : string) (n : nat)   (* a response handler saw it pending *)
| TMode (m : mode).

#[export] Instance mode_eq_dec : EqDecision mode.
Proof. solve_decision. Defined.
#[export] Instance phase_eq_dec : EqDecision phase.
Proof. solve_decision. Defined.
#[export] Instance token_eq_dec : EqDecision token.
Proof. solve_decision. Defined.

#[export] Instance mode_countable : Countable mode.
Proof.
  refine (inj_countable'
    (λ m, match m with
          | MFree => (0, "") | MIdle => (1, "") | MFront id => (2, id) | MSent id => (3, id)
          | MClosed => (4, "") | MDraining => (5, "") | MDrained => (6, "")
          end)
    (λ p : nat * string, match p.1 with
          | 0 => MFree | 1 => MIdle | 2 => MFront p.2 | 3 => MSent p.2
          | 4 => MClosed | 5 => MDraining | _ => MDrained
          end) _); by intros [].
Defined.

#[export] Instance phase_countable : Countable phase.
Proof.
  refine (inj_countable' (λ p, match p with PNew => 0 | PPushed => 1 | PLocked => 2 | PRunning => 3 end)
    (λ n, match n with 0 => PNew | 1 => PPushed | 2 => PLocked | _ => PRunning end) _); by intros [].
Defined.

#[export] Instance token_countable : Countable token.
Proof.
  refine (inj_countable'
    (λ t, match t with
          | TSend id p => inl (id, p)
          | TNotify id => inr (inl id)
          | TDel id => inr (inr (inl id))
          | TSeen id n => inr (inr (inr (inl (id, n))))
          | TMode m => inr (inr (inr (inr m)))
          end)
    (λ s, match s with
          | inl p => TSend p.1 p.2
          | inr (inl id) => TNotify id
          | inr (inr (inl id)) => TDel id
          | inr (inr (inr (inl p))) => TSeen p.1 p.2
          | inr (inr (inr (inr m))) => TMode m
          end) _); by intros [].
Defined.

Section invariant.
Context {Request : Type}.
Implicit Types (d : dispatcher Request) (o r : gset token) (id : string).

(** ** What the log says

    [on k l] lists, in order, the request ids of the events of one kind:
    accepted by the queue, reported as sent to the caller, taken from the
    queue, dropped by [Init], marked pending, written, notified (a cancel
    callback, a delivered response or error), run-time panics. *)
Inductive kind := KAccept | KPosted | KTake | KDrop | KPending | KWrite | KNotify | KPanic.

Definition sel (k : kind) (e : event Request) : option string :=
  match k, e with
  | KAccept, EvAccept id | KPosted, EvPosted id | KTake, EvTake id | KDrop, EvDrop id
  | KPending, EvPending id | KWrite, EvWrite id _ | KNotify, EvCancel id _ _
  | KNotify, EvDeliver id => Some id
  | KPanic, EvSendOnClosed | KPanic, EvCloseOfClosed => Some ""
  | _, _ => None
  end.

Definition on (k : kind) (l : list (event Request)) : list string := omap (sel k) l.

Abbreviation accepted := (on KAccept).
Abbreviation posted := (on KPosted).
Abbreviation taken := (on KTake).
Abbreviation dropped := (on KDrop).
Abbreviation added := (on KPending).
Abbreviation written := (on KWrite).
Abbreviation notified := (on KNotify).
Abbreviation panics := (on KPanic).

Lemma on_app k l1 l2 : on k (l1 ++ l2) = on k l1 ++ on k l2.
Proof. apply omap_app. Qed.
Lemma on_nil k : on k [] = [].
Proof. done. Qed.
Lemma on_cons k e l : on k (e :: l) = option_list (sel k e) ++ on k l.
Proof. unfold on. simpl. by destruct (sel k e). Qed.
Lemma on_map k (f : string → event Request) g l :
  (∀ id, sel k (f id) = if g : bool then Some id else None) → on k (f <$> l) = if g then l else [].
Proof.
  intros Hf. induction l as [|x l IH]; [by destruct g|].
  rewrite fmap_cons, on_cons, Hf, IH. by destruct g.
Qed.
Lemma on_taken_events k l :
  on k (taken_events l) = match k with KTake => ids l | _ => [] end.
Proof. unfold taken_events. destruct k; (by apply (on_map _ _ false)) || by apply (on_map _ _ true). Qed.
Lemma on_drop_events k l :
  on k (EvDrop <$> l) = match k with KDrop => l | _ => [] end.
Proof. destruct k; (by apply (on_map _ _ false)) || by apply (on_map _ _ true). Qed.

Definition queued d : list string := ids (FIFO.elements (requestQueue d)).
Definition pendingID d : string := ClientState.requestID (pendingRequestState d).

Definition mode_ok (m : mode) d : Prop :=
  match m with
  | MFree => True
  | MIdle => pendingID d = ""
  | MFront id => pendingID d = "" ∧ head (queued d) = Some id ∧ id ∉ added (log d)
  | MSent id => id ∈ added (log d) ∧ ((written (log d)) ++ [id]) `sublist_of` accepted (log d)
  | MClosed => running d = false
  | MDraining => running d = false ∧ (∀ id, id ∈ posted (log d) → id ∈ taken (log d)) ∧
      (pendingID d ≠ "" → pendingID d ∈ taken (log d))
  | MDrained => running d = false ∧ (∀ id, id ∈ posted (log d) → id ∈ taken (log d)) ∧
      pendingID d = ""
  end.

Record Inv d o : Prop := mkInv {
  i_flow : accepted (log d) = taken (log d) ++ queued d;
  i_nodup : NoDup (accepted (log d));
  i_names : "" ∉ accepted (log d);
  i_phase : ∀ id p p', TSend id p ∈ o → TSend id p' ∈ o → p = p';
  i_new : ∀ id, TSend id PNew ∈ o → id ≠ "" ∧ id ∉ accepted (log d);
  i_pushed : ∀ id p, TSend id p ∈ o → p ≠ PNew → id ∈ accepted (log d);
  i_running : ∀ id, TSend id PRunning ∈ o → running d = true;
  i_readers : ∃ R : gset string, readers d = size R ∧
    (∀ id, id ∈ R ↔ TSend id PLocked ∈ o ∨ TSend id PRunning ∈ o);
  i_open : running d = true → ∃ n, requestChannel d = Some (mkChan n false);
  i_panics : panics (log d) = [];
  i_once : NoDup (notified (log d));
  i_notified : ∀ id, id ∈ notified (log d) → id ∈ taken (log d);
  i_notify : ∀ id, TNotify id ∈ o → id ∈ taken (log d) ∧ id ∉ notified (log d);
  i_outcome : onRequestCancel d = true → ∀ id, id ∈ taken (log d) →
    id ∈ notified (log d) ∨ id ∈ dropped (log d) ∨ TNotify id ∈ o;
  i_posted : ∀ id, id ∈ posted (log d) → id ∈ accepted (log d) ∧ id ∉ dropped (log d);
  i_dropped : ∀ id, id ∈ dropped (log d) → id ∈ taken (log d) ∧ running d = false;
  i_done : doneC d = true → running d = false ∧ (∀ id, id ∈ posted (log d) → id ∈ taken (log d));
  i_del : ∀ id, TDel id ∈ o → id ∈ taken (log d);
  i_pending : pendingID d ≠ "" →
    head (queued d) = Some (pendingID d) ∨ TDel (pendingID d) ∈ o ∨ TMode MDraining ∈ o;
  i_marked : pendingID d ≠ "" → pendingID d ∈ added (log d);
  i_added : ∀ id, id ∈ added (log d) → id ∈ taken (log d) ∨ (pendingID d = id ∧ id ≠ "");
  i_written : ∀ id, id ∈ written (log d) → id ∈ added (log d);
  i_order : (written (log d)) `sublist_of` accepted (log d);
  i_seen : ∀ id n, TSeen id n ∈ o → id = "" ∨ id ∈ added (log d);
  i_mode1 : ∀ m m', TMode m ∈ o → TMode m' ∈ o → m = m';
  i_mode : ∀ m, TMode m ∈ o → mode_ok m d
}.

(** What a goroutine may own between operations. *)
Definition Rest o : Prop :=
  (∀ id, (TDel id ∉ o) ∧ (TNotify id ∉ o)) ∧ (TMode MDraining ∉ o).

(** ** Changes the invariant does not see *)

Definition same_core d d' : Prop :=
  requestQueue d' = requestQueue d ∧ requestChannel d' = requestChannel d ∧
  running d' = running d ∧ readers d' = readers d ∧ pendingRequestState d' = pendingRequestState d ∧
  onRequestCancel d' = onRequestCancel d ∧ doneC d' = doneC d ∧ log d' = log d.

Lemma Inv_core d d' o : same_core d d' → Inv d o → Inv d' o.
Proof.
  destruct d, d'. unfold same_core. simpl. intros (-> & -> & -> & -> & -> & -> & -> & ->) [].
  constructor; assumption.
Qed.

(** ** The state changes *)

Ltac inv_open H :=
  destruct H as [Hflow Hnodup Hnames Hphase Hnew Hpushed Hrunning Hreaders Hopen Hpanics Honce
    Hnotified Hnotify Houtcome Hposted Hdropped Hdone Hdel Hpending Hmarked Hadded Hwritten Horder Hseen
    Hmode1 Hmode];
  unfold mode_ok, queued, pendingID in *.

Ltac log_simpl :=
  unfold mode_ok, queued, pendingID; simpl;
  rewrite ?on_app, ?on_taken_events, ?on_drop_events, ?on_cons, ?on_nil;
  simpl; rewrite ?app_nil_r.

(** The members of each class of tokens after a change: [classes] derives
    them for the classes the change leaves alone, [carry] closes the fields
    that mention only those. *)
Ltac class_eq Ho := intros; rewrite Ho; clear; intuition congruence.
Ltac classes o o' Ho :=
  try assert (Hs : ∀ id p, TSend id p ∈ o' ↔ TSend id p ∈ o) by class_eq Ho;
  try assert (Hn : ∀ id, TNotify id ∈ o' ↔ TNotify id ∈ o) by class_eq Ho;
  try assert (Hd : ∀ id, TDel id ∈ o' ↔ TDel id ∈ o) by class_eq Ho;
  try assert (He : ∀ id n, TSeen id n ∈ o' ↔ TSeen id n ∈ o) by class_eq Ho;
  try assert (Hm : ∀ m, TMode m ∈ o' ↔ TMode m ∈ o) by class_eq Ho.
Ltac by_class :=
  repeat match goal with
  | H : ∀ id p, TSend id p ∈ ?o' ↔ _ |- context [TSend _ _ ∈ ?o'] => progress setoid_rewrite H
  | H : ∀ id, TNotify id ∈ ?o' ↔ _ |- context [TNotify _ ∈ ?o'] => progress setoid_rewrite H
  | H : ∀ id, TDel id ∈ ?o' ↔ _ |- context [TDel _ ∈ ?o'] => progress setoid_rewrite H
  | H : ∀ id n, TSeen id n ∈ ?o' ↔ _ |- context [TSeen _ _ ∈ ?o'] => progress setoid_rewrite H
  | H : ∀ m, TMode m ∈ ?o' ↔ _ |- context [TMode _ ∈ ?o'] => progress setoid_rewrite H
  end.
Ltac carry := constructor; log_simpl; try assumption; by_class; try assumption.

(** The pump moves to another position. *)
Lemma Inv_mode d o o' m m' :
  Inv d o → TMode m ∈ o → (∀ t, t ∈ o' ↔ (t ∈ o ∧ t ≠ TMode m) ∨ t = TMode m') →
  mode_ok m' d → (m = MDraining → pendingID d = "") → Inv d o'.
Proof.
  intros HI Hin Ho Hok Hdr. inv_open HI. classes o o' Ho.
  assert (Hm : ∀ m'', TMode m'' ∈ o' ↔ m'' = m').
  { intros m''. rewrite Ho. split; [|by intros ->; right]. intros [[Hi Hne]|Heq]; [|congruence].
    by rewrite (Hmode1 m m'' Hin Hi) in Hne. }
  carry.
  - intros Hp. destruct (Hpending Hp) as [?|[?|Hdrm]]; auto.
    destruct Hp. apply Hdr, Hmode1; done.
  - by intros ?? -> ->.
  - by intros ? ->.
Qed.

(** Tokens that only promise something may be dropped or, when what they
    promise holds, taken. *)
Lemma Inv_seen d o o' id n :
  Inv d o → (∀ t, t ∈ o' ↔ t ∈ o ∨ t = TSeen id n) → id = "" ∨ id ∈ added (log d) → Inv d o'.
Proof.
  intros HI Ho Hid. inv_open HI. classes o o' Ho. carry.
  intros id' n'. rewrite Ho. intros [?|?]; [eauto|]. by simplify_eq.
Qed.

Lemma Inv_unseen d o o' id n :
  Inv d o → (∀ t, t ∈ o' ↔ t ∈ o ∧ t ≠ TSeen id n) → Inv d o'.
Proof.
  intros HI Ho. inv_open HI. classes o o' Ho. carry.
  intros id' n'. rewrite Ho. intros [? _]. eauto.
Qed.

Lemma fresh_seen id o : ∃ n, TSeen id n ∉ o.
Proof.
  set (ns := set_omap (λ t, match t with TSeen _ n => Some n | _ => None end) o : gset nat).
  exists (fresh ns). intros Hin. apply (is_fresh ns). subst ns. apply elem_of_set_omap. eauto.
Qed.

(** A request is accepted. *)
Lemma Inv_accept d o o' id q :
  Inv d o → TSend id PNew ∈ o → ids (FIFO.elements q) = queued d ++ [id] →
  (∀ t, t ∈ o' ↔ (t ∈ o ∧ t ≠ TSend id PNew) ∨ t = TSend id PPushed) →
  Inv (emit [EvAccept id] (set_queue q d)) o'.
Proof.
  intros HI Hin Hq Ho. inv_open HI. classes o o' Ho.
  destruct (Hnew id Hin) as [Hne Hfresh].
  assert (Hs : ∀ id' p, TSend id' p ∈ o' ↔ (TSend id' p ∈ o ∧ id' ≠ id) ∨ (id' = id ∧ p = PPushed)).
  { intros id' p. rewrite Ho. split.
    - intros [[Hi Hneq]|?]; simplify_eq; [|auto]. left. split; [done|]. intros ->.
      by rewrite (Hphase id p PNew Hi Hin) in Hneq.
    - intros [[? ?]|[-> ->]]; [left|by right]. split; [done|congruence]. }
  carry.
  - by rewrite Hq, Hflow, app_assoc.
  - by rewrite NoDup_snoc.
  - rewrite elem_of_snoc. clear -Hnames Hne. intuition.
  - clear -Hphase. intros id' p p' [[? ?]|[? ?]] [[? ?]|[? ?]]; try congruence. by eapply Hphase.
  - intros id' [[Hi Hid]|[? ?]]; [|done]. rewrite elem_of_snoc.
    destruct (Hnew id' Hi) as [? ?]. split; [done|]. by intros [?|?].
  - intros id' p [[? ?]|[-> ?]] ?; rewrite elem_of_snoc; eauto.
  - intros id' [[? ?]|[? ?]]; [eauto|done].
  - destruct Hreaders as (R & ? & HR). exists R. split; [done|]. intros id'. rewrite HR.
    assert (Hun : ¬ (TSend id PLocked ∈ o ∨ TSend id PRunning ∈ o)).
    { intros [Hi|Hi]; by pose proof (Hphase _ _ _ Hi Hin). }
    clear -Hun. destruct (decide (id' = id)); naive_solver.
  - intros id' Hi. rewrite elem_of_snoc. destruct (Hposted _ Hi). auto.
  - intros Hp. rewrite Hq. destruct (Hpending Hp) as [?|?]; [left; by apply head_app_Some|auto].
  - by apply sublist_inserts_r.
  - intros m Hmi. specialize (Hmode m Hmi). destruct m; log_simpl; rewrite ?Hq; try assumption.
    + destruct Hmode as (? & ? & ?). split; [done|]. split; [by apply head_app_Some|done].
    + destruct Hmode as [? ?]. split; [done|]. by apply sublist_inserts_r.
Qed.

(** The front request leaves the queue. *)
Lemma Inv_pop d o o' id q :
  Inv d o → queued d = id :: ids (FIFO.elements q) → TMode (MFront id) ∉ o →
  (∀ t, t ∈ o' ↔ t ∈ o ∨ t = TDel id ∨ t = TNotify id) →
  Inv (emit [EvTake id] (set_queue q d)) o' ∧ (TDel id ∉ o) ∧ (TNotify id ∉ o).
Proof.
  intros HI Hq Hfront Ho. inv_open HI. classes o o' Ho.
  assert (Hnt : id ∉ taken (log d)).
  { rewrite Hflow, Hq, NoDup_app in Hnodup. destruct Hnodup as (_ & Hdis & _).
    intros Hin. apply (Hdis id Hin). set_solver. }
  assert (Hn : ∀ id', TNotify id' ∈ o' ↔ TNotify id' ∈ o ∨ id' = id) by class_eq Ho.
  assert (Hd : ∀ id', TDel id' ∈ o' ↔ TDel id' ∈ o ∨ id' = id) by class_eq Ho.
  split; [|split; [intros ?; by destruct Hnt; eauto|intros Hi; by destruct (Hnotify _ Hi)]].
  carry.
  - by rewrite Hflow, Hq, <-app_assoc.
  - intros id' ?. rewrite elem_of_snoc. auto.
  - intros id'. rewrite elem_of_snoc. intros [Hi| ->]; [destruct (Hnotify _ Hi); auto|auto].
  - intros Hcb id'. rewrite elem_of_snoc. intros [Hi| ->]; [|auto].
    destruct (Houtcome Hcb _ Hi) as [?|[?|?]]; auto.
  - intros id' Hi. rewrite elem_of_snoc. destruct (Hdropped _ Hi). auto.
  - intros Hdn. destruct (Hdone Hdn). split; [done|]. intros id' ?. rewrite elem_of_snoc. auto.
  - intros id'. rewrite elem_of_snoc. intros [?|?]; auto.
  - intros Hp. destruct (Hpending Hp) as [Hh|[?|?]]; auto. rewrite Hq in Hh. simplify_eq/=. auto.
  - intros id' Hi. rewrite elem_of_snoc. destruct (Hadded _ Hi); auto.
  - intros m Hmi. specialize (Hmode m Hmi). destruct m; log_simpl; try assumption.
    + destruct Hmode as (_ & Hh & _). rewrite Hq in Hh. by simplify_eq/=.
    + destruct Hmode as (? & Hp & Hr). split; [done|]. split; intros; rewrite elem_of_snoc; auto.
    + destruct Hmode as (? & Hp & Hr). split; [done|]. split; [|done]. intros; rewrite elem_of_snoc; auto.
Qed.

(** The goroutine that took a request clears its pending state. *)
Lemma Inv_del d o o' id :
  Inv d o → TDel id ∈ o → (∀ t, t ∈ o' ↔ t ∈ o ∧ t ≠ TDel id) →
  Inv (set_pending (ClientState.DeletePendingRequest id (pendingRequestState d)) d) o'.
Proof.
  intros HI Hin Ho. inv_open HI. classes o o' Ho.
  assert (Hd : ∀ id', TDel id' ∈ o' ↔ TDel id' ∈ o ∧ id' ≠ id) by class_eq Ho.
  pose proof (Hdel id Hin) as Htk. set (st := pendingRequestState d) in *.
  assert (Hrid : ClientState.requestID (ClientState.DeletePendingRequest id st) =
                 if decide (ClientState.requestID st = id) then "" else ClientState.requestID st).
  { unfold ClientState.DeletePendingRequest. repeat case_decide; done. }
  carry; rewrite ?Hrid.
  - intros id' [Hi _]. eauto.
  - case_decide as Hc; [done|]. intros Hp. destruct (Hpending Hp) as [?|[?|?]]; auto.
  - by case_decide.
  - intros id' Hi. destruct (Hadded id' Hi) as [?|[Heq ?]]; [auto|].
    destruct (decide (ClientState.requestID st = id)) as [Hc|_]; [left; congruence|auto].
  - intros m Hmi. specialize (Hmode m Hmi).
    destruct m; rewrite ?Hrid; try assumption; case_decide; try assumption;
      repeat split; intuition.
Qed.

(** The goroutine that took a request notifies its outcome; without a cancel
    callback the outcome is not observable. *)
Lemma Inv_notify d o o' id evs :
  Inv d o → TNotify id ∈ o → (∀ t, t ∈ o' ↔ t ∈ o ∧ t ≠ TNotify id) →
  (∀ k, on k evs = match k with KNotify => [id] | _ => [] end) → Inv (emit evs d) o'.
Proof.
  intros HI Hin Ho Hev. inv_open HI. classes o o' Ho.
  assert (Hn : ∀ id', TNotify id' ∈ o' ↔ TNotify id' ∈ o ∧ id' ≠ id) by class_eq Ho.
  destruct (Hnotify id Hin) as [Htk Hnn].
  constructor; log_simpl; rewrite ?Hev, ?app_nil_r; try assumption; by_class; try assumption.
  - by rewrite NoDup_snoc.
  - intros id'. rewrite elem_of_snoc. intros [?| ->]; auto.
  - intros id' [Hi Hne]. destruct (Hnotify _ Hi). rewrite elem_of_snoc. split; [done|].
    by intros [?|?].
  - intros Hcb id' Hi. rewrite elem_of_snoc.
    destruct (Houtcome Hcb id' Hi) as [?|[?|?]]; auto. destruct (decide (id' = id)); auto.
Qed.

Lemma Inv_unnotify d o o' id :
  Inv d o → onRequestCancel d = false → (∀ t, t ∈ o' ↔ t ∈ o ∧ t ≠ TNotify id) → Inv d o'.
Proof.
  intros HI Hcb Ho. inv_open HI. classes o o' Ho.
  assert (Hn : ∀ id', TNotify id' ∈ o' ↔ TNotify id' ∈ o ∧ id' ≠ id) by class_eq Ho.
  carry; [|congruence]. intros id' [Hi _]. eauto.
Qed.

(** The pump marks the front request pending, then writes it. *)
Lemma Inv_add d o o' id req :
  Inv d o → TMode (MFront id) ∈ o → id ≠ "" →
  (∀ t, t ∈ o' ↔ (t ∈ o ∧ t ≠ TMode (MFront id)) ∨ t = TMode (MSent id)) →
  Inv (emit [EvPending id] (set_pending (ClientState.mkState id req) d)) o'.
Proof.
  intros HI Hin Hne Ho. inv_open HI. classes o o' Ho.
  assert (Hm : ∀ m, TMode m ∈ o' ↔ m = MSent id).
  { intros m. rewrite Ho. split; [|by intros ->; right]. intros [[Hi Hn']|Heq]; [|congruence].
    by rewrite (Hmode1 _ m Hin Hi) in Hn'. }
  destruct (Hmode _ Hin) as (Hrid & Hh & Hna).
  assert (Hsub : (on KWrite (log d)) `sublist_of` taken (log d)).
  { apply (sublist_app_outside _ _ (ids (FIFO.elements (requestQueue d)))); [congruence..|].
    intros x Hx. destruct (Hadded x (Hwritten x Hx)) as [?|[? ?]]; [done|congruence]. }
  carry.
  - intros _. auto.
  - intros _. rewrite elem_of_snoc. auto.
  - intros id'. rewrite elem_of_snoc. intros [Hi| ->]; [|auto].
    destruct (Hadded id' Hi) as [?|[? ?]]; [auto|congruence].
  - intros id' ?. rewrite elem_of_snoc. auto.
  - intros id' n Hi. rewrite elem_of_snoc. destruct (Hseen _ _ Hi); auto.
  - by intros ?? -> ->.
  - intros ? ->. log_simpl. rewrite elem_of_snoc. split; [auto|].
    rewrite Hflow. apply sublist_app; [done|]. apply head_Some_inv in Hh as [l' ->].
    apply sublist_skip, sublist_nil_l.
Qed.

Lemma Inv_write d o o' id data :
  Inv d o → TMode (MSent id) ∈ o →
  (∀ t, t ∈ o' ↔ (t ∈ o ∧ t ≠ TMode (MSent id)) ∨ t = TMode MFree) →
  Inv (emit [EvWrite id data] d) o'.
Proof.
  intros HI Hin Ho. pose proof HI as HI'. inv_open HI'. destruct (Hmode _ Hin) as [Ha Hsub].
  assert (HF : Inv d o') by (by eapply (Inv_mode _ _ _ (MSent id) MFree)).
  clear -HF Ha Hsub Ho. inv_open HF. carry.
  - intros id'. rewrite elem_of_snoc. intros [?| ->]; auto.
  - intros m Hmi. by rewrite (Hmode1 m MFree Hmi ltac:(apply Ho; auto)).
Qed.

(** [SendRequest] and the read lock. *)
Lemma Inv_send_phase d o o' id p p' :
  Inv d o → TSend id p ∈ o → p ≠ PNew → p' ≠ PNew →
  (p = PLocked ∨ p = PRunning ↔ p' = PLocked ∨ p' = PRunning) →
  (p' = PRunning → running d = true) →
  (∀ t, t ∈ o' ↔ (t ∈ o ∧ t ≠ TSend id p) ∨ t = TSend id p') → Inv d o'.
Proof.
  intros HI Hin Hp Hp' Hlk Hrun Ho. inv_open HI. classes o o' Ho.
  assert (Hs : ∀ id' q, TSend id' q ∈ o' ↔ (TSend id' q ∈ o ∧ id' ≠ id) ∨ (id' = id ∧ q = p')).
  { intros id' q. rewrite Ho. split.
    - intros [[Hi Hneq]|?]; simplify_eq; [|auto]. left. split; [done|]. intros ->.
      by rewrite (Hphase id q p Hi Hin) in Hneq.
    - intros [[? ?]|[-> ->]]; [left|by right]. split; [done|congruence]. }
  carry.
  - clear -Hphase. intros id' q q' [[? ?]|[? ?]] [[? ?]|[? ?]]; try congruence. by eapply Hphase.
  - intros id' [[? ?]|[? ?]]; [eauto|congruence].
  - intros id' q [[? ?]|[-> ?]] ?; eauto.
  - intros id' [[? ?]|[? ?]]; [eauto|auto].
  - destruct Hreaders as (R & ? & HR). exists R. split; [done|]. intros id'. rewrite HR.
    assert (Hid : TSend id PLocked ∈ o ∨ TSend id PRunning ∈ o ↔ p = PLocked ∨ p = PRunning).
    { split; [intros [Hi|Hi]; rewrite (Hphase _ _ _ Hin Hi); auto|intros [->| ->]; auto]. }
    clear -Hid Hlk. destruct (decide (id' = id)) as [->|]; [|naive_solver].
    rewrite Hid, Hlk. naive_solver.
Qed.

Lemma Inv_rlock d o o' id n w :
  Inv d o → TSend id PPushed ∈ o → n = S (readers d) →
  (∀ t, t ∈ o' ↔ (t ∈ o ∧ t ≠ TSend id PPushed) ∨ t = TSend id PLocked) →
  Inv (set_mutex n w d) o'.
Proof.
  intros HI Hin -> Ho. inv_open HI. classes o o' Ho.
  assert (Hs : ∀ id' q, TSend id' q ∈ o' ↔ (TSend id' q ∈ o ∧ id' ≠ id) ∨ (id' = id ∧ q = PLocked)).
  { intros id' q. rewrite Ho. split.
    - intros [[Hi Hneq]|?]; simplify_eq; [|auto]. left. split; [done|]. intros ->.
      by rewrite (Hphase id q PPushed Hi Hin) in Hneq.
    - intros [[? ?]|[-> ->]]; [left|by right]. split; [done|congruence]. }
  carry.
  - clear -Hphase. intros id' q q' [[? ?]|[? ?]] [[? ?]|[? ?]]; try congruence. by eapply Hphase.
  - intros id' [[? ?]|[? ?]]; [eauto|congruence].
  - intros id' q [[? ?]|[-> ?]] ?; eauto.
  - intros id' [[? ?]|[? ?]]; [eauto|congruence].
  - destruct Hreaders as (R & Hsz & HR). exists ({[id]} ∪ R).
    assert (Hun : id ∉ R).
    { rewrite HR. intros [Hi|Hi]; by pose proof (Hphase _ _ _ Hi Hin). }
    split; [rewrite size_union, size_singleton by set_solver; lia|].
    intros id'. rewrite elem_of_union, elem_of_singleton, HR.
    clear -Hun HR. rewrite HR in Hun. destruct (decide (id' = id)); naive_solver.
Qed.

(** A sender is done with its token: it gave up before the push, or releases
    the read lock. *)
Lemma Inv_unsend d o o' id :
  Inv d o → TSend id PNew ∈ o → (∀ t, t ∈ o' ↔ t ∈ o ∧ t ≠ TSend id PNew) → Inv d o'.
Proof.
  intros HI Hin Ho. inv_open HI. classes o o' Ho.
  assert (Hs : ∀ id' p, TSend id' p ∈ o' → TSend id' p ∈ o) by (intros ??; rewrite Ho; tauto).
  carry; try (intros; by eauto).
  destruct Hreaders as (R & Hsz & HR). exists R. split; [done|]. intros id'.
  rewrite HR, !Ho. clear. intuition congruence.
Qed.

Lemma Inv_runlock d o o' id n w :
  Inv d o → TSend id PLocked ∈ o → n = pred (readers d) →
  (∀ t, t ∈ o' ↔ t ∈ o ∧ t ≠ TSend id PLocked) → Inv (set_mutex n w d) o'.
Proof.
  intros HI Hin -> Ho. inv_open HI. classes o o' Ho.
  assert (Hs : ∀ id' p, TSend id' p ∈ o' → TSend id' p ∈ o) by (intros ??; rewrite Ho; tauto).
  carry; try (intros; by eauto).
  destruct Hreaders as (R & Hsz & HR). exists (R ∖ {[id]}).
  assert (HidR : id ∈ R) by (apply HR; auto).
  split; [rewrite size_difference, size_singleton by set_solver; lia|].
  intros id'. rewrite elem_of_difference, elem_of_singleton, HR, !Ho.
  split; [clear; intuition congruence|].
  intros [[? ?]|[Hi ?]]; (split; [auto|]); intros ->; [congruence|].
  by pose proof (Hphase _ _ _ Hi Hin).
Qed.

(** [SendRequest] posts to the open channel: it reports success. *)
Lemma Inv_post d o id ch :
  Inv d o → TSend id PRunning ∈ o → closed ch = false →
  Inv (emit [EvPosted id] (set_channel (Some ch) d)) o.
Proof.
  intros HI Hin Hch. inv_open HI. pose proof (Hrunning id Hin) as Hrun.
  carry.
  - intros _. destruct ch as [n c]; simpl in Hch; subst. eauto.
  - intros id'. rewrite elem_of_snoc. intros [?| ->]; [auto|].
    split; [by eapply Hpushed|]. intros Hdr.
    destruct (Hdropped _ Hdr). congruence.
  - intros Hdn. destruct (Hdone Hdn). congruence.
  - intros m Hmi. specialize (Hmode m Hmi). destruct m; try assumption; destruct Hmode; congruence.
Qed.

(** [Stop] closes the channel: no reader is inside, so no sender is about to
    post. *)
Lemma Inv_stop d o n :
  Inv d o → readers d = 0 →
  Inv (set_running false (set_channel (Some (mkChan n true)) d)) o.
Proof.
  intros HI H0. inv_open HI.
  assert (Hno : ∀ id, TSend id PRunning ∉ o).
  { intros id Hin. destruct Hreaders as (R & Hsz & HR).
    assert (id ∈ R) by (apply HR; auto). rewrite H0 in Hsz. symmetry in Hsz.
    apply size_empty_inv in Hsz. set_solver. }
  carry.
  - intros id Hin. by destruct (Hno id).
  - done.
  - intros id Hi. destruct (Hdropped _ Hi). auto.
  - intros Hdn. destruct (Hdone Hdn). auto.
  - intros m Hmi. specialize (Hmode m Hmi). destruct m; try assumption; [done| |];
      destruct Hmode; auto.
Qed.

(** The channel changes without being closed, or after it was. *)
Lemma Inv_channel d o ch :
  Inv d o → (running d = true → ∃ n, ch = Some (mkChan n false)) → Inv (set_channel ch d) o.
Proof. intros HI Hch. inv_open HI. carry. Qed.

Lemma Inv_done d o : Inv d o → TMode MDrained ∈ o → Inv (set_done true d) o.
Proof.
  intros HI Hin. inv_open HI. carry. intros _. destruct (Hmode _ Hin) as (? & ? & ?). auto.
Qed.

(** The pump's stop drain: detach the queue, clear the pending state, drop
    what a late [SendRequest] still pushed. *)
Lemma Inv_drain d o o' q :
  Inv d o → TMode MClosed ∈ o → FIFO.elements q = [] →
  (∀ t, t ∈ o' ↔ (t ∈ o ∧ t ≠ TMode MClosed) ∨ t = TMode MDraining ∨
                 ∃ id, id ∈ queued d ∧ t = TNotify id) →
  Inv (emit (taken_events (FIFO.elements (requestQueue d))) (set_queue q d)) o'.
Proof.
  intros HI Hin Hq Ho. inv_open HI.
  assert (Hs : ∀ id p, TSend id p ∈ o' ↔ TSend id p ∈ o) by (intros; rewrite Ho; naive_solver).
  assert (Hd : ∀ id, TDel id ∈ o' ↔ TDel id ∈ o) by (intros; rewrite Ho; naive_solver).
  assert (He : ∀ id n, TSeen id n ∈ o' ↔ TSeen id n ∈ o) by (intros; rewrite Ho; naive_solver).
  assert (Hm : ∀ m, TMode m ∈ o' ↔ m = MDraining).
  { intros m. rewrite Ho. split; [|by intros ->; auto].
    intros [[Hi Hne]|[?|(? & _ & ?)]]; [|congruence|congruence].
    by rewrite (Hmode1 _ m Hin Hi) in Hne. }
  set (qs := ids (FIFO.elements (requestQueue d))) in *.
  assert (Hn : ∀ id, TNotify id ∈ o' ↔ TNotify id ∈ o ∨ id ∈ qs).
  { intros id. rewrite Ho. clear. naive_solver. }
  pose proof (Hmode _ Hin) as Hrun. simpl in Hrun.
  assert (Hdis : ∀ id, id ∈ qs → id ∉ taken (log d)).
  { intros id Hi Ht. rewrite Hflow in Hnodup. apply NoDup_app in Hnodup as (_ & Hx & _). by apply (Hx id). }
  carry; try setoid_rewrite elem_of_app; rewrite ?Hq; fold qs.
  - by rewrite app_nil_r.
  - auto.
  - intros id [Hi|Hi]; [destruct (Hnotify _ Hi); auto|]. split; [auto|]. intros Hx. by destruct (Hdis id); auto.
  - intros Hcb id [Hi|Hi]; [destruct (Houtcome Hcb id Hi) as [?|[?|?]]; auto|auto].
  - intros id Hi. destruct (Hdropped id Hi). auto.
  - intros Hdn. destruct (Hdone Hdn). auto.
  - auto.
  - auto.
  - intros id Hi. destruct (Hadded id Hi) as [?|?]; auto.
  - by intros ?? -> ->.
  - intros m ->. split; [done|]. split.
    + intros id Hi. rewrite <-Hflow. by apply Hposted.
    + intros Hp. rewrite elem_of_app. destruct (Hpending Hp) as [Hh|[?|Hx]]; auto.
      * right. apply head_Some_inv in Hh as [l ->]. left.
      * by pose proof (Hmode1 _ _ Hin Hx).
Qed.

Lemma Inv_clear d o o' :
  Inv d o → TMode MDraining ∈ o →
  (∀ t, t ∈ o' ↔ (t ∈ o ∧ t ≠ TMode MDraining) ∨ t = TMode MDrained) →
  Inv (set_pending (ClientState.ClearPendingRequests (pendingRequestState d)) d) o'.
Proof.
  intros HI Hin Ho. inv_open HI. classes o o' Ho.
  assert (Hm : ∀ m, TMode m ∈ o' ↔ m = MDrained).
  { intros m. rewrite Ho. split; [|by intros ->; right]. intros [[Hi Hn']|Heq]; [|congruence].
    by rewrite (Hmode1 _ m Hin Hi) in Hn'. }
  destruct (Hmode _ Hin) as (Hrun & Hpo & Hrid). carry.
  - done.
  - done.
  - intros id Hi. left. destruct (Hadded id Hi) as [?|[<- ?]]; auto.
  - by intros ?? -> ->.
  - by intros m ->.
Qed.

Lemma Inv_drop d o q :
  Inv d o → TMode MDrained ∈ o → FIFO.elements q = [] →
  Inv (emit (taken_events (FIFO.elements (requestQueue d)) ++
             (EvDrop <$> ids (FIFO.elements (requestQueue d)))) (set_queue q d)) o.
Proof.
  intros HI Hin Hq. inv_open HI.
  destruct (Hmode _ Hin) as (Hrun & Hpo & Hrid).
  set (qs := ids (FIFO.elements (requestQueue d))) in *.
  assert (Hdis : ∀ id, id ∈ qs → id ∉ taken (log d)).
  { intros id Hi Ht. rewrite Hflow in Hnodup. apply NoDup_app in Hnodup as (_ & Hx & _). by apply (Hx id). }
  carry; try setoid_rewrite elem_of_app; rewrite ?Hq, ?Hrid; fold qs; rewrite ?app_nil_r; try done.
  - auto.
  - intros id Hi. destruct (Hnotify _ Hi). auto.
  - intros Hcb id [Hi|Hi]; [destruct (Houtcome Hcb id Hi) as [?|[?|?]]; auto|auto].
  - intros id Hi. destruct (Hposted id Hi). split; [done|]. intros [?|?]; [done|]. by apply (Hdis id); auto.
  - intros id [Hi|?]; [destruct (Hdropped id Hi); auto|auto].
  - intros Hdn. destruct (Hdone Hdn). auto.
  - auto.
  - intros id Hi. destruct (Hadded id Hi) as [?|?]; auto. right. congruence.
  - intros m Hmi. rewrite (Hmode1 _ _ Hmi Hin). split; [done|]. split; [|done].
    intros id ?. rewrite elem_of_app. auto.
Qed.
End invariant.
