(* ===== verification/ClientSafety.v ===== *)
(** * The client dispatcher under every schedule

    Each operation of the dispatcher is shown [safe] for [ClientInvariant.Inv];
    the theorems at the end read the invariant off any state that the pump and
    any number of concurrent senders, response handlers, pauses, stops, timer
    expiries and context cancellations can reach. *)

From S2P Require Import Prelude Conc Ocpp Errors Queue State Message ClientDispatcher ClientInvariant.
Local Open Scope string_scope.
Local Open Scope list_scope.

Section safety.
Context {Request : Type}.
Implicit Types (d : dispatcher Request) (o r : gset token) (id : string).

Abbreviation prog A := (proc (dispatcher Request) choice A).
Abbreviation sf := (safe (C:=choice) (Inv (Request:=Request)) Rest).

Ltac tok := intros; set_unfold; naive_solver.

(** An action the invariant does not see. *)
Lemma sf_quiet {A : Type} (f : choice → dispatcher Request → option (dispatcher Request * A)) o Q :
  (∀ c d d' x, f c d = Some (d', x) → same_core d d') → (∀ x, Q o x) → sf o (choose f) Q.
Proof.
  intros Hf HQ c d r d' x Hd HI Heq. exists o. split; [done|]. split; [|by simpl].
  eapply Inv_core; [by eapply Hf|done].
Qed.

Lemma sf_quiet_modify (f : dispatcher Request → dispatcher Request) o Q :
  (∀ d, same_core d (f d)) → Q o tt → sf o (modify f) Q.
Proof.
  intros Hf HQ. apply safe_modify_frame; [|done]. intros d o' HI. by eapply Inv_core.
Qed.

Lemma sf_quiet_atomic {A : Type} (f : dispatcher Request → option (dispatcher Request * A)) o Q :
  (∀ d d' x, f d = Some (d', x) → same_core d d') → (∀ x, Q o x) → sf o (atomic f) Q.
Proof. intros Hf HQ. apply (sf_quiet (λ _, f)); eauto. Qed.

Ltac quiet := by (intros; repeat (simplify_eq/=; case_match); simplify_eq/=; repeat split).

Lemma sf_timer_restart after o (Q : gset token → unit → Prop) :
  Q o tt → sf o (timer_restart after) Q.
Proof.
  intros HQ. apply safe_bind, sf_quiet_atomic; [quiet|]. intros stopped.
  apply safe_bind. assert (HR : sf o (modify (λ d, set_timer (timer_Reset (after d) (dtimer d)) d)) Q)
    by (by apply sf_quiet_modify).
  destruct stopped; [done|]. by apply sf_quiet_modify.
Qed.

(** [CompleteRequest]: the caller may first move from [o0] to [o1], and owns
    the notification of the request exactly when the call returns [true]. *)
Lemma sf_complete o0 o1 id (Q : gset token → bool → Prop) :
  (∀ d r, o0 ## r → Inv d (o0 ∪ r) →
     Inv d (o1 ∪ r) ∧ o1 ## r ∧ (head (queued d) = Some id → TMode (MFront id) ∉ o1 ∪ r)) →
  Q (o1 ∪ {[TNotify id]}) true → Q o1 false → sf o0 (CompleteRequest id) Q.
Proof.
  intros Hmove Htrue Hfalse. apply safe_bind, safe_atomic. intros d r d' x Hdis HI Heq.
  destruct (Hmove d r Hdis HI) as (HI1 & Hdis1 & Hfr).
  destruct (FIFO.PopIf _ _) as [q [e|]] eqn:Hp; simplify_eq.
  - destruct (popif_ids _ _ _ _ Hp) as (He & _ & Hids).
    destruct (Inv_pop d (o1 ∪ r) (o1 ∪ {[TDel id; TNotify id]} ∪ r) id q HI1 Hids) as (HI2 & Hn1 & Hn2);
      [by apply Hfr; unfold queued; rewrite Hids|clear; set_solver|].
    exists (o1 ∪ {[TDel id; TNotify id]}). split; [clear -Hn1 Hn2 Hdis1; set_solver|].
    split; [by unfold taken_events, ids; simpl; rewrite He|].
    unfold elem_id in He. destruct (elem_call e) as [c|]; [|done]. injection He as <-.
    apply safe_bind, safe_modify. intros d2 r2 Hdis2 HI3.
    exists (o1 ∪ {[TNotify (UniqueId c)]}). split; [clear -Hdis2; set_solver|]. split.
    + eapply Inv_del; [done|set_solver|].
      assert (Hn : TDel (UniqueId c) ∉ o1) by set_solver. clear -Hdis2 Hn. set_solver.
    + apply safe_bind, sf_quiet_modify; [quiet|]. done.
  - change (rq_popif (is_request id) (requestQueue d) = (q, None)) in Hp.
    apply rq_popif_none in Hp as [-> _].
    exists o1. split; [done|]. split; [|done]. eapply Inv_core; [|exact HI1].
    repeat split; simpl. apply app_nil_r.
Qed.

(** *** The pump *)

Abbreviation pump m := ({[TMode m]} : gset token).

Lemma no_other_mode d r m m' : pump m ## r → Inv d (pump m ∪ r) → TMode m' ∉ r.
Proof.
  intros Hdis HI Hin. assert (m' = m) as ->.
  { apply (i_mode1 _ _ HI); set_solver. }
  set_solver.
Qed.

Lemma pump_move d r m m' :
  pump m ## r → Inv d (pump m ∪ r) → mode_ok m' d → m ≠ MDraining →
  Inv d (pump m' ∪ r) ∧ pump m' ## r.
Proof.
  intros Hdis HI Hok Hm. pose proof (no_other_mode d r m m' Hdis HI) as Hno.
  split; [|set_solver]. eapply (Inv_mode d _ _ m m' HI); [set_solver| |done|done].
  clear -Hdis. set_solver.
Qed.

Lemma sf_pump_read {X : Type} (f : dispatcher Request → X) m (m' : X → mode) (Q : gset token → X → Prop) :
  m ≠ MDraining → (∀ d r, Inv d (pump m ∪ r) → mode_ok (m' (f d)) d) →
  (∀ x, Q (pump (m' x)) x) → sf (pump m) (read f) Q.
Proof.
  intros Hm Hok HQ. apply safe_read. intros d r Hdis HI.
  destruct (pump_move d r m (m' (f d)) Hdis HI (Hok d r HI) Hm). eauto.
Qed.

(** The pump completes a request: it may have read it at the front. *)
Lemma sf_pump_complete m id (Q : gset token → bool → Prop) :
  m ≠ MDraining → Q (pump MFree ∪ {[TNotify id]}) true → Q (pump MFree) false →
  sf (pump m) (CompleteRequest id) Q.
Proof.
  intros Hm Ht Hf. apply (sf_complete _ (pump MFree)); [|done|done].
  intros d r Hdis HI. destruct (pump_move d r m MFree Hdis HI ltac:(done) Hm).
  pose proof (no_other_mode d r m (MFront id) Hdis HI). set_solver.
Qed.

Lemma sf_fire o action id req err (Q : gset token → unit → Prop) :
  TNotify id ∉ o → Q o tt → sf (o ∪ {[TNotify id]}) (fireRequestCancel action id req err) Q.
Proof.
  intros Hn HQ c d r d' x Hdis HI Heq. exists o. split; [clear -Hdis; set_solver|].
  assert (Ho : ∀ t, t ∈ o ∪ r ↔ t ∈ o ∪ {[TNotify id]} ∪ r ∧ t ≠ TNotify id)
    by (clear -Hdis Hn; set_solver).
  split; [|by destruct x].
  destruct c as [|ne|p|]; simplify_eq. case_match eqn:Hcb; simplify_eq.
  - eapply (Inv_notify d _ _ id); [exact HI|clear; set_solver|exact Ho|].
    intros k. rewrite on_cons. destruct (p && onHandlerPanic d), k; done.
  - by eapply Inv_unnotify.
Qed.

(** The winner of [CompleteRequest] fires the cancel callback. *)
Lemma sf_pump_cancel m id action req err (Q : gset token → unit → Prop) :
  m ≠ MDraining → Q (pump MFree) tt →
  sf (pump m) (bind (CompleteRequest id) (λ won : bool,
    if won then fireRequestCancel action id req err else Ret tt)) Q.
Proof.
  intros Hm HQ. apply safe_bind, sf_pump_complete; [done| |done].
  apply sf_fire; [set_solver|done].
Qed.

Lemma front_call_head d c b :
  front_call d = Some (c, b) → head (queued d) = Some (UniqueId c).
Proof.
  unfold front_call, queued, FIFO.Peek.
  destruct (FIFO.elements (requestQueue d)) as [|[b'|] l]; simpl; [done| |done].
  destruct (bundle_Call b') as [c'|] eqn:Hc; simpl; [|done]. intros; simplify_eq.
  unfold ids. simpl. unfold elem_id. simpl. by rewrite Hc.
Qed.

Lemma head_accepted d o id : Inv d o → head (queued d) = Some id →
  id ∈ on KAccept (log d) ∧ id ∉ on KTake (log d).
Proof.
  intros HI Hh. pose proof (i_nodup _ _ HI) as Hnd. rewrite (i_flow _ _ HI) in *.
  apply head_Some_inv in Hh as [l Hl]. rewrite Hl in *. split; [set_solver|].
  apply NoDup_app in Hnd as (_ & Hx & _). intros Hin. apply (Hx id Hin). left.
Qed.

(** A position of the pump outside the stop drain's first step. *)
Definition steady (m : mode) : Prop := m ≠ MDraining.

Lemma sf_add_pending c (Q : gset token → unit → Prop) :
  Q (pump (MSent (UniqueId c))) tt → sf (pump (MFront (UniqueId c))) (modify (add_pending c)) Q.
Proof.
  intros HQ. apply safe_modify. intros d r Hdis HI.
  exists (pump (MSent (UniqueId c))). split; [|split; [|done]].
  { pose proof (no_other_mode d r _ (MSent (UniqueId c)) Hdis HI). set_solver. }
  destruct (i_mode _ _ HI (MFront (UniqueId c)) ltac:(set_solver)) as (Hrid & Hh & Hna).
  assert (Hne : UniqueId c ≠ "").
  { destruct (head_accepted _ _ _ HI Hh) as [Ha _]. intros Heq. rewrite Heq in Ha.
    by apply (i_names _ _ HI). }
  unfold add_pending, ClientState.AddPendingRequest. unfold pendingID in Hrid.
  rewrite (decide_True (P := UniqueId c ≠ "" ∧ _)) by (by split).
  rewrite decide_False by (simpl; congruence).
  eapply Inv_add; [exact HI|set_solver|done|]. clear -Hdis. set_solver.
Qed.

Lemma sf_network_Write id data (Q : gset token → option error → Prop) :
  Q (pump MFree) None → (∀ e, Q (pump (MSent id)) (Some e)) →
  sf (pump (MSent id)) (network_Write id data) Q.
Proof.
  intros H1 H2 c d r d' x Hdis HI Heq.
  destruct c as [|[e|]|p|]; simplify_eq.
  - exists (pump (MSent id)). split; [done|]. split; [done|]. apply H2.
  - exists (pump MFree). pose proof (no_other_mode d r _ MFree Hdis HI). split; [set_solver|].
    split; [|done]. eapply Inv_write; [exact HI|set_solver|]. clear -Hdis. set_solver.
Qed.

Lemma sf_dispatchNextRequest (Q : gset token → pumpPending Request * bool → Prop) :
  (∀ m p, steady m → Q (pump m) p) → sf (pump MIdle) dispatchNextRequest Q.
Proof.
  intros HQ. unfold dispatchNextRequest.
  apply safe_bind, (sf_pump_read _ _ (λ x, match x with Some (c, _) => MFront (UniqueId c) | None => MFree end));
    [done| |].
  { intros d r HI. destruct (front_call d) as [[c b]|] eqn:Hf; [|done].
    pose proof (front_call_head _ _ _ Hf) as Hh.
    pose proof (i_mode _ _ HI MIdle ltac:(set_solver)) as Hid. split; [done|]. split; [done|].
    destruct (head_accepted _ _ _ HI Hh) as [Ha Hnt].
    intros Hin. destruct (i_added _ _ HI _ Hin) as [?|[? ?]]; [done|]. simpl in *. congruence. }
  intros [[c b]|]; [|by apply HQ].
  destruct (bundle_Data b) as [js|]; [|by apply HQ].
  apply safe_bind, safe_read_frame. intros [e|].
  - apply safe_bind, sf_pump_complete; [done| |]; apply safe_bind; [|by apply HQ].
    apply sf_fire; [set_solver|by apply HQ].
  - apply safe_bind, sf_add_pending. apply safe_bind, sf_network_Write; [by apply HQ|].
    intros e. apply safe_bind, sf_pump_complete; [done| |]; apply safe_bind; [|by apply HQ].
    apply sf_fire; [set_solver|by apply HQ].
Qed.

Lemma sf_timeout_arm m (Q : gset token → unit → Prop) :
  steady m → (∀ m', steady m' → Q (pump m') tt) → sf (pump m) timeout_arm Q.
Proof.
  intros Hm HQ. unfold timeout_arm.
  assert (HR : ∀ m', steady m' →
    sf (pump m') (modify (λ d, set_timer (timer_Reset defaultTimeoutTick (dtimer d)) d)) Q).
  { intros m' ?. apply sf_quiet_modify; [quiet|]. by apply HQ. }
  apply safe_bind, safe_read_frame. intros [].
  - apply safe_bind, safe_bind, safe_read_frame. intros [c|]; [|by apply HR].
    apply sf_pump_cancel; [done|by apply HR].
  - by apply safe_bind, HR.
Qed.

Lemma sf_ctx_arm m p (Q : gset token → unit → Prop) :
  steady m → (∀ m', steady m' → Q (pump m') tt) → sf (pump m) (ctx_arm p) Q.
Proof.
  intros Hm HQ. unfold ctx_arm. apply safe_bind, safe_read_frame. intros [still|]; [|by apply HQ].
  apply safe_bind, sf_pump_complete; [done| |by apply HQ].
  apply safe_bind, safe_read_frame. intros e. apply sf_fire; [set_solver|by apply HQ].
Qed.

(** *** The stop drain *)

Definition notify_set (l : list string) : gset token := list_to_set (TNotify <$> l).

Lemma elem_of_notify_set l t : t ∈ notify_set l ↔ ∃ id, id ∈ l ∧ t = TNotify id.
Proof.
  unfold notify_set. rewrite elem_of_list_to_set, list_elem_of_fmap. naive_solver.
Qed.

Lemma sf_cancel_all (els : list (element Request)) o (Q : gset token → unit → Prop) :
  NoDup (ids els) → o ## notify_set (ids els) → Q o tt →
  sf (o ∪ notify_set (ids els)) (cancel_all els) Q.
Proof.
  intros Hnd Hdis HQ. induction els as [|e els IH]; cbn [cancel_all].
  { simpl. replace (o ∪ _) with o; [done|]. apply leibniz_equiv. unfold notify_set. set_solver. }
  apply safe_bind. destruct (elem_call e) as [c|] eqn:He.
  - rewrite (ids_cons_call _ _ _ He) in *. apply NoDup_cons in Hnd as [Hnin Hnd].
    replace (o ∪ notify_set (UniqueId c :: ids els))
      with ((o ∪ notify_set (ids els)) ∪ {[TNotify (UniqueId c)]})
      by (apply leibniz_equiv; unfold notify_set; clear; set_solver).
    apply sf_fire; [|apply IH; [done|unfold notify_set in *; clear -Hdis; set_solver]].
    intros [Hx|Hx]%elem_of_union.
    + apply (Hdis _ Hx), elem_of_notify_set. exists (UniqueId c). split; [left|done].
    + apply elem_of_notify_set in Hx as (id & ? & ?). by simplify_eq.
  - assert (Hids : ids (e :: els) = ids els).
    { unfold ids. simpl. unfold elem_id at 1. by rewrite He. }
    rewrite Hids in *. by apply IH.
Qed.

Lemma sf_Lock o (Q : gset token → unit → Prop) : Q o tt → sf o Lock Q.
Proof.
  intros HQ. apply sf_quiet_atomic; [|by intros []]. intros d d' x Heq.
  repeat case_match; simplify_eq. by repeat split.
Qed.

Lemma sf_Unlock o (Q : gset token → unit → Prop) : Q o tt → sf o Unlock Q.
Proof. intros HQ. by apply sf_quiet_modify. Qed.

(** After the detach: what is left of the stop drain. *)
Lemma sf_stop_rest els (Q : gset token → unit → Prop) :
  NoDup (ids els) → (∀ m, steady m → Q (pump m) tt) →
  sf (pump MDrained ∪ notify_set (ids els)) (bind (cancel_all (Request:=Request) els) (λ _,
    bind (modify (λ d, let l := FIFO.elements (requestQueue d) in
               emit (taken_events l ++ (EvDrop <$> ids l)) (set_queue (FIFO.Init (requestQueue d)) d))) (λ _,
    bind Lock (λ _, bind (modify (set_channel None)) (λ _, bind Unlock (λ _,
    modify (set_done true))))))) Q.
Proof.
  intros Hnd HQ. apply safe_bind, sf_cancel_all; [done| |].
  { intros t Ht. rewrite elem_of_notify_set. set_solver. }
  apply safe_bind, safe_modify. intros d r Hdis HI. exists (pump MDrained). split; [done|].
  split; [apply Inv_drop; [done|set_solver|done]|].
  apply safe_bind, sf_Lock, safe_bind, safe_modify. clear d r Hdis HI. intros d r Hdis HI.
  exists (pump MDrained). split; [done|].
  destruct (i_mode _ _ HI MDrained ltac:(set_solver)) as (Hrun & _ & _).
  split; [apply Inv_channel; [done|congruence]|].
  apply safe_bind, sf_Unlock, safe_modify. clear d r Hdis HI Hrun. intros d r Hdis HI.
  exists (pump MDrained). split; [done|]. split; [apply Inv_done; [done|set_solver]|]. by apply HQ.
Qed.

Lemma sf_stop_drain (Q : gset token → unit → Prop) :
  (∀ m, steady m → Q (pump m) tt) → sf (pump MClosed) stop_drain Q.
Proof.
  intros HQ. unfold stop_drain. apply safe_bind, safe_atomic. intros d r d' els Hdis HI Heq.
  simpl in Heq. simplify_eq. set (els := FIFO.elements (requestQueue d)).
  pose proof (i_nodup _ _ HI) as Hnd. rewrite (i_flow _ _ HI) in Hnd.
  apply NoDup_app in Hnd as (_ & Hx & Hnd).
  assert (Hfresh : ∀ id, id ∈ ids els → TNotify id ∉ r).
  { intros id Hid Hin. apply (Hx id); [|done]. apply (i_notify _ _ HI). set_solver. }
  exists (pump MDraining ∪ notify_set (ids els)).
  pose proof (no_other_mode d r _ MDraining Hdis HI) as Hno.
  split; [|split].
  - intros t. rewrite elem_of_union, elem_of_notify_set. clear -Hno Hfresh. set_solver.
  - eapply Inv_drain; [exact HI|set_solver|done|]. intros t.
    rewrite !elem_of_union, elem_of_notify_set. unfold queued. fold els. clear -Hdis. set_solver.
  - change (NoDup (ids els)) in Hnd. clearbody els. apply safe_bind, safe_modify. clear -HQ Hnd.
    intros d r Hdis HI.
    exists (pump MDrained ∪ notify_set (ids els)).
    assert (Hno : TMode MDrained ∉ r).
    { intros Hin. by pose proof (i_mode1 _ _ HI MDraining MDrained ltac:(set_solver) ltac:(set_solver)). }
    assert (Hn2 : TMode MDraining ∉ notify_set (ids els) ∪ r).
    { rewrite elem_of_union, elem_of_notify_set. clear -Hdis. set_solver. }
    split; [clear -Hdis Hno; set_solver|]. split; [|by apply sf_stop_rest].
    eapply Inv_clear; [exact HI|set_solver|]. clear -Hn2. set_solver.
Qed.

(** *** One iteration of the pump *)

Definition pump_rest (l : pump_locals Request) (o : gset token) : Prop :=
  ∃ m, steady m ∧ o = pump m.

Lemma pump_rest_Rest l o : pump_rest l o → Rest o.
Proof. intros (m & Hm & ->). unfold steady in Hm. split; [set_solver|set_solver]. Qed.

Lemma sf_after_select m l :
  steady m → sf (pump m) (after_select l) (loop_post Rest pump_rest).
Proof.
  intros Hm. assert (HQ : ∀ m' l', steady m' → loop_post Rest pump_rest (pump m') (Some l')).
  { intros m' l' ?. by exists m'. }
  unfold after_select. apply safe_bind, safe_read_frame. intros []; [by apply HQ|].
  destruct (negb (rdy l)); [by apply HQ|].
  apply safe_bind, safe_read_frame. intros []; [by apply HQ|].
  apply safe_bind, (sf_pump_read _ m (λ h : bool, if h then MFree else MIdle)); [done| |].
  { intros d r HI. destruct (ClientState.HasPendingRequest _) eqn:Hh; [done|].
    by apply ClientState.HasPendingRequest_false in Hh. }
  intros []; [by apply HQ|]. apply safe_bind, sf_dispatchNextRequest.
  intros m' [p []] ?; cbn [snd]; [|by apply HQ].
  apply safe_bind, sf_timer_restart. by apply HQ.
Qed.

Lemma sf_select m p (Q : gset token → selected → Prop) :
  steady m → (∀ sl, Q (pump (match sl with SelClosed => MClosed | _ => MFree end)) sl) →
  sf (pump m) (choose (select_arm p)) Q.
Proof.
  intros Hm HQ c d r d' sl Hdis HI Heq.
  assert (HF : ∀ d', same_core d d' → Inv d' (pump MFree ∪ r) ∧ pump MFree ## r).
  { intros d2 Hc. destruct (pump_move d r m MFree Hdis HI ltac:(done) Hm) as [H1 H2].
    split; [by eapply Inv_core|done]. }
  destruct c as [[]| | |]; simpl in Heq; try done.
  - destruct (requestChannel d) as [[[|n] cl]|] eqn:Hch; [destruct cl; [|done]| |done]; simplify_eq.
    + exists (pump MClosed).
      destruct (pump_move d' r m MClosed Hdis HI) as [? ?]; [|done|].
      { destruct (running d') eqn:Hr; [|done]. destruct (i_open _ _ HI Hr) as [n Hn]. simpl. congruence. }
      split; [done|]. split; [done|]. apply (HQ SelClosed).
    + destruct (pump_move d r m MFree Hdis HI ltac:(done) Hm) as [H1 H2].
      exists (pump MFree). split; [done|]. split; [|apply (HQ SelRequest)].
      apply Inv_channel; [done|]. intros Hr. destruct (i_open _ _ HI Hr) as [n' Hn].
      rewrite Hch in Hn. simplify_eq. eauto.
  - destruct (fired _); simplify_eq. destruct (HF (set_timer (timer_drain (dtimer d)) d)) as [? ?]; [quiet|].
    exists (pump MFree). split; [done|]. split; [done|]. apply (HQ SelTimer).
  - destruct (readyForDispatch d); simplify_eq. destruct (HF (set_ready false d)) as [? ?]; [quiet|].
    exists (pump MFree). split; [done|]. split; [done|]. apply (HQ SelReady).
  - case_decide; simplify_eq. destruct (HF d') as [? ?]; [quiet|].
    exists (pump MFree). split; [done|]. split; [done|]. apply (HQ SelCtxDone).
Qed.

Lemma sf_messagePump m l :
  steady m → sf (pump m) (messagePump l) (loop_post Rest pump_rest).
Proof.
  intros Hm. unfold messagePump.
  assert (HK : ∀ p, sf (pump m) (bind (choose (select_arm p)) (λ sel, match sel with
    | SelClosed => bind stop_drain (λ _, Ret None)
    | SelRequest => after_select (mkLocals (rdy l) p)
    | SelTimer => bind timeout_arm (λ _, after_select (mkLocals (rdy l) noPending))
    | SelReady => after_select (mkLocals true p)
    | SelCtxDone => bind (ctx_arm p) (λ _, after_select (mkLocals (rdy l) noPending))
    end)) (loop_post Rest pump_rest)).
  { intros p. apply safe_bind, sf_select; [done|]. intros [].
    - apply safe_bind, sf_stop_drain. intros m' Hm'. apply (pump_rest_Rest l). by exists m'.
    - by apply sf_after_select.
    - apply safe_bind, sf_timeout_arm; [done|]. intros. by apply sf_after_select.
    - by apply sf_after_select.
    - apply safe_bind, sf_ctx_arm; [done|]. intros. by apply sf_after_select. }
  apply safe_bind. case_decide; [by apply HK|].
  apply safe_bind, safe_read_frame. intros [|]; by apply HK.
Qed.

Lemma pump_thread_ok : thread_ok (Inv (Request:=Request)) Rest (pump MFree) pump_thread.
Proof.
  exists pump_rest. split; [|by apply sf_messagePump].
  intros l o Ho. split; [by eapply pump_rest_Rest|].
  destruct Ho as (m & ? & ->). by apply sf_messagePump.
Qed.

(** *** The operations of the other goroutines *)

Lemma Rest_send id p : Rest ({[TSend id p]} : gset token).
Proof. split; set_solver. Qed.
Lemma Rest_empty : Rest (∅ : gset token).
Proof. split; set_solver. Qed.

(** A sender moves its token. *)
Lemma send_other d r id p p' :
  {[TSend id p]} ## r → Inv d ({[TSend id p]} ∪ r) → ({[TSend id p']} : gset token) ## r.
Proof.
  intros Hdis HI. apply disjoint_singleton_l. intros Hin.
  assert (p' = p) as ->; [|set_solver]. apply (i_phase _ _ HI id); set_solver.
Qed.

Lemma sf_SendRequest b c :
  bundle_Call b = Some c →
  sf {[TSend (UniqueId c) PNew]} (SendRequest b) (λ o _, Rest o).
Proof.
  intros Hc. unfold SendRequest. set (id := UniqueId c).
  assert (HRU : ∀ e : option error, sf {[TSend id PLocked]} RUnlock (λ o _, sf o (Ret e) (λ o _, Rest o))).
  { intros e. apply safe_modify. intros d r Hdis HI. exists ∅. split; [set_solver|].
    split; [|apply Rest_empty].
    eapply (Inv_runlock d _ _ id); [exact HI|set_solver|done|clear -Hdis; set_solver]. }
  apply safe_bind, safe_read_frame. intros []; cbn [negb]; [|apply Rest_send].
  apply safe_bind, safe_atomic. intros d r d' e Hdis HI Heq.
  destruct (FIFO.Push (EBundle b) (requestQueue d)) as [q [err|]] eqn:Hp; simplify_eq.
  { exists {[TSend id PNew]}. split; [done|]. split; [|apply Rest_send].
    change (rq_push (EBundle b) (requestQueue d) = (q, Some err)) in Hp.
    apply rq_push_err in Hp as ->. eapply Inv_core; [|exact HI].
    repeat split; simpl. apply app_nil_r. }
  exists {[TSend id PPushed]}. split; [by eapply send_other|]. split.
  { rewrite (ids_cons_call (EBundle b) [] c Hc). eapply Inv_accept; [exact HI|set_solver|by apply (push_ids b c)|].
    clear -Hdis. set_solver. }
  clear d r Hdis HI Hp. apply safe_bind, safe_atomic. intros d r d' [] Hdis HI Heq.
  destruct (writer d); simplify_eq.
  exists {[TSend id PLocked]}. split; [by eapply send_other|].
  split; [eapply (Inv_rlock d _ _ id); [exact HI|set_solver|done|clear -Hdis; set_solver]|].
  clear d r Hdis HI. apply safe_bind, safe_read. intros d r Hdis HI.
  destruct (running d) eqn:Hrun.
  - exists {[TSend id PRunning]}. split; [by eapply send_other|]. split.
    { eapply (Inv_send_phase _ _ _ id PLocked PRunning); try done; [set_solver|naive_solver|].
      clear -Hdis. set_solver. }
    clear d r Hdis HI Hrun. cbn [negb]. apply safe_bind, safe_atomic. intros d r d' [] Hdis HI Heq.
    destruct (i_open _ _ HI (i_running _ _ HI id ltac:(set_solver))) as [n Hn].
    rewrite Hn in Heq. destruct n as [|n]; simplify_eq.
    exists {[TSend id PLocked]}. split; [by eapply send_other|]. split.
    { eapply (Inv_send_phase _ ({[TSend id PRunning]} ∪ r) _ id PRunning PLocked); try done; [|set_solver|naive_solver|].
      - unfold bundle_id. rewrite Hc. apply Inv_post; [done|set_solver|done].
      - clear -Hdis. set_solver. }
    apply safe_bind, HRU.
  - exists {[TSend id PLocked]}. split; [done|]. split; [done|]. cbn [negb]. apply safe_bind, HRU.
Qed.

Lemma sf_Stop : sf ∅ Stop (λ o _, Rest o).
Proof.
  unfold Stop. apply safe_bind, safe_atomic. intros d r d' x Hdis HI Heq.
  exists ∅. split; [done|]. unfold stop_section in Heq. split.
  - destruct (writer d); [done|]. case_decide as H0; [|done].
    destruct (running d) eqn:Hr; [|by simplify_eq].
    destruct (i_open _ _ HI Hr) as [n Hn]. rewrite Hn in Heq. simplify_eq.
    by apply Inv_stop.
  - destruct x; [|apply Rest_empty].
    apply sf_quiet_atomic; [quiet|intros; apply Rest_empty].
Qed.

Lemma sf_Pause : sf ∅ Pause (λ o _, Rest o).
Proof.
  unfold Pause. apply safe_bind, sf_Lock, safe_bind, sf_timer_restart, safe_bind.
  apply sf_quiet_modify; [quiet|]. apply sf_Unlock, Rest_empty.
Qed.

Lemma sf_Resume : sf ∅ Resume (λ o _, Rest o).
Proof.
  unfold Resume. apply safe_bind, sf_quiet_modify; [quiet|].
  apply safe_bind, safe_read_frame. intros [].
  - apply sf_timer_restart, Rest_empty.
  - apply sf_quiet_modify; [quiet|apply Rest_empty].
Qed.

Lemma sf_handle_response id : sf ∅ (handle_response id) (λ o _, Rest o).
Proof.
  unfold handle_response. apply safe_bind, safe_read. intros d r Hdis HI.
  destruct (ClientState.GetPendingRequest id (pendingRequestState d)) as [req|] eqn:Hg.
  2: { exists ∅. split; [done|]. split; [done|apply Rest_empty]. }
  assert (Hrid : pendingID d = id) by (apply ClientState.Get_is_Some; eauto).
  destruct (fresh_seen id (∅ ∪ r)) as [n Hn].
  exists {[TSeen id n]}. split; [set_solver|]. split.
  { eapply (Inv_seen d _ _ id n HI); [clear; set_solver|].
    destruct (decide (id = "")); [by left|right]. rewrite <-Hrid. apply (i_marked _ _ HI). congruence. }
  clear d r Hdis HI Hg Hrid Hn. apply safe_bind, (sf_complete _ ∅).
  - intros d r Hdis HI. split; [|split; [set_solver|]].
    + eapply (Inv_unseen d _ _ id n HI). clear -Hdis. set_solver.
    + intros Hh Hin. destruct (i_mode _ _ HI (MFront id) ltac:(set_solver)) as (_ & _ & Hna).
      destruct (i_seen _ _ HI id n ltac:(set_solver)) as [->|?]; [|done].
      destruct (head_accepted _ _ _ HI Hh) as [Ha _]. by apply (i_names _ _ HI).
  - apply safe_modify. intros d r Hdis HI. exists ∅. split; [set_solver|].
    split; [|apply Rest_empty].
    eapply (Inv_notify d _ _ id); [exact HI|set_solver|clear -Hdis; set_solver|].
    by intros [].
  - apply Rest_empty.
Qed.

(** ** The system: the pump and any number of concurrent operations *)

Inductive op :=
| OpSend (b : RequestBundle Request)
| OpResponse (id : string)
| OpPause | OpResume | OpStop
| OpCancel (i : nat) (e : error)
| OpTimer.

Definition op_prog (x : op) : prog unit :=
  match x with
  | OpSend b => bind (SendRequest b) (λ _, Ret tt)
  | OpResponse id => handle_response id
  | OpPause => Pause
  | OpResume => Resume
  | OpStop => Stop
  | OpCancel i e => cancel_ctx i e
  | OpTimer => timer_expires
  end.

(** The ids of the requests sent. *)
Definition sent_ids (ops : list op) : list string :=
  omap (λ x, match x with OpSend b => Some (bundle_id b) | _ => None end) ops.

(** Every sent bundle has a call, and the ids are unique and not empty (they
    come from the message id generator). *)
Definition ops_ok (ops : list op) : Prop :=
  (∀ b, OpSend b ∈ ops → is_Some (bundle_Call b)) ∧ NoDup (sent_ids ops) ∧ "" ∉ sent_ids ops.

(** A dispatcher about to be started for the first time. *)
Definition clean d : Prop :=
  FIFO.elements (requestQueue d) = [] ∧ pendingID d = "" ∧ readers d = 0 ∧ log d = [].

Definition system d (ops : list op) : config (S:=dispatcher Request) (C:=choice) :=
  (Start d, pump_thread :: (Run ∘ op_prog <$> ops)).

Definition op_tokens (x : op) : gset token :=
  match x with OpSend b => {[TSend (bundle_id b) PNew]} | _ => ∅ end.

Lemma op_ok x : (∀ b, x = OpSend b → is_Some (bundle_Call b)) →
  thread_ok (Inv (Request:=Request)) Rest (op_tokens x) (Run (op_prog x)).
Proof.
  intros Hb. destruct x as [b|id| | | |i e|]; simpl op_tokens; cbn [op_prog thread_ok].
  - destruct (Hb b eq_refl) as [c Hc]. unfold bundle_id. rewrite Hc.
    apply safe_bind. eapply safe_mono; [|by apply sf_SendRequest]. by intros.
  - apply sf_handle_response.
  - apply sf_Pause.
  - apply sf_Resume.
  - apply sf_Stop.
  - apply sf_quiet_modify; [quiet|apply Rest_empty].
  - apply sf_quiet_atomic; [quiet|intros; apply Rest_empty].
Qed.

Lemma elem_of_ops_tokens ops t :
  t ∈ ⋃ (op_tokens <$> ops) ↔ ∃ id, id ∈ sent_ids ops ∧ t = TSend id PNew.
Proof.
  rewrite elem_of_union_list. unfold sent_ids. setoid_rewrite list_elem_of_omap.
  setoid_rewrite list_elem_of_fmap. split.
  - intros (X & (x & -> & Hx) & Ht). destruct x; set_solver.
  - intros (id & (x & Hx & Heq) & ->). destruct x; simplify_eq.
    eexists. split; [eauto|]. set_solver.
Qed.

Lemma system_init d ops :
  clean d → ops_ok ops → Inv (Start d) (pump MFree ∪ ⋃ (op_tokens <$> ops)).
Proof.
  intros (Hq & Hp & Hr & Hl) (_ & Hnd & Hne).
  set (o := pump MFree ∪ _).
  assert (Ho : ∀ t, t ∈ o ↔ t = TMode MFree ∨ ∃ id, id ∈ sent_ids ops ∧ t = TSend id PNew).
  { intros t. subst o. rewrite elem_of_union, elem_of_ops_tokens. set_solver. }
  clearbody o. unfold queued, pendingID in *.
  constructor; unfold queued, pendingID; simpl; rewrite ?Hl, ?Hq, ?Hp, ?Hr; simpl; try setoid_rewrite Ho;
    try done; try apply NoDup_nil_2; clear -Hne.
  all: try (by intros ? ?%elem_of_nil); try (by intros ?%elem_of_nil).
  - intros id p p' [?|(? & _ & ?)] [?|(? & _ & ?)]; by simplify_eq.
  - intros id [?|(id' & ? & ?)]; simplify_eq. split; [by intros ->|by intros ?%elem_of_nil].
  - intros id p [?|(? & _ & ?)] ?; by simplify_eq.
  - exists ∅. split; [by rewrite size_empty|]. intros id. split; [set_solver|].
    intros [[?|(? & _ & ?)]|[?|(? & _ & ?)]]; by simplify_eq.
  - intros _. by exists 0.
  - intros id [?|(? & _ & ?)]; by simplify_eq.
  - by intros _ ? ?%elem_of_nil.
  - intros id [?|(? & _ & ?)]; by simplify_eq.
  - intros id n [?|(? & _ & ?)]; by simplify_eq.
  - intros m m' [?|(? & _ & ?)] [?|(? & _ & ?)]; by simplify_eq.
  - intros m [?|(? & _ & ?)]; by simplify_eq.
Qed.

Lemma sent_ids_inj ops i j b b' :
  NoDup (sent_ids ops) → ops !! i = Some (OpSend b) → ops !! j = Some (OpSend b') →
  bundle_id b = bundle_id b' → i = j.
Proof.
  assert (Hin : ∀ ops k b, ops !! k = Some (OpSend b) → bundle_id b ∈ sent_ids ops).
  { intros l k b0 Hk. unfold sent_ids. apply list_elem_of_omap. exists (OpSend b0).
    split; [by eapply list_elem_of_lookup_2|done]. }
  revert i j. induction ops as [|x ops IH]; intros [|i] [|j] Hnd Hi Hj Heq; simplify_eq/=; try done.
  - apply NoDup_cons in Hnd as [Hn _]. destruct Hn. rewrite Heq. by eapply Hin.
  - apply NoDup_cons in Hnd as [Hn _]. destruct Hn. rewrite <-Heq. by eapply Hin.
  - f_equal. apply IH; [|done..]. unfold sent_ids in *. simpl in Hnd.
    destruct x; try done. by apply NoDup_cons in Hnd as [_ ?].
Qed.

Lemma op_tokens_send x t : t ∈ op_tokens x → ∃ b, x = OpSend b ∧ t = TSend (bundle_id b) PNew.
Proof. destruct x; simpl; set_solver. Qed.

Lemma system_pool d ops :
  clean d → ops_ok ops →
  pool_ok Inv Rest (pump MFree :: (op_tokens <$> ops)) (Start d) (system d ops).2.
Proof.
  intros Hd Hops. split; [|split; [|by apply system_init]].
  - constructor; [apply pump_thread_ok|]. destruct Hops as (Hb & _). clear -Hb.
    induction ops as [|x ops IH]; simpl; constructor.
    + apply op_ok. intros b ->. apply Hb. left.
    + apply IH. intros b ?. apply Hb. by right.
  - destruct Hops as (_ & Hnd & _).
    intros [|i] [|j] oi oj Hne Hi Hj t Ht Ht'; simplify_eq/=; try done;
      repeat match goal with
      | H : (op_tokens <$> ops) !! _ = Some _ |- _ => apply list_lookup_fmap_Some in H as (? & -> & ?)
      | H : _ ∈ op_tokens _ |- _ => apply op_tokens_send in H as (? & -> & ?)
      end; [set_solver..|].
    destruct Hne. f_equal. eapply sent_ids_inj; [done..|]. congruence.
Qed.

Lemma system_invariant d ops sched s ts :
  clean d → ops_ok ops → exec sched (system d ops) = Some (s, ts) → ∃ o, Inv s o.
Proof. intros Hd Hops. eapply exec_invariant. by apply system_pool. Qed.

(** In a state where no operation is under way. *)
Lemma system_quiet d ops sched s ts :
  clean d → ops_ok ops → exec sched (system d ops) = Some (s, ts) →
  Forall (λ t, thread_quiet t = true) ts → ∃ o, Inv s o ∧ Rest o.
Proof.
  intros Hd Hops Hex Hq.
  destruct (exec_quiet _ _ _ _ _ _ _ _ (system_pool d ops Hd Hops) Hex Hq) as (os & HR & HI).
  exists (⋃ os). split; [done|]. rewrite Forall_forall in HR.
  split; [intros id; split|]; intros (X & HX & Hin)%elem_of_union_list;
    destruct (HR X HX) as [H1 H2]; [by destruct (H1 id)..|done].
Qed.
End safety.

(** ** A concrete system *)

(** A dispatcher with a network and a cancel callback, requests for it, and
    the actions of its operations: a sender's six, the pump's dispatch of one
    request, a response handler's five. *)
Definition demo : dispatcher nat :=
  mkDispatcher (FIFO.mkQueue [] 10) None false false false 0 false ClientState.NewClientState
    true true false (mkTimer None false) false defaultMessageTimeout false ∅ [].
Definition demo_bundle (id : string) : RequestBundle nat :=
  mkBundle (Some (mkCall CALL id "Heartbeat" (Some 7))) (Some "[2,...]") None.
Definition do_send (t : nat) : list (nat * choice) := replicate 6 (t, Go).
Definition do_dispatch (a : arm) : list (nat * choice) :=
  [(0, Pick a); (0, Go); (0, Go); (0, Go); (0, Go); (0, Go); (0, Go); (0, NetResult None);
   (0, Go); (0, Go)].
Definition do_response (t : nat) : list (nat * choice) := replicate 5 (t, Go).

Definition demo_ops : list (@op nat) := [OpSend (demo_bundle "1"); OpResponse "1"; OpSend (demo_bundle "2")].

Lemma demo_clean : clean demo.
Proof. by repeat split. Qed.
Lemma demo_ops_ok : ops_ok demo_ops.
Proof.
  split; [|split].
  - intros b Hb. assert (b = demo_bundle "1" ∨ b = demo_bundle "2") as [->| ->] by set_solver; simpl; eauto.
  - change (NoDup ["1"; "2"]). apply NoDup_cons. split; [set_solver|apply NoDup_singleton].
  - change ("" ∉ ["1"; "2"]). set_solver.
Qed.

(** ** Properties *)

(** C1: under every schedule of the pump, senders, response handlers, pauses,
    resumes, stops, timer expiries and context cancellations, a request gets
    at most one outcome (response delivered or cancel callback), and only a
    request that was accepted and has left the queue gets one. *)
Theorem client_single_outcome (Request : Type) (d s : dispatcher Request) ops sched ts :
  clean d → ops_ok ops → exec sched (system d ops) = Some (s, ts) →
  NoDup (on KNotify (log s)) ∧
  ∀ id, id ∈ on KNotify (log s) → id ∈ on KAccept (log s) ∧ id ∉ queued s.
Proof.
  intros Hd Hops Hex. destruct (system_invariant _ _ _ _ _ Hd Hops Hex) as [o HI].
  split; [apply (i_once _ _ HI)|]. intros id Hid. pose proof (i_notified _ _ HI _ Hid) as Ht.
  pose proof (i_nodup _ _ HI) as Hnd. rewrite (i_flow _ _ HI) in *.
  apply NoDup_app in Hnd as (_ & Hx & _). split; [|by apply Hx]. apply elem_of_app. by left.
Qed.

Definition final_log {Request} (c : option (config (S:=dispatcher Request) (C:=choice))) : list (event Request) :=
  match c with Some (s, _) => log s | None => [] end.

Lemma client_single_outcome_witness :
  let c := exec (do_send 1 ++ do_dispatch ArmRequest ++ do_send 3 ++ do_response 2) (system demo demo_ops) in
  NoDup (on KNotify (final_log c)) ∧ on KNotify (final_log c) = ["1"].
Proof.
  cbv zeta. split; [|vm_compute; reflexivity].
  destruct (exec _ _) as [[s ts]|] eqn:E; [|apply NoDup_nil_2].
  exact (proj1 (client_single_outcome nat demo s demo_ops _ ts demo_clean demo_ops_ok E)).
Defined.

(** C6: under every schedule, requests are written at most once and in the
    order the queue accepted them, and at most one is in flight: of the
    requests written, all but at most one have left the queue. *)
Theorem client_fifo_single_flight (Request : Type) (d s : dispatcher Request) ops sched ts :
  clean d → ops_ok ops → exec sched (system d ops) = Some (s, ts) →
  (on KWrite (log s)) `sublist_of` (on KAccept (log s)) ∧ NoDup (on KWrite (log s)) ∧
  ∀ id id', id ∈ on KWrite (log s) → id' ∈ on KWrite (log s) →
    id ∉ on KTake (log s) → id' ∉ on KTake (log s) → id = id'.
Proof.
  intros Hd Hops Hex. destruct (system_invariant _ _ _ _ _ Hd Hops Hex) as [o HI].
  pose proof (i_order _ _ HI) as Hsub.
  split; [done|]. split; [eapply sublist_NoDup; [apply (i_nodup _ _ HI)|done]|].
  intros id id' H1%(i_written _ _ HI)%(i_added _ _ HI) H2%(i_written _ _ HI)%(i_added _ _ HI) N1 N2.
  destruct H1 as [?|[<- _]], H2 as [?|[<- _]]; done.
Qed.

Lemma client_fifo_single_flight_witness :
  let c := exec (do_send 1 ++ do_dispatch ArmRequest ++ do_send 3 ++ do_response 2 ++
                 [(0, Go); (0, Go)] ++ do_dispatch ArmReady) (system demo demo_ops) in
  NoDup (on KWrite (final_log c)) ∧ on KWrite (final_log c) = ["1"; "2"].
Proof.
  cbv zeta. split; [|vm_compute; reflexivity].
  destruct (exec _ _) as [[s ts]|] eqn:E; [|apply NoDup_nil_2].
  exact (proj1 (proj2 (client_fifo_single_flight nat demo s demo_ops _ ts demo_clean demo_ops_ok E))).
Defined.

(** under every schedule, [SendRequest] never sends on a closed channel and
    [Stop] never closes the channel twice: the dispatcher's channel operations
    do not panic. *)
Theorem client_no_channel_panic (Request : Type) (d s : dispatcher Request) ops sched ts :
  clean d → ops_ok ops → exec sched (system d ops) = Some (s, ts) →
  (EvSendOnClosed ∉ log s) ∧ (EvCloseOfClosed ∉ log s).
Proof.
  intros Hd Hops Hex. destruct (system_invariant _ _ _ _ _ Hd Hops Hex) as [o HI].
  pose proof (i_panics _ _ HI) as Hp.
  assert (Hno : ∀ e, sel KPanic e = Some "" → e ∉ log s).
  { intros e He Hin. assert ("" ∈ on KPanic (log s)) as Hx; [|by rewrite Hp in Hx; apply elem_of_nil in Hx].
    apply list_elem_of_omap. eauto. }
  split; by apply Hno.
Qed.

Lemma client_no_channel_panic_witness :
  let c := exec (do_send 1 ++ do_dispatch ArmRequest ++ [(2, Go); (3, Go)])
             (system demo [OpSend (demo_bundle "1"); OpStop; OpStop]) in
  (EvCloseOfClosed ∉ final_log c) ∧ on KPosted (final_log c) = ["1"].
Proof.
  cbv zeta. split; [|vm_compute; reflexivity].
  assert (Hops : ops_ok [OpSend (demo_bundle "1"); OpStop; OpStop]).
  { split; [|split; [apply NoDup_singleton|change ("" ∉ ["1"]); set_solver]].
    intros b Hb. assert (b = demo_bundle "1") as -> by set_solver. simpl. eauto. }
  destruct (exec _ _) as [[s ts]|] eqn:E; [|by intros ?%elem_of_nil].
  exact (proj2 (client_no_channel_panic nat demo s _ _ ts demo_clean Hops E)).
Defined.

(** C7: no request is lost.  In every state in which no operation is under way,
    a request for which [SendRequest] reported success is still queued or was
    taken out of the queue; once the pump has exited after [Stop] it was taken
    out; and with a cancel callback set, each request that was taken out has had
    its outcome: it was completed or its cancellation was reported.  Without a
    callback a request that times out or is drained is removed and nobody is
    told. *)
Theorem client_no_request_lost (Request : Type) (d s : dispatcher Request) ops sched ts :
  clean d → ops_ok ops → exec sched (system d ops) = Some (s, ts) →
  Forall (λ t, thread_quiet t = true) ts →
  ∀ id, id ∈ on KPosted (log s) →
    (id ∈ queued s ∨ id ∈ on KTake (log s)) ∧ (doneC s = true → id ∈ on KTake (log s)) ∧
    (onRequestCancel s = true → id ∈ on KTake (log s) → id ∈ on KNotify (log s)).
Proof.
  intros Hd Hops Hex Hq id Hid.
  destruct (system_quiet _ _ _ _ _ Hd Hops Hex Hq) as (o & HI & HR & _).
  destruct (i_posted _ _ HI id Hid) as [Ha Hnd]. split_and!.
  - rewrite (i_flow _ _ HI), elem_of_app in Ha. destruct Ha; auto.
  - intros Hdn. by apply (i_done _ _ HI Hdn).
  - intros Hcb Ht. destruct (i_outcome _ _ HI Hcb id Ht) as [?|[?|?]]; [done|done|]. by destruct (HR id).
Qed.

(** The pump's part of a stop: the next iteration, the closed channel, the
    drain of [n] requests. *)
Definition do_stop (n : nat) : list (nat * choice) :=
  [(0, Go); (0, Go); (0, Pick ArmRequest); (0, Go); (0, Go)] ++
  replicate n (0, CallbackPanics false) ++ replicate 5 (0, Go).

Lemma client_no_request_lost_witness :
  let c := exec (do_send 1 ++ do_dispatch ArmRequest ++ [(2, Go)] ++ do_stop 1 ++ [(2, Go)])
             (system demo [OpSend (demo_bundle "1"); OpStop]) in
  "1" ∈ on KNotify (final_log c) ∧ on KPosted (final_log c) = ["1"].
Proof.
  cbv zeta. split; [|vm_compute; reflexivity].
  assert (Hops : ops_ok [OpSend (demo_bundle "1"); OpStop]).
  { split; [|split; [apply NoDup_singleton|change ("" ∉ ["1"]); set_solver]].
    intros b Hb. assert (b = demo_bundle "1") as -> by set_solver. simpl. eauto. }
  set (c := exec _ _).
  assert (Hq : match c with
               | Some (s, ts) => forallb thread_quiet ts && onRequestCancel s && doneC s
                                   && bool_decide (on KPosted (log s) = ["1"])
               | None => false
               end = true) by (vm_compute; reflexivity).
  subst c. destruct (exec _ _) as [[s ts]|] eqn:E; [|discriminate].
  apply andb_true_iff in Hq as [Hq Hp]. apply bool_decide_eq_true in Hp.
  apply andb_true_iff in Hq as [Hq Hdn]. apply andb_true_iff in Hq as [Hq Hcb].
  destruct (client_no_request_lost nat demo s _ _ ts demo_clean Hops E ltac:(apply Forall_forall; intros t Ht;
    rewrite forallb_forall in Hq; by apply Hq, list_elem_of_In) "1" ltac:(rewrite Hp; left)) as (_ & H1 & H2).
  exact (H2 Hcb (H1 Hdn)).
Defined.

(** the pending request is the queue's front in every state in which no
    operation is under way, so the response or timeout that completes it finds
    it there and the queue cannot wedge behind it. *)
Theorem client_pending_is_front (Request : Type) (d s : dispatcher Request) ops sched ts :
  clean d → ops_ok ops → exec sched (system d ops) = Some (s, ts) →
  Forall (λ t, thread_quiet t = true) ts →
  ClientState.HasPendingRequest (pendingRequestState s) = true →
  head (queued s) = Some (pendingID s).
Proof.
  intros Hd Hops Hex Hq Hp%ClientState.HasPendingRequest_true.
  destruct (system_quiet _ _ _ _ _ Hd Hops Hex Hq) as (o & HI & HR & HM).
  destruct (i_pending _ _ HI Hp) as [?|[Hx|?]]; [done| |done].
  by destruct (HR (pendingID s)).
Qed.

Lemma client_pending_is_front_witness :
  let c := exec (do_send 1 ++ do_dispatch ArmRequest) (system demo [OpSend (demo_bundle "1")]) in
  match c with Some (s, _) => head (queued s) = Some (pendingID s) ∧ pendingID s = "1" | None => False end.
Proof.
  cbv zeta.
  assert (Hops : ops_ok [OpSend (demo_bundle "1")]).
  { split; [|split; [apply NoDup_singleton|change ("" ∉ ["1"]); set_solver]].
    intros b Hb. assert (b = demo_bundle "1") as -> by set_solver. simpl. eauto. }
  set (c := exec _ _).
  assert (Hq : match c with
               | Some (s, ts) => forallb thread_quiet ts && bool_decide (pendingID s = "1")
               | None => false
               end = true) by (vm_compute; reflexivity).
  subst c. destruct (exec _ _) as [[s ts]|] eqn:E; [|discriminate].
  apply andb_true_iff in Hq as [Hq Hp]. apply bool_decide_eq_true in Hp. split; [|done].
  refine (client_pending_is_front nat demo s _ _ ts demo_clean Hops E _ _).
  - apply Forall_forall. intros t Ht. rewrite forallb_forall in Hq. by apply Hq, list_elem_of_In.
  - apply ClientState.HasPendingRequest_true. unfold pendingID in Hp. congruence.
Defined.

(** when the dispatcher is not running, [SendRequest] reports an error but
    the request it pushed stays in the queue, where the next [Start] finds it. *)
Theorem client_send_not_running (Request : Type) (d : dispatcher Request) b :
  network d = true → running d = false → writer d = false → FIFO.full (requestQueue d) = false →
  ∃ d', run (SendRequest b) (replicate 5 Go) d = Some (d', Some (errNotRunning (bundle_id b)), []) ∧
        FIFO.elements (requestQueue d') = FIFO.elements (requestQueue d) ++ [EBundle b].
Proof.
  intros Hn Hr Hw Hf. unfold SendRequest. cbn -[FIFO.Push ids]. rewrite Hn. cbn -[FIFO.Push ids].
  unfold FIFO.Push. rewrite Hf. cbn -[ids]. rewrite Hw. cbn -[ids]. rewrite Hr. cbn -[ids].
  eexists. split; [done|]. done.
Qed.

Lemma client_send_not_running_witness :
  ∃ d', run (SendRequest (demo_bundle "1")) (replicate 5 Go) demo =
          Some (d', Some (Errorf "cannot send request 1, dispatcher not running" None), []) ∧
        FIFO.elements (requestQueue d') = [EBundle (demo_bundle "1")].
Proof. exact (client_send_not_running nat demo (demo_bundle "1") eq_refl eq_refl eq_refl eq_refl). Defined.

(** What the stop drain notifies for a list of queue elements. *)
Definition stop_events {Request} (els : list (element Request)) : list (event Request) :=
  omap (λ e, c ← elem_call e; Some (EvCancel (UniqueId c) (Payload c) (newDispatcherStoppedError (UniqueId c)))) els.

Lemma emit_emit {Request} (d : dispatcher Request) l1 l2 : emit l2 (emit l1 d) = emit (l1 ++ l2) d.
Proof. destruct d. unfold emit. simpl. by rewrite app_assoc. Qed.

Lemma run_cancel_all {Request} (els : list (element Request)) d cs :
  onRequestCancel d = true →
  run (cancel_all els) (replicate (length (stop_events els)) (CallbackPanics false) ++ cs) d =
  Some (emit (stop_events els) d, tt, cs).
Proof.
  revert d. induction els as [|e els IH]; intros d Hcb.
  { destruct d. unfold emit. simpl. by rewrite app_nil_r. }
  cbn [cancel_all]. rewrite run_bind. unfold stop_events. simpl.
  destruct (elem_call e) as [c|]; simpl; [|by apply IH]. rewrite Hcb. simpl.
  fold (stop_events els). rewrite IH by done. by rewrite emit_emit.
Qed.

(** the pump's reaction to [Stop], run to its end, fires the cancel callback
    with [ErrDispatcherStopped] exactly once for each request that was queued,
    in queue order, and leaves the queue empty, nothing pending, the channel
    nil and the done channel closed. *)
Theorem client_stop_drain (Request : Type) (d : dispatcher Request) :
  onRequestCancel d = true → writer d = false → readers d = 0 →
  ∃ d', let els := FIFO.elements (requestQueue d) in
    run stop_drain ([Go; Go] ++ replicate (length (stop_events els)) (CallbackPanics false) ++
                    replicate 5 Go) d = Some (d', tt, []) ∧
    log d' = log d ++ taken_events els ++ stop_events els ∧
    FIFO.elements (requestQueue d') = [] ∧
    ClientState.HasPendingRequest (pendingRequestState d') = false ∧
    IsRunning d' = false ∧ doneC d' = true.
Proof.
  intros Hcb Hw Hr. unfold stop_drain. set (els := FIFO.elements (requestQueue d)).
  eexists. cbv zeta. split.
  - cbn [app replicate]. rewrite (run_atomic _ _ _ _ _ _ els eq_refl), run_modify.
    rewrite run_bind, run_cancel_all by done. cbn [replicate]. rewrite run_modify.
    unfold Lock. erewrite run_atomic; [|simpl; rewrite Hw, decide_True by done; reflexivity].
    rewrite run_modify. unfold Unlock. rewrite run_modify. reflexivity.
  - simpl. rewrite !app_nil_r, <-!app_assoc. done.
Qed.

Lemma client_stop_drain_witness :
  ∃ d', let d := set_queue (FIFO.mkQueue [EBundle (demo_bundle "1"); EOther; EBundle (demo_bundle "2")] 0) demo in
    run stop_drain ([Go; Go] ++ replicate 2 (CallbackPanics false) ++ replicate 5 Go) d = Some (d', tt, []) ∧
    on KNotify (log d') = ["1"; "2"].
Proof.
  destruct (client_stop_drain nat
    (set_queue (FIFO.mkQueue [EBundle (demo_bundle "1"); EOther; EBundle (demo_bundle "2")] 0) demo)
    eq_refl eq_refl eq_refl) as (d' & Hr & Hl & _).
  exists d'. split; [exact Hr|]. rewrite Hl. reflexivity.
Defined.

(** The timer arm is not guarded by the identity of the request: a response
    that completes the request in flight between the arm's pending check and
    its peek makes it cancel the next request, which was never sent. *)
Theorem client_timeout_race :
  let c := exec (do_send 1 ++ do_dispatch ArmRequest ++ do_send 3 ++ [(4, Go)] ++
                 [(0, Go); (0, Go); (0, Pick ArmTimer); (0, Go)] ++   (* the arm sees "1" pending *)
                 [(2, Go); (2, Go)] ++                                (* the response completes "1" *)
                 [(0, Go); (0, Go); (0, Go); (0, Go); (0, CallbackPanics false)])
             (system demo (demo_ops ++ [OpTimer])) in
  on KWrite (final_log c) = ["1"] ∧
  EvCancel "2" (Some 7) (newRequestTimeoutError "2") ∈ final_log c.
Proof. split; [vm_compute; reflexivity|]. vm_compute. repeat first [left|right]. Qed.
