(* ===== verification/ServerDispatcher.v ===== *)
(** * The server dispatcher (src/ocppj/dispatcher.go, [DefaultServerDispatcher])

    One message pump serves every client; senders, response handlers, client
    sessions, [Stop] and the per-request watchers run beside it.  A client's
    queue lives behind a pointer: [Remove] detaches it, and a goroutine that
    read the pointer before keeps using the detached queue.  Contexts made for
    a dispatched request are named by that request and a serial number, which
    stands for their identity.

    Each goroutine is a program of atomic actions ([Conc]); the events of the
    log are what the network, the callbacks and the queues see. *)

From S2P Require Import Prelude Conc Ocpp Errors Queue State Message.
Local Open Scope string_scope.
Local Open Scope list_scope.

Record serverDispatchRequest := mkDispatch { dr_clientID : string; dr_deleteAck : option nat }.
Record serverReadyToken := mkReady { rt_clientID : string; rt_requestID : string }.

(** The context [dispatchNextRequest] creates for a written request. *)
Record ictx := mkIctx { ix_client : string; ix_request : string; ix_serial : nat }.

#[export] Instance ictx_eq_dec : EqDecision ictx.
Proof. solve_decision. Defined.
#[export] Instance ictx_countable : Countable ictx.
Proof.
  refine (inj_countable' (λ k, (ix_client k, ix_request k, ix_serial k))
    (λ x, mkIctx x.1.1 x.1.2 x.2) _); by intros [].
Defined.

(** The error of a context that is done: canceled, or its deadline passed. *)
Inductive ctx_end := CtxCanceled | CtxDeadline.

(** [clientTimeoutContext]: the zero value is [None]. *)
Definition clientTimeoutContext : Type := option ictx.
Definition isActive (c : clientTimeoutContext) : bool := bool_decide (is_Some c).

Record serverTimeoutToken := mkTimeout { tt_clientID : string; tt_ctx : ictx }.
Record serverCancelToken := mkCancel { ct_clientID : string; ct_requestID : string; ct_ctx : ctx }.

Inductive dispatchStatus := dispatchIdle | dispatchWritten | dispatchCompletedNoWrite.

Definition defaultMessageTimeout : Z := 30 * second.

Section dispatcher.
Context {Request : Type}.

(** [q] is the queue pointer an event is about. *)
Inductive event :=
| EvCreated (client : string) (q : nat)                    (* CreateClient made the queue *)
| EvAccept (q : nat) (id : string)                         (* Push accepted the request *)
| EvPosted (id : string)                                   (* SendRequest reports success for it *)
| EvTake (q : nat) (id : string)                           (* it left the queue *)
| EvDrop (id : string)                                     (* it left it unclaimed: no payload *)
| EvPending (client id : string)                           (* it became the client's pending request *)
| EvWrite (client : string) (q : nat) (id data : string)   (* written to the network *)
| EvExpired (k : ictx)                                     (* the request's deadline passed *)
| EvCancel (client id : string) (req : option Request) (err : ocpp_error)  (* onRequestCancel *)
| EvHandlerPanic (client action id : string)               (* recovered callback panic *)
| EvDeliver (client id : string)                           (* response or error handler *)
| EvPanic.                                                 (* a queue of negative capacity *)

Record dispatcher := mkDispatcher {
  queueMap : QueueMap.FIFOQueueMap (element Request);  (* the client queues, by pointer *)
  requestChannel : list serverDispatchRequest;  (* capacity 20 *)
  readyForDispatch : option serverReadyToken;  (* capacity 1 *)
  pendingRequestState : ServerState.serverState Request;
  timeout : Z;
  timerC : list serverTimeoutToken;  (* capacity 10 *)
  cancelC : list serverCancelToken;  (* capacity 10 *)
  running : bool;
  stoppedC : bool;  (* closed? *)
  doneC : bool;  (* closed? *)
  readers : nat;  (* the RWMutex *)
  writer : bool;
  network : bool;  (* a server is set *)
  onRequestCancel : bool;  (* a callback is set *)
  onHandlerPanic : bool;  (* a callback is set *)
  ctxs : ctx_table;  (* callers' contexts that have fired *)
  ictxs : gmap ictx (option ctx_end);  (* internal contexts, with how those that are done ended *)
  acks : gset nat;  (* closed deleteAck channels *)
  serial : nat;  (* the next context or channel *)
  waitsExpire : bool;  (* the environment: a two-second wait can run out *)
  log : list event
}.

(** *** Field updates *)
Definition set_queueMap (x : QueueMap.FIFOQueueMap (element Request)) (d : dispatcher) : dispatcher :=
  mkDispatcher x (requestChannel d) (readyForDispatch d) (pendingRequestState d) (timeout d) (timerC d)
    (cancelC d) (running d) (stoppedC d) (doneC d) (readers d) (writer d) (network d) (onRequestCancel d)
    (onHandlerPanic d) (ctxs d) (ictxs d) (acks d) (serial d) (waitsExpire d) (log d).
Definition set_requests (x : list serverDispatchRequest) (d : dispatcher) : dispatcher :=
  mkDispatcher (queueMap d) x (readyForDispatch d) (pendingRequestState d) (timeout d) (timerC d) (cancelC d)
    (running d) (stoppedC d) (doneC d) (readers d) (writer d) (network d) (onRequestCancel d) (onHandlerPanic d)
    (ctxs d) (ictxs d) (acks d) (serial d) (waitsExpire d) (log d).
Definition set_ready (x : option serverReadyToken) (d : dispatcher) : dispatcher :=
  mkDispatcher (queueMap d) (requestChannel d) x (pendingRequestState d) (timeout d) (timerC d) (cancelC d)
    (running d) (stoppedC d) (doneC d) (readers d) (writer d) (network d) (onRequestCancel d) (onHandlerPanic d)
    (ctxs d) (ictxs d) (acks d) (serial d) (waitsExpire d) (log d).
Definition set_pending (x : ServerState.serverState Request) (d : dispatcher) : dispatcher :=
  mkDispatcher (queueMap d) (requestChannel d) (readyForDispatch d) x (timeout d) (timerC d) (cancelC d)
    (running d) (stoppedC d) (doneC d) (readers d) (writer d) (network d) (onRequestCancel d) (onHandlerPanic d)
    (ctxs d) (ictxs d) (acks d) (serial d) (waitsExpire d) (log d).
Definition set_timerC (x : list serverTimeoutToken) (d : dispatcher) : dispatcher :=
  mkDispatcher (queueMap d) (requestChannel d) (readyForDispatch d) (pendingRequestState d) (timeout d) x
    (cancelC d) (running d) (stoppedC d) (doneC d) (readers d) (writer d) (network d) (onRequestCancel d)
    (onHandlerPanic d) (ctxs d) (ictxs d) (acks d) (serial d) (waitsExpire d) (log d).
Definition set_cancelC (x : list serverCancelToken) (d : dispatcher) : dispatcher :=
  mkDispatcher (queueMap d) (requestChannel d) (readyForDispatch d) (pendingRequestState d) (timeout d)
    (timerC d) x (running d) (stoppedC d) (doneC d) (readers d) (writer d) (network d) (onRequestCancel d)
    (onHandlerPanic d) (ctxs d) (ictxs d) (acks d) (serial d) (waitsExpire d) (log d).
Definition set_running (x : bool) (d : dispatcher) : dispatcher :=
  mkDispatcher (queueMap d) (requestChannel d) (readyForDispatch d) (pendingRequestState d) (timeout d)
    (timerC d) (cancelC d) x (stoppedC d) (doneC d) (readers d) (writer d) (network d) (onRequestCancel d)
    (onHandlerPanic d) (ctxs d) (ictxs d) (acks d) (serial d) (waitsExpire d) (log d).
Definition set_stopped (x : bool) (d : dispatcher) : dispatcher :=
  mkDispatcher (queueMap d) (requestChannel d) (readyForDispatch d) (pendingRequestState d) (timeout d)
    (timerC d) (cancelC d) (running d) x (doneC d) (readers d) (writer d) (network d) (onRequestCancel d)
    (onHandlerPanic d) (ctxs d) (ictxs d) (acks d) (serial d) (waitsExpire d) (log d).
Definition set_done (x : bool) (d : dispatcher) : dispatcher :=
  mkDispatcher (queueMap d) (requestChannel d) (readyForDispatch d) (pendingRequestState d) (timeout d)
    (timerC d) (cancelC d) (running d) (stoppedC d) x (readers d) (writer d) (network d) (onRequestCancel d)
    (onHandlerPanic d) (ctxs d) (ictxs d) (acks d) (serial d) (waitsExpire d) (log d).
Definition set_readers (x : nat) (d : dispatcher) : dispatcher :=
  mkDispatcher (queueMap d) (requestChannel d) (readyForDispatch d) (pendingRequestState d) (timeout d)
    (timerC d) (cancelC d) (running d) (stoppedC d) (doneC d) x (writer d) (network d) (onRequestCancel d)
    (onHandlerPanic d) (ctxs d) (ictxs d) (acks d) (serial d) (waitsExpire d) (log d).
Definition set_ctxs (x : ctx_table) (d : dispatcher) : dispatcher :=
  mkDispatcher (queueMap d) (requestChannel d) (readyForDispatch d) (pendingRequestState d) (timeout d)
    (timerC d) (cancelC d) (running d) (stoppedC d) (doneC d) (readers d) (writer d) (network d)
    (onRequestCancel d) (onHandlerPanic d) x (ictxs d) (acks d) (serial d) (waitsExpire d) (log d).
Definition set_ictxs (x : gmap ictx (option ctx_end)) (d : dispatcher) : dispatcher :=
  mkDispatcher (queueMap d) (requestChannel d) (readyForDispatch d) (pendingRequestState d) (timeout d)
    (timerC d) (cancelC d) (running d) (stoppedC d) (doneC d) (readers d) (writer d) (network d)
    (onRequestCancel d) (onHandlerPanic d) (ctxs d) x (acks d) (serial d) (waitsExpire d) (log d).
Definition set_acks (x : gset nat) (d : dispatcher) : dispatcher :=
  mkDispatcher (queueMap d) (requestChannel d) (readyForDispatch d) (pendingRequestState d) (timeout d)
    (timerC d) (cancelC d) (running d) (stoppedC d) (doneC d) (readers d) (writer d) (network d)
    (onRequestCancel d) (onHandlerPanic d) (ctxs d) (ictxs d) x (serial d) (waitsExpire d) (log d).
Definition set_serial (x : nat) (d : dispatcher) : dispatcher :=
  mkDispatcher (queueMap d) (requestChannel d) (readyForDispatch d) (pendingRequestState d) (timeout d)
    (timerC d) (cancelC d) (running d) (stoppedC d) (doneC d) (readers d) (writer d) (network d)
    (onRequestCancel d) (onHandlerPanic d) (ctxs d) (ictxs d) (acks d) x (waitsExpire d) (log d).
Definition emit (evs : list event) (d : dispatcher) : dispatcher :=
  mkDispatcher (queueMap d) (requestChannel d) (readyForDispatch d) (pendingRequestState d) (timeout d)
    (timerC d) (cancelC d) (running d) (stoppedC d) (doneC d) (readers d) (writer d) (network d)
    (onRequestCancel d) (onHandlerPanic d) (ctxs d) (ictxs d) (acks d) (serial d) (waitsExpire d) (log d ++ evs).

(** [NewDefaultServerDispatcher] *)
Definition NewDefaultServerDispatcher (m : QueueMap.FIFOQueueMap (element Request)) : dispatcher :=
  mkDispatcher m [] None ServerState.NewServerState defaultMessageTimeout [] [] false false false 0 false
    false false false ∅ ∅ ∅ 0 true [].

(** The setters; a callback or a network is present or not. *)
Definition SetNetworkServer (server : bool) (d : dispatcher) : dispatcher :=
  mkDispatcher (queueMap d) (requestChannel d) (readyForDispatch d) (pendingRequestState d) (timeout d)
    (timerC d) (cancelC d) (running d) (stoppedC d) (doneC d) (readers d) (writer d) server (onRequestCancel
    d) (onHandlerPanic d) (ctxs d) (ictxs d) (acks d) (serial d) (waitsExpire d) (log d).
Definition SetOnRequestCanceled (cb : bool) (d : dispatcher) : dispatcher :=
  mkDispatcher (queueMap d) (requestChannel d) (readyForDispatch d) (pendingRequestState d) (timeout d)
    (timerC d) (cancelC d) (running d) (stoppedC d) (doneC d) (readers d) (writer d) (network d) cb
    (onHandlerPanic d) (ctxs d) (ictxs d) (acks d) (serial d) (waitsExpire d) (log d).
Definition SetOnHandlerPanic (cb : bool) (d : dispatcher) : dispatcher :=
  mkDispatcher (queueMap d) (requestChannel d) (readyForDispatch d) (pendingRequestState d) (timeout d)
    (timerC d) (cancelC d) (running d) (stoppedC d) (doneC d) (readers d) (writer d) (network d)
    (onRequestCancel d) cb (ctxs d) (ictxs d) (acks d) (serial d) (waitsExpire d) (log d).
Definition SetTimeout (t : Z) (d : dispatcher) : dispatcher :=
  mkDispatcher (queueMap d) (requestChannel d) (readyForDispatch d) (pendingRequestState d) t (timerC d)
    (cancelC d) (running d) (stoppedC d) (doneC d) (readers d) (writer d) (network d) (onRequestCancel d)
    (onHandlerPanic d) (ctxs d) (ictxs d) (acks d) (serial d) (waitsExpire d) (log d).
Definition SetPendingRequestState (state : ServerState.serverState Request) (d : dispatcher) : dispatcher :=
  set_pending state d.

(** The state [Start] leaves; the pump it launches is [pump_thread]. *)
Definition Start (d : dispatcher) : dispatcher :=
  set_running true (set_stopped false (set_done false (set_requests [] (set_timerC [] (set_cancelC [] d))))).

Definition IsRunning (d : dispatcher) : bool := running d.

(** What the environment chooses. *)
Inductive arm := ArmStopped | ArmRequest | ArmTimer | ArmReady | ArmCancel.
Inductive choice :=
| Pick (a : arm)                     (* the arm of the pump's select *)
| NetResult (e : option error)       (* the outcome of a network write *)
| CallbackPanics (b : bool)
| NextClient (c : string)            (* the next key of a map iteration *)
| WatchDone | WatchUser | WatchStop  (* the arm of a watcher's select *)
| Post                               (* the send arm of a watcher's second select *)
| AckReceived | WaitOver             (* the arms of DeleteClientAndWait's select *)
| Go.

Abbreviation prog A := (proc dispatcher choice A).

(** *** Shared actions *)

Definition RLock : prog unit :=
  atomic (λ d, if writer d then None else Some (set_readers (S (readers d)) d, tt)).
Definition RUnlock : prog unit := modify (λ d, set_readers (pred (readers d)) d).

(** The queue behind a pointer. *)
Definition queue_at (q : nat) (d : dispatcher) : option (FIFO.FIFOClientQueue (element Request)) :=
  QueueMap.deref q (queueMap d).
Definition store_queue (q : nat) (x : FIFO.FIFOClientQueue (element Request)) (d : dispatcher) : dispatcher :=
  set_queueMap (QueueMap.store q x (queueMap d)) d.
Definition Get (clientID : string) (d : dispatcher) : option nat := QueueMap.Get clientID (queueMap d).

Definition taken_events (q : nat) (l : list (element Request)) : list event := EvTake q <$> ids l.

(** [q.PopIf] for the predicate of [completeRequestOwned]. *)
Definition pop_request (q : nat) (requestID : string) : prog (option (element Request)) :=
  atomic (λ d, match queue_at q d with
               | Some x => let '(x', r) := FIFO.PopIf (is_request requestID) x in
                           Some (emit (taken_events q (option_list r)) (store_queue q x' d), r)
               | None => Some (d, None)
               end).

(** [completeRequestOwned]: the popped call, when this caller won. *)
Definition completeRequestOwned (clientID requestID : string) : prog (option (Call Request)) :=
  (q <- read (Get clientID) ;;
  match q with
  | None => Ret None
  | Some q =>
      el <- pop_request q requestID ;;
      match (match el with Some e => elem_call e | None => None end) with
      | Some c =>
          modify (λ d, set_pending (ServerState.DeletePendingRequest clientID requestID (pendingRequestState d)) d) ;;
          Ret (Some c)
      | None => Ret None
      end
  end)%proc.

(** [CompleteRequest]: the winner sends on [readyForDispatch], which blocks
    while its buffer is full. *)
Definition CompleteRequest (clientID requestID : string) : prog bool :=
  (won <- completeRequestOwned clientID requestID ;;
  match won with
  | None => Ret false
  | Some _ =>
      atomic (λ d, match readyForDispatch d with
                   | None => Some (set_ready (Some (mkReady clientID requestID)) d, tt)
                   | Some _ => None
                   end) ;;
      Ret true
  end)%proc.

(** [fireRequestCancel] with [recoverCancelCallback].  The callback returns when
    the environment says so: while a schedule withholds the choice, the goroutine
    is blocked in it. *)
Definition fireRequestCancel (clientID action requestID : string) (request : option Request)
    (err : ocpp_error) : prog unit :=
  choose (λ c d,
    match c with
    | CallbackPanics p =>
        if onRequestCancel d then
          Some (emit (EvCancel clientID requestID request (default err (markLocalTransportError (Some err))) ::
                      if p && onHandlerPanic d then [EvHandlerPanic clientID action requestID] else []) d, tt)
        else Some (d, tt)
    | _ => None
    end).

(** *** Dispatching *)

(** [context.cancel]: a context keeps its first error. *)
Definition cancel_ictx (k : ictx) (d : dispatcher) : dispatcher :=
  match ictxs d !! k with
  | Some None => set_ictxs (<[k := Some CtxCanceled]> (ictxs d)) d
  | _ => d
  end.

Definition front_bundle (q : nat) (d : dispatcher) : option (RequestBundle Request) :=
  match x ← queue_at q d; FIFO.Peek x with
  | Some (EBundle b) => Some b
  | _ => None
  end.

(** [pendingRequestState.AddPendingRequest], with the event when it takes. *)
Definition pending_id (clientID : string) (d : dispatcher) : string :=
  match ServerState.client clientID (pendingRequestState d) with
  | Some s => ClientState.requestID s
  | None => ""
  end.
Definition add_pending (clientID : string) (c : Call Request) (d : dispatcher) : dispatcher :=
  let d' := set_pending (ServerState.AddPendingRequest clientID (UniqueId c) (Payload c) (pendingRequestState d)) d in
  emit (if decide (pending_id clientID d' = pending_id clientID d) then [] else [EvPending clientID (UniqueId c)]) d'.

(** [d.network.Write]: it returns with the outcome the environment chooses, and a
    schedule that withholds it is one with the pump blocked in [Write]. *)
Definition network_Write (clientID : string) (q : nat) (id data : string) : prog (option error) :=
  choose (λ c d, match c with
                 | NetResult None => Some (emit [EvWrite clientID q id data] d, None)
                 | NetResult (Some e) => Some (d, Some e)
                 | _ => None
                 end).

(** The context of a written request: with the dispatcher's timeout, or
    without a deadline when only the caller's context can fire. *)
Definition new_ictx (clientID id : string) (userCtx : ctx) : prog clientTimeoutContext :=
  atomic (λ d, if bool_decide (0 < timeout d)%Z || bool_decide (userCtx ≠ Background)
               then let k := mkIctx clientID id (serial d) in
                    Some (set_serial (S (serial d)) (set_ictxs (<[k := None]> (ictxs d)) d), Some k)
               else Some (d, None)).

Record dispatched := mkDispatched {
  ds_ctx : clientTimeoutContext;
  ds_requestID : string;
  ds_userCtx : ctx;
  ds_status : dispatchStatus
}.
Definition not_dispatched (st : dispatchStatus) : dispatched := mkDispatched None "" Background st.

Definition dispatchNextRequest (clientID : string) : prog dispatched :=
  (q <- read (Get clientID) ;;
  match q with
  | None => Ret (not_dispatched dispatchIdle)
  | Some q =>
      front <- read (front_bundle q) ;;
      match b ← front; c ← bundle_Call b; Some (b, c) with
      | None => Ret (not_dispatched dispatchIdle)
      | Some (b, c) =>
          match bundle_Data b with
          | None => Ret (not_dispatched dispatchIdle)
          | Some jsonMessage =>
              expired <- read (λ d, ctx_Err (ctxs d) (bundleCtx b)) ;;
              match expired with
              | Some e =>
                  won <- completeRequestOwned clientID (UniqueId c) ;;
                  (match won with
                   | Some _ => fireRequestCancel clientID (Action c) (UniqueId c) (Payload c)
                                 (NewRequestCanceledError (UniqueId c) (Some e))
                   | None => Ret tt
                   end) ;;
                  Ret (not_dispatched dispatchCompletedNoWrite)
              | None =>
                  modify (add_pending clientID c) ;;
                  res <- network_Write clientID q (UniqueId c) jsonMessage ;;
                  match res with
                  | Some e =>
                      won <- completeRequestOwned clientID (UniqueId c) ;;
                      (match won with
                       | Some _ => fireRequestCancel clientID (Action c) (UniqueId c) (Payload c)
                                     (NewLocalTransportError InternalError (error_text e) (UniqueId c))
                       | None => Ret tt
                       end) ;;
                      Ret (not_dispatched dispatchCompletedNoWrite)
                  | None =>
                      k <- new_ictx clientID (UniqueId c) (bundleCtx b) ;;
                      Ret (mkDispatched k (UniqueId c) (bundleCtx b) dispatchWritten)
                  end
              end
          end
      end
  end)%proc.

(** [waitForTimeout]: the watcher of one dispatched request.  [watch_post] is
    the second select, a send that gives way to [stoppedC]. *)
Inductive watched := WExpired | WCanceled | WUser | WStopped.

Definition watch_select (k : ictx) (userCtx : ctx) : prog watched :=
  choose (λ c d, match c with
                 | WatchDone => match ictxs d !! k with
                                | Some (Some CtxDeadline) => Some (d, WExpired)
                                | Some (Some CtxCanceled) => Some (d, WCanceled)
                                | _ => None
                                end
                 | WatchUser => match ctx_Err (ctxs d) userCtx with Some _ => Some (d, WUser) | None => None end
                 | WatchStop => if stoppedC d then Some (d, WStopped) else None
                 | _ => None
                 end).

Definition watch_post (post : dispatcher → option dispatcher) : prog unit :=
  choose (λ c d, match c with
                 | Post => match post d with Some d' => Some (d', tt) | None => None end
                 | WatchStop => if stoppedC d then Some (d, tt) else None
                 | _ => None
                 end).

Definition post_timeout (clientID : string) (k : ictx) (d : dispatcher) : option dispatcher :=
  if decide (length (timerC d) < 10) then Some (set_timerC (timerC d ++ [mkTimeout clientID k]) d) else None.
Definition post_cancel (clientID requestID : string) (u : ctx) (d : dispatcher) : option dispatcher :=
  if decide (length (cancelC d) < 10) then Some (set_cancelC (cancelC d ++ [mkCancel clientID requestID u]) d) else None.

Definition waitForTimeout (clientID requestID : string) (k : ictx) (userCtx : ctx) : prog unit :=
  (w <- watch_select k userCtx ;;
  (match w with
   | WExpired => watch_post (post_timeout clientID k)
   | WUser => watch_post (post_cancel clientID requestID userCtx)
   | WCanceled | WStopped => Ret tt
   end) ;;
  modify (cancel_ictx k))%proc.

(** *** The message pump *)

(** The variables of [messagePump]: [inner] is the client of the inner
    dispatch loop while the pump is in it. *)
Record pump_locals := mkLocals {
  rdy : bool;
  clientQueue : option nat;
  clientContextMap : gmap string clientTimeoutContext;
  dispatchedRequestIDMap : gmap string string;
  inner : option string
}.
Definition initial_locals : pump_locals := mkLocals false None ∅ ∅ None.

Inductive selected :=
| SelStopped
| SelRequest (r : serverDispatchRequest)
| SelTimer (t : serverTimeoutToken)
| SelReady (t : serverReadyToken)
| SelCancel (t : serverCancelToken).

Definition select_arm (c : choice) (d : dispatcher) : option (dispatcher * selected) :=
  match c with
  | Pick ArmStopped => if stoppedC d then Some (d, SelStopped) else None
  | Pick ArmRequest => match requestChannel d with
                       | r :: rs => Some (set_requests rs d, SelRequest r)
                       | [] => None
                       end
  | Pick ArmTimer => match timerC d with
                     | t :: ts => Some (set_timerC ts d, SelTimer t)
                     | [] => None
                     end
  | Pick ArmReady => match readyForDispatch d with
                     | Some t => Some (set_ready None d, SelReady t)
                     | None => None
                     end
  | Pick ArmCancel => match cancelC d with
                      | t :: ts => Some (set_cancelC ts d, SelCancel t)
                      | [] => None
                      end
  | _ => None
  end.

(** The call of a bundle the stop arm cancels: not nil, with a payload. *)
Definition cancelable (el : element Request) : option (Call Request) :=
  match elem_call el with
  | Some c => match Payload c with Some _ => Some c | None => None end
  | None => None
  end.
Definition dropped_events (l : list (element Request)) : list event :=
  EvDrop <$> ids (filter (λ el, cancelable el = None) l).

(** The stop arm.  The bundles of one detached queue, then the queues in the
    order the map iteration takes them. *)
Fixpoint cancel_all (clientID : string) (els : list (element Request)) : prog unit :=
  match els with
  | [] => Ret tt
  | el :: els' =>
      (match cancelable el with
       | Some c => fireRequestCancel clientID (Action c) (UniqueId c) (Payload c)
                     (newDispatcherStoppedError (UniqueId c))
       | None => Ret tt
       end ;; cancel_all clientID els')%proc
  end.

Definition drain_queue (q : nat) : prog (list (element Request)) :=
  atomic (λ d, match queue_at q d with
               | Some x => let '(x', l) := FIFO.DrainAll x in
                           Some (emit (taken_events q l ++ dropped_events l) (store_queue q x' d), l)
               | None => Some (d, [])
               end).

Fixpoint drain_clients (n : nat) (m : gmap string nat) : prog unit :=
  match n with
  | 0 => Ret tt
  | S n' =>
      (next <- choose (λ c d, match c with
                              | NextClient id => match m !! id with Some q => Some (d, (id, q)) | None => None end
                              | _ => None
                              end) ;;
      els <- drain_queue next.2 ;;
      cancel_all next.1 els ;;
      drain_clients n' (delete next.1 m))%proc
  end.

Definition stop_arm : prog unit :=
  (detached <- atomic (λ d, let '(f, m) := QueueMap.DrainAll (queueMap d) in Some (set_queueMap f d, m)) ;;
  modify (λ d, set_pending (ServerState.ClearAllPendingRequests (pendingRequestState d)) d) ;;
  drain_clients (size detached) detached ;;
  modify (set_done true))%proc.

(** What an arm leaves: [Some c] when the code after the [select] runs with
    [clientID = c], [None] for [continue]. *)
Abbreviation arm_result := (pump_locals * option string)%type.

Definition ctx_of (c : string) (l : pump_locals) : clientTimeoutContext := default None (clientContextMap l !! c).
Definition set_rdy (b : bool) (l : pump_locals) : pump_locals :=
  mkLocals b (clientQueue l) (clientContextMap l) (dispatchedRequestIDMap l) (inner l).
Definition set_clientQueue (q : option nat) (l : pump_locals) : pump_locals :=
  mkLocals (rdy l) q (clientContextMap l) (dispatchedRequestIDMap l) (inner l).
Definition set_ctx (c : string) (k : clientTimeoutContext) (l : pump_locals) : pump_locals :=
  mkLocals (rdy l) (clientQueue l) (<[c := k]> (clientContextMap l)) (dispatchedRequestIDMap l) (inner l).
Definition set_dispatched (c : string) (id : option string) (l : pump_locals) : pump_locals :=
  mkLocals (rdy l) (clientQueue l) (clientContextMap l)
    (match id with Some id => <[c := id]> (dispatchedRequestIDMap l) | None => delete c (dispatchedRequestIDMap l) end)
    (inner l).
Definition set_inner (c : option string) (l : pump_locals) : pump_locals :=
  mkLocals (rdy l) (clientQueue l) (clientContextMap l) (dispatchedRequestIDMap l) c.
(** Both entries of a client are dropped. *)
Definition forget (c : string) (l : pump_locals) : pump_locals :=
  mkLocals (rdy l) (clientQueue l) (delete c (clientContextMap l)) (delete c (dispatchedRequestIDMap l)) (inner l).

Definition cancel_client (k : clientTimeoutContext) : prog unit :=
  match k with Some k => modify (cancel_ictx k) | None => Ret tt end.
Definition close_ack (a : option nat) : prog unit :=
  match a with Some a => modify (λ d, set_acks ({[a]} ∪ acks d) d) | None => Ret tt end.

Definition request_arm (req : serverDispatchRequest) (l : pump_locals) : prog arm_result :=
  (let c := dr_clientID req in
  q <- read (Get c) ;;
  let l1 := set_clientQueue q l in
  match q with
  | None =>
      cancel_client (ctx_of c l1) ;;
      close_ack (dr_deleteAck req) ;;
      Ret (forget c l1, None)
  | Some _ =>
      l2 <- match dr_deleteAck req with
            | Some a => cancel_client (ctx_of c l1) ;; close_ack (Some a) ;; Ret (forget c l1)
            | None => Ret l1
            end ;;
      Ret (set_rdy (negb (isActive (ctx_of c l2))) l2, Some c)
  end)%proc.

Definition timeout_arm (tok : serverTimeoutToken) (l : pump_locals) : prog arm_result :=
  (let c := tt_clientID tok in
  if decide (ctx_of c l = Some (tt_ctx tok)) then
    let timedOut := default "" (dispatchedRequestIDMap l !! c) in
    cancel_client (ctx_of c l) ;;
    let l1 := set_dispatched c None (set_ctx c None l) in
    has <- read (λ d, ServerState.HasPendingRequest c (pendingRequestState d)) ;;
    if has : bool then
      won <- completeRequestOwned c timedOut ;;
      match won with
      | None => Ret (l1, None)
      | Some call =>
          q <- read (Get c) ;;
          fireRequestCancel c (Action call) (UniqueId call) (Payload call) (newRequestTimeoutError (UniqueId call)) ;;
          Ret (set_rdy true (set_clientQueue q l1), Some c)
      end
    else
      q <- read (Get c) ;;
      match q with
      | Some _ => Ret (set_rdy true (set_clientQueue q l1), Some c)
      | None => Ret (l1, Some c)
      end
  else Ret (l, None))%proc.

Definition ready_arm (tok : serverReadyToken) (l : pump_locals) : prog arm_result :=
  (let c := rt_clientID tok in
  let id := default "" (dispatchedRequestIDMap l !! c) in
  if decide (id ≠ "" ∧ id ≠ rt_requestID tok) then Ret (l, None) else
  cancel_client (ctx_of c l) ;;
  let l1 := if isActive (ctx_of c l) then set_ctx c None l else l in
  let l2 := set_dispatched c None l1 in
  q <- read (Get c) ;;
  let l3 := set_clientQueue q l2 in
  Ret (match q with Some _ => set_rdy true l3 | None => l3 end, Some c))%proc.

Definition cancel_arm (tok : serverCancelToken) (l : pump_locals) : prog arm_result :=
  (let c := ct_clientID tok in
  let stale := set_clientQueue None (set_rdy false l) in
  if decide (default "" (dispatchedRequestIDMap l !! c) ≠ ct_requestID tok) then Ret (stale, None) else
  won <- completeRequestOwned c (ct_requestID tok) ;;
  match won with
  | None => Ret (stale, None)
  | Some call =>
      cancel_client (ctx_of c l) ;;
      let l1 := set_dispatched c None (set_ctx c None l) in
      q <- read (Get c) ;;
      e <- read (λ d, ctx_Err (ctxs d) (ct_ctx tok)) ;;
      fireRequestCancel c (Action call) (UniqueId call) (Payload call) (NewRequestCanceledError (UniqueId call) e) ;;
      Ret (set_rdy true (set_clientQueue q l1), Some c)
  end)%proc.

(** The guard after the [select]: the inner dispatch loop is entered when the
    client may transmit and nothing is pending for it. *)
Definition dispatch_guard (c : string) (l : pump_locals) : prog (option pump_locals) :=
  match rdy l, clientQueue l with
  | true, Some q =>
      (empty <- read (λ d, match queue_at q d with Some x => FIFO.IsEmpty x | None => true end) ;;
      if empty : bool then Ret (Some l) else
      has <- read (λ d, ServerState.HasPendingRequest c (pendingRequestState d)) ;;
      Ret (Some (if has : bool then l else set_inner (Some c) l)))%proc
  | _, _ => Ret (Some l)
  end.

(** One round of the inner dispatch loop. *)
Definition dispatch_round (c : string) (l : pump_locals) : prog (option pump_locals) :=
  (r <- dispatchNextRequest c ;;
  let l1 := set_ctx c (ds_ctx r) l in
  has <- (if decide (ds_requestID r = "") then Ret false
          else read (λ d, ServerState.HasPendingRequest c (pendingRequestState d))) ;;
  let l2 := set_dispatched c (if has : bool then Some (ds_requestID r) else None) l1 in
  (match ds_ctx r with
   | Some k => Fork (waitForTimeout c (ds_requestID r) k (ds_userCtx r)) (Ret tt)
   | None => Ret tt
   end) ;;
  let l3 := set_rdy false l2 in
  match ds_status r with
  | dispatchCompletedNoWrite =>
      q <- read (Get c) ;;
      match q with
      | None => Ret (Some (set_inner None l3))
      | Some q =>
          empty <- read (λ d, match queue_at q d with Some x => FIFO.IsEmpty x | None => true end) ;;
          Ret (Some (if empty : bool then set_inner None l3 else l3))
      end
  | _ => Ret (Some (set_inner None l3))
  end)%proc.

(** The code a selected arm runs. *)
Definition run_arm (s : selected) (l : pump_locals) : prog (option pump_locals) :=
  match s with
  | SelStopped => (stop_arm ;; Ret None)%proc
  | _ =>
      (r <- match s with
            | SelRequest req => request_arm req l
            | SelTimer tok => timeout_arm tok l
            | SelReady tok => ready_arm tok l
            | SelCancel tok => cancel_arm tok l
            | SelStopped => Ret (l, None)
            end ;;
      match r.2 with
      | Some c => dispatch_guard c r.1
      | None => Ret (Some r.1)
      end)%proc
  end.

(** One step of [messagePump]: a round of the inner loop, or an iteration of
    the outer one. *)
Definition messagePump (l : pump_locals) : prog (option pump_locals) :=
  match inner l with
  | Some c => dispatch_round c l
  | None => (s <- choose select_arm ;; run_arm s l)%proc
  end.

Definition pump_thread : thread dispatcher choice := start_loop messagePump initial_locals.

(** *** The operations other goroutines call *)

Definition errNoNetwork (id : string) : error :=
  Errorf ("cannot send request " +:+ id +:+ ", no network server was set") None.
Definition errNoClient (id clientID : string) : error :=
  Errorf ("cannot send request " +:+ id +:+ ", no client " +:+ clientID +:+ " exists") None.
Definition errNotRunning (id : string) : error :=
  Errorf ("cannot send request " +:+ id +:+ ", dispatcher not running") None.

(** The send on the request channel, which blocks while the buffer is full. *)
Definition channel_send (r : serverDispatchRequest) (evs : list event) : prog unit :=
  atomic (λ d, if decide (length (requestChannel d) < 20)
               then Some (emit evs (set_requests (requestChannel d ++ [r]) d), tt) else None).

Definition push_request (q : nat) (req : RequestBundle Request) : prog (option error) :=
  atomic (λ d, match queue_at q d with
               | Some x => let '(x', e) := FIFO.Push (EBundle req) x in
                           Some (emit (match e with None => EvAccept q <$> ids [EBundle req] | Some _ => [] end)
                                   (store_queue q x' d), e)
               | None => Some (d, None)
               end).

Definition bundle_id (b : RequestBundle Request) : string :=
  match bundle_Call b with Some c => UniqueId c | None => "" end.

Definition SendRequest (clientID : string) (req : RequestBundle Request) : prog (option error) :=
  (net <- read network ;;
  if negb net then Ret (Some (errNoNetwork (bundle_id req))) else
  q <- read (Get clientID) ;;
  match q with
  | None => Ret (Some (errNoClient (bundle_id req) clientID))
  | Some q =>
      err <- push_request q req ;;
      match err with
      | Some e => Ret (Some e)
      | None =>
          RLock ;;
          run <- read running ;;
          if negb run then RUnlock ;; Ret (Some (errNotRunning (bundle_id req)))
          else channel_send (mkDispatch clientID None) [EvPosted (bundle_id req)] ;; RUnlock ;; Ret None
      end
  end)%proc.

Definition create_queue (clientID : string) (d : dispatcher) : dispatcher :=
  match QueueMap.GetOrCreate clientID (queueMap d) with
  | Some (f, q) => emit (match Get clientID d with Some _ => [] | None => [EvCreated clientID q] end) (set_queueMap f d)
  | None => emit [EvPanic] d
  end.

Definition CreateClient (clientID : string) : prog unit :=
  (RLock ;;
  run <- read running ;;
  (if run : bool then modify (create_queue clientID) else Ret tt) ;;
  RUnlock)%proc.

Definition remove_queue (clientID : string) (d : dispatcher) : dispatcher :=
  set_queueMap (QueueMap.Remove clientID (queueMap d)) d.

Definition DeleteClient (clientID : string) : prog unit :=
  (modify (remove_queue clientID) ;;
  RLock ;;
  run <- read running ;;
  (if run : bool then channel_send (mkDispatch clientID None) [] else Ret tt) ;;
  RUnlock)%proc.

Definition DeleteClientAndWait (clientID : string) : prog unit :=
  (modify (remove_queue clientID) ;;
  ack <- atomic (λ d, Some (set_serial (S (serial d)) d, serial d)) ;;
  RLock ;;
  run <- read running ;;
  if negb run then RUnlock
  else
    channel_send (mkDispatch clientID (Some ack)) [] ;;
    RUnlock ;;
    choose (λ c d, match c with
                   | AckReceived => if decide (ack ∈ acks d) then Some (d, tt) else
                                    if doneC d then Some (d, tt) else None
                   | WaitOver => if waitsExpire d then Some (d, tt) else None
                   | _ => None
                   end))%proc.

(** The critical section of [Stop]; [true] when this call stops the pump. *)
Definition stop_section (d : dispatcher) : option (dispatcher * bool) :=
  if writer d then None else
  if decide (readers d = 0) then
    if running d then Some (set_stopped true (set_running false d), true) else Some (d, false)
  else None.

Definition Stop : prog unit :=
  (stopping <- atomic stop_section ;;
  if stopping : bool then atomic (λ d, if doneC d then Some (d, tt) else None) else Ret tt)%proc.

(** *** How the server endpoint uses the dispatcher (src/ocppj/server.go) *)

(** [ocppMessageHandler] for a response or an error: the pending state is read
    through the pointer [GetClientState] returned; the handler runs only if
    this call won the completion. *)
Definition handle_response (clientID id : string) : prog unit :=
  (l <- atomic (λ d, let '(st, l) := ServerState.GetClientState clientID (pendingRequestState d) in
                     Some (set_pending st d, l)) ;;
  known <- read (λ d, match ServerState.deref l (pendingRequestState d) with
                      | Some s => ClientState.GetPendingRequest id s
                      | None => None
                      end) ;;
  match known with
  | Some _ =>
      won <- CompleteRequest clientID id ;;
      if won : bool then modify (emit [EvDeliver clientID id]) else Ret tt
  | None => Ret tt
  end)%proc.

Definition onClientConnected (clientID : string) : prog unit := CreateClient clientID.

Definition onClientDisconnected (clientID : string) : prog unit :=
  (DeleteClientAndWait clientID ;;
  modify (λ d, set_pending (ServerState.ClearClientPendingRequest clientID (pendingRequestState d)) d))%proc.

(** The environment: a caller cancels its context, a deadline passes. *)
Definition cancel_user (i : nat) (e : error) : prog unit :=
  modify (λ d, set_ctxs (ctx_cancel i e (ctxs d)) d).
Definition deadline_passes (k : ictx) : prog unit :=
  atomic (λ d, if decide (0 < timeout d)%Z then
                 match ictxs d !! k with
                 | Some None =>
                     Some (emit [EvExpired k] (set_ictxs (<[k := Some CtxDeadline]> (ictxs d)) d), tt)
                 | _ => None
                 end
               else None).

End dispatcher.
Arguments dispatcher : clear implicits.
Arguments event : clear implicits.
