(* ===== verification/ServerInvariant.v ===== *)
(** * The server dispatcher's invariant

    Ownership tokens and the invariant that relates the dispatcher's queues and
    log to them, with one lemma per kind of state change.  Compared with the
    client's ([ClientInvariant]) there is a queue per client, behind a pointer
    that a removed client's goroutines may still hold, and the watchers of
    dispatched requests carry what they saw expire ([TExp]).  [Base] holds in
    every environment; [ServerOrder] adds what holds when peers keep to the
    protocol. *)

From S2P Require Import Prelude Conc Ocpp Errors Queue State Message ServerDispatcher.
Local Open Scope string_scope.
Local Open Scope list_scope.

(** Where the pump is. *)
Inductive mode :=
| MFree
| MReq (a : nat)                              (* it received a delete with this acknowledgement *)
| MIdle (c : string)                          (* it saw nothing pending for [c] *)
| MGot (c : string) (q : nat)                 (* and read the pointer of its queue *)
| MFront (c : string) (q : nat) (id : string) (* and this request at the front *)
| MSent (c : string) (q : nat) (id : string)  (* and marked it pending *)
| MDel (c : string) (id : string)             (* and took it back, the write having failed *)
| MLost (c : string)                          (* or could not: the client is gone *)
| MTimeout (k : ictx)                         (* it received the expiry of [k] *)
| MExit.                                      (* it detached the queues to stop *)

(** The client whose queue the pump is working on. *)
Definition busy (m : mode) : option string :=
  match m with MGot c _ | MFront c _ _ | MSent c _ _ | MLost c => Some c | _ => None end.

(** Where a client's session is: connected, its queue removed, waiting for the
    acknowledgement, acknowledged (or not connected yet), or after the stop. *)
Inductive session := SOn | SGone | SWait (a : nat) | SOff | SDead.

Inductive token :=
| TSend (id : string)             (* may be pushed *)
| TNotify (id : string)           (* taken, to be notified *)
| TDel (id : string)              (* taken, pending state to be cleared *)
| TSeen (id : string) (n : nat)   (* seen pending *)
| TExp (k : ictx) (n : nat)       (* seen expired *)
| TSess (c : string) (s : session)
| TMode (m : mode).

#[export] Instance mode_eq_dec : EqDecision mode.
Proof. solve_decision. Defined.
#[export] Instance session_eq_dec : EqDecision session.
Proof. solve_decision. Defined.
#[export] Instance token_eq_dec : EqDecision token.
Proof. solve_decision. Defined.

#[export] Instance mode_countable : Countable mode.
Proof.
  refine (inj_countable'
    (λ m, match m with
          | MFree => (0, "", 0, "", None) | MIdle c => (1, c, 0, "", None) | MGot c q => (2, c, q, "", None)
          | MFront c q id => (3, c, q, id, None) | MSent c q id => (4, c, q, id, None)
          | MTimeout k => (5, "", 0, "", Some k) | MExit => (6, "", 0, "", None) | MReq a => (7, "", a, "", None)
          | MDel c id => (8, c, 0, id, None) | MLost c => (9, c, 0, "", None)
          end)
    (λ x : nat * string * nat * string * option ictx,
       let '(n, c, q, id, k) := x in
       match n, k with
       | 0, _ => MFree | 1, _ => MIdle c | 2, _ => MGot c q | 3, _ => MFront c q id | 4, _ => MSent c q id
       | 5, Some k => MTimeout k | 7, _ => MReq q | 8, _ => MDel c id | 9, _ => MLost c | _, _ => MExit
       end) _); by intros [].
Defined.

#[export] Instance session_countable : Countable session.
Proof.
  refine (inj_countable'
    (λ s, match s with SOn => inl 0 | SGone => inl 1 | SOff => inl 2 | SDead => inl 3 | SWait a => inr a end)
    (λ x : nat + nat, match x with inl 0 => SOn | inl 1 => SGone | inl 2 => SOff | inl _ => SDead | inr a => SWait a end)
    _); by intros [].
Defined.

#[export] Instance token_countable : Countable token.
Proof.
  refine (inj_countable'
    (λ t, match t with
          | TSend id => inl (inl (0, id)) | TNotify id => inl (inl (1, id)) | TDel id => inl (inl (2, id))
          | TSeen id n => inl (inr (id, n)) | TExp k n => inr (inl (inl (k, n)))
          | TSess c b => inr (inl (inr (c, b))) | TMode m => inr (inr m)
          end)
    (λ s : (nat * string + string * nat) + ((ictx * nat + string * session) + mode),
       match s with
       | inl (inl (0, id)) => TSend id | inl (inl (1, id)) => TNotify id | inl (inl (_, id)) => TDel id
       | inl (inr (id, n)) => TSeen id n | inr (inl (inl (k, n))) => TExp k n
       | inr (inl (inr (c, b))) => TSess c b | inr (inr m) => TMode m
       end) _); by intros [].
Defined.

Section invariant.
Context {Request : Type}.
Implicit Types (d : dispatcher Request) (o r : gset token) (id c : string) (q : nat).

(** ** What the log says *)

(** [on k l] lists, in order, what the events of one kind name: the request
    ids (accepted by a queue, taken from it, dropped, marked pending, written,
    written from a queue, written to a client from a queue, notified), or the clients
    a queue was created for. *)
Inductive kind :=
| KAcceptAll | KAccept (q : nat) | KTakeAll | KTake (q : nat) | KDrop | KPending
| KWriteAll | KWrite (q : nat) | KWriteTo (c : string) (q : nat) | KNotify | KCreated (q : nat).

Definition sel (k : kind) (e : event Request) : option string :=
  match k, e with
  | KAcceptAll, EvAccept _ id | KTakeAll, EvTake _ id | KWriteAll, EvWrite _ _ id _ | KDrop, EvDrop id | KPending, EvPending _ id
  | KNotify, EvCancel _ id _ _ | KNotify, EvDeliver _ id => Some id
  | KAccept q, EvAccept q' id | KTake q, EvTake q' id | KWrite q, EvWrite _ q' id _ =>
      if decide (q = q') then Some id else None
  | KWriteTo c q, EvWrite c' q' id _ => if decide (c = c' ∧ q = q') then Some id else None
  | KCreated q, EvCreated c q' => if decide (q = q') then Some c else None
  | _, _ => None
  end.

Definition on (k : kind) (l : list (event Request)) : list string := omap (sel k) l.

(** The expired deadlines, and the requests canceled as timed out. *)
Definition expired (l : list (event Request)) : list ictx :=
  omap (λ e, match e with EvExpired k => Some k | _ => None end) l.
Definition timedout (l : list (event Request)) : list (string * string) :=
  omap (λ e, match e with
             | EvCancel c id _ err => if decide (Marker err = requestTimeoutMarker) then Some (c, id) else None
             | _ => None
             end) l.

Lemma srv_on_app k l1 l2 : on k (l1 ++ l2) = on k l1 ++ on k l2.
Proof. apply omap_app. Qed.
Lemma srv_on_cons k e l : on k (e :: l) = option_list (sel k e) ++ on k l.
Proof. unfold on. simpl. by destruct (sel k e). Qed.
Lemma srv_on_nil k : on k [] = [].
Proof. done. Qed.
Lemma expired_app l1 l2 : expired (l1 ++ l2) = expired l1 ++ expired l2.
Proof. apply omap_app. Qed.
Lemma timedout_app l1 l2 : timedout (l1 ++ l2) = timedout l1 ++ timedout l2.
Proof. apply omap_app. Qed.

(** Events of one kind only. *)
Lemma srv_on_map k (f : string → event Request) (g : bool) l :
  (∀ id, sel k (f id) = if g then Some id else None) → on k (f <$> l) = if g then l else [].
Proof.
  intros Hf. induction l as [|x l IH]; [by destruct g|].
  rewrite fmap_cons, srv_on_cons, Hf, IH. by destruct g.
Qed.
Lemma srv_on_taken_events k q l :
  on k (taken_events q l) =
  match k with
  | KTakeAll => ids l
  | KTake q' => if decide (q' = q) then ids l else []
  | _ => []
  end.
Proof.
  unfold taken_events. destruct k; try (by apply (srv_on_map _ _ false)); [by apply (srv_on_map _ _ true)|].
  simpl. case_decide; [apply (srv_on_map _ _ true)|apply (srv_on_map _ _ false)]; intros; simpl; by case_decide.
Qed.
Lemma on_dropped_events k l :
  on k (dropped_events l) = match k with KDrop => ids (filter (λ el, cancelable el = None) l) | _ => [] end.
Proof. unfold dropped_events. destruct k; (by apply (srv_on_map _ _ false)) || by apply (srv_on_map _ _ true). Qed.
Lemma omap_fmap_nil {A} (g : event Request → option A) (f : string → event Request) l :
  (∀ id, g (f id) = None) → omap g (f <$> l) = [].
Proof. intros Hf. induction l as [|x l IH]; [done|]. simpl. by rewrite Hf. Qed.
Lemma expired_taken q l : expired (taken_events q l) = [].
Proof. by apply omap_fmap_nil. Qed.
Lemma timedout_taken q l : timedout (taken_events q l) = [].
Proof. by apply omap_fmap_nil. Qed.
Lemma expired_dropped l : expired (dropped_events l) = [].
Proof. by apply omap_fmap_nil. Qed.
Lemma timedout_dropped l : timedout (dropped_events l) = [].
Proof. by apply omap_fmap_nil. Qed.

(** The events of one queue among all. *)
Lemma accept_sub q l : on (KAccept q) l `sublist_of` on KAcceptAll l.
Proof.
  induction l as [|e l IH]; [done|]. rewrite !srv_on_cons. apply sublist_app; [|done].
  destruct e; try done. simpl. case_decide; [done|apply sublist_nil_l].
Qed.
Lemma elem_take q id l : id ∈ on (KTake q) l → id ∈ on KTakeAll l.
Proof.
  unfold on. rewrite !list_elem_of_omap. intros (e & He & Hs). exists e. split; [done|].
  destruct e; simpl in *; try done. by case_decide.
Qed.
Lemma elem_take_all id l : id ∈ on KTakeAll l → ∃ q, id ∈ on (KTake q) l.
Proof.
  unfold on. rewrite list_elem_of_omap. intros (e & He & Hs). destruct e as [| | |q id'| | | | | | | |]; simplify_eq/=.
  exists q. apply list_elem_of_omap. exists (EvTake q id). split; [done|]. simpl. by rewrite decide_True.
Qed.
Lemma elem_accept_queue q id l : id ∈ on (KAccept q) l ↔ EvAccept q id ∈ l.
Proof.
  unfold on. rewrite list_elem_of_omap. split.
  - intros (e & He & Hs). destruct e; simplify_eq/=. case_decide; by simplify_eq.
  - intros He. exists (EvAccept q id). split; [done|]. simpl. by rewrite decide_True.
Qed.
Lemma accept_unique q q' id l :
  NoDup (on KAcceptAll l) → id ∈ on (KAccept q) l → id ∈ on (KAccept q') l → q = q'.
Proof.
  rewrite !elem_accept_queue. induction l as [|e l IH]; [by intros _ ?%not_elem_of_nil|].
  rewrite srv_on_cons, !elem_of_cons. intros Hnd [<-|H1] [Heq|H2].
  - by simplify_eq.
  - simpl in Hnd. apply NoDup_cons in Hnd as [Hn _]. destruct Hn.
    apply (sublist_subseteq _ _ (accept_sub q' l)), elem_accept_queue. done.
  - subst e. simpl in Hnd. apply NoDup_cons in Hnd as [Hn _]. destruct Hn.
    apply (sublist_subseteq _ _ (accept_sub q l)), elem_accept_queue. done.
  - apply IH; [|done..]. by apply NoDup_app in Hnd as (_ & _ & ?).
Qed.
Lemma elem_write q id l : id ∈ on (KWrite q) l ↔ ∃ c, id ∈ on (KWriteTo c q) l.
Proof.
  unfold on. setoid_rewrite list_elem_of_omap. split.
  - intros (e & He & Hs). destruct e as [| | | | | |c' q' id' data| | | | |]; simplify_eq/=. case_decide; simplify_eq.
    exists c', (EvWrite c' q' id data). split; [done|]. simpl. by rewrite decide_True.
  - intros (c' & e & He & Hs). exists e. split; [done|]. destruct e; simplify_eq/=.
    case_decide as Hd; [|done]. destruct Hd as [-> ->]. by rewrite decide_True.
Qed.

(** The requests in a queue. *)
Abbreviation queues := (QueueMap.FIFOQueueMap (element Request)).
Implicit Types (f : queues) (l : list (event Request)).

Definition queued q f : list string :=
  match QueueMap.deref q f with Some x => ids (FIFO.elements x) | None => [] end.

Definition mode_base (m : mode) l : Prop :=
  match m with
  | MGot c q | MFront c q _ | MSent c q _ => c ∈ on (KCreated q) l
  | MTimeout k => k ∈ expired l
  | _ => True
  end.

Record Base d o : Prop := mkBase {
  v_wf : QueueMap.wf (queueMap d);
  v_created : ∀ c q, QueueMap.Get c (queueMap d) = Some q → c ∈ on (KCreated q) (log d);
  v_bound : ∀ c q, c ∈ on (KCreated q) (log d) → q < QueueMap.qnext (queueMap d);
  v_owner : ∀ c c' q, c ∈ on (KCreated q) (log d) → c' ∈ on (KCreated q) (log d) → c = c';
  v_flow : ∀ q, on (KAccept q) (log d) = on (KTake q) (log d) ++ queued q (queueMap d);
  v_nodup : NoDup (on KAcceptAll (log d));
  v_names : "" ∉ on KAcceptAll (log d);
  v_new : ∀ id, TSend id ∈ o → id ≠ "" ∧ id ∉ on KAcceptAll (log d);
  v_once : NoDup (on KNotify (log d));
  v_notified : ∀ id, id ∈ on KNotify (log d) → id ∈ on KTakeAll (log d);
  v_notify : ∀ id, TNotify id ∈ o → id ∈ on KTakeAll (log d) ∧ id ∉ on KNotify (log d);
  v_outcome : onRequestCancel d = true → ∀ id, id ∈ on KTakeAll (log d) →
    id ∈ on KNotify (log d) ∨ id ∈ on KDrop (log d) ∨ TNotify id ∈ o;
  v_del : ∀ id, TDel id ∈ o → id ∈ on KTakeAll (log d);
  v_route : ∀ c q id, id ∈ on (KWriteTo c q) (log d) → c ∈ on (KCreated q) (log d);
  v_exp : ∀ k n, TExp k n ∈ o → k ∈ expired (log d);
  v_ictx : ∀ k, ictxs d !! k = Some (Some CtxDeadline) → k ∈ expired (log d);
  v_timer : ∀ t, t ∈ timerC d → tt_clientID t = ix_client (tt_ctx t) ∧ tt_ctx t ∈ expired (log d);
  v_timeout : ∀ x, x ∈ timedout (log d) →
    ∃ k, k ∈ expired (log d) ∧ ix_client k = x.1 ∧ ix_request k = x.2;
  v_mode1 : ∀ m m', TMode m ∈ o → TMode m' ∈ o → m = m';
  v_mode : ∀ m, TMode m ∈ o → mode_base m (log d)
}.

(** A resting goroutine owes nothing. *)
Definition Rest o : Prop := ∀ id, (TDel id ∉ o) ∧ (TNotify id ∉ o).

(** ** Changes [Base] does not see *)

Definition same_base d d' : Prop :=
  queueMap d' = queueMap d ∧ timerC d' = timerC d ∧ onRequestCancel d' = onRequestCancel d ∧
  ictxs d' = ictxs d ∧ log d' = log d.

Lemma Base_core d d' o : same_base d d' → Base d o → Base d' o.
Proof.
  destruct d, d'. unfold same_base. simpl. intros (-> & -> & -> & -> & ->) [].
  constructor; assumption.
Qed.

(** Events of no kind. *)
Definition silent (evs : list (event Request)) : Prop :=
  (∀ k, on k evs = []) ∧ expired evs = [] ∧ timedout evs = [].
End invariant.

Ltac base_open H :=
  destruct H as [Hwf Hcreated Hbound Howner Hflow Hnodup Hnames Hnew Honce Hnotified Hnotify Houtcome
    Hdel Hroute Hexp Hictx Htimer Htimeout Hmode1 Hmode].

(** The fields after a change, with the log split into its old and new part. *)
Ltac log_simpl :=
  cbn [emit set_queueMap set_requests set_ready set_pending set_timerC set_cancelC set_running set_stopped
       set_done set_readers set_ctxs set_ictxs set_acks set_serial store_queue remove_queue
       queueMap pendingRequestState timerC onRequestCancel ictxs log requestChannel running stoppedC doneC
       acks serial waitsExpire];
  rewrite ?srv_on_app, ?expired_app, ?timedout_app.

Ltac class_eq Ho := intros; rewrite Ho; clear; intuition congruence.
Ltac classes o o' Ho :=
  try assert (Hs : ∀ id, TSend id ∈ o' ↔ TSend id ∈ o) by class_eq Ho;
  try assert (Hn : ∀ id, TNotify id ∈ o' ↔ TNotify id ∈ o) by class_eq Ho;
  try assert (Hd : ∀ id, TDel id ∈ o' ↔ TDel id ∈ o) by class_eq Ho;
  try assert (He : ∀ id n, TSeen id n ∈ o' ↔ TSeen id n ∈ o) by class_eq Ho;
  try assert (Hx : ∀ k n, TExp k n ∈ o' ↔ TExp k n ∈ o) by class_eq Ho;
  try assert (Hc : ∀ c b, TSess c b ∈ o' ↔ TSess c b ∈ o) by class_eq Ho;
  try assert (Hm : ∀ m, TMode m ∈ o' ↔ TMode m ∈ o) by class_eq Ho.
Ltac by_class :=
  repeat match goal with
  | H : ∀ id, TSend id ∈ ?o' ↔ _ |- context [TSend _ ∈ ?o'] => progress setoid_rewrite H
  | H : ∀ id, TNotify id ∈ ?o' ↔ _ |- context [TNotify _ ∈ ?o'] => progress setoid_rewrite H
  | H : ∀ id, TDel id ∈ ?o' ↔ _ |- context [TDel _ ∈ ?o'] => progress setoid_rewrite H
  | H : ∀ id n, TSeen id n ∈ ?o' ↔ _ |- context [TSeen _ _ ∈ ?o'] => progress setoid_rewrite H
  | H : ∀ k n, TExp k n ∈ ?o' ↔ _ |- context [TExp _ _ ∈ ?o'] => progress setoid_rewrite H
  | H : ∀ c b, TSess c b ∈ ?o' ↔ _ |- context [TSess _ _ ∈ ?o'] => progress setoid_rewrite H
  | H : ∀ m, TMode m ∈ ?o' ↔ _ |- context [TMode _ ∈ ?o'] => progress setoid_rewrite H
  end.
Ltac carry := constructor; log_simpl; try assumption; by_class; try assumption.
Ltac split_log := intros *; rewrite ?srv_on_app, ?expired_app, ?timedout_app, ?srv_on_taken_events, ?on_dropped_events,
  ?expired_taken, ?timedout_taken, ?expired_dropped, ?timedout_dropped, ?app_nil_r.
(** The fields a change of the log leaves alone are closed. *)
Ltac carry_log :=
  carry; split_log; cbn [on omap sel list_omap expired timedout]; rewrite ?app_nil_r; try solve [eauto 3].

Section changes.
Context {Request : Type}.
Implicit Types (d : dispatcher Request) (o r : gset token) (id c : string) (q : nat).
Implicit Types (f : QueueMap.FIFOQueueMap (element Request)) (l : list (event Request)).

Lemma mode_base_app m l evs : mode_base m l → mode_base m (l ++ evs).
Proof. destruct m; simpl; rewrite ?srv_on_app, ?expired_app, ?elem_of_app; auto. Qed.

Lemma Base_silent d o evs : silent evs → Base d o → Base (emit evs d) o.
Proof.
  intros Hs HI. base_open HI. destruct Hs as (Hon & Hex & Hti).
  constructor; log_simpl; rewrite ?Hon, ?Hex, ?Hti, ?app_nil_r; try assumption.
  all: try (intros *; rewrite ?srv_on_app, ?expired_app, ?timedout_app, ?Hon, ?Hex, ?Hti, ?app_nil_r; eauto).
  auto using mode_base_app.
Qed.

(** ** Tokens that only promise something *)

(** [Base] says nothing about these. *)
Definition unseen (t : token) : Prop :=
  match t with TSeen _ _ | TSess _ _ => True | _ => False end.

Lemma Base_unseen d o o' : Base d o → (∀ t, t ∈ o' → t ∈ o ∨ unseen t) →
  (∀ id, TNotify id ∈ o → TNotify id ∈ o') → Base d o'.
Proof.
  intros HI Ho Hn. assert (Hin : ∀ t, t ∈ o' → ¬ unseen t → t ∈ o) by (intros t Ht Hu; by destruct (Ho t Ht)).
  base_open HI. constructor; try assumption; eauto 6.
  intros Hcb id Hi. destruct (Houtcome Hcb id Hi) as [?|[?|?]]; auto.
Qed.

Lemma Base_mode d o o' m m' :
  Base d o → TMode m ∈ o → (∀ t, t ∈ o' ↔ (t ∈ o ∧ t ≠ TMode m) ∨ t = TMode m') →
  mode_base m' (log d) → Base d o'.
Proof.
  intros HI Hin Ho Hok. base_open HI. classes o o' Ho.
  assert (Hm : ∀ m'', TMode m'' ∈ o' ↔ m'' = m').
  { intros m''. rewrite Ho. split; [|by intros ->; right]. intros [[Hi Hne]|Heq]; [|congruence].
    by rewrite (Hmode1 m m'' Hin Hi) in Hne. }
  carry; [by intros ?? -> ->|by intros ? ->].
Qed.

Lemma Base_exp d o o' k n :
  Base d o → (∀ t, t ∈ o' ↔ t ∈ o ∨ t = TExp k n) → k ∈ expired (log d) → Base d o'.
Proof.
  intros HI Ho Hk. base_open HI. classes o o' Ho. carry.
  intros k' n'. rewrite Ho. intros [?|?]; [eauto|]. by simplify_eq.
Qed.

Lemma srv_fresh_seen id o : ∃ n, TSeen id n ∉ o.
Proof.
  set (ns := set_omap (λ t, match t with TSeen _ n => Some n | _ => None end) o : gset nat).
  exists (fresh ns). intros Hin. apply (is_fresh ns). subst ns. apply elem_of_set_omap. eauto.
Qed.
Lemma fresh_exp k o : ∃ n, TExp k n ∉ o.
Proof.
  set (ns := set_omap (λ t, match t with TExp _ n => Some n | _ => None end) o : gset nat).
  exists (fresh ns). intros Hin. apply (is_fresh ns). subst ns. apply elem_of_set_omap. eauto.
Qed.

(** ** The queues *)

Lemma queued_store q q' x f :
  queued q' (QueueMap.store q x f) = if decide (q = q') then ids (FIFO.elements x) else queued q' f.
Proof. unfold queued, QueueMap.deref. simpl. rewrite lookup_insert. by case_decide. Qed.

Lemma queued_accepted d o q id : Base d o → id ∈ queued q (queueMap d) →
  id ∈ on (KAccept q) (log d) ∧ id ∈ on KAcceptAll (log d) ∧ id ∉ on KTakeAll (log d).
Proof.
  intros HI Hin.
  assert (Ha : id ∈ on (KAccept q) (log d)) by (rewrite (v_flow _ _ HI); set_solver).
  split; [done|]. split; [by apply (sublist_subseteq _ _ (accept_sub q (log d)))|].
  intros Ht. destruct (elem_take_all _ _ Ht) as [q' Hq'].
  assert (q' = q) as ->.
  { apply (accept_unique _ _ id (log d) (v_nodup _ _ HI)); [|done]. rewrite (v_flow _ _ HI). set_solver. }
  pose proof (sublist_NoDup _ _ (v_nodup _ _ HI) (accept_sub q (log d))) as Hnd.
  rewrite (v_flow _ _ HI), NoDup_app in Hnd. destruct Hnd as (_ & Hdis & _). by apply (Hdis id).
Qed.

Lemma queued_unique d o q q' id : Base d o →
  id ∈ queued q (queueMap d) → id ∈ queued q' (queueMap d) → q = q'.
Proof.
  intros HI H1 H2. apply (accept_unique _ _ id (log d) (v_nodup _ _ HI));
    eapply (queued_accepted d o _ _ HI); done.
Qed.

Lemma queued_NoDup d o q : Base d o → NoDup (queued q (queueMap d)).
Proof.
  intros HI. pose proof (sublist_NoDup _ _ (v_nodup _ _ HI) (accept_sub q (log d))) as Hnd.
  rewrite (v_flow _ _ HI), NoDup_app in Hnd. by destruct Hnd as (_ & _ & ?).
Qed.

(** A sender pushes its request. *)
Lemma Base_push d o o' q id x x' :
  Base d o → TSend id ∈ o → QueueMap.deref q (queueMap d) = Some x →
  ids (FIFO.elements x') = queued q (queueMap d) ++ [id] →
  (∀ t, t ∈ o' ↔ t ∈ o ∧ t ≠ TSend id) →
  Base (emit [EvAccept q id] (store_queue q x' d)) o'.
Proof.
  intros HI Hin Hq Hids Ho.
  base_open HI. classes o o' Ho.
  assert (Hs : ∀ id', TSend id' ∈ o' ↔ TSend id' ∈ o ∧ id' ≠ id) by class_eq Ho.
  destruct (Hnew id Hin) as [Hne Hfresh].
  carry_log.
  - apply QueueMap.store_wf; [done|]. apply Hwf. eauto.
  - rewrite queued_store, Hflow. repeat case_decide; subst; try congruence; simpl; rewrite ?app_nil_r; [|done].
    by rewrite Hids, app_assoc.
  - by rewrite NoDup_snoc.
  - rewrite elem_of_snoc. intuition.
  - intros [Hi Hid]. rewrite elem_of_snoc. destruct (Hnew _ Hi). split; [done|]. by intros [?|?].
  - eauto using mode_base_app.
Qed.

(** The front request leaves its queue. *)
Lemma Base_pop d o o' q id x x' :
  Base d o → QueueMap.deref q (queueMap d) = Some x → queued q (queueMap d) = id :: ids (FIFO.elements x') →
  (∀ t, t ∈ o' ↔ t ∈ o ∨ t = TDel id ∨ t = TNotify id) →
  Base (emit [EvTake q id] (store_queue q x' d)) o' ∧ (TDel id ∉ o) ∧ (TNotify id ∉ o).
Proof.
  intros HI Hq Hids Ho.
  pose proof (queued_accepted d o q id HI ltac:(rewrite Hids; left)) as (_ & Hacc & Hnt).
  base_open HI. classes o o' Ho.
  assert (Hn : ∀ id', TNotify id' ∈ o' ↔ TNotify id' ∈ o ∨ id' = id) by class_eq Ho.
  assert (Hd : ∀ id', TDel id' ∈ o' ↔ TDel id' ∈ o ∨ id' = id) by class_eq Ho.
  split; [|split; [intros Hi; by apply Hnt, Hdel|intros Hi; by destruct (Hnotify _ Hi)]].
  carry_log.
  - apply QueueMap.store_wf; [done|]. apply Hwf. eauto.
  - rewrite queued_store, Hflow. repeat case_decide; subst; try congruence; simpl; rewrite ?app_nil_r; [|done].
    by rewrite <-app_assoc, Hids.
  - intros Hi. rewrite elem_of_snoc. auto.
  - rewrite elem_of_snoc. intros [Hi| ->]; [destruct (Hnotify _ Hi); auto|auto].
  - intros Hcb id'. rewrite elem_of_snoc. intros [Hi| ->]; [|auto]. destruct (Houtcome Hcb _ Hi) as [?|[?|?]]; auto.
  - rewrite elem_of_snoc. intros [Hi| ->]; auto.
  - eauto using mode_base_app.
Qed.

(** The goroutine that took a request has cleared the client's pending state. *)
Lemma Base_del d o o' id : Base d o → (∀ t, t ∈ o' ↔ t ∈ o ∧ t ≠ TDel id) → Base d o'.
Proof.
  intros HI Ho. base_open HI. classes o o' Ho.
  assert (Hd : ∀ id', TDel id' ∈ o' ↔ TDel id' ∈ o ∧ id' ≠ id) by class_eq Ho.
  carry. intros id' [Hi _]. eauto.
Qed.

(** The goroutine that took a request notifies its outcome. *)
Lemma Base_notify d o o' id evs :
  Base d o → TNotify id ∈ o → (∀ t, t ∈ o' ↔ t ∈ o ∧ t ≠ TNotify id) →
  (∀ k, on k evs = match k with KNotify => [id] | _ => [] end) → expired evs = [] →
  (∀ x, x ∈ timedout evs → ∃ k, k ∈ expired (log d) ∧ ix_client k = x.1 ∧ ix_request k = x.2) →
  Base (emit evs d) o'.
Proof.
  intros HI Hin Ho Hev Hexv Htov. base_open HI. classes o o' Ho.
  assert (Hn : ∀ id', TNotify id' ∈ o' ↔ TNotify id' ∈ o ∧ id' ≠ id) by class_eq Ho.
  destruct (Hnotify id Hin) as [Htk Hnn].
  constructor; log_simpl; try assumption; by_class; intros *;
    rewrite ?srv_on_app, ?expired_app, ?timedout_app, ?Hev, ?Hexv, ?app_nil_r; try solve [eauto 3].
  - by rewrite NoDup_snoc.
  - rewrite elem_of_snoc. intros [?| ->]; auto.
  - intros [Hi Hne]. destruct (Hnotify _ Hi). rewrite elem_of_snoc. split; [done|]. by intros [?|?].
  - intros Hcb id' Hi. rewrite elem_of_snoc.
    destruct (Houtcome Hcb id' Hi) as [?|[?|?]]; auto. destruct (decide (id' = id)); auto.
  - rewrite elem_of_app. intros [?|?]; auto.
  - eauto using mode_base_app.
Qed.

Lemma Base_unnotify d o o' id :
  Base d o → onRequestCancel d = false → (∀ t, t ∈ o' ↔ t ∈ o ∧ t ≠ TNotify id) → Base d o'.
Proof.
  intros HI Hcb Ho. base_open HI. classes o o' Ho.
  assert (Hn : ∀ id', TNotify id' ∈ o' ↔ TNotify id' ∈ o ∧ id' ≠ id) by class_eq Ho.
  carry; [|congruence]. intros id' [Hi _]. eauto.
Qed.

(** A request is marked pending, then written. *)
Lemma Base_add d o c id st : Base d o → Base (emit [EvPending c id] (set_pending st d)) o.
Proof. intros HI. base_open HI. carry_log. eauto using mode_base_app. Qed.

Lemma Base_write d o c q id data :
  Base d o → c ∈ on (KCreated q) (log d) → Base (emit [EvWrite c q id data] d) o.
Proof.
  intros HI Hcr. base_open HI. carry_log.
  - intros Hi. rewrite elem_of_app in Hi. destruct Hi as [?|Hi]; [eauto|].
    case_decide as Hd; [|by apply not_elem_of_nil in Hi]. by destruct Hd as [-> ->].
  - eauto using mode_base_app.
Qed.

(** ** Sessions *)

Lemma queued_create c f f' q : QueueMap.wf f → QueueMap.GetOrCreate c f = Some (f', q) →
  ∀ q', queued q' f' = queued q' f.
Proof.
  intros (Hh & _) Hg q'. unfold QueueMap.GetOrCreate in Hg.
  destruct (QueueMap.data f !! c); [by simplify_eq|].
  destruct (FIFO.NewFIFOClientQueue _) as [x|] eqn:Hx; simplify_eq.
  assert (Hel : FIFO.elements x = []).
  { unfold FIFO.NewFIFOClientQueue in Hx. by case_match; simplify_eq. }
  unfold queued, QueueMap.deref. simpl. rewrite lookup_insert. case_decide; [|done]. subst.
  rewrite Hel. destruct (QueueMap.qheap f !! _) eqn:Hq; [|done].
  assert (QueueMap.qnext f < QueueMap.qnext f) by (apply Hh; eauto). lia.
Qed.

(** What [GetOrCreate] does when there is no queue yet. *)
Lemma create_shape c f f' q : QueueMap.Get c f = None → QueueMap.GetOrCreate c f = Some (f', q) →
  q = QueueMap.qnext f ∧ QueueMap.qnext f' = S q ∧
  ∀ c', QueueMap.Get c' f' = if decide (c = c') then Some q else QueueMap.Get c' f.
Proof.
  unfold QueueMap.GetOrCreate, QueueMap.Get. intros Hnone Hg. rewrite Hnone in Hg.
  destruct (FIFO.NewFIFOClientQueue _); simplify_eq. do 2 (split; [done|]).
  intros c'. simpl. apply lookup_insert.
Qed.

Lemma on_created c q q' : on (KCreated q') [EvCreated (Request:=Request) c q] = if decide (q' = q) then [c] else [].
Proof. unfold on. simpl. by case_decide. Qed.

Lemma Base_create d o c f q :
  Base d o → QueueMap.Get c (queueMap d) = None → QueueMap.GetOrCreate c (queueMap d) = Some (f, q) →
  Base (emit [EvCreated c q] (set_queueMap f d)) o.
Proof.
  intros HI Hnone Hg. base_open HI.
  pose proof (queued_create c _ _ _ Hwf Hg) as Hqd.
  destruct (create_shape _ _ _ _ Hnone Hg) as (Hq & Hnx & Hget).
  assert (Hfresh : ∀ c', c' ∉ on (KCreated q) (log d)) by (intros c' Hi; apply Hbound in Hi; lia).
  assert (Hcre : ∀ c' q', c' ∈ on (KCreated q') (log d ++ [EvCreated c q]) ↔
                          c' ∈ on (KCreated q') (log d) ∨ (q' = q ∧ c' = c)).
  { intros c' q'. rewrite srv_on_app, on_created, elem_of_app. case_decide; set_solver. }
  constructor; cbn [emit set_queueMap queueMap timerC onRequestCancel ictxs log]; intros *;
    rewrite ?Hcre, ?Hqd; rewrite ?srv_on_app, ?expired_app, ?timedout_app; cbn [on omap sel list_omap expired timedout];
    rewrite ?app_nil_r; try assumption; try solve [eauto 3].
  - by eapply QueueMap.GetOrCreate_wf.
  - rewrite Hget. case_decide; [intros; simplify_eq; auto|auto].
  - intros [Hi|[-> ->]]; [apply Hbound in Hi|]; lia.
  - intros [H1|[-> ->]] [H2|[? ->]]; subst; try (by destruct (Hfresh c')); try (by destruct (Hfresh c0)); eauto.
  - eauto using mode_base_app.
Qed.

Lemma Base_remove d o c : Base d o → Base (remove_queue c d) o.
Proof.
  intros HI. base_open HI. constructor; try assumption; log_simpl.
  - by apply QueueMap.Remove_wf.
  - intros c' q. unfold QueueMap.Get. simpl. intros Hl%lookup_delete_Some. by apply Hcreated, Hl.
Qed.

(** ** The stop drain *)

Lemma Base_detach d o : Base d o → Base (set_queueMap (QueueMap.DrainAll (queueMap d)).1 d) o.
Proof.
  intros HI. base_open HI. carry.
  - by apply QueueMap.DrainAll_map_wf.
  - intros c q. unfold QueueMap.Get. simpl. by rewrite lookup_empty.
Qed.

(** The ids of the bundles the stop arm cancels. *)
Definition cancel_ids (els : list (element Request)) : list string := omap (λ el, UniqueId <$> cancelable el) els.

Lemma cancelable_call el (k : Call Request) : cancelable el = Some k → elem_call el = Some k.
Proof. unfold cancelable. by repeat case_match. Qed.

Lemma ids_split els id : id ∈ ids els ↔
  id ∈ ids (filter (λ el, cancelable el = None) els) ∨ id ∈ cancel_ids els.
Proof.
  unfold ids, cancel_ids. rewrite !list_elem_of_omap. setoid_rewrite list_elem_of_filter.
  split.
  - intros (el & He & Hid). destruct (cancelable el) as [c|] eqn:Hc; [right|left]; exists el; [|eauto].
    split; [done|]. rewrite Hc. unfold elem_id in Hid. by rewrite (cancelable_call _ _ Hc) in Hid.
  - intros [(el & [_ He] & Hid)|(el & He & Hid)]; [eauto|]. exists el. split; [done|].
    destruct (cancelable el) as [c|] eqn:Hc; [|done]. unfold elem_id. by rewrite (cancelable_call _ _ Hc).
Qed.

Lemma Base_drainq d o o' q x x' :
  Base d o → QueueMap.deref q (queueMap d) = Some x → FIFO.elements x' = [] →
  (∀ t, t ∈ o' ↔ t ∈ o ∨ ∃ id, id ∈ cancel_ids (FIFO.elements x) ∧ t = TNotify id) →
  Base (emit (taken_events q (FIFO.elements x) ++ dropped_events (FIFO.elements x)) (store_queue q x' d)) o' ∧
  ∀ id, id ∈ cancel_ids (FIFO.elements x) → TNotify id ∉ o.
Proof.
  intros HI Hq Hx' Ho. set (els := FIFO.elements x) in *.
  assert (Hqq : queued q (queueMap d) = ids els) by (unfold queued; by rewrite Hq).
  assert (Hnt : ∀ id, id ∈ ids els → id ∉ on KTakeAll (log d)).
  { intros id Hi. apply (queued_accepted d o q id HI). by rewrite Hqq. }
  base_open HI.
  assert (Hs : ∀ id, TSend id ∈ o' ↔ TSend id ∈ o) by (intros; rewrite Ho; naive_solver).
  assert (Hd : ∀ id, TDel id ∈ o' ↔ TDel id ∈ o) by (intros; rewrite Ho; naive_solver).
  assert (Hxx : ∀ k n, TExp k n ∈ o' ↔ TExp k n ∈ o) by (intros; rewrite Ho; naive_solver).
  assert (Hm : ∀ m, TMode m ∈ o' ↔ TMode m ∈ o) by (intros; rewrite Ho; naive_solver).
  assert (Hn : ∀ id, TNotify id ∈ o' ↔ TNotify id ∈ o ∨ id ∈ cancel_ids els) by (intros; rewrite Ho; naive_solver).
  assert (Hci : ∀ id, id ∈ cancel_ids els → id ∈ ids els) by (intros; apply ids_split; auto).
  split; [|intros id Hi%Hci Hno; by destruct (Hnt id Hi); apply Hnotify].
  carry; split_log; rewrite ?srv_on_taken_events, ?on_dropped_events, ?app_nil_r; cbn [app];
    rewrite ?app_nil_r; try solve [eauto 3].
  - apply QueueMap.store_wf; [done|]. apply Hwf. eauto.
  - rewrite queued_store, Hx', Hflow. repeat case_decide; subst; try congruence; simpl; rewrite ?app_nil_r; [|done].
    by rewrite Hqq.
  - intros Hi. rewrite elem_of_app. auto.
  - rewrite elem_of_app. intros [Hi|Hi]; [destruct (Hnotify _ Hi); auto|]. apply Hci in Hi as Hi'.
    split; [auto|]. intros Hno. by destruct (Hnt _ Hi'); auto.
  - intros Hcb id. rewrite !elem_of_app, ids_split. intros [Hi|[Hi|Hi]]; [|auto..].
    destruct (Houtcome Hcb _ Hi) as [?|[?|?]]; auto.
  - intros Hi. rewrite elem_of_app. auto.
  - eauto using mode_base_app.
Qed.

(** ** Deadlines *)

Lemma Base_timerC d o ts :
  Base d o → (∀ t, t ∈ ts → tt_clientID t = ix_client (tt_ctx t) ∧ tt_ctx t ∈ expired (log d)) →
  Base (set_timerC ts d) o.
Proof. intros HI Ht. base_open HI. carry. Qed.

Lemma Base_ictxs d o m :
  Base d o → (∀ k, m !! k = Some (Some CtxDeadline) → k ∈ expired (log d)) → Base (set_ictxs m d) o.
Proof. intros HI Hk. base_open HI. carry. Qed.

Lemma Base_cancel_ictx d o k : Base d o → Base (cancel_ictx k d) o.
Proof.
  intros HI. unfold cancel_ictx. destruct (ictxs d !! k) as [[e|]|] eqn:Hk; [done| |done].
  apply Base_ictxs; [done|]. intros k'. rewrite lookup_insert. case_decide; [done|]. apply (v_ictx _ _ HI).
Qed.

Lemma Base_expire d o k :
  Base d o → Base (emit [EvExpired k] (set_ictxs (<[k := Some CtxDeadline]> (ictxs d)) d)) o.
Proof.
  intros HI. base_open HI. carry_log.
  - intros Hi. apply elem_of_snoc. eauto.
  - rewrite lookup_insert. intros Hk. apply elem_of_snoc. case_decide; subst; eauto.
  - intros Ht. destruct (Htimer _ Ht). rewrite elem_of_snoc. auto.
  - intros Hx. destruct (Htimeout _ Hx) as (k' & ? & ? & ?). exists k'. rewrite elem_of_snoc. auto.
  - eauto using mode_base_app.
Qed.
End changes.
