(* ===== verification/ServerOrder.v ===== *)
(** * The order of requests, when peers keep to the protocol

    [Ord] extends [ServerInvariant.Base] for an environment in which peers
    answer only requests that were written to them and the two seconds
    [DeleteClientAndWait] waits are enough.  It relates the pending request of
    a client, the front of its queue, where the pump is and where the client's
    session is: a session that was acknowledged knows that the pump no longer
    works on its queue, so a queue made for the next session is never written
    to by a pump that still serves the last one.

    [Inv strict] is [Base] together with, when [strict] is set, [Ord]. *)

From S2P Require Import Prelude Conc Ocpp Errors Queue State Message ServerDispatcher ServerInvariant.
Local Open Scope string_scope.
Local Open Scope list_scope.

Section order.
Context {Request : Type}.
Implicit Types (d : dispatcher Request) (o r : gset token) (id c : string) (q : nat).
Implicit Types (f : QueueMap.FIFOQueueMap (element Request)) (l : list (event Request)).
Implicit Types st : ServerState.serverState Request.

(** ** The pending request of a client *)

Definition pid c (st : ServerState.serverState Request) : string :=
  match ServerState.client c st with Some s => ClientState.requestID s | None => "" end.

Lemma pid_other p c st : ServerState.wf st → ¬ ServerState.touches p c → pid c (ServerState.apply p st) = pid c st.
Proof. intros Hwf Ht. unfold pid. by rewrite ServerState.apply_other. Qed.

Lemma pid_delete c id st : ServerState.wf st →
  pid c (ServerState.DeletePendingRequest c id st) = if decide (pid c st = id) then "" else pid c st.
Proof.
  intros (Hn & Hp & _). unfold ServerState.DeletePendingRequest, pid, ServerState.client, ServerState.update.
  destruct (ServerState.pendingRequestState st !! c) as [l|] eqn:Hc; simpl; rewrite Hc; simpl; [|by case_decide].
  destruct (Hp c l Hc) as [s Hs]. rewrite lookup_alter_eq, Hs. simpl.
  unfold ClientState.DeletePendingRequest. case_decide; simpl; case_decide; congruence.
Qed.

Lemma pid_getOrCreate c c' st : ServerState.wf st → pid c' (ServerState.getOrCreateState c st).1 = pid c' st.
Proof.
  intros Hwf. destruct (decide (c = c')) as [<-|Hne];
    [|unfold pid; by rewrite ServerState.getOrCreateState_other].
  unfold pid, ServerState.getOrCreateState, ServerState.client.
  destruct (ServerState.pendingRequestState st !! c) eqn:Hc; simpl; [by rewrite Hc|].
  rewrite lookup_insert_eq. simpl. by rewrite lookup_insert_eq.
Qed.

Lemma pid_get c c' st : ServerState.wf st → pid c' (ServerState.GetClientState c st).1 = pid c' st.
Proof.
  intros Hwf. unfold ServerState.GetClientState. destruct (_ !! c); [done|]. by apply pid_getOrCreate.
Qed.

Lemma pid_add c id (req : option Request) st : ServerState.wf st → id ≠ "" → pid c st = "" →
  pid c (ServerState.AddPendingRequest c id req st) = id.
Proof.
  intros Hwf Hne Hp. rewrite <-(pid_getOrCreate c c st Hwf) in Hp.
  unfold ServerState.AddPendingRequest. pose proof (ServerState.getOrCreateState_wf c st Hwf) as Hwf'.
  pose proof (ServerState.getOrCreateState_loc c st) as Hl.
  destruct (ServerState.getOrCreateState c st) as [st' l]. simpl in *.
  destruct Hwf' as (_ & Hh & _). destruct (Hh c l Hl) as [s Hs].
  unfold pid, ServerState.client, ServerState.update in *. simpl. rewrite Hl in *. simpl in *.
  rewrite lookup_alter_eq, Hs in *. simpl in *. unfold ClientState.AddPendingRequest.
  by rewrite decide_True by (by split).
Qed.

Lemma pid_clear c st : pid c (ServerState.ClearClientPendingRequest c st) = "".
Proof. unfold pid, ServerState.client. simpl. by rewrite lookup_delete_eq. Qed.

Lemma pid_has c st : ServerState.HasPendingRequest c st = false → pid c st = "".
Proof.
  unfold ServerState.HasPendingRequest, pid. destruct (ServerState.client c st); [|done].
  apply ClientState.HasPendingRequest_false.
Qed.

(** ** The invariant *)

Definition mode_ord (m : mode) d : Prop :=
  let f := queueMap d in let p := λ c, pid c (pendingRequestState d) in let l := log d in
  match m with
  | MFree | MExit | MTimeout _ => True
  | MReq a => a < serial d
  | MIdle c => p c = ""
  | MGot c q => p c = "" ∧ (QueueMap.Get c f = Some q ∨ QueueMap.Get c f = None) ∧
      ∀ id, id ∈ queued q f → id ∉ on KPending l
  | MFront c q id => p c = "" ∧ (QueueMap.Get c f = Some q ∨ QueueMap.Get c f = None) ∧
      head (queued q f) = Some id ∧ ∀ id, id ∈ queued q f → id ∉ on KPending l
  | MSent c q id => (p c = id ∨ p c = "") ∧ (QueueMap.Get c f = Some q ∨ QueueMap.Get c f = None) ∧
      head (queued q f) = Some id ∧ id ∈ on KPending l ∧ id ∉ on KWriteAll l ∧
      (on (KWrite q) l ++ [id]) `sublist_of` on (KAccept q) l
  | MDel c id => p c = id ∨ p c = ""
  | MLost c => QueueMap.Get c f = None
  end.

(** No pump works on the queue of [c]. *)
Definition quiet c o : Prop := ∀ m, TMode m ∈ o → busy m ≠ Some c.

Definition session_ok c (s : session) d o : Prop :=
  match s with
  | SOn => True
  | SGone => QueueMap.Get c (queueMap d) = None
  | SWait a => QueueMap.Get c (queueMap d) = None ∧ a < serial d ∧ (a ∈ acks d → quiet c o)
  | SOff => QueueMap.Get c (queueMap d) = None ∧ quiet c o
  | SDead => QueueMap.Get c (queueMap d) = None ∧ running d = false
  end.

(** The queue holds nothing but requests. *)
Definition named q f : Prop :=
  ∀ x e, QueueMap.deref q f = Some x → e ∈ FIFO.elements x → is_Some (elem_id e).

Record Ord d o : Prop := mkOrd {
  o_env : waitsExpire d = false;
  o_swf : ServerState.wf (pendingRequestState d);
  o_elems : ∀ q, named q (queueMap d);
  o_added : ∀ id, id ∈ on KPending (log d) → id ∈ on KAcceptAll (log d);
  o_front : ∀ q id, id ∈ queued q (queueMap d) → id ∈ on KPending (log d) →
    head (queued q (queueMap d)) = Some id;
  o_pending : TMode MExit ∈ o ∨
    ∀ c q id, QueueMap.Get c (queueMap d) = Some q → id ∈ queued q (queueMap d) →
    id ∈ on KPending (log d) → pid c (pendingRequestState d) = id;
  o_written : ∀ q id, id ∈ on (KWrite q) (log d) → id ∈ on KPending (log d);
  o_order : ∀ q, on (KWrite q) (log d) `sublist_of` on (KAccept q) (log d);
  o_seen : ∀ id n, TSeen id n ∈ o → id ∈ on KWriteAll (log d);
  o_acks : ∀ a, a ∈ acks d → a < serial d;
  o_reqs : ∀ req a, req ∈ requestChannel d → dr_deleteAck req = Some a → a < serial d;
  o_stopped : (stoppedC d = true ∨ doneC d = true ∨ TMode MExit ∈ o) → running d = false;
  o_sess1 : ∀ c s s', TSess c s ∈ o → TSess c s' ∈ o → s = s';
  o_sess : ∀ c s, TSess c s ∈ o → session_ok c s d o;
  o_mode : ∀ m, TMode m ∈ o → mode_ord m d
}.

Definition Inv (strict : bool) d o : Prop := Base d o ∧ (strict = true → Ord d o).
End order.

Ltac ord_open H :=
  destruct H as [Henv Hswf Helems Hadded Hfront Hpending Hwritten Horder Hseen Hacks Hreqs Hstopped Hsess1 Hsess Hmodes].

Section changes.
Context {Request : Type}.
Implicit Types (d : dispatcher Request) (o r : gset token) (id c : string) (q : nat).
Implicit Types (f : QueueMap.FIFOQueueMap (element Request)) (l : list (event Request)).
Implicit Types st : ServerState.serverState Request.

(** ** Changes [Ord] does not see *)

Definition same_ord d d' : Prop :=
  queueMap d' = queueMap d ∧ pendingRequestState d' = pendingRequestState d ∧
  requestChannel d' = requestChannel d ∧ running d' = running d ∧ stoppedC d' = stoppedC d ∧
  doneC d' = doneC d ∧ acks d' = acks d ∧ serial d' = serial d ∧ waitsExpire d' = waitsExpire d ∧ log d' = log d.

Lemma Ord_core d d' o : same_ord d d' → Ord d o → Ord d' o.
Proof.
  destruct d, d'. unfold same_ord. simpl. intros (-> & -> & -> & -> & -> & -> & -> & -> & -> & ->) [].
  constructor; assumption.
Qed.

(** Tokens of the other kinds come and go. *)
Definition ord_token (t : token) : Prop :=
  match t with TSeen _ _ | TSess _ _ | TMode _ => True | _ => False end.

Lemma Ord_tokens d o o' : (∀ t, ord_token t → t ∈ o' ↔ t ∈ o) → Ord d o → Ord d o'.
Proof.
  intros Ho HI. ord_open HI.
  assert (Hq : ∀ c, quiet c o → quiet c o') by (intros c Hqt m Hm; apply Hqt; by apply Ho in Hm).
  constructor; try assumption.
  - destruct Hpending as [Hx|?]; [left; by apply Ho|auto].
  - intros id n Hi. apply (Hseen id n). by apply Ho in Hi.
  - intros Hx. apply Hstopped. destruct Hx as [?|[?|Hx]]; auto. apply Ho in Hx; [auto|done].
  - intros c s s' H1 H2. apply Ho in H1, H2; try done. by eapply Hsess1.
  - intros c s H1. apply Ho in H1; [|done]. specialize (Hsess _ _ H1). destruct s; simpl in *; naive_solver.
  - intros m H1. apply Ho in H1; [|done]. auto.
Qed.

(** Events of the other kinds. *)
Definition ord_kind (k : kind) : Prop :=
  match k with KAcceptAll | KAccept _ | KPending | KWriteAll | KWrite _ => True | _ => False end.
Definition unordered (evs : list (event Request)) : Prop := ∀ k, ord_kind k → on k evs = [].

Lemma mode_ord_events m d evs : unordered evs → mode_ord m d → mode_ord m (emit evs d).
Proof.
  intros He. destruct m; simpl; rewrite ?srv_on_app, ?(He KPending), ?app_nil_r by done; try done.
  by rewrite (He KWriteAll), (He (KWrite q)), (He (KAccept q)), !app_nil_r.
Qed.

Lemma Ord_events d o evs : unordered evs → Ord d o → Ord (emit evs d) o.
Proof.
  intros He HI. ord_open HI. constructor; log_simpl; try assumption; intros *;
    rewrite ?srv_on_app, ?(He KPending), ?(He KAcceptAll), ?(He KWriteAll), ?app_nil_r by done; auto.
  - rewrite (He (KWrite q)), app_nil_r by done. eauto.
  - by rewrite (He (KWrite q)), (He (KAccept q)), !app_nil_r.
  - eauto.
  - intros Hm. apply mode_ord_events; auto.
Qed.

(** ** Tokens *)

Lemma Ord_seen d o o' id n :
  Ord d o → (∀ t, t ∈ o' ↔ t ∈ o ∨ t = TSeen id n) → id ∈ on KWriteAll (log d) → Ord d o'.
Proof.
  intros HI Ho Hid. ord_open HI. classes o o' Ho.
  assert (Hq : ∀ c, quiet c o → quiet c o') by (intros c Hqt m Hmi; apply Hqt, Hm, Hmi).
  carry.
  - intros id' n'. rewrite Ho. intros [?|?]; [eauto|]. by simplify_eq.
  - intros c s Hi. specialize (Hsess _ _ Hi). destruct s; simpl in *; naive_solver.
Qed.

(** The pump moves on. *)
Lemma Ord_mode d o o' m m' :
  Ord d o → (∀ m'', TMode m'' ∈ o → m'' = m) → (∀ t, t ∈ o' ↔ (t ∈ o ∧ t ≠ TMode m) ∨ t = TMode m') →
  mode_ord m' d → (m = MExit → m' = MExit) → (m' = MExit → running d = false) →
  (∀ c, busy m' = Some c → busy m = Some c ∧ TMode m ∈ o ∨ is_Some (QueueMap.Get c (queueMap d))) → Ord d o'.
Proof.
  intros HI Hone Ho Hok Hex Hrun Hbusy. ord_open HI. classes o o' Ho.
  assert (Hm : ∀ m'', TMode m'' ∈ o' ↔ m'' = m').
  { intros m''. rewrite Ho. split; [|by intros ->; right]. intros [[Hi Hne]|Heq]; [|congruence].
    by rewrite (Hone _ Hi) in Hne. }
  assert (Hq : ∀ c, QueueMap.Get c (queueMap d) = None → quiet c o → quiet c o').
  { intros c Hg Hqt m'' ->%Hm Hb. destruct (Hbusy c Hb) as [[Hb' Hin]|[? ?]]; [by apply (Hqt m)|congruence]. }
  carry.
  - destruct Hpending as [Hx'|?]; [|auto]. left. symmetry. apply Hex. symmetry. auto.
  - intros [?|[?|<-]]; auto.
  - intros c s Hi. specialize (Hsess _ _ Hi). destruct s; simpl in *; naive_solver.
  - by intros ? ->.
Qed.

Lemma Ord_sess d o o' c s s' :
  Ord d o → TSess c s ∈ o → session_ok c s' d o →
  (∀ t, t ∈ o' ↔ (t ∈ o ∧ t ≠ TSess c s) ∨ t = TSess c s') → Ord d o'.
Proof.
  intros HI Hin Hok Ho. ord_open HI. classes o o' Ho.
  assert (Hc : ∀ c' x, TSess c' x ∈ o' ↔ (TSess c' x ∈ o ∧ c' ≠ c) ∨ (c' = c ∧ x = s')).
  { intros c' x. rewrite Ho. split.
    - intros [[Hi Hne]|?]; simplify_eq; [|auto]. left. split; [done|]. intros ->.
      by rewrite (Hsess1 c x s Hi Hin) in Hne.
    - intros [[? ?]|[-> ->]]; [left; split; congruence|auto]. }
  assert (Hq : ∀ c, quiet c o → quiet c o') by (intros c' Hqt m Hmi; apply Hqt, Hm, Hmi).
  assert (Hso : ∀ c' x, session_ok c' x d o → session_ok c' x d o') by (intros c' []; simpl; naive_solver).
  carry.
  - intros c' x x' [[? ?]|[? ?]] [[? ?]|[? ?]]; try congruence. by eapply Hsess1.
  - intros c' x [[? ?]|[-> ->]]; auto.
Qed.

(** ** The queues *)

Lemma elem_write_all id l : id ∈ on KWriteAll l ↔ ∃ q, id ∈ on (KWrite q) l.
Proof.
  unfold on. setoid_rewrite list_elem_of_omap. split.
  - intros (e & He & Hs). destruct e as [| | | | | |c' q' id' data| | | | |]; simplify_eq/=.
    exists q', (EvWrite c' q' id data). split; [done|]. simpl. by rewrite decide_True.
  - intros (q' & e & He & Hs). exists e. split; [done|]. destruct e; simplify_eq/=. case_decide; by simplify_eq.
Qed.

(** A written request is no longer where the pump is about to write. *)
Lemma written_not_front d o c q id :
  Base d o → Ord d o → id ∈ on KWriteAll (log d) →
  (TMode (MFront c q id) ∉ o) ∧ (TMode (MSent c q id) ∉ o).
Proof.
  intros HB HO Hw. split; intros Hi; pose proof (o_mode _ _ HO _ Hi) as Hok; simpl in Hok.
  - destruct Hok as (_ & _ & Hh & Hn). apply elem_write_all in Hw as [q' Hw].
    apply (Hn id); [|by apply (o_written _ _ HO q')]. by apply head_Some_elem_of.
  - by destruct Hok as (_ & _ & _ & _ & ? & _).
Qed.

Lemma Ord_push d o q id x x' e :
  Base d o → Ord d o → TSend id ∈ o → QueueMap.deref q (queueMap d) = Some x →
  FIFO.elements x' = FIFO.elements x ++ [e] → elem_id e = Some id →
  Ord (emit [EvAccept q id] (store_queue q x' d)) o.
Proof.
  intros HB HI Hin Hx Hels Hid. destruct (v_new _ _ HB id Hin) as [Hne Hfresh]. ord_open HI.
  assert (Hids : ids (FIFO.elements x') = queued q (queueMap d) ++ [id]).
  { unfold queued. rewrite Hx, Hels, ids_app. f_equal. unfold ids. simpl. by rewrite Hid. }
  assert (Hnamed : ∀ q', named q' (QueueMap.store q x' (queueMap d))).
  { intros q' y e'. unfold QueueMap.deref, QueueMap.store. simpl. rewrite lookup_insert. case_decide; [|by apply Helems].
    intros [= <-]. rewrite Hels, elem_of_snoc. intros [?| ->]; [by apply (Helems q x)|eauto]. }
  assert (Hqd : ∀ q', queued q' (QueueMap.store q x' (queueMap d)) =
                      if decide (q = q') then queued q (queueMap d) ++ [id] else queued q' (queueMap d)).
  { intros q'. rewrite queued_store. by case_decide. }
  assert (Hin' : ∀ q' id', id' ∈ queued q' (QueueMap.store q x' (queueMap d)) →
                           id' ∈ on KPending (log d) → id' ∈ queued q' (queueMap d)).
  { intros q' id'. rewrite Hqd. case_decide; [subst|done]. rewrite elem_of_snoc. intros [?| ->] Hp; [done|].
    by destruct Hfresh; auto. }
  assert (Hkeep : ∀ q' id', head (queued q' (queueMap d)) = Some id' →
                           head (queued q' (QueueMap.store q x' (queueMap d))) = Some id').
  { intros q' id' Hh. rewrite Hqd. case_decide; [subst|done]. by destruct (queued q' (queueMap d)). }
  carry_log.
  - intros Hp. rewrite elem_of_snoc. auto.
  - intros Hi Hp. apply Hkeep, Hfront; auto.
  - destruct Hpending as [?|Hpend]; [by left|right]. intros c q' id' Hg Hi Hp. apply (Hpend c q' id'); auto.
  - case_decide; [by apply sublist_inserts_r|by rewrite app_nil_r].
  - intros Hmi. specialize (Hmodes _ Hmi). destruct m as [|a|c|c q0|c q0 id0|c q0 id0|c id0|c|k|]; simpl in *; try done;
      rewrite ?srv_on_app; cbn [on omap sel list_omap]; rewrite ?app_nil_r; try done.
    + destruct Hmodes as (? & ? & Hnq). do 2 (split; [done|]). intros id' Hi Hp. by apply (Hnq id'); auto.
    + destruct Hmodes as (? & ? & ? & Hnq). do 2 (split; [done|]). split; [by apply Hkeep|].
      intros id' Hi Hp. by apply (Hnq id'); auto.
    + destruct Hmodes as (? & ? & ? & ? & ? & Hsub). do 2 (split; [done|]). split; [by apply Hkeep|].
      do 2 (split; [done|]). case_decide; [by apply sublist_inserts_r|]. by rewrite app_nil_r.
Qed.

(** A queue loses its front, or all it has. *)
Lemma named_shrink q q' x x' f :
  named q f → named q' f → QueueMap.deref q f = Some x → (∀ e, e ∈ FIFO.elements x' → e ∈ FIFO.elements x) →
  named q' (QueueMap.store q x' f).
Proof.
  intros Hn Hn' Hx Hsub y e. unfold QueueMap.deref, QueueMap.store. simpl. rewrite lookup_insert.
  case_decide; [|by apply Hn']. intros [= <-] He. by apply (Hn x), Hsub.
Qed.

Lemma Ord_pop d o q id x x' e :
  Base d o → Ord d o → QueueMap.deref q (queueMap d) = Some x →
  FIFO.elements x = e :: FIFO.elements x' → elem_id e = Some id →
  (∀ c q', (TMode (MFront c q' id) ∉ o) ∧ (TMode (MSent c q' id) ∉ o)) →
  Ord (store_queue q x' d) o.
Proof.
  intros HB HI Hx Hels Hid Hfr.
  assert (Hids : queued q (queueMap d) = id :: ids (FIFO.elements x')).
  { unfold queued. rewrite Hx, Hels. unfold ids. simpl. by rewrite Hid. }
  pose proof (queued_NoDup d o q HB) as Hnd. rewrite Hids in Hnd.
  apply NoDup_cons in Hnd as [Hnin _]. ord_open HI.
  assert (Hqd : ∀ q', queued q' (QueueMap.store q x' (queueMap d)) =
                      if decide (q = q') then ids (FIFO.elements x') else queued q' (queueMap d))
    by (intros; apply queued_store).
  assert (Hin' : ∀ q' id', id' ∈ queued q' (QueueMap.store q x' (queueMap d)) → id' ∈ queued q' (queueMap d)).
  { intros q' id'. rewrite Hqd. case_decide; [subst; rewrite Hids; by right|done]. }
  assert (Hhd : ∀ q' id', id' ≠ id → head (queued q' (queueMap d)) = Some id' →
                          head (queued q' (QueueMap.store q x' (queueMap d))) = Some id').
  { intros q' id' Hne Hh. rewrite Hqd. case_decide; [subst|done]. rewrite Hids in Hh. simpl in Hh. congruence. }
  carry.
  - intros q'. apply (named_shrink q q' x); auto. intros e' He'. rewrite Hels. by right.
  - intros q' id' Hi Hp. pose proof (Hfront q' id' (Hin' _ _ Hi) Hp) as Hh. apply Hhd; [|done]. intros ->.
    rewrite Hqd in Hi. case_decide as Hq; [by subst|].
    apply Hq, (queued_unique d o _ _ id HB); [rewrite Hids; left|done].
  - destruct Hpending as [?|Hpend]; [by left|right]. intros c q' id' Hg Hi Hp. apply (Hpend c q' id'); auto.
  - intros m Hmi. pose proof (Hmodes _ Hmi) as Hok.
    destruct m as [|a|c|c q0|c q0 id0|c q0 id0|c id0|c|k|]; simpl in *; try done.
    + naive_solver.
    + destruct Hok as (? & ? & Hh & Hnq). do 2 (split; [done|]). split; [|naive_solver].
      apply Hhd; [|done]. intros ->. by destruct (Hfr c q0).
    + destruct Hok as (? & ? & Hh & ?). do 2 (split; [done|]). split; [|done].
      apply Hhd; [|done]. intros ->. by destruct (Hfr c q0).
Qed.

Lemma Ord_drainq d o q x' :
  Base d o → Ord d o → TMode MExit ∈ o → FIFO.elements x' = [] → Ord (store_queue q x' d) o.
Proof.
  intros HB HI Hex Hx'. ord_open HI.
  assert (Hqd : ∀ q', queued q' (QueueMap.store q x' (queueMap d)) =
                      if decide (q = q') then [] else queued q' (queueMap d)).
  { intros q'. rewrite queued_store, Hx'. done. }
  carry.
  - intros q' y e. unfold QueueMap.deref, QueueMap.store. simpl. rewrite lookup_insert.
    case_decide; [|by apply Helems]. intros [= <-]. rewrite Hx'. by intros ?%not_elem_of_nil.
  - intros q' id'. rewrite Hqd. case_decide; [by intros ?%not_elem_of_nil|auto].
  - by left.
  - intros m Hmi. by rewrite (v_mode1 _ _ HB _ _ Hmi Hex).
Qed.

(** ** The pending state *)

(** Pending requests are only forgotten, those of live queues only once they
    have left the queue. *)
Lemma Ord_forget d o st' :
  Ord d o → ServerState.wf st' →
  (∀ c, pid c st' = pid c (pendingRequestState d) ∨
        pid c st' = "" ∧ (TMode MExit ∈ o ∨ ∀ q, QueueMap.Get c (queueMap d) = Some q →
                            pid c (pendingRequestState d) ∉ queued q (queueMap d))) →
  Ord (set_pending st' d) o.
Proof.
  intros HI Hwf' Hf. ord_open HI. carry.
  - destruct Hpending as [?|Hpend]; [by left|]. destruct (decide (TMode MExit ∈ o)) as [|Hn]; [by left|right].
    intros c q id Hg Hi Hp. destruct (Hf c) as [->|[_ [?|Hq]]]; [by eapply Hpend|done|].
    destruct (Hq q Hg). by rewrite (Hpend c q id Hg Hi Hp).
  - intros m Hmi. pose proof (Hmodes _ Hmi) as Hok. destruct m; simpl in *; try done; destruct (Hf c) as [->|[-> _]]; naive_solver.
Qed.

Lemma Ord_del d o c id :
  Base d o → Ord d o → TDel id ∈ o →
  Ord (set_pending (ServerState.DeletePendingRequest c id (pendingRequestState d)) d) o.
Proof.
  intros HB HI Hin. pose proof (o_swf _ _ HI) as Hswf. apply Ord_forget; [done| |].
  - by apply (ServerState.server_apply_wf (ServerState.ODelete c id)).
  - intros c'. destruct (decide (c = c')) as [<-|Hne].
    + rewrite pid_delete by done. case_decide as Hp; [|by left]. right. split; [done|]. right. intros q _ Hi.
      rewrite Hp in Hi. apply (queued_accepted d o q id HB Hi). by apply (v_del _ _ HB).
    + left. apply (pid_other (ServerState.ODelete c id) c'); simpl; auto.
Qed.

Lemma Ord_clear d o c :
  Ord d o → QueueMap.Get c (queueMap d) = None →
  Ord (set_pending (ServerState.ClearClientPendingRequest c (pendingRequestState d)) d) o.
Proof.
  intros HI Hg. pose proof (o_swf _ _ HI) as Hswf. apply Ord_forget; [done| |].
  - by apply (ServerState.server_apply_wf (ServerState.OClearClient c)).
  - intros c'. destruct (decide (c = c')) as [<-|Hne].
    + right. split; [apply pid_clear|]. right. congruence.
    + left. apply (pid_other (ServerState.OClearClient c) c'); simpl; auto.
Qed.

Lemma Ord_getstate d o c :
  Ord d o → Ord (set_pending (ServerState.GetClientState c (pendingRequestState d)).1 d) o.
Proof.
  intros HI. pose proof (o_swf _ _ HI) as Hswf. apply Ord_forget; [done| |].
  - by apply (ServerState.server_apply_wf (ServerState.OGet c)).
  - intros c'. left. by apply pid_get.
Qed.

Lemma Ord_clearall d o :
  Ord d o → TMode MExit ∈ o →
  Ord (set_pending (ServerState.ClearAllPendingRequests (pendingRequestState d)) d) o.
Proof.
  intros HI Hex. pose proof (o_swf _ _ HI) as Hswf. apply Ord_forget; [done| |].
  - by apply (ServerState.server_apply_wf ServerState.OClearAll).
  - intros c. right. split; [|by left]. unfold pid, ServerState.client. simpl. by rewrite lookup_empty.
Qed.

(** The pump marks the front request pending, then writes it. *)
Lemma Ord_add d o o' c q id req :
  Base d o → Ord d o → TMode (MFront c q id) ∈ o →
  (∀ t, t ∈ o' ↔ (t ∈ o ∧ t ≠ TMode (MFront c q id)) ∨ t = TMode (MSent c q id)) →
  Ord (emit [EvPending c id] (set_pending (ServerState.AddPendingRequest c id req (pendingRequestState d)) d)) o'.
Proof.
  intros HB HI Hin Ho. pose proof (λ q id, queued_accepted d o q id HB) as Hacc.
  pose proof (o_mode _ _ HI _ Hin) as (Hp0 & Hgq & Hh & Hna).
  assert (Hcr : c ∈ on (KCreated q) (log d)) by (apply (v_mode _ _ HB _ Hin)).
  assert (Hidq : id ∈ queued q (queueMap d)) by (by apply head_Some_elem_of).
  destruct (Hacc q id Hidq) as (Haq & Haa & Hnt).
  assert (Hne : id ≠ "") by (intros ->; by apply (v_names _ _ HB)).
  assert (Huniq : ∀ q', id ∈ queued q' (queueMap d) → q' = q) by (intros; by eapply queued_unique).
  assert (Hex : TMode MExit ∉ o) by (intros Hx; by pose proof (v_mode1 _ _ HB _ _ Hin Hx)).
  assert (Hnw : id ∉ on KWriteAll (log d)).
  { intros Hw. by destruct (written_not_front d o c q id HB HI Hw). }
  ord_open HI. classes o o' Ho.
  assert (Hm : ∀ m, TMode m ∈ o' ↔ m = MSent c q id).
  { intros m. rewrite Ho. split; [|by intros ->; right]. intros [[Hi Hn']|Heq]; [|congruence].
    by rewrite (v_mode1 _ _ HB _ m Hin Hi) in Hn'. }
  assert (Hq : ∀ c, quiet c o → quiet c o').
  { intros c' Hqt m ->%Hm. apply (Hqt _ Hin). }
  assert (Hpid : pid c (ServerState.AddPendingRequest c id req (pendingRequestState d)) = id) by (by apply pid_add).
  assert (Hpo : ∀ c', c' ≠ c → pid c' (ServerState.AddPendingRequest c id req (pendingRequestState d)) =
                              pid c' (pendingRequestState d)).
  { intros c' Hc'. apply (pid_other (ServerState.OAdd c id req)); simpl; auto. }
  carry_log.
  - by apply (ServerState.server_apply_wf (ServerState.OAdd c id req)).
  - rewrite elem_of_snoc. intros [?| ->]; auto.
  - rewrite elem_of_snoc. intros Hi [?| ->]; [auto|]. by rewrite (Huniq _ Hi).
  - right. destruct Hpending as [?|Hpend]; [done|].
    intros c' q' id' Hg Hi. rewrite elem_of_snoc. intros [Hp| ->].
    + specialize (Hpend c' q' id' Hg Hi Hp). destruct (decide (c' = c)) as [->|]; [|by rewrite Hpo].
      destruct (Hacc q' id' Hi) as (_ & Haa' & _). rewrite Hp0 in Hpend. subst. by destruct (v_names _ _ HB).
    + assert (q' = q) as -> by auto. by rewrite (v_owner _ _ HB c' c q (v_created _ _ HB _ _ Hg) Hcr).
  - intros Hi. rewrite elem_of_snoc. eauto.
  - intros [?|[?|?]]; [auto..|done].
  - intros Hi. specialize (Hsess _ _ Hi). destruct s; simpl in *; naive_solver.
  - intros ->. simpl. rewrite !srv_on_app. simpl. rewrite ?app_nil_r, elem_of_snoc, Hpid.
    do 3 (split; [auto|]). split; [auto|]. split; [done|].
    rewrite (v_flow _ _ HB). apply head_Some in Hh as [l Hl]. rewrite Hl.
    apply sublist_app; [|apply sublist_skip, sublist_nil_l].
    apply (sublist_app_outside _ _ (queued q (queueMap d))).
    + rewrite <-(v_flow _ _ HB). apply (sublist_NoDup _ _ (v_nodup _ _ HB)), accept_sub.
    + by rewrite <-(v_flow _ _ HB).
    + intros id' Hw. pose proof (sublist_subseteq _ _ (Horder q) _ Hw) as Ha.
      rewrite (v_flow _ _ HB), elem_of_app in Ha. destruct Ha as [?|Hi]; [done|].
      destruct (Hna id' Hi). eauto.
Qed.

Lemma Ord_write d o o' c q id data :
  Base d o → Ord d o → TMode (MSent c q id) ∈ o →
  (∀ t, t ∈ o' ↔ (t ∈ o ∧ t ≠ TMode (MSent c q id)) ∨ t = TMode MFree) →
  Ord (emit [EvWrite c q id data] d) o'.
Proof.
  intros HB HI Hin Ho. pose proof (o_mode _ _ HI _ Hin) as (_ & _ & _ & Hp & _ & Hsub).
  assert (HF : Ord d o').
  { apply (Ord_mode d o o' (MSent c q id) MFree); try done. intros m Hm. by apply (v_mode1 _ _ HB). }
  assert (Hm : ∀ m, TMode m ∈ o' → m = MFree).
  { intros m [[Hi Hne]|?]%Ho; [|congruence]. by rewrite (v_mode1 _ _ HB _ _ Hi Hin) in Hne. }
  clear HI. ord_open HF. carry_log.
  - intros Hi. rewrite elem_of_app in Hi. destruct Hi as [?|Hi]; [eauto|].
    case_decide; [|by apply not_elem_of_nil in Hi]. apply list_elem_of_singleton in Hi as ->. done.
  - case_decide; subst; [done|by rewrite app_nil_r].
  - intros Hi. rewrite elem_of_snoc. eauto.
  - by intros ->%Hm.
Qed.

(** ** Sessions and the stop *)

Lemma named_create c f f' q : QueueMap.GetOrCreate c f = Some (f', q) → ∀ q', named q' f → named q' f'.
Proof.
  intros Hg q' Hn. unfold QueueMap.GetOrCreate in Hg. destruct (QueueMap.data f !! c); [by simplify_eq|].
  destruct (FIFO.NewFIFOClientQueue _) as [x|] eqn:Hx; simplify_eq.
  intros y e. unfold QueueMap.deref. simpl. rewrite lookup_insert. case_decide; [|apply Hn]. intros [= <-].
  unfold FIFO.NewFIFOClientQueue in Hx. case_match; simplify_eq. by intros ?%not_elem_of_nil.
Qed.

Lemma Ord_create d o o' c f q :
  Base d o → Ord d o → TSess c SOff ∈ o → QueueMap.GetOrCreate c (queueMap d) = Some (f, q) →
  (∀ t, t ∈ o' ↔ (t ∈ o ∧ t ≠ TSess c SOff) ∨ t = TSess c SOn) →
  Ord (set_queueMap f d) o'.
Proof.
  intros HB HI Hin Hg Ho. pose proof (o_sess _ _ HI _ _ Hin) as [Hnone Hquiet].
  assert (HO : Ord d o') by (by apply (Ord_sess _ o o' c SOff SOn)).
  assert (Hon : TSess c SOn ∈ o') by (apply Ho; auto).
  assert (Hquiet' : quiet c o') by (intros m Hm; apply Hquiet; apply Ho in Hm as [[? _]|?]; [done|congruence]).
  clear HI. pose proof (queued_create c _ _ _ (v_wf _ _ HB) Hg) as Hqd.
  destruct (create_shape _ _ _ _ Hnone Hg) as (Hq & Hnx & Hget).
  pose proof (named_create c _ _ _ Hg) as Hnamed.
  assert (Hno : ∀ id, id ∉ queued q (queueMap d)).
  { intros id Hi. unfold queued, QueueMap.deref in Hi.
    destruct (QueueMap.qheap (queueMap d) !! q) eqn:Hl; [|by apply not_elem_of_nil in Hi].
    assert (q < QueueMap.qnext (queueMap d)) by (apply (v_wf _ _ HB); eauto). lia. }
  ord_open HO. constructor; log_simpl; try assumption; intros *; rewrite ?Hqd; try solve [eauto 3].
  - destruct Hpending as [?|Hpend]; [by left|right]. intros c' q' id'. rewrite Hget, Hqd. case_decide; [|eauto].
    intros [= <-] Hi. by destruct (Hno id').
  - intros Hi. pose proof (Hsess _ _ Hi) as Hok. assert (Hne : s ≠ SOn → c ≠ c0) by (intros Hs <-; by rewrite (Hsess1 c s SOn) in Hs).
    destruct s; simpl in *; rewrite ?Hget; try done; by rewrite decide_False by (by apply Hne).
  - intros Hmi. pose proof (Hmodes _ Hmi) as Hok. pose proof (Hquiet' _ Hmi) as Hb.
    destruct m; simpl in *; rewrite ?Hget, ?Hqd; try done; rewrite decide_False by congruence; done.
Qed.

Lemma get_remove c c' f :
  QueueMap.Get c' (QueueMap.Remove c f) = if decide (c = c') then None else QueueMap.Get c' f.
Proof. unfold QueueMap.Get. simpl. by rewrite lookup_delete. Qed.

Lemma Ord_remove d o o' c s :
  Ord d o → TSess c s ∈ o → (∀ t, t ∈ o' ↔ (t ∈ o ∧ t ≠ TSess c s) ∨ t = TSess c SGone) →
  Ord (remove_queue c d) o'.
Proof.
  intros HI Hin Ho. apply (Ord_sess _ o o' c s SGone); [|done| |done];
    [|by simpl; rewrite get_remove, decide_True].
  ord_open HI. constructor; log_simpl; try assumption.
  - destruct Hpending as [?|Hpend]; [by left|right]. intros c' q id. rewrite get_remove. case_decide; [done|].
    apply Hpend.
  - intros c' s' Hi. pose proof (Hsess _ _ Hi) as Hok.
    destruct s'; simpl in *; rewrite ?get_remove; try done; case_decide; naive_solver.
  - intros m Hmi. pose proof (Hmodes _ Hmi) as Hok.
    destruct m; simpl in *; rewrite ?get_remove; try done; case_decide; naive_solver.
Qed.

(** The acknowledgement channel of a removed client. *)
Lemma Ord_ack d o o' c :
  Ord d o → TSess c SGone ∈ o → (∀ t, t ∈ o' ↔ (t ∈ o ∧ t ≠ TSess c SGone) ∨ t = TSess c (SWait (serial d))) →
  Ord (set_serial (S (serial d)) d) o'.
Proof.
  intros HI Hin Ho. pose proof (o_sess _ _ HI _ _ Hin) as Hnone. simpl in Hnone.
  apply (Ord_sess _ o o' c SGone (SWait (serial d))); [|done| |done].
  - ord_open HI. constructor; log_simpl; try assumption.
    + intros a Ha. apply Hacks in Ha. lia.
    + intros req a Hr Ha. specialize (Hreqs _ _ Hr Ha). lia.
    + intros c' s' Hi. pose proof (Hsess _ _ Hi) as Hok. destruct s'; simpl in *; naive_solver lia.
    + intros m Hmi. pose proof (Hmodes _ Hmi) as Hok. destruct m; simpl in *; naive_solver lia.
  - simpl. split; [done|]. split; [lia|]. intros Ha. apply (o_acks _ _ HI) in Ha. lia.
Qed.

Lemma Ord_serial d o : Ord d o → Ord (set_serial (S (serial d)) d) o.
Proof.
  intros HI. ord_open HI. constructor; log_simpl; try assumption.
  - intros a Ha. apply Hacks in Ha. lia.
  - intros req a Hr Ha. specialize (Hreqs _ _ Hr Ha). lia.
  - intros c' s' Hi. pose proof (Hsess _ _ Hi) as Hok. destruct s'; simpl in *; naive_solver lia.
  - intros m Hmi. pose proof (Hmodes _ Hmi) as Hok. destruct m; simpl in *; naive_solver lia.
Qed.

Lemma Ord_requests d o rs :
  Ord d o → (∀ req a, req ∈ rs → dr_deleteAck req = Some a → a < serial d) → Ord (set_requests rs d) o.
Proof. intros HI Hr. ord_open HI. carry. Qed.

(** The pump acknowledges: it is between two rounds. *)
Lemma Ord_close d o a :
  Base d o → Ord d o → TMode (MReq a) ∈ o → Ord (set_acks ({[a]} ∪ acks d) d) o.
Proof.
  intros HB HI Hin. pose proof (o_mode _ _ HI _ Hin) as Ha. simpl in Ha.
  assert (Hq : ∀ c, quiet c o) by (intros c m Hm; by rewrite (v_mode1 _ _ HB _ _ Hm Hin)).
  ord_open HI. constructor; log_simpl; try assumption.
  - intros a' [->%elem_of_singleton|?]%elem_of_union; auto.
  - intros c s Hi. pose proof (Hsess _ _ Hi) as Hok. destruct s; simpl in *; naive_solver.
Qed.

Lemma Ord_stop d o : Ord d o → Ord (set_stopped true (set_running false d)) o.
Proof.
  intros HI. ord_open HI. constructor; log_simpl; try assumption; try done.
  intros c s Hi. pose proof (Hsess _ _ Hi) as Hok. destruct s; simpl in *; naive_solver.
Qed.

Lemma Ord_done d o : Ord d o → TMode MExit ∈ o → Ord (set_done true d) o.
Proof. intros HI Hex. ord_open HI. constructor; log_simpl; try assumption. auto. Qed.

Lemma Ord_detach d o o' m :
  Base d o → Ord d o → TMode m ∈ o → running d = false →
  (∀ t, t ∈ o' ↔ (t ∈ o ∧ t ≠ TMode m) ∨ t = TMode MExit) →
  Ord (set_queueMap (QueueMap.DrainAll (queueMap d)).1 d) o'.
Proof.
  intros HB HI Hin Hrun Ho. assert (Hex : TMode MExit ∈ o') by (apply Ho; auto).
  assert (HF : Ord d o').
  { apply (Ord_mode d o o' m MExit); try done. intros m' Hm. by apply (v_mode1 _ _ HB). }
  assert (Hm : ∀ m, TMode m ∈ o' → m = MExit).
  { intros m' [[Hi Hne]|?]%Ho; [|congruence]. by rewrite (v_mode1 _ _ HB _ _ Hi Hin) in Hne. }
  assert (Hq : ∀ c, quiet c o') by (intros c m' ->%Hm; done).
  assert (Hnone : ∀ c, QueueMap.Get c (QueueMap.DrainAll (queueMap d)).1 = None) by (intros; apply lookup_empty).
  clear HI. ord_open HF. constructor; log_simpl; try assumption; auto.
  - intros c s Hi. pose proof (Hsess _ _ Hi) as Hok. destruct s; simpl in *; naive_solver.
  - intros m' ->%Hm. done.
Qed.
End changes.
