(* ===== verification/ServerSafety.v ===== *)
(** * The server dispatcher under every schedule

    Each operation of the dispatcher is shown [safe] for [ServerOrder.Inv]; the
    theorems at the end read the invariant off any state that the pump, the
    watchers and any number of concurrent senders, response handlers, client
    sessions, stops, deadlines and context cancellations can reach. *)

From S2P Require Import Prelude Conc Ocpp Errors Queue State Message ServerDispatcher ServerInvariant ServerOrder.
Local Open Scope string_scope.
Local Open Scope list_scope.

Section safety.
Context {Request : Type}.
Context (strict : bool).
Implicit Types (d : dispatcher Request) (o r : gset token) (id c : string) (q : nat).

Abbreviation prog A := (proc (dispatcher Request) choice A).
Abbreviation sf := (safe (C:=choice) (Inv (Request:=Request) strict) Rest).
Abbreviation pump m := ({[TMode m]} : gset token).

(** An action neither half of the invariant sees. *)
Definition same_core d d' : Prop := same_base d d' ∧ same_ord d d'.

Lemma SInv_core d d' o : same_core d d' → Inv strict d o → Inv strict d' o.
Proof.
  intros [Hb Ho] [HB HO]. split; [by eapply Base_core|]. intros Hst. eapply Ord_core; [done|auto].
Qed.

Lemma srv_quiet {A : Type} (f : choice → dispatcher Request → option (dispatcher Request * A)) o Q :
  (∀ a d d' x, f a d = Some (d', x) → same_core d d') → (∀ x, Q o x) → sf o (choose f) Q.
Proof.
  intros Hf HQ c d r d' x Hd HI Heq. exists o. split; [done|]. split; [|by simpl].
  eapply SInv_core; [by eapply Hf|done].
Qed.

Lemma srv_quiet_modify (f : dispatcher Request → dispatcher Request) o Q :
  (∀ d, same_core d (f d)) → Q o tt → sf o (modify f) Q.
Proof.
  intros Hf HQ. apply safe_modify_frame; [|done]. intros d o' HI. by eapply SInv_core.
Qed.

Lemma srv_quiet_atomic {A : Type} (f : dispatcher Request → option (dispatcher Request * A)) o Q :
  (∀ d d' x, f d = Some (d', x) → same_core d d') → (∀ x, Q o x) → sf o (atomic f) Q.
Proof. intros Hf HQ. apply (srv_quiet (λ _, f)); eauto. Qed.

Ltac quiet := by (intros; repeat (simplify_eq/=; case_match); simplify_eq/=; repeat split).

Lemma sf_RLock o (Q : gset token → unit → Prop) : Q o tt → sf o RLock Q.
Proof. intros HQ. apply srv_quiet_atomic; [quiet|by intros []]. Qed.
Lemma sf_RUnlock o (Q : gset token → unit → Prop) : Q o tt → sf o RUnlock Q.
Proof. intros HQ. by apply srv_quiet_modify. Qed.

(** *** Completing a request *)

Lemma store_same q x d : QueueMap.deref q (queueMap d) = Some x → store_queue q x d = d.
Proof.
  intros Hx. unfold store_queue, QueueMap.store. unfold QueueMap.deref in Hx. rewrite insert_id by done.
  by destruct d as [[]].
Qed.

Lemma emit_nil d : emit [] d = d.
Proof. destruct d. unfold emit. simpl. by rewrite app_nil_r. Qed.

(** What [PopIf] did. *)
Lemma pop_request_cases q id d d' el :
  (match queue_at q d with
   | Some x => let '(x', r) := FIFO.PopIf (is_request id) x in
               Some (emit (taken_events q (option_list r)) (store_queue q x' d), r)
   | None => Some (d, None)
   end) = Some (d', el) →
  d' = d ∧ el = None ∧ (named q (queueMap d) → head (queued q (queueMap d)) ≠ Some id) ∨
  ∃ x x' e k, QueueMap.deref q (queueMap d) = Some x ∧ FIFO.elements x = e :: FIFO.elements x' ∧
    elem_id e = Some id ∧ queued q (queueMap d) = id :: ids (FIFO.elements x') ∧
    d' = emit [EvTake q id] (store_queue q x' d) ∧ el = Some e ∧ elem_call e = Some k ∧ UniqueId k = id.
Proof.
  unfold queue_at. destruct (QueueMap.deref q (queueMap d)) as [x|] eqn:Hx.
  - destruct (FIFO.PopIf _ x) as [x' [e|]] eqn:Hp; intros; simplify_eq.
    + right. destruct (popif_ids _ _ _ _ Hp) as (He & Hels & Hids).
      unfold elem_id in He. destruct (elem_call e) as [k|] eqn:Hk; simplify_eq/=.
      exists x, x', e, k. unfold queued. rewrite Hx. unfold elem_id, taken_events, ids. simpl. unfold elem_id.
      by rewrite Hk.
    + left. assert (Hx' : x' = x).
      { change (rq_popif (is_request id) x = (x', None)) in Hp. by apply rq_popif_none in Hp as [-> _]. }
      subst. rewrite store_same by done. split; [apply emit_nil|]. split; [done|].
      intros Hn Hh. unfold queued in Hh. rewrite Hx in Hh.
      destruct (popif_front id x) as (x' & e & Hp'); [|done|congruence]. intros e. by apply Hn.
  - intros; simplify_eq. left. split; [done|]. split; [done|]. intros _. unfold queued. by rewrite Hx.
Qed.

Lemma SInv_pop d o o' q id x x' e :
  Inv strict d o → QueueMap.deref q (queueMap d) = Some x → FIFO.elements x = e :: FIFO.elements x' →
  elem_id e = Some id →
  (strict = true → ∀ c q', (TMode (MFront c q' id) ∉ o) ∧ (TMode (MSent c q' id) ∉ o)) →
  (∀ t, t ∈ o' ↔ t ∈ o ∨ t = TDel id ∨ t = TNotify id) →
  Inv strict (emit [EvTake q id] (store_queue q x' d)) o' ∧ (TDel id ∉ o) ∧ (TNotify id ∉ o).
Proof.
  intros [HB HO] Hx Hels He Hfr Ho.
  assert (Hids : queued q (queueMap d) = id :: ids (FIFO.elements x')).
  { unfold queued. rewrite Hx, Hels. unfold ids. simpl. by rewrite He. }
  destruct (Base_pop d o o' q id x x' HB Hx Hids Ho) as (HB' & ? & ?). split; [|done]. split; [done|].
  intros Hst. apply (Ord_tokens _ o); [|apply Ord_events; [by intros []|]; eapply Ord_pop; eauto].
  intros t Ht. rewrite Ho. split; [|auto]. by intros [?|[->| ->]].
Qed.

Lemma SInv_del d o o' c id :
  Inv strict d o → TDel id ∈ o → (∀ t, t ∈ o' ↔ t ∈ o ∧ t ≠ TDel id) →
  Inv strict (set_pending (ServerState.DeletePendingRequest c id (pendingRequestState d)) d) o'.
Proof.
  intros [HB HO] Hin Ho. split.
  - apply (Base_core d); [by repeat split|]. by eapply Base_del.
  - intros Hst. apply (Ord_tokens _ o); [|by apply Ord_del; auto].
    intros t Ht. rewrite Ho. split; [by intros [? _]|]. intros. split; [done|]. by intros ->.
Qed.

(** The rest of [completeRequestOwned] once the queue pointer is read. *)
Definition complete_at (q : nat) (c id : string) : prog (option (Call Request)) :=
  bind (pop_request q id) (λ el,
    match (match el with Some e => elem_call e | None => None end) with
    | Some k => bind (modify (λ d, set_pending (ServerState.DeletePendingRequest c id (pendingRequestState d)) d))
                  (λ _, Ret (Some k))
    | None => Ret None
    end).

Lemma completeRequestOwned_unfold c id :
  completeRequestOwned c id = bind (read (Get c)) (λ p, match p with None => Ret None | Some q => complete_at q c id end).
Proof. done. Qed.

Lemma accepted_named d o q id rest : Base d o → queued q (queueMap d) = id :: rest → id ≠ "".
Proof.
  intros HB Hq ->. apply (v_names _ _ HB). apply (queued_accepted d o q "" HB). rewrite Hq. left.
Qed.

Lemma sf_complete_at o q c id (Q : gset token → option (Call Request) → Prop) :
  (∀ d r, o ## r → Inv strict d (o ∪ r) → strict = true →
     ∀ c' q', (TMode (MFront c' q' id) ∉ o ∪ r) ∧ (TMode (MSent c' q' id) ∉ o ∪ r)) →
  (∀ k, UniqueId k = id → id ≠ "" → Q (o ∪ {[TNotify id]}) (Some k)) → Q o None →
  sf o (complete_at q c id) Q.
Proof.
  intros Hfr Hsome Hnone. apply safe_bind, safe_atomic. intros d r d' el Hdis HI Heq.
  apply pop_request_cases in Heq as [(-> & -> & _)|(x & x' & e & k & Hx & Hels & He & Hids & -> & -> & Hk & Hid)].
  { exists o. eauto. }
  destruct (SInv_pop d (o ∪ r) (o ∪ {[TDel id; TNotify id]} ∪ r) q id x x' e HI Hx Hels He) as (HI2 & Hn1 & Hn2);
    [by eapply Hfr|clear; set_solver|].
  pose proof (accepted_named d _ _ _ _ (proj1 HI) Hids) as Hne.
  exists (o ∪ {[TDel id; TNotify id]}). split; [clear -Hn1 Hn2 Hdis; set_solver|]. split; [done|].
  rewrite Hk. apply safe_bind, safe_modify. intros d2 r2 Hdis2 HI3.
  exists (o ∪ {[TNotify id]}). split; [clear -Hdis2; set_solver|]. split; [|by apply Hsome].
  eapply SInv_del; [done|set_solver|]. assert (Hn : TDel id ∉ o) by set_solver. clear -Hdis2 Hn. set_solver.
Qed.

Lemma srv_complete o c id (Q : gset token → option (Call Request) → Prop) :
  (∀ d r, o ## r → Inv strict d (o ∪ r) → strict = true →
     ∀ c' q', (TMode (MFront c' q' id) ∉ o ∪ r) ∧ (TMode (MSent c' q' id) ∉ o ∪ r)) →
  (∀ k, UniqueId k = id → id ≠ "" → Q (o ∪ {[TNotify id]}) (Some k)) → Q o None →
  sf o (completeRequestOwned c id) Q.
Proof.
  intros Hfr Hsome Hnone. rewrite completeRequestOwned_unfold. apply safe_bind, safe_read_frame.
  intros [q|]; [by apply sf_complete_at|done].
Qed.

(** *** The pump *)

Lemma srv_no_other_mode d r m m' : pump m ## r → Base d (pump m ∪ r) → TMode m' ∉ r.
Proof.
  intros Hdis HI Hin. assert (m' = m) as ->.
  { apply (v_mode1 _ _ HI); set_solver. }
  set_solver.
Qed.

(** When the pump may go from [m] to [m']. *)
Definition may_move d m m' : Prop :=
  mode_ord m' d ∧ (m = MExit → m' = MExit) ∧ (m' = MExit → running d = false) ∧
  (∀ c, busy m' = Some c → busy m = Some c ∨ is_Some (QueueMap.Get c (queueMap d))).

Lemma srv_pump_move d r m m' :
  pump m ## r → Inv strict d (pump m ∪ r) → mode_base m' (log d) →
  (strict = true → Ord d (pump m ∪ r) → may_move d m m') →
  Inv strict d (pump m' ∪ r) ∧ pump m' ## r.
Proof.
  intros Hdis [HB HO] Hb Hm. pose proof (srv_no_other_mode d r m m' Hdis HB) as Hno.
  assert (Ho : ∀ t, t ∈ pump m' ∪ r ↔ (t ∈ pump m ∪ r ∧ t ≠ TMode m) ∨ t = TMode m') by (clear -Hdis; set_solver).
  assert (Hin : TMode m ∈ pump m ∪ r) by set_solver.
  split; [split|set_solver]; [by eapply Base_mode|]. intros Hst. specialize (HO Hst).
  destruct (Hm Hst HO) as (H1 & H2 & H3 & H4). apply (Ord_mode d (pump m ∪ r) _ m m'); try done.
  - intros m'' Hm''. by apply (v_mode1 _ _ HB).
  - intros c Hc. destruct (H4 c Hc); auto.
Qed.

(** A mode that says nothing and can be left. *)
Definition idle (m : mode) : Prop := m ≠ MExit ∧ ∀ c q id, m ≠ MFront c q id ∧ m ≠ MSent c q id.

Lemma idle_not_front d r m id : idle m → pump m ## r → Inv strict d (pump m ∪ r) →
  ∀ c q, (TMode (MFront c q id) ∉ pump m ∪ r) ∧ (TMode (MSent c q id) ∉ pump m ∪ r).
Proof.
  intros [_ Hi] Hdis [HB _] c q. pose proof (srv_no_other_mode d r m (MFront c q id) Hdis HB).
  pose proof (srv_no_other_mode d r m (MSent c q id) Hdis HB). destruct (Hi c q id). set_solver.
Qed.

Lemma srv_pump_read {X : Type} (f : dispatcher Request → X) m (m' : X → mode) (Q : gset token → X → Prop) :
  (∀ d r, Inv strict d (pump m ∪ r) → mode_base (m' (f d)) (log d)) →
  (∀ d r, strict = true → Base d (pump m ∪ r) → Ord d (pump m ∪ r) → may_move d m (m' (f d))) →
  (∀ x, Q (pump (m' x)) x) → sf (pump m) (read f) Q.
Proof.
  intros Hb Hok HQ. apply safe_read. intros d r Hdis HI.
  destruct (srv_pump_move d r m (m' (f d)) Hdis HI (Hb d r HI)) as [? ?]; [|eauto].
  intros Hst HO. apply (Hok d r Hst (proj1 HI) HO).
Qed.

(** The pump completes a request between rounds. *)
Lemma srv_pump_complete m c id (Q : gset token → option (Call Request) → Prop) :
  idle m → (∀ k, UniqueId k = id → id ≠ "" → Q (pump m ∪ {[TNotify id]}) (Some k)) → Q (pump m) None →
  sf (pump m) (completeRequestOwned c id) Q.
Proof.
  intros Hm Ht Hf. apply srv_complete; [|done|done].
  intros d r Hdis HI _ c' q'. by apply (idle_not_front d r m).
Qed.

Lemma SInv_notify d o o' id evs :
  Inv strict d o → TNotify id ∈ o → (∀ t, t ∈ o' ↔ t ∈ o ∧ t ≠ TNotify id) →
  (∀ k, on k evs = match k with KNotify => [id] | _ => [] end) → expired evs = [] →
  (∀ x, x ∈ timedout evs → ∃ k, k ∈ expired (log d) ∧ ix_client k = x.1 ∧ ix_request k = x.2) →
  Inv strict (emit evs d) o'.
Proof.
  intros [HB HO] Hin Ho Hev Hexv Htov. split; [by eapply Base_notify|]. intros Hst.
  apply (Ord_tokens _ o); [|apply Ord_events; [intros k Hk; rewrite Hev; by destruct k|auto]].
  intros t Ht. rewrite Ho. split; [by intros [? _]|]. intros. split; [done|]. by intros ->.
Qed.

Lemma SInv_unnotify d o o' id :
  Inv strict d o → onRequestCancel d = false → (∀ t, t ∈ o' ↔ t ∈ o ∧ t ≠ TNotify id) → Inv strict d o'.
Proof.
  intros [HB HO] Hcb Ho. split; [by eapply Base_unnotify|]. intros Hst.
  apply (Ord_tokens _ o); [|by auto].
  intros t Ht. rewrite Ho. split; [by intros [? _]|]. intros. split; [done|]. by intros ->.
Qed.

(** The cancel callback.  A timeout is only reported by a pump that holds the
    expired deadline of that very request. *)
Lemma srv_fire o c action id req err (Q : gset token → unit → Prop) :
  (Marker err = requestTimeoutMarker → ∃ k, TMode (MTimeout k) ∈ o ∧ ix_client k = c ∧ ix_request k = id) →
  TNotify id ∉ o → Q o tt → sf (o ∪ {[TNotify id]}) (fireRequestCancel c action id req err) Q.
Proof.
  intros Hto Hn HQ a d r d' x Hdis HI Heq. exists o. split; [clear -Hdis; set_solver|].
  assert (Ho : ∀ t, t ∈ o ∪ r ↔ t ∈ o ∪ {[TNotify id]} ∪ r ∧ t ≠ TNotify id)
    by (clear -Hdis Hn; set_solver).
  split; [|by destruct x].
  destruct a as [| |p| | | | | | | |]; simplify_eq. case_match eqn:Hcb; simplify_eq; [|by eapply SInv_unnotify].
  eapply (SInv_notify d _ _ id); [exact HI|clear; set_solver|exact Ho|..].
  - intros k. rewrite srv_on_cons. destruct (p && onHandlerPanic d), k; done.
  - by destruct (p && onHandlerPanic d).
  - intros x Hx. set (err' := default err (markLocalTransportError (Some err))) in *.
    assert (Hx' : x = (c, id) ∧ Marker err' = requestTimeoutMarker).
    { unfold timedout in Hx. apply list_elem_of_omap in Hx as (e & He & Hs).
      apply elem_of_cons in He as [->|He]; [case_decide; by simplify_eq|].
      destruct (p && onHandlerPanic d); [|by apply not_elem_of_nil in He].
      apply list_elem_of_singleton in He as ->. done. }
    destruct Hx' as [-> Hmk]. destruct Hto as (k & Hk & ? & ?).
    { subst err'. unfold markLocalTransportError in Hmk. by case_decide; simpl in Hmk. }
    exists k. split; [|done]. apply (v_mode _ _ (proj1 HI) (MTimeout k)). set_solver.
Qed.

(** *** Dispatching *)

Lemma srv_add_pending c q (k : Call Request) (Q : gset token → unit → Prop) :
  Q (pump (MSent c q (UniqueId k))) tt →
  sf (pump (MFront c q (UniqueId k))) (modify (add_pending c k)) Q.
Proof.
  intros HQ. apply safe_modify. intros d r Hdis [HB HO].
  set (m := MFront c q (UniqueId k)) in *. set (m' := MSent c q (UniqueId k)).
  pose proof (srv_no_other_mode d r m m' Hdis HB) as Hno. exists (pump m'). split; [set_solver|]. split; [|done].
  assert (Hin : TMode m ∈ pump m ∪ r) by set_solver.
  assert (Ho : ∀ t, t ∈ pump m' ∪ r ↔ (t ∈ pump m ∪ r ∧ t ≠ TMode m) ∨ t = TMode m') by (clear -Hdis; set_solver).
  assert (HB' : Base d (pump m' ∪ r)).
  { eapply Base_mode; [done..|]. apply (v_mode _ _ HB _ Hin). }
  split.
  - unfold add_pending. case_decide; [|by apply Base_add]. rewrite emit_nil. eapply Base_core; [|done]. by repeat split.
  - intros Hst. specialize (HO Hst). destruct (o_mode _ _ HO m Hin) as (Hp & _ & Hh & _).
    assert (Hne : UniqueId k ≠ "").
    { apply head_Some in Hh as [l Hl]. by apply (accepted_named d _ _ _ _ HB Hl). }
    unfold add_pending. rewrite decide_False; [exact (Ord_add d _ _ c q (UniqueId k) (Payload k) HB HO Hin Ho)|].
    change (pid c (ServerState.AddPendingRequest c (UniqueId k) (Payload k) (pendingRequestState d)) ≠
            pid c (pendingRequestState d)).
    rewrite Hp, pid_add; [done|apply (o_swf _ _ HO)|done|done].
Qed.

Lemma srv_network_Write c q id data (Q : gset token → option error → Prop) :
  Q (pump MFree) None → (∀ e, Q (pump (MSent c q id)) (Some e)) →
  sf (pump (MSent c q id)) (network_Write c q id data) Q.
Proof.
  intros H1 H2 a d r d' x Hdis HI Heq. set (m := MSent c q id) in *.
  destruct a as [|[e|]| | | | | | | | |]; simplify_eq.
  - exists (pump m). split; [done|]. split; [done|]. apply H2.
  - pose proof HI as [HB HO]. assert (Hin : TMode m ∈ pump m ∪ r) by set_solver.
    destruct (srv_pump_move d r m MFree Hdis HI) as [[HBF _] HdF]; [done|by intros; repeat split|].
    exists (pump MFree). split; [done|]. split; [|done]. split.
    + apply Base_write; [done|]. apply (v_mode _ _ HB _ Hin).
    + intros Hst. apply (Ord_write d _ _ c q id data HB (HO Hst) Hin). clear -Hdis. set_solver.
Qed.

(** After a failed write the pump takes the request back, unless the client is
    gone. *)
Lemma sf_take_back c q id (Q : gset token → option (Call Request) → Prop) :
  (∀ k, UniqueId k = id → Q (pump (MIdle c) ∪ {[TNotify id]}) (Some k)) → Q (pump (MLost c)) None →
  sf (pump (MSent c q id)) (completeRequestOwned c id) Q.
Proof.
  intros Hsome Hnone. set (m := MSent c q id). rewrite completeRequestOwned_unfold.
  apply safe_bind, safe_read. intros d r Hdis HI. change (Get c d) with (QueueMap.Get c (queueMap d)).
  destruct (QueueMap.Get c (queueMap d)) as [q'|] eqn:Hg.
  2: { destruct (srv_pump_move d r m (MLost c) Hdis HI) as [? ?]; [done|by intros; repeat split; auto|].
       exists (pump (MLost c)). split; [done|]. split; [done|]. done. }
  exists (pump m). split; [done|]. split; [done|].
  assert (Hqq : strict = true → q' = q).
  { intros Hst. destruct (o_mode _ _ (proj2 HI Hst) m ltac:(set_solver)) as (_ & [?|?] & _); congruence. }
  clear d r Hdis HI Hg. apply safe_bind, safe_atomic. intros d r d' el Hdis HI Heq.
  apply pop_request_cases in Heq as [(-> & -> & Hnf)|(x & x' & e & k & Hx & Hels & He & Hids & -> & -> & Hk & Hid)].
  - destruct (srv_pump_move d r m (MLost c) Hdis HI) as [? ?]; [done| |exists (pump (MLost c)); auto].
    intros Hst HO. exfalso. rewrite (Hqq Hst) in Hnf.
    destruct (o_mode _ _ HO m ltac:(set_solver)) as (_ & _ & Hh & _). apply Hnf; [|done]. apply (o_elems _ _ HO).
  - destruct (srv_pump_move d r m (MDel c id) Hdis HI) as [HI1 Hdis1]; [done| |].
    { intros Hst HO. destruct (o_mode _ _ HO m ltac:(set_solver)) as (Hp & _). by repeat split. }
    set (o := pump (MDel c id)) in *.
    destruct (SInv_pop d (o ∪ r) (o ∪ {[TDel id; TNotify id]} ∪ r) q' id x x' e HI1 Hx Hels He) as (HI2 & Hn1 & Hn2);
      [intros _ c' q0; by apply (idle_not_front d r (MDel c id))|clear; set_solver|].
    exists (o ∪ {[TDel id; TNotify id]}). split; [clear -Hn1 Hn2 Hdis1; set_solver|]. split; [done|].
    rewrite Hk. apply safe_bind, safe_modify. clear -Hsome Hid. intros d r Hdis HI.
    set (o1 := {[TNotify id]} ∪ r). assert (Hd1 : o ## o1) by (subst o o1; clear -Hdis; set_solver).
    set (d' := set_pending _ d). assert (HI1 : Inv strict d' (o ∪ o1)).
    { eapply SInv_del; [done|subst o o1; set_solver|]. subst o o1. clear -Hdis. set_solver. }
    destruct (srv_pump_move d' o1 (MDel c id) (MIdle c) Hd1 HI1) as [HI2 Hd2]; [done| |].
    { intros Hst _. split; [|by repeat split]. destruct HI as [_ HO]. specialize (HO Hst).
      simpl. rewrite pid_delete by apply (o_swf _ _ HO).
      case_decide; [done|]. by destruct (o_mode _ _ HO (MDel c id) ltac:(subst o; set_solver)). }
    exists (pump (MIdle c) ∪ {[TNotify id]}). split; [subst o o1; clear -Hd2 Hdis; set_solver|]. split; [|by apply Hsome].
    by rewrite <-(assoc_L (∪)).
Qed.

Lemma sf_new_ictx m c id u (Q : gset token → clientTimeoutContext → Prop) :
  Q (pump m) None → (∀ n, Q (pump m) (Some (mkIctx c id n))) → sf (pump m) (new_ictx c id u) Q.
Proof.
  intros H1 H2. apply safe_atomic. intros d r d' x Hdis [HB HO] Heq. exists (pump m). split; [done|].
  cbv zeta in Heq. case_match; simplify_eq; [|by split]. clear H. split; [|apply H2]. split.
  - apply (Base_core (set_ictxs (<[mkIctx c id (serial d) := None]> (ictxs d)) d)); [by repeat split|].
    apply Base_ictxs; [done|]. intros k. rewrite lookup_insert. case_decide; [done|]. apply (v_ictx _ _ HB).
  - intros Hst. apply (Ord_core (set_serial (S (serial d)) d)); [by repeat split|]. apply Ord_serial, HO, Hst.
Qed.

Lemma front_bundle_head q d b (k : Call Request) :
  front_bundle q d = Some b → bundle_Call b = Some k → head (queued q (queueMap d)) = Some (UniqueId k).
Proof.
  unfold front_bundle, queue_at, queued, FIFO.Peek. destruct (QueueMap.deref q (queueMap d)) as [x|]; simpl; [|done].
  destruct (FIFO.elements x) as [|[b'|] l]; simpl; [done| |done]. intros [= ->] Hk.
  unfold ids. simpl. unfold elem_id. simpl. by rewrite Hk.
Qed.

(** What one dispatch leaves: the pump still sees nothing pending, or the client
    gone, when it may go on; a written request's context names the request. *)
Definition dispatch_post c o (x : dispatched) : Prop :=
  match ds_status x with
  | dispatchCompletedNoWrite => (o = pump (MIdle c) ∨ o = pump (MLost c)) ∧ ds_ctx x = None
  | _ => o = pump MFree ∧ ∀ k, ds_ctx x = Some k → ix_client k = c ∧ ix_request k = ds_requestID x
  end.

Lemma srv_dispatchNextRequest c : sf (pump (MIdle c)) (dispatchNextRequest c) (dispatch_post c).
Proof.
  unfold dispatchNextRequest.
  apply safe_bind, (srv_pump_read _ _ (λ x, match x with Some q => MGot c q | None => MFree end)).
  { intros d r [HB _]. destruct (Get c d) eqn:Hg; [|done]. by apply (v_created _ _ HB). }
  { intros d r Hst HB HO. destruct (Get c d) as [q|] eqn:Hg; [|by repeat split]. unfold Get in Hg.
    pose proof (o_mode _ _ HO (MIdle c) ltac:(set_solver)) as Hp. simpl in Hp.
    split; [|by repeat split; try done; intros c' [= <-]; rewrite Hg; eauto].
    split; [done|]. split; [by left|]. intros id Hi Hpe.
    destruct (o_pending _ _ HO) as [Hx|Hpend].
    - by pose proof (v_mode1 _ _ HB (MIdle c) MExit ltac:(set_solver) Hx).
    - specialize (Hpend c q id Hg Hi Hpe). rewrite Hp in Hpend. subst.
      apply (v_names _ _ HB). by apply (queued_accepted d _ q "" HB). }
  intros [q|]; [|by split].
  apply safe_bind, (srv_pump_read _ _ (λ x : option (RequestBundle Request), match b ← x; k ← bundle_Call b; Some (b, k) with
                                           | Some (b, k) => match bundle_Data b with
                                                            | Some _ => MFront c q (UniqueId k) | None => MFree end
                                           | None => MFree end)).
  { intros d r [HB _]. pose proof (v_mode _ _ HB (MGot c q) ltac:(set_solver)) as Hcr. by repeat case_match. }
  { intros d r Hst HB HO. destruct (front_bundle q d) as [b|] eqn:Hf; simpl; [|by repeat split].
    destruct (bundle_Call b) as [k|] eqn:Hk; simpl; [|by repeat split].
    destruct (bundle_Data b); [|by repeat split].
    destruct (o_mode _ _ HO (MGot c q) ltac:(set_solver)) as (? & ? & ?).
    split; [|by repeat split; auto]. split; [done|]. split; [done|]. split; [|done].
    by eapply front_bundle_head. }
  intros front. destruct (b ← front; k ← bundle_Call b; Some (b, k)) as [[b k]|]; [|by split].
  destruct (bundle_Data b) as [js|]; [|by split].
  apply safe_bind, (safe_read_frame). intros [e|].
  - apply safe_bind. rewrite completeRequestOwned_unfold.
    apply safe_bind, (srv_pump_read _ _ (λ _, MIdle c)); [done| |].
    { intros d r Hst HB HO. by destruct (o_mode _ _ HO (MFront c q (UniqueId k)) ltac:(set_solver)). }
    intros [q'|]; [|by apply safe_bind; split; auto].
    apply sf_complete_at; [intros d r Hdis HI _ c' q0; by apply (idle_not_front d r (MIdle c))| |].
    + intros k' _ _. apply safe_bind, srv_fire; [done|set_solver|]. split; auto.
    + apply safe_bind. split; auto.
  - apply safe_bind, srv_add_pending, safe_bind, srv_network_Write.
    + apply safe_bind, sf_new_ictx; split; try done. by intros ? [= <-].
    + intros e. apply safe_bind, sf_take_back.
      * intros k' _. apply safe_bind, srv_fire; [done|set_solver|]. split; auto.
      * apply safe_bind. split; auto.
Qed.

(** *** The watcher of a dispatched request *)

Lemma Inv_cancel_ictx d o k : Inv strict d o → Inv strict (cancel_ictx k d) o.
Proof.
  intros [HB HO]. split; [by apply Base_cancel_ictx|]. intros Hst. eapply Ord_core; [|exact (HO Hst)].
  unfold cancel_ictx. by repeat case_match; repeat split.
Qed.

Lemma sf_cancel_ictx k o (Q : gset token → unit → Prop) : Q o tt → sf o (modify (cancel_ictx k)) Q.
Proof. intros HQ. apply safe_modify_frame; [|done]. intros d o'. apply Inv_cancel_ictx. Qed.

Lemma srv_Rest_empty : Rest (∅ : gset token).
Proof. split; set_solver. Qed.
Lemma Rest_exp k n : Rest ({[TExp k n]} : gset token).
Proof. split; set_solver. Qed.

Lemma sf_waitForTimeout c id k u : ix_client k = c → sf ∅ (waitForTimeout c id k u) (λ o _, Rest o).
Proof.
  intros Hc. unfold waitForTimeout. apply safe_bind. intros a d r d' w Hdis HI Heq.
  assert (Hd : d' = d ∧ (w = WExpired → ictxs d !! k = Some (Some CtxDeadline))).
  { destruct a; try done; repeat case_match; by simplify_eq. }
  destruct Hd as [-> Hw]. clear Heq.
  assert (Hend : ∀ o, Rest o → sf o (modify (cancel_ictx k)) (λ o _, Rest o)) by (intros; by apply sf_cancel_ictx).
  destruct w; [|exists ∅; split; [done|]; split; [done|]; cbn [safe]; apply safe_bind..].
  - assert (Hk : k ∈ expired (log d)) by (by apply (v_ictx _ _ (proj1 HI)), Hw).
    destruct (fresh_exp k (∅ ∪ r)) as [n Hn]. exists {[TExp k n]}. split; [set_solver|].
    split.
    { destruct HI as [HB HO]. split; [eapply (Base_exp d _ _ k n HB); [clear; set_solver|done]|].
      intros Hst. apply (Ord_tokens d (∅ ∪ r)); [|exact (HO Hst)]. intros [] ?; set_solver. }
    cbn [safe]. clear -Hc Hend. apply safe_bind. intros a d r d' [] Hdis HI Heq. exists {[TExp k n]}. split; [done|].
    split; [|apply Hend, Rest_exp]. destruct a; try done; [by case_match; simplify_eq|].
    unfold post_timeout in Heq. case_decide; simplify_eq. destruct HI as [HB HO]. split.
    + apply Base_timerC; [done|]. intros t. rewrite elem_of_snoc. intros [?| ->]; [by apply (v_timer _ _ HB)|].
      split; [done|]. apply (v_exp _ _ HB k n). set_solver.
    + intros Hst. eapply Ord_core; [|exact (HO Hst)]. by repeat split.
  - apply Hend, srv_Rest_empty.
  - apply srv_quiet; [|intros []; apply Hend, srv_Rest_empty].
    intros a' d1 d2 [] Heq'. unfold post_cancel in Heq'. repeat case_match; simplify_eq; by repeat split.
  - apply Hend, srv_Rest_empty.
Qed.

(** *** The arms of the pump *)

(** A context the pump keeps belongs to its client and to the request the pump
    keeps for that client. *)
Definition ctx_ok (l : pump_locals) : Prop :=
  ∀ c k, clientContextMap l !! c = Some (Some k) →
    ix_client k = c ∧ ∀ id, dispatchedRequestIDMap l !! c = Some id → id = ix_request k.

Lemma ctx_ok_none l c : ctx_ok l → ctx_ok (set_ctx c None l).
Proof. intros Hl c' k. simpl. rewrite lookup_insert. case_decide; [done|apply Hl]. Qed.
Lemma ctx_ok_undispatched l c : ctx_ok l → ctx_ok (set_dispatched c None l).
Proof.
  intros Hl c' k Hk. destruct (Hl c' k Hk) as [? Hd]. split; [done|]. simpl. intros id.
  intros [_ ?]%lookup_delete_Some. auto.
Qed.
Lemma ctx_ok_forget l c : ctx_ok l → ctx_ok (forget c l).
Proof.
  intros Hl c' k. simpl. intros [? Hk]%lookup_delete_Some. destruct (Hl c' k Hk) as [? Hd]. split; [done|].
  intros id [_ ?]%lookup_delete_Some. auto.
Qed.
Lemma ctx_ok_written l c x i :
  ctx_ok l → (∀ k, x = Some k → ix_client k = c ∧ ∀ id', i = Some id' → id' = ix_request k) →
  ctx_ok (set_dispatched c i (set_ctx c x l)).
Proof.
  intros Hl Hx c' k. simpl. rewrite lookup_insert. case_decide as Hc.
  - subst. intros [= ->]. destruct (Hx k eq_refl) as [? Hid]. split; [done|]. intros id'.
    destruct i as [id|]; [rewrite lookup_insert_eq; intros [= ->]; auto|by rewrite lookup_delete_eq].
  - intros Hk. destruct (Hl c' k Hk) as [? Hd]. split; [done|]. intros id'.
    destruct i as [id|]; [by rewrite lookup_insert_ne by done; auto|]. intros [_ ?]%lookup_delete_Some. auto.
Qed.

Lemma sf_cancel_client x o (Q : gset token → unit → Prop) : Q o tt → sf o (cancel_client x) Q.
Proof. intros HQ. destruct x; [by apply sf_cancel_ictx|done]. Qed.

(** Leaving a mode for [MFree]. *)
Lemma move_free d m : m ≠ MExit → may_move d m MFree.
Proof. by repeat split. Qed.

Lemma sf_pump_free {X : Type} (f : dispatcher Request → X) m (Q : gset token → X → Prop) :
  m ≠ MExit → (∀ x, Q (pump MFree) x) → sf (pump m) (read f) Q.
Proof. intros Hm HQ. apply (srv_pump_read f m (λ _, MFree)); [done| |done]. intros. by apply move_free. Qed.

(** The pump's mode when it has received a request. *)
Definition req_mode (x : option nat) : mode := match x with Some a => MReq a | None => MFree end.

Lemma sf_close_ack x (Q : gset token → unit → Prop) :
  Q (pump MFree) tt → sf (pump (req_mode x)) (close_ack x) Q.
Proof.
  intros HQ. destruct x as [a|]; [|done]. apply safe_modify. intros d r Hdis [HB HO].
  exists (pump MFree). set (d' := set_acks _ d).
  assert (HI : Inv strict d' (pump (MReq a) ∪ r)).
  { split; [eapply Base_core; [|done]; by repeat split|]. intros Hst. apply Ord_close; [done|exact (HO Hst)|set_solver]. }
  destruct (srv_pump_move d' r (MReq a) MFree Hdis HI) as [? ?]; [done|intros; by apply move_free|done].
Qed.

Definition arm_post o (x : pump_locals * option string) : Prop :=
  ctx_ok x.1 ∧ inner x.1 = None ∧ ∃ m, m ≠ MExit ∧ o = pump m.

Lemma arm_post_intro l x m : ctx_ok l → inner l = None → m ≠ MExit → arm_post (pump m) (l, x).
Proof. intros. split; [done|]. split; [done|]. by exists m. Qed.

Lemma sf_request_arm req l :
  ctx_ok l → inner l = None → sf (pump (req_mode (dr_deleteAck req))) (request_arm req l) arm_post.
Proof.
  intros Hl Hi. unfold request_arm. apply safe_bind, safe_read_frame. intros [q|].
  - apply safe_bind. destruct (dr_deleteAck req) as [a|]; [|by apply arm_post_intro].
    apply safe_bind, sf_cancel_client, safe_bind, (sf_close_ack (Some a)).
    by apply arm_post_intro; [apply ctx_ok_forget| |].
  - apply safe_bind, sf_cancel_client, safe_bind, sf_close_ack.
    by apply arm_post_intro; [apply ctx_ok_forget| |].
Qed.

Lemma ctx_of_Some l c k : ctx_of c l = Some k → clientContextMap l !! c = Some (Some k).
Proof. unfold ctx_of. destruct (clientContextMap l !! c) as [x|]; simpl; [by intros ->|done]. Qed.

Lemma srv_timeout_arm tok l :
  ctx_ok l → inner l = None → sf (pump (MTimeout (tt_ctx tok))) (timeout_arm tok l) arm_post.
Proof.
  intros Hl Hi. unfold timeout_arm. set (c := tt_clientID tok). set (k := tt_ctx tok).
  case_decide as Hk; [|by apply arm_post_intro].
  destruct (Hl c k (ctx_of_Some _ _ _ Hk)) as [Hc Hd].
  assert (Hl' : ctx_ok (set_dispatched c None (set_ctx c None l))) by (by apply ctx_ok_undispatched, ctx_ok_none).
  apply safe_bind, sf_cancel_client, safe_bind, safe_read_frame. intros [].
  - apply safe_bind, srv_pump_complete; [by split| |by apply arm_post_intro].
    intros call Hid Hne. apply safe_bind, safe_read_frame. intros q. rewrite Hid.
    apply safe_bind, srv_fire; [|set_solver|by apply arm_post_intro].
    intros _. exists k. split; [set_solver|]. split; [done|].
    destruct (dispatchedRequestIDMap l !! c) as [x|] eqn:Hx; [|done]. symmetry. by apply Hd.
  - apply safe_bind, safe_read_frame. intros [q|]; by apply arm_post_intro.
Qed.

Lemma sf_ready_arm tok l : ctx_ok l → inner l = None → sf (pump MFree) (ready_arm tok l) arm_post.
Proof.
  intros Hl Hi. unfold ready_arm. case_decide; [by apply arm_post_intro|].
  apply safe_bind, sf_cancel_client, safe_bind, safe_read_frame. intros q.
  apply arm_post_intro; [|by destruct q, (isActive _)|done].
  assert (Hl' : ctx_ok (set_dispatched (rt_clientID tok) None
    (if isActive (ctx_of (rt_clientID tok) l) then set_ctx (rt_clientID tok) None l else l))).
  { apply ctx_ok_undispatched. destruct (isActive _); [by apply ctx_ok_none|done]. }
  by destruct q.
Qed.

Lemma sf_cancel_arm tok l : ctx_ok l → inner l = None → sf (pump MFree) (cancel_arm tok l) arm_post.
Proof.
  intros Hl Hi. unfold cancel_arm. case_decide; [by apply arm_post_intro|].
  apply safe_bind, srv_pump_complete; [by split| |by apply arm_post_intro].
  intros call Hid Hne. apply safe_bind, sf_cancel_client, safe_bind, safe_read_frame. intros q.
  apply safe_bind, safe_read_frame. intros e. rewrite Hid.
  apply safe_bind, srv_fire; [done|set_solver|].
  apply arm_post_intro; [|done|done]. by apply ctx_ok_undispatched, ctx_ok_none.
Qed.

(** *** The stop arm *)

Definition notify_set (l : list string) : gset token := list_to_set (TNotify <$> l).

Lemma srv_elem_of_notify_set l t : t ∈ notify_set l ↔ ∃ id, id ∈ l ∧ t = TNotify id.
Proof. unfold notify_set. rewrite elem_of_list_to_set, list_elem_of_fmap. naive_solver. Qed.

Lemma cancel_ids_cons (e : element Request) els :
  cancel_ids (e :: els) = match cancelable e with Some k => UniqueId k :: cancel_ids els | None => cancel_ids els end.
Proof. unfold cancel_ids. simpl. by destruct (cancelable e). Qed.

Lemma srv_cancel_all c (els : list (element Request)) o (Q : gset token → unit → Prop) :
  NoDup (cancel_ids els) → o ## notify_set (cancel_ids els) → Q o tt →
  sf (o ∪ notify_set (cancel_ids els)) (cancel_all c els) Q.
Proof.
  intros Hnd Hdis HQ. induction els as [|e els IH]; cbn [cancel_all].
  { simpl. replace (o ∪ _) with o; [done|]. apply leibniz_equiv. unfold notify_set. set_solver. }
  apply safe_bind. rewrite cancel_ids_cons in *. destruct (cancelable e) as [k|] eqn:He; [|by apply IH].
  apply NoDup_cons in Hnd as [Hnin Hnd].
  replace (o ∪ notify_set (UniqueId k :: cancel_ids els))
    with ((o ∪ notify_set (cancel_ids els)) ∪ {[TNotify (UniqueId k)]})
    by (apply leibniz_equiv; unfold notify_set; clear; set_solver).
  apply srv_fire; [done| |apply IH; [done|unfold notify_set in *; clear -Hdis; set_solver]].
  intros [Hx|Hx]%elem_of_union.
  - apply (Hdis _ Hx), srv_elem_of_notify_set. exists (UniqueId k). split; [left|done].
  - apply srv_elem_of_notify_set in Hx as (id & ? & ?). by simplify_eq.
Qed.

Lemma cancel_ids_sub (els : list (element Request)) : cancel_ids els `sublist_of` ids els.
Proof.
  induction els as [|e els IH]; [done|]. unfold cancel_ids, ids in *. simpl.
  destruct (cancelable e) as [k|] eqn:Hk; simpl.
  - unfold elem_id at 1. rewrite (cancelable_call _ _ Hk). simpl. by apply sublist_skip.
  - destruct (elem_id e); [by apply sublist_cons|done].
Qed.

Lemma sf_drain_queue c q (Q : gset token → unit → Prop) :
  Q (pump MExit) tt →
  sf (pump MExit) (drain_queue q) (λ o els, sf o (cancel_all c els) Q).
Proof.
  intros HQ. apply safe_atomic. intros d r d' els Hdis HI Heq. unfold queue_at in Heq.
  destruct (QueueMap.deref q (queueMap d)) as [x|] eqn:Hx; simpl in Heq; simplify_eq; [|by exists (pump MExit)].
  set (els := FIFO.elements x). set (o := pump MExit ∪ notify_set (cancel_ids els)).
  assert (Hnd : NoDup (cancel_ids els)).
  { eapply sublist_NoDup; [|apply cancel_ids_sub]. pose proof (queued_NoDup d _ q (proj1 HI)) as Hnd.
    unfold queued in Hnd. by rewrite Hx in Hnd. }
  destruct HI as [HB HO].
  destruct (Base_drainq d (pump MExit ∪ r) (o ∪ r) q x (FIFO.mkQueue [] (FIFO.capacity x)) HB Hx) as [HB' Hfresh];
    [done|intros t; subst o; rewrite !elem_of_union, srv_elem_of_notify_set; naive_solver|].
  exists o. split.
  { intros t. subst o. rewrite elem_of_union, srv_elem_of_notify_set. intros [?|(id & Hid & ->)] Hr; [by apply (Hdis t)|].
    apply (Hfresh id Hid). set_solver. }
  split; [split; [done|]|].
  - intros Hst. apply (Ord_tokens _ (pump MExit ∪ r)).
    { intros t Ht. subst o. rewrite !elem_of_union, srv_elem_of_notify_set. naive_solver. }
    apply Ord_events; [intros k Hk; rewrite srv_on_app, srv_on_taken_events, on_dropped_events; by destruct k|].
    apply Ord_drainq; [done|exact (HO Hst)|set_solver|done].
  - apply srv_cancel_all; [done| |done]. intros t Ht. rewrite srv_elem_of_notify_set. set_solver.
Qed.

Lemma sf_drain_clients n m (Q : gset token → unit → Prop) :
  Q (pump MExit) tt → sf (pump MExit) (drain_clients n m) Q.
Proof.
  intros HQ. revert m. induction n as [|n IH]; intros m; cbn [drain_clients]; [done|].
  apply safe_bind, srv_quiet; [quiet|]. intros [c q]. simpl fst. simpl snd.
  apply safe_bind. eapply safe_mono;
    [|apply (sf_drain_queue c q (λ o _, sf o (drain_clients n (delete c m)) Q)), IH].
  intros o els Hs. by apply safe_bind.
Qed.

Lemma sf_stop_arm (Q : gset token → unit → Prop) : Q (pump MExit) tt → sf (pump MExit) stop_arm Q.
Proof.
  intros HQ. unfold stop_arm. apply safe_bind, safe_atomic. intros d r d' m Hdis [HB HO] Heq.
  change (Some (set_queueMap (QueueMap.DrainAll (queueMap d)).1 d, (QueueMap.DrainAll (queueMap d)).2) = Some (d', m)) in Heq.
  assert (Hd : d' = set_queueMap (QueueMap.DrainAll (queueMap d)).1 d) by congruence. subst d'. clear Heq.
  exists (pump MExit). split; [done|]. split.
  { split; [by apply Base_detach|]. intros Hst. specialize (HO Hst).
    apply (Ord_detach d (pump MExit ∪ r) _ MExit HB HO); [set_solver| |clear -Hdis; set_solver].
    apply (o_stopped _ _ HO). right. right. set_solver. }
  clear d r Hdis HB HO. apply safe_bind, safe_modify. intros d r Hdis [HB HO].
  exists (pump MExit). split; [done|]. split.
  { split; [eapply Base_core; [|done]; by repeat split|]. intros Hst. apply Ord_clearall; [exact (HO Hst)|set_solver]. }
  clear d r Hdis HB HO. apply safe_bind, sf_drain_clients, safe_modify. intros d r Hdis [HB HO].
  exists (pump MExit). split; [done|]. split; [|done].
  split; [eapply Base_core; [|done]; by repeat split|]. intros Hst. apply Ord_done; [exact (HO Hst)|set_solver].
Qed.

(** *** One step of the pump *)

Definition pump_rest (l : pump_locals) o : Prop :=
  ctx_ok l ∧ match inner l with Some c => o = pump (MIdle c) | None => ∃ m, m ≠ MExit ∧ o = pump m end.

Lemma Rest_pump m : Rest (pump m).
Proof. split; set_solver. Qed.

Lemma srv_pump_rest_Rest l o : pump_rest l o → Rest o.
Proof. intros [_ Ho]. destruct (inner l); [subst; apply Rest_pump|]. destruct Ho as (m & _ & ->). apply Rest_pump. Qed.

Lemma pump_rest_out l m : ctx_ok l → m ≠ MExit → loop_post Rest pump_rest (pump m) (Some (set_inner None l)).
Proof. intros. split; [done|]. by exists m. Qed.

Lemma sf_dispatch_guard c l m :
  ctx_ok l → inner l = None → m ≠ MExit → sf (pump m) (dispatch_guard c l) (loop_post Rest pump_rest).
Proof.
  intros Hl Hi Hm. unfold dispatch_guard.
  assert (HQ : ∀ m, m ≠ MExit → loop_post Rest pump_rest (pump m) (Some l)).
  { intros m' Hm'. split; [done|]. rewrite Hi. by exists m'. }
  destruct (rdy l), (clientQueue l) as [q|]; try by apply HQ.
  apply safe_bind, safe_read_frame. intros []; [by apply HQ|].
  apply safe_bind, (srv_pump_read _ m (λ h : bool, if h then MFree else MIdle c)).
  - intros d r _. by case_match.
  - intros d r Hst HB HO. destruct (ServerState.HasPendingRequest _ _) eqn:Hh; [by apply move_free|].
    apply pid_has in Hh. by repeat split.
  - intros []; [by apply HQ|]. by split.
Qed.

Lemma sf_dispatch_round c l :
  ctx_ok l → inner l = Some c → sf (pump (MIdle c)) (dispatch_round c l) (loop_post Rest pump_rest).
Proof.
  intros Hl Hin. unfold dispatch_round. apply safe_bind. eapply safe_mono; [|apply srv_dispatchNextRequest].
  intros o x Hx. apply safe_bind. set (Q := loop_post Rest pump_rest).
  assert (HK : ∀ has : bool, sf o (bind (match ds_ctx x with
      | Some k => Fork (waitForTimeout c (ds_requestID x) k (ds_userCtx x)) (Ret tt)
      | None => Ret tt
      end) (λ _, let l3 := set_rdy false (set_dispatched c (if has then Some (ds_requestID x) else None)
                             (set_ctx c (ds_ctx x) l)) in
        match ds_status x with
        | dispatchCompletedNoWrite =>
            bind (read (Get c)) (λ p, match p with
              | None => Ret (Some (set_inner None l3))
              | Some q => bind (read (λ d, match queue_at q d with Some y => FIFO.IsEmpty y | None => true end))
                  (λ empty : bool, Ret (Some (if empty then set_inner None l3 else l3)))
              end)
        | _ => Ret (Some (set_inner None l3))
        end)) Q).
  2: { case_decide; [apply HK|]. apply safe_read_frame. intros has. apply HK. }
  intros has. cbv zeta. set (l3 := set_rdy _ _).
  assert (Hl3 : ctx_ok l3 ∧ inner l3 = Some c).
  { split; [|done]. apply (ctx_ok_written l c _ (if has then Some (ds_requestID x) else None)); [done|].
    intros k Hk. unfold dispatch_post in Hx. destruct (ds_status x).
    1,2: destruct Hx as [_ Hx]; destruct (Hx k Hk) as [? ?]; split; [done|]; intros id'; destruct has; congruence.
    destruct Hx as [_ Hx]. congruence. }
  destruct Hl3 as [Hl3 Hi3]. clearbody l3. apply safe_bind.
  assert (Hout : ∀ m, m ≠ MExit → Q (pump m) (Some (set_inner None l3))) by (intros; by apply pump_rest_out).
  unfold dispatch_post in Hx. destruct (ds_status x).
  1,2: destruct Hx as [-> Hx]; destruct (ds_ctx x) as [k|]; [|by apply Hout];
    exists ∅, (pump MFree); split; [set_solver|]; split; [set_solver|]; split; [|by apply Hout];
    by apply sf_waitForTimeout, Hx.
  destruct Hx as [Ho Hx]. rewrite Hx. cbn [safe].
  assert (HR : ∀ m, m = MIdle c ∨ m = MLost c → o = pump m → sf o (read (Get c)) (λ o' p,
    sf o' (match p with
      | Some q => bind (read (λ d, match queue_at q d with Some y => FIFO.IsEmpty y | None => true end))
          (λ empty : bool, Ret (Some (if empty then set_inner None l3 else l3)))
      | None => Ret (Some (set_inner None l3))
      end) Q)).
  2: { apply safe_bind. destruct Ho as [Ho|Ho]; [apply (HR (MIdle c))|apply (HR (MLost c))]; auto. }
  intros m Hm ->. assert (Hme : m ≠ MExit) by (by destruct Hm as [->| ->]).
  apply (srv_pump_read _ m (λ p : option nat, match p with Some _ => MIdle c | None => MFree end)).
  - intros d r _. by case_match.
  - intros d r Hst HB HO. destruct (Get c d) eqn:Hg; [|by apply move_free].
    pose proof (o_mode _ _ HO m ltac:(set_solver)) as Hok. destruct Hm as [->| ->]; [by repeat split|].
    simpl in Hok. unfold Get in Hg. congruence.
  - intros [q|]; [|by apply Hout]. apply safe_bind.
    apply (srv_pump_read _ (MIdle c) (λ e : bool, if e then MFree else MIdle c)).
    + intros d r _. by repeat case_match.
    + intros d r Hst HB HO. pose proof (o_mode _ _ HO (MIdle c) ltac:(set_solver)) as Hok.
      destruct (match queue_at q d with Some y => _ | None => _ end); by repeat split.
    + intros []; [by apply Hout|]. split; [done|]. by rewrite Hi3.
Qed.

(** What the [select] received puts the pump in. *)
Definition select_mode (x : selected) : mode :=
  match x with
  | SelStopped => MExit
  | SelRequest req => req_mode (dr_deleteAck req)
  | SelTimer tok => MTimeout (tt_ctx tok)
  | _ => MFree
  end.

Lemma srv_select m (Q : gset token → selected → Prop) :
  m ≠ MExit → (∀ x, Q (pump (select_mode x)) x) → sf (pump m) (choose select_arm) Q.
Proof.
  intros Hm HQ a d r d' x Hdis HI Heq. exists (pump (select_mode x)).
  assert (Hmove : ∀ d', Inv strict d' (pump m ∪ r) → mode_base (select_mode x) (log d') →
    (strict = true → mode_ord (select_mode x) d' ∧ (select_mode x = MExit → running d' = false)) →
    Inv strict d' (pump (select_mode x) ∪ r) ∧ pump (select_mode x) ## r).
  { intros d0 HI0 Hb Ho. apply (srv_pump_move d0 r m); [done|done|done|]. intros Hst _. destruct (Ho Hst) as [? ?].
    split; [done|]. split; [done|]. split; [done|]. by destruct x as [|[? []]| | |]. }
  enough (Inv strict d' (pump (select_mode x) ∪ r) ∧ pump (select_mode x) ## r) as [? ?]
    by (split; [done|]; split; [done|apply HQ]).
  destruct HI as [HB HO]. destruct a as [[]| | | | | | | | | |]; simpl in Heq; try done.
  - case_match eqn:Hs; simplify_eq. apply Hmove; [by split|done|]. intros Hst. split; [done|].
    intros _. apply (o_stopped _ _ (HO Hst)). by left.
  - destruct (requestChannel d) as [|req rs] eqn:Hr; simplify_eq.
    assert (Hreq : strict = true → ∀ y a, y ∈ req :: rs → dr_deleteAck y = Some a → a < serial d).
    { intros Hst. rewrite <-Hr. apply (o_reqs _ _ (HO Hst)). }
    apply Hmove.
    + split; [eapply Base_core; [|done]; by repeat split|]. intros Hst. apply Ord_requests; [exact (HO Hst)|].
      intros y a Hy. apply (Hreq Hst). by right.
    + simpl. by destruct (dr_deleteAck req).
    + intros Hst. specialize (Hreq Hst req). simpl. destruct (dr_deleteAck req); [|done].
      split; [|done]. simpl. apply Hreq; [left|done].
  - destruct (timerC d) as [|t ts] eqn:Ht; simplify_eq. apply Hmove; [|simpl|done].
    + split; [|intros Hst; eapply Ord_core; [|exact (HO Hst)]; by repeat split].
      apply Base_timerC; [done|]. intros t' Ht'. apply (v_timer _ _ HB). rewrite Ht. by right.
    + apply (v_timer _ _ HB). rewrite Ht. left.
  - case_match; simplify_eq. apply Hmove; [eapply SInv_core; [|by split]; by repeat split|done|done].
  - case_match; simplify_eq. apply Hmove; [eapply SInv_core; [|by split]; by repeat split|done|done].
Qed.

Lemma srv_messagePump l o : pump_rest l o → sf o (messagePump l) (loop_post Rest pump_rest).
Proof.
  intros [Hl Ho]. unfold messagePump. destruct (inner l) as [c|] eqn:Hi.
  { subst. by apply sf_dispatch_round. }
  destruct Ho as (m & Hm & ->). apply safe_bind, srv_select; [done|]. intros x.
  assert (HG : ∀ o x, arm_post o x →
    sf o (match x.2 with Some c => dispatch_guard c x.1 | None => Ret (Some x.1) end) (loop_post Rest pump_rest)).
  { intros o [l' [c|]] (Hl' & Hi' & m' & Hm' & ->); simpl in *; [by apply sf_dispatch_guard|].
    split; [done|]. rewrite Hi'. by exists m'. }
  unfold run_arm. destruct x; simpl select_mode.
  - apply safe_bind, sf_stop_arm. apply Rest_pump.
  - apply safe_bind. eapply safe_mono; [exact HG|by apply sf_request_arm].
  - apply safe_bind. eapply safe_mono; [exact HG|by apply srv_timeout_arm].
  - apply safe_bind. eapply safe_mono; [exact HG|by apply sf_ready_arm].
  - apply safe_bind. eapply safe_mono; [exact HG|by apply sf_cancel_arm].
Qed.

Lemma srv_pump_thread_ok : thread_ok (Inv (Request:=Request) strict) Rest (pump MFree) pump_thread.
Proof.
  exists pump_rest. split.
  - intros l o Ho. split; [by eapply srv_pump_rest_Rest|]. by apply srv_messagePump.
  - apply srv_messagePump. split; [|by exists MFree]. intros c k. simpl. by rewrite lookup_empty.
Qed.

(** *** The operations of the other goroutines *)

Lemma Rest_singleton t : (∀ id, t ≠ TDel id ∧ t ≠ TNotify id) → Rest ({[t]} : gset token).
Proof. intros Ht id. destruct (Ht id). rewrite !elem_of_singleton. by split; intros <-. Qed.

Lemma sf_channel_send req evs o (Q : gset token → unit → Prop) :
  silent evs → (strict = true → ∀ d r, Ord d (o ∪ r) → ∀ a, dr_deleteAck req = Some a → a < serial d) →
  Q o tt → sf o (channel_send req evs) Q.
Proof.
  intros He Ha HQ. apply safe_atomic. intros d r d' [] Hdis [HB HO] Heq. exists o. split; [done|]. split; [|done].
  case_decide; simplify_eq. split.
  - apply Base_silent; [done|]. eapply Base_core; [|done]. by repeat split.
  - intros Hst. apply Ord_events; [intros k _; apply He|]. apply Ord_requests; [exact (HO Hst)|].
    intros y a [Hy| ->]%elem_of_snoc; [by apply (o_reqs _ _ (HO Hst))|]. by apply (Ha Hst d r (HO Hst)).
Qed.

Lemma silent_posted id : silent [EvPosted (Request:=Request) id].
Proof. split; [by intros []|done]. Qed.

Lemma srv_SendRequest c b (k : Call Request) :
  bundle_Call b = Some k → sf {[TSend (UniqueId k)]} (SendRequest c b) (λ o _, Rest o).
Proof.
  intros Hk. unfold SendRequest. set (id := UniqueId k).
  assert (HRs : Rest ({[TSend id]} : gset token)) by (by apply Rest_singleton).
  assert (Hpost : ∀ o, Rest o → sf o (bind RLock (λ _, bind (read running) (λ run : bool,
    if negb run then bind RUnlock (λ _, Ret (Some (errNotRunning (bundle_id b))))
    else bind (channel_send (mkDispatch c None) [EvPosted (bundle_id b)]) (λ _, bind RUnlock (λ _, Ret None)))))
    (λ o _, Rest o)).
  { intros o Ho. apply safe_bind, sf_RLock, safe_bind, safe_read_frame. intros []; cbn [negb].
    - apply safe_bind, sf_channel_send; [apply silent_posted|done|]. by apply safe_bind, sf_RUnlock.
    - by apply safe_bind, sf_RUnlock. }
  apply safe_bind, safe_read_frame. intros []; cbn [negb]; [|done].
  apply safe_bind, safe_read_frame. intros [q|]; [|done].
  apply safe_bind, safe_atomic. intros d r d' e Hdis HI Heq. unfold queue_at in Heq.
  destruct (QueueMap.deref q (queueMap d)) as [x|] eqn:Hx.
  2: { simplify_eq. exists {[TSend id]}. split; [done|]. split; [done|]. by apply Hpost. }
  destruct (FIFO.Push (EBundle b) x) as [x' [err|]] eqn:Hp; simplify_eq.
  { exists {[TSend id]}. split; [done|]. split; [|done].
    change (rq_push (EBundle b) x = (x', Some err)) in Hp. apply rq_push_err in Hp as ->.
    by rewrite store_same, emit_nil. }
  exists ∅. split; [set_solver|]. split; [|by apply Hpost, srv_Rest_empty].
  pose proof (push_ids b k _ _ Hk Hp) as Hids. fold id in Hids.
  assert (Hels : FIFO.elements x' = FIFO.elements x ++ [EBundle b]).
  { change (rq_push (EBundle b) x = (x', None)) in Hp. by apply rq_push_ok in Hp. }
  replace (EvAccept q <$> ids [EBundle b]) with [EvAccept (Request:=Request) q id]
    by (by rewrite (ids_cons_call (EBundle b) [] k Hk)).
  assert (Ho : ∀ t, t ∈ ∅ ∪ r ↔ t ∈ ({[TSend id]} ∪ r : gset token) ∧ t ≠ TSend id) by (clear -Hdis; set_solver).
  destruct HI as [HB HO]. split.
  - eapply (Base_push d _ _ q id x x' HB); [set_solver|done| |done]. unfold queued. by rewrite Hx.
  - intros Hst. apply (Ord_tokens _ ({[TSend id]} ∪ r)); [intros t Ht; rewrite Ho; naive_solver|].
    apply (Ord_push d _ q id x x' (EBundle b) HB (HO Hst)); [set_solver|done|done|].
    unfold elem_id. simpl. by rewrite Hk.
Qed.

Lemma sf_CompleteRequest o c id (Q : gset token → bool → Prop) :
  (∀ d r, o ## r → Inv strict d (o ∪ r) → strict = true →
     ∀ c' q', (TMode (MFront c' q' id) ∉ o ∪ r) ∧ (TMode (MSent c' q' id) ∉ o ∪ r)) →
  Q (o ∪ {[TNotify id]}) true → Q o false → sf o (CompleteRequest c id) Q.
Proof.
  intros Hfr Ht Hf. apply safe_bind, srv_complete; [done| |done].
  intros k _ _. apply safe_bind, srv_quiet_atomic; [quiet|]. by intros [].
Qed.

(** A response for a request the goroutine knows to be written. *)
Lemma srv_handle_response o c id :
  (∀ id', (TDel id' ∉ o) ∧ (TNotify id' ∉ o)) → (strict = true → ∃ n, TSeen id n ∈ o) →
  sf o (handle_response c id) (λ o _, Rest o).
Proof.
  intros Hrest Hseen. unfold handle_response. apply safe_bind, safe_atomic. intros d r d' l Hdis [HB HO] Heq.
  exists o. split; [done|]. split.
  { pose proof (Ord_getstate d (o ∪ r) c) as Hg. destruct (ServerState.GetClientState c (pendingRequestState d)).
    simplify_eq. split; [eapply Base_core; [|done]; by repeat split|]. intros Hst. exact (Hg (HO Hst)). }
  clear d r d' Hdis HB HO Heq. apply safe_bind, safe_read_frame. intros [x|]; [|done].
  apply safe_bind, sf_CompleteRequest; [| |done].
  - intros d r Hdis [HB HO] Hst c' q'. destruct (Hseen Hst) as [n Hn].
    apply (written_not_front d _ c' q' id HB (HO Hst)). apply (o_seen _ _ (HO Hst) id n). set_solver.
  - apply safe_modify. intros d r Hdis HI. exists o. split; [set_solver|]. split; [|done].
    eapply (SInv_notify d _ _ id); [exact HI|set_solver| |by intros []|done|].
    + destruct (Hrest id). clear -Hdis H0. set_solver.
    + by intros x' ?%not_elem_of_nil.
Qed.

Lemma srv_Stop : sf ∅ Stop (λ o _, Rest o).
Proof.
  unfold Stop. apply safe_bind, safe_atomic. intros d r d' x Hdis HI Heq.
  exists ∅. split; [done|]. unfold stop_section in Heq. split.
  - destruct (writer d); [done|]. case_decide; [|done]. destruct (running d); simplify_eq; [|done].
    destruct HI as [HB HO]. split; [eapply Base_core; [|done]; by repeat split|].
    intros Hst. apply Ord_stop, HO, Hst.
  - destruct x; [|apply srv_Rest_empty]. apply srv_quiet_atomic; [quiet|intros; apply srv_Rest_empty].
Qed.

Lemma sf_deadline_passes k : sf ∅ (deadline_passes k) (λ o _, Rest o).
Proof.
  apply safe_atomic. intros d r d' x Hdis [HB HO] Heq. exists ∅. split; [done|]. split; [|apply srv_Rest_empty].
  repeat case_match; simplify_eq. split; [by apply Base_expire|].
  intros Hst. apply Ord_events; [by intros []|]. eapply Ord_core; [|exact (HO Hst)]. by repeat split.
Qed.

(** *** Sessions *)

Definition sess c (P : session → Prop) o : Prop := ∃ s, o = {[TSess c s]} ∧ (strict = true → P s).
Definition off (s : session) : Prop := s = SOff ∨ s = SDead.

Lemma Rest_sess c P o : sess c P o → Rest o.
Proof. intros (s & -> & _). by apply Rest_singleton. Qed.

Lemma sess_move d r c s s' d' :
  {[TSess c s]} ## r → Inv strict d ({[TSess c s]} ∪ r) → Base d' ({[TSess c s]} ∪ r) →
  (strict = true → Ord d ({[TSess c s]} ∪ r) → Ord d' ({[TSess c s']} ∪ r)) →
  ∃ o', o' ## r ∧ Inv strict d' (o' ∪ r) ∧ sess c (λ x, x = s') o'.
Proof.
  intros Hdis [HB HO] HB' HO'. destruct (decide (strict = true)) as [Hst|Hn].
  - exists {[TSess c s']}. split; [|split; [|by exists s']].
    + apply disjoint_singleton_l. intros Hin. assert (s' = s) as ->; [|set_solver].
      apply (o_sess1 _ _ (HO Hst) c); set_solver.
    + split; [|intros _; exact (HO' Hst (HO Hst))].
      apply (Base_unseen d' ({[TSess c s]} ∪ r)); [done| |].
      * intros t [->%elem_of_singleton|?]%elem_of_union; [by right|left; set_solver].
      * intros id. set_solver.
  - exists {[TSess c s]}. split; [done|]. split; [by split|]. by exists s.
Qed.

Lemma set_queueMap_id d : set_queueMap (queueMap d) d = d.
Proof. by destruct d. Qed.

Lemma silent_panic : silent [EvPanic (Request:=Request)].
Proof. split; [by intros []|done]. Qed.

(** The tokens of the session move from [s] to [s']. *)
Lemma sess_tokens d r c s s' : {[TSess c s]} ## r → Base d ({[TSess c s]} ∪ r) →
  ∀ t, t ∈ ({[TSess c s']} ∪ r : gset token) ↔ (t ∈ ({[TSess c s]} ∪ r : gset token) ∧ t ≠ TSess c s) ∨ t = TSess c s'.
Proof. intros Hdis _. set_solver. Qed.

Lemma sf_create_queue c s (Q : gset token → unit → Prop) :
  (strict = true → s = SOff) → (∀ o, sess c (λ x, x = SOn ∨ x = SOff) o → Q o tt) →
  sf {[TSess c s]} (modify (create_queue c)) Q.
Proof.
  intros Hs HQ. apply safe_modify. intros d r Hdis HI. unfold create_queue.
  assert (Hin : TSess c s ∈ ({[TSess c s]} ∪ r : gset token)) by set_solver.
  assert (Hkeep : ∃ o', o' ## r ∧ Inv strict d (o' ∪ r) ∧ Q o' tt).
  { exists {[TSess c s]}. split; [done|]. split; [done|]. apply HQ. exists s. auto. }
  destruct (QueueMap.GetOrCreate c (queueMap d)) as [[f q]|] eqn:Hg.
  - destruct (Get c d) as [q0|] eqn:Hq.
    + assert (f = queueMap d) as -> by (unfold QueueMap.GetOrCreate in Hg; unfold Get, QueueMap.Get in Hq; rewrite Hq in Hg; congruence).
      by rewrite emit_nil, set_queueMap_id.
    + destruct (sess_move d r c s SOn (emit [EvCreated c q] (set_queueMap f d)) Hdis HI) as (o' & ? & ? & Ho').
      * by apply Base_create; [apply HI|..].
      * intros Hst HO. apply Ord_events; [by intros []|]. rewrite (Hs Hst) in *.
        apply (Ord_create d ({[TSess c SOff]} ∪ r) _ c f q (proj1 HI) HO Hin Hg). apply (sess_tokens d); [done|apply HI].
      * exists o'. split; [done|]. split; [done|]. apply HQ. destruct Ho' as (s' & -> & Hs'). exists s'. split; [done|].
        intros Hst. left. auto.
  - destruct Hkeep as (o' & ? & [HB HO] & ?). exists o'. split; [done|]. split; [|done].
    split; [by apply Base_silent; [apply silent_panic|]|]. intros Hst. apply Ord_events; [by intros []|exact (HO Hst)].
Qed.

Lemma sf_onClientConnected c o (Q : gset token → unit → Prop) :
  sess c off o → (∀ o', sess c (λ _, True) o' → Q o' tt) → sf o (onClientConnected c) Q.
Proof.
  intros (s & -> & Hs) HQ. unfold onClientConnected, CreateClient.
  apply safe_bind, sf_RLock, safe_bind, safe_read. intros d r Hdis HI. exists {[TSess c s]}. split; [done|].
  split; [done|]. apply safe_bind. destruct (running d) eqn:Hr.
  - apply sf_create_queue.
    + intros Hst. destruct (Hs Hst) as [?| ->]; [done|].
      destruct (o_sess _ _ (proj2 HI Hst) c SDead ltac:(set_solver)) as [_ ?]. congruence.
    + intros o' (s' & -> & _). apply sf_RUnlock, HQ. by exists s'.
  - apply sf_RUnlock, HQ. by exists s.
Qed.

(** The wait of [DeleteClientAndWait] ends: acknowledged, or stopped. *)
Lemma sf_await_ack c s a (Q : gset token → unit → Prop) :
  (strict = true → s = SWait a) → (∀ o, sess c off o → Q o tt) →
  sf {[TSess c s]} (choose (λ ch d, match ch with
    | AckReceived => if decide (a ∈ acks d) then Some (d, tt) else if doneC d then Some (d, tt) else None
    | WaitOver => if waitsExpire d then Some (d, tt) else None
    | _ => None
    end)) Q.
Proof.
  intros Hs HQ ch d r d' [] Hdis HI Heq.
  assert (Hd : d' = d ∧ (strict = true → a ∈ acks d ∨ doneC d = true)).
  { destruct ch; try done; repeat case_match; simplify_eq; split; auto. intros Hst.
    pose proof (o_env _ _ (proj2 HI Hst)). congruence. }
  destruct Hd as [-> Hd]. clear Heq. pose proof HI as [HB HO].
  set (s' := if decide (a ∈ acks d) then SOff else SDead).
  destruct (sess_move d r c s s' d Hdis HI HB) as (o' & ? & ? & (s1 & -> & Hs1)).
  - intros Hst HO'. specialize (Hs Hst). subst s.
    destruct (o_sess _ _ HO' c (SWait a) ltac:(set_solver)) as (Hg & _ & Hq).
    apply (Ord_sess d ({[TSess c (SWait a)]} ∪ r) _ c (SWait a) s'); [done|set_solver| |by apply (sess_tokens d)].
    subst s'. case_decide; simpl; [auto|]. split; [done|]. destruct (Hd Hst) as [?|?]; [done|].
    apply (o_stopped _ _ HO'). auto.
  - exists {[TSess c s1]}. split; [done|]. split; [done|]. apply HQ. exists s1. split; [done|].
    intros Hst. rewrite (Hs1 Hst). subst s'. unfold off. case_decide; auto.
Qed.

Lemma sf_DeleteClientAndWait c o (Q : gset token → unit → Prop) :
  sess c (λ _, True) o → (∀ o', sess c off o' → Q o' tt) → sf o (DeleteClientAndWait c) Q.
Proof.
  intros (s & -> & _) HQ. unfold DeleteClientAndWait. apply safe_bind, safe_modify. intros d r Hdis HI.
  destruct (sess_move d r c s SGone (remove_queue c d) Hdis HI) as (o & ? & ? & (s1 & -> & Hs1)).
  { by apply Base_remove; apply HI. }
  { intros Hst HO. eapply (Ord_remove _ _ _ c s); [done|set_solver|apply (sess_tokens d); [done|apply HI]]. }
  exists {[TSess c s1]}. split; [done|]. split; [done|]. clear d r s Hdis HI H H0.
  apply safe_bind, safe_atomic. intros d r d' a Hdis HI Heq. simplify_eq. set (a := serial d).
  destruct (sess_move d r c s1 (SWait a) (set_serial (S a) d) Hdis HI) as (o & ? & ? & (s2 & -> & Hs2)).
  { eapply Base_core; [|apply HI]. by repeat split. }
  { intros Hst HO. rewrite (Hs1 Hst) in *. eapply (Ord_ack _ _ _ c); [done|set_solver|apply (sess_tokens d); [done|apply HI]]. }
  exists {[TSess c s2]}. split; [done|]. split; [done|]. clearbody a. clear d r Hdis HI H H0 Hs1 s1.
  apply safe_bind, sf_RLock, safe_bind, safe_read. intros d r Hdis HI. destruct (running d) eqn:Hr; cbn [negb].
  - exists {[TSess c s2]}. split; [done|]. split; [done|]. clear d r Hdis HI Hr.
    apply safe_bind, sf_channel_send; [split; [by intros []|done]| |].
    { intros Hst d r HO a' [= <-]. rewrite (Hs2 Hst) in HO.
      by destruct (o_sess _ _ HO c (SWait a) ltac:(set_solver)) as (_ & ? & _). }
    by apply safe_bind, sf_RUnlock, sf_await_ack.
  - destruct (sess_move d r c s2 SDead d Hdis HI (proj1 HI)) as (o & ? & ? & (s3 & -> & Hs3)).
    { intros Hst HO. rewrite (Hs2 Hst) in *. destruct (o_sess _ _ HO c (SWait a) ltac:(set_solver)) as (Hg & _ & _).
      apply (Ord_sess d ({[TSess c (SWait a)]} ∪ r) _ c (SWait a) SDead); [done|set_solver|done|].
      apply (sess_tokens d); [done|apply HI]. }
    exists {[TSess c s3]}. split; [done|]. split; [done|]. apply sf_RUnlock, HQ. exists s3. split; [done|].
    intros Hst. right. auto.
Qed.

Lemma sf_onClientDisconnected c o (Q : gset token → unit → Prop) :
  sess c (λ _, True) o → (∀ o', sess c off o' → Q o' tt) → sf o (onClientDisconnected c) Q.
Proof.
  intros Ho HQ. unfold onClientDisconnected. apply safe_bind, sf_DeleteClientAndWait; [done|].
  intros o' Ho'. apply safe_modify. intros d r Hdis HI. exists o'. split; [done|]. split; [|by apply HQ].
  destruct HI as [HB HO]. split; [eapply Base_core; [|done]; by repeat split|].
  intros Hst. destruct Ho' as (s & -> & Hs). apply Ord_clear; [exact (HO Hst)|].
  pose proof (o_sess _ _ (HO Hst) c s ltac:(set_solver)) as Hok. by destruct (Hs Hst) as [->| ->]; destruct Hok.
Qed.

(** ** The system: the pump, client sessions and any number of operations *)

Inductive op :=
| OpSend (c : string) (b : RequestBundle Request)
| OpResponse (c id : string)   (* a response or an error from [c] *)
| OpSession (c : string)       (* [c] connects and disconnects, over and over *)
| OpStop
| OpCancel (i : nat) (e : error)
| OpDeadline (k : ictx).

(** The environment's part: a peer that has received the request. *)
Definition written_to c id d : bool :=
  existsb (λ e, match e with EvWrite c' _ id' _ => bool_decide (c' = c ∧ id' = id) | _ => false end) (log d).
Definition await_write c id : prog unit :=
  atomic (λ d, if written_to c id d then Some (d, tt) else None).
Definition response c id : prog unit :=
  if strict then bind (await_write c id) (λ _, handle_response c id) else handle_response c id.

(** The callbacks of one client's connections alternate
    ([WsRegistry.ws_connect_disconnect_alternate]). *)
Definition session_body c (connected : bool) : prog (option bool) :=
  if connected then bind (onClientDisconnected c) (λ _, Ret (Some false))
  else bind (onClientConnected c) (λ _, Ret (Some true)).

Definition op_thread (x : op) : thread (dispatcher Request) choice :=
  match x with
  | OpSend c b => Run (bind (SendRequest c b) (λ _, Ret tt))
  | OpResponse c id => Run (response c id)
  | OpSession c => start_loop (session_body c) false
  | OpStop => Run Stop
  | OpCancel i e => Run (cancel_user i e)
  | OpDeadline k => Run (deadline_passes k)
  end.

Definition sent_ids (ops : list op) : list string :=
  omap (λ x, match x with OpSend _ b => Some (bundle_id b) | _ => None end) ops.
Definition session_ids (ops : list op) : list string :=
  omap (λ x, match x with OpSession c => Some c | _ => None end) ops.

(** Every sent bundle has a call, the ids are unique and not empty (they come
    from the message id generator), and a client has one session. *)
Definition ops_ok (ops : list op) : Prop :=
  (∀ c b, OpSend c b ∈ ops → is_Some (bundle_Call b)) ∧ NoDup (sent_ids ops) ∧ "" ∉ sent_ids ops ∧
  NoDup (session_ids ops).

(** A dispatcher about to be started for the first time. *)
Definition clean d : Prop :=
  queueMap d = QueueMap.NewFIFOQueueMap (QueueMap.queueCapacity (queueMap d)) ∧
  pendingRequestState d = ServerState.NewServerState ∧ ictxs d = ∅ ∧ acks d = ∅ ∧ log d = [] ∧
  (strict = true → waitsExpire d = false).

Definition system d (ops : list op) : config (S:=dispatcher Request) (C:=choice) :=
  (Start d, pump_thread :: (op_thread <$> ops)).

Definition op_tokens (x : op) : gset token :=
  match x with
  | OpSend _ b => {[TSend (bundle_id b)]}
  | OpSession c => {[TSess c SOff]}
  | _ => ∅
  end.

Lemma written_to_on c id d : written_to c id d = true → id ∈ on KWriteAll (log d).
Proof.
  unfold written_to. rewrite existsb_exists. intros (e & He%list_elem_of_In & Hw). apply list_elem_of_omap.
  exists e. split; [done|]. destruct e; try done. apply bool_decide_eq_true in Hw as [_ ->]. done.
Qed.

Lemma sf_response c id : sf ∅ (response c id) (λ o _, Rest o).
Proof.
  assert (Hr : response c id = (if decide (strict = true)
    then bind (await_write c id) (λ _, handle_response c id) else handle_response c id)).
  { unfold response. by destruct strict. }
  rewrite Hr. case_decide as Hst; [|by apply srv_handle_response; [set_solver|]].
  apply safe_bind, safe_atomic. intros d r d' x Hdis [HB HO] Heq.
  destruct (written_to c id d) eqn:Hw; simplify_eq. apply written_to_on in Hw.
  destruct (srv_fresh_seen id (∅ ∪ r)) as [n Hn]. exists {[TSeen id n]}. split; [set_solver|]. split.
  - split.
    + apply (Base_unseen d' (∅ ∪ r)); [done| |set_solver]. intros t.
      rewrite !elem_of_union, elem_of_singleton. intros [->|?]; [by right|auto].
    + intros _. apply (Ord_seen d' (∅ ∪ r) _ id n (HO Hst)); [clear; set_solver|done].
  - apply srv_handle_response; [|exists n; set_solver]. intros id'. rewrite !elem_of_singleton. done.
Qed.

Lemma srv_op_ok x : (∀ c b, x = OpSend c b → is_Some (bundle_Call b)) →
  thread_ok (Inv (Request:=Request) strict) Rest (op_tokens x) (op_thread x).
Proof.
  intros Hb. destruct x as [c b|c id|c| |i e|k]; cbn [op_tokens op_thread thread_ok start_loop].
  - destruct (Hb c b eq_refl) as [k Hk]. unfold bundle_id. rewrite Hk.
    apply safe_bind. eapply safe_mono; [|by apply srv_SendRequest]. by intros.
  - apply sf_response.
  - set (J := λ b : bool, sess c (λ s, b = true ∨ off s)).
    assert (HJ : ∀ b o, J b o → sf o (session_body c b) (loop_post Rest J)).
    { intros [] o (s & -> & Hs); unfold session_body; apply safe_bind.
      - apply sf_onClientDisconnected; [by exists s|]. intros o' (s' & -> & Hs'). exists s'. auto.
      - apply sf_onClientConnected; [exists s; naive_solver|]. intros o' (s' & -> & Hs'). exists s'. auto. }
    exists J. split.
    + intros b o Ho. split; [by eapply Rest_sess|auto].
    + apply HJ. exists SOff. split; [done|]. by right; left.
  - apply srv_Stop.
  - apply srv_quiet_modify; [quiet|apply srv_Rest_empty].
  - apply sf_deadline_passes.
Qed.

Lemma srv_elem_of_ops_tokens ops t :
  t ∈ ⋃ (op_tokens <$> ops) ↔
  (∃ id, id ∈ sent_ids ops ∧ t = TSend id) ∨ (∃ c, c ∈ session_ids ops ∧ t = TSess c SOff).
Proof.
  rewrite elem_of_union_list. unfold sent_ids, session_ids. setoid_rewrite list_elem_of_omap.
  setoid_rewrite list_elem_of_fmap. split.
  - intros (X & (x & -> & Hx) & Ht). destruct x; simpl in Ht; try (by apply elem_of_empty in Ht);
      apply elem_of_singleton in Ht as ->; [left|right]; eauto 6.
  - intros [(id & (x & Hx & Heq) & ->)|(c & (x & Hx & Heq) & ->)]; destruct x; simplify_eq;
      (eexists; split; [eauto|]; simpl; by apply elem_of_singleton).
Qed.

Lemma srv_system_init d ops :
  clean d → ops_ok ops → Inv strict (Start d) (pump MFree ∪ ⋃ (op_tokens <$> ops)).
Proof.
  intros (Hq & Hp & Hi & Ha & Hl & He) (_ & _ & Hne & _).
  set (o := pump MFree ∪ _).
  assert (Ho : ∀ t, t ∈ o ↔ t = TMode MFree ∨ (∃ id, id ∈ sent_ids ops ∧ t = TSend id) ∨
                          (∃ c, c ∈ session_ids ops ∧ t = TSess c SOff)).
  { intros t. subst o. by rewrite elem_of_union, elem_of_singleton, srv_elem_of_ops_tokens. }
  clearbody o.
  assert (Hm : ∀ m, TMode m ∈ o → m = MFree) by (intros m Hx%Ho; naive_solver).
  assert (Hqd : ∀ q, queued q (queueMap d) = []).
  { intros q. unfold queued, QueueMap.deref. rewrite Hq. simpl. by rewrite lookup_empty. }
  assert (Hget : ∀ c, QueueMap.Get c (queueMap d) = None) by (intros c; rewrite Hq; apply lookup_empty).
  assert (Hs : ∀ c s, TSess c s ∈ o → s = SOff) by (intros c s Hx%Ho; naive_solver).
  split; [|intros Hst]; constructor; simpl; rewrite ?Hl, ?Hp, ?Ha, ?Hi; simpl.
  all: try (by intros * ?%not_elem_of_nil); try (by intros ?%not_elem_of_nil); try apply NoDup_nil_2.
  - rewrite Hq. apply QueueMap.NewFIFOQueueMap_wf.
  - intros c q. by rewrite Hget.
  - by intros c c' _ ?%not_elem_of_nil.
  - intros q. by rewrite Hqd.
  - intros id Hx%Ho. destruct Hx as [?|[(id' & ? & ?)|(? & _ & ?)]]; simplify_eq.
    split; [by intros ->|by intros ?%not_elem_of_nil].
  - intros id Hx%Ho. naive_solver.
  - by intros _ ? ?%not_elem_of_nil.
  - intros id Hx%Ho. naive_solver.
  - by intros c _ id ?%not_elem_of_nil.
  - intros k n Hx%Ho. naive_solver.
  - intros k. by rewrite lookup_empty.
  - by intros m m' ->%Hm ->%Hm.
  - by intros m ->%Hm.
  - auto.
  - apply (ServerState.NewServerState_wf).
  - intros q x e. unfold QueueMap.deref. rewrite Hq. simpl. by rewrite lookup_empty.
  - by intros q id _ ?%not_elem_of_nil.
  - right. intros c q id. by rewrite Hget.
  - by intros _ id ?%not_elem_of_nil.
  - done.
  - intros id n Hx%Ho. naive_solver.
  - set_solver.
  - intros [?|[?|Hx%Hm]]; done.
  - by intros c s s' ->%Hs ->%Hs.
  - intros c s Hx. rewrite (Hs _ _ Hx). split; [apply Hget|]. by intros m ->%Hm.
  - by intros m ->%Hm.
Qed.

Lemma op_tokens_cases x t : t ∈ op_tokens x →
  (∃ c b, x = OpSend c b ∧ t = TSend (bundle_id b)) ∨ (∃ c, x = OpSession c ∧ t = TSess c SOff).
Proof. destruct x; simpl; set_solver. Qed.

(** Two operations of one kind with the same name are one operation. *)
Lemma omap_NoDup_inj {A} (f : A → option string) (l : list A) i j x y z :
  NoDup (omap f l) → l !! i = Some x → l !! j = Some y → f x = Some z → f y = Some z → i = j.
Proof.
  revert i j. induction l as [|a l IH]; intros [|i] [|j] Hnd Hi Hj Hx Hy; simplify_eq/=; try done.
  - rewrite Hx in Hnd. apply NoDup_cons in Hnd as [Hn _]. destruct Hn. apply list_elem_of_omap.
    exists y. split; [by eapply list_elem_of_lookup_2|done].
  - rewrite Hy in Hnd. apply NoDup_cons in Hnd as [Hn _]. destruct Hn. apply list_elem_of_omap.
    exists x. split; [by eapply list_elem_of_lookup_2|done].
  - f_equal. eapply IH; try done. destruct (f a); [by apply NoDup_cons in Hnd as [_ ?]|done].
Qed.

Lemma srv_system_pool d ops :
  clean d → ops_ok ops →
  pool_ok (Inv strict) Rest (pump MFree :: (op_tokens <$> ops)) (Start d) (system d ops).2.
Proof.
  intros Hd Hops. split; [|split; [|by apply srv_system_init]].
  - constructor; [apply srv_pump_thread_ok|]. destruct Hops as (Hb & _). clear -Hb.
    induction ops as [|x ops IH]; simpl; constructor.
    + apply srv_op_ok. intros c b ->. apply (Hb c). left.
    + apply IH. intros c b ?. apply (Hb c). by right.
  - destruct Hops as (_ & Hnd & _ & Hns).
    intros [|i] [|j] oi oj Hne Hi Hj t Ht Ht'; simplify_eq/=; try done;
      repeat match goal with
      | H : (op_tokens <$> ops) !! _ = Some _ |- _ => apply list_lookup_fmap_Some in H as (? & -> & ?)
      | H : _ ∈ op_tokens _ |- _ => apply op_tokens_cases in H as [(? & ? & -> & ?)|(? & -> & ?)]
      end; try set_solver; destruct Hne; f_equal; simplify_eq.
    + eapply (omap_NoDup_inj _ ops); [exact Hnd|done|done|done|]. simpl. congruence.
    + by eapply (omap_NoDup_inj _ ops); [exact Hns|..].
Qed.

Lemma srv_system_invariant d ops sched s ts :
  clean d → ops_ok ops → exec sched (system d ops) = Some (s, ts) → ∃ o, Inv strict s o.
Proof. intros Hd Hops. eapply exec_invariant. by apply srv_system_pool. Qed.

(** In a state where no operation is under way. *)
Lemma srv_system_quiet d ops sched s ts :
  clean d → ops_ok ops → exec sched (system d ops) = Some (s, ts) →
  Forall (λ t, thread_quiet t = true) ts → ∃ o, Inv strict s o ∧ Rest o.
Proof.
  intros Hd Hops Hex Hq.
  destruct (exec_quiet _ _ _ _ _ _ _ _ (srv_system_pool d ops Hd Hops) Hex Hq) as (os & HR & HI).
  exists (⋃ os). split; [done|]. rewrite Forall_forall in HR.
  intros id. split; intros (X & HX & Hin)%elem_of_union_list; by destruct (HR X HX id).
Qed.
End safety.
