(* ===== verification/ServerTheorems.v ===== *)
(** * What the server dispatcher guarantees

    The properties of [DefaultServerDispatcher], read off the invariant of
    [ServerSafety] for every schedule, and the progress of its pump.  Where a
    theorem takes [strict = true] the environment keeps to the protocol: peers
    answer only requests written to them and the wait of
    [DeleteClientAndWait] is not cut short. *)

From S2P Require Import Prelude Conc Ocpp Errors Queue State Message ServerDispatcher ServerInvariant ServerOrder ServerSafety.
Local Open Scope string_scope.
Local Open Scope list_scope.

(** ** A concrete system *)

(** A dispatcher with a network and a cancel callback, and the actions of its
    operations: the connection of a client, a sender's, the pump's dispatch of
    one request, a response handler's. *)
Definition server_demo : dispatcher nat :=
  mkDispatcher (QueueMap.NewFIFOQueueMap 10) [] None ServerState.NewServerState defaultMessageTimeout [] [] false
    false false 0 false true true false ∅ ∅ ∅ 0 false [].
Definition demo_request (id : string) : RequestBundle nat :=
  mkBundle (Some (mkCall CALL id "Reset" (Some 7))) (Some "[2,...]") None.
Definition demo_ops : list (@op nat) :=
  [OpSession "cp"; OpSend "cp" (demo_request "1"); OpSend "cp" (demo_request "2"); OpResponse "cp" "1";
   OpDeadline (mkIctx "cp" "1" 0)].

Definition do_connect (t : nat) : list (nat * choice) := replicate 4 (t, Go).
Definition do_send (t : nat) : list (nat * choice) := replicate 7 (t, Go).
Definition do_round : list (nat * choice) :=
  replicate 5 (0, Go) ++ [(0, NetResult None)] ++ replicate 4 (0, Go).
Definition do_dispatch : list (nat * choice) := (0, Pick ArmRequest) :: replicate 3 (0, Go) ++ do_round.
Definition do_ready : list (nat * choice) := (0, Pick ArmReady) :: replicate 4 (0, Go) ++ do_round.
Definition do_response (t : nat) : list (nat * choice) := replicate 8 (t, Go).

Definition final_log (c : option (config (S:=dispatcher nat) (C:=choice))) : list (event nat) :=
  match c with Some (s, _) => log s | None => [] end.

Lemma server_demo_clean strict : clean strict server_demo.
Proof. by repeat split. Qed.
Lemma srv_demo_ops_ok : ops_ok demo_ops.
Proof.
  split; [|split; [|split]].
  - intros c b Hb. assert (b = demo_request "1" ∨ b = demo_request "2") as [->| ->] by set_solver; simpl; eauto.
  - change (NoDup ["1"; "2"]). apply NoDup_cons. split; [set_solver|apply NoDup_singleton].
  - change ("" ∉ ["1"; "2"]). set_solver.
  - change (NoDup ["cp"]). apply NoDup_singleton.
Qed.

(** ** Outcomes *)

(** C2: in every environment and under every schedule of the pump, the watchers,
    senders, responses, sessions, stops, deadlines and cancellations, a request
    gets at most one outcome (response delivered or cancel callback), only a
    request a queue accepted and no longer holds gets one, and, with a cancel
    callback set and no operation under way, every request that has left its
    queue had its outcome or was dropped by the stop drain for having no
    payload. *)
Theorem server_single_outcome (Request : Type) (strict : bool) (d s : dispatcher Request) ops sched ts :
  clean strict d → ops_ok ops → exec sched (system strict d ops) = Some (s, ts) →
  NoDup (on KNotify (log s)) ∧
  (∀ id, id ∈ on KNotify (log s) → id ∈ on KAcceptAll (log s) ∧ ∀ q, id ∉ queued q (queueMap s)) ∧
  (Forall (λ t, thread_quiet t = true) ts → onRequestCancel s = true →
   ∀ q id, id ∈ on (KAccept q) (log s) →
     id ∈ queued q (queueMap s) ∨ id ∈ on KNotify (log s) ∨ id ∈ on KDrop (log s)).
Proof.
  intros Hd Hops Hex. destruct (srv_system_invariant _ _ _ _ _ _ Hd Hops Hex) as [o [HB _]].
  split; [apply (v_once _ _ HB)|]. split.
  - intros id Hid. pose proof (v_notified _ _ HB _ Hid) as Ht. split.
    + destruct (elem_take_all _ _ Ht) as [q Hq]. apply (sublist_subseteq _ _ (accept_sub q (log s))).
      rewrite (v_flow _ _ HB). apply elem_of_app. by left.
    + intros q Hi. by apply (queued_accepted s o q id HB Hi).
  - intros Hq Hcb q id Ha. clear o HB.
    destruct (srv_system_quiet _ _ _ _ _ _ Hd Hops Hex Hq) as (o & [HB _] & HR).
    rewrite (v_flow _ _ HB), elem_of_app in Ha. destruct Ha as [Ht|?]; [|by left]. right.
    destruct (v_outcome _ _ HB Hcb id (elem_take _ _ _ Ht)) as [?|[?|Hx]]; auto. by destruct (HR id).
Qed.

Lemma server_single_outcome_witness :
  let c := exec (do_connect 1 ++ do_send 2 ++ do_dispatch ++ do_send 3 ++ do_response 4)
             (system true server_demo demo_ops) in
  NoDup (on KNotify (final_log c)) ∧ on KNotify (final_log c) = ["1"].
Proof.
  cbv zeta. split; [|vm_compute; reflexivity].
  destruct (exec _ _) as [[s ts]|] eqn:E; [|apply NoDup_nil_2].
  exact (proj1 (server_single_outcome nat true server_demo s demo_ops _ ts (server_demo_clean true) srv_demo_ops_ok E)).
Defined.

(** C3: when peers keep to the protocol, each client's requests are written at
    most once and in the order its queue accepted them, and at most one is in
    flight per queue: of the requests written from it, all but at most one
    have left it.  This holds across disconnects and reconnects. *)
Theorem server_fifo_single_flight (Request : Type) (d s : dispatcher Request) ops sched ts :
  clean true d → ops_ok ops → exec sched (system true d ops) = Some (s, ts) →
  ∀ q, (on (KWrite q) (log s)) `sublist_of` (on (KAccept q) (log s)) ∧ NoDup (on (KWrite q) (log s)) ∧
    ∀ id id', id ∈ on (KWrite q) (log s) → id' ∈ on (KWrite q) (log s) →
      id ∉ on KTakeAll (log s) → id' ∉ on KTakeAll (log s) → id = id'.
Proof.
  intros Hd Hops Hex q. destruct (srv_system_invariant _ _ _ _ _ _ Hd Hops Hex) as [o [HB HO]].
  specialize (HO eq_refl). pose proof (o_order _ _ HO q) as Hsub.
  split; [done|]. split.
  - eapply sublist_NoDup; [|exact Hsub]. eapply sublist_NoDup; [apply (v_nodup _ _ HB)|apply accept_sub].
  - assert (Hfr : ∀ id, id ∈ on (KWrite q) (log s) → id ∉ on KTakeAll (log s) →
              head (queued q (queueMap s)) = Some id).
    { intros id Hw Hnt. apply (o_front _ _ HO); [|by apply (o_written _ _ HO q)].
      pose proof (sublist_subseteq _ _ Hsub _ Hw) as Ha. rewrite (v_flow _ _ HB), elem_of_app in Ha.
      destruct Ha as [Ht|?]; [|done]. by apply elem_take in Ht. }
    intros id id' H1 H2 N1 N2. pose proof (Hfr id H1 N1). pose proof (Hfr id' H2 N2). congruence.
Qed.

Lemma server_fifo_single_flight_witness :
  let c := exec (do_connect 1 ++ do_send 2 ++ do_dispatch ++ do_send 3 ++ do_response 4 ++
                 do_ready)
             (system true server_demo demo_ops) in
  NoDup (on (KWrite 0) (final_log c)) ∧ on (KWrite 0) (final_log c) = ["1"; "2"].
Proof.
  cbv zeta. split; [|vm_compute; reflexivity].
  destruct (exec _ _) as [[s ts]|] eqn:E; [|apply NoDup_nil_2].
  exact (proj1 (proj2 (server_fifo_single_flight nat server_demo s demo_ops _ ts (server_demo_clean true)
                         srv_demo_ops_ok E 0))).
Defined.

(** C4: in every environment, a request is canceled as timed out only if the
    deadline of its own context has passed: the timer of one request never
    cancels another, of the same client or of a different one. *)
Theorem server_timeout_identity (Request : Type) (strict : bool) (d s : dispatcher Request) ops sched ts c id :
  clean strict d → ops_ok ops → exec sched (system strict d ops) = Some (s, ts) →
  (c, id) ∈ timedout (log s) → ∃ k, k ∈ expired (log s) ∧ ix_client k = c ∧ ix_request k = id.
Proof.
  intros Hd Hops Hex Hin. destruct (srv_system_invariant _ _ _ _ _ _ Hd Hops Hex) as [o [HB _]].
  destruct (v_timeout _ _ HB _ Hin) as (k & ? & ? & ?). by exists k.
Qed.

(** The deadline of request 1 passes, its watcher posts it, the pump cancels. *)
Definition do_timeout : list (nat * choice) :=
  [(5, Go); (6, WatchDone); (6, Post); (6, Go); (0, Pick ArmTimer)] ++ replicate 6 (0, Go) ++ [(0, CallbackPanics false)].

Lemma server_timeout_identity_witness :
  let c := exec (do_connect 1 ++ do_send 2 ++ do_dispatch ++ do_timeout)
             (system false server_demo demo_ops) in
  timedout (final_log c) = [("cp", "1")] ∧
  ∃ k, k ∈ expired (final_log c) ∧ ix_client k = "cp" ∧ ix_request k = "1".
Proof.
  cbv zeta. assert (Ht : timedout (final_log (exec
    (do_connect 1 ++ do_send 2 ++ do_dispatch ++ do_timeout) (system false server_demo demo_ops))) = [("cp", "1")])
    by (vm_compute; reflexivity).
  split; [exact Ht|]. destruct (exec _ _) as [[s ts]|] eqn:E; [|discriminate].
  apply (server_timeout_identity nat false server_demo s demo_ops _ ts "cp" "1" (server_demo_clean false) srv_demo_ops_ok E).
  cbn [final_log] in Ht. rewrite Ht. left.
Defined.

(** in every environment, what a client's queue accepted is written to that
    client only: a queue is made for one client, and whatever is written from
    it goes to that client's connection. *)
Theorem server_routing (Request : Type) (strict : bool) (d s : dispatcher Request) ops sched ts c q id :
  clean strict d → ops_ok ops → exec sched (system strict d ops) = Some (s, ts) →
  id ∈ on (KWriteTo c q) (log s) →
  c ∈ on (KCreated q) (log s) ∧ ∀ c', QueueMap.Get c' (queueMap s) = Some q → c' = c.
Proof.
  intros Hd Hops Hex Hin. destruct (srv_system_invariant _ _ _ _ _ _ Hd Hops Hex) as [o [HB _]].
  pose proof (v_route _ _ HB _ _ _ Hin) as Hc. split; [done|].
  intros c' Hg. apply (v_owner _ _ HB c' c q); [by apply (v_created _ _ HB)|done].
Qed.

Lemma server_routing_witness :
  let c := exec (do_connect 1 ++ do_send 2 ++ do_dispatch) (system false server_demo demo_ops) in
  on (KWriteTo "cp" 0) (final_log c) = ["1"] ∧ "cp" ∈ on (KCreated 0) (final_log c).
Proof.
  cbv zeta. assert (Hw : on (KWriteTo "cp" 0) (final_log (exec
    (do_connect 1 ++ do_send 2 ++ do_dispatch) (system false server_demo demo_ops))) = ["1"])
    by (vm_compute; reflexivity).
  split; [exact Hw|]. destruct (exec _ _) as [[s ts]|] eqn:E; [|discriminate].
  refine (proj1 (server_routing nat false server_demo s demo_ops _ ts "cp" 0 "1" (server_demo_clean false) srv_demo_ops_ok E _)).
  cbn [final_log] in Hw. rewrite Hw. left.
Defined.

(** ** What the pump waits for *)

(** The answers to the calls out of the package: the return of the user's cancel
    callback, and that of the network's [Write].  A schedule that withholds them
    is one in which the pump stays in the call. *)
Definition callback_answer (ch : choice) : Prop := match ch with CallbackPanics _ => True | _ => False end.
Definition call_answer (ch : choice) : Prop :=
  match ch with CallbackPanics _ | NetResult _ => True | _ => False end.
Definition no_answer (_ : choice) : Prop := False.

Section waiting.
Context {Request : Type} (answers : choice → Prop).
Implicit Types (l : pump_locals) (c id : string).
Abbreviation prog A := (proc (dispatcher Request) choice A).
Context (go : ¬ answers Go) (next : ∀ c, ¬ answers (NextClient c)).

Lemma wt_read {X} (f : dispatcher Request → X) : waits_for answers (read f : prog X).
Proof. by apply (waits_read _ f Go). Qed.
Lemma wt_modify (f : dispatcher Request → dispatcher Request) : waits_for answers (modify f : prog unit).
Proof. by apply (waits_modify _ f Go). Qed.
Lemma wt_ret {A} (a : A) : waits_for answers (Ret a : prog A).
Proof. done. Qed.

Lemma wt_pop q id : waits_for answers (pop_request q id : prog _).
Proof.
  apply (waits_atomic _ _ Go go). intros d. destruct (queue_at q d) as [x|]; [|eauto]. destruct (FIFO.PopIf _ x). eauto.
Qed.

Lemma wt_complete c id : waits_for answers (completeRequestOwned c id : prog _).
Proof.
  apply waits_bind; [apply wt_read|]. intros [q|]; [|done]. apply waits_bind; [apply wt_pop|]. intros el.
  destruct (match el with Some e => _ | None => _ end); [|done]. apply waits_bind; [apply wt_modify|done].
Qed.

Lemma wt_cancel_client x : waits_for answers (cancel_client x : prog unit).
Proof. destruct x; [apply wt_modify|done]. Qed.
Lemma wt_close_ack x : waits_for answers (close_ack x : prog unit).
Proof. destruct x; [apply wt_modify|done]. Qed.
Lemma wt_new_ictx c id u : waits_for answers (new_ictx c id u : prog _).
Proof. apply (waits_atomic _ _ Go go). intros d. case_match; eauto. Qed.
Lemma wt_drain_queue q : waits_for answers (drain_queue q : prog _).
Proof. apply (waits_atomic _ _ Go go). intros d. case_match; eauto. Qed.
End waiting.

Ltac wt :=
  repeat first
    [ apply wt_read; by intros [] | apply wt_modify; by intros [] | apply wt_ret | apply wt_complete; by intros []
    | apply wt_cancel_client; by intros [] | apply wt_close_ack; by intros []
    | apply waits_bind; [|intros ?]
    | case_match ].

Section arms.
Context {Request : Type}.
Implicit Types (l : pump_locals) (c id : string).
Abbreviation prog A := (proc (dispatcher Request) choice A).

(** The arms that call nothing. *)
Lemma wt_request_arm req l : waits_for no_answer (run_arm (SelRequest req) l : prog _).
Proof. unfold run_arm, request_arm, dispatch_guard. cbv zeta. wt. Qed.
Lemma wt_ready_arm tok l : waits_for no_answer (run_arm (SelReady tok) l : prog _).
Proof. unfold run_arm, ready_arm, dispatch_guard. cbv zeta. wt. Qed.

Lemma wt_fire (answers : choice → Prop) c action id req err :
  (∀ b, answers (CallbackPanics b)) → waits_for answers (fireRequestCancel c action id req err : prog unit).
Proof.
  intros Ha. apply waits_call. split.
  - intros d. exists (CallbackPanics false). case_match; do 2 eexists; by split; [apply Ha|].
  - by intros [] d d' x.
Qed.

Lemma wt_cancel_all c (els : list (element Request)) : waits_for callback_answer (cancel_all c els).
Proof.
  induction els as [|el els IH]; simpl; [done|]. apply waits_bind; [|done]. by case_match; [apply wt_fire|].
Qed.

(** The drain visits as many clients as there are. *)
Lemma wt_drain_clients n m : size m = n → waits_for callback_answer (drain_clients n m : prog _).
Proof.
  revert m. induction n as [|n IH]; intros m Hm; [done|]. split.
  - left. intros d. destruct (map_choose m) as (id & q & Hq); [intros ->; by rewrite map_size_empty in Hm|].
    exists (NextClient id), d, (id, q). rewrite Hq. by split; [intros []|].
  - intros ch d d' [id q] Hq. destruct ch; try done. case_match eqn:Hl; simplify_eq.
    apply (waits_bind _ (drain_queue q)); [apply wt_drain_queue; by intros []|]. intros els.
    apply (waits_bind _ (cancel_all id els)); [apply wt_cancel_all|].
    intros _. apply IH. rewrite map_size_delete_Some by eauto. rewrite Hm. done.
Qed.

Lemma wt_stop_arm : waits_for callback_answer (stop_arm : prog _).
Proof.
  unfold stop_arm. apply waits_bind; [apply (waits_atomic _ _ Go); [by intros []|intros d; eauto]|]. intros m.
  apply waits_bind; [apply wt_modify; by intros []|]. intros []. apply waits_bind; [by apply wt_drain_clients|].
  intros []. apply wt_modify; by intros [].
Qed.

Lemma wt_run_arm x l : waits_for callback_answer (run_arm x l : prog _).
Proof.
  unfold run_arm.
  assert (HG : ∀ r : pump_locals * option string,
    waits_for callback_answer (match r.2 with Some c => dispatch_guard c r.1 | None => Ret (Some r.1) end : prog _)).
  { intros r. unfold dispatch_guard. wt. }
  destruct x; (apply waits_bind; [|intros ?; try apply HG; try done]); [apply wt_stop_arm| | | |].
  - unfold request_arm. cbv zeta. wt.
  - unfold timeout_arm. cbv zeta. wt; by apply wt_fire.
  - unfold ready_arm. cbv zeta. wt.
  - unfold cancel_arm. cbv zeta. wt; by apply wt_fire.
Qed.

(** [Write] waits for the network and for nothing else. *)
Lemma wt_network_Write c q id data : waits_for call_answer (network_Write c q id data : prog _).
Proof.
  apply waits_call. split.
  - intros d. exists (NetResult None). by do 2 eexists.
  - by intros [] d d' x.
Qed.
Lemma network_Write_waits c q id data (d : dispatcher Request) ch :
  run (network_Write c q id data) [ch] d = None ∨ ∃ e, ch = NetResult e.
Proof. destruct ch; eauto. Qed.

Lemma wt_dispatchNextRequest c : waits_for call_answer (dispatchNextRequest c : prog _).
Proof.
  unfold dispatchNextRequest. wt; try by apply wt_fire. all: try apply wt_network_Write.
  apply wt_new_ictx; by intros [].
Qed.
Lemma wt_dispatch_round c l : waits_for call_answer (dispatch_round c l : prog _).
Proof.
  unfold dispatch_round. apply waits_bind; [apply wt_dispatchNextRequest|]. intros x.
  apply waits_bind; [wt|]. intros has. apply waits_bind; [by case_match|]. intros []. wt.
Qed.
End arms.

(** A dispatcher in which client [c] has one queued request [id] and the ready
    token of another client is still in the channel. *)
Definition busy_server {Request : Type} (c id : string) : dispatcher Request :=
  mkDispatcher (QueueMap.mkMap {[ 0 := FIFO.mkQueue [EBundle (mkBundle (Some (mkCall CALL id "" None)) None None)] 0 ]}
      1 {[ c := 0 ]} 0) [] (Some (mkReady "other" "0")) ServerState.NewServerState defaultMessageTimeout [] [] true
    false false 0 false true true false ∅ ∅ ∅ 0 false [].

Lemma CompleteRequest_blocks {Request : Type} c id : ¬ progresses (CompleteRequest (Request:=Request) c id).
Proof.
  set (d := busy_server (Request:=Request) c id). intros H.
  unfold CompleteRequest, completeRequestOwned in H. simpl in H.
  assert (Hg : Get c d = Some 0) by (subst d; unfold Get, QueueMap.Get; simpl; by rewrite lookup_singleton_eq).
  destruct H as [_ H]. specialize (H Go d d (Some 0) ltac:(by rewrite Hg)).
  destruct H as [_ H]. simpl in H.
  set (e := EBundle (mkBundle (Some (mkCall CALL id "" None)) None None) : element Request) in *.
  assert (Hp : match queue_at 0 d with
               | Some x => let '(x', r) := FIFO.PopIf (is_request id) x in
                           Some (emit (taken_events 0 (option_list r)) (store_queue 0 x' d), r)
               | None => Some (d, None)
               end = Some (emit [EvTake 0 id] (store_queue 0 (FIFO.mkQueue [] 0) d), Some e)).
  { subst d e. unfold queue_at, QueueMap.deref. simpl. rewrite lookup_singleton_eq. simpl.
    unfold FIFO.PopIf, is_request. simpl. by rewrite bool_decide_true. }
  specialize (H Go d _ _ Hp). simpl in H. destruct H as [_ H]. specialize (H Go d _ tt eq_refl). simpl in H. destruct H as [H _].
  destruct (H d) as (_ & s' & x & Hx). done.
Qed.

(** C5: outside its [select] the server's pump waits for nothing but calls out of
    the package.  The arms for a request and for a ready token wait for nothing at
    all: each of their actions is enabled in every state.  The timeout, cancel and
    stop arms wait for the user's cancel callback to return, a dispatch round also
    for the network's [Write], and no other action of theirs, on a channel or a
    lock, ever blocks; so when these calls return the arm or round comes to its
    end, from every state.  A [Write] that does not return leaves the pump in it.
    [CompleteRequest], which other goroutines use, can block on the ready channel
    the pump reads: it is not what the pump calls. *)
Theorem server_pump_waits (Request : Type) :
  (∀ req l, waits_for no_answer (run_arm (Request:=Request) (SelRequest req) l)) ∧
  (∀ tok l, waits_for no_answer (run_arm (Request:=Request) (SelReady tok) l)) ∧
  (∀ x l, waits_for callback_answer (run_arm (Request:=Request) x l) ∧
          ∀ d : dispatcher Request, ∃ chs d' r, run (run_arm x l) chs d = Some (d', r, [])) ∧
  (∀ c l, waits_for call_answer (dispatch_round (Request:=Request) c l) ∧
          ∀ d : dispatcher Request, ∃ chs d' r, run (dispatch_round c l) chs d = Some (d', r, [])) ∧
  (∀ c q id data (d : dispatcher Request) ch,
     run (network_Write c q id data) [ch] d = None ∨ ∃ e, ch = NetResult e) ∧
  (∀ c id, ¬ waits_for call_answer (CompleteRequest (Request:=Request) c id)).
Proof.
  split_and!.
  - apply wt_request_arm.
  - apply wt_ready_arm.
  - intros x l. pose proof (wt_run_arm (Request:=Request) x l) as H. split; [done|]. by eapply progresses_run, waits_progress.
  - intros c l. pose proof (wt_dispatch_round (Request:=Request) c l) as H. split; [done|].
    by eapply progresses_run, waits_progress.
  - apply network_Write_waits.
  - intros c id H%waits_progress. by apply CompleteRequest_blocks in H.
Qed.

(** requests queued for a client that disconnects are discarded without the
    cancel callback: here two requests are accepted, one of them is in flight,
    the client disconnects and the pump acknowledges; every goroutine has come
    to rest, nothing can reach the queue any more, and neither request has had
    an outcome. *)
Theorem server_delete_drops_silently :
  let c := exec (do_connect 1 ++ do_send 2 ++ do_dispatch ++ do_send 3 ++
                 [(1, Go)] ++ replicate 6 (1, Go) ++                     (* the client is removed *)
                 [(0, Pick ArmRequest); (0, Go); (0, Go); (0, Go); (0, Pick ArmRequest); (0, Go); (0, Go)] ++
                 [(1, AckReceived); (1, Go)] ++
                 [(4, WatchDone); (4, Go)])
             (system true server_demo [OpSession "cp"; OpSend "cp" (demo_request "1"); OpSend "cp" (demo_request "2")]) in
  on KPending (final_log c) = ["1"] ∧ on KAcceptAll (final_log c) = ["1"; "2"] ∧ on KNotify (final_log c) = [] ∧
  match c with
  | Some (s, ts) => forallb thread_quiet ts && match requestChannel s with [] => true | _ => false end && onRequestCancel s &&
                    bool_decide (Get "cp" s = None) && negb (ServerState.HasPendingRequests (pendingRequestState s))
  | None => false
  end = true.
Proof. repeat split; vm_compute; reflexivity. Qed.
