(* ===== verification/Endpoint.v ===== *)
(** * OCPP-J messages on the wire (src/ocppj/ocppj.go, src/ocppj/validation.go)

    The endpoint's profile table, [ParseMessage] and the [Create*] functions,
    the mapping of validation errors to OCPP error codes, and the array form
    of the three messages.  JSON values are a data type; the byte-level
    encoder and decoder, the payload codecs (reflection over the profile
    packages' structs), the validator and the rendering of a float are
    parameters of the section. *)

From Stdlib Require Import QArith.QArith Ascii.
From stdpp Require Import pretty.
From S2P Require Import Prelude Ocpp Errors State Message.
Local Open Scope string_scope.
Local Open Scope list_scope.

(** What [json.Unmarshal] stores in an [interface{}]; a [nil] is [JNull], an
    object's members are in the order of their sorted keys. *)
Inductive Json :=
| JNull
| JBool (b : bool)
| JNum (q : Q)
| JStr (s : string)
| JArr (l : list Json)
| JObj (kvs : list (string * Json)).

(** ** What bytes can carry

    [encoding/json] replaces invalid UTF-8, reads numbers as float64 and gives up
    beyond 10000 levels of nesting, so not every value is read back from its bytes.
    [json_exact] are values that are: strings of valid UTF-8, reduced fractions
    that a float64 holds exactly (at most 53 bits over a power of two), objects
    with distinct, sorted keys, nested less deep than the limit. *)

Definition between (lo hi : N) (c : ascii) : bool := (lo <=? N_of_ascii c)%N && (N_of_ascii c <=? hi)%N.
Definition continuation (c : ascii) : bool := between 128 191 c.
(** The second byte of a sequence of three or four, which excludes overlong forms,
    surrogates and what is above U+10FFFF. *)
Definition second_byte (a b : ascii) : bool :=
  let x := N_of_ascii a in
  if (x =? 224)%N then between 160 191 b else if (x =? 237)%N then between 128 159 b else
  if (x =? 240)%N then between 144 191 b else if (x =? 244)%N then between 128 143 b else continuation b.
(** [utf8.ValidString] *)
Fixpoint ValidString (s : string) : bool :=
  match s with
  | EmptyString => true
  | String a s1 =>
      if between 0 127 a then ValidString s1 else
      match s1 with
      | EmptyString => false
      | String b s2 =>
          if between 194 223 a then continuation b && ValidString s2 else
          match s2 with
          | EmptyString => false
          | String c s3 =>
              if between 224 239 a then second_byte a b && continuation c && ValidString s3 else
              match s3 with
              | EmptyString => false
              | String d s4 =>
                  between 240 244 a && second_byte a b && continuation c && continuation d && ValidString s4
              end
          end
      end
  end.

Definition exact_number (q : Q) : bool :=
  let den := Zpos (Qden q) in
  bool_decide (Z.gcd (Qnum q) den = 1)%Z && bool_decide (Z.abs (Qnum q) <= 2 ^ 53)%Z &&
  bool_decide (2 ^ Z.log2 den = den)%Z && bool_decide (Z.log2 den <= 1074)%Z.

Fixpoint sorted_keys (l : list string) : bool :=
  match l with
  | k :: ((k' :: _) as l') => Strings.String.ltb k k' && sorted_keys l'
  | _ => true
  end.

Fixpoint exact_value (j : Json) : bool :=
  match j with
  | JNull | JBool _ => true
  | JNum q => exact_number q
  | JStr s => ValidString s
  | JArr l => forallb exact_value l
  | JObj kvs => sorted_keys kvs.*1 && forallb (λ kv, ValidString kv.1 && exact_value kv.2) kvs
  end.

Fixpoint nesting (j : Json) : nat :=
  match j with
  | JArr l => S (foldr Nat.max 0 (map nesting l))
  | JObj kvs => S (foldr Nat.max 0 (map (λ kv, nesting kv.2) kvs))
  | _ => 0
  end.
Definition maxNestingDepth : N := 10000.

Definition json_exact (j : Json) : bool := exact_value j && bool_decide (N.of_nat (nesting j) <= maxNestingDepth)%N.

(** [validator.FieldError], as far as it is read. *)
Inductive field_value := VInt (n : Z) | VString (s : string) | VOther.
Record FieldError := mkFieldError {
  ActualTag : string;
  Namespace : string;
  Param : string;
  Value : field_value
}.

Definition getValueLength (value : field_value) : Z :=
  match value with
  | VInt n => n
  | VString s => Z.of_nat (String.length s)
  | VOther => 0
  end.

(** [FormatErrorType] and [OccurrenceConstraintErrorType]; [None] is the panic
    on an endpoint without a dialect. *)
Definition FormatErrorType (d : Dialect) : option string :=
  match d with V16 => Some FormatViolationV16 | V2 => Some FormatViolationV2 | DialectUnset => None end.

Definition OccurrenceConstraintErrorType (d : Dialect) : option string :=
  match d with
  | V16 => Some OccurrenceConstraintViolationV16
  | V2 => Some OccurrenceConstraintViolationV2
  | DialectUnset => None
  end.

Definition error_codes : list string :=
  [NotImplemented; NotSupported; InternalError; MessageTypeNotSupported; ProtocolError; SecurityError;
   FormatViolationV16; FormatViolationV2; PropertyConstraintViolation; OccurrenceConstraintViolationV16;
   OccurrenceConstraintViolationV2; TypeConstraintViolation; GenericError].

Definition IsErrorCodeValid (code : string) : bool := bool_decide (code ∈ error_codes).

Definition for_feature (description feature : string) : string :=
  if decide (feature = "") then description else description +:+ " for feature " +:+ feature.

Definition occurrenceViolation (d : Dialect) (fe : FieldError) (messageId feature : string) : option ocpp_error :=
  let description := for_feature ("Field " +:+ Namespace fe +:+ " required but not found") feature in
  code ← OccurrenceConstraintErrorType d; Some (NewError code description messageId).

Definition propertyConstraintViolation (fe : FieldError) (details messageId feature : string) : ocpp_error :=
  NewError PropertyConstraintViolation
    (for_feature ("Field " +:+ Namespace fe +:+ " must be " +:+ details +:+ " " +:+ Param fe +:+
                  ", but was " +:+ pretty (getValueLength (Value fe))) feature)
    messageId.

(** The tags of [errorFromValidation]'s switch other than "required". *)
Definition constraint_details (tag : string) : option string :=
  if decide (tag = "max") then Some "maximum" else
  if decide (tag = "min") then Some "minimum" else
  if decide (tag = "gte") then Some ">=" else
  if decide (tag = "gt") then Some ">" else
  if decide (tag = "lte") then Some "<=" else
  if decide (tag = "lt") then Some "<" else None.

(** [errorFromValidation]; [text] is [validationErrors.Error()]. *)
Fixpoint errorFromValidation (text : string) (d : Dialect) (validationErrors : list FieldError)
    (messageId feature : string) : option ocpp_error :=
  match validationErrors with
  | [] => Some (NewError GenericError text messageId)
  | el :: rest =>
      if decide (ActualTag el = "required") then occurrenceViolation d el messageId feature else
      match constraint_details (ActualTag el) with
      | Some details => Some (propertyConstraintViolation el details messageId feature)
      | None => errorFromValidation text d rest messageId feature
      end
  end.

(** [MessageType(rawTypeId)]: a float64 to int conversion truncates towards
    zero; outside the range of int its result depends on the machine. *)
Definition float_to_int (overflow : Q → Z) (q : Q) : Z :=
  let t := Z.quot (Qnum q) (Zpos (Qden q)) in
  if decide (- 2 ^ 63 <= t < 2 ^ 63)%Z then t else overflow q.

Section endpoint.
Context {rtype Request Response : Type}.
(** [GetFeatureName] of requests and responses. *)
Context (request_feature : Request → string) (response_feature : Response → string).
(** [encoding/json]: bytes to a value and back, with the HTML-escape flag. *)
Context (json_Unmarshal : string → Json + error) (json_Encode : bool → Json → string + error).
(** Payload codecs: decoding into a new value of a type, encoding a payload. *)
Context (decode_request : Json → rtype → Request + error)
        (decode_response : Json → rtype → Response + error)
        (encode_request : Request → Json) (encode_response : Response → Json).
(** The validator: the failed fields of a message, and their [Error()] text. *)
Context (validate_call : Call Request → list FieldError)
        (validate_result : CallResult Response → list FieldError)
        (validate_error : CallError Json → list FieldError)
        (errors_text : list FieldError → string).
(** [fmt.Sprintf("%v", x)] and the out-of-range float conversion. *)
Context (fmt_v : Json → string) (overflow : Q → Z).

Record Endpoint := mkEndpoint { dialect : Dialect; Profiles : list (Profile rtype) }.

Definition SetDialect (d : Dialect) (e : Endpoint) : Endpoint := mkEndpoint d (Profiles e).
Definition AddProfile (p : Profile rtype) (e : Endpoint) : Endpoint :=
  mkEndpoint (dialect e) (Profiles e ++ [p]).

Definition GetProfile (name : string) (e : Endpoint) : option (Profile rtype) :=
  head (filter (λ p, Name p = name) (Profiles e)).

Definition GetProfileForFeature (featureName : string) (e : Endpoint) : option (Profile rtype) :=
  head (filter (λ p, SupportsFeature p featureName = true) (Profiles e)).

(** [parseRawJsonRequest], [parseRawJsonConfirmation]: a missing payload is an
    empty object. *)
Definition or_empty (raw : Json) : Json := match raw with JNull => JObj [] | _ => raw end.
Definition parseRawJsonRequest (raw : Json) (t : rtype) : Request + error := decode_request (or_empty raw) t.
Definition parseRawJsonConfirmation (raw : Json) (t : rtype) : Response + error := decode_response (or_empty raw) t.

(** [ParseRawJsonMessage]: unmarshalling into a slice; [null] leaves it nil. *)
Definition ParseRawJsonMessage (dataJson : string) : list Json + error :=
  match json_Unmarshal dataJson with
  | inr e => inr e
  | inl (JArr l) => inl l
  | inl JNull => inl []
  | inl _ => inr (Errorf "json: cannot unmarshal into Go value of type []interface {}" None)
  end.

Inductive message :=
| MCall (c : Call Request)
| MCallResult (c : CallResult Response)
| MCallError (c : CallError Json).

(** Results of [ParseMessage]: a message, [nil, nil] (discarded), an error, a
    run-time panic. *)
Inductive parsed :=
| Parsed (m : message)
| Discarded
| ParseError (e : ocpp_error)
| ParsePanic.

Definition err_result (e : option ocpp_error) : parsed :=
  match e with Some e => ParseError e | None => ParsePanic end.

(** [ocpp.NewError(FormatErrorType(endpoint), ...)] *)
Definition format_error (e : Endpoint) (description id : string) : parsed :=
  err_result (code ← FormatErrorType (dialect e); Some (NewError code description id)).

Definition validation_result (e : Endpoint) (ferrs : list FieldError) (id feature : string) (m : message) : parsed :=
  match ferrs with
  | [] => Parsed m
  | _ => err_result (errorFromValidation (errors_text ferrs) (dialect e) ferrs id feature)
  end.

Definition parse_call (e : Endpoint) (arr : list Json) (uniqueId : string) : parsed :=
  match arr with
  | [_; _; a2; a3] =>
      match a2 with
      | JStr action =>
          match GetProfileForFeature action e with
          | None => ParseError (NewError NotSupported ("Unsupported feature " +:+ action) uniqueId)
          | Some profile =>
              match ParseRequest profile action a3 parseRawJsonRequest with
              | inr err => format_error e (error_text err) uniqueId
              | inl request =>
                  let call := mkCall CALL uniqueId action (Some request) in
                  validation_result e (validate_call call) uniqueId action (MCall call)
              end
          end
      | _ => format_error e ("Invalid element " +:+ fmt_v a2 +:+ " at 2, expected action (string)") uniqueId
      end
  | _ => format_error e "Invalid Call message. Expected array length 4" uniqueId
  end.

Definition parse_call_result (e : Endpoint) (a2 : Json) (uniqueId : string)
    (pending : ClientState.clientState Request) : parsed :=
  match ClientState.GetPendingRequest uniqueId pending with
  | None => Discarded
  | Some None => ParsePanic
  | Some (Some request) =>
      let feature := request_feature request in
      match GetProfileForFeature feature e with
      | None => ParseError (NewError InternalError ("no profile found for feature " +:+ feature) uniqueId)
      | Some profile =>
          match ParseResponse profile feature a2 parseRawJsonConfirmation with
          | inr err => format_error e (error_text err) uniqueId
          | inl confirmation =>
              let callResult := mkCallResult CALL_RESULT uniqueId (Some confirmation) in
              validation_result e (validate_result callResult) uniqueId feature (MCallResult callResult)
          end
      end
  end.

Definition parse_call_error (e : Endpoint) (arr : list Json) (a2 : Json) (uniqueId : string)
    (pending : ClientState.clientState Request) : parsed :=
  match ClientState.GetPendingRequest uniqueId pending with
  | None => Discarded
  | Some _ =>
      match arr !! 3 with
      | None => format_error e "Invalid Call Error message. Expected array length >= 4" uniqueId
      | Some a3 =>
          match a2 with
          | JStr rawErrorCode =>
              let details := match arr !! 4 with Some JNull | None => None | Some v => Some v end in
              let callError := mkCallError CALL_ERROR uniqueId rawErrorCode
                                 (match a3 with JStr v => v | _ => "" end) details in
              validation_result e (validate_error callError) uniqueId "" (MCallError callError)
          | _ =>
              (* the failed assertion leaves rawErrorCode empty, and it is passed as the id *)
              format_error e ("Invalid element " +:+ fmt_v a2 +:+ " at 2, expected rawErrorCode (string)") ""
          end
      end
  end.

Definition ParseMessage (e : Endpoint) (arr : list Json) (pending : ClientState.clientState Request) : parsed :=
  match arr with
  | a0 :: a1 :: a2 :: _ =>
      match a0 with
      | JNum rawTypeId =>
          let typeId := float_to_int overflow rawTypeId in
          match a1 with
          | JStr uniqueId =>
              if decide (uniqueId = "") then format_error e "Invalid unique ID, cannot be empty" uniqueId else
              if decide (typeId = CALL) then parse_call e arr uniqueId else
              if decide (typeId = CALL_RESULT) then parse_call_result e a2 uniqueId pending else
              if decide (typeId = CALL_ERROR) then parse_call_error e arr a2 uniqueId pending else
              ParseError (NewError MessageTypeNotSupported ("Invalid message type ID " +:+ pretty typeId) uniqueId)
          | _ => format_error e ("Invalid element " +:+ fmt_v a1 +:+ " at 1, expected unique ID (string)") ""
          end
      | _ => format_error e ("Invalid element " +:+ fmt_v a0 +:+ " at 0, expected message type (int)") ""
      end
  | _ => format_error e "Invalid message. Expected array length >= 3" ""
  end.

(** *** Creating messages *)

(** Failures of the [Create*] functions: an error value or the validator's
    field errors. *)
Inductive create_error := CreateErr (e : error) | CreateInvalid (ferrs : list FieldError).

Definition validated {A : Type} (validationEnabled : bool) (ferrs : list FieldError) (m : A) : A + create_error :=
  if validationEnabled then match ferrs with [] => inl m | _ => inr (CreateInvalid ferrs) end else inl m.

(** [CreateCall]; [uniqueId] is what the message id generator returns. *)
Definition CreateCall (validationEnabled : bool) (e : Endpoint) (request : Request) (uniqueId : string)
    : Call Request + create_error :=
  let action := request_feature request in
  match GetProfileForFeature action e with
  | None => inr (CreateErr (Errorf ("Couldn't create Call for unsupported action " +:+ action) None))
  | Some _ =>
      let call := mkCall CALL uniqueId action (Some request) in
      validated validationEnabled (validate_call call) call
  end.

Definition CreateCallResult (validationEnabled : bool) (e : Endpoint) (confirmation : Response) (uniqueId : string)
    : CallResult Response + create_error :=
  let action := response_feature confirmation in
  match GetProfileForFeature action e with
  | None => inr (CreateErr (OcppError (NewError NotSupported
              ("couldn't create Call Result for unsupported action " +:+ action) uniqueId)))
  | Some _ =>
      let callResult := mkCallResult CALL_RESULT uniqueId (Some confirmation) in
      validated validationEnabled (validate_result callResult) callResult
  end.

Definition CreateCallError (validationEnabled : bool) (uniqueId code description : string) (details : option Json)
    : CallError Json + create_error :=
  let callError := mkCallError CALL_ERROR uniqueId code description details in
  validated validationEnabled (validate_error callError) callError.

(** *** The wire form *)

Definition int_json (z : Z) : Json := JNum (inject_Z z).

Definition Call_fields (c : Call Request) : list Json :=
  [int_json (call_MessageTypeId c); JStr (UniqueId c); JStr (Action c);
   match Payload c with Some r => encode_request r | None => JNull end].

Definition CallResult_fields (c : CallResult Response) : list Json :=
  [int_json (cr_MessageTypeId c); JStr (cr_UniqueId c);
   match cr_Payload c with Some r => encode_response r | None => JNull end].

(** Missing details are sent as an empty object. *)
Definition CallError_fields (c : CallError Json) : list Json :=
  [int_json (ce_MessageTypeId c); JStr (ce_UniqueId c); JStr (ce_ErrorCode c); JStr (ce_ErrorDescription c);
   match ce_ErrorDetails c with Some v => v | None => JObj [] end].

(** [MarshalJSON] of the three messages; [EscapeHTML] is the package flag. *)
Definition Call_MarshalJSON (EscapeHTML : bool) (c : Call Request) : string + error :=
  json_Encode EscapeHTML (JArr (Call_fields c)).
Definition CallResult_MarshalJSON (EscapeHTML : bool) (c : CallResult Response) : string + error :=
  json_Encode EscapeHTML (JArr (CallResult_fields c)).
Definition CallError_MarshalJSON (EscapeHTML : bool) (c : CallError Json) : string + error :=
  json_Encode EscapeHTML (JArr (CallError_fields c)).

(** ** Lemmas *)

Lemma GetProfileForFeature_supports f e p :
  GetProfileForFeature f e = Some p → is_Some (GetFeature p f).
Proof.
  unfold GetProfileForFeature. intros Hh. apply SupportsFeature_GetFeature.
  destruct (filter _ _) as [|p' l] eqn:Hf; simplify_eq/=.
  assert (Hin : p ∈ filter (λ p, SupportsFeature p f = true) (Profiles e)) by (rewrite Hf; left).
  by apply list_elem_of_filter in Hin as [? _].
Qed.

Lemma float_to_int_inject z : in_int64 z → float_to_int overflow (inject_Z z) = z.
Proof.
  unfold float_to_int, inject_Z, in_int64. simpl. intros Hz.
  rewrite Z.quot_1_r, decide_True by lia. done.
Qed.

Lemma validated_ok {A : Type} ferrs (m m' : A) :
  validated true ferrs m = inl m' → m' = m ∧ ferrs = [].
Proof. unfold validated. destruct ferrs; intros; by simplify_eq. Qed.

(** What the decoder reads, at an endpoint, from the encoding of a payload. *)
Definition request_reads (e : Endpoint) (r r' : Request) : Prop :=
  ∀ p ft, GetProfileForFeature (request_feature r) e = Some p →
    GetFeature p (request_feature r) = Some ft →
    decode_request (or_empty (encode_request r)) (GetRequestType ft) = inl r'.
Definition response_reads (e : Endpoint) (feature : string) (r r' : Response) : Prop :=
  ∀ p ft, GetProfileForFeature feature e = Some p → GetFeature p feature = Some ft →
    decode_response (or_empty (encode_response r)) (GetResponseType ft) = inl r'.
(** [encoding/json]: the decoder reads back what the encoder wrote for a value that
    bytes can carry. *)
Definition json_codec_ok : Prop :=
  ∀ esc v s, json_exact v = true → json_Encode esc v = inl s → json_Unmarshal s = inl v.

Lemma ParseRawJsonMessage_encode esc l s :
  json_codec_ok → json_exact (JArr l) = true → json_Encode esc (JArr l) = inl s → ParseRawJsonMessage s = inl l.
Proof. intros Hj Hl Hs. unfold ParseRawJsonMessage. by rewrite (Hj _ _ _ Hl Hs). Qed.

(** [ParseMessage] on the array of each kind of message. *)
Lemma ParseMessage_call e id a2 a3 pending :
  id ≠ "" → ParseMessage e [int_json CALL; JStr id; a2; a3] pending =
            parse_call e [int_json CALL; JStr id; a2; a3] id.
Proof.
  intros Hid. unfold ParseMessage, int_json. rewrite float_to_int_inject by done.
  by rewrite decide_False, decide_True by done.
Qed.

Lemma ParseMessage_result e id a2 pending :
  id ≠ "" → ParseMessage e [int_json CALL_RESULT; JStr id; a2] pending =
            parse_call_result e a2 id pending.
Proof.
  intros Hid. unfold ParseMessage, int_json. rewrite float_to_int_inject by done.
  by rewrite !decide_False, decide_True by done.
Qed.

Lemma ParseMessage_error e id a2 rest pending :
  id ≠ "" → ParseMessage e (int_json CALL_ERROR :: JStr id :: a2 :: rest) pending =
            parse_call_error e (int_json CALL_ERROR :: JStr id :: a2 :: rest) a2 id pending.
Proof.
  intros Hid. unfold ParseMessage, int_json. rewrite float_to_int_inject by done.
  by rewrite !decide_False, decide_True by done.
Qed.

Lemma parse_call_created e r r' id :
  request_reads e r r' → is_Some (GetProfileForFeature (request_feature r) e) →
  let c := mkCall CALL id (request_feature r) (Some r') in
  parse_call e [int_json CALL; JStr id; JStr (request_feature r); encode_request r] id =
    validation_result e (validate_call c) id (request_feature r) (MCall c).
Proof.
  intros Hc [p Hp]. cbv zeta. simpl. rewrite Hp. unfold ParseRequest, parseRawJsonRequest.
  destruct (GetProfileForFeature_supports _ _ _ Hp) as [ft Hft]. unfold GetFeature in Hft.
  rewrite Hft. by rewrite (Hc p ft Hp Hft).
Qed.

(** The codes [errorFromValidation] and [format_error] use are OCPP codes. *)
Lemma errorFromValidation_spec text d ferrs id feature err :
  errorFromValidation text d ferrs id feature = Some err →
  MessageId err = id ∧ IsErrorCodeValid (Code err) = true.
Proof.
  induction ferrs as [|el rest IH]; simpl; [intros; by simplify_eq|].
  case_decide; [|case_match; [intros; by simplify_eq|done]].
  unfold occurrenceViolation, OccurrenceConstraintErrorType. destruct d; intros; by simplify_eq/=.
Qed.

Lemma errorFromValidation_defined text d ferrs id feature :
  d ≠ DialectUnset → is_Some (errorFromValidation text d ferrs id feature).
Proof.
  intros Hd. induction ferrs as [|el rest IH]; simpl; [eauto|].
  case_decide; [|case_match; eauto]. unfold occurrenceViolation. destruct d; simpl; eauto; done.
Qed.

Lemma format_error_spec e desc id err :
  format_error e desc id = ParseError err → MessageId err = id ∧ IsErrorCodeValid (Code err) = true.
Proof. unfold format_error. destruct (dialect e); simpl; intros; by simplify_eq. Qed.

Lemma format_error_defined e desc id :
  dialect e ≠ DialectUnset → format_error e desc id ≠ ParsePanic.
Proof. unfold format_error. by destruct (dialect e). Qed.

Lemma validation_result_spec e ferrs id feature m err :
  validation_result e ferrs id feature m = ParseError err →
  MessageId err = id ∧ IsErrorCodeValid (Code err) = true.
Proof.
  unfold validation_result. destruct ferrs as [|fe l]; [done|].
  destruct (errorFromValidation _ _ _ _ _) eqn:Hv; simpl; intros; simplify_eq.
  by apply errorFromValidation_spec in Hv.
Qed.

Lemma validation_result_defined e ferrs id feature m :
  dialect e ≠ DialectUnset → validation_result e ferrs id feature m ≠ ParsePanic.
Proof.
  intros Hd. unfold validation_result. destruct ferrs as [|fe l]; [done|].
  by destruct (errorFromValidation_defined (errors_text (fe :: l)) _ (fe :: l) id feature Hd) as [? ->].
Qed.

Lemma validation_result_parsed e fe id f m m' : validation_result e fe id f m' = Parsed m → m' = m.
Proof. unfold validation_result. destruct fe; [congruence|]. by destruct (errorFromValidation _ _ _ _ _). Qed.

Lemma format_error_not_parsed e desc id m : format_error e desc id = Parsed m → False.
Proof. unfold format_error. by destruct (dialect e). Qed.

(** A call that was parsed has passed validation. *)
Lemma validation_result_valid e fe id f m m' : validation_result e fe id f m' = Parsed m → fe = [].
Proof. unfold validation_result. destruct fe; [done|]. by destruct (errorFromValidation _ _ _ _ _). Qed.

Lemma parsed_call_valid e arr pending c :
  ParseMessage e arr pending = Parsed (MCall c) → validate_call c = [] ∧ UniqueId c ≠ "".
Proof.
  unfold ParseMessage, parse_call, parse_call_result, parse_call_error. intros Hp.
  repeat (case_match; simplify_eq/=; try done); try (by apply format_error_not_parsed in Hp);
    pose proof (validation_result_valid _ _ _ _ _ _ Hp) as Hv; apply validation_result_parsed in Hp; by simplify_eq/=.
Qed.

(** ** Through the wire

    A message made with validation on, marshalled to bytes that can carry it and
    received by an endpoint with the same profiles, is parsed back with the payload
    the decoder reads, if that passes validation; the missing details of an error
    come back as an empty object. *)

Lemma created_call e r id c : CreateCall true e r id = inl c → c = mkCall CALL id (request_feature r) (Some r).
Proof. unfold CreateCall. destruct (GetProfileForFeature _ e); [|done]. by intros [-> _]%validated_ok. Qed.
Lemma created_result e resp id c : CreateCallResult true e resp id = inl c → c = mkCallResult CALL_RESULT id (Some resp).
Proof. unfold CreateCallResult. destruct (GetProfileForFeature _ e); [|done]. by intros [-> _]%validated_ok. Qed.

Lemma call_parses (e : Endpoint) (r r' : Request) (id : string) c esc s pending :
  json_codec_ok → request_reads e r r' → id ≠ "" →
  CreateCall true e r id = inl c → Call_MarshalJSON esc c = inl s → json_exact (JArr (Call_fields c)) = true →
  let c' := mkCall CALL id (request_feature r) (Some r') in
  ∃ arr, ParseRawJsonMessage s = inl arr ∧
    ParseMessage e arr pending = validation_result e (validate_call c') id (request_feature r) (MCall c').
Proof.
  intros Hj Hcod Hid Hc Hs Hx. exists (Call_fields c).
  split; [by eapply ParseRawJsonMessage_encode|]. pose proof (created_call _ _ _ _ Hc) as ->.
  unfold CreateCall in Hc. destruct (GetProfileForFeature _ e) as [p|] eqn:Hp; [|done].
  unfold Call_fields. cbn [call_MessageTypeId UniqueId Action Payload].
  rewrite ParseMessage_call by done. by rewrite (parse_call_created e r r' id Hcod) by eauto.
Qed.

Lemma call_result_parses (e : Endpoint) (resp resp' : Response) (req : Request) (id : string) c esc s pending :
  json_codec_ok → response_reads e (request_feature req) resp resp' → id ≠ "" →
  response_feature resp = request_feature req →
  ClientState.GetPendingRequest id pending = Some (Some req) →
  CreateCallResult true e resp id = inl c → CallResult_MarshalJSON esc c = inl s →
  json_exact (JArr (CallResult_fields c)) = true →
  let c' := mkCallResult CALL_RESULT id (Some resp') in
  ∃ arr, ParseRawJsonMessage s = inl arr ∧
    ParseMessage e arr pending = validation_result e (validate_result c') id (request_feature req) (MCallResult c').
Proof.
  intros Hj Hcod Hid Hf Hpend Hc Hs Hx. exists (CallResult_fields c).
  split; [by eapply ParseRawJsonMessage_encode|]. pose proof (created_result _ _ _ _ Hc) as ->.
  unfold CreateCallResult in Hc. rewrite Hf in Hc.
  destruct (GetProfileForFeature _ e) as [p|] eqn:Hp; [|done].
  unfold CallResult_fields. cbn [cr_MessageTypeId cr_UniqueId cr_Payload].
  rewrite ParseMessage_result by done. unfold parse_call_result. rewrite Hpend, Hp.
  unfold ParseResponse, parseRawJsonConfirmation.
  destruct (GetProfileForFeature_supports _ _ _ Hp) as [ft Hft]. unfold GetFeature in Hft.
  rewrite Hft. by rewrite (Hcod p ft Hp Hft).
Qed.

Lemma call_error_parses (e : Endpoint) (id code desc : string) details c esc s pending :
  json_codec_ok → id ≠ "" → details ≠ Some JNull →
  is_Some (ClientState.GetPendingRequest id pending) →
  CreateCallError true id code desc details = inl c → CallError_MarshalJSON esc c = inl s →
  json_exact (JArr (CallError_fields c)) = true →
  let c' := mkCallError CALL_ERROR id code desc (Some (default (JObj []) details)) in
  validate_error c' = [] →
  ∃ arr, ParseRawJsonMessage s = inl arr ∧ ParseMessage e arr pending = Parsed (MCallError c').
Proof.
  intros Hj Hid Hnn [req Hpend] Hc Hs Hx c' Hv'. exists (CallError_fields c).
  split; [by eapply ParseRawJsonMessage_encode|].
  apply validated_ok in Hc as [-> Hv].
  unfold CallError_fields. cbn [ce_MessageTypeId ce_UniqueId ce_ErrorCode ce_ErrorDescription ce_ErrorDetails].
  rewrite ParseMessage_error by done. unfold parse_call_error. rewrite Hpend. simpl.
  unfold validation_result. subst c'. destruct details as [[]|]; try done; simpl in Hv'; by rewrite Hv'.
Qed.

(** [ParseMessage] does not panic on any array, on an endpoint with a dialect,
    when the pending request it may look up is not nil. *)
Lemma ParseMessage_defined (e : Endpoint) (arr : list Json) pending :
  dialect e ≠ DialectUnset →
  (∀ id, id ≠ "" → ClientState.GetPendingRequest id pending ≠ Some None) →
  ParseMessage e arr pending ≠ ParsePanic.
Proof.
  intros Hd Hp. pose proof (λ desc id, format_error_defined e desc id Hd) as Hf.
  pose proof (λ fe id f m, validation_result_defined e fe id f m Hd) as Hv.
  unfold ParseMessage, parse_call, parse_call_result, parse_call_error.
  repeat (case_match; try apply Hf; try apply Hv; try done).
  by edestruct Hp.
Qed.

(** ** Properties *)

(** every error [ParseMessage] reports for a message with a type and a
    non-empty id carries an OCPP error code and that id, so it can be sent
    back; the one exception is a CALL ERROR whose code is not a string. *)
Theorem parse_error_addressed (e : Endpoint) q (id : string) a2 rest pending err :
  id ≠ "" → ParseMessage e (JNum q :: JStr id :: a2 :: rest) pending = ParseError err →
  IsErrorCodeValid (Code err) = true ∧
  (MessageId err = id ∨
   (float_to_int overflow q = CALL_ERROR ∧ (∀ s, a2 ≠ JStr s) ∧ MessageId err = "")).
Proof.
  intros Hid. unfold ParseMessage, parse_call, parse_call_result, parse_call_error.
  assert (HF : ∀ desc id', format_error e desc id' = ParseError err →
    MessageId err = id' ∧ IsErrorCodeValid (Code err) = true) by (intros; by eapply format_error_spec).
  assert (HV : ∀ fe f m, validation_result e fe id f m = ParseError err →
    MessageId err = id ∧ IsErrorCodeValid (Code err) = true) by (intros; by eapply validation_result_spec).
  intros Hpe. repeat (case_match; simplify_eq/=; try done);
    try (destruct (HF _ _ Hpe) as [? ?]); try (destruct (HV _ _ _ Hpe) as [? ?]); simplify_eq; auto 10.
Qed.

(** responses are only accepted for the pending request: a CALL RESULT or
    CALL ERROR is discarded when its id is not the pending one, and a parsed
    one carries the pending id. *)
Theorem parse_solicited_only (e : Endpoint) arr pending m :
  ParseMessage e arr pending = Parsed m →
  match m with
  | MCall _ => True
  | MCallResult c => is_Some (ClientState.GetPendingRequest (cr_UniqueId c) pending) ∧ cr_UniqueId c ≠ ""
  | MCallError c => is_Some (ClientState.GetPendingRequest (ce_UniqueId c) pending) ∧ ce_UniqueId c ≠ ""
  end.
Proof.
  unfold ParseMessage, parse_call, parse_call_result, parse_call_error. intros Hp.
  repeat (case_match; simplify_eq/=; try done); try (by apply format_error_not_parsed in Hp);
    try (apply validation_result_parsed in Hp; simplify_eq/=); eauto.
Qed.

(** switching validation off with [SetMessageValidation(false)] affects
    only the messages an endpoint creates: an invalid call it then sends is
    still rejected by [ParseMessage]. *)
Theorem parse_always_validates (e : Endpoint) (r r' : Request) (id : string) c pending :
  request_reads e r r' → id ≠ "" → CreateCall false e r id = inl c →
  validate_call (mkCall CALL id (request_feature r) (Some r')) ≠ [] →
  ∀ m, ParseMessage e (Call_fields c) pending ≠ Parsed m.
Proof.
  intros Hcod Hid Hc Hv m. unfold CreateCall in Hc.
  destruct (GetProfileForFeature _ e) as [p|] eqn:Hp; [|done]. injection Hc as <-.
  unfold Call_fields. cbn [call_MessageTypeId UniqueId Action Payload]. rewrite ParseMessage_call by done.
  rewrite (parse_call_created e r r' id Hcod) by eauto. unfold validation_result.
  destruct (validate_call _); [done|]. by destruct (errorFromValidation _ _ _ _ _).
Qed.
End endpoint.

(** ** A concrete instance

    One feature whose payload is a string; the byte codec of the values that
    occur is a table, the validator requires an id of at most 36 bytes. *)
Module Demo.
Definition feature_name (_ : string) : string := "DataTransfer".
Definition enc (s : string) : Json := JStr s.
Definition dec (j : Json) (_ : unit) : string + error :=
  match j with JStr s => inl s | _ => inr (Errorf "not a string" None) end.
Definition too_long : FieldError := mkFieldError "max" "Call.UniqueId" "36" (VInt 40).
Definition check_id (id : string) : list FieldError :=
  if decide (String.length id <= 36) then [] else [too_long].
Definition vcall (c : Call string) := check_id (UniqueId c).
Definition vresult (c : CallResult string) := check_id (cr_UniqueId c).
Definition verror (c : CallError Json) := check_id (ce_UniqueId c).
Definition texts (_ : list FieldError) : string := "invalid".
Definition show (_ : Json) : string := "v".
Definition over (_ : Q) : Z := 0.
(** Encodings of four messages. *)
Definition encode (_ : bool) (v : Json) : string + error :=
  match v with
  | JArr [JNum (Qmake n 1); JStr id; JStr action; JStr payload] =>
      if decide (n = 2%Z ∧ id = "7" ∧ action = "DataTransfer" ∧ payload = "x") then inl "[2,7,DataTransfer,x]"
      else inr (Errorf "unsupported" None)
  | JArr [JNum (Qmake n 1); JStr id; JStr payload] =>
      if decide (n = 3%Z ∧ id = "7" ∧ payload = "y") then inl "[3,7,y]" else inr (Errorf "unsupported" None)
  | JArr [JNum (Qmake n 1); JStr id; JStr code; JStr desc; JObj []] =>
      if decide (n = 4%Z ∧ id = "7" ∧ code = "GenericError" ∧ desc = "d") then inl "[4,7,GenericError,d,{}]" else
      if decide (n = 4%Z ∧ id = "7" ∧ code = "InternalError" ∧ desc = "internal error while handling request")
      then inl "[4,7,InternalError,internal error while handling request,{}]"
      else inr (Errorf "unsupported" None)
  | _ => inr (Errorf "unsupported" None)
  end.
Definition decode (s : string) : Json + error :=
  if decide (s = "[2,7,DataTransfer,x]") then inl (JArr [int_json 2; JStr "7"; JStr "DataTransfer"; JStr "x"]) else
  if decide (s = "[3,7,y]") then inl (JArr [int_json 3; JStr "7"; JStr "y"]) else
  if decide (s = "[4,7,GenericError,d,{}]") then
    inl (JArr [int_json 4; JStr "7"; JStr "GenericError"; JStr "d"; JObj []]) else
  if decide (s = "[4,7,InternalError,internal error while handling request,{}]") then
    inl (JArr [int_json 4; JStr "7"; JStr "InternalError"; JStr "internal error while handling request"; JObj []]) else
  inr (Errorf "syntax" None).
Definition ep : @Endpoint unit :=
  mkEndpoint V16 [NewProfile "core" [mkFeature "DataTransfer" tt tt]].
Definition pend : ClientState.clientState string := ClientState.mkState "7" (Some "x").

Lemma json_ok : json_codec_ok decode encode.
Proof.
  intros esc v s _. unfold encode. repeat (case_match; try done); intros; simplify_eq/=;
    destruct_and!; subst; reflexivity.
Qed.
Lemma req_ok : request_reads feature_name dec enc ep "x" "x".
Proof. by intros p ft Hp Hf. Qed.
Lemma resp_ok : response_reads dec enc ep "DataTransfer" "y" "y".
Proof. by intros p ft Hp Hf. Qed.
End Demo.

(** [ParseMessage] of the instance. *)
Abbreviation demo_parse :=
  (ParseMessage Demo.feature_name Demo.dec Demo.dec Demo.vcall Demo.vresult Demo.verror Demo.texts
     Demo.show Demo.over Demo.ep).

Lemma parse_error_addressed_witness :
  ∃ err, demo_parse [JNum (2#1); JStr "7"; JStr "Boot"; JNull] Demo.pend = ParseError err ∧
         Code err = NotSupported ∧ IsErrorCodeValid (Code err) = true ∧ MessageId err = "7".
Proof.
  eexists. split; [reflexivity|]. split; [reflexivity|].
  destruct (parse_error_addressed Demo.feature_name Demo.dec Demo.dec Demo.vcall Demo.vresult Demo.verror
    Demo.texts Demo.show Demo.over Demo.ep (2#1) "7" (JStr "Boot") [JNull] Demo.pend _
    ltac:(discriminate) eq_refl) as [Hc [Hid|(Hx & _)]].
  - split; [exact Hc|exact Hid].
  - vm_compute in Hx. discriminate.
Defined.

Lemma parse_solicited_only_witness :
  demo_parse [JNum (3#1); JStr "7"; JStr "y"] Demo.pend =
    Parsed (MCallResult (mkCallResult CALL_RESULT "7" (Some "y"))) ∧
  is_Some (ClientState.GetPendingRequest "7" Demo.pend).
Proof.
  split; [reflexivity|].
  exact (proj1 (parse_solicited_only Demo.feature_name Demo.dec Demo.dec Demo.vcall Demo.vresult Demo.verror
    Demo.texts Demo.show Demo.over Demo.ep [JNum (3#1); JStr "7"; JStr "y"] Demo.pend
    (MCallResult (mkCallResult CALL_RESULT "7" (Some "y"))) eq_refl)).
Defined.

Lemma parse_always_validates_witness :
  let id := "0123456789012345678901234567890123456789" in
  let out := demo_parse (Call_fields Demo.enc (mkCall CALL id "DataTransfer" (Some "x"))) Demo.pend in
  match out with Parsed _ => false | _ => true end = true ∧ ∀ m, out ≠ Parsed m.
Proof.
  split; [vm_compute; reflexivity|].
  exact (parse_always_validates Demo.feature_name Demo.dec Demo.dec Demo.enc Demo.vcall Demo.vresult Demo.verror
    Demo.texts Demo.show Demo.over Demo.ep "x" "x" "0123456789012345678901234567890123456789"
    (mkCall CALL "0123456789012345678901234567890123456789" "DataTransfer" (Some "x")) Demo.pend
    Demo.req_ok ltac:(discriminate) eq_refl ltac:(discriminate)).
Defined.
