(* ===== verification/GoTypes.v ===== *)
(** * Message structs and their JSON form

    The payload types of the profile packages under src/ocpp1.6 and
    src/ocpp2.0.1 are Go structs with [json] and [validate] tags.  A [gotype] is
    such a type, a [goval] one of its values; [encode] and [decode] are what
    [encoding/json] does with them by reflection, with the methods of
    [types.DateTime] (src/ocpp2.0.1/types/datetime.go) and [types.CustomData]
    (src/ocpp2.0.1/types/customdata.go).  Payloads are encoded through pointers,
    so methods with pointer receivers apply.  A JSON value is that of [Endpoint]:
    what a decoder sees is the re-encoding of an [interface{}], whose members
    have distinct, sorted keys. *)

From Stdlib Require Import QArith.QArith Ascii.
From S2P Require Import Prelude Ocpp Endpoint.
Local Open Scope string_scope.
Local Open Scope list_scope.

(** ** Types *)

(** An element of a [validate] tag. *)
Inductive tag :=
| Required | Omitempty | Dive | Unique | Uri | Url
| Max (n : Z) | Min (n : Z) | Gte (n : Z) | Gt (n : Z) | Lte (n : Z) | Lt (n : Z)
| Custom (name : string).          (* one registered with [RegisterValidation] *)

#[export] Instance tag_eq_dec : EqDecision tag.
Proof. solve_decision. Defined.

Record fieldinfo := mkField {
  f_name : string;                 (* the Go field *)
  f_json : string;                 (* the name in the json tag *)
  f_omitempty : bool;
  f_tags : list tag
}.

#[export] Instance fieldinfo_eq_dec : EqDecision fieldinfo.
Proof. solve_decision. Defined.

Inductive gotype :=
| TString | TInt | TFloat | TBool
| TEnum (name : string)            (* a named string type *)
| TDateTime | TCustomData
| TAny                             (* interface{} *)
| TPtr (t : gotype)
| TSlice (t : gotype)
| TStruct (name : string) (fs : list (fieldinfo * gotype)).

(** Induction with a hypothesis for every field. *)
Lemma gotype_fields_ind (P : gotype → Prop) :
  P TString → P TInt → P TFloat → P TBool → (∀ n, P (TEnum n)) → P TDateTime → P TCustomData → P TAny →
  (∀ t, P t → P (TPtr t)) → (∀ t, P t → P (TSlice t)) →
  (∀ n fs, Forall (λ ft, P ft.2) fs → P (TStruct n fs)) → ∀ t, P t.
Proof.
  intros H1 H2 H3 H4 H5 H6 H7 H8 H9 H10 H11. fix IH 1. intros [| | | |n| | | |t|t|n fs];
    [exact H1|exact H2|exact H3|exact H4|apply H5|exact H6|exact H7|exact H8|apply H9, IH|apply H10, IH|apply H11].
  induction fs as [|[f t] fs IHfs]; constructor; [apply IH|apply IHfs].
Qed.

(** ** Values *)

(** [json.RawMessage]: no bytes, the bytes of one JSON value, other bytes. *)
Inductive RawMessage := RawNone | RawJson (j : Json) | RawBad.

(** Strings are UTF-8, floats finite. *)
Inductive goval :=
| VStr (s : string) | VNum (z : Z) | VFloat (q : Q) | VBool (b : bool)
| VTime (ns : Z)                   (* an instant, from the zero time.Time *)
| VCustom (VendorId : string) (Extensions : gmap string RawMessage)
| VAny (j : Json)
| VNil
| VPtr (v : goval)
| VSlice (l : list goval)
| VStruct (l : list goval).

(** The zero value of a type. *)
Fixpoint zero (t : gotype) : goval :=
  match t with
  | TString | TEnum _ => VStr ""
  | TInt => VNum 0
  | TFloat => VFloat 0
  | TBool => VBool false
  | TDateTime => VTime 0
  | TCustomData => VCustom "" ∅
  | TAny | TPtr _ | TSlice _ => VNil
  | TStruct _ fs => VStruct (map (λ ft, zero ft.2) fs)
  end.

Fixpoint all2 {A B : Type} (f : A → B → bool) (l : list A) (k : list B) : bool :=
  match l, k with
  | [], [] => true
  | x :: l', y :: k' => f x y && all2 f l' k'
  | _, _ => false
  end.

Definition raw_ok (r : RawMessage) : bool := match r with RawBad => false | _ => true end.

(** Well-typed values, with integers in the range of [int].  The extensions of a
    [CustomData] are values that can be marshalled. *)
Fixpoint has_type (t : gotype) (v : goval) : bool :=
  match t, v with
  | (TString | TEnum _), VStr _ => true
  | TInt, VNum z => bool_decide (- 2 ^ 63 <= z < 2 ^ 63)%Z
  | TFloat, VFloat _ => true
  | TBool, VBool _ => true
  | TDateTime, VTime _ => true
  | TCustomData, VCustom _ exts => bool_decide (map_Forall (λ _ r, raw_ok r = true) exts)
  | TAny, (VAny _ | VNil) => true
  | TPtr _, VNil => true
  | TPtr t', VPtr v' => has_type t' v'
  | TSlice _, VNil => true
  | TSlice t', VSlice l => forallb (has_type t') l
  | TStruct _ fs, VStruct l => all2 (λ ft v, has_type ft.2 v) fs l
  | _, _ => false
  end.

(** The empty values of [omitempty]. *)
Definition is_empty (v : goval) : bool :=
  match v with
  | VStr s => bool_decide (s = "")
  | VNum z => bool_decide (z = 0%Z)
  | VFloat q => Qeq_bool q 0
  | VBool b => negb b
  | VNil => true
  | VSlice [] => true
  | _ => false
  end.

(** ** Sorting members *)

Fixpoint insert_member (kv : string * Json) (l : list (string * Json)) : list (string * Json) :=
  match l with
  | [] => [kv]
  | kv' :: l' => if Strings.String.leb kv.1 kv'.1 then kv :: l else kv' :: insert_member kv l'
  end.
Definition sort_members (l : list (string * Json)) : list (string * Json) := foldr insert_member [] l.

Lemma insert_member_perm kv l : insert_member kv l ≡ₚ kv :: l.
Proof.
  induction l as [|kv' l IH]; simpl; [done|]. destruct (Strings.String.leb _ _); [done|].
  rewrite IH. apply Permutation_swap.
Qed.
Lemma sort_members_perm l : sort_members l ≡ₚ l.
Proof. induction l as [|kv l IH]; simpl; [done|]. by rewrite insert_member_perm, IH. Qed.

(** ** Strings of JSON text *)

(** The text of a string of ASCII characters, as [json.Marshal] writes it. *)
Definition hex_digit (n : N) : ascii := Ascii.ascii_of_N (if (n <? 10)%N then n + 48 else n + 87).
Definition unicode_escape (n : N) : string :=
  "\u00" +:+ String (hex_digit (n / 16)) (String (hex_digit (n mod 16)) "").
Definition escape_char (c : ascii) : string :=
  let n := Ascii.N_of_ascii c in
  if (n =? 34)%N then String "\" (String c "") else
  if (n =? 92)%N then String "\" (String c "") else
  if (n =? 10)%N then "\n" else if (n =? 13)%N then "\r" else if (n =? 9)%N then "\t" else
  if (n <? 32)%N || (n =? 60)%N || (n =? 62)%N || (n =? 38)%N then unicode_escape n else String c "".
Fixpoint escape (s : string) : string :=
  match s with EmptyString => "" | String c s' => escape_char c +:+ escape s' end.
Definition dquote : string := String (Ascii.ascii_of_nat 34) "".
Definition quote (s : string) : string := dquote +:+ escape s +:+ dquote.

(** ** [types.DateTime] *)

Section codec.
(** The text of a time, [t.UTC().Format(DateTimeFormat)] or that of [time.Time] when
    the format is empty, and [iso8601.Parse]. *)
Context (format_time : Z → string) (iso8601_Parse : string → Z + error).

(** [null]: meant to recognise the four bytes of a JSON null. *)
Definition null (b : string) : bool :=
  match Strings.String.list_ascii_of_string b with
  | [b0; b1; b2; b3] =>
      negb (negb (bool_decide (b0 = "n"%char)) && negb (bool_decide (b1 = "u"%char)) &&
            negb (bool_decide (b2 = "l"%char)) && negb (bool_decide (b3 = "l"%char)))
  | _ => false
  end.

(** The text between the first and the last byte, if both are quotes. *)
Definition unquoted (input : string) : option string :=
  if bool_decide (Strings.String.prefix dquote input = true) &&
     bool_decide (Strings.String.get (String.length input - 1) input = Some (Ascii.ascii_of_nat 34))
  then Some (Strings.String.substring 1 (String.length input - 2) input) else None.

Definition DateTime_UnmarshalJSON (input : string) (cur : goval) : goval + error :=
  if null input then inl cur else
  match unquoted input with
  | Some s => match iso8601_Parse s with inl ns => inl (VTime ns) | inr e => inr e end
  | None => inr (Errorf "timestamp not enclosed in double quotes" None)
  end.

Definition FormatTimestamp (ns : Z) : string := format_time ns.
Definition DateTime_MarshalJSON (ns : Z) : Json := JStr (FormatTimestamp ns).

(** ** [types.CustomData] *)

Definition vendorIDProperty : string := "vendorId".

(** [MarshalJSON]: the error names the first property, in key order, that does not
    hold one JSON value. *)
Definition extension_members (exts : gmap string RawMessage) : list (string * RawMessage) :=
  filter (λ kr, kr.1 ≠ vendorIDProperty) (map_to_list exts).

Definition raw_json (r : RawMessage) : option Json :=
  match r with RawNone => Some JNull | RawJson j => Some j | RawBad => None end.

Definition CustomData_MarshalJSON (VendorId : string) (exts : gmap string RawMessage) : option Json :=
  match mapM (λ kr, (λ j, (kr.1, j)) <$> raw_json kr.2) (extension_members exts) with
  | Some kvs => Some (JObj (sort_members ((vendorIDProperty, JStr VendorId) :: kvs)))
  | None => None
  end.

Definition type_error (what : string) : error := Errorf ("json: cannot unmarshal into Go value of type " +:+ what) None.

(** The last of several members with a name wins, as in a Go map. *)
Definition members_map (kvs : list (string * Json)) : gmap string RawMessage :=
  foldl (λ m kv, <[kv.1 := RawJson kv.2]> m) ∅ kvs.

Definition CustomData_UnmarshalJSON (j : Json) : goval + error :=
  match j with
  | JNull => inl (VCustom "" ∅)
  | JObj kvs =>
      let raw := members_map kvs in
      match raw !! vendorIDProperty with
      | None => inl (VCustom "" raw)
      | Some (RawJson (JStr s)) => inl (VCustom s (delete vendorIDProperty raw))
      | Some (RawJson JNull) => inl (VCustom "" (delete vendorIDProperty raw))
      | Some _ => inr (type_error "string")
      end
  | _ => inr (type_error "map[string]json.RawMessage")
  end.

(** ** Encoding *)

Definition is_some_json (j : option Json) : Json := default JNull j.

(** The members of a struct, in the order of its fields. *)
Fixpoint members (enc : fieldinfo * gotype → goval → Json) (fs : list (fieldinfo * gotype)) (l : list goval)
    : list (string * Json) :=
  match fs, l with
  | ft :: fs', v :: l' =>
      if f_omitempty ft.1 && is_empty v then members enc fs' l'
      else (f_json ft.1, enc ft v) :: members enc fs' l'
  | _, _ => []
  end.

Fixpoint encode (t : gotype) (v : goval) : Json :=
  match t, v with
  | _, VStr s => JStr s
  | _, VNum z => JNum (inject_Z z)
  | _, VFloat q => JNum q
  | _, VBool b => JBool b
  | _, VTime ns => DateTime_MarshalJSON ns
  | _, VCustom vendor exts => is_some_json (CustomData_MarshalJSON vendor exts)
  | _, VAny j => j
  | _, VNil => JNull
  | TPtr t', VPtr v' => encode t' v'
  | TSlice t', VSlice l => JArr (map (encode t') l)
  | TStruct _ fs, VStruct l => JObj (sort_members (members (λ ft v, encode ft.2 v) fs l))
  | _, _ => JNull
  end.

(** ** Decoding *)

(** Case folding of field names: letters, and the two characters outside ASCII
    that fold to a letter. *)
Definition lower (c : ascii) : ascii :=
  let n := Ascii.N_of_ascii c in if (65 <=? n)%N && (n <=? 90)%N then Ascii.ascii_of_N (n + 32) else c.
Fixpoint fold (l : list ascii) : list ascii :=
  match l with
  | c :: ((c1 :: l1) as l') =>
      match l1 with
      | c2 :: l2 => if bool_decide ([c; c1; c2] = [Ascii.ascii_of_N 226; Ascii.ascii_of_N 132; Ascii.ascii_of_N 170])
                    then "k"%char :: fold l2
                    else if bool_decide ([c; c1] = [Ascii.ascii_of_N 197; Ascii.ascii_of_N 191])
                    then "s"%char :: fold l1 else lower c :: fold l'
      | [] => if bool_decide ([c; c1] = [Ascii.ascii_of_N 197; Ascii.ascii_of_N 191])
              then ["s"%char] else lower c :: fold l'
      end
  | [c] => [lower c]
  | [] => []
  end.
Definition foldName (s : string) : list ascii := fold (Strings.String.list_ascii_of_string s).

(** The field a member is stored in: that of its name, else the first whose name
    is equal up to case. *)
Fixpoint find_field (p : string → bool) (fs : list fieldinfo) : option nat :=
  match fs with
  | [] => None
  | f :: fs' => if p (f_json f) then Some 0 else S <$> find_field p fs'
  end.
Definition match_field (fs : list fieldinfo) (k : string) : option nat :=
  match find_field (λ n, bool_decide (n = k)) fs with
  | Some i => Some i
  | None => find_field (λ n, bool_decide (foldName n = foldName k)) fs
  end.

(** A float64 that is an integer of type [int]. *)
Definition json_int (q : Q) : option Z :=
  let n := (Qnum q / Zpos (Qden q))%Z in
  if bool_decide (n * Zpos (Qden q) = Qnum q)%Z && bool_decide (- 2 ^ 63 <= n < 2 ^ 63)%Z then Some n else None.

Definition decoder : Type := goval → Json → goval + error.

(** The members of an object, one after the other. *)
Fixpoint decode_members (fs : list fieldinfo) (ds : list decoder) (kvs : list (string * Json)) (l : list goval)
    : list goval + error :=
  match kvs with
  | [] => inl l
  | (k, j) :: kvs' =>
      match match_field fs k with
      | None => decode_members fs ds kvs' l
      | Some i =>
          match ds !! i, l !! i with
          | Some d, Some cur => match d cur j with
                                | inl v => decode_members fs ds kvs' (<[i := v]> l)
                                | inr e => inr e
                                end
          | _, _ => decode_members fs ds kvs' l
          end
      end
  end.

Fixpoint decode_list (d : Json → goval + error) (l : list Json) : list goval + error :=
  match l with
  | [] => inl []
  | j :: l' => match d j with
               | inl v => match decode_list d l' with inl vs => inl (v :: vs) | inr e => inr e end
               | inr e => inr e
               end
  end.

(** [json.Unmarshal] into a variable of type [t] that holds [cur]. *)
Fixpoint decode (t : gotype) (cur : goval) (j : Json) {struct t} : goval + error :=
  match t with
  | TString | TEnum _ => match j with JStr s => inl (VStr s) | JNull => inl cur | _ => inr (type_error "string") end
  | TInt => match j with
            | JNum q => match json_int q with Some z => inl (VNum z) | None => inr (type_error "int") end
            | JNull => inl cur
            | _ => inr (type_error "int")
            end
  | TFloat => match j with JNum q => inl (VFloat q) | JNull => inl cur | _ => inr (type_error "float64") end
  | TBool => match j with JBool b => inl (VBool b) | JNull => inl cur | _ => inr (type_error "bool") end
  | TDateTime => match j with
                 | JNull => inl cur
                 | JStr s => DateTime_UnmarshalJSON (quote s) cur
                 | _ => inr (Errorf "timestamp not enclosed in double quotes" None)
                 end
  | TCustomData => CustomData_UnmarshalJSON j
  | TAny => match j with JNull => inl VNil | _ => inl (VAny j) end
  | TPtr t' => match j with
               | JNull => inl VNil
               | _ => match decode t' (match cur with VPtr v => v | _ => zero t' end) j with
                      | inl v => inl (VPtr v)
                      | inr e => inr e
                      end
               end
  | TSlice t' => match j with
                 | JNull => inl VNil
                 | JArr l => match decode_list (decode t' (zero t')) l with
                             | inl vs => inl (VSlice vs)
                             | inr e => inr e
                             end
                 | _ => inr (type_error "slice")
                 end
  | TStruct name fs =>
      match j, cur with
      | JNull, _ => inl cur
      | JObj kvs, VStruct l =>
          match decode_members (map fst fs) (map (λ ft, decode ft.2) fs) kvs l with
          | inl l' => inl (VStruct l')
          | inr e => inr e
          end
      | _, _ => inr (type_error name)
      end
  end.

(** A new value of type [t] ([reflect.New] and [json.Unmarshal]). *)
Definition decode_new (t : gotype) (j : Json) : goval + error := decode t (zero t) j.
End codec.
