(* ===== verification/GoJson.v ===== *)
(** * Round trip and type soundness of the payload codec

    [decode_encode]: a value of a well-formed type whose times are in the years 1 to
    9999 is read back from its JSON form as [wire_value]: times lose the fraction of
    a second, a field that [omitempty] drops comes back as its zero value, a
    [CustomData] loses the property it may not hold.  [wire_value_canon]: a value
    without these ([canon]) is read back as it is.  [decode_typed]: whatever the peer
    sends, what is decoded has the Go type asked for. *)

From Stdlib Require Import QArith.QArith Ascii.
From S2P Require Import Prelude Ocpp Endpoint GoTypes.
Local Open Scope string_scope.
Local Open Scope list_scope.

(** ** Well-formed types *)

Definition json_names (fs : list (fieldinfo * gotype)) : list string := map (λ ft, f_json ft.1) fs.

(** Types a pointer may refer to: their values are not encoded as null. *)
Definition not_nullable (t : gotype) : bool := match t with TAny | TPtr _ | TSlice _ => false | _ => true end.

(** Names are distinct, even up to case. *)
Fixpoint wf_type (t : gotype) : bool :=
  match t with
  | TPtr t' => not_nullable t' && wf_type t'
  | TSlice t' => wf_type t'
  | TStruct _ fs => bool_decide (NoDup (map foldName (json_names fs))) && forallb (λ ft, wf_type ft.2) fs
  | _ => true
  end.

Definition max_time : Z := 315537897600 * second.   (* the year 10000 *)

Definition zero_when_empty (v : goval) : bool :=
  match v with
  | VSlice _ => false
  | VFloat q => bool_decide (Qnum q = 0%Z) && bool_decide (Qden q = 1%positive)
  | _ => true
  end.

(** An extension that is not reserved and not an empty [RawMessage]. *)
Definition extension_ok (k : string) (r : RawMessage) : bool :=
  negb (bool_decide (k = vendorIDProperty)) && match r with RawJson _ => true | _ => false end.

(** The values that come back as they are. *)
Fixpoint canon (t : gotype) (v : goval) : bool :=
  match t, v with
  | TDateTime, VTime ns => bool_decide (ns mod second = 0)%Z
  | TCustomData, VCustom _ exts => bool_decide (map_Forall (λ k r, extension_ok k r = true) exts)
  | TAny, VAny j => match j with JNull => false | _ => true end
  | TPtr t', VPtr v' => canon t' v'
  | TSlice t', VSlice l => forallb (canon t') l
  | TStruct _ fs, VStruct l =>
      all2 (λ ft v, canon ft.2 v && (negb (f_omitempty ft.1 && is_empty v) || zero_when_empty v)) fs l
  | _, _ => true
  end.

(** Times of the years 1 to 9999, which have a text that is parsed. *)
Fixpoint times_ok (t : gotype) (v : goval) : bool :=
  match t, v with
  | TDateTime, VTime ns => bool_decide (0 <= ns < max_time)%Z
  | TPtr t', VPtr v' => times_ok t' v'
  | TSlice t', VSlice l => forallb (times_ok t') l
  | TStruct _ fs, VStruct l => all2 (λ ft v, times_ok ft.2 v) fs l
  | _, _ => true
  end.

(** The fields of a struct as they are read back. *)
Fixpoint wire_fields (f : fieldinfo * gotype → goval → goval) (fs : list (fieldinfo * gotype)) (l : list goval)
    : list goval :=
  match fs, l with
  | ft :: fs', v :: l' => (if f_omitempty ft.1 && is_empty v then zero ft.2 else f ft v) :: wire_fields f fs' l'
  | _, _ => []
  end.

Definition wire_exts (exts : gmap string RawMessage) : gmap string RawMessage :=
  (λ r, match r with RawNone => RawJson JNull | _ => r end) <$> delete vendorIDProperty exts.

(** What a receiver reads. *)
Fixpoint wire_value (t : gotype) (v : goval) : goval :=
  match t, v with
  | TDateTime, VTime ns => VTime (ns - ns mod second)
  | TCustomData, VCustom vendor exts => VCustom vendor (wire_exts exts)
  | TAny, VAny JNull => VNil
  | TPtr t', VPtr v' => VPtr (wire_value t' v')
  | TSlice t', VSlice l => VSlice (map (wire_value t') l)
  | TStruct _ fs, VStruct l => VStruct (wire_fields (λ ft v, wire_value ft.2 v) fs l)
  | _, _ => v
  end.

Lemma all2_spec {A B : Type} (f : A → B → bool) l k : all2 f l k = true ↔ Forall2 (λ x y, f x y = true) l k.
Proof.
  revert k. induction l as [|x l IH]; intros [|y k]; simpl; split; intros H; try done; try by inversion H.
  - apply andb_true_iff in H as [??]. constructor; [done|by apply IH].
  - inversion_clear H. apply andb_true_iff. split; [done|by apply IH].
Qed.

(** ** Objects *)

Lemma find_field_exact p fs i f :
  fs !! i = Some f → p (f_json f) = true → (∀ j g, fs !! j = Some g → p (f_json g) = true → j = i) →
  find_field p fs = Some i.
Proof.
  revert i. induction fs as [|g fs IH]; intros [|i] Hi Hp Hu; simplify_eq/=.
  - by rewrite Hp.
  - destruct (p (f_json g)) eqn:Hg; [by specialize (Hu 0 g eq_refl Hg)|].
    rewrite (IH i); [done..|]. intros j g' Hj Hg'. by specialize (Hu (S j) g' Hj Hg') as [= ->].
Qed.

Lemma NoDup_names fs : NoDup (map foldName (json_names fs)) → NoDup (json_names fs).
Proof. apply NoDup_fmap_1. Qed.

(** With distinct names a member is stored in the field of its name. *)
Lemma match_field_exact (fs : list (fieldinfo * gotype)) i ft :
  NoDup (json_names fs) → fs !! i = Some ft → match_field (map fst fs) (f_json ft.1) = Some i.
Proof.
  intros Hnd Hi. unfold match_field. rewrite (find_field_exact _ _ i ft.1); [done|..].
  - by rewrite list_lookup_fmap, Hi.
  - by apply bool_decide_eq_true.
  - intros j g Hj Hg%bool_decide_eq_true. rewrite list_lookup_fmap in Hj.
    destruct (fs !! j) as [ft'|] eqn:Hj'; simplify_eq/=.
    eapply NoDup_lookup; [exact Hnd|..]; unfold json_names; rewrite list_lookup_fmap; [by rewrite Hj'|].
    rewrite Hi. simpl. by f_equal.
Qed.

Section roundtrip.
Context (format_time : Z → string) (iso8601_Parse : string → Z + error).
Notation encode := (encode format_time).
Notation decode := (decode iso8601_Parse).

(** Each member of [kvs] belongs to a field, decodes to the field's value in [vs],
    and the fields without a member hold it already. *)
Lemma decode_members_spec fs ds (kvs : list (string * Json)) l vs :
  length l = length vs → NoDup kvs.*1 →
  (∀ k j, (k, j) ∈ kvs → ∃ i d v, match_field fs k = Some i ∧ ds !! i = Some d ∧ vs !! i = Some v ∧
     (∀ cur, l !! i = Some cur → d cur j = inl v)) →
  (∀ k1 k2 i, k1 ∈ kvs.*1 → k2 ∈ kvs.*1 → match_field fs k1 = Some i → match_field fs k2 = Some i → k1 = k2) →
  (∀ i v, vs !! i = Some v → (∀ k, k ∈ kvs.*1 → match_field fs k ≠ Some i) → l !! i = Some v) →
  decode_members fs ds kvs l = inl vs.
Proof.
  revert l. induction kvs as [|[k j] kvs IH]; intros l Hlen Hnd Hmem Hinj Hrest; simpl.
  - f_equal. apply list_eq_same_length with (length l); [done|done|].
    intros i x y _ Hx Hy. rewrite (Hrest i y Hy) in Hx; [by simplify_eq|]. intros k Hk. by apply not_elem_of_nil in Hk.
  - destruct (Hmem k j) as (i & d & v & Hk & Hd & Hv & Hdec); [left|]. rewrite Hk, Hd.
    assert (is_Some (l !! i)) as [cur Hcur] by (apply lookup_lt_is_Some; rewrite Hlen; by eapply lookup_lt_Some).
    rewrite Hcur, (Hdec cur Hcur). simpl in *. apply NoDup_cons in Hnd as [Hkn Hnd].
    assert (Hother : ∀ k', k' ∈ kvs.*1 → match_field fs k' ≠ Some i).
    { intros k' Hk' Hm. destruct Hkn. rewrite (Hinj k k' i); [done|set_solver..|done|done]. }
    apply IH.
    + by rewrite length_insert.
    + done.
    + intros k' j' Hin. destruct (Hmem k' j') as (i' & d' & v' & ? & ? & ? & Hd'); [by right|].
      exists i', d', v'. split_and!; [done..|]. intros cur' Hc. apply Hd'.
      rewrite list_lookup_insert_ne in Hc; [done|]. intros <-. destruct (Hother k'); [|done].
      apply list_elem_of_fmap. by exists (k', j').
    + intros k1 k2 i' H1 H2. apply Hinj; by right.
    + intros i' v' Hv' Hno. destruct (decide (i = i')) as [<-|Hne].
      * rewrite list_lookup_insert_eq; [by simplify_eq|]. by eapply lookup_lt_Some.
      * rewrite list_lookup_insert_ne by done. apply Hrest; [done|]. intros k' [->|Hk']%elem_of_cons; [congruence|by apply Hno].
Qed.

Lemma members_written enc fs l k j :
  (k, j) ∈ members enc fs l →
  ∃ i ft v, fs !! i = Some ft ∧ l !! i = Some v ∧ f_omitempty ft.1 && is_empty v = false ∧ k = f_json ft.1 ∧ j = enc ft v.
Proof.
  revert l. induction fs as [|ft fs IH]; intros [|v l]; simpl; try by intros ?%not_elem_of_nil.
  assert (Hrec : (k, j) ∈ members enc fs l →
    ∃ i ft' v', (ft :: fs) !! i = Some ft' ∧ (v :: l) !! i = Some v' ∧ f_omitempty ft'.1 && is_empty v' = false ∧
                k = f_json ft'.1 ∧ j = enc ft' v').
  { intros (i & ft' & v' & ? & ? & ? & ? & ?)%IH. by exists (S i), ft', v'. }
  destruct (f_omitempty ft.1 && is_empty v) eqn:E; [done|]. intros [?|Hin]%elem_of_cons; [|by apply Hrec].
  simplify_eq. by exists 0, ft, v.
Qed.
Lemma members_elem enc fs l k j :
  (k, j) ∈ members enc fs l →
  ∃ i ft v, fs !! i = Some ft ∧ l !! i = Some v ∧ k = f_json ft.1 ∧ j = enc ft v.
Proof. intros (i & ft & v & ? & ? & _ & ? & ?)%members_written. eauto 10. Qed.

Lemma members_present enc fs l i ft v :
  fs !! i = Some ft → l !! i = Some v → f_omitempty ft.1 && is_empty v = false →
  f_json ft.1 ∈ (members enc fs l).*1.
Proof.
  revert l i. induction fs as [|ft' fs IH]; intros [|v' l] [|i] Hf Hl Hom; simplify_eq/=.
  - rewrite Hom. by left.
  - destruct (_ && is_empty v'); [by eapply IH|]. right. by eapply IH.
Qed.

Lemma members_sublist enc fs l : (members enc fs l).*1 `sublist_of` json_names fs.
Proof.
  revert l. induction fs as [|ft fs IH]; intros [|v l]; simpl; [done|apply sublist_nil_l..|].
  destruct (_ && _); simpl; by constructor.
Qed.

(** *** Times and custom data *)

(** What the code relies on: a formatted time needs no escapes, is not two
    characters long, and is parsed back up to its fraction of a second. *)
Context (format_plain : ∀ ns, escape (format_time ns) = format_time ns)
        (format_long : ∀ ns, (3 < String.length (format_time ns))%nat)
        (parse_format : ∀ ns, (0 <= ns < max_time)%Z →
           iso8601_Parse (format_time ns) = inl (ns - ns mod second)%Z).

Lemma length_app_string (a b : string) : String.length (a +:+ b) = (String.length a + String.length b)%nat.
Proof. induction a; simpl; [done|]. by rewrite IHa. Qed.

Lemma list_ascii_length s : length (Strings.String.list_ascii_of_string s) = String.length s.
Proof. induction s; simpl; congruence. Qed.

Lemma null_long s : (String.length s ≠ 4)%nat → null s = false.
Proof.
  intros Hl. unfold null. pose proof (list_ascii_length s) as E.
  destruct (Strings.String.list_ascii_of_string s) as [|? [|? [|? [|? [|]]]]]; by simpl in *.
Qed.

Lemma get_app_right (a : string) c : Strings.String.get (String.length a) (a +:+ String c "") = Some c.
Proof. induction a; simpl; done. Qed.

Lemma substring_app (a b : string) : Strings.String.substring 0 (String.length a) (a +:+ b) = a.
Proof. induction a; simpl; [by destruct b|]. by rewrite IHa. Qed.

Lemma unquoted_quote s : escape s = s → unquoted (quote s) = Some s.
Proof.
  intros Hs. unfold unquoted, quote. rewrite Hs. set (q := Ascii.ascii_of_nat 34).
  change (dquote +:+ s +:+ dquote) with (String q (s +:+ String q "")).
  assert (Hlen : String.length (String q (s +:+ String q "")) = (2 + String.length s)%nat).
  { cbn [String.length]. rewrite length_app_string. simpl. lia. }
  rewrite Hlen. replace (2 + String.length s - 1)%nat with (S (String.length s)) by lia.
  replace (2 + String.length s - 2)%nat with (String.length s) by lia.
  cbn [Strings.String.get Strings.String.substring]. rewrite get_app_right, substring_app.
  rewrite bool_decide_eq_true_2 by (by destruct s). by rewrite bool_decide_eq_true_2.
Qed.

Lemma time_roundtrip ns cur :
  (0 <= ns < max_time)%Z →
  decode TDateTime cur (DateTime_MarshalJSON format_time ns) = inl (VTime (ns - ns mod second)).
Proof.
  intros Hr. unfold DateTime_MarshalJSON, FormatTimestamp. cbn [GoTypes.decode]. unfold DateTime_UnmarshalJSON.
  rewrite null_long.
  - rewrite unquoted_quote by apply format_plain. by rewrite parse_format.
  - unfold quote. rewrite format_plain, !length_app_string. simpl. specialize (format_long ns). lia.
Qed.

Lemma members_map_lookup kvs k j : NoDup kvs.*1 → (members_map kvs !! k = Some (RawJson j) ↔ (k, j) ∈ kvs).
Proof.
  unfold members_map. intros Hnd.
  assert (Hgen : ∀ (m : gmap string RawMessage), (∀ k', k' ∈ kvs.*1 → m !! k' = None) →
    foldl (λ m kv, <[kv.1:=RawJson kv.2]> m) m kvs !! k = Some (RawJson j) ↔ (k, j) ∈ kvs ∨ m !! k = Some (RawJson j)).
  { induction kvs as [|[k1 j1] kvs IH]; intros m Hm; simpl in *.
    - split; [by right|]. by intros [?%not_elem_of_nil|].
    - apply NoDup_cons in Hnd as [Hk1 Hnd]. rewrite IH; [|done|].
      + rewrite elem_of_cons. destruct (decide (k = k1)) as [->|Hne].
        * rewrite lookup_insert_eq. rewrite (Hm k1) by left. split.
          -- intros [?|[= ->]]; auto.
          -- intros [[[= ->]|?]|?]; auto; done.
        * rewrite lookup_insert_ne by done. naive_solver.
      + intros k' Hk'. rewrite lookup_insert_ne by (intros ->; done). apply Hm. by right. }
  rewrite Hgen by done. naive_solver.
Qed.

Lemma members_map_raw kvs k r : members_map kvs !! k = Some r → ∃ j, r = RawJson j.
Proof.
  unfold members_map. assert (Hgen : ∀ (m : gmap string RawMessage), (∀ k r, m !! k = Some r → ∃ j, r = RawJson j) →
    foldl (λ m kv, <[kv.1:=RawJson kv.2]> m) m kvs !! k = Some r → ∃ j, r = RawJson j).
  { induction kvs as [|[k1 j1] kvs IH]; intros m Hm; simpl; [apply Hm|]. apply IH.
    intros k' r' [[<- <-]|[_ ?]]%lookup_insert_Some; eauto. }
  apply Hgen. done.
Qed.

(** The members the extensions give. *)
Lemma extension_kvs exts kvs :
  mapM (λ kr : string * RawMessage, (λ j, (kr.1, j)) <$> raw_json kr.2) (extension_members exts) = Some kvs →
  NoDup (vendorIDProperty :: kvs.*1) ∧
  ∀ k j, (k, j) ∈ kvs ↔ k ≠ vendorIDProperty ∧ ∃ r, exts !! k = Some r ∧ raw_json r = Some j.
Proof.
  intros Hm. apply mapM_Some in Hm. unfold extension_members in Hm. set (ms := filter _ _) in Hm.
  assert (Hkeys : kvs.*1 = ms.*1).
  { clear -Hm. induction Hm as [|[k r] [k' j] ?? H _ IH]; simpl; [done|].
    apply fmap_Some in H as (j0 & _ & [= -> ->]). by f_equal. }
  assert (Hms : ∀ k r, (k, r) ∈ ms ↔ k ≠ vendorIDProperty ∧ exts !! k = Some r).
  { intros k r. unfold ms. by rewrite list_elem_of_filter, elem_of_map_to_list. }
  split.
  - apply NoDup_cons. rewrite Hkeys. split.
    + intros ([k r] & Hk & [Hne _]%Hms)%list_elem_of_fmap. by simpl in Hk.
    + eapply sublist_NoDup; [apply (NoDup_fst_map_to_list exts)|]. apply fmap_sublist, sublist_filter.
  - intros k j. split.
    + intros [i Hi]%list_elem_of_lookup. destruct (Forall2_lookup_r _ _ _ _ _ Hm Hi) as ([k' r] & Hr & Hf).
      simpl in Hf. destruct (raw_json r) as [j'|] eqn:E; simplify_eq/=.
      apply list_elem_of_lookup_2, Hms in Hr as [??]. eauto.
    + intros (Hne & r & Hr & Hj). pose proof (proj2 (Hms k r) (conj Hne Hr)) as [i Hi]%list_elem_of_lookup.
      destruct (Forall2_lookup_l _ _ _ _ _ Hm Hi) as ([k' j'] & Hl & Hf). simpl in Hf. rewrite Hj in Hf.
      simplify_eq/=. by eapply list_elem_of_lookup_2.
Qed.

Lemma wire_exts_json exts k j : map_Forall (λ _ r, raw_ok r = true) exts →
  wire_exts exts !! k = Some (RawJson j) ↔ k ≠ vendorIDProperty ∧ ∃ r, exts !! k = Some r ∧ raw_json r = Some j.
Proof.
  intros Hok. unfold wire_exts. rewrite lookup_fmap, fmap_Some. setoid_rewrite lookup_delete_Some. split.
  - intros (r & [Hne Hr] & E). split; [done|]. exists r. split; [done|]. apply Hok in Hr. by destruct r; simplify_eq/=.
  - intros (Hne & r & Hr & E). exists r. split; [done|]. by destruct r; simplify_eq/=.
Qed.

Lemma wire_exts_shape exts k r : map_Forall (λ _ r, raw_ok r = true) exts → wire_exts exts !! k = Some r → ∃ j, r = RawJson j.
Proof.
  intros Hok. unfold wire_exts. rewrite lookup_fmap, fmap_Some. setoid_rewrite lookup_delete_Some.
  intros (r' & [_ Hr] & ->). apply Hok in Hr. destruct r'; eauto; done.
Qed.

Lemma custom_roundtrip vendor exts j :
  map_Forall (λ _ r, raw_ok r = true) exts → CustomData_MarshalJSON vendor exts = Some j →
  CustomData_UnmarshalJSON j = inl (VCustom vendor (wire_exts exts)).
Proof.
  intros Hok Hm. unfold CustomData_MarshalJSON in Hm. destruct (mapM _ _) as [kvs|] eqn:Hkvs; simplify_eq.
  destruct (extension_kvs exts kvs Hkvs) as [Hnd Hin].
  set (all := (vendorIDProperty, JStr vendor) :: kvs). unfold CustomData_UnmarshalJSON.
  assert (Hp : sort_members all ≡ₚ all) by apply sort_members_perm.
  assert (Hnds : NoDup (sort_members all).*1) by (by rewrite Hp).
  assert (Hv : members_map (sort_members all) !! vendorIDProperty = Some (RawJson (JStr vendor)))
    by (apply members_map_lookup; [done|]; rewrite Hp; left).
  rewrite Hv. do 2 f_equal. apply map_eq. intros k. destruct (decide (k = vendorIDProperty)) as [->|Hk].
  - rewrite lookup_delete_eq. unfold wire_exts. by rewrite lookup_fmap, lookup_delete_eq.
  - rewrite lookup_delete_ne by done.
    assert (Hiff : ∀ x, members_map (sort_members all) !! k = Some (RawJson x) ↔ wire_exts exts !! k = Some (RawJson x)).
    { intros x. rewrite members_map_lookup, wire_exts_json by done. rewrite Hp. unfold all.
      rewrite elem_of_cons, Hin. naive_solver. }
    destruct (wire_exts exts !! k) as [r|] eqn:E.
    + destruct (wire_exts_shape _ _ _ Hok E) as [x ->]. by apply Hiff.
    + destruct (members_map (sort_members all) !! k) as [r|] eqn:E'; [|done].
      destruct (members_map_raw _ _ _ E') as [x ->]. by destruct (proj1 (Hiff x) eq_refl).
Qed.

Lemma extensions_marshal vendor exts :
  map_Forall (λ _ r, raw_ok r = true) exts → is_Some (CustomData_MarshalJSON vendor exts).
Proof.
  intros Hok. unfold CustomData_MarshalJSON.
  assert (is_Some (mapM (λ kr : string * RawMessage, (λ j, (kr.1, j)) <$> raw_json kr.2) (extension_members exts))) as [kvs ->]; [|eauto].
  apply mapM_is_Some. apply Forall_forall. intros [k r] Hin. unfold extension_members in Hin.
  apply list_elem_of_filter in Hin as [_ Hin%elem_of_map_to_list]. apply Hok in Hin. by destruct r; simplify_eq/=.
Qed.

(** *** The round trip *)

Lemma empty_zero t v : has_type t v = true → is_empty v = true → zero_when_empty v = true → v = zero t.
Proof.
  destruct t, v; simpl; intros Ht He Hz; try done; try apply bool_decide_eq_true in He; subst; try done.
  - apply andb_true_iff in Hz as [H1%bool_decide_eq_true H2%bool_decide_eq_true]. destruct q; simpl in *. by subst.
  - by destruct b.
Qed.

Lemma not_null t v : not_nullable t = true → has_type t v = true → encode t v ≠ JNull.
Proof.
  destruct t, v; simpl; try done. intros _ Ht%bool_decide_eq_true.
  destruct (extensions_marshal VendorId Extensions Ht) as [j Hj]. rewrite Hj. simpl.
  unfold CustomData_MarshalJSON in Hj. by destruct (mapM _ _); simplify_eq.
Qed.

Lemma json_int_inject z : (- 2 ^ 63 <= z < 2 ^ 63)%Z → json_int (inject_Z z) = Some z.
Proof.
  intros Hz. unfold json_int, inject_Z. simpl. rewrite Z.div_1_r.
  by rewrite !bool_decide_eq_true_2 by (try lia; done).
Qed.

Lemma decode_list_ok d (f : goval → Json) g l : Forall (λ v, d (f v) = inl (g v)) l → decode_list d (map f l) = inl (map g l).
Proof. induction 1 as [|v l Hv _ IH]; simpl; [done|]. by rewrite Hv, IH. Qed.

Lemma wire_fields_lookup f fs l : Forall2 (λ _ _, True) fs l →
  ∀ i ft v, fs !! i = Some ft → l !! i = Some v →
  wire_fields f fs l !! i = Some (if f_omitempty ft.1 && is_empty v then zero ft.2 else f ft v).
Proof.
  induction 1 as [|ft v fs l _ _ IH]; intros [|i] ft' v' Hf Hl; simplify_eq/=; [done|]. by apply IH.
Qed.
Lemma wire_fields_length f fs l : length fs = length l → length (wire_fields f fs l) = length l.
Proof. revert l. induction fs as [|ft fs IH]; intros [|v l]; simpl; intros E; try done. f_equal. apply IH. lia. Qed.

(** A struct: the fields written are read back, the others are zero. *)
Lemma struct_roundtrip n fs l f :
  NoDup (json_names fs) →
  Forall2 (λ ft v, decode ft.2 (zero ft.2) (encode ft.2 v) = inl (f ft v)) fs l →
  decode (TStruct n fs) (zero (TStruct n fs)) (encode (TStruct n fs) (VStruct l)) = inl (VStruct (wire_fields f fs l)).
Proof.
  intros Hnd Hl. cbn [GoTypes.decode GoTypes.encode zero].
  set (ms := members (λ ft v, encode ft.2 v) fs l). pose proof (sort_members_perm ms) as Hp.
  assert (Hlen : length fs = length l) by (by eapply Forall2_length).
  assert (Hw : ∀ i ft v, fs !! i = Some ft → l !! i = Some v →
    wire_fields f fs l !! i = Some (if f_omitempty ft.1 && is_empty v then zero ft.2 else f ft v))
    by (apply wire_fields_lookup; by eapply Forall2_impl).
  assert (Hkey : ∀ k, k ∈ (sort_members ms).*1 → ∃ i ft, fs !! i = Some ft ∧ k = f_json ft.1 ∧ match_field (map fst fs) k = Some i).
  { intros k. rewrite Hp. intros ([k' j] & -> & Hin)%list_elem_of_fmap.
    apply members_elem in Hin as (i & ft & v & Hi & _ & -> & _). exists i, ft. eauto using match_field_exact. }
  rewrite (decode_members_spec _ _ _ _ (wire_fields f fs l)); [done|..].
  - rewrite length_map, wire_fields_length; done.
  - rewrite Hp. eapply sublist_NoDup; [exact Hnd|apply members_sublist].
  - intros k j Hin. rewrite Hp in Hin. apply members_written in Hin as (i & ft & v & Hi & Hv & Hom & -> & ->).
    pose proof (Forall2_lookup_lr _ _ _ _ _ _ Hl Hi Hv) as Hdec.
    exists i, (decode ft.2), (f ft v).
    split_and!; [by apply match_field_exact|by rewrite list_lookup_fmap, Hi|by rewrite (Hw _ _ _ Hi Hv), Hom|].
    intros cur Hcur. rewrite list_lookup_fmap, Hi in Hcur. by simplify_eq/=.
  - intros k1 k2 i (i1 & ft1 & H1 & -> & M1)%Hkey (i2 & ft2 & H2 & -> & M2)%Hkey E1 E2. simplify_eq. done.
  - intros i v Hv Hno. assert (Hi' : (i < length l)%nat).
    { apply lookup_lt_Some in Hv. by rewrite wire_fields_length in Hv. }
    destruct (lookup_lt_is_Some_2 l i Hi') as [v0 Hv0]. rewrite <-Hlen in Hi'.
    destruct (lookup_lt_is_Some_2 fs i Hi') as [ft Hi]. rewrite list_lookup_fmap, Hi. simpl. f_equal.
    rewrite (Hw _ _ _ Hi Hv0) in Hv. destruct (f_omitempty ft.1 && is_empty v0) eqn:Hom; [by simplify_eq|].
    exfalso. apply (Hno (f_json ft.1)); [|by apply match_field_exact]. rewrite Hp. by eapply members_present.
Qed.

Lemma decode_encode_gen t : wf_type t = true →
  ∀ v, has_type t v = true → times_ok t v = true → decode t (zero t) (encode t v) = inl (wire_value t v).
Proof.
  induction t as [| | | |n| | | |t IH|t IH|n fs IH] using gotype_fields_ind; intros Hwf v Ht Hc;
    destruct v as [s|z|q|b|ns|vendor exts|j| |v|l|l]; try done.
  - apply bool_decide_eq_true in Ht. cbn. by rewrite json_int_inject.
  - apply bool_decide_eq_true in Hc. by apply time_roundtrip.
  - apply bool_decide_eq_true in Ht. destruct (extensions_marshal vendor exts Ht) as [j Hj].
    cbn. rewrite Hj. by apply custom_roundtrip.
  - cbn. by destruct j.
  - apply andb_true_iff in Hwf as [Hnn Hwf]. pose proof (not_null t v Hnn Ht) as Hj.
    cbn [GoTypes.encode GoTypes.decode zero wire_value] in *. rewrite (IH Hwf v Ht Hc). by destruct (encode t v).
  - cbn [GoTypes.encode GoTypes.decode wire_value]. rewrite (decode_list_ok _ _ (wire_value t)); [done|]. cbn in *.
    rewrite forallb_forall in Ht, Hc. apply Forall_forall. intros v Hin%list_elem_of_In. auto.
  - apply andb_true_iff in Hwf as [Hnd%bool_decide_eq_true Hwf]. cbn [wire_value].
    apply struct_roundtrip; [by apply NoDup_names|].
    rewrite forallb_forall in Hwf. apply all2_spec in Ht, Hc. rewrite Forall_forall in IH.
    apply Forall2_same_length_lookup. split; [by eapply Forall2_length|]. intros i ft v Hi Hv.
    pose proof (Forall2_lookup_lr _ _ _ _ _ _ Ht Hi Hv) as Htv.
    pose proof (Forall2_lookup_lr _ _ _ _ _ _ Hc Hi Hv) as Hcv.
    apply list_elem_of_lookup_2 in Hi as Hin. apply IH; [done|by apply Hwf, list_elem_of_In|done..].
Qed.
End roundtrip.

(** ** Type soundness *)

Section soundness.
Context (iso8601_Parse : string → Z + error).

Lemma zero_typed t : has_type t (zero t) = true.
Proof.
  induction t as [| | | | | | | | | |n fs IH] using gotype_fields_ind; try done. cbn.
  apply all2_spec. induction IH; constructor; auto.
Qed.

Lemma decode_members_typed fs (ts : list gotype) ds kvs l l' :
  Forall2 (λ t (d : decoder), ∀ cur j v, has_type t cur = true → d cur j = inl v → has_type t v = true) ts ds →
  Forall2 (λ t v, has_type t v = true) ts l → decode_members fs ds kvs l = inl l' →
  Forall2 (λ t v, has_type t v = true) ts l'.
Proof.
  intros Hd. revert l. induction kvs as [|[k j] kvs IH]; intros l Hl Hdec; simpl in Hdec; [by simplify_eq|].
  destruct (match_field fs k) as [i|]; [|by eapply IH].
  destruct (ds !! i) as [d|] eqn:Ed; [|by eapply IH]. destruct (l !! i) as [cur|] eqn:El; [|by eapply IH].
  destruct (d cur j) as [v|] eqn:Ev; [|done]. eapply IH; [|done].
  destruct (Forall2_lookup_r _ _ _ _ _ Hl El) as (t & Et & Ht). rewrite <-(list_insert_id ts i t) by done.
  apply Forall2_insert; [done|]. eapply (Forall2_lookup_lr _ _ _ _ _ _ Hd Et Ed); done.
Qed.

Lemma decode_list_typed t d l vs :
  (∀ j v, d j = inl v → has_type t v = true) → decode_list d l = inl vs → forallb (has_type t) vs = true.
Proof.
  intros Hd. revert vs. induction l as [|j l IH]; intros vs Hl; simplify_eq/=; [done|].
  destruct (d j) as [v|] eqn:E; [|done]. destruct (decode_list d l) as [vs'|]; simplify_eq/=.
  rewrite (Hd _ _ E). by apply IH.
Qed.

Lemma decode_typed_gen t : ∀ cur j v,
  has_type t cur = true → GoTypes.decode iso8601_Parse t cur j = inl v → has_type t v = true.
Proof.
  induction t as [| | | |n| | | |t IH|t IH|n fs IH] using gotype_fields_ind; intros cur j v Hc Hd; cbn in Hd.
  - by destruct j; simplify_eq.
  - destruct j as [| |q| | |]; simplify_eq; [done|]. unfold json_int in Hd.
    destruct (bool_decide _ && bool_decide _) eqn:E; simplify_eq. by apply andb_true_iff in E as [_ ?].
  - by destruct j; simplify_eq.
  - by destruct j; simplify_eq.
  - by destruct j; simplify_eq.
  - destruct j; simplify_eq; [done|]. unfold DateTime_UnmarshalJSON in Hd.
    destruct (null _); simplify_eq; [done|]. destruct (unquoted _); [|done]. by destruct (iso8601_Parse _); simplify_eq.
  - unfold CustomData_UnmarshalJSON in Hd. destruct j as [| | | | |kvs]; simplify_eq; [done|].
    assert (Hraw : map_Forall (λ _ r, raw_ok r = true) (members_map kvs))
      by (intros k r Hr; by destruct (members_map_raw _ _ _ Hr) as [? ->]).
    assert (Hdel : map_Forall (λ _ r, raw_ok r = true) (delete vendorIDProperty (members_map kvs)))
      by (by apply map_Forall_delete).
    repeat case_match; simplify_eq; cbn; by apply bool_decide_eq_true.
  - by destruct j; simplify_eq.
  - destruct j; simplify_eq; try done;
      (destruct (GoTypes.decode _ t _ _) as [v'|] eqn:E; simplify_eq; cbn; eapply IH; [|exact E];
       destruct cur; try apply zero_typed; done).
  - destruct j; simplify_eq; [done|]. destruct (decode_list _ _) as [vs|] eqn:E; simplify_eq. cbn.
    eapply decode_list_typed; [|exact E]. intros j v Hj. eapply IH; [apply zero_typed|exact Hj].
  - destruct j; simplify_eq; [done|]. destruct cur; try done.
    destruct (decode_members _ _ _ _) as [l'|] eqn:E; simplify_eq. cbn in *. apply all2_spec.
    apply all2_spec in Hc.
    assert (Hts : Forall2 (λ t v, has_type t v = true) (map snd fs) l').
    { eapply decode_members_typed; [|by apply Forall2_fmap_l|exact E].
      apply Forall2_fmap_l, Forall2_fmap_r. clear -IH. induction IH; constructor; auto. }
    by apply Forall2_fmap_l in Hts.
Qed.
End soundness.

(** ** Values that come back as they are *)

Lemma wire_value_canon t : ∀ v, has_type t v = true → canon t v = true → wire_value t v = v.
Proof.
  induction t as [| | | |n| | | |t IH|t IH|n fs IH] using gotype_fields_ind; intros v Ht Hc;
    destruct v as [s|z|q|b|ns|vendor exts|j| |v|l|l]; try done; simpl in *.
  - apply bool_decide_eq_true in Hc. f_equal. lia.
  - apply bool_decide_eq_true in Hc. f_equal. unfold wire_exts. rewrite delete_id.
    + apply map_eq. intros k. rewrite lookup_fmap. destruct (exts !! k) as [r|] eqn:E; [|done]. apply Hc in E.
      unfold extension_ok in E. destruct r; try done. by rewrite andb_false_r in E.
    + destruct (exts !! vendorIDProperty) as [r|] eqn:E; [|done]. apply Hc in E. unfold extension_ok in E.
      by rewrite bool_decide_eq_true_2 in E.
  - by destruct j.
  - by rewrite IH.
  - f_equal. rewrite forallb_forall in Ht, Hc. rewrite <-(map_id l) at 2. apply map_ext_in. auto.
  - f_equal. apply all2_spec in Ht, Hc. revert IH. revert Hc. induction Ht as [|ft v fs l Hft Hl IHl]; intros Hc IH; simpl; [done|].
    inversion_clear Hc as [|???? [Hcv Hz]%andb_true_iff Hc']. apply Forall_cons in IH as [IH0 IH'].
    rewrite IHl by done. f_equal. destruct (f_omitempty ft.1 && is_empty v) eqn:Hom; [|by apply IH0].
    symmetry. apply empty_zero; [done| |done]. by apply andb_true_iff in Hom as [_ ?].
Qed.

(** ** Theorems *)

Section theorems.
Context (format_time : Z → string) (iso8601_Parse : string → Z + error).

(** The documented behaviour of [time.Format] with RFC 3339 and of the ISO 8601
    parser: the text is longer than three characters and needs no escapes, and it
    is read back up to the fraction of a second, which is not printed. *)
Record time_codec_ok : Prop := {
  format_plain ns : escape (format_time ns) = format_time ns;
  format_long ns : (3 < String.length (format_time ns))%nat;
  parse_format ns : (0 <= ns < max_time)%Z → iso8601_Parse (format_time ns) = inl (ns - ns mod second)%Z
}.

(** Every value of a well-formed type with times of the years 1 to 9999 is read
    back from its JSON form as its wire value. *)
Lemma decode_encode t v :
  time_codec_ok → wf_type t = true → has_type t v = true → times_ok t v = true →
  decode_new iso8601_Parse t (encode format_time t v) = inl (wire_value t v).
Proof. intros [] Hw Ht Hc. by apply decode_encode_gen. Qed.

(** Whatever JSON arrives, a decoded value has the Go type that was asked for. *)
Lemma decode_typed t j v : decode_new iso8601_Parse t j = inl v → has_type t v = true.
Proof. apply decode_typed_gen, zero_typed. Qed.
End theorems.

(** ** Timestamps *)

(** Two characters that [null] takes for a JSON null when they are quoted. *)
Definition taken_for_null (s : string) : bool :=
  match Strings.String.list_ascii_of_string s with
  | [a; b] => bool_decide (a = "u"%char) || bool_decide (b = "l"%char)
  | _ => false
  end.

Lemma list_ascii_app (a b : string) : Strings.String.list_ascii_of_string (a +:+ b) =
  Strings.String.list_ascii_of_string a ++ Strings.String.list_ascii_of_string b.
Proof.
  induction a as [|c a IH]; [done|].
  change (c :: Strings.String.list_ascii_of_string (a +:+ b) =
          c :: (Strings.String.list_ascii_of_string a ++ Strings.String.list_ascii_of_string b)). by rewrite IH.
Qed.

Lemma null_quote s : escape s = s → null (quote s) = taken_for_null s.
Proof.
  intros Hs. unfold null, quote, taken_for_null, dquote. rewrite Hs, !list_ascii_app. simpl.
  destruct (Strings.String.list_ascii_of_string s) as [|a [|b [|c l]]]; [done..| |by destruct l].
  simpl. by destruct (bool_decide (a = _)), (bool_decide (b = _)).
Qed.

(** [DateTime.UnmarshalJSON] on every input: a JSON null leaves the time as it
    is, a string is given to the ISO 8601 parser, whose result or error is
    returned, anything else is an error; but a string of two characters the first
    of which is u or the second l is taken for a null, without an error. *)
Theorem datetime_unmarshal_branches (iso8601_Parse : string → Z + error) cur :
  decode iso8601_Parse TDateTime cur JNull = inl cur ∧
  (∀ s, escape s = s → decode iso8601_Parse TDateTime cur (JStr s) =
     if taken_for_null s then inl cur
     else match iso8601_Parse s with inl ns => inl (VTime ns) | inr e => inr e end) ∧
  (∀ j, j ≠ JNull → (∀ s, j ≠ JStr s) → ∃ e, decode iso8601_Parse TDateTime cur j = inr e).
Proof.
  split; [done|]. split.
  - intros s Hs. cbn [decode]. unfold DateTime_UnmarshalJSON. by rewrite null_quote, unquoted_quote.
  - intros j Hn Hs. destruct j as [| | |s| |]; cbn; eauto; [done|]. by destruct (Hs s).
Qed.
