(* ===== verification/Schema.v ===== *)
(** * Tables of the profile packages

    What a package under src/ocpp1.6 or src/ocpp2.0.1 declares beside its structs:
    string types with their constants, validators registered with
    [Validate.RegisterValidation], constructors, features. *)

From S2P Require Import Prelude Ocpp GoTypes.
Local Open Scope string_scope.
Local Open Scope list_scope.

(** A string type with the values of its constants. *)
Record goenum := mkEnum { e_name : string; e_values : list string }.

(** [func isValidX(fl validator.FieldLevel) bool]: a conversion to a string type
    and a switch that returns true for the listed values. *)
Record validator := mkValidator { v_type : string; v_cases : list string }.

Definition isValid (v : validator) (s : string) : bool := bool_decide (s ∈ v_cases v).

(** [func NewX(params) *X]: a struct literal that sets some fields. *)
Inductive argument := Arg (i : nat) | Lit (v : goval) | Struct (t : gotype) (sets : list (string * argument)).
Record constructor := mkCtor {
  c_type : gotype;
  c_params : list gotype;
  c_sets : list (string * argument)
}.

(** [XFeature]: its name, and the types of its request and response. *)
Record message_feature := mkMessageFeature {
  m_name : string;
  m_request : gotype;
  m_response : gotype
}.

Definition fields_of (t : gotype) : list (fieldinfo * gotype) := match t with TStruct _ fs => fs | _ => [] end.
Definition type_name (t : gotype) : string := match t with TStruct n _ => n | _ => "" end.

(** A struct with the given fields set and the others zero. *)
Definition struct_literal (t : gotype) (sets : list (string * goval)) : goval :=
  VStruct (map (λ ft, default (zero ft.2) (snd <$> head (filter (λ fv, fv.1 = f_name ft.1) sets))) (fields_of t)).

Fixpoint argument_value (args : list goval) (a : argument) : goval :=
  match a with
  | Arg i => default VNil (args !! i)
  | Lit v => v
  | Struct t sets => struct_literal t (map (λ fa, (fa.1, argument_value args fa.2)) sets)
  end.

(** The value a constructor returns. *)
Definition construct (c : constructor) (args : list goval) : goval :=
  argument_value args (Struct (c_type c) (c_sets c)).
