(* ===== verification/Messages16.v ===== *)
(** * The messages of OCPP 1.6 (src/ocpp1.6)

    For each package its string types with their constants, the functions
    registered as validators of these types, the structs with their tags, the
    constructors and the features.  [types.DateTime] is a type of its own
    ([GoTypes]). *)

From S2P Require Import Prelude Ocpp GoTypes Schema.
Local Open Scope string_scope.
Local Open Scope list_scope.

(** *** Package types *)

Module types.
Definition CertificateSigningUse : goenum := mkEnum "types.CertificateSigningUse" ["ChargingStationCertificate"].
Definition GenericStatus : goenum := mkEnum "types.GenericStatus" ["Accepted"; "Rejected"].
Definition CertificateUse : goenum := mkEnum "types.CertificateUse" ["CentralSystemRootCertificate";
  "ManufacturerRootCertificate"].
Definition HashAlgorithmType : goenum := mkEnum "types.HashAlgorithmType" ["SHA256"; "SHA384"; "SHA512"].
Definition AuthorizationStatus : goenum := mkEnum "types.AuthorizationStatus" ["Accepted"; "Blocked"; "Expired";
  "Invalid"; "ConcurrentTx"].
Definition ChargingProfilePurposeType : goenum := mkEnum "types.ChargingProfilePurposeType" ["ChargePointMaxProfile";
  "TxDefaultProfile"; "TxProfile"].
Definition ChargingProfileKindType : goenum := mkEnum "types.ChargingProfileKindType" ["Absolute"; "Recurring";
  "Relative"].
Definition RecurrencyKindType : goenum := mkEnum "types.RecurrencyKindType" ["Daily"; "Weekly"].
Definition ChargingRateUnitType : goenum := mkEnum "types.ChargingRateUnitType" ["W"; "A"].
Definition RemoteStartStopStatus : goenum := mkEnum "types.RemoteStartStopStatus" ["Accepted"; "Rejected"].
Definition ReadingContext : goenum := mkEnum "types.ReadingContext" ["Interruption.Begin"; "Interruption.End";
  "Other"; "Sample.Clock"; "Sample.Periodic"; "Transaction.Begin"; "Transaction.End"; "Trigger"].
Definition ValueFormat : goenum := mkEnum "types.ValueFormat" ["Raw"; "SignedData"].
Definition Measurand : goenum := mkEnum "types.Measurand" ["Current.Export"; "Current.Import"; "Current.Offered";
  "Energy.Active.Export.Register"; "Energy.Active.Import.Register"; "Energy.Reactive.Export.Register";
  "Energy.Reactive.Import.Register"; "Energy.Active.Export.Interval"; "Energy.Active.Import.Interval";
  "Energy.Reactive.Export.Interval"; "Energy.Reactive.Import.Interval"; "Frequency"; "Power.Active.Export";
  "Power.Active.Import"; "Power.Factor"; "Power.Offered"; "Power.Reactive.Export"; "Power.Reactive.Import"; "RPM";
  "SoC"; "Temperature"; "Voltage"].
Definition Phase : goenum := mkEnum "types.Phase" ["L1"; "L2"; "L3"; "N"; "L1-N"; "L2-N"; "L3-N"; "L1-L2"; "L2-L3";
  "L3-L1"].
Definition Location : goenum := mkEnum "types.Location" ["Body"; "Cable"; "EV"; "Inlet"; "Outlet"].
Definition UnitOfMeasure : goenum := mkEnum "types.UnitOfMeasure" ["Wh"; "kWh"; "varh"; "kvarh"; "W"; "kW"; "VA";
  "kVA"; "var"; "kvar"; "A"; "V"; "Celsius"; "Celcius"; "Fahrenheit"; "K"; "Percent"].
Definition isValidCertificateSigningUse : validator := mkValidator "types.CertificateSigningUse"
  ["ChargingStationCertificate"].
Definition isValidGenericStatus : validator := mkValidator "types.GenericStatus" ["Accepted"; "Rejected"].
Definition isValidCertificateUse : validator := mkValidator "types.CertificateUse" ["CentralSystemRootCertificate";
  "ManufacturerRootCertificate"].
Definition isValidHashAlgorithm : validator := mkValidator "types.HashAlgorithmType" ["SHA256"; "SHA384"; "SHA512"].
Definition isValidAuthorizationStatus : validator := mkValidator "types.AuthorizationStatus" ["Accepted"; "Blocked";
  "Expired"; "Invalid"; "ConcurrentTx"].
Definition isValidChargingProfilePurpose : validator := mkValidator "types.ChargingProfilePurposeType"
  ["ChargePointMaxProfile"; "TxDefaultProfile"; "TxProfile"].
Definition isValidChargingProfileKind : validator := mkValidator "types.ChargingProfileKindType" ["Absolute";
  "Recurring"; "Relative"].
Definition isValidRecurrencyKind : validator := mkValidator "types.RecurrencyKindType" ["Daily"; "Weekly"].
Definition isValidChargingRateUnit : validator := mkValidator "types.ChargingRateUnitType" ["W"; "A"].
Definition isValidRemoteStartStopStatus : validator := mkValidator "types.RemoteStartStopStatus" ["Accepted";
  "Rejected"].
Definition isValidReadingContext : validator := mkValidator "types.ReadingContext" ["Interruption.Begin";
  "Interruption.End"; "Other"; "Sample.Clock"; "Sample.Periodic"; "Transaction.Begin"; "Transaction.End"; "Trigger"].
Definition isValidValueFormat : validator := mkValidator "types.ValueFormat" ["Raw"; "SignedData"].
Definition isValidMeasurand : validator := mkValidator "types.Measurand" ["SoC"; "Current.Export"; "Current.Import";
  "Current.Offered"; "Energy.Active.Export.Interval"; "Energy.Active.Export.Register";
  "Energy.Reactive.Export.Interval"; "Energy.Reactive.Export.Register"; "Energy.Reactive.Import.Register";
  "Energy.Reactive.Import.Interval"; "Energy.Active.Import.Interval"; "Energy.Active.Import.Register"; "Frequency";
  "Power.Active.Export"; "Power.Active.Import"; "Power.Reactive.Import"; "Power.Reactive.Export"; "Power.Offered";
  "Power.Factor"; "Voltage"; "Temperature"; "RPM"].
Definition isValidPhase : validator := mkValidator "types.Phase" ["L1"; "L2"; "L3"; "N"; "L1-N"; "L2-N"; "L3-N";
  "L1-L2"; "L2-L3"; "L3-L1"].
Definition isValidLocation : validator := mkValidator "types.Location" ["Body"; "Cable"; "EV"; "Inlet"; "Outlet"].
Definition isValidUnitOfMeasure : validator := mkValidator "types.UnitOfMeasure" ["A"; "Wh"; "kWh"; "varh"; "kvarh";
  "W"; "kW"; "VA"; "kVA"; "var"; "kvar"; "V"; "Celsius"; "Celcius"; "Fahrenheit"; "K"; "Percent"].
Definition StatusInfo : gotype := TStruct "types.StatusInfo"
  [(mkField "ReasonCode" "reasonCode" false [Required; Max 20], TString);
   (mkField "AdditionalInfo" "additionalInfo" true [Omitempty; Max 512], TString)].
Definition CertificateHashData : gotype := TStruct "types.CertificateHashData"
  [(mkField "HashAlgorithm" "hashAlgorithm" false [Required; Custom "hashAlgorithm16"], TEnum "types.HashAlgorithmType");
   (mkField "IssuerNameHash" "issuerNameHash" false [Required; Max 128], TString);
   (mkField "IssuerKeyHash" "issuerKeyHash" false [Required; Max 128], TString);
   (mkField "SerialNumber" "serialNumber" false [Required; Max 40], TString)].
Definition IdTagInfo : gotype := TStruct "types.IdTagInfo"
  [(mkField "ExpiryDate" "expiryDate" true [Omitempty], TPtr TDateTime);
   (mkField "ParentIdTag" "parentIdTag" true [Omitempty; Max 20], TString);
   (mkField "Status" "status" false [Required; Custom "authorizationStatus16"], TEnum "types.AuthorizationStatus")].
Definition ChargingSchedulePeriod : gotype := TStruct "types.ChargingSchedulePeriod"
  [(mkField "StartPeriod" "startPeriod" false [Gte 0], TInt);
   (mkField "Limit" "limit" false [Gte 0], TFloat);
   (mkField "NumberPhases" "numberPhases" true [Omitempty; Gte 0], TPtr TInt)].
Definition ChargingSchedule : gotype := TStruct "types.ChargingSchedule"
  [(mkField "Duration" "duration" true [Omitempty; Gte 0], TPtr TInt);
   (mkField "StartSchedule" "startSchedule" true [], TPtr TDateTime);
   (mkField "ChargingRateUnit" "chargingRateUnit" false [Required; Custom "chargingRateUnit16"], TEnum "types.ChargingRateUnitType");
   (mkField "ChargingSchedulePeriod" "chargingSchedulePeriod" false [Required; Min 1], TSlice ChargingSchedulePeriod);
   (mkField "MinChargingRate" "minChargingRate" true [Omitempty; Gte 0], TPtr TFloat)].
Definition ChargingProfile : gotype := TStruct "types.ChargingProfile"
  [(mkField "ChargingProfileId" "chargingProfileId" false [], TInt);
   (mkField "TransactionId" "transactionId" true [], TInt);
   (mkField "StackLevel" "stackLevel" false [Gte 0], TInt);
   (mkField "ChargingProfilePurpose" "chargingProfilePurpose" false [Required; Custom "chargingProfilePurpose16"], TEnum "types.ChargingProfilePurposeType");
   (mkField "ChargingProfileKind" "chargingProfileKind" false [Required; Custom "chargingProfileKind16"], TEnum "types.ChargingProfileKindType");
   (mkField "RecurrencyKind" "recurrencyKind" true [Omitempty; Custom "recurrencyKind16"], TEnum "types.RecurrencyKindType");
   (mkField "ValidFrom" "validFrom" true [], TPtr TDateTime);
   (mkField "ValidTo" "validTo" true [], TPtr TDateTime);
   (mkField "ChargingSchedule" "chargingSchedule" false [Required], TPtr ChargingSchedule)].
Definition SampledValue : gotype := TStruct "types.SampledValue"
  [(mkField "Value" "value" false [Required], TString);
   (mkField "Context" "context" true [Omitempty; Custom "readingContext16"], TEnum "types.ReadingContext");
   (mkField "Format" "format" true [Omitempty; Custom "valueFormat"], TEnum "types.ValueFormat");
   (mkField "Measurand" "measurand" true [Omitempty; Custom "measurand16"], TEnum "types.Measurand");
   (mkField "Phase" "phase" true [Omitempty; Custom "phase16"], TEnum "types.Phase");
   (mkField "Location" "location" true [Omitempty; Custom "location16"], TEnum "types.Location");
   (mkField "Unit" "unit" true [Omitempty; Custom "unitOfMeasure"], TEnum "types.UnitOfMeasure")].
Definition MeterValue : gotype := TStruct "types.MeterValue"
  [(mkField "Timestamp" "timestamp" false [Required], TPtr TDateTime);
   (mkField "SampledValue" "sampledValue" false [Required; Min 1; Dive], TSlice SampledValue)].
Definition NewStatusInfo : constructor := mkCtor StatusInfo [TString; TString] [("ReasonCode", Arg 0);
  ("AdditionalInfo", Arg 1)].
Definition NewIdTagInfo : constructor := mkCtor IdTagInfo [TEnum "types.AuthorizationStatus"] [("Status", Arg 0)].
Definition NewChargingSchedulePeriod : constructor := mkCtor ChargingSchedulePeriod [TInt; TFloat] [("StartPeriod",
  Arg 0); ("Limit", Arg 1)].
Definition NewChargingSchedule : constructor := mkCtor ChargingSchedule [TEnum "types.ChargingRateUnitType"; TSlice
  ChargingSchedulePeriod] [("ChargingRateUnit", Arg 0); ("ChargingSchedulePeriod", Arg 1)].
Definition NewChargingProfile : constructor := mkCtor ChargingProfile [TInt; TInt; TEnum
  "types.ChargingProfilePurposeType"; TEnum "types.ChargingProfileKindType"; TPtr ChargingSchedule]
  [("ChargingProfileId", Arg 0); ("StackLevel", Arg 1); ("ChargingProfilePurpose", Arg 2); ("ChargingProfileKind", Arg
  3); ("ChargingSchedule", Arg 4)].
Definition registrations : list (string * validator) := [("hashAlgorithm16", isValidHashAlgorithm);
  ("authorizationStatus16", isValidAuthorizationStatus); ("chargingProfilePurpose16", isValidChargingProfilePurpose);
  ("chargingProfileKind16", isValidChargingProfileKind); ("recurrencyKind16", isValidRecurrencyKind);
  ("chargingRateUnit16", isValidChargingRateUnit); ("remoteStartStopStatus16", isValidRemoteStartStopStatus);
  ("readingContext16", isValidReadingContext); ("valueFormat", isValidValueFormat); ("measurand16", isValidMeasurand);
  ("phase16", isValidPhase); ("location16", isValidLocation); ("unitOfMeasure", isValidUnitOfMeasure);
  ("certificateSigningUse16", isValidCertificateSigningUse); ("certificateUse16", isValidCertificateUse);
  ("genericStatus16", isValidGenericStatus)].
Definition enums : list goenum := [CertificateSigningUse; GenericStatus; CertificateUse; HashAlgorithmType;
  AuthorizationStatus; ChargingProfilePurposeType; ChargingProfileKindType; RecurrencyKindType; ChargingRateUnitType;
  RemoteStartStopStatus; ReadingContext; ValueFormat; Measurand; Phase; Location; UnitOfMeasure].
Definition structs : list gotype := [StatusInfo; CertificateHashData; IdTagInfo; ChargingSchedulePeriod;
  ChargingSchedule; ChargingProfile; SampledValue; MeterValue].
Definition constructors : list constructor := [NewStatusInfo; NewIdTagInfo; NewChargingSchedulePeriod;
  NewChargingSchedule; NewChargingProfile].
Definition features : list message_feature := [].
End types.

(** *** Package core *)

Module core.
Definition RegistrationStatus : goenum := mkEnum "core.RegistrationStatus" ["Accepted"; "Pending"; "Rejected"].
Definition AvailabilityType : goenum := mkEnum "core.AvailabilityType" ["Operative"; "Inoperative"].
Definition AvailabilityStatus : goenum := mkEnum "core.AvailabilityStatus" ["Accepted"; "Rejected"; "Scheduled"].
Definition ConfigurationStatus : goenum := mkEnum "core.ConfigurationStatus" ["Accepted"; "Rejected";
  "RebootRequired"; "NotSupported"].
Definition ClearCacheStatus : goenum := mkEnum "core.ClearCacheStatus" ["Accepted"; "Rejected"].
Definition DataTransferStatus : goenum := mkEnum "core.DataTransferStatus" ["Accepted"; "Rejected";
  "UnknownMessageId"; "UnknownVendorId"].
Definition ResetType : goenum := mkEnum "core.ResetType" ["Hard"; "Soft"].
Definition ResetStatus : goenum := mkEnum "core.ResetStatus" ["Accepted"; "Rejected"].
Definition ChargePointErrorCode : goenum := mkEnum "core.ChargePointErrorCode" ["ConnectorLockFailure";
  "EVCommunicationError"; "GroundFailure"; "HighTemperature"; "InternalError"; "LocalListConflict"; "NoError";
  "OtherError"; "OverCurrentFailure"; "OverVoltage"; "PowerMeterFailure"; "PowerSwitchFailure"; "ReaderFailure";
  "ResetFailure"; "UnderVoltage"; "WeakSignal"].
Definition ChargePointStatus : goenum := mkEnum "core.ChargePointStatus" ["Available"; "Preparing"; "Charging";
  "SuspendedEVSE"; "SuspendedEV"; "Finishing"; "Reserved"; "Unavailable"; "Faulted"].
Definition Reason : goenum := mkEnum "core.Reason" ["DeAuthorized"; "EmergencyStop"; "EVDisconnected"; "HardReset";
  "Local"; "Other"; "PowerLoss"; "Reboot"; "Remote"; "SoftReset"; "UnlockCommand"].
Definition UnlockStatus : goenum := mkEnum "core.UnlockStatus" ["Unlocked"; "UnlockFailed"; "NotSupported"].
Definition isValidRegistrationStatus : validator := mkValidator "core.RegistrationStatus" ["Accepted"; "Pending";
  "Rejected"].
Definition isValidAvailabilityType : validator := mkValidator "core.AvailabilityType" ["Operative"; "Inoperative"].
Definition isValidAvailabilityStatus : validator := mkValidator "core.AvailabilityStatus" ["Accepted"; "Rejected";
  "Scheduled"].
Definition isValidConfigurationStatus : validator := mkValidator "core.ConfigurationStatus" ["Accepted"; "Rejected";
  "RebootRequired"; "NotSupported"].
Definition isValidClearCacheStatus : validator := mkValidator "core.ClearCacheStatus" ["Accepted"; "Rejected"].
Definition isValidDataTransferStatus : validator := mkValidator "core.DataTransferStatus" ["Accepted"; "Rejected";
  "UnknownMessageId"; "UnknownVendorId"].
Definition isValidResetType : validator := mkValidator "core.ResetType" ["Hard"; "Soft"].
Definition isValidResetStatus : validator := mkValidator "core.ResetStatus" ["Accepted"; "Rejected"].
Definition isValidChargePointStatus : validator := mkValidator "core.ChargePointStatus" ["Available"; "Preparing";
  "Charging"; "Faulted"; "Finishing"; "Reserved"; "SuspendedEV"; "SuspendedEVSE"; "Unavailable"].
Definition isValidChargePointErrorCode : validator := mkValidator "core.ChargePointErrorCode" ["ConnectorLockFailure";
  "EVCommunicationError"; "GroundFailure"; "HighTemperature"; "InternalError"; "LocalListConflict"; "NoError";
  "OtherError"; "OverVoltage"; "OverCurrentFailure"; "PowerMeterFailure"; "PowerSwitchFailure"; "ReaderFailure";
  "ResetFailure"; "UnderVoltage"; "WeakSignal"].
Definition isValidReason : validator := mkValidator "core.Reason" ["DeAuthorized"; "EmergencyStop"; "EVDisconnected";
  "HardReset"; "Local"; "Other"; "PowerLoss"; "Reboot"; "Remote"; "SoftReset"; "UnlockCommand"].
Definition isValidUnlockStatus : validator := mkValidator "core.UnlockStatus" ["Unlocked"; "UnlockFailed";
  "NotSupported"].
Definition AuthorizeRequest : gotype := TStruct "core.AuthorizeRequest"
  [(mkField "IdTag" "idTag" false [Required; Max 20], TString)].
Definition AuthorizeConfirmation : gotype := TStruct "core.AuthorizeConfirmation"
  [(mkField "IdTagInfo" "idTagInfo" false [Required], TPtr types.IdTagInfo)].
Definition BootNotificationRequest : gotype := TStruct "core.BootNotificationRequest"
  [(mkField "ChargeBoxSerialNumber" "chargeBoxSerialNumber" true [Max 25], TString);
   (mkField "ChargePointModel" "chargePointModel" false [Required; Max 20], TString);
   (mkField "ChargePointSerialNumber" "chargePointSerialNumber" true [Max 25], TString);
   (mkField "ChargePointVendor" "chargePointVendor" false [Required; Max 20], TString);
   (mkField "FirmwareVersion" "firmwareVersion" true [Max 50], TString);
   (mkField "Iccid" "iccid" true [Max 20], TString);
   (mkField "Imsi" "imsi" true [Max 20], TString);
   (mkField "MeterSerialNumber" "meterSerialNumber" true [Max 25], TString);
   (mkField "MeterType" "meterType" true [Max 25], TString)].
Definition BootNotificationConfirmation : gotype := TStruct "core.BootNotificationConfirmation"
  [(mkField "CurrentTime" "currentTime" false [Required], TPtr TDateTime);
   (mkField "Interval" "interval" false [Gte 0], TInt);
   (mkField "Status" "status" false [Required; Custom "registrationStatus16"], TEnum "core.RegistrationStatus")].
Definition ChangeAvailabilityRequest : gotype := TStruct "core.ChangeAvailabilityRequest"
  [(mkField "ConnectorId" "connectorId" false [Gte 0], TInt);
   (mkField "Type" "type" false [Required; Custom "availabilityType"], TEnum "core.AvailabilityType")].
Definition ChangeAvailabilityConfirmation : gotype := TStruct "core.ChangeAvailabilityConfirmation"
  [(mkField "Status" "status" false [Required; Custom "availabilityStatus"], TEnum "core.AvailabilityStatus")].
Definition ChangeConfigurationRequest : gotype := TStruct "core.ChangeConfigurationRequest"
  [(mkField "Key" "key" false [Required; Max 50], TString);
   (mkField "Value" "value" false [Max 500], TString)].
Definition ChangeConfigurationConfirmation : gotype := TStruct "core.ChangeConfigurationConfirmation"
  [(mkField "Status" "status" false [Required; Custom "configurationStatus"], TEnum "core.ConfigurationStatus")].
Definition ClearCacheRequest : gotype := TStruct "core.ClearCacheRequest" [].
Definition ClearCacheConfirmation : gotype := TStruct "core.ClearCacheConfirmation"
  [(mkField "Status" "status" false [Required; Custom "cacheStatus16"], TEnum "core.ClearCacheStatus")].
Definition DataTransferRequest : gotype := TStruct "core.DataTransferRequest"
  [(mkField "VendorId" "vendorId" false [Required; Max 255], TString);
   (mkField "MessageId" "messageId" true [Max 50], TString);
   (mkField "Data" "data" true [], TAny)].
Definition DataTransferConfirmation : gotype := TStruct "core.DataTransferConfirmation"
  [(mkField "Status" "status" false [Required; Custom "dataTransferStatus16"], TEnum "core.DataTransferStatus");
   (mkField "Data" "data" true [], TAny)].
Definition ConfigurationKey : gotype := TStruct "core.ConfigurationKey"
  [(mkField "Key" "key" false [Required; Max 50], TString);
   (mkField "Readonly" "readonly" false [], TBool);
   (mkField "Value" "value" true [Omitempty; Max 500], TPtr TString)].
Definition GetConfigurationRequest : gotype := TStruct "core.GetConfigurationRequest"
  [(mkField "Key" "key" true [Omitempty; Unique; Dive; Max 50], TSlice TString)].
Definition GetConfigurationConfirmation : gotype := TStruct "core.GetConfigurationConfirmation"
  [(mkField "ConfigurationKey" "configurationKey" true [Omitempty; Dive], TSlice ConfigurationKey);
   (mkField "UnknownKey" "unknownKey" true [Omitempty; Dive; Max 50], TSlice TString)].
Definition HeartbeatRequest : gotype := TStruct "core.HeartbeatRequest" [].
Definition HeartbeatConfirmation : gotype := TStruct "core.HeartbeatConfirmation"
  [(mkField "CurrentTime" "currentTime" false [Required], TPtr TDateTime)].
Definition MeterValuesRequest : gotype := TStruct "core.MeterValuesRequest"
  [(mkField "ConnectorId" "connectorId" false [Gte 0], TInt);
   (mkField "TransactionId" "transactionId" true [], TPtr TInt);
   (mkField "MeterValue" "meterValue" false [Required; Min 1; Dive], TSlice types.MeterValue)].
Definition MeterValuesConfirmation : gotype := TStruct "core.MeterValuesConfirmation" [].
Definition RemoteStartTransactionRequest : gotype := TStruct "core.RemoteStartTransactionRequest"
  [(mkField "ConnectorId" "connectorId" true [Omitempty; Gt 0], TPtr TInt);
   (mkField "IdTag" "idTag" false [Required; Max 20], TString);
   (mkField "ChargingProfile" "chargingProfile" true [], TPtr types.ChargingProfile)].
Definition RemoteStartTransactionConfirmation : gotype := TStruct "core.RemoteStartTransactionConfirmation"
  [(mkField "Status" "status" false [Required; Custom "remoteStartStopStatus16"], TEnum "types.RemoteStartStopStatus")].
Definition RemoteStopTransactionRequest : gotype := TStruct "core.RemoteStopTransactionRequest"
  [(mkField "TransactionId" "transactionId" false [], TInt)].
Definition RemoteStopTransactionConfirmation : gotype := TStruct "core.RemoteStopTransactionConfirmation"
  [(mkField "Status" "status" false [Required; Custom "remoteStartStopStatus16"], TEnum "types.RemoteStartStopStatus")].
Definition ResetRequest : gotype := TStruct "core.ResetRequest"
  [(mkField "Type" "type" false [Required; Custom "resetType16"], TEnum "core.ResetType")].
Definition ResetConfirmation : gotype := TStruct "core.ResetConfirmation"
  [(mkField "Status" "status" false [Required; Custom "resetStatus16"], TEnum "core.ResetStatus")].
Definition StartTransactionRequest : gotype := TStruct "core.StartTransactionRequest"
  [(mkField "ConnectorId" "connectorId" false [Gt 0], TInt);
   (mkField "IdTag" "idTag" false [Required; Max 20], TString);
   (mkField "MeterStart" "meterStart" false [Gte 0], TInt);
   (mkField "ReservationId" "reservationId" true [Omitempty], TPtr TInt);
   (mkField "Timestamp" "timestamp" false [Required], TPtr TDateTime)].
Definition StartTransactionConfirmation : gotype := TStruct "core.StartTransactionConfirmation"
  [(mkField "IdTagInfo" "idTagInfo" false [Required], TPtr types.IdTagInfo);
   (mkField "TransactionId" "transactionId" false [], TInt)].
Definition StatusNotificationRequest : gotype := TStruct "core.StatusNotificationRequest"
  [(mkField "ConnectorId" "connectorId" false [Gte 0], TInt);
   (mkField "ErrorCode" "errorCode" false [Required; Custom "chargePointErrorCode"], TEnum "core.ChargePointErrorCode");
   (mkField "Info" "info" true [Max 50], TString);
   (mkField "Status" "status" false [Required; Custom "chargePointStatus"], TEnum "core.ChargePointStatus");
   (mkField "Timestamp" "timestamp" true [Omitempty], TPtr TDateTime);
   (mkField "VendorId" "vendorId" true [Max 255], TString);
   (mkField "VendorErrorCode" "vendorErrorCode" true [Max 50], TString)].
Definition StatusNotificationConfirmation : gotype := TStruct "core.StatusNotificationConfirmation" [].
Definition StopTransactionRequest : gotype := TStruct "core.StopTransactionRequest"
  [(mkField "IdTag" "idTag" true [Max 20], TString);
   (mkField "MeterStop" "meterStop" false [], TInt);
   (mkField "Timestamp" "timestamp" false [Required], TPtr TDateTime);
   (mkField "TransactionId" "transactionId" false [], TInt);
   (mkField "Reason" "reason" true [Omitempty; Custom "reason"], TEnum "core.Reason");
   (mkField "TransactionData" "transactionData" true [Omitempty; Dive], TSlice types.MeterValue)].
Definition StopTransactionConfirmation : gotype := TStruct "core.StopTransactionConfirmation"
  [(mkField "IdTagInfo" "idTagInfo" true [Omitempty], TPtr types.IdTagInfo)].
Definition UnlockConnectorRequest : gotype := TStruct "core.UnlockConnectorRequest"
  [(mkField "ConnectorId" "connectorId" false [Gt 0], TInt)].
Definition UnlockConnectorConfirmation : gotype := TStruct "core.UnlockConnectorConfirmation"
  [(mkField "Status" "status" false [Required; Custom "unlockStatus16"], TEnum "core.UnlockStatus")].
Definition NewAuthorizationRequest : constructor := mkCtor AuthorizeRequest [TString] [("IdTag", Arg 0)].
Definition NewAuthorizationConfirmation : constructor := mkCtor AuthorizeConfirmation [TPtr types.IdTagInfo]
  [("IdTagInfo", Arg 0)].
Definition NewBootNotificationRequest : constructor := mkCtor BootNotificationRequest [TString; TString]
  [("ChargePointModel", Arg 0); ("ChargePointVendor", Arg 1)].
Definition NewBootNotificationConfirmation : constructor := mkCtor BootNotificationConfirmation [TPtr TDateTime; TInt;
  TEnum "core.RegistrationStatus"] [("CurrentTime", Arg 0); ("Interval", Arg 1); ("Status", Arg 2)].
Definition NewChangeAvailabilityRequest : constructor := mkCtor ChangeAvailabilityRequest [TInt; TEnum
  "core.AvailabilityType"] [("ConnectorId", Arg 0); ("Type", Arg 1)].
Definition NewChangeAvailabilityConfirmation : constructor := mkCtor ChangeAvailabilityConfirmation [TEnum
  "core.AvailabilityStatus"] [("Status", Arg 0)].
Definition NewChangeConfigurationRequest : constructor := mkCtor ChangeConfigurationRequest [TString; TString]
  [("Key", Arg 0); ("Value", Arg 1)].
Definition NewChangeConfigurationConfirmation : constructor := mkCtor ChangeConfigurationConfirmation [TEnum
  "core.ConfigurationStatus"] [("Status", Arg 0)].
Definition NewClearCacheRequest : constructor := mkCtor ClearCacheRequest [] [].
Definition NewClearCacheConfirmation : constructor := mkCtor ClearCacheConfirmation [TEnum "core.ClearCacheStatus"]
  [("Status", Arg 0)].
Definition NewDataTransferRequest : constructor := mkCtor DataTransferRequest [TString] [("VendorId", Arg 0)].
Definition NewDataTransferConfirmation : constructor := mkCtor DataTransferConfirmation [TEnum
  "core.DataTransferStatus"] [("Status", Arg 0)].
Definition NewGetConfigurationRequest : constructor := mkCtor GetConfigurationRequest [TSlice TString] [("Key", Arg
  0)].
Definition NewGetConfigurationConfirmation : constructor := mkCtor GetConfigurationConfirmation [TSlice
  ConfigurationKey] [("ConfigurationKey", Arg 0)].
Definition NewHeartbeatRequest : constructor := mkCtor HeartbeatRequest [] [].
Definition NewHeartbeatConfirmation : constructor := mkCtor HeartbeatConfirmation [TPtr TDateTime] [("CurrentTime",
  Arg 0)].
Definition NewMeterValuesRequest : constructor := mkCtor MeterValuesRequest [TInt; TSlice types.MeterValue]
  [("ConnectorId", Arg 0); ("MeterValue", Arg 1)].
Definition NewMeterValuesConfirmation : constructor := mkCtor MeterValuesConfirmation [] [].
Definition NewRemoteStartTransactionRequest : constructor := mkCtor RemoteStartTransactionRequest [TString] [("IdTag",
  Arg 0)].
Definition NewRemoteStartTransactionConfirmation : constructor := mkCtor RemoteStartTransactionConfirmation [TEnum
  "types.RemoteStartStopStatus"] [("Status", Arg 0)].
Definition NewRemoteStopTransactionRequest : constructor := mkCtor RemoteStopTransactionRequest [TInt]
  [("TransactionId", Arg 0)].
Definition NewRemoteStopTransactionConfirmation : constructor := mkCtor RemoteStopTransactionConfirmation [TEnum
  "types.RemoteStartStopStatus"] [("Status", Arg 0)].
Definition NewResetRequest : constructor := mkCtor ResetRequest [TEnum "core.ResetType"] [("Type", Arg 0)].
Definition NewResetConfirmation : constructor := mkCtor ResetConfirmation [TEnum "core.ResetStatus"] [("Status", Arg
  0)].
Definition NewStartTransactionRequest : constructor := mkCtor StartTransactionRequest [TInt; TString; TInt; TPtr
  TDateTime] [("ConnectorId", Arg 0); ("IdTag", Arg 1); ("MeterStart", Arg 2); ("Timestamp", Arg 3)].
Definition NewStartTransactionConfirmation : constructor := mkCtor StartTransactionConfirmation [TPtr types.IdTagInfo;
  TInt] [("IdTagInfo", Arg 0); ("TransactionId", Arg 1)].
Definition NewStatusNotificationRequest : constructor := mkCtor StatusNotificationRequest [TInt; TEnum
  "core.ChargePointErrorCode"; TEnum "core.ChargePointStatus"] [("ConnectorId", Arg 0); ("ErrorCode", Arg 1);
  ("Status", Arg 2)].
Definition NewStatusNotificationConfirmation : constructor := mkCtor StatusNotificationConfirmation [] [].
Definition NewStopTransactionRequest : constructor := mkCtor StopTransactionRequest [TInt; TPtr TDateTime; TInt]
  [("MeterStop", Arg 0); ("Timestamp", Arg 1); ("TransactionId", Arg 2)].
Definition NewStopTransactionConfirmation : constructor := mkCtor StopTransactionConfirmation [] [].
Definition NewUnlockConnectorRequest : constructor := mkCtor UnlockConnectorRequest [TInt] [("ConnectorId", Arg 0)].
Definition NewUnlockConnectorConfirmation : constructor := mkCtor UnlockConnectorConfirmation [TEnum
  "core.UnlockStatus"] [("Status", Arg 0)].
Definition AuthorizeFeature : message_feature := mkMessageFeature "Authorize" AuthorizeRequest AuthorizeConfirmation.
Definition BootNotificationFeature : message_feature := mkMessageFeature "BootNotification" BootNotificationRequest
  BootNotificationConfirmation.
Definition ChangeAvailabilityFeature : message_feature := mkMessageFeature "ChangeAvailability"
  ChangeAvailabilityRequest ChangeAvailabilityConfirmation.
Definition ChangeConfigurationFeature : message_feature := mkMessageFeature "ChangeConfiguration"
  ChangeConfigurationRequest ChangeConfigurationConfirmation.
Definition ClearCacheFeature : message_feature := mkMessageFeature "ClearCache" ClearCacheRequest
  ClearCacheConfirmation.
Definition DataTransferFeature : message_feature := mkMessageFeature "DataTransfer" DataTransferRequest
  DataTransferConfirmation.
Definition GetConfigurationFeature : message_feature := mkMessageFeature "GetConfiguration" GetConfigurationRequest
  GetConfigurationConfirmation.
Definition HeartbeatFeature : message_feature := mkMessageFeature "Heartbeat" HeartbeatRequest HeartbeatConfirmation.
Definition MeterValuesFeature : message_feature := mkMessageFeature "MeterValues" MeterValuesRequest
  MeterValuesConfirmation.
Definition RemoteStartTransactionFeature : message_feature := mkMessageFeature "RemoteStartTransaction"
  RemoteStartTransactionRequest RemoteStartTransactionConfirmation.
Definition RemoteStopTransactionFeature : message_feature := mkMessageFeature "RemoteStopTransaction"
  RemoteStopTransactionRequest RemoteStopTransactionConfirmation.
Definition ResetFeature : message_feature := mkMessageFeature "Reset" ResetRequest ResetConfirmation.
Definition StartTransactionFeature : message_feature := mkMessageFeature "StartTransaction" StartTransactionRequest
  StartTransactionConfirmation.
Definition StatusNotificationFeature : message_feature := mkMessageFeature "StatusNotification"
  StatusNotificationRequest StatusNotificationConfirmation.
Definition StopTransactionFeature : message_feature := mkMessageFeature "StopTransaction" StopTransactionRequest
  StopTransactionConfirmation.
Definition UnlockConnectorFeature : message_feature := mkMessageFeature "UnlockConnector" UnlockConnectorRequest
  UnlockConnectorConfirmation.
Definition registrations : list (string * validator) := [("registrationStatus16", isValidRegistrationStatus);
  ("availabilityType", isValidAvailabilityType); ("availabilityStatus", isValidAvailabilityStatus);
  ("configurationStatus", isValidConfigurationStatus); ("cacheStatus16", isValidClearCacheStatus);
  ("dataTransferStatus16", isValidDataTransferStatus); ("resetType16", isValidResetType); ("resetStatus16",
  isValidResetStatus); ("chargePointErrorCode", isValidChargePointErrorCode); ("chargePointStatus",
  isValidChargePointStatus); ("reason", isValidReason); ("unlockStatus16", isValidUnlockStatus)].
Definition enums : list goenum := [RegistrationStatus; AvailabilityType; AvailabilityStatus; ConfigurationStatus;
  ClearCacheStatus; DataTransferStatus; ResetType; ResetStatus; ChargePointErrorCode; ChargePointStatus; Reason;
  UnlockStatus].
Definition structs : list gotype := [AuthorizeRequest; AuthorizeConfirmation; BootNotificationRequest;
  BootNotificationConfirmation; ChangeAvailabilityRequest; ChangeAvailabilityConfirmation; ChangeConfigurationRequest;
  ChangeConfigurationConfirmation; ClearCacheRequest; ClearCacheConfirmation; DataTransferRequest;
  DataTransferConfirmation; ConfigurationKey; GetConfigurationRequest; GetConfigurationConfirmation; HeartbeatRequest;
  HeartbeatConfirmation; MeterValuesRequest; MeterValuesConfirmation; RemoteStartTransactionRequest;
  RemoteStartTransactionConfirmation; RemoteStopTransactionRequest; RemoteStopTransactionConfirmation; ResetRequest;
  ResetConfirmation; StartTransactionRequest; StartTransactionConfirmation; StatusNotificationRequest;
  StatusNotificationConfirmation; StopTransactionRequest; StopTransactionConfirmation; UnlockConnectorRequest;
  UnlockConnectorConfirmation].
Definition constructors : list constructor := [NewAuthorizationRequest; NewAuthorizationConfirmation;
  NewBootNotificationRequest; NewBootNotificationConfirmation; NewChangeAvailabilityRequest;
  NewChangeAvailabilityConfirmation; NewChangeConfigurationRequest; NewChangeConfigurationConfirmation;
  NewClearCacheRequest; NewClearCacheConfirmation; NewDataTransferRequest; NewDataTransferConfirmation;
  NewGetConfigurationRequest; NewGetConfigurationConfirmation; NewHeartbeatRequest; NewHeartbeatConfirmation;
  NewMeterValuesRequest; NewMeterValuesConfirmation; NewRemoteStartTransactionRequest;
  NewRemoteStartTransactionConfirmation; NewRemoteStopTransactionRequest; NewRemoteStopTransactionConfirmation;
  NewResetRequest; NewResetConfirmation; NewStartTransactionRequest; NewStartTransactionConfirmation;
  NewStatusNotificationRequest; NewStatusNotificationConfirmation; NewStopTransactionRequest;
  NewStopTransactionConfirmation; NewUnlockConnectorRequest; NewUnlockConnectorConfirmation].
Definition features : list message_feature := [AuthorizeFeature; BootNotificationFeature; ChangeAvailabilityFeature;
  ChangeConfigurationFeature; ClearCacheFeature; DataTransferFeature; GetConfigurationFeature; HeartbeatFeature;
  MeterValuesFeature; RemoteStartTransactionFeature; RemoteStopTransactionFeature; ResetFeature;
  StartTransactionFeature; StatusNotificationFeature; StopTransactionFeature; UnlockConnectorFeature].
End core.

(** *** Package localauth *)

Module localauth.
Definition UpdateType : goenum := mkEnum "localauth.UpdateType" ["Differential"; "Full"].
Definition UpdateStatus : goenum := mkEnum "localauth.UpdateStatus" ["Accepted"; "Failed"; "NotSupported";
  "VersionMismatch"].
Definition isValidUpdateType : validator := mkValidator "localauth.UpdateType" ["Differential"; "Full"].
Definition isValidUpdateStatus : validator := mkValidator "localauth.UpdateStatus" ["Accepted"; "Failed";
  "NotSupported"; "VersionMismatch"].
Definition GetLocalListVersionRequest : gotype := TStruct "localauth.GetLocalListVersionRequest" [].
Definition GetLocalListVersionConfirmation : gotype := TStruct "localauth.GetLocalListVersionConfirmation"
  [(mkField "ListVersion" "listVersion" false [Gte (-1)], TInt)].
Definition AuthorizationData : gotype := TStruct "localauth.AuthorizationData"
  [(mkField "IdTag" "idTag" false [Required; Max 20], TString);
   (mkField "IdTagInfo" "idTagInfo" true [], TPtr types.IdTagInfo)].
Definition SendLocalListRequest : gotype := TStruct "localauth.SendLocalListRequest"
  [(mkField "ListVersion" "listVersion" false [Gte 0], TInt);
   (mkField "LocalAuthorizationList" "localAuthorizationList" true [Omitempty; Dive], TSlice AuthorizationData);
   (mkField "UpdateType" "updateType" false [Required; Custom "updateType16"], TEnum "localauth.UpdateType")].
Definition SendLocalListConfirmation : gotype := TStruct "localauth.SendLocalListConfirmation"
  [(mkField "Status" "status" false [Required; Custom "updateStatus"], TEnum "localauth.UpdateStatus")].
Definition NewGetLocalListVersionRequest : constructor := mkCtor GetLocalListVersionRequest [] [].
Definition NewGetLocalListVersionConfirmation : constructor := mkCtor GetLocalListVersionConfirmation [TInt]
  [("ListVersion", Arg 0)].
Definition NewSendLocalListRequest : constructor := mkCtor SendLocalListRequest [TInt; TEnum "localauth.UpdateType"]
  [("ListVersion", Arg 0); ("UpdateType", Arg 1)].
Definition NewSendLocalListConfirmation : constructor := mkCtor SendLocalListConfirmation [TEnum
  "localauth.UpdateStatus"] [("Status", Arg 0)].
Definition GetLocalListVersionFeature : message_feature := mkMessageFeature "GetLocalListVersion"
  GetLocalListVersionRequest GetLocalListVersionConfirmation.
Definition SendLocalListFeature : message_feature := mkMessageFeature "SendLocalList" SendLocalListRequest
  SendLocalListConfirmation.
Definition registrations : list (string * validator) := [("updateStatus", isValidUpdateStatus); ("updateType16",
  isValidUpdateType)].
Definition enums : list goenum := [UpdateType; UpdateStatus].
Definition structs : list gotype := [GetLocalListVersionRequest; GetLocalListVersionConfirmation; AuthorizationData;
  SendLocalListRequest; SendLocalListConfirmation].
Definition constructors : list constructor := [NewGetLocalListVersionRequest; NewGetLocalListVersionConfirmation;
  NewSendLocalListRequest; NewSendLocalListConfirmation].
Definition features : list message_feature := [GetLocalListVersionFeature; SendLocalListFeature].
End localauth.

(** *** Package firmware *)

Module firmware.
Definition DiagnosticsStatus : goenum := mkEnum "firmware.DiagnosticsStatus" ["Idle"; "Uploaded"; "UploadFailed";
  "Uploading"].
Definition FirmwareStatus : goenum := mkEnum "firmware.FirmwareStatus" ["Downloaded"; "DownloadFailed"; "Downloading";
  "Idle"; "InstallationFailed"; "Installing"; "Installed"].
Definition isValidDiagnosticsStatus : validator := mkValidator "firmware.DiagnosticsStatus" ["Idle"; "Uploaded";
  "UploadFailed"; "Uploading"].
Definition isValidFirmwareStatus : validator := mkValidator "firmware.FirmwareStatus" ["Downloaded"; "DownloadFailed";
  "Downloading"; "Idle"; "InstallationFailed"; "Installing"; "Installed"].
Definition DiagnosticsStatusNotificationRequest : gotype := TStruct "firmware.DiagnosticsStatusNotificationRequest"
  [(mkField "Status" "status" false [Required; Custom "diagnosticsStatus"], TEnum "firmware.DiagnosticsStatus")].
Definition DiagnosticsStatusNotificationConfirmation : gotype := TStruct "firmware.DiagnosticsStatusNotificationConfirmation" [].
Definition FirmwareStatusNotificationRequest : gotype := TStruct "firmware.FirmwareStatusNotificationRequest"
  [(mkField "Status" "status" false [Required; Custom "firmwareStatus16"], TEnum "firmware.FirmwareStatus")].
Definition FirmwareStatusNotificationConfirmation : gotype := TStruct "firmware.FirmwareStatusNotificationConfirmation" [].
Definition GetDiagnosticsRequest : gotype := TStruct "firmware.GetDiagnosticsRequest"
  [(mkField "Location" "location" false [Required; Uri], TString);
   (mkField "Retries" "retries" true [Omitempty; Gte 0], TPtr TInt);
   (mkField "RetryInterval" "retryInterval" true [Omitempty; Gte 0], TPtr TInt);
   (mkField "StartTime" "startTime" true [], TPtr TDateTime);
   (mkField "StopTime" "stopTime" true [], TPtr TDateTime)].
Definition GetDiagnosticsConfirmation : gotype := TStruct "firmware.GetDiagnosticsConfirmation"
  [(mkField "FileName" "fileName" true [Max 255], TString)].
Definition UpdateFirmwareRequest : gotype := TStruct "firmware.UpdateFirmwareRequest"
  [(mkField "Location" "location" false [Required; Uri], TString);
   (mkField "Retries" "retries" true [Omitempty; Gte 0], TPtr TInt);
   (mkField "RetrieveDate" "retrieveDate" false [Required], TPtr TDateTime);
   (mkField "RetryInterval" "retryInterval" true [Omitempty; Gte 0], TPtr TInt)].
Definition UpdateFirmwareConfirmation : gotype := TStruct "firmware.UpdateFirmwareConfirmation" [].
Definition NewDiagnosticsStatusNotificationRequest : constructor := mkCtor DiagnosticsStatusNotificationRequest [TEnum
  "firmware.DiagnosticsStatus"] [("Status", Arg 0)].
Definition NewDiagnosticsStatusNotificationConfirmation : constructor := mkCtor
  DiagnosticsStatusNotificationConfirmation [] [].
Definition NewFirmwareStatusNotificationRequest : constructor := mkCtor FirmwareStatusNotificationRequest [TEnum
  "firmware.FirmwareStatus"] [("Status", Arg 0)].
Definition NewFirmwareStatusNotificationConfirmation : constructor := mkCtor FirmwareStatusNotificationConfirmation []
  [].
Definition NewGetDiagnosticsRequest : constructor := mkCtor GetDiagnosticsRequest [TString] [("Location", Arg 0)].
Definition NewGetDiagnosticsConfirmation : constructor := mkCtor GetDiagnosticsConfirmation [] [].
Definition NewUpdateFirmwareRequest : constructor := mkCtor UpdateFirmwareRequest [TString; TPtr TDateTime]
  [("Location", Arg 0); ("RetrieveDate", Arg 1)].
Definition NewUpdateFirmwareConfirmation : constructor := mkCtor UpdateFirmwareConfirmation [] [].
Definition DiagnosticsStatusNotificationFeature : message_feature := mkMessageFeature "DiagnosticsStatusNotification"
  DiagnosticsStatusNotificationRequest DiagnosticsStatusNotificationConfirmation.
Definition FirmwareStatusNotificationFeature : message_feature := mkMessageFeature "FirmwareStatusNotification"
  FirmwareStatusNotificationRequest FirmwareStatusNotificationConfirmation.
Definition GetDiagnosticsFeature : message_feature := mkMessageFeature "GetDiagnostics" GetDiagnosticsRequest
  GetDiagnosticsConfirmation.
Definition UpdateFirmwareFeature : message_feature := mkMessageFeature "UpdateFirmware" UpdateFirmwareRequest
  UpdateFirmwareConfirmation.
Definition registrations : list (string * validator) := [("diagnosticsStatus", isValidDiagnosticsStatus);
  ("firmwareStatus16", isValidFirmwareStatus)].
Definition enums : list goenum := [DiagnosticsStatus; FirmwareStatus].
Definition structs : list gotype := [DiagnosticsStatusNotificationRequest; DiagnosticsStatusNotificationConfirmation;
  FirmwareStatusNotificationRequest; FirmwareStatusNotificationConfirmation; GetDiagnosticsRequest;
  GetDiagnosticsConfirmation; UpdateFirmwareRequest; UpdateFirmwareConfirmation].
Definition constructors : list constructor := [NewDiagnosticsStatusNotificationRequest;
  NewDiagnosticsStatusNotificationConfirmation; NewFirmwareStatusNotificationRequest;
  NewFirmwareStatusNotificationConfirmation; NewGetDiagnosticsRequest; NewGetDiagnosticsConfirmation;
  NewUpdateFirmwareRequest; NewUpdateFirmwareConfirmation].
Definition features : list message_feature := [DiagnosticsStatusNotificationFeature;
  FirmwareStatusNotificationFeature; GetDiagnosticsFeature; UpdateFirmwareFeature].
End firmware.

(** *** Package reservation *)

Module reservation.
Definition CancelReservationStatus : goenum := mkEnum "reservation.CancelReservationStatus" ["Accepted"; "Rejected"].
Definition ReservationStatus : goenum := mkEnum "reservation.ReservationStatus" ["Accepted"; "Faulted"; "Occupied";
  "Rejected"; "Unavailable"].
Definition isValidCancelReservationStatus : validator := mkValidator "reservation.CancelReservationStatus"
  ["Accepted"; "Rejected"].
Definition isValidReservationStatus : validator := mkValidator "reservation.ReservationStatus" ["Accepted"; "Faulted";
  "Occupied"; "Rejected"; "Unavailable"].
Definition CancelReservationRequest : gotype := TStruct "reservation.CancelReservationRequest"
  [(mkField "ReservationId" "reservationId" false [], TInt)].
Definition CancelReservationConfirmation : gotype := TStruct "reservation.CancelReservationConfirmation"
  [(mkField "Status" "status" false [Required; Custom "cancelReservationStatus16"], TEnum "reservation.CancelReservationStatus")].
Definition ReserveNowRequest : gotype := TStruct "reservation.ReserveNowRequest"
  [(mkField "ConnectorId" "connectorId" false [Gte 0], TInt);
   (mkField "ExpiryDate" "expiryDate" false [Required], TPtr TDateTime);
   (mkField "IdTag" "idTag" false [Required; Max 20], TString);
   (mkField "ParentIdTag" "parentIdTag" true [Max 20], TString);
   (mkField "ReservationId" "reservationId" false [], TInt)].
Definition ReserveNowConfirmation : gotype := TStruct "reservation.ReserveNowConfirmation"
  [(mkField "Status" "status" false [Required; Custom "reservationStatus"], TEnum "reservation.ReservationStatus")].
Definition NewCancelReservationRequest : constructor := mkCtor CancelReservationRequest [TInt] [("ReservationId", Arg
  0)].
Definition NewCancelReservationConfirmation : constructor := mkCtor CancelReservationConfirmation [TEnum
  "reservation.CancelReservationStatus"] [("Status", Arg 0)].
Definition NewReserveNowRequest : constructor := mkCtor ReserveNowRequest [TInt; TPtr TDateTime; TString; TInt]
  [("ConnectorId", Arg 0); ("ExpiryDate", Arg 1); ("IdTag", Arg 2); ("ReservationId", Arg 3)].
Definition NewReserveNowConfirmation : constructor := mkCtor ReserveNowConfirmation [TEnum
  "reservation.ReservationStatus"] [("Status", Arg 0)].
Definition CancelReservationFeature : message_feature := mkMessageFeature "CancelReservation" CancelReservationRequest
  CancelReservationConfirmation.
Definition ReserveNowFeature : message_feature := mkMessageFeature "ReserveNow" ReserveNowRequest
  ReserveNowConfirmation.
Definition registrations : list (string * validator) := [("cancelReservationStatus16",
  isValidCancelReservationStatus); ("reservationStatus", isValidReservationStatus)].
Definition enums : list goenum := [CancelReservationStatus; ReservationStatus].
Definition structs : list gotype := [CancelReservationRequest; CancelReservationConfirmation; ReserveNowRequest;
  ReserveNowConfirmation].
Definition constructors : list constructor := [NewCancelReservationRequest; NewCancelReservationConfirmation;
  NewReserveNowRequest; NewReserveNowConfirmation].
Definition features : list message_feature := [CancelReservationFeature; ReserveNowFeature].
End reservation.

(** *** Package remotetrigger *)

Module remotetrigger.
Definition TriggerMessageStatus : goenum := mkEnum "remotetrigger.TriggerMessageStatus" ["Accepted"; "Rejected";
  "NotImplemented"].
Definition MessageTrigger : goenum := mkEnum "remotetrigger.MessageTrigger" [].
Definition isValidTriggerMessageStatus : validator := mkValidator "remotetrigger.TriggerMessageStatus" ["Accepted";
  "Rejected"; "NotImplemented"].
Definition isValidMessageTrigger : validator := mkValidator "remotetrigger.MessageTrigger" ["BootNotification";
  "DiagnosticsStatusNotification"; "FirmwareStatusNotification"; "Heartbeat"; "MeterValues"; "StatusNotification"].
Definition TriggerMessageRequest : gotype := TStruct "remotetrigger.TriggerMessageRequest"
  [(mkField "RequestedMessage" "requestedMessage" false [Required; Custom "messageTrigger16"], TEnum "remotetrigger.MessageTrigger");
   (mkField "ConnectorId" "connectorId" true [Omitempty; Gte 0], TPtr TInt)].
Definition TriggerMessageConfirmation : gotype := TStruct "remotetrigger.TriggerMessageConfirmation"
  [(mkField "Status" "status" false [Required; Custom "triggerMessageStatus16"], TEnum "remotetrigger.TriggerMessageStatus")].
Definition NewTriggerMessageRequest : constructor := mkCtor TriggerMessageRequest [TEnum
  "remotetrigger.MessageTrigger"] [("RequestedMessage", Arg 0)].
Definition NewTriggerMessageConfirmation : constructor := mkCtor TriggerMessageConfirmation [TEnum
  "remotetrigger.TriggerMessageStatus"] [("Status", Arg 0)].
Definition TriggerMessageFeature : message_feature := mkMessageFeature "TriggerMessage" TriggerMessageRequest
  TriggerMessageConfirmation.
Definition registrations : list (string * validator) := [("triggerMessageStatus16", isValidTriggerMessageStatus);
  ("messageTrigger16", isValidMessageTrigger)].
Definition enums : list goenum := [TriggerMessageStatus; MessageTrigger].
Definition structs : list gotype := [TriggerMessageRequest; TriggerMessageConfirmation].
Definition constructors : list constructor := [NewTriggerMessageRequest; NewTriggerMessageConfirmation].
Definition features : list message_feature := [TriggerMessageFeature].
End remotetrigger.

(** *** Package smartcharging *)

Module smartcharging.
Definition ClearChargingProfileStatus : goenum := mkEnum "smartcharging.ClearChargingProfileStatus" ["Accepted";
  "Unknown"].
Definition GetCompositeScheduleStatus : goenum := mkEnum "smartcharging.GetCompositeScheduleStatus" ["Accepted";
  "Rejected"].
Definition ChargingProfileStatus : goenum := mkEnum "smartcharging.ChargingProfileStatus" ["Accepted"; "Rejected";
  "NotSupported"].
Definition isValidClearChargingProfileStatus : validator := mkValidator "smartcharging.ClearChargingProfileStatus"
  ["Accepted"; "Unknown"].
Definition isValidGetCompositeScheduleStatus : validator := mkValidator "smartcharging.GetCompositeScheduleStatus"
  ["Accepted"; "Rejected"].
Definition isValidChargingProfileStatus : validator := mkValidator "smartcharging.ChargingProfileStatus" ["Accepted";
  "Rejected"; "NotSupported"].
Definition ClearChargingProfileRequest : gotype := TStruct "smartcharging.ClearChargingProfileRequest"
  [(mkField "Id" "id" true [Omitempty], TPtr TInt);
   (mkField "ConnectorId" "connectorId" true [Omitempty; Gte 0], TPtr TInt);
   (mkField "ChargingProfilePurpose" "chargingProfilePurpose" true [Omitempty; Custom "chargingProfilePurpose16"], TEnum "types.ChargingProfilePurposeType");
   (mkField "StackLevel" "stackLevel" true [Omitempty; Gte 0], TPtr TInt)].
Definition ClearChargingProfileConfirmation : gotype := TStruct "smartcharging.ClearChargingProfileConfirmation"
  [(mkField "Status" "status" false [Required; Custom "clearChargingProfileStatus16"], TEnum "smartcharging.ClearChargingProfileStatus")].
Definition GetCompositeScheduleRequest : gotype := TStruct "smartcharging.GetCompositeScheduleRequest"
  [(mkField "ConnectorId" "connectorId" false [Gte 0], TInt);
   (mkField "Duration" "duration" false [Gte 0], TInt);
   (mkField "ChargingRateUnit" "chargingRateUnit" true [Omitempty; Custom "chargingRateUnit16"], TEnum "types.ChargingRateUnitType")].
Definition GetCompositeScheduleConfirmation : gotype := TStruct "smartcharging.GetCompositeScheduleConfirmation"
  [(mkField "Status" "status" false [Required; Custom "compositeScheduleStatus"], TEnum "smartcharging.GetCompositeScheduleStatus");
   (mkField "ConnectorId" "connectorId" true [Omitempty; Gte 0], TPtr TInt);
   (mkField "ScheduleStart" "scheduleStart" true [], TPtr TDateTime);
   (mkField "ChargingSchedule" "chargingSchedule" true [Omitempty], TPtr types.ChargingSchedule)].
Definition SetChargingProfileRequest : gotype := TStruct "smartcharging.SetChargingProfileRequest"
  [(mkField "ConnectorId" "connectorId" false [Gte 0], TInt);
   (mkField "ChargingProfile" "csChargingProfiles" false [Required], TPtr types.ChargingProfile)].
Definition SetChargingProfileConfirmation : gotype := TStruct "smartcharging.SetChargingProfileConfirmation"
  [(mkField "Status" "status" false [Required; Custom "chargingProfileStatus16"], TEnum "smartcharging.ChargingProfileStatus")].
Definition NewClearChargingProfileRequest : constructor := mkCtor ClearChargingProfileRequest [] [].
Definition NewClearChargingProfileConfirmation : constructor := mkCtor ClearChargingProfileConfirmation [TEnum
  "smartcharging.ClearChargingProfileStatus"] [("Status", Arg 0)].
Definition NewGetCompositeScheduleRequest : constructor := mkCtor GetCompositeScheduleRequest [TInt; TInt]
  [("ConnectorId", Arg 0); ("Duration", Arg 1)].
Definition NewGetCompositeScheduleConfirmation : constructor := mkCtor GetCompositeScheduleConfirmation [TEnum
  "smartcharging.GetCompositeScheduleStatus"] [("Status", Arg 0)].
Definition NewSetChargingProfileRequest : constructor := mkCtor SetChargingProfileRequest [TInt; TPtr
  types.ChargingProfile] [("ConnectorId", Arg 0); ("ChargingProfile", Arg 1)].
Definition NewSetChargingProfileConfirmation : constructor := mkCtor SetChargingProfileConfirmation [TEnum
  "smartcharging.ChargingProfileStatus"] [("Status", Arg 0)].
Definition ClearChargingProfileFeature : message_feature := mkMessageFeature "ClearChargingProfile"
  ClearChargingProfileRequest ClearChargingProfileConfirmation.
Definition GetCompositeScheduleFeature : message_feature := mkMessageFeature "GetCompositeSchedule"
  GetCompositeScheduleRequest GetCompositeScheduleConfirmation.
Definition SetChargingProfileFeature : message_feature := mkMessageFeature "SetChargingProfile"
  SetChargingProfileRequest SetChargingProfileConfirmation.
Definition registrations : list (string * validator) := [("clearChargingProfileStatus16",
  isValidClearChargingProfileStatus); ("compositeScheduleStatus", isValidGetCompositeScheduleStatus);
  ("chargingProfileStatus16", isValidChargingProfileStatus)].
Definition enums : list goenum := [ClearChargingProfileStatus; GetCompositeScheduleStatus; ChargingProfileStatus].
Definition structs : list gotype := [ClearChargingProfileRequest; ClearChargingProfileConfirmation;
  GetCompositeScheduleRequest; GetCompositeScheduleConfirmation; SetChargingProfileRequest;
  SetChargingProfileConfirmation].
Definition constructors : list constructor := [NewClearChargingProfileRequest; NewClearChargingProfileConfirmation;
  NewGetCompositeScheduleRequest; NewGetCompositeScheduleConfirmation; NewSetChargingProfileRequest;
  NewSetChargingProfileConfirmation].
Definition features : list message_feature := [ClearChargingProfileFeature; GetCompositeScheduleFeature;
  SetChargingProfileFeature].
End smartcharging.

(** *** Package logging *)

Module logging.
Definition LogType : goenum := mkEnum "logging.LogType" ["DiagnosticsLog"; "SecurityLog"].
Definition LogStatus : goenum := mkEnum "logging.LogStatus" ["Accepted"; "Rejected"; "AcceptedCanceled"].
Definition UploadLogStatus : goenum := mkEnum "logging.UploadLogStatus" ["BadMessage"; "Idle";
  "NotSupportedOperation"; "PermissionDenied"; "Uploaded"; "UploadFailure"; "Uploading"].
Definition isValidLogType : validator := mkValidator "logging.LogType" ["DiagnosticsLog"; "SecurityLog"].
Definition isValidLogStatus : validator := mkValidator "logging.LogStatus" ["Accepted"; "Rejected";
  "AcceptedCanceled"].
Definition isValidUploadLogStatus : validator := mkValidator "logging.UploadLogStatus" ["BadMessage"; "Idle";
  "NotSupportedOperation"; "PermissionDenied"; "Uploaded"; "UploadFailure"; "Uploading"].
Definition LogParameters : gotype := TStruct "logging.LogParameters"
  [(mkField "RemoteLocation" "remoteLocation" false [Required; Max 512; Url], TString);
   (mkField "OldestTimestamp" "oldestTimestamp" true [Omitempty], TPtr TDateTime);
   (mkField "LatestTimestamp" "latestTimestamp" true [Omitempty], TPtr TDateTime)].
Definition GetLogRequest : gotype := TStruct "logging.GetLogRequest"
  [(mkField "LogType" "logType" false [Required; Custom "logType16"], TEnum "logging.LogType");
   (mkField "RequestID" "requestId" false [Gte 0], TInt);
   (mkField "Retries" "retries" true [Omitempty; Gte 0], TPtr TInt);
   (mkField "RetryInterval" "retryInterval" true [Omitempty; Gte 0], TPtr TInt);
   (mkField "Log" "log" false [Required], LogParameters)].
Definition GetLogResponse : gotype := TStruct "logging.GetLogResponse"
  [(mkField "Status" "status" false [Required; Custom "logStatus16"], TEnum "logging.LogStatus");
   (mkField "Filename" "filename" true [Omitempty; Max 256], TString)].
Definition LogStatusNotificationRequest : gotype := TStruct "logging.LogStatusNotificationRequest"
  [(mkField "Status" "status" false [Required; Custom "uploadLogStatus16"], TEnum "logging.UploadLogStatus");
   (mkField "RequestID" "requestId" false [Gte 0], TInt)].
Definition LogStatusNotificationResponse : gotype := TStruct "logging.LogStatusNotificationResponse" [].
Definition NewGetLogRequest : constructor := mkCtor GetLogRequest [TEnum "logging.LogType"; TInt; LogParameters]
  [("LogType", Arg 0); ("RequestID", Arg 1); ("Log", Arg 2)].
Definition NewGetLogResponse : constructor := mkCtor GetLogResponse [TEnum "logging.LogStatus"] [("Status", Arg 0)].
Definition NewLogStatusNotificationRequest : constructor := mkCtor LogStatusNotificationRequest [TEnum
  "logging.UploadLogStatus"; TInt] [("Status", Arg 0); ("RequestID", Arg 1)].
Definition NewLogStatusNotificationResponse : constructor := mkCtor LogStatusNotificationResponse [] [].
Definition GetLogFeature : message_feature := mkMessageFeature "GetLog" GetLogRequest GetLogResponse.
Definition LogStatusNotificationFeature : message_feature := mkMessageFeature "LogStatusNotification"
  LogStatusNotificationRequest LogStatusNotificationResponse.
Definition registrations : list (string * validator) := [("logType16", isValidLogType); ("logStatus16",
  isValidLogStatus); ("uploadLogStatus16", isValidUploadLogStatus)].
Definition enums : list goenum := [LogType; LogStatus; UploadLogStatus].
Definition structs : list gotype := [LogParameters; GetLogRequest; GetLogResponse; LogStatusNotificationRequest;
  LogStatusNotificationResponse].
Definition constructors : list constructor := [NewGetLogRequest; NewGetLogResponse; NewLogStatusNotificationRequest;
  NewLogStatusNotificationResponse].
Definition features : list message_feature := [GetLogFeature; LogStatusNotificationFeature].
End logging.

(** *** Package security *)

Module security.
Definition CertificateSignedStatus : goenum := mkEnum "security.CertificateSignedStatus" ["Accepted"; "Rejected"].
Definition isValidCertificateSignedStatus : validator := mkValidator "security.CertificateSignedStatus" ["Accepted";
  "Rejected"].
Definition CertificateSignedRequest : gotype := TStruct "security.CertificateSignedRequest"
  [(mkField "CertificateChain" "certificateChain" false [Required; Max 10000], TString)].
Definition CertificateSignedResponse : gotype := TStruct "security.CertificateSignedResponse"
  [(mkField "Status" "status" false [Required; Custom "certificateSignedStatus16"], TEnum "security.CertificateSignedStatus")].
Definition SecurityEventNotificationRequest : gotype := TStruct "security.SecurityEventNotificationRequest"
  [(mkField "Type" "type" false [Required; Max 50], TString);
   (mkField "Timestamp" "timestamp" false [Required], TPtr TDateTime);
   (mkField "TechInfo" "techInfo" true [Omitempty; Max 255], TString)].
Definition SecurityEventNotificationResponse : gotype := TStruct "security.SecurityEventNotificationResponse" [].
Definition SignCertificateRequest : gotype := TStruct "security.SignCertificateRequest"
  [(mkField "CSR" "csr" false [Required; Max 5500], TString);
   (mkField "CertificateType" "certificateType" true [Omitempty; Custom "certificateSigningUse16"], TEnum "types.CertificateSigningUse")].
Definition SignCertificateResponse : gotype := TStruct "security.SignCertificateResponse"
  [(mkField "Status" "status" false [Required; Custom "genericStatus16"], TEnum "types.GenericStatus")].
Definition NewCertificateSignedRequest : constructor := mkCtor CertificateSignedRequest [TString]
  [("CertificateChain", Arg 0)].
Definition NewCertificateSignedResponse : constructor := mkCtor CertificateSignedResponse [TEnum
  "security.CertificateSignedStatus"] [("Status", Arg 0)].
Definition NewSecurityEventNotificationRequest : constructor := mkCtor SecurityEventNotificationRequest [TString; TPtr
  TDateTime] [("Type", Arg 0); ("Timestamp", Arg 1)].
Definition NewSecurityEventNotificationResponse : constructor := mkCtor SecurityEventNotificationResponse [] [].
Definition NewSignCertificateRequest : constructor := mkCtor SignCertificateRequest [TString] [("CSR", Arg 0)].
Definition NewSignCertificateResponse : constructor := mkCtor SignCertificateResponse [TEnum "types.GenericStatus"]
  [("Status", Arg 0)].
Definition CertificateSignedFeature : message_feature := mkMessageFeature "CertificateSigned" CertificateSignedRequest
  CertificateSignedResponse.
Definition SecurityEventNotificationFeature : message_feature := mkMessageFeature "SecurityEventNotification"
  SecurityEventNotificationRequest SecurityEventNotificationResponse.
Definition SignCertificateFeature : message_feature := mkMessageFeature "SignCertificate" SignCertificateRequest
  SignCertificateResponse.
Definition registrations : list (string * validator) := [("certificateSignedStatus16",
  isValidCertificateSignedStatus)].
Definition enums : list goenum := [CertificateSignedStatus].
Definition structs : list gotype := [CertificateSignedRequest; CertificateSignedResponse;
  SecurityEventNotificationRequest; SecurityEventNotificationResponse; SignCertificateRequest;
  SignCertificateResponse].
Definition constructors : list constructor := [NewCertificateSignedRequest; NewCertificateSignedResponse;
  NewSecurityEventNotificationRequest; NewSecurityEventNotificationResponse; NewSignCertificateRequest;
  NewSignCertificateResponse].
Definition features : list message_feature := [CertificateSignedFeature; SecurityEventNotificationFeature;
  SignCertificateFeature].
End security.

(** *** Package extendedtriggermessage *)

Module extendedtriggermessage.
Definition ExtendedTriggerMessageType : goenum := mkEnum "extendedtriggermessage.ExtendedTriggerMessageType"
  ["BootNotification"; "LogStatusNotification"; "Heartbeat"; "MeterValues"; "SignChargePointCertificate";
  "FirmwareStatusNotification"; "StatusNotification"].
Definition ExtendedTriggerMessageStatus : goenum := mkEnum "extendedtriggermessage.ExtendedTriggerMessageStatus"
  ["Accepted"; "Rejected"; "NotImplemented"].
Definition isValidExtendedTriggerMessageType : validator := mkValidator
  "extendedtriggermessage.ExtendedTriggerMessageType" ["BootNotification"; "LogStatusNotification"; "Heartbeat";
  "MeterValues"; "SignChargePointCertificate"; "FirmwareStatusNotification"; "StatusNotification"].
Definition isValidExtendedTriggerMessageStatus : validator := mkValidator
  "extendedtriggermessage.ExtendedTriggerMessageStatus" ["Accepted"; "Rejected"; "NotImplemented"].
Definition ExtendedTriggerMessageRequest : gotype := TStruct "extendedtriggermessage.ExtendedTriggerMessageRequest"
  [(mkField "RequestedMessage" "requestedMessage" false [Required; Custom "extendedTriggerMessageType"], TEnum "extendedtriggermessage.ExtendedTriggerMessageType");
   (mkField "ConnectorId" "connectorId" true [Omitempty; Gte 0], TPtr TInt)].
Definition ExtendedTriggerMessageResponse : gotype := TStruct "extendedtriggermessage.ExtendedTriggerMessageResponse"
  [(mkField "Status" "status" false [Required; Custom "extendedTriggerMessageStatus"], TEnum "extendedtriggermessage.ExtendedTriggerMessageStatus")].
Definition NewExtendedTriggerMessageRequest : constructor := mkCtor ExtendedTriggerMessageRequest [TEnum
  "extendedtriggermessage.ExtendedTriggerMessageType"] [("RequestedMessage", Arg 0)].
Definition NewExtendedTriggerMessageResponse : constructor := mkCtor ExtendedTriggerMessageResponse [TEnum
  "extendedtriggermessage.ExtendedTriggerMessageStatus"] [("Status", Arg 0)].
Definition ExtendedTriggerMessageFeature : message_feature := mkMessageFeature "ExtendedTriggerMessage"
  ExtendedTriggerMessageRequest ExtendedTriggerMessageResponse.
Definition registrations : list (string * validator) := [("extendedTriggerMessageType",
  isValidExtendedTriggerMessageType); ("extendedTriggerMessageStatus", isValidExtendedTriggerMessageStatus)].
Definition enums : list goenum := [ExtendedTriggerMessageType; ExtendedTriggerMessageStatus].
Definition structs : list gotype := [ExtendedTriggerMessageRequest; ExtendedTriggerMessageResponse].
Definition constructors : list constructor := [NewExtendedTriggerMessageRequest; NewExtendedTriggerMessageResponse].
Definition features : list message_feature := [ExtendedTriggerMessageFeature].
End extendedtriggermessage.

(** *** Package certificates *)

Module certificates.
Definition DeleteCertificateStatus : goenum := mkEnum "certificates.DeleteCertificateStatus" ["Accepted"; "Failed";
  "NotFound"].
Definition GetInstalledCertificateStatus : goenum := mkEnum "certificates.GetInstalledCertificateStatus" ["Accepted";
  "NotFound"].
Definition InstallCertificateStatus : goenum := mkEnum "certificates.InstallCertificateStatus" ["Accepted";
  "Rejected"; "Failed"].
Definition isValidDeleteCertificateStatus : validator := mkValidator "certificates.DeleteCertificateStatus"
  ["Accepted"; "Failed"; "NotFound"].
Definition isValidGetInstalledCertificateStatus : validator := mkValidator
  "certificates.GetInstalledCertificateStatus" ["Accepted"; "NotFound"].
Definition isValidInstallCertificateStatus : validator := mkValidator "certificates.InstallCertificateStatus"
  ["Accepted"; "Rejected"; "Failed"].
Definition DeleteCertificateRequest : gotype := TStruct "certificates.DeleteCertificateRequest"
  [(mkField "CertificateHashData" "certificateHashData" false [Required], types.CertificateHashData)].
Definition DeleteCertificateResponse : gotype := TStruct "certificates.DeleteCertificateResponse"
  [(mkField "Status" "status" false [Required; Custom "deleteCertificateStatus16"], TEnum "certificates.DeleteCertificateStatus")].
Definition GetInstalledCertificateIdsRequest : gotype := TStruct "certificates.GetInstalledCertificateIdsRequest"
  [(mkField "CertificateType" "certificateType" false [Required; Custom "certificateUse16"], TEnum "types.CertificateUse")].
Definition GetInstalledCertificateIdsResponse : gotype := TStruct "certificates.GetInstalledCertificateIdsResponse"
  [(mkField "Status" "status" false [Required; Custom "getInstalledCertificateStatus16"], TEnum "certificates.GetInstalledCertificateStatus");
   (mkField "CertificateHashData" "certificateHashData" true [Omitempty; Dive], TSlice types.CertificateHashData)].
Definition InstallCertificateRequest : gotype := TStruct "certificates.InstallCertificateRequest"
  [(mkField "CertificateType" "certificateType" false [Required; Custom "certificateUse16"], TEnum "types.CertificateUse");
   (mkField "Certificate" "certificate" false [Required; Max 5500], TString)].
Definition InstallCertificateResponse : gotype := TStruct "certificates.InstallCertificateResponse"
  [(mkField "Status" "status" false [Required; Custom "installCertificateStatus16"], TEnum "certificates.InstallCertificateStatus")].
Definition NewDeleteCertificateRequest : constructor := mkCtor DeleteCertificateRequest [types.CertificateHashData]
  [("CertificateHashData", Arg 0)].
Definition NewDeleteCertificateResponse : constructor := mkCtor DeleteCertificateResponse [TEnum
  "certificates.DeleteCertificateStatus"] [("Status", Arg 0)].
Definition NewGetInstalledCertificateIdsRequest : constructor := mkCtor GetInstalledCertificateIdsRequest [TEnum
  "types.CertificateUse"] [("CertificateType", Arg 0)].
Definition NewGetInstalledCertificateIdsResponse : constructor := mkCtor GetInstalledCertificateIdsResponse [TEnum
  "certificates.GetInstalledCertificateStatus"] [("Status", Arg 0)].
Definition NewInstallCertificateRequest : constructor := mkCtor InstallCertificateRequest [TEnum
  "types.CertificateUse"; TString] [("CertificateType", Arg 0); ("Certificate", Arg 1)].
Definition NewInstallCertificateResponse : constructor := mkCtor InstallCertificateResponse [TEnum
  "certificates.InstallCertificateStatus"] [("Status", Arg 0)].
Definition DeleteCertificateFeature : message_feature := mkMessageFeature "DeleteCertificate" DeleteCertificateRequest
  DeleteCertificateResponse.
Definition GetInstalledCertificateIdsFeature : message_feature := mkMessageFeature "GetInstalledCertificateIds"
  GetInstalledCertificateIdsRequest GetInstalledCertificateIdsResponse.
Definition InstallCertificateFeature : message_feature := mkMessageFeature "InstallCertificate"
  InstallCertificateRequest InstallCertificateResponse.
Definition registrations : list (string * validator) := [("deleteCertificateStatus16",
  isValidDeleteCertificateStatus); ("getInstalledCertificateStatus16", isValidGetInstalledCertificateStatus);
  ("installCertificateStatus16", isValidInstallCertificateStatus)].
Definition enums : list goenum := [DeleteCertificateStatus; GetInstalledCertificateStatus; InstallCertificateStatus].
Definition structs : list gotype := [DeleteCertificateRequest; DeleteCertificateResponse;
  GetInstalledCertificateIdsRequest; GetInstalledCertificateIdsResponse; InstallCertificateRequest;
  InstallCertificateResponse].
Definition constructors : list constructor := [NewDeleteCertificateRequest; NewDeleteCertificateResponse;
  NewGetInstalledCertificateIdsRequest; NewGetInstalledCertificateIdsResponse; NewInstallCertificateRequest;
  NewInstallCertificateResponse].
Definition features : list message_feature := [DeleteCertificateFeature; GetInstalledCertificateIdsFeature;
  InstallCertificateFeature].
End certificates.

(** *** Package securefirmware *)

Module securefirmware.
Definition UpdateFirmwareStatus : goenum := mkEnum "securefirmware.UpdateFirmwareStatus" ["Accepted"; "Rejected";
  "AcceptedCanceled"; "InvalidCertificate"; "RevokedCertificate"].
Definition FirmwareStatus : goenum := mkEnum "securefirmware.FirmwareStatus" ["Downloaded"; "DownloadFailed";
  "Downloading"; "DownloadScheduled"; "DownloadPaused"; "Idle"; "InstallationFailed"; "Installing"; "Installed";
  "InstallRebooting"; "InstallScheduled"; "InstallVerificationFailed"; "InvalidSignature"; "SignatureVerified";
  "CertificateVerified"; "InvalidCertificate"; "RevokedCertificate"].
Definition isValidUpdateFirmwareStatus : validator := mkValidator "securefirmware.UpdateFirmwareStatus" ["Accepted";
  "Rejected"; "AcceptedCanceled"; "InvalidCertificate"; "RevokedCertificate"].
Definition isValidFirmwareStatus : validator := mkValidator "securefirmware.FirmwareStatus" ["Downloaded";
  "DownloadFailed"; "Downloading"; "DownloadScheduled"; "DownloadPaused"; "Idle"; "InstallationFailed"; "Installing";
  "Installed"; "InstallRebooting"; "InstallScheduled"; "InstallVerificationFailed"; "InvalidSignature";
  "SignatureVerified"].
Definition Firmware : gotype := TStruct "securefirmware.Firmware"
  [(mkField "Location" "location" false [Required; Max 512; Uri], TString);
   (mkField "RetrieveDateTime" "retrieveDateTime" false [Required], TPtr TDateTime);
   (mkField "InstallDateTime" "installDateTime" true [Omitempty], TPtr TDateTime);
   (mkField "SigningCertificate" "signingCertificate" true [Max 5500], TString);
   (mkField "Signature" "signature" true [Max 800], TString)].
Definition SignedUpdateFirmwareRequest : gotype := TStruct "securefirmware.SignedUpdateFirmwareRequest"
  [(mkField "Retries" "retries" true [Omitempty; Gte 0], TPtr TInt);
   (mkField "RetryInterval" "retryInterval" true [Omitempty; Gte 0], TPtr TInt);
   (mkField "RequestID" "requestId" false [Gte 0], TInt);
   (mkField "Firmware" "firmware" false [Required], Firmware)].
Definition SignedUpdateFirmwareResponse : gotype := TStruct "securefirmware.SignedUpdateFirmwareResponse"
  [(mkField "Status" "status" false [Required; Custom "signedUpdateFirmwareStatus"], TEnum "securefirmware.UpdateFirmwareStatus")].
Definition SignedFirmwareStatusNotificationRequest : gotype := TStruct "securefirmware.SignedFirmwareStatusNotificationRequest"
  [(mkField "Status" "status" false [Required; Custom "signedFirmwareStatus"], TEnum "securefirmware.FirmwareStatus");
   (mkField "RequestID" "requestId" true [Omitempty; Gte 0], TPtr TInt)].
Definition SignedFirmwareStatusNotificationResponse : gotype := TStruct "securefirmware.SignedFirmwareStatusNotificationResponse" [].
Definition NewSignedUpdateFirmwareRequest : constructor := mkCtor SignedUpdateFirmwareRequest [TInt; Firmware]
  [("RequestID", Arg 0); ("Firmware", Arg 1)].
Definition NewSignedUpdateFirmwareResponse : constructor := mkCtor SignedUpdateFirmwareResponse [TEnum
  "securefirmware.UpdateFirmwareStatus"] [("Status", Arg 0)].
Definition NewFirmwareStatusNotificationRequest : constructor := mkCtor SignedFirmwareStatusNotificationRequest [TEnum
  "securefirmware.FirmwareStatus"] [("Status", Arg 0)].
Definition NewFirmwareStatusNotificationResponse : constructor := mkCtor SignedFirmwareStatusNotificationResponse []
  [].
Definition SignedUpdateFirmwareFeature : message_feature := mkMessageFeature "SignedUpdateFirmware"
  SignedUpdateFirmwareRequest SignedUpdateFirmwareResponse.
Definition SignedFirmwareStatusNotificationFeature : message_feature := mkMessageFeature
  "SignedFirmwareStatusNotification" SignedFirmwareStatusNotificationRequest SignedFirmwareStatusNotificationResponse.
Definition registrations : list (string * validator) := [("signedUpdateFirmwareStatus", isValidUpdateFirmwareStatus);
  ("signedFirmwareStatus", isValidFirmwareStatus)].
Definition enums : list goenum := [UpdateFirmwareStatus; FirmwareStatus].
Definition structs : list gotype := [Firmware; SignedUpdateFirmwareRequest; SignedUpdateFirmwareResponse;
  SignedFirmwareStatusNotificationRequest; SignedFirmwareStatusNotificationResponse].
Definition constructors : list constructor := [NewSignedUpdateFirmwareRequest; NewSignedUpdateFirmwareResponse;
  NewFirmwareStatusNotificationRequest; NewFirmwareStatusNotificationResponse].
Definition features : list message_feature := [SignedUpdateFirmwareFeature; SignedFirmwareStatusNotificationFeature].
End securefirmware.

Definition enums : list goenum := concat [types.enums; core.enums; localauth.enums; firmware.enums; reservation.enums;
  remotetrigger.enums; smartcharging.enums; logging.enums; security.enums; extendedtriggermessage.enums;
  certificates.enums; securefirmware.enums].
Definition structs : list gotype := concat [types.structs; core.structs; localauth.structs; firmware.structs;
  reservation.structs; remotetrigger.structs; smartcharging.structs; logging.structs; security.structs;
  extendedtriggermessage.structs; certificates.structs; securefirmware.structs].
Definition constructors : list constructor := concat [types.constructors; core.constructors; localauth.constructors;
  firmware.constructors; reservation.constructors; remotetrigger.constructors; smartcharging.constructors;
  logging.constructors; security.constructors; extendedtriggermessage.constructors; certificates.constructors;
  securefirmware.constructors].
Definition features : list message_feature := concat [types.features; core.features; localauth.features;
  firmware.features; reservation.features; remotetrigger.features; smartcharging.features; logging.features;
  security.features; extendedtriggermessage.features; certificates.features; securefirmware.features].
Definition registrations : list (string * validator) := concat [types.registrations; core.registrations;
  localauth.registrations; firmware.registrations; reservation.registrations; remotetrigger.registrations;
  smartcharging.registrations; logging.registrations; security.registrations; extendedtriggermessage.registrations;
  certificates.registrations; securefirmware.registrations].
