(* ===== verification/Messages201.v ===== *)
(** * The messages of OCPP 2.0.1 (src/ocpp2.0.1)

    For each package its string types with their constants, the functions
    registered as validators of these types, the structs with their tags, the
    constructors and the features.  [types.DateTime] and [types.CustomData] are types of their own
    ([GoTypes]). *)

From S2P Require Import Prelude Ocpp GoTypes Schema.
Local Open Scope string_scope.
Local Open Scope list_scope.

(** *** Package types *)

Module types.
Definition Certificate15118EVStatus : goenum := mkEnum "types.Certificate15118EVStatus" ["Accepted"; "Failed"].
Definition CertificateUse : goenum := mkEnum "types.CertificateUse" ["V2GRootCertificate"; "MORootCertificate";
  "CSOSubCA1"; "CSOSubCA2"; "CSMSRootCertificate"; "V2GCertificateChain"; "ManufacturerRootCertificate"].
Definition SignatureMethod : goenum := mkEnum "types.SignatureMethod" ["ECDSAP256SHA256"; "ECDSAP384SHA384";
  "ECDSA192SHA256"].
Definition EncodingMethod : goenum := mkEnum "types.EncodingMethod" ["Other"; "DLMS Message"; "COSEM Protected Data";
  "EDL"].
Definition AttributeType : goenum := mkEnum "types.AttributeType" ["Actual"; "Target"; "MinSet"; "MaxSet"].
Definition AuthorizationStatusType : goenum := mkEnum "types.AuthorizationStatusType" ["Accepted"; "Blocked";
  "ConcurrentTx"; "Expired"; "Invalid"; "NoCredit"; "NotAllowedTypeEVSE"; "NotAtThisLocation"; "NotAtThisTime";
  "Unknown"].
Definition CertificateSigningUseType : goenum := mkEnum "types.CertificateSigningUseType"
  ["ChargingStationCertificate"; "V2GCertificate"].
Definition ChargingLimitSourceType : goenum := mkEnum "types.ChargingLimitSourceType" ["EMS"; "Other"; "SO"; "CSO"].
Definition ChargingProfileKindType : goenum := mkEnum "types.ChargingProfileKindType" ["Absolute"; "Recurring";
  "Relative"].
Definition ChargingProfilePurposeType : goenum := mkEnum "types.ChargingProfilePurposeType"
  ["ChargingStationExternalConstraints"; "ChargingStationMaxProfile"; "TxDefaultProfile"; "TxProfile"].
Definition ChargingRateUnitType : goenum := mkEnum "types.ChargingRateUnitType" ["W"; "A"].
Definition CostKindType : goenum := mkEnum "types.CostKindType" ["CarbonDioxideEmission"; "RelativePricePercentage";
  "RenewableGenerationPercentage"].
Definition GenericDeviceModelStatusType : goenum := mkEnum "types.GenericDeviceModelStatusType" ["Accepted";
  "Rejected"; "NotSupported"; "EmptyResultSet"].
Definition GenericStatusType : goenum := mkEnum "types.GenericStatusType" ["Accepted"; "Rejected"].
Definition HashAlgorithmType : goenum := mkEnum "types.HashAlgorithmType" ["SHA256"; "SHA384"; "SHA512"].
Definition IDTokenType : goenum := mkEnum "types.IDTokenType" ["Central"; "eMAID"; "ISO14443"; "ISO15693"; "KeyCode";
  "Local"; "MacAddress"; "NoAuthorization"].
Definition LocationType : goenum := mkEnum "types.LocationType" ["Body"; "Cable"; "EV"; "Inlet"; "Outlet"].
Definition MeasurandType : goenum := mkEnum "types.MeasurandType" ["Current.Export"; "Current.Import";
  "Current.Offered"; "Energy.Active.Export.Register"; "Energy.Active.Import.Register";
  "Energy.Reactive.Export.Register"; "Energy.Reactive.Import.Register"; "Energy.Active.Export.Interval";
  "Energy.Active.Import.Interval"; "Energy.Active.Net"; "Energy.Reactive.Export.Interval";
  "Energy.Reactive.Import.Interval"; "Energy.Reactive.Net"; "Energy.Apparent.Net"; "Energy.Apparent.Import";
  "Energy.Apparent.Export"; "Frequency"; "Power.Active.Export"; "Power.Active.Import"; "Power.Factor";
  "Power.Offered"; "Power.Reactive.Export"; "Power.Reactive.Import"; "SoC"; "Voltage"].
Definition MessageFormatType : goenum := mkEnum "types.MessageFormatType" ["ASCII"; "HTML"; "URI"; "UTF8"].
Definition MessagePriorityType : goenum := mkEnum "types.MessagePriorityType" ["AlwaysFront"; "InFront";
  "NormalCycle"].
Definition MessageStateType : goenum := mkEnum "types.MessageStateType" ["Charging"; "Faulted"; "Idle";
  "Unavailable"].
Definition MonitorType : goenum := mkEnum "types.MonitorType" ["UpperThreshold"; "LowerThreshold"; "Delta";
  "Periodic"; "PeriodicClockAligned"].
Definition PhaseType : goenum := mkEnum "types.PhaseType" ["L1"; "L2"; "L3"; "N"; "L1-N"; "L2-N"; "L3-N"; "L1-L2";
  "L2-L3"; "L3-L1"].
Definition ReadingContextType : goenum := mkEnum "types.ReadingContextType" ["Interruption.Begin"; "Interruption.End";
  "Other"; "Sample.Clock"; "Sample.Periodic"; "Transaction.Begin"; "Transaction.End"; "Trigger"].
Definition RecurrencyKindType : goenum := mkEnum "types.RecurrencyKindType" ["Daily"; "Weekly"].
Definition RequestStartStopStatusType : goenum := mkEnum "types.RequestStartStopStatusType" ["Accepted"; "Rejected"].
Definition isValidCertificate15118EVStatus : validator := mkValidator "types.Certificate15118EVStatus" ["Accepted";
  "Failed"].
Definition isValidCertificateUse : validator := mkValidator "types.CertificateUse" ["V2GRootCertificate";
  "MORootCertificate"; "CSOSubCA1"; "CSOSubCA2"; "CSMSRootCertificate"; "V2GCertificateChain";
  "ManufacturerRootCertificate"].
Definition isValidSignatureMethod : validator := mkValidator "types.SignatureMethod" ["ECDSA192SHA256";
  "ECDSAP256SHA256"; "ECDSAP384SHA384"].
Definition isValidEncodingMethod : validator := mkValidator "types.EncodingMethod" ["COSEM Protected Data"; "EDL";
  "DLMS Message"; "Other"].
Definition isValidAttributeType : validator := mkValidator "types.AttributeType" ["Actual"; "Target"; "MinSet";
  "MaxSet"].
Definition isValidAuthorizationStatusType : validator := mkValidator "types.AuthorizationStatusType" ["Accepted";
  "Blocked"; "ConcurrentTx"; "Expired"; "Invalid"; "NoCredit"; "NotAllowedTypeEVSE"; "NotAtThisLocation";
  "NotAtThisTime"; "Unknown"].
Definition isValidCertificateSigningUseType : validator := mkValidator "types.CertificateSigningUseType"
  ["ChargingStationCertificate"; "V2GCertificate"].
Definition isValidChargingLimitSourceType : validator := mkValidator "types.ChargingLimitSourceType" ["EMS"; "Other";
  "SO"; "CSO"].
Definition isValidChargingProfileKindType : validator := mkValidator "types.ChargingProfileKindType" ["Absolute";
  "Recurring"; "Relative"].
Definition isValidChargingProfilePurposeType : validator := mkValidator "types.ChargingProfilePurposeType"
  ["ChargingStationExternalConstraints"; "ChargingStationMaxProfile"; "TxDefaultProfile"; "TxProfile"].
Definition isValidChargingRateUnitType : validator := mkValidator "types.ChargingRateUnitType" ["W"; "A"].
Definition isValidCostKindType : validator := mkValidator "types.CostKindType" ["CarbonDioxideEmission";
  "RelativePricePercentage"; "RenewableGenerationPercentage"].
Definition isValidGenericDeviceModelStatusType : validator := mkValidator "types.GenericDeviceModelStatusType"
  ["Accepted"; "Rejected"; "NotSupported"; "EmptyResultSet"].
Definition isValidGenericStatusType : validator := mkValidator "types.GenericStatusType" ["Accepted"; "Rejected"].
Definition isValidHashAlgorithmType : validator := mkValidator "types.HashAlgorithmType" ["SHA256"; "SHA384";
  "SHA512"].
Definition isValidIDTokenType : validator := mkValidator "types.IDTokenType" ["Central"; "eMAID"; "ISO14443";
  "ISO15693"; "KeyCode"; "Local"; "MacAddress"; "NoAuthorization"].
Definition isValidLocationType : validator := mkValidator "types.LocationType" ["Body"; "Cable"; "EV"; "Inlet";
  "Outlet"].
Definition isValidMeasurandType : validator := mkValidator "types.MeasurandType" ["Current.Export"; "Current.Import";
  "Current.Offered"; "Energy.Active.Export.Register"; "Energy.Active.Import.Register";
  "Energy.Reactive.Export.Register"; "Energy.Reactive.Import.Register"; "Energy.Active.Export.Interval";
  "Energy.Active.Import.Interval"; "Energy.Active.Net"; "Energy.Reactive.Export.Interval";
  "Energy.Reactive.Import.Interval"; "Energy.Reactive.Net"; "Energy.Apparent.Net"; "Energy.Apparent.Import";
  "Energy.Apparent.Export"; "Frequency"; "Power.Active.Export"; "Power.Active.Import"; "Power.Factor";
  "Power.Offered"; "Power.Reactive.Export"; "Power.Reactive.Import"; "SoC"; "Voltage"].
Definition isValidMessageFormatType : validator := mkValidator "types.MessageFormatType" ["ASCII"; "HTML"; "URI";
  "UTF8"].
Definition isValidMessagePriorityType : validator := mkValidator "types.MessagePriorityType" ["AlwaysFront";
  "InFront"; "NormalCycle"].
Definition isValidMessageStateType : validator := mkValidator "types.MessageStateType" ["Charging"; "Faulted"; "Idle";
  "Unavailable"].
Definition isValidMonitorType : validator := mkValidator "types.MonitorType" ["UpperThreshold"; "LowerThreshold";
  "Delta"; "Periodic"; "PeriodicClockAligned"].
Definition isValidPhaseType : validator := mkValidator "types.PhaseType" ["L1"; "L2"; "L3"; "N"; "L1-N"; "L2-N";
  "L3-N"; "L1-L2"; "L2-L3"; "L3-L1"].
Definition isValidReadingContextType : validator := mkValidator "types.ReadingContextType" ["Interruption.Begin";
  "Interruption.End"; "Other"; "Sample.Clock"; "Sample.Periodic"; "Transaction.Begin"; "Transaction.End"; "Trigger"].
Definition isValidRecurrencyKindType : validator := mkValidator "types.RecurrencyKindType" ["Daily"; "Weekly"].
Definition isValidRequestStartStopStatusType : validator := mkValidator "types.RequestStartStopStatusType"
  ["Accepted"; "Rejected"].
Definition CertificateHashData : gotype := TStruct "types.CertificateHashData"
  [(mkField "CustomData" "customData" true [Omitempty], TPtr TCustomData);
   (mkField "HashAlgorithm" "hashAlgorithm" false [Required; Custom "hashAlgorithmType201"], TEnum "types.HashAlgorithmType");
   (mkField "IssuerNameHash" "issuerNameHash" false [Required; Max 128], TString);
   (mkField "IssuerKeyHash" "issuerKeyHash" false [Required; Max 128], TString);
   (mkField "SerialNumber" "serialNumber" false [Required; Max 40], TString)].
Definition CertificateHashDataChain : gotype := TStruct "types.CertificateHashDataChain"
  [(mkField "CertificateType" "certificateType" false [Required; Custom "certificateUse"], TEnum "types.CertificateUse");
   (mkField "CertificateHashData" "certificateHashData" false [Required], CertificateHashData);
   (mkField "ChildCertificateHashData" "childCertificateHashData" true [Omitempty; Dive], TSlice CertificateHashData)].
Definition AdditionalInfo : gotype := TStruct "types.AdditionalInfo"
  [(mkField "CustomData" "customData" true [Omitempty], TPtr TCustomData);
   (mkField "AdditionalIDToken" "additionalIdToken" false [Required; Max 36], TString);
   (mkField "Type" "type" false [Required; Max 50], TString)].
Definition ChargingSchedulePeriod : gotype := TStruct "types.ChargingSchedulePeriod"
  [(mkField "CustomData" "customData" true [Omitempty], TPtr TCustomData);
   (mkField "StartPeriod" "startPeriod" false [Required], TInt);
   (mkField "Limit" "limit" false [Required], TFloat);
   (mkField "NumberPhases" "numberPhases" true [Omitempty], TPtr TInt);
   (mkField "PhaseToUse" "phaseToUse" true [Omitempty], TPtr TInt)].
Definition Cost : gotype := TStruct "types.Cost"
  [(mkField "CustomData" "customData" true [Omitempty], TPtr TCustomData);
   (mkField "CostKind" "costKind" false [Required; Custom "costKindType201"], TEnum "types.CostKindType");
   (mkField "Amount" "amount" false [Required], TInt);
   (mkField "AmountMultiplier" "amountMultiplier" true [Omitempty], TPtr TInt)].
Definition ConsumptionCost : gotype := TStruct "types.ConsumptionCost"
  [(mkField "CustomData" "customData" true [Omitempty], TPtr TCustomData);
   (mkField "StartValue" "startValue" false [Required], TFloat);
   (mkField "Cost" "cost" false [Required; Min 1; Max 3; Dive], TSlice Cost)].
Definition RelativeTimeInterval : gotype := TStruct "types.RelativeTimeInterval"
  [(mkField "CustomData" "customData" true [Omitempty], TPtr TCustomData);
   (mkField "Start" "start" false [Required], TInt);
   (mkField "Duration" "duration" true [Omitempty], TPtr TInt)].
Definition SalesTariffEntry : gotype := TStruct "types.SalesTariffEntry"
  [(mkField "CustomData" "customData" true [Omitempty], TPtr TCustomData);
   (mkField "RelativeTimeInterval" "relativeTimeInterval" false [Required], RelativeTimeInterval);
   (mkField "EPriceLevel" "ePriceLevel" true [Omitempty; Gte 0], TPtr TInt);
   (mkField "ConsumptionCost" "consumptionCost" true [Omitempty; Min 1; Max 3; Dive], TSlice ConsumptionCost)].
Definition SalesTariff : gotype := TStruct "types.SalesTariff"
  [(mkField "CustomData" "customData" true [Omitempty], TPtr TCustomData);
   (mkField "ID" "id" false [Required], TInt);
   (mkField "SalesTariffDescription" "salesTariffDescription" true [Omitempty; Max 32], TString);
   (mkField "NumEPriceLevels" "numEPriceLevels" true [Omitempty], TPtr TInt);
   (mkField "SalesTariffEntry" "salesTariffEntry" false [Required; Min 1; Max 1024; Dive], TSlice SalesTariffEntry)].
Definition ChargingSchedule : gotype := TStruct "types.ChargingSchedule"
  [(mkField "CustomData" "customData" true [Omitempty], TPtr TCustomData);
   (mkField "ID" "id" false [Required], TInt);
   (mkField "StartSchedule" "startSchedule" true [Omitempty], TPtr TDateTime);
   (mkField "Duration" "duration" true [Omitempty], TPtr TInt);
   (mkField "ChargingRateUnit" "chargingRateUnit" false [Required; Custom "chargingRateUnitType201"], TEnum "types.ChargingRateUnitType");
   (mkField "ChargingSchedulePeriod" "chargingSchedulePeriod" false [Required; Min 1; Max 1024; Dive], TSlice ChargingSchedulePeriod);
   (mkField "MinChargingRate" "minChargingRate" true [Omitempty], TPtr TFloat);
   (mkField "SalesTariff" "salesTariff" true [Omitempty], TPtr SalesTariff)].
Definition ChargingProfile : gotype := TStruct "types.ChargingProfile"
  [(mkField "CustomData" "customData" true [Omitempty], TPtr TCustomData);
   (mkField "ID" "id" false [Required], TInt);
   (mkField "StackLevel" "stackLevel" false [Required], TInt);
   (mkField "ChargingProfilePurpose" "chargingProfilePurpose" false [Required; Custom "chargingProfilePurposeType201"], TEnum "types.ChargingProfilePurposeType");
   (mkField "ChargingProfileKind" "chargingProfileKind" false [Required; Custom "chargingProfileKindType201"], TEnum "types.ChargingProfileKindType");
   (mkField "RecurrencyKind" "recurrencyKind" true [Omitempty; Custom "recurrencyKindType201"], TEnum "types.RecurrencyKindType");
   (mkField "ValidFrom" "validFrom" true [Omitempty], TPtr TDateTime);
   (mkField "ValidTo" "validTo" true [Omitempty], TPtr TDateTime);
   (mkField "ChargingSchedule" "chargingSchedule" false [Required; Min 1; Max 3; Dive], TSlice ChargingSchedule);
   (mkField "TransactionID" "transactionId" true [Omitempty; Max 36], TString)].
Definition EVSE : gotype := TStruct "types.EVSE"
  [(mkField "CustomData" "customData" true [Omitempty], TPtr TCustomData);
   (mkField "ID" "id" false [Required], TInt);
   (mkField "ConnectorID" "connectorId" true [Omitempty], TPtr TInt)].
Definition Component : gotype := TStruct "types.Component"
  [(mkField "CustomData" "customData" true [Omitempty], TPtr TCustomData);
   (mkField "EVSE" "evse" true [Omitempty], TPtr EVSE);
   (mkField "Name" "name" false [Required; Max 50], TString);
   (mkField "Instance" "instance" true [Omitempty; Max 50], TString)].
Definition Variable_ : gotype := TStruct "types.Variable"
  [(mkField "CustomData" "customData" true [Omitempty], TPtr TCustomData);
   (mkField "Name" "name" false [Required; Max 50], TString);
   (mkField "Instance" "instance" true [Omitempty; Max 50], TString)].
Definition ComponentVariable : gotype := TStruct "types.ComponentVariable"
  [(mkField "CustomData" "customData" true [Omitempty], TPtr TCustomData);
   (mkField "Component" "component" false [Required], Component);
   (mkField "Variable" "variable" true [Omitempty], TPtr Variable_)].
Definition IDToken : gotype := TStruct "types.IDToken"
  [(mkField "CustomData" "customData" true [Omitempty], TPtr TCustomData);
   (mkField "AdditionalInfo" "additionalInfo" true [Omitempty; Min 1; Dive], TSlice AdditionalInfo);
   (mkField "IDToken" "idToken" false [Required; Max 36], TString);
   (mkField "Type" "type" false [Required; Custom "idTokenType201"], TEnum "types.IDTokenType")].
Definition MessageContent : gotype := TStruct "types.MessageContent"
  [(mkField "CustomData" "customData" true [Omitempty], TPtr TCustomData);
   (mkField "Format" "format" false [Required; Custom "messageFormatType201"], TEnum "types.MessageFormatType");
   (mkField "Language" "language" true [Omitempty; Max 8], TString);
   (mkField "Content" "content" false [Required; Max 512], TString)].
Definition IDTokenInfo : gotype := TStruct "types.IDTokenInfo"
  [(mkField "CustomData" "customData" true [Omitempty], TPtr TCustomData);
   (mkField "Status" "status" false [Required; Custom "authorizationStatusType201"], TEnum "types.AuthorizationStatusType");
   (mkField "CacheExpiryDateTime" "cacheExpiryDateTime" true [Omitempty], TPtr TDateTime);
   (mkField "ChargingPriority" "chargingPriority" true [Omitempty], TPtr TInt);
   (mkField "Language1" "language1" true [Omitempty; Max 8], TString);
   (mkField "EVSEID" "evseId" true [Omitempty; Min 1], TSlice TInt);
   (mkField "GroupIDToken" "groupIdToken" true [Omitempty], TPtr IDToken);
   (mkField "Language2" "language2" true [Omitempty; Max 8], TString);
   (mkField "PersonalMessage" "personalMessage" true [Omitempty], TPtr MessageContent)].
Definition MessageInfo : gotype := TStruct "types.MessageInfo"
  [(mkField "CustomData" "customData" true [Omitempty], TPtr TCustomData);
   (mkField "Display" "display" true [Omitempty], TPtr Component);
   (mkField "ID" "id" false [Required], TInt);
   (mkField "Priority" "priority" false [Required; Custom "messagePriorityType201"], TEnum "types.MessagePriorityType");
   (mkField "State" "state" true [Omitempty; Custom "messageStateType201"], TEnum "types.MessageStateType");
   (mkField "StartDateTime" "startDateTime" true [Omitempty], TPtr TDateTime);
   (mkField "EndDateTime" "endDateTime" true [Omitempty], TPtr TDateTime);
   (mkField "TransactionID" "transactionId" true [Omitempty; Max 36], TString);
   (mkField "Message" "message" false [Required], MessageContent)].
Definition SignedMeterValue : gotype := TStruct "types.SignedMeterValue"
  [(mkField "CustomData" "customData" true [Omitempty], TPtr TCustomData);
   (mkField "SignedMeterData" "signedMeterData" false [Required; Max 2500], TString);
   (mkField "SigningMethod" "signingMethod" false [Required; Max 50], TString);
   (mkField "EncodingMethod" "encodingMethod" false [Required; Max 50], TString);
   (mkField "PublicKey" "publicKey" false [Required; Max 2500], TString)].
Definition UnitOfMeasure : gotype := TStruct "types.UnitOfMeasure"
  [(mkField "CustomData" "customData" true [Omitempty], TPtr TCustomData);
   (mkField "Unit" "unit" true [Omitempty; Max 20], TString);
   (mkField "Multiplier" "multiplier" true [Omitempty], TPtr TInt)].
Definition SampledValue : gotype := TStruct "types.SampledValue"
  [(mkField "CustomData" "customData" true [Omitempty], TPtr TCustomData);
   (mkField "Value" "value" false [Required], TFloat);
   (mkField "Context" "context" true [Omitempty; Custom "readingContextType201"], TEnum "types.ReadingContextType");
   (mkField "Measurand" "measurand" true [Omitempty; Custom "measurandType201"], TEnum "types.MeasurandType");
   (mkField "Phase" "phase" true [Omitempty; Custom "phaseType201"], TEnum "types.PhaseType");
   (mkField "Location" "location" true [Omitempty; Custom "locationType201"], TEnum "types.LocationType");
   (mkField "SignedMeterValue" "signedMeterValue" true [Omitempty], TPtr SignedMeterValue);
   (mkField "UnitOfMeasure" "unitOfMeasure" true [Omitempty], TPtr UnitOfMeasure)].
Definition MeterValue : gotype := TStruct "types.MeterValue"
  [(mkField "CustomData" "customData" true [Omitempty], TPtr TCustomData);
   (mkField "SampledValue" "sampledValue" false [Required; Min 1; Dive], TSlice SampledValue);
   (mkField "Timestamp" "timestamp" false [Required], TPtr TDateTime)].
Definition OCSPRequestData : gotype := TStruct "types.OCSPRequestData"
  [(mkField "CustomData" "customData" true [Omitempty], TPtr TCustomData);
   (mkField "HashAlgorithm" "hashAlgorithm" false [Required; Custom "hashAlgorithmType201"], TEnum "types.HashAlgorithmType");
   (mkField "IssuerNameHash" "issuerNameHash" false [Required; Max 128], TString);
   (mkField "IssuerKeyHash" "issuerKeyHash" false [Required; Max 128], TString);
   (mkField "SerialNumber" "serialNumber" false [Required; Max 40], TString);
   (mkField "ResponderURL" "responderURL" false [Required; Max 512], TString)].
Definition StatusInfo : gotype := TStruct "types.StatusInfo"
  [(mkField "CustomData" "customData" true [Omitempty], TPtr TCustomData);
   (mkField "ReasonCode" "reasonCode" false [Required; Max 20], TString);
   (mkField "AdditionalInfo" "additionalInfo" true [Omitempty; Max 512], TString)].
Definition NewAdditionalInfo : constructor := mkCtor AdditionalInfo [TString; TString] [("AdditionalIDToken", Arg 0);
  ("Type", Arg 1)].
Definition NewCertificateHashData : constructor := mkCtor CertificateHashData [TEnum "types.HashAlgorithmType";
  TString; TString; TString] [("HashAlgorithm", Arg 0); ("IssuerNameHash", Arg 1); ("IssuerKeyHash", Arg 2);
  ("SerialNumber", Arg 3)].
Definition NewChargingProfile : constructor := mkCtor ChargingProfile [TInt; TInt; TEnum
  "types.ChargingProfilePurposeType"; TEnum "types.ChargingProfileKindType"; TSlice ChargingSchedule] [("ID", Arg 0);
  ("StackLevel", Arg 1); ("ChargingProfilePurpose", Arg 2); ("ChargingProfileKind", Arg 3); ("ChargingSchedule", Arg
  4)].
Definition NewChargingSchedule : constructor := mkCtor ChargingSchedule [TInt; TEnum "types.ChargingRateUnitType";
  TSlice ChargingSchedulePeriod] [("ID", Arg 0); ("ChargingRateUnit", Arg 1); ("ChargingSchedulePeriod", Arg 2)].
Definition NewChargingSchedulePeriod : constructor := mkCtor ChargingSchedulePeriod [TInt; TFloat] [("StartPeriod",
  Arg 0); ("Limit", Arg 1)].
Definition NewComponent : constructor := mkCtor Component [TString] [("Name", Arg 0)].
Definition NewComponentVariable : constructor := mkCtor ComponentVariable [Component] [("Component", Arg 0)].
Definition NewConsumptionCost : constructor := mkCtor ConsumptionCost [TFloat; TSlice Cost] [("StartValue", Arg 0);
  ("Cost", Arg 1)].
Definition NewCost : constructor := mkCtor Cost [TEnum "types.CostKindType"; TInt] [("CostKind", Arg 0); ("Amount",
  Arg 1)].
Definition NewEVSE : constructor := mkCtor EVSE [TInt] [("ID", Arg 0)].
Definition NewIDToken : constructor := mkCtor IDToken [TString; TEnum "types.IDTokenType"] [("IDToken", Arg 0);
  ("Type", Arg 1)].
Definition NewIDTokenInfo : constructor := mkCtor IDTokenInfo [TEnum "types.AuthorizationStatusType"] [("Status", Arg
  0)].
Definition NewMessageContent : constructor := mkCtor MessageContent [TEnum "types.MessageFormatType"; TString]
  [("Format", Arg 0); ("Content", Arg 1)].
Definition NewMessageInfo : constructor := mkCtor MessageInfo [TInt; TEnum "types.MessagePriorityType";
  MessageContent] [("ID", Arg 0); ("Priority", Arg 1); ("Message", Arg 2)].
Definition NewMeterValue : constructor := mkCtor MeterValue [TSlice SampledValue; TPtr TDateTime] [("SampledValue",
  Arg 0); ("Timestamp", Arg 1)].
Definition NewOCSPRequestData : constructor := mkCtor OCSPRequestData [TEnum "types.HashAlgorithmType"; TString;
  TString; TString; TString] [("HashAlgorithm", Arg 0); ("IssuerNameHash", Arg 1); ("IssuerKeyHash", Arg 2);
  ("SerialNumber", Arg 3); ("ResponderURL", Arg 4)].
Definition NewRelativeTimeInterval : constructor := mkCtor RelativeTimeInterval [TInt] [("Start", Arg 0)].
Definition NewSalesTariff : constructor := mkCtor SalesTariff [TInt; TSlice SalesTariffEntry] [("ID", Arg 0);
  ("SalesTariffEntry", Arg 1)].
Definition NewSalesTariffEntry : constructor := mkCtor SalesTariffEntry [RelativeTimeInterval]
  [("RelativeTimeInterval", Arg 0)].
Definition NewSampledValue : constructor := mkCtor SampledValue [TFloat] [("Value", Arg 0)].
Definition NewSignedMeterValue : constructor := mkCtor SignedMeterValue [TString; TString; TString; TString]
  [("SignedMeterData", Arg 0); ("SigningMethod", Arg 1); ("EncodingMethod", Arg 2); ("PublicKey", Arg 3)].
Definition NewStatusInfo : constructor := mkCtor StatusInfo [TString] [("ReasonCode", Arg 0)].
Definition NewUnitOfMeasure : constructor := mkCtor UnitOfMeasure [] [].
Definition NewVariable : constructor := mkCtor Variable_ [TString] [("Name", Arg 0)].
Definition registrations : list (string * validator) := [("signatureMethod", isValidSignatureMethod);
  ("encodingMethod", isValidEncodingMethod); ("certificateUse", isValidCertificateUse); ("15118EVCertificate",
  isValidCertificate15118EVStatus); ("attributeType201", isValidAttributeType); ("authorizationStatusType201",
  isValidAuthorizationStatusType); ("certificateSigningUseType201", isValidCertificateSigningUseType);
  ("chargingLimitSourceType201", isValidChargingLimitSourceType); ("chargingProfileKindType201",
  isValidChargingProfileKindType); ("chargingProfilePurposeType201", isValidChargingProfilePurposeType);
  ("chargingRateUnitType201", isValidChargingRateUnitType); ("costKindType201", isValidCostKindType);
  ("genericDeviceModelStatusType201", isValidGenericDeviceModelStatusType); ("genericStatusType201",
  isValidGenericStatusType); ("hashAlgorithmType201", isValidHashAlgorithmType); ("idTokenType201",
  isValidIDTokenType); ("locationType201", isValidLocationType); ("measurandType201", isValidMeasurandType);
  ("messageFormatType201", isValidMessageFormatType); ("messagePriorityType201", isValidMessagePriorityType);
  ("messageStateType201", isValidMessageStateType); ("monitorType201", isValidMonitorType); ("phaseType201",
  isValidPhaseType); ("readingContextType201", isValidReadingContextType); ("recurrencyKindType201",
  isValidRecurrencyKindType); ("requestStartStopStatusType201", isValidRequestStartStopStatusType)].
Definition enums : list goenum := [Certificate15118EVStatus; CertificateUse; SignatureMethod; EncodingMethod;
  AttributeType; AuthorizationStatusType; CertificateSigningUseType; ChargingLimitSourceType; ChargingProfileKindType;
  ChargingProfilePurposeType; ChargingRateUnitType; CostKindType; GenericDeviceModelStatusType; GenericStatusType;
  HashAlgorithmType; IDTokenType; LocationType; MeasurandType; MessageFormatType; MessagePriorityType;
  MessageStateType; MonitorType; PhaseType; ReadingContextType; RecurrencyKindType; RequestStartStopStatusType].
Definition structs : list gotype := [CertificateHashData; CertificateHashDataChain; AdditionalInfo;
  ChargingSchedulePeriod; Cost; ConsumptionCost; RelativeTimeInterval; SalesTariffEntry; SalesTariff;
  ChargingSchedule; ChargingProfile; EVSE; Component; Variable_; ComponentVariable; IDToken; MessageContent;
  IDTokenInfo; MessageInfo; SignedMeterValue; UnitOfMeasure; SampledValue; MeterValue; OCSPRequestData; StatusInfo].
Definition constructors : list constructor := [NewAdditionalInfo; NewCertificateHashData; NewChargingProfile;
  NewChargingSchedule; NewChargingSchedulePeriod; NewComponent; NewComponentVariable; NewConsumptionCost; NewCost;
  NewEVSE; NewIDToken; NewIDTokenInfo; NewMessageContent; NewMessageInfo; NewMeterValue; NewOCSPRequestData;
  NewRelativeTimeInterval; NewSalesTariff; NewSalesTariffEntry; NewSampledValue; NewSignedMeterValue; NewStatusInfo;
  NewUnitOfMeasure; NewVariable].
Definition features : list message_feature := [].
End types.

(** *** Package authorization *)

Module authorization.
Definition AuthorizeCertificateStatus : goenum := mkEnum "authorization.AuthorizeCertificateStatus" ["Accepted";
  "SignatureError"; "CertificateExpired"; "CertificateRevoked"; "NoCertificateAvailable"; "CertChainError";
  "ContractCancelled"].
Definition ClearCacheStatus : goenum := mkEnum "authorization.ClearCacheStatus" ["Accepted"; "Rejected"].
Definition isValidAuthorizeCertificateStatus : validator := mkValidator "authorization.AuthorizeCertificateStatus"
  ["Accepted"; "CertChainError"; "CertificateExpired"; "SignatureError"; "NoCertificateAvailable";
  "CertificateRevoked"; "ContractCancelled"].
Definition isValidClearCacheStatus : validator := mkValidator "authorization.ClearCacheStatus" ["Accepted";
  "Rejected"].
Definition AuthorizeRequest : gotype := TStruct "authorization.AuthorizeRequest"
  [(mkField "Certificate" "certificate" true [Max 5500], TString);
   (mkField "IdToken" "idToken" false [Required], types.IDToken);
   (mkField "CertificateHashData" "iso15118CertificateHashData" true [Max 4; Dive], TSlice types.OCSPRequestData)].
Definition AuthorizeResponse : gotype := TStruct "authorization.AuthorizeResponse"
  [(mkField "CertificateStatus" "certificateStatus" true [Omitempty; Custom "authorizeCertificateStatus"], TEnum "authorization.AuthorizeCertificateStatus");
   (mkField "IdTokenInfo" "idTokenInfo" false [Required], types.IDTokenInfo)].
Definition ClearCacheRequest : gotype := TStruct "authorization.ClearCacheRequest" [].
Definition ClearCacheResponse : gotype := TStruct "authorization.ClearCacheResponse"
  [(mkField "Status" "status" false [Required; Custom "cacheStatus201"], TEnum "authorization.ClearCacheStatus");
   (mkField "StatusInfo" "statusInfo" true [Omitempty], TPtr types.StatusInfo)].
Definition NewAuthorizationRequest : constructor := mkCtor AuthorizeRequest [TString; TEnum "types.IDTokenType"]
  [("IdToken", Struct types.IDToken [("IDToken", Arg 0); ("Type", Arg 1)])].
Definition NewAuthorizationResponse : constructor := mkCtor AuthorizeResponse [types.IDTokenInfo] [("IdTokenInfo", Arg
  0)].
Definition NewClearCacheRequest : constructor := mkCtor ClearCacheRequest [] [].
Definition NewClearCacheResponse : constructor := mkCtor ClearCacheResponse [TEnum "authorization.ClearCacheStatus"]
  [("Status", Arg 0)].
Definition AuthorizeFeature : message_feature := mkMessageFeature "Authorize" AuthorizeRequest AuthorizeResponse.
Definition ClearCacheFeature : message_feature := mkMessageFeature "ClearCache" ClearCacheRequest ClearCacheResponse.
Definition registrations : list (string * validator) := [("authorizeCertificateStatus",
  isValidAuthorizeCertificateStatus); ("cacheStatus201", isValidClearCacheStatus)].
Definition enums : list goenum := [AuthorizeCertificateStatus; ClearCacheStatus].
Definition structs : list gotype := [AuthorizeRequest; AuthorizeResponse; ClearCacheRequest; ClearCacheResponse].
Definition constructors : list constructor := [NewAuthorizationRequest; NewAuthorizationResponse;
  NewClearCacheRequest; NewClearCacheResponse].
Definition features : list message_feature := [AuthorizeFeature; ClearCacheFeature].
End authorization.

(** *** Package availability *)

Module availability.
Definition OperationalStatus : goenum := mkEnum "availability.OperationalStatus" ["Inoperative"; "Operative"].
Definition ChangeAvailabilityStatus : goenum := mkEnum "availability.ChangeAvailabilityStatus" ["Accepted";
  "Rejected"; "Scheduled"].
Definition ConnectorStatus : goenum := mkEnum "availability.ConnectorStatus" ["Available"; "Occupied"; "Reserved";
  "Unavailable"; "Faulted"].
Definition isValidOperationalStatus : validator := mkValidator "availability.OperationalStatus" ["Inoperative";
  "Operative"].
Definition isValidChangeAvailabilityStatus : validator := mkValidator "availability.ChangeAvailabilityStatus"
  ["Accepted"; "Rejected"; "Scheduled"].
Definition isValidConnectorStatus : validator := mkValidator "availability.ConnectorStatus" ["Available"; "Occupied";
  "Reserved"; "Unavailable"; "Faulted"].
Definition ChangeAvailabilityRequest : gotype := TStruct "availability.ChangeAvailabilityRequest"
  [(mkField "OperationalStatus" "operationalStatus" false [Required; Custom "operationalStatus"], TEnum "availability.OperationalStatus");
   (mkField "Evse" "evse" true [Omitempty], TPtr types.EVSE)].
Definition ChangeAvailabilityResponse : gotype := TStruct "availability.ChangeAvailabilityResponse"
  [(mkField "Status" "status" false [Required; Custom "changeAvailabilityStatus"], TEnum "availability.ChangeAvailabilityStatus");
   (mkField "StatusInfo" "statusInfo" true [Omitempty], TPtr types.StatusInfo)].
Definition HeartbeatRequest : gotype := TStruct "availability.HeartbeatRequest"
  [(mkField "CustomData" "customData" true [Omitempty], TPtr TCustomData)].
Definition HeartbeatResponse : gotype := TStruct "availability.HeartbeatResponse"
  [(mkField "CustomData" "customData" true [Omitempty], TPtr TCustomData);
   (mkField "CurrentTime" "currentTime" false [Required], TPtr TDateTime)].
Definition StatusNotificationRequest : gotype := TStruct "availability.StatusNotificationRequest"
  [(mkField "Timestamp" "timestamp" false [Required], TPtr TDateTime);
   (mkField "ConnectorStatus" "connectorStatus" false [Required; Custom "connectorStatus"], TEnum "availability.ConnectorStatus");
   (mkField "EvseID" "evseId" false [Gte 0], TInt);
   (mkField "ConnectorID" "connectorId" false [Gte 0], TInt)].
Definition StatusNotificationResponse : gotype := TStruct "availability.StatusNotificationResponse" [].
Definition NewChangeAvailabilityRequest : constructor := mkCtor ChangeAvailabilityRequest [TEnum
  "availability.OperationalStatus"] [("OperationalStatus", Arg 0)].
Definition NewChangeAvailabilityResponse : constructor := mkCtor ChangeAvailabilityResponse [TEnum
  "availability.ChangeAvailabilityStatus"] [("Status", Arg 0)].
Definition NewHeartbeatRequest : constructor := mkCtor HeartbeatRequest [] [].
Definition NewHeartbeatResponse : constructor := mkCtor HeartbeatResponse [TPtr TDateTime] [("CurrentTime", Arg 0)].
Definition NewStatusNotificationRequest : constructor := mkCtor StatusNotificationRequest [TPtr TDateTime; TEnum
  "availability.ConnectorStatus"; TInt; TInt] [("Timestamp", Arg 0); ("ConnectorStatus", Arg 1); ("EvseID", Arg 2);
  ("ConnectorID", Arg 3)].
Definition NewStatusNotificationResponse : constructor := mkCtor StatusNotificationResponse [] [].
Definition ChangeAvailabilityFeature : message_feature := mkMessageFeature "ChangeAvailability"
  ChangeAvailabilityRequest ChangeAvailabilityResponse.
Definition HeartbeatFeature : message_feature := mkMessageFeature "Heartbeat" HeartbeatRequest HeartbeatResponse.
Definition StatusNotificationFeature : message_feature := mkMessageFeature "StatusNotification"
  StatusNotificationRequest StatusNotificationResponse.
Definition registrations : list (string * validator) := [("operationalStatus", isValidOperationalStatus);
  ("changeAvailabilityStatus", isValidChangeAvailabilityStatus); ("connectorStatus", isValidConnectorStatus)].
Definition enums : list goenum := [OperationalStatus; ChangeAvailabilityStatus; ConnectorStatus].
Definition structs : list gotype := [ChangeAvailabilityRequest; ChangeAvailabilityResponse; HeartbeatRequest;
  HeartbeatResponse; StatusNotificationRequest; StatusNotificationResponse].
Definition constructors : list constructor := [NewChangeAvailabilityRequest; NewChangeAvailabilityResponse;
  NewHeartbeatRequest; NewHeartbeatResponse; NewStatusNotificationRequest; NewStatusNotificationResponse].
Definition features : list message_feature := [ChangeAvailabilityFeature; HeartbeatFeature;
  StatusNotificationFeature].
End availability.

(** *** Package data *)

Module data.
Definition DataTransferStatus : goenum := mkEnum "data.DataTransferStatus" ["Accepted"; "Rejected";
  "UnknownMessageId"; "UnknownVendorId"].
Definition isValidDataTransferStatus : validator := mkValidator "data.DataTransferStatus" ["Accepted"; "Rejected";
  "UnknownMessageId"; "UnknownVendorId"].
Definition DataTransferRequest : gotype := TStruct "data.DataTransferRequest"
  [(mkField "MessageID" "messageId" true [Max 50], TString);
   (mkField "Data" "data" true [], TAny);
   (mkField "VendorID" "vendorId" false [Required; Max 255], TString)].
Definition DataTransferResponse : gotype := TStruct "data.DataTransferResponse"
  [(mkField "Status" "status" false [Required; Custom "dataTransferStatus201"], TEnum "data.DataTransferStatus");
   (mkField "Data" "data" true [], TAny);
   (mkField "StatusInfo" "statusInfo" true [Omitempty], TPtr types.StatusInfo)].
Definition NewDataTransferRequest : constructor := mkCtor DataTransferRequest [TString] [("VendorID", Arg 0)].
Definition NewDataTransferResponse : constructor := mkCtor DataTransferResponse [TEnum "data.DataTransferStatus"]
  [("Status", Arg 0)].
Definition DataTransferFeature : message_feature := mkMessageFeature "DataTransfer" DataTransferRequest
  DataTransferResponse.
Definition registrations : list (string * validator) := [("dataTransferStatus201", isValidDataTransferStatus)].
Definition enums : list goenum := [DataTransferStatus].
Definition structs : list gotype := [DataTransferRequest; DataTransferResponse].
Definition constructors : list constructor := [NewDataTransferRequest; NewDataTransferResponse].
Definition features : list message_feature := [DataTransferFeature].
End data.

(** *** Package diagnostics *)

Module diagnostics.
Definition ClearMonitoringStatus : goenum := mkEnum "diagnostics.ClearMonitoringStatus" ["Accepted"; "Rejected";
  "NotFound"].
Definition CustomerInformationStatus : goenum := mkEnum "diagnostics.CustomerInformationStatus" ["Accepted";
  "Rejected"; "Invalid"].
Definition LogType : goenum := mkEnum "diagnostics.LogType" ["DiagnosticsLog"; "SecurityLog"].
Definition LogStatus : goenum := mkEnum "diagnostics.LogStatus" ["Accepted"; "Rejected"; "AcceptedCanceled"].
Definition MonitoringCriteriaType : goenum := mkEnum "diagnostics.MonitoringCriteriaType" ["ThresholdMonitoring";
  "DeltaMonitoring"; "PeriodicMonitoring"].
Definition UploadLogStatus : goenum := mkEnum "diagnostics.UploadLogStatus" ["BadMessage"; "Idle";
  "NotSupportedOperation"; "PermissionDenied"; "Uploaded"; "UploadFailure"; "Uploading"].
Definition EventTrigger : goenum := mkEnum "diagnostics.EventTrigger" ["Alerting"; "Delta"; "Periodic"].
Definition EventNotification : goenum := mkEnum "diagnostics.EventNotification" ["HardWiredNotification";
  "HardWiredMonitor"; "PreconfiguredMonitor"; "CustomMonitor"].
Definition MonitoringBase : goenum := mkEnum "diagnostics.MonitoringBase" ["All"; "FactoryDefault"; "HardWiredOnly"].
Definition SetMonitoringStatus : goenum := mkEnum "diagnostics.SetMonitoringStatus" ["Accepted"; "UnknownComponent";
  "UnknownVariable"; "UnsupportedMonitorType"; "Rejected"; "Duplicate"].
Definition MonitorType : goenum := mkEnum "diagnostics.MonitorType" ["UpperThreshold"; "LowerThreshold"; "Delta";
  "Periodic"; "PeriodicClockAligned"].
Definition isValidClearMonitoringStatus : validator := mkValidator "diagnostics.ClearMonitoringStatus" ["Accepted";
  "Rejected"; "NotFound"].
Definition isValidCustomerInformationStatus : validator := mkValidator "diagnostics.CustomerInformationStatus"
  ["Accepted"; "Rejected"; "Invalid"].
Definition isValidLogType : validator := mkValidator "diagnostics.LogType" ["DiagnosticsLog"; "SecurityLog"].
Definition isValidLogStatus : validator := mkValidator "diagnostics.LogStatus" ["Accepted"; "Rejected";
  "AcceptedCanceled"].
Definition isValidMonitoringCriteriaType : validator := mkValidator "diagnostics.MonitoringCriteriaType"
  ["ThresholdMonitoring"; "DeltaMonitoring"; "PeriodicMonitoring"].
Definition isValidUploadLogStatus : validator := mkValidator "diagnostics.UploadLogStatus" ["BadMessage"; "Idle";
  "NotSupportedOperation"; "PermissionDenied"; "Uploaded"; "UploadFailure"; "Uploading"].
Definition isValidEventTrigger : validator := mkValidator "diagnostics.EventTrigger" ["Alerting"; "Delta";
  "Periodic"].
Definition isValidEventNotification : validator := mkValidator "diagnostics.EventNotification" ["HardWiredMonitor";
  "HardWiredNotification"; "PreconfiguredMonitor"; "CustomMonitor"].
Definition isValidMonitoringBase : validator := mkValidator "diagnostics.MonitoringBase" ["All"; "FactoryDefault";
  "HardWiredOnly"].
Definition isValidSetMonitoringStatus : validator := mkValidator "diagnostics.SetMonitoringStatus" ["Accepted";
  "UnknownComponent"; "UnknownVariable"; "UnsupportedMonitorType"; "Rejected"; "Duplicate"].
Definition isValidMonitorType : validator := mkValidator "diagnostics.MonitorType" ["UpperThreshold";
  "LowerThreshold"; "Delta"; "Periodic"; "PeriodicClockAligned"].
Definition ClearMonitoringResult : gotype := TStruct "diagnostics.ClearMonitoringResult"
  [(mkField "ID" "id" false [Required; Gte 0], TInt);
   (mkField "Status" "status" false [Required; Custom "clearMonitoringStatus"], TEnum "diagnostics.ClearMonitoringStatus")].
Definition ClearVariableMonitoringRequest : gotype := TStruct "diagnostics.ClearVariableMonitoringRequest"
  [(mkField "ID" "id" false [Required; Min 1; Dive; Gte 0], TSlice TInt)].
Definition ClearVariableMonitoringResponse : gotype := TStruct "diagnostics.ClearVariableMonitoringResponse"
  [(mkField "ClearMonitoringResult" "clearMonitoringResult" false [Required; Min 1; Dive], TSlice ClearMonitoringResult)].
Definition CustomerInformationRequest : gotype := TStruct "diagnostics.CustomerInformationRequest"
  [(mkField "RequestID" "requestId" false [Gte 0], TInt);
   (mkField "Report" "report" false [], TBool);
   (mkField "Clear" "clear" false [], TBool);
   (mkField "CustomerIdentifier" "customerIdentifier" true [Max 64], TString);
   (mkField "IdToken" "idToken" true [Omitempty; Dive], TPtr types.IDToken);
   (mkField "CustomerCertificate" "customerCertificate" true [Omitempty; Dive], TPtr types.CertificateHashData)].
Definition CustomerInformationResponse : gotype := TStruct "diagnostics.CustomerInformationResponse"
  [(mkField "Status" "status" false [Required; Custom "customerInformationStatus"], TEnum "diagnostics.CustomerInformationStatus");
   (mkField "StatusInfo" "statusInfo" true [Omitempty], TPtr types.StatusInfo)].
Definition LogParameters : gotype := TStruct "diagnostics.LogParameters"
  [(mkField "RemoteLocation" "remoteLocation" false [Required; Max 512; Url], TString);
   (mkField "OldestTimestamp" "oldestTimestamp" true [Omitempty], TPtr TDateTime);
   (mkField "LatestTimestamp" "latestTimestamp" true [Omitempty], TPtr TDateTime)].
Definition GetLogRequest : gotype := TStruct "diagnostics.GetLogRequest"
  [(mkField "LogType" "logType" false [Required; Custom "logType"], TEnum "diagnostics.LogType");
   (mkField "RequestID" "requestId" false [Gte 0], TInt);
   (mkField "Retries" "retries" true [Omitempty; Gte 0], TPtr TInt);
   (mkField "RetryInterval" "retryInterval" true [Omitempty; Gte 0], TPtr TInt);
   (mkField "Log" "log" false [Required], LogParameters)].
Definition GetLogResponse : gotype := TStruct "diagnostics.GetLogResponse"
  [(mkField "Status" "status" false [Required; Custom "logStatus"], TEnum "diagnostics.LogStatus");
   (mkField "Filename" "filename" true [Omitempty; Max 256], TString)].
Definition GetMonitoringReportRequest : gotype := TStruct "diagnostics.GetMonitoringReportRequest"
  [(mkField "RequestID" "requestId" true [Omitempty; Gte 0], TPtr TInt);
   (mkField "MonitoringCriteria" "monitoringCriteria" true [Omitempty; Max 3; Dive; Custom "monitoringCriteria"], TSlice (TEnum "diagnostics.MonitoringCriteriaType"));
   (mkField "ComponentVariable" "componentVariable" true [Omitempty; Dive], TSlice types.ComponentVariable)].
Definition GetMonitoringReportResponse : gotype := TStruct "diagnostics.GetMonitoringReportResponse"
  [(mkField "Status" "status" false [Required; Custom "genericDeviceModelStatusType201"], TEnum "types.GenericDeviceModelStatusType")].
Definition LogStatusNotificationRequest : gotype := TStruct "diagnostics.LogStatusNotificationRequest"
  [(mkField "Status" "status" false [Required; Custom "uploadLogStatus"], TEnum "diagnostics.UploadLogStatus");
   (mkField "RequestID" "requestId" false [Gte 0], TInt)].
Definition LogStatusNotificationResponse : gotype := TStruct "diagnostics.LogStatusNotificationResponse" [].
Definition NotifyCustomerInformationRequest : gotype := TStruct "diagnostics.NotifyCustomerInformationRequest"
  [(mkField "Data" "data" false [Required; Max 512], TString);
   (mkField "Tbc" "tbc" true [Omitempty], TBool);
   (mkField "SeqNo" "seqNo" false [Gte 0], TInt);
   (mkField "GeneratedAt" "generatedAt" false [Required], TDateTime);
   (mkField "RequestID" "requestId" false [Gte 0], TInt)].
Definition NotifyCustomerInformationResponse : gotype := TStruct "diagnostics.NotifyCustomerInformationResponse" [].
Definition EventData : gotype := TStruct "diagnostics.EventData"
  [(mkField "EventID" "eventId" false [Gte 0], TInt);
   (mkField "Timestamp" "timestamp" false [Required], TPtr TDateTime);
   (mkField "Trigger" "trigger" false [Required; Custom "eventTrigger"], TEnum "diagnostics.EventTrigger");
   (mkField "Cause" "cause" true [Omitempty], TPtr TInt);
   (mkField "ActualValue" "actualValue" false [Required; Max 2500], TString);
   (mkField "TechCode" "techCode" true [Omitempty; Max 50], TString);
   (mkField "TechInfo" "techInfo" true [Omitempty; Max 500], TString);
   (mkField "Cleared" "cleared" true [], TBool);
   (mkField "TransactionID" "transactionId" true [Omitempty; Max 36], TString);
   (mkField "VariableMonitoringID" "variableMonitoringId" true [Omitempty], TPtr TInt);
   (mkField "EventNotificationType" "eventNotificationType" false [Required; Custom "eventNotification"], TEnum "diagnostics.EventNotification");
   (mkField "Component" "component" false [Required], types.Component);
   (mkField "Variable" "variable" false [Required], types.Variable_)].
Definition NotifyEventRequest : gotype := TStruct "diagnostics.NotifyEventRequest"
  [(mkField "GeneratedAt" "generatedAt" false [Required], TPtr TDateTime);
   (mkField "SeqNo" "seqNo" false [Gte 0], TInt);
   (mkField "Tbc" "tbc" true [Omitempty], TBool);
   (mkField "EventData" "eventData" false [Required; Min 1; Dive], TSlice EventData)].
Definition NotifyEventResponse : gotype := TStruct "diagnostics.NotifyEventResponse" [].
Definition VariableMonitoring : gotype := TStruct "diagnostics.VariableMonitoring"
  [(mkField "ID" "id" false [Gte 0], TInt);
   (mkField "Transaction" "transaction" false [], TBool);
   (mkField "Value" "value" false [], TFloat);
   (mkField "Type" "type" false [Required; Custom "monitorType"], TEnum "diagnostics.MonitorType");
   (mkField "Severity" "severity" false [Min 0; Max 9], TInt)].
Definition MonitoringData : gotype := TStruct "diagnostics.MonitoringData"
  [(mkField "Component" "component" false [Required], types.Component);
   (mkField "Variable" "variable" false [Required], types.Variable_);
   (mkField "VariableMonitoring" "variableMonitoring" false [Required; Min 1; Dive], TSlice VariableMonitoring)].
Definition NotifyMonitoringReportRequest : gotype := TStruct "diagnostics.NotifyMonitoringReportRequest"
  [(mkField "RequestID" "requestId" false [Gte 0], TInt);
   (mkField "Tbc" "tbc" true [Omitempty], TBool);
   (mkField "SeqNo" "seqNo" false [Gte 0], TInt);
   (mkField "GeneratedAt" "generatedAt" false [Required], TPtr TDateTime);
   (mkField "Monitor" "monitor" true [Omitempty; Dive], TSlice MonitoringData)].
Definition NotifyMonitoringReportResponse : gotype := TStruct "diagnostics.NotifyMonitoringReportResponse" [].
Definition SetMonitoringBaseRequest : gotype := TStruct "diagnostics.SetMonitoringBaseRequest"
  [(mkField "MonitoringBase" "monitoringBase" false [Required; Custom "monitoringBase"], TEnum "diagnostics.MonitoringBase")].
Definition SetMonitoringBaseResponse : gotype := TStruct "diagnostics.SetMonitoringBaseResponse"
  [(mkField "Status" "status" false [Required; Custom "genericDeviceModelStatusType201"], TEnum "types.GenericDeviceModelStatusType");
   (mkField "StatusInfo" "statusInfo" true [Omitempty], TPtr types.StatusInfo)].
Definition SetMonitoringLevelRequest : gotype := TStruct "diagnostics.SetMonitoringLevelRequest"
  [(mkField "Severity" "severity" false [Min 0; Max 9], TInt)].
Definition SetMonitoringLevelResponse : gotype := TStruct "diagnostics.SetMonitoringLevelResponse"
  [(mkField "Status" "status" false [Required; Custom "genericDeviceModelStatusType201"], TEnum "types.GenericDeviceModelStatusType");
   (mkField "StatusInfo" "statusInfo" true [Omitempty], TPtr types.StatusInfo)].
Definition SetMonitoringData : gotype := TStruct "diagnostics.SetMonitoringData"
  [(mkField "ID" "id" true [Omitempty], TPtr TInt);
   (mkField "Transaction" "transaction" true [], TBool);
   (mkField "Value" "value" false [], TFloat);
   (mkField "Type" "type" false [Required; Custom "monitorType"], TEnum "diagnostics.MonitorType");
   (mkField "Severity" "severity" false [Min 0; Max 9], TInt);
   (mkField "Component" "component" false [Required], types.Component);
   (mkField "Variable" "variable" false [Required], types.Variable_)].
Definition SetMonitoringResult : gotype := TStruct "diagnostics.SetMonitoringResult"
  [(mkField "ID" "id" true [Omitempty], TPtr TInt);
   (mkField "Status" "status" false [Required; Custom "setMonitoringStatus"], TEnum "diagnostics.SetMonitoringStatus");
   (mkField "Type" "type" false [Required; Custom "monitorType"], TEnum "diagnostics.MonitorType");
   (mkField "Severity" "severity" false [Min 0; Max 9], TInt);
   (mkField "Component" "component" false [Required], types.Component);
   (mkField "Variable" "variable" false [Required], types.Variable_);
   (mkField "StatusInfo" "statusInfo" true [Omitempty], TPtr types.StatusInfo)].
Definition SetVariableMonitoringRequest : gotype := TStruct "diagnostics.SetVariableMonitoringRequest"
  [(mkField "MonitoringData" "setMonitoringData" false [Required; Min 1; Dive], TSlice SetMonitoringData)].
Definition SetVariableMonitoringResponse : gotype := TStruct "diagnostics.SetVariableMonitoringResponse"
  [(mkField "MonitoringResult" "setMonitoringResult" false [Required; Min 1; Dive], TSlice SetMonitoringResult)].
Definition NewClearVariableMonitoringRequest : constructor := mkCtor ClearVariableMonitoringRequest [TSlice TInt]
  [("ID", Arg 0)].
Definition NewClearVariableMonitoringResponse : constructor := mkCtor ClearVariableMonitoringResponse [TSlice
  ClearMonitoringResult] [("ClearMonitoringResult", Arg 0)].
Definition NewCustomerInformationRequest : constructor := mkCtor CustomerInformationRequest [TInt; TBool; TBool]
  [("RequestID", Arg 0); ("Report", Arg 1); ("Clear", Arg 2)].
Definition NewCustomerInformationResponse : constructor := mkCtor CustomerInformationResponse [TEnum
  "diagnostics.CustomerInformationStatus"] [("Status", Arg 0)].
Definition NewGetLogRequest : constructor := mkCtor GetLogRequest [TEnum "diagnostics.LogType"; TInt; LogParameters]
  [("LogType", Arg 0); ("RequestID", Arg 1); ("Log", Arg 2)].
Definition NewGetLogResponse : constructor := mkCtor GetLogResponse [TEnum "diagnostics.LogStatus"] [("Status", Arg
  0)].
Definition NewGetMonitoringReportRequest : constructor := mkCtor GetMonitoringReportRequest [] [].
Definition NewGetMonitoringReportResponse : constructor := mkCtor GetMonitoringReportResponse [TEnum
  "types.GenericDeviceModelStatusType"] [("Status", Arg 0)].
Definition NewLogStatusNotificationRequest : constructor := mkCtor LogStatusNotificationRequest [TEnum
  "diagnostics.UploadLogStatus"; TInt] [("Status", Arg 0); ("RequestID", Arg 1)].
Definition NewLogStatusNotificationResponse : constructor := mkCtor LogStatusNotificationResponse [] [].
Definition NewNotifyCustomerInformationRequest : constructor := mkCtor NotifyCustomerInformationRequest [TString;
  TInt; TDateTime; TInt] [("Data", Arg 0); ("SeqNo", Arg 1); ("GeneratedAt", Arg 2); ("RequestID", Arg 3)].
Definition NewNotifyCustomerInformationResponse : constructor := mkCtor NotifyCustomerInformationResponse [] [].
Definition NewNotifyEventRequest : constructor := mkCtor NotifyEventRequest [TPtr TDateTime; TInt; TSlice EventData]
  [("GeneratedAt", Arg 0); ("SeqNo", Arg 1); ("EventData", Arg 2)].
Definition NewNotifyEventResponse : constructor := mkCtor NotifyEventResponse [] [].
Definition NewVariableMonitoring : constructor := mkCtor VariableMonitoring [TInt; TBool; TFloat; TEnum
  "diagnostics.MonitorType"; TInt] [("ID", Arg 0); ("Transaction", Arg 1); ("Value", Arg 2); ("Type", Arg 3);
  ("Severity", Arg 4)].
Definition NewNotifyMonitoringReportRequest : constructor := mkCtor NotifyMonitoringReportRequest [TInt; TInt; TPtr
  TDateTime; TSlice MonitoringData] [("RequestID", Arg 0); ("SeqNo", Arg 1); ("GeneratedAt", Arg 2); ("Monitor", Arg
  3)].
Definition NewNotifyMonitoringReportResponse : constructor := mkCtor NotifyMonitoringReportResponse [] [].
Definition NewSetMonitoringBaseRequest : constructor := mkCtor SetMonitoringBaseRequest [TEnum
  "diagnostics.MonitoringBase"] [("MonitoringBase", Arg 0)].
Definition NewSetMonitoringBaseResponse : constructor := mkCtor SetMonitoringBaseResponse [TEnum
  "types.GenericDeviceModelStatusType"] [("Status", Arg 0)].
Definition NewSetMonitoringLevelRequest : constructor := mkCtor SetMonitoringLevelRequest [TInt] [("Severity", Arg
  0)].
Definition NewSetMonitoringLevelResponse : constructor := mkCtor SetMonitoringLevelResponse [TEnum
  "types.GenericDeviceModelStatusType"] [("Status", Arg 0)].
Definition NewSetVariableMonitoringRequest : constructor := mkCtor SetVariableMonitoringRequest [TSlice
  SetMonitoringData] [("MonitoringData", Arg 0)].
Definition NewSetVariableMonitoringResponse : constructor := mkCtor SetVariableMonitoringResponse [TSlice
  SetMonitoringResult] [("MonitoringResult", Arg 0)].
Definition ClearVariableMonitoringFeature : message_feature := mkMessageFeature "ClearVariableMonitoring"
  ClearVariableMonitoringRequest ClearVariableMonitoringResponse.
Definition CustomerInformationFeature : message_feature := mkMessageFeature "CustomerInformation"
  CustomerInformationRequest CustomerInformationResponse.
Definition GetLogFeature : message_feature := mkMessageFeature "GetLog" GetLogRequest GetLogResponse.
Definition GetMonitoringReportFeature : message_feature := mkMessageFeature "GetMonitoringReport"
  GetMonitoringReportRequest GetMonitoringReportResponse.
Definition LogStatusNotificationFeature : message_feature := mkMessageFeature "LogStatusNotification"
  LogStatusNotificationRequest LogStatusNotificationResponse.
Definition NotifyCustomerInformationFeature : message_feature := mkMessageFeature "NotifyCustomerInformation"
  NotifyCustomerInformationRequest NotifyCustomerInformationResponse.
Definition NotifyEventFeature : message_feature := mkMessageFeature "NotifyEvent" NotifyEventRequest
  NotifyEventResponse.
Definition NotifyMonitoringReportFeature : message_feature := mkMessageFeature "NotifyMonitoringReport"
  NotifyMonitoringReportRequest NotifyMonitoringReportResponse.
Definition SetMonitoringBaseFeature : message_feature := mkMessageFeature "SetMonitoringBase" SetMonitoringBaseRequest
  SetMonitoringBaseResponse.
Definition SetMonitoringLevelFeature : message_feature := mkMessageFeature "SetMonitoringLevel"
  SetMonitoringLevelRequest SetMonitoringLevelResponse.
Definition SetVariableMonitoringFeature : message_feature := mkMessageFeature "SetVariableMonitoring"
  SetVariableMonitoringRequest SetVariableMonitoringResponse.
Definition registrations : list (string * validator) := [("clearMonitoringStatus", isValidClearMonitoringStatus);
  ("customerInformationStatus", isValidCustomerInformationStatus); ("logType", isValidLogType); ("logStatus",
  isValidLogStatus); ("monitoringCriteria", isValidMonitoringCriteriaType); ("uploadLogStatus",
  isValidUploadLogStatus); ("eventTrigger", isValidEventTrigger); ("eventNotification", isValidEventNotification);
  ("monitoringBase", isValidMonitoringBase); ("setMonitoringStatus", isValidSetMonitoringStatus); ("monitorType",
  isValidMonitorType)].
Definition enums : list goenum := [ClearMonitoringStatus; CustomerInformationStatus; LogType; LogStatus;
  MonitoringCriteriaType; UploadLogStatus; EventTrigger; EventNotification; MonitoringBase; SetMonitoringStatus;
  MonitorType].
Definition structs : list gotype := [ClearMonitoringResult; ClearVariableMonitoringRequest;
  ClearVariableMonitoringResponse; CustomerInformationRequest; CustomerInformationResponse; LogParameters;
  GetLogRequest; GetLogResponse; GetMonitoringReportRequest; GetMonitoringReportResponse;
  LogStatusNotificationRequest; LogStatusNotificationResponse; NotifyCustomerInformationRequest;
  NotifyCustomerInformationResponse; EventData; NotifyEventRequest; NotifyEventResponse; VariableMonitoring;
  MonitoringData; NotifyMonitoringReportRequest; NotifyMonitoringReportResponse; SetMonitoringBaseRequest;
  SetMonitoringBaseResponse; SetMonitoringLevelRequest; SetMonitoringLevelResponse; SetMonitoringData;
  SetMonitoringResult; SetVariableMonitoringRequest; SetVariableMonitoringResponse].
Definition constructors : list constructor := [NewClearVariableMonitoringRequest; NewClearVariableMonitoringResponse;
  NewCustomerInformationRequest; NewCustomerInformationResponse; NewGetLogRequest; NewGetLogResponse;
  NewGetMonitoringReportRequest; NewGetMonitoringReportResponse; NewLogStatusNotificationRequest;
  NewLogStatusNotificationResponse; NewNotifyCustomerInformationRequest; NewNotifyCustomerInformationResponse;
  NewNotifyEventRequest; NewNotifyEventResponse; NewVariableMonitoring; NewNotifyMonitoringReportRequest;
  NewNotifyMonitoringReportResponse; NewSetMonitoringBaseRequest; NewSetMonitoringBaseResponse;
  NewSetMonitoringLevelRequest; NewSetMonitoringLevelResponse; NewSetVariableMonitoringRequest;
  NewSetVariableMonitoringResponse].
Definition features : list message_feature := [ClearVariableMonitoringFeature; CustomerInformationFeature;
  GetLogFeature; GetMonitoringReportFeature; LogStatusNotificationFeature; NotifyCustomerInformationFeature;
  NotifyEventFeature; NotifyMonitoringReportFeature; SetMonitoringBaseFeature; SetMonitoringLevelFeature;
  SetVariableMonitoringFeature].
End diagnostics.

(** *** Package display *)

Module display.
Definition ClearMessageStatus : goenum := mkEnum "display.ClearMessageStatus" ["Accepted"; "Unknown"].
Definition DisplayMessageStatus : goenum := mkEnum "display.DisplayMessageStatus" ["Accepted";
  "NotSupportedMessageFormat"; "Rejected"; "NotSupportedPriority"; "NotSupportedState"; "UnknownTransaction"].
Definition MessagePriority : goenum := mkEnum "display.MessagePriority" ["AlwaysFront"; "InFront"; "NormalCycle"].
Definition MessageState : goenum := mkEnum "display.MessageState" ["Charging"; "Faulted"; "Idle"; "Unavailable"].
Definition MessageStatus : goenum := mkEnum "display.MessageStatus" ["Accepted"; "Unknown"].
Definition isValidClearMessageStatus : validator := mkValidator "display.ClearMessageStatus" ["Accepted"; "Unknown"].
Definition isValidDisplayMessageStatus : validator := mkValidator "display.DisplayMessageStatus" ["Accepted";
  "NotSupportedMessageFormat"; "Rejected"; "NotSupportedPriority"; "NotSupportedState"; "UnknownTransaction"].
Definition isValidMessagePriority : validator := mkValidator "display.MessagePriority" ["AlwaysFront"; "InFront";
  "NormalCycle"].
Definition isValidMessageState : validator := mkValidator "display.MessageState" ["Charging"; "Faulted"; "Idle";
  "Unavailable"].
Definition isValidMessageStatus : validator := mkValidator "display.MessageStatus" ["Accepted"; "Unknown"].
Definition ClearDisplayRequest : gotype := TStruct "display.ClearDisplayRequest"
  [(mkField "ID" "id" false [], TInt)].
Definition ClearDisplayResponse : gotype := TStruct "display.ClearDisplayResponse"
  [(mkField "Status" "status" false [Required; Custom "clearMessageStatus"], TEnum "display.ClearMessageStatus");
   (mkField "StatusInfo" "statusInfo" true [Omitempty], TPtr types.StatusInfo)].
Definition GetDisplayMessagesRequest : gotype := TStruct "display.GetDisplayMessagesRequest"
  [(mkField "RequestID" "requestId" false [Gte 0], TInt);
   (mkField "Priority" "priority" true [Omitempty; Custom "messagePriority"], TEnum "display.MessagePriority");
   (mkField "State" "state" true [Omitempty; Custom "messageState"], TEnum "display.MessageState");
   (mkField "ID" "id" true [Omitempty; Dive; Gte 0], TSlice TInt)].
Definition GetDisplayMessagesResponse : gotype := TStruct "display.GetDisplayMessagesResponse"
  [(mkField "Status" "status" false [Required; Custom "messageStatus"], TEnum "display.MessageStatus")].
Definition MessageInfo : gotype := TStruct "display.MessageInfo"
  [(mkField "ID" "id" false [Gte 0], TInt);
   (mkField "Priority" "priority" false [Required; Custom "messagePriority"], TEnum "display.MessagePriority");
   (mkField "State" "state" true [Omitempty; Custom "messageState"], TEnum "display.MessageState");
   (mkField "StartDateTime" "startDateTime" true [Omitempty], TPtr TDateTime);
   (mkField "EndDateTime" "endDateTime" true [Omitempty], TPtr TDateTime);
   (mkField "TransactionID" "transactionId" true [Omitempty; Max 36], TString);
   (mkField "Message" "message" false [Required], types.MessageContent);
   (mkField "Display" "display" true [Omitempty], TPtr types.Component)].
Definition NotifyDisplayMessagesRequest : gotype := TStruct "display.NotifyDisplayMessagesRequest"
  [(mkField "RequestID" "requestId" false [Gte 0], TInt);
   (mkField "Tbc" "tbc" true [Omitempty], TBool);
   (mkField "MessageInfo" "messageInfo" true [Omitempty; Dive], TSlice MessageInfo)].
Definition NotifyDisplayMessagesResponse : gotype := TStruct "display.NotifyDisplayMessagesResponse" [].
Definition SetDisplayMessageRequest : gotype := TStruct "display.SetDisplayMessageRequest"
  [(mkField "Message" "message" false [Required], MessageInfo)].
Definition SetDisplayMessageResponse : gotype := TStruct "display.SetDisplayMessageResponse"
  [(mkField "Status" "status" false [Required; Custom "displayMessageStatus"], TEnum "display.DisplayMessageStatus");
   (mkField "StatusInfo" "statusInfo" true [Omitempty], TPtr types.StatusInfo)].
Definition NewClearDisplayRequest : constructor := mkCtor ClearDisplayRequest [TInt] [("ID", Arg 0)].
Definition NewClearDisplayResponse : constructor := mkCtor ClearDisplayResponse [TEnum "display.ClearMessageStatus"]
  [("Status", Arg 0)].
Definition NewGetDisplayMessagesRequest : constructor := mkCtor GetDisplayMessagesRequest [TInt] [("RequestID", Arg
  0)].
Definition NewGetDisplayMessagesResponse : constructor := mkCtor GetDisplayMessagesResponse [TEnum
  "display.MessageStatus"] [("Status", Arg 0)].
Definition NewNotifyDisplayMessagesRequest : constructor := mkCtor NotifyDisplayMessagesRequest [TInt] [("RequestID",
  Arg 0)].
Definition NewNotifyDisplayMessagesResponse : constructor := mkCtor NotifyDisplayMessagesResponse [] [].
Definition NewSetDisplayMessageRequest : constructor := mkCtor SetDisplayMessageRequest [MessageInfo] [("Message", Arg
  0)].
Definition NewSetDisplayMessageResponse : constructor := mkCtor SetDisplayMessageResponse [TEnum
  "display.DisplayMessageStatus"] [("Status", Arg 0)].
Definition ClearDisplayFeature : message_feature := mkMessageFeature "ClearDisplayMessage" ClearDisplayRequest
  ClearDisplayResponse.
Definition GetDisplayMessagesFeature : message_feature := mkMessageFeature "GetDisplayMessages"
  GetDisplayMessagesRequest GetDisplayMessagesResponse.
Definition NotifyDisplayMessagesFeature : message_feature := mkMessageFeature "NotifyDisplayMessages"
  NotifyDisplayMessagesRequest NotifyDisplayMessagesResponse.
Definition SetDisplayMessageFeature : message_feature := mkMessageFeature "SetDisplayMessage" SetDisplayMessageRequest
  SetDisplayMessageResponse.
Definition registrations : list (string * validator) := [("clearMessageStatus", isValidClearMessageStatus);
  ("displayMessageStatus", isValidDisplayMessageStatus); ("messagePriority", isValidMessagePriority); ("messageState",
  isValidMessageState); ("messageStatus", isValidMessageStatus)].
Definition enums : list goenum := [ClearMessageStatus; DisplayMessageStatus; MessagePriority; MessageState;
  MessageStatus].
Definition structs : list gotype := [ClearDisplayRequest; ClearDisplayResponse; GetDisplayMessagesRequest;
  GetDisplayMessagesResponse; MessageInfo; NotifyDisplayMessagesRequest; NotifyDisplayMessagesResponse;
  SetDisplayMessageRequest; SetDisplayMessageResponse].
Definition constructors : list constructor := [NewClearDisplayRequest; NewClearDisplayResponse;
  NewGetDisplayMessagesRequest; NewGetDisplayMessagesResponse; NewNotifyDisplayMessagesRequest;
  NewNotifyDisplayMessagesResponse; NewSetDisplayMessageRequest; NewSetDisplayMessageResponse].
Definition features : list message_feature := [ClearDisplayFeature; GetDisplayMessagesFeature;
  NotifyDisplayMessagesFeature; SetDisplayMessageFeature].
End display.

(** *** Package firmware *)

Module firmware.
Definition FirmwareStatus : goenum := mkEnum "firmware.FirmwareStatus" ["Downloaded"; "DownloadFailed"; "Downloading";
  "DownloadScheduled"; "DownloadPaused"; "Idle"; "InstallationFailed"; "Installing"; "Installed"; "InstallRebooting";
  "InstallScheduled"; "InstallVerificationFailed"; "InvalidSignature"; "SignatureVerified"].
Definition PublishFirmwareStatus : goenum := mkEnum "firmware.PublishFirmwareStatus" ["Idle"; "DownloadScheduled";
  "Downloading"; "Downloaded"; "Published"; "DownloadFailed"; "DownloadPaused"; "InvalidChecksum"; "ChecksumVerified";
  "PublishFailed"].
Definition UnpublishFirmwareStatus : goenum := mkEnum "firmware.UnpublishFirmwareStatus" ["DownloadOngoing";
  "NoFirmware"; "Unpublished"].
Definition UpdateFirmwareStatus : goenum := mkEnum "firmware.UpdateFirmwareStatus" ["Accepted"; "Rejected";
  "AcceptedCanceled"; "InvalidCertificate"; "RevokedCertificate"].
Definition isValidFirmwareStatus : validator := mkValidator "firmware.FirmwareStatus" ["Downloaded"; "DownloadFailed";
  "Downloading"; "DownloadScheduled"; "DownloadPaused"; "Idle"; "InstallationFailed"; "Installing"; "Installed";
  "InstallRebooting"; "InstallScheduled"; "InstallVerificationFailed"; "InvalidSignature"; "SignatureVerified"].
Definition isValidPublishFirmwareStatus : validator := mkValidator "firmware.PublishFirmwareStatus" ["Idle";
  "DownloadScheduled"; "Downloading"; "Downloaded"; "Published"; "DownloadFailed"; "DownloadPaused";
  "InvalidChecksum"; "ChecksumVerified"; "PublishFailed"].
Definition isValidUnpublishFirmwareStatus : validator := mkValidator "firmware.UnpublishFirmwareStatus"
  ["DownloadOngoing"; "NoFirmware"; "Unpublished"].
Definition isValidUpdateFirmwareStatus : validator := mkValidator "firmware.UpdateFirmwareStatus" ["Accepted";
  "Rejected"; "AcceptedCanceled"; "InvalidCertificate"; "RevokedCertificate"].
Definition FirmwareStatusNotificationRequest : gotype := TStruct "firmware.FirmwareStatusNotificationRequest"
  [(mkField "Status" "status" false [Required; Custom "firmwareStatus201"], TEnum "firmware.FirmwareStatus");
   (mkField "RequestID" "requestId" true [Omitempty; Gte 0], TPtr TInt)].
Definition FirmwareStatusNotificationResponse : gotype := TStruct "firmware.FirmwareStatusNotificationResponse" [].
Definition PublishFirmwareRequest : gotype := TStruct "firmware.PublishFirmwareRequest"
  [(mkField "Location" "location" false [Required; Max 512], TString);
   (mkField "Retries" "retries" true [Omitempty; Gte 0], TPtr TInt);
   (mkField "Checksum" "checksum" false [Required; Max 32], TString);
   (mkField "RequestID" "requestId" false [Gte 0], TInt);
   (mkField "RetryInterval" "retryInterval" true [Omitempty; Gte 0], TPtr TInt)].
Definition PublishFirmwareResponse : gotype := TStruct "firmware.PublishFirmwareResponse"
  [(mkField "Status" "status" false [Required; Custom "genericStatusType201"], TEnum "types.GenericStatusType");
   (mkField "StatusInfo" "statusInfo" true [Omitempty], TPtr types.StatusInfo)].
Definition PublishFirmwareStatusNotificationRequest : gotype := TStruct "firmware.PublishFirmwareStatusNotificationRequest"
  [(mkField "Status" "status" false [Required; Custom "publishFirmwareStatus"], TEnum "firmware.PublishFirmwareStatus");
   (mkField "Location" "location" true [Omitempty; Dive; Max 512], TSlice TString);
   (mkField "RequestID" "requestId" true [Omitempty; Gte 0], TPtr TInt)].
Definition PublishFirmwareStatusNotificationResponse : gotype := TStruct "firmware.PublishFirmwareStatusNotificationResponse" [].
Definition UnpublishFirmwareRequest : gotype := TStruct "firmware.UnpublishFirmwareRequest"
  [(mkField "Checksum" "checksum" false [Required; Max 32], TString)].
Definition UnpublishFirmwareResponse : gotype := TStruct "firmware.UnpublishFirmwareResponse"
  [(mkField "Status" "status" false [Required; Custom "unpublishFirmwareStatus"], TEnum "firmware.UnpublishFirmwareStatus")].
Definition Firmware : gotype := TStruct "firmware.Firmware"
  [(mkField "Location" "location" false [Required; Max 512; Uri], TString);
   (mkField "RetrieveDateTime" "retrieveDateTime" false [Required], TPtr TDateTime);
   (mkField "InstallDateTime" "installDateTime" true [Omitempty], TPtr TDateTime);
   (mkField "SigningCertificate" "signingCertificate" true [Max 5500], TString);
   (mkField "Signature" "signature" true [Max 800], TString)].
Definition UpdateFirmwareRequest : gotype := TStruct "firmware.UpdateFirmwareRequest"
  [(mkField "Retries" "retries" true [Omitempty; Gte 0], TPtr TInt);
   (mkField "RetryInterval" "retryInterval" true [Omitempty; Gte 0], TPtr TInt);
   (mkField "RequestID" "requestId" false [Gte 0], TInt);
   (mkField "Firmware" "firmware" false [Required], Firmware)].
Definition UpdateFirmwareResponse : gotype := TStruct "firmware.UpdateFirmwareResponse"
  [(mkField "Status" "status" false [Required; Custom "updateFirmwareStatus"], TEnum "firmware.UpdateFirmwareStatus");
   (mkField "StatusInfo" "statusInfo" true [Omitempty], TPtr types.StatusInfo)].
Definition NewFirmwareStatusNotificationRequest : constructor := mkCtor FirmwareStatusNotificationRequest [TEnum
  "firmware.FirmwareStatus"] [("Status", Arg 0)].
Definition NewFirmwareStatusNotificationResponse : constructor := mkCtor FirmwareStatusNotificationResponse [] [].
Definition NewPublishFirmwareRequest : constructor := mkCtor PublishFirmwareRequest [TString; TString; TInt]
  [("Location", Arg 0); ("Checksum", Arg 1); ("RequestID", Arg 2)].
Definition NewPublishFirmwareResponse : constructor := mkCtor PublishFirmwareResponse [TEnum
  "types.GenericStatusType"] [("Status", Arg 0)].
Definition NewPublishFirmwareStatusNotificationRequest : constructor := mkCtor
  PublishFirmwareStatusNotificationRequest [TEnum "firmware.PublishFirmwareStatus"] [("Status", Arg 0)].
Definition NewPublishFirmwareStatusNotificationResponse : constructor := mkCtor
  PublishFirmwareStatusNotificationResponse [] [].
Definition NewUnpublishFirmwareRequest : constructor := mkCtor UnpublishFirmwareRequest [TString] [("Checksum", Arg
  0)].
Definition NewUnpublishFirmwareResponse : constructor := mkCtor UnpublishFirmwareResponse [TEnum
  "firmware.UnpublishFirmwareStatus"] [("Status", Arg 0)].
Definition NewUpdateFirmwareRequest : constructor := mkCtor UpdateFirmwareRequest [TInt; Firmware] [("RequestID", Arg
  0); ("Firmware", Arg 1)].
Definition NewUpdateFirmwareResponse : constructor := mkCtor UpdateFirmwareResponse [TEnum
  "firmware.UpdateFirmwareStatus"] [("Status", Arg 0)].
Definition FirmwareStatusNotificationFeature : message_feature := mkMessageFeature "FirmwareStatusNotification"
  FirmwareStatusNotificationRequest FirmwareStatusNotificationResponse.
Definition PublishFirmwareFeature : message_feature := mkMessageFeature "PublishFirmware" PublishFirmwareRequest
  PublishFirmwareResponse.
Definition PublishFirmwareStatusNotificationFeature : message_feature := mkMessageFeature
  "PublishFirmwareStatusNotification" PublishFirmwareStatusNotificationRequest
  PublishFirmwareStatusNotificationResponse.
Definition UnpublishFirmwareFeature : message_feature := mkMessageFeature "UnpublishFirmware" UnpublishFirmwareRequest
  UnpublishFirmwareResponse.
Definition UpdateFirmwareFeature : message_feature := mkMessageFeature "UpdateFirmware" UpdateFirmwareRequest
  UpdateFirmwareResponse.
Definition registrations : list (string * validator) := [("firmwareStatus201", isValidFirmwareStatus);
  ("publishFirmwareStatus", isValidPublishFirmwareStatus); ("unpublishFirmwareStatus",
  isValidUnpublishFirmwareStatus); ("updateFirmwareStatus", isValidUpdateFirmwareStatus)].
Definition enums : list goenum := [FirmwareStatus; PublishFirmwareStatus; UnpublishFirmwareStatus;
  UpdateFirmwareStatus].
Definition structs : list gotype := [FirmwareStatusNotificationRequest; FirmwareStatusNotificationResponse;
  PublishFirmwareRequest; PublishFirmwareResponse; PublishFirmwareStatusNotificationRequest;
  PublishFirmwareStatusNotificationResponse; UnpublishFirmwareRequest; UnpublishFirmwareResponse; Firmware;
  UpdateFirmwareRequest; UpdateFirmwareResponse].
Definition constructors : list constructor := [NewFirmwareStatusNotificationRequest;
  NewFirmwareStatusNotificationResponse; NewPublishFirmwareRequest; NewPublishFirmwareResponse;
  NewPublishFirmwareStatusNotificationRequest; NewPublishFirmwareStatusNotificationResponse;
  NewUnpublishFirmwareRequest; NewUnpublishFirmwareResponse; NewUpdateFirmwareRequest; NewUpdateFirmwareResponse].
Definition features : list message_feature := [FirmwareStatusNotificationFeature; PublishFirmwareFeature;
  PublishFirmwareStatusNotificationFeature; UnpublishFirmwareFeature; UpdateFirmwareFeature].
End firmware.

(** *** Package iso15118 *)

Module iso15118.
Definition DeleteCertificateStatus : goenum := mkEnum "iso15118.DeleteCertificateStatus" ["Accepted"; "Failed";
  "NotFound"].
Definition CertificateAction : goenum := mkEnum "iso15118.CertificateAction" ["Install"; "Update"].
Definition GetInstalledCertificateStatus : goenum := mkEnum "iso15118.GetInstalledCertificateStatus" ["Accepted";
  "NotFound"].
Definition InstallCertificateStatus : goenum := mkEnum "iso15118.InstallCertificateStatus" ["Accepted"; "Rejected";
  "Failed"].
Definition isValidDeleteCertificateStatus : validator := mkValidator "iso15118.DeleteCertificateStatus" ["Accepted";
  "Failed"; "NotFound"].
Definition isValidCertificateAction : validator := mkValidator "iso15118.CertificateAction" ["Install"; "Update"].
Definition isValidGetInstalledCertificateStatus : validator := mkValidator "iso15118.GetInstalledCertificateStatus"
  ["Accepted"; "NotFound"].
Definition isValidInstallCertificateStatus : validator := mkValidator "iso15118.InstallCertificateStatus" ["Accepted";
  "Rejected"; "Failed"].
Definition DeleteCertificateRequest : gotype := TStruct "iso15118.DeleteCertificateRequest"
  [(mkField "CertificateHashData" "certificateHashData" false [Required], types.CertificateHashData)].
Definition DeleteCertificateResponse : gotype := TStruct "iso15118.DeleteCertificateResponse"
  [(mkField "Status" "status" false [Required; Custom "deleteCertificateStatus"], TEnum "iso15118.DeleteCertificateStatus");
   (mkField "StatusInfo" "statusInfo" true [Omitempty], TPtr types.StatusInfo)].
Definition Get15118EVCertificateRequest : gotype := TStruct "iso15118.Get15118EVCertificateRequest"
  [(mkField "SchemaVersion" "iso15118SchemaVersion" false [Required; Max 50], TString);
   (mkField "Action" "action" false [Required; Custom "certificateAction"], TEnum "iso15118.CertificateAction");
   (mkField "ExiRequest" "exiRequest" false [Required; Max 5600], TString)].
Definition Get15118EVCertificateResponse : gotype := TStruct "iso15118.Get15118EVCertificateResponse"
  [(mkField "Status" "status" false [Required; Custom "15118EVCertificate"], TEnum "types.Certificate15118EVStatus");
   (mkField "ExiResponse" "exiResponse" false [Required; Max 5600], TString);
   (mkField "StatusInfo" "statusInfo" true [Omitempty], TPtr types.StatusInfo)].
Definition GetCertificateStatusRequest : gotype := TStruct "iso15118.GetCertificateStatusRequest"
  [(mkField "OcspRequestData" "ocspRequestData" false [Required], types.OCSPRequestData)].
Definition GetCertificateStatusResponse : gotype := TStruct "iso15118.GetCertificateStatusResponse"
  [(mkField "Status" "status" false [Required; Custom "genericStatusType201"], TEnum "types.GenericStatusType");
   (mkField "OcspResult" "ocspResult" true [Omitempty; Max 5500], TString);
   (mkField "StatusInfo" "statusInfo" true [Omitempty], TPtr types.StatusInfo)].
Definition GetInstalledCertificateIdsRequest : gotype := TStruct "iso15118.GetInstalledCertificateIdsRequest"
  [(mkField "CertificateTypes" "certificateType" false [Omitempty; Dive; Custom "certificateUse"], TSlice (TEnum "types.CertificateUse"))].
Definition GetInstalledCertificateIdsResponse : gotype := TStruct "iso15118.GetInstalledCertificateIdsResponse"
  [(mkField "Status" "status" false [Required; Custom "getInstalledCertificateStatus"], TEnum "iso15118.GetInstalledCertificateStatus");
   (mkField "StatusInfo" "statusInfo" true [Omitempty], TPtr types.StatusInfo);
   (mkField "CertificateHashDataChain" "certificateHashDataChain" true [Omitempty; Dive], TSlice types.CertificateHashDataChain)].
Definition InstallCertificateRequest : gotype := TStruct "iso15118.InstallCertificateRequest"
  [(mkField "CertificateType" "certificateType" false [Required; Custom "certificateUse"], TEnum "types.CertificateUse");
   (mkField "Certificate" "certificate" false [Required; Max 5500], TString)].
Definition InstallCertificateResponse : gotype := TStruct "iso15118.InstallCertificateResponse"
  [(mkField "Status" "status" false [Required; Custom "installCertificateStatus"], TEnum "iso15118.InstallCertificateStatus");
   (mkField "StatusInfo" "statusInfo" true [Omitempty], TPtr types.StatusInfo)].
Definition NewDeleteCertificateRequest : constructor := mkCtor DeleteCertificateRequest [types.CertificateHashData]
  [("CertificateHashData", Arg 0)].
Definition NewDeleteCertificateResponse : constructor := mkCtor DeleteCertificateResponse [TEnum
  "iso15118.DeleteCertificateStatus"] [("Status", Arg 0)].
Definition NewGet15118EVCertificateRequest : constructor := mkCtor Get15118EVCertificateRequest [TString; TEnum
  "iso15118.CertificateAction"; TString] [("SchemaVersion", Arg 0); ("Action", Arg 1); ("ExiRequest", Arg 2)].
Definition NewGet15118EVCertificateResponse : constructor := mkCtor Get15118EVCertificateResponse [TEnum
  "types.Certificate15118EVStatus"; TString] [("Status", Arg 0); ("ExiResponse", Arg 1)].
Definition NewGetCertificateStatusRequest : constructor := mkCtor GetCertificateStatusRequest [types.OCSPRequestData]
  [("OcspRequestData", Arg 0)].
Definition NewGetCertificateStatusResponse : constructor := mkCtor GetCertificateStatusResponse [TEnum
  "types.GenericStatusType"] [("Status", Arg 0)].
Definition NewGetInstalledCertificateIdsRequest : constructor := mkCtor GetInstalledCertificateIdsRequest [] [].
Definition NewGetInstalledCertificateIdsResponse : constructor := mkCtor GetInstalledCertificateIdsResponse [TEnum
  "iso15118.GetInstalledCertificateStatus"] [("Status", Arg 0)].
Definition NewInstallCertificateRequest : constructor := mkCtor InstallCertificateRequest [TEnum
  "types.CertificateUse"; TString] [("CertificateType", Arg 0); ("Certificate", Arg 1)].
Definition NewInstallCertificateResponse : constructor := mkCtor InstallCertificateResponse [TEnum
  "iso15118.InstallCertificateStatus"] [("Status", Arg 0)].
Definition DeleteCertificateFeature : message_feature := mkMessageFeature "DeleteCertificate" DeleteCertificateRequest
  DeleteCertificateResponse.
Definition Get15118EVCertificateFeature : message_feature := mkMessageFeature "Get15118EVCertificate"
  Get15118EVCertificateRequest Get15118EVCertificateResponse.
Definition GetCertificateStatusFeature : message_feature := mkMessageFeature "GetCertificateStatus"
  GetCertificateStatusRequest GetCertificateStatusResponse.
Definition GetInstalledCertificateIdsFeature : message_feature := mkMessageFeature "GetInstalledCertificateIds"
  GetInstalledCertificateIdsRequest GetInstalledCertificateIdsResponse.
Definition InstallCertificateFeature : message_feature := mkMessageFeature "InstallCertificate"
  InstallCertificateRequest InstallCertificateResponse.
Definition registrations : list (string * validator) := [("deleteCertificateStatus", isValidDeleteCertificateStatus);
  ("certificateAction", isValidCertificateAction); ("getInstalledCertificateStatus",
  isValidGetInstalledCertificateStatus); ("installCertificateStatus", isValidInstallCertificateStatus)].
Definition enums : list goenum := [DeleteCertificateStatus; CertificateAction; GetInstalledCertificateStatus;
  InstallCertificateStatus].
Definition structs : list gotype := [DeleteCertificateRequest; DeleteCertificateResponse;
  Get15118EVCertificateRequest; Get15118EVCertificateResponse; GetCertificateStatusRequest;
  GetCertificateStatusResponse; GetInstalledCertificateIdsRequest; GetInstalledCertificateIdsResponse;
  InstallCertificateRequest; InstallCertificateResponse].
Definition constructors : list constructor := [NewDeleteCertificateRequest; NewDeleteCertificateResponse;
  NewGet15118EVCertificateRequest; NewGet15118EVCertificateResponse; NewGetCertificateStatusRequest;
  NewGetCertificateStatusResponse; NewGetInstalledCertificateIdsRequest; NewGetInstalledCertificateIdsResponse;
  NewInstallCertificateRequest; NewInstallCertificateResponse].
Definition features : list message_feature := [DeleteCertificateFeature; Get15118EVCertificateFeature;
  GetCertificateStatusFeature; GetInstalledCertificateIdsFeature; InstallCertificateFeature].
End iso15118.

(** *** Package localauth *)

Module localauth.
Definition UpdateType : goenum := mkEnum "localauth.UpdateType" ["Differential"; "Full"].
Definition SendLocalListStatus : goenum := mkEnum "localauth.SendLocalListStatus" ["Accepted"; "Failed";
  "VersionMismatch"].
Definition isValidUpdateType : validator := mkValidator "localauth.UpdateType" ["Differential"; "Full"].
Definition isValidSendLocalListStatus : validator := mkValidator "localauth.SendLocalListStatus" ["Accepted";
  "Failed"; "VersionMismatch"].
Definition GetLocalListVersionRequest : gotype := TStruct "localauth.GetLocalListVersionRequest" [].
Definition GetLocalListVersionResponse : gotype := TStruct "localauth.GetLocalListVersionResponse"
  [(mkField "VersionNumber" "versionNumber" false [Gte 0], TInt)].
Definition AuthorizationData : gotype := TStruct "localauth.AuthorizationData"
  [(mkField "IdTokenInfo" "idTokenInfo" true [Omitempty], TPtr types.IDTokenInfo);
   (mkField "IdToken" "idToken" false [], types.IDToken)].
Definition SendLocalListRequest : gotype := TStruct "localauth.SendLocalListRequest"
  [(mkField "VersionNumber" "versionNumber" false [Gte 0], TInt);
   (mkField "UpdateType" "updateType" false [Required; Custom "updateType201"], TEnum "localauth.UpdateType");
   (mkField "LocalAuthorizationList" "localAuthorizationList" true [Omitempty; Dive], TSlice AuthorizationData)].
Definition SendLocalListResponse : gotype := TStruct "localauth.SendLocalListResponse"
  [(mkField "Status" "status" false [Required; Custom "sendLocalListStatus"], TEnum "localauth.SendLocalListStatus");
   (mkField "StatusInfo" "statusInfo" true [Omitempty], TPtr types.StatusInfo)].
Definition NewGetLocalListVersionRequest : constructor := mkCtor GetLocalListVersionRequest [] [].
Definition NewGetLocalListVersionResponse : constructor := mkCtor GetLocalListVersionResponse [TInt]
  [("VersionNumber", Arg 0)].
Definition NewSendLocalListRequest : constructor := mkCtor SendLocalListRequest [TInt; TEnum "localauth.UpdateType"]
  [("VersionNumber", Arg 0); ("UpdateType", Arg 1)].
Definition NewSendLocalListResponse : constructor := mkCtor SendLocalListResponse [TEnum
  "localauth.SendLocalListStatus"] [("Status", Arg 0)].
Definition GetLocalListVersionFeature : message_feature := mkMessageFeature "GetLocalListVersion"
  GetLocalListVersionRequest GetLocalListVersionResponse.
Definition SendLocalListFeature : message_feature := mkMessageFeature "SendLocalList" SendLocalListRequest
  SendLocalListResponse.
Definition registrations : list (string * validator) := [("updateType201", isValidUpdateType); ("sendLocalListStatus",
  isValidSendLocalListStatus)].
Definition enums : list goenum := [UpdateType; SendLocalListStatus].
Definition structs : list gotype := [GetLocalListVersionRequest; GetLocalListVersionResponse; AuthorizationData;
  SendLocalListRequest; SendLocalListResponse].
Definition constructors : list constructor := [NewGetLocalListVersionRequest; NewGetLocalListVersionResponse;
  NewSendLocalListRequest; NewSendLocalListResponse].
Definition features : list message_feature := [GetLocalListVersionFeature; SendLocalListFeature].
End localauth.

(** *** Package meter *)

Module meter.
Definition MeterValuesRequest : gotype := TStruct "meter.MeterValuesRequest"
  [(mkField "EvseID" "evseId" false [Gte 0], TInt);
   (mkField "MeterValue" "meterValue" false [Required; Min 1; Dive], TSlice types.MeterValue)].
Definition MeterValuesResponse : gotype := TStruct "meter.MeterValuesResponse" [].
Definition NewMeterValuesRequest : constructor := mkCtor MeterValuesRequest [TInt; TSlice types.MeterValue]
  [("EvseID", Arg 0); ("MeterValue", Arg 1)].
Definition NewMeterValuesResponse : constructor := mkCtor MeterValuesResponse [] [].
Definition MeterValuesFeature : message_feature := mkMessageFeature "MeterValues" MeterValuesRequest
  MeterValuesResponse.
Definition registrations : list (string * validator) := [].
Definition enums : list goenum := [].
Definition structs : list gotype := [MeterValuesRequest; MeterValuesResponse].
Definition constructors : list constructor := [NewMeterValuesRequest; NewMeterValuesResponse].
Definition features : list message_feature := [MeterValuesFeature].
End meter.

(** *** Package provisioning *)

Module provisioning.
Definition BootReasonType : goenum := mkEnum "provisioning.BootReasonType" ["ApplicationReset"; "FirmwareUpdate";
  "LocalReset"; "PowerUp"; "RemoteReset"; "ScheduledReset"; "Triggered"; "Unknown"; "Watchdog"].
Definition RegistrationStatusType : goenum := mkEnum "provisioning.RegistrationStatusType" ["Accepted"; "Pending";
  "Rejected"].
Definition ReportBaseType : goenum := mkEnum "provisioning.ReportBaseType" ["ConfigurationInventory"; "FullInventory";
  "SummaryInventory"].
Definition ComponentCriterion : goenum := mkEnum "provisioning.ComponentCriterion" ["Active"; "Available"; "Enabled";
  "Problem"].
Definition GetVariableStatus : goenum := mkEnum "provisioning.GetVariableStatus" ["Accepted"; "Rejected";
  "UnknownComponent"; "UnknownVariable"; "NotSupportedAttributeType"].
Definition Mutability : goenum := mkEnum "provisioning.Mutability" ["ReadOnly"; "WriteOnly"; "ReadWrite"].
Definition DataType : goenum := mkEnum "provisioning.DataType" ["string"; "decimal"; "integer"; "dateTime"; "boolean";
  "OptionList"; "SequenceList"; "MemberList"].
Definition ResetType : goenum := mkEnum "provisioning.ResetType" ["Immediate"; "OnIdle"].
Definition ResetStatus : goenum := mkEnum "provisioning.ResetStatus" ["Accepted"; "Rejected"; "Scheduled"].
Definition OCPPVersion : goenum := mkEnum "provisioning.OCPPVersion" ["OCPP12"; "OCPP15"; "OCPP16"; "OCPP20"].
Definition OCPPTransport : goenum := mkEnum "provisioning.OCPPTransport" ["JSON"; "SOAP"].
Definition SetNetworkProfileType : goenum := mkEnum "provisioning.SetNetworkProfileType" [].
Definition OCPPInterface : goenum := mkEnum "provisioning.OCPPInterface" ["Wired0"; "Wired1"; "Wired2"; "Wired3";
  "Wireless0"; "Wireless1"; "Wireless2"; "Wireless3"].
Definition VPNType : goenum := mkEnum "provisioning.VPNType" ["IKEv2"; "IPSec"; "L2TP"; "PPTP"].
Definition APNAuthentication : goenum := mkEnum "provisioning.APNAuthentication" ["CHAP"; "NONE"; "PAP"; "AUTO"].
Definition SetNetworkProfileStatus : goenum := mkEnum "provisioning.SetNetworkProfileStatus" ["Accepted"; "Rejected";
  "Failed"].
Definition SetVariableStatus : goenum := mkEnum "provisioning.SetVariableStatus" ["Accepted"; "Rejected";
  "UnknownComponent"; "UnknownVariable"; "NotSupportedAttributeType"; "RebootRequired"].
Definition isValidBootReasonType : validator := mkValidator "provisioning.BootReasonType" ["ApplicationReset";
  "FirmwareUpdate"; "LocalReset"; "PowerUp"; "RemoteReset"; "ScheduledReset"; "Triggered"; "Unknown"; "Watchdog"].
Definition isValidRegistrationStatusType : validator := mkValidator "provisioning.RegistrationStatusType" ["Accepted";
  "Pending"; "Rejected"].
Definition isValidReportBaseType : validator := mkValidator "provisioning.ReportBaseType" ["ConfigurationInventory";
  "FullInventory"; "SummaryInventory"].
Definition isValidComponentCriterion : validator := mkValidator "provisioning.ComponentCriterion" ["Active";
  "Available"; "Enabled"; "Problem"].
Definition isValidGetVariableStatus : validator := mkValidator "provisioning.GetVariableStatus" ["Accepted";
  "Rejected"; "UnknownComponent"; "UnknownVariable"; "NotSupportedAttributeType"].
Definition isValidMutability : validator := mkValidator "provisioning.Mutability" ["ReadOnly"; "WriteOnly";
  "ReadWrite"].
Definition isValidDataType : validator := mkValidator "provisioning.DataType" ["boolean"; "dateTime"; "decimal";
  "integer"; "string"; "OptionList"; "SequenceList"; "MemberList"].
Definition isValidResetType : validator := mkValidator "provisioning.ResetType" ["Immediate"; "OnIdle"].
Definition isValidResetStatus : validator := mkValidator "provisioning.ResetStatus" ["Accepted"; "Rejected";
  "Scheduled"].
Definition isValidOCPPVersion : validator := mkValidator "provisioning.OCPPVersion" ["OCPP12"; "OCPP15"; "OCPP16";
  "OCPP20"].
Definition isValidOCPPTransport : validator := mkValidator "provisioning.OCPPTransport" ["JSON"; "SOAP"].
Definition isValidOCPPInterface : validator := mkValidator "provisioning.OCPPInterface" ["Wired0"; "Wired1"; "Wired2";
  "Wired3"; "Wireless0"; "Wireless1"; "Wireless2"; "Wireless3"].
Definition isValidVPNType : validator := mkValidator "provisioning.VPNType" ["IKEv2"; "IPSec"; "L2TP"; "PPTP"].
Definition isValidAPNAuthentication : validator := mkValidator "provisioning.APNAuthentication" ["AUTO"; "CHAP";
  "PAP"; "NONE"].
Definition isValidSetNetworkProfileStatus : validator := mkValidator "provisioning.SetNetworkProfileStatus"
  ["Accepted"; "Rejected"; "Failed"].
Definition isValidSetVariableStatus : validator := mkValidator "provisioning.SetVariableStatus" ["Accepted";
  "Rejected"; "UnknownComponent"; "UnknownVariable"; "NotSupportedAttributeType"; "RebootRequired"].
Definition Modem : gotype := TStruct "provisioning.Modem"
  [(mkField "CustomData" "customData" true [Omitempty], TPtr TCustomData);
   (mkField "Iccid" "iccid" true [Omitempty; Max 20], TString);
   (mkField "Imsi" "imsi" true [Omitempty; Max 20], TString)].
Definition ChargingStation : gotype := TStruct "provisioning.ChargingStation"
  [(mkField "CustomData" "customData" true [Omitempty], TPtr TCustomData);
   (mkField "SerialNumber" "serialNumber" true [Omitempty; Max 25], TString);
   (mkField "Model" "model" false [Required; Max 20], TString);
   (mkField "Modem" "modem" true [Omitempty], TPtr Modem);
   (mkField "VendorName" "vendorName" false [Required; Max 50], TString);
   (mkField "FirmwareVersion" "firmwareVersion" true [Omitempty; Max 50], TString)].
Definition BootNotificationRequest : gotype := TStruct "provisioning.BootNotificationRequest"
  [(mkField "CustomData" "customData" true [Omitempty], TPtr TCustomData);
   (mkField "ChargingStation" "chargingStation" false [Required], ChargingStation);
   (mkField "Reason" "reason" false [Required; Custom "bootReasonType201"], TEnum "provisioning.BootReasonType")].
Definition BootNotificationResponse : gotype := TStruct "provisioning.BootNotificationResponse"
  [(mkField "CustomData" "customData" true [Omitempty], TPtr TCustomData);
   (mkField "CurrentTime" "currentTime" false [Required], TPtr TDateTime);
   (mkField "Interval" "interval" false [Required; Gte 0], TInt);
   (mkField "Status" "status" false [Required; Custom "registrationStatusType201"], TEnum "provisioning.RegistrationStatusType");
   (mkField "StatusInfo" "statusInfo" true [Omitempty], TPtr types.StatusInfo)].
Definition GetBaseReportRequest : gotype := TStruct "provisioning.GetBaseReportRequest"
  [(mkField "RequestID" "requestId" false [], TInt);
   (mkField "ReportBase" "reportBase" false [Required; Custom "reportBaseType"], TEnum "provisioning.ReportBaseType")].
Definition GetBaseReportResponse : gotype := TStruct "provisioning.GetBaseReportResponse"
  [(mkField "Status" "status" false [Required; Custom "genericDeviceModelStatusType201"], TEnum "types.GenericDeviceModelStatusType");
   (mkField "StatusInfo" "statusInfo" true [Omitempty], TPtr types.StatusInfo)].
Definition GetReportRequest : gotype := TStruct "provisioning.GetReportRequest"
  [(mkField "RequestID" "requestId" true [Omitempty; Gte 0], TPtr TInt);
   (mkField "ComponentCriteria" "componentCriteria" true [Omitempty; Max 4; Dive; Custom "componentCriterion"], TSlice (TEnum "provisioning.ComponentCriterion"));
   (mkField "ComponentVariable" "componentVariable" true [Omitempty; Dive], TSlice types.ComponentVariable)].
Definition GetReportResponse : gotype := TStruct "provisioning.GetReportResponse"
  [(mkField "Status" "status" false [Required; Custom "genericDeviceModelStatusType201"], TEnum "types.GenericDeviceModelStatusType")].
Definition GetVariableData : gotype := TStruct "provisioning.GetVariableData"
  [(mkField "AttributeType" "attributeType" true [Omitempty; Custom "attributeType201"], TEnum "types.AttributeType");
   (mkField "Component" "component" false [Required], types.Component);
   (mkField "Variable" "variable" false [Required], types.Variable_)].
Definition GetVariableResult : gotype := TStruct "provisioning.GetVariableResult"
  [(mkField "AttributeStatus" "attributeStatus" false [Required; Custom "getVariableStatus"], TEnum "provisioning.GetVariableStatus");
   (mkField "AttributeType" "attributeType" true [Omitempty; Custom "attributeType201"], TEnum "types.AttributeType");
   (mkField "AttributeValue" "attributeValue" true [Omitempty; Max 1000], TString);
   (mkField "Component" "component" false [Required], types.Component);
   (mkField "Variable" "variable" false [Required], types.Variable_)].
Definition GetVariablesRequest : gotype := TStruct "provisioning.GetVariablesRequest"
  [(mkField "GetVariableData" "getVariableData" false [Required; Min 1; Dive], TSlice GetVariableData)].
Definition GetVariablesResponse : gotype := TStruct "provisioning.GetVariablesResponse"
  [(mkField "GetVariableResult" "getVariableResult" false [Required; Min 1; Dive], TSlice GetVariableResult)].
Definition VariableCharacteristics : gotype := TStruct "provisioning.VariableCharacteristics"
  [(mkField "Unit" "unit" true [Max 16], TString);
   (mkField "DataType" "dataType" false [Required; Custom "dataTypeEnum"], TEnum "provisioning.DataType");
   (mkField "MinLimit" "minLimit" true [], TPtr TFloat);
   (mkField "MaxLimit" "maxLimit" true [], TPtr TFloat);
   (mkField "ValuesList" "valuesList" true [Max 1000], TString);
   (mkField "SupportsMonitoring" "supportsMonitoring" false [], TBool)].
Definition VariableAttribute : gotype := TStruct "provisioning.VariableAttribute"
  [(mkField "Type" "type" true [Omitempty; Custom "attributeType201"], TEnum "types.AttributeType");
   (mkField "Value" "value" true [Max 2500], TString);
   (mkField "Mutability" "mutability" true [Omitempty; Custom "mutability"], TEnum "provisioning.Mutability");
   (mkField "Persistent" "persistent" true [], TBool);
   (mkField "Constant" "constant" true [], TBool)].
Definition ReportData : gotype := TStruct "provisioning.ReportData"
  [(mkField "Component" "component" false [Required], types.Component);
   (mkField "Variable" "variable" false [Required], types.Variable_);
   (mkField "VariableAttribute" "variableAttribute" false [Required; Min 1; Max 4; Dive], TSlice VariableAttribute);
   (mkField "VariableCharacteristics" "variableCharacteristics" true [Omitempty], TPtr VariableCharacteristics)].
Definition NotifyReportRequest : gotype := TStruct "provisioning.NotifyReportRequest"
  [(mkField "RequestID" "requestId" false [Gte 0], TInt);
   (mkField "GeneratedAt" "generatedAt" false [Required], TPtr TDateTime);
   (mkField "Tbc" "tbc" true [Omitempty], TBool);
   (mkField "SeqNo" "seqNo" false [Gte 0], TInt);
   (mkField "ReportData" "reportData" true [Omitempty; Dive], TSlice ReportData)].
Definition NotifyReportResponse : gotype := TStruct "provisioning.NotifyReportResponse" [].
Definition ResetRequest : gotype := TStruct "provisioning.ResetRequest"
  [(mkField "Type" "type" false [Custom "resetType201"], TEnum "provisioning.ResetType");
   (mkField "EvseID" "evseId" true [Omitempty; Gte 0], TPtr TInt)].
Definition ResetResponse : gotype := TStruct "provisioning.ResetResponse"
  [(mkField "Status" "status" false [Required; Custom "resetStatus201"], TEnum "provisioning.ResetStatus");
   (mkField "StatusInfo" "statusInfo" false [Omitempty], TPtr types.StatusInfo)].
Definition VPN : gotype := TStruct "provisioning.VPN"
  [(mkField "Server" "server" false [Required; Max 512], TString);
   (mkField "User" "user" false [Required; Max 20], TString);
   (mkField "Group" "group" true [Omitempty; Max 20], TString);
   (mkField "Password" "password" false [Required; Max 20], TString);
   (mkField "Key" "key" false [Required; Max 255], TString);
   (mkField "Type" "type" false [Required; Custom "vpnType"], TEnum "provisioning.VPNType")].
Definition APN : gotype := TStruct "provisioning.APN"
  [(mkField "APN" "apn" false [Required; Max 512], TString);
   (mkField "APNUsername" "apnUserName" true [Omitempty; Max 20], TString);
   (mkField "APNPassword" "apnPassword" true [Omitempty; Max 20], TString);
   (mkField "SimPin" "simPin" true [Omitempty; Gte 0], TPtr TInt);
   (mkField "PreferredNetwork" "preferredNetwork" true [Omitempty; Max 6], TString);
   (mkField "UseOnlyPreferredNetwork" "useOnlyPreferredNetwork" true [], TBool);
   (mkField "APNAuthentication" "apnAuthentication" false [Required; Custom "apnAuthentication"], TEnum "provisioning.APNAuthentication")].
Definition NetworkConnectionProfile : gotype := TStruct "provisioning.NetworkConnectionProfile"
  [(mkField "OCPPVersion" "ocppVersion" false [Required; Custom "ocppVersion"], TEnum "provisioning.OCPPVersion");
   (mkField "OCPPTransport" "ocppTransport" false [Required; Custom "ocppTransport"], TEnum "provisioning.OCPPTransport");
   (mkField "CSMSUrl" "ocppCsmsUrl" false [Required; Max 512], TString);
   (mkField "MessageTimeout" "messageTimeout" false [Gte (-1)], TInt);
   (mkField "SecurityProfile" "securityProfile" false [], TInt);
   (mkField "OCPPInterface" "ocppInterface" false [Required; Custom "ocppInterface"], TEnum "provisioning.OCPPInterface");
   (mkField "VPN" "vpn" true [Omitempty], TPtr VPN);
   (mkField "APN" "apn" true [Omitempty], TPtr APN)].
Definition SetNetworkProfileRequest : gotype := TStruct "provisioning.SetNetworkProfileRequest"
  [(mkField "ConfigurationSlot" "configurationSlot" false [Gte 0], TInt);
   (mkField "ConnectionData" "connectionData" false [Required], NetworkConnectionProfile)].
Definition SetNetworkProfileResponse : gotype := TStruct "provisioning.SetNetworkProfileResponse"
  [(mkField "Status" "status" false [Required; Custom "setNetworkProfileStatus"], TEnum "provisioning.SetNetworkProfileStatus");
   (mkField "StatusInfo" "statusInfo" false [Omitempty], TPtr types.StatusInfo)].
Definition SetVariableData : gotype := TStruct "provisioning.SetVariableData"
  [(mkField "AttributeType" "attributeType" true [Omitempty; Custom "attributeType201"], TEnum "types.AttributeType");
   (mkField "AttributeValue" "attributeValue" false [Required; Max 1000], TString);
   (mkField "Component" "component" false [Required], types.Component);
   (mkField "Variable" "variable" false [Required], types.Variable_)].
Definition SetVariableResult : gotype := TStruct "provisioning.SetVariableResult"
  [(mkField "AttributeType" "attributeType" true [Omitempty; Custom "attributeType201"], TEnum "types.AttributeType");
   (mkField "AttributeStatus" "attributeStatus" false [Required; Custom "setVariableStatus"], TEnum "provisioning.SetVariableStatus");
   (mkField "Component" "component" false [Required], types.Component);
   (mkField "Variable" "variable" false [Required], types.Variable_);
   (mkField "StatusInfo" "statusInfo" true [Omitempty], TPtr types.StatusInfo)].
Definition SetVariablesRequest : gotype := TStruct "provisioning.SetVariablesRequest"
  [(mkField "SetVariableData" "setVariableData" false [Required; Min 1; Dive], TSlice SetVariableData)].
Definition SetVariablesResponse : gotype := TStruct "provisioning.SetVariablesResponse"
  [(mkField "SetVariableResult" "setVariableResult" false [Required; Min 1; Dive], TSlice SetVariableResult)].
Definition NewChargingStation : constructor := mkCtor ChargingStation [TString; TString] [("Model", Arg 0);
  ("VendorName", Arg 1)].
Definition NewModem : constructor := mkCtor Modem [] [].
Definition NewBootNotificationRequest : constructor := mkCtor BootNotificationRequest [ChargingStation; TEnum
  "provisioning.BootReasonType"] [("ChargingStation", Arg 0); ("Reason", Arg 1)].
Definition NewBootNotificationResponse : constructor := mkCtor BootNotificationResponse [TPtr TDateTime; TInt; TEnum
  "provisioning.RegistrationStatusType"] [("CurrentTime", Arg 0); ("Interval", Arg 1); ("Status", Arg 2)].
Definition NewGetBaseReportRequest : constructor := mkCtor GetBaseReportRequest [TInt; TEnum
  "provisioning.ReportBaseType"] [("RequestID", Arg 0); ("ReportBase", Arg 1)].
Definition NewGetBaseReportResponse : constructor := mkCtor GetBaseReportResponse [TEnum
  "types.GenericDeviceModelStatusType"] [("Status", Arg 0)].
Definition NewGetReportRequest : constructor := mkCtor GetReportRequest [] [].
Definition NewGetReportResponse : constructor := mkCtor GetReportResponse [TEnum "types.GenericDeviceModelStatusType"]
  [("Status", Arg 0)].
Definition NewGetVariablesRequest : constructor := mkCtor GetVariablesRequest [TSlice GetVariableData]
  [("GetVariableData", Arg 0)].
Definition NewGetVariablesResponse : constructor := mkCtor GetVariablesResponse [TSlice GetVariableResult]
  [("GetVariableResult", Arg 0)].
Definition NewVariableCharacteristics : constructor := mkCtor VariableCharacteristics [TEnum "provisioning.DataType";
  TBool] [("DataType", Arg 0); ("SupportsMonitoring", Arg 1)].
Definition NewVariableAttribute : constructor := mkCtor VariableAttribute [] [("Type", Lit (VStr "Actual"));
  ("Mutability", Lit (VStr "ReadWrite"))].
Definition NewNotifyReportRequest : constructor := mkCtor NotifyReportRequest [TInt; TPtr TDateTime; TInt]
  [("RequestID", Arg 0); ("GeneratedAt", Arg 1); ("SeqNo", Arg 2)].
Definition NewNotifyReportResponse : constructor := mkCtor NotifyReportResponse [] [].
Definition NewResetRequest : constructor := mkCtor ResetRequest [TEnum "provisioning.ResetType"] [("Type", Arg 0)].
Definition NewResetResponse : constructor := mkCtor ResetResponse [TEnum "provisioning.ResetStatus"] [("Status", Arg
  0)].
Definition NewSetNetworkProfileRequest : constructor := mkCtor SetNetworkProfileRequest [TInt;
  NetworkConnectionProfile] [("ConfigurationSlot", Arg 0); ("ConnectionData", Arg 1)].
Definition NewSetNetworkProfileResponse : constructor := mkCtor SetNetworkProfileResponse [TEnum
  "provisioning.SetNetworkProfileStatus"] [("Status", Arg 0)].
Definition NewSetVariablesRequest : constructor := mkCtor SetVariablesRequest [TSlice SetVariableData]
  [("SetVariableData", Arg 0)].
Definition NewSetVariablesResponse : constructor := mkCtor SetVariablesResponse [TSlice SetVariableResult]
  [("SetVariableResult", Arg 0)].
Definition BootNotificationFeature : message_feature := mkMessageFeature "BootNotification" BootNotificationRequest
  BootNotificationResponse.
Definition GetBaseReportFeature : message_feature := mkMessageFeature "GetBaseReport" GetBaseReportRequest
  GetBaseReportResponse.
Definition GetReportFeature : message_feature := mkMessageFeature "GetReport" GetReportRequest GetReportResponse.
Definition GetVariablesFeature : message_feature := mkMessageFeature "GetVariables" GetVariablesRequest
  GetVariablesResponse.
Definition NotifyReportFeature : message_feature := mkMessageFeature "NotifyReport" NotifyReportRequest
  NotifyReportResponse.
Definition ResetFeature : message_feature := mkMessageFeature "Reset" ResetRequest ResetResponse.
Definition SetNetworkProfileFeature : message_feature := mkMessageFeature "SetNetworkProfile" SetNetworkProfileRequest
  SetNetworkProfileResponse.
Definition SetVariablesFeature : message_feature := mkMessageFeature "SetVariables" SetVariablesRequest
  SetVariablesResponse.
Definition registrations : list (string * validator) := [("bootReasonType201", isValidBootReasonType);
  ("registrationStatusType201", isValidRegistrationStatusType); ("reportBaseType", isValidReportBaseType);
  ("componentCriterion", isValidComponentCriterion); ("getVariableStatus", isValidGetVariableStatus); ("mutability",
  isValidMutability); ("dataTypeEnum", isValidDataType); ("resetType201", isValidResetType); ("resetStatus201",
  isValidResetStatus); ("ocppVersion", isValidOCPPVersion); ("ocppTransport", isValidOCPPTransport); ("ocppInterface",
  isValidOCPPInterface); ("vpnType", isValidVPNType); ("apnAuthentication", isValidAPNAuthentication);
  ("setNetworkProfileStatus", isValidSetNetworkProfileStatus); ("setVariableStatus", isValidSetVariableStatus)].
Definition enums : list goenum := [BootReasonType; RegistrationStatusType; ReportBaseType; ComponentCriterion;
  GetVariableStatus; Mutability; DataType; ResetType; ResetStatus; OCPPVersion; OCPPTransport; SetNetworkProfileType;
  OCPPInterface; VPNType; APNAuthentication; SetNetworkProfileStatus; SetVariableStatus].
Definition structs : list gotype := [Modem; ChargingStation; BootNotificationRequest; BootNotificationResponse;
  GetBaseReportRequest; GetBaseReportResponse; GetReportRequest; GetReportResponse; GetVariableData;
  GetVariableResult; GetVariablesRequest; GetVariablesResponse; VariableCharacteristics; VariableAttribute;
  ReportData; NotifyReportRequest; NotifyReportResponse; ResetRequest; ResetResponse; VPN; APN;
  NetworkConnectionProfile; SetNetworkProfileRequest; SetNetworkProfileResponse; SetVariableData; SetVariableResult;
  SetVariablesRequest; SetVariablesResponse].
Definition constructors : list constructor := [NewChargingStation; NewModem; NewBootNotificationRequest;
  NewBootNotificationResponse; NewGetBaseReportRequest; NewGetBaseReportResponse; NewGetReportRequest;
  NewGetReportResponse; NewGetVariablesRequest; NewGetVariablesResponse; NewVariableCharacteristics;
  NewVariableAttribute; NewNotifyReportRequest; NewNotifyReportResponse; NewResetRequest; NewResetResponse;
  NewSetNetworkProfileRequest; NewSetNetworkProfileResponse; NewSetVariablesRequest; NewSetVariablesResponse].
Definition features : list message_feature := [BootNotificationFeature; GetBaseReportFeature; GetReportFeature;
  GetVariablesFeature; NotifyReportFeature; ResetFeature; SetNetworkProfileFeature; SetVariablesFeature].
End provisioning.

(** *** Package remotecontrol *)

Module remotecontrol.
Definition RequestStartStopStatus : goenum := mkEnum "remotecontrol.RequestStartStopStatus" ["Accepted"; "Rejected"].
Definition MessageTrigger : goenum := mkEnum "remotecontrol.MessageTrigger" ["BootNotification";
  "LogStatusNotification"; "FirmwareStatusNotification"; "Heartbeat"; "MeterValues"; "SignChargingStationCertificate";
  "SignV2GCertificate"; "StatusNotification"; "TransactionEvent"; "SignCombinedCertificate";
  "PublishFirmwareStatusNotification"].
Definition TriggerMessageStatus : goenum := mkEnum "remotecontrol.TriggerMessageStatus" ["Accepted"; "Rejected";
  "NotImplemented"].
Definition UnlockStatus : goenum := mkEnum "remotecontrol.UnlockStatus" ["Unlocked"; "UnlockFailed";
  "OngoingAuthorizedTransaction"; "UnknownConnector"].
Definition isValidRequestStartStopStatus : validator := mkValidator "remotecontrol.RequestStartStopStatus"
  ["Accepted"; "Rejected"].
Definition isValidMessageTrigger : validator := mkValidator "remotecontrol.MessageTrigger" ["BootNotification";
  "LogStatusNotification"; "FirmwareStatusNotification"; "Heartbeat"; "MeterValues"; "SignChargingStationCertificate";
  "SignV2GCertificate"; "StatusNotification"; "TransactionEvent"; "SignCombinedCertificate";
  "PublishFirmwareStatusNotification"].
Definition isValidTriggerMessageStatus : validator := mkValidator "remotecontrol.TriggerMessageStatus" ["Accepted";
  "Rejected"; "NotImplemented"].
Definition isValidUnlockStatus : validator := mkValidator "remotecontrol.UnlockStatus" ["Unlocked"; "UnlockFailed";
  "OngoingAuthorizedTransaction"; "UnknownConnector"].
Definition RequestStartTransactionRequest : gotype := TStruct "remotecontrol.RequestStartTransactionRequest"
  [(mkField "EvseID" "evseId" true [Omitempty; Gt 0], TPtr TInt);
   (mkField "RemoteStartID" "remoteStartId" false [Gte 0], TInt);
   (mkField "IDToken" "idToken" false [], types.IDToken);
   (mkField "ChargingProfile" "chargingProfile" true [], TPtr types.ChargingProfile);
   (mkField "GroupIdToken" "groupIdToken" true [Omitempty; Dive], TPtr types.IDToken)].
Definition RequestStartTransactionResponse : gotype := TStruct "remotecontrol.RequestStartTransactionResponse"
  [(mkField "Status" "status" false [Required; Custom "requestStartStopStatus"], TEnum "remotecontrol.RequestStartStopStatus");
   (mkField "TransactionID" "transactionId" true [Max 36], TString);
   (mkField "StatusInfo" "statusInfo" true [], TPtr types.StatusInfo)].
Definition RequestStopTransactionRequest : gotype := TStruct "remotecontrol.RequestStopTransactionRequest"
  [(mkField "TransactionID" "transactionId" false [Required; Max 36], TString)].
Definition RequestStopTransactionResponse : gotype := TStruct "remotecontrol.RequestStopTransactionResponse"
  [(mkField "Status" "status" false [Required; Custom "requestStartStopStatus"], TEnum "remotecontrol.RequestStartStopStatus");
   (mkField "StatusInfo" "statusInfo" true [], TPtr types.StatusInfo)].
Definition TriggerMessageRequest : gotype := TStruct "remotecontrol.TriggerMessageRequest"
  [(mkField "RequestedMessage" "requestedMessage" false [Required; Custom "messageTrigger201"], TEnum "remotecontrol.MessageTrigger");
   (mkField "Evse" "evse" true [Omitempty], TPtr types.EVSE)].
Definition TriggerMessageResponse : gotype := TStruct "remotecontrol.TriggerMessageResponse"
  [(mkField "Status" "status" false [Required; Custom "triggerMessageStatus201"], TEnum "remotecontrol.TriggerMessageStatus");
   (mkField "StatusInfo" "statusInfo" true [], TPtr types.StatusInfo)].
Definition UnlockConnectorRequest : gotype := TStruct "remotecontrol.UnlockConnectorRequest"
  [(mkField "EvseID" "evseId" false [Gte 0], TInt);
   (mkField "ConnectorID" "connectorId" false [Gte 0], TInt)].
Definition UnlockConnectorResponse : gotype := TStruct "remotecontrol.UnlockConnectorResponse"
  [(mkField "Status" "status" false [Required; Custom "unlockStatus201"], TEnum "remotecontrol.UnlockStatus");
   (mkField "StatusInfo" "statusInfo" true [], TPtr types.StatusInfo)].
Definition NewRequestStartTransactionRequest : constructor := mkCtor RequestStartTransactionRequest [TInt;
  types.IDToken] [("RemoteStartID", Arg 0); ("IDToken", Arg 1)].
Definition NewRequestStartTransactionResponse : constructor := mkCtor RequestStartTransactionResponse [TEnum
  "remotecontrol.RequestStartStopStatus"] [("Status", Arg 0)].
Definition NewRequestStopTransactionRequest : constructor := mkCtor RequestStopTransactionRequest [TString]
  [("TransactionID", Arg 0)].
Definition NewRequestStopTransactionResponse : constructor := mkCtor RequestStopTransactionResponse [TEnum
  "remotecontrol.RequestStartStopStatus"] [("Status", Arg 0)].
Definition NewTriggerMessageRequest : constructor := mkCtor TriggerMessageRequest [TEnum
  "remotecontrol.MessageTrigger"] [("RequestedMessage", Arg 0)].
Definition NewTriggerMessageResponse : constructor := mkCtor TriggerMessageResponse [TEnum
  "remotecontrol.TriggerMessageStatus"] [("Status", Arg 0)].
Definition NewUnlockConnectorRequest : constructor := mkCtor UnlockConnectorRequest [TInt; TInt] [("EvseID", Arg 0);
  ("ConnectorID", Arg 1)].
Definition NewUnlockConnectorResponse : constructor := mkCtor UnlockConnectorResponse [TEnum
  "remotecontrol.UnlockStatus"] [("Status", Arg 0)].
Definition RequestStartTransactionFeature : message_feature := mkMessageFeature "RequestStartTransaction"
  RequestStartTransactionRequest RequestStartTransactionResponse.
Definition RequestStopTransactionFeature : message_feature := mkMessageFeature "RequestStopTransaction"
  RequestStopTransactionRequest RequestStopTransactionResponse.
Definition TriggerMessageFeature : message_feature := mkMessageFeature "TriggerMessage" TriggerMessageRequest
  TriggerMessageResponse.
Definition UnlockConnectorFeature : message_feature := mkMessageFeature "UnlockConnector" UnlockConnectorRequest
  UnlockConnectorResponse.
Definition registrations : list (string * validator) := [("requestStartStopStatus", isValidRequestStartStopStatus);
  ("messageTrigger201", isValidMessageTrigger); ("triggerMessageStatus201", isValidTriggerMessageStatus);
  ("unlockStatus201", isValidUnlockStatus)].
Definition enums : list goenum := [RequestStartStopStatus; MessageTrigger; TriggerMessageStatus; UnlockStatus].
Definition structs : list gotype := [RequestStartTransactionRequest; RequestStartTransactionResponse;
  RequestStopTransactionRequest; RequestStopTransactionResponse; TriggerMessageRequest; TriggerMessageResponse;
  UnlockConnectorRequest; UnlockConnectorResponse].
Definition constructors : list constructor := [NewRequestStartTransactionRequest; NewRequestStartTransactionResponse;
  NewRequestStopTransactionRequest; NewRequestStopTransactionResponse; NewTriggerMessageRequest;
  NewTriggerMessageResponse; NewUnlockConnectorRequest; NewUnlockConnectorResponse].
Definition features : list message_feature := [RequestStartTransactionFeature; RequestStopTransactionFeature;
  TriggerMessageFeature; UnlockConnectorFeature].
End remotecontrol.

(** *** Package reservation *)

Module reservation.
Definition CancelReservationStatus : goenum := mkEnum "reservation.CancelReservationStatus" ["Accepted"; "Rejected"].
Definition ReservationUpdateStatus : goenum := mkEnum "reservation.ReservationUpdateStatus" ["Expired"; "Removed"].
Definition ReserveNowStatus : goenum := mkEnum "reservation.ReserveNowStatus" ["Accepted"; "Faulted"; "Occupied";
  "Rejected"; "Unavailable"].
Definition ConnectorType : goenum := mkEnum "reservation.ConnectorType" ["cCCS1"; "cCCS2"; "cG105"; "cTesla";
  "cType1"; "cType2"; "s309-1P-16A"; "s309-1P-32A"; "s309-3P-16A"; "s309-3P-32A"; "sBS1361"; "sCEE-7-7"; "sType2";
  "sType3"; "Other1PhMax16A"; "Other1PhOver16A"; "Other3Ph"; "Pan"; "wInductive"; "wResonant"; "Undetermined";
  "Unknown"].
Definition isValidCancelReservationStatus : validator := mkValidator "reservation.CancelReservationStatus"
  ["Accepted"; "Rejected"].
Definition isValidReservationUpdateStatus : validator := mkValidator "reservation.ReservationUpdateStatus" ["Expired";
  "Removed"].
Definition isValidReserveNowStatus : validator := mkValidator "reservation.ReserveNowStatus" ["Accepted"; "Faulted";
  "Occupied"; "Rejected"; "Unavailable"].
Definition isValidConnectorType : validator := mkValidator "reservation.ConnectorType" ["cCCS1"; "cCCS2"; "cG105";
  "cTesla"; "cType1"; "cType2"; "s309-1P-16A"; "s309-1P-32A"; "s309-3P-16A"; "s309-3P-32A"; "sBS1361"; "sCEE-7-7";
  "sType2"; "sType3"; "Other1PhMax16A"; "Other1PhOver16A"; "Other3Ph"; "Pan"; "wInductive"; "wResonant";
  "Undetermined"; "Unknown"].
Definition CancelReservationRequest : gotype := TStruct "reservation.CancelReservationRequest"
  [(mkField "ReservationID" "reservationId" false [Gte 0], TInt)].
Definition CancelReservationResponse : gotype := TStruct "reservation.CancelReservationResponse"
  [(mkField "Status" "status" false [Required; Custom "cancelReservationStatus201"], TEnum "reservation.CancelReservationStatus");
   (mkField "StatusInfo" "statusInfo" true [Omitempty], TPtr types.StatusInfo)].
Definition ReservationStatusUpdateRequest : gotype := TStruct "reservation.ReservationStatusUpdateRequest"
  [(mkField "ReservationID" "reservationId" false [Gte 0], TInt);
   (mkField "Status" "reservationUpdateStatus" false [Required; Custom "reservationUpdateStatus"], TEnum "reservation.ReservationUpdateStatus")].
Definition ReservationStatusUpdateResponse : gotype := TStruct "reservation.ReservationStatusUpdateResponse" [].
Definition ReserveNowRequest : gotype := TStruct "reservation.ReserveNowRequest"
  [(mkField "ID" "id" false [Gte 0], TInt);
   (mkField "ExpiryDateTime" "expiryDateTime" false [Required], TPtr TDateTime);
   (mkField "ConnectorType" "connectorType" true [Omitempty; Custom "connectorType"], TEnum "reservation.ConnectorType");
   (mkField "EvseID" "evseId" true [Omitempty; Gte 0], TPtr TInt);
   (mkField "IdToken" "idToken" false [Required; Dive], types.IDToken);
   (mkField "GroupIdToken" "groupIdToken" true [Omitempty; Dive], TPtr types.IDToken)].
Definition ReserveNowResponse : gotype := TStruct "reservation.ReserveNowResponse"
  [(mkField "Status" "status" false [Required; Custom "reserveNowStatus"], TEnum "reservation.ReserveNowStatus");
   (mkField "StatusInfo" "statusInfo" true [Omitempty], TPtr types.StatusInfo)].
Definition NewCancelReservationRequest : constructor := mkCtor CancelReservationRequest [TInt] [("ReservationID", Arg
  0)].
Definition NewCancelReservationResponse : constructor := mkCtor CancelReservationResponse [TEnum
  "reservation.CancelReservationStatus"] [("Status", Arg 0)].
Definition NewReservationStatusUpdateRequest : constructor := mkCtor ReservationStatusUpdateRequest [TInt; TEnum
  "reservation.ReservationUpdateStatus"] [("ReservationID", Arg 0); ("Status", Arg 1)].
Definition NewReservationStatusUpdateResponse : constructor := mkCtor ReservationStatusUpdateResponse [] [].
Definition NewReserveNowRequest : constructor := mkCtor ReserveNowRequest [TInt; TPtr TDateTime; types.IDToken]
  [("ID", Arg 0); ("ExpiryDateTime", Arg 1); ("IdToken", Arg 2)].
Definition NewReserveNowResponse : constructor := mkCtor ReserveNowResponse [TEnum "reservation.ReserveNowStatus"]
  [("Status", Arg 0)].
Definition CancelReservationFeature : message_feature := mkMessageFeature "CancelReservation" CancelReservationRequest
  CancelReservationResponse.
Definition ReservationStatusUpdateFeature : message_feature := mkMessageFeature "ReservationStatusUpdate"
  ReservationStatusUpdateRequest ReservationStatusUpdateResponse.
Definition ReserveNowFeature : message_feature := mkMessageFeature "ReserveNow" ReserveNowRequest ReserveNowResponse.
Definition registrations : list (string * validator) := [("cancelReservationStatus201",
  isValidCancelReservationStatus); ("reservationUpdateStatus", isValidReservationUpdateStatus); ("reserveNowStatus",
  isValidReserveNowStatus); ("connectorType", isValidConnectorType)].
Definition enums : list goenum := [CancelReservationStatus; ReservationUpdateStatus; ReserveNowStatus; ConnectorType].
Definition structs : list gotype := [CancelReservationRequest; CancelReservationResponse;
  ReservationStatusUpdateRequest; ReservationStatusUpdateResponse; ReserveNowRequest; ReserveNowResponse].
Definition constructors : list constructor := [NewCancelReservationRequest; NewCancelReservationResponse;
  NewReservationStatusUpdateRequest; NewReservationStatusUpdateResponse; NewReserveNowRequest; NewReserveNowResponse].
Definition features : list message_feature := [CancelReservationFeature; ReservationStatusUpdateFeature;
  ReserveNowFeature].
End reservation.

(** *** Package security *)

Module security.
Definition CertificateSignedStatus : goenum := mkEnum "security.CertificateSignedStatus" ["Accepted"; "Rejected"].
Definition isValidCertificateSignedStatus : validator := mkValidator "security.CertificateSignedStatus" ["Accepted";
  "Rejected"].
Definition CertificateSignedRequest : gotype := TStruct "security.CertificateSignedRequest"
  [(mkField "CertificateChain" "certificateChain" false [Required; Max 10000], TString);
   (mkField "TypeOfCertificate" "certificateType" true [Omitempty; Custom "certificateSigningUseType201"], TEnum "types.CertificateSigningUseType")].
Definition CertificateSignedResponse : gotype := TStruct "security.CertificateSignedResponse"
  [(mkField "Status" "status" false [Required; Custom "certificateSignedStatus"], TEnum "security.CertificateSignedStatus");
   (mkField "StatusInfo" "statusInfo" true [Omitempty], TPtr types.StatusInfo)].
Definition SecurityEventNotificationRequest : gotype := TStruct "security.SecurityEventNotificationRequest"
  [(mkField "Type" "type" false [Required; Max 50], TString);
   (mkField "Timestamp" "timestamp" false [Required], TPtr TDateTime);
   (mkField "TechInfo" "techInfo" true [Omitempty; Max 255], TString)].
Definition SecurityEventNotificationResponse : gotype := TStruct "security.SecurityEventNotificationResponse" [].
Definition SignCertificateRequest : gotype := TStruct "security.SignCertificateRequest"
  [(mkField "CSR" "csr" false [Required; Max 5500], TString);
   (mkField "CertificateType" "certificateType" true [Omitempty; Custom "certificateSigningUseType201"], TEnum "types.CertificateSigningUseType")].
Definition SignCertificateResponse : gotype := TStruct "security.SignCertificateResponse"
  [(mkField "Status" "status" false [Required; Custom "genericStatusType201"], TEnum "types.GenericStatusType");
   (mkField "StatusInfo" "statusInfo" true [Omitempty], TPtr types.StatusInfo)].
Definition NewCertificateSignedRequest : constructor := mkCtor CertificateSignedRequest [TString]
  [("CertificateChain", Arg 0)].
Definition NewCertificateSignedResponse : constructor := mkCtor CertificateSignedResponse [TEnum
  "security.CertificateSignedStatus"] [("Status", Arg 0)].
Definition NewSecurityEventNotificationRequest : constructor := mkCtor SecurityEventNotificationRequest [TString; TPtr
  TDateTime] [("Type", Arg 0); ("Timestamp", Arg 1)].
Definition NewSecurityEventNotificationResponse : constructor := mkCtor SecurityEventNotificationResponse [] [].
Definition NewSignCertificateRequest : constructor := mkCtor SignCertificateRequest [TString] [("CSR", Arg 0)].
Definition NewSignCertificateResponse : constructor := mkCtor SignCertificateResponse [TEnum
  "types.GenericStatusType"] [("Status", Arg 0)].
Definition CertificateSignedFeature : message_feature := mkMessageFeature "CertificateSigned" CertificateSignedRequest
  CertificateSignedResponse.
Definition SecurityEventNotificationFeature : message_feature := mkMessageFeature "SecurityEventNotification"
  SecurityEventNotificationRequest SecurityEventNotificationResponse.
Definition SignCertificateFeature : message_feature := mkMessageFeature "SignCertificate" SignCertificateRequest
  SignCertificateResponse.
Definition registrations : list (string * validator) := [("certificateSignedStatus", isValidCertificateSignedStatus)].
Definition enums : list goenum := [CertificateSignedStatus].
Definition structs : list gotype := [CertificateSignedRequest; CertificateSignedResponse;
  SecurityEventNotificationRequest; SecurityEventNotificationResponse; SignCertificateRequest;
  SignCertificateResponse].
Definition constructors : list constructor := [NewCertificateSignedRequest; NewCertificateSignedResponse;
  NewSecurityEventNotificationRequest; NewSecurityEventNotificationResponse; NewSignCertificateRequest;
  NewSignCertificateResponse].
Definition features : list message_feature := [CertificateSignedFeature; SecurityEventNotificationFeature;
  SignCertificateFeature].
End security.

(** *** Package smartcharging *)

Module smartcharging.
Definition ClearChargingProfileStatus : goenum := mkEnum "smartcharging.ClearChargingProfileStatus" ["Accepted";
  "Unknown"].
Definition GetChargingProfileStatus : goenum := mkEnum "smartcharging.GetChargingProfileStatus" ["Accepted";
  "NoProfiles"].
Definition GetCompositeScheduleStatus : goenum := mkEnum "smartcharging.GetCompositeScheduleStatus" ["Accepted";
  "Rejected"].
Definition EnergyTransferMode : goenum := mkEnum "smartcharging.EnergyTransferMode" ["DC"; "AC_single_phase";
  "AC_two_phase"; "AC_three_phase"].
Definition EVChargingNeedsStatus : goenum := mkEnum "smartcharging.EVChargingNeedsStatus" ["Accepted"; "Rejected";
  "Processing"].
Definition ChargingProfileStatusType : goenum := mkEnum "smartcharging.ChargingProfileStatusType" ["Accepted";
  "Rejected"].
Definition isValidClearChargingProfileStatus : validator := mkValidator "smartcharging.ClearChargingProfileStatus"
  ["Accepted"; "Unknown"].
Definition isValidGetChargingProfileStatus : validator := mkValidator "smartcharging.GetChargingProfileStatus"
  ["Accepted"; "NoProfiles"].
Definition isValidGetCompositeScheduleStatus : validator := mkValidator "smartcharging.GetCompositeScheduleStatus"
  ["Accepted"; "Rejected"].
Definition isValidEnergyTransferMode : validator := mkValidator "smartcharging.EnergyTransferMode" ["AC_single_phase";
  "AC_two_phase"; "AC_three_phase"; "DC"].
Definition isValidEVChargingNeedsStatus : validator := mkValidator "smartcharging.EVChargingNeedsStatus" ["Accepted";
  "Rejected"; "Processing"].
Definition isValidChargingProfileStatusType : validator := mkValidator "smartcharging.ChargingProfileStatusType"
  ["Accepted"; "Rejected"].
Definition ClearChargingProfileType : gotype := TStruct "smartcharging.ClearChargingProfileType"
  [(mkField "EvseID" "evseId" true [Omitempty; Gte 0], TPtr TInt);
   (mkField "ChargingProfilePurpose" "chargingProfilePurpose" true [Omitempty; Custom "chargingProfilePurposeType201"], TEnum "types.ChargingProfilePurposeType");
   (mkField "StackLevel" "stackLevel" true [Omitempty; Gt 0], TPtr TInt)].
Definition ClearChargingProfileRequest : gotype := TStruct "smartcharging.ClearChargingProfileRequest"
  [(mkField "ChargingProfileID" "chargingProfileId" true [Omitempty], TPtr TInt);
   (mkField "ChargingProfileCriteria" "chargingProfileCriteria" true [Omitempty], TPtr ClearChargingProfileType)].
Definition ClearChargingProfileResponse : gotype := TStruct "smartcharging.ClearChargingProfileResponse"
  [(mkField "Status" "status" false [Required; Custom "clearChargingProfileStatus201"], TEnum "smartcharging.ClearChargingProfileStatus");
   (mkField "StatusInfo" "statusInfo" true [Omitempty], TPtr types.StatusInfo)].
Definition ClearedChargingLimitRequest : gotype := TStruct "smartcharging.ClearedChargingLimitRequest"
  [(mkField "ChargingLimitSource" "chargingLimitSource" false [Required; Custom "chargingLimitSourceType201"], TEnum "types.ChargingLimitSourceType");
   (mkField "EvseID" "evseId" true [Omitempty; Gte 0], TPtr TInt)].
Definition ClearedChargingLimitResponse : gotype := TStruct "smartcharging.ClearedChargingLimitResponse" [].
Definition ChargingProfileCriterion : gotype := TStruct "smartcharging.ChargingProfileCriterion"
  [(mkField "ChargingProfilePurpose" "chargingProfilePurpose" true [Omitempty; Custom "chargingProfilePurposeType201"], TEnum "types.ChargingProfilePurposeType");
   (mkField "StackLevel" "stackLevel" true [Omitempty; Gte 0], TPtr TInt);
   (mkField "ChargingProfileID" "chargingProfileId" true [Omitempty], TSlice TInt);
   (mkField "ChargingLimitSource" "chargingLimitSource" true [Omitempty; Max 4; Dive; Custom "chargingLimitSourceType201"], TSlice (TEnum "types.ChargingLimitSourceType"))].
Definition GetChargingProfilesRequest : gotype := TStruct "smartcharging.GetChargingProfilesRequest"
  [(mkField "RequestID" "requestId" false [], TInt);
   (mkField "EvseID" "evseId" true [Omitempty; Gte 0], TPtr TInt);
   (mkField "ChargingProfile" "chargingProfile" false [Required], ChargingProfileCriterion)].
Definition GetChargingProfilesResponse : gotype := TStruct "smartcharging.GetChargingProfilesResponse"
  [(mkField "Status" "status" false [Required; Custom "getChargingProfileStatus"], TEnum "smartcharging.GetChargingProfileStatus");
   (mkField "StatusInfo" "statusInfo" true [Omitempty], TPtr types.StatusInfo)].
Definition CompositeSchedule : gotype := TStruct "smartcharging.CompositeSchedule"
  [(mkField "StartDateTime" "startDateTime" true [Omitempty], TPtr TDateTime);
   (mkField "ChargingSchedule" "chargingSchedule" true [Omitempty], TPtr types.ChargingSchedule)].
Definition GetCompositeScheduleRequest : gotype := TStruct "smartcharging.GetCompositeScheduleRequest"
  [(mkField "Duration" "duration" false [Gte 0], TInt);
   (mkField "ChargingRateUnit" "chargingRateUnit" true [Omitempty; Custom "chargingRateUnitType201"], TEnum "types.ChargingRateUnitType");
   (mkField "EvseID" "evseId" false [Gte 0], TInt)].
Definition GetCompositeScheduleResponse : gotype := TStruct "smartcharging.GetCompositeScheduleResponse"
  [(mkField "Status" "status" false [Required; Custom "getCompositeScheduleStatus"], TEnum "smartcharging.GetCompositeScheduleStatus");
   (mkField "StatusInfo" "statusInfo" true [Omitempty], TPtr types.StatusInfo);
   (mkField "Schedule" "schedule" true [Omitempty], TPtr CompositeSchedule)].
Definition ChargingLimit : gotype := TStruct "smartcharging.ChargingLimit"
  [(mkField "ChargingLimitSource" "chargingLimitSource" false [Required; Custom "chargingLimitSourceType201"], TEnum "types.ChargingLimitSourceType");
   (mkField "IsGridCritical" "isGridCritical" true [Omitempty], TPtr TBool)].
Definition NotifyChargingLimitRequest : gotype := TStruct "smartcharging.NotifyChargingLimitRequest"
  [(mkField "EvseID" "evseId" true [Omitempty; Gte 0], TPtr TInt);
   (mkField "ChargingLimit" "chargingLimit" false [Required], ChargingLimit);
   (mkField "ChargingSchedule" "chargingSchedule" true [Omitempty; Dive], TSlice types.ChargingSchedule)].
Definition NotifyChargingLimitResponse : gotype := TStruct "smartcharging.NotifyChargingLimitResponse" [].
Definition ACChargingParameters : gotype := TStruct "smartcharging.ACChargingParameters"
  [(mkField "EnergyAmount" "energyAmount" false [Gte 0], TInt);
   (mkField "EVMinCurrent" "evMinCurrent" false [Gte 0], TInt);
   (mkField "EVMaxCurrent" "evMaxCurrent" false [Gte 0], TInt);
   (mkField "EVMaxVoltage" "evMaxVoltage" false [Gte 0], TInt)].
Definition DCChargingParameters : gotype := TStruct "smartcharging.DCChargingParameters"
  [(mkField "EVMaxCurrent" "evMaxCurrent" false [Gte 0], TInt);
   (mkField "EVMaxVoltage" "evMaxVoltage" false [Gte 0], TInt);
   (mkField "EnergyAmount" "energyAmount" true [Omitempty; Gte 0], TPtr TInt);
   (mkField "EVMaxPower" "evMaxPower" true [Omitempty; Gte 0], TPtr TInt);
   (mkField "StateOfCharge" "stateOfCharge" true [Omitempty; Gte 0; Lte 100], TPtr TInt);
   (mkField "EVEnergyCapacity" "evEnergyCapacity" true [Omitempty; Gte 0], TPtr TInt);
   (mkField "FullSoC" "fullSoC" true [Omitempty; Gte 0; Lte 100], TPtr TInt);
   (mkField "BulkSoC" "bulkSoC" true [Omitempty; Gte 0; Lte 100], TPtr TInt)].
Definition ChargingNeeds : gotype := TStruct "smartcharging.ChargingNeeds"
  [(mkField "RequestedEnergyTransfer" "requestedEnergyTransfer" false [Required; Custom "energyTransferMode"], TEnum "smartcharging.EnergyTransferMode");
   (mkField "DepartureTime" "departureTime" true [Omitempty], TPtr TDateTime);
   (mkField "ACChargingParameters" "acChargingParameters" true [Omitempty; Dive], TPtr ACChargingParameters);
   (mkField "DCChargingParameters" "dcChargingParameters" true [Omitempty; Dive], TPtr DCChargingParameters)].
Definition NotifyEVChargingNeedsRequest : gotype := TStruct "smartcharging.NotifyEVChargingNeedsRequest"
  [(mkField "MaxScheduleTuples" "maxScheduleTuples" true [Omitempty; Gte 0], TPtr TInt);
   (mkField "EvseID" "evseId" false [Gt 0], TInt);
   (mkField "ChargingNeeds" "chargingNeeds" false [Required], ChargingNeeds)].
Definition NotifyEVChargingNeedsResponse : gotype := TStruct "smartcharging.NotifyEVChargingNeedsResponse"
  [(mkField "Status" "status" false [Required; Custom "evChargingNeedsStatus"], TEnum "smartcharging.EVChargingNeedsStatus");
   (mkField "StatusInfo" "statusInfo" true [Omitempty; Dive], TPtr types.StatusInfo)].
Definition NotifyEVChargingScheduleRequest : gotype := TStruct "smartcharging.NotifyEVChargingScheduleRequest"
  [(mkField "TimeBase" "timeBase" false [Required], TPtr TDateTime);
   (mkField "EvseID" "evseId" false [Gt 0], TInt);
   (mkField "ChargingSchedule" "chargingSchedule" false [Required; Dive], types.ChargingSchedule)].
Definition NotifyEVChargingScheduleResponse : gotype := TStruct "smartcharging.NotifyEVChargingScheduleResponse"
  [(mkField "Status" "status" false [Required; Custom "genericStatusType201"], TEnum "types.GenericStatusType");
   (mkField "StatusInfo" "statusInfo" true [Omitempty; Dive], TPtr types.StatusInfo)].
Definition ReportChargingProfilesRequest : gotype := TStruct "smartcharging.ReportChargingProfilesRequest"
  [(mkField "RequestID" "requestId" false [Gte 0], TInt);
   (mkField "ChargingLimitSource" "chargingLimitSource" false [Required; Custom "chargingLimitSourceType201"], TEnum "types.ChargingLimitSourceType");
   (mkField "Tbc" "tbc" true [Omitempty], TBool);
   (mkField "EvseID" "evseId" false [Gte 0], TInt);
   (mkField "ChargingProfile" "chargingProfile" false [Required; Min 1; Dive], TSlice types.ChargingProfile)].
Definition ReportChargingProfilesResponse : gotype := TStruct "smartcharging.ReportChargingProfilesResponse" [].
Definition SetChargingProfileRequest : gotype := TStruct "smartcharging.SetChargingProfileRequest"
  [(mkField "CustomData" "customData" true [Omitempty], TPtr TCustomData);
   (mkField "EVSEID" "evseId" false [Required], TInt);
   (mkField "ChargingProfile" "chargingProfile" false [Required], types.ChargingProfile)].
Definition SetChargingProfileResponse : gotype := TStruct "smartcharging.SetChargingProfileResponse"
  [(mkField "CustomData" "customData" true [Omitempty], TPtr TCustomData);
   (mkField "Status" "status" false [Required; Custom "chargingProfileStatusType201"], TEnum "smartcharging.ChargingProfileStatusType");
   (mkField "StatusInfo" "statusInfo" true [Omitempty], TPtr types.StatusInfo)].
Definition NewClearChargingProfileRequest : constructor := mkCtor ClearChargingProfileRequest [] [].
Definition NewClearChargingProfileResponse : constructor := mkCtor ClearChargingProfileResponse [TEnum
  "smartcharging.ClearChargingProfileStatus"] [("Status", Arg 0)].
Definition NewClearedChargingLimitRequest : constructor := mkCtor ClearedChargingLimitRequest [TEnum
  "types.ChargingLimitSourceType"] [("ChargingLimitSource", Arg 0)].
Definition NewClearedChargingLimitResponse : constructor := mkCtor ClearedChargingLimitResponse [] [].
Definition NewGetChargingProfilesRequest : constructor := mkCtor GetChargingProfilesRequest [ChargingProfileCriterion]
  [("ChargingProfile", Arg 0)].
Definition NewGetChargingProfilesResponse : constructor := mkCtor GetChargingProfilesResponse [TEnum
  "smartcharging.GetChargingProfileStatus"] [("Status", Arg 0)].
Definition NewGetCompositeScheduleRequest : constructor := mkCtor GetCompositeScheduleRequest [TInt; TInt]
  [("Duration", Arg 0); ("EvseID", Arg 1)].
Definition NewGetCompositeScheduleResponse : constructor := mkCtor GetCompositeScheduleResponse [TEnum
  "smartcharging.GetCompositeScheduleStatus"] [("Status", Arg 0)].
Definition NewNotifyChargingLimitRequest : constructor := mkCtor NotifyChargingLimitRequest [ChargingLimit]
  [("ChargingLimit", Arg 0)].
Definition NewNotifyChargingLimitResponse : constructor := mkCtor NotifyChargingLimitResponse [] [].
Definition NewNotifyEVChargingNeedsRequest : constructor := mkCtor NotifyEVChargingNeedsRequest [TInt; ChargingNeeds]
  [("EvseID", Arg 0); ("ChargingNeeds", Arg 1)].
Definition NewNotifyEVChargingNeedsResponse : constructor := mkCtor NotifyEVChargingNeedsResponse [TEnum
  "smartcharging.EVChargingNeedsStatus"] [("Status", Arg 0)].
Definition NewNotifyEVChargingScheduleRequest : constructor := mkCtor NotifyEVChargingScheduleRequest [TPtr TDateTime;
  TInt; types.ChargingSchedule] [("TimeBase", Arg 0); ("EvseID", Arg 1); ("ChargingSchedule", Arg 2)].
Definition NewNotifyEVChargingScheduleResponse : constructor := mkCtor NotifyEVChargingScheduleResponse [TEnum
  "types.GenericStatusType"] [("Status", Arg 0)].
Definition NewReportChargingProfilesRequest : constructor := mkCtor ReportChargingProfilesRequest [TInt; TEnum
  "types.ChargingLimitSourceType"; TInt; TSlice types.ChargingProfile] [("RequestID", Arg 0); ("ChargingLimitSource",
  Arg 1); ("EvseID", Arg 2); ("ChargingProfile", Arg 3)].
Definition NewReportChargingProfilesResponse : constructor := mkCtor ReportChargingProfilesResponse [] [].
Definition NewSetChargingProfileRequest : constructor := mkCtor SetChargingProfileRequest [TInt;
  types.ChargingProfile] [("EVSEID", Arg 0); ("ChargingProfile", Arg 1)].
Definition NewSetChargingProfileResponse : constructor := mkCtor SetChargingProfileResponse [TEnum
  "smartcharging.ChargingProfileStatusType"] [("Status", Arg 0)].
Definition ClearChargingProfileFeature : message_feature := mkMessageFeature "ClearChargingProfile"
  ClearChargingProfileRequest ClearChargingProfileResponse.
Definition ClearedChargingLimitFeature : message_feature := mkMessageFeature "ClearedChargingLimit"
  ClearedChargingLimitRequest ClearedChargingLimitResponse.
Definition GetChargingProfilesFeature : message_feature := mkMessageFeature "GetChargingProfiles"
  GetChargingProfilesRequest GetChargingProfilesResponse.
Definition GetCompositeScheduleFeature : message_feature := mkMessageFeature "GetCompositeSchedule"
  GetCompositeScheduleRequest GetCompositeScheduleResponse.
Definition NotifyChargingLimitFeature : message_feature := mkMessageFeature "NotifyChargingLimit"
  NotifyChargingLimitRequest NotifyChargingLimitResponse.
Definition NotifyEVChargingNeedsFeature : message_feature := mkMessageFeature "NotifyEVChargingNeeds"
  NotifyEVChargingNeedsRequest NotifyEVChargingNeedsResponse.
Definition NotifyEVChargingScheduleFeature : message_feature := mkMessageFeature "NotifyEVChargingSchedule"
  NotifyEVChargingScheduleRequest NotifyEVChargingScheduleResponse.
Definition ReportChargingProfilesFeature : message_feature := mkMessageFeature "ReportChargingProfiles"
  ReportChargingProfilesRequest ReportChargingProfilesResponse.
Definition SetChargingProfileFeature : message_feature := mkMessageFeature "SetChargingProfile"
  SetChargingProfileRequest SetChargingProfileResponse.
Definition registrations : list (string * validator) := [("clearChargingProfileStatus201",
  isValidClearChargingProfileStatus); ("getChargingProfileStatus", isValidGetChargingProfileStatus);
  ("getCompositeScheduleStatus", isValidGetCompositeScheduleStatus); ("energyTransferMode",
  isValidEnergyTransferMode); ("evChargingNeedsStatus", isValidEVChargingNeedsStatus);
  ("chargingProfileStatusType201", isValidChargingProfileStatusType)].
Definition enums : list goenum := [ClearChargingProfileStatus; GetChargingProfileStatus; GetCompositeScheduleStatus;
  EnergyTransferMode; EVChargingNeedsStatus; ChargingProfileStatusType].
Definition structs : list gotype := [ClearChargingProfileType; ClearChargingProfileRequest;
  ClearChargingProfileResponse; ClearedChargingLimitRequest; ClearedChargingLimitResponse; ChargingProfileCriterion;
  GetChargingProfilesRequest; GetChargingProfilesResponse; CompositeSchedule; GetCompositeScheduleRequest;
  GetCompositeScheduleResponse; ChargingLimit; NotifyChargingLimitRequest; NotifyChargingLimitResponse;
  ACChargingParameters; DCChargingParameters; ChargingNeeds; NotifyEVChargingNeedsRequest;
  NotifyEVChargingNeedsResponse; NotifyEVChargingScheduleRequest; NotifyEVChargingScheduleResponse;
  ReportChargingProfilesRequest; ReportChargingProfilesResponse; SetChargingProfileRequest;
  SetChargingProfileResponse].
Definition constructors : list constructor := [NewClearChargingProfileRequest; NewClearChargingProfileResponse;
  NewClearedChargingLimitRequest; NewClearedChargingLimitResponse; NewGetChargingProfilesRequest;
  NewGetChargingProfilesResponse; NewGetCompositeScheduleRequest; NewGetCompositeScheduleResponse;
  NewNotifyChargingLimitRequest; NewNotifyChargingLimitResponse; NewNotifyEVChargingNeedsRequest;
  NewNotifyEVChargingNeedsResponse; NewNotifyEVChargingScheduleRequest; NewNotifyEVChargingScheduleResponse;
  NewReportChargingProfilesRequest; NewReportChargingProfilesResponse; NewSetChargingProfileRequest;
  NewSetChargingProfileResponse].
Definition features : list message_feature := [ClearChargingProfileFeature; ClearedChargingLimitFeature;
  GetChargingProfilesFeature; GetCompositeScheduleFeature; NotifyChargingLimitFeature; NotifyEVChargingNeedsFeature;
  NotifyEVChargingScheduleFeature; ReportChargingProfilesFeature; SetChargingProfileFeature].
End smartcharging.

(** *** Package tariffcost *)

Module tariffcost.
Definition CostUpdatedRequest : gotype := TStruct "tariffcost.CostUpdatedRequest"
  [(mkField "TotalCost" "totalCost" false [Required], TFloat);
   (mkField "TransactionID" "transactionId" false [Required; Max 36], TString)].
Definition CostUpdatedResponse : gotype := TStruct "tariffcost.CostUpdatedResponse" [].
Definition NewCostUpdatedRequest : constructor := mkCtor CostUpdatedRequest [TFloat; TString] [("TotalCost", Arg 0);
  ("TransactionID", Arg 1)].
Definition NewCostUpdatedResponse : constructor := mkCtor CostUpdatedResponse [] [].
Definition CostUpdatedFeature : message_feature := mkMessageFeature "CostUpdated" CostUpdatedRequest
  CostUpdatedResponse.
Definition registrations : list (string * validator) := [].
Definition enums : list goenum := [].
Definition structs : list gotype := [CostUpdatedRequest; CostUpdatedResponse].
Definition constructors : list constructor := [NewCostUpdatedRequest; NewCostUpdatedResponse].
Definition features : list message_feature := [CostUpdatedFeature].
End tariffcost.

(** *** Package transactions *)

Module transactions.
Definition ChargingStateType : goenum := mkEnum "transactions.ChargingStateType" ["Charging"; "EVConnected";
  "SuspendedEV"; "SuspendedEVSE"; "Idle"].
Definition ReasonType : goenum := mkEnum "transactions.ReasonType" ["DeAuthorized"; "EmergencyStop";
  "EnergyLimitReached"; "EVDisconnected"; "GroundFault"; "ImmediateReset"; "Local"; "LocalOutOfCredit"; "MasterPass";
  "Other"; "OvercurrentFault"; "PowerLoss"; "PowerQuality"; "Reboot"; "Remote"; "SOCLimitReached"; "StoppedByEV";
  "TimeLimitReached"; "Timeout"].
Definition TransactionEventType : goenum := mkEnum "transactions.TransactionEventType" ["Ended"; "Started";
  "Updated"].
Definition TriggerReasonType : goenum := mkEnum "transactions.TriggerReasonType" ["Authorized"; "CablePluggedIn";
  "ChargingRateChanged"; "ChargingStateChanged"; "Deauthorized"; "EnergyLimitReached"; "EVCommunicationLost";
  "EVConnectTimeout"; "MeterValueClock"; "MeterValuePeriodic"; "TimeLimitReached"; "Trigger"; "UnlockCommand";
  "StopAuthorized"; "EVDeparted"; "EVDetected"; "RemoteStop"; "RemoteStart"; "AbnormalCondition";
  "SignedDataReceived"; "ResetCommand"].
Definition isValidChargingStateType : validator := mkValidator "transactions.ChargingStateType" ["Charging";
  "EVConnected"; "SuspendedEV"; "SuspendedEVSE"; "Idle"].
Definition isValidReasonType : validator := mkValidator "transactions.ReasonType" ["DeAuthorized"; "EmergencyStop";
  "EnergyLimitReached"; "EVDisconnected"; "GroundFault"; "ImmediateReset"; "Local"; "LocalOutOfCredit"; "MasterPass";
  "Other"; "OvercurrentFault"; "PowerLoss"; "PowerQuality"; "Reboot"; "Remote"; "SOCLimitReached"; "StoppedByEV";
  "TimeLimitReached"; "Timeout"].
Definition isValidTransactionEventType : validator := mkValidator "transactions.TransactionEventType" ["Ended";
  "Started"; "Updated"].
Definition isValidTriggerReasonType : validator := mkValidator "transactions.TriggerReasonType" ["Authorized";
  "CablePluggedIn"; "ChargingRateChanged"; "ChargingStateChanged"; "Deauthorized"; "EnergyLimitReached";
  "EVCommunicationLost"; "EVConnectTimeout"; "MeterValueClock"; "MeterValuePeriodic"; "TimeLimitReached"; "Trigger";
  "UnlockCommand"; "StopAuthorized"; "EVDeparted"; "EVDetected"; "RemoteStop"; "RemoteStart"; "AbnormalCondition";
  "SignedDataReceived"; "ResetCommand"].
Definition GetTransactionStatusRequest : gotype := TStruct "transactions.GetTransactionStatusRequest"
  [(mkField "TransactionID" "transactionId" true [Omitempty; Max 36], TString)].
Definition GetTransactionStatusResponse : gotype := TStruct "transactions.GetTransactionStatusResponse"
  [(mkField "OngoingIndicator" "ongoingIndicator" true [Omitempty], TPtr TBool);
   (mkField "MessagesInQueue" "messagesInQueue" false [], TBool)].
Definition Transaction : gotype := TStruct "transactions.Transaction"
  [(mkField "CustomData" "customData" true [Omitempty], TPtr TCustomData);
   (mkField "TransactionID" "transactionId" false [Required; Max 36], TString);
   (mkField "ChargingState" "chargingState" true [Omitempty; Custom "chargingStateType201"], TEnum "transactions.ChargingStateType");
   (mkField "TimeSpentCharging" "timeSpentCharging" true [Omitempty], TPtr TInt);
   (mkField "StoppedReason" "stoppedReason" true [Omitempty; Custom "reasonType201"], TEnum "transactions.ReasonType");
   (mkField "RemoteStartID" "remoteStartId" true [Omitempty], TPtr TInt)].
Definition TransactionEventRequest : gotype := TStruct "transactions.TransactionEventRequest"
  [(mkField "CustomData" "customData" true [Omitempty], TPtr TCustomData);
   (mkField "EventType" "eventType" false [Required; Custom "transactionEventType201"], TEnum "transactions.TransactionEventType");
   (mkField "MeterValue" "meterValue" true [Omitempty; Min 1; Dive], TSlice types.MeterValue);
   (mkField "Timestamp" "timestamp" false [Required], TPtr TDateTime);
   (mkField "TriggerReason" "triggerReason" false [Required; Custom "triggerReasonType201"], TEnum "transactions.TriggerReasonType");
   (mkField "SeqNo" "seqNo" false [Required], TInt);
   (mkField "Offline" "offline" true [Omitempty], TPtr TBool);
   (mkField "NumberOfPhasesUsed" "numberOfPhasesUsed" true [Omitempty], TPtr TInt);
   (mkField "CableMaxCurrent" "cableMaxCurrent" true [Omitempty], TPtr TInt);
   (mkField "ReservationID" "reservationId" true [Omitempty], TPtr TInt);
   (mkField "TransactionInfo" "transactionInfo" false [Required], Transaction);
   (mkField "EVSE" "evse" true [Omitempty], TPtr types.EVSE);
   (mkField "IDToken" "idToken" true [Omitempty], TPtr types.IDToken)].
Definition TransactionEventResponse : gotype := TStruct "transactions.TransactionEventResponse"
  [(mkField "CustomData" "customData" true [Omitempty], TPtr TCustomData);
   (mkField "TotalCost" "totalCost" true [Omitempty], TPtr TFloat);
   (mkField "ChargingPriority" "chargingPriority" true [Omitempty], TPtr TInt);
   (mkField "IDTokenInfo" "idTokenInfo" true [Omitempty], TPtr types.IDTokenInfo);
   (mkField "UpdatedPersonalMessage" "updatedPersonalMessage" true [Omitempty], TPtr types.MessageContent)].
Definition NewGetTransactionStatusRequest : constructor := mkCtor GetTransactionStatusRequest [] [].
Definition NewGetTransactionStatusResponse : constructor := mkCtor GetTransactionStatusResponse [TBool]
  [("MessagesInQueue", Arg 0)].
Definition NewTransaction : constructor := mkCtor Transaction [TString] [("TransactionID", Arg 0)].
Definition NewTransactionEventRequest : constructor := mkCtor TransactionEventRequest [TEnum
  "transactions.TransactionEventType"; TPtr TDateTime; TEnum "transactions.TriggerReasonType"; TInt; Transaction]
  [("EventType", Arg 0); ("Timestamp", Arg 1); ("TriggerReason", Arg 2); ("SeqNo", Arg 3); ("TransactionInfo", Arg
  4)].
Definition NewTransactionEventResponse : constructor := mkCtor TransactionEventResponse [] [].
Definition GetTransactionStatusFeature : message_feature := mkMessageFeature "GetTransactionStatus"
  GetTransactionStatusRequest GetTransactionStatusResponse.
Definition TransactionEventFeature : message_feature := mkMessageFeature "TransactionEvent" TransactionEventRequest
  TransactionEventResponse.
Definition registrations : list (string * validator) := [("chargingStateType201", isValidChargingStateType);
  ("reasonType201", isValidReasonType); ("transactionEventType201", isValidTransactionEventType);
  ("triggerReasonType201", isValidTriggerReasonType)].
Definition enums : list goenum := [ChargingStateType; ReasonType; TransactionEventType; TriggerReasonType].
Definition structs : list gotype := [GetTransactionStatusRequest; GetTransactionStatusResponse; Transaction;
  TransactionEventRequest; TransactionEventResponse].
Definition constructors : list constructor := [NewGetTransactionStatusRequest; NewGetTransactionStatusResponse;
  NewTransaction; NewTransactionEventRequest; NewTransactionEventResponse].
Definition features : list message_feature := [GetTransactionStatusFeature; TransactionEventFeature].
End transactions.

Definition enums : list goenum := concat [types.enums; authorization.enums; availability.enums; data.enums;
  diagnostics.enums; display.enums; firmware.enums; iso15118.enums; localauth.enums; meter.enums; provisioning.enums;
  remotecontrol.enums; reservation.enums; security.enums; smartcharging.enums; tariffcost.enums; transactions.enums].
Definition structs : list gotype := concat [types.structs; authorization.structs; availability.structs; data.structs;
  diagnostics.structs; display.structs; firmware.structs; iso15118.structs; localauth.structs; meter.structs;
  provisioning.structs; remotecontrol.structs; reservation.structs; security.structs; smartcharging.structs;
  tariffcost.structs; transactions.structs].
Definition constructors : list constructor := concat [types.constructors; authorization.constructors;
  availability.constructors; data.constructors; diagnostics.constructors; display.constructors; firmware.constructors;
  iso15118.constructors; localauth.constructors; meter.constructors; provisioning.constructors;
  remotecontrol.constructors; reservation.constructors; security.constructors; smartcharging.constructors;
  tariffcost.constructors; transactions.constructors].
Definition features : list message_feature := concat [types.features; authorization.features; availability.features;
  data.features; diagnostics.features; display.features; firmware.features; iso15118.features; localauth.features;
  meter.features; provisioning.features; remotecontrol.features; reservation.features; security.features;
  smartcharging.features; tariffcost.features; transactions.features].
Definition registrations : list (string * validator) := concat [types.registrations; authorization.registrations;
  availability.registrations; data.registrations; diagnostics.registrations; display.registrations;
  firmware.registrations; iso15118.registrations; localauth.registrations; meter.registrations;
  provisioning.registrations; remotecontrol.registrations; reservation.registrations; security.registrations;
  smartcharging.registrations; tariffcost.registrations; transactions.registrations].
