(* ===== verification/Panic.v ===== *)
(** * Recovered panics (src/ocppj/panic.go)

    Code that calls user-provided handlers: a computation acts on the state
    [W] it shares with the rest of the program, appends to a log of [E]vents
    and ends with a value or a panic.  A deferred [recover] is [recovering].
    Log lines and stack traces are not modelled. *)

From S2P Require Import Prelude Ocpp Errors.
Local Open Scope string_scope.
Local Open Scope list_scope.

(** The value given to [panic]: an error (the run time's own included), a
    string, or a value of another type, known by its [%v] text. *)
Inductive panic_value := PanicError (e : error) | PanicString (s : string) | PanicOther (text : string).

(** [fmt.Sprintf("%v", value)]. *)
Definition panic_text (v : panic_value) : string :=
  match v with PanicError e => error_text e | PanicString s => s | PanicOther s => s end.

(** Errors of the Go run time. *)
Definition nil_dereference : panic_value :=
  PanicError (Errorf "runtime error: invalid memory address or nil pointer dereference" None).

Inductive outcome (A : Type) := Done (a : A) | Panicked (v : panic_value).
Arguments Done {A} a.
Arguments Panicked {A} v.

Definition M (W E A : Type) : Type := W → W * list E * outcome A.

Section monad.
Context {W E : Type}.

#[export] Instance M_ret : MRet (M W E) := λ A a w, (w, [], Done a).

#[export] Instance M_bind : MBind (M W E) := λ A B f m w,
  match m w with
  | (w1, l1, Done a) => match f a w1 with (w2, l2, r) => (w2, l1 ++ l2, r) end
  | (w1, l1, Panicked v) => (w1, l1, Panicked v)
  end.

Definition panic {A : Type} (v : panic_value) : M W E A := λ w, (w, [], Panicked v).
Definition tell (l : list E) : M W E unit := λ w, (w, l, Done tt).
(** A call into another component, with what it is recorded as. *)
Definition call {A : Type} (f : W → W * A) (ev : A → list E) : M W E A :=
  λ w, let '(w', a) := f w in (w', ev a, Done a).
(** A user-provided function: it may change the state and it may panic. *)
Definition user (f : W → W * outcome unit) : M W E unit := λ w, let '(w', r) := f w in (w', [], r).

(** [defer func() { if v := recover(); v != nil { h(v) } }()] around [m]. *)
Definition recovering {A : Type} (m : M W E A) (h : panic_value → M W E A) : M W E A := λ w,
  match m w with
  | (w1, l1, Done a) => (w1, l1, Done a)
  | (w1, l1, Panicked v) => match h v w1 with (w2, l2, r) => (w2, l1 ++ l2, r) end
  end.

(** The result of a computation is not a panic. *)
Definition returns {A : Type} (m : M W E A) : Prop := ∀ w, ∃ w' l a, m w = (w', l, Done a).

Lemma returns_ret {A : Type} (a : A) : returns (mret a).
Proof. intros w. unfold mret, M_ret. eauto. Qed.

Lemma returns_tell l : returns (tell l).
Proof. intros w. unfold tell. eauto. Qed.

Lemma returns_call {A : Type} (f : W → W * A) ev : returns (call f ev).
Proof. intros w. unfold call. destruct (f w). eauto. Qed.

Lemma returns_bind {A B : Type} (m : M W E A) (f : A → M W E B) :
  returns m → (∀ a, returns (f a)) → returns (m ≫= f).
Proof.
  intros Hm Hf w. unfold mbind, M_bind. destruct (Hm w) as (w1 & l1 & a & ->).
  destruct (Hf a w1) as (w2 & l2 & b & ->). eauto.
Qed.

Lemma returns_recovering {A : Type} (m : M W E A) h :
  (∀ v, returns (h v)) → returns (recovering m h).
Proof.
  intros Hh w. unfold recovering. destruct (m w) as [[w1 l1] [a|v]]; [eauto|].
  destruct (Hh v w1) as (w2 & l2 & b & ->). eauto.
Qed.

(** Running the first step of a sequence. *)
Lemma bind_done {A B : Type} (m : M W E A) (f : A → M W E B) w w1 l1 a :
  m w = (w1, l1, Done a) → (m ≫= f) w = let '(w2, l2, r) := f a w1 in (w2, l1 ++ l2, r).
Proof. intros Hm. unfold mbind, M_bind. by rewrite Hm. Qed.

Lemma recovering_done {A : Type} (m : M W E A) h w w1 l1 a :
  m w = (w1, l1, Done a) → recovering m h w = (w1, l1, Done a).
Proof. intros Hm. unfold recovering. by rewrite Hm. Qed.

Lemma recovering_panicked {A : Type} (m : M W E A) h w w1 l1 v :
  m w = (w1, l1, Panicked v) →
  recovering m h w = let '(w2, l2, r) := h v w1 in (w2, l1 ++ l2, r).
Proof. intros Hm. unfold recovering. by rewrite Hm. Qed.

(** [logs P m]: every event [m] records satisfies [P]; [keeps R m]: [m] does
    not change what [R] reads of the state. *)
Definition logs {A : Type} (P : E → Prop) (m : M W E A) : Prop := ∀ w, Forall P (m w).1.2.
Definition keeps {X A : Type} (R : W → X) (m : M W E A) : Prop := ∀ w, R (m w).1.1 = R w.

Lemma logs_ret {A : Type} P (a : A) : logs P (mret a).
Proof. intros w. constructor. Qed.
Lemma logs_tell P l : Forall P l → logs P (tell l).
Proof. by intros Hl w. Qed.
Lemma logs_call {A : Type} P (f : W → W * A) ev : (∀ a, Forall P (ev a)) → logs P (call f ev).
Proof. intros Hev w. unfold call. destruct (f w). apply Hev. Qed.
Lemma logs_user P f : logs P (user f).
Proof. intros w. unfold user. destruct (f w). constructor. Qed.
Lemma logs_bind {A B : Type} P (m : M W E A) (f : A → M W E B) :
  logs P m → (∀ a, logs P (f a)) → logs P (m ≫= f).
Proof.
  intros Hm Hf w. unfold mbind, M_bind. pose proof (Hm w) as H1. destruct (m w) as [[w1 l1] [a|v]]; [|done].
  pose proof (Hf a w1) as H2. destruct (f a w1) as [[w2 l2] r]. by apply Forall_app.
Qed.
Lemma logs_recovering {A : Type} P (m : M W E A) h : logs P m → (∀ v, logs P (h v)) → logs P (recovering m h).
Proof.
  intros Hm Hf w. unfold recovering. pose proof (Hm w) as H1. destruct (m w) as [[w1 l1] [a|v]]; [done|].
  pose proof (Hf v w1) as H2. destruct (h v w1) as [[w2 l2] r]. by apply Forall_app.
Qed.

Lemma keeps_ret {X A : Type} (R : W → X) (a : A) : keeps R (mret a).
Proof. by intros w. Qed.
Lemma keeps_tell {X : Type} (R : W → X) l : keeps R (tell l).
Proof. by intros w. Qed.
Lemma keeps_user {X : Type} (R : W → X) f : (∀ w, R (f w).1 = R w) → keeps R (user f).
Proof. intros Hf w. unfold user. specialize (Hf w). by destruct (f w). Qed.
Lemma keeps_bind {X A B : Type} (R : W → X) (m : M W E A) (f : A → M W E B) :
  keeps R m → (∀ a, keeps R (f a)) → keeps R (m ≫= f).
Proof.
  intros Hm Hf w. unfold mbind, M_bind. pose proof (Hm w) as H1. destruct (m w) as [[w1 l1] [a|v]]; [|done].
  pose proof (Hf a w1) as H2. destruct (f a w1) as [[w2 l2] r]. simpl in *. congruence.
Qed.
Lemma keeps_recovering {X A : Type} (R : W → X) (m : M W E A) h :
  keeps R m → (∀ v, keeps R (h v)) → keeps R (recovering m h).
Proof.
  intros Hm Hf w. unfold recovering. pose proof (Hm w) as H1. destruct (m w) as [[w1 l1] [a|v]]; [done|].
  pose proof (Hf v w1) as H2. destruct (h v w1) as [[w2 l2] r]. simpl in *. congruence.
Qed.
End monad.
#[export] Hint Resolve logs_ret logs_tell logs_call logs_user logs_bind logs_recovering : go.
#[export] Hint Resolve keeps_ret keeps_tell keeps_user keeps_bind keeps_recovering : go.
#[export] Hint Resolve returns_ret returns_tell returns_call returns_bind returns_recovering : go.

(** ** Kinds of handlers and the panic report *)

Inductive HandlerKind :=
| RequestHandlerKind | ResponseHandlerKind | ErrorHandlerKind | ConnectHandlerKind
| DisconnectHandlerKind | CancelHandlerKind | ReconnectHandlerKind | InvalidMessageHandlerKind.

#[export] Instance HandlerKind_eq_dec : EqDecision HandlerKind.
Proof. solve_decision. Defined.

Definition kind_name (k : HandlerKind) : string :=
  match k with
  | RequestHandlerKind => "request" | ResponseHandlerKind => "response" | ErrorHandlerKind => "error"
  | ConnectHandlerKind => "connect" | DisconnectHandlerKind => "disconnect" | CancelHandlerKind => "cancel"
  | ReconnectHandlerKind => "reconnect" | InvalidMessageHandlerKind => "invalid-message"
  end.

Record HandlerPanic := mkHandlerPanic {
  hp_ClientID : string;
  hp_Kind : HandlerKind;
  hp_Action : string;
  hp_RequestID : string;
  hp_Value : panic_value
}.

(** [HandlerPanicError.Error]; [quote] is the rendering of [%q]. *)
Definition HandlerPanicError_Error (quote : string → string) (p : HandlerPanic) : string :=
  "recovered panic in " +:+ kind_name (hp_Kind p) +:+ " handler (client " +:+ quote (hp_ClientID p) +:+
  ", action " +:+ quote (hp_Action p) +:+ ", request " +:+ quote (hp_RequestID p) +:+ "): " +:+
  panic_text (hp_Value p).

Section report.
Context {W E : Type}.

(** [guardedCall]: [what] only reaches the log. *)
Definition guardedCall (fn : M W E unit) : M W E unit := recovering fn (λ _, mret tt).

Definition reportHandlerPanic (value : panic_value) (kind : HandlerKind) (clientID action requestID : string)
    (cb : option (HandlerPanic → M W E unit)) (afterRecover : option (M W E unit)) : M W E unit :=
  _ ← match cb with
      | Some cb => guardedCall (cb (mkHandlerPanic clientID kind action requestID value))
      | None => mret tt
      end;
  match afterRecover with Some after => guardedCall after | None => mret tt end.

(** [recoverHandler], deferred around [body]. *)
Definition recoverHandler (kind : HandlerKind) (clientID action requestID : string)
    (cb : option (HandlerPanic → M W E unit)) (afterRecover : option (M W E unit)) (body : M W E unit) : M W E unit :=
  recovering body (λ value, reportHandlerPanic value kind clientID action requestID cb afterRecover).

Lemma returns_guardedCall fn : returns (guardedCall fn).
Proof. unfold guardedCall. auto with go. Qed.

Lemma returns_report value kind clientID action requestID cb after :
  returns (reportHandlerPanic value kind clientID action requestID cb after).
Proof.
  unfold reportHandlerPanic. apply returns_bind; [destruct cb|intros _; destruct after];
    auto using returns_guardedCall with go.
Qed.

Lemma returns_recoverHandler kind clientID action requestID cb after body :
  returns (recoverHandler kind clientID action requestID cb after body).
Proof. apply returns_recovering. intros. apply returns_report. Qed.

Lemma logs_guardedCall P fn : logs P fn → logs P (guardedCall fn).
Proof. intros. unfold guardedCall. auto with go. Qed.

Lemma logs_recoverHandler P kind clientID action requestID cb after body :
  logs P body → (∀ f hp, cb = Some f → logs P (f hp)) → (∀ a, after = Some a → logs P a) →
  logs P (recoverHandler kind clientID action requestID cb after body).
Proof.
  intros Hb Hc Ha. apply logs_recovering; [done|]. intros v. unfold reportHandlerPanic.
  apply logs_bind; [destruct cb|intros _; destruct after]; auto using logs_guardedCall with go.
Qed.

Lemma keeps_recoverHandler {X : Type} (R : W → X) kind clientID action requestID cb after body :
  keeps R body → (∀ f hp, cb = Some f → keeps R (f hp)) → (∀ a, after = Some a → keeps R a) →
  keeps R (recoverHandler kind clientID action requestID cb after body).
Proof.
  intros Hb Hc Ha. apply keeps_recovering; [done|]. intros v. unfold reportHandlerPanic, guardedCall.
  apply keeps_bind; [destruct cb|intros _; destruct after]; auto with go.
Qed.

Lemma guardedCall_done (fn : M W E unit) w w1 l1 :
  fn w = (w1, l1, Done tt) → guardedCall fn w = (w1, l1, Done tt).
Proof. intros Hf. unfold guardedCall. by apply recovering_done. Qed.
End report.
#[export] Hint Resolve returns_guardedCall returns_report returns_recoverHandler : go.
