(* ===== verification/Peer.v ===== *)
(** * The endpoint operations (src/ocppj/client.go, src/ocppj/server.go)

    [Client] and [Server]: sending requests, responses and errors, the handler
    of incoming messages with its calls to user code, the connection
    callbacks.  The two structs share their code but for the client id that
    the server passes along: the shared bodies take a [side], which the
    [client_side] and the [server_side] build from the struct's fields.

    The dispatcher and the websocket endpoint are Go interfaces; here they are
    the classes [ClientEnv] and [ServerEnv] over the state [W], so the theorems
    hold for any implementation.  User handlers are arbitrary functions on that
    state which may panic.  The log records what the endpoint itself does. *)

From Stdlib Require Import QArith.QArith.
From S2P Require Import Prelude Conc Ocpp Errors Queue State Message Endpoint Panic ClientDispatcher.
Local Open Scope string_scope.
Local Open Scope list_scope.

(** What the endpoint takes from other packages: the JSON and payload codecs,
    the validator, the renderings (see [Endpoint]). *)
Record codec (rtype Request Response : Type) := mkCodec {
  c_request_feature : Request → string;
  c_response_feature : Response → string;
  c_Unmarshal : string → Json + error;
  c_Encode : bool → Json → string + error;
  c_decode_request : Json → rtype → Request + error;
  c_decode_response : Json → rtype → Response + error;
  c_encode_request : Request → Json;
  c_encode_response : Response → Json;
  c_validate_call : Call Request → list FieldError;
  c_validate_result : CallResult Response → list FieldError;
  c_validate_error : CallError Json → list FieldError;
  c_errors_text : list FieldError → string;
  c_fmt_v : Json → string;
  c_overflow : Q → Z;
  c_endpoint_text : @Endpoint rtype → string
}.
Arguments mkCodec {rtype Request Response}.
Arguments c_request_feature {rtype Request Response}.
Arguments c_response_feature {rtype Request Response}.
Arguments c_Unmarshal {rtype Request Response}.
Arguments c_Encode {rtype Request Response}.
Arguments c_decode_request {rtype Request Response}.
Arguments c_decode_response {rtype Request Response}.
Arguments c_encode_request {rtype Request Response}.
Arguments c_encode_response {rtype Request Response}.
Arguments c_validate_call {rtype Request Response}.
Arguments c_validate_result {rtype Request Response}.
Arguments c_validate_error {rtype Request Response}.
Arguments c_errors_text {rtype Request Response}.
Arguments c_fmt_v {rtype Request Response}.
Arguments c_overflow {rtype Request Response}.
Arguments c_endpoint_text {rtype Request Response}.

(** The calls that start and stop an endpoint's parts, in the order made. *)
Inductive lifecycle :=
| RegisterHandlers                                  (* Set*Handler on the websocket endpoint *)
| WsStart (target : string) (err : option error)
| WsStartWithRetries (target : string)
| DispatcherStart
| InterceptDisconnect                               (* Stop's own disconnected handler *)
| WsStop
| DispatcherStop
| AwaitCleanup                                      (* <-cleanupC *)
| ClientCreated (clientID : string)
| ClientDeleted (clientID : string)
| PendingCleared (clientID : string)
| DispatcherPaused
| DispatcherResumed.

(** What the endpoint does that others can observe. *)
Inductive pevent (Request : Type) :=
| EvInvoke (kind : HandlerKind) (clientID requestID : string)       (* a user handler is called *)
| EvReport (hp : HandlerPanic)                                      (* onHandlerPanic is called *)
| EvSent (clientID data : string) (err : option error)              (* Write, with its result *)
| EvCompleted (clientID requestID : string) (won : bool)            (* CompleteRequest *)
| EvEnqueue (clientID : string) (b : RequestBundle Request) (err : option error)  (* dispatcher.SendRequest *)
| EvLifecycle (l : lifecycle).
Arguments EvInvoke {Request}.
Arguments EvReport {Request}.
Arguments EvSent {Request}.
Arguments EvCompleted {Request}.
Arguments EvEnqueue {Request}.
Arguments EvLifecycle {Request}.

(** The interfaces [ClientDispatcher], [ClientState] and [ws.Client], as far
    as [Client] uses them, and the package's message id generator. *)
Class ClientEnv (W Request : Type) := {
  ce_IsRunning : W → bool;
  ce_SendRequest : RequestBundle Request → W → W * option error;
  ce_CompleteRequest : string → W → W * bool;
  ce_RequestState : W → ClientState.clientState Request;
  ce_Pause : W → W;
  ce_Resume : W → W;
  ce_Start : W → W;
  ce_Stop : W → W;
  ce_wsStart : string → W → W * option error;
  ce_wsStartWithRetries : string → W → W;
  ce_wsStop : W → W;
  ce_SetOnHandlerPanic : bool → W → W;  (* on the default dispatcher only *)
  ce_SetOnRequestCanceled : bool → W → W;
  ce_IsConnected : W → bool;
  ce_awaitDisconnected : W → W;
  ce_Write : string → W → W * option error;
  ce_generateId : W → W * string
}.

(** The same for [ServerDispatcher], [ServerState] and [ws.Server];
    [DeleteClientAndWait] exists on the default dispatcher only. *)
Class ServerEnv (W Request : Type) := {
  se_IsRunning : W → bool;
  se_SendRequest : string → RequestBundle Request → W → W * option error;
  se_CompleteRequest : string → string → W → W * bool;
  se_GetClientState : string → W → W * ClientState.clientState Request;
  se_CreateClient : string → W → W;
  se_DeleteClient : string → W → W;
  se_DeleteClientAndWait : option (string → W → W);
  se_ClearClientPendingRequest : string → W → W;
  se_SetOnHandlerPanic : bool → W → W;  (* on the default dispatcher only *)
  se_SetOnRequestCanceled : bool → W → W;
  se_Start : W → W;
  se_Stop : W → W;
  se_wsStart : Z → string → W → W;
  se_wsStop : W → W;
  se_wsShutdown : ctx → W → W * option error;
  se_Write : string → string → W → W * option error;
  se_generateId : W → W * string
}.

Section peer.
Context {rtype Request Response W : Type}.
Context (K : codec rtype Request Response).
(** The package variables [validationEnabled] and [EscapeHTML]. *)
Context (validationEnabled EscapeHTML : bool).

Abbreviation prog := (M W (pevent Request)).
Abbreviation handler := (W → W * outcome unit).

(** An [invalidMessageHook]: it may write to the error it is given a pointer
    to; the result is that error as it leaves it, and the returned error if it
    is not nil (a hook that returns its argument returns the same value). *)
Definition hook : Type := ocpp_error → string → list Json → W → W * (ocpp_error * outcome (option ocpp_error)).

(** The fields and methods the shared code uses, for one connection. *)
Record side := mkSide {
  s_endpoint : @Endpoint rtype;
  s_clientID : string;
  s_pending : W → W * ClientState.clientState Request;
  s_complete : string → W → W * bool;
  s_write : string → W → W * option error;
  s_requestHandler : option (option Request → string → string → handler);
  s_responseHandler : option (option Response → string → handler);
  s_errorHandler : option (ocpp_error → option Json → handler);
  s_invalidMessageHook : option hook;
  s_onHandlerPanic : option (HandlerPanic → handler)
}.

Definition ParseMessage_ (e : @Endpoint rtype) (arr : list Json) (pending : ClientState.clientState Request) :=
  ParseMessage (c_request_feature K) (c_decode_request K) (c_decode_response K) (c_validate_call K)
    (c_validate_result K) (c_validate_error K) (c_errors_text K) (c_fmt_v K) (c_overflow K) e arr pending.

(** The panic of an endpoint without a dialect, and which panic [ParseMessage]
    ends with: a CALL RESULT whose pending request is a nil interface
    dereferences it. *)
Definition invalid_dialect (e : @Endpoint rtype) : panic_value :=
  PanicString ("invalid dialect: " +:+ c_endpoint_text K e).

Definition parse_panic_value (e : @Endpoint rtype) (arr : list Json) (pending : ClientState.clientState Request) : panic_value :=
  match arr with
  | JNum q :: JStr id :: _ =>
      match ClientState.GetPendingRequest id pending with
      | Some None => if decide (float_to_int (c_overflow K) q = CALL_RESULT) then nil_dereference else invalid_dialect e
      | _ => invalid_dialect e
      end
  | _ => invalid_dialect e
  end.

(** The callback given to [recoverHandler]. *)
Definition panic_callback (cb : option (HandlerPanic → handler)) : option (HandlerPanic → prog unit) :=
  (λ f hp, _ ← tell [EvReport hp]; user (f hp)) <$> cb.

(** *** Sending *)

Definition send_response (σ : side) (requestId : string) (response : Response) : prog (option create_error) :=
  match CreateCallResult (c_response_feature K) (c_validate_result K) validationEnabled (s_endpoint σ)
          response requestId with
  | inr err => mret (Some err)
  | inl callResult =>
      match CallResult_MarshalJSON (c_Encode K) (c_encode_response K) EscapeHTML callResult with
      | inr err => mret (Some (CreateErr (OcppError (NewError GenericError (error_text err) requestId))))
      | inl jsonMessage =>
          err ← call (s_write σ jsonMessage) (λ r, [EvSent (s_clientID σ) jsonMessage r]);
          mret ((λ e, CreateErr (OcppError (NewError GenericError (error_text e) requestId))) <$> err)
      end
  end.

Definition send_error (σ : side) (requestId errorCode description : string) (details : option Json)
    : prog (option create_error) :=
  match CreateCallError (c_validate_error K) validationEnabled requestId errorCode description details with
  | inr err => mret (Some err)
  | inl callError =>
      match CallError_MarshalJSON (c_Encode K) EscapeHTML callError with
      | inr err => mret (Some (CreateErr (OcppError (NewError GenericError (error_text err) requestId))))
      | inl jsonMessage =>
          err ← call (s_write σ jsonMessage) (λ r, [EvSent (s_clientID σ) jsonMessage r]);
          mret ((λ e, CreateErr (OcppError (NewError GenericError (error_text e) requestId))) <$> err)
      end
  end.

Definition internal_error_text : string := "internal error while handling request".

(** [_ = SendError(requestID, InternalError, "internal error ...", nil)]. *)
Definition answer_internal_error (σ : side) (requestID : string) : prog unit :=
  _ ← send_error σ requestID InternalError internal_error_text None; mret tt.

(** *** Incoming messages *)

(** The hook's call with its deferred recovery, which restores the error: the
    error [*ocppErr] points to afterwards, and [err2]. *)
Definition call_hook (σ : side) (h : hook) (ocppErr : ocpp_error) (data : string) (parsedJson : list Json)
    : prog (ocpp_error * option ocpp_error) := λ w,
  let messageID := MessageId ocppErr in
  let invoked := EvInvoke InvalidMessageHandlerKind (s_clientID σ) messageID in
  match h ocppErr data parsedJson w with
  | (w1, (mutated, Done result)) => (w1, [invoked], Done (mutated, result))
  | (w1, (_, Panicked v)) =>
      match reportHandlerPanic v InvalidMessageHandlerKind (s_clientID σ) "" messageID
              (panic_callback (s_onHandlerPanic σ)) None w1 with
      | (w2, l2, Done _) => (w2, invoked :: l2, Done (ocppErr, None))
      | (w2, l2, Panicked v2) => (w2, invoked :: l2, Panicked v2)
      end
  end.

(** The error sent and returned: the hook's, with the original message id, or
    the one the hook was given. *)
Definition set_MessageId (id : string) (e : ocpp_error) : ocpp_error :=
  mkError (Code e) (Description e) id (Marker e) (Cause e).

Definition resolve_hook (messageID : string) (r : ocpp_error * option ocpp_error) : ocpp_error :=
  match r.2 with Some err2 => set_MessageId messageID err2 | None => r.1 end.

Definition handle_invalid (σ : side) (data : string) (parsedJson : list Json) (ocppErr : ocpp_error)
    : prog (option create_error) :=
  e ← match s_invalidMessageHook σ with
      | Some h => r ← call_hook σ h ocppErr data parsedJson; mret (resolve_hook (MessageId ocppErr) r)
      | None => mret ocppErr
      end;
  if decide (MessageId e = "") then mret (Some (CreateErr (OcppError e))) else
  err2 ← send_error σ (MessageId e) (Code e) (Description e) None;
  mret (Some match err2 with Some err2 => err2 | None => CreateErr (OcppError e) end).

Definition handle_call (σ : side) (c : Call Request) : prog unit :=
  match s_requestHandler σ with
  | None => mret tt
  | Some h =>
      recoverHandler RequestHandlerKind (s_clientID σ) (Action c) (UniqueId c)
        (panic_callback (s_onHandlerPanic σ)) (Some (answer_internal_error σ (UniqueId c)))
        (_ ← tell [EvInvoke RequestHandlerKind (s_clientID σ) (UniqueId c)];
         user (h (Payload c) (UniqueId c) (Action c)))
  end.

Definition complete (σ : side) (id : string) : prog bool :=
  call (s_complete σ id) (λ won, [EvCompleted (s_clientID σ) id won]).

Definition handle_result (σ : side) (c : CallResult Response) : prog unit :=
  won ← complete σ (cr_UniqueId c);
  match won, s_responseHandler σ with
  | true, Some h =>
      recoverHandler ResponseHandlerKind (s_clientID σ) "" (cr_UniqueId c)
        (panic_callback (s_onHandlerPanic σ)) None
        (_ ← tell [EvInvoke ResponseHandlerKind (s_clientID σ) (cr_UniqueId c)];
         user (h (cr_Payload c) (cr_UniqueId c)))
  | _, _ => mret tt
  end.

Definition handle_error (σ : side) (c : CallError Json) : prog unit :=
  won ← complete σ (ce_UniqueId c);
  match won, s_errorHandler σ with
  | true, Some h =>
      recoverHandler ErrorHandlerKind (s_clientID σ) "" (ce_UniqueId c)
        (panic_callback (s_onHandlerPanic σ)) None
        (_ ← tell [EvInvoke ErrorHandlerKind (s_clientID σ) (ce_UniqueId c)];
         user (h (NewError (ce_ErrorCode c) (ce_ErrorDescription c) (ce_UniqueId c)) (ce_ErrorDetails c)))
  | _, _ => mret tt
  end.

(** [ocppMessageHandler]: the error it returns, [None] for nil. *)
Definition message_handler (σ : side) (data : string) : prog (option create_error) :=
  match ParseRawJsonMessage (c_Unmarshal K) data with
  | inr err => mret (Some (CreateErr err))
  | inl parsedJson =>
      pending ← call (s_pending σ) (λ _, []);
      match ParseMessage_ (s_endpoint σ) parsedJson pending with
      | ParsePanic => panic (parse_panic_value (s_endpoint σ) parsedJson pending)
      | ParseError ocppErr => handle_invalid σ data parsedJson ocppErr
      | Discarded => mret None
      | Parsed (MCall c) => _ ← handle_call σ c; mret None
      | Parsed (MCallResult c) => _ ← handle_result σ c; mret None
      | Parsed (MCallError c) => _ ← handle_error σ c; mret None
      end
  end.

(** [HandleFailedResponseError]; a nil error is dereferenced. *)
Definition handle_failed_response (σ : side) (requestID : string) (err : option create_error) (featureName : string)
    : prog unit :=
  responseErr ← match err with
    | Some (CreateInvalid ferrs) =>
        match errorFromValidation (c_errors_text K ferrs) (dialect (s_endpoint σ)) ferrs requestID featureName with
        | Some e => mret e
        | None => panic (invalid_dialect (s_endpoint σ))
        end
    | Some (CreateErr (OcppError e)) => mret e
    | Some (CreateErr e) => mret (NewError GenericError (error_text e) requestID)
    | None => panic nil_dereference
    end;
  _ ← send_error σ requestID (Code responseErr) (Description responseErr) None; mret tt.

(** [RecoverPanicGoroutine], deferred around [body]. *)
Definition recover_goroutine (σ : side) (kind : HandlerKind) (action requestID : string) (sendCallError : bool)
    (body : prog unit) : prog unit :=
  recovering body (λ value,
    reportHandlerPanic value kind (s_clientID σ) action requestID (panic_callback (s_onHandlerPanic σ))
      (if sendCallError then Some (answer_internal_error σ requestID) else None)).

(** A call to a component's method without a result. *)
Definition step (f : W → W) (l : lifecycle) : prog unit := call (λ w, (f w, tt)) (λ _, [EvLifecycle l]).

(** *** Creating and queueing a request *)

(** The end of [SendRequestCtx]: [enqueue] is the dispatcher's [SendRequest].
    The message id is drawn once the feature is known to be supported. *)
Definition send_request (running : bool) (not_started : string) (generateId : W → W * string) (clientID : string)
    (enqueue : RequestBundle Request → W → W * option error) (e : @Endpoint rtype) (ctx0 : option ctx)
    (request : Request) : prog (string * option create_error) :=
  let c := default Background ctx0 in
  if negb running then mret ("", Some (CreateErr (Errorf not_started None))) else
  id ← match GetProfileForFeature (c_request_feature K request) e with
       | Some _ => call generateId (λ _, [])
       | None => mret ""
       end;
  match CreateCall (c_request_feature K) (c_validate_call K) validationEnabled e request id with
  | inr err => mret ("", Some err)
  | inl cl =>
      match Call_MarshalJSON (c_Encode K) (c_encode_request K) EscapeHTML cl with
      | inr err => mret ("", Some (CreateErr err))
      | inl jsonMessage =>
          let b := mkBundle (Some cl) (Some jsonMessage) (Some c) in
          err ← call (enqueue b) (λ r, [EvEnqueue clientID b r]);
          match err with
          | Some err => mret ("", Some (CreateErr err))
          | None => mret (UniqueId cl, None)
          end
      end
  end.
End peer.

(** ** [ocppj.Client] *)

Module Client.
Section client.
Context {rtype Request Response W : Type} `{!ClientEnv W Request}.
Context (K : codec rtype Request Response) (validationEnabled EscapeHTML : bool).
Abbreviation prog := (M W (pevent Request)).
Abbreviation handler := (W → W * outcome unit).

(** The struct's own fields; the dispatcher, the request state and the
    websocket client are the [ClientEnv]. *)
Record Client := mkClient {
  endpoint : @Endpoint rtype;
  Id : string;
  requestHandler : option (option Request → string → string → handler);
  responseHandler : option (option Response → string → handler);
  errorHandler : option (ocpp_error → option Json → handler);
  onHandlerPanic : option (HandlerPanic → handler);
  onDisconnectedHandler : option (option error → handler);
  onReconnectedHandler : option handler;
  invalidMessageHook : option (@hook W)
}.

(** [NewClient] with the default dispatcher and state where none is given. *)
Definition NewClient (id : string) (wsClient : bool) (dispatcher0 : option (dispatcher Request))
    (stateHandler : option (ClientState.clientState Request)) (profiles : list (Profile rtype))
    : outcome (Client * dispatcher Request) :=
  if negb wsClient then Panicked (PanicString "wsClient parameter cannot be nil") else
  let e := foldl (λ e p, AddProfile p e) (mkEndpoint DialectUnset []) profiles in
  match (match dispatcher0 with
         | Some d => Some d
         | None => NewDefaultClientDispatcher <$> FIFO.NewFIFOClientQueue 10
         end) with
  | Some d =>
      let d' := SetPendingRequestState (default ClientState.NewClientState stateHandler) (SetNetworkClient wsClient d) in
      Done (mkClient e id None None None None None None None, d')
  | None => Panicked (PanicString "capacity")  (* a negative capacity, not the case of 10 *)
  end.

(** The registration functions; [None] is a nil handler. *)
Definition SetRequestHandler (handler0 : option (option Request → string → string → handler)) (c : Client) : Client :=
  mkClient (endpoint c) (Id c) handler0 (responseHandler c) (errorHandler c) (onHandlerPanic c) (onDisconnectedHandler c) (onReconnectedHandler c) (invalidMessageHook c).
Definition SetResponseHandler (handler0 : option (option Response → string → handler)) (c : Client) : Client :=
  mkClient (endpoint c) (Id c) (requestHandler c) handler0 (errorHandler c) (onHandlerPanic c) (onDisconnectedHandler c) (onReconnectedHandler c) (invalidMessageHook c).
Definition SetErrorHandler (handler0 : option (ocpp_error → option Json → handler)) (c : Client) : Client :=
  mkClient (endpoint c) (Id c) (requestHandler c) (responseHandler c) handler0 (onHandlerPanic c) (onDisconnectedHandler c) (onReconnectedHandler c) (invalidMessageHook c).
Definition SetOnHandlerPanic (handler0 : option (HandlerPanic → handler)) (c : Client) (w : W) : Client * W :=
  (mkClient (endpoint c) (Id c) (requestHandler c) (responseHandler c) (errorHandler c) handler0 (onDisconnectedHandler c) (onReconnectedHandler c) (invalidMessageHook c),
   ce_SetOnHandlerPanic (bool_decide (is_Some handler0)) w).
(** The handler itself is the dispatcher's. *)
Definition SetOnRequestCanceled (registered : bool) (w : W) : W := ce_SetOnRequestCanceled registered w.
Definition SetOnDisconnectedHandler (handler0 : option (option error → handler)) (c : Client) : Client :=
  mkClient (endpoint c) (Id c) (requestHandler c) (responseHandler c) (errorHandler c) (onHandlerPanic c) handler0 (onReconnectedHandler c) (invalidMessageHook c).
Definition SetOnReconnectedHandler (handler0 : option (handler)) (c : Client) : Client :=
  mkClient (endpoint c) (Id c) (requestHandler c) (responseHandler c) (errorHandler c) (onHandlerPanic c) (onDisconnectedHandler c) handler0 (invalidMessageHook c).
Definition SetInvalidMessageHook (handler0 : option (@hook W)) (c : Client) : Client :=
  mkClient (endpoint c) (Id c) (requestHandler c) (responseHandler c) (errorHandler c) (onHandlerPanic c) (onDisconnectedHandler c) (onReconnectedHandler c) handler0.

Definition client_side (c : Client) : side :=
  mkSide (endpoint c) "" (λ w, (w, ce_RequestState w)) ce_CompleteRequest ce_Write
    (requestHandler c) (responseHandler c) (errorHandler c) (invalidMessageHook c) (onHandlerPanic c).

Definition SendRequestCtx (c : Client) (ctx0 : option ctx) (request : Request) : prog (string * option create_error) := λ w,
  send_request K validationEnabled EscapeHTML (ce_IsRunning w) "ocppj client is not started, couldn't send request"
    ce_generateId "" ce_SendRequest (endpoint c) ctx0 request w.
Definition SendRequest (c : Client) (request : Request) := SendRequestCtx c (Some Background) request.
Definition SendResponse (c : Client) (requestId : string) (response : Response) : prog (option create_error) :=
  send_response K validationEnabled EscapeHTML (client_side c) requestId response.
Definition SendError (c : Client) (requestId errorCode description : string) (details : option Json)
    : prog (option create_error) :=
  send_error K validationEnabled EscapeHTML (client_side c) requestId errorCode description details.
Definition ocppMessageHandler (c : Client) (data : string) : prog (option create_error) :=
  message_handler K validationEnabled EscapeHTML (client_side c) data.
Definition HandleFailedResponseError (c : Client) (requestID : string) (err : option create_error)
    (featureName : string) : prog unit :=
  handle_failed_response K validationEnabled EscapeHTML (client_side c) requestID err featureName.
Definition RecoverPanicGoroutine (c : Client) (kind : HandlerKind) (action requestID : string)
    (sendCallError : bool) (body : prog unit) : prog unit :=
  recover_goroutine K validationEnabled EscapeHTML (client_side c) kind action requestID sendCallError body.

(** The disconnect and reconnect callbacks of the websocket client. *)
Definition onDisconnected (c : Client) (err : option error) : prog unit :=
  _ ← step ce_Pause DispatcherPaused;
  match onDisconnectedHandler c with
  | Some h => RecoverPanicGoroutine c DisconnectHandlerKind "" "" false
                (_ ← tell [EvInvoke DisconnectHandlerKind "" ""]; user (h err))
  | None => mret tt
  end.
Definition onReconnected (c : Client) : prog unit :=
  _ ← match onReconnectedHandler c with
      | Some h => RecoverPanicGoroutine c ReconnectHandlerKind "" "" false
                    (_ ← tell [EvInvoke ReconnectHandlerKind "" ""]; user h)
      | None => mret tt
      end;
  step ce_Resume DispatcherResumed.

Definition Start (c : Client) (serverURL : string) : prog (option error) :=
  _ ← tell [EvLifecycle RegisterHandlers];
  let fullUrl := serverURL +:+ "/" +:+ Id c in
  err ← call (ce_wsStart fullUrl) (λ r, [EvLifecycle (WsStart fullUrl r)]);
  match err with
  | None => _ ← step ce_Start DispatcherStart; mret None
  | Some e => mret (Some e)
  end.
Definition StartWithRetries (c : Client) (serverURL : string) : prog unit :=
  _ ← tell [EvLifecycle RegisterHandlers];
  let fullUrl := serverURL +:+ "/" +:+ Id c in
  _ ← step (ce_wsStartWithRetries fullUrl) (WsStartWithRetries fullUrl);
  step ce_Start DispatcherStart.

(** [Stop]: waiting for the disconnected signal is the environment's step; on
    a client that is not connected the channel is closed already. *)
Definition Stop (c : Client) : prog unit := λ w,
  let connected := ce_IsConnected w in
  (_ ← (if connected : bool then tell [EvLifecycle InterceptDisconnect] else mret tt);
   _ ← step ce_wsStop WsStop;
   running ← call (λ w, (w, ce_IsRunning w)) (λ _, []);
   _ ← (if running : bool then step ce_Stop DispatcherStop else mret tt);
   if connected : bool then step ce_awaitDisconnected AwaitCleanup else mret tt) w.
End client.
Arguments Client : clear implicits.
End Client.

(** ** [ocppj.Server] *)

Module Server.
Section server.
Context {rtype Request Response W : Type} `{!ServerEnv W Request}.
Context (K : codec rtype Request Response) (validationEnabled EscapeHTML : bool).
Abbreviation prog := (M W (pevent Request)).
Abbreviation handler := (W → W * outcome unit).

(** A [ws.Channel] is known by its [ID()]. *)
Record Server := mkServer {
  endpoint : @Endpoint rtype;
  newClientHandler : option (string → handler);
  disconnectedClientHandler : option (string → handler);
  requestHandler : option (string → option Request → string → string → handler);
  responseHandler : option (string → option Response → string → handler);
  errorHandler : option (string → ocpp_error → option Json → handler);
  onHandlerPanic : option (HandlerPanic → handler);
  invalidMessageHook : option (string → @hook W)
}.

(** The registration functions; [None] is a nil handler. *)
Definition SetNewClientHandler (handler0 : option (string → handler)) (s : Server) : Server :=
  mkServer (endpoint s) handler0 (disconnectedClientHandler s) (requestHandler s) (responseHandler s) (errorHandler s) (onHandlerPanic s) (invalidMessageHook s).
Definition SetDisconnectedClientHandler (handler0 : option (string → handler)) (s : Server) : Server :=
  mkServer (endpoint s) (newClientHandler s) handler0 (requestHandler s) (responseHandler s) (errorHandler s) (onHandlerPanic s) (invalidMessageHook s).
Definition SetRequestHandler (handler0 : option (string → option Request → string → string → handler)) (s : Server) : Server :=
  mkServer (endpoint s) (newClientHandler s) (disconnectedClientHandler s) handler0 (responseHandler s) (errorHandler s) (onHandlerPanic s) (invalidMessageHook s).
Definition SetResponseHandler (handler0 : option (string → option Response → string → handler)) (s : Server) : Server :=
  mkServer (endpoint s) (newClientHandler s) (disconnectedClientHandler s) (requestHandler s) handler0 (errorHandler s) (onHandlerPanic s) (invalidMessageHook s).
Definition SetErrorHandler (handler0 : option (string → ocpp_error → option Json → handler)) (s : Server) : Server :=
  mkServer (endpoint s) (newClientHandler s) (disconnectedClientHandler s) (requestHandler s) (responseHandler s) handler0 (onHandlerPanic s) (invalidMessageHook s).
Definition SetOnHandlerPanic (handler0 : option (HandlerPanic → handler)) (s : Server) (w : W) : Server * W :=
  (mkServer (endpoint s) (newClientHandler s) (disconnectedClientHandler s) (requestHandler s) (responseHandler s) (errorHandler s) handler0 (invalidMessageHook s),
   se_SetOnHandlerPanic (bool_decide (is_Some handler0)) w).
(** The handler itself is the dispatcher's. *)
Definition SetCanceledRequestHandler (registered : bool) (w : W) : W := se_SetOnRequestCanceled registered w.
Definition SetInvalidMessageHook (handler0 : option (string → @hook W)) (s : Server) : Server :=
  mkServer (endpoint s) (newClientHandler s) (disconnectedClientHandler s) (requestHandler s) (responseHandler s) (errorHandler s) (onHandlerPanic s) handler0.

Definition server_side (s : Server) (clientID : string) : side :=
  mkSide (endpoint s) clientID (se_GetClientState clientID) (se_CompleteRequest clientID) (se_Write clientID)
    ((.$ clientID) <$> requestHandler s) ((.$ clientID) <$> responseHandler s) ((.$ clientID) <$> errorHandler s)
    ((.$ clientID) <$> invalidMessageHook s) (onHandlerPanic s).

Definition SendRequestCtx (s : Server) (ctx0 : option ctx) (clientID : string) (request : Request)
    : prog (string * option create_error) := λ w,
  send_request K validationEnabled EscapeHTML (se_IsRunning w) "ocppj server is not started, couldn't send request"
    se_generateId clientID (se_SendRequest clientID) (endpoint s) ctx0 request w.
Definition SendRequest (s : Server) (clientID : string) (request : Request) :=
  SendRequestCtx s (Some Background) clientID request.
Definition SendResponse (s : Server) (clientID requestId : string) (response : Response) : prog (option create_error) :=
  send_response K validationEnabled EscapeHTML (server_side s clientID) requestId response.
Definition SendError (s : Server) (clientID requestId errorCode description : string) (details : option Json)
    : prog (option create_error) :=
  send_error K validationEnabled EscapeHTML (server_side s clientID) requestId errorCode description details.
Definition ocppMessageHandler (s : Server) (wsChannel : string) (data : string) : prog (option create_error) :=
  message_handler K validationEnabled EscapeHTML (server_side s wsChannel) data.
Definition HandleFailedResponseError (s : Server) (clientID requestID : string) (err : option create_error)
    (featureName : string) : prog unit :=
  handle_failed_response K validationEnabled EscapeHTML (server_side s clientID) requestID err featureName.
Definition RecoverPanicGoroutine (s : Server) (kind : HandlerKind) (clientID action requestID : string)
    (sendCallError : bool) (body : prog unit) : prog unit :=
  recover_goroutine K validationEnabled EscapeHTML (server_side s clientID) kind action requestID sendCallError body.

(** The connect and disconnect callbacks of the websocket server. *)
Definition guarded_client_handler (s : Server) (kind : HandlerKind) (ws : string) (h : option (string → handler))
    : prog unit :=
  match h with
  | Some h => recoverHandler kind ws "" "" (panic_callback (onHandlerPanic s)) None
                (_ ← tell [EvInvoke kind ws ""]; user (h ws))
  | None => mret tt
  end.
Definition onClientConnected (s : Server) (ws : string) : prog unit :=
  _ ← step (se_CreateClient ws) (ClientCreated ws);
  guarded_client_handler s ConnectHandlerKind ws (newClientHandler s).
Definition onClientDisconnected (s : Server) (ws : string) : prog unit :=
  _ ← step (match se_DeleteClientAndWait with Some f => f ws | None => se_DeleteClient ws end) (ClientDeleted ws);
  _ ← step (se_ClearClientPendingRequest ws) (PendingCleared ws);
  guarded_client_handler s DisconnectHandlerKind ws (disconnectedClientHandler s).

Definition Start (s : Server) (listenPort : Z) (listenPath : string) : prog unit :=
  _ ← tell [EvLifecycle RegisterHandlers];
  _ ← step se_Start DispatcherStart;
  step (se_wsStart listenPort listenPath) (WsStart listenPath None).
Definition Stop (s : Server) : prog unit :=
  _ ← step se_Stop DispatcherStop; step se_wsStop WsStop.
Definition Shutdown (s : Server) (c : ctx) : prog (option error) :=
  _ ← step se_Stop DispatcherStop; call (se_wsShutdown c) (λ _, [EvLifecycle WsStop]).
End server.
Arguments Server : clear implicits.
End Server.
