(* ===== verification/PeerTheorems.v ===== *)
(** * Properties of the endpoint operations

    Containment of handler panics, delivery of requests, responses and errors
    between two endpoints, replies to invalid messages, and the instance of
    [ClientEnv] the default client dispatcher gives. *)

From Stdlib Require Import QArith.QArith.
From S2P Require Import Prelude Conc Ocpp Errors Queue State Message Endpoint Panic ClientDispatcher Peer.
Local Open Scope string_scope.
Local Open Scope list_scope.

Section theorems.
Context {rtype Request Response W : Type}.
Implicit Types (K : codec rtype Request Response) (σ : @side rtype Request Response W).
Context (K : codec rtype Request Response) (validationEnabled EscapeHTML : bool).

Abbreviation message_handler := (message_handler K validationEnabled EscapeHTML).
Abbreviation send_error := (send_error K validationEnabled EscapeHTML).
Abbreviation send_response := (send_response K validationEnabled EscapeHTML).

(** ** What is sent *)

(** The bytes of a CALL ERROR, or why it cannot be built. *)
Definition error_frame (id code description : string) (details : option Json) : string + create_error :=
  match CreateCallError (c_validate_error K) validationEnabled id code description details with
  | inr err => inr err
  | inl ce => match CallError_MarshalJSON (c_Encode K) EscapeHTML ce with
              | inl s => inl s
              | inr err => inr (CreateErr (OcppError (NewError GenericError (error_text err) id)))
              end
  end.

(** The writes of a log. *)
Definition sent (l : list (pevent Request)) : list (string * string) :=
  omap (λ ev, match ev with EvSent c s _ => Some (c, s) | _ => None end) l.

Lemma sent_app l1 l2 : sent (l1 ++ l2) = sent l1 ++ sent l2.
Proof. unfold sent. by rewrite omap_app. Qed.

Definition frame_sent σ (f : string + create_error) : list (string * string) :=
  match f with inl s => [(s_clientID σ, s)] | inr _ => [] end.

Lemma send_error_sent σ id code description details w :
  ∃ w' l r, send_error σ id code description details w = (w', l, Done r) ∧
            sent l = frame_sent σ (error_frame id code description details).
Proof.
  unfold Peer.send_error, error_frame. destruct (CreateCallError _ _ _ _ _ _) as [ce|err]; [|by do 3 eexists].
  destruct (CallError_MarshalJSON _ _ ce) as [s|err]; [|by do 3 eexists].
  unfold mbind, M_bind, call. destruct (s_write σ s w) as [w1 r]. by do 3 eexists.
Qed.

Lemma returns_send_error σ id code description details : returns (send_error σ id code description details).
Proof. intros w. destruct (send_error_sent σ id code description details w) as (? & ? & ? & ? & _). eauto. Qed.

Lemma returns_answer σ id : returns (answer_internal_error K validationEnabled EscapeHTML σ id).
Proof. unfold answer_internal_error. eauto using returns_send_error with go. Qed.

Lemma returns_handle_call σ c : returns (handle_call K validationEnabled EscapeHTML σ c).
Proof. unfold handle_call. destruct (s_requestHandler σ); auto with go. Qed.

Lemma returns_handle_result σ c : returns (handle_result σ c).
Proof.
  unfold handle_result, complete. apply returns_bind; [auto with go|]. intros [].
  - destruct (s_responseHandler σ); auto with go.
  - auto with go.
Qed.

Lemma returns_handle_error σ c : returns (handle_error σ c).
Proof.
  unfold handle_error, complete. apply returns_bind; [auto with go|]. intros [].
  - destruct (s_errorHandler σ); auto with go.
  - auto with go.
Qed.

Lemma returns_call_hook σ h err data arr : returns (call_hook σ h err data arr).
Proof.
  intros w. unfold call_hook. destruct (h err data arr w) as [w1 [m [r|v]]]; [eauto|].
  destruct (returns_report (E := pevent Request) v InvalidMessageHandlerKind (s_clientID σ) "" (MessageId err)
    (panic_callback (s_onHandlerPanic σ)) None w1) as (w2 & l2 & a & ->). eauto.
Qed.

Lemma returns_handle_invalid σ data arr err : returns (handle_invalid K validationEnabled EscapeHTML σ data arr err).
Proof.
  unfold handle_invalid. apply returns_bind.
  - destruct (s_invalidMessageHook σ); eauto using returns_call_hook with go.
  - intros e. case_decide; eauto using returns_send_error with go.
Qed.

(** ** Running the message handler *)

Lemma message_handler_parsed σ data arr w w1 pend :
  ParseRawJsonMessage (c_Unmarshal K) data = inl arr → s_pending σ w = (w1, pend) →
  message_handler σ data w =
  match ParseMessage_ K (s_endpoint σ) arr pend with
  | ParsePanic => panic (parse_panic_value K (s_endpoint σ) arr pend)
  | ParseError e => handle_invalid K validationEnabled EscapeHTML σ data arr e
  | Discarded => mret None
  | Parsed (MCall c) => _ ← handle_call K validationEnabled EscapeHTML σ c; mret None
  | Parsed (MCallResult c) => _ ← handle_result σ c; mret None
  | Parsed (MCallError c) => _ ← handle_error σ c; mret None
  end w1.
Proof.
  intros Hr Hp. unfold Peer.message_handler. rewrite Hr.
  erewrite bind_done by (unfold call; by rewrite Hp).
  by destruct (_ w1) as [[w2 l2] r].
Qed.

(** A panic after the tail [mret None] adds nothing. *)
Lemma then_none {A : Type} (m : M W (pevent Request) A) (b : option create_error) w w' l a :
  m w = (w', l, Done a) → (_ ← m; mret b) w = (w', l, Done b).
Proof. intros Hm. erewrite bind_done by exact Hm. unfold mret, M_ret. by rewrite app_nil_r. Qed.

Lemma then_inv {A : Type} (m : M W (pevent Request) A) (b r : option create_error) w w' l :
  (_ ← m; mret b) w = (w', l, Done r) → ∃ a, m w = (w', l, Done a).
Proof.
  unfold mbind, M_bind, mret, M_ret. destruct (m w) as [[w1 l1] [a|v]]; intros; simplify_eq.
  exists a. by rewrite app_nil_r.
Qed.

Lemma then_start {A B : Type} (a : A) (f : A → M W (pevent Request) B) w (out : W * list (pevent Request) * outcome B) :
  f a w = out → (x ← mret a; f x) w = out.
Proof. intros <-. unfold mbind, M_bind, mret, M_ret. simpl. by destruct (f a w) as [[? ?] ?]. Qed.

(** The log of a panic report. *)
Definition reports σ (hp : HandlerPanic) : list (pevent Request) :=
  match s_onHandlerPanic σ with Some _ => [EvReport hp] | None => [] end.

Lemma callback_report σ hp w :
  ∃ w', match panic_callback (s_onHandlerPanic σ) with
        | Some cb => guardedCall (cb hp)
        | None => mret tt
        end w = (w', reports σ hp, Done tt).
Proof.
  unfold reports, panic_callback, guardedCall. destruct (s_onHandlerPanic σ) as [f|]; simpl; [|by eexists].
  unfold recovering, mbind, M_bind, tell, user.
  destruct (f hp w) as [w1 [[]|v]]; simpl; eexists; rewrite ?app_nil_r; reflexivity.
Qed.

Lemma report_log σ v kind action id after w :
  let hp := mkHandlerPanic (s_clientID σ) kind action id v in
  ∃ w1, reportHandlerPanic v kind (s_clientID σ) action id (panic_callback (s_onHandlerPanic σ)) after w =
    let '(w2, l2, r) := match after with Some a => guardedCall a | None => mret tt end w1 in
    (w2, reports σ hp ++ l2, r).
Proof.
  intros hp. destruct (callback_report σ hp w) as [w1 Hw]. exists w1.
  unfold reportHandlerPanic. by erewrite bind_done by exact Hw.
Qed.

(** An invocation of a user handler under [recoverHandler]. *)
Lemma recover_run σ kind action id after (ev : pevent Request) f w :
  let hp v := mkHandlerPanic (s_clientID σ) kind action id v in
  match f w with
  | (w1, Done _) =>
      recoverHandler kind (s_clientID σ) action id (panic_callback (s_onHandlerPanic σ)) after
        (_ ← tell [ev]; user f) w = (w1, [ev], Done tt)
  | (w1, Panicked v) =>
      ∃ w2, recoverHandler kind (s_clientID σ) action id (panic_callback (s_onHandlerPanic σ)) after
        (_ ← tell [ev]; user f) w =
        let '(w3, l3, r) := match after with Some a => guardedCall a | None => mret tt end w2 in
        (w3, ev :: reports σ (hp v) ++ l3, r)
  end.
Proof.
  intros hp. unfold recoverHandler.
  assert (Hb : (_ ← tell [ev]; user f) w = let '(w1, r) := f w in (w1, [ev], r)).
  { unfold mbind, M_bind, tell, user. by destruct (f w). }
  destruct (f w) as [w1 [[]|v]].
  - by erewrite recovering_done by exact Hb.
  - destruct (report_log σ v kind action id after w1) as [w2 Hrep]. exists w2.
    erewrite recovering_panicked by exact Hb. rewrite Hrep.
    by destruct (_ w2) as [[w3 l3] r].
Qed.

Lemma guarded_answer σ id w :
  ∃ w' l, guardedCall (answer_internal_error K validationEnabled EscapeHTML σ id) w = (w', l, Done tt) ∧
          sent l = frame_sent σ (error_frame id InternalError internal_error_text None).
Proof.
  destruct (send_error_sent σ id InternalError internal_error_text None w) as (w1 & l1 & r & Hs & Hl).
  exists w1, l1. split; [|done]. apply guardedCall_done. unfold answer_internal_error.
  erewrite bind_done by exact Hs. unfold mret, M_ret. by rewrite app_nil_r.
Qed.

(** What reaches the wire when a request handler ends: nothing if it returned,
    the internal error if it panicked. *)
Lemma handle_call_log σ h (c : Call Request) w :
  s_requestHandler σ = Some h →
  ∃ w' l, handle_call K validationEnabled EscapeHTML σ c w =
            (w', EvInvoke RequestHandlerKind (s_clientID σ) (UniqueId c) :: l, Done tt) ∧
  match h (Payload c) (UniqueId c) (Action c) w with
  | (w1, Done _) => w' = w1 ∧ l = []
  | (_, Panicked v) => ∃ l2,
      l = reports σ (mkHandlerPanic (s_clientID σ) RequestHandlerKind (Action c) (UniqueId c) v) ++ l2 ∧
      sent l2 = frame_sent σ (error_frame (UniqueId c) InternalError internal_error_text None)
  end.
Proof.
  intros Hh. unfold handle_call. rewrite Hh.
  pose proof (recover_run σ RequestHandlerKind (Action c) (UniqueId c)
    (Some (answer_internal_error K validationEnabled EscapeHTML σ (UniqueId c)))
    (EvInvoke RequestHandlerKind (s_clientID σ) (UniqueId c)) (h (Payload c) (UniqueId c) (Action c)) w) as Hr.
  destruct (h (Payload c) (UniqueId c) (Action c) w) as [w1 [[]|v]]; simpl in Hr.
  - rewrite Hr. by do 2 eexists.
  - destruct Hr as [w2 ->]. destruct (guarded_answer σ (UniqueId c) w2) as (w3 & l3 & -> & Hl).
    do 2 eexists. split; [done|]. eauto.
Qed.

(** A completion, with the handler run only by the winner. *)
Definition completion_log σ (kind : HandlerKind) (id : string) (w : W) (f : option (W → W * outcome unit))
    (out : W * list (pevent Request)) : Prop :=
  let '(w1, won) := s_complete σ id w in
  let first := EvCompleted (s_clientID σ) id won in
  match won, f with
  | true, Some f =>
      let invoked := EvInvoke kind (s_clientID σ) id in
      match f w1 with
      | (w2, Done _) => out = (w2, [first; invoked])
      | (_, Panicked v) => ∃ w3, out = (w3, first :: invoked :: reports σ (mkHandlerPanic (s_clientID σ) kind "" id v))
      end
  | _, _ => out = (w1, [first])
  end.

Lemma guarded_completion σ kind id w f :
  ∃ w' l, (won ← complete σ id;
           match won, f with
           | true, Some g => recoverHandler kind (s_clientID σ) "" id (panic_callback (s_onHandlerPanic σ)) None
                               (_ ← tell [EvInvoke kind (s_clientID σ) id]; user g)
           | _, _ => mret tt
           end) w = (w', l, Done tt) ∧ completion_log σ kind id w f (w', l).
Proof.
  unfold completion_log. destruct (s_complete σ id w) as [w1 won] eqn:Hc.
  assert (Hcall : complete σ id w = (w1, [EvCompleted (s_clientID σ) id won], Done won)).
  { unfold complete, call. by rewrite Hc. }
  rewrite (bind_done _ _ _ _ _ _ Hcall). destruct won; [destruct f as [g|]|]; [|by do 2 eexists..].
  pose proof (recover_run σ kind "" id None (EvInvoke kind (s_clientID σ) id) g w1) as Hr. simpl in Hr.
  destruct (g w1) as [w2 [[]|v]].
  - rewrite Hr. by do 2 eexists.
  - destruct Hr as [w3 Hr]. rewrite Hr. do 2 eexists. split; [done|]. exists w3. by rewrite app_nil_r.
Qed.

Lemma handle_result_log σ c w :
  ∃ w' l, handle_result σ c w = (w', l, Done tt) ∧
    completion_log σ ResponseHandlerKind (cr_UniqueId c) w
      ((λ h, h (cr_Payload c) (cr_UniqueId c)) <$> s_responseHandler σ) (w', l).
Proof.
  pose proof (guarded_completion σ ResponseHandlerKind (cr_UniqueId c) w
    ((λ h, h (cr_Payload c) (cr_UniqueId c)) <$> s_responseHandler σ)) as H.
  unfold handle_result. by destruct (s_responseHandler σ).
Qed.

Lemma handle_error_log σ c w :
  ∃ w' l, handle_error σ c w = (w', l, Done tt) ∧
    completion_log σ ErrorHandlerKind (ce_UniqueId c) w
      ((λ h, h (NewError (ce_ErrorCode c) (ce_ErrorDescription c) (ce_UniqueId c)) (ce_ErrorDetails c))
         <$> s_errorHandler σ) (w', l).
Proof.
  pose proof (guarded_completion σ ErrorHandlerKind (ce_UniqueId c) w
    ((λ h, h (NewError (ce_ErrorCode c) (ce_ErrorDescription c) (ce_UniqueId c)) (ce_ErrorDetails c))
       <$> s_errorHandler σ)) as H.
  unfold handle_error. by destruct (s_errorHandler σ).
Qed.

(** ** Properties *)

(** C32: no panic of a request, response, error or invalid-message handler, nor
    of the panic callback, escapes the message handler of an endpoint that has
    a dialect, so the read loop that calls it survives. *)
Theorem peer_contains_panics σ (data : string) w :
  dialect (s_endpoint σ) ≠ DialectUnset →
  (∀ id, id ≠ "" → ClientState.GetPendingRequest id (s_pending σ w).2 ≠ Some None) →
  ∃ w' l r, message_handler σ data w = (w', l, Done r).
Proof.
  intros Hd Hp. destruct (ParseRawJsonMessage (c_Unmarshal K) data) as [arr|e] eqn:Hr.
  - destruct (s_pending σ w) as [w1 pend] eqn:Hw. simpl in Hp. rewrite (message_handler_parsed _ _ _ _ _ _ Hr Hw).
    destruct (ParseMessage_ K (s_endpoint σ) arr pend) as [m| |err|] eqn:HP.
    + destruct m as [c|c|c]; apply returns_bind; auto using returns_handle_call, returns_handle_result,
        returns_handle_error with go.
    + apply returns_ret.
    + apply returns_handle_invalid.
    + exfalso. eapply ParseMessage_defined; [exact Hd|exact Hp|exact HP].
  - unfold Peer.message_handler. rewrite Hr. apply returns_ret.
Qed.

(** a request whose handler panics is answered: the endpoint reports the
    panic and writes one CALL ERROR with code InternalError and the request's
    id; without a panic it writes nothing itself. *)
Theorem panic_answered σ h data arr pend (c : Call Request) w w1 :
  s_requestHandler σ = Some h →
  ParseRawJsonMessage (c_Unmarshal K) data = inl arr → s_pending σ w = (w1, pend) →
  ParseMessage_ K (s_endpoint σ) arr pend = Parsed (MCall c) →
  ∃ w' l, message_handler σ data w =
            (w', EvInvoke RequestHandlerKind (s_clientID σ) (UniqueId c) :: l, Done None) ∧
  match h (Payload c) (UniqueId c) (Action c) w1 with
  | (w2, Done _) => w' = w2 ∧ l = []
  | (_, Panicked v) => ∃ l2,
      l = reports σ (mkHandlerPanic (s_clientID σ) RequestHandlerKind (Action c) (UniqueId c) v) ++ l2 ∧
      sent l2 = frame_sent σ (error_frame (UniqueId c) InternalError internal_error_text None)
  end.
Proof.
  intros Hh Hr Hw HP. rewrite (message_handler_parsed _ _ _ _ _ _ Hr Hw), HP.
  destruct (handle_call_log σ h c w1 Hh) as (w' & l & Hc & Hl).
  rewrite (then_none _ _ _ _ _ _ Hc). eauto.
Qed.
(** The error an invalid message is answered with: the hook's result under the
    original id, the original error if the hook panicked, what the hook left in
    it if it returned nil. *)
Definition invalid_reply σ (data : string) (arr : list Json) (err : ocpp_error) (w : W) : ocpp_error :=
  match s_invalidMessageHook σ with
  | None => err
  | Some h => match (h err data arr w).2 with
              | (_, Done (Some e)) => set_MessageId (MessageId err) e
              | (mutated, Done None) => mutated
              | (_, Panicked _) => err
              end
  end.

Lemma call_hook_reply σ h data arr err w :
  s_invalidMessageHook σ = Some h →
  ∃ w1 l1, (r ← call_hook σ h err data arr; mret (resolve_hook (MessageId err) r)) w =
             (w1, l1, Done (invalid_reply σ data arr err w)) ∧ sent l1 = [].
Proof.
  intros Hh. unfold invalid_reply. rewrite Hh. unfold mbind, M_bind, mret, M_ret, call_hook.
  destruct (h err data arr w) as [w1 [m [r|v]]]; simpl.
  - do 2 eexists. split; [by destruct r|done].
  - destruct (report_log σ v InvalidMessageHandlerKind "" (MessageId err) None w1) as [w2 ->]. simpl.
    do 2 eexists. split; [done|]. rewrite !app_nil_r. unfold reports. by destruct (s_onHandlerPanic σ).
Qed.

(** an invalid message is answered with one CALL ERROR (none if the error
    carries no id or cannot be encoded) that holds the code and description of
    [invalid_reply] and its id, and a hook that panics or returns an error
    cannot change the id it is sent for. *)
Theorem invalid_message_reply σ data arr pend err w w1 :
  ParseRawJsonMessage (c_Unmarshal K) data = inl arr → s_pending σ w = (w1, pend) →
  ParseMessage_ K (s_endpoint σ) arr pend = ParseError err →
  let e := invalid_reply σ data arr err w1 in
  (∃ w' l r, message_handler σ data w = (w', l, Done (Some r)) ∧
    sent l = if decide (MessageId e = "") then []
             else frame_sent σ (error_frame (MessageId e) (Code e) (Description e) None)) ∧
  (MessageId e = MessageId err ∨
   ∃ h m, s_invalidMessageHook σ = Some h ∧ (h err data arr w1).2 = (m, Done None) ∧ e = m).
Proof.
  intros Hr Hw HP e. split.
  - rewrite (message_handler_parsed _ _ _ _ _ _ Hr Hw), HP. unfold handle_invalid.
    assert (∃ w2 l2, match s_invalidMessageHook σ with
      | Some h => r ← call_hook σ h err data arr; mret (resolve_hook (MessageId err) r)
      | None => mret err end w1 = (w2, l2, Done e) ∧ sent l2 = []) as (w2 & l2 & Hh & Hs).
    { destruct (s_invalidMessageHook σ) as [h|] eqn:Hhook; [by apply call_hook_reply|].
      subst e. unfold invalid_reply. rewrite Hhook. by do 2 eexists. }
    rewrite (bind_done _ _ _ _ _ _ Hh). case_decide as Hid.
    + do 3 eexists. split; [done|]. by rewrite app_nil_r.
    + destruct (send_error_sent σ (MessageId e) (Code e) (Description e) None w2) as (w3 & l3 & r & Hse & Hl).
      rewrite (bind_done _ _ _ _ _ _ Hse). do 3 eexists. split; [done|]. by rewrite app_nil_r, sent_app, Hs.
  - subst e. unfold invalid_reply. destruct (s_invalidMessageHook σ) as [h|]; [|by left].
    destruct (h err data arr w1) as [w2 [m [[e|]|v]]] eqn:Hh; simpl; [by left| |by left].
    right. exists h, m. by rewrite Hh.
Qed.

(** [SendRequestCtx] on every branch: it fails without side effects when the
    endpoint is not started or the call cannot be made, fails with the
    dispatcher's error when the queue refuses the bundle, and otherwise returns
    the message id it has queued; an error always comes with an empty id. *)
Lemma send_request_cases (running : bool) text gen cid enq (e : @Endpoint rtype) ctx0 (r : Request) (w : W) :
  match send_request K validationEnabled EscapeHTML running text gen cid enq e ctx0 r w with
  | (w', [], Done (id, err)) => id = "" ∧ err ≠ None
  | (w', [EvEnqueue cid' b None], Done (id, err)) =>
      cid' = cid ∧ err = None ∧ running = true ∧ elem_id (EBundle b) = Some id ∧ is_Some (bundle_Data b) ∧
      bundle_Ctx b = Some (default Background ctx0)
  | (w', [EvEnqueue cid' b (Some e')], Done (id, err)) => cid' = cid ∧ id = "" ∧ err = Some (CreateErr e')
  | _ => False
  end.
Proof.
  unfold send_request. destruct running; [|done]. cbn [negb].
  destruct (GetProfileForFeature (c_request_feature K r) e) as [p|] eqn:Hp; unfold mbind, M_bind, call, mret, M_ret.
  2: { unfold CreateCall. by rewrite Hp. }
  cbv beta. destruct (gen w) as [w1 id1]. cbv beta iota. destruct (CreateCall (c_request_feature K) (c_validate_call K) validationEnabled e r id1)
    as [c|err] eqn:Hc; [|by split].
  destruct (Call_MarshalJSON (c_Encode K) (c_encode_request K) EscapeHTML c) as [data|err] eqn:Hm; [|by split].
  destruct (enq _ w1) as [w2 [err|]]; simpl; [done|]. by repeat split; eauto.
Qed.

(** [HandleFailedResponseError] makes exactly one attempt to answer the
    request with an error under the request's own id, whatever kind of error
    the failed response ended with. *)
Theorem failed_response_answered σ (requestID feature : string) (err : create_error) w :
  dialect (s_endpoint σ) ≠ DialectUnset →
  ∃ w' l code desc, handle_failed_response K validationEnabled EscapeHTML σ requestID (Some err) feature w =
      (w', l, Done tt) ∧
    sent l = frame_sent σ (error_frame requestID code desc None) ∧
    match err with
    | CreateErr (OcppError e) => code = Code e ∧ desc = Description e
    | CreateErr e => code = GenericError ∧ desc = error_text e
    | CreateInvalid _ => IsErrorCodeValid code = true
    end.
Proof.
  intros Hd.
  assert (Hsend : ∀ code desc, ∃ w' l,
    (_ ← send_error σ requestID code desc None; mret tt) w = (w', l, Done tt) ∧
    sent l = frame_sent σ (error_frame requestID code desc None)).
  { intros code desc. destruct (send_error_sent σ requestID code desc None w) as (w1 & l1 & r & Hs & Hl).
    rewrite (bind_done _ _ _ _ _ _ Hs). do 2 eexists. split; [done|]. by rewrite app_nil_r. }
  unfold handle_failed_response. destruct err as [e|ferrs].
  - destruct e as [n t|t wr|o]; [destruct (Hsend GenericError t) as (w' & l & He & Hl)|
      destruct (Hsend GenericError t) as (w' & l & He & Hl)|
      destruct (Hsend (Code o) (Description o)) as (w' & l & He & Hl)];
      exists w', l; do 2 eexists; (split; [exact (then_start _ _ _ _ He)|done]).
  - destruct (errorFromValidation_defined (c_errors_text K ferrs) _ ferrs requestID feature Hd) as [e He].
    rewrite He. apply errorFromValidation_spec in He as [_ Hcode].
    destruct (Hsend (Code e) (Description e)) as (w' & l & Hs & Hl).
    exists w', l. do 2 eexists. split; [exact (then_start _ _ _ _ Hs)|done].
Qed.
End theorems.

(** ** From one endpoint to the other *)

Section exchange.
Context {rtype Request Response W1 W2 : Type}.
Context (K : codec rtype Request Response) (EscapeHTML1 EscapeHTML2 validationEnabled : bool).
Implicit Types (σ : @side rtype Request Response W1) (τ : @side rtype Request Response W2).

Abbreviation json_ok := (json_codec_ok (c_Unmarshal K) (c_Encode K)).
Abbreviation reads_request := (request_reads (c_request_feature K) (c_decode_request K) (c_encode_request K)).
Abbreviation reads_response := (response_reads (c_decode_response K) (c_encode_response K)).

Lemma GetProfileForFeature_Profiles (e1 e2 : @Endpoint rtype) f :
  Profiles e1 = Profiles e2 → GetProfileForFeature f e1 = GetProfileForFeature f e2.
Proof. intros He. unfold GetProfileForFeature. by rewrite He. Qed.

(** A request that [SendRequestCtx] queues, and the bytes it is queued with. *)
Lemma send_request_done running text gen cid enq (e : @Endpoint rtype) ctx0 r (w w' : W1) l id :
  send_request K true EscapeHTML1 running text gen cid enq e ctx0 r w = (w', l, Done (id, None)) →
  ∃ c data, l = [EvEnqueue cid (mkBundle (Some c) (Some data) (Some (default Background ctx0))) None] ∧
    running = true ∧ UniqueId c = id ∧
    CreateCall (c_request_feature K) (c_validate_call K) true e r id = inl c ∧
    Call_MarshalJSON (c_Encode K) (c_encode_request K) EscapeHTML1 c = inl data.
Proof.
  unfold send_request. destruct running; simpl; [|by intros [=]].
  destruct (GetProfileForFeature (c_request_feature K r) e) as [p|] eqn:Hp; unfold mbind, M_bind, call, mret, M_ret.
  2: { unfold CreateCall. rewrite Hp. by intros [=]. }
  destruct (gen w) as [w1 id1]. destruct (CreateCall _ _ _ _ _ _) as [c|err] eqn:Hc; [|by intros [=]].
  destruct (Call_MarshalJSON _ _ _ _) as [data|err] eqn:Hm; [|by intros [=]].
  destruct (enq _ w1) as [w2 [err|]]; [by intros [=]|]. intros Heq. simplify_eq/=.
  assert (UniqueId c = id1).
  { unfold CreateCall in Hc. rewrite Hp in Hc. by apply validated_ok in Hc as [-> _]. }
  simplify_eq. eauto 10.
Qed.

Lemma send_request_id running text gen cid enq (e : @Endpoint rtype) ctx0 r (w w' : W1) l id :
  send_request K true EscapeHTML1 running text gen cid enq e ctx0 r w = (w', l, Done (id, None)) → id = (gen w).2.
Proof.
  unfold send_request. destruct running; simpl; [|by intros [=]].
  destruct (GetProfileForFeature (c_request_feature K r) e) as [p|] eqn:Hp; unfold mbind, M_bind, call, mret, M_ret.
  2: { unfold CreateCall. rewrite Hp. by intros [=]. }
  destruct (gen w) as [w1 id1]. destruct (CreateCall _ _ _ _ _ _) as [c|err] eqn:Hc; [|by intros [=]].
  pose proof (created_call _ _ _ _ _ _ Hc) as ->.
  destruct (Call_MarshalJSON _ _ _ _) as [data|err]; [|by intros [=]].
  destruct (enq _ w1) as [w2 [err|]]; [by intros [=]|]. by intros [= _ _ <-].
Qed.

(** A call whose bytes carry it: the receiver's handler gets the payload that the
    decoder reads, if the validator accepts it. *)
Lemma receive_call τ h (e : @Endpoint rtype) r r' id c data w w1 pend :
  json_ok → reads_request e r r' → id ≠ "" → Profiles e = Profiles (s_endpoint τ) →
  CreateCall (c_request_feature K) (c_validate_call K) true e r id = inl c →
  Call_MarshalJSON (c_Encode K) (c_encode_request K) EscapeHTML1 c = inl data →
  json_exact (JArr (Call_fields (c_encode_request K) c)) = true →
  c_validate_call K (mkCall CALL id (c_request_feature K r) (Some r')) = [] →
  s_requestHandler τ = Some h → s_pending τ w = (w1, pend) →
  ∃ w' l, message_handler K validationEnabled EscapeHTML2 τ data w =
            (w', EvInvoke RequestHandlerKind (s_clientID τ) id :: l, Done None) ∧
  match h (Some r') id (c_request_feature K r) w1 with
  | (w2, Done _) => w' = w2 ∧ l = []
  | (_, Panicked v) =>
      sent l = frame_sent τ (error_frame K validationEnabled EscapeHTML2 id InternalError internal_error_text None)
  end.
Proof.
  intros Hj Hr Hid HPr Hc Hm Hx Hv Hh Hw.
  assert (Hr' : reads_request (s_endpoint τ) r r').
  { intros p ft. rewrite <-(GetProfileForFeature_Profiles e) by done. apply Hr. }
  assert (Hc' : CreateCall (c_request_feature K) (c_validate_call K) true (s_endpoint τ) r id = inl c).
  { unfold CreateCall. by rewrite <-(GetProfileForFeature_Profiles e). }
  destruct (call_parses (c_request_feature K) (c_Unmarshal K) (c_Encode K) (c_decode_request K) (c_decode_response K)
    (c_encode_request K) (c_validate_call K) (c_validate_result K) (c_validate_error K) (c_errors_text K)
    (c_fmt_v K) (c_overflow K) _ r r' id c EscapeHTML1 data pend Hj Hr' Hid Hc' Hm Hx) as (arr & Harr & HP).
  rewrite Hv in HP. rewrite (message_handler_parsed _ _ _ _ _ _ _ _ _ Harr Hw).
  unfold ParseMessage_. rewrite HP. cbn [validation_result].
  destruct (handle_call_log K validationEnabled EscapeHTML2 τ h
    (mkCall CALL id (c_request_feature K r) (Some r')) w1 Hh) as (w' & l & Hcl & Hl).
  rewrite (then_none _ _ _ _ _ _ Hcl). do 2 eexists. split; [done|]. simpl in Hl.
  destruct (h _ _ _ w1) as [w2 [[]|v]]; [done|]. destruct Hl as (l2 & -> & Hl2).
  rewrite sent_app, Hl2. unfold reports. by destruct (s_onHandlerPanic τ).
Qed.

Lemma receive_result τ (e : @Endpoint rtype) resp resp' req id c data w w1 pend :
  json_ok → reads_response e (c_request_feature K req) resp resp' → id ≠ "" → Profiles e = Profiles (s_endpoint τ) →
  c_response_feature K resp = c_request_feature K req →
  CreateCallResult (c_response_feature K) (c_validate_result K) true e resp id = inl c →
  CallResult_MarshalJSON (c_Encode K) (c_encode_response K) EscapeHTML1 c = inl data →
  json_exact (JArr (CallResult_fields (c_encode_response K) c)) = true →
  c_validate_result K (mkCallResult CALL_RESULT id (Some resp')) = [] →
  s_pending τ w = (w1, pend) → ClientState.GetPendingRequest id pend = Some (Some req) →
  ∃ w' l, message_handler K validationEnabled EscapeHTML2 τ data w = (w', l, Done None) ∧
    completion_log τ ResponseHandlerKind id w1 ((λ h, h (Some resp') id) <$> s_responseHandler τ) (w', l).
Proof.
  intros Hj Hr Hid HPr Hf Hc Hm Hx Hv Hw Hpend.
  assert (Hr' : reads_response (s_endpoint τ) (c_request_feature K req) resp resp').
  { intros p ft. rewrite <-(GetProfileForFeature_Profiles e) by done. apply Hr. }
  assert (Hc' : CreateCallResult (c_response_feature K) (c_validate_result K) true (s_endpoint τ) resp id = inl c).
  { unfold CreateCallResult. by rewrite <-(GetProfileForFeature_Profiles e). }
  destruct (call_result_parses (c_request_feature K) (c_response_feature K) (c_Unmarshal K) (c_Encode K)
    (c_decode_request K) (c_decode_response K) (c_encode_response K) (c_validate_call K) (c_validate_result K)
    (c_validate_error K) (c_errors_text K) (c_fmt_v K) (c_overflow K) _ resp resp' req id c EscapeHTML1 data pend
    Hj Hr' Hid Hf Hpend Hc' Hm Hx) as (arr & Harr & HP).
  rewrite Hv in HP. rewrite (message_handler_parsed _ _ _ _ _ _ _ _ _ Harr Hw). unfold ParseMessage_. rewrite HP.
  cbn [validation_result].
  destruct (handle_result_log τ (mkCallResult CALL_RESULT id (Some resp')) w1) as (w' & l & Hcl & Hl).
  rewrite (then_none _ _ _ _ _ _ Hcl). eauto.
Qed.

Lemma receive_error τ id code desc data w w1 pend :
  json_ok → id ≠ "" → error_frame K true EscapeHTML1 id code desc None = inl data →
  json_exact (JArr (CallError_fields (mkCallError CALL_ERROR id code desc None))) = true →
  c_validate_error K (mkCallError CALL_ERROR id code desc (Some (JObj []))) = [] →
  s_pending τ w = (w1, pend) → is_Some (ClientState.GetPendingRequest id pend) →
  ∃ w' l, message_handler K validationEnabled EscapeHTML2 τ data w = (w', l, Done None) ∧
    completion_log τ ErrorHandlerKind id w1
      ((λ h, h (NewError code desc id) (Some (JObj []))) <$> s_errorHandler τ) (w', l).
Proof.
  intros Hj Hid Hf Hx Hv Hw Hpend. unfold error_frame in Hf.
  destruct (CreateCallError _ _ _ _ _ _) as [ce|] eqn:Hc; [|done]. pose proof (validated_ok _ _ _ Hc) as [-> _].
  destruct (CallError_MarshalJSON _ _ _) as [s'|] eqn:Hm; [|done]. injection Hf as <-.
  destruct (call_error_parses (c_request_feature K) (c_Unmarshal K) (c_Encode K) (c_decode_request K)
    (c_decode_response K) (c_validate_call K) (c_validate_result K) (c_validate_error K) (c_errors_text K)
    (c_fmt_v K) (c_overflow K) (s_endpoint τ) id code desc None _ EscapeHTML1 s' pend
    Hj Hid ltac:(done) Hpend Hc Hm Hx Hv) as (arr & Harr & HP). simpl in HP.
  rewrite (message_handler_parsed _ _ _ _ _ _ _ _ _ Harr Hw). unfold ParseMessage_. rewrite HP.
  destruct (handle_error_log τ (mkCallError CALL_ERROR id code desc (Some (JObj []))) w1) as (w' & l & Hcl & Hl).
  rewrite (then_none _ _ _ _ _ _ Hcl). eauto.
Qed.
End exchange.

(** ** A response that arrives twice *)

(** What a dispatcher promises the endpoint: the call that wins a completion
    has cleared the pending request. *)
Class CompletionLaw (W Request : Type) `{!ClientEnv W Request} : Prop :=
  completion_clears : ∀ id (w w' : W), id ≠ "" → ce_CompleteRequest id w = (w', true) →
    ClientState.GetPendingRequest id (ce_RequestState w') = None.

Section replay.
Context {rtype Request Response W : Type} `{!ClientEnv W Request, !CompletionLaw W Request}.
Context (K : codec rtype Request Response) (validationEnabled EscapeHTML : bool).
Context (c : Client.Client rtype Request Response W).

(** A handler that leaves the pending request alone. *)
Definition keeps_pending (f : W → W * outcome unit) : Prop := ∀ w, ce_RequestState (f w).1 = ce_RequestState w.

(** The id a log reports a won completion for. *)
Definition won_ids (l : list (pevent Request)) : list string :=
  omap (λ ev, match ev with EvCompleted _ id true => Some id | _ => None end) l.

(** The id of a response. *)
Definition response_id (m : @message Request Response) : option string :=
  match m with MCall _ => None | MCallResult r => Some (cr_UniqueId r) | MCallError r => Some (ce_UniqueId r) end.

Lemma ParseMessage_response_id e arr pend m id :
  ParseMessage_ K e arr pend = Parsed m → response_id m = Some id → id ≠ "".
Proof.
  intros HP Hid. unfold ParseMessage_, ParseMessage, parse_call, parse_call_result, parse_call_error in *.
  repeat (case_match; simplify_eq/=; try done); try (by apply format_error_not_parsed in HP);
    try (apply validation_result_parsed in HP; simplify_eq/=); congruence.
Qed.

Lemma ParseMessage_unsolicited e arr pend pend' m id :
  ParseMessage_ K e arr pend = Parsed m → response_id m = Some id →
  ClientState.GetPendingRequest id pend' = None → ParseMessage_ K e arr pend' = Discarded.
Proof.
  intros HP Hid Hn. unfold ParseMessage_, ParseMessage, parse_call, parse_call_result, parse_call_error in *.
  repeat (case_match; simplify_eq/=; try done); try (by apply format_error_not_parsed in HP);
    try (apply validation_result_parsed in HP; simplify_eq/=); congruence.
Qed.

Definition not_completed (ev : pevent Request) : Prop := match ev with EvCompleted _ _ _ => False | _ => True end.

#[local] Hint Constructors Forall : go.
#[local] Hint Extern 1 (not_completed _) => exact I : go.

Lemma won_ids_none l : Forall not_completed l → won_ids l = [].
Proof. induction 1 as [|[] l Hev Hl IH]; simpl; done. Qed.

Lemma logs_panic_callback cb f hp :
  panic_callback cb = Some f → logs not_completed (f hp : M W (pevent Request) unit).
Proof. unfold panic_callback. destruct cb; intros; simplify_eq/=. auto with go. Qed.

Lemma logs_send_error σ id code desc details :
  logs not_completed (send_error (W := W) K validationEnabled EscapeHTML σ id code desc details).
Proof.
  unfold send_error. destruct (CreateCallError _ _ _ _ _ _); [|auto with go].
  destruct (CallError_MarshalJSON _ _ _); [|auto with go]. apply logs_bind; auto with go.
Qed.

Lemma logs_handle_call σ cl : logs not_completed (handle_call (W := W) K validationEnabled EscapeHTML σ cl).
Proof.
  unfold handle_call. destruct (s_requestHandler σ); [|auto with go].
  apply logs_recoverHandler; eauto using logs_panic_callback with go.
  intros a [= <-]. unfold answer_internal_error. auto using logs_send_error with go.
Qed.

Lemma logs_handle_invalid σ data arr err :
  logs not_completed (handle_invalid (W := W) K validationEnabled EscapeHTML σ data arr err).
Proof.
  unfold handle_invalid. apply logs_bind.
  - destruct (s_invalidMessageHook σ) as [h|]; [|auto with go]. apply logs_bind; [|auto with go].
    intros w. unfold call_hook. destruct (h err data arr w) as [w1 [m [r|v]]]; [by repeat constructor|].
    assert (HL : logs not_completed (reportHandlerPanic v InvalidMessageHandlerKind (s_clientID σ) "" (MessageId err)
      (panic_callback (s_onHandlerPanic σ)) None : M W (pevent Request) unit)).
    { unfold reportHandlerPanic. apply logs_bind; [|auto with go].
      destruct (panic_callback _) eqn:Hcb; eauto using logs_guardedCall, logs_panic_callback with go. }
    specialize (HL w1). destruct (reportHandlerPanic _ _ _ _ _ _ _ w1) as [[w2 l2] [|]]; by constructor.
  - intros e. case_decide; [auto with go|]. apply logs_bind; auto using logs_send_error with go.
Qed.

Context (handlers_keep : ∀ h resp i, Client.responseHandler c = Some h → keeps_pending (h resp i)).
Context (errors_keep : ∀ h e d, Client.errorHandler c = Some h → keeps_pending (h e d)).
Context (callback_keeps : ∀ h hp, Client.onHandlerPanic c = Some h → keeps_pending (h hp)).

Lemma keeps_invocation kind action id f :
  keeps_pending f →
  keeps ce_RequestState (recoverHandler kind "" action id (panic_callback (Client.onHandlerPanic c)) None
    (_ ← tell [EvInvoke kind "" id]; user f) : M W (pevent Request) unit).
Proof.
  intros Hf. apply keeps_recoverHandler; [auto with go| |done].
  intros g hp. unfold panic_callback. destruct (Client.onHandlerPanic c) as [h|] eqn:Hc; intros; simplify_eq/=.
  apply keeps_bind; [auto with go|]. intros _. apply keeps_user. by apply callback_keeps.
Qed.

(** A won completion, and the pending request once its handler has run. *)
Lemma completion_pending (id i : string) (body : M W (pevent Request) unit) w w1 l r :
  keeps ce_RequestState body → logs not_completed body → i ≠ "" →
  (won ← complete (Client.client_side c) i; if won : bool then body else mret tt) w = (w1, l, r) →
  id ∈ won_ids l → id = i ∧ ClientState.GetPendingRequest i (ce_RequestState w1) = None.
Proof.
  intros Hk Hl Hi. unfold complete, mbind, M_bind, call. simpl.
  destruct (ce_CompleteRequest i w) as [w2 won] eqn:Hc. destruct won.
  - specialize (Hk w2). specialize (Hl w2). destruct (body w2) as [[w3 l3] r3]. simpl in *. intros [= <- <- <-].
    simpl. fold (won_ids l3). rewrite (won_ids_none _ Hl). intros ->%list_elem_of_singleton.
    split; [done|]. rewrite Hk. by eapply completion_clears.
  - simpl. intros [= <- <- <-]. simpl. by intros ?%not_elem_of_nil.
Qed.

Lemma response_completed (m : @message Request Response) i w w1 l r id :
  response_id m = Some i → i ≠ "" →
  match m with
  | MCall cl => _ ← handle_call K validationEnabled EscapeHTML (Client.client_side c) cl; mret None
  | MCallResult cr => _ ← handle_result (Client.client_side c) cr; mret None
  | MCallError ce => _ ← handle_error (Client.client_side c) ce; mret (@None create_error)
  end w = (w1, l, Done r) → id ∈ won_ids l → ClientState.GetPendingRequest i (ce_RequestState w1) = None.
Proof.
  intros Hi Hne Hm Hin. destruct m as [cl|cr|ce]; simplify_eq/=; apply then_inv in Hm as [[] Hm].
  - unfold handle_result in Hm. simpl in Hm. destruct (Client.responseHandler c) as [h|] eqn:Hh.
    + refine (proj2 (completion_pending id _ _ _ _ _ _ _ _ Hne Hm Hin)); [by eauto using keeps_invocation|].
      apply logs_recoverHandler; [auto with go|by eauto using logs_panic_callback|done].
    + refine (proj2 (completion_pending id _ (mret tt) _ _ _ _ _ _ Hne Hm Hin)); auto with go.
  - unfold handle_error in Hm. simpl in Hm. destruct (Client.errorHandler c) as [h|] eqn:Hh.
    + refine (proj2 (completion_pending id _ _ _ _ _ _ _ _ Hne Hm Hin)); [by eauto using keeps_invocation|].
      apply logs_recoverHandler; [auto with go|by eauto using logs_panic_callback|done].
    + refine (proj2 (completion_pending id _ (mret tt) _ _ _ _ _ _ Hne Hm Hin)); auto with go.
Qed.

(** When a response or an error has completed its request and was handed
    to its handler, the same bytes arriving again are discarded: no completion,
    no handler, nothing written. *)
Theorem replayed_response_ignored (data : string) w w1 l r id :
  Client.ocppMessageHandler K validationEnabled EscapeHTML c data w = (w1, l, Done r) → id ∈ won_ids l →
  Client.ocppMessageHandler K validationEnabled EscapeHTML c data w1 = (w1, [], Done None).
Proof.
  unfold Client.ocppMessageHandler. intros Hm Hin.
  destruct (ParseRawJsonMessage (c_Unmarshal K) data) as [arr|e] eqn:Hr.
  2: { unfold message_handler in Hm. rewrite Hr in Hm. injection Hm as <- <- <-. by apply not_elem_of_nil in Hin. }
  set (σ := Client.client_side c) in *.
  rewrite (message_handler_parsed _ _ _ σ _ arr w1 w1 (ce_RequestState w1) Hr eq_refl).
  rewrite (message_handler_parsed _ _ _ σ _ arr w w (ce_RequestState w) Hr eq_refl) in Hm.
  destruct (ParseMessage_ K (s_endpoint σ) arr (ce_RequestState w)) as [m| |err|] eqn:HP;
    [|by injection Hm as <- <- <-; apply not_elem_of_nil in Hin| |done].
  2: { pose proof (logs_handle_invalid σ data arr err w) as HL. rewrite Hm in HL. simpl in HL.
       rewrite (won_ids_none _ HL) in Hin. by apply not_elem_of_nil in Hin. }
  assert (∃ i, response_id m = Some i ∧ ClientState.GetPendingRequest i (ce_RequestState w1) = None) as (i & Hi & Hn).
  { destruct (response_id m) as [i|] eqn:Hi.
    - exists i. split; [done|]. eapply response_completed; eauto. by eapply ParseMessage_response_id.
    - destruct m as [cl| |]; [|done..]. apply then_inv in Hm as [u Hm].
      pose proof (logs_handle_call σ cl w) as HL. rewrite Hm in HL. simpl in HL.
      rewrite (won_ids_none _ HL) in Hin. by apply not_elem_of_nil in Hin. }
  by rewrite (ParseMessage_unsolicited (s_endpoint σ) arr _ (ce_RequestState w1) m i HP Hi Hn).
Qed.
End replay.

(** ** A client and a server *)

Section client_server.
Context {rtype Request Response W1 W2 : Type} `{!ClientEnv W1 Request, !ServerEnv W2 Request}.
Context (K : codec rtype Request Response) (EscapeHTML validationEnabled : bool).
Context (c : Client.Client rtype Request Response W1) (s : Server.Server rtype Request Response W2).
Context (json_ok : json_codec_ok (c_Unmarshal K) (c_Encode K)).
Context (same_profiles : Profiles (Client.endpoint c) = Profiles (Server.endpoint s)).

(** A request the client reports as sent is queued under the returned id with
    bytes for which the server's message handler invokes the request handler with
    the payload read from them; if that handler panics the server writes an
    InternalError for the id to this client. *)
Lemma request_arrives ctx0 (r r' : Request) (id : string) h clientID w w' l w2 :
  request_reads (c_request_feature K) (c_decode_request K) (c_encode_request K) (Client.endpoint c) r r' →
  Client.SendRequestCtx K true EscapeHTML c ctx0 r w = (w', l, Done (id, None)) → id ≠ "" →
  json_exact (JArr (Call_fields (c_encode_request K) (mkCall CALL id (c_request_feature K r) (Some r)))) = true →
  c_validate_call K (mkCall CALL id (c_request_feature K r) (Some r')) = [] →
  Server.requestHandler s = Some h →
  ∃ data, l = [EvEnqueue "" (mkBundle (Some (mkCall CALL id (c_request_feature K r) (Some r))) (Some data)
                              (Some (default Background ctx0))) None] ∧
    ∃ w2' l2, Server.ocppMessageHandler K validationEnabled EscapeHTML s clientID data w2 =
                (w2', EvInvoke RequestHandlerKind clientID id :: l2, Done None) ∧
    match h clientID (Some r') id (c_request_feature K r) (se_GetClientState clientID w2).1 with
    | (w3, Done _) => w2' = w3 ∧ l2 = []
    | (_, Panicked _) =>
        sent l2 = match error_frame K validationEnabled EscapeHTML id InternalError internal_error_text None with
                  | inl reply => [(clientID, reply)]
                  | inr _ => []
                  end
    end.
Proof.
  intros Hr Hs Hid Hx Hv Hh. unfold Client.SendRequestCtx in Hs.
  destruct (send_request_done _ _ _ _ _ _ _ _ _ _ _ _ _ _ Hs) as (cl & data & -> & _ & Hcl & Hc & Hm).
  pose proof (created_call _ _ _ _ _ _ Hc) as ->.
  exists data. split; [done|]. unfold Server.ocppMessageHandler.
  destruct (se_GetClientState clientID w2) as [w3 pend] eqn:Hw.
  apply (receive_call K EscapeHTML EscapeHTML validationEnabled (Server.server_side s clientID) (h clientID)
    (Client.endpoint c) r r' id _ data w2 w3 pend json_ok Hr Hid same_profiles Hc Hm Hx Hv); [|done]. simpl. by rewrite Hh.
Qed.

(** A response the server reports as sent, for the client's pending request, makes
    the client's message handler try to complete the request and invoke the
    response handler with the payload read from the bytes exactly when this call
    wins the completion. *)
Lemma response_arrives (resp resp' : Response) (req : Request) (id : string) clientID w w' l w2 :
  response_reads (c_decode_response K) (c_encode_response K) (Server.endpoint s) (c_request_feature K req) resp resp' →
  c_response_feature K resp = c_request_feature K req → id ≠ "" →
  Server.SendResponse K true EscapeHTML s clientID id resp w = (w', l, Done None) →
  json_exact (JArr (CallResult_fields (c_encode_response K) (mkCallResult CALL_RESULT id (Some resp)))) = true →
  c_validate_result K (mkCallResult CALL_RESULT id (Some resp')) = [] →
  ClientState.GetPendingRequest id (ce_RequestState w2) = Some (Some req) →
  ∃ data, l = [EvSent clientID data None] ∧
    ∃ w2' l2, Client.ocppMessageHandler K validationEnabled EscapeHTML c data w2 = (w2', l2, Done None) ∧
      completion_log (Client.client_side c) ResponseHandlerKind id w2
        ((λ h, h (Some resp') id) <$> Client.responseHandler c) (w2', l2).
Proof.
  intros Hr Hf Hid Hs Hx Hv Hpend. unfold Server.SendResponse, send_response in Hs.
  destruct (CreateCallResult _ _ _ _ _ _) as [cr|] eqn:Hc; [|by injection Hs].
  destruct (CallResult_MarshalJSON _ _ _ _) as [data|] eqn:Hm; [|by injection Hs].
  unfold mbind, M_bind, call in Hs. destruct (s_write _ data w) as [w1 [err|]]; [by injection Hs|].
  injection Hs as <- <-. exists data. split; [done|]. pose proof (created_result _ _ _ _ _ _ Hc) as ->.
  exact (receive_result K EscapeHTML EscapeHTML validationEnabled (Client.client_side c) (Server.endpoint s)
    resp resp' req id _ data w2 w2 (ce_RequestState w2) json_ok Hr Hid (eq_sym same_profiles) Hf Hc Hm Hx Hv eq_refl Hpend).
Qed.

(** an error the server reports as sent for the client's pending request
    reaches the client's error handler with the same code, description and id,
    exactly when the call wins the completion. *)
Theorem error_delivered (id code desc : string) clientID w w' l w2 :
  id ≠ "" → c_validate_error K (mkCallError CALL_ERROR id code desc (Some (JObj []))) = [] →
  json_exact (JArr (CallError_fields (mkCallError CALL_ERROR id code desc None))) = true →
  Server.SendError K true EscapeHTML s clientID id code desc None w = (w', l, Done None) →
  is_Some (ClientState.GetPendingRequest id (ce_RequestState w2)) →
  ∃ data, l = [EvSent clientID data None] ∧
    ∃ w2' l2, Client.ocppMessageHandler K validationEnabled EscapeHTML c data w2 = (w2', l2, Done None) ∧
      completion_log (Client.client_side c) ErrorHandlerKind id w2
        ((λ h, h (NewError code desc id) (Some (JObj []))) <$> Client.errorHandler c) (w2', l2).
Proof.
  intros Hid Hv Hx Hs Hpend. unfold Server.SendError, send_error in Hs.
  destruct (CreateCallError _ _ _ _ _ _) as [ce|] eqn:Hc; [|by injection Hs].
  destruct (CallError_MarshalJSON _ _ _) as [data|] eqn:Hm; [|by injection Hs].
  unfold mbind, M_bind, call in Hs. destruct (s_write _ data w) as [w1 [err|]]; [by injection Hs|].
  injection Hs as <- <-. exists data. split; [done|].
  apply (receive_error K EscapeHTML EscapeHTML validationEnabled (Client.client_side c)
    id code desc data w2 w2 (ce_RequestState w2)); try done. unfold error_frame. by rewrite Hc, Hm.
Qed.
End client_server.
