(* ===== verification/PeerInstances.v ===== *)
(** * The endpoints over the default dispatchers

    [ClientEnv] and [ServerEnv] instantiated with the dispatchers of
    [ClientDispatcher] and [ServerDispatcher]: each call runs the operation's
    actions without interference.  The websocket is a list of frames and the id
    generator returns one id.  The instances discharge [CompletionLaw] and give
    the witnesses of [PeerTheorems]. *)

From Stdlib Require Import QArith.QArith.
From S2P Require Import Prelude Conc Ocpp Errors Queue State Message Endpoint Panic ServerDispatcher ClientDispatcher Peer PeerTheorems.
Local Open Scope string_scope.
Local Open Scope list_scope.

(** An operation run alone, with a choice for each of its first [n] actions;
    an operation that would block leaves the state and returns [dflt]. *)
Definition run_alone {S C A : Type} (p : proc S C A) (c : C) (n : nat) (dflt : A) (s : S) : S * A :=
  match run p (replicate n c) s with Some (s', a, _) => (s', a) | None => (s, dflt) end.

Section worlds.
Context {Request : Type}.

Record client_world := mkCW { cw_dispatcher : dispatcher Request; cw_wire : list string; cw_connected : bool }.

Definition on_client {A : Type} (f : dispatcher Request → dispatcher Request * A) (w : client_world) : client_world * A :=
  let '(d, a) := f (cw_dispatcher w) in (mkCW d (cw_wire w) (cw_connected w), a).
Definition on_client' (f : dispatcher Request → dispatcher Request) (w : client_world) : client_world :=
  mkCW (f (cw_dispatcher w)) (cw_wire w) (cw_connected w).

#[export] Instance client_env : ClientEnv client_world Request := {|
  ce_IsRunning w := IsRunning (cw_dispatcher w);
  ce_SendRequest b := on_client (run_alone (SendRequest b) Go 8 None);
  ce_CompleteRequest id := on_client (run_alone (CompleteRequest id) Go 3 false);
  ce_RequestState w := pendingRequestState (cw_dispatcher w);
  ce_Pause := on_client' (λ d, (run_alone Pause Go 8 tt d).1);
  ce_Resume := on_client' (λ d, (run_alone Resume Go 8 tt d).1);
  ce_Start := on_client' Start;
  ce_Stop := on_client' (λ d, (run_alone Stop Go 8 tt d).1);
  ce_wsStart url w := (mkCW (cw_dispatcher w) (cw_wire w) true, None);
  ce_wsStartWithRetries url w := mkCW (cw_dispatcher w) (cw_wire w) true;
  ce_wsStop w := mkCW (cw_dispatcher w) (cw_wire w) false;
  ce_SetOnHandlerPanic b := on_client' (SetOnHandlerPanic b);
  ce_SetOnRequestCanceled b := on_client' (SetOnRequestCanceled b);
  ce_IsConnected := cw_connected;
  ce_awaitDisconnected w := w;
  ce_Write data w := (mkCW (cw_dispatcher w) (cw_wire w ++ [data]) (cw_connected w), None);
  ce_generateId w := (w, "7")
|}.

Record server_world := mkSW { sw_dispatcher : ServerDispatcher.dispatcher Request; sw_wire : list (string * string) }.

Definition on_server {A : Type}
    (f : ServerDispatcher.dispatcher Request → ServerDispatcher.dispatcher Request * A) (w : server_world)
    : server_world * A :=
  let '(d, a) := f (sw_dispatcher w) in (mkSW d (sw_wire w), a).
Definition on_server' (f : ServerDispatcher.dispatcher Request → ServerDispatcher.dispatcher Request)
    (w : server_world) : server_world := mkSW (f (sw_dispatcher w)) (sw_wire w).

(** [GetClientState] and a read through the pointer it returns. *)
Definition client_state (clientID : string) (d : ServerDispatcher.dispatcher Request)
    : ServerDispatcher.dispatcher Request * ClientState.clientState Request :=
  let '(st, l) := ServerState.GetClientState clientID (ServerDispatcher.pendingRequestState d) in
  (ServerDispatcher.set_pending st d, default ClientState.NewClientState (ServerState.deref l st)).

#[export] Instance server_env : ServerEnv server_world Request := {|
  se_IsRunning w := ServerDispatcher.IsRunning (sw_dispatcher w);
  se_SendRequest c b := on_server (run_alone (ServerDispatcher.SendRequest c b) ServerDispatcher.Go 8 None);
  se_CompleteRequest c id :=
    on_server (run_alone (ServerDispatcher.CompleteRequest c id) ServerDispatcher.Go 8 false);
  se_GetClientState c := on_server (client_state c);
  se_CreateClient c := on_server' (λ d, (run_alone (ServerDispatcher.CreateClient c) ServerDispatcher.Go 8 tt d).1);
  se_DeleteClient c := on_server' (λ d, (run_alone (ServerDispatcher.DeleteClient c) ServerDispatcher.Go 8 tt d).1);
  se_DeleteClientAndWait := Some (λ c, on_server'
    (λ d, (run_alone (ServerDispatcher.DeleteClientAndWait c) ServerDispatcher.WaitOver 8 tt d).1));
  se_ClearClientPendingRequest c := on_server' (λ d, ServerDispatcher.set_pending
    (ServerState.ClearClientPendingRequest c (ServerDispatcher.pendingRequestState d)) d);
  se_SetOnHandlerPanic b := on_server' (ServerDispatcher.SetOnHandlerPanic b);
  se_SetOnRequestCanceled b := on_server' (ServerDispatcher.SetOnRequestCanceled b);
  se_Start := on_server' ServerDispatcher.Start;
  se_Stop := on_server' (λ d, (run_alone ServerDispatcher.Stop ServerDispatcher.Go 8 tt d).1);
  se_wsStart _ _ w := w;
  se_wsStop w := w;
  se_wsShutdown _ w := (w, None);
  se_Write c data w := (mkSW (sw_dispatcher w) (sw_wire w ++ [(c, data)]), None);
  se_generateId w := (w, "7")
|}.

(** [CompleteRequest] of the default client dispatcher clears the pending slot
    of the request it wins. *)
#[export] Instance client_completion : CompletionLaw client_world Request.
Proof.
  intros id w w' Hid. simpl. unfold on_client, run_alone. simpl.
  destruct (FIFO.PopIf (is_request id) (requestQueue (cw_dispatcher w))) as [q [e|]] eqn:Hq; simpl; [|done].
  apply popif_ids in Hq as [He _]. unfold elem_id in He. destruct (elem_call e) as [c|]; [|done].
  simplify_eq/=. intros [= <-]. simpl. unfold ClientState.GetPendingRequest, ClientState.DeletePendingRequest.
  case_decide as Hd; simpl; by case_decide.
Qed.
End worlds.
Arguments client_world : clear implicits.
Arguments server_world : clear implicits.

(** ** A charge point and a central system *)

Module PeerDemo.
Definition K : codec unit string string :=
  mkCodec Demo.feature_name Demo.feature_name Demo.decode Demo.encode Demo.dec Demo.dec Demo.enc Demo.enc
    Demo.vcall Demo.vresult Demo.verror Demo.texts Demo.show Demo.over (λ _, "endpoint").

(** Handlers: one returns, one panics. *)
Definition quiet {W : Type} : W → W * outcome unit := λ w, (w, Done tt).
Definition crash {W : Type} : W → W * outcome unit := λ w, (w, Panicked (PanicString "boom")).

Definition cp : Client.Client unit string string (client_world string) :=
  Client.mkClient Demo.ep "cp" None (Some (λ _ _, quiet)) (Some (λ _ _, crash)) (Some (λ _, quiet)) None None None.
Definition cs : Server.Server unit string string (server_world string) :=
  Server.mkServer Demo.ep None None (Some (λ _ _ _ _, crash)) None None (Some (λ _, crash)) None.

(** A started client with a queue of ten, and a started server. *)
Definition cw0 : client_world string :=
  mkCW (Start (SetNetworkClient true (NewDefaultClientDispatcher (FIFO.mkQueue [] 10)))) [] true.
Definition sw0 : server_world string :=
  mkSW (ServerDispatcher.Start (ServerDispatcher.NewDefaultServerDispatcher (QueueMap.NewFIFOQueueMap 0))) [].
(** The client once its request "7" is queued and pending. *)
Definition cw1 : client_world string :=
  on_client' (λ d, add_pending (mkCall CALL "7" "DataTransfer" (Some "x")) d)
    (Client.SendRequest K true false cp "x" cw0).1.1.
Definition the_call : Call string := mkCall CALL "7" "DataTransfer" (Some "x").
Definition internal_frame : string := "[4,7,InternalError,internal error while handling request,{}]".
End PeerDemo.
Import PeerDemo.

(** The error handler of [cp] panics, and so does the request handler of [cs]
    together with its panic callback. *)
Lemma peer_contains_panics_witness :
  (Client.ocppMessageHandler K true false cp internal_frame cw1).1.2 =
    [EvCompleted "" "7" true; EvInvoke ErrorHandlerKind "" "7";
     EvReport (mkHandlerPanic "" ErrorHandlerKind "" "7" (PanicString "boom"))] ∧
  ∃ w' l r, message_handler K true false (Server.server_side cs "cp1") "[2,7,DataTransfer,x]" sw0 = (w', l, Done r).
Proof.
  split; [vm_compute; reflexivity|]. apply peer_contains_panics; [discriminate|].
  intros id Hid. unfold ClientState.GetPendingRequest. simpl. case_decide; [discriminate|naive_solver].
Defined.

Lemma panic_answered_witness :
  ∃ w' l, message_handler K true false (Server.server_side cs "cp1") "[2,7,DataTransfer,x]" sw0 =
            (w', EvInvoke RequestHandlerKind "cp1" "7" :: l, Done None) ∧
  ∃ l2, l = EvReport (mkHandlerPanic "cp1" RequestHandlerKind "DataTransfer" "7" (PanicString "boom")) :: l2 ∧
        sent l2 = [("cp1", internal_frame)].
Proof.
  set (σ := Server.server_side cs "cp1").
  set (arr := [int_json 2; JStr "7"; JStr "DataTransfer"; JStr "x"]).
  assert (H1 : ParseRawJsonMessage (c_Unmarshal K) "[2,7,DataTransfer,x]" = inl arr) by (vm_compute; reflexivity).
  assert (H2 : s_pending σ sw0 = ((s_pending σ sw0).1, ClientState.NewClientState)) by (vm_compute; reflexivity).
  assert (H3 : ParseMessage_ K (s_endpoint σ) arr ClientState.NewClientState = Parsed (MCall the_call))
    by (vm_compute; reflexivity).
  destruct (panic_answered K true false σ (λ _ _ _, crash) "[2,7,DataTransfer,x]" arr ClientState.NewClientState
    the_call sw0 _ eq_refl H1 H2 H3) as (w' & l & Hm & l2 & Hl & Hs).
  exists w', l. split; [exact Hm|]. exists l2. split; [exact Hl|]. rewrite Hs. vm_compute. reflexivity.
Defined.

Lemma error_delivered_witness :
  ∃ data, (Server.SendError K true false cs "cp1" "7" "GenericError" "d" None sw0).1.2 = [EvSent "cp1" data None] ∧
    ∃ w2' l2, Client.ocppMessageHandler K true false cp data cw1 = (w2', l2, Done None) ∧
      l2 = [EvCompleted "" "7" true; EvInvoke ErrorHandlerKind "" "7";
            EvReport (mkHandlerPanic "" ErrorHandlerKind "" "7" (PanicString "boom"))].
Proof.
  set (out := Server.SendError K true false cs "cp1" "7" "GenericError" "d" None sw0).
  assert (H1 : out = (out.1.1, out.1.2, Done None)) by (vm_compute; reflexivity).
  assert (H2 : is_Some (ClientState.GetPendingRequest "7" (ce_RequestState cw1))) by (vm_compute; eauto).
  destruct (error_delivered K false true cp cs Demo.json_ok "7" "GenericError" "d" "cp1" sw0 _ _ cw1
    ltac:(discriminate) eq_refl ltac:(vm_compute; reflexivity) H1 H2) as (data & Hl & w2 & l2 & Hm & Hc).
  exists data. split; [exact Hl|]. exists w2, l2. split; [exact Hm|].
  vm_compute in Hc. destruct Hc as [w3 Hc]. by injection Hc as _ ->.
Defined.

Lemma replayed_response_ignored_witness :
  let w1 := (Client.ocppMessageHandler K true false cp "[3,7,y]" cw1).1.1 in
  Client.ocppMessageHandler K true false cp "[3,7,y]" w1 = (w1, [], Done None).
Proof.
  apply (replayed_response_ignored K true false cp) with (w := cw1)
    (l := [EvCompleted "" "7" true; EvInvoke ResponseHandlerKind "" "7"]) (r := None) (id := "7").
  - intros h resp i [= <-] w. reflexivity.
  - intros h e d [= <-] w. reflexivity.
  - intros h hp [= <-] w. reflexivity.
  - vm_compute. reflexivity.
  - apply list_elem_of_singleton. reflexivity.
Defined.

(** An endpoint without profiles; its hook replaces the error and names
    another message, or keeps the error and renames the message in it. *)
Definition cp_hook (nil : bool) : Client.Client unit string string (client_world string) :=
  Client.mkClient (mkEndpoint V16 []) "cp" None None None None None None
    (Some (λ _ _ _ w, (w, (NewError GenericError "d" (if nil then "7" else "8"),
                           Done (if nil then None else Some (NewError GenericError "d" "8")))))).

Lemma invalid_message_reply_witness :
  ∃ w' l r, message_handler K true false (Client.client_side (cp_hook false)) "[2,7,DataTransfer,x]" cw0 =
    (w', l, Done (Some r)) ∧ sent l = [("", "[4,7,GenericError,d,{}]")].
Proof.
  set (σ := Client.client_side (cp_hook false)).
  set (arr := [int_json 2; JStr "7"; JStr "DataTransfer"; JStr "x"]).
  assert (H1 : ParseRawJsonMessage (c_Unmarshal K) "[2,7,DataTransfer,x]" = inl arr) by (vm_compute; reflexivity).
  assert (H2 : ParseMessage_ K (s_endpoint σ) arr ClientState.NewClientState =
    ParseError (NewError NotSupported "Unsupported feature DataTransfer" "7")) by (vm_compute; reflexivity).
  destruct (invalid_message_reply K true false σ "[2,7,DataTransfer,x]" arr ClientState.NewClientState _ cw0 cw0
    H1 eq_refl H2) as [(w' & l & r & Hm & Hs) _].
  exists w', l, r. split; [exact Hm|]. rewrite Hs. vm_compute. reflexivity.
Defined.

(** the guard on the message id covers the returned error only: a hook
    that returns nil after writing another id into the error it was given has
    the reply sent for that id (here a message "9" answered as "7"). *)
Theorem hook_nil_readdresses :
  (handle_invalid K true false (Client.client_side (cp_hook true)) "" [] (NewError NotSupported "x" "9") cw0).1.2 =
    [EvInvoke InvalidMessageHandlerKind "" "9"; EvSent "" "[4,7,GenericError,d,{}]" None].
Proof. vm_compute. reflexivity. Qed.

Lemma failed_response_answered_witness :
  ∃ w' l code desc, handle_failed_response K true false (Client.client_side cp) "7"
      (Some (CreateErr (OcppError (NewError GenericError "d" "9")))) "DataTransfer" cw0 = (w', l, Done tt) ∧
    sent l = frame_sent (Client.client_side cp) (error_frame K true false "7" code desc None) ∧
    code = GenericError ∧ desc = "d".
Proof.
  exact (failed_response_answered K true false (Client.client_side cp) "7" "DataTransfer"
    (CreateErr (OcppError (NewError GenericError "d" "9"))) cw0 ltac:(discriminate)).
Defined.
