(* ===== verification/CallbackQueue.v ===== *)
(** * Response callbacks (src/internal/callbackqueue/callbackqueue.go)

    The facades register one callback per request, keyed by client and message
    id.  Every method holds the queue's mutex, [TryQueue] also while it sends
    the request, so each is one atomic function; [try] is its outcome. *)

From S2P Require Import Prelude Ocpp.
Local Open Scope string_scope.
Local Open Scope list_scope.

Definition ErrDuplicateCallback : error :=
  Sentinel "ErrDuplicateCallback" "duplicate callback for request id".
Definition ErrEmptyRequestID : error :=
  Sentinel "ErrEmptyRequestID" "empty request id, cannot register callback".

(** The table: client id to request id to callback. *)
Abbreviation CallbackQueue CB := (gmap string (gmap string CB)).

Section callbacks.
Context {CB : Type}.

Definition New : CallbackQueue CB := ∅.

Definition TryQueue (id : string) (try : string + error) (callback : CB) (cq : CallbackQueue CB)
    : CallbackQueue CB * option error :=
  match try with
  | inr err => (cq, Some err)
  | inl requestID =>
      if decide (requestID = "") then (cq, Some ErrEmptyRequestID) else
      match cq !! id with
      | None => (<[id := {[requestID := callback]}]> cq, None)
      | Some inner =>
          match inner !! requestID with
          | Some _ => (cq, Some ErrDuplicateCallback)
          | None => (<[id := <[requestID := callback]> inner]> cq, None)
          end
      end
  end.

Definition Dequeue (id requestID : string) (cq : CallbackQueue CB) : CallbackQueue CB * option CB :=
  match cq !! id with
  | None => (cq, None)
  | Some inner =>
      match inner !! requestID with
      | None => (cq, None)
      | Some cb =>
          let inner' := delete requestID inner in
          (if decide (size inner' = 0) then delete id cq else <[id := inner']> cq, Some cb)
      end
  end.

(** The callbacks of a client, in some order: Go randomises map iteration. *)
Definition values (m : gmap string CB) : list CB := (map_to_list m).*2.

Definition DrainAll (id : string) (cq : CallbackQueue CB) : CallbackQueue CB * list CB :=
  match cq !! id with
  | None => (cq, [])
  | Some inner => (delete id cq, values inner)
  end.

(** ** The abstract queue: one callback per (client, request) *)

Definition lookup_cb (id requestID : string) (cq : CallbackQueue CB) : option CB :=
  inner ← cq !! id; inner !! requestID.

(** No client keeps an empty table. *)
Definition wf (cq : CallbackQueue CB) : Prop := ∀ id inner, cq !! id = Some inner → inner ≠ ∅.

Lemma TryQueue_wf id try cb cq : wf cq → wf (TryQueue id try cb cq).1.
Proof.
  intros Hwf. unfold TryQueue. destruct try as [rid|e]; [|done]. case_decide; [done|].
  assert (Hins : ∀ m, m ≠ ∅ → wf (<[id := m]> cq)).
  { intros m Hm id' inner'. rewrite lookup_insert. case_decide; intros; simplify_eq; eauto. }
  destruct (cq !! id) as [inner|]; [destruct (inner !! rid)|]; simpl; [done|apply Hins..].
  - apply insert_non_empty.
  - apply map_non_empty_singleton.
Qed.

Lemma Dequeue_wf id r cq : wf cq → wf (Dequeue id r cq).1.
Proof.
  intros Hwf. unfold Dequeue. destruct (cq !! id) as [inner|]; [|done].
  destruct (inner !! r) as [cb|]; [|done]. simpl. case_decide as Hs; intros id' inner'.
  - intros [_ ?]%lookup_delete_Some. eauto.
  - rewrite lookup_insert. case_decide; intros; simplify_eq; eauto.
    intros He. rewrite He in Hs. by rewrite map_size_empty in Hs.
Qed.

Lemma DrainAll_cb_wf id cq : wf cq → wf (DrainAll id cq).1.
Proof.
  intros Hwf. unfold DrainAll. case_match; simpl; [|done].
  intros id' inner' [_ ?]%lookup_delete_Some. eauto.
Qed.

Lemma lookup_TryQueue id try cb cq c r :
  lookup_cb c r (TryQueue id try cb cq).1 =
  match (TryQueue id try cb cq).2, try with
  | None, inl rid => if decide (c = id ∧ r = rid) then Some cb else lookup_cb c r cq
  | _, _ => lookup_cb c r cq
  end.
Proof.
  unfold TryQueue, lookup_cb. destruct try as [rid|e]; simpl; [|done].
  case_decide; [done|]. destruct (cq !! id) as [inner|] eqn:Hid; simpl.
  - destruct (inner !! rid) as [old|] eqn:Hr; simpl; [done|].
    rewrite lookup_insert. case_decide; subst; simpl.
    + rewrite lookup_insert, Hid. simpl. repeat case_decide; naive_solver.
    + rewrite decide_False by naive_solver. done.
  - rewrite lookup_insert. case_decide; subst; simpl.
    + rewrite Hid. simpl. rewrite lookup_singleton. repeat case_decide; naive_solver.
    + rewrite decide_False by naive_solver. done.
Qed.

Lemma lookup_Dequeue id rid cq c r :
  lookup_cb c r (Dequeue id rid cq).1 =
  if decide (c = id ∧ r = rid) then None else lookup_cb c r cq.
Proof.
  unfold Dequeue, lookup_cb. destruct (cq !! id) as [inner|] eqn:Hid; simpl.
  2: { case_decide as Hc; [destruct Hc as [-> ->]; by rewrite Hid|done]. }
  destruct (inner !! rid) as [cb|] eqn:Hr; simpl.
  2: { case_decide as Hc; [destruct Hc as [-> ->]; rewrite Hid; simpl; by rewrite Hr|done]. }
  destruct (decide (c = id)) as [->|Hne].
  - rewrite Hid. simpl. case_decide as Hs.
    + rewrite lookup_delete_eq. simpl. case_decide as Hc; [done|].
      apply map_size_empty_inv in Hs.
      assert (Hx : delete rid inner !! r = None) by (by rewrite Hs, lookup_empty).
      rewrite lookup_delete_ne in Hx by naive_solver. done.
    + rewrite lookup_insert_eq. simpl. rewrite lookup_delete. repeat case_decide; naive_solver.
  - rewrite (decide_False (P := c = id ∧ r = rid)) by naive_solver.
    case_decide; [by rewrite lookup_delete_ne by auto|by rewrite lookup_insert_ne by auto].
Qed.

Lemma Dequeue_result id rid cq : (Dequeue id rid cq).2 = lookup_cb id rid cq.
Proof. unfold Dequeue, lookup_cb. destruct (cq !! id); simpl; [|done]. by case_match. Qed.

(** ** Conservation: registered, handed out, still held *)

Definition held (cq : CallbackQueue CB) : list CB :=
  concat ((values ∘ snd) <$> map_to_list cq).

Lemma held_delete id inner cq :
  cq !! id = Some inner → held cq ≡ₚ values inner ++ held (delete id cq).
Proof.
  intros Hid. unfold held. rewrite <-(map_to_list_delete cq id inner Hid). done.
Qed.

Lemma held_insert id inner cq :
  cq !! id = None → held (<[id := inner]> cq) ≡ₚ values inner ++ held cq.
Proof. intros Hid. unfold held. by rewrite map_to_list_insert. Qed.

Lemma held_replace id inner inner' cq :
  cq !! id = Some inner → held (<[id := inner']> cq) ≡ₚ values inner' ++ held (delete id cq).
Proof.
  intros Hid. rewrite (held_delete id inner') by apply lookup_insert_eq.
  by rewrite delete_insert_eq.
Qed.

Lemma values_insert r cb (inner : gmap string CB) :
  inner !! r = None → values (<[r := cb]> inner) ≡ₚ cb :: values inner.
Proof. intros Hr. unfold values. by rewrite map_to_list_insert. Qed.

Lemma values_delete r cb (inner : gmap string CB) :
  inner !! r = Some cb → values inner ≡ₚ cb :: values (delete r inner).
Proof. intros Hr. unfold values. by rewrite <-(map_to_list_delete inner r cb Hr). Qed.

Inductive op :=
| OTry (id : string) (try : string + error) (cb : CB)
| ODequeue (id requestID : string)
| ODrain (id : string).

(** One operation: the new queue, what it registered, what it handed out. *)
Definition apply (o : op) (cq : CallbackQueue CB) : CallbackQueue CB * list CB * list CB :=
  match o with
  | OTry id try cb => match TryQueue id try cb cq with
                      | (cq', None) => (cq', [cb], [])
                      | (cq', Some _) => (cq', [], [])
                      end
  | ODequeue id r => let '(cq', res) := Dequeue id r cq in (cq', [], option_list res)
  | ODrain id => let '(cq', l) := DrainAll id cq in (cq', [], l)
  end.

Fixpoint applies (os : list op) (cq : CallbackQueue CB) : CallbackQueue CB * list CB * list CB :=
  match os with
  | [] => (cq, [], [])
  | o :: os' =>
      let '(q1, i1, r1) := apply o cq in
      let '(q2, i2, r2) := applies os' q1 in
      (q2, i1 ++ i2, r1 ++ r2)
  end.

Lemma apply_conserves o cq cq' i r :
  apply o cq = (cq', i, r) → i ++ held cq ≡ₚ r ++ held cq'.
Proof.
  destruct o as [id try cb|id rid|id]; simpl.
  - unfold TryQueue. destruct try as [rid|e]; [|by intros; simplify_eq].
    case_decide; [by intros; simplify_eq|].
    destruct (cq !! id) as [inner|] eqn:Hid.
    + destruct (inner !! rid) eqn:Hr; intros; simplify_eq/=; [done|].
      rewrite held_replace, (held_delete id inner cq), values_insert by done. done.
    + intros; simplify_eq/=. rewrite held_insert by done. unfold values.
      by rewrite map_to_list_singleton.
  - unfold Dequeue. destruct (cq !! id) as [inner|] eqn:Hid; [|by intros; simplify_eq].
    destruct (inner !! rid) as [cb|] eqn:Hr; [|by intros; simplify_eq]. intros; simplify_eq/=.
    rewrite (held_delete id inner cq), (values_delete rid cb inner) by done. simpl. f_equiv.
    case_decide as Hs.
    + apply map_size_empty_inv in Hs. rewrite Hs. unfold values. by rewrite map_to_list_empty.
    + by rewrite held_replace.
  - unfold DrainAll. destruct (cq !! id) as [inner|] eqn:Hid; intros; simplify_eq/=; [|done].
    by apply held_delete.
Qed.
End callbacks.

(** ** Properties *)

(** over any sequence of registrations, lookups and drains, every callback
    that was registered is handed out exactly once or is still held: none is
    lost, overwritten or handed out twice. *)
Theorem callbacks_conserved (CB : Type) (os : list (@op CB)) cq ins outs :
  applies os New = (cq, ins, outs) → ins ≡ₚ outs ++ held cq.
Proof.
  assert (Hgen : ∀ (q : CallbackQueue CB) cq ins outs,
    applies os q = (cq, ins, outs) → ins ++ held q ≡ₚ outs ++ held cq).
  { induction os as [|o os IH]; intros q cq' i r; cbn [applies]; [by intros; simplify_eq|].
    destruct (apply o q) as [[q1 i1] r1] eqn:H1. destruct (applies os q1) as [[q2 i2] r2] eqn:H2.
    intros; simplify_eq. apply apply_conserves in H1. specialize (IH _ _ _ _ H2).
    rewrite <-!app_assoc, <-IH, (Permutation_app_swap_app r1), <-H1.
    apply Permutation_app_swap_app. }
  intros Ha. rewrite <-(Hgen New cq ins outs Ha). unfold held, New. simpl.
  by rewrite map_to_list_empty, app_nil_r.
Qed.

Lemma callbacks_conserved_witness :
  ∃ cq, applies [OTry "cp1" (inl "a") 1; OTry "cp1" (inl "a") 2; OTry "cp1" (inl "b") 3; ODequeue "cp1" "a";
                 ODequeue "cp1" "a"; ODrain "cp1"] New = (cq, [1; 3], [1; 3]) ∧
        [1; 3] ≡ₚ [1; 3] ++ held cq.
Proof.
  eexists. split; [vm_compute; reflexivity|].
  exact (callbacks_conserved nat [OTry "cp1" (inl "a") 1; OTry "cp1" (inl "a") 2; OTry "cp1" (inl "b") 3;
    ODequeue "cp1" "a"; ODequeue "cp1" "a"; ODrain "cp1"] _ [1; 3] [1; 3] ltac:(vm_compute; reflexivity)).
Defined.

(** the two-level table refines a map from (client, request id) to callback:
    a registration that succeeds sets one entry that was free and not under an
    empty id, a failed one changes nothing, [Dequeue] returns and clears one
    entry, [DrainAll] clears a client's entries and leaves the others. *)
Theorem callbackqueue_refines_map (CB : Type) (cq : CallbackQueue CB) id rid try (cb : CB) c r :
  lookup_cb c r (TryQueue id try cb cq).1 =
    match (TryQueue id try cb cq).2, try with
    | None, inl rid' => if decide (c = id ∧ r = rid') then Some cb else lookup_cb c r cq
    | _, _ => lookup_cb c r cq
    end ∧
  ((TryQueue id try cb cq).2 = None ↔ ∃ rid', try = inl rid' ∧ rid' ≠ "" ∧ lookup_cb id rid' cq = None) ∧
  (Dequeue id rid cq).2 = lookup_cb id rid cq ∧
  lookup_cb c r (Dequeue id rid cq).1 = (if decide (c = id ∧ r = rid) then None else lookup_cb c r cq) ∧
  lookup_cb c r (DrainAll id cq).1 = (if decide (c = id) then None else lookup_cb c r cq).
Proof.
  split; [apply lookup_TryQueue|]. split; [|split; [apply Dequeue_result|split; [apply lookup_Dequeue|]]].
  - unfold TryQueue, lookup_cb. destruct try as [rid'|e]; [|naive_solver].
    case_decide; [naive_solver|]. destruct (cq !! id) as [inner|]; simpl; [|naive_solver].
    destruct (inner !! rid') eqn:Hr; simpl; naive_solver.
  - unfold DrainAll, lookup_cb. destruct (cq !! id) as [inner|] eqn:Hid; simpl.
    + rewrite lookup_delete. repeat case_decide; naive_solver.
    + case_decide; subst; [by rewrite Hid|done].
Qed.
