(* ===== verification/Facade.v ===== *)
(** * The facades' request handling (src/ocpp1.6, src/ocpp2.0.1)

    [chargePoint], [centralSystem], [chargingStation] and [csms] answer the
    requests of the peer in the same way: the profile of the action selects a
    nil check on a user handler, a switch on the action selects the handler's
    method and a type assertion, and [sendResponse] sends what the method
    returns.  A [spec] holds what differs: the cases of the two switches and
    the texts.  The user's handlers are arbitrary functions that may panic. *)

From S2P Require Import Prelude Ocpp Errors State Message Endpoint Panic CallbackQueue Peer PeerTheorems.
Local Open Scope string_scope.
Local Open Scope list_scope.

(** The texts of the errors a facade reports on [Errors()], by request id. *)
Record texts := mkTexts {
  t_internal : string → string;          (* an error could not be sent *)
  t_empty : string → string;             (* the handler returned nil *)
  t_response : string → string;          (* the response could not be sent *)
  t_not_implemented : string → string;   (* NotImplemented could not be sent *)
  t_not_supported : string → string;     (* NotSupported could not be sent *)
  t_name : string                        (* the facade, in messages *)
}.

(** A case of the switch on the action: the action, the profile whose handler
    is called, the type the request is asserted to have. *)
Record case := mkCase { case_action : string; case_profile : string; case_type : string }.

Record spec := mkSpec {
  guards : list string;      (* the profiles with a nil check *)
  cases : list case;         (* the switch on the action *)
  sendable : list string     (* the actions SendRequestAsyncCtx lets pass *)
}.

Definition find_case (action : string) (l : list case) : option case :=
  head (filter (λ c, case_action c = action) l).

Section facade.
Context {Request Response W : Type}.
Context (K : codec string Request Response) (validationEnabled EscapeHTML : bool).
(** The dynamic type of a request. *)
Context (dyn_type : Request → string).
(** [error]: reporting on the [Errors()] channel. *)
Context (errors_send : error → W → W).

Abbreviation prog := (M W (pevent Request)).
Abbreviation side := (@side string Request Response W).
Abbreviation send_error := (send_error K validationEnabled EscapeHTML).
Abbreviation send_response := (send_response K validationEnabled EscapeHTML).
Abbreviation handle_failed_response := (handle_failed_response K validationEnabled EscapeHTML).

(** A profile's user handler: its method for an action, the response (None for
    a nil interface or pointer) and the error. *)
Definition profile_handler : Type := string → Request → W → W * outcome (option Response * option error).

(** The handlers set, by profile name. *)
Definition handlers : Type := string → option profile_handler.

Definition report (err : error) : prog unit := call (λ w, (errors_send err w, tt)) (λ _, []).

Definition as_error (e : create_error) : error :=
  match e with CreateErr e => e | CreateInvalid ferrs => Errorf (c_errors_text K ferrs) None end.

(** [fmt.Errorf("<text>: %w", err)]. *)
Definition wrapped (text : string) (e : create_error) : error :=
  Errorf (text +:+ ": " +:+ error_text (as_error e)) (Some (as_error e)).

Definition sendResponse (t : texts) (σ : side) (confirmation : option Response) (err : option error)
    (requestId : string) : prog unit :=
  match err with
  | Some err =>
      e ← match err with
          | OcppError o => send_error σ requestId (Code o) (Description o) None
          | _ => send_error σ requestId InternalError (error_text err) None
          end;
      match e with
      | Some e =>
          _ ← handle_failed_response σ requestId (Some e) "";
          report (wrapped (t_internal t requestId) e)
      | None => mret tt
      end
  | None =>
      match confirmation with
      | None =>
          let err := Errorf (t_empty t requestId) None in
          _ ← send_error σ requestId GenericError (error_text err) None;
          report err
      | Some c =>
          e ← send_response σ requestId c;
          match e with
          | Some e =>
              _ ← handle_failed_response σ requestId (Some e) (c_response_feature K c);
              report (wrapped (t_response t requestId) e)
          | None => mret tt
          end
      end
  end.

Definition notImplementedError (t : texts) (σ : side) (requestId action : string) : prog unit :=
  e ← send_error σ requestId NotImplemented ("no handler for action " +:+ action +:+ " implemented") None;
  match e with Some e => report (wrapped (t_not_implemented t requestId) e) | None => mret tt end.

Definition notSupportedError (t : texts) (σ : side) (requestId action : string) : prog unit :=
  e ← send_error σ requestId NotSupported ("unsupported action " +:+ action +:+ " on " +:+ t_name t) None;
  match e with Some e => report (wrapped (t_not_supported t requestId) e) | None => mret tt end.

(** The first part of [handleIncomingRequest]: the reply when the request is
    turned down, [None] when it is to be processed. *)
Definition screen (t : texts) (s : spec) (hs : handlers) (σ : side) (requestId action : string) : option (prog unit) :=
  match GetProfileForFeature action (s_endpoint σ) with
  | None => Some (notImplementedError t σ requestId action)
  | Some profile =>
      if bool_decide (Name profile ∈ guards s) && negb (bool_decide (is_Some (hs (Name profile))))
      then Some (notSupportedError t σ requestId action)
      else None
  end.

Definition type_assertion (ty : string) : panic_value :=
  PanicError (Errorf ("interface conversion: ocpp.Request is not *" +:+ ty) None).

(** A call to user code that returns a value. *)
Definition invoke {A : Type} (f : W → W * outcome A) : prog A := λ w, let '(w', r) := f w in (w', [], r).

(** The second part: the switch on the action, the call, [sendResponse]. *)
Definition process (t : texts) (s : spec) (hs : handlers) (σ : side) (request : option Request)
    (requestId action : string) : prog unit :=
  match find_case action (cases s) with
  | None => notSupportedError t σ requestId action
  | Some c =>
      match hs (case_profile c), request with
      | None, _ => panic nil_dereference
      | Some h, Some r =>
          if decide (dyn_type r = case_type c) then
            _ ← tell [EvInvoke RequestHandlerKind (s_clientID σ) requestId];
            res ← invoke (h action r);
            sendResponse t σ res.1 res.2 requestId
          else panic (type_assertion (case_type c))
      | Some h, None => panic (type_assertion (case_type c))
      end
  end.

(** [handleIncomingRequest] on one goroutine, under the deferred
    [RecoverPanicGoroutine(RequestHandlerKind, action, requestId, true)]. *)
Definition handle_request (t : texts) (s : spec) (hs : handlers) (σ : side) (request : option Request)
    (requestId action : string) : prog unit :=
  recover_goroutine K validationEnabled EscapeHTML σ RequestHandlerKind action requestId true
    match screen t s hs σ requestId action with
    | Some reply => reply
    | None => process t s hs σ request requestId action
    end.

(** The servers turn a request down on the read goroutine and process it on a
    goroutine of its own: what is left to run there, if any. *)
Definition start_request (t : texts) (s : spec) (hs : handlers) (σ : side) (request : option Request)
    (requestId action : string) : prog (option (prog unit)) :=
  match screen t s hs σ requestId action with
  | Some reply => _ ← reply; mret None
  | None => mret (Some (recover_goroutine K validationEnabled EscapeHTML σ RequestHandlerKind action requestId true
                          (process t s hs σ request requestId action)))
  end.

(** ** Requests sent through the facade

    [get_cbs] and [set_cbs] are the facade's callback queue, [run_cb] what a
    registered callback does. *)
Section callbacks.
Context {CB : Type} (get_cbs : W → CallbackQueue CB) (set_cbs : CallbackQueue CB → W → W).
Context (run_cb : CB → option Response → option error → W → W * outcome unit).

Definition on_callbacks {A : Type} (f : CallbackQueue CB → CallbackQueue CB * A) : prog A :=
  call (λ w, let '(q, a) := f (get_cbs w) in (set_cbs q w, a)) (λ _, []).

(** [TryQueue] runs [send] under the queue's lock and registers the callback
    under the id it returns. *)
Definition try_queue (key : string) (send : prog (string * option create_error)) (cb : CB) : prog (option error) :=
  r ← send;
  on_callbacks (TryQueue key match r.2 with Some e => inr (as_error e) | None => inl r.1 end cb).

(** [SendRequestAsyncCtx]; [key] is the client id, "main" on the client side. *)
Definition send_async (t : texts) (s : spec) (e : @Endpoint string) (key featureName : string)
    (send : prog (string * option create_error)) (cb : CB) : prog (option error) :=
  match GetProfileForFeature featureName e with
  | None => mret (Some (Errorf ("feature " +:+ featureName +:+ " is unsupported on " +:+ t_name t +:+
                                " (missing profile), cannot send request") None))
  | Some _ =>
      if decide (featureName ∈ sendable s) then try_queue key send cb
      else mret (Some (Errorf ("unsupported action " +:+ featureName +:+ " on " +:+ t_name t +:+
                               ", cannot send request") None))
  end.

(** The callback's call under its [RecoverPanicGoroutine]. *)
Definition guarded_callback (σ : side) (kind : HandlerKind) (action reportedID requestId : string) (cb : CB)
    (resp : option Response) (err : option error) : prog unit :=
  recover_goroutine K validationEnabled EscapeHTML σ kind action reportedID false
    (_ ← tell [EvInvoke kind (s_clientID σ) requestId]; user (run_cb cb resp err)).

(** [handleIncomingConfirmation] ([handleIncomingResponse] in 2.0.1) of the
    servers: the goroutine that runs the callback, if there is one. *)
Definition handle_confirmation (σ : side) (confirmation : Response) (requestId : string) : prog (option (prog unit)) :=
  cb ← on_callbacks (Dequeue (s_clientID σ) requestId);
  match cb with
  | Some cb => mret (Some (guarded_callback σ ResponseHandlerKind (c_response_feature K confirmation) requestId
                             requestId cb (Some confirmation) None))
  | None =>
      _ ← report (Errorf ("no handler available for call of type " +:+ c_response_feature K confirmation +:+
                          " from client " +:+ s_clientID σ +:+ " for request " +:+ requestId) None);
      mret None
  end.

Definition handle_call_error (σ : side) (err : ocpp_error) : prog (option (prog unit)) :=
  cb ← on_callbacks (Dequeue (s_clientID σ) (MessageId err));
  match cb with
  | Some cb => mret (Some (guarded_callback σ ErrorHandlerKind "" (MessageId err) (MessageId err) cb None
                             (Some (OcppError err))))
  | None =>
      _ ← report (Errorf ("no handler available for call error " +:+ Error_Error err +:+ " from client " +:+
                          s_clientID σ) (Some (OcppError err)));
      mret None
  end.

(** [handleCanceledRequest]: the goroutine it starts, which takes the callback
    itself; [unknown] stands for the feature of a nil request. *)
Definition handle_canceled (σ : side) (requestID : string) (request : option Request) (err : ocpp_error) : prog unit :=
  let featureName := match request with Some r => c_request_feature K r | None => "unknown" end in
  recover_goroutine K validationEnabled EscapeHTML σ ErrorHandlerKind featureName requestID false
    (cb ← on_callbacks (Dequeue (s_clientID σ) requestID);
     match cb with
     | Some cb => _ ← tell [EvInvoke ErrorHandlerKind (s_clientID σ) requestID]; user (run_cb cb None (Some (OcppError err)))
     | None => report (Errorf ("no handler available for canceled request " +:+ featureName +:+ " for client " +:+
                               s_clientID σ +:+ ": " +:+ Error_Error err) (Some (OcppError err)))
     end).

Definition disconnect_error : ocpp_error :=
  NewLocalTransportError GenericError "client disconnected, no response received from client" "".

(** The disconnected-client handler the servers install: every drained callback
    in turn, then the user's handler; a panic ends it. *)
Definition on_disconnected (clientID : string) (disconnectedHandler : option (string → W → W * outcome unit)) : prog unit :=
  cbs ← on_callbacks (DrainAll clientID);
  _ ← foldr (λ cb rest, _ ← (_ ← tell [EvInvoke ErrorHandlerKind clientID ""];
                             user (run_cb cb None (Some (OcppError disconnect_error)))); rest) (mret tt) cbs;
  match disconnectedHandler with
  | Some h => _ ← tell [EvInvoke DisconnectHandlerKind clientID ""]; user (h clientID)
  | None => mret tt
  end.

(** The client facades deliver an incoming response or error to the callback of
    its id; an error without an id cannot be routed. *)
Definition deliver_response (σ : side) (none_text : string → string) (confirmation : Response) (requestID : string)
    : prog unit :=
  cb ← on_callbacks (Dequeue "main" requestID);
  match cb with
  | Some cb => guarded_callback σ ResponseHandlerKind (c_response_feature K confirmation) "" requestID cb
                 (Some confirmation) None
  | None => report (Errorf (none_text (c_response_feature K confirmation)) None)
  end.

Definition deliver_error (σ : side) (none_text : error → error) (err : error) : prog unit :=
  let requestID := match err with OcppError o => MessageId o | _ => "" end in
  if decide (requestID = "") then report (Errorf ("cannot route error with no message id: " +:+ error_text err) None) else
  cb ← on_callbacks (Dequeue "main" requestID);
  match cb with
  | Some cb => guarded_callback σ ErrorHandlerKind "" requestID requestID cb None (Some err)
  | None => report (none_text err)
  end.
End callbacks.

(** ** Exactly one reply *)

(** A frame that answers the request [id]: a CALL RESULT or a CALL ERROR. *)
Definition reply_frame (σ : side) (id data : string) : Prop :=
  (∃ code desc, error_frame K validationEnabled EscapeHTML id code desc None = inl data) ∨
  (∃ resp c, CreateCallResult (c_response_feature K) (c_validate_result K) validationEnabled (s_endpoint σ) resp id
               = inl c ∧ CallResult_MarshalJSON (c_Encode K) (c_encode_response K) EscapeHTML c = inl data).

Definition one_reply (σ : side) (id : string) (l : list (pevent Request)) : Prop :=
  ∃ data, sent l = [(s_clientID σ, data)] ∧ reply_frame σ id data.

(** [m] returns and leaves exactly one reply on the wire, and one that only
    may panic, before it has written anything. *)
Definition replies (σ : side) (id : string) (m : prog unit) : Prop :=
  ∀ w, ∃ w' l, m w = (w', l, Done tt) ∧ one_reply σ id l.
Definition replies_or_panics (σ : side) (id : string) (m : prog unit) : Prop :=
  ∀ w, (∃ w' l, m w = (w', l, Done tt) ∧ one_reply σ id l) ∨ (∃ w' l v, m w = (w', l, Panicked v) ∧ sent l = []).

Section one_reply.
Context (σ : side) (id : string).
(** Writes succeed, an error with an OCPP code can be encoded, the endpoint has
    a dialect. *)
Context (writes_ok : ∀ data w, (s_write σ data w).2 = None).
Context (errors_ok : ∀ code desc, IsErrorCodeValid code = true →
  ∃ data, error_frame K validationEnabled EscapeHTML id code desc None = inl data).
Context (dialect_ok : dialect (s_endpoint σ) ≠ DialectUnset).

Lemma send_error_run code desc w :
  match error_frame K validationEnabled EscapeHTML id code desc None with
  | inl data => ∃ w', send_error σ id code desc None w = (w', [EvSent (s_clientID σ) data None], Done None)
  | inr e => send_error σ id code desc None w = (w, [], Done (Some e)) ∧
             match e with CreateErr (OcppError o) => IsErrorCodeValid (Code o) = true
                        | CreateErr _ => False | CreateInvalid _ => True end
  end.
Proof.
  unfold Peer.send_error, error_frame, CreateCallError, validated.
  destruct validationEnabled; [destruct (c_validate_error K _); [|by split]|];
    (destruct (CallError_MarshalJSON _ _ _) as [data|e]; [|by split]);
    pose proof (writes_ok data w) as Hw; unfold mbind, M_bind, call, mret, M_ret;
    destruct (s_write σ data w) as [w1 r]; simpl in Hw; subst r; simpl; by eexists.
Qed.

Lemma valid_error_run code desc w :
  IsErrorCodeValid code = true →
  ∃ w' data, send_error σ id code desc None w = (w', [EvSent (s_clientID σ) data None], Done None) ∧
             reply_frame σ id data.
Proof.
  intros Hc. destruct (errors_ok code desc Hc) as [data Hd]. pose proof (send_error_run code desc w) as Hr.
  rewrite Hd in Hr. destruct Hr as [w' Hr]. exists w', data. split; [done|]. left. eauto.
Qed.

(** The error of a failed response is sent. *)
Lemma failed_response_run err feature w :
  match err with CreateErr (OcppError o) => IsErrorCodeValid (Code o) = true | CreateErr _ => True | _ => True end →
  ∃ w' data, handle_failed_response σ id (Some err) feature w = (w', [EvSent (s_clientID σ) data None], Done tt) ∧
             reply_frame σ id data.
Proof.
  intros Hv. unfold Peer.handle_failed_response.
  assert (Hrun : ∀ e : ocpp_error, IsErrorCodeValid (Code e) = true →
    ∃ w' data, (_ ← send_error σ id (Code e) (Description e) None; mret tt) w =
      (w', [EvSent (s_clientID σ) data None], Done tt) ∧ reply_frame σ id data).
  { intros e He. destruct (valid_error_run (Code e) (Description e) w He) as (w' & data & Hs & Hf).
    exists w', data. rewrite (bind_done _ _ _ _ _ _ Hs). unfold mret, M_ret. by rewrite app_nil_r. }
  destruct err as [[n t|t wr|o]|ferrs].
  1,2: destruct (Hrun (NewError GenericError t id) eq_refl) as (w' & data & Hs & Hf);
    exists w', data; (split; [exact (then_start _ _ _ _ Hs)|done]).
  - destruct (Hrun o Hv) as (w' & data & Hs & Hf). exists w', data. split; [exact (then_start _ _ _ _ Hs)|done].
  - destruct (errorFromValidation_defined (c_errors_text K ferrs) _ ferrs id feature dialect_ok) as [e He].
    rewrite He. apply errorFromValidation_spec in He as [_ Hcode].
    destruct (Hrun e Hcode) as (w' & data & Hs & Hf). exists w', data. split; [exact (then_start _ _ _ _ Hs)|done].
Qed.

Lemma one_reply_sent (data : string) : reply_frame σ id data → one_reply σ id [EvSent (s_clientID σ) data None].
Proof. intros Hf. exists data. by split. Qed.

(** A valid error, whatever is reported afterwards. *)
Lemma replies_valid_error code desc (k : option create_error → prog unit) :
  IsErrorCodeValid code = true → (∀ w, ∃ w', k None w = (w', [], Done tt)) →
  replies σ id (e ← send_error σ id code desc None; k e).
Proof.
  intros Hc Hk w. destruct (valid_error_run code desc w Hc) as (w1 & data & Hs & Hf).
  destruct (Hk w1) as [w2 Hk2]. rewrite (bind_done _ _ _ _ _ _ Hs), Hk2.
  do 2 eexists. split; [done|]. by apply one_reply_sent.
Qed.

Lemma quiet_ret w : ∃ w', (mret tt : prog unit) w = (w', [], Done tt).
Proof. by eexists. Qed.

(** A failed attempt that wrote nothing, answered by the default error. *)
Lemma replies_failed err feature (e : error) w :
  match err with CreateErr (OcppError o) => IsErrorCodeValid (Code o) = true | CreateErr _ => True | _ => True end →
  ∃ w' l, (_ ← handle_failed_response σ id (Some err) feature; report e) w = (w', l, Done tt) ∧ one_reply σ id l.
Proof.
  intros Hv. destruct (failed_response_run err feature w Hv) as (w1 & data & Hs & Hf).
  rewrite (bind_done _ _ _ _ _ _ Hs). do 2 eexists. split; [done|]. by apply one_reply_sent.
Qed.

Lemma replies_error_attempt code desc (t : texts) w :
  ∃ w' l, (e ← send_error σ id code desc None;
           match e with
           | Some e => _ ← handle_failed_response σ id (Some e) ""; report (wrapped (t_internal t id) e)
           | None => mret tt
           end) w = (w', l, Done tt) ∧ one_reply σ id l.
Proof.
  pose proof (send_error_run code desc w) as Hr.
  destruct (error_frame _ _ _ id code desc None) as [data|e] eqn:Hf.
  - destruct Hr as [w1 Hr]. rewrite (bind_done _ _ _ _ _ _ Hr). do 2 eexists. split; [done|].
    apply one_reply_sent. left. eauto.
  - destruct Hr as [Hr Hv]. rewrite (bind_done _ _ _ _ _ _ Hr).
    destruct (replies_failed e "" (wrapped (t_internal t id) e) w) as (w' & l & Hl & Ho).
    { by destruct e as [[]|]. }
    rewrite Hl. by do 2 eexists.
Qed.

Lemma send_response_run c w :
  (∃ w' data, send_response σ id c w = (w', [EvSent (s_clientID σ) data None], Done None) ∧ reply_frame σ id data) ∨
  (∃ e, send_response σ id c w = (w, [], Done (Some e)) ∧
        match e with CreateErr (OcppError o) => IsErrorCodeValid (Code o) = true | CreateErr _ => False | _ => True end).
Proof.
  unfold Peer.send_response.
  destruct (CreateCallResult _ _ _ _ _ _) as [cr|e] eqn:Hc.
  2: { right. exists e. split; [done|]. unfold CreateCallResult, validated in Hc.
       repeat case_match; by simplify_eq. }
  destruct (CallResult_MarshalJSON _ _ _ _) as [data|e] eqn:Hm; [|right; by eexists].
  left. pose proof (writes_ok data w) as Hw. unfold mbind, M_bind, call, mret, M_ret.
  destruct (s_write σ data w) as [w1 r]. simpl in Hw. subst r. simpl.
  exists w1, data. split; [done|]. right. eauto.
Qed.

Lemma sendResponse_replies t confirmation err : replies σ id (sendResponse t σ confirmation err id).
Proof.
  intros w. unfold sendResponse. destruct err as [err|].
  - destruct err; apply replies_error_attempt.
  - destruct confirmation as [c|].
    + destruct (send_response_run c w) as [(w1 & data & Hs & Hf)|(e & Hs & Hv)];
        rewrite (bind_done _ _ _ _ _ _ Hs).
      * do 2 eexists. split; [done|]. by apply one_reply_sent.
      * destruct (replies_failed e (c_response_feature K c) (wrapped (t_response t id) e) w) as (w' & l & Hl & Ho).
        { by destruct e as [[]|]. }
        rewrite Hl. by do 2 eexists.
    + apply replies_valid_error; [done|]. intros w'. unfold report, call. by eexists.
Qed.

Lemma notImplementedError_replies t action : replies σ id (notImplementedError t σ id action).
Proof. apply replies_valid_error; [done|apply quiet_ret]. Qed.

Lemma notSupportedError_replies t action : replies σ id (notSupportedError t σ id action).
Proof. apply replies_valid_error; [done|apply quiet_ret]. Qed.

Lemma replies_weaken m : replies σ id m → replies_or_panics σ id m.
Proof. intros Hm w. left. apply Hm. Qed.

Lemma process_replies t s hs request action : replies_or_panics σ id (process t s hs σ request id action).
Proof.
  unfold process. destruct (find_case action (cases s)) as [c|];
    [|apply replies_weaken, notSupportedError_replies].
  assert (HP : ∀ v, replies_or_panics σ id (panic v)) by (intros v w; right; by do 3 eexists).
  destruct (hs (case_profile c)) as [h|]; [|done]. destruct request as [r|]; [|done].
  case_decide; [|done]. intros w. unfold mbind, M_bind, tell, invoke.
  destruct (h action r w) as [w1 [[conf err]|v]]; simpl; [left|right; by do 3 eexists].
  destruct (sendResponse_replies t conf err w1) as (w2 & l & -> & Hr). do 2 eexists. by split.
Qed.

Lemma screen_replies t s hs action reply :
  screen t s hs σ id action = Some reply → replies σ id reply.
Proof.
  unfold screen. destruct (GetProfileForFeature _ _) as [p|].
  - case_match; intros; simplify_eq. apply notSupportedError_replies.
  - intros [= <-]. apply notImplementedError_replies.
Qed.

(** A computation that answers or panics answers under [RecoverPanicGoroutine]. *)
Lemma recover_replies action (m : prog unit) :
  replies_or_panics σ id m →
  replies σ id (recover_goroutine K validationEnabled EscapeHTML σ RequestHandlerKind action id true m).
Proof.
  intros Hm w. unfold recover_goroutine. destruct (Hm w) as [(w1 & l & Hr & Ho)|(w1 & l & v & Hr & Hs)].
  - rewrite (recovering_done _ _ _ _ _ _ Hr). eauto.
  - rewrite (recovering_panicked _ _ _ _ _ _ Hr).
    destruct (report_log σ v RequestHandlerKind action id
      (Some (answer_internal_error K validationEnabled EscapeHTML σ id)) w1) as [w2 ->].
    destruct (valid_error_run InternalError internal_error_text w2 eq_refl) as (w3 & data & Hse & Hf).
    assert (Hans : guardedCall (answer_internal_error K validationEnabled EscapeHTML σ id) w2 =
      (w3, [EvSent (s_clientID σ) data None], Done tt)).
    { apply guardedCall_done. unfold answer_internal_error. by rewrite (bind_done _ _ _ _ _ _ Hse). }
    rewrite Hans. do 2 eexists. split; [done|]. exists data. split; [|done].
    rewrite !sent_app, Hs. unfold reports. by destruct (s_onHandlerPanic σ).
Qed.

Lemma handle_request_replies t s hs request action : replies σ id (handle_request t s hs σ request id action).
Proof.
  apply recover_replies. destruct (screen t s hs σ id action) as [reply|] eqn:Hs.
  - by eapply replies_weaken, screen_replies.
  - apply process_replies.
Qed.

Lemma start_request_replies t s hs request action w :
  ∃ w' l g, start_request t s hs σ request id action w = (w', l, Done g) ∧
    match g with
    | None => one_reply σ id l
    | Some m => w' = w ∧ l = [] ∧ replies σ id m
    end.
Proof.
  unfold start_request. destruct (screen t s hs σ id action) as [reply|] eqn:Hs.
  - destruct (screen_replies _ _ _ _ _ Hs w) as (w' & l & Hr & Ho).
    rewrite (bind_done _ _ _ _ _ _ Hr). unfold mret, M_ret. rewrite app_nil_r. by do 3 eexists.
  - do 3 eexists. split; [done|]. split; [done|]. split; [done|]. apply recover_replies, process_replies.
Qed.
End one_reply.
End facade.
