(* ===== verification/Services.v ===== *)
(** * Profiles and routing tables of the four facades

    The feature tables of the profile packages under src/ocpp1.6 and
    src/ocpp2.0.1 with the types their [GetRequestType] and [GetResponseType] return, and the
    switches of the facades: which profiles have a nil check, which handler and
    request type an action selects, which actions may be sent.  A type is
    written as its Go name. *)

From S2P Require Import Prelude Ocpp Endpoint Facade.
Local Open Scope string_scope.
Local Open Scope list_scope.

(** ** OCPP 1.6 *)

Module V16.
Definition core : Profile string := NewProfile "Core"
  [mkFeature "BootNotification" "core.BootNotificationRequest" "core.BootNotificationConfirmation";
   mkFeature "Authorize" "core.AuthorizeRequest" "core.AuthorizeConfirmation";
   mkFeature "ChangeAvailability" "core.ChangeAvailabilityRequest" "core.ChangeAvailabilityConfirmation";
   mkFeature "ChangeConfiguration" "core.ChangeConfigurationRequest" "core.ChangeConfigurationConfirmation";
   mkFeature "ClearCache" "core.ClearCacheRequest" "core.ClearCacheConfirmation";
   mkFeature "DataTransfer" "core.DataTransferRequest" "core.DataTransferConfirmation";
   mkFeature "GetConfiguration" "core.GetConfigurationRequest" "core.GetConfigurationConfirmation";
   mkFeature "Heartbeat" "core.HeartbeatRequest" "core.HeartbeatConfirmation";
   mkFeature "MeterValues" "core.MeterValuesRequest" "core.MeterValuesConfirmation";
   mkFeature "RemoteStartTransaction" "core.RemoteStartTransactionRequest" "core.RemoteStartTransactionConfirmation";
   mkFeature "RemoteStopTransaction" "core.RemoteStopTransactionRequest" "core.RemoteStopTransactionConfirmation";
   mkFeature "StartTransaction" "core.StartTransactionRequest" "core.StartTransactionConfirmation";
   mkFeature "StopTransaction" "core.StopTransactionRequest" "core.StopTransactionConfirmation";
   mkFeature "StatusNotification" "core.StatusNotificationRequest" "core.StatusNotificationConfirmation";
   mkFeature "Reset" "core.ResetRequest" "core.ResetConfirmation";
   mkFeature "UnlockConnector" "core.UnlockConnectorRequest" "core.UnlockConnectorConfirmation"].
Definition localauth : Profile string := NewProfile "LocalAuthListManagement"
  [mkFeature "GetLocalListVersion" "localauth.GetLocalListVersionRequest" "localauth.GetLocalListVersionConfirmation";
   mkFeature "SendLocalList" "localauth.SendLocalListRequest" "localauth.SendLocalListConfirmation"].
Definition firmware : Profile string := NewProfile "FirmwareManagement"
  [mkFeature "GetDiagnostics" "firmware.GetDiagnosticsRequest" "firmware.GetDiagnosticsConfirmation";
   mkFeature "DiagnosticsStatusNotification" "firmware.DiagnosticsStatusNotificationRequest" "firmware.DiagnosticsStatusNotificationConfirmation";
   mkFeature "FirmwareStatusNotification" "firmware.FirmwareStatusNotificationRequest" "firmware.FirmwareStatusNotificationConfirmation";
   mkFeature "UpdateFirmware" "firmware.UpdateFirmwareRequest" "firmware.UpdateFirmwareConfirmation"].
Definition reservation : Profile string := NewProfile "Reservation"
  [mkFeature "ReserveNow" "reservation.ReserveNowRequest" "reservation.ReserveNowConfirmation";
   mkFeature "CancelReservation" "reservation.CancelReservationRequest" "reservation.CancelReservationConfirmation"].
Definition remotetrigger : Profile string := NewProfile "RemoteTrigger"
  [mkFeature "TriggerMessage" "remotetrigger.TriggerMessageRequest" "remotetrigger.TriggerMessageConfirmation"].
Definition smartcharging : Profile string := NewProfile "SmartCharging"
  [mkFeature "SetChargingProfile" "smartcharging.SetChargingProfileRequest" "smartcharging.SetChargingProfileConfirmation";
   mkFeature "ClearChargingProfile" "smartcharging.ClearChargingProfileRequest" "smartcharging.ClearChargingProfileConfirmation";
   mkFeature "GetCompositeSchedule" "smartcharging.GetCompositeScheduleRequest" "smartcharging.GetCompositeScheduleConfirmation"].
Definition logging : Profile string := NewProfile "Log"
  [mkFeature "GetLog" "logging.GetLogRequest" "logging.GetLogResponse";
   mkFeature "LogStatusNotification" "logging.LogStatusNotificationRequest" "logging.LogStatusNotificationResponse"].
Definition security : Profile string := NewProfile "Security"
  [mkFeature "CertificateSigned" "security.CertificateSignedRequest" "security.CertificateSignedResponse";
   mkFeature "SecurityEventNotification" "security.SecurityEventNotificationRequest" "security.SecurityEventNotificationResponse";
   mkFeature "SignCertificate" "security.SignCertificateRequest" "security.SignCertificateResponse"].
Definition extendedtriggermessage : Profile string := NewProfile "ExtendedTriggerMessage"
  [mkFeature "ExtendedTriggerMessage" "extendedtriggermessage.ExtendedTriggerMessageRequest" "extendedtriggermessage.ExtendedTriggerMessageResponse"].
Definition certificates : Profile string := NewProfile "Certificates"
  [mkFeature "InstallCertificate" "certificates.InstallCertificateRequest" "certificates.InstallCertificateResponse";
   mkFeature "DeleteCertificate" "certificates.DeleteCertificateRequest" "certificates.DeleteCertificateResponse";
   mkFeature "GetInstalledCertificateIds" "certificates.GetInstalledCertificateIdsRequest" "certificates.GetInstalledCertificateIdsResponse"].
Definition securefirmware : Profile string := NewProfile "SecureFirmwareUpdate"
  [mkFeature "SignedFirmwareStatusNotification" "securefirmware.SignedFirmwareStatusNotificationRequest" "securefirmware.SignedFirmwareStatusNotificationResponse";
   mkFeature "SignedUpdateFirmware" "securefirmware.SignedUpdateFirmwareRequest" "securefirmware.SignedUpdateFirmwareResponse"].

Definition DefaultProfiles : list (Profile string) :=
  [core; localauth; firmware; reservation; remotetrigger; smartcharging; logging; security; extendedtriggermessage; certificates; securefirmware].

(** [chargePoint] (src/ocpp1.6/charge_point.go). *)
Definition charge_point : spec := mkSpec
  ["Core"; "LocalAuthListManagement"; "FirmwareManagement"; "Reservation"; "RemoteTrigger"; "SmartCharging";
   "Security"; "Log"; "ExtendedTriggerMessage"; "SecureFirmwareUpdate"; "Certificates"]
  [mkCase "ChangeAvailability" "Core" "core.ChangeAvailabilityRequest";
   mkCase "ChangeConfiguration" "Core" "core.ChangeConfigurationRequest";
   mkCase "ClearCache" "Core" "core.ClearCacheRequest";
   mkCase "DataTransfer" "Core" "core.DataTransferRequest";
   mkCase "GetConfiguration" "Core" "core.GetConfigurationRequest";
   mkCase "RemoteStartTransaction" "Core" "core.RemoteStartTransactionRequest";
   mkCase "RemoteStopTransaction" "Core" "core.RemoteStopTransactionRequest";
   mkCase "Reset" "Core" "core.ResetRequest";
   mkCase "UnlockConnector" "Core" "core.UnlockConnectorRequest";
   mkCase "GetLocalListVersion" "LocalAuthListManagement" "localauth.GetLocalListVersionRequest";
   mkCase "SendLocalList" "LocalAuthListManagement" "localauth.SendLocalListRequest";
   mkCase "GetDiagnostics" "FirmwareManagement" "firmware.GetDiagnosticsRequest";
   mkCase "UpdateFirmware" "FirmwareManagement" "firmware.UpdateFirmwareRequest";
   mkCase "ReserveNow" "Reservation" "reservation.ReserveNowRequest";
   mkCase "CancelReservation" "Reservation" "reservation.CancelReservationRequest";
   mkCase "TriggerMessage" "RemoteTrigger" "remotetrigger.TriggerMessageRequest";
   mkCase "SetChargingProfile" "SmartCharging" "smartcharging.SetChargingProfileRequest";
   mkCase "ClearChargingProfile" "SmartCharging" "smartcharging.ClearChargingProfileRequest";
   mkCase "GetCompositeSchedule" "SmartCharging" "smartcharging.GetCompositeScheduleRequest";
   mkCase "CertificateSigned" "Security" "security.CertificateSignedRequest";
   mkCase "GetLog" "Log" "logging.GetLogRequest";
   mkCase "SignedUpdateFirmware" "SecureFirmwareUpdate" "securefirmware.SignedUpdateFirmwareRequest";
   mkCase "GetInstalledCertificateIds" "Certificates" "certificates.GetInstalledCertificateIdsRequest";
   mkCase "DeleteCertificate" "Certificates" "certificates.DeleteCertificateRequest";
   mkCase "InstallCertificate" "Certificates" "certificates.InstallCertificateRequest";
   mkCase "ExtendedTriggerMessage" "ExtendedTriggerMessage" "extendedtriggermessage.ExtendedTriggerMessageRequest"]
  ["Authorize"; "BootNotification"; "DataTransfer"; "Heartbeat"; "MeterValues"; "StartTransaction";
   "StopTransaction"; "StatusNotification"; "DiagnosticsStatusNotification"; "FirmwareStatusNotification";
   "LogStatusNotification"; "SignedFirmwareStatusNotification"; "SecurityEventNotification";
   "SignCertificate"].

(** [centralSystem] (src/ocpp1.6/central_system.go). *)
Definition central_system : spec := mkSpec
  ["Core"; "LocalAuthListManagement"; "FirmwareManagement"; "Reservation"; "RemoteTrigger"; "SmartCharging";
   "Log"; "Security"; "SecureFirmwareUpdate"]
  [mkCase "BootNotification" "Core" "core.BootNotificationRequest";
   mkCase "Authorize" "Core" "core.AuthorizeRequest";
   mkCase "DataTransfer" "Core" "core.DataTransferRequest";
   mkCase "Heartbeat" "Core" "core.HeartbeatRequest";
   mkCase "MeterValues" "Core" "core.MeterValuesRequest";
   mkCase "StartTransaction" "Core" "core.StartTransactionRequest";
   mkCase "StopTransaction" "Core" "core.StopTransactionRequest";
   mkCase "StatusNotification" "Core" "core.StatusNotificationRequest";
   mkCase "DiagnosticsStatusNotification" "FirmwareManagement" "firmware.DiagnosticsStatusNotificationRequest";
   mkCase "FirmwareStatusNotification" "FirmwareManagement" "firmware.FirmwareStatusNotificationRequest";
   mkCase "SignCertificate" "Security" "security.SignCertificateRequest";
   mkCase "SecurityEventNotification" "Security" "security.SecurityEventNotificationRequest";
   mkCase "LogStatusNotification" "Log" "logging.LogStatusNotificationRequest";
   mkCase "SignedFirmwareStatusNotification" "SecureFirmwareUpdate" "securefirmware.SignedFirmwareStatusNotificationRequest"]
  ["ChangeAvailability"; "ChangeConfiguration"; "ClearCache"; "DataTransfer"; "GetConfiguration";
   "RemoteStartTransaction"; "RemoteStopTransaction"; "Reset"; "UnlockConnector"; "GetLocalListVersion";
   "SendLocalList"; "GetDiagnostics"; "UpdateFirmware"; "ReserveNow"; "CancelReservation"; "TriggerMessage";
   "SetChargingProfile"; "ClearChargingProfile"; "GetCompositeSchedule"; "CertificateSigned";
   "SignedUpdateFirmware"; "GetLog"; "ExtendedTriggerMessage"; "GetInstalledCertificateIds";
   "DeleteCertificate"; "InstallCertificate"].
End V16.

(** ** OCPP 2.0.1 *)

Module V201.
Definition authorization : Profile string := NewProfile "Authorization"
  [mkFeature "Authorize" "authorization.AuthorizeRequest" "authorization.AuthorizeResponse";
   mkFeature "ClearCache" "authorization.ClearCacheRequest" "authorization.ClearCacheResponse"].
Definition availability : Profile string := NewProfile "Availability"
  [mkFeature "ChangeAvailability" "availability.ChangeAvailabilityRequest" "availability.ChangeAvailabilityResponse";
   mkFeature "Heartbeat" "availability.HeartbeatRequest" "availability.HeartbeatResponse";
   mkFeature "StatusNotification" "availability.StatusNotificationRequest" "availability.StatusNotificationResponse"].
Definition data : Profile string := NewProfile "Data"
  [mkFeature "DataTransfer" "data.DataTransferRequest" "data.DataTransferResponse"].
Definition diagnostics : Profile string := NewProfile "Diagnostics"
  [mkFeature "ClearVariableMonitoring" "diagnostics.ClearVariableMonitoringRequest" "diagnostics.ClearVariableMonitoringResponse";
   mkFeature "CustomerInformation" "diagnostics.CustomerInformationRequest" "diagnostics.CustomerInformationResponse";
   mkFeature "GetLog" "diagnostics.GetLogRequest" "diagnostics.GetLogResponse";
   mkFeature "GetMonitoringReport" "diagnostics.GetMonitoringReportRequest" "diagnostics.GetMonitoringReportResponse";
   mkFeature "LogStatusNotification" "diagnostics.LogStatusNotificationRequest" "diagnostics.LogStatusNotificationResponse";
   mkFeature "NotifyCustomerInformation" "diagnostics.NotifyCustomerInformationRequest" "diagnostics.NotifyCustomerInformationResponse";
   mkFeature "NotifyEvent" "diagnostics.NotifyEventRequest" "diagnostics.NotifyEventResponse";
   mkFeature "NotifyMonitoringReport" "diagnostics.NotifyMonitoringReportRequest" "diagnostics.NotifyMonitoringReportResponse";
   mkFeature "SetMonitoringBase" "diagnostics.SetMonitoringBaseRequest" "diagnostics.SetMonitoringBaseResponse";
   mkFeature "SetMonitoringLevel" "diagnostics.SetMonitoringLevelRequest" "diagnostics.SetMonitoringLevelResponse";
   mkFeature "SetVariableMonitoring" "diagnostics.SetVariableMonitoringRequest" "diagnostics.SetVariableMonitoringResponse"].
Definition display : Profile string := NewProfile "Display"
  [mkFeature "ClearDisplayMessage" "display.ClearDisplayRequest" "display.ClearDisplayResponse";
   mkFeature "GetDisplayMessages" "display.GetDisplayMessagesRequest" "display.GetDisplayMessagesResponse";
   mkFeature "NotifyDisplayMessages" "display.NotifyDisplayMessagesRequest" "display.NotifyDisplayMessagesResponse";
   mkFeature "SetDisplayMessage" "display.SetDisplayMessageRequest" "display.SetDisplayMessageResponse"].
Definition firmware : Profile string := NewProfile "Firmware"
  [mkFeature "FirmwareStatusNotification" "firmware.FirmwareStatusNotificationRequest" "firmware.FirmwareStatusNotificationResponse";
   mkFeature "PublishFirmware" "firmware.PublishFirmwareRequest" "firmware.PublishFirmwareResponse";
   mkFeature "PublishFirmwareStatusNotification" "firmware.PublishFirmwareStatusNotificationRequest" "firmware.PublishFirmwareStatusNotificationResponse";
   mkFeature "UnpublishFirmware" "firmware.UnpublishFirmwareRequest" "firmware.UnpublishFirmwareResponse";
   mkFeature "UpdateFirmware" "firmware.UpdateFirmwareRequest" "firmware.UpdateFirmwareResponse"].
Definition iso15118 : Profile string := NewProfile "ISO15118"
  [mkFeature "DeleteCertificate" "iso15118.DeleteCertificateRequest" "iso15118.DeleteCertificateResponse";
   mkFeature "Get15118EVCertificate" "iso15118.Get15118EVCertificateRequest" "iso15118.Get15118EVCertificateResponse";
   mkFeature "GetCertificateStatus" "iso15118.GetCertificateStatusRequest" "iso15118.GetCertificateStatusResponse";
   mkFeature "GetInstalledCertificateIds" "iso15118.GetInstalledCertificateIdsRequest" "iso15118.GetInstalledCertificateIdsResponse";
   mkFeature "InstallCertificate" "iso15118.InstallCertificateRequest" "iso15118.InstallCertificateResponse"].
Definition localauth : Profile string := NewProfile "LocalAuthList"
  [mkFeature "GetLocalListVersion" "localauth.GetLocalListVersionRequest" "localauth.GetLocalListVersionResponse";
   mkFeature "SendLocalList" "localauth.SendLocalListRequest" "localauth.SendLocalListResponse"].
Definition meter : Profile string := NewProfile "Meter"
  [mkFeature "MeterValues" "meter.MeterValuesRequest" "meter.MeterValuesResponse"].
Definition provisioning : Profile string := NewProfile "Provisioning"
  [mkFeature "BootNotification" "provisioning.BootNotificationRequest" "provisioning.BootNotificationResponse";
   mkFeature "GetBaseReport" "provisioning.GetBaseReportRequest" "provisioning.GetBaseReportResponse";
   mkFeature "GetReport" "provisioning.GetReportRequest" "provisioning.GetReportResponse";
   mkFeature "GetVariables" "provisioning.GetVariablesRequest" "provisioning.GetVariablesResponse";
   mkFeature "NotifyReport" "provisioning.NotifyReportRequest" "provisioning.NotifyReportResponse";
   mkFeature "Reset" "provisioning.ResetRequest" "provisioning.ResetResponse";
   mkFeature "SetNetworkProfile" "provisioning.SetNetworkProfileRequest" "provisioning.SetNetworkProfileResponse";
   mkFeature "SetVariables" "provisioning.SetVariablesRequest" "provisioning.SetVariablesResponse"].
Definition remotecontrol : Profile string := NewProfile "RemoteControl"
  [mkFeature "RequestStartTransaction" "remotecontrol.RequestStartTransactionRequest" "remotecontrol.RequestStartTransactionResponse";
   mkFeature "RequestStopTransaction" "remotecontrol.RequestStopTransactionRequest" "remotecontrol.RequestStopTransactionResponse";
   mkFeature "TriggerMessage" "remotecontrol.TriggerMessageRequest" "remotecontrol.TriggerMessageResponse";
   mkFeature "UnlockConnector" "remotecontrol.UnlockConnectorRequest" "remotecontrol.UnlockConnectorResponse"].
Definition reservation : Profile string := NewProfile "Reservation"
  [mkFeature "CancelReservation" "reservation.CancelReservationRequest" "reservation.CancelReservationResponse";
   mkFeature "ReservationStatusUpdate" "reservation.ReservationStatusUpdateRequest" "reservation.ReservationStatusUpdateResponse";
   mkFeature "ReserveNow" "reservation.ReserveNowRequest" "reservation.ReserveNowResponse"].
Definition security : Profile string := NewProfile "Security"
  [mkFeature "CertificateSigned" "security.CertificateSignedRequest" "security.CertificateSignedResponse";
   mkFeature "SecurityEventNotification" "security.SecurityEventNotificationRequest" "security.SecurityEventNotificationResponse";
   mkFeature "SignCertificate" "security.SignCertificateRequest" "security.SignCertificateResponse"].
Definition smartcharging : Profile string := NewProfile "SmartCharging"
  [mkFeature "ClearChargingProfile" "smartcharging.ClearChargingProfileRequest" "smartcharging.ClearChargingProfileResponse";
   mkFeature "ClearedChargingLimit" "smartcharging.ClearedChargingLimitRequest" "smartcharging.ClearedChargingLimitResponse";
   mkFeature "GetChargingProfiles" "smartcharging.GetChargingProfilesRequest" "smartcharging.GetChargingProfilesResponse";
   mkFeature "GetCompositeSchedule" "smartcharging.GetCompositeScheduleRequest" "smartcharging.GetCompositeScheduleResponse";
   mkFeature "NotifyChargingLimit" "smartcharging.NotifyChargingLimitRequest" "smartcharging.NotifyChargingLimitResponse";
   mkFeature "NotifyEVChargingNeeds" "smartcharging.NotifyEVChargingNeedsRequest" "smartcharging.NotifyEVChargingNeedsResponse";
   mkFeature "NotifyEVChargingSchedule" "smartcharging.NotifyEVChargingScheduleRequest" "smartcharging.NotifyEVChargingScheduleResponse";
   mkFeature "ReportChargingProfiles" "smartcharging.ReportChargingProfilesRequest" "smartcharging.ReportChargingProfilesResponse";
   mkFeature "SetChargingProfile" "smartcharging.SetChargingProfileRequest" "smartcharging.SetChargingProfileResponse"].
Definition tariffcost : Profile string := NewProfile "TariffCost"
  [mkFeature "CostUpdated" "tariffcost.CostUpdatedRequest" "tariffcost.CostUpdatedResponse"].
Definition transactions : Profile string := NewProfile "Transactions"
  [mkFeature "GetTransactionStatus" "transactions.GetTransactionStatusRequest" "transactions.GetTransactionStatusResponse";
   mkFeature "TransactionEvent" "transactions.TransactionEventRequest" "transactions.TransactionEventResponse"].

Definition DefaultProfiles : list (Profile string) :=
  [authorization; availability; data; diagnostics; display; firmware; iso15118; localauth; meter; provisioning; remotecontrol; reservation; security; smartcharging; tariffcost; transactions].

(** [chargingStation] (src/ocpp2.0.1/charging_station.go). *)
Definition charging_station : spec := mkSpec
  ["Authorization"; "Availability"; "Data"; "Diagnostics"; "Display"; "Firmware"; "ISO15118";
   "LocalAuthList"; "Meter"; "Provisioning"; "RemoteControl"; "Reservation"; "Security"; "SmartCharging";
   "TariffCost"; "Transactions"]
  [mkCase "CancelReservation" "Reservation" "reservation.CancelReservationRequest";
   mkCase "CertificateSigned" "Security" "security.CertificateSignedRequest";
   mkCase "ChangeAvailability" "Availability" "availability.ChangeAvailabilityRequest";
   mkCase "ClearCache" "Authorization" "authorization.ClearCacheRequest";
   mkCase "ClearChargingProfile" "SmartCharging" "smartcharging.ClearChargingProfileRequest";
   mkCase "ClearDisplayMessage" "Display" "display.ClearDisplayRequest";
   mkCase "ClearVariableMonitoring" "Diagnostics" "diagnostics.ClearVariableMonitoringRequest";
   mkCase "CostUpdated" "TariffCost" "tariffcost.CostUpdatedRequest";
   mkCase "CustomerInformation" "Diagnostics" "diagnostics.CustomerInformationRequest";
   mkCase "DataTransfer" "Data" "data.DataTransferRequest";
   mkCase "DeleteCertificate" "ISO15118" "iso15118.DeleteCertificateRequest";
   mkCase "GetBaseReport" "Provisioning" "provisioning.GetBaseReportRequest";
   mkCase "GetChargingProfiles" "SmartCharging" "smartcharging.GetChargingProfilesRequest";
   mkCase "GetCompositeSchedule" "SmartCharging" "smartcharging.GetCompositeScheduleRequest";
   mkCase "GetDisplayMessages" "Display" "display.GetDisplayMessagesRequest";
   mkCase "GetInstalledCertificateIds" "ISO15118" "iso15118.GetInstalledCertificateIdsRequest";
   mkCase "GetLocalListVersion" "LocalAuthList" "localauth.GetLocalListVersionRequest";
   mkCase "GetLog" "Diagnostics" "diagnostics.GetLogRequest";
   mkCase "GetMonitoringReport" "Diagnostics" "diagnostics.GetMonitoringReportRequest";
   mkCase "GetReport" "Provisioning" "provisioning.GetReportRequest";
   mkCase "GetTransactionStatus" "Transactions" "transactions.GetTransactionStatusRequest";
   mkCase "GetVariables" "Provisioning" "provisioning.GetVariablesRequest";
   mkCase "InstallCertificate" "ISO15118" "iso15118.InstallCertificateRequest";
   mkCase "PublishFirmware" "Firmware" "firmware.PublishFirmwareRequest";
   mkCase "RequestStartTransaction" "RemoteControl" "remotecontrol.RequestStartTransactionRequest";
   mkCase "RequestStopTransaction" "RemoteControl" "remotecontrol.RequestStopTransactionRequest";
   mkCase "ReserveNow" "Reservation" "reservation.ReserveNowRequest";
   mkCase "Reset" "Provisioning" "provisioning.ResetRequest";
   mkCase "SendLocalList" "LocalAuthList" "localauth.SendLocalListRequest";
   mkCase "SetChargingProfile" "SmartCharging" "smartcharging.SetChargingProfileRequest";
   mkCase "SetDisplayMessage" "Display" "display.SetDisplayMessageRequest";
   mkCase "SetMonitoringBase" "Diagnostics" "diagnostics.SetMonitoringBaseRequest";
   mkCase "SetMonitoringLevel" "Diagnostics" "diagnostics.SetMonitoringLevelRequest";
   mkCase "SetNetworkProfile" "Provisioning" "provisioning.SetNetworkProfileRequest";
   mkCase "SetVariableMonitoring" "Diagnostics" "diagnostics.SetVariableMonitoringRequest";
   mkCase "SetVariables" "Provisioning" "provisioning.SetVariablesRequest";
   mkCase "TriggerMessage" "RemoteControl" "remotecontrol.TriggerMessageRequest";
   mkCase "UnlockConnector" "RemoteControl" "remotecontrol.UnlockConnectorRequest";
   mkCase "UnpublishFirmware" "Firmware" "firmware.UnpublishFirmwareRequest";
   mkCase "UpdateFirmware" "Firmware" "firmware.UpdateFirmwareRequest"]
  ["Authorize"; "BootNotification"; "ClearedChargingLimit"; "DataTransfer"; "FirmwareStatusNotification";
   "Get15118EVCertificate"; "GetCertificateStatus"; "Heartbeat"; "LogStatusNotification"; "MeterValues";
   "NotifyChargingLimit"; "NotifyCustomerInformation"; "NotifyDisplayMessages"; "NotifyEVChargingNeeds";
   "NotifyEVChargingSchedule"; "NotifyEvent"; "NotifyMonitoringReport"; "NotifyReport";
   "PublishFirmwareStatusNotification"; "ReportChargingProfiles"; "ReservationStatusUpdate";
   "SecurityEventNotification"; "SignCertificate"; "StatusNotification"; "TransactionEvent"].

(** [csms] (src/ocpp2.0.1/csms.go). *)
Definition csms : spec := mkSpec
  ["Authorization"; "Availability"; "Data"; "Diagnostics"; "Display"; "Firmware"; "ISO15118";
   "LocalAuthList"; "Meter"; "Provisioning"; "RemoteControl"; "Reservation"; "Security"; "SmartCharging";
   "TariffCost"; "Transactions"]
  [mkCase "BootNotification" "Provisioning" "provisioning.BootNotificationRequest";
   mkCase "Authorize" "Authorization" "authorization.AuthorizeRequest";
   mkCase "ClearedChargingLimit" "SmartCharging" "smartcharging.ClearedChargingLimitRequest";
   mkCase "DataTransfer" "Data" "data.DataTransferRequest";
   mkCase "FirmwareStatusNotification" "Firmware" "firmware.FirmwareStatusNotificationRequest";
   mkCase "Get15118EVCertificate" "ISO15118" "iso15118.Get15118EVCertificateRequest";
   mkCase "GetCertificateStatus" "ISO15118" "iso15118.GetCertificateStatusRequest";
   mkCase "Heartbeat" "Availability" "availability.HeartbeatRequest";
   mkCase "LogStatusNotification" "Diagnostics" "diagnostics.LogStatusNotificationRequest";
   mkCase "MeterValues" "Meter" "meter.MeterValuesRequest";
   mkCase "NotifyChargingLimit" "SmartCharging" "smartcharging.NotifyChargingLimitRequest";
   mkCase "NotifyCustomerInformation" "Diagnostics" "diagnostics.NotifyCustomerInformationRequest";
   mkCase "NotifyDisplayMessages" "Display" "display.NotifyDisplayMessagesRequest";
   mkCase "NotifyEVChargingNeeds" "SmartCharging" "smartcharging.NotifyEVChargingNeedsRequest";
   mkCase "NotifyEVChargingSchedule" "SmartCharging" "smartcharging.NotifyEVChargingScheduleRequest";
   mkCase "NotifyEvent" "Diagnostics" "diagnostics.NotifyEventRequest";
   mkCase "NotifyMonitoringReport" "Diagnostics" "diagnostics.NotifyMonitoringReportRequest";
   mkCase "NotifyReport" "Provisioning" "provisioning.NotifyReportRequest";
   mkCase "PublishFirmwareStatusNotification" "Firmware" "firmware.PublishFirmwareStatusNotificationRequest";
   mkCase "ReportChargingProfiles" "SmartCharging" "smartcharging.ReportChargingProfilesRequest";
   mkCase "ReservationStatusUpdate" "Reservation" "reservation.ReservationStatusUpdateRequest";
   mkCase "SecurityEventNotification" "Security" "security.SecurityEventNotificationRequest";
   mkCase "SignCertificate" "Security" "security.SignCertificateRequest";
   mkCase "StatusNotification" "Availability" "availability.StatusNotificationRequest";
   mkCase "TransactionEvent" "Transactions" "transactions.TransactionEventRequest"]
  ["CancelReservation"; "CertificateSigned"; "ChangeAvailability"; "ClearCache"; "ClearChargingProfile";
   "ClearDisplayMessage"; "ClearVariableMonitoring"; "CostUpdated"; "CustomerInformation"; "DataTransfer";
   "DeleteCertificate"; "GetBaseReport"; "GetChargingProfiles"; "GetCompositeSchedule";
   "GetDisplayMessages"; "GetInstalledCertificateIds"; "GetLocalListVersion"; "GetLog";
   "GetMonitoringReport"; "GetReport"; "GetTransactionStatus"; "GetVariables"; "InstallCertificate";
   "PublishFirmware"; "RequestStartTransaction"; "RequestStopTransaction"; "ReserveNow"; "Reset";
   "SendLocalList"; "SetChargingProfile"; "SetDisplayMessage"; "SetMonitoringBase"; "SetMonitoringLevel";
   "SetNetworkProfile"; "SetVariableMonitoring"; "SetVariables"; "TriggerMessage"; "UnlockConnector";
   "UnpublishFirmware"; "UpdateFirmware"].
End V201.

(** ** Checks on the tables *)

(** The features of a list of profiles, with the profile that wins the lookup. *)
Definition feature_names (l : list (Profile string)) : list string := concat ((λ p, (map_to_list (Features p)).*1) <$> l).

(** A case agrees with the profile that registers its action: the handler it
    calls is the one that profile's nil check tests, and the type it asserts is
    the one the profile's decoder builds. *)
Definition case_ok (profiles : list (Profile string)) (s : spec) (c : case) : bool :=
  match GetProfileForFeature (case_action c) (mkEndpoint V16 profiles) with
  | Some p => bool_decide (Name p = case_profile c) && bool_decide (Name p ∈ guards s) &&
              bool_decide (GetRequestType <$> GetFeature p (case_action c) = Some (case_type c))
  | None => false
  end.

Definition same_set (l1 l2 : list string) : bool :=
  forallb (λ x, bool_decide (x ∈ l2)) l1 && forallb (λ x, bool_decide (x ∈ l1)) l2.

Definition handled (s : spec) : list string := case_action <$> cases s.

Lemma same_set_spec l1 l2 : same_set l1 l2 = true → ∀ x, x ∈ l1 ↔ x ∈ l2.
Proof.
  unfold same_set. intros [H1 H2]%andb_prop x. rewrite !forallb_forall in H1, H2.
  split; intros Hx%list_elem_of_In; [apply H1 in Hx|apply H2 in Hx]; by apply bool_decide_eq_true in Hx.
Qed.

(** the two roles of each protocol version fit together: what a charge
    point (charging station) may send is exactly what the central system (CSMS)
    handles, and the other way round; every feature of the default profiles is
    handled by one of them, and only DataTransfer by both. *)
Theorem roles_match :
  (∀ a, a ∈ sendable V16.charge_point ↔ a ∈ handled V16.central_system) ∧
  (∀ a, a ∈ sendable V16.central_system ↔ a ∈ handled V16.charge_point) ∧
  (∀ a, a ∈ sendable V201.charging_station ↔ a ∈ handled V201.csms) ∧
  (∀ a, a ∈ sendable V201.csms ↔ a ∈ handled V201.charging_station) ∧
  (∀ a, a ∈ feature_names V16.DefaultProfiles ↔ a ∈ handled V16.charge_point ++ handled V16.central_system) ∧
  (∀ a, a ∈ feature_names V201.DefaultProfiles ↔ a ∈ handled V201.charging_station ++ handled V201.csms) ∧
  filter (λ a, a ∈ handled V16.central_system) (handled V16.charge_point) = ["DataTransfer"] ∧
  filter (λ a, a ∈ handled V201.csms) (handled V201.charging_station) = ["DataTransfer"].
Proof.
  repeat split; try (apply same_set_spec; vm_compute; reflexivity); vm_compute; reflexivity.
Qed.
