(* ===== verification/Facades.v ===== *)
(** * The four facades

    [chargePoint] and [centralSystem] (src/ocpp1.6), [chargingStation] and
    [csms] (src/ocpp2.0.1): [Facade] with the tables of [Services] and each
    facade's texts, over the endpoint it owns. *)

From S2P Require Import Prelude Ocpp Errors State Message Endpoint Panic CallbackQueue Peer PeerTheorems Facade Services.
Local Open Scope string_scope.
Local Open Scope list_scope.

Module ChargePoint.
Section facade.
Context {Request Response W CB : Type} `{!ClientEnv W Request}.
Context (K : codec string Request Response) (validationEnabled EscapeHTML : bool) (dyn_type : Request → string).
(** [error] on the [Errors()] channel, the callback queue, what a callback does. *)
Context (errors_send : error → W → W) (get_cbs : W → CallbackQueue CB) (set_cbs : CallbackQueue CB → W → W).
Context (run_cb : CB → option Response → option error → W → W * outcome unit).
Context (client : Client.Client string Request Response W).
Abbreviation prog := (M W (pevent Request)).

Definition facade_texts : texts := mkTexts
  (λ id, "replying to request " +:+ id +:+ " with 'internal error' failed")
  (λ id, "empty confirmation to request " +:+ id)
  (λ id, "failed responding to request " +:+ id)
  (λ id, "replying cs to request " +:+ id +:+ " with 'not implemented'")
  (λ id, "replying cs to request " +:+ id +:+ " with 'not supported'")
  "charge point".

Definition sendResponse (confirmation : option Response) (err : option error) (requestId : string) : prog unit :=
  Facade.sendResponse K validationEnabled EscapeHTML errors_send facade_texts (Client.client_side client)
    confirmation err requestId.
Definition notImplementedError (requestId action : string) : prog unit :=
  Facade.notImplementedError K validationEnabled EscapeHTML errors_send facade_texts (Client.client_side client)
    requestId action.
Definition notSupportedError (requestId action : string) : prog unit :=
  Facade.notSupportedError K validationEnabled EscapeHTML errors_send facade_texts (Client.client_side client)
    requestId action.
Definition handleIncomingRequest (hs : handlers) (request : option Request) (requestId action : string) : prog unit :=
  match screen K validationEnabled EscapeHTML errors_send facade_texts V16.charge_point hs (Client.client_side client)
          requestId action with
  | Some reply => reply
  | None => process K validationEnabled EscapeHTML dyn_type errors_send facade_texts V16.charge_point hs
              (Client.client_side client) request requestId action
  end.

(** [SendRequestAsyncCtx], and the sending part of [SendRequestCtx], which has
    no switch on the feature; a nil context is the background context. *)
Definition SendRequestAsyncCtx (ctx0 : option ctx) (request : Request) (cb : CB) : prog (option error) :=
  send_async K get_cbs set_cbs facade_texts V16.charge_point (Client.endpoint client) "main" (c_request_feature K request)
    (Client.SendRequestCtx K validationEnabled EscapeHTML client (Some (default Background ctx0)) request) cb.
Definition SendRequestCtx_send (ctx0 : option ctx) (request : Request) (cb : CB) : prog (option error) :=
  match GetProfileForFeature (c_request_feature K request) (Client.endpoint client) with
  | None => mret (Some (Errorf ("feature " +:+ c_request_feature K request +:+
              " is unsupported on charge point (missing profile), cannot send request") None))
  | Some _ => try_queue K get_cbs set_cbs "main"
                (Client.SendRequestCtx K validationEnabled EscapeHTML client (Some (default Background ctx0)) request) cb
  end.

(** One message taken from [incoming] by [asyncCallbackHandler]. *)
Inductive incomingMessage :=
| incomingResponse (confirmation : Response) (requestID : string)
| incomingError (err : error)
| incomingRequest (request : option Request) (requestID action : string).

Definition handle_incoming (hs : handlers) (m : incomingMessage) : prog unit :=
  match m with
  | incomingResponse confirmation requestID =>
      deliver_response K validationEnabled EscapeHTML errors_send get_cbs set_cbs run_cb (Client.client_side client)
        (λ feature, "no handler available for incoming response " +:+ feature) confirmation requestID
  | incomingError err =>
      deliver_error K validationEnabled EscapeHTML errors_send get_cbs set_cbs run_cb (Client.client_side client)
        (λ e, Errorf ("no handler available for error " +:+ error_text e) None) err
  | incomingRequest request requestID action =>
      Client.RecoverPanicGoroutine K validationEnabled EscapeHTML client RequestHandlerKind action requestID true
        (handleIncomingRequest hs request requestID action)
  end.

Definition clearCallbacks : prog unit := _ ← on_callbacks get_cbs set_cbs (DrainAll "main"); mret tt.
End facade.
End ChargePoint.

Module CentralSystem.
Section facade.
Context {Request Response W CB : Type} `{!ServerEnv W Request}.
Context (K : codec string Request Response) (validationEnabled EscapeHTML : bool) (dyn_type : Request → string).
Context (errors_send : error → W → W) (get_cbs : W → CallbackQueue CB) (set_cbs : CallbackQueue CB → W → W).
Context (run_cb : CB → option Response → option error → W → W * outcome unit).
Context (server : Server.Server string Request Response W).
Abbreviation prog := (M W (pevent Request)).

Definition facade_texts (client : string) : texts := mkTexts
  (λ id, "error replying cp " +:+ client +:+ " to request " +:+ id +:+ " with 'internal error'")
  (λ id, "empty confirmation to " +:+ client +:+ " for request " +:+ id)
  (λ id, "error replying cp " +:+ client +:+ " to request " +:+ id)
  (λ id, "replying cp " +:+ client +:+ " to request " +:+ id +:+ " with 'not implemented'")
  (λ id, "replying cp " +:+ client +:+ " to request " +:+ id +:+ " with 'not supported'")
  "central system".

Definition sendResponse (client : string) (confirmation : option Response) (err : option error) (requestId : string)
    : prog unit :=
  Facade.sendResponse K validationEnabled EscapeHTML errors_send (facade_texts client)
    (Server.server_side server client) confirmation err requestId.
Definition notImplementedError (client requestId action : string) : prog unit :=
  Facade.notImplementedError K validationEnabled EscapeHTML errors_send (facade_texts client)
    (Server.server_side server client) requestId action.
Definition notSupportedError (client requestId action : string) : prog unit :=
  Facade.notSupportedError K validationEnabled EscapeHTML errors_send (facade_texts client)
    (Server.server_side server client) requestId action.

(** The goroutine that processes the request, unless it is turned down. *)
Definition handleIncomingRequest (hs : handlers) (client : string) (request : option Request)
    (requestId action : string) : prog (option (prog unit)) :=
  start_request K validationEnabled EscapeHTML dyn_type errors_send (facade_texts client) V16.central_system hs
    (Server.server_side server client) request requestId action.

Definition handleIncomingConfirmation (client : string) (confirmation : Response) (requestId : string) : prog (option (prog unit)) :=
  handle_confirmation K validationEnabled EscapeHTML errors_send get_cbs set_cbs run_cb
    (Server.server_side server client) confirmation requestId.
Definition handleIncomingError (client : string) (err : ocpp_error) : prog (option (prog unit)) :=
  handle_call_error K validationEnabled EscapeHTML errors_send get_cbs set_cbs run_cb
    (Server.server_side server client) err.
Definition handleCanceledRequest (client requestID : string) (request : option Request) (err : ocpp_error) : prog unit :=
  handle_canceled K validationEnabled EscapeHTML errors_send get_cbs set_cbs run_cb
    (Server.server_side server client) requestID request err.
Definition disconnectedHandler (client : string) (user_handler : option (string → W → W * outcome unit)) : prog unit :=
  on_disconnected get_cbs set_cbs run_cb client user_handler.

Definition SendRequestAsyncCtx (ctx0 : option ctx) (client : string) (request : Request) (cb : CB) : prog (option error) :=
  send_async K get_cbs set_cbs (facade_texts client) V16.central_system (Server.endpoint server) client
    (c_request_feature K request) (Server.SendRequestCtx K validationEnabled EscapeHTML server ctx0 client request) cb.
End facade.
End CentralSystem.

Module ChargingStation.
Section facade.
Context {Request Response W CB : Type} `{!ClientEnv W Request}.
Context (K : codec string Request Response) (validationEnabled EscapeHTML : bool) (dyn_type : Request → string).
(** [error] on the [Errors()] channel, the callback queue, what a callback does. *)
Context (errors_send : error → W → W) (get_cbs : W → CallbackQueue CB) (set_cbs : CallbackQueue CB → W → W).
Context (run_cb : CB → option Response → option error → W → W * outcome unit).
Context (client : Client.Client string Request Response W).
Abbreviation prog := (M W (pevent Request)).

Definition facade_texts : texts := mkTexts
  (λ id, "replying to request " +:+ id +:+ " with 'internal error' failed")
  (λ id, "empty response to request " +:+ id)
  (λ id, "failed responding to request " +:+ id)
  (λ id, "replying csms to request " +:+ id +:+ " with error")
  (λ id, "replying csms to request " +:+ id +:+ " with 'not supported'")
  "charging station".

Definition sendResponse (confirmation : option Response) (err : option error) (requestId : string) : prog unit :=
  Facade.sendResponse K validationEnabled EscapeHTML errors_send facade_texts (Client.client_side client)
    confirmation err requestId.
Definition notImplementedError (requestId action : string) : prog unit :=
  Facade.notImplementedError K validationEnabled EscapeHTML errors_send facade_texts (Client.client_side client)
    requestId action.
Definition notSupportedError (requestId action : string) : prog unit :=
  Facade.notSupportedError K validationEnabled EscapeHTML errors_send facade_texts (Client.client_side client)
    requestId action.
Definition handleIncomingRequest (hs : handlers) (request : option Request) (requestId action : string) : prog unit :=
  match screen K validationEnabled EscapeHTML errors_send facade_texts V201.charging_station hs (Client.client_side client)
          requestId action with
  | Some reply => reply
  | None => process K validationEnabled EscapeHTML dyn_type errors_send facade_texts V201.charging_station hs
              (Client.client_side client) request requestId action
  end.

(** [SendRequestAsyncCtx], and the sending part of [SendRequestCtx], which has
    no switch on the feature; a nil context is the background context. *)
Definition SendRequestAsyncCtx (ctx0 : option ctx) (request : Request) (cb : CB) : prog (option error) :=
  send_async K get_cbs set_cbs facade_texts V201.charging_station (Client.endpoint client) "main" (c_request_feature K request)
    (Client.SendRequestCtx K validationEnabled EscapeHTML client (Some (default Background ctx0)) request) cb.
Definition SendRequestCtx_send (ctx0 : option ctx) (request : Request) (cb : CB) : prog (option error) :=
  match GetProfileForFeature (c_request_feature K request) (Client.endpoint client) with
  | None => mret (Some (Errorf ("feature " +:+ c_request_feature K request +:+
              " is unsupported on charging station (missing profile), cannot send request") None))
  | Some _ => try_queue K get_cbs set_cbs "main"
                (Client.SendRequestCtx K validationEnabled EscapeHTML client (Some (default Background ctx0)) request) cb
  end.

(** One message taken from [incoming] by [asyncCallbackHandler]. *)
Inductive incomingMessage :=
| incomingResponse (confirmation : Response) (requestID : string)
| incomingError (err : error)
| incomingRequest (request : option Request) (requestID action : string).

Definition handle_incoming (hs : handlers) (m : incomingMessage) : prog unit :=
  match m with
  | incomingResponse confirmation requestID =>
      deliver_response K validationEnabled EscapeHTML errors_send get_cbs set_cbs run_cb (Client.client_side client)
        (λ feature, "no callback available for incoming response " +:+ feature) confirmation requestID
  | incomingError err =>
      deliver_error K validationEnabled EscapeHTML errors_send get_cbs set_cbs run_cb (Client.client_side client)
        (λ e, Errorf ("no callback available for incoming error " +:+ error_text e) (Some e)) err
  | incomingRequest request requestID action =>
      Client.RecoverPanicGoroutine K validationEnabled EscapeHTML client RequestHandlerKind action requestID true
        (handleIncomingRequest hs request requestID action)
  end.

Definition clearCallbacks : prog unit := _ ← on_callbacks get_cbs set_cbs (DrainAll "main"); mret tt.
End facade.
End ChargingStation.

Module CSMS.
Section facade.
Context {Request Response W CB : Type} `{!ServerEnv W Request}.
Context (K : codec string Request Response) (validationEnabled EscapeHTML : bool) (dyn_type : Request → string).
Context (errors_send : error → W → W) (get_cbs : W → CallbackQueue CB) (set_cbs : CallbackQueue CB → W → W).
Context (run_cb : CB → option Response → option error → W → W * outcome unit).
Context (server : Server.Server string Request Response W).
Abbreviation prog := (M W (pevent Request)).

Definition facade_texts (client : string) : texts := mkTexts
  (λ id, "error replying cp " +:+ client +:+ " to request " +:+ id +:+ " with 'internal error'")
  (λ id, "empty response to " +:+ client +:+ " for request " +:+ id)
  (λ id, "error replying cp " +:+ client +:+ " to request " +:+ id)
  (λ id, "replying cs " +:+ client +:+ " to request " +:+ id +:+ " with 'not implemented'")
  (λ id, "replying cs " +:+ client +:+ " to request " +:+ id +:+ " with 'not supported'")
  "CSMS".

Definition sendResponse (client : string) (confirmation : option Response) (err : option error) (requestId : string)
    : prog unit :=
  Facade.sendResponse K validationEnabled EscapeHTML errors_send (facade_texts client)
    (Server.server_side server client) confirmation err requestId.
Definition notImplementedError (client requestId action : string) : prog unit :=
  Facade.notImplementedError K validationEnabled EscapeHTML errors_send (facade_texts client)
    (Server.server_side server client) requestId action.
Definition notSupportedError (client requestId action : string) : prog unit :=
  Facade.notSupportedError K validationEnabled EscapeHTML errors_send (facade_texts client)
    (Server.server_side server client) requestId action.

(** The goroutine that processes the request, unless it is turned down. *)
Definition handleIncomingRequest (hs : handlers) (client : string) (request : option Request)
    (requestId action : string) : prog (option (prog unit)) :=
  start_request K validationEnabled EscapeHTML dyn_type errors_send (facade_texts client) V201.csms hs
    (Server.server_side server client) request requestId action.

Definition handleIncomingResponse (client : string) (confirmation : Response) (requestId : string) : prog (option (prog unit)) :=
  handle_confirmation K validationEnabled EscapeHTML errors_send get_cbs set_cbs run_cb
    (Server.server_side server client) confirmation requestId.
Definition handleIncomingError (client : string) (err : ocpp_error) : prog (option (prog unit)) :=
  handle_call_error K validationEnabled EscapeHTML errors_send get_cbs set_cbs run_cb
    (Server.server_side server client) err.
Definition handleCanceledRequest (client requestID : string) (request : option Request) (err : ocpp_error) : prog unit :=
  handle_canceled K validationEnabled EscapeHTML errors_send get_cbs set_cbs run_cb
    (Server.server_side server client) requestID request err.
Definition disconnectedHandler (client : string) (user_handler : option (string → W → W * outcome unit)) : prog unit :=
  on_disconnected get_cbs set_cbs run_cb client user_handler.

Definition SendRequestAsyncCtx (ctx0 : option ctx) (client : string) (request : Request) (cb : CB) : prog (option error) :=
  send_async K get_cbs set_cbs (facade_texts client) V201.csms (Server.endpoint server) client
    (c_request_feature K request) (Server.SendRequestCtx K validationEnabled EscapeHTML server ctx0 client request) cb.
End facade.
End CSMS.
