(* ===== verification/FacadeTheorems.v ===== *)
(** * Properties of the facades

    Every request is answered exactly once, dispatching by action and type
    cannot go wrong with the default profiles, callbacks get the response of
    their own request. *)

From stdpp Require Import pretty.
From S2P Require Import Prelude Ocpp Errors Queue State Message Endpoint Panic CallbackQueue Peer PeerTheorems ClientDispatcher PeerInstances Facade Services Facades.
Local Open Scope string_scope.
Local Open Scope list_scope.

Section clients.
Context {Request Response W CB : Type} `{!ClientEnv W Request}.
Context (K : codec string Request Response) (validationEnabled EscapeHTML : bool) (dyn_type : Request → string).
Context (errors_send : error → W → W) (get_cbs : W → CallbackQueue CB) (set_cbs : CallbackQueue CB → W → W).
Context (run_cb : CB → option Response → option error → W → W * outcome unit).
Context (client : Client.Client string Request Response W).

(** A charge point and a charging station answer every incoming request
    with exactly one CALL RESULT or CALL ERROR for its id, whatever the user's
    handlers do (return a response, nil, an error, an invalid response, panic)
    and whether or not a handler is set, as long as writes succeed and errors
    with an OCPP code can be encoded. *)
Theorem client_facades_answer (hs : handlers) request (id action : string) :
  (∀ data w, (ce_Write data w).2 = None) →
  (∀ code desc, IsErrorCodeValid code = true →
     ∃ data, error_frame K validationEnabled EscapeHTML id code desc None = inl data) →
  dialect (Client.endpoint client) ≠ DialectUnset →
  replies K validationEnabled EscapeHTML (Client.client_side client) id
    (ChargePoint.handle_incoming K validationEnabled EscapeHTML dyn_type errors_send get_cbs set_cbs run_cb client hs
       (ChargePoint.incomingRequest request id action)) ∧
  replies K validationEnabled EscapeHTML (Client.client_side client) id
    (ChargingStation.handle_incoming K validationEnabled EscapeHTML dyn_type errors_send get_cbs set_cbs run_cb client hs
       (ChargingStation.incomingRequest request id action)).
Proof.
  intros Hw He Hd. split; by apply handle_request_replies.
Qed.
End clients.

Section servers.
Context {Request Response W CB : Type} `{!ServerEnv W Request}.
Context (K : codec string Request Response) (validationEnabled EscapeHTML : bool) (dyn_type : Request → string).
Context (errors_send : error → W → W) (get_cbs : W → CallbackQueue CB) (set_cbs : CallbackQueue CB → W → W).
Context (run_cb : CB → option Response → option error → W → W * outcome unit).
Context (server : Server.Server string Request Response W).

(** What a server facade does with a request: a reply at once and no goroutine,
    or a goroutine that ends with a reply, to that client for that id. *)
Definition answered (client id : string) (m : M W (pevent Request) (option (M W (pevent Request) unit))) : Prop :=
  ∀ w, ∃ w' l g, m w = (w', l, Done g) ∧
    match g with
    | None => one_reply K validationEnabled EscapeHTML (Server.server_side server client) id l
    | Some body => l = [] ∧ replies K validationEnabled EscapeHTML (Server.server_side server client) id body
    end.

(** A central system and a CSMS answer every request of a client with
    exactly one CALL RESULT or CALL ERROR for its id to that client, at once or
    from the goroutine they start for it. *)
Theorem server_facades_answer (hs : handlers) (clientID : string) request (id action : string) :
  (∀ c data w, (se_Write c data w).2 = None) →
  (∀ code desc, IsErrorCodeValid code = true →
     ∃ data, error_frame K validationEnabled EscapeHTML id code desc None = inl data) →
  dialect (Server.endpoint server) ≠ DialectUnset →
  answered clientID id
    (CentralSystem.handleIncomingRequest K validationEnabled EscapeHTML dyn_type errors_send server hs clientID
       request id action) ∧
  answered clientID id
    (CSMS.handleIncomingRequest K validationEnabled EscapeHTML dyn_type errors_send server hs clientID
       request id action).
Proof.
  intros Hw He Hd. split; intros w.
  - destruct (start_request_replies K validationEnabled EscapeHTML dyn_type errors_send
      (Server.server_side server clientID) id (Hw clientID) He Hd (CentralSystem.facade_texts clientID)
      V16.central_system hs request action w) as (w' & l & g & Hs & Hg).
    exists w', l, g. split; [done|]. destruct g; [|done]. naive_solver.
  - destruct (start_request_replies K validationEnabled EscapeHTML dyn_type errors_send
      (Server.server_side server clientID) id (Hw clientID) He Hd (CSMS.facade_texts clientID)
      V201.csms hs request action w) as (w' & l & g & Hs & Hg).
    exists w', l, g. split; [done|]. destruct g; [|done]. naive_solver.
Qed.
End servers.

(** ** Dispatching by action and type *)

Section dispatch.
Context {Request Response W : Type}.
Context (K : codec string Request Response) (validationEnabled EscapeHTML : bool) (dyn_type : Request → string).
Context (errors_send : error → W → W) (σ : @side string Request Response W) (t : texts) (hs : @handlers Request Response W).

Lemma parsed_call e arr pend c :
  ParseMessage_ K e arr pend = Parsed (MCall c) →
  ∃ p ft j r, GetProfileForFeature (Action c) e = Some p ∧ GetFeature p (Action c) = Some ft ∧
    Payload c = Some r ∧ c_decode_request K j (GetRequestType ft) = inl r.
Proof.
  intros HP. unfold ParseMessage_, ParseMessage, parse_call, parse_call_result, parse_call_error in HP.
  repeat (case_match; simplify_eq/=; try done); try (by apply format_error_not_parsed in HP);
    apply validation_result_parsed in HP; simplify_eq/=.
  match goal with H : ParseRequest ?p ?a _ _ = inl _ |- _ => unfold ParseRequest, parseRawJsonRequest in H;
    destruct (Features p !! a) as [ft|] eqn:Hf; [|done]; exists p, ft end.
  eauto 10.
Qed.

Lemma returns_report_error err : returns (report errors_send err : M W (pevent Request) unit).
Proof. unfold report. auto with go. Qed.

Lemma returns_attempt id code desc (k : option create_error → M W (pevent Request) unit) :
  (∀ e, returns (k e)) → returns (e ← send_error K validationEnabled EscapeHTML σ id code desc None; k e).
Proof. intros Hk. apply returns_bind; [apply returns_send_error|done]. Qed.

Lemma returns_failed id err feature :
  dialect (s_endpoint σ) ≠ DialectUnset →
  returns (handle_failed_response K validationEnabled EscapeHTML σ id (Some err) feature).
Proof.
  intros Hd. unfold handle_failed_response. apply returns_bind; [|intros e; by apply returns_attempt; auto with go].
  destruct err as [[]|ferrs]; auto with go.
  by destruct (errorFromValidation_defined (c_errors_text K ferrs) _ ferrs id feature Hd) as [? ->]; auto with go.
Qed.

Lemma returns_sendResponse conf err id :
  dialect (s_endpoint σ) ≠ DialectUnset →
  returns (sendResponse K validationEnabled EscapeHTML errors_send t σ conf err id).
Proof.
  intros Hd. unfold sendResponse.
  assert (Hk : ∀ f text (e : option create_error), returns (match e with
    | Some e => _ ← handle_failed_response K validationEnabled EscapeHTML σ id (Some e) f;
                report errors_send (wrapped K text e)
    | None => mret tt end)).
  { intros f text [e|]; [|auto with go]. apply returns_bind; auto using returns_failed, returns_report_error. }
  destruct err as [err|]; [destruct err; by apply returns_attempt|].
  destruct conf as [c|]; [|apply returns_attempt; auto using returns_report_error].
  apply returns_bind; [|done]. unfold send_response.
  destruct (CreateCallResult _ _ _ _ _ _); [|auto with go].
  destruct (CallResult_MarshalJSON _ _ _ _); [|auto with go]. apply returns_bind; auto with go.
Qed.

Lemma find_case_in action l c : find_case action l = Some c → c ∈ l ∧ case_action c = action.
Proof.
  unfold find_case. intros [l' Hl]%head_Some_inv.
  assert (Hin : c ∈ filter (λ c, case_action c = action) l) by (rewrite Hl; left).
  by apply list_elem_of_filter in Hin as [? ?].
Qed.

(** The handler selected by a screened request exists and its type assertion
    succeeds. *)
Lemma process_safe profiles s c id :
  forallb (case_ok profiles s) (cases s) = true → Profiles (s_endpoint σ) = profiles →
  dialect (s_endpoint σ) ≠ DialectUnset →
  (∀ p h a r w, hs p = Some h → ∃ w' v, h a r w = (w', Done v)) →
  (∀ j ty r, c_decode_request K j ty = inl r → dyn_type r = ty) →
  (∃ arr pend, ParseMessage_ K (s_endpoint σ) arr pend = Parsed (MCall c)) →
  returns match screen K validationEnabled EscapeHTML errors_send t s hs σ id (Action c) with
          | Some reply => reply
          | None => process K validationEnabled EscapeHTML dyn_type errors_send t s hs σ (Payload c) id (Action c)
          end.
Proof.
  intros Hok HPr Hd Hhs Hty (arr & pend & HP).
  destruct (parsed_call _ _ _ _ HP) as (p & ft & j & r & Hp & Hft & -> & Hdec).
  assert (Hrep : ∀ code desc text, returns (e ← send_error K validationEnabled EscapeHTML σ id code desc None;
    match e with Some e => report errors_send (wrapped K text e) | None => mret tt end)).
  { intros code desc text. apply returns_attempt. intros [e|]; auto using returns_report_error with go. }
  unfold screen. rewrite Hp.
  destruct (bool_decide (Name p ∈ guards s) && negb (bool_decide (is_Some (hs (Name p))))) eqn:Hg; [apply Hrep|].
  unfold process. destruct (find_case (Action c) (cases s)) as [cs|] eqn:Hc; [|apply Hrep].
  apply find_case_in in Hc as [Hin Ha]. rewrite forallb_forall in Hok.
  specialize (Hok cs (proj1 (list_elem_of_In _ _) Hin)). unfold case_ok in Hok. rewrite Ha in Hok.
  rewrite (GetProfileForFeature_Profiles _ (s_endpoint σ)) in Hok by (by rewrite HPr). rewrite Hp in Hok.
  apply andb_prop in Hok as [[Hn Hgu]%andb_prop Hrt]. apply bool_decide_eq_true in Hn, Hgu, Hrt.
  rewrite (bool_decide_eq_true_2 _ Hgu) in Hg. simpl in Hg. apply negb_false_iff, bool_decide_eq_true in Hg.
  rewrite <-Hn. destruct Hg as [h Hh]. rewrite Hh.
  rewrite Hft in Hrt. simpl in Hrt. injection Hrt as Hrt. rewrite decide_True by (rewrite <-Hrt; by eapply Hty).
  apply returns_bind; [auto with go|]. intros _. apply returns_bind; [|intros; by apply returns_sendResponse].
  intros w. unfold invoke. destruct (Hhs _ _ (Action c) r w Hh) as (w' & v & ->). eauto.
Qed.
End dispatch.

(** C16: with the default profiles no incoming request that parses can crash
    the dispatch of a facade: the handler its action selects is the one the nil
    check has tested and the type assertion holds, so, if the user's handlers
    do not panic, handling the request does not. *)
Theorem dispatch_type_safe {Request Response W : Type} (K : codec string Request Response)
    (validationEnabled EscapeHTML : bool) dyn_type errors_send (σ : @side string Request Response W) t
    (hs : handlers) profiles s (c : Call Request) id :
  (profiles, s) ∈ [(V16.DefaultProfiles, V16.charge_point); (V16.DefaultProfiles, V16.central_system);
                   (V201.DefaultProfiles, V201.charging_station); (V201.DefaultProfiles, V201.csms)] →
  Profiles (s_endpoint σ) = profiles → dialect (s_endpoint σ) ≠ DialectUnset →
  (∀ p h a r w, hs p = Some h → ∃ w' v, h a r w = (w', Done v)) →
  (∀ j ty r, c_decode_request K j ty = inl r → dyn_type r = ty) →
  (∃ arr pend, ParseMessage_ K (s_endpoint σ) arr pend = Parsed (MCall c)) →
  returns match screen K validationEnabled EscapeHTML errors_send t s hs σ id (Action c) with
          | Some reply => reply
          | None => process K validationEnabled EscapeHTML dyn_type errors_send t s hs σ (Payload c) id (Action c)
          end.
Proof.
  intros Hin. apply process_safe.
  repeat (apply elem_of_cons in Hin as [[= -> ->]|Hin]; [vm_compute; reflexivity|]).
  by apply elem_of_nil in Hin.
Qed.

(** ** Callbacks *)

Section delivery.
Context {Request Response W CB : Type}.
Context (K : codec string Request Response) (validationEnabled EscapeHTML : bool).
Context (errors_send : error → W → W) (get_cbs : W → CallbackQueue CB) (set_cbs : CallbackQueue CB → W → W).
Context (run_cb : CB → option Response → option error → W → W * outcome unit).
Context (get_set : ∀ q w, get_cbs (set_cbs q w) = q).

(** What a guarded callback does. *)
Definition runs_callback (σ : @side string Request Response W) kind action reported id cb resp err
    (g : M W (pevent Request) unit) : Prop :=
  ∀ w, match run_cb cb resp err w with
       | (w', Done _) => g w = (w', [EvInvoke kind (s_clientID σ) id], Done tt)
       | (_, Panicked v) => ∃ w', g w = (w', EvInvoke kind (s_clientID σ) id ::
           reports σ (mkHandlerPanic (s_clientID σ) kind action reported v), Done tt)
       end.

Lemma guarded_callback_runs σ kind action reported id cb resp err :
  runs_callback σ kind action reported id cb resp err
    (guarded_callback K validationEnabled EscapeHTML run_cb σ kind action reported id cb resp err).
Proof.
  intros w. pose proof (recover_run σ kind action reported None (EvInvoke kind (s_clientID σ) id)
    (run_cb cb resp err) w) as Hr. destruct (run_cb cb resp err w) as [w' [[]|v]]; [done|].
  destruct Hr as [w2 Hr]. exists w2. simpl in Hr. by rewrite app_nil_r in Hr.
Qed.

Lemma dequeue_run key id w :
  ∃ w', (on_callbacks get_cbs set_cbs (Dequeue key id) : M W (pevent Request) (option CB)) w =
          (w', [], Done (lookup_cb key id (get_cbs w))) ∧
        ∀ c r, lookup_cb c r (get_cbs w') = if decide (c = key ∧ r = id) then None else lookup_cb c r (get_cbs w).
Proof.
  unfold on_callbacks, call. pose proof (Dequeue_result key id (get_cbs w)) as Hr.
  pose proof (λ c r, lookup_Dequeue key id (get_cbs w) c r) as Hl.
  destruct (Dequeue key id (get_cbs w)) as [q cb]. simpl in *. subst cb.
  eexists. split; [done|]. intros c r. by rewrite get_set.
Qed.

Lemma try_queue_run key (send : M W (pevent Request) (string * option create_error)) cb w w1 l :
  try_queue K get_cbs set_cbs key send cb w = (w1, l, Done None) →
  ∃ w0 id, send w = (w0, l, Done (id, None)) ∧ id ≠ "" ∧
    ∀ c r, lookup_cb c r (get_cbs w1) = if decide (c = key ∧ r = id) then Some cb else lookup_cb c r (get_cbs w0).
Proof.
  unfold try_queue, mbind, M_bind, on_callbacks, call.
  destruct (send w) as [[w0 l0] [[id err]|v]]; [|by intros [=]]. simpl.
  destruct err as [e|]; [by intros [=]|].
  pose proof (λ c r, lookup_TryQueue key (inl id) cb (get_cbs w0) c r) as Hl.
  destruct (TryQueue key (inl id) cb (get_cbs w0)) as [q [e|]] eqn:HT; [by intros [=]|].
  intros [= <- <-]. exists w0, id. rewrite app_nil_r. split; [done|]. split.
  - intros ->. unfold TryQueue in HT. by rewrite decide_True in HT.
  - intros c r. rewrite get_set. apply Hl.
Qed.

Lemma send_async_run t s e key feature send cb w w1 l :
  send_async K get_cbs set_cbs t s e key feature send cb w = (w1, l, Done None) →
  try_queue K get_cbs set_cbs key (send : M W (pevent Request) (string * option create_error)) cb w = (w1, l, Done None) ∧
  feature ∈ sendable s.
Proof.
  unfold send_async. destruct (GetProfileForFeature _ _); [|by intros [=]]. case_decide; [done|by intros [=]].
Qed.

Lemma handle_confirmation_run σ conf id cb w :
  lookup_cb (s_clientID σ) id (get_cbs w) = Some cb →
  ∃ w' g, handle_confirmation K validationEnabled EscapeHTML errors_send get_cbs set_cbs run_cb σ conf id w =
            (w', [], Done (Some g)) ∧
    runs_callback σ ResponseHandlerKind (c_response_feature K conf) id id cb (Some conf) None g ∧
    ∀ c r, lookup_cb c r (get_cbs w') =
           if decide (c = s_clientID σ ∧ r = id) then None else lookup_cb c r (get_cbs w).
Proof.
  intros Hcb. destruct (dequeue_run (s_clientID σ) id w) as (w' & Hd & Hl). rewrite Hcb in Hd.
  unfold handle_confirmation. rewrite (bind_done _ _ _ _ _ _ Hd). do 2 eexists. split; [done|].
  split; [apply guarded_callback_runs|done].
Qed.

Lemma handle_confirmation_none σ conf id w :
  lookup_cb (s_clientID σ) id (get_cbs w) = None →
  ∃ w', handle_confirmation K validationEnabled EscapeHTML errors_send get_cbs set_cbs run_cb σ conf id w =
          (w', [], Done None).
Proof.
  intros Hcb. destruct (dequeue_run (s_clientID σ) id w) as (w' & Hd & _). rewrite Hcb in Hd.
  unfold handle_confirmation. rewrite (bind_done _ _ _ _ _ _ Hd). by eexists.
Qed.
End delivery.

Section server_callbacks.
Context {Request Response W CB : Type} `{!ServerEnv W Request}.
Context (K : codec string Request Response) (validationEnabled EscapeHTML : bool).
Context (errors_send : error → W → W) (get_cbs : W → CallbackQueue CB) (set_cbs : CallbackQueue CB → W → W).
Context (run_cb : CB → option Response → option error → W → W * outcome unit).
Context (get_set : ∀ q w, get_cbs (set_cbs q w) = q).
Context (server : Server.Server string Request Response W).

(** A callback given to the central system's [SendRequestAsyncCtx] is
    registered under the message id the request is queued with; the response
    for that client and id starts a goroutine that runs this callback with that
    response, and takes it out of the queue, so that the same response again
    starts none; no other client's or request's callback is touched. *)
Theorem callback_gets_own_response ctx0 (client : string) (r : Request) (cb : CB) w w1 l (conf : Response) :
  CentralSystem.SendRequestAsyncCtx K validationEnabled EscapeHTML get_cbs set_cbs server ctx0 client r cb w =
    (w1, l, Done None) →
  ∃ id b, l = [EvEnqueue client b None] ∧ elem_id (EBundle b) = Some id ∧ id ≠ "" ∧
    ∀ w2, lookup_cb client id (get_cbs w2) = lookup_cb client id (get_cbs w1) →
    ∃ w3 g, CentralSystem.handleIncomingConfirmation K validationEnabled EscapeHTML errors_send get_cbs set_cbs run_cb
              server client conf id w2 = (w3, [], Done (Some g)) ∧
      runs_callback run_cb (Server.server_side server client) ResponseHandlerKind (c_response_feature K conf) id id
        cb (Some conf) None g ∧
      (∃ w4, CentralSystem.handleIncomingConfirmation K validationEnabled EscapeHTML errors_send get_cbs set_cbs run_cb
               server client conf id w3 = (w4, [], Done None)) ∧
      ∀ c r', (c, r') ≠ (client, id) → lookup_cb c r' (get_cbs w3) = lookup_cb c r' (get_cbs w2).
Proof.
  intros Hs. apply send_async_run in Hs as [Hs _]. apply try_queue_run in Hs as (w0 & id & Hsend & Hid & Hl); [|done].
  pose proof (send_request_cases K validationEnabled EscapeHTML (se_IsRunning w)
    "ocppj server is not started, couldn't send request" se_generateId client (se_SendRequest client)
    (Server.endpoint server) ctx0 r w) as Hc. unfold Server.SendRequestCtx in Hsend. rewrite Hsend in Hc.
  destruct l as [|[| | | |cid b [err|]|] [|]]; try done; try (by destruct Hc as (? & ? & ?)); try (by destruct Hc).
  destruct Hc as (-> & _ & _ & Hb & _). exists id, b. split; [done|]. split; [done|]. split; [done|].
  intros w2 Hw2. rewrite Hl, decide_True in Hw2 by done.
  destruct (handle_confirmation_run K validationEnabled EscapeHTML errors_send get_cbs set_cbs run_cb get_set
    (Server.server_side server client) conf id cb w2 Hw2) as (w3 & g & Hh & Hr & Hl3).
  exists w3, g. split; [done|]. split; [done|]. split.
  - apply handle_confirmation_none; [done|]. simpl. rewrite Hl3. by rewrite decide_True.
  - intros c r' Hne. rewrite Hl3, decide_False; [done|]. intros [-> ->]. by apply Hne.
Qed.
End server_callbacks.

(** the disconnect drain runs the callbacks in one unguarded loop: when one
    panics, the callbacks drained with it are gone from the queue without having
    run, and the user's disconnected handler is not called. *)
Theorem disconnect_drain_aborted {Request Response W CB : Type}
    (get_cbs : W → CallbackQueue CB) (set_cbs : CallbackQueue CB → W → W)
    (run_cb : CB → option Response → option error → W → W * outcome unit)
    (client : string) (user_handler : option (string → W → W * outcome unit)) w w1 q cb cbs v :
  DrainAll client (get_cbs w) = (q, cb :: cbs) →
  run_cb cb None (Some (OcppError disconnect_error)) (set_cbs q w) = (w1, Panicked v) →
  CentralSystem.disconnectedHandler get_cbs set_cbs run_cb client user_handler w =
    (w1, [EvInvoke ErrorHandlerKind client ""] : list (pevent Request), Panicked v) ∧
  ∀ r, lookup_cb client r q = None.
Proof.
  intros Hd Hr. split.
  - unfold CentralSystem.disconnectedHandler, on_disconnected.
    erewrite bind_done by (unfold on_callbacks, call; by rewrite Hd). simpl.
    unfold mbind, M_bind, tell, user. by rewrite Hr.
  - unfold DrainAll in Hd. destruct (get_cbs w !! client) as [inner|] eqn:Hc; [|done].
    injection Hd as <- _. unfold lookup_cb. by rewrite lookup_delete_eq.
Qed.

(** ** A central system and a charge point *)

Section fworld.
Context {P CB Request : Type}.

(** A facade's state: its endpoint's, the callback queue, the error channel. *)
Record fworld := mkFW { fw_peer : P; fw_callbacks : CallbackQueue CB; fw_errC : list error }.

Definition on_peer {A : Type} (f : P → P * A) (w : fworld) : fworld * A :=
  let '(p, a) := f (fw_peer w) in (mkFW p (fw_callbacks w) (fw_errC w), a).
Definition on_peer' (f : P → P) (w : fworld) : fworld := mkFW (f (fw_peer w)) (fw_callbacks w) (fw_errC w).

#[export] Instance fworld_client_env `{!ClientEnv P Request} : ClientEnv fworld Request := {|
  ce_IsRunning w := ce_IsRunning (fw_peer w);
  ce_SendRequest b := on_peer (ce_SendRequest b);
  ce_CompleteRequest id := on_peer (ce_CompleteRequest id);
  ce_RequestState w := ce_RequestState (fw_peer w);
  ce_Pause := on_peer' ce_Pause;
  ce_Resume := on_peer' ce_Resume;
  ce_Start := on_peer' ce_Start;
  ce_Stop := on_peer' ce_Stop;
  ce_wsStart url := on_peer (ce_wsStart url);
  ce_wsStartWithRetries url := on_peer' (ce_wsStartWithRetries url);
  ce_wsStop := on_peer' ce_wsStop;
  ce_SetOnHandlerPanic b := on_peer' (ce_SetOnHandlerPanic b);
  ce_SetOnRequestCanceled b := on_peer' (ce_SetOnRequestCanceled b);
  ce_IsConnected w := ce_IsConnected (fw_peer w);
  ce_awaitDisconnected := on_peer' ce_awaitDisconnected;
  ce_Write data := on_peer (ce_Write data);
  ce_generateId := on_peer ce_generateId
|}.

#[export] Instance fworld_server_env `{!ServerEnv P Request} : ServerEnv fworld Request := {|
  se_IsRunning w := se_IsRunning (fw_peer w);
  se_SendRequest c b := on_peer (se_SendRequest c b);
  se_CompleteRequest c id := on_peer (se_CompleteRequest c id);
  se_GetClientState c := on_peer (se_GetClientState c);
  se_CreateClient c := on_peer' (se_CreateClient c);
  se_DeleteClient c := on_peer' (se_DeleteClient c);
  se_DeleteClientAndWait := (λ f c, on_peer' (f c)) <$> se_DeleteClientAndWait;
  se_ClearClientPendingRequest c := on_peer' (se_ClearClientPendingRequest c);
  se_SetOnHandlerPanic b := on_peer' (se_SetOnHandlerPanic b);
  se_SetOnRequestCanceled b := on_peer' (se_SetOnRequestCanceled b);
  se_Start := on_peer' se_Start;
  se_Stop := on_peer' se_Stop;
  se_wsStart p path := on_peer' (se_wsStart p path);
  se_wsStop := on_peer' se_wsStop;
  se_wsShutdown c := on_peer (se_wsShutdown c);
  se_Write c data := on_peer (se_Write c data);
  se_generateId := on_peer se_generateId
|}.

Definition set_callbacks (q : CallbackQueue CB) (w : fworld) : fworld := mkFW (fw_peer w) q (fw_errC w).

(** [error]: the non-blocking send on a channel of capacity 16. *)
Definition errChanCapacity : nat := 16.
Definition fw_error (e : error) (w : fworld) : fworld :=
  if decide (length (fw_errC w) < errChanCapacity) then mkFW (fw_peer w) (fw_callbacks w) (fw_errC w ++ [e]) else w.
End fworld.
Arguments fworld : clear implicits.

Module FacadeDemo.
(** Requests and responses are known by their type; the encoder is a rendering. *)
Fixpoint render (j : Json) : string :=
  match j with
  | JStr s => s
  | JNum q => pretty (QArith_base.Qnum q)
  | JArr l => foldr (λ x acc, render x +:+ "," +:+ acc) "" l
  | _ => "{}"
  end.
Definition feature (r : string) : string := if decide (r = "core.ResetRequest") then "Reset" else "Other".
Definition K : codec string string string :=
  mkCodec feature (λ _, "Reset") (λ _, inr (Errorf "" None)) (λ _ j, inl (render j)) (λ _ ty, inl ty)
    (λ _ ty, inl ty) (λ r, JStr r) (λ r, JStr r) (λ _, []) (λ _, []) (λ _, []) (λ _, "") (λ _, "") (λ _, 0%Z) (λ _, "").
Definition endpoint : @Endpoint string := mkEndpoint Ocpp.V16 V16.DefaultProfiles.

Abbreviation sworld := (fworld (server_world string) nat).
Abbreviation cworld := (fworld (client_world string) nat).
Definition server : Server.Server string string string sworld :=
  Server.mkServer endpoint None None None None None None None.
Definition client : Client.Client string string string cworld :=
  Client.mkClient endpoint "cp" None None None None None None None.
(** A started server to which "cp1" is connected. *)
Definition started : sworld :=
  se_CreateClient "cp1" (mkFW (mkSW (ServerDispatcher.Start (ServerDispatcher.SetNetworkServer true
    (ServerDispatcher.NewDefaultServerDispatcher (QueueMap.NewFIFOQueueMap 0)))) []) ∅ []).
(** Callback 0 panics, the others return. *)
Definition run {P : Type} (n : nat) (_ : option string) (_ : option error) (w : fworld P nat) : fworld P nat * outcome unit :=
  (w, if decide (n = 0) then Panicked (PanicString "boom") else Done tt).
(** A core handler that returns a response. *)
Definition hs {W : Type} : @handlers string string W :=
  λ p, if decide (p = "Core") then Some (λ _ _ w, (w, Done (Some "core.ResetConfirmation", None))) else None.
End FacadeDemo.
Import FacadeDemo.

(** A frame exists for every error of the rendering codec. *)
Lemma demo_frames id code desc : ∃ data, error_frame K true false id code desc None = inl data.
Proof. by eexists. Qed.

Lemma client_facades_answer_witness :
  ∃ w' l, ChargePoint.handle_incoming K true false id fw_error fw_callbacks set_callbacks run client hs
            (ChargePoint.incomingRequest (Some "core.ResetRequest") "7" "Reset")
            (mkFW PeerDemo.cw0 ∅ []) = (w', l, Done tt) ∧
    sent l = [("", "3,7,core.ResetConfirmation,")].
Proof.
  destruct (client_facades_answer K true false id fw_error fw_callbacks set_callbacks run client hs
    (Some "core.ResetRequest") "7" "Reset" ltac:(done) (λ c d _, demo_frames "7" c d) ltac:(discriminate)) as [H _].
  destruct (H (mkFW PeerDemo.cw0 ∅ [])) as (w' & l & Hm & _). exists w', l. split; [exact Hm|].
  change l with (w', l, Done ()).1.2. rewrite <-Hm. vm_compute. reflexivity.
Defined.

Lemma server_facades_answer_witness :
  (∃ w' g, CentralSystem.handleIncomingRequest K true false id fw_error server hs "cp1"
             (Some "core.BootNotificationRequest") "7" "BootNotification" started = (w', [], Done (Some g)) ∧
           replies K true false (Server.server_side server "cp1") "7" g) ∧
  ∃ w' l, CentralSystem.handleIncomingRequest K true false id fw_error server hs "cp1" None "7" "Unknown" started =
            (w', l, Done None) ∧ one_reply K true false (Server.server_side server "cp1") "7" l.
Proof.
  assert (HA : ∀ r a, answered K true false server "cp1" "7"
    (CentralSystem.handleIncomingRequest K true false id fw_error server hs "cp1" r "7" a)).
  { intros r a. exact (proj1 (server_facades_answer K true false id fw_error server hs "cp1" r "7" a
      ltac:(done) (λ c d _, demo_frames "7" c d) ltac:(discriminate))). }
  split.
  - destruct (HA (Some "core.BootNotificationRequest") "BootNotification" started) as (w' & l & g & Hm & Hg).
    assert (Hx : match (CentralSystem.handleIncomingRequest K true false id fw_error server hs "cp1"
      (Some "core.BootNotificationRequest") "7" "BootNotification" started).2 with Done (Some _) => true | _ => false end
      = true) by (vm_compute; reflexivity).
    rewrite Hm in Hx. destruct g as [g|]; [|discriminate]. destruct Hg as [-> Hg]. exists w', g. split; [exact Hm|exact Hg].
  - destruct (HA None "Unknown" started) as (w' & l & g & Hm & Hg).
    assert (Hx : match (CentralSystem.handleIncomingRequest K true false id fw_error server hs "cp1"
      None "7" "Unknown" started).2 with Done None => true | _ => false end = true) by (vm_compute; reflexivity).
    rewrite Hm in Hx. destruct g as [g|]; [discriminate|]. exists w', l. split; [exact Hm|exact Hg].
Defined.

Lemma dispatch_type_safe_witness :
  returns match screen K true false fw_error (ChargePoint.facade_texts) V16.charge_point hs (Client.client_side client)
                  "7" "Reset" with
          | Some reply => reply
          | None => process K true false id fw_error (ChargePoint.facade_texts) V16.charge_point hs
                      (Client.client_side client) (Some "core.ResetRequest") "7" "Reset"
          end.
Proof.
  apply (dispatch_type_safe K true false id fw_error (Client.client_side client) ChargePoint.facade_texts hs
    V16.DefaultProfiles V16.charge_point (mkCall CALL "7" "Reset" (Some "core.ResetRequest")) "7").
  - left.
  - reflexivity.
  - discriminate.
  - intros p h a r w. unfold hs. case_decide; [|discriminate]. intros [= <-]. eexists. eexists. reflexivity.
  - intros j ty r [= <-]. reflexivity.
  - exists [int_json 2; JStr "7"; JStr "Reset"; JObj []], ClientState.NewClientState. vm_compute. reflexivity.
Defined.

Lemma callback_gets_own_response_witness :
  let out := CentralSystem.SendRequestAsyncCtx K true false fw_callbacks set_callbacks server None "cp1"
               "core.ResetRequest" 5 started in
  ∃ id b, out.1.2 = [EvEnqueue "cp1" b None] ∧ elem_id (EBundle b) = Some id ∧
    ∃ w3 g, CentralSystem.handleIncomingConfirmation K true false fw_error fw_callbacks set_callbacks run
              server "cp1" "core.ResetConfirmation" id out.1.1 = (w3, [], Done (Some g)).
Proof.
  intros out. assert (Hout : out = (out.1.1, out.1.2, Done None)) by (vm_compute; reflexivity).
  destruct (callback_gets_own_response K true false fw_error fw_callbacks set_callbacks run ltac:(done) server
    None "cp1" "core.ResetRequest" 5 started _ _ "core.ResetConfirmation" Hout) as (id & b & Hl & Hid & _ & H).
  exists id, b. split; [exact Hl|]. split; [exact Hid|].
  destruct (H out.1.1 eq_refl) as (w3 & g & Hh & _). exists w3, g. exact Hh.
Defined.

(** Two callbacks wait for a client that disconnects; the one that panics is
    drained first. *)
Definition two_waiting : sworld := mkFW (fw_peer started) {["cp1" := {["a" := 0; "b" := 1]}]} [].

Lemma disconnect_drain_aborted_witness :
  (DrainAll "cp1" (fw_callbacks two_waiting)).2 = [0; 1] ∧
  ∃ w', CentralSystem.disconnectedHandler fw_callbacks set_callbacks run "cp1" None two_waiting =
    (w', [EvInvoke ErrorHandlerKind "cp1" ""] : list (pevent string), Panicked (PanicString "boom")).
Proof.
  split; [vm_compute; reflexivity|].
  eexists. apply (disconnect_drain_aborted (Request := string) fw_callbacks set_callbacks run "cp1" None two_waiting
    (set_callbacks ∅ two_waiting) ∅ 0 [1] (PanicString "boom")); vm_compute; reflexivity.
Defined.
