(* ===== verification/Wiring.v ===== *)
(** * The facades wired to their endpoints (src/ocpp1.6/v16.go, src/ocpp2.0.1/v2.go)

    The constructors install closures of the facade as the handlers of the
    [ocppj] endpoint: the servers answer or start a goroutine on the read
    goroutine, the clients put every message into the channel [incoming].  The
    state [world] is that of the endpoint below, the callback queue, the error
    channel, what the facade code has written so far and the work it has handed
    to other goroutines and that has not run yet.  A goroutine is known by the
    data it was started with, [run_go] is what it does.

    The interleavings of the client's goroutines are the subject of
    [Lifecycle]; here a send on [incoming] or on the error channel that has to
    wait is the message's place in the list.  Every such send of a client is an arm
    of a select whose other arm is the stop channel of the current generation; once
    that is closed, which arm runs is a choice of the environment. *)

From S2P Require Import Prelude Ocpp Errors Queue State Message Endpoint Panic CallbackQueue ClientDispatcher Peer PeerTheorems Facade Services Facades.
Local Open Scope string_scope.
Local Open Scope list_scope.

(** ** The state *)

Section worlds.
Context {P Request CB G : Type}.

Record world := mkWorld {
  w_peer : P;
  w_callbacks : CallbackQueue CB;
  w_errC : option (list error);        (* the channel, if it has been made *)
  w_stopC : option (list bool);        (* closed: which of the coming selects take its arm *)
  w_log : list (pevent Request);       (* what the facade code did *)
  w_go : list G                        (* goroutines or messages not yet run *)
}.

Definition set_peer (p : P) (w : world) : world :=
  mkWorld p (w_callbacks w) (w_errC w) (w_stopC w) (w_log w) (w_go w).
Definition set_queue (q : CallbackQueue CB) (w : world) : world :=
  mkWorld (w_peer w) q (w_errC w) (w_stopC w) (w_log w) (w_go w).
Definition set_errs (l : option (list error)) (w : world) : world :=
  mkWorld (w_peer w) (w_callbacks w) l (w_stopC w) (w_log w) (w_go w).
Definition set_stop (c : option (list bool)) (w : world) : world :=
  mkWorld (w_peer w) (w_callbacks w) (w_errC w) c (w_log w) (w_go w).
Definition add_log (l : list (pevent Request)) (w : world) : world :=
  mkWorld (w_peer w) (w_callbacks w) (w_errC w) (w_stopC w) (w_log w ++ l) (w_go w).
Definition spawn (g : G) (w : world) : world :=
  mkWorld (w_peer w) (w_callbacks w) (w_errC w) (w_stopC w) (w_log w) (w_go w ++ [g]).

(** Whether the next select takes the arm of the stop channel, which has to be
    closed for that. *)
Definition stop_taken (w : world) : bool := match w_stopC w with Some (true :: _) => true | _ => false end.
Definition next_select (w : world) : world := set_stop (tail <$> w_stopC w) w.
(** [select { case c <- x: case <-stopC: }], with [send] the first arm. *)
Definition preemptible (send : world → world) (w : world) : world :=
  if stop_taken w then next_select w else send (next_select w).

(** An operation of the endpoint's environment. *)
Definition below {A : Type} (f : P → P * A) (w : world) : world * A :=
  let '(p, a) := f (w_peer w) in (set_peer p w, a).
Definition below' (f : P → P) (w : world) : world := set_peer (f (w_peer w)) w.

#[export] Instance world_client_env `{!ClientEnv P Request} : ClientEnv world Request := {|
  ce_IsRunning w := ce_IsRunning (w_peer w);
  ce_SendRequest b := below (ce_SendRequest b);
  ce_CompleteRequest id := below (ce_CompleteRequest id);
  ce_RequestState w := ce_RequestState (w_peer w);
  ce_Pause := below' ce_Pause;
  ce_Resume := below' ce_Resume;
  ce_Start := below' ce_Start;
  ce_Stop := below' ce_Stop;
  ce_wsStart url := below (ce_wsStart url);
  ce_wsStartWithRetries url := below' (ce_wsStartWithRetries url);
  ce_wsStop := below' ce_wsStop;
  ce_SetOnHandlerPanic b := below' (ce_SetOnHandlerPanic b);
  ce_SetOnRequestCanceled b := below' (ce_SetOnRequestCanceled b);
  ce_IsConnected w := ce_IsConnected (w_peer w);
  ce_awaitDisconnected := below' ce_awaitDisconnected;
  ce_Write data := below (ce_Write data);
  ce_generateId := below ce_generateId
|}.

#[export] Instance world_server_env `{!ServerEnv P Request} : ServerEnv world Request := {|
  se_IsRunning w := se_IsRunning (w_peer w);
  se_SendRequest c b := below (se_SendRequest c b);
  se_CompleteRequest c id := below (se_CompleteRequest c id);
  se_GetClientState c := below (se_GetClientState c);
  se_CreateClient c := below' (se_CreateClient c);
  se_DeleteClient c := below' (se_DeleteClient c);
  se_DeleteClientAndWait := (λ f c, below' (f c)) <$> se_DeleteClientAndWait;
  se_ClearClientPendingRequest c := below' (se_ClearClientPendingRequest c);
  se_SetOnHandlerPanic b := below' (se_SetOnHandlerPanic b);
  se_SetOnRequestCanceled b := below' (se_SetOnRequestCanceled b);
  se_Start := below' se_Start;
  se_Stop := below' se_Stop;
  se_wsStart p path := below' (se_wsStart p path);
  se_wsStop := below' se_wsStop;
  se_wsShutdown c := below (se_wsShutdown c);
  se_Write c data := below (se_Write c data);
  se_generateId := below se_generateId
|}.

(** [centralSystem.error]: a non-blocking send on a channel of capacity 16. *)
Definition errChanCapacity : nat := 16.
Definition server_error (e : error) (w : world) : world :=
  match w_errC w with
  | Some l => if decide (length l < errChanCapacity) then set_errs (Some (l ++ [e])) w else w
  | None => w
  end.

(** [chargePoint.error] and [errorNonBlocking], on a channel of capacity 1 that
    exists once [Errors] has been called. *)
Definition client_error (e : error) (w : world) : world :=
  match w_errC w with Some l => preemptible (set_errs (Some (l ++ [e]))) w | None => w end.
Definition client_errorNonBlocking (e : error) (w : world) : world :=
  match w_errC w with Some [] => set_errs (Some [e]) w | _ => w end.

(** A closure installed as a handler: what it logs is kept in the state,
    [after] is what it starts. *)
Definition as_handler {A : Type} (m : M world (pevent Request) A) (after : A → world → world) (w : world)
    : world * outcome unit :=
  match m w with
  | (w', l, Done a) => (after a (add_log l w'), Done tt)
  | (w', l, Panicked v) => (add_log l w', Panicked v)
  end.

(** The closure given to [SetOnHandlerPanic]: the report first, then the hook the
    endpoint had before, then the user's. *)
Definition HandlerPanicError (quote : string → string) (hp : HandlerPanic) : error :=
  Errorf (HandlerPanicError_Error quote hp) None.

Definition run_hook (h : option (HandlerPanic → world → world * outcome unit)) (hp : HandlerPanic) (w : world)
    : world * outcome unit :=
  match h with Some f => f hp w | None => (w, Done tt) end.

Definition on_panic (quote : string → string) (report : error → world → world)
    (prevOnHandlerPanic onHandlerPanic : option (HandlerPanic → world → world * outcome unit))
    (hp : HandlerPanic) (w : world) : world * outcome unit :=
  match run_hook prevOnHandlerPanic hp (report (HandlerPanicError quote hp) w) with
  | (w1, Done _) => run_hook onHandlerPanic hp w1
  | r => r
  end.
End worlds.
Arguments world : clear implicits.

(** ** The server facades *)

Section server.
Context {P Request Response CB : Type} `{!ServerEnv P Request}.
Context (K : codec string Request Response) (validationEnabled EscapeHTML : bool) (dyn_type : Request → string).
(** The rendering of [%q]. *)
Context (quote : string → string).

(** A goroutine of a server facade, with the values it closes over. *)
Inductive goroutine :=
| GoRequest (client : string) (request : option Request) (requestId action : string)
| GoResponse (client : string) (confirmation : Response) (requestId : string) (callback : CB)
| GoNilResponse                                  (* a nil response: its name is read on the goroutine *)
| GoError (client : string) (err : ocpp_error) (callback : CB)
| GoCanceled (client requestID : string) (request : option Request) (err : ocpp_error).

Abbreviation W := (world P Request CB goroutine).
Abbreviation prog := (M W (pevent Request)).
Abbreviation handler := (W → W * outcome unit).
Abbreviation Server := (Server.Server string Request Response W).

(** What a registered callback does. *)
Context (run_cb : CB → option Response → option error → handler).
(** The texts and tables of the facade, by client. *)
Context (texts_for : string → texts) (s : spec).

(** The fields of [centralSystem] that its setters write; the handlers by profile. *)
Record server_facade := mkServerFacade {
  sf_handlers : @handlers Request Response W;
  sf_disconnectedHandler : option (string → handler);
  sf_onHandlerPanic : option (HandlerPanic → handler)
}.

Definition empty_server_facade : server_facade := mkServerFacade (λ _, None) None None.

Definition set_profile_handler (profile : string) (h : option (@profile_handler Request Response W)) (f : server_facade)
    : server_facade :=
  mkServerFacade (λ p, if decide (p = profile) then h else sf_handlers f p) (sf_disconnectedHandler f)
    (sf_onHandlerPanic f).
Definition SetDisconnectedHandler (h : option (string → handler)) (f : server_facade) : server_facade :=
  mkServerFacade (sf_handlers f) h (sf_onHandlerPanic f).
Definition SetOnHandlerPanic (h : option (HandlerPanic → handler)) (f : server_facade) : server_facade :=
  mkServerFacade (sf_handlers f) (sf_disconnectedHandler f) h.

Section closures.
Context (server : Server) (f : server_facade).
Abbreviation side_of := (Server.server_side server).

Definition run_go (g : goroutine) : prog unit :=
  match g with
  | GoRequest client request requestId action =>
      recover_goroutine K validationEnabled EscapeHTML (side_of client) RequestHandlerKind action requestId true
        (process K validationEnabled EscapeHTML dyn_type server_error (texts_for client) s (sf_handlers f)
           (side_of client) request requestId action)
  | GoResponse client confirmation requestId cb =>
      guarded_callback K validationEnabled EscapeHTML run_cb (side_of client) ResponseHandlerKind
        (c_response_feature K confirmation) requestId requestId cb (Some confirmation) None
  | GoNilResponse => panic nil_dereference
  | GoError client err cb =>
      guarded_callback K validationEnabled EscapeHTML run_cb (side_of client) ErrorHandlerKind "" (MessageId err)
        (MessageId err) cb None (Some (OcppError err))
  | GoCanceled client requestID request err =>
      handle_canceled K validationEnabled EscapeHTML server_error w_callbacks set_queue run_cb (side_of client)
        requestID request err
  end.

(** [SetRequestHandler(func ... { cs.handleIncomingRequest(...) })] *)
Definition on_request (client : string) (request : option Request) (requestId action : string) : handler :=
  as_handler (start_request K validationEnabled EscapeHTML dyn_type server_error (texts_for client) s (sf_handlers f)
                (side_of client) request requestId action)
    (λ g, match g with Some _ => spawn (GoRequest client request requestId action) | None => id end).

(** [SetResponseHandler(func ... { cs.handleIncomingConfirmation(...) })] *)
Definition on_response (client : string) (response : option Response) (requestId : string) : handler := λ w,
  let callback := lookup_cb client requestId (w_callbacks w) in
  match response with
  | Some confirmation =>
      as_handler (handle_confirmation K validationEnabled EscapeHTML server_error w_callbacks set_queue run_cb
                    (side_of client) confirmation requestId)
        (λ g, match g, callback with
              | Some _, Some cb => spawn (GoResponse client confirmation requestId cb)
              | _, _ => id
              end) w
  | None =>
      as_handler (on_callbacks w_callbacks set_queue (Dequeue client requestId) ≫= λ cb,
                    match cb with Some _ => mret tt | None => panic nil_dereference end)
        (λ _, spawn GoNilResponse) w
  end.

(** [SetErrorHandler(func ... { cs.handleIncomingError(...) })] *)
Definition on_error (client : string) (err : ocpp_error) (details : option Json) : handler := λ w,
  let callback := lookup_cb client (MessageId err) (w_callbacks w) in
  as_handler (handle_call_error K validationEnabled EscapeHTML server_error w_callbacks set_queue run_cb
                (side_of client) err)
    (λ g, match g, callback with Some _, Some cb => spawn (GoError client err cb) | _, _ => id end) w.

(** [SetCanceledRequestHandler(func ... { cs.handleCanceledRequest(...) })] *)
Definition on_canceled (clientID requestID : string) (request : option Request) (err : ocpp_error) : handler := λ w,
  (spawn (GoCanceled clientID requestID request err) w, Done tt).

(** [installDisconnectedHandler] *)
Definition on_client_gone (client : string) : handler :=
  as_handler (Facade.on_disconnected w_callbacks set_queue run_cb client (sf_disconnectedHandler f)) (λ _, id).
End closures.

(** [newCentralSystem] and what [NewCentralSystem] installs.  The closures use
    the endpoint, its dispatcher and its panic hook, none of the handlers they
    are installed as. *)
Definition panic_hook (prev : option (HandlerPanic → handler)) (f : server_facade) : HandlerPanic → handler :=
  on_panic quote server_error prev (sf_onHandlerPanic f).

Definition hooked (d : Dialect) (server : Server) (f : server_facade) : Server :=
  Server.mkServer (SetDialect d (Server.endpoint server)) (Server.newClientHandler server) None None None None
    (Some (panic_hook (Server.onHandlerPanic server) f)) (Server.invalidMessageHook server).

Definition wire_server (d : Dialect) (server : Server) (f : server_facade) : Server :=
  let server := hooked d server f in
  Server.SetErrorHandler (Some (on_error server))
    (Server.SetResponseHandler (Some (on_response server))
      (Server.SetRequestHandler (Some (on_request server f))
        (Server.SetDisconnectedClientHandler (Some (on_client_gone f)) server))).

(** The endpoint made when none is given, [ocppj.NewServer] with the profiles. *)
Definition default_server (profiles : list (Profile string)) : Server :=
  Server.mkServer (foldl (λ e p, AddProfile p e) (mkEndpoint DialectUnset []) profiles) None None None None None None
    None.

(** The constructor: the wired endpoint, the state below with the handlers
    registered at the dispatcher and the error channel made. *)
Definition new_server (d : Dialect) (profiles : list (Profile string)) (endpoint : option Server) (f : server_facade)
    (p : P) : Server * W :=
  let server := default (default_server profiles) endpoint in
  (wire_server d server f,
   se_SetOnHandlerPanic true (se_SetOnRequestCanceled true (mkWorld p New (Some []) None [] []))).
End server.
Arguments goroutine : clear implicits.
Arguments server_facade : clear implicits.

(** ** The client facades *)

Section client.
Context {P Request Response CB : Type} `{!ClientEnv P Request}.
Context (K : codec string Request Response) (validationEnabled EscapeHTML : bool) (dyn_type : Request → string).
Context (quote : string → string).

(** [incomingMessage]: what waits in the channel of the handler goroutine. *)
Inductive message :=
| InResponse (confirmation : option Response) (requestID : string)
| InError (err : error)
| InRequest (request : option Request) (requestID action : string).

Abbreviation W := (world P Request CB message).
Abbreviation prog := (M W (pevent Request)).
Abbreviation handler := (W → W * outcome unit).
Abbreviation Client := (Client.Client string Request Response W).

Context (run_cb : CB → option Response → option error → handler).
Context (t : texts) (s : spec).
(** The errors reported when there is no callback for a response or an error. *)
Context (no_response : string → string) (no_error : error → error).

Record client_facade := mkClientFacade {
  cf_handlers : @handlers Request Response W;
  cf_onHandlerPanic : option (HandlerPanic → handler)
}.

Definition empty_client_facade : client_facade := mkClientFacade (λ _, None) None.

Definition set_client_handler (profile : string) (h : option (@profile_handler Request Response W)) (f : client_facade)
    : client_facade :=
  mkClientFacade (λ p, if decide (p = profile) then h else cf_handlers f p) (cf_onHandlerPanic f).
Definition SetClientOnHandlerPanic (h : option (HandlerPanic → handler)) (f : client_facade) : client_facade :=
  mkClientFacade (cf_handlers f) h.

(** The closures given to [SetResponseHandler], [SetErrorHandler] and
    [SetRequestHandler], and [onRequestTimeout]: a send on [incoming], which the
    closed stop channel can preempt. *)
Definition forward (m : message) : handler := λ w, (preemptible (spawn m) w, Done tt).
Definition forward_response (confirmation : option Response) (requestId : string) : handler :=
  forward (InResponse confirmation requestId).
Definition forward_error (err : ocpp_error) (details : option Json) : handler := forward (InError (OcppError err)).
Definition forward_request (request : option Request) (requestId action : string) : handler :=
  forward (InRequest request requestId action).
Definition onRequestTimeout (clientID : string) (request : option Request) (err : ocpp_error) : handler :=
  forward (InError (OcppError err)).

(** One message taken from [incoming] by [asyncCallbackHandler]; a nil response
    is dereferenced, outside of any recovery. *)
Definition run_message (client : Client) (f : client_facade) (m : message) : prog unit :=
  let σ := Client.client_side client in
  match m with
  | InResponse (Some confirmation) requestID =>
      deliver_response K validationEnabled EscapeHTML client_error w_callbacks set_queue run_cb σ no_response
        confirmation requestID
  | InResponse None requestID => _ ← on_callbacks w_callbacks set_queue (Dequeue "main" requestID); panic nil_dereference
  | InError err =>
      deliver_error K validationEnabled EscapeHTML client_error w_callbacks set_queue run_cb σ no_error err
  | InRequest request requestID action =>
      handle_request K validationEnabled EscapeHTML dyn_type client_error t s (cf_handlers f) σ request requestID action
  end.

Definition wire_client (d : Dialect) (client : Client) (f : client_facade) : Client :=
  let client := Client.mkClient (SetDialect d (Client.endpoint client)) (Client.Id client) (Client.requestHandler client)
    (Client.responseHandler client) (Client.errorHandler client)
    (Some (on_panic quote client_errorNonBlocking (Client.onHandlerPanic client) (cf_onHandlerPanic f)))
    (Client.onDisconnectedHandler client) (Client.onReconnectedHandler client) (Client.invalidMessageHook client) in
  Client.SetRequestHandler (Some forward_request)
    (Client.SetErrorHandler (Some forward_error)
      (Client.SetResponseHandler (Some forward_response) client)).

Definition default_client (id : string) (profiles : list (Profile string)) : Client :=
  Client.mkClient (foldl (λ e p, AddProfile p e) (mkEndpoint DialectUnset []) profiles) id None None None None None None
    None.

Definition new_client (d : Dialect) (profiles : list (Profile string)) (id : string) (endpoint : option Client)
    (f : client_facade) (p : P) : Client * W :=
  let client := default (default_client id profiles) endpoint in
  (wire_client d client f,
   ce_SetOnHandlerPanic true (ce_SetOnRequestCanceled true (mkWorld p New None None [] []))).
End client.
Arguments message : clear implicits.
Arguments client_facade : clear implicits.

(** *** [chargePoint] *)

Module ChargePointWiring.
Section facade.
Context {P Request Response CB : Type} `{!ClientEnv P Request}.
Context (K : codec string Request Response) (validationEnabled EscapeHTML : bool) (dyn_type : Request → string).
Context (quote : string → string).
Abbreviation W := (world P Request CB (message Request Response)).
Context (run_cb : CB → option Response → option error → W → W * outcome unit).

Definition SetCoreHandler (h : option (@profile_handler Request Response W)) : client_facade P Request Response CB → client_facade P Request Response CB :=
  set_client_handler "Core" h.
Definition SetLocalAuthListHandler (h : option (@profile_handler Request Response W)) : client_facade P Request Response CB → client_facade P Request Response CB :=
  set_client_handler "LocalAuthListManagement" h.
Definition SetFirmwareManagementHandler (h : option (@profile_handler Request Response W)) : client_facade P Request Response CB → client_facade P Request Response CB :=
  set_client_handler "FirmwareManagement" h.
Definition SetReservationHandler (h : option (@profile_handler Request Response W)) : client_facade P Request Response CB → client_facade P Request Response CB :=
  set_client_handler "Reservation" h.
Definition SetRemoteTriggerHandler (h : option (@profile_handler Request Response W)) : client_facade P Request Response CB → client_facade P Request Response CB :=
  set_client_handler "RemoteTrigger" h.
Definition SetSmartChargingHandler (h : option (@profile_handler Request Response W)) : client_facade P Request Response CB → client_facade P Request Response CB :=
  set_client_handler "SmartCharging" h.
Definition SetSecurityHandler (h : option (@profile_handler Request Response W)) : client_facade P Request Response CB → client_facade P Request Response CB :=
  set_client_handler "Security" h.
Definition SetLogHandler (h : option (@profile_handler Request Response W)) : client_facade P Request Response CB → client_facade P Request Response CB :=
  set_client_handler "Log" h.
Definition SetExtendedTriggerMessageHandler (h : option (@profile_handler Request Response W)) : client_facade P Request Response CB → client_facade P Request Response CB :=
  set_client_handler "ExtendedTriggerMessage" h.
Definition SetSecureFirmwareHandler (h : option (@profile_handler Request Response W)) : client_facade P Request Response CB → client_facade P Request Response CB :=
  set_client_handler "SecureFirmwareUpdate" h.
Definition SetCertificateHandler (h : option (@profile_handler Request Response W)) : client_facade P Request Response CB → client_facade P Request Response CB :=
  set_client_handler "Certificates" h.

(** The profile each setter is for, in the order of the setters. *)
Definition settable : list string :=
  ["Core"; "LocalAuthListManagement"; "FirmwareManagement"; "Reservation"; "RemoteTrigger"; "SmartCharging"; "Security"; "Log"; "ExtendedTriggerMessage"; "SecureFirmwareUpdate"; "Certificates"].

Definition run (client : Client.Client string Request Response W) (f : client_facade P Request Response CB)
    : message Request Response → M W (pevent Request) unit :=
  run_message K validationEnabled EscapeHTML dyn_type run_cb ChargePoint.facade_texts V16.charge_point
    (λ feature, "no handler available for incoming response " +:+ feature)
    (λ e, Errorf ("no handler available for error " +:+ error_text e) None) client f.

Definition NewChargePoint (id : string) (endpoint : option (Client.Client string Request Response W)) (f : client_facade P Request Response CB) (p : P)
    : Client.Client string Request Response W * W :=
  new_client quote Ocpp.V16 V16.DefaultProfiles id endpoint f p.

Definition SendRequestAsync (client : Client.Client string Request Response W) (request : Request) (cb : CB)
    : M W (pevent Request) (option error) :=
  ChargePoint.SendRequestAsyncCtx K validationEnabled EscapeHTML w_callbacks set_queue client (Some Background)
    request cb.
(** The registrations and queries that are passed on to the endpoint. *)
Definition SetOnDisconnectedHandler (handler : option (option error → W → W * outcome unit))
    : Client.Client string Request Response W → Client.Client string Request Response W :=
  Client.SetOnDisconnectedHandler handler.
Definition SetOnReconnectedHandler (handler : option (W → W * outcome unit))
    : Client.Client string Request Response W → Client.Client string Request Response W :=
  Client.SetOnReconnectedHandler handler.
Definition IsConnected (w : W) : bool := ce_IsConnected w.
End facade.
End ChargePointWiring.

(** *** [centralSystem] *)

Module CentralSystemWiring.
Section facade.
Context {P Request Response CB : Type} `{!ServerEnv P Request}.
Context (K : codec string Request Response) (validationEnabled EscapeHTML : bool) (dyn_type : Request → string).
Context (quote : string → string).
Abbreviation W := (world P Request CB (goroutine Request Response CB)).
Context (run_cb : CB → option Response → option error → W → W * outcome unit).

Definition SetSecurityHandler (h : option (@profile_handler Request Response W)) : server_facade P Request Response CB → server_facade P Request Response CB :=
  set_profile_handler "Security" h.
Definition SetLogHandler (h : option (@profile_handler Request Response W)) : server_facade P Request Response CB → server_facade P Request Response CB :=
  set_profile_handler "Log" h.
Definition SetSecureFirmwareHandler (h : option (@profile_handler Request Response W)) : server_facade P Request Response CB → server_facade P Request Response CB :=
  set_profile_handler "SecureFirmwareUpdate" h.
Definition SetCoreHandler (h : option (@profile_handler Request Response W)) : server_facade P Request Response CB → server_facade P Request Response CB :=
  set_profile_handler "Core" h.
Definition SetLocalAuthListHandler (h : option (@profile_handler Request Response W)) : server_facade P Request Response CB → server_facade P Request Response CB :=
  set_profile_handler "LocalAuthListManagement" h.
Definition SetFirmwareManagementHandler (h : option (@profile_handler Request Response W)) : server_facade P Request Response CB → server_facade P Request Response CB :=
  set_profile_handler "FirmwareManagement" h.
Definition SetReservationHandler (h : option (@profile_handler Request Response W)) : server_facade P Request Response CB → server_facade P Request Response CB :=
  set_profile_handler "Reservation" h.
Definition SetRemoteTriggerHandler (h : option (@profile_handler Request Response W)) : server_facade P Request Response CB → server_facade P Request Response CB :=
  set_profile_handler "RemoteTrigger" h.
Definition SetSmartChargingHandler (h : option (@profile_handler Request Response W)) : server_facade P Request Response CB → server_facade P Request Response CB :=
  set_profile_handler "SmartCharging" h.

(** The profile each setter is for, in the order of the setters. *)
Definition settable : list string :=
  ["Security"; "Log"; "SecureFirmwareUpdate"; "Core"; "LocalAuthListManagement"; "FirmwareManagement"; "Reservation"; "RemoteTrigger"; "SmartCharging"].

Definition run (server : Server.Server string Request Response W) (f : server_facade P Request Response CB)
    : goroutine Request Response CB → M W (pevent Request) unit :=
  run_go K validationEnabled EscapeHTML dyn_type run_cb CentralSystem.facade_texts V16.central_system server f.

Definition NewCentralSystem (endpoint : option (Server.Server string Request Response W)) (f : server_facade P Request Response CB) (p : P)
    : Server.Server string Request Response W * W :=
  new_server K validationEnabled EscapeHTML dyn_type quote run_cb CentralSystem.facade_texts V16.central_system Ocpp.V16
    V16.DefaultProfiles endpoint f p.

(** The operations the facade passes on to its endpoint. *)
Definition SendRequestAsync (server : Server.Server string Request Response W) (client : string) (request : Request)
    (cb : CB) : M W (pevent Request) (option error) :=
  CentralSystem.SendRequestAsyncCtx K validationEnabled EscapeHTML w_callbacks set_queue server (Some Background) client
    request cb.
Definition Start (server : Server.Server string Request Response W) (listenPort : Z) (listenPath : string)
    : M W (pevent Request) unit := Server.Start server listenPort listenPath.
Definition Stop (server : Server.Server string Request Response W) : M W (pevent Request) unit := Server.Stop server.
Definition Shutdown (server : Server.Server string Request Response W) (c : ctx)
    : M W (pevent Request) (option error) := Server.Shutdown server c.
Definition Errors (w : W) : option (list error) := w_errC w.
End facade.
End CentralSystemWiring.

(** *** [chargingStation] *)

Module ChargingStationWiring.
Section facade.
Context {P Request Response CB : Type} `{!ClientEnv P Request}.
Context (K : codec string Request Response) (validationEnabled EscapeHTML : bool) (dyn_type : Request → string).
Context (quote : string → string).
Abbreviation W := (world P Request CB (message Request Response)).
Context (run_cb : CB → option Response → option error → W → W * outcome unit).

Definition SetSecurityHandler (h : option (@profile_handler Request Response W)) : client_facade P Request Response CB → client_facade P Request Response CB :=
  set_client_handler "Security" h.
Definition SetProvisioningHandler (h : option (@profile_handler Request Response W)) : client_facade P Request Response CB → client_facade P Request Response CB :=
  set_client_handler "Provisioning" h.
Definition SetAuthorizationHandler (h : option (@profile_handler Request Response W)) : client_facade P Request Response CB → client_facade P Request Response CB :=
  set_client_handler "Authorization" h.
Definition SetLocalAuthListHandler (h : option (@profile_handler Request Response W)) : client_facade P Request Response CB → client_facade P Request Response CB :=
  set_client_handler "LocalAuthList" h.
Definition SetTransactionsHandler (h : option (@profile_handler Request Response W)) : client_facade P Request Response CB → client_facade P Request Response CB :=
  set_client_handler "Transactions" h.
Definition SetRemoteControlHandler (h : option (@profile_handler Request Response W)) : client_facade P Request Response CB → client_facade P Request Response CB :=
  set_client_handler "RemoteControl" h.
Definition SetAvailabilityHandler (h : option (@profile_handler Request Response W)) : client_facade P Request Response CB → client_facade P Request Response CB :=
  set_client_handler "Availability" h.
Definition SetReservationHandler (h : option (@profile_handler Request Response W)) : client_facade P Request Response CB → client_facade P Request Response CB :=
  set_client_handler "Reservation" h.
Definition SetTariffCostHandler (h : option (@profile_handler Request Response W)) : client_facade P Request Response CB → client_facade P Request Response CB :=
  set_client_handler "TariffCost" h.
Definition SetMeterHandler (h : option (@profile_handler Request Response W)) : client_facade P Request Response CB → client_facade P Request Response CB :=
  set_client_handler "Meter" h.
Definition SetSmartChargingHandler (h : option (@profile_handler Request Response W)) : client_facade P Request Response CB → client_facade P Request Response CB :=
  set_client_handler "SmartCharging" h.
Definition SetFirmwareHandler (h : option (@profile_handler Request Response W)) : client_facade P Request Response CB → client_facade P Request Response CB :=
  set_client_handler "Firmware" h.
Definition SetISO15118Handler (h : option (@profile_handler Request Response W)) : client_facade P Request Response CB → client_facade P Request Response CB :=
  set_client_handler "ISO15118" h.
Definition SetDiagnosticsHandler (h : option (@profile_handler Request Response W)) : client_facade P Request Response CB → client_facade P Request Response CB :=
  set_client_handler "Diagnostics" h.
Definition SetDisplayHandler (h : option (@profile_handler Request Response W)) : client_facade P Request Response CB → client_facade P Request Response CB :=
  set_client_handler "Display" h.
Definition SetDataHandler (h : option (@profile_handler Request Response W)) : client_facade P Request Response CB → client_facade P Request Response CB :=
  set_client_handler "Data" h.

(** The profile each setter is for, in the order of the setters. *)
Definition settable : list string :=
  ["Security"; "Provisioning"; "Authorization"; "LocalAuthList"; "Transactions"; "RemoteControl"; "Availability"; "Reservation"; "TariffCost"; "Meter"; "SmartCharging"; "Firmware"; "ISO15118"; "Diagnostics"; "Display"; "Data"].

Definition run (client : Client.Client string Request Response W) (f : client_facade P Request Response CB)
    : message Request Response → M W (pevent Request) unit :=
  run_message K validationEnabled EscapeHTML dyn_type run_cb ChargingStation.facade_texts V201.charging_station
    (λ feature, "no callback available for incoming response " +:+ feature)
    (λ e, Errorf ("no callback available for incoming error " +:+ error_text e) (Some e)) client f.

Definition NewChargingStation (id : string) (endpoint : option (Client.Client string Request Response W)) (f : client_facade P Request Response CB) (p : P)
    : Client.Client string Request Response W * W :=
  new_client quote Ocpp.V2 V201.DefaultProfiles id endpoint f p.

Definition SendRequestAsync (client : Client.Client string Request Response W) (request : Request) (cb : CB)
    : M W (pevent Request) (option error) :=
  ChargingStation.SendRequestAsyncCtx K validationEnabled EscapeHTML w_callbacks set_queue client (Some Background)
    request cb.
(** The registrations and queries that are passed on to the endpoint. *)
Definition SetOnDisconnectedHandler (handler : option (option error → W → W * outcome unit))
    : Client.Client string Request Response W → Client.Client string Request Response W :=
  Client.SetOnDisconnectedHandler handler.
Definition SetOnReconnectedHandler (handler : option (W → W * outcome unit))
    : Client.Client string Request Response W → Client.Client string Request Response W :=
  Client.SetOnReconnectedHandler handler.
Definition IsConnected (w : W) : bool := ce_IsConnected w.
End facade.
End ChargingStationWiring.

(** *** [csms] *)

Module CSMSWiring.
Section facade.
Context {P Request Response CB : Type} `{!ServerEnv P Request}.
Context (K : codec string Request Response) (validationEnabled EscapeHTML : bool) (dyn_type : Request → string).
Context (quote : string → string).
Abbreviation W := (world P Request CB (goroutine Request Response CB)).
Context (run_cb : CB → option Response → option error → W → W * outcome unit).

Definition SetSecurityHandler (h : option (@profile_handler Request Response W)) : server_facade P Request Response CB → server_facade P Request Response CB :=
  set_profile_handler "Security" h.
Definition SetProvisioningHandler (h : option (@profile_handler Request Response W)) : server_facade P Request Response CB → server_facade P Request Response CB :=
  set_profile_handler "Provisioning" h.
Definition SetAuthorizationHandler (h : option (@profile_handler Request Response W)) : server_facade P Request Response CB → server_facade P Request Response CB :=
  set_profile_handler "Authorization" h.
Definition SetLocalAuthListHandler (h : option (@profile_handler Request Response W)) : server_facade P Request Response CB → server_facade P Request Response CB :=
  set_profile_handler "LocalAuthList" h.
Definition SetTransactionsHandler (h : option (@profile_handler Request Response W)) : server_facade P Request Response CB → server_facade P Request Response CB :=
  set_profile_handler "Transactions" h.
Definition SetRemoteControlHandler (h : option (@profile_handler Request Response W)) : server_facade P Request Response CB → server_facade P Request Response CB :=
  set_profile_handler "RemoteControl" h.
Definition SetAvailabilityHandler (h : option (@profile_handler Request Response W)) : server_facade P Request Response CB → server_facade P Request Response CB :=
  set_profile_handler "Availability" h.
Definition SetReservationHandler (h : option (@profile_handler Request Response W)) : server_facade P Request Response CB → server_facade P Request Response CB :=
  set_profile_handler "Reservation" h.
Definition SetTariffCostHandler (h : option (@profile_handler Request Response W)) : server_facade P Request Response CB → server_facade P Request Response CB :=
  set_profile_handler "TariffCost" h.
Definition SetMeterHandler (h : option (@profile_handler Request Response W)) : server_facade P Request Response CB → server_facade P Request Response CB :=
  set_profile_handler "Meter" h.
Definition SetSmartChargingHandler (h : option (@profile_handler Request Response W)) : server_facade P Request Response CB → server_facade P Request Response CB :=
  set_profile_handler "SmartCharging" h.
Definition SetFirmwareHandler (h : option (@profile_handler Request Response W)) : server_facade P Request Response CB → server_facade P Request Response CB :=
  set_profile_handler "Firmware" h.
Definition SetISO15118Handler (h : option (@profile_handler Request Response W)) : server_facade P Request Response CB → server_facade P Request Response CB :=
  set_profile_handler "ISO15118" h.
Definition SetDiagnosticsHandler (h : option (@profile_handler Request Response W)) : server_facade P Request Response CB → server_facade P Request Response CB :=
  set_profile_handler "Diagnostics" h.
Definition SetDisplayHandler (h : option (@profile_handler Request Response W)) : server_facade P Request Response CB → server_facade P Request Response CB :=
  set_profile_handler "Display" h.
Definition SetDataHandler (h : option (@profile_handler Request Response W)) : server_facade P Request Response CB → server_facade P Request Response CB :=
  set_profile_handler "Data" h.

(** The profile each setter is for, in the order of the setters. *)
Definition settable : list string :=
  ["Security"; "Provisioning"; "Authorization"; "LocalAuthList"; "Transactions"; "RemoteControl"; "Availability"; "Reservation"; "TariffCost"; "Meter"; "SmartCharging"; "Firmware"; "ISO15118"; "Diagnostics"; "Display"; "Data"].

Definition run (server : Server.Server string Request Response W) (f : server_facade P Request Response CB)
    : goroutine Request Response CB → M W (pevent Request) unit :=
  run_go K validationEnabled EscapeHTML dyn_type run_cb CSMS.facade_texts V201.csms server f.

Definition NewCSMS (endpoint : option (Server.Server string Request Response W)) (f : server_facade P Request Response CB) (p : P)
    : Server.Server string Request Response W * W :=
  new_server K validationEnabled EscapeHTML dyn_type quote run_cb CSMS.facade_texts V201.csms Ocpp.V2
    V201.DefaultProfiles endpoint f p.

(** The operations the facade passes on to its endpoint. *)
Definition SendRequestAsync (server : Server.Server string Request Response W) (client : string) (request : Request)
    (cb : CB) : M W (pevent Request) (option error) :=
  CSMS.SendRequestAsyncCtx K validationEnabled EscapeHTML w_callbacks set_queue server (Some Background) client
    request cb.
Definition Start (server : Server.Server string Request Response W) (listenPort : Z) (listenPath : string)
    : M W (pevent Request) unit := Server.Start server listenPort listenPath.
Definition Stop (server : Server.Server string Request Response W) : M W (pevent Request) unit := Server.Stop server.
Definition Shutdown (server : Server.Server string Request Response W) (c : ctx)
    : M W (pevent Request) (option error) := Server.Shutdown server c.
Definition Errors (w : W) : option (list error) := w_errC w.
End facade.
End CSMSWiring.
