(* ===== verification/WiringTheorems.v ===== *)
(** * Properties of the wired facades

    From the bytes on one wire to the bytes on the other, through the endpoint
    and the facade: every request is answered once, and a request sent through
    one facade ends with its callback run with the response of the other side's
    handler. *)

From Stdlib Require Import Strings.Ascii.
From stdpp Require Import pretty.
From S2P Require Import Prelude Ocpp Errors Queue State Message Endpoint Panic CallbackQueue ClientDispatcher Peer PeerTheorems PeerInstances Facade Services Facades FacadeTheorems Wiring.
Local Open Scope string_scope.
Local Open Scope list_scope.

(** ** What the wired endpoints promise *)

Section promises.
Context {P Request Response CB : Type}.
Context (K : codec string Request Response) (validationEnabled EscapeHTML : bool).
Abbreviation WS := (world P Request CB (goroutine Request Response CB)).
Abbreviation WC := (world P Request CB (message Request Response)).

(** The reply to the request [id] of [client] by the step from [w] to [w']: in
    what the facade wrote, or by the one goroutine it started. *)
Definition answered_once `{!ServerEnv P Request} (cs : Server.Server string Request Response WS)
    (run : goroutine Request Response CB → M WS (pevent Request) unit) (client id : string)
    (w w' : WS) : Prop :=
  let reply := one_reply K validationEnabled EscapeHTML (Server.server_side cs client) id in
  (∃ l, w_log w' = w_log w ++ l ∧ w_go w' = w_go w ∧ reply l) ∨
  (∃ g, w_log w' = w_log w ∧ w_go w' = w_go w ++ [g] ∧
        ∀ w2, ∃ w3 l3, run g w2 = (w3, l3, Done tt) ∧ reply l3).

(** Bytes that parse as a request are answered exactly once. *)
Definition server_answers `{!ServerEnv P Request} (cs : Server.Server string Request Response WS)
    (run : goroutine Request Response CB → M WS (pevent Request) unit) : Prop :=
  ∀ client data arr pend p1 (c : Call Request) (w : WS),
    ParseRawJsonMessage (c_Unmarshal K) data = inl arr → se_GetClientState client (w_peer w) = (p1, pend) →
    ParseMessage_ K (Server.endpoint cs) arr pend = Parsed (MCall c) →
    ∃ w', Server.ocppMessageHandler K validationEnabled EscapeHTML cs client data w =
            (w', [EvInvoke RequestHandlerKind client (UniqueId c)], Done None) ∧
          answered_once cs run client (UniqueId c) w w'.

(** What the validator and the encoder promise about errors: the id of a call that
    passes validation passes in a CALL ERROR too, with any OCPP code and text (both
    structs carry the same constraint on it), and a CALL ERROR without details, an
    integer, three strings and an empty object, can always be encoded. *)
Definition errors_encodable : Prop :=
  (∀ (c : Call Request) code desc, c_validate_call K c = [] → IsErrorCodeValid code = true →
     c_validate_error K (mkCallError CALL_ERROR (UniqueId c) code desc None) = []) ∧
  (∀ id code desc, ∃ data,
     CallError_MarshalJSON (c_Encode K) EscapeHTML (mkCallError CALL_ERROR id code desc None) = inl data).

Lemma parsed_error_frame (e : @Endpoint string) arr pend (c : Call Request) :
  errors_encodable → ParseMessage_ K e arr pend = Parsed (MCall c) →
  ∀ code desc, IsErrorCodeValid code = true →
    ∃ data, error_frame K validationEnabled EscapeHTML (UniqueId c) code desc None = inl data.
Proof.
  intros [Hv Hm] HP code desc Hcode. apply parsed_call_valid in HP as [Hc _].
  unfold error_frame, CreateCallError, validated. rewrite (Hv c code desc Hc Hcode).
  destruct (Hm (UniqueId c) code desc) as [data Hd]. destruct validationEnabled; rewrite Hd; eauto.
Qed.

(** The clients put the request into their channel, and handling it from there
    answers it exactly once; only when the select takes the arm of the closed stop
    channel the request is dropped. *)
Definition client_answers `{!ClientEnv P Request} (cp : Client.Client string Request Response WC)
    (run : message Request Response → M WC (pevent Request) unit) : Prop :=
  ∀ data arr (c : Call Request) (w : WC),
    ParseRawJsonMessage (c_Unmarshal K) data = inl arr →
    ParseMessage_ K (Client.endpoint cp) arr (ce_RequestState w) = Parsed (MCall c) →
    ∃ w', Client.ocppMessageHandler K validationEnabled EscapeHTML cp data w =
            (w', [EvInvoke RequestHandlerKind "" (UniqueId c)], Done None) ∧
          if stop_taken w then w' = next_select w else
          ∃ m, w_log w' = w_log w ∧ w_go w' = w_go w ++ [m] ∧
               replies K validationEnabled EscapeHTML (Client.client_side cp) (UniqueId c) (run m).
End promises.

Section server.
Context {P Request Response CB : Type} `{!ServerEnv P Request}.
Context (K : codec string Request Response) (validationEnabled EscapeHTML : bool) (dyn_type : Request → string).
Context (quote : string → string).
Abbreviation W := (world P Request CB (goroutine Request Response CB)).
Context (run_cb : CB → option Response → option error → W → W * outcome unit).
Context (texts_for : string → texts) (s : spec) (d : Dialect).
Context (srv : Server.Server string Request Response W) (f : server_facade P Request Response CB).

Abbreviation wired := (wire_server K validationEnabled EscapeHTML dyn_type quote run_cb texts_for s d srv f).
Abbreviation base := (hooked quote d srv f).
Abbreviation run := (run_go K validationEnabled EscapeHTML dyn_type run_cb texts_for s wired f).
Abbreviation answered := (answered_once K validationEnabled EscapeHTML wired run).

(** What is handed to other goroutines or logged by the facade is kept by the
    code that only writes and reports. *)
Definition traces (w : W) : list (pevent Request) * list (goroutine Request Response CB) := (w_log w, w_go w).

Lemma keeps_error client id code desc (k : option create_error → M W (pevent Request) unit) :
  (∀ e, keeps traces (k e)) →
  keeps traces (e ← send_error K validationEnabled EscapeHTML (Server.server_side base client) id code desc None; k e).
Proof.
  intros Hk. apply keeps_bind; [|done]. intros w. unfold send_error.
  destruct (CreateCallError _ _ _ _ _ _); [|done]. destruct (CallError_MarshalJSON _ _ _) as [data|]; [|done].
  unfold mbind, M_bind, call. simpl. unfold below. by destruct (se_Write client data (w_peer w)).
Qed.

Lemma keeps_report e : keeps traces (report server_error e : M W (pevent Request) unit).
Proof. intros w. unfold report, call, server_error, traces. simpl. by repeat case_match. Qed.

Lemma screen_keeps client id action reply :
  screen K validationEnabled EscapeHTML server_error (texts_for client) s (sf_handlers f)
    (Server.server_side base client) id action = Some reply → keeps traces reply.
Proof.
  unfold screen. destruct (GetProfileForFeature _ _); [case_match|]; intros [= <-];
    apply keeps_error; intros [e|]; auto using keeps_report with go.
Qed.

Context (writes_ok : ∀ c data p, (se_Write c data p : P * option error).2 = None).
Context (dialect_ok : d ≠ DialectUnset).

Lemma world_writes_ok c data (w : W) : (se_Write c data w).2 = None.
Proof. simpl. unfold below. specialize (writes_ok c data (w_peer w)). by destruct (se_Write c data (w_peer w)). Qed.

Lemma on_request_answers client request id action w :
  (∀ code desc, IsErrorCodeValid code = true →
     ∃ data, error_frame K validationEnabled EscapeHTML id code desc None = inl data) →
  ∃ w', on_request K validationEnabled EscapeHTML dyn_type texts_for s base f client request id action w =
          (w', Done tt) ∧ answered client id w w'.
Proof.
  intros errors_ok. unfold on_request, as_handler.
  destruct (start_request_replies K validationEnabled EscapeHTML dyn_type server_error (Server.server_side base client)
    id (world_writes_ok client) errors_ok dialect_ok (texts_for client) s (sf_handlers f) request action w)
    as (w1 & l & g & Hs & Hg). rewrite Hs. eexists. split; [done|]. unfold start_request in Hs.
  destruct (screen _ _ _ _ _ _ _ _ _ _) as [reply|] eqn:Hsc.
  - pose proof (screen_keeps _ _ _ _ Hsc w) as Hk. unfold mbind, M_bind, mret, M_ret in Hs.
    destruct (reply w) as [[w2 l2] [a|v]]; [|done]. simplify_eq. unfold traces in Hk. simplify_eq/=.
    left. exists (l2 ++ []). destruct w1, w. simplify_eq/=. done.
  - unfold mret, M_ret in Hs. simplify_eq. destruct Hg as (_ & _ & Hrep). right.
    exists (GoRequest client request id action). simpl. rewrite app_nil_r. split; [done|]. split; [done|].
    exact Hrep.
Qed.

Lemma wired_server_answers :
  errors_encodable K EscapeHTML → server_answers K validationEnabled EscapeHTML wired run.
Proof.
  intros He client data arr pend p1 c w Hraw Hst HP. unfold Server.ocppMessageHandler.
  assert (Hp : s_pending (Server.server_side wired client) w = (set_peer p1 w, pend)).
  { simpl. unfold below. by rewrite Hst. }
  rewrite (message_handler_parsed _ _ _ _ _ _ _ _ _ Hraw Hp). pose proof HP as HP'. simpl in HP' |- *. rewrite HP'.
  destruct (handle_call_log K validationEnabled EscapeHTML (Server.server_side wired client)
    (on_request K validationEnabled EscapeHTML dyn_type texts_for s base f client) c (set_peer p1 w) eq_refl)
    as (w' & l & Hc & Hl).
  destruct (on_request_answers client (Payload c) (UniqueId c) (Action c) (set_peer p1 w)
    (parsed_error_frame K validationEnabled EscapeHTML _ _ _ _ He HP)) as (w2 & Ho & Ha).
  rewrite Ho in Hl. destruct Hl as [-> ->]. exists w2. split; [exact (then_none _ _ _ _ _ _ Hc)|exact Ha].
Qed.
End server.

Section client.
Context {P Request Response CB : Type} `{!ClientEnv P Request}.
Context (K : codec string Request Response) (validationEnabled EscapeHTML : bool) (dyn_type : Request → string).
Context (quote : string → string).
Abbreviation W := (world P Request CB (message Request Response)).
Context (run_cb : CB → option Response → option error → W → W * outcome unit).
Context (t : texts) (s : spec) (no_response : string → string) (no_error : error → error) (d : Dialect).
Context (cl : Client.Client string Request Response W) (f : client_facade P Request Response CB).

Abbreviation wired := (wire_client quote d cl f).
Abbreviation run :=
  (run_message K validationEnabled EscapeHTML dyn_type run_cb t s no_response no_error wired f).

Lemma client_call_forwarded data arr (c : Call Request) (w : W) :
  ParseRawJsonMessage (c_Unmarshal K) data = inl arr →
  ParseMessage_ K (Client.endpoint wired) arr (ce_RequestState w) = Parsed (MCall c) →
  Client.ocppMessageHandler K validationEnabled EscapeHTML wired data w =
    (preemptible (spawn (InRequest (Payload c) (UniqueId c) (Action c))) w, [EvInvoke RequestHandlerKind "" (UniqueId c)], Done None).
Proof.
  intros Hraw HP. unfold Client.ocppMessageHandler.
  rewrite (message_handler_parsed K validationEnabled EscapeHTML (Client.client_side wired) data arr w w (ce_RequestState w) Hraw eq_refl). simpl in HP |- *. rewrite HP.
  destruct (handle_call_log K validationEnabled EscapeHTML (Client.client_side wired) forward_request c w eq_refl)
    as (w' & l & Hc & Hl). destruct Hl as [-> ->]. exact (then_none _ _ _ _ _ _ Hc).
Qed.

Lemma client_message_replies request id action :
  (∀ data p, (ce_Write data p : P * option error).2 = None) →
  (∀ code desc, IsErrorCodeValid code = true →
     ∃ data, error_frame K validationEnabled EscapeHTML id code desc None = inl data) →
  d ≠ DialectUnset →
  replies K validationEnabled EscapeHTML (Client.client_side wired) id (run (InRequest request id action)).
Proof.
  intros Hw He Hd. apply handle_request_replies; [|done..].
  intros data w. simpl. unfold below. specialize (Hw data (w_peer w)). by destruct (ce_Write data (w_peer w)).
Qed.

Lemma wired_client_answers :
  (∀ data p, (ce_Write data p : P * option error).2 = None) →
  errors_encodable K EscapeHTML → d ≠ DialectUnset → client_answers K validationEnabled EscapeHTML wired run.
Proof.
  intros Hw He Hd data arr c w Hraw HP. eexists. split; [exact (client_call_forwarded _ _ _ _ Hraw HP)|].
  unfold preemptible. destruct (stop_taken w); [done|]. eexists. split; [done|]. split; [done|].
  apply client_message_replies; [done| |done]. by eapply parsed_error_frame.
Qed.

(** The response of the request [id] reaches the callback registered for it. *)
Lemma message_runs_callback resp id cb (w : W) :
  lookup_cb "main" id (w_callbacks w) = Some cb →
  ∃ w1, lookup_cb "main" id (w_callbacks w1) = None ∧
    match run_cb cb (Some resp) None w1 with
    | (w2, Done _) => run (InResponse (Some resp) id) w = (w2, [EvInvoke ResponseHandlerKind "" id], Done tt)
    | (_, Panicked v) => ∃ w2, run (InResponse (Some resp) id) w =
        (w2, [EvInvoke ResponseHandlerKind "" id;
              EvReport (mkHandlerPanic "" ResponseHandlerKind (c_response_feature K resp) "" v)], Done tt)
    end.
Proof.
  intros Hcb. destruct (dequeue_run (Request := Request) w_callbacks (@set_queue P Request CB (message Request Response))
    ltac:(done) "main" id w) as (w1 & Hd & Hl). rewrite Hcb in Hd.
  exists w1. split; [by rewrite Hl, decide_True|]. simpl. unfold deliver_response.
  rewrite (bind_done _ _ _ _ _ _ Hd).
  pose proof (guarded_callback_runs K validationEnabled EscapeHTML run_cb (Client.client_side wired) ResponseHandlerKind
    (c_response_feature K resp) "" id cb (Some resp) None w1) as Hr.
  destruct (run_cb cb (Some resp) None w1) as [w2 [[]|v]]; [by rewrite Hr|].
  destruct Hr as [w3 ->]. by exists w3.
Qed.

(** A response whose completion is won is put into the channel, unless the select
    takes the arm of the closed stop channel. *)
Lemma client_result_forwarded resp resp' (r : Request) id (cr : CallResult Response) reply (w : W) (e : @Endpoint string) :
  json_codec_ok (c_Unmarshal K) (c_Encode K) → Profiles e = Profiles (Client.endpoint cl) →
  response_reads (c_decode_response K) (c_encode_response K) e (c_request_feature K r) resp resp' →
  c_response_feature K resp = c_request_feature K r → id ≠ "" →
  CreateCallResult (c_response_feature K) (c_validate_result K) true e resp id = inl cr →
  CallResult_MarshalJSON (c_Encode K) (c_encode_response K) EscapeHTML cr = inl reply →
  json_exact (JArr (CallResult_fields (c_encode_response K) cr)) = true →
  c_validate_result K (mkCallResult CALL_RESULT id (Some resp')) = [] →
  ClientState.GetPendingRequest id (ce_RequestState w) = Some (Some r) → (ce_CompleteRequest id w).2 = true →
  ∃ w', Client.ocppMessageHandler K validationEnabled EscapeHTML wired reply w =
          (w', [EvCompleted "" id true; EvInvoke ResponseHandlerKind "" id], Done None) ∧
        w_go w' = w_go w ++ (if stop_taken w then [] else [InResponse (Some resp') id]) ∧
        w_callbacks w' = w_callbacks w.
Proof.
  intros Hj Hpr Hr Hf Hid Hc Hm Hx Hv Hp Hwon.
  destruct (receive_result K EscapeHTML EscapeHTML validationEnabled (Client.client_side wired) e resp resp' r id cr reply
    w w (ce_RequestState w) Hj Hr Hid Hpr Hf Hc Hm Hx Hv eq_refl Hp) as (w' & l & Hh & Hl).
  unfold completion_log in Hl. simpl in Hl, Hwon. unfold below in *.
  destruct (ce_CompleteRequest id (w_peer w)) as [p won]. simpl in Hwon. subst won. simpl in Hl.
  unfold preemptible, stop_taken in *. simpl in Hl.
  destruct (match w_stopC w with Some (true :: _) => true | _ => false end) eqn:Hst;
    simplify_eq; eexists; (split; [exact Hh|]); by rewrite ?app_nil_r.
Qed.
End client.

(** ** From a facade to the other side's and back *)

Section call.
Context {P1 P2 Request Response CB1 CB2 : Type} `{!ClientEnv P1 Request, !ServerEnv P2 Request}.
Context (K : codec string Request Response) (EscapeHTML : bool) (dyn_type : Request → string).
Context (quote : string → string).
Abbreviation W1 := (world P1 Request CB1 (message Request Response)).
Abbreviation W2 := (world P2 Request CB2 (goroutine Request Response CB2)).
Context (run_cb1 : CB1 → option Response → option error → W1 → W1 * outcome unit).
Context (run_cb2 : CB2 → option Response → option error → W2 → W2 * outcome unit).

(** The exchange of the request [r], sent by [cp] with the outcome [out], for the
    response [resp] that goes out as [reply]: the request's bytes make the server
    start one goroutine for what is read from them, [r'], and this goroutine writes
    the reply and nothing else; the reply, when it completes the pending request, is
    put into the client's channel as [resp'] is read from it, or dropped if the stop
    channel is closed and its arm is taken; taking it from the channel runs the
    callback of this request with this response. *)
Definition exchanged (cp : Client.Client string Request Response W1) (cs : Server.Server string Request Response W2)
    (run1 : message Request Response → M W1 (pevent Request) unit)
    (run2 : goroutine Request Response CB2 → M W2 (pevent Request) unit)
    (client : string) (r r' : Request) (resp' : Response) (cb : CB1) (l : list (pevent Request)) (w1 : W1) : Prop :=
  ∃ id call data reply,
    (∃ c, l = [EvEnqueue "" (mkBundle (Some call) (Some data) (Some c)) None]) ∧ UniqueId call = id ∧
    lookup_cb "main" id (w_callbacks w1) = Some cb ∧
    (∀ w2 : W2, ∃ w2', let g := GoRequest client (Some r') id (c_request_feature K r) in
       Server.ocppMessageHandler K true EscapeHTML cs client data w2 =
         (w2', [EvInvoke RequestHandlerKind client id], Done None) ∧
       w_log w2' = w_log w2 ∧ w_go w2' = w_go w2 ++ [g] ∧
       ∀ w3, ∃ w3', run2 g w3 =
         (w3', [EvInvoke RequestHandlerKind client id; EvSent client reply None], Done tt)) ∧
    (∀ w4 : W1, ClientState.GetPendingRequest id (ce_RequestState w4) = Some (Some r) →
       (ce_CompleteRequest id w4).2 = true →
       ∃ w4', Client.ocppMessageHandler K true EscapeHTML cp reply w4 =
                (w4', [EvCompleted "" id true; EvInvoke ResponseHandlerKind "" id], Done None) ∧
              w_go w4' = w_go w4 ++ (if stop_taken w4 then [] else [InResponse (Some resp') id]) ∧
              w_callbacks w4' = w_callbacks w4) ∧
    (∀ w5 : W1, lookup_cb "main" id (w_callbacks w5) = Some cb →
       ∃ w6, lookup_cb "main" id (w_callbacks w6) = None ∧
         match run_cb1 cb (Some resp') None w6 with
         | (w7, Done _) => run1 (InResponse (Some resp') id) w5 = (w7, [EvInvoke ResponseHandlerKind "" id], Done tt)
         | (_, Panicked v) => ∃ w7, run1 (InResponse (Some resp') id) w5 =
             (w7, [EvInvoke ResponseHandlerKind "" id;
                   EvReport (mkHandlerPanic "" ResponseHandlerKind (c_response_feature K resp') "" v)], Done tt)
         end).

Section generic.
Context (t : texts) (s1 : spec) (no_response : string → string) (no_error : error → error).
Context (texts_for : string → texts) (s2 : spec) (d : Dialect) (profiles : list (Profile string)).
Context (cl : Client.Client string Request Response W1) (fc : client_facade P1 Request Response CB1).
Context (srv : Server.Server string Request Response W2) (fs : server_facade P2 Request Response CB2).
Context (codec_ok : json_codec_ok (c_Unmarshal K) (c_Encode K)).
Context (writes_ok : ∀ c data p, (se_Write c data p : P2 * option error).2 = None).
Context (ids_ok : ∀ p : P1, ValidString (ce_generateId p).2 = true).
Context (cl_profiles : Profiles (Client.endpoint cl) = profiles) (srv_profiles : Profiles (Server.endpoint srv) = profiles).
Context (tables_ok : forallb (case_ok profiles s2) (cases s2) = true).

Abbreviation cp := (wire_client quote d cl fc).
Abbreviation cs := (wire_server K true EscapeHTML dyn_type quote run_cb2 texts_for s2 d srv fs).
Abbreviation base := (hooked quote d srv fs).

(** A request whose action has a case and a handler is processed. *)
Lemma screen_passes client id action c :
  find_case action (cases s2) = Some c → is_Some (sf_handlers fs (case_profile c)) →
  screen K true EscapeHTML server_error (texts_for client) s2 (sf_handlers fs) (Server.server_side base client) id action
    = None.
Proof.
  intros Hc Hh. apply find_case_in in Hc as [Hin Ha]. rewrite forallb_forall in tables_ok.
  specialize (tables_ok c (proj1 (list_elem_of_In _ _) Hin)). unfold case_ok in tables_ok.
  rewrite Ha, (GetProfileForFeature_Profiles _ (Server.endpoint base)) in tables_ok by (by simpl; rewrite srv_profiles).
  unfold screen. simpl in tables_ok |- *. destruct (GetProfileForFeature _ _) as [p|]; [|done].
  apply andb_prop in tables_ok as [[Hn Hg]%andb_prop _]. apply bool_decide_eq_true in Hn. rewrite Hn.
  by rewrite (bool_decide_eq_true_2 _ Hh), andb_false_r.
Qed.

(** The goroutine of a request whose handler returns [resp]. *)
Lemma request_goroutine_writes client r id action c h resp cr reply w :
  find_case action (cases s2) = Some c → sf_handlers fs (case_profile c) = Some h → dyn_type r = case_type c →
  (∀ w, ∃ w', h action r w = (w', Done (Some resp, None))) →
  CreateCallResult (c_response_feature K) (c_validate_result K) true (Server.endpoint base) resp id = inl cr →
  CallResult_MarshalJSON (c_Encode K) (c_encode_response K) EscapeHTML cr = inl reply →
  ∃ w', run_go K true EscapeHTML dyn_type run_cb2 texts_for s2 cs fs (GoRequest client (Some r) id action) w =
          (w', [EvInvoke RequestHandlerKind client id; EvSent client reply None], Done tt).
Proof.
  intros Hc Hh Hty Hr Hcr Hm. simpl. unfold recover_goroutine.
  assert (∃ w', process K true EscapeHTML dyn_type server_error (texts_for client) s2 (sf_handlers fs)
    (Server.server_side cs client) (Some r) id action w =
    (w', [EvInvoke RequestHandlerKind client id; EvSent client reply None], Done tt)) as [w' Hp].
  { unfold process. rewrite Hc, Hh, decide_True by done.
    destruct (Hr w) as [w1 Hw1]. unfold mbind, M_bind, tell, invoke. rewrite Hw1. simpl.
    unfold send_response. simpl. simpl in Hcr. rewrite Hcr, Hm. unfold mbind, M_bind, call, mret, M_ret. simpl.
    unfold below. specialize (writes_ok client reply (w_peer w1)).
    destruct (se_Write client reply (w_peer w1)) as [p err]. simpl in writes_ok. subst err. simpl. by eexists. }
  rewrite (recovering_done _ _ _ _ _ _ Hp). by eexists.
Qed.

(** The call: [r'] and [resp'] are what the decoder reads for the request and the
    response, the request's action has a case and a handler that answers what is
    read with this response; under every id with which the request is valid, what is
    read is valid, and the response is valid and can be carried. *)
Definition call_ok (r r' : Request) (resp resp' : Response) : Prop :=
  let action := c_request_feature K r in
  request_reads (c_request_feature K) (c_decode_request K) (c_encode_request K) (Client.endpoint cl) r r' ∧
  response_reads (c_decode_response K) (c_encode_response K) (Server.endpoint srv) action resp resp' ∧
  c_response_feature K resp = action ∧
  (∃ c h, find_case action (cases s2) = Some c ∧ sf_handlers fs (case_profile c) = Some h ∧ dyn_type r' = case_type c ∧
     ∀ w, ∃ w', h action r' w = (w', Done (Some resp, None))) ∧
  (∀ id, ValidString id = true → c_validate_call K (mkCall CALL id action (Some r)) = [] →
     let cr := mkCallResult CALL_RESULT id (Some resp) in
     json_exact (JArr (Call_fields (c_encode_request K) (mkCall CALL id action (Some r)))) = true ∧
     c_validate_call K (mkCall CALL id action (Some r')) = [] ∧ c_validate_result K cr = [] ∧
     json_exact (JArr (CallResult_fields (c_encode_response K) cr)) = true ∧
     c_validate_result K (mkCallResult CALL_RESULT id (Some resp')) = [] ∧
     ∃ reply, CallResult_MarshalJSON (c_Encode K) (c_encode_response K) EscapeHTML cr = inl reply).

(** The response is created for a request that was. *)
Lemma result_created r id call resp :
  CreateCall (c_request_feature K) (c_validate_call K) true (Client.endpoint cl) r id = inl call →
  c_response_feature K resp = c_request_feature K r →
  c_validate_result K (mkCallResult CALL_RESULT id (Some resp)) = [] →
  CreateCallResult (c_response_feature K) (c_validate_result K) true (Server.endpoint srv) resp id =
    inl (mkCallResult CALL_RESULT id (Some resp)).
Proof.
  unfold CreateCall, CreateCallResult. intros Hc Hf Hv. rewrite Hf.
  rewrite <-(GetProfileForFeature_Profiles (Client.endpoint cl)) by (by rewrite cl_profiles).
  destruct (GetProfileForFeature _ _); [|done]. unfold validated. by rewrite Hv.
Qed.

Lemma exchange client ctx0 r r' resp resp' cb (w w1 : W1) l :
  call_ok r r' resp resp' →
  send_async K w_callbacks set_queue t s1 (Client.endpoint cp) "main" (c_request_feature K r)
    (Client.SendRequestCtx K true EscapeHTML cp ctx0 r) cb w = (w1, l, Done None) →
  exchanged cp cs (run_message K true EscapeHTML dyn_type run_cb1 t s1 no_response no_error cp fc)
    (run_go K true EscapeHTML dyn_type run_cb2 texts_for s2 cs fs) client r r' resp' cb l w1.
Proof.
  intros (Hreq & Hresp & Hf & (c & h & Hc & Hh & Hty & Hret) & Hframe) Hs.
  apply send_async_run in Hs as [Hs _]. apply try_queue_run in Hs as (w0 & id & Hsend & Hid & Hl); [|done].
  unfold Client.SendRequestCtx in Hsend. pose proof (send_request_id _ _ _ _ _ _ _ _ _ _ _ _ _ _ Hsend) as Hgen.
  destruct (send_request_done _ _ _ _ _ _ _ _ _ _ _ _ _ _ Hsend) as (call & data & -> & _ & Hcall & Hcc & Hcm).
  pose proof (created_call _ _ _ _ _ _ Hcc) as Ecall.
  destruct (Hframe id) as (Hx & Hv' & Hrv & Hrx & Hrv' & reply & Hrm).
  { rewrite Hgen. simpl. unfold below. specialize (ids_ok (w_peer w)). by destruct (ce_generateId (w_peer w)). }
  { unfold CreateCall in Hcc. destruct (GetProfileForFeature _ _); [|done]. by apply validated_ok in Hcc as [_ ?]. }
  pose proof (result_created r id call resp Hcc Hf Hrv) as Hcr. subst call.
  exists id, (mkCall CALL id (c_request_feature K r) (Some r)), data, reply.
  split; [by eexists|]. split; [done|]. split; [by rewrite Hl, decide_True|]. split_and!.
  - intros w2. destruct (se_GetClientState client (w_peer w2)) as [p1 pend] eqn:Hst.
    assert (Hpe : s_pending (Server.server_side cs client) w2 = (set_peer p1 w2, pend)) by (simpl; unfold below; by rewrite Hst).
    destruct (receive_call K EscapeHTML EscapeHTML true (Server.server_side cs client)
      (on_request K true EscapeHTML dyn_type texts_for s2 base fs client) (Client.endpoint cp) r r' id _ data w2
      (set_peer p1 w2) pend codec_ok Hreq Hid (eq_trans cl_profiles (eq_sym srv_profiles)) Hcc Hcm Hx Hv' eq_refl Hpe)
      as (w2' & l2 & Hm & Hon).
    unfold on_request, as_handler, start_request in Hon. rewrite (screen_passes _ _ _ c) in Hon by (done || by eexists).
    simpl in Hon. destruct Hon as [-> ->]. eexists. split; [exact Hm|]. simpl. rewrite app_nil_r.
    split; [done|]. split; [done|]. intros w3. eapply request_goroutine_writes; try done.
  - intros w4 Hp Hwon. eapply (client_result_forwarded K true EscapeHTML quote d cl fc resp resp' r id _ reply w4
      (Server.endpoint srv)); try done. by rewrite cl_profiles, srv_profiles.
  - intros w5 Hcb. by apply message_runs_callback.
Qed.
End generic.
End call.

(** ** Properties *)

Section properties.
Context {P1 P2 Request Response CB1 CB2 : Type} `{!ClientEnv P1 Request, !ServerEnv P2 Request}.
Context (K : codec string Request Response) (validationEnabled EscapeHTML : bool) (dyn_type : Request → string).
Context (quote : string → string).
Abbreviation W1 := (world P1 Request CB1 (message Request Response)).
Abbreviation W2 := (world P2 Request CB2 (goroutine Request Response CB2)).
Context (run_cb1 : CB1 → option Response → option error → W1 → W1 * outcome unit).
Context (run_cb2 : CB2 → option Response → option error → W2 → W2 * outcome unit).

(** C11: bytes that parse as a request, arriving at the endpoint of a charge point
    or a charging station as its constructor has wired it, are put into the
    handler's channel, and handling them writes exactly one CALL RESULT or CALL
    ERROR for the request's id, whatever the user's handlers do (return a response,
    nil, an error, an invalid response, panic) and whether or not one is set.
    Conditions: the writes to the socket succeed, and the validator and the encoder
    behave as [errors_encodable] says.  Once the stop channel of the generation is
    closed the select may take that arm instead, and the request is dropped without
    a reply. *)
Theorem wired_clients_answer (id : string) endpoint (f : client_facade P1 Request Response CB1) (p : P1) :
  (∀ data p, (ce_Write data p : P1 * option error).2 = None) →
  errors_encodable K EscapeHTML →
  (let cp := (ChargePointWiring.NewChargePoint quote id endpoint f p).1 in
   client_answers K validationEnabled EscapeHTML cp
     (ChargePointWiring.run K validationEnabled EscapeHTML dyn_type run_cb1 cp f)) ∧
  (let cp := (ChargingStationWiring.NewChargingStation quote id endpoint f p).1 in
   client_answers K validationEnabled EscapeHTML cp
     (ChargingStationWiring.run K validationEnabled EscapeHTML dyn_type run_cb1 cp f)).
Proof. intros Hw He. split; by apply wired_client_answers. Qed.

(** C12: bytes of a client that parse as a request, arriving at the endpoint of a
    central system or a CSMS as its constructor has wired it, are answered with
    exactly one CALL RESULT or CALL ERROR for the request's id to that client: at
    once, or by the one goroutine the facade starts for it, whatever the user's
    handlers do and whatever the state of the facade is, as long as the writes to
    the socket succeed and the validator and the encoder behave as
    [errors_encodable] says. *)
Theorem wired_servers_answer endpoint (f : server_facade P2 Request Response CB2) (p : P2) :
  (∀ c data p, (se_Write c data p : P2 * option error).2 = None) →
  errors_encodable K EscapeHTML →
  (let cs := (CentralSystemWiring.NewCentralSystem K validationEnabled EscapeHTML dyn_type quote run_cb2 endpoint f p).1 in
   server_answers K validationEnabled EscapeHTML cs
     (CentralSystemWiring.run K validationEnabled EscapeHTML dyn_type run_cb2 cs f)) ∧
  (let cs := (CSMSWiring.NewCSMS K validationEnabled EscapeHTML dyn_type quote run_cb2 endpoint f p).1 in
   server_answers K validationEnabled EscapeHTML cs
     (CSMSWiring.run K validationEnabled EscapeHTML dyn_type run_cb2 cs f)).
Proof. intros Hw He. split; by apply wired_server_answers. Qed.
End properties.

(** Every profile a facade checks for a handler has exactly one setter, and there
    is no setter for any other. *)
Theorem settable_guards :
  (NoDup ChargePointWiring.settable ∧ ∀ p, p ∈ ChargePointWiring.settable ↔ p ∈ guards V16.charge_point) ∧
  (NoDup CentralSystemWiring.settable ∧ ∀ p, p ∈ CentralSystemWiring.settable ↔ p ∈ guards V16.central_system) ∧
  (NoDup ChargingStationWiring.settable ∧ ∀ p, p ∈ ChargingStationWiring.settable ↔ p ∈ guards V201.charging_station) ∧
  (NoDup CSMSWiring.settable ∧ ∀ p, p ∈ CSMSWiring.settable ↔ p ∈ guards V201.csms).
Proof.
  assert (H : ∀ l1 l2 : list string, same_set l1 l2 = true → ∀ p, p ∈ l1 ↔ p ∈ l2).
  { intros l1 l2 [H1 H2]%andb_prop p. rewrite forallb_forall in H1, H2.
    split; intros Hp%list_elem_of_In; [apply H1 in Hp|apply H2 in Hp]; by apply bool_decide_eq_true in Hp. }
  split_and!; (apply (bool_decide_unpack _); vm_compute; exact I) || (apply H; vm_compute; reflexivity).
Qed.

(** ** A charge point and a central system *)

Module WiringDemo.
(** Requests and responses are known by their type. *)
Definition feature (r : string) : string :=
  if decide (r = "core.BootNotificationRequest") then "BootNotification" else "Heartbeat".
Definition reply_feature (_ : string) : string := "Heartbeat".
Definition never (_ : list FieldError) : string := "".

(** A codec that renders every message and reads every text as one request; the
    validator accepts ids of at most 36 bytes. *)
Definition K : codec string string string :=
  mkCodec feature reply_feature
    (λ _, inl (JArr [int_json 2; JStr "7"; JStr "BootNotification"; JObj []])) (λ _ j, inl (FacadeDemo.render j))
    (λ _ ty, inl ty) (λ _ ty, inl ty) (λ r, JStr r) (λ r, JStr r) Demo.vcall Demo.vresult Demo.verror never (λ _, "")
    (λ _, 0%Z) (λ _, "").

Abbreviation cworld := (world (client_world string) string nat (message string string)).
Abbreviation sworld := (world (server_world string) string nat (goroutine string string nat)).
Definition quiet {W : Type} (_ : nat) (_ : option string) (_ : option error) (w : W) : W * outcome unit := (w, Done tt).
(** A core handler that panics on a boot notification and answers a heartbeat. *)
Definition core_handler {W : Type} : @profile_handler string string W := λ action _ w,
  (w, if decide (action = "Heartbeat") then Done (Some "core.HeartbeatConfirmation", None)
      else Panicked (PanicString "boom")).
Definition quote (s : string) : string := s.
Definition fc : client_facade (client_world string) string string nat :=
  ChargePointWiring.SetCoreHandler (Some core_handler) empty_client_facade.
Definition fs : server_facade (server_world string) string string nat :=
  CentralSystemWiring.SetCoreHandler (Some core_handler) empty_server_facade.
Definition p2 : server_world string := fw_peer FacadeDemo.started.
Definition cp := ChargePointWiring.NewChargePoint quote "cp1" None fc PeerDemo.cw0.
Definition cs := CentralSystemWiring.NewCentralSystem K true false id quote quiet None fs p2.

Lemma errors_ok : errors_encodable K false.
Proof. split; [by intros c code desc Hc _|]. intros. eexists. reflexivity. Qed.
End WiringDemo.
Import WiringDemo.

Lemma wired_clients_answer_witness :
  (∃ w' m, Client.ocppMessageHandler K true false cp.1 "" cp.2 =
             (w', [EvInvoke RequestHandlerKind "" "7"], Done None) ∧
           w_log w' = [] ∧ w_go w' = [m] ∧
           replies K true false (Client.client_side cp.1) "7"
             (ChargePointWiring.run K true false id quiet cp.1 fc m)) ∧
  Client.ocppMessageHandler K true false cp.1 "" (set_stop (Some [true]) cp.2) =
    (set_stop (Some []) cp.2, [EvInvoke RequestHandlerKind "" "7"], Done None).
Proof.
  pose proof (proj1 (wired_clients_answer K true false id quote quiet "cp1" None fc PeerDemo.cw0 ltac:(done)
    errors_ok)) as H.
  set (c := mkCall CALL "7" "BootNotification" (Some "core.BootNotificationRequest")).
  split.
  - destruct (H "" _ c cp.2 eq_refl ltac:(vm_compute; reflexivity)) as (w' & Hh & m & Hm).
    exists w', m. split; [exact Hh|exact Hm].
  - destruct (H "" _ c (set_stop (Some [true]) cp.2) eq_refl ltac:(vm_compute; reflexivity)) as (w' & Hh & E).
    simpl in E. subst w'. exact Hh.
Defined.

Lemma wired_servers_answer_witness :
  ∃ w', Server.ocppMessageHandler K true false cs.1 "cp1" "" cs.2 =
          (w', [EvInvoke RequestHandlerKind "cp1" "7"], Done None) ∧
        answered_once K true false cs.1 (CentralSystemWiring.run K true false id quiet cs.1 fs) "cp1" "7"
          cs.2 w'.
Proof.
  exact (proj1 (wired_servers_answer K true false id quote quiet None fs p2 ltac:(done) errors_ok) "cp1" "" _ _ _
    (mkCall CALL "7" "BootNotification" (Some "core.BootNotificationRequest"))
    cs.2 eq_refl (surjective_pairing _) ltac:(vm_compute; reflexivity)).
Defined.
