(* ===== verification/Wrappers.v ===== *)
(** * The typed API of the facades

    One method per message (src/ocpp1.6/charge_point.go, central_system.go,
    src/ocpp2.0.1/charging_station.go, csms.go): it builds the request, applies
    the caller's option functions, sends it, and asserts the type of the
    response.  A [wrapper] names the type of the request its constructor returns
    and the type it asserts; [sync_call] is the body of the client side methods,
    [async_call] with [generic_callback] that of the server side ones. *)

From S2P Require Import Prelude Ocpp Errors State Message Endpoint Panic Peer PeerTheorems Facade Services.
Local Open Scope string_scope.
Local Open Scope list_scope.

Record wrapper := mkWrapper { w_request : string; w_response : string }.

Section calls.
Context {Request Response W E : Type} (resp_type : Response → string).
Abbreviation handler := (W → W * outcome unit).

Definition apply_props (props : list (Request → Request)) (request : Request) : Request :=
  foldl (λ r fn, fn r) request props.

(** [request] is what the constructor returns; a type assertion on a nil
    interface panics as well. *)
Definition sync_call (SendRequest : Request → M W E (option Response * option error)) (m : wrapper)
    (request : Request) (props : list (Request → Request)) : M W E (option Response * option error) :=
  r ← SendRequest (apply_props props request);
  match r.2 with
  | Some err => mret (None, Some err)
  | None => match r.1 with
            | Some c => if decide (resp_type c = w_response m) then mret (Some c, None)
                        else panic (type_assertion (w_response m))
            | None => panic (type_assertion (w_response m))
            end
  end.

Definition generic_callback (m : wrapper) (callback : option Response → option error → handler)
    (confirmation : option Response) (protoError : option error) : handler := λ w,
  match confirmation with
  | Some c => if decide (resp_type c = w_response m) then callback (Some c) protoError w
              else (w, Panicked (type_assertion (w_response m)))
  | None => callback None protoError w
  end.

Definition async_call {A : Type}
    (SendRequestAsync : string → Request → (option Response → option error → handler) → M W E A) (m : wrapper)
    (clientId : string) (callback : option Response → option error → handler) (request : Request)
    (props : list (Request → Request)) : M W E A :=
  SendRequestAsync clientId (apply_props props request) (generic_callback m callback).
End calls.

Module ChargePointAPI.
Definition BootNotification : wrapper := mkWrapper "core.BootNotificationRequest" "core.BootNotificationConfirmation".
Definition Authorize : wrapper := mkWrapper "core.AuthorizeRequest" "core.AuthorizeConfirmation".
Definition DataTransfer : wrapper := mkWrapper "core.DataTransferRequest" "core.DataTransferConfirmation".
Definition Heartbeat : wrapper := mkWrapper "core.HeartbeatRequest" "core.HeartbeatConfirmation".
Definition MeterValues : wrapper := mkWrapper "core.MeterValuesRequest" "core.MeterValuesConfirmation".
Definition StartTransaction : wrapper := mkWrapper "core.StartTransactionRequest" "core.StartTransactionConfirmation".
Definition StopTransaction : wrapper := mkWrapper "core.StopTransactionRequest" "core.StopTransactionConfirmation".
Definition StatusNotification : wrapper := mkWrapper "core.StatusNotificationRequest" "core.StatusNotificationConfirmation".
Definition DiagnosticsStatusNotification : wrapper := mkWrapper "firmware.DiagnosticsStatusNotificationRequest" "firmware.DiagnosticsStatusNotificationConfirmation".
Definition FirmwareStatusNotification : wrapper := mkWrapper "firmware.FirmwareStatusNotificationRequest" "firmware.FirmwareStatusNotificationConfirmation".
Definition SecurityEventNotification : wrapper := mkWrapper "security.SecurityEventNotificationRequest" "security.SecurityEventNotificationResponse".
Definition SignCertificate : wrapper := mkWrapper "security.SignCertificateRequest" "security.SignCertificateResponse".
Definition SignedUpdateFirmwareStatusNotification : wrapper := mkWrapper "securefirmware.SignedFirmwareStatusNotificationRequest" "securefirmware.SignedFirmwareStatusNotificationResponse".
Definition LogStatusNotification : wrapper := mkWrapper "logging.LogStatusNotificationRequest" "logging.LogStatusNotificationResponse".

Definition wrappers : list wrapper :=
  [BootNotification; Authorize; DataTransfer; Heartbeat; MeterValues; StartTransaction; StopTransaction;
   StatusNotification; DiagnosticsStatusNotification; FirmwareStatusNotification; SecurityEventNotification;
   SignCertificate; SignedUpdateFirmwareStatusNotification; LogStatusNotification].
End ChargePointAPI.

Module CentralSystemAPI.
Definition ChangeAvailability : wrapper := mkWrapper "core.ChangeAvailabilityRequest" "core.ChangeAvailabilityConfirmation".
Definition ChangeConfiguration : wrapper := mkWrapper "core.ChangeConfigurationRequest" "core.ChangeConfigurationConfirmation".
Definition ClearCache : wrapper := mkWrapper "core.ClearCacheRequest" "core.ClearCacheConfirmation".
Definition DataTransfer : wrapper := mkWrapper "core.DataTransferRequest" "core.DataTransferConfirmation".
Definition GetConfiguration : wrapper := mkWrapper "core.GetConfigurationRequest" "core.GetConfigurationConfirmation".
Definition RemoteStartTransaction : wrapper := mkWrapper "core.RemoteStartTransactionRequest" "core.RemoteStartTransactionConfirmation".
Definition RemoteStopTransaction : wrapper := mkWrapper "core.RemoteStopTransactionRequest" "core.RemoteStopTransactionConfirmation".
Definition Reset : wrapper := mkWrapper "core.ResetRequest" "core.ResetConfirmation".
Definition UnlockConnector : wrapper := mkWrapper "core.UnlockConnectorRequest" "core.UnlockConnectorConfirmation".
Definition GetLocalListVersion : wrapper := mkWrapper "localauth.GetLocalListVersionRequest" "localauth.GetLocalListVersionConfirmation".
Definition SendLocalList : wrapper := mkWrapper "localauth.SendLocalListRequest" "localauth.SendLocalListConfirmation".
Definition GetDiagnostics : wrapper := mkWrapper "firmware.GetDiagnosticsRequest" "firmware.GetDiagnosticsConfirmation".
Definition UpdateFirmware : wrapper := mkWrapper "firmware.UpdateFirmwareRequest" "firmware.UpdateFirmwareConfirmation".
Definition ReserveNow : wrapper := mkWrapper "reservation.ReserveNowRequest" "reservation.ReserveNowConfirmation".
Definition CancelReservation : wrapper := mkWrapper "reservation.CancelReservationRequest" "reservation.CancelReservationConfirmation".
Definition TriggerMessage : wrapper := mkWrapper "remotetrigger.TriggerMessageRequest" "remotetrigger.TriggerMessageConfirmation".
Definition SetChargingProfile : wrapper := mkWrapper "smartcharging.SetChargingProfileRequest" "smartcharging.SetChargingProfileConfirmation".
Definition ClearChargingProfile : wrapper := mkWrapper "smartcharging.ClearChargingProfileRequest" "smartcharging.ClearChargingProfileConfirmation".
Definition GetCompositeSchedule : wrapper := mkWrapper "smartcharging.GetCompositeScheduleRequest" "smartcharging.GetCompositeScheduleConfirmation".
Definition TriggerMessageExtended : wrapper := mkWrapper "extendedtriggermessage.ExtendedTriggerMessageRequest" "extendedtriggermessage.ExtendedTriggerMessageResponse".
Definition CertificateSigned : wrapper := mkWrapper "security.CertificateSignedRequest" "security.CertificateSignedResponse".
Definition SignedUpdateFirmware : wrapper := mkWrapper "securefirmware.SignedUpdateFirmwareRequest" "securefirmware.SignedUpdateFirmwareResponse".
Definition GetInstalledCertificateIds : wrapper := mkWrapper "certificates.GetInstalledCertificateIdsRequest" "certificates.GetInstalledCertificateIdsResponse".
Definition InstallCertificate : wrapper := mkWrapper "certificates.InstallCertificateRequest" "certificates.InstallCertificateResponse".
Definition DeleteCertificate : wrapper := mkWrapper "certificates.DeleteCertificateRequest" "certificates.DeleteCertificateResponse".
Definition GetLog : wrapper := mkWrapper "logging.GetLogRequest" "logging.GetLogResponse".

Definition wrappers : list wrapper :=
  [ChangeAvailability; ChangeConfiguration; ClearCache; DataTransfer; GetConfiguration;
   RemoteStartTransaction; RemoteStopTransaction; Reset; UnlockConnector; GetLocalListVersion;
   SendLocalList; GetDiagnostics; UpdateFirmware; ReserveNow; CancelReservation; TriggerMessage;
   SetChargingProfile; ClearChargingProfile; GetCompositeSchedule; TriggerMessageExtended;
   CertificateSigned; SignedUpdateFirmware; GetInstalledCertificateIds; InstallCertificate;
   DeleteCertificate; GetLog].
End CentralSystemAPI.

Module ChargingStationAPI.
Definition BootNotification : wrapper := mkWrapper "provisioning.BootNotificationRequest" "provisioning.BootNotificationResponse".
Definition Authorize : wrapper := mkWrapper "authorization.AuthorizeRequest" "authorization.AuthorizeResponse".
Definition ClearedChargingLimit : wrapper := mkWrapper "smartcharging.ClearedChargingLimitRequest" "smartcharging.ClearedChargingLimitResponse".
Definition DataTransfer : wrapper := mkWrapper "data.DataTransferRequest" "data.DataTransferResponse".
Definition FirmwareStatusNotification : wrapper := mkWrapper "firmware.FirmwareStatusNotificationRequest" "firmware.FirmwareStatusNotificationResponse".
Definition Get15118EVCertificate : wrapper := mkWrapper "iso15118.Get15118EVCertificateRequest" "iso15118.Get15118EVCertificateResponse".
Definition GetCertificateStatus : wrapper := mkWrapper "iso15118.GetCertificateStatusRequest" "iso15118.GetCertificateStatusResponse".
Definition Heartbeat : wrapper := mkWrapper "availability.HeartbeatRequest" "availability.HeartbeatResponse".
Definition LogStatusNotification : wrapper := mkWrapper "diagnostics.LogStatusNotificationRequest" "diagnostics.LogStatusNotificationResponse".
Definition MeterValues : wrapper := mkWrapper "meter.MeterValuesRequest" "meter.MeterValuesResponse".
Definition NotifyChargingLimit : wrapper := mkWrapper "smartcharging.NotifyChargingLimitRequest" "smartcharging.NotifyChargingLimitResponse".
Definition NotifyCustomerInformation : wrapper := mkWrapper "diagnostics.NotifyCustomerInformationRequest" "diagnostics.NotifyCustomerInformationResponse".
Definition NotifyDisplayMessages : wrapper := mkWrapper "display.NotifyDisplayMessagesRequest" "display.NotifyDisplayMessagesResponse".
Definition NotifyEVChargingNeeds : wrapper := mkWrapper "smartcharging.NotifyEVChargingNeedsRequest" "smartcharging.NotifyEVChargingNeedsResponse".
Definition NotifyEVChargingSchedule : wrapper := mkWrapper "smartcharging.NotifyEVChargingScheduleRequest" "smartcharging.NotifyEVChargingScheduleResponse".
Definition NotifyEvent : wrapper := mkWrapper "diagnostics.NotifyEventRequest" "diagnostics.NotifyEventResponse".
Definition NotifyMonitoringReport : wrapper := mkWrapper "diagnostics.NotifyMonitoringReportRequest" "diagnostics.NotifyMonitoringReportResponse".
Definition NotifyReport : wrapper := mkWrapper "provisioning.NotifyReportRequest" "provisioning.NotifyReportResponse".
Definition PublishFirmwareStatusNotification : wrapper := mkWrapper "firmware.PublishFirmwareStatusNotificationRequest" "firmware.PublishFirmwareStatusNotificationResponse".
Definition ReportChargingProfiles : wrapper := mkWrapper "smartcharging.ReportChargingProfilesRequest" "smartcharging.ReportChargingProfilesResponse".
Definition ReservationStatusUpdate : wrapper := mkWrapper "reservation.ReservationStatusUpdateRequest" "reservation.ReservationStatusUpdateResponse".
Definition SecurityEventNotification : wrapper := mkWrapper "security.SecurityEventNotificationRequest" "security.SecurityEventNotificationResponse".
Definition SignCertificate : wrapper := mkWrapper "security.SignCertificateRequest" "security.SignCertificateResponse".
Definition StatusNotification : wrapper := mkWrapper "availability.StatusNotificationRequest" "availability.StatusNotificationResponse".
Definition TransactionEvent : wrapper := mkWrapper "transactions.TransactionEventRequest" "transactions.TransactionEventResponse".

Definition wrappers : list wrapper :=
  [BootNotification; Authorize; ClearedChargingLimit; DataTransfer; FirmwareStatusNotification;
   Get15118EVCertificate; GetCertificateStatus; Heartbeat; LogStatusNotification; MeterValues;
   NotifyChargingLimit; NotifyCustomerInformation; NotifyDisplayMessages; NotifyEVChargingNeeds;
   NotifyEVChargingSchedule; NotifyEvent; NotifyMonitoringReport; NotifyReport;
   PublishFirmwareStatusNotification; ReportChargingProfiles; ReservationStatusUpdate;
   SecurityEventNotification; SignCertificate; StatusNotification; TransactionEvent].
End ChargingStationAPI.

Module CSMSAPI.
Definition CancelReservation : wrapper := mkWrapper "reservation.CancelReservationRequest" "reservation.CancelReservationResponse".
Definition CertificateSigned : wrapper := mkWrapper "security.CertificateSignedRequest" "security.CertificateSignedResponse".
Definition ChangeAvailability : wrapper := mkWrapper "availability.ChangeAvailabilityRequest" "availability.ChangeAvailabilityResponse".
Definition ClearCache : wrapper := mkWrapper "authorization.ClearCacheRequest" "authorization.ClearCacheResponse".
Definition ClearChargingProfile : wrapper := mkWrapper "smartcharging.ClearChargingProfileRequest" "smartcharging.ClearChargingProfileResponse".
Definition ClearDisplay : wrapper := mkWrapper "display.ClearDisplayRequest" "display.ClearDisplayResponse".
Definition ClearVariableMonitoring : wrapper := mkWrapper "diagnostics.ClearVariableMonitoringRequest" "diagnostics.ClearVariableMonitoringResponse".
Definition CostUpdated : wrapper := mkWrapper "tariffcost.CostUpdatedRequest" "tariffcost.CostUpdatedResponse".
Definition CustomerInformation : wrapper := mkWrapper "diagnostics.CustomerInformationRequest" "diagnostics.CustomerInformationResponse".
Definition DataTransfer : wrapper := mkWrapper "data.DataTransferRequest" "data.DataTransferResponse".
Definition DeleteCertificate : wrapper := mkWrapper "iso15118.DeleteCertificateRequest" "iso15118.DeleteCertificateResponse".
Definition GetBaseReport : wrapper := mkWrapper "provisioning.GetBaseReportRequest" "provisioning.GetBaseReportResponse".
Definition GetChargingProfiles : wrapper := mkWrapper "smartcharging.GetChargingProfilesRequest" "smartcharging.GetChargingProfilesResponse".
Definition GetCompositeSchedule : wrapper := mkWrapper "smartcharging.GetCompositeScheduleRequest" "smartcharging.GetCompositeScheduleResponse".
Definition GetDisplayMessages : wrapper := mkWrapper "display.GetDisplayMessagesRequest" "display.GetDisplayMessagesResponse".
Definition GetInstalledCertificateIds : wrapper := mkWrapper "iso15118.GetInstalledCertificateIdsRequest" "iso15118.GetInstalledCertificateIdsResponse".
Definition GetLocalListVersion : wrapper := mkWrapper "localauth.GetLocalListVersionRequest" "localauth.GetLocalListVersionResponse".
Definition GetLog : wrapper := mkWrapper "diagnostics.GetLogRequest" "diagnostics.GetLogResponse".
Definition GetMonitoringReport : wrapper := mkWrapper "diagnostics.GetMonitoringReportRequest" "diagnostics.GetMonitoringReportResponse".
Definition GetReport : wrapper := mkWrapper "provisioning.GetReportRequest" "provisioning.GetReportResponse".
Definition GetTransactionStatus : wrapper := mkWrapper "transactions.GetTransactionStatusRequest" "transactions.GetTransactionStatusResponse".
Definition GetVariables : wrapper := mkWrapper "provisioning.GetVariablesRequest" "provisioning.GetVariablesResponse".
Definition InstallCertificate : wrapper := mkWrapper "iso15118.InstallCertificateRequest" "iso15118.InstallCertificateResponse".
Definition PublishFirmware : wrapper := mkWrapper "firmware.PublishFirmwareRequest" "firmware.PublishFirmwareResponse".
Definition RequestStartTransaction : wrapper := mkWrapper "remotecontrol.RequestStartTransactionRequest" "remotecontrol.RequestStartTransactionResponse".
Definition RequestStopTransaction : wrapper := mkWrapper "remotecontrol.RequestStopTransactionRequest" "remotecontrol.RequestStopTransactionResponse".
Definition ReserveNow : wrapper := mkWrapper "reservation.ReserveNowRequest" "reservation.ReserveNowResponse".
Definition Reset : wrapper := mkWrapper "provisioning.ResetRequest" "provisioning.ResetResponse".
Definition SendLocalList : wrapper := mkWrapper "localauth.SendLocalListRequest" "localauth.SendLocalListResponse".
Definition SetChargingProfile : wrapper := mkWrapper "smartcharging.SetChargingProfileRequest" "smartcharging.SetChargingProfileResponse".
Definition SetDisplayMessage : wrapper := mkWrapper "display.SetDisplayMessageRequest" "display.SetDisplayMessageResponse".
Definition SetMonitoringBase : wrapper := mkWrapper "diagnostics.SetMonitoringBaseRequest" "diagnostics.SetMonitoringBaseResponse".
Definition SetMonitoringLevel : wrapper := mkWrapper "diagnostics.SetMonitoringLevelRequest" "diagnostics.SetMonitoringLevelResponse".
Definition SetNetworkProfile : wrapper := mkWrapper "provisioning.SetNetworkProfileRequest" "provisioning.SetNetworkProfileResponse".
Definition SetVariableMonitoring : wrapper := mkWrapper "diagnostics.SetVariableMonitoringRequest" "diagnostics.SetVariableMonitoringResponse".
Definition SetVariables : wrapper := mkWrapper "provisioning.SetVariablesRequest" "provisioning.SetVariablesResponse".
Definition TriggerMessage : wrapper := mkWrapper "remotecontrol.TriggerMessageRequest" "remotecontrol.TriggerMessageResponse".
Definition UnlockConnector : wrapper := mkWrapper "remotecontrol.UnlockConnectorRequest" "remotecontrol.UnlockConnectorResponse".
Definition UnpublishFirmware : wrapper := mkWrapper "firmware.UnpublishFirmwareRequest" "firmware.UnpublishFirmwareResponse".
Definition UpdateFirmware : wrapper := mkWrapper "firmware.UpdateFirmwareRequest" "firmware.UpdateFirmwareResponse".

Definition wrappers : list wrapper :=
  [CancelReservation; CertificateSigned; ChangeAvailability; ClearCache; ClearChargingProfile; ClearDisplay;
   ClearVariableMonitoring; CostUpdated; CustomerInformation; DataTransfer; DeleteCertificate;
   GetBaseReport; GetChargingProfiles; GetCompositeSchedule; GetDisplayMessages; GetInstalledCertificateIds;
   GetLocalListVersion; GetLog; GetMonitoringReport; GetReport; GetTransactionStatus; GetVariables;
   InstallCertificate; PublishFirmware; RequestStartTransaction; RequestStopTransaction; ReserveNow; Reset;
   SendLocalList; SetChargingProfile; SetDisplayMessage; SetMonitoringBase; SetMonitoringLevel;
   SetNetworkProfile; SetVariableMonitoring; SetVariables; TriggerMessage; UnlockConnector;
   UnpublishFirmware; UpdateFirmware].
End CSMSAPI.

(** ** The types agree with the profiles *)

(** The feature of a wrapper's request, and whether the profile answers it with
    the type the wrapper asserts and the facade lets it be sent. *)
Definition wrapper_ok (profiles : list (Profile string)) (s : spec) (m : wrapper) : bool :=
  existsb (λ f, match GetProfileForFeature f (mkEndpoint V16 profiles) with
                | Some p => match GetFeature p f with
                            | Some ft => bool_decide (GetRequestType ft = w_request m) &&
                                         bool_decide (GetResponseType ft = w_response m) && bool_decide (f ∈ sendable s)
                            | None => false
                            end
                | None => false
                end) (feature_names profiles).

Definition facade_apis : list (list (Profile string) * spec * list wrapper) :=
  [(V16.DefaultProfiles, V16.charge_point, ChargePointAPI.wrappers);
   (V16.DefaultProfiles, V16.central_system, CentralSystemAPI.wrappers);
   (V201.DefaultProfiles, V201.charging_station, ChargingStationAPI.wrappers);
   (V201.DefaultProfiles, V201.csms, CSMSAPI.wrappers)].

(** Every sendable action has its method. *)
Definition api_complete (a : list (Profile string) * spec * list wrapper) : bool :=
  let '(profiles, s, ws) := a in
  forallb (λ f, existsb (λ m, existsb (λ p, match Features p !! f with
                                             | Some ft => bool_decide (GetRequestType ft = w_request m)
                                             | None => false end) profiles) ws) (sendable s).

Lemma facade_apis_ok : forallb (λ '(profiles, s, ws), forallb (wrapper_ok profiles s) ws) facade_apis = true.
Proof. vm_compute. reflexivity. Qed.
Lemma facade_apis_complete : forallb api_complete facade_apis = true.
Proof. vm_compute. reflexivity. Qed.

Lemma wrapper_ok_spec profiles s m :
  wrapper_ok profiles s m = true →
  ∃ f p ft, GetProfileForFeature f (mkEndpoint V16 profiles) = Some p ∧ GetFeature p f = Some ft ∧
    GetRequestType ft = w_request m ∧ GetResponseType ft = w_response m ∧ f ∈ sendable s.
Proof.
  unfold wrapper_ok. intros (f & _ & Hf)%existsb_exists.
  destruct (GetProfileForFeature f _) as [p|] eqn:Hp; [|done]. destruct (GetFeature p f) as [ft|] eqn:Hft; [|done].
  apply andb_prop in Hf as [[H1 H2]%andb_prop H3]. apply bool_decide_eq_true in H1, H2, H3. by exists f, p, ft.
Qed.

Lemma facade_api_ok profiles s ws m :
  (profiles, s, ws) ∈ facade_apis → m ∈ ws → wrapper_ok profiles s m = true.
Proof.
  intros Ha Hm. pose proof facade_apis_ok as Hok. rewrite forallb_forall in Hok.
  apply list_elem_of_In in Ha, Hm. specialize (Hok _ Ha). simpl in Hok. rewrite forallb_forall in Hok. by apply Hok.
Qed.

(** A parsed response was decoded as the response type of its request's
    feature. *)
Lemma parsed_result {Request Response : Type} (K : codec string Request Response) e arr pend c req :
  ParseMessage_ K e arr pend = Parsed (MCallResult c) →
  ClientState.GetPendingRequest (cr_UniqueId c) pend = Some (Some req) →
  ∃ p ft j r, GetProfileForFeature (c_request_feature K req) e = Some p ∧
    GetFeature p (c_request_feature K req) = Some ft ∧ cr_Payload c = Some r ∧
    c_decode_response K j (GetResponseType ft) = inl r.
Proof.
  intros HP Hpend. unfold ParseMessage_, ParseMessage, parse_call, parse_call_result, parse_call_error in HP.
  repeat (case_match; simplify_eq/=; try done); try (by apply format_error_not_parsed in HP);
    apply validation_result_parsed in HP; simplify_eq/=.
  match goal with H : ParseResponse ?p ?a _ _ = inl _ |- _ => unfold ParseResponse, parseRawJsonConfirmation in H;
    destruct (Features p !! a) as [ft|] eqn:Hf; [|done]; exists p, ft end.
  eauto 10.
Qed.

(** C17: every method of the typed API asserts the type that the response to
    its request is decoded to: when the pending request has the type the method
    builds, neither the synchronous methods nor the callback wrapper of the
    asynchronous ones can panic on a response the endpoint has parsed, and the
    caller gets that response. *)
Theorem typed_api_safe {Request Response W E : Type} (K : codec string Request Response)
    (dyn_type : Request → string) (resp_type : Response → string) e arr pend c profiles s ws m req :
  (profiles, s, ws) ∈ facade_apis → m ∈ ws → Profiles e = profiles →
  (∀ j ty r, c_decode_response K j ty = inl r → resp_type r = ty) →
  (∀ f p ft, GetProfileForFeature f e = Some p → GetFeature p f = Some ft → dyn_type req = GetRequestType ft →
     c_request_feature K req = f) →
  dyn_type req = w_request m →
  ParseMessage_ K e arr pend = Parsed (MCallResult c) →
  ClientState.GetPendingRequest (cr_UniqueId c) pend = Some (Some req) →
  c_request_feature K req ∈ sendable s ∧
  ∃ resp, cr_Payload c = Some resp ∧
    (∀ cb err (w : W), generic_callback resp_type m cb (Some resp) err w = cb (Some resp) err w) ∧
    (∀ send (request : Request) props (w w' : W) (l : list E),
       send (apply_props props request) w = (w', l, Done (Some resp, None)) →
       sync_call resp_type send m request props w = (w', l, Done (Some resp, None))).
Proof.
  intros Ha Hm Hpr Hdec Hfeat Hreq HP Hpend.
  destruct (wrapper_ok_spec _ _ _ (facade_api_ok _ _ _ _ Ha Hm)) as (f & p & ft & Hp & Hft & Hrq & Hrs & Hs).
  rewrite (GetProfileForFeature_Profiles _ e) in Hp by (by rewrite Hpr).
  assert (c_request_feature K req = f) as Hf by (eapply Hfeat; eauto; congruence).
  destruct (parsed_result K e arr pend c req HP Hpend) as (p' & ft' & j & r & Hp' & Hft' & Hpay & Hd).
  rewrite Hf in *. rewrite Hp in Hp'. simplify_eq. apply Hdec in Hd. rewrite Hrs in Hd.
  split; [done|]. exists r. split; [done|]. split.
  - intros cb err w. unfold generic_callback. by rewrite decide_True.
  - intros send request props w w' l Hsend. unfold sync_call. rewrite (bind_done _ _ _ _ _ _ Hsend). simpl.
    rewrite decide_True by done. unfold mret, M_ret. by rewrite app_nil_r.
Qed.

Lemma feature_names_lookup (e : @Endpoint string) f p :
  GetProfileForFeature f e = Some p → f ∈ feature_names (Profiles e).
Proof.
  intros Hp. destruct (GetProfileForFeature_supports _ _ _ Hp) as [ft Hft].
  unfold GetProfileForFeature in Hp. apply head_Some_inv in Hp as [l Hl].
  assert (Hin : p ∈ filter (λ p, SupportsFeature p f = true) (Profiles e)) by (rewrite Hl; left).
  apply list_elem_of_filter in Hin as [_ Hin]. unfold feature_names.
  apply list_elem_of_In, in_concat. exists (map_to_list (Features p)).*1. split.
  - apply list_elem_of_In, list_elem_of_fmap. eauto.
  - apply list_elem_of_In, list_elem_of_fmap. exists (f, ft). split; [done|]. by apply elem_of_map_to_list.
Qed.

(** The only feature whose requests are [core.ResetRequest]s. *)
Lemma reset_feature f p ft :
  GetProfileForFeature f (mkEndpoint V16 V16.DefaultProfiles) = Some p → GetFeature p f = Some ft →
  "core.ResetRequest" = GetRequestType ft → "Reset" = f.
Proof.
  intros Hp Hft Ht. pose proof (feature_names_lookup _ _ _ Hp) as Hin. simpl in Hin.
  assert (Hall : forallb (λ f, match GetProfileForFeature f (mkEndpoint V16 V16.DefaultProfiles) with
    | Some p => match GetFeature p f with
                | Some ft => implb (bool_decide ("core.ResetRequest" = GetRequestType ft)) (bool_decide ("Reset" = f))
                | None => true end
    | None => true end) (feature_names V16.DefaultProfiles) = true) by (vm_compute; reflexivity).
  rewrite forallb_forall in Hall. specialize (Hall f (proj1 (list_elem_of_In _ _) Hin)).
  rewrite Hp, Hft, (bool_decide_eq_true_2 _ Ht) in Hall. by apply bool_decide_eq_true in Hall.
Qed.

Lemma typed_api_safe_witness :
  let K : codec string string string :=
    mkCodec (λ _, "Reset") (λ _, "Reset") (λ _, inr (Errorf "" None)) (λ _ _, inl "") (λ _ ty, inl ty)
      (λ _ ty, inl ty) (λ r, JStr r) (λ r, JStr r) (λ _, []) (λ _, []) (λ _, []) (λ _, "") (λ _, "") (λ _, 0%Z) (λ _, "") in
  let e := mkEndpoint V16 V16.DefaultProfiles in
  let pend := ClientState.mkState "7" (Some "core.ResetRequest") in
  ParseMessage_ K e [int_json 3; JStr "7"; JObj []] pend =
    Parsed (MCallResult (mkCallResult CALL_RESULT "7" (Some "core.ResetConfirmation"))) ∧
  ∃ resp, Some "core.ResetConfirmation" = Some resp ∧
    generic_callback id CentralSystemAPI.Reset (λ _ _ w, (w, Done tt)) (Some resp) None 0 = (0, Done tt).
Proof.
  intros K e pend.
  assert (HP : ParseMessage_ K e [int_json 3; JStr "7"; JObj []] pend =
    Parsed (MCallResult (mkCallResult CALL_RESULT "7" (Some "core.ResetConfirmation")))) by (vm_compute; reflexivity).
  split; [exact HP|].
  destruct (typed_api_safe (W := nat) (E := nat) K id id e _ pend _ _ _ CentralSystemAPI.wrappers CentralSystemAPI.Reset
    "core.ResetRequest" ltac:(right; left) ltac:(do 7 right; left) eq_refl ltac:(by intros j ty r [= <-])
    (λ f p ft Hp Hft Ht, reset_feature f p ft Hp Hft Ht) eq_refl HP eq_refl) as (_ & resp & Hr & Hg & _).
  exists resp. split; [exact Hr|]. apply Hg.
Defined.
