(* ===== verification/Payloads.v ===== *)
(** * Payloads of the two protocol versions

    The payloads an endpoint exchanges are pointers to the structs of
    [Messages16] and [Messages201]; [reflect.Type] is the struct's name, as in
    [Services].  [GetFeatureName] of a request or response is the name of the
    feature it belongs to.  The codec of [GoTypes] instantiates the payload codec
    of [Endpoint]. *)

From Stdlib Require Import QArith.QArith.
From S2P Require Import Prelude Ocpp State Message Endpoint GoTypes GoJson Schema Messages16 Messages201 Facade Services.
Local Open Scope string_scope.
Local Open Scope list_scope.

(** A protocol version: its messages and its default profiles. *)
Record protocol := mkProtocol {
  pr_features : list message_feature;
  pr_profiles : list (Profile string)
}.

Definition ocpp16 : protocol := mkProtocol Messages16.features V16.DefaultProfiles.
Definition ocpp201 : protocol := mkProtocol Messages201.features V201.DefaultProfiles.
Definition protocols : list protocol := [ocpp16; ocpp201].

(** A payload with its dynamic type. *)
Record payload := mkPayload { p_type : string; p_value : goval }.

(** The types of all payloads. *)
Definition payload_types (pv : protocol) : list gotype :=
  flat_map (λ m, [m_request m; m_response m]) (pr_features pv).
Definition find_type (pv : protocol) (n : string) : option gotype :=
  head (filter (λ t, type_name t = n) (payload_types pv)).

Definition GetFeatureName (pv : protocol) (p : payload) : string :=
  default "" (m_name <$> head (filter (λ m, type_name (m_request m) = p_type p ∨ type_name (m_response m) = p_type p)
                                      (pr_features pv))).

Definition request (m : message_feature) (v : goval) : payload := mkPayload (type_name (m_request m)) v.
Definition response (m : message_feature) (v : goval) : payload := mkPayload (type_name (m_response m)) v.

Section codec.
Context (format_time : Z → string) (iso8601_Parse : string → Z + error) (pv : protocol).

(** [json.Unmarshal] into [reflect.New(requestType).Interface()]. *)
Definition decode_payload (j : Json) (n : string) : payload + error :=
  match find_type pv n with
  | Some t => match decode_new iso8601_Parse t j with inl v => inl (mkPayload n v) | inr e => inr e end
  | None => inr (Errorf ("no type " +:+ n) None)
  end.

Definition encode_payload (p : payload) : Json :=
  match find_type pv (p_type p) with Some t => encode format_time t (p_value p) | None => JNull end.
End codec.

(** ** The tables of a version agree *)

Definition feature_matches (m : message_feature) (ft : Feature string) : bool :=
  bool_decide (m_name m = Ocpp.GetFeatureName ft) && bool_decide (type_name (m_request m) = GetRequestType ft) &&
  bool_decide (type_name (m_response m) = GetResponseType ft).

(** Each feature of the profiles is one of the messages and conversely; types are
    structs with distinct names and well-formed. *)
Definition protocol_ok (pv : protocol) : bool :=
  bool_decide (NoDup (map type_name (payload_types pv))) &&
  bool_decide (NoDup (map m_name (pr_features pv))) &&
  forallb (λ t, wf_type t && match t with TStruct _ _ => true | _ => false end) (payload_types pv) &&
  forallb (λ p, forallb (λ nf : string * Feature string, bool_decide (nf.1 = Ocpp.GetFeatureName nf.2) &&
                                                         existsb (λ m, feature_matches m nf.2) (pr_features pv))
                  (map_to_list (Features p))) (pr_profiles pv) &&
  forallb (λ m, existsb (λ p, SupportsFeature p (m_name m)) (pr_profiles pv)) (pr_features pv).

Lemma protocols_ok pv : pv ∈ protocols → protocol_ok pv = true.
Proof.
  intros Hin. repeat (apply elem_of_cons in Hin as [->|Hin]; [vm_compute; reflexivity|]). by apply elem_of_nil in Hin.
Qed.

Lemma find_unique {A : Type} (f : A → string) (l : list A) (x : A) :
  NoDup (map f l) → x ∈ l → head (filter (λ y, f y = f x) l) = Some x.
Proof.
  induction l as [|y l IH]; intros Hnd Hx; [by apply elem_of_nil in Hx|]. simpl in Hnd.
  apply NoDup_cons in Hnd as [Hy Hnd]. destruct (decide (f y = f x)) as [E|E].
  - rewrite filter_cons_True by done. simpl. f_equal. apply elem_of_cons in Hx as [->|Hx]; [done|].
    destruct Hy. apply list_elem_of_fmap. eauto.
  - rewrite filter_cons_False by done. apply IH; [done|]. by apply elem_of_cons in Hx as [->|Hx].
Qed.

Section tables.
Context (pv : protocol) (Hok : protocol_ok pv = true).

Lemma protocol_types : NoDup (map type_name (payload_types pv)).
Proof. unfold protocol_ok in Hok. rewrite !andb_true_iff in Hok. destruct Hok as [[[[H _] _] _] _]. by apply bool_decide_eq_true in H. Qed.
Lemma protocol_names : NoDup (map m_name (pr_features pv)).
Proof. unfold protocol_ok in Hok. rewrite !andb_true_iff in Hok. destruct Hok as [[[[_ H] _] _] _]. by apply bool_decide_eq_true in H. Qed.

Lemma protocol_wf t : t ∈ payload_types pv → wf_type t = true ∧ ∃ n fs, t = TStruct n fs.
Proof.
  intros Hin%list_elem_of_In. unfold protocol_ok in Hok. rewrite !andb_true_iff, !forallb_forall in Hok.
  destruct Hok as [[[_ H] _] _]. apply H, andb_true_iff in Hin as [? Hs]. split; [done|]. destruct t; eauto; done.
Qed.

(** A feature of a profile is a message. *)
Lemma protocol_feature p a ft :
  p ∈ pr_profiles pv → GetFeature p a = Some ft →
  ∃ m, m ∈ pr_features pv ∧ m_name m = a ∧ GetRequestType ft = type_name (m_request m) ∧
       GetResponseType ft = type_name (m_response m).
Proof.
  intros Hp%list_elem_of_In Hft. unfold protocol_ok in Hok. rewrite !andb_true_iff, !forallb_forall in Hok.
  destruct Hok as [[_ H] _]. specialize (H p Hp). rewrite forallb_forall in H.
  assert (Hin : In (a, ft) (map_to_list (Features p))) by (by apply list_elem_of_In, elem_of_map_to_list).
  apply H, andb_true_iff in Hin as [Hn%bool_decide_eq_true Hm].
  apply existsb_exists in Hm as (m & Hm%list_elem_of_In & Hmm). unfold feature_matches in Hmm.
  rewrite !andb_true_iff, !bool_decide_eq_true in Hmm. destruct Hmm as [[??]?]. simpl in *. exists m. by subst.
Qed.

Lemma request_type_in m : m ∈ pr_features pv → m_request m ∈ payload_types pv.
Proof. intros Hm. apply list_elem_of_In, in_flat_map. exists m. split; [by apply list_elem_of_In|by left]. Qed.
Lemma response_type_in m : m ∈ pr_features pv → m_response m ∈ payload_types pv.
Proof. intros Hm. apply list_elem_of_In, in_flat_map. exists m. split; [by apply list_elem_of_In|right; by left]. Qed.

Lemma find_type_of t : t ∈ payload_types pv → find_type pv (type_name t) = Some t.
Proof. apply find_unique, protocol_types. Qed.

(** The names of the request and the response of a message determine it. *)
Lemma payload_feature m m' t :
  m ∈ pr_features pv → m' ∈ pr_features pv → t ∈ [m_request m; m_response m] →
  type_name (m_request m') = type_name t ∨ type_name (m_response m') = type_name t → m' = m.
Proof.
  pose proof protocol_types as Hnd. unfold payload_types in Hnd. revert Hnd.
  induction (pr_features pv) as [|m0 l IH]; simpl; [by intros _ ?%elem_of_nil|].
  intros Hnd Hm Hm' Ht Hn. rewrite !NoDup_cons, !not_elem_of_cons in Hnd. destruct Hnd as ((Hne & Hr) & Hs & Hnd).
  assert (Hl : ∀ m1 t1, m1 ∈ l → t1 ∈ [m_request m1; m_response m1] →
    type_name t1 ∈ map type_name (flat_map (λ m, [m_request m; m_response m]) l)).
  { intros m1 t1 Hm1 Ht1. apply list_elem_of_fmap. exists t1. split; [done|].
    apply list_elem_of_In, in_flat_map. exists m1. split; by apply list_elem_of_In. }
  apply elem_of_cons in Hm as [->|Hm], Hm' as [->|Hm']; [done|exfalso..|by apply IH].
  - apply elem_of_cons in Ht as [->|Ht%list_elem_of_singleton]; [|subst t]; destruct Hn as [Hn|Hn];
      first [apply Hr; rewrite <-Hn; apply (Hl m'); set_solver|apply Hs; rewrite <-Hn; apply (Hl m'); set_solver].
  - destruct Hn as [Hn|Hn]; [apply Hr|apply Hs]; rewrite Hn; by apply (Hl m).
Qed.

Lemma GetFeatureName_of m t v :
  m ∈ pr_features pv → t ∈ [m_request m; m_response m] → GetFeatureName pv (mkPayload (type_name t) v) = m_name m.
Proof.
  intros Hm Ht. unfold GetFeatureName. cbn [p_type]. set (P := λ m', _ ∨ _).
  assert (Hf : ∀ m', m' ∈ filter P (pr_features pv) ↔ m' = m).
  { intros m'. rewrite list_elem_of_filter. split; [intros [HP Hin]; by eapply payload_feature|].
    intros ->. split; [|done]. unfold P. apply elem_of_cons in Ht as [->|Ht%list_elem_of_singleton]; [by left|].
    right. by subst. }
  destruct (filter P (pr_features pv)) as [|m' l]; simpl.
  - by pose proof (proj2 (Hf m) eq_refl) as ?%elem_of_nil.
  - f_equal. apply Hf. left.
Qed.
End tables.

(** ** What the endpoint's codec reads back *)

Section endpoints.
Context (format_time : Z → string) (iso8601_Parse : string → Z + error).
Context (times : time_codec_ok format_time iso8601_Parse).
Context (pv : protocol) (Hpv : pv ∈ protocols).
Context (d : Dialect).
Local Abbreviation dec := (decode_payload iso8601_Parse pv).
Local Abbreviation enc := (encode_payload format_time pv).
Local Abbreviation ep := (mkEndpoint d (pr_profiles pv)).

Lemma payload_codec t v :
  t ∈ payload_types pv → has_type t v = true → times_ok t v = true →
  dec (or_empty (enc (mkPayload (type_name t) v))) (type_name t) = inl (mkPayload (type_name t) (wire_value t v)).
Proof.
  intros Hin Ht Hc. pose proof (protocols_ok pv Hpv) as Hok. destruct (protocol_wf pv Hok t Hin) as (Hw & n & fs & E).
  unfold decode_payload, encode_payload. cbn [p_type p_value]. rewrite find_type_of by done.
  assert (Hne : or_empty (encode format_time t v) = encode format_time t v) by (subst t; by destruct v).
  by rewrite Hne, decode_encode.
Qed.

Lemma profile_in a p : GetProfileForFeature a ep = Some p → p ∈ pr_profiles pv.
Proof.
  unfold GetProfileForFeature. intros [l Hl]%head_Some_inv.
  assert (Hin : p ∈ filter (λ p, SupportsFeature p a = true) (Profiles ep)) by (rewrite Hl; left).
  by apply list_elem_of_filter in Hin as [_ ?].
Qed.

(** The feature an endpoint with the default profiles finds under a name. *)
Lemma endpoint_feature a p ft :
  GetProfileForFeature a ep = Some p → GetFeature p a = Some ft →
  ∃ m, m ∈ pr_features pv ∧ m_name m = a ∧ GetRequestType ft = type_name (m_request m) ∧
       GetResponseType ft = type_name (m_response m).
Proof. intros Hp%profile_in. apply protocol_feature; [by apply protocols_ok|done]. Qed.

Lemma message_by_name m m' : m ∈ pr_features pv → m' ∈ pr_features pv → m_name m = m_name m' → m = m'.
Proof.
  intros Hm Hm' E. pose proof (find_unique m_name _ m (protocol_names pv (protocols_ok pv Hpv)) Hm) as H1.
  pose proof (find_unique m_name _ m' (protocol_names pv (protocols_ok pv Hpv)) Hm') as H2.
  rewrite <-E in H2. rewrite H1 in H2. by simplify_eq.
Qed.

Lemma request_feature m v : m ∈ pr_features pv → GetFeatureName pv (request m v) = m_name m.
Proof. intros Hm. apply GetFeatureName_of; [by apply protocols_ok|done|left]. Qed.
Lemma response_feature m v : m ∈ pr_features pv → GetFeatureName pv (response m v) = m_name m.
Proof. intros Hm. apply GetFeatureName_of; [by apply protocols_ok|done|right; left]. Qed.

Lemma request_codec m v :
  m ∈ pr_features pv → has_type (m_request m) v = true → times_ok (m_request m) v = true →
  request_reads (GetFeatureName pv) dec enc ep (request m v) (request m (wire_value (m_request m) v)).
Proof.
  intros Hm Ht Hc p ft Hp Hft. rewrite request_feature in Hp, Hft by done.
  destruct (endpoint_feature _ _ _ Hp Hft) as (m' & Hm' & E & -> & _).
  apply message_by_name in E as ->; [|done..]. apply payload_codec; [by apply request_type_in|done..].
Qed.

Lemma response_codec m v :
  m ∈ pr_features pv → has_type (m_response m) v = true → times_ok (m_response m) v = true →
  response_reads dec enc ep (m_name m) (response m v) (response m (wire_value (m_response m) v)).
Proof.
  intros Hm Ht Hc p ft Hp Hft. destruct (endpoint_feature _ _ _ Hp Hft) as (m' & Hm' & E & _ & ->).
  apply message_by_name in E as ->; [|done..]. apply payload_codec; [by apply response_type_in|done..].
Qed.

(** What is decoded has the Go type of its name. *)
Lemma decode_payload_typed t j p :
  t ∈ payload_types pv → dec j (type_name t) = inl p →
  p_type p = type_name t ∧ has_type t (p_value p) = true.
Proof.
  intros Hin Hd. unfold decode_payload in Hd. rewrite find_type_of in Hd by (done || by apply protocols_ok).
  destruct (decode_new _ _ _) as [v|] eqn:E; simplify_eq. split; [done|]. by eapply decode_typed.
Qed.
End endpoints.
