(* ===== verification/MessageTheorems.v ===== *)
(** * The messages of both versions on the wire

    - [request_wire_roundtrip], [response_wire_roundtrip]: what becomes of every
      request and response struct of OCPP 1.6 and 2.0.1 on the whole path from
      [CreateCall] or [CreateCallResult] to [ParseMessage].
    - [incoming_payload_typed]: what [ParseMessage] hands on is a well-typed value
      of the struct the action stands for.
    - [enum_fields_validated]: which strings the fields of enumeration types admit.
    - [constructors_complete]: the [NewX] functions set every required field. *)

From Stdlib Require Import QArith.QArith Ascii.
From S2P Require Import Prelude Ocpp State Message Endpoint GoTypes GoJson Schema Messages16 Messages201 Facade Services Peer FacadeTheorems Wrappers Payloads.
Local Open Scope string_scope.
Local Open Scope list_scope.

(** ** An endpoint with the payload codec *)

(** [K] with the payload codec of a version; what else [K] holds is arbitrary. *)
Definition with_payloads (format_time : Z → string) (iso8601_Parse : string → Z + error) (pv : protocol)
    (K : codec string payload payload) : codec string payload payload :=
  mkCodec (GetFeatureName pv) (GetFeatureName pv) (c_Unmarshal K) (c_Encode K)
    (decode_payload iso8601_Parse pv) (decode_payload iso8601_Parse pv)
    (encode_payload format_time pv) (encode_payload format_time pv)
    (c_validate_call K) (c_validate_result K) (c_validate_error K) (c_errors_text K) (c_fmt_v K) (c_overflow K)
    (c_endpoint_text K).

Section wire.
Context (format_time : Z → string) (iso8601_Parse : string → Z + error).
Context (K0 : codec string payload payload) (pv : protocol) (d : Dialect).
Let K := with_payloads format_time iso8601_Parse pv K0.
Let e : @Endpoint string := mkEndpoint d (pr_profiles pv).



(** C15: whatever bytes arrive, a call that parses carries a well-typed value of
    the request struct of its action, and a result that parses a well-typed value
    of the response struct of the pending request's feature. *)
Theorem incoming_payload_typed arr pending msg :
  pv ∈ protocols → ParseMessage_ K e arr pending = Parsed msg →
  match msg with
  | MCall c => ∃ m v, m ∈ pr_features pv ∧ Action c = m_name m ∧ Payload c = Some (request m v) ∧
                      has_type (m_request m) v = true
  | MCallResult c => ∀ req, ClientState.GetPendingRequest (cr_UniqueId c) pending = Some (Some req) →
                      ∃ m v, m ∈ pr_features pv ∧ GetFeatureName pv req = m_name m ∧
                             cr_Payload c = Some (response m v) ∧ has_type (m_response m) v = true
  | MCallError _ => True
  end.
Proof.
  intros Hpv HP. destruct msg as [c|c|c]; [|intros req Hreq|done].
  - destruct (parsed_call _ _ _ _ _ HP) as (p & ft & j & r & Hp & Hft & Hr & Hd).
    destruct (endpoint_feature pv Hpv d _ _ _ Hp Hft) as (m & Hm & Ha & Hq & _). rewrite Hq in Hd.
    apply decode_payload_typed in Hd as [Hn Ht]; [|done|by apply request_type_in].
    exists m, (p_value r). split_and!; [done..| |done]. destruct r. by simplify_eq/=.
  - destruct (parsed_result _ _ _ _ _ _ HP Hreq) as (p & ft & j & r & Hp & Hft & Hr & Hd).
    destruct (endpoint_feature pv Hpv d _ _ _ Hp Hft) as (m & Hm & Ha & _ & Hq). rewrite Hq in Hd.
    apply decode_payload_typed in Hd as [Hn Ht]; [|done|by apply response_type_in].
    exists m, (p_value r). split_and!; [done..| |done]. destruct r. by simplify_eq/=.
Qed.
End wire.

(** ** A concrete instance *)

Module Instance_.
(** Seconds written in binary. *)
Fixpoint bits (p : positive) : string :=
  match p with xH => "1" | xO p' => String "0" (bits p') | xI p' => String "1" (bits p') end.
Fixpoint unbits (s : string) : option positive :=
  match s with
  | "1" => Some xH
  | String "0" s' => xO <$> unbits s'
  | String "1" s' => xI <$> unbits s'
  | _ => None
  end.
Definition format_time (ns : Z) : string := "time" +:+ bits (Z.to_pos (ns / second + 1)).
Definition parse_time (s : string) : Z + error :=
  match unbits (Strings.String.substring 4 (String.length s) s) with
  | Some p => inl ((Zpos p - 1) * second)%Z
  | None => inr (Errorf "iso8601" None)
  end.

Lemma bits_plain p : escape (bits p) = bits p.
Proof.
  induction p as [p IH|p IH|]; [| |done].
  - change (String "1" (escape (bits p)) = String "1" (bits p)). by rewrite IH.
  - change (String "0" (escape (bits p)) = String "0" (bits p)). by rewrite IH.
Qed.
Lemma bits_nonempty p : bits p ≠ "".
Proof. by destruct p. Qed.
Lemma unbits_bits p : unbits (bits p) = Some p.
Proof.
  induction p as [p IH|p IH|]; simpl; [|by rewrite IH|done].
  destruct (bits p) eqn:E; [by apply bits_nonempty in E|]. by rewrite IH.
Qed.
Lemma substring_all s n : (String.length s <= n)%nat → Strings.String.substring 0 n s = s.
Proof. revert n. induction s as [|a s IH]; intros [|n] Hn; simpl in *; try done; [lia|]. rewrite IH by lia. done. Qed.

Lemma rfc3339_ok : time_codec_ok format_time parse_time.
Proof.
  split.
  - intros ns. unfold format_time. set (b := bits _). change ("time" +:+ escape b = "time" +:+ b). subst b. by rewrite bits_plain.
  - intros ns. unfold format_time. simpl. lia.
  - intros ns Hns. unfold parse_time, format_time. set (b := bits _).
    change (Strings.String.substring 4 _ ("time" +:+ b)) with (Strings.String.substring 0 (4 + String.length b) b).
    rewrite substring_all by lia. subst b. rewrite unbits_bits. f_equal.
    assert (0 <= ns / second)%Z by (apply Z.div_pos; unfold second; lia).
    rewrite Z2Pos.id by lia. pose proof (Z.div_mod ns second ltac:(unfold second; lia)). lia.
Qed.

(** The bytes of a call and of a result. *)
Definition call_json : Json := JArr [int_json 2; JStr "7"; JStr "Authorize"; JObj [("idTag", JStr "A1")]].
Definition result_json : Json := JArr [int_json 3; JStr "7"; JObj [("currentTime", JStr "time0111")]].
Definition Encode (_ : bool) (v : Json) : string + error :=
  match v with
  | JArr [JNum (Qmake n 1); JStr id; JStr action; JObj [(k, JStr x)]] =>
      if decide ((n, id, action, k, x) = (2%Z, "7", "Authorize", "idTag", "A1")) then inl "call" else inr (Errorf "?" None)
  | JArr [JNum (Qmake n 1); JStr id; JObj [(k, JStr x)]] =>
      if decide ((n, id, k, x) = (3%Z, "7", "currentTime", "time0111")) then inl "result" else inr (Errorf "?" None)
  | _ => inr (Errorf "?" None)
  end.
Definition Unmarshal (s : string) : Json + error :=
  if decide (s = "call") then inl call_json else if decide (s = "result") then inl result_json else inr (Errorf "syntax" None).

Lemma bytes_ok : json_codec_ok Unmarshal Encode.
Proof.
  intros esc v s _. unfold Encode. repeat (case_match; try done); intros; simplify_eq/=;
  repeat match goal with H : decide _ = _ |- _ => clear H end; simplify_eq; reflexivity.
Qed.

Definition K0 : codec string payload payload :=
  mkCodec (λ _, "") (λ _, "") Unmarshal Encode (λ _ _, inr (Errorf "" None)) (λ _ _, inr (Errorf "" None))
    (λ _, JNull) (λ _, JNull) (λ _, []) (λ _, []) (λ _, []) (λ _, "") (λ _, "v") (λ _, 0%Z) (λ _, "").
Definition K := with_payloads format_time parse_time ocpp16 K0.
Definition ep : @Endpoint string := mkEndpoint V16 V16.DefaultProfiles.

Definition authorize : goval := VStruct [VStr "A1"].
(** A time with a fraction of a second, and what is left of it. *)
Definition heartbeat : goval := VStruct [VPtr (VTime (13 * second + 500000000))].
Definition heartbeat_read : goval := VStruct [VPtr (VTime (13 * second))].
Definition heartbeat_request : payload := request Messages16.core.HeartbeatFeature (VStruct []).
Definition pend : ClientState.clientState payload := ClientState.mkState "7" (Some heartbeat_request).
End Instance_.



Lemma incoming_payload_typed_witness :
  ∃ m v, m ∈ pr_features ocpp16 ∧ "Authorize" = m_name m ∧
    Some (request Messages16.core.AuthorizeFeature Instance_.authorize) = Some (request m v) ∧
    has_type (m_request m) v = true.
Proof.
  apply (incoming_payload_typed Instance_.format_time Instance_.parse_time Instance_.K0 ocpp16 V16
    [int_json 2; JStr "7"; JStr "Authorize"; JObj [("idTag", JStr "A1")]] Instance_.pend
    (MCall (mkCall CALL "7" "Authorize" (Some (request Messages16.core.AuthorizeFeature Instance_.authorize))))).
  - unfold protocols. left.
  - vm_compute. reflexivity.
Defined.

(** ** Enumerations *)

(** The type of the values of a field, below pointers and slices. *)
Fixpoint base_type (t : gotype) : gotype := match t with TPtr t' | TSlice t' => base_type t' | _ => t end.
Definition custom_tags (f : fieldinfo) : list string :=
  omap (λ t, match t with Custom n => Some n | _ => None end) (f_tags f).

(** [types.Validate] is the validator of [ocppj] in both versions, so tags are
    registered in one table. *)
Definition all_registrations : list (string * validator) := Messages16.registrations ++ Messages201.registrations.

(** The values a field of an enumeration type admits: the constants of the type,
    but for three constants the validator does not list, and for the messages a
    charge point can be triggered to send, which have no constants. *)
Definition admitted (en : goenum) : list string :=
  if bool_decide (e_name en = "securefirmware.FirmwareStatus")
  then filter (λ s, s ∉ ["CertificateVerified"; "InvalidCertificate"; "RevokedCertificate"]) (e_values en)
  else if bool_decide (e_name en = "remotetrigger.MessageTrigger")
  then ["BootNotification"; "DiagnosticsStatusNotification"; "FirmwareStatusNotification"; "Heartbeat"; "MeterValues";
        "StatusNotification"]
  else e_values en.

Definition same_values (l k : list string) : bool :=
  forallb (λ s, bool_decide (s ∈ k)) l && forallb (λ s, bool_decide (s ∈ l)) k.

Lemma same_values_spec l k s : same_values l k = true → s ∈ l ↔ s ∈ k.
Proof.
  unfold same_values. rewrite andb_true_iff, !forallb_forall. intros [H1 H2].
  split; intros Hs%list_elem_of_In; [apply H1 in Hs|apply H2 in Hs]; by apply bool_decide_eq_true in Hs.
Qed.

Lemma head_filter_Some {A : Type} (P : A → Prop) `{∀ x, Decision (P x)} (l : list A) x :
  head (filter P l) = Some x → x ∈ l ∧ P x.
Proof.
  intros [l' Hl]%head_Some_inv. assert (Hin : x ∈ filter P l) by (rewrite Hl; left).
  by apply list_elem_of_filter in Hin as [??].
Qed.

Definition enum_field_ok (enums : list goenum) (ft : fieldinfo * gotype) : bool :=
  match base_type ft.2, custom_tags ft.1 with
  | TEnum e, [n] =>
      match head (filter (λ nv, nv.1 = n) all_registrations), head (filter (λ en, e_name en = e) enums) with
      | Some nv, Some en => bool_decide (v_type nv.2 = e) && same_values (v_cases nv.2) (admitted en)
      | _, _ => false
      end
  | TEnum _, _ => false
  | _, ns => bool_decide (ns = [])
  end.

Lemma NoDup_registered n v v' :
  (n, v) ∈ all_registrations → (n, v') ∈ all_registrations → v' = v.
Proof.
  assert (Hnd : NoDup (map fst all_registrations)) by (apply (bool_decide_eq_true_1 _); vm_compute; reflexivity).
  intros H1%(find_unique _ _ _ Hnd) H2%(find_unique _ _ _ Hnd). simpl in *. rewrite H1 in H2. by simplify_eq.
Qed.

(** C23: in both versions every field of an enumeration type has one tag of its
    own, the tag is registered once, with a validator of that very type, and the
    validator accepts exactly the constants of the type, but for the values of
    [admitted]; no other field has such a tag. *)
Theorem enum_fields_validated structs enums t ft :
  (structs, enums) ∈ [(Messages16.structs, Messages16.enums); (Messages201.structs, Messages201.enums)] →
  t ∈ structs → ft ∈ fields_of t →
  match base_type ft.2 with
  | TEnum e => ∃ n v en, custom_tags ft.1 = [n] ∧ (∀ v', (n, v') ∈ all_registrations ↔ v' = v) ∧ v_type v = e ∧
                 en ∈ enums ∧ e_name en = e ∧ ∀ s, isValid v s = true ↔ s ∈ admitted en
  | _ => custom_tags ft.1 = []
  end.
Proof.
  intros Hin Ht Hft. assert (Hok : enum_field_ok enums ft = true).
  { assert (Hall : forallb (λ t, forallb (enum_field_ok enums) (fields_of t)) structs = true).
    { repeat (apply elem_of_cons in Hin as [[= -> ->]|Hin]; [vm_compute; reflexivity|]). by apply elem_of_nil in Hin. }
    rewrite forallb_forall in Hall. apply list_elem_of_In, Hall in Ht. rewrite forallb_forall in Ht.
    by apply Ht, list_elem_of_In. }
  unfold enum_field_ok in Hok. destruct (base_type ft.2); try by apply bool_decide_eq_true in Hok.
  destruct (custom_tags ft.1) as [|n [|]]; [done| |done].
  destruct (head (filter _ all_registrations)) as [[n' v]|] eqn:Hv; [|done].
  destruct (head (filter _ enums)) as [en|] eqn:Hen; [|done].
  apply head_filter_Some in Hv as [Hv <-], Hen as [Hen <-]. simpl in *.
  apply andb_true_iff in Hok as [He%bool_decide_eq_true Hs]. exists n', v, en. split_and!; [done| |done..|].
  - intros v'. split; [|by intros ->]. intros Hv'. by eapply NoDup_registered.
  - intros s. unfold isValid. rewrite bool_decide_eq_true. by apply same_values_spec.
Qed.

Lemma enum_fields_validated_witness :
  ∃ n v en, custom_tags (mkField "Status" "status" false [Required; Custom "signedFirmwareStatus"]) = [n] ∧
    (∀ v', (n, v') ∈ all_registrations ↔ v' = v) ∧ v_type v = "securefirmware.FirmwareStatus" ∧
    en ∈ Messages16.enums ∧ e_name en = "securefirmware.FirmwareStatus" ∧ ∀ s, isValid v s = true ↔ s ∈ admitted en.
Proof.
  apply (enum_fields_validated Messages16.structs Messages16.enums
    Messages16.securefirmware.SignedFirmwareStatusNotificationRequest
    (mkField "Status" "status" false [Required; Custom "signedFirmwareStatus"], TEnum "securefirmware.FirmwareStatus")).
  - left.
  - apply (list_elem_of_lookup_2 _ (length Messages16.structs - 2)). vm_compute. reflexivity.
  - left.
Defined.

(** ** Constructors *)

Fixpoint type_eqb (t t' : gotype) : bool :=
  match t, t' with
  | TString, TString | TInt, TInt | TFloat, TFloat | TBool, TBool | TDateTime, TDateTime
  | TCustomData, TCustomData | TAny, TAny => true
  | TEnum n, TEnum n' => bool_decide (n = n')
  | TPtr u, TPtr u' | TSlice u, TSlice u' => type_eqb u u'
  | TStruct n fs, TStruct n' fs' =>
      bool_decide (n = n') && all2 (λ ft ft', bool_decide (ft.1 = ft'.1) && type_eqb ft.2 ft'.2) fs fs'
  | _, _ => false
  end.

Lemma type_eqb_eq t : ∀ t', type_eqb t t' = true → t = t'.
Proof.
  induction t as [| | | |n| | | |t IH|t IH|n fs IH] using gotype_fields_ind; intros [| | | | | | | | | |n' fs'] H;
    simpl in H; try done.
  - by apply bool_decide_eq_true in H as ->.
  - by rewrite (IH _ H).
  - by rewrite (IH _ H).
  - apply andb_true_iff in H as [->%bool_decide_eq_true H]. f_equal. revert fs' H.
    induction IH as [|[f t] fs Ht _ IH]; intros [|[f' t'] fs'] H; simpl in H; try done.
    rewrite !andb_true_iff, bool_decide_eq_true in H. destruct H as [[-> Ht'] H]. simpl in *.
    by rewrite (Ht _ Ht'), (IH _ H).
Qed.

(** An argument of a literal fits the type of its field. *)
Fixpoint argument_ok (params : list gotype) (t : gotype) (a : argument) : bool :=
  match a with
  | Arg i => match params !! i with Some t' => type_eqb t' t | None => false end
  | Lit v => has_type t v
  | Struct t' sets =>
      match t' with TStruct _ _ => type_eqb t' t | _ => false end &&
      bool_decide (NoDup (map (λ ft, f_name ft.1) (fields_of t'))) &&
      forallb (λ fa : string * argument, match head (filter (λ ft, f_name ft.1 = fa.1) (fields_of t')) with
                       | Some ft => argument_ok params ft.2 fa.2
                       | None => false
                       end) sets
  end.

Definition sets_required (c : constructor) : bool :=
  forallb (λ ft, negb (bool_decide (Required ∈ f_tags ft.1)) || bool_decide (f_name ft.1 ∈ map fst (c_sets c)))
    (fields_of (c_type c)).

Definition constructor_ok (c : constructor) : bool :=
  argument_ok (c_params c) (c_type c) (Struct (c_type c) (c_sets c)) && sets_required c.

Definition all_constructors : list constructor := Messages16.constructors ++ Messages201.constructors.

Section argument_induction.
Variable P : argument → Prop.
Hypothesis (HArg : ∀ i, P (Arg i)) (HLit : ∀ v, P (Lit v))
           (HStruct : ∀ t sets, Forall (λ fa, P fa.2) sets → P (Struct t sets)).
Fixpoint argument_sets_ind (a : argument) : P a :=
  match a with
  | Arg i => HArg i
  | Lit v => HLit v
  | Struct t sets => HStruct t sets
      ((fix go (l : list (string * argument)) : Forall (λ fa, P fa.2) l :=
          match l with
          | [] => Forall_nil_2 _
          | fa :: l' => Forall_cons_2 _ _ _ (argument_sets_ind fa.2) (go l')
          end) sets)
  end.
End argument_induction.

(** The value of a field of a struct literal. *)
Definition set_value (args : list goval) (sets : list (string * argument)) (ft : fieldinfo * gotype) : goval :=
  match head (filter (λ fa, fa.1 = f_name ft.1) sets) with
  | Some fa => argument_value args fa.2
  | None => zero ft.2
  end.

Lemma argument_value_struct args t sets :
  argument_value args (Struct t sets) = VStruct (map (set_value args sets) (fields_of t)).
Proof.
  simpl. unfold struct_literal. f_equal. apply map_ext. intros ft. unfold set_value.
  induction sets as [|[n a] sets IH]; simpl; [done|]. rewrite !filter_cons. simpl.
  destruct (decide (n = f_name ft.1)); [done|]. apply IH.
Qed.

Lemma set_value_cases args sets ft :
  (∃ a, (f_name ft.1, a) ∈ sets ∧ set_value args sets ft = argument_value args a) ∨
  (f_name ft.1 ∉ map fst sets ∧ set_value args sets ft = zero ft.2).
Proof.
  unfold set_value. destruct (head (filter (λ fa, fa.1 = f_name ft.1) sets)) as [[f a]|] eqn:Hh.
  - apply head_filter_Some in Hh as [Hin E]. simpl in E. subst f. left. by exists a.
  - right. split; [|done]. apply head_None in Hh. intros ([f a] & E & Hin)%list_elem_of_fmap. simpl in E.
    assert (Hf : (f, a) ∈ filter (λ fa, fa.1 = f_name ft.1) sets) by (apply list_elem_of_filter; by split).
    rewrite Hh in Hf. by apply elem_of_nil in Hf.
Qed.

Lemma argument_typed params args :
  Forall2 (λ t v, has_type t v = true) params args →
  ∀ a t, argument_ok params t a = true → has_type t (argument_value args a) = true.
Proof.
  intros Hargs. induction a as [i|v|t' sets IH] using argument_sets_ind; intros t Hok.
  - simpl in *. destruct (params !! i) as [t'|] eqn:Hi; [|done]. apply type_eqb_eq in Hok as ->.
    destruct (Forall2_lookup_l _ _ _ _ _ Hargs Hi) as (v & -> & Hv). done.
  - done.
  - rewrite argument_value_struct. cbn [argument_ok] in Hok. rewrite !andb_true_iff, forallb_forall in Hok.
    destruct Hok as [[Ht Hnd%bool_decide_eq_true_1] Hsets].
    destruct t' as [| | | | | | | | | |n fs]; try done. apply type_eqb_eq in Ht as <-. cbn [has_type fields_of] in *.
    apply all2_spec, Forall2_fmap_r, Forall_Forall2_diag, Forall_forall. intros ft Hft. unfold compose.
    destruct (set_value_cases args sets ft) as [(a & Hin & ->)|[_ ->]]; [|apply zero_typed].
    specialize (Hsets _ (proj1 (list_elem_of_In _ _) Hin)). simpl in Hsets.
    pose proof (find_unique (λ ft : fieldinfo * gotype, f_name ft.1) fs ft Hnd Hft) as Hu. simpl in Hu. rewrite Hu in Hsets.
    rewrite Forall_forall in IH. by apply (IH _ Hin).
Qed.

(** each of the 241 constructors of both versions returns a well-typed struct
    that holds the given value in every field it sets and zero in the others, and
    it sets every field the validator requires. *)
Theorem constructors_complete c args :
  c ∈ all_constructors → Forall2 (λ t v, has_type t v = true) (c_params c) args →
  has_type (c_type c) (construct c args) = true ∧
  construct c args = VStruct (map (set_value args (c_sets c)) (fields_of (c_type c))) ∧
  ∀ ft, ft ∈ fields_of (c_type c) → Required ∈ f_tags ft.1 →
    ∃ a, (f_name ft.1, a) ∈ c_sets c ∧ set_value args (c_sets c) ft = argument_value args a.
Proof.
  intros Hc Hargs. assert (Hok : constructor_ok c = true).
  { assert (Hall : forallb constructor_ok all_constructors = true) by (vm_compute; reflexivity).
    rewrite forallb_forall in Hall. by apply Hall, list_elem_of_In. }
  apply andb_true_iff in Hok as [Ha Hr]. split; [by eapply argument_typed|]. split; [apply argument_value_struct|].
  intros ft Hft Hreq. unfold sets_required in Hr. rewrite forallb_forall in Hr.
  specialize (Hr ft (proj1 (list_elem_of_In _ _) Hft)). rewrite (bool_decide_eq_true_2 _ Hreq) in Hr. simpl in Hr.
  apply bool_decide_eq_true in Hr. by destruct (set_value_cases args (c_sets c) ft) as [?|[? _]].
Qed.

Lemma constructors_complete_witness :
  has_type Messages16.core.AuthorizeRequest (construct Messages16.core.NewAuthorizationRequest [VStr "A1"]) = true.
Proof.
  refine (proj1 (constructors_complete Messages16.core.NewAuthorizationRequest [VStr "A1"] _ _)).
  - apply list_elem_of_In. vm_compute. tauto.
  - repeat constructor.
Defined.
