(* ===== verification/Delivery.v ===== *)
(** * Messages between two endpoints and two facades, with their payloads

    The endpoints of [Peer] and the wired facades of [Wiring] with the payload codec
    of OCPP 1.6 or 2.0.1 ([Payloads]).

    - [request_delivered], [response_delivered]: what one endpoint reports as sent
      reaches the handler of the other one.
    - [calls_complete]: a request sent through a charge point or a charging station
      and answered by a handler of the central system or CSMS ends with its callback.

    A payload arrives as its [wire_value]; what bytes can carry is [json_exact]. *)

From Stdlib Require Import QArith.QArith Ascii.
From S2P Require Import Prelude Conc Ocpp Errors Queue State Message Endpoint GoTypes GoJson Schema Messages16 Messages201 Panic CallbackQueue ServerDispatcher ClientDispatcher Peer PeerTheorems PeerInstances Facade Services Facades FacadeTheorems Wiring WiringTheorems Wrappers Payloads MessageTheorems.
Local Open Scope string_scope.
Local Open Scope list_scope.

(** What is received for the request or the response [v] of the message [m]. *)
Definition read_request (m : message_feature) (v : goval) : payload := request m (wire_value (m_request m) v).
Definition read_response (m : message_feature) (v : goval) : payload := response m (wire_value (m_response m) v).

Lemma read_request_canon m v :
  has_type (m_request m) v = true → canon (m_request m) v = true → read_request m v = request m v.
Proof. intros Ht Hc. unfold read_request. by rewrite wire_value_canon. Qed.
Lemma read_response_canon m v :
  has_type (m_response m) v = true → canon (m_response m) v = true → read_response m v = response m v.
Proof. intros Ht Hc. unfold read_response. by rewrite wire_value_canon. Qed.

(** ** What bytes carry of a message *)

Lemma nesting_strings ids j : nesting (JArr (map JStr ids ++ [j])) = nesting (JArr [j]).
Proof. cbn [nesting]. f_equal. induction ids as [|i ids IH]; simpl; [done|]. simpl in IH. by rewrite IH. Qed.

(** A payload that bytes can carry in an array can be carried in a message. *)
Lemma exact_message q (ids : list string) j :
  exact_number q = true → forallb ValidString ids = true → json_exact (JArr [j]) = true →
  json_exact (JArr (JNum q :: map JStr ids ++ [j])) = true.
Proof.
  unfold json_exact. intros Hq Hids [Hj Hn]%andb_true_iff. apply bool_decide_eq_true in Hn.
  apply andb_true_iff. split.
  - cbn [exact_value]. simpl. rewrite Hq, forallb_app. simpl in Hj |- *. rewrite Hj, andb_true_r. clear -Hids.
    induction ids as [|i ids IH]; [done|]. simpl in *. apply andb_true_iff in Hids as [-> Hids]. by apply IH.
  - apply bool_decide_eq_true. etrans; [|exact Hn].
    rewrite <-(nesting_strings ids j). by apply N.eq_le_incl.
Qed.

Section endpoints.
Context {W1 W2 : Type} `{!ClientEnv W1 payload, !ServerEnv W2 payload}.
Context (format_time : Z → string) (iso8601_Parse : string → Z + error).
Context (K0 : codec string payload payload) (pv : protocol) (EscapeHTML validationEnabled : bool).
Let K := with_payloads format_time iso8601_Parse pv K0.
Context (c : Client.Client string payload payload W1) (s : Server.Server string payload payload W2).

(** The codec of a version at any endpoint with its profiles. *)
Lemma request_reads_at (e : @Endpoint string) m v :
  time_codec_ok format_time iso8601_Parse → pv ∈ protocols → Profiles e = pr_profiles pv →
  m ∈ pr_features pv → has_type (m_request m) v = true → times_ok (m_request m) v = true →
  request_reads (GetFeatureName pv) (decode_payload iso8601_Parse pv) (encode_payload format_time pv) e (request m v)
    (read_request m v).
Proof.
  intros Htime Hpv He Hm Ht Htv. destruct e as [d ps]. simpl in He. subst ps.
  by apply request_codec.
Qed.
Lemma response_reads_at (e : @Endpoint string) m v :
  time_codec_ok format_time iso8601_Parse → pv ∈ protocols → Profiles e = pr_profiles pv →
  m ∈ pr_features pv → has_type (m_response m) v = true → times_ok (m_response m) v = true →
  response_reads (decode_payload iso8601_Parse pv) (encode_payload format_time pv) e (m_name m) (response m v)
    (read_response m v).
Proof.
  intros Htime Hpv He Hm Ht Htv. destruct e as [d ps]. simpl in He. subst ps.
  by apply response_codec.
Qed.

Lemma call_exact m v id :
  pv ∈ protocols → m ∈ pr_features pv → ValidString id = true →
  json_exact (JArr [encode_payload format_time pv (request m v)]) = true →
  json_exact (JArr (Call_fields (encode_payload format_time pv) (mkCall CALL id (m_name m) (Some (request m v))))) = true.
Proof.
  intros Hpv Hm Hid Hx. apply (exact_message _ [id; m_name m]); [done| |done]. simpl. rewrite Hid, andb_true_r.
  assert (Hall : forallb (λ pv, forallb (λ m, ValidString (m_name m)) (pr_features pv)) protocols = true)
    by (vm_compute; reflexivity).
  rewrite forallb_forall in Hall. apply list_elem_of_In, Hall in Hpv. rewrite forallb_forall in Hpv.
  by apply Hpv, list_elem_of_In.
Qed.
Lemma result_exact m v id :
  ValidString id = true → json_exact (JArr [encode_payload format_time pv (response m v)]) = true →
  json_exact (JArr (CallResult_fields (encode_payload format_time pv)
    (mkCallResult CALL_RESULT id (Some (response m v))))) = true.
Proof. intros Hid Hx. apply (exact_message _ [id]); [done|by simpl; rewrite Hid|done]. Qed.


End endpoints.

(** ** From a facade to the other side's and back *)

(** The cases of a facade are for the request types of the messages. *)
Definition cases_typed (pv : protocol) (s : spec) : bool :=
  forallb (λ m, match find_case (m_name m) (cases s) with
                | Some c => bool_decide (case_type c = type_name (m_request m))
                | None => true
                end) (pr_features pv).

Section call.
Context {P1 P2 CB1 CB2 : Type} `{!ClientEnv P1 payload, !ServerEnv P2 payload}.
Context (format_time : Z → string) (iso8601_Parse : string → Z + error).
Context (K0 : codec string payload payload) (EscapeHTML : bool) (quote : string → string).
Abbreviation W1 := (world P1 payload CB1 (message payload payload)).
Abbreviation W2 := (world P2 payload CB2 (goroutine payload payload CB2)).
Context (run_cb1 : CB1 → option payload → option error → W1 → W1 * outcome unit).
Context (run_cb2 : CB2 → option payload → option error → W2 → W2 * outcome unit).
Abbreviation codec_of := (λ pv, with_payloads format_time iso8601_Parse pv K0).

(** The request [v] of the message [m] is answered with the response [rv] by the
    handler of the facade: both are well-typed values that bytes can carry; the
    handler of the action's profile returns the response for what is read of the
    request; under every id with which the request is valid, what is read of it and
    the response, as sent and as read, are valid, and the response can be encoded. *)
Definition answered_by (pv : protocol) (s : spec) (fs : server_facade P2 payload payload CB2) (m : message_feature)
    (v rv : goval) : Prop :=
  let K := codec_of pv in
  m ∈ pr_features pv ∧
  (has_type (m_request m) v = true ∧ times_ok (m_request m) v = true ∧
   json_exact (JArr [c_encode_request K (request m v)]) = true) ∧
  (has_type (m_response m) rv = true ∧ times_ok (m_response m) rv = true ∧
   json_exact (JArr [c_encode_response K (response m rv)]) = true) ∧
  (∃ c h, find_case (m_name m) (cases s) = Some c ∧ sf_handlers fs (case_profile c) = Some h ∧
     ∀ w, ∃ w', h (m_name m) (read_request m v) w = (w', Done (Some (response m rv), None))) ∧
  (∀ id, c_validate_call K (mkCall CALL id (m_name m) (Some (request m v))) = [] →
     let cr := mkCallResult CALL_RESULT id (Some (response m rv)) in
     c_validate_call K (mkCall CALL id (m_name m) (Some (read_request m v))) = [] ∧
     c_validate_result K cr = [] ∧
     c_validate_result K (mkCallResult CALL_RESULT id (Some (read_response m rv))) = [] ∧
     ∃ reply, CallResult_MarshalJSON (c_Encode K) (c_encode_response K) EscapeHTML cr = inl reply).

Lemma answered_call_ok pv s fs m v rv (cl : Client.Client string payload payload W1)
    (srv : Server.Server string payload payload W2) :
  time_codec_ok format_time iso8601_Parse → pv ∈ protocols → cases_typed pv s = true →
  Profiles (Client.endpoint cl) = pr_profiles pv → Profiles (Server.endpoint srv) = pr_profiles pv →
  answered_by pv s fs m v rv →
  call_ok (codec_of pv) EscapeHTML p_type s cl srv fs (request m v) (read_request m v) (response m rv) (read_response m rv).
Proof.
  intros Htime Hpv Hty Hcl Hsrv (Hm & (Ht & Htv & Hx) & (Htr & Htvr & Hxr) & (c & h & Hc & Hh & Hret) & Hid).
  unfold call_ok. simpl. rewrite request_feature by done. split; [by apply request_reads_at|].
  split; [by apply response_reads_at|]. split; [by apply response_feature|]. split.
  - exists c, h. split_and!; [done|done| |done]. unfold cases_typed in Hty. rewrite forallb_forall in Hty.
    specialize (Hty m (proj1 (list_elem_of_In _ _) Hm)). rewrite Hc in Hty. by apply bool_decide_eq_true in Hty.
  - intros id Hu Hv. destruct (Hid id Hv) as (Hv1 & Hv2 & Hv3 & Hr).
    split_and!; [by apply call_exact|done|done|by apply result_exact|done|done].
Qed.

(** C34: a request of OCPP 1.6 sent through a charge point to a central system, or
    of OCPP 2.0.1 through a charging station to a CSMS, all with the default
    endpoints of their constructors, whose user handler returns a response: the
    bytes queued make the server start one goroutine for the request as it is read,
    which invokes the handler and writes the response and nothing else; when these
    bytes arrive while the request is pending and complete it, the response as it is
    read is put into the client's channel, and taking it from there runs the
    callback given with the request once, with this response.  Conditions:
    [answered_by] (values that bytes can carry, the handler's answer, and a validator
    that accepts the response under every id under which it accepts the request), ids of
    valid UTF-8, the server's writes succeed, RFC 3339 times, [encoding/json] reads
    what it wrote.  When the client's stop channel is closed, its arm of the select
    may be taken, and the response is dropped. *)
Theorem calls_complete (id client : string) (fc : client_facade P1 payload payload CB1)
    (fs : server_facade P2 payload payload CB2) (p1 : P1) (p2 : P2) (m : message_feature) (v rv : goval) (cb : CB1)
    w w1 l :
  time_codec_ok format_time iso8601_Parse → json_codec_ok (c_Unmarshal K0) (c_Encode K0) →
  (∀ c data p, (se_Write c data p : P2 * option error).2 = None) →
  (∀ p : P1, ValidString (ce_generateId p).2 = true) →
  (let K := codec_of ocpp16 in
   let cp := (ChargePointWiring.NewChargePoint quote id None fc p1).1 in
   let cs := (CentralSystemWiring.NewCentralSystem K true EscapeHTML p_type quote run_cb2 None fs p2).1 in
   answered_by ocpp16 V16.central_system fs m v rv →
   ChargePointWiring.SendRequestAsync K true EscapeHTML cp (request m v) cb w = (w1, l, Done None) →
   exchanged K EscapeHTML run_cb1 cp cs (ChargePointWiring.run K true EscapeHTML p_type run_cb1 cp fc)
     (CentralSystemWiring.run K true EscapeHTML p_type run_cb2 cs fs) client (request m v) (read_request m v)
     (read_response m rv) cb l w1) ∧
  (let K := codec_of ocpp201 in
   let cp := (ChargingStationWiring.NewChargingStation quote id None fc p1).1 in
   let cs := (CSMSWiring.NewCSMS K true EscapeHTML p_type quote run_cb2 None fs p2).1 in
   answered_by ocpp201 V201.csms fs m v rv →
   ChargingStationWiring.SendRequestAsync K true EscapeHTML cp (request m v) cb w = (w1, l, Done None) →
   exchanged K EscapeHTML run_cb1 cp cs (ChargingStationWiring.run K true EscapeHTML p_type run_cb1 cp fc)
     (CSMSWiring.run K true EscapeHTML p_type run_cb2 cs fs) client (request m v) (read_request m v)
     (read_response m rv) cb l w1).
Proof.
  intros Htime Hj Hw Hg. split; intros K cp cs Hok Hs.
  - eapply (exchange K EscapeHTML p_type quote run_cb1 run_cb2 ChargePoint.facade_texts V16.charge_point _ _
      CentralSystem.facade_texts V16.central_system Ocpp.V16 V16.DefaultProfiles
      (default_client id V16.DefaultProfiles) fc (default_server V16.DefaultProfiles) fs Hj Hw Hg eq_refl eq_refl
      ltac:(by vm_compute) client (Some Background) _ _ (response m rv)); [|exact Hs].
    apply answered_call_ok; [done|left|vm_compute; reflexivity|done..].
  - eapply (exchange K EscapeHTML p_type quote run_cb1 run_cb2 ChargingStation.facade_texts V201.charging_station _ _
      CSMS.facade_texts V201.csms Ocpp.V2 V201.DefaultProfiles
      (default_client id V201.DefaultProfiles) fc (default_server V201.DefaultProfiles) fs Hj Hw Hg eq_refl eq_refl
      ltac:(by vm_compute) client (Some Background) _ _ (response m rv)); [|exact Hs].
    apply answered_call_ok; [done|right; left|vm_compute; reflexivity|done..].
Qed.
End call.

(** ** A heartbeat of OCPP 1.6 *)

Module DeliveryDemo.
(** The bytes of a heartbeat and of its confirmation at one time: a letter and the id. *)
Definition heartbeat_json : Json := JObj [].
Definition confirmation_json : Json := JObj [("currentTime", JStr "time0111")].
Definition call_json (id : string) : Json := JArr [int_json 2; JStr id; JStr "Heartbeat"; heartbeat_json].
Definition result_json (id : string) : Json := JArr [int_json 3; JStr id; confirmation_json].
Definition Encode (_ : bool) (v : Json) : string + error :=
  match v with
  | JArr [JNum (Qmake n 1); JStr id; JStr action; JObj []] =>
      if decide ((n, action) = (2%Z, "Heartbeat")) then inl (String "C"%char id) else inr (Errorf "?" None)
  | JArr [JNum (Qmake n 1); JStr id; JObj [(k, JStr x)]] =>
      if decide ((n, k, x) = (3%Z, "currentTime", "time0111")) then inl (String "R"%char id) else inr (Errorf "?" None)
  | _ => inr (Errorf "?" None)
  end.
Definition Unmarshal (s : string) : Json + error :=
  match s with
  | String "C"%char id => inl (call_json id)
  | String "R"%char id => inl (result_json id)
  | _ => inr (Errorf "syntax" None)
  end.

Lemma heartbeat_bytes_ok : json_codec_ok Unmarshal Encode.
Proof.
  intros esc v s _. unfold Encode. repeat (case_match; try done); intros; simplify_eq/=;
  repeat match goal with H : decide _ = _ |- _ => clear H end; simplify_eq; reflexivity.
Qed.

(** Ids have at most 36 bytes. *)
Definition K0 : codec string payload payload :=
  mkCodec (λ _, "") (λ _, "") Unmarshal Encode (λ _ _, inr (Errorf "" None)) (λ _ _, inr (Errorf "" None))
    (λ _, JNull) (λ _, JNull) (λ c, Demo.check_id (UniqueId c)) (λ c, Demo.check_id (cr_UniqueId c)) Demo.verror
    (λ _, "") (λ _, "v") (λ _, 0%Z) (λ _, "").
Definition K := with_payloads Instance_.format_time Instance_.parse_time ocpp16 K0.
Definition feature : message_feature := Messages16.core.HeartbeatFeature.
Lemma feature_in : feature ∈ pr_features ocpp16.
Proof. apply (list_elem_of_lookup_2 _ 7). vm_compute. reflexivity. Qed.
Lemma version_in : ocpp16 ∈ protocols.
Proof. left. Qed.

Definition cw0 : client_world payload :=
  mkCW (Start (SetNetworkClient true (NewDefaultClientDispatcher (FIFO.mkQueue [] 10)))) [] true.
Definition sw0 : server_world payload :=
  se_CreateClient "cp1" (mkSW (ServerDispatcher.Start (ServerDispatcher.SetNetworkServer true
    (ServerDispatcher.NewDefaultServerDispatcher (QueueMap.NewFIFOQueueMap 0)))) []).
Definition ep : @Endpoint string := mkEndpoint V16 V16.DefaultProfiles.
Definition client : Client.Client string payload payload (client_world payload) :=
  Client.mkClient ep "cp" None (Some (λ _ _ w, (w, Done tt))) None None None None None.
Definition server : Server.Server string payload payload (server_world payload) :=
  Server.mkServer ep None None (Some (λ _ _ _ _ w, (w, Done tt))) None None None None.
(** The client once its heartbeat "7" is queued and pending. *)
Definition the_request : payload := request feature (VStruct []).
Definition cw1 : client_world payload :=
  on_client' (λ d, add_pending (mkCall CALL "7" "Heartbeat" (Some the_request)) d)
    (Client.SendRequest K true false client the_request cw0).1.1.

(** The facades: the core handler answers a heartbeat at half a second. *)
Definition core_handler {W : Type} : @profile_handler payload payload W :=
  λ _ _ w, (w, Done (Some (response feature Instance_.heartbeat), None)).
Definition fc : client_facade (client_world payload) payload payload nat := empty_client_facade.
Definition fs : server_facade (server_world payload) payload payload nat :=
  CentralSystemWiring.SetCoreHandler (Some core_handler) empty_server_facade.
Definition quiet {W : Type} (_ : nat) (_ : option payload) (_ : option error) (w : W) : W * outcome unit := (w, Done tt).
Definition quote (s : string) : string := s.
Definition cp := ChargePointWiring.NewChargePoint quote "cp1" None fc cw0.
Definition cs := CentralSystemWiring.NewCentralSystem K true false p_type quote quiet None fs sw0.
Definition sent_heartbeat := ChargePointWiring.SendRequestAsync K true false cp.1 the_request 5 cp.2.
End DeliveryDemo.
Import DeliveryDemo.



Lemma calls_complete_witness :
  exchanged K false quiet cp.1 cs.1 (ChargePointWiring.run K true false p_type quiet cp.1 fc)
    (CentralSystemWiring.run K true false p_type quiet cs.1 fs) "cp1" the_request the_request
    (response feature Instance_.heartbeat_read) 5 sent_heartbeat.1.2 sent_heartbeat.1.1.
Proof.
  apply (proj1 (calls_complete Instance_.format_time Instance_.parse_time K0 false quote quiet quiet "cp1" "cp1" fc fs
    cw0 sw0 feature (VStruct []) Instance_.heartbeat 5 cp.2 _ _ Instance_.rfc3339_ok heartbeat_bytes_ok ltac:(done)
    ltac:(done))).
  - split; [exact feature_in|]. split; [split_and!; vm_compute; reflexivity|].
    split; [split_and!; vm_compute; reflexivity|]. split.
    + exists (mkCase "Heartbeat" "Core" "core.HeartbeatRequest"), core_handler.
      split; [vm_compute; reflexivity|]. split; [reflexivity|]. intros w. exists w. reflexivity.
    + intros i Hi. split; [exact Hi|]. split; [exact Hi|]. split; [exact Hi|]. exists (String "R"%char i).
      vm_compute. reflexivity.
  - vm_compute. reflexivity.
Defined.
