(* ===== verification/ConfigKeys.v ===== *)
(** * Configuration keys and defaults
    (src/ocpp1.6/configmanager/keys.go, src/ocpp1.6/configmanager/defaults.go)

    The OCPP 1.6 key names, the keys each profile requires, and the default
    configuration of each profile.  A [Key] is a string.  The values of the
    defaults are given by content; [ConfigManager] allocates them. *)

From S2P Require Import Prelude Ocpp.
Local Open Scope string_scope.
Local Open Scope list_scope.

Module Keys.
Definition AllowOfflineTxForUnknownId : string := "AllowOfflineTxForUnknownId".
Definition AuthorizationCacheEnabled : string := "AuthorizationCacheEnabled".
Definition AuthorizeRemoteTxRequests : string := "AuthorizeRemoteTxRequests".
Definition BlinkRepeat : string := "BlinkRepeat".
Definition ClockAlignedDataInterval : string := "ClockAlignedDataInterval".
Definition ConnectionTimeOut : string := "ConnectionTimeOut".
Definition GetConfigurationMaxKeys : string := "GetConfigurationMaxKeys".
Definition HeartbeatInterval : string := "HeartbeatInterval".
Definition LightIntensity : string := "LightIntensity".
Definition LocalAuthorizeOffline : string := "LocalAuthorizeOffline".
Definition LocalPreAuthorize : string := "LocalPreAuthorize".
Definition MaxEnergyOnInvalidId : string := "MaxEnergyOnInvalidId".
Definition MeterValuesAlignedData : string := "MeterValuesAlignedData".
Definition MeterValuesAlignedDataMaxLength : string := "MeterValuesAlignedDataMaxLength".
Definition MeterValuesSampledData : string := "MeterValuesSampledData".
Definition MeterValuesSampledDataMaxLength : string := "MeterValuesSampledDataMaxLength".
Definition MeterValueSampleInterval : string := "MeterValueSampleInterval".
Definition MinimumStatusDuration : string := "MinimumStatusDuration".
Definition NumberOfConnectors : string := "NumberOfConnectors".
Definition ResetRetries : string := "ResetRetries".
Definition ConnectorPhaseRotation : string := "ConnectorPhaseRotation".
Definition ConnectorPhaseRotationMaxLength : string := "ConnectorPhaseRotationMaxLength".
Definition StopTransactionOnEVSideDisconnect : string := "StopTransactionOnEVSideDisconnect".
Definition StopTransactionOnInvalidId : string := "StopTransactionOnInvalidId".
Definition StopTxnAlignedData : string := "StopTxnAlignedData".
Definition StopTxnAlignedDataMaxLength : string := "StopTxnAlignedDataMaxLength".
Definition StopTxnSampledData : string := "StopTxnSampledData".
Definition StopTxnSampledDataMaxLength : string := "StopTxnSampledDataMaxLength".
Definition SupportedFeatureProfiles : string := "SupportedFeatureProfiles".
Definition SupportedFeatureProfilesMaxLength : string := "SupportedFeatureProfilesMaxLength".
Definition TransactionMessageAttempts : string := "TransactionMessageAttempts".
Definition TransactionMessageRetryInterval : string := "TransactionMessageRetryInterval".
Definition UnlockConnectorOnEVSideDisconnect : string := "UnlockConnectorOnEVSideDisconnect".
Definition WebSocketPingInterval : string := "WebSocketPingInterval".
Definition LocalAuthListEnabled : string := "LocalAuthListEnabled".
Definition LocalAuthListMaxLength : string := "LocalAuthListMaxLength".
Definition SendLocalListMaxLength : string := "SendLocalListMaxLength".
Definition ReserveConnectorZeroSupported : string := "ReserveConnectorZeroSupported".
Definition SupportedFileTransferProtocols : string := "SupportedFileTransferProtocols".
Definition ChargeProfileMaxStackLevel : string := "ChargeProfileMaxStackLevel".
Definition ChargingScheduleAllowedChargingRateUnit : string := "ChargingScheduleAllowedChargingRateUnit".
Definition ChargingScheduleMaxPeriods : string := "ChargingScheduleMaxPeriods".
Definition MaxChargingProfilesInstalled : string := "MaxChargingProfilesInstalled".
Definition ConnectorSwitch3to1PhaseSupported : string := "ConnectorSwitch3to1PhaseSupported".
Definition CentralContractValidationAllowed : string := "CentralContractValidationAllowed".
Definition CertificateSignedMaxChainSize : string := "CertificateSignedMaxChainSize".
Definition CertSigningWaitMinimum : string := "CertSigningWaitMinimum".
Definition CertSigningRepeatTimes : string := "CertSigningRepeatTimes".
Definition CertificateStoreMaxLength : string := "CertificateStoreMaxLength".
Definition ContractValidationOffline : string := "ContractValidationOffline".
Definition ISO15118PnCEnabled : string := "ISO15118PnCEnabled".
Definition AuthorizationData : string := "AuthorizationData".
Definition AdditionalRootCertificateCheck : string := "AdditionalRootCertificateCheck".
Definition CpoName : string := "CpoName".
Definition SecurityProfile : string := "SecurityProfile".

Definition MandatoryCoreKeys : list string :=
  [AuthorizeRemoteTxRequests; ClockAlignedDataInterval; ConnectionTimeOut; GetConfigurationMaxKeys;
   HeartbeatInterval; LocalPreAuthorize; MeterValuesAlignedData; MeterValuesSampledData;
   MeterValueSampleInterval; NumberOfConnectors; ResetRetries; ConnectorPhaseRotation;
   StopTransactionOnEVSideDisconnect; StopTransactionOnInvalidId; StopTxnAlignedData;
   StopTxnSampledData; SupportedFeatureProfiles; TransactionMessageAttempts;
   TransactionMessageRetryInterval; UnlockConnectorOnEVSideDisconnect].
Definition MandatoryLocalAuthKeys : list string :=
  [LocalAuthListEnabled; LocalAuthListMaxLength; SendLocalListMaxLength].
Definition MandatorySmartChargingKeys : list string :=
  [MaxChargingProfilesInstalled; ChargingScheduleMaxPeriods;
   ChargingScheduleAllowedChargingRateUnit; ChargeProfileMaxStackLevel].
Definition MandatoryFirmwareKeys : list string :=
  [SupportedFileTransferProtocols].
Definition MandatoryISO15118Keys : list string :=
  [ISO15118PnCEnabled; ContractValidationOffline].

(** Profile names (the [ProfileName] constants of the profile packages). *)
Definition core_ProfileName : string := "Core".
Definition smartcharging_ProfileName : string := "SmartCharging".
Definition localauth_ProfileName : string := "LocalAuthListManagement".
Definition firmware_ProfileName : string := "FirmwareManagement".
Definition ISO15118ProfileName : string := "ISO15118".

(** The mandatory keys of one profile; none for an unknown name. *)
Definition mandatory_of (profile : string) : list string :=
  if decide (profile = core_ProfileName) then MandatoryCoreKeys else
  if decide (profile = smartcharging_ProfileName) then MandatorySmartChargingKeys else
  if decide (profile = localauth_ProfileName) then MandatoryLocalAuthKeys else
  if decide (profile = firmware_ProfileName) then MandatoryFirmwareKeys else
  if decide (profile = ISO15118ProfileName) then MandatoryISO15118Keys else [].

Definition GetMandatoryKeysForProfile (profiles : list string) : list string :=
  foldl (λ acc profile, acc ++ mandatory_of profile) [] profiles.
End Keys.

(** A key with its value given by content. *)
Record key_default := mkDefault { dkey : string; dreadonly : bool; dvalue : string }.

Module Defaults.
Import Keys.
Definition standardMeasurands : string :=
  "Voltage,Current.Import,Power.Active.Import,Energy.Active.Import.Interval,SoC".

Definition DefaultCoreConfiguration : list key_default :=
  [mkDefault AuthorizeRemoteTxRequests false "true";
   mkDefault ClockAlignedDataInterval false "0";
   mkDefault ConnectionTimeOut false "60";
   mkDefault GetConfigurationMaxKeys false "100";
   mkDefault HeartbeatInterval false "60";
   mkDefault LocalPreAuthorize false "false";
   mkDefault MeterValuesAlignedData false "true";
   mkDefault MeterValuesSampledData false standardMeasurands;
   mkDefault MeterValueSampleInterval false "20";
   mkDefault NumberOfConnectors true "1";
   mkDefault ResetRetries false "3";
   mkDefault ConnectorPhaseRotation true "Unknown";
   mkDefault StopTransactionOnEVSideDisconnect false "true";
   mkDefault StopTransactionOnInvalidId false "true";
   mkDefault StopTxnAlignedData false standardMeasurands;
   mkDefault StopTxnSampledData false standardMeasurands;
   mkDefault SupportedFeatureProfiles true "Core";
   mkDefault TransactionMessageAttempts false "3";
   mkDefault TransactionMessageRetryInterval false "30";
   mkDefault UnlockConnectorOnEVSideDisconnect false "true"].

Definition DefaultLocalAuthConfiguration : list key_default :=
  [mkDefault LocalAuthListEnabled false "true";
   mkDefault LocalAuthListMaxLength true "100";
   mkDefault SendLocalListMaxLength true "100"].

Definition DefaultSmartChargingConfiguration : list key_default :=
  [mkDefault ChargeProfileMaxStackLevel true "5";
   mkDefault ChargingScheduleAllowedChargingRateUnit true "Current,Power";
   mkDefault ChargingScheduleMaxPeriods true "6";
   mkDefault MaxChargingProfilesInstalled true "5"].

Definition DefaultFirmwareConfiguration : list key_default :=
  [mkDefault SupportedFileTransferProtocols true "HTTP,HTTPS,FTP,FTPS,SFTP"].

Definition DefaultISO15118Configuration : list key_default :=
  [mkDefault CentralContractValidationAllowed false "true";
   mkDefault CertificateSignedMaxChainSize true "5";
   mkDefault CertSigningWaitMinimum false "300";
   mkDefault CertSigningRepeatTimes false "3";
   mkDefault CertificateStoreMaxLength true "10";
   mkDefault ContractValidationOffline false "true";
   mkDefault ISO15118PnCEnabled false "false"].

(** The defaults of one profile, an error for an unknown name. *)
Definition default_of (profile : string) : list key_default + error :=
  if decide (profile = core_ProfileName) then inl DefaultCoreConfiguration else
  if decide (profile = localauth_ProfileName) then inl DefaultLocalAuthConfiguration else
  if decide (profile = smartcharging_ProfileName) then inl DefaultSmartChargingConfiguration else
  if decide (profile = firmware_ProfileName) then inl DefaultFirmwareConfiguration else
  if decide (profile = ISO15118ProfileName) then inl DefaultISO15118Configuration else
  inr (Errorf ("unknown profile " +:+ profile) None).

(** The loop of [DefaultConfigurationFromProfiles]. *)
Fixpoint defaults_loop (profiles : list string) (keys : list key_default) : list key_default + error :=
  match profiles with
  | [] => inl keys
  | p :: ps => match default_of p with
               | inl ks => defaults_loop ps (keys ++ ks)
               | inr e => inr e
               end
  end.

Definition DefaultConfigurationFromProfiles (profiles : list string) : list key_default + error :=
  match profiles with
  | [] => inr (Errorf "no profiles provided" None)
  | _ => defaults_loop profiles []
  end.
End Defaults.

(** ** Lemmas *)

Lemma mandatory_snoc ps p :
  Keys.GetMandatoryKeysForProfile (ps ++ [p]) = Keys.GetMandatoryKeysForProfile ps ++ Keys.mandatory_of p.
Proof. unfold Keys.GetMandatoryKeysForProfile. by rewrite foldl_app. Qed.

Lemma mandatory_elem ps k :
  k ∈ Keys.GetMandatoryKeysForProfile ps ↔ ∃ p, p ∈ ps ∧ k ∈ Keys.mandatory_of p.
Proof.
  induction ps as [|p ps IH] using rev_ind.
  - split; [intros Hk; by apply elem_of_nil in Hk|intros (p & Hp & _); by apply elem_of_nil in Hp].
  - rewrite mandatory_snoc, elem_of_app, IH. setoid_rewrite elem_of_snoc. naive_solver.
Qed.

(** Each profile's defaults contain its mandatory keys. *)
Lemma default_of_mandatory p ks :
  Defaults.default_of p = inl ks → ∀ k, k ∈ Keys.mandatory_of p → k ∈ dkey <$> ks.
Proof.
  assert (Hall : ∀ (m : list string) (l : list key_default), forallb (λ k, bool_decide (k ∈ dkey <$> l)) m = true → ∀ k : string, k ∈ m → k ∈ dkey <$> l).
  { intros m l Hb k Hk. rewrite forallb_forall in Hb. apply list_elem_of_In in Hk.
    by apply Hb, bool_decide_eq_true in Hk. }
  unfold Defaults.default_of, Keys.mandatory_of.
  repeat (case_decide; simplify_eq/=; try (intros ?; simplify_eq; apply Hall; vm_compute; reflexivity)).
  all: try done.
Qed.

Lemma defaults_loop_elem ps : ∀ acc ks,
  Defaults.defaults_loop ps acc = inl ks →
  (∀ d, d ∈ acc → d ∈ ks) ∧ ∀ p, p ∈ ps → ∃ l, Defaults.default_of p = inl l ∧ ∀ d, d ∈ l → d ∈ ks.
Proof.
  induction ps as [|p ps IH]; intros acc ks; simpl.
  - intros; simplify_eq. split; [done|]. intros p Hp. by apply elem_of_nil in Hp.
  - destruct (Defaults.default_of p) as [l|e] eqn:Hp; [|done]. intros Hl.
    destruct (IH _ _ Hl) as [H1 H2]. split; [intros d Hd; apply H1, elem_of_app; auto|].
    intros p' [->|Hin]%elem_of_cons; [|auto]. exists l. split; [done|].
    intros d Hd. apply H1, elem_of_app. auto.
Qed.

(** The defaults of some profiles contain every key those profiles require. *)
Lemma defaults_mandatory ps ks :
  Defaults.DefaultConfigurationFromProfiles ps = inl ks →
  ∀ k, k ∈ Keys.GetMandatoryKeysForProfile ps → k ∈ dkey <$> ks.
Proof.
  intros Hd k (p & Hp & Hk)%mandatory_elem. unfold Defaults.DefaultConfigurationFromProfiles in Hd.
  destruct ps as [|p0 ps]; [done|]. destruct (defaults_loop_elem _ _ _ Hd) as [_ Hall].
  destruct (Hall p Hp) as (l & Hl & Hin).
  pose proof (default_of_mandatory p l Hl k Hk) as (d & -> & Hdl)%list_elem_of_fmap.
  apply list_elem_of_fmap. eauto.
Qed.
