(* ===== verification/ConfigManager.v ===== *)
(** * The OCPP 1.6 configuration manager
    (src/ocpp1.6/configmanager: configuration.go, helpers.go, manager.go, wiring.go)

    A key's value is a [*string], so values live in a store of cells and the
    deep copies of the code allocate.  Every exported method of [ManagerV16]
    holds the manager's mutex from start to end, handlers included: each is
    one function on the pair of store and manager.  A nil slice and an empty
    one are the same list. *)

From S2P Require Import Prelude Ocpp ConfigKeys.
Local Open Scope string_scope.
Local Open Scope list_scope.

Definition ErrKeyNotFound : error := Sentinel "ErrKeyNotFound" "key not found".
Definition ErrReadOnly : error := Sentinel "ErrReadOnly" "attribute is read-only".
Definition ErrKeyCannotBeEmpty : error := Sentinel "ErrKeyCannotBeEmpty" "key cannot be empty".
Definition ErrNilHandler : error := Sentinel "ErrNilHandler" "update handler cannot be nil".

(** ** String cells *)

Record mem := mkMem { cells : gmap nat string; next : nat }.

Definition ptr (v : string) (m : mem) : mem * nat :=
  (mkMem (<[next m := v]> (cells m)) (S (next m)), next m).
Definition write (l : nat) (v : string) (m : mem) : mem := mkMem (<[l := v]> (cells m)) (next m).
(** The content of a [*string]; [None] is a nil pointer. *)
Definition content (m : mem) (v : option nat) : option string := l ← v; cells m !! l.
Definition mem_wf (m : mem) : Prop := ∀ l, is_Some (cells m !! l) → l < next m.
Definition valid (m : mem) (v : option nat) : Prop := ∀ l, v = Some l → is_Some (cells m !! l).

(** ** Config *)

Record ConfigurationKey := mkKey { Key : string; Readonly : bool; Value : option nat }.
Record Config := mkConfig { Version : Z; ConfigKeys : list ConfigurationKey }.

Definition NewEmptyConfiguration : Config := mkConfig 1 [].

Fixpoint findKeyIndex (keys : list ConfigurationKey) (key : string) : option (ConfigurationKey * nat) :=
  match keys with
  | [] => None
  | k :: ks => if decide (Key k = key) then Some (k, 0)
               else '(k', i) ← findKeyIndex ks key; Some (k', S i)
  end.

Definition containsKey (keys : list string) (key : string) : bool := bool_decide (key ∈ keys).

Definition set_value (v : option nat) (k : ConfigurationKey) : ConfigurationKey :=
  mkKey (Key k) (Readonly k) v.
Definition set_at (i : nat) (v : option nat) (c : Config) : Config :=
  mkConfig (Version c) (alter (set_value v) i (ConfigKeys c)).

(** [Config.UpdateKey], [UpdateKeyReadability], [GetConfigurationValue],
    [SetVersion], [Validate]. *)
Definition Config_UpdateKey (key : string) (value : option nat) (c : Config) : Config * option error :=
  match findKeyIndex (ConfigKeys c) key with
  | None => (c, Some ErrKeyNotFound)
  | Some (item, index) =>
      if Readonly item then (c, Some ErrReadOnly) else (set_at index value c, None)
  end.

Definition Config_UpdateKeyReadability (key : string) (readonly : bool) (c : Config) : Config * option error :=
  match findKeyIndex (ConfigKeys c) key with
  | None => (c, Some ErrKeyNotFound)
  | Some (_, index) =>
      (mkConfig (Version c) (alter (λ k, mkKey (Key k) readonly (Value k)) index (ConfigKeys c)), None)
  end.

Definition Config_GetConfigurationValue (key : string) (c : Config) : option nat + error :=
  match findKeyIndex (ConfigKeys c) key with
  | None => inr ErrKeyNotFound
  | Some (item, _) => inl (Value item)
  end.

Definition Config_SetVersion (v : Z) (c : Config) : Config := mkConfig v (ConfigKeys c).

Definition missing_keys (mandatoryKeys : list string) (c : Config) : list string :=
  filter (λ key, findKeyIndex (ConfigKeys c) key = None) mandatoryKeys.

(** [strings.Join(missing, ", ")] *)
Fixpoint join_comma (l : list string) : string :=
  match l with [] => "" | [x] => x | x :: l' => x +:+ ", " +:+ join_comma l' end.

Definition Config_Validate (mandatoryKeys : list string) (c : Config) : option error :=
  match missing_keys mandatoryKeys c with
  | [] => None
  | missing => Some (Errorf ("missing mandatory keys: " +:+ join_comma missing) None)
  end.

(** ** Deep copies *)

Definition deepCopyKey (k : ConfigurationKey) (m : mem) : mem * ConfigurationKey :=
  match content m (Value k) with
  | Some s => let '(m', l) := ptr s m in (m', set_value (Some l) k)
  | None => (m, k)
  end.

Fixpoint deepCopyKeys (keys : list ConfigurationKey) (m : mem) : mem * list ConfigurationKey :=
  match keys with
  | [] => (m, [])
  | k :: ks => let '(m1, k') := deepCopyKey k m in
               let '(m2, ks') := deepCopyKeys ks m1 in (m2, k' :: ks')
  end.

Definition deepCopyConfig (c : Config) (m : mem) : mem * Config :=
  let '(m', ks) := deepCopyKeys (ConfigKeys c) m in (m', mkConfig (Version c) ks).

(** Building the default configuration allocates each value. *)
Fixpoint alloc_defaults (l : list key_default) (m : mem) : mem * list ConfigurationKey :=
  match l with
  | [] => (m, [])
  | d :: ds => let '(m1, p) := ptr (dvalue d) m in
               let '(m2, ks) := alloc_defaults ds m1 in
               (m2, mkKey (dkey d) (dreadonly d) (Some p) :: ks)
  end.

Definition DefaultConfigurationFromProfiles (profiles : list string) (m : mem) : mem * (Config + error) :=
  match Defaults.DefaultConfigurationFromProfiles profiles with
  | inr e => (m, inr e)
  | inl ds => let '(m', ks) := alloc_defaults ds m in (m', inl (mkConfig 1 ks))
  end.

(** ** The manager *)

(** What a handler does: it may write to cells, and returns an error, nil, or
    panics. *)
Inductive handler_result := HandlerOk | HandlerErr (e : error) | HandlerPanic.
Definition OnUpdateHandler : Type := option nat → mem → mem * handler_result.
Definition KeyValidator : Type := string → option nat → mem → bool.

Record ManagerV16 := mkManager {
  ocppConfig : Config;
  mandatoryKeys : list string;
  rebootRequiredKeys : list string;
  keyValidator : option KeyValidator;
  onUpdateHandlers : gmap string OnUpdateHandler
}.

Definition set_config (c : Config) (g : ManagerV16) : ManagerV16 :=
  mkManager c (mandatoryKeys g) (rebootRequiredKeys g) (keyValidator g) (onUpdateHandlers g).

Definition NewManagerV16 (defaultConfiguration : Config) (profiles : list string) (m : mem)
    : mem * (ManagerV16 + error) :=
  let mandatory := Keys.GetMandatoryKeysForProfile profiles in
  match Config_Validate mandatory defaultConfiguration with
  | Some e => (m, inr e)
  | None => let '(m', c) := deepCopyConfig defaultConfiguration m in
            (m', inl (mkManager c mandatory [] None ∅))
  end.

Definition SetConfiguration (configuration : Config) (m : mem) (g : ManagerV16)
    : mem * ManagerV16 * option error :=
  match Config_Validate (mandatoryKeys g) configuration with
  | Some e => (m, g, Some e)
  | None => let '(m', c) := deepCopyConfig configuration m in (m', set_config c g, None)
  end.

Definition RegisterCustomKeyValidator (v : option KeyValidator) (g : ManagerV16) : ManagerV16 :=
  mkManager (ocppConfig g) (mandatoryKeys g) (rebootRequiredKeys g) v (onUpdateHandlers g).

Definition GetMandatoryKeys (g : ManagerV16) : list string := mandatoryKeys g.

Definition add_key (ks : list string) (k : string) : list string := if containsKey ks k then ks else ks ++ [k].
Definition SetMandatoryKeys (keys : list string) (g : ManagerV16) : ManagerV16 :=
  mkManager (ocppConfig g) (foldl add_key (mandatoryKeys g) keys) (rebootRequiredKeys g)
    (keyValidator g) (onUpdateHandlers g).

Definition SetRebootRequiredKeys (keys : list string) (g : ManagerV16) : ManagerV16 :=
  mkManager (ocppConfig g) (mandatoryKeys g) keys (keyValidator g) (onUpdateHandlers g).

Definition validateKeyLocked (key : string) (value : option nat) (m : mem) (g : ManagerV16) : option error :=
  match keyValidator g with
  | None => None
  | Some v => if v key value m then None
              else Some (Errorf ("key validation failed for key " +:+ key) None)
  end.

Definition ValidateKey := validateKeyLocked.

(** Outcome of a mutation: the error returned (nil is [None]), or the panic of
    a handler, re-raised. *)
Inductive outcome := Returned (e : option error) | Panicked.

Definition runHandlerLocked (handler : OnUpdateHandler) (value : option nat) (index : nat)
    (origValue : option nat) (m : mem) (g : ManagerV16) : mem * ManagerV16 * outcome :=
  let rollback := set_config (set_at index origValue (ocppConfig g)) g in
  match handler value m with
  | (m', HandlerOk) => (m', g, Returned None)
  | (m', HandlerErr e) => (m', rollback, Returned (Some e))
  | (m', HandlerPanic) => (m', rollback, Panicked)
  end.

Definition updateKeyLocked (key : string) (value : option nat) (m : mem) (g : ManagerV16)
    : mem * ManagerV16 * outcome :=
  if decide (key = "") then (m, g, Returned (Some ErrKeyCannotBeEmpty)) else
  match validateKeyLocked key value m g with
  | Some e => (m, g, Returned (Some e))
  | None =>
      match findKeyIndex (ConfigKeys (ocppConfig g)) key with
      | None => (m, g, Returned (Some ErrKeyNotFound))
      | Some (original, index) =>
          if Readonly original then (m, g, Returned (Some ErrReadOnly)) else
          let g' := set_config (set_at index value (ocppConfig g)) g in
          match onUpdateHandlers g !! key with
          | Some handler => runHandlerLocked handler value index (Value original) m g'
          | None => (m, g', Returned None)
          end
      end
  end.

Definition UpdateKey := updateKeyLocked.

Definition GetConfiguration (m : mem) (g : ManagerV16) : mem * list ConfigurationKey :=
  deepCopyKeys (ConfigKeys (ocppConfig g)) m.

Definition GetConfigurationValue (key : string) (m : mem) (g : ManagerV16) : mem * (option nat + error) :=
  match Config_GetConfigurationValue key (ocppConfig g) with
  | inr e => (m, inr e)
  | inl v => match content m v with
             | None => (m, inl None)
             | Some s => let '(m', l) := ptr s m in (m', inl (Some l))
             end
  end.

(** [OnUpdateKey]; a nil handler is [None]. *)
Definition OnUpdateKey (key : string) (handler : option OnUpdateHandler) (g : ManagerV16)
    : ManagerV16 * option error :=
  if decide (key = "") then (g, Some ErrKeyCannotBeEmpty) else
  match handler with
  | None => (g, Some ErrNilHandler)
  | Some h =>
      match Config_GetConfigurationValue key (ocppConfig g) with
      | inr e => (g, Some e)
      | inl _ => (mkManager (ocppConfig g) (mandatoryKeys g) (rebootRequiredKeys g) (keyValidator g)
                    (<[key := h]> (onUpdateHandlers g)), None)
      end
  end.

(** ** Wiring *)

Record GetConfigurationConfirmation := mkGetConf {
  conf_ConfigurationKey : list ConfigurationKey;
  conf_UnknownKey : list string
}.

Fixpoint split_request (req : list string) (keys : list ConfigurationKey) (m : mem)
    : mem * GetConfigurationConfirmation :=
  match req with
  | [] => (m, mkGetConf [] [])
  | k :: req' =>
      match findKeyIndex keys k with
      | None => let '(m', c) := split_request req' keys m in
                (m', mkGetConf (conf_ConfigurationKey c) (k :: conf_UnknownKey c))
      | Some (item, _) =>
          let '(m1, item') := deepCopyKey item m in
          let '(m', c) := split_request req' keys m1 in
          (m', mkGetConf (item' :: conf_ConfigurationKey c) (conf_UnknownKey c))
      end
  end.

(** A nil request is [None]. *)
Definition OnGetConfiguration (req : option (list string)) (m : mem) (g : ManagerV16)
    : mem * GetConfigurationConfirmation :=
  match req with
  | None => (m, mkGetConf [] [])
  | Some [] => let '(m', ks) := deepCopyKeys (ConfigKeys (ocppConfig g)) m in (m', mkGetConf ks [])
  | Some keys => split_request keys (ConfigKeys (ocppConfig g)) m
  end.

Inductive ConfigurationStatus :=
| StatusAccepted | StatusRejected | StatusRebootRequired | StatusNotSupported.

(** [None] is the panic of a handler. *)
Definition OnChangeConfiguration (req : option (string * string)) (m : mem) (g : ManagerV16)
    : mem * ManagerV16 * option ConfigurationStatus :=
  match req with
  | None => (m, g, Some StatusRejected)
  | Some (key, value) =>
      let '(m1, p) := ptr value m in
      match updateKeyLocked key (Some p) m1 g with
      | (m2, g2, Panicked) => (m2, g2, None)
      | (m2, g2, Returned (Some err)) =>
          (m2, g2, Some (if errors_Is err ErrKeyNotFound then StatusNotSupported else StatusRejected))
      | (m2, g2, Returned None) =>
          (m2, g2, Some (if containsKey (rebootRequiredKeys g) key then StatusRebootRequired else StatusAccepted))
      end
  end.

(** ** What an observer sees: names, flags and contents *)

Definition entry : Type := string * bool * option string.
Definition view_key (m : mem) (k : ConfigurationKey) : entry := (Key k, Readonly k, content m (Value k)).
Definition view (m : mem) (c : Config) : list entry := view_key m <$> ConfigKeys c.
Definition keys_valid (m : mem) (ks : list ConfigurationKey) : Prop := Forall (λ k, valid m (Value k)) ks.

(** ** Lookup lemmas *)

Lemma findKeyIndex_Some ks key k i :
  findKeyIndex ks key = Some (k, i) → ks !! i = Some k ∧ Key k = key.
Proof.
  revert i. induction ks as [|k0 ks IH]; intros i; simpl; [done|].
  case_decide; [by intros; simplify_eq|].
  destruct (findKeyIndex ks key) as [[k' i']|] eqn:Hf; simpl; intros; simplify_eq.
  by apply IH.
Qed.

Lemma findKeyIndex_is_Some ks key : is_Some (findKeyIndex ks key) ↔ key ∈ Key <$> ks.
Proof.
  induction ks as [|k0 ks IH]; simpl.
  - split; [by intros [? ?]|intros Hin; by apply elem_of_nil in Hin].
  - rewrite elem_of_cons. case_decide as Hk.
    + split; [auto|eauto].
    + rewrite <-IH. destruct (findKeyIndex ks key) as [[k' i']|]; simpl.
      * split; eauto.
      * split; [by intros [? ?]|]. intros [?|[? ?]]; naive_solver.
Qed.

Lemma findKeyIndex_None ks key : findKeyIndex ks key = None ↔ key ∉ Key <$> ks.
Proof. rewrite eq_None_not_Some. by rewrite findKeyIndex_is_Some. Qed.

Lemma Config_Validate_None mk c :
  Config_Validate mk c = None ↔ ∀ k, k ∈ mk → k ∈ Key <$> ConfigKeys c.
Proof.
  unfold Config_Validate, missing_keys. split.
  - intros Hv k Hk. destruct (decide (k ∈ Key <$> ConfigKeys c)) as [|Hn]; [done|].
    apply findKeyIndex_None in Hn.
    assert (Hin : k ∈ filter (λ key, findKeyIndex (ConfigKeys c) key = None) mk)
      by (by apply list_elem_of_filter).
    destruct (filter _ _); [by apply elem_of_nil in Hin|done].
  - intros Hall. destruct (filter _ mk) as [|k l] eqn:Hf; [done|].
    assert (Hin : k ∈ filter (λ key, findKeyIndex (ConfigKeys c) key = None) mk) by (rewrite Hf; left).
    apply list_elem_of_filter in Hin as [Hn Hin]. apply findKeyIndex_None in Hn. by destruct Hn; auto.
Qed.

Lemma keys_set_at i v c : Key <$> ConfigKeys (set_at i v c) = Key <$> ConfigKeys c.
Proof.
  simpl. generalize (ConfigKeys c). intros ks. revert i.
  induction ks as [|k ks IH]; intros [|i]; simpl; try done. f_equal. apply IH.
Qed.

(** Putting the old value back restores the configuration. *)
Lemma set_at_rollback i v c k :
  ConfigKeys c !! i = Some k → set_at i (Value k) (set_at i v c) = c.
Proof.
  destruct c as [ver ks]. unfold set_at. simpl. intros Hk. f_equal.
  revert i Hk. induction ks as [|k0 ks IH]; intros [|i] Hk; simplify_eq/=.
  - by destruct k.
  - f_equal. by apply IH.
Qed.

(** ** The memory *)

Lemma ptr_wf s m : mem_wf m → mem_wf (ptr s m).1.
Proof.
  intros Hwf l. simpl. rewrite lookup_insert. case_decide; [lia|].
  intros Hl. specialize (Hwf l Hl). lia.
Qed.

Lemma content_ptr s m v : mem_wf m → valid m v → content (ptr s m).1 v = content m v.
Proof.
  intros Hwf Hv. destruct v as [l|]; [|done]. simpl. destruct (Hv l eq_refl) as [x Hx].
  specialize (Hwf l ltac:(eauto)). rewrite lookup_insert_ne by lia. done.
Qed.

Lemma valid_ptr s m v : valid m v → valid (ptr s m).1 v.
Proof.
  intros Hv l ->. simpl. rewrite lookup_insert. case_decide; [eauto|]. by apply Hv.
Qed.

Lemma content_write_ne l s m v : v ≠ Some l → content (write l s m) v = content m v.
Proof. intros Hv. destruct v as [l'|]; [|done]. simpl. rewrite lookup_insert_ne; congruence. Qed.

(** A deep copy has the same contents in cells of its own. *)
Lemma deepCopyKeys_spec ks : ∀ m m' ks',
  mem_wf m → keys_valid m ks → deepCopyKeys ks m = (m', ks') →
  mem_wf m' ∧ next m <= next m' ∧
  (∀ v, valid m v → valid m' v ∧ content m' v = content m v) ∧
  view_key m' <$> ks' = view_key m <$> ks ∧
  keys_valid m' ks' ∧ (∀ k l, k ∈ ks' → Value k = Some l → next m <= l).
Proof.
  induction ks as [|k ks IH]; intros m m' ks' Hwf Hv; cbn [deepCopyKeys].
  { intros; simplify_eq. split; [done|]. split; [done|]. split; [done|]. split; [done|].
    split; [by apply Forall_nil|]. intros k l Hk. by apply elem_of_nil in Hk. }
  apply Forall_cons in Hv as [Hk Hks].
  destruct (deepCopyKey k m) as [m1 k'] eqn:Hc. destruct (deepCopyKeys ks m1) as [m2 ks2] eqn:Hr.
  intros; simplify_eq.
  assert (H1 : mem_wf m1 ∧ next m <= next m1 ∧ (∀ v, valid m v → valid m1 v ∧ content m1 v = content m v) ∧
    view_key m1 k' = view_key m k ∧ valid m1 (Value k') ∧ (∀ l, Value k' = Some l → next m <= l)).
  { unfold deepCopyKey in Hc. destruct (content m (Value k)) as [s|] eqn:Hs; simplify_eq/=.
    - change (mkMem _ _) with (ptr s m).1. split; [by apply ptr_wf|]. split; [simpl; lia|].
      split; [intros v Hv; split; [by apply (valid_ptr s)|by apply (content_ptr s)]|].
      split; [unfold view_key; simpl; rewrite lookup_insert_eq, Hs; done|].
      split; [intros l ?; simplify_eq/=; rewrite lookup_insert_eq; eauto|intros; by simplify_eq/=].
    - split; [done|]. split; [done|]. split; [done|]. split; [done|]. split; [done|].
      intros l Hl. destruct (Hk l Hl) as [x Hx]. rewrite Hl in Hs. simpl in Hs. congruence. }
  destruct H1 as (Hwf1 & Hn1 & Hp1 & Hv1 & Hk1 & Hf1).
  assert (Hks1 : keys_valid m1 ks) by (eapply Forall_impl; [exact Hks|]; intros x Hx; by apply Hp1).
  destruct (IH m1 m' ks2 Hwf1 Hks1 Hr) as (Hwf2 & Hn2 & Hp2 & Hv2 & Hk2 & Hf2).
  split; [done|]. split; [lia|].
  split; [intros v Hv; destruct (Hp1 v Hv) as [? <-]; by apply Hp2|].
  split.
  { rewrite !fmap_cons, Hv2. f_equal.
    - rewrite <-Hv1. unfold view_key. by rewrite (proj2 (Hp2 _ Hk1)).
    - apply list_fmap_ext. intros i x Hx. unfold view_key.
      rewrite (proj2 (Hp1 (Value x) (Forall_lookup_1 _ _ _ _ Hks Hx))). done. }
  split; [apply Forall_cons; split; [by apply Hp2|done]|].
  intros x l [->|Hx]%elem_of_cons Hl; [eauto|]. specialize (Hf2 x l Hx Hl). lia.
Qed.

(** ** Updates *)

(** The first entry named [key] gets a value. *)
Fixpoint assign (key : string) (v : option string) (es : list entry) : list entry :=
  match es with
  | [] => []
  | (k, ro, old) :: es' => if decide (k = key) then (k, ro, v) :: es' else (k, ro, old) :: assign key v es'
  end.

Lemma view_set_at m c key k i v :
  findKeyIndex (ConfigKeys c) key = Some (k, i) →
  view m (set_at i v c) = assign key (content m v) (view m c).
Proof.
  destruct c as [ver ks]. unfold view. simpl. revert i.
  induction ks as [|k0 ks IH]; intros i; simpl; [done|].
  case_decide as Hk; [intros; by simplify_eq|].
  destruct (findKeyIndex ks key) as [[k' i']|] eqn:Hf; simpl; intros; simplify_eq.
  simpl. f_equal. by apply IH.
Qed.

(** Every failure path leaves the manager as it was; success applies the
    value to the first key of that name. *)
Lemma updateKeyLocked_spec key v m g m' g' out :
  updateKeyLocked key v m g = (m', g', out) →
  match out with
  | Returned None => key ≠ "" ∧ validateKeyLocked key v m g = None ∧
      ∃ k i, findKeyIndex (ConfigKeys (ocppConfig g)) key = Some (k, i) ∧ Readonly k = false ∧
             g' = set_config (set_at i v (ocppConfig g)) g
  | _ => g' = g
  end.
Proof.
  unfold updateKeyLocked. case_decide; [by intros; simplify_eq|].
  destruct (validateKeyLocked key v m g) eqn:Hv; [by intros; simplify_eq|].
  destruct (findKeyIndex _ key) as [[k i]|] eqn:Hf; [|by intros; simplify_eq].
  destruct (Readonly k) eqn:Hr; [by intros; simplify_eq|].
  destruct (findKeyIndex_Some _ _ _ _ Hf) as [Hi _].
  destruct (onUpdateHandlers g !! key) as [h|]; [|intros; simplify_eq; naive_solver].
  unfold runHandlerLocked. destruct (h v m) as [mh [|e|]]; intros; simplify_eq; [naive_solver| |];
    unfold set_config; simpl; rewrite (set_at_rollback _ _ _ _ Hi); by destruct g.
Qed.

(** A mutation keeps the key names. *)
Lemma updateKeyLocked_keys key v m g m' g' out :
  updateKeyLocked key v m g = (m', g', out) →
  Key <$> ConfigKeys (ocppConfig g') = Key <$> ConfigKeys (ocppConfig g) ∧
  mandatoryKeys g' = mandatoryKeys g.
Proof.
  intros Hu. apply updateKeyLocked_spec in Hu. destruct out as [[e|]|]; [by subst| |by subst].
  destruct Hu as (_ & _ & k & i & _ & _ & ->). split; [apply keys_set_at|done].
Qed.

(** Handlers that do not write to string cells. *)
Definition quiet_handlers (g : ManagerV16) : Prop :=
  ∀ k h v m, onUpdateHandlers g !! k = Some h → (h v m).1 = m.

Lemma updateKeyLocked_mem key v m g m' g' out :
  quiet_handlers g → updateKeyLocked key v m g = (m', g', out) → m' = m.
Proof.
  intros Hq. unfold updateKeyLocked, runHandlerLocked.
  case_decide; [by intros; simplify_eq|]. destruct (validateKeyLocked _ _ _ _); [by intros; simplify_eq|].
  destruct (findKeyIndex _ _) as [[k i]|]; [|by intros; simplify_eq].
  destruct (Readonly k); [by intros; simplify_eq|].
  destruct (onUpdateHandlers g !! key) as [h|] eqn:Hh; [|by intros; simplify_eq].
  specialize (Hq key h v m Hh). destruct (h v m) as [mh [| |]]; simpl in Hq; intros; by simplify_eq.
Qed.

(** ** Operation sequences *)

Inductive mop :=
| MSetConfiguration (c : Config)
| MUpdateKey (key : string) (v : option nat)
| MChange (req : option (string * string))
| MOnUpdateKey (key : string) (h : option OnUpdateHandler)
| MValidator (v : option KeyValidator)
| MReboot (keys : list string)
| MGet (req : option (list string)).

Definition mapply (o : mop) (s : mem * ManagerV16) : mem * ManagerV16 :=
  let '(m, g) := s in
  match o with
  | MSetConfiguration c => (SetConfiguration c m g).1
  | MUpdateKey key v => (UpdateKey key v m g).1
  | MChange req => (OnChangeConfiguration req m g).1
  | MOnUpdateKey key h => (m, (OnUpdateKey key h g).1)
  | MValidator v => (m, RegisterCustomKeyValidator v g)
  | MReboot keys => (m, SetRebootRequiredKeys keys g)
  | MGet req => ((OnGetConfiguration req m g).1, g)
  end.

Definition mandatory_ok (g : ManagerV16) : Prop :=
  ∀ k, k ∈ mandatoryKeys g → k ∈ Key <$> ConfigKeys (ocppConfig g).

Lemma deepCopyKeys_names ks : ∀ m, Key <$> (deepCopyKeys ks m).2 = Key <$> ks.
Proof.
  induction ks as [|k ks IH]; intros m; simpl; [done|].
  unfold deepCopyKey. destruct (content m (Value k)) as [s|]; simpl.
  - specialize (IH (ptr s m).1). simpl in IH. destruct (deepCopyKeys ks _) as [m2 ks2]. simpl in *. f_equal. exact IH.
  - specialize (IH m). destruct (deepCopyKeys ks m) as [m2 ks2]. simpl in *. f_equal. exact IH.
Qed.

Lemma deepCopyConfig_names c m : Key <$> ConfigKeys (deepCopyConfig c m).2 = Key <$> ConfigKeys c.
Proof.
  unfold deepCopyConfig. pose proof (deepCopyKeys_names (ConfigKeys c) m).
  by destruct (deepCopyKeys _ m).
Qed.

Lemma mapply_mandatory o m g :
  mandatory_ok g → mandatory_ok (mapply o (m, g)).2 ∧ mandatoryKeys (mapply o (m, g)).2 = mandatoryKeys g.
Proof.
  intros Hok. destruct o as [c|key v|req|key h|v|ks|req]; simpl; try done.
  - unfold SetConfiguration. destruct (Config_Validate (mandatoryKeys g) c) eqn:Hv; [done|].
    pose proof (deepCopyConfig_names c m) as Hn. destruct (deepCopyConfig c m) as [m' c']. simpl in *.
    split; [|done]. intros k Hk. simpl in *. rewrite Hn. by apply (proj1 (Config_Validate_None _ _) Hv).
  - unfold UpdateKey. destruct (updateKeyLocked key v m g) as [[m' g'] out] eqn:Hu. simpl.
    apply updateKeyLocked_keys in Hu as [H1 H2]. unfold mandatory_ok. by rewrite H1, H2.
  - unfold OnChangeConfiguration. destruct req as [[key v]|]; [|done]. simpl.
    destruct (updateKeyLocked key _ _ g) as [[m' g'] out] eqn:Hu.
    apply updateKeyLocked_keys in Hu as [H1 H2].
    assert (mandatory_ok g' ∧ mandatoryKeys g' = mandatoryKeys g) by (unfold mandatory_ok; by rewrite H1, H2).
    by destruct out as [[|]|].
  - unfold OnUpdateKey. case_decide; [done|]. destruct h; [|done]. by case_match.
Qed.

(** ** Properties *)

(** C35: a rejected configuration change (empty key, failed validation, unknown
    or read-only key, handler error) and a panicking handler leave the whole
    manager exactly as it was. *)
Theorem update_failure_atomic key v m g m' g' out :
  UpdateKey key v m g = (m', g', out) → out ≠ Returned None → g' = g.
Proof.
  intros Hu%updateKeyLocked_spec Hne. by destruct out as [[e|]|].
Qed.

(** A manager with two keys and a handler that rejects every value, for the
    witnesses. *)
Definition demo_mem : mem := mkMem {[0 := "60"; 1 := "1"]} 2.
Definition demo_manager : ManagerV16 :=
  mkManager (mkConfig 1 [mkKey "HeartbeatInterval" false (Some 0); mkKey "NumberOfConnectors" true (Some 1)])
    ["HeartbeatInterval"] ["HeartbeatInterval"] None
    {["HeartbeatInterval" := λ _ m, (m, HandlerErr (Errorf "no" None))]}.

Lemma update_failure_atomic_witness :
  ∃ m' g', UpdateKey "HeartbeatInterval" (Some 1) demo_mem demo_manager =
             (m', g', Returned (Some (Errorf "no" None))) ∧ g' = demo_manager.
Proof.
  eexists _, _. split; [reflexivity|].
  eapply (update_failure_atomic "HeartbeatInterval" (Some 1) demo_mem demo_manager); [reflexivity|discriminate].
Defined.

(** [OnChangeConfiguration] answers Accepted or RebootRequired exactly when
    the value was applied, to the first key of that name, which is writable,
    and to no other; on every other answer, and on a handler panic, the
    observable configuration is unchanged. *)
Theorem change_configuration_effect key value m g m' g' st :
  mem_wf m → keys_valid m (ConfigKeys (ocppConfig g)) → quiet_handlers g →
  OnChangeConfiguration (Some (key, value)) m g = (m', g', st) →
  match st with
  | Some StatusAccepted | Some StatusRebootRequired =>
      view m' (ocppConfig g') = assign key (Some value) (view m (ocppConfig g)) ∧
      (∃ old, (key, false, old) ∈ view m (ocppConfig g)) ∧
      (st = Some StatusRebootRequired ↔ key ∈ rebootRequiredKeys g)
  | _ => g' = g ∧ view m' (ocppConfig g') = view m (ocppConfig g)
  end.
Proof.
  intros Hwf Hv Hq. unfold OnChangeConfiguration.
  assert (Hview : ∀ c, keys_valid m (ConfigKeys c) → view (ptr value m).1 c = view m c).
  { intros c Hc. unfold view. apply list_fmap_ext. intros i k Hk. unfold view_key.
    rewrite content_ptr; [done|done|]. exact (Forall_lookup_1 _ _ _ _ Hc Hk). }
  assert (Hnew : content (ptr value m).1 (Some (next m)) = Some value)
    by (simpl; by rewrite lookup_insert_eq).
  change (ptr value m) with ((ptr value m).1, next m). cbv iota beta.
  generalize dependent (ptr value m).1. intros m1 Hview Hnew.
  destruct (updateKeyLocked key (Some (next m)) m1 g) as [[m2 g2] out] eqn:Hu.
  pose proof (updateKeyLocked_mem _ _ _ _ _ _ _ Hq Hu) as ->.
  apply updateKeyLocked_spec in Hu.
  destruct out as [[e|]|]; intros; simplify_eq.
  - rewrite Hview by done. by destruct (errors_Is e ErrKeyNotFound).
  - destruct Hu as (Hne & _ & k & i & Hf & Hro & ->). simpl.
    assert (Hmain : view m' (set_at i (Some (next m)) (ocppConfig g)) =
                    assign key (Some value) (view m (ocppConfig g)) ∧
                    ∃ old, (key, false, old) ∈ view m (ocppConfig g)).
    { split.
      - by rewrite (view_set_at _ _ _ _ _ _ Hf), Hview, Hnew.
      - apply findKeyIndex_Some in Hf as [Hi <-]. exists (content m (Value k)).
        unfold view. apply list_elem_of_fmap. exists k. split; [unfold view_key; by rewrite Hro|].
        by eapply list_elem_of_lookup_2. }
    unfold containsKey. case_bool_decide; naive_solver.
  - by rewrite Hview.
Qed.

Lemma demo_mem_ok :
  mem_wf demo_mem ∧ keys_valid demo_mem (ConfigKeys (ocppConfig demo_manager)) ∧ quiet_handlers demo_manager.
Proof.
  split; [|split].
  - intros l. unfold demo_mem. simpl. rewrite lookup_insert, lookup_singleton.
    repeat case_decide; [lia..|by intros [? ?]].
  - repeat constructor; intros l ?; simplify_eq/=; vm_compute; eauto.
  - intros k h v m. simpl. rewrite lookup_singleton. case_decide; [|done]. intros; by simplify_eq.
Qed.

Lemma change_configuration_effect_witness :
  ∃ m' g', OnChangeConfiguration (Some ("HeartbeatInterval", "10")) demo_mem demo_manager =
             (m', g', Some StatusRejected) ∧
           view m' (ocppConfig g') = [("HeartbeatInterval", false, Some "60"); ("NumberOfConnectors", true, Some "1")].
Proof.
  eexists _, _. split; [reflexivity|].
  destruct demo_mem_ok as (H1 & H2 & H3).
  etransitivity; [exact (proj2 (change_configuration_effect "HeartbeatInterval" "10" demo_mem demo_manager _ _
    (Some StatusRejected) H1 H2 H3 eq_refl))|reflexivity].
Defined.

(** a manager whose mandatory keys were present when it was built keeps
    them through any sequence of configuration replacements, updates, change
    requests, handler and validator registrations. *)
Theorem mandatory_keys_kept cfg profiles m0 m1 g ops :
  NewManagerV16 cfg profiles m0 = (m1, inl g) →
  let g' := (foldl (λ s o, mapply o s) (m1, g) ops).2 in
  mandatoryKeys g' = Keys.GetMandatoryKeysForProfile profiles ∧
  ∀ k, k ∈ Keys.GetMandatoryKeysForProfile profiles → k ∈ Key <$> ConfigKeys (ocppConfig g').
Proof.
  unfold NewManagerV16. destruct (Config_Validate _ cfg) eqn:Hv; [done|].
  pose proof (deepCopyConfig_names cfg m0) as Hn. destruct (deepCopyConfig cfg m0) as [m' c].
  intros; simplify_eq/=.
  set (g0 := mkManager c _ _ _ _).
  assert (Hgen : ∀ s, mandatory_ok s.2 → mandatory_ok (foldl (λ s o, mapply o s) s ops).2 ∧
    mandatoryKeys (foldl (λ s o, mapply o s) s ops).2 = mandatoryKeys s.2).
  { induction ops as [|o ops IH]; intros [m g] Hok; simpl; [done|].
    destruct (mapply_mandatory o m g Hok) as [H1 H2]. destruct (IH (mapply o (m, g)) H1) as [H3 H4].
    split; [exact H3|]. etransitivity; [exact H4|exact H2]. }
  destruct (Hgen (m1, g0)) as [H1 H2].
  { intros k Hk. simpl. rewrite Hn. by apply (proj1 (Config_Validate_None _ _) Hv). }
  simpl in H2. split; [done|]. intros k Hk. apply H1. by rewrite H2.
Qed.

(** the default configuration of any profiles is accepted by [NewManagerV16]
    for the same profiles. *)
Theorem defaults_accepted profiles m m' cfg :
  DefaultConfigurationFromProfiles profiles m = (m', inl cfg) →
  ∃ m'' g, NewManagerV16 cfg profiles m' = (m'', inl g) ∧ Version (ocppConfig g) = 1%Z.
Proof.
  unfold DefaultConfigurationFromProfiles.
  destruct (Defaults.DefaultConfigurationFromProfiles profiles) as [ds|e] eqn:Hd; [|done].
  assert (Hnames : ∀ ds m, Key <$> (alloc_defaults ds m).2 = dkey <$> ds).
  { clear. induction ds as [|d ds IH]; intros m; simpl; [done|].
    specialize (IH (ptr (dvalue d) m).1). simpl in IH.
    destruct (alloc_defaults ds _) as [m2 ks]. simpl in *. f_equal. exact IH. }
  specialize (Hnames ds m). destruct (alloc_defaults ds m) as [m1 ks]. intros; simplify_eq/=.
  unfold NewManagerV16.
  assert (Hv : Config_Validate (Keys.GetMandatoryKeysForProfile profiles) (mkConfig 1 ks) = None).
  { apply Config_Validate_None. intros k Hk. simpl. rewrite Hnames. by eapply defaults_mandatory. }
  rewrite Hv. unfold deepCopyConfig. destruct (deepCopyKeys _ m') as [m2 ks2]. eauto.
Qed.

Lemma defaults_accepted_witness :
  ∃ m' cfg m'' g, DefaultConfigurationFromProfiles ["Core"; "ISO15118"] (mkMem ∅ 0) = (m', inl cfg) ∧
    NewManagerV16 cfg ["Core"; "ISO15118"] m' = (m'', inl g).
Proof.
  assert (Hok : match (DefaultConfigurationFromProfiles ["Core"; "ISO15118"] (mkMem ∅ 0)).2 with
                | inl _ => true | inr _ => false end = true) by (vm_compute; reflexivity).
  destruct (DefaultConfigurationFromProfiles ["Core"; "ISO15118"] (mkMem ∅ 0)) as [m' [cfg|e]] eqn:E.
  - destruct (defaults_accepted ["Core"; "ISO15118"] (mkMem ∅ 0) m' cfg E) as (m'' & g & Hg & _).
    exists m', cfg, m'', g. split; [reflexivity|exact Hg].
  - discriminate Hok.
Defined.

Lemma mandatory_keys_kept_witness :
  "HeartbeatInterval" ∈ Key <$> ConfigKeys (ocppConfig
    (foldl (λ s o, mapply o s)
       (match NewManagerV16 (mkConfig 1 [mkKey "SupportedFileTransferProtocols" false (Some 0);
                                         mkKey "HeartbeatInterval" false None])
                ["FirmwareManagement"] demo_mem with
        | (m, inl g) => (m, g) | (m, inr _) => (m, demo_manager) end)
       [MChange (Some ("HeartbeatInterval", "5")); MSetConfiguration (mkConfig 2 [])]).2) ∧
  "SupportedFileTransferProtocols" ∈ Key <$> ConfigKeys (ocppConfig
    (foldl (λ s o, mapply o s)
       (match NewManagerV16 (mkConfig 1 [mkKey "SupportedFileTransferProtocols" false (Some 0);
                                         mkKey "HeartbeatInterval" false None])
                ["FirmwareManagement"] demo_mem with
        | (m, inl g) => (m, g) | (m, inr _) => (m, demo_manager) end)
       [MChange (Some ("HeartbeatInterval", "5")); MSetConfiguration (mkConfig 2 [])]).2).
Proof.
  split; [vm_compute; right; left|].
  refine (proj2 (mandatory_keys_kept (mkConfig 1 [mkKey "SupportedFileTransferProtocols" false (Some 0);
    mkKey "HeartbeatInterval" false None]) ["FirmwareManagement"] demo_mem _ _
    [MChange (Some ("HeartbeatInterval", "5")); MSetConfiguration (mkConfig 2 [])] eq_refl) _ _).
  vm_compute. left.
Defined.

Lemma view_write_fresh m c l s :
  (∀ k l', k ∈ ConfigKeys c → Value k = Some l' → l' ≠ l) → view (write l s m) c = view m c.
Proof.
  intros Hne. unfold view. apply list_fmap_ext. intros i k Hk. unfold view_key.
  rewrite content_write_ne; [done|]. intros Hv.
  by apply (Hne k l); [eapply list_elem_of_lookup_2|..].
Qed.

(** the configuration the manager stores and the ones it hands out share no
    memory with the caller: after [SetConfiguration], writing through any
    pointer the caller holds changes nothing the manager returns, and writing
    through a pointer returned by [GetConfiguration] does not change the
    store. *)
Theorem configuration_isolated cfg m g m1 g1 m2 ks l s :
  mem_wf m → keys_valid m (ConfigKeys cfg) →
  SetConfiguration cfg m g = (m1, g1, None) → GetConfiguration m1 g1 = (m2, ks) →
  (l < next m → view (write l s m1) (ocppConfig g1) = view m cfg) ∧
  (view_key m2 <$> ks = view m cfg) ∧
  (∀ k, k ∈ ks → Value k = Some l → view (write l s m2) (ocppConfig g1) = view m cfg).
Proof.
  intros Hwf Hv. unfold SetConfiguration. destruct (Config_Validate _ cfg); [done|].
  unfold deepCopyConfig. destruct (deepCopyKeys (ConfigKeys cfg) m) as [m' c'] eqn:Hc.
  destruct (deepCopyKeys_spec _ _ _ _ Hwf Hv Hc) as (Hwf1 & Hn1 & _ & Hview & Hv1 & Hfr).
  intros Heq Hg. simplify_eq/=. unfold GetConfiguration in Hg. simpl in Hg.
  destruct (deepCopyKeys_spec _ _ _ _ Hwf1 Hv1 Hg) as (_ & Hn2 & Hp2 & Hview2 & _ & Hfr2).
  assert (Hstored : view m2 (mkConfig (Version cfg) c') = view m1 (mkConfig (Version cfg) c')).
  { unfold view. apply list_fmap_ext. intros i k Hk. unfold view_key.
    by rewrite (proj2 (Hp2 _ (Forall_lookup_1 _ _ _ _ Hv1 Hk))). }
  split; [|split].
  - intros Hl. rewrite view_write_fresh; [exact Hview|]. intros k l' Hk Hkv.
    specialize (Hfr k l' Hk Hkv). lia.
  - by rewrite Hview2.
  - intros k Hk Hkv. rewrite view_write_fresh; [rewrite Hstored; exact Hview|].
    intros k' l' Hk' Hkv'. specialize (Hfr2 k l Hk Hkv).
    assert (is_Some (cells m1 !! l')) as Hl'.
    { unfold keys_valid in Hv1. rewrite Forall_forall in Hv1. by apply (Hv1 k' Hk'). }
    specialize (Hwf1 l' Hl'). lia.
Qed.

Lemma configuration_isolated_witness :
  let cfg := mkConfig 1 [mkKey "HeartbeatInterval" false (Some 0)] in
  let '(m1, g1, _) := SetConfiguration cfg demo_mem demo_manager in
  view (write 0 "999" m1) (ocppConfig g1) = [("HeartbeatInterval", false, Some "60")].
Proof.
  cbv zeta.
  refine (proj1 (configuration_isolated (mkConfig 1 [mkKey "HeartbeatInterval" false (Some 0)])
    demo_mem demo_manager _ _ _ _ 0 "999" (proj1 demo_mem_ok) _ eq_refl eq_refl) _).
  - repeat constructor. intros l ?. simplify_eq/=. vm_compute. eauto.
  - simpl. lia.
Defined.

(** [UpdateKey] stores the caller's pointer itself: after it succeeds, a
    write through that pointer changes what [GetConfigurationValue] returns,
    without the validator, the read-only check or the handler. *)
Theorem update_key_aliases key l m g m' g' s :
  quiet_handlers g → UpdateKey key (Some l) m g = (m', g', Returned None) →
  ∃ p, let '(m2, r) := GetConfigurationValue key (write l s m') g' in
       r = inl (Some p) ∧ content m2 (Some p) = Some s.
Proof.
  intros Hq Hu%updateKeyLocked_spec. destruct Hu as (_ & _ & k & i & Hf & Hro & ->).
  unfold GetConfigurationValue, Config_GetConfigurationValue. simpl.
  assert (Hf' : findKeyIndex (alter (set_value (Some l)) i (ConfigKeys (ocppConfig g))) key =
                Some (set_value (Some l) k, i)).
  { revert i Hf. generalize (ConfigKeys (ocppConfig g)). intros ks.
    induction ks as [|k0 ks IH]; intros i Hf; simpl in Hf; [done|].
    case_decide as Hk; [simplify_eq; simpl; by rewrite decide_True|].
    destruct (findKeyIndex ks key) as [[k' i']|] eqn:Hr; simplify_eq/=.
    rewrite decide_False by done. by rewrite (IH i' eq_refl). }
  rewrite Hf'. simpl. rewrite lookup_insert_eq. simpl.
  eexists. split; [reflexivity|]. simpl. by rewrite lookup_insert_eq.
Qed.

Lemma update_key_aliases_witness :
  ∃ p, let g := OnUpdateKey "HeartbeatInterval" (Some (λ _ m, (m, HandlerOk))) demo_manager in
       let '(m', g', _) := UpdateKey "HeartbeatInterval" (Some 1) demo_mem g.1 in
       let '(m2, r) := GetConfigurationValue "HeartbeatInterval" (write 1 "unchecked" m') g' in
       r = inl (Some p) ∧ content m2 (Some p) = Some "unchecked".
Proof.
  cbv zeta.
  refine (update_key_aliases "HeartbeatInterval" 1 demo_mem
    (OnUpdateKey "HeartbeatInterval" (Some (λ _ m, (m, HandlerOk))) demo_manager).1 _ _ "unchecked" _ eq_refl).
  intros k h v m. simpl. rewrite insert_singleton_eq, lookup_singleton. case_decide; [|done].
  intros; by simplify_eq.
Defined.

(** One deep-copied key: the same entry, in a cell that later allocations keep. *)
Lemma deepCopyKey_spec k m m' k' :
  mem_wf m → valid m (Value k) → deepCopyKey k m = (m', k') →
  mem_wf m' ∧ (∀ v, valid m v → valid m' v ∧ content m' v = content m v) ∧
  view_key m' k' = view_key m k ∧ valid m' (Value k').
Proof.
  intros Hwf Hk Hc.
  assert (Hcs : deepCopyKeys [k] m = (m', [k'])) by (cbn [deepCopyKeys]; by rewrite Hc).
  destruct (deepCopyKeys_spec [k] m m' [k'] Hwf ltac:(by repeat constructor) Hcs)
    as (? & _ & ? & Hv & Hval & _).
  apply Forall_cons in Hval as [? _]. injection Hv as Hv. split; [done|]. split; [done|].
  split; [|done]. unfold view_key. congruence.
Qed.

Lemma split_request_spec ks (es : list entry) req : ∀ m m' conf,
  mem_wf m → keys_valid m ks → (∀ k, k ∈ ks → view_key m k ∈ es) →
  split_request req ks m = (m', conf) →
  (Key <$> conf_ConfigurationKey conf = filter (λ k, k ∈ Key <$> ks) req ∧
   conf_UnknownKey conf = filter (λ k, k ∉ Key <$> ks) req) ∧
  (∀ k, k ∈ conf_ConfigurationKey conf → view_key m' k ∈ es) ∧
  (∀ v, valid m v → content m' v = content m v).
Proof.
  induction req as [|r req IH]; intros m m1 c Hwf Hv Hview; cbn [split_request].
  { intros; simplify_eq/=. split; [done|]. split; [|done]. intros k Hk. by apply elem_of_nil in Hk. }
  rewrite !filter_cons. destruct (findKeyIndex ks r) as [[item i]|] eqn:Hf.
  - rewrite decide_True by (apply findKeyIndex_is_Some; eauto).
    rewrite decide_False by (intros Hn; by apply Hn, findKeyIndex_is_Some; eauto).
    apply findKeyIndex_Some in Hf as [Hi Hkey].
    destruct (deepCopyKey item m) as [ma item'] eqn:Hc.
    destruct (deepCopyKey_spec _ _ _ _ Hwf (Forall_lookup_1 _ _ _ _ Hv Hi) Hc) as (Hwfa & Hpa & Hva & Hvi).
    destruct (split_request req ks ma) as [mb cb] eqn:Hs. intros Heq. injection Heq as -> <-.
    cbn [conf_ConfigurationKey conf_UnknownKey].
    destruct (IH ma m1 cb Hwfa) as ((E1 & E2) & E3 & E4); [| |done|].
    { eapply Forall_impl; [exact Hv|]. intros k Hk. by apply Hpa. }
    { intros k Hk. specialize (Hview k Hk). unfold view_key in *.
      apply list_elem_of_lookup in Hk as [j Hj].
      by rewrite (proj2 (Hpa _ (Forall_lookup_1 _ _ _ _ Hv Hj))). }
    assert (Hname : Key item' = Key item) by (unfold view_key in Hva; congruence).
    split; [split; [rewrite fmap_cons; congruence|done]|]. split.
    + intros k [->|Hk]%elem_of_cons; [|auto]. unfold view_key. rewrite E4 by done.
      unfold view_key in Hva. rewrite Hva. apply Hview. by eapply list_elem_of_lookup_2.
    + intros v Hv'. rewrite E4 by (by apply Hpa). by apply Hpa.
  - rewrite decide_False by (by apply findKeyIndex_None).
    rewrite decide_True by (by apply findKeyIndex_None).
    destruct (split_request req ks m) as [mb cb] eqn:Hs. intros; simplify_eq/=.
    destruct (IH m m1 cb Hwf Hv Hview Hs) as ((E1 & E2) & E3 & E4).
    split; [by rewrite E2|done].
Qed.

(** [OnGetConfiguration] with a list of names splits it, keeping the order,
    into the stored keys it reports and the unknown names, and reports each
    known key with its stored flag and content. *)
Theorem get_configuration_split req m g m' conf :
  mem_wf m → keys_valid m (ConfigKeys (ocppConfig g)) → req ≠ [] →
  OnGetConfiguration (Some req) m g = (m', conf) →
  Key <$> conf_ConfigurationKey conf = filter (λ k, k ∈ Key <$> ConfigKeys (ocppConfig g)) req ∧
  conf_UnknownKey conf = filter (λ k, k ∉ Key <$> ConfigKeys (ocppConfig g)) req ∧
  (∀ k, k ∈ conf_ConfigurationKey conf → view_key m' k ∈ view m (ocppConfig g)).
Proof.
  intros Hwf Hv Hne Hs. destruct req as [|r req]; [done|].
  destruct (split_request_spec _ (view m (ocppConfig g)) (r :: req) m m' conf Hwf Hv) as ((? & ?) & ? & _); [|exact Hs|done].
  intros k Hk. by apply list_elem_of_fmap_2.
Qed.

Lemma get_configuration_split_witness :
  ∃ m' conf, OnGetConfiguration (Some ["Foo"; "NumberOfConnectors"]) demo_mem demo_manager = (m', conf) ∧
    conf_UnknownKey conf = ["Foo"] ∧ Key <$> conf_ConfigurationKey conf = ["NumberOfConnectors"].
Proof.
  eexists _, _. split; [reflexivity|].
  destruct (get_configuration_split ["Foo"; "NumberOfConnectors"] demo_mem demo_manager _ _
    (proj1 demo_mem_ok) (proj1 (proj2 demo_mem_ok)) ltac:(discriminate) eq_refl) as (H1 & H2 & _).
  split; [rewrite H2|rewrite H1]; reflexivity.
Defined.

(** A handler error that wraps [ErrKeyNotFound] is answered NotSupported, not
    Rejected, although the key exists. *)
Theorem handler_error_not_supported :
  ∃ m' g', OnChangeConfiguration (Some ("HeartbeatInterval", "10")) demo_mem
    (OnUpdateKey "HeartbeatInterval" (Some (λ _ m, (m, HandlerErr (Errorf "backend" (Some ErrKeyNotFound)))))
       demo_manager).1 = (m', g', Some StatusNotSupported) ∧
  "HeartbeatInterval" ∈ Key <$> ConfigKeys (ocppConfig g').
Proof. eexists _, _. split; [vm_compute; reflexivity|]. vm_compute. left. Qed.
