(* ===== verification/WebSocket.v ===== *)
(** * One websocket connection (src/ws/websocket.go)

    [webSocket]: a read pump and a write pump share a connection with callers of
    [Write] and [Close].  The mutex is modelled with its readers and its waiting
    writer, since a writer of messages blocks on the output channel while it holds
    the read lock.  A receive or send that Go answers with a run-time panic is an
    event of the log, after which the goroutine is gone.  The network, the peer's
    frames and the callbacks' results are the environment's choices; deadlines
    are passed to the network and have no other effect. *)

From S2P Require Import Prelude Conc Ocpp.
Local Open Scope string_scope.
Local Open Scope list_scope.

(** ** Configuration *)

Record PingConfig := mkPingConfig { PingPeriod : Z; PongWait : Z }.

Record WebSocketConfig := mkWebSocketConfig {
  WriteWait : Z;
  ReadWait : Z;
  pingConfig : option PingConfig;
  ReadLimit : Z
}.

Definition defaultWriteWait : Z := 10 * second.
Definition defaultPongWait : Z := 60 * second.
Definition defaultPingWait : Z := defaultPongWait.
Definition defaultPingPeriod : Z := Z.quot (defaultPongWait * 9) 10.

Definition NewDefaultWebSocketConfig (writeWait readWait pingPeriod pongWait : Z) : WebSocketConfig :=
  mkWebSocketConfig writeWait readWait
    (if decide (0 < pingPeriod)%Z then Some (mkPingConfig pingPeriod pongWait) else None) 0.

(** [newOptTicker]: the period of the ticker, if it ticks at all. *)
Definition newOptTicker (cfg : option PingConfig) : option Z :=
  match cfg with
  | Some p => if decide (0 < PingPeriod p)%Z then Some (PingPeriod p) else None
  | None => None
  end.

(** [getReadTimeout]: the wait before a read fails, if any. *)
Definition read_wait (cfg : WebSocketConfig) : option Z :=
  match pingConfig cfg with
  | Some p => if decide (0 < PongWait p)%Z then Some (PongWait p)
              else if decide (0 < ReadWait cfg)%Z then Some (ReadWait cfg) else None
  | None => if decide (0 < ReadWait cfg)%Z then Some (ReadWait cfg) else None
  end.

(** [initPingPong]: whether the package's own ping and pong handlers are set; else
    the library answers a ping by itself and ignores a pong. *)
Definition handles_ping (cfg : WebSocketConfig) : bool := bool_decide (0 < ReadWait cfg)%Z.
Definition handles_pong (cfg : WebSocketConfig) : bool := bool_decide (is_Some (pingConfig cfg)).

(** The limit [updateConfig] sets on the connection. *)
Definition read_limit (cfg : WebSocketConfig) : option Z :=
  if decide (0 < ReadLimit cfg)%Z then Some (ReadLimit cfg) else None.

(** ** State *)

Record message := mkMessage { typ : Z; data : string }.
Record CloseError := mkCloseError { Code : Z; Text : string }.

Inductive channel := COut | CPing | CClose | CForce | CDone.
#[export] Instance channel_eq_dec : EqDecision channel.
Proof. solve_decision. Defined.

(** Run-time panics. *)
Inductive fault := SendOnClosed (c : channel) | CloseOfClosed (c : channel) | NilConnection.

Inductive event :=
| EvQueued (m : message)                 (* Write accepted a message *)
| EvSent (m : message)                   (* written to the network *)
| EvPing | EvPong (d : string)
| EvFailed (m : option message) (err : error)  (* a network write failed *)
| EvCloseFrame (err : option error)      (* a close message was written, or failed to be *)
| EvMessage (d : string)                 (* onMessage *)
| EvError (err : error)                  (* onError *)
| EvClosed (err : option error)          (* onClosed *)
| EvPanic (f : fault).

Record webSocket := mkWebSocket {
  connection : bool;             (* not nil *)
  readers : nat;                 (* the RWMutex: read locks held, *)
  waiting : bool;                (* a call of Lock that waits, *)
  writing : bool;                (* the write lock held *)
  outQueue : list message;       (* capacity 2 *)
  pingC : option string;         (* capacity 1 *)
  closeC : option CloseError;    (* capacity 1 *)
  forceCloseC : option error;    (* capacity 1 *)
  closed : list channel;         (* closed channels, in order *)
  log : list event
}.

Definition set_connection (x : bool) (s : webSocket) : webSocket :=
  mkWebSocket x (readers s) (waiting s) (writing s) (outQueue s) (pingC s) (closeC s) (forceCloseC s) (closed s) (log s).
Definition set_lock (r : nat) (wt wr : bool) (s : webSocket) : webSocket :=
  mkWebSocket (connection s) r wt wr (outQueue s) (pingC s) (closeC s) (forceCloseC s) (closed s) (log s).
Definition set_outQueue (x : list message) (s : webSocket) : webSocket :=
  mkWebSocket (connection s) (readers s) (waiting s) (writing s) x (pingC s) (closeC s) (forceCloseC s) (closed s) (log s).
Definition set_pingC (x : option string) (s : webSocket) : webSocket :=
  mkWebSocket (connection s) (readers s) (waiting s) (writing s) (outQueue s) x (closeC s) (forceCloseC s) (closed s) (log s).
Definition set_closeC (x : option CloseError) (s : webSocket) : webSocket :=
  mkWebSocket (connection s) (readers s) (waiting s) (writing s) (outQueue s) (pingC s) x (forceCloseC s) (closed s) (log s).
Definition set_forceCloseC (x : option error) (s : webSocket) : webSocket :=
  mkWebSocket (connection s) (readers s) (waiting s) (writing s) (outQueue s) (pingC s) (closeC s) x (closed s) (log s).
Definition set_closed (x : list channel) (s : webSocket) : webSocket :=
  mkWebSocket (connection s) (readers s) (waiting s) (writing s) (outQueue s) (pingC s) (closeC s) (forceCloseC s) x (log s).
Definition emit (evs : list event) (s : webSocket) : webSocket :=
  mkWebSocket (connection s) (readers s) (waiting s) (writing s) (outQueue s) (pingC s) (closeC s) (forceCloseC s)
    (closed s) (log s ++ evs).

(** [newWebSocket] for a connection. *)
Definition newWebSocket : webSocket := mkWebSocket true 0 false false [] None None None [] [].

(** A frame the peer sends, or the failure of the read, which may be unexpected. *)
Inductive frame := FMessage (d : string) | FPing (d : string) | FPong (d : string) | FFail (err : error) (unexpected : bool).

Inductive choice :=
| ArmTick | ArmPing | ArmOut | ArmClose | ArmForce | ArmDone    (* the arm of a select *)
| Read (f : frame)
| Net (err : option error)                                      (* a network write *)
| Handled (err : option error)                                  (* what onMessage returns *)
| Go.

Abbreviation prog A := (proc webSocket choice A).

Definition is_closed (c : channel) (s : webSocket) : bool := bool_decide (c ∈ closed s).

(** ** The mutex *)

Definition RLock : prog unit :=
  atomic (λ s, if waiting s || writing s then None else Some (set_lock (S (readers s)) (waiting s) (writing s) s, tt)).
Definition RUnlock : prog unit := modify (λ s, set_lock (pred (readers s)) (waiting s) (writing s) s).
Definition Lock : prog unit :=
  (modify (λ s, set_lock (readers s) true (writing s) s) ;;
  atomic (λ s, if decide (readers s = 0) then Some (set_lock 0 false true s, tt) else None))%proc.
Definition Unlock : prog unit := modify (λ s, set_lock (readers s) (waiting s) false s).

(** ** Operations of callers *)

Definition IsConnected : prog bool := (RLock ;; c <- read connection ;; RUnlock ;; Ret c)%proc.

(** The select of [WriteManual] and [Close]: a send, or the end of the socket. *)
Definition send_or_done (c : channel) (push : webSocket → option webSocket) (closing : error) : prog (option error) :=
  choose (λ ch s, match ch with
                  | ArmOut => if is_closed c s then Some (emit [EvPanic (SendOnClosed c)] s, None)
                              else match push s with Some s' => Some (s', None) | None => None end
                  | ArmDone => if is_closed CDone s then Some (s, Some closing) else None
                  | _ => None
                  end).

Definition push_out (m : message) (s : webSocket) : option webSocket :=
  if decide (length (outQueue s) < 2) then Some (emit [EvQueued m] (set_outQueue (outQueue s ++ [m]) s)) else None.
Definition push_close (e : CloseError) (s : webSocket) : option webSocket :=
  match closeC s with None => Some (set_closeC (Some e) s) | Some _ => None end.

Definition guarded_send (c : channel) (push : webSocket → option webSocket) (nilErr closing : error) : prog (option error) :=
  (RLock ;;
  conn <- read connection ;;
  res <- (if conn : bool then send_or_done c push closing else Ret (Some nilErr)) ;;
  RUnlock ;;
  Ret res)%proc.

Definition WriteManual (m : message) : prog (option error) :=
  guarded_send COut (push_out m) (Errorf "cannot write to closed connection" None)
    (Errorf "cannot write to closing connection" None).
Definition TextMessage : Z := 1.
Definition Write (d : string) : prog (option error) := WriteManual (mkMessage TextMessage d).

Definition Close (e : CloseError) : prog (option error) :=
  guarded_send CClose (push_close e) (Errorf "cannot close already closed connection" None)
    (Errorf "cannot close already closing connection" None).

(** ** The read pump *)

Section pumps.
Context (cfg : WebSocketConfig).

Definition getReadTimeout : prog (option Z) := (RLock ;; RUnlock ;; Ret (read_wait cfg))%proc.

(** A send outside the lock: [true] if the goroutine survives. *)
Definition send_ping (d : string) : prog bool :=
  atomic (λ s, if is_closed CPing s then Some (emit [EvPanic (SendOnClosed CPing)] s, false)
               else match pingC s with None => Some (set_pingC (Some d) s, true) | Some _ => None end).

(** [conn.SetReadDeadline(w.getReadTimeout())] on a connection read before. *)
Definition reset_deadline (conn : bool) : prog bool :=
  (getReadTimeout ;;
  if conn then Ret true else modify (emit [EvPanic NilConnection]) ;; Ret false)%proc.

Definition onPing (d : string) : prog bool :=
  (conn <- read connection ;;
  ok <- send_ping d ;;
  if ok : bool then reset_deadline conn else Ret false)%proc.

Definition onPong : prog bool := (conn <- read connection ;; reset_deadline conn)%proc.

Definition force_close (err : error) : prog unit :=
  atomic (λ s, if is_closed CForce s then Some (emit [EvPanic (SendOnClosed CForce)] s, tt)
               else match forceCloseC s with None => Some (set_forceCloseC (Some err) s, tt) | Some _ => None end).

(** The failure of a read: leave the connection to the write pump. *)
Definition read_failed (err : error) (unexpected : bool) : prog unit :=
  ((if unexpected then modify (emit [EvError (Errorf "read failed unexpectedly" (Some err))]) else Ret tt) ;;
  RLock ;;
  conn <- read connection ;;
  (if conn : bool then force_close err else Ret tt) ;;
  RUnlock)%proc.

Definition next_frame : prog frame := choose (λ ch s, match ch with Read f => Some (s, f) | _ => None end).

(** [readPump]: the loop variable tells whether it is past its prologue. *)
Definition read_body (started : bool) : prog (option bool) :=
  if started then
    (f <- next_frame ;;
    match f with
    | FPing d => if handles_ping cfg then ok <- onPing d ;; Ret (if ok : bool then Some true else None) else Ret (Some true)
    | FPong d => if handles_pong cfg then ok <- onPong ;; Ret (if ok : bool then Some true else None) else Ret (Some true)
    | FMessage d =>
        modify (emit [EvMessage d]) ;;
        e <- choose (λ ch s, match ch with Handled e => Some (s, e) | _ => None end) ;;
        match e with Some err => modify (emit [EvError err]) | None => Ret tt end ;;
        getReadTimeout ;;
        Ret (Some true)
    | FFail err unexpected => read_failed err unexpected ;; Ret None
    end)%proc
  else
    (conn <- IsConnected ;;
    if conn : bool then getReadTimeout ;; Ret (Some true)
    else modify (emit [EvError (Errorf "readPump started with nil connection" None)]) ;; Ret None)%proc.

Definition readPump : thread webSocket choice := start_loop read_body false.

(** ** The write pump *)

Definition close_chan (c : channel) : prog unit :=
  modify (λ s, if is_closed c s then emit [EvPanic (CloseOfClosed c)] s else set_closed (closed s ++ [c]) s).

Definition cleanup (err : option error) : prog unit :=
  (close_chan CDone ;;
  Lock ;;
  modify (set_connection false) ;;
  close_chan COut ;;
  close_chan CPing ;;
  close_chan CClose ;;
  close_chan CForce ;;
  Unlock ;;
  modify (emit [EvClosed err]))%proc.

(** What the select of the write pump receives. *)
Inductive work :=
| WTick | WPing (d : string) | WMessage (m : message) | WOutClosed | WClose (e : CloseError) | WForce (err : option error).

Definition select_work : prog work :=
  choose (λ ch s, match ch with
    | ArmTick => if newOptTicker (pingConfig cfg) is Some _ then Some (s, WTick) else None
    | ArmPing => match pingC s with
                 | Some d => Some (set_pingC None s, WPing d)
                 | None => if is_closed CPing s then Some (s, WPing "") else None
                 end
    | ArmOut => match outQueue s with
                | m :: q => Some (set_outQueue q s, WMessage m)
                | [] => if is_closed COut s then Some (s, WOutClosed) else None
                end
    | ArmClose => match closeC s with
                  | Some e => Some (set_closeC None s, WClose e)
                  | None => if is_closed CClose s then Some (s, WClose (mkCloseError 0 "")) else None
                  end
    | ArmForce => match forceCloseC s with
                  | Some e => Some (set_forceCloseC None s, WForce (Some e))
                  | None => if is_closed CForce s then Some (s, WForce None) else None
                  end
    | _ => None
    end).

(** A network write: the next iteration, or the cleanup after a failure. *)
Definition network (text : string) (m : option message) (sent : event) : prog (option bool) :=
  (r <- choose (λ ch s, match ch with
                        | Net None => Some (emit [sent] s, None)
                        | Net (Some e) => Some (emit [EvFailed m e] s, Some e)
                        | _ => None
                        end) ;;
  match r with
  | None => Ret (Some true)
  | Some e => modify (emit [EvError (Errorf text (Some e))]) ;; cleanup (Some e) ;; Ret None
  end)%proc.

(** The close message: the pump goes on as intended whether or not it was written. *)
Definition close_frame : prog (option error) :=
  choose (λ ch s, match ch with Net r => Some (emit [EvCloseFrame r] s, r) | _ => None end).

Definition write_body (started : bool) : prog (option bool) :=
  if started then
    (w <- select_work ;;
    match w with
    | WTick => network "failed to send ping message" None EvPing
    | WPing d => network "failed to send pong message" None (EvPong d)
    | WMessage m => network "write failed" (Some m) (EvSent m)
    | WOutClosed => modify (emit [EvError (Errorf "output queue was closed" None)]) ;; Ret None
    | WClose e =>
        r <- close_frame ;;
        match r with
        | Some err => modify (emit [EvError (Errorf "failed to write close message" (Some err))])
        | None => Ret tt
        end ;;
        cleanup None ;;
        Ret None
    | WForce err =>
        cleanup (Some (default (Errorf "websocket read channel closed abruptly" None) err)) ;;
        Ret None
    end)%proc
  else (RLock ;; RUnlock ;; Ret (Some true))%proc.

Definition writePump : thread webSocket choice := start_loop write_body false.

(** [run], with the callers of the socket. *)
Inductive op := OpWrite (m : message) | OpClose (e : CloseError) | OpIsConnected.

Definition run_op (o : op) : prog unit :=
  match o with
  | OpWrite m => (WriteManual m ;; Ret tt)%proc
  | OpClose e => (Close e ;; Ret tt)%proc
  | OpIsConnected => (IsConnected ;; Ret tt)%proc
  end.

Definition system (ops : list op) : config (S:=webSocket) (C:=choice) :=
  (newWebSocket, writePump :: readPump :: (Run ∘ run_op <$> ops)).
End pumps.
