(* ===== verification/WebSocketTheorems.v ===== *)
(** * A websocket under every schedule

    [scan] reads the log of a [webSocket] as an automaton: it writes to the network
    while it is open; a failed write or a close message, written or not, is followed
    by nothing but the disconnect callback with the matching error, and that callback
    runs once.
    [inv] is the invariant of the two pumps and their callers; the write pump owns
    the stage of the connection's life, a holder of the read lock owns a token. *)

From S2P Require Import Prelude Conc Ocpp WebSocket.
Local Open Scope list_scope.

(** ** The log *)

Inductive wire := Open | Ending (err : option error) | Over.

Definition scan_step (w : wire) (ev : event) : option wire :=
  match ev with
  | EvSent _ | EvPing | EvPong _ => if w is Open then Some Open else None
  | EvFailed _ e => if w is Open then Some (Ending (Some e)) else None
  | EvCloseFrame _ => if w is Open then Some (Ending None) else None
  | EvClosed e => match w, e with
                  | Open, Some _ => Some Over
                  | Ending None, None => Some Over
                  | Ending (Some _), Some _ => Some Over
                  | _, _ => None
                  end
  | EvQueued _ | EvMessage _ | EvError _ | EvPanic _ => Some w
  end.

Fixpoint scan_from (w : wire) (l : list event) : option wire :=
  match l with
  | [] => Some w
  | ev :: l' => match scan_step w ev with Some w' => scan_from w' l' | None => None end
  end.
Definition scan (l : list event) : option wire := scan_from Open l.

Lemma wire_scan_snoc l ev w w' : scan l = Some w → scan_step w ev = Some w' → scan (l ++ [ev]) = Some w'.
Proof.
  unfold scan. generalize Open as w0. induction l as [|e l IH]; intros w0; simpl.
  - intros ? Hs. simplify_eq. by rewrite Hs.
  - destruct (scan_step w0 e); [apply IH|done].
Qed.

(** Messages accepted, and messages the pump has tried to write. *)
Definition queued (l : list event) : list message := omap (λ ev, if ev is EvQueued m then Some m else None) l.
Definition handled (l : list event) : list message :=
  omap (λ ev, match ev with EvSent m | EvFailed (Some m) _ => Some m | _ => None end) l.
Definition sent (l : list event) : list message := omap (λ ev, if ev is EvSent m then Some m else None) l.

(** The panics the configuration does not rule out. *)
Definition tolerated (cfg : WebSocketConfig) (ev : event) : bool :=
  match ev with
  | EvPanic (SendOnClosed CPing) => handles_ping cfg
  | EvPanic NilConnection => handles_ping cfg || handles_pong cfg
  | EvPanic _ => false
  | _ => true
  end.

(** ** The life of a connection, as its write pump knows it *)

Inductive stage :=
| SAlive (hand : option message)       (* in its loop, with a message taken from the queue *)
| SStop (graceful : bool)              (* about to clean up *)
| SDone (graceful : bool) | SWait (graceful : bool) | SLocked (graceful : bool)
| SClosing (graceful : bool) (n : nat) (* the connection is gone, n channels closed *)
| SUnlocked (graceful : bool) | SEnd.

Definition data_channels : list channel := [COut; CPing; CClose; CForce].

Definition fields (s : webSocket) : list channel * bool * bool * bool := (closed s, connection s, waiting s, writing s).

Definition fields_of (st : stage) : list channel * bool * bool * bool :=
  match st with
  | SAlive _ | SStop _ => ([], true, false, false)
  | SDone _ => ([CDone], true, false, false)
  | SWait _ => ([CDone], true, true, false)
  | SLocked _ => ([CDone], true, false, true)
  | SClosing _ n => (CDone :: take n data_channels, false, false, true)
  | SUnlocked _ | SEnd => (CDone :: data_channels, false, false, false)
  end.

Definition hand (st : stage) : list message := if st is SAlive (Some m) then [m] else [].

(** What the log says at a stage: whether the disconnect is owed, and how. *)
Definition owes (graceful : bool) (w : wire) : Prop :=
  match w with Open => graceful = false | Ending e => graceful = bool_decide (e = None) | Over => False end.

Definition stage_wire (st : stage) (w : wire) : Prop :=
  match st with
  | SAlive _ => w = Open
  | SStop g | SDone g | SWait g | SLocked g | SClosing g _ | SUnlocked g => owes g w
  | SEnd => w = Over
  end.

Inductive tok := TW (st : stage) | TR (i : nat) (conn : bool).

#[export] Instance message_eq_dec : EqDecision message.
Proof. solve_decision. Defined.
#[export] Instance message_countable : Countable message.
Proof. refine (inj_countable' (λ m, (typ m, data m)) (λ '(t, d), mkMessage t d) _). by intros []. Defined.
#[export] Instance stage_eq_dec : EqDecision stage.
Proof. solve_decision. Defined.
#[export] Instance stage_countable : Countable stage.
Proof.
  refine (inj_countable' (λ st, match st with
      | SAlive h => inl (inl h) | SEnd => inl (inr tt)
      | SStop g => inr (0, g, 0) | SDone g => inr (1, g, 0) | SWait g => inr (2, g, 0) | SLocked g => inr (3, g, 0)
      | SClosing g n => inr (4, g, n) | SUnlocked g => inr (5, g, 0) end)
    (λ x, match x with
      | inl (inl h) => SAlive h | inl (inr _) => SEnd
      | inr (0, g, _) => SStop g | inr (1, g, _) => SDone g | inr (2, g, _) => SWait g | inr (3, g, _) => SLocked g
      | inr (4, g, n) => SClosing g n | inr (_, g, _) => SUnlocked g end) _).
  by intros [].
Defined.
#[export] Instance tok_eq_dec : EqDecision tok.
Proof. solve_decision. Defined.
#[export] Instance tok_countable : Countable tok.
Proof.
  refine (inj_countable' (λ t, match t with TW st => inl st | TR i c => inr (i, c) end)
    (λ x, match x with inl st => TW st | inr (i, c) => TR i c end) _).
  by intros [].
Defined.

(** ** The invariant *)

Definition is_reader (t : tok) : Prop := if t is TR _ _ then True else False.
#[export] Instance is_reader_dec t : Decision (is_reader t).
Proof. destruct t; apply _. Defined.
Definition rset (o : gset tok) : gset tok := filter is_reader o.

Lemma rset_TW st r : rset ({[TW st]} ∪ r) = rset r.
Proof. unfold rset. apply set_eq. intros x. rewrite !elem_of_filter. set_solver. Qed.
Lemma rset_TR i c r : rset ({[TR i c]} ∪ r) = {[TR i c]} ∪ rset r.
Proof. unfold rset. apply set_eq. intros x. rewrite !elem_of_filter. set_solver. Qed.
Lemma rset_TR_size i c r : {[TR i c]} ## r → size (rset ({[TR i c]} ∪ r)) = S (size (rset r)).
Proof.
  intros Hd. rewrite rset_TR, size_union, size_singleton; [done|].
  unfold rset. intros x Hx1 Hx2%elem_of_filter. set_solver.
Qed.

(** A token no thread owns. *)
Lemma fresh_reader (r : gset tok) : ∃ i, ∀ c, TR i c ∉ r.
Proof.
  exists (fresh (set_map (C:=gset tok) (D:=gset nat) (λ t, if t is TR i _ then i else 0) r)).
  intros c Hin. apply (is_fresh (set_map (C:=gset tok) (D:=gset nat) (λ t, if t is TR i _ then i else 0) r)).
  apply elem_of_map. by exists (TR (fresh (set_map (C:=gset tok) (D:=gset nat) (λ t, if t is TR i _ then i else 0) r)) c).
Qed.

Section invariant.
Context (cfg : WebSocketConfig).
Implicit Types (s : webSocket) (o r : gset tok).

Record inv_at s o (st : stage) (w : wire) : Prop := {
  i_scan : scan (log s) = Some w;
  i_fields : fields s = fields_of st;
  i_wire : stage_wire st w;
  i_fifo : queued (log s) = handled (log s) ++ hand st ++ outQueue s;
  i_cap : length (outQueue s) ≤ 2;
  i_panic : Forall (λ ev, tolerated cfg ev = true) (log s);
  i_readers : readers s = size (rset o);
  i_excl : writing s = true → readers s = 0;
  i_conn i : TR i true ∈ o → connection s = true;
  i_uniq i c c' : TR i c ∈ o → TR i c' ∈ o → c = c';
  i_tok st' : TW st' ∈ o → st' = st
}.

Definition inv s o : Prop := ∃ st w, inv_at s o st w.

(** An event that the invariant does not look at. *)
Definition neutral (ev : event) : Prop :=
  match ev with EvMessage _ | EvError _ => True | EvPanic _ => tolerated cfg ev = true | _ => False end.

Definition same_core s s' : Prop :=
  fields s' = fields s ∧ outQueue s' = outQueue s ∧ readers s' = readers s.

Lemma inv_quiet s s' o : inv s o → same_core s s' → log s' = log s → inv s' o.
Proof.
  intros (st & w & []) (Ef & Eo & Er) El. injection Ef as Ec Ecn Ewt Ewr.
  exists st, w. split; unfold fields; rewrite ?Ec, ?Ecn, ?Ewt, ?Ewr, ?Eo, ?Er, ?El; auto.
Qed.

Lemma inv_event s s' o ev : inv s o → same_core s s' → log s' = log s ++ [ev] → neutral ev → inv s' o.
Proof.
  intros (st & w & []) (Ef & Eo & Er) El Hn. injection Ef as Ec Ecn Ewt Ewr.
  exists st, w. split; unfold fields; rewrite ?Ec, ?Ecn, ?Ewt, ?Ewr, ?Eo, ?Er, ?El; auto.
  - eapply wire_scan_snoc; [done|]. by destruct ev.
  - unfold queued, handled in *. rewrite !omap_app. destruct ev; try done; simpl; by rewrite !app_nil_r.
  - apply Forall_app. split; [done|]. apply Forall_singleton. by destruct ev.
Qed.
End invariant.

Notation safe_w cfg := (safe (inv cfg) (λ _, True)).

Ltac frame_step :=
  intros; go_case; first
    [ done
    | eapply inv_quiet; [eassumption|by repeat split|done]
    | eapply inv_event; [eassumption|by repeat split|done|done] ].

(** ** Holders of the read lock *)

Section readers.
Context (cfg : WebSocketConfig).
Implicit Types (s : webSocket) (o r : gset tok).

(** A thread that owns [o] takes the lock, with a token of its own. *)
Lemma inv_rlock o r s i :
  inv cfg s (o ∪ r) → waiting s || writing s = false → (∀ c, TR i c ∉ o ∪ r) →
  inv cfg (set_lock (S (readers s)) (waiting s) (writing s) s) ({[TR i false]} ∪ o ∪ r).
Proof.
  intros (st & w & []) [Hw1 Hw2]%orb_false_iff Hf. exists st, w.
  rewrite <-(assoc_L (∪)). split; simpl; auto.
  - rewrite rset_TR_size; [by f_equal|]. pose proof (Hf false) as H. set_solver +H.
  - congruence.
  - intros j Hj. apply (i_conn0 j). set_solver +Hj.
  - intros j c c' [?%elem_of_singleton|Hc]%elem_of_union [?%elem_of_singleton|Hc']%elem_of_union; simplify_eq;
      [done|by destruct (Hf c')|by destruct (Hf c)|by eapply i_uniq0].
  - intros st' Hst. apply i_tok0. set_solver +Hst.
Qed.

Lemma inv_saw_conn o r s i :
  TR i false ∉ o ∪ r → connection s = true →
  inv cfg s ({[TR i false]} ∪ o ∪ r) → TR i true ∉ o ∪ r ∧ inv cfg s ({[TR i true]} ∪ o ∪ r).
Proof.
  intros Hf Hc (st & w & []). rewrite <-(assoc_L (∪)) in *.
  assert (Ht : TR i true ∉ o ∪ r).
  { intros Hin. assert (true = false) by (apply (i_uniq0 i); set_solver +Hin). done. }
  split; [done|]. exists st, w. rewrite rset_TR_size in * by (set_solver +Hf). split; auto.
  - rewrite rset_TR_size by (set_solver +Ht). done.
  - intros j c c' [?%elem_of_singleton|Hj]%elem_of_union [?%elem_of_singleton|Hj']%elem_of_union; simplify_eq; [done|..].
    + destruct c'; [done|by destruct Hf].
    + destruct c; [done|by destruct Hf].
    + apply (i_uniq0 j); set_solver +Hj Hj'.
  - intros st' Hst. apply i_tok0. set_solver +Hst.
Qed.

Lemma inv_runlock o r s i c :
  TR i c ∉ o ∪ r → inv cfg s ({[TR i c]} ∪ o ∪ r) →
  inv cfg (set_lock (pred (readers s)) (waiting s) (writing s) s) (o ∪ r).
Proof.
  intros Hd (st & w & []). exists st, w. rewrite <-(assoc_L (∪)) in *.
  rewrite rset_TR_size in * by (set_solver +Hd). split; simpl; auto.
  - by rewrite i_readers0.
  - intros Hw. by rewrite i_excl0.
  - intros j Hj. apply (i_conn0 j). set_solver +Hj.
  - intros j c1 c2 H1 H2. apply (i_uniq0 j); set_solver +H1 H2.
  - intros st' Hst. apply i_tok0. set_solver +Hst.
Qed.

Lemma safe_RLock o (Q : gset tok → unit → Prop) :
  (∀ i, (∀ c, TR i c ∉ o) → Q ({[TR i false]} ∪ o) tt) → safe_w cfg o RLock Q.
Proof.
  intros HQ. apply safe_atomic. intros s r s' [] Hd Hi Hf. case_match eqn:Hw; simplify_eq.
  destruct (fresh_reader (o ∪ r)) as [i Hfr]. exists ({[TR i false]} ∪ o).
  assert (∀ c, TR i c ∉ o ∧ TR i c ∉ r) as Hn by (intros c; specialize (Hfr c); set_solver +Hfr).
  split; [destruct (Hn false) as [_ Hnr]; set_solver +Hnr Hd|]. split; [by apply inv_rlock|].
  apply HQ. intros c. apply Hn.
Qed.

Lemma safe_RUnlock o i c (Q : gset tok → unit → Prop) :
  TR i c ∉ o → Q o tt → safe_w cfg ({[TR i c]} ∪ o) RUnlock Q.
Proof.
  intros Ho HQ. apply safe_modify. intros s r Hd Hi. exists o. split; [set_solver +Hd|]. split; [|done].
  apply (inv_runlock o r s i c); [set_solver +Hd Ho|done].
Qed.

Lemma safe_read_conn o i (Q : gset tok → bool → Prop) :
  TR i false ∉ o → (∀ b, TR i b ∉ o → Q ({[TR i b]} ∪ o) b) →
  safe_w cfg ({[TR i false]} ∪ o) (read connection : prog bool) Q.
Proof.
  intros Ho HQ. apply safe_read. intros s r Hd Hi. destruct (connection s) eqn:Hc.
  - destruct (inv_saw_conn o r s i) as [Hn Hi']; [set_solver +Hd Ho|done..|].
    exists ({[TR i true]} ∪ o). split; [set_solver +Hd Hn|]. split; [done|]. apply HQ. set_solver +Hn.
  - exists ({[TR i false]} ∪ o). split; [done|]. split; [done|]. by apply HQ.
Qed.
Lemma safe_getReadTimeout o (Q : gset tok → option Z → Prop) :
  (∀ x, Q o x) → safe_w cfg o (getReadTimeout cfg) Q.
Proof.
  intros HQ. apply safe_bind, safe_RLock. intros i Hi.
  apply safe_bind, safe_RUnlock; [apply Hi|apply HQ].
Qed.

Lemma safe_IsConnected o (Q : gset tok → bool → Prop) : (∀ b, Q o b) → safe_w cfg o IsConnected Q.
Proof.
  intros HQ. apply safe_bind, safe_RLock. intros i Hi. apply safe_bind, safe_read_conn; [apply Hi|].
  intros b Hb. apply safe_bind, safe_RUnlock; [done|apply HQ].
Qed.

(** Under the read lock, with the connection seen, no data channel is closed. *)
Lemma reader_open o r s i c :
  inv cfg s ({[TR i true]} ∪ o ∪ r) → c ∈ data_channels → is_closed c s = false.
Proof.
  intros (st & w & []) Hc. apply bool_decide_eq_false.
  assert (Hconn : connection s = true) by (apply (i_conn0 i); set_solver +).
  unfold fields in i_fields0. rewrite Hconn in i_fields0. intros Hin.
  assert (closed s = [] ∨ closed s = [CDone]) as [E|E] by (destruct st; simplify_eq/=; auto);
    rewrite E in Hin; unfold data_channels in Hc; clear -Hc Hin; set_solver.
Qed.

Lemma safe_send o i c push closing (Q : gset tok → option error → Prop) :
  c ∈ data_channels →
  (∀ s s' o, inv cfg s o → is_closed c s = false → push s = Some s' → inv cfg s' o) →
  (∀ x, Q ({[TR i true]} ∪ o) x) → safe_w cfg ({[TR i true]} ∪ o) (send_or_done c push closing) Q.
Proof.
  intros Hc Hp HQ. apply safe_choose. intros ch s r s' x Hd Hi Hf. exists ({[TR i true]} ∪ o).
  split; [done|]. pose proof (reader_open _ _ _ _ c Hi Hc) as Hop.
  destruct ch; simplify_eq; [|by case_match; simplify_eq].
  rewrite Hop in Hf. destruct (push s) eqn:Hps; simplify_eq. split; [by eapply Hp|done].
Qed.

Lemma safe_guarded_send c push nilErr closing :
  c ∈ data_channels →
  (∀ s s' o, inv cfg s o → is_closed c s = false → push s = Some s' → inv cfg s' o) →
  safe_w cfg ∅ (guarded_send c push nilErr closing) (λ o _, o = ∅).
Proof.
  intros Hc Hp. apply safe_bind, safe_RLock. intros i Hi. apply safe_bind, safe_read_conn; [apply Hi|].
  intros [] Hb; apply safe_bind.
  - apply safe_send; [done..|]. intros x. by apply safe_bind, safe_RUnlock.
  - by apply safe_bind, safe_RUnlock.
Qed.

(** A queued message. *)
Lemma inv_push_out m s s' o : inv cfg s o → push_out m s = Some s' → inv cfg s' o.
Proof.
  intros (st & w & []) Hp. unfold push_out in Hp. case_decide; simplify_eq. exists st, w. split; simpl; auto.
  - by eapply wire_scan_snoc.
  - unfold queued, handled in *. rewrite !omap_app. simpl. rewrite i_fifo0, app_nil_r. by rewrite !(assoc_L (++)).
  - rewrite length_app. simpl. lia.
  - apply Forall_app. split; [done|]. by apply Forall_singleton.
Qed.

Lemma run_op_ok p : thread_ok (inv cfg) (λ _, True) ∅ (Run (run_op p)).
Proof.
  destruct p as [m|e|]; apply safe_bind.
  - eapply safe_mono, safe_guarded_send; [done|set_solver|]. intros. by eapply inv_push_out.
  - eapply safe_mono, safe_guarded_send; [done|set_solver|]. unfold push_close. intros. frame_step.
  - by apply safe_IsConnected.
Qed.

(** ** The read pump *)

Lemma safe_reset_deadline conn (Q : gset tok → bool → Prop) :
  handles_ping cfg || handles_pong cfg = true → (∀ b, Q ∅ b) → safe_w cfg ∅ (reset_deadline cfg conn) Q.
Proof.
  intros Hh HQ. apply safe_bind, safe_getReadTimeout. intros _. destruct conn; [apply HQ|].
  apply safe_bind, safe_modify_frame; [frame_step|apply HQ].
Qed.

Lemma safe_read_failed err b (Q : gset tok → unit → Prop) : Q ∅ tt → safe_w cfg ∅ (read_failed err b) Q.
Proof.
  intros HQ. apply safe_bind.
  assert (Hrest : safe_w cfg ∅ (bind RLock (λ _, bind (read connection) (λ conn : bool,
    bind (if conn then force_close err else Ret tt) (λ _, RUnlock)))) Q).
  { apply safe_bind, safe_RLock. intros i Hi. apply safe_bind, safe_read_conn; [apply Hi|].
    intros [] Hb; apply safe_bind; [|by apply safe_RUnlock].
    apply safe_atomic. intros s r s' [] Hd HI Hf. exists ({[TR i true]} ∪ ∅). split; [done|].
    assert (Hop : is_closed CForce s = false) by (eapply reader_open; [done|set_solver]).
    rewrite Hop in Hf. split; [revert Hf; case_match; [done|]; intros; simplify_eq|by apply safe_RUnlock].
    eapply inv_quiet; [done|by repeat split|done]. }
  destruct b; [|done]. by apply safe_modify_frame; [frame_step|].
Qed.

Lemma readPump_ok : thread_ok (inv cfg) (λ _, True) ∅ (readPump cfg).
Proof.
  exists (λ _ o, o = ∅).
  assert (Hb : ∀ b, safe_w cfg ∅ (read_body cfg b) (loop_post (λ _, True) (λ (_ : bool) o, o = ∅))).
  { intros []; cbn [read_body].
    - apply safe_bind, safe_choose_frame; [frame_step|]. intros [d|d|d|err u].
      + apply safe_bind, safe_modify_frame; [frame_step|].
        apply safe_bind, safe_choose_frame; [frame_step|]. intros e. apply safe_bind.
        assert (safe_w cfg ∅ (bind (getReadTimeout cfg) (λ _, Ret (Some true)))
          (loop_post (λ _, True) (λ (_ : bool) o, o = ∅))) by (by apply safe_bind, safe_getReadTimeout).
        destruct e; [|done]. by apply safe_modify_frame; [frame_step|].
      + destruct (handles_ping cfg) eqn:Hh; [|done]. apply safe_bind, safe_bind, safe_read_frame. intros conn.
        apply safe_bind, safe_atomic_frame; [|intros []; [apply safe_reset_deadline; [by rewrite Hh|]; by intros []|done]].
        intros s o s' x HI Hf. go_case; [eapply inv_event; [done|by repeat split|done|done]|frame_step].
      + destruct (handles_pong cfg) eqn:Hh; [|done]. apply safe_bind, safe_bind, safe_read_frame. intros conn.
        apply safe_reset_deadline; [by rewrite Hh, orb_true_r|]. by intros [].
      + by apply safe_bind, safe_read_failed.
    - apply safe_bind, safe_IsConnected. intros []; [by apply safe_bind, safe_getReadTimeout|].
      by apply safe_bind, safe_modify_frame; [frame_step|]. }
  split; [intros b o ->; split; [done|apply Hb]|apply Hb].
Qed.

(** ** The write pump *)

Lemma no_readers o : size (rset o) = 0 → ∀ i c, TR i c ∉ o.
Proof.
  intros Hs i c Hin. apply size_empty_inv in Hs. unfold rset in Hs.
  apply (not_elem_of_empty (C:=gset tok) (TR i c)), Hs. by apply elem_of_filter.
Qed.

(** One action of the pump: from stage [x] to [y]. *)
Lemma pump_step x y s s' r (Q : gset tok → Prop) :
  {[TW x]} ## r → inv cfg s ({[TW x]} ∪ r) →
  (∀ w, inv_at cfg s ({[TW x]} ∪ r) x w →
     (∃ w', scan (log s') = Some w' ∧ stage_wire y w') ∧ fields s' = fields_of y ∧
     queued (log s') = handled (log s') ++ hand y ++ outQueue s' ∧ length (outQueue s') ≤ 2 ∧
     Forall (λ ev, tolerated cfg ev = true) (log s') ∧ readers s' = readers s ∧
     (writing s' = true → readers s = 0) ∧ (connection s' = false → connection s = true → readers s = 0)) →
  Q {[TW y]} → ∃ o', o' ## r ∧ inv cfg s' (o' ∪ r) ∧ Q o'.
Proof.
  intros Hd (st & w & Hi) Hstep HQ.
  assert (st = x) as -> by (symmetry; apply (i_tok _ _ _ _ _ Hi); set_solver +).
  destruct (Hstep w Hi) as ((w' & Hsc & Hwi) & Hfi & Hff & Hcap & Hpa & Hre & Hex & Hcn). destruct Hi.
  assert (Htw : ∀ z, TW z ∉ r).
  { intros z Hz. assert (z = x) as -> by (apply i_tok0; set_solver +Hz). set_solver +Hz Hd. }
  exists {[TW y]}. split; [set_solver +Htw|]. split; [|done]. exists y, w'. rewrite rset_TW in i_readers0. split; auto.
  - by rewrite rset_TW, Hre.
  - intros Hw. rewrite Hre. auto.
  - intros i Hin. destruct (connection s') eqn:E; [done|].
    assert (Hin' : TR i true ∈ r) by (set_solver +Hin).
    assert (Hc : connection s = true) by (apply (i_conn0 i); set_solver +Hin').
    exfalso. apply (no_readers r) in Hin'; [done|]. rewrite <-i_readers0. auto.
  - intros i c c' H1 H2. apply (i_uniq0 i); set_solver +H1 H2.
  - intros z Hz. set_solver +Hz Htw.
Qed.

Lemma tolerated_snoc l ev :
  Forall (λ ev, tolerated cfg ev = true) l → tolerated cfg ev = true → Forall (λ ev, tolerated cfg ev = true) (l ++ [ev]).
Proof. intros. apply Forall_app. by split; [|apply Forall_singleton]. Qed.

Ltac pump_fields Hf := unfold fields in Hf; simpl in Hf; injection Hf as Ec Ecn Ewt Ewr.

(** A close by the pump. *)
Lemma safe_close x y c (Q : gset tok → unit → Prop) :
  (∀ w, stage_wire x w → stage_wire y w) → hand y = hand x →
  (∀ s, fields s = fields_of x → c ∉ closed s ∧ fields (set_closed (closed s ++ [c]) s) = fields_of y) →
  Q {[TW y]} tt → safe_w cfg {[TW x]} (close_chan c) Q.
Proof.
  intros Hw Hh Hf HQ. apply safe_modify. intros s r Hd Hi.
  apply (pump_step x y s _ r (λ o, Q o tt)); [done..| |done]. intros w [].
  destruct (Hf s i_fields0) as [Hnc Hfy]. unfold is_closed. rewrite bool_decide_eq_false_2 by done.
  split; [eauto|]. split; [done|]. simpl. rewrite Hh. split_and!; auto. congruence.
Qed.

(** A step of the pump that only changes the lock or the connection. *)
Lemma safe_core x y f (Q : gset tok → unit → Prop) :
  (∀ w, stage_wire x w → stage_wire y w) → hand y = hand x →
  (∀ s, fields s = fields_of x → fields (f s) = fields_of y) →
  (∀ s, log (f s) = log s ∧ outQueue (f s) = outQueue s ∧ readers (f s) = readers s) →
  (∀ s, fields s = fields_of x → (writing s = true → readers s = 0) →
     (writing (f s) = true → readers s = 0) ∧ (connection (f s) = false → connection s = true → readers s = 0)) →
  Q {[TW y]} tt → safe_w cfg {[TW x]} (modify f : prog unit) Q.
Proof.
  intros Hw Hh Hf Hsame Hex HQ. apply safe_modify. intros s r Hd Hi.
  apply (pump_step x y s _ r (λ o, Q o tt)); [done..| |done]. intros w [].
  destruct (Hsame s) as (-> & -> & ->). destruct (Hex s) as [? ?]; [done..|].
  split; [eauto|]. split; [auto|]. rewrite Hh. by split_and!.
Qed.

Ltac pump_eqs := repeat match goal with
  | E : closed ?s = _ |- context [closed ?s] => rewrite E
  | E : connection ?s = _ |- context [connection ?s] => rewrite E
  | E : waiting ?s = _ |- context [waiting ?s] => rewrite E
  | E : writing ?s = _ |- context [writing ?s] => rewrite E
  end.

Ltac pump_close x y :=
  apply safe_bind, (safe_close x y);
    [by intros| done
    | let s := fresh "s" in let Hf := fresh "Hf" in
      intros s Hf; pump_fields Hf; unfold fields; simpl; pump_eqs; split; [set_solver +|done]
    |].

Lemma safe_cleanup e (Q : gset tok → unit → Prop) :
  Q {[TW SEnd]} tt → safe_w cfg {[TW (SStop (bool_decide (e = None)))]} (cleanup e) Q.
Proof.
  intros HQ. set (g := bool_decide (e = None)).
  pump_close (SStop g) (SDone g).
  apply safe_bind, safe_bind, (safe_core (SDone g) (SWait g)); [by intros|done| |by repeat split| |].
  { intros s Hf. pump_fields Hf. unfold fields. simpl. by rewrite Ec, Ecn, Ewr. }
  { intros s Hf ?. simpl. split; [done|]. congruence. }
  apply safe_atomic. intros s r s' [] Hd Hi Hst. case_decide as Hr; simplify_eq.
  apply (pump_step (SWait g) (SLocked g) s _ r (λ o, safe_w cfg o _ Q)); [done..| |].
  { intros w []. pump_fields i_fields0. unfold fields. simpl. rewrite Ec, Ecn. by split_and!; eauto. }
  clear dependent s r. apply safe_bind, (safe_core (SLocked g) (SClosing g 0)); [by intros|done| |by repeat split| |].
  { intros s Hf. pump_fields Hf. unfold fields. simpl. by rewrite Ec, Ewt, Ewr. }
  { intros s Hf Hex. pump_fields Hf. simpl. split; auto. }
  pump_close (SClosing g 0) (SClosing g 1). pump_close (SClosing g 1) (SClosing g 2).
  pump_close (SClosing g 2) (SClosing g 3). pump_close (SClosing g 3) (SClosing g 4).
  apply safe_bind, (safe_core (SClosing g 4) (SUnlocked g)); [by intros|done| |by repeat split| |].
  { intros s Hf. pump_fields Hf. unfold fields. simpl. by rewrite Ec, Ecn, Ewt. }
  { intros s Hf Hex. pump_fields Hf. simpl. split; [done|]. congruence. }
  apply safe_modify. intros s r Hd Hi.
  apply (pump_step (SUnlocked g) SEnd s _ r (λ o, Q o tt)); [done..| |done]. intros w []. simpl in *.
  pump_fields i_fields0. unfold fields, queued, handled in *. simpl. rewrite Ec, Ecn, Ewt, Ewr, !omap_app. simpl.
  rewrite !app_nil_r. split_and!; try done; [|by apply tolerated_snoc].
  exists Over. split; [|done]. eapply wire_scan_snoc; [done|]. subst g. by destruct w as [|[]|], e.
Qed.

(** A network write by the pump, at the top of its loop again or after its end. *)
Definition pump_post (o : gset tok) (r : option bool) : Prop :=
  o = match r with Some _ => {[TW (SAlive None)]} | None => {[TW SEnd]} end.

Lemma safe_network text (m : option message) ev :
  handled [ev] = option_list m → queued [ev] = [] → scan_step Open ev = Some Open → tolerated cfg ev = true →
  safe_w cfg {[TW (SAlive m)]} (network text m ev) pump_post.
Proof.
  intros Hh Hq Hs Ht. unfold handled, queued in *. simpl in Hh, Hq. apply safe_bind, safe_choose.
  intros c s r s' x Hd Hi Hf. destruct c as [| | | | | | |res| |]; try done. destruct res as [e|]; simplify_eq.
  - apply (pump_step (SAlive m) (SStop (bool_decide (Some e = None))) s _ r
      (λ o, safe_w cfg o _ pump_post)); [done..| |].
    + intros w []. simpl in *. subst w. pump_fields i_fields0. unfold fields, queued, handled in *. simpl.
      rewrite Ec, Ecn, Ewt, Ewr, !omap_app, i_fifo0. simpl. rewrite app_nil_r.
      split_and!; try done; [| |by apply tolerated_snoc].
      * exists (Ending (Some e)). split; [by eapply wire_scan_snoc|done].
      * destruct m; simpl; by rewrite <-?(assoc_L (++)), ?app_nil_r.
    + apply safe_bind, safe_modify_frame; [frame_step|]. apply safe_bind, safe_cleanup. done.
  - apply (pump_step (SAlive m) (SAlive None) s _ r (λ o, safe_w cfg o _ pump_post)); [done..| |done].
    intros w []. simpl in *. subst w. pump_fields i_fields0. unfold fields, queued, handled in *. simpl.
    rewrite Ec, Ecn, Ewt, Ewr, !omap_app, i_fifo0. simpl. rewrite Hh, Hq, app_nil_r.
    split_and!; try done; [| |by apply tolerated_snoc].
    + exists Open. split; [by eapply wire_scan_snoc|done].
    + destruct m; simpl; by rewrite <-?(assoc_L (++)), ?app_nil_r.
Qed.

Lemma safe_close_frame :
  safe_w cfg {[TW (SAlive None)]} close_frame (λ o _, o = {[TW (SStop (bool_decide (@None error = None)))]}).
Proof.
  apply safe_choose. intros c s r s' x Hd Hi Hf. destruct c; simplify_eq.
  apply (pump_step (SAlive None) (SStop (bool_decide (@None error = None))) s _ r (λ o, o = _)); [done..| |done].
  intros w []. simpl in *. subst w. pump_fields i_fields0. unfold fields, queued, handled in *. simpl.
  rewrite Ec, Ecn, Ewt, Ewr, !omap_app, i_fifo0. simpl. rewrite !app_nil_r.
  split_and!; try done; [|by apply tolerated_snoc]. exists (Ending None). split; [by eapply wire_scan_snoc|done].
Qed.

(** What the pump knows after its select. *)
Definition work_post (o : gset tok) (x : work) : Prop :=
  match x with
  | WTick | WPing _ | WClose _ => o = {[TW (SAlive None)]}
  | WMessage m => o = {[TW (SAlive (Some m))]}
  | WForce e => o = {[TW (SStop false)]}
  | WOutClosed => False
  end.

Lemma safe_select_work : safe_w cfg {[TW (SAlive None)]} (select_work cfg) work_post.
Proof.
  apply safe_choose. intros c s r s' x Hd Hi Hf.
  assert (Hcl : ∀ ch, is_closed ch s = false).
  { intros ch. destruct Hi as (st & w & Hi). assert (st = SAlive None) as -> by (symmetry; apply Hi; set_solver +).
    destruct Hi. pump_fields i_fields0. unfold is_closed. rewrite Ec. apply bool_decide_eq_false. set_solver +. }
  rewrite !Hcl in Hf.
  assert (Hsame : same_core s s' → log s' = log s → work_post {[TW (SAlive None)]} x →
    ∃ o', o' ## r ∧ inv cfg s' (o' ∪ r) ∧ work_post o' x).
  { intros Hs Hl Hx. exists {[TW (SAlive None)]}. split; [done|]. split; [by eapply inv_quiet|done]. }
  destruct c; try done; revert Hf; case_match eqn:Hm; intros; simplify_eq; try by apply Hsame.
  - apply (pump_step (SAlive None) (SAlive (Some m)) s _ r (λ o, work_post o (WMessage m))); [done..| |done].
    intros w []. simpl in *. unfold fields in *. simpl. rewrite Hm in *. simpl in *.
    split_and!; try done; [by eauto|lia|naive_solver congruence].
  - apply (pump_step (SAlive None) (SStop false) s _ r (λ o, work_post o (WForce (Some e)))); [done..| |done].
    intros w []. simpl in *. subst w. unfold fields in *. simpl.
    split_and!; try done; [by exists Open|naive_solver congruence].
Qed.

Lemma writePump_ok : thread_ok (inv cfg) (λ _, True) {[TW (SAlive None)]} (writePump cfg).
Proof.
  exists (λ _ o, o = {[TW (SAlive None)]}).
  assert (Hpost : ∀ o res, pump_post o res → loop_post (λ _, True) (λ (_ : bool) o, o = {[TW (SAlive None)]}) o res) by (by intros o []).
  assert (Hb : ∀ b, safe_w cfg {[TW (SAlive None)]} (write_body cfg b)
    (loop_post (λ _, True) (λ (_ : bool) o, o = {[TW (SAlive None)]}))).
  { intros []; cbn [write_body].
    - apply safe_bind. eapply safe_mono, safe_select_work. intros o [|d|m| |e|e] Ho; simpl in Ho; subst; try done.
      + eapply safe_mono, safe_network; done.
      + eapply safe_mono, safe_network; done.
      + eapply safe_mono, safe_network; done.
      + apply safe_bind. eapply safe_mono, safe_close_frame. intros o x ->. apply safe_bind.
        assert (safe_w cfg {[TW (SStop (bool_decide (@None error = None)))]} (bind (cleanup None) (λ _, Ret None))
          (loop_post (λ _, True) (λ (_ : bool) o, o = {[TW (SAlive None)]}))) by (by apply safe_bind, safe_cleanup).
        destruct x; [|done]. by apply safe_modify_frame; [frame_step|].
      + apply safe_bind, (safe_cleanup (Some _)). done.
    - apply safe_bind, safe_RLock. intros i Hi. apply safe_bind, safe_RUnlock; [apply Hi|done]. }
  split; [intros b o ->; split; [done|apply Hb]|apply Hb].
Qed.

Lemma socket_inv ops sched s ts :
  exec sched (system cfg ops) = Some (s, ts) → ∃ st w o, inv_at cfg s o st w.
Proof.
  intros Hex. destruct (exec_invariant_head (inv cfg) (λ _, True) sched {[TW (SAlive None)]} newWebSocket
    (writePump cfg) (readPump cfg :: (Run ∘ run_op <$> ops)) s ts) as (o & st & w & Hi); [| | |done|eauto].
  - exists (SAlive None), Open. split; simpl; [done|done|done|done|lia|constructor| |done|set_solver +|set_solver +|set_solver +].
    by rewrite <-(right_id_L ∅ (∪) {[TW (SAlive None)]}), rset_TW.
  - apply writePump_ok.
  - constructor; [apply readPump_ok|]. apply Forall_fmap, Forall_forall. intros; apply run_op_ok.
Qed.
End readers.

(** A correct log writes in order and gives up after the first failure. *)
Lemma scan_handled l w w' :
  scan_from w l = Some w' →
  match w with
  | Open => ∃ lost, handled l = sent l ++ lost ∧ length lost ≤ 1 ∧ (w' = Open → lost = [])
  | _ => handled l = [] ∧ sent l = [] ∧ w' ≠ Open
  end.
Proof.
  revert w. induction l as [|ev l IH]; intros w Hs; simpl in Hs.
  - simplify_eq. destruct w'; [exists []; split_and!; [done|simpl; lia|done]|done..].
  - destruct (scan_step w ev) as [w1|] eqn:E; [|done]. specialize (IH w1 Hs). unfold handled, sent in *.
    destruct ev, w; simplify_eq/=; try done;
      try (destruct IH as (lost & -> & ? & ?); by exists lost);
      try (repeat case_match; simplify_eq; destruct IH as (-> & -> & ?); try done);
      try (exists []; simpl; split_and!; [done|lia|done]).
    exists [m0]. done.
Qed.

(** ** Theorems *)

(** The reports of a log, and its close messages with their outcome. *)
Definition reports (l : list event) : list (option error) := omap (λ ev, if ev is EvClosed r then Some r else None) l.
Definition close_frames (l : list event) : list (option error) :=
  omap (λ ev, if ev is EvCloseFrame r then Some r else None) l.

(** A correct log reports once, and without an error exactly after a close message. *)
Lemma scan_reports l w w' :
  scan_from w l = Some w' →
  match w with
  | Open => length (close_frames l) ≤ 1 ∧ length (reports l) ≤ 1 ∧ ∀ r, r ∈ reports l → (r = None ↔ close_frames l ≠ [])
  | Ending e => close_frames l = [] ∧ (reports l = [] ∨ ∃ r, reports l = [r] ∧ (r = None ↔ e = None))
  | Over => close_frames l = [] ∧ reports l = []
  end.
Proof.
  revert w. induction l as [|ev l IH]; intros w Hs; simpl in Hs.
  - destruct w; simpl; split_and!; try done; try lia; [|by left]. by intros r ?%elem_of_nil.
  - destruct (scan_step w ev) as [w1|] eqn:E; [|done]. specialize (IH w1 Hs). unfold reports, close_frames in *.
    destruct ev, w; simpl in E; repeat case_match; simplify_eq/=; try done.
    + destruct IH as (-> & [->|(r & -> & Hr)]); simpl; split_and!; try lia; [by intros r ?%elem_of_nil|].
      intros ? ->%list_elem_of_singleton. rewrite Hr. naive_solver.
    + destruct IH as (-> & [->|(r & -> & Hr)]); simpl; split_and!; try lia; [by intros r ?%elem_of_nil|].
      intros ? ->%list_elem_of_singleton. rewrite Hr. naive_solver.
    + destruct IH as [-> ->]. simpl. split_and!; try lia. intros ? ->%list_elem_of_singleton. naive_solver.
    + destruct IH as [-> ->]. split; [done|]. right. eexists. split; [done|]. naive_solver.
    + destruct IH as [-> ->]. split; [done|]. right. eexists. split; [done|]. naive_solver.
Qed.

(** C26: A connection is reported closed at most once, under every schedule of the two
    pumps and any callers of Write and Close: nothing is written after a failed
    write, after the close message or after the report; at most one close message is
    tried; and the report carries no error exactly when the pump had come to write a
    close message, whether it was written or the write failed. *)
Theorem socket_closed_once cfg ops sched s ts :
  exec sched (system cfg ops) = Some (s, ts) →
  (∃ w, scan (log s) = Some w) ∧ length (close_frames (log s)) ≤ 1 ∧ length (reports (log s)) ≤ 1 ∧
  ∀ r, r ∈ reports (log s) → (r = None ↔ close_frames (log s) ≠ []).
Proof.
  intros (st & w & o & Hi)%socket_inv. split; [exists w; apply Hi|]. exact (scan_reports _ _ _ (i_scan _ _ _ _ _ Hi)).
Qed.

(** The close message of a user's Close need not have been written: its write fails,
    the failure goes to the error handler, and the report still carries no error. *)
Theorem close_frame_failure_reported_clean err :
  ∃ ops sched s ts, exec sched (system (NewDefaultWebSocketConfig defaultWriteWait defaultPingWait 0 0) ops) = Some (s, ts) ∧
    close_frames (log s) = [Some err] ∧ reports (log s) = [None].
Proof.
  exists [OpClose (mkCloseError 1000 "")], (replicate 3 (0, Go) ++ replicate 2 (2, Go) ++ [(2, ArmOut); (2, Go); (0, ArmClose); (0, Net (Some err))]
    ++ replicate 11 (0, Go)).
  eexists _, _. split; [vm_compute; reflexivity|]. by split.
Qed.

(** C27: Messages go out in the order Write accepted them, none twice; at most three
    accepted messages are not written (two queued, one being or failed to be
    written). *)
Theorem socket_fifo cfg ops sched s ts :
  exec sched (system cfg ops) = Some (s, ts) →
  ∃ unsent, queued (log s) = sent (log s) ++ unsent ∧ length unsent ≤ 3.
Proof.
  intros (st & w & o & Hi)%socket_inv. destruct Hi.
  destruct (scan_handled _ _ _ i_scan0) as (lost & Hh & Hl & Hopen). rewrite Hh, <-(assoc_L (++)) in i_fifo0.
  eexists. split; [done|]. rewrite !length_app.
  destruct st as [[m|]| | | | | | |]; simpl in *; try lia. rewrite Hopen by done. simpl. lia.
Qed.

(** C28: The channels of the pumps cannot panic: no send on and no second close of the
    output, close, force-close and done channels.  The only faults possible are
    those of the ping handler (a send on the closed ping channel) and of the ping
    and pong handlers (a deadline set on a connection that is nil), and none is if
    these handlers are not installed. *)
Theorem socket_faults cfg ops sched s ts f :
  exec sched (system cfg ops) = Some (s, ts) → EvPanic f ∈ log s →
  (f = SendOnClosed CPing ∧ handles_ping cfg = true) ∨
  (f = NilConnection ∧ (handles_ping cfg = true ∨ handles_pong cfg = true)).
Proof.
  intros (st & w & o & Hi)%socket_inv Hin. pose proof (i_panic _ _ _ _ _ Hi) as Hp.
  rewrite Forall_forall in Hp. specialize (Hp _ Hin). destruct f as [[]|[]|]; simpl in Hp; try done; [by left|].
  right. split; [done|]. by apply orb_true_iff.
Qed.

(** A writer or closer that waits with the read lock held is released as soon as
    cleanup has begun, and cleanup, once the lock is free, runs to its end. *)
Theorem socket_cleanup_unblocks c push closing e s :
  progresses_in (λ s, is_closed CDone s = true) (send_or_done c push closing) ∧
  (closed s = [] → readers s = 0 →
   ∃ s', run (cleanup e) (replicate 10 Go) s = Some (s', tt, []) ∧
     closed s' = CDone :: data_channels ∧ connection s' = false ∧ log s' = log s ++ [EvClosed e]).
Proof.
  split.
  - split; [|done]. intros s' Hs. exists ArmDone, s', (Some closing). by rewrite Hs.
  - intros Hc Hr. destruct s; simpl in *; subst. eexists. split; [vm_compute; reflexivity|done].
Qed.

(** *** Executions *)

Definition server_config : WebSocketConfig := NewDefaultWebSocketConfig defaultWriteWait defaultPingWait 0 0.
Definition client_config : WebSocketConfig := NewDefaultWebSocketConfig defaultWriteWait 0 defaultPingPeriod defaultPongWait.

Definition steps (i n : nat) : list (nat * choice) := replicate n (i, Go).
Definition normal_close : op := OpClose (mkCloseError 1000 "").

(** Both pumps start, [f] arrives, the socket is closed by its user, and the read
    pump goes on after [n] more of its own actions. *)
Definition close_during (f : frame) (n m : nat) : list (nat * choice) :=
  steps 0 3 ++ steps 1 6 ++ [(1, Read f)] ++ steps 1 n ++ steps 2 2 ++ [(2, ArmOut)] ++ steps 2 1 ++
  [(0, ArmClose); (0, Net None)] ++ steps 0 10 ++ steps 1 m.

Definition socket_log cfg ops sched : option (list event) := log ∘ fst <$> exec sched (system cfg ops).

Lemma socket_log_exec cfg ops sched l :
  socket_log cfg ops sched = Some l → ∃ s ts, exec sched (system cfg ops) = Some (s, ts) ∧ log s = l.
Proof. unfold socket_log. destruct (exec _ _) as [[s ts]|]; intros ?; simplify_eq/=. eauto. Qed.

Lemma server_ping_run : socket_log server_config [normal_close] (close_during (FPing "") 1 1) =
  Some [EvCloseFrame None; EvClosed None; EvPanic (SendOnClosed CPing)].
Proof. vm_compute. reflexivity. Qed.
Lemma client_pong_run : socket_log client_config [normal_close] (close_during (FPong "") 0 4) =
  Some [EvCloseFrame None; EvClosed None; EvPanic NilConnection].
Proof. vm_compute. reflexivity. Qed.

(** A ping or pong in flight while its connection is being closed crashes the
    process: with the default configurations the read pump of a server sends on
    the closed ping channel, and that of a client uses a nil connection. *)
Theorem socket_ping_crash :
  (∃ ops sched s ts, exec sched (system server_config ops) = Some (s, ts) ∧ EvPanic (SendOnClosed CPing) ∈ log s) ∧
  (∃ ops sched s ts, exec sched (system client_config ops) = Some (s, ts) ∧ EvPanic NilConnection ∈ log s).
Proof.
  split; [destruct (socket_log_exec _ _ _ _ server_ping_run) as (s & ts & He & Hl)
         |destruct (socket_log_exec _ _ _ _ client_pong_run) as (s & ts & He & Hl)];
    (eexists _, _, s, ts; split; [exact He|rewrite Hl; set_solver +]).
Qed.

Lemma socket_closed_once_witness : ∃ s ts,
  exec (close_during (FPing "") 1 1) (system server_config [normal_close]) = Some (s, ts) ∧
  reports (log s) = [None] ∧ close_frames (log s) ≠ [].
Proof.
  destruct (socket_log_exec _ _ _ _ server_ping_run) as (s & ts & He & Hl).
  exists s, ts. split; [exact He|]. assert (Hr : reports (log s) = [None]) by (rewrite Hl; reflexivity). split; [exact Hr|].
  destruct (socket_closed_once _ _ _ _ _ He) as (_ & _ & _ & H). apply (H None); [rewrite Hr; left|reflexivity].
Defined.

Lemma socket_faults_witness : ∃ s ts,
  exec (close_during (FPing "") 1 1) (system server_config [normal_close]) = Some (s, ts) ∧
  ((SendOnClosed CPing = SendOnClosed CPing ∧ handles_ping server_config = true) ∨
   (SendOnClosed CPing = NilConnection ∧ (handles_ping server_config = true ∨ handles_pong server_config = true))).
Proof.
  destruct (socket_log_exec _ _ _ _ server_ping_run) as (s & ts & He & Hl).
  exists s, ts. split; [exact He|]. apply (socket_faults _ _ _ _ _ (SendOnClosed CPing) He). rewrite Hl. set_solver +.
Defined.

Lemma socket_fifo_witness : ∃ s ts,
  exec (steps 0 3 ++ steps 2 2 ++ [(2, ArmOut); (2, Go)] ++ steps 3 2 ++ [(3, ArmOut); (0, ArmOut); (0, Net None)])
    (system client_config [OpWrite (mkMessage 1 "a"); OpWrite (mkMessage 1 "b")]) = Some (s, ts) ∧
  ∃ unsent, queued (log s) = sent (log s) ++ unsent ∧ length unsent ≤ 3.
Proof.
  destruct (socket_log_exec client_config [OpWrite (mkMessage 1 "a"); OpWrite (mkMessage 1 "b")]
    (steps 0 3 ++ steps 2 2 ++ [(2, ArmOut); (2, Go)] ++ steps 3 2 ++ [(3, ArmOut); (0, ArmOut); (0, Net None)])
    [EvQueued (mkMessage 1 "a"); EvQueued (mkMessage 1 "b"); EvSent (mkMessage 1 "a")])
    as (s & ts & He & _); [vm_compute; reflexivity|].
  exists s, ts. split; [exact He|]. apply (socket_fifo _ _ _ _ _ He).
Defined.
