(* ===== verification/WsClient.v ===== *)
(** * The websocket client (src/ws/client.go)

    Connecting, stopping and the automatic reconnection with its back-off.  The
    reconnection loop runs on the goroutine of the socket that broke, so a socket
    is a thread that waits for its launch, lives until the network or a close
    ends it, and then runs [handleDisconnect].  What a socket does while it lives
    is [WebSocket]; dialing, random numbers and timers are the environment's
    choices. *)

From S2P Require Import Prelude Conc Ocpp WebSocket.
Local Open Scope string_scope.
Local Open Scope list_scope.

(** ** Back-off *)

(** The fields of [ClientTimeoutConfig] the reconnection uses. *)
Record ClientTimeoutConfig := mkClientTimeoutConfig {
  RetryBackOffRepeatTimes : Z;
  RetryBackOffRandomRange : Z;   (* seconds *)
  RetryBackOffWaitMinimum : Z
}.

(** [NewClientTimeoutConfig] *)
Definition NewClientTimeoutConfig : ClientTimeoutConfig := mkClientTimeoutConfig 5 15 (10 * second).

(** [rand.Intn(RetryBackOffRandomRange+1)] panics for an empty range. *)
Definition rand_ok (cfg : ClientTimeoutConfig) (r : Z) : bool :=
  bool_decide (0 <= r < wrap64 (RetryBackOffRandomRange cfg + 1))%Z.

Definition seconds (r : Z) : Z := wrap64 (r * second).

Definition first_delay (cfg : ClientTimeoutConfig) (r : Z) : Z :=
  wrap64 (RetryBackOffWaitMinimum cfg + seconds r).

(** The delay after failed attempt number [attempts]. *)
Definition next_delay (cfg : ClientTimeoutConfig) (attempts delay r : Z) : Z :=
  if decide (attempts < RetryBackOffRepeatTimes cfg)%Z then wrap64 (wrap64 (delay * 2) + seconds r) else delay.

(** The delay once the random numbers [rs], latest first, have been drawn. *)
Fixpoint delay_after (cfg : ClientTimeoutConfig) (rs : list Z) : Z :=
  match rs with
  | [] => RetryBackOffWaitMinimum cfg
  | [r] => first_delay cfg r
  | r :: rs' => next_delay cfg (Z.of_nat (length rs')) (delay_after cfg rs') r
  end.

(** ** State *)

Inductive event :=
| EvOpened (n : nat)                         (* a connection is established *)
| EvDisconnected (n : nat) (err : option error)  (* onDisconnected *)
| EvWaited (n : nat) (delay : Z)             (* the reconnection has waited *)
| EvReconnected                              (* onReconnected *)
| EvAborted                                  (* automatic reconnection aborted *)
| EvStopped                                  (* Stop has returned *)
| EvErrCClosed.

(** [client]: sockets are numbered, [live] are those that are connected,
    [closing] those told to close; [spawned] holds a socket's goroutines between
    their launch and their first action. *)
Record client := mkClient {
  webSocket : option nat;
  live : gset nat;
  closing : gset nat;
  spawned : gset nat;
  sockets : nat;
  reconnectC : bool;            (* capacity 1 *)
  errC : option error;          (* capacity 1 *)
  errClosed : bool;
  log : list event
}.

Definition set_webSocket (x : option nat) (s : client) : client :=
  mkClient x (live s) (closing s) (spawned s) (sockets s) (reconnectC s) (errC s) (errClosed s) (log s).
Definition set_live (x : gset nat) (s : client) : client :=
  mkClient (webSocket s) x (closing s) (spawned s) (sockets s) (reconnectC s) (errC s) (errClosed s) (log s).
Definition set_closing (x : gset nat) (s : client) : client :=
  mkClient (webSocket s) (live s) x (spawned s) (sockets s) (reconnectC s) (errC s) (errClosed s) (log s).
Definition set_spawned (x : gset nat) (s : client) : client :=
  mkClient (webSocket s) (live s) (closing s) x (sockets s) (reconnectC s) (errC s) (errClosed s) (log s).
Definition set_sockets (x : nat) (s : client) : client :=
  mkClient (webSocket s) (live s) (closing s) (spawned s) x (reconnectC s) (errC s) (errClosed s) (log s).
Definition set_reconnectC (x : bool) (s : client) : client :=
  mkClient (webSocket s) (live s) (closing s) (spawned s) (sockets s) x (errC s) (errClosed s) (log s).
Definition set_errC (x : option error) (s : client) : client :=
  mkClient (webSocket s) (live s) (closing s) (spawned s) (sockets s) (reconnectC s) x (errClosed s) (log s).
Definition set_errClosed (x : bool) (s : client) : client :=
  mkClient (webSocket s) (live s) (closing s) (spawned s) (sockets s) (reconnectC s) (errC s) x (log s).
Definition emit (evs : list event) (s : client) : client :=
  mkClient (webSocket s) (live s) (closing s) (spawned s) (sockets s) (reconnectC s) (errC s) (errClosed s) (log s ++ evs).

(** [NewClient] *)
Definition NewClient : client := mkClient None ∅ ∅ ∅ 0 false None false [].

Inductive choice :=
| Dial (err : option error)     (* the result of parsing the URL and dialing *)
| Rand (r : Z)
| Timer | Abort                 (* the arms of the reconnection's select *)
| Break (err : option error)    (* the end of a socket *)
| Go.

Abbreviation prog A := (proc client choice A).

Section client.
Context (cfg : ClientTimeoutConfig) (autoReconnect : bool).

(** [error] *)
Definition report (err : error) : prog unit :=
  modify (λ s, if errClosed s then s else match errC s with None => set_errC (Some err) s | Some _ => s end).

(** [ws.IsConnected] of a socket the client remembers. *)
Definition connected (ws : option nat) (s : client) : bool :=
  match ws with Some n => bool_decide (n ∈ live s) | None => false end.

Definition IsConnected : prog bool := (ws <- read webSocket ;; read (connected ws))%proc.

(** [Write]: the socket the data is given to. *)
Definition Write : prog (nat + error) :=
  (ws <- read webSocket ;;
  ok <- read (connected ws) ;;
  Ret match ws, ok : bool with
      | Some n, true => inl n
      | _, _ => inr (Errorf "client is currently not connected, cannot send data" None)
      end)%proc.

(** [Start]: dial, publish the socket, launch its pumps. *)
Definition Start : prog (option error) :=
  (r <- choose (λ ch s, match ch with
                        | Dial None => let n := S (sockets s) in
                                       Some (emit [EvOpened n] (set_live ({[n]} ∪ live s) (set_sockets n s)), inl n)
                        | Dial (Some err) => Some (s, inr err)
                        | _ => None
                        end) ;;
  match r with
  | inr err => Ret (Some err)
  | inl n =>
      modify (set_webSocket (Some n)) ;;
      modify (λ s, set_spawned ({[n]} ∪ spawned s) s) ;;
      Ret None
  end)%proc.

(** [ws.Close] of [Stop]: refused when the socket has ended meanwhile. *)
Definition close_socket (n : nat) : prog (option error) :=
  atomic (λ s, Some (if decide (n ∈ live s) then (set_closing ({[n]} ∪ closing s) s, None)
                     else (s, Some (Errorf "cannot close already closed connection" None)))).

Definition Stop : prog unit :=
  (ws <- read webSocket ;;
  ok <- read (connected ws) ;;
  match ws, ok : bool with
  | Some n, true => err <- close_socket n ;; match err with Some e => report e | None => Ret tt end
  | _, _ => Ret tt
  end ;;
  modify (set_reconnectC true) ;;
  modify (λ s, if errClosed s then s else emit [EvErrCClosed] (set_errClosed true s)) ;;
  modify (emit [EvStopped]))%proc.

(** ** The goroutine of a socket *)

Inductive phase := PLaunch | PLive | PRetry (delay attempts : Z).

Definition draw : prog Z := choose (λ ch s, match ch with Rand r => if rand_ok cfg r then Some (s, r) else None | _ => None end).

(** [handleDisconnect] and the first lines of [handleReconnection]. *)
Definition handleDisconnect (n : nat) (err : option error) : prog (option phase) :=
  (modify (emit [EvDisconnected n err]) ;;
  match err with
  | Some _ => if autoReconnect then r <- draw ;; Ret (Some (PRetry (first_delay cfg r) 1)) else Ret None
  | None => Ret None
  end)%proc.

(** One iteration of the loop of [handleReconnection]; the counter of attempts does
    not reach the end of its range. *)
Definition retry (n : nat) (delay attempts : Z) : prog (option phase) :=
  (go <- choose (λ ch s, match ch with
                         | Timer => Some (emit [EvWaited n delay] s, true)
                         | Abort => if reconnectC s then Some (emit [EvAborted] (set_reconnectC false s), false) else None
                         | _ => None
                         end) ;;
  if go : bool then
    err <- Start ;;
    match err with
    | None => modify (emit [EvReconnected]) ;; Ret None
    | Some e =>
        report (Errorf "reconnection failed" (Some e)) ;;
        if decide (attempts < RetryBackOffRepeatTimes cfg)%Z then
          r <- draw ;; Ret (Some (PRetry (next_delay cfg attempts delay r) (attempts + 1)))
        else Ret (Some (PRetry delay (attempts + 1)))
    end
  else Ret None)%proc.

Definition socket_body (n : nat) (p : phase) : prog (option phase) :=
  match p with
  | PLaunch => atomic (λ s, if decide (n ∈ spawned s) then Some (set_spawned (spawned s ∖ {[n]}) s, Some PLive) else None)
  | PLive =>
      (err <- choose (λ ch s, match ch with
                              | Break (Some e) => Some (set_live (live s ∖ {[n]}) s, Some e)
                              | Break None => if decide (n ∈ closing s) then Some (set_live (live s ∖ {[n]}) s, None) else None
                              | _ => None
                              end) ;;
      handleDisconnect n err)%proc
  | PRetry delay attempts => retry n delay attempts
  end.

Definition socket (n : nat) : thread client choice := start_loop (socket_body n) PLaunch.

(** [StartWithRetries]: the caller's goroutine runs the loop. *)
Definition StartWithRetries : thread client choice :=
  Loop phase (socket_body 0) (err <- Start ;;
    match err with
    | None => Ret None
    | Some _ => r <- draw ;; Ret (Some (PRetry (first_delay cfg r) 1))
    end)%proc.

Inductive op := OpStart | OpStop | OpWrite.

Definition run_op (o : op) : prog unit :=
  match o with
  | OpStart => (Start ;; Ret tt)%proc
  | OpStop => Stop
  | OpWrite => (Write ;; Ret tt)%proc
  end.

Definition sequence (l : list op) : prog unit := foldr (λ o p, bind (run_op o) (λ _, p)) (Ret tt) l.

(** Callers that each make a sequence of calls, [starters] calls of
    [StartWithRetries], and [k] sockets. *)
Definition system (callers : list (list op)) (starters k : nat) : config (S:=client) (C:=choice) :=
  (NewClient, (Run ∘ sequence <$> callers) ++ replicate starters StartWithRetries ++ (socket <$> seq 1 k)).
End client.
