(* ===== verification/WsClientTheorems.v ===== *)
(** * Reconnection of the websocket client

    Bounds of the back-off, for every schedule of callers and sockets, the
    configurations for which its arithmetic overflows, and two interleavings of
    [Stop] with the reconnection loop. *)

From S2P Require Import Prelude Conc Ocpp WebSocket WsClient.
Local Open Scope list_scope.
Local Open Scope Z_scope.

(** ** Back-off arithmetic *)

(** The doublings a configuration allows. *)
Definition doublings (cfg : ClientTimeoutConfig) : Z := Z.max 0 (RetryBackOffRepeatTimes cfg - 1).

(** Bounds of the delay after [j] doublings. *)
Definition delay_low (cfg : ClientTimeoutConfig) (j : Z) : Z := 2 ^ j * RetryBackOffWaitMinimum cfg.
Definition delay_high (cfg : ClientTimeoutConfig) (j : Z) : Z :=
  2 ^ j * (RetryBackOffWaitMinimum cfg + RetryBackOffRandomRange cfg * second) +
  (2 ^ j - 1) * (RetryBackOffRandomRange cfg * second).

(** A configuration whose longest delay can be represented. *)
Definition backoff_ok (cfg : ClientTimeoutConfig) : Prop :=
  0 <= RetryBackOffWaitMinimum cfg ∧ 0 <= RetryBackOffRandomRange cfg ∧ delay_high cfg (doublings cfg) < 2 ^ 63.

Section backoff.
Context (cfg : ClientTimeoutConfig) (Hok : backoff_ok cfg).

Lemma pow_pos j : 0 <= j → 0 < 2 ^ j.
Proof. intros. by apply Z.pow_pos_nonneg. Qed.

Lemma range_small : RetryBackOffRandomRange cfg * second < 2 ^ 63.
Proof.
  destruct Hok as (HW & HR & Hh). unfold delay_high, second in *.
  pose proof (pow_pos (doublings cfg) ltac:(unfold doublings; lia)). nia.
Qed.

Lemma rand_ok_bounds r : rand_ok cfg r = true → 0 <= r <= RetryBackOffRandomRange cfg.
Proof.
  intros Hr%bool_decide_eq_true. pose proof range_small as Hs. destruct Hok as (_ & HR & _). unfold second in Hs.
  rewrite wrap64_id in Hr; [lia|]. unfold in_int64. lia.
Qed.

Lemma seconds_exact r : rand_ok cfg r = true → seconds r = r * second.
Proof.
  intros Hr%rand_ok_bounds. pose proof range_small. unfold seconds. apply wrap64_id. unfold in_int64, second in *. lia.
Qed.

Lemma delay_high_mono i j : 0 <= i <= j → delay_high cfg i <= delay_high cfg j.
Proof.
  intros Hij. destruct Hok as (HW & HR & _). unfold delay_high, second.
  assert (2 ^ i <= 2 ^ j) by (apply Z.pow_le_mono_r; lia). nia.
Qed.

Lemma delay_bounds rs :
  rs ≠ [] → Forall (λ r, rand_ok cfg r = true) rs →
  delay_low cfg (Z.min (Z.of_nat (length rs) - 1) (doublings cfg)) <= delay_after cfg rs <=
  delay_high cfg (Z.min (Z.of_nat (length rs) - 1) (doublings cfg)).
Proof.
  pose proof Hok as (HW & HR & Hh). induction rs as [|r rs IH]; [done|]. intros _ Hf.
  inversion_clear Hf as [|?? Hr Hrs]. pose proof (rand_ok_bounds r Hr) as Hb. pose proof (seconds_exact r Hr) as Hs.
  pose proof (delay_high_mono 0 (doublings cfg) ltac:(unfold doublings; lia)) as Hh0.
  destruct rs as [|r' rs].
  - change (delay_after cfg [r]) with (first_delay cfg r). simpl length.
    rewrite Z.min_l by (unfold doublings; lia). unfold first_delay. rewrite Hs.
    assert (E0 : delay_high cfg 0 = RetryBackOffWaitMinimum cfg + RetryBackOffRandomRange cfg * second)
      by (unfold delay_high; change (2 ^ 0) with 1; lia).
    change (Z.of_nat 1 - 1) with 0. rewrite E0 in *. unfold delay_low. change (2 ^ 0) with 1.
    rewrite wrap64_id; unfold in_int64, second in *; lia.
  - specialize (IH ltac:(done) Hrs). set (l := r' :: rs) in *.
    change (delay_after cfg (r :: l)) with (next_delay cfg (Z.of_nat (length l)) (delay_after cfg l) r).
    assert (Hlen : 1 <= Z.of_nat (length l)) by (simpl; lia).
    replace (Z.of_nat (length (r :: l)) - 1) with (Z.of_nat (length l)) by (simpl length; lia).
    unfold next_delay. case_decide as Hd.
    + rewrite Z.min_l in IH by (unfold doublings; lia). rewrite Z.min_l by (unfold doublings; lia).
      set (j := Z.of_nat (length l) - 1) in *. replace (Z.of_nat (length l)) with (Z.succ j) by lia.
      pose proof (delay_high_mono (Z.succ j) (doublings cfg) ltac:(unfold doublings; lia)) as Hm.
      pose proof (pow_pos j ltac:(lia)) as Hp. unfold delay_low, delay_high in *.
      rewrite !(Z.pow_succ_r 2 j) in * by lia. rewrite Hs.
      assert (0 <= delay_after cfg l) by nia.
      assert (delay_after cfg l * 2 + r * second < 2 ^ 63) by (unfold second in *; nia).
      rewrite (wrap64_id (delay_after cfg l * 2)) by (unfold in_int64, second in *; lia).
      rewrite wrap64_id by (unfold in_int64, second in *; lia). unfold second in *. nia.
    + rewrite Z.min_r by (unfold doublings; lia). by rewrite Z.min_r in IH by (unfold doublings; lia).
Qed.
End backoff.

(** ** Every wait of every execution *)

Section waits.
Context (cfg : ClientTimeoutConfig) (autoReconnect : bool).

Definition drawn (d : Z) (rs : list Z) : Prop :=
  rs ≠ [] ∧ Forall (λ r, rand_ok cfg r = true) rs ∧ d = delay_after cfg rs.

Definition wait_ok (ev : event) : Prop := match ev with EvWaited _ d => ∃ rs, drawn d rs | _ => True end.

Definition inv (s : client) (_ : gset unit) : Prop := Forall wait_ok (log s).

(** The loop variables of the reconnection. *)
Definition phase_ok (p : phase) (_ : gset unit) : Prop :=
  match p with PRetry d a => ∃ rs, drawn d rs ∧ a = Z.of_nat (length rs) | _ => True end.

Notation safe_c := (safe inv (λ _, True)).
Notation post := (loop_post (λ _, True) phase_ok).

Ltac inv_step :=
  intros; unfold inv in *; go_case; try done; try (apply Forall_app; split; [done|by repeat constructor]).

Lemma safe_draw o (Q : gset unit → Z → Prop) :
  (∀ r, rand_ok cfg r = true → Q o r) → safe_c o (draw cfg) Q.
Proof.
  intros HQ. apply safe_choose. intros c s r s' x Hd Hi Hf. destruct c; try done.
  destruct (rand_ok cfg r0) eqn:E; simplify_eq. eauto.
Qed.

Lemma safe_Start o (Q : gset unit → option error → Prop) : (∀ x, Q o x) → safe_c o Start Q.
Proof.
  intros HQ. apply safe_bind, safe_choose_frame; [inv_step|]. intros [n|err]; [|apply HQ].
  apply safe_bind, safe_modify_frame; [inv_step|]. apply safe_bind, safe_modify_frame; [inv_step|apply HQ].
Qed.

Lemma safe_report o e (Q : gset unit → unit → Prop) : Q o tt → safe_c o (report e) Q.
Proof. intros HQ. apply safe_modify_frame; [inv_step|done]. Qed.

Lemma safe_first_draw o : safe_c o (bind (draw cfg) (λ r, Ret (Some (PRetry (first_delay cfg r) 1)))) post.
Proof.
  apply safe_bind, safe_draw. intros r Hr. exists [r]. split; [|done]. split; [done|]. split; [by constructor|done].
Qed.

Lemma safe_retry o n d a : phase_ok (PRetry d a) o → safe_c o (retry cfg n d a) post.
Proof.
  intros (rs & Hrs & ->). apply safe_bind, safe_choose. intros c s r s' x Hd Hi Hf. exists o. split; [done|].
  destruct c; simplify_eq.
  - split; [apply Forall_app; split; [done|]; constructor; [by exists rs|done]|].
    apply safe_bind, safe_Start. intros [e|]; [|by apply safe_bind, safe_modify_frame; [inv_step|]].
    apply safe_bind, safe_report. destruct Hrs as (Hne & Hval & ->).
    assert (Hnext : ∀ x, delay_after cfg (x :: rs) = next_delay cfg (Z.of_nat (length rs)) (delay_after cfg rs) x)
      by (by destruct rs).
    case_decide as Hlt.
    + apply safe_bind, safe_draw. intros x Hx. exists (x :: rs). split; [|simpl length; lia].
      split; [done|]. split; [by constructor|]. by rewrite Hnext.
    + destruct rs as [|r0 rs]; [done|]. exists (r0 :: r0 :: rs). split; [|simpl length; lia].
      split; [done|]. split; [inversion_clear Hval; by repeat constructor|].
      rewrite Hnext. unfold next_delay. by rewrite decide_False.
  - destruct (reconnectC s); simplify_eq. split; [|done]. apply Forall_app. split; [done|]. by repeat constructor.
Qed.

Lemma safe_socket_body o n p : phase_ok p o → safe_c o (socket_body cfg autoReconnect n p) post.
Proof.
  intros Hp. destruct p as [| |d a]; cbn [socket_body].
  - apply safe_atomic. intros s r s' x Hd Hi Hf. case_decide; simplify_eq. by exists o.
  - apply safe_bind, safe_choose_frame; [inv_step|]. intros err.
    apply safe_bind, safe_modify_frame; [inv_step|].
    destruct err; [|done]. destruct autoReconnect; [apply safe_first_draw|done].
  - by apply safe_retry.
Qed.

Lemma safe_sequence o l : safe_c o (sequence l) (λ _ _, True).
Proof.
  induction l as [|[] l IH]; [done|..]; apply safe_bind.
  - by apply safe_bind, safe_Start.
  - apply safe_bind, safe_read_frame. intros ws. apply safe_bind, safe_read_frame. intros ok. apply safe_bind.
    assert (Hrest : safe_c o (bind (modify (set_reconnectC true)) (λ _, bind (modify (λ s, if errClosed s then s else
      emit [EvErrCClosed] (set_errClosed true s))) (λ _, modify (emit [EvStopped]))) : prog unit) (λ o _, safe_c o (sequence l) (λ _ _, True))).
    { apply safe_bind, safe_modify_frame; [inv_step|]. apply safe_bind, safe_modify_frame; [inv_step|].
      apply safe_modify_frame; [inv_step|done]. }
    destruct ws, ok; try done. apply safe_bind, safe_atomic_frame; [inv_step|].
    intros [e|]; [by apply safe_report|done].
  - apply safe_bind, safe_bind, safe_read_frame. intros ws. by apply safe_bind, safe_read_frame.
Qed.

Lemma client_waits callers starters k sched s ts :
  exec sched (system cfg autoReconnect callers starters k) = Some (s, ts) → Forall wait_ok (log s).
Proof.
  intros Hex. destruct (exec_invariant_init inv (λ _, True) sched NewClient
    ((Run ∘ sequence <$> callers) ++ replicate starters (StartWithRetries cfg autoReconnect) ++
     (socket cfg autoReconnect <$> seq 1 k)) s ts) as [o Ho]; [constructor| |done|done].
  assert (Hloop : ∀ n (l : phase) o, phase_ok l o → True ∧ safe_c o (socket_body cfg autoReconnect n l) post)
    by (intros; split; [done|by apply safe_socket_body]).
  rewrite !Forall_app. split_and!.
  - apply Forall_fmap, Forall_forall. intros l _. apply safe_sequence.
  - apply Forall_replicate. exists phase_ok. split; [apply Hloop|]. apply safe_bind, safe_Start.
    intros [e|]; [apply safe_first_draw|done].
  - apply Forall_fmap, Forall_forall. intros n _. exists phase_ok. split; [apply Hloop|by apply safe_socket_body].
Qed.
End waits.

(** ** Theorems *)

(** C31: Whatever callers and the network do, every wait of the automatic reconnection
    lies between the configured minimum and the delay after all doublings with the
    largest random parts, if that fits in 64 bits: no wait is negative. *)
Theorem reconnect_wait_bounds cfg auto callers starters k sched s ts n d :
  backoff_ok cfg → exec sched (system cfg auto callers starters k) = Some (s, ts) → EvWaited n d ∈ log s →
  RetryBackOffWaitMinimum cfg <= d <= delay_high cfg (doublings cfg).
Proof.
  intros Hok Hex Hin. apply client_waits in Hex. rewrite Forall_forall in Hex.
  destruct (Hex _ Hin) as (rs & Hne & Hv & ->).
  destruct (delay_bounds cfg Hok rs Hne Hv) as [Hlo Hhi]. unfold delay_low in Hlo.
  set (j := Z.min (Z.of_nat (length rs) - 1) (doublings cfg)) in *.
  assert (0 <= j <= doublings cfg) as Hj by (destruct rs; [done|]; simpl in *; unfold doublings in *; lia).
  pose proof (delay_high_mono cfg Hok j (doublings cfg) Hj). pose proof (pow_pos j ltac:(lia)).
  destruct Hok as (HW & _). nia.
Qed.

(** The delay is not saturated: with the default minimum and random range, 31
    repetitions overflow it, and the reconnection no longer waits at all. *)
Theorem backoff_overflow :
  ∃ rs, Forall (λ r, rand_ok (mkClientTimeoutConfig 31 15 (10 * second)) r = true) rs ∧
    delay_after (mkClientTimeoutConfig 31 15 (10 * second)) rs < 0.
Proof. exists (replicate 31 0). split; [by repeat constructor|vm_compute; reflexivity]. Qed.

(** *** Executions with the default configuration *)

Definition client_run callers k sched : option client :=
  fst <$> exec sched (system NewClientTimeoutConfig true callers 0 k).

Lemma client_run_exec callers k sched s :
  client_run callers k sched = Some s →
  ∃ ts, exec sched (system NewClientTimeoutConfig true callers 0 k) = Some (s, ts).
Proof. unfold client_run. destruct (exec _ _) as [[s' ts]|]; intros ?; simplify_eq/=. eauto. Qed.

Definition steps (i n : nat) : list (nat * choice) := replicate n (i, Go).
Definition lost : error := Errorf "connection lost" None.

(** Start, Stop, Start by one caller; the second connection breaks. *)
Definition restart_sched : list (nat * choice) :=
  [(0%nat, Dial None)] ++ steps 0 2 ++ steps 1 2 ++ steps 0 6 ++ [(1%nat, Break None); (1%nat, Go)] ++
  [(0%nat, Dial None)] ++ steps 0 2 ++ steps 2 2 ++ [(2%nat, Break (Some lost)); (2%nat, Go); (2%nat, Rand 0); (2%nat, Go); (2%nat, Abort)].

Definition restart_end : client :=
  mkClient (Some 2%nat) ∅ {[1%nat]} ∅ 2 false None true
    [EvOpened 1; EvErrCClosed; EvStopped; EvDisconnected 1 None; EvOpened 2; EvDisconnected 2 (Some lost); EvAborted].

(** Stop leaves its signal in reconnectC when no reconnection is under way, and
    Start does not take it out: after a restart the first connection loss finds the
    signal and the reconnection gives up although nobody stopped the client.  The
    disconnected handler also runs for the connection Stop closed. *)
Theorem restart_disables_reconnect : ∃ sched ts,
  exec sched (system NewClientTimeoutConfig true [[OpStart; OpStop; OpStart]] 0 2) = Some (restart_end, ts).
Proof. exists restart_sched. apply client_run_exec. vm_compute. reflexivity. Qed.

(** The connection breaks, the reconnection dials while another goroutine stops
    the client. *)
Definition stop_dial_sched : list (nat * choice) :=
  [(0%nat, Dial None)] ++ steps 0 2 ++ steps 2 2 ++ [(2%nat, Break (Some lost)); (2%nat, Go); (2%nat, Rand 0); (2%nat, Go); (2%nat, Timer)] ++
  steps 1 5 ++ [(2%nat, Dial None)] ++ steps 2 3.

(** A Stop that comes while the reconnection dials returns, and the client is
    connected afterwards: nothing closes the new connection. *)
Theorem stop_during_dial : ∃ sched s ts,
  exec sched (system NewClientTimeoutConfig true [[OpStart]; [OpStop]] 0 2) = Some (s, ts) ∧
  log s = [EvOpened 1; EvDisconnected 1 (Some lost); EvWaited 1 (10 * second); EvErrCClosed; EvStopped; EvOpened 2; EvReconnected] ∧
  live s = {[2%nat]} ∧ closing s = ∅.
Proof.
  exists stop_dial_sched. destruct (client_run [[OpStart]; [OpStop]] 2 stop_dial_sched) as [s|] eqn:E; [|by vm_compute in E].
  destruct (client_run_exec _ _ _ _ E) as [ts He]. exists s, ts. split; [exact He|].
  vm_compute in E. injection E as <-. by split_and!.
Qed.

Lemma reconnect_wait_bounds_witness : ∃ s ts,
  exec stop_dial_sched (system NewClientTimeoutConfig true [[OpStart]; [OpStop]] 0 2) = Some (s, ts) ∧
  10 * second <= 10 * second <= delay_high NewClientTimeoutConfig (doublings NewClientTimeoutConfig).
Proof.
  destruct (client_run [[OpStart]; [OpStop]] 2 stop_dial_sched) as [s|] eqn:E; [|by vm_compute in E].
  destruct (client_run_exec _ _ _ _ E) as [ts He]. exists s, ts. split; [exact He|].
  apply (reconnect_wait_bounds NewClientTimeoutConfig true [[OpStart]; [OpStop]] 0 2 stop_dial_sched s ts 1%nat).
  - repeat split; vm_compute; congruence.
  - exact He.
  - vm_compute in E. injection E as <-. set_solver +.
Defined.
