(* ===== verification/WsServer.v ===== *)
(** * The websocket server's connection registry (src/ws/server.go)

    [wsHandler]'s admission checks, and the registry of connections: the
    registration of a new socket (with the eviction of an old one under
    [KeepNew]), message forwarding and disconnect teardown run on the
    goroutines of different sockets and meet in [connections] and [gate],
    both under [connMutex].  Each critical section is one action.  A socket is
    its id with a serial number (pointer identity).  What happens on a
    connection (reads, writes, the moment it breaks) is the environment: a
    socket that runs may deliver messages and is torn down once
    ([WebSocketTheorems] shows the latter). *)

From S2P Require Import Prelude Conc.
Local Open Scope string_scope.
Local Open Scope list_scope.

Definition socket : Type := string * nat.
Definition ID (w : socket) : string := w.1.

Inductive DuplicateConnectionPolicy := KeepCurrent | KeepNew.

Inductive rejection :=
| RejStopping | RejTransition | RejDuplicate | RejEvictionTimeout | RejReplacementStopping | RejStillExists.

Inductive event :=
| EvRegistered (w : socket)           (* put in connections *)
| EvNewClient (w : socket)            (* newClientHandler *)
| EvClosed (w : socket)               (* disconnectedHandler *)
| EvMessage (w : socket)              (* messageHandler *)
| EvDropped (w : socket)              (* a message of a stale socket *)
| EvCloseSent (w : socket)            (* Close called on an evicted socket *)
| EvRejected (w : socket) (r : rejection)
| EvStale (w : socket)                (* disconnect suppressed: not the current socket *)
| EvSuperseded (w : socket).          (* disconnect suppressed: replaced meanwhile *)

#[export] Instance rejection_eq_dec : EqDecision rejection.
Proof. solve_decision. Defined.
#[export] Instance event_eq_dec : EqDecision event.
Proof. solve_decision. Defined.

Record server := mkServer {
  connections : gmap string socket;
  gate : gmap string Z;
  stopped : bool;
  duplicatePolicy : DuplicateConnectionPolicy;
  teardownDone : gset socket;           (* sockets whose teardownDone is closed *)
  log : list event
}.

(** What the environment decides: nothing, or that the eviction timer fires. *)
Inductive choice := Go | TimerFires.

Abbreviation prog A := (proc server choice A).

Definition emit (evs : list event) (s : server) : server :=
  mkServer (connections s) (gate s) (stopped s) (duplicatePolicy s) (teardownDone s) (log s ++ evs).
Definition set_conns (c : gmap string socket) (s : server) : server :=
  mkServer c (gate s) (stopped s) (duplicatePolicy s) (teardownDone s) (log s).
Definition set_gate (g : gmap string Z) (s : server) : server :=
  mkServer (connections s) g (stopped s) (duplicatePolicy s) (teardownDone s) (log s).
Definition set_stopped (b : bool) (s : server) : server :=
  mkServer (connections s) (gate s) b (duplicatePolicy s) (teardownDone s) (log s).
Definition set_down (w : socket) (s : server) : server :=
  mkServer (connections s) (gate s) (stopped s) (duplicatePolicy s) ({[w]} ∪ teardownDone s) (log s).

(** [NewServer] and the reset at the start of [Start]. *)
Definition NewServer (policy : DuplicateConnectionPolicy) : server :=
  mkServer ∅ ∅ false policy ∅ [].
Definition Start_reset (s : server) : server :=
  mkServer ∅ ∅ false (duplicatePolicy s) (teardownDone s) (log s).

(** [s.gate[id]], [s.gate[id]++] *)
Definition gate_of (id : string) (s : server) : Z := default 0%Z (gate s !! id).
Definition gate_inc (id : string) (s : server) : server :=
  set_gate (<[id := (gate_of id s + 1)%Z]> (gate s)) s.

Definition gate_dec (id : string) (s : server) : server :=
  let n := (gate_of id s - 1)%Z in
  set_gate (if decide (n <= 0)%Z then delete id (gate s) else <[id := n]> (gate s)) s.

Definition decrementGate (id : string) : prog unit := modify (gate_dec id).

Definition rejectConnection (w : socket) (r : rejection) : prog unit :=
  modify (emit [EvRejected w r]).

(** The first critical section of [registerNewConnection]. *)
Inductive registration := Registered | Refused (r : rejection) | Evict (old : socket).

Definition try_register (w : socket) (s : server) : server * registration :=
  if stopped s then (s, Refused RejStopping) else
  if decide (0 < gate_of (ID w) s)%Z then (s, Refused RejTransition) else
  match connections s !! ID w with
  | None => (emit [EvRegistered w] (set_conns (<[ID w := w]> (connections s)) s), Registered)
  | Some old => match duplicatePolicy s with
                | KeepCurrent => (s, Refused RejDuplicate)
                | KeepNew => (gate_inc (ID w) s, Evict old)
                end
  end.

(** The [select] on the old socket's teardown and the eviction timer. *)
Definition await_teardown (old : socket) : prog bool :=
  choose (λ c s, match c with
                 | TimerFires => Some (s, false)
                 | Go => if decide (old ∈ teardownDone s) then Some (s, true) else None
                 end).

(** The second critical section. *)
Definition register_replacement (w : socket) (s : server) : server * registration :=
  if stopped s then (s, Refused RejReplacementStopping) else
  match connections s !! ID w with
  | Some _ => (s, Refused RejStillExists)
  | None => (emit [EvRegistered w] (set_conns (<[ID w := w]> (connections s)) s), Registered)
  end.

(** What runs once the socket is registered: [started] is the rest of
    [wsHandler]; the deferred gate release comes before it. *)
Definition registerNewConnection (w : socket) : prog bool :=
  (r <- atomic (λ s, Some (try_register w s)) ;;
  match r with
  | Registered => Ret true
  | Refused why => rejectConnection w why ;; Ret false
  | Evict old =>
      modify (emit [EvCloseSent old]) ;;
      down <- await_teardown old ;;
      ok <- (if down : bool then
               r2 <- atomic (λ s, Some (register_replacement w s)) ;;
               match r2 with
               | Registered => Ret true
               | Refused why => rejectConnection w why ;; Ret false
               | Evict _ => Ret false
               end
             else rejectConnection w RejEvictionTimeout ;; Ret false) ;;
      decrementGate (ID w) ;;
      Ret ok
  end)%proc.

Definition is_current (w : socket) (s : server) : bool := bool_decide (connections s !! ID w = Some w).

Definition handleMessage (w : socket) : prog unit :=
  (cur <- read (is_current w) ;;
  if cur : bool then modify (emit [EvMessage w]) else modify (emit [EvDropped w]))%proc.

Fixpoint messages (n : nat) (w : socket) : prog unit :=
  match n with
  | 0 => Ret tt
  | S n' => (handleMessage w ;; messages n' w)%proc
  end.

(** The critical section of [handleDisconnect]. *)
Definition remove_current (w : socket) (s : server) : server * bool :=
  let s1 := gate_inc (ID w) s in
  if is_current w s then (set_conns (delete (ID w) (connections s)) s1, true) else (s1, false).

(** [handleDisconnect]; the deferred calls run in reverse order: first the
    gate, then the close of [teardownDone]. *)
Definition handleDisconnect (w : socket) : prog unit :=
  (cur <- atomic (λ s, Some (remove_current w s)) ;;
  (if cur : bool then
     superseded <- read (λ s, bool_decide (is_Some (connections s !! ID w))) ;;
     if superseded : bool then modify (emit [EvSuperseded w]) else modify (emit [EvClosed w])
   else modify (emit [EvStale w])) ;;
  decrementGate (ID w) ;;
  modify (set_down w))%proc.

(** The tail of [wsHandler] for an upgraded connection: register, run the read
    and write pumps (the environment gives [n] messages and eventually a
    teardown), announce the client. *)
Definition connect (w : socket) (n : nat) : prog unit :=
  (ok <- registerNewConnection w ;;
  if ok : bool then
    Fork (messages n w) (Fork (handleDisconnect w) (modify (emit [EvNewClient w])))
  else Ret tt)%proc.

(** [stopConnections] *)
Definition stopConnections : prog unit :=
  modify (λ s, set_stopped true (emit (EvCloseSent <$> (map_to_list (connections s)).*2) s)).

Definition GetChannel (websocketId : string) (s : server) : option socket := connections s !! websocketId.

(** ** Admission ([wsHandler] before the upgrade) *)

(** The sub-protocol loop: the first requested protocol the server supports;
    without a list every protocol is accepted.  The empty string is none. *)
Fixpoint negotiate (requested supported : list string) : string :=
  match requested with
  | [] => ""
  | p :: ps => match supported with
               | [] => p
               | _ => if decide (p ∈ supported) then p else negotiate ps supported
               end
  end.

(** [AddSupportedSubprotocol]. *)
Definition AddSupportedSubprotocol (p : string) (l : list string) : list string :=
  if decide (p ∈ l) then l else l ++ [p].

Inductive admission :=
| HttpNotFound | HttpUnauthorized | UpgradeFailed | ClosedUnsupportedProtocol
| AcceptedConnection (id protocol : string).

(** [wsHandler] up to the registration: the id resolver's result, the
    requested protocols, the basic-auth check (credentials and handler, when
    one is set), the client check, the outcome of the upgrade. *)
Definition wsHandler_admit (id : option string) (requested supported : list string)
    (basicAuth : option (string → string → bool)) (credentials : option (string * string))
    (checkClient : option (string → bool)) (upgraded : bool) : admission :=
  match id with
  | None => HttpNotFound
  | Some id =>
      let auth_ok := match basicAuth with
                     | None => true
                     | Some h => match credentials with Some (u, p) => h u p | None => false end
                     end in
      if negb auth_ok then HttpUnauthorized else
      if negb (match checkClient with None => true | Some h => h id end) then HttpUnauthorized else
      if negb upgraded then UpgradeFailed else
      let p := negotiate requested supported in
      if decide (p = "") then ClosedUnsupportedProtocol else AcceptedConnection id p
  end.
