(* ===== verification/WsRegistry.v ===== *)
(** * Safety of the connection registry under every schedule

    The invariant of [WsServer]: who holds the transition gate of an id, which
    socket occupies it, and what the event log says about it.  [scan id] reads
    the log as an automaton that accepts only registrations and disconnects of
    [id] that strictly alternate, each disconnect for the socket registered
    last. *)

From S2P Require Import Prelude Conc WsServer.
Local Open Scope string_scope.
Local Open Scope list_scope.

(** Where the goroutine that owns a socket is. *)
Inductive phase :=
| PNew                                    (* not registered *)
| PEvict (old : socket) (ready : bool)    (* evicting [old]; [ready]: it is torn down *)
| PLive                                   (* registered *)
| PRem                                    (* removed, disconnect not yet reported *)
| PDown.                                  (* disconnect reported *)

Inductive token :=
| TSock (w : socket) (p : phase)
| TG (side : bool) (w : socket).          (* a held gate: evictor or disconnect *)

#[export] Instance phase_eq_dec : EqDecision phase.
Proof. solve_decision. Defined.
#[export] Instance token_eq_dec : EqDecision token.
Proof. solve_decision. Defined.
#[export] Instance phase_countable : Countable phase.
Proof.
  refine (inj_countable'
    (λ p, match p with
          | PNew => inl 0 | PLive => inl 1 | PRem => inl 2 | PDown => inl 3 | PEvict w b => inr (w, b)
          end)
    (λ x, match x with
          | inl 0 => PNew | inl 1 => PLive | inl 2 => PRem | inl _ => PDown | inr (w, b) => PEvict w b
          end) _); by intros [].
Defined.
#[export] Instance token_countable : Countable token.
Proof.
  refine (inj_countable'
    (λ t, match t with TSock w p => inl (w, p) | TG b w => inr (b, w) end)
    (λ x, match x with inl (w, p) => TSock w p | inr (b, w) => TG b w end) _); by intros [].
Defined.

(** ** The log automaton *)

Definition track (id : string) (st : option (option socket)) (e : event) : option (option socket) :=
  match st, e with
  | Some None, EvRegistered w => if decide (ID w = id) then Some (Some w) else st
  | Some (Some _), EvRegistered w => if decide (ID w = id) then None else st
  | Some None, EvClosed w => if decide (ID w = id) then None else st
  | Some (Some v), EvClosed w => if decide (ID w = id) then if decide (v = w) then Some None else None else st
  | _, _ => st
  end.

Definition scan (id : string) (l : list event) : option (option socket) := foldl (track id) (Some None) l.

(** Events that would show a stale socket or a failed eviction. *)
Definition stale_event (e : event) : bool :=
  match e with
  | EvStale _ | EvSuperseded _ | EvRejected _ RejStillExists => true
  | _ => false
  end.

Definition quiet_event (e : event) : bool :=
  match e with EvRegistered _ | EvClosed _ => false | _ => negb (stale_event e) end.

Lemma scan_snoc id l e : scan id (l ++ [e]) = track id (scan id l) e.
Proof. unfold scan. by rewrite foldl_app. Qed.

Lemma scan_quiet id l evs : forallb quiet_event evs = true → scan id (l ++ evs) = scan id l.
Proof.
  revert l. induction evs as [|e evs IH]; intros l Hq; [by rewrite app_nil_r|].
  simpl in Hq. apply andb_true_iff in Hq as [He Hq].
  rewrite (cons_middle e l evs), app_assoc, IH by done. rewrite scan_snoc.
  destruct e; simpl in He; try done; by destruct (scan id l) as [[]|].
Qed.

(** ** The invariant *)

Definition active (w : socket) (o : gset token) : Prop := TSock w PLive ∈ o ∨ TSock w PRem ∈ o.
Definition count (id : string) (G : gset (bool * socket)) : Z :=
  Z.of_nat (size (filter (λ x, ID x.2 = id) G)).

Record Inv (s : server) (o : gset token) : Prop := {
  j_phase : ∀ w p p', TSock w p ∈ o → TSock w p' ∈ o → p = p';
  j_live : ∀ w, TSock w PLive ∈ o → connections s !! ID w = Some w;
  j_conn : ∀ id w, connections s !! id = Some w → ID w = id ∧ TSock w PLive ∈ o;
  j_rem : ∀ w, TSock w PRem ∈ o → connections s !! ID w = None ∧ TG false w ∈ o;
  j_active : ∀ w, active w o → scan (ID w) (log s) = Some (Some w);
  j_scan : ∀ id, scan id (log s) = Some None ∨ ∃ w, ID w = id ∧ active w o;
  j_evict : ∀ w old b, TSock w (PEvict old b) ∈ o → ID old = ID w ∧ TG true w ∈ o ∧
    (scan (ID w) (log s) = Some None ∨ scan (ID w) (log s) = Some (Some old)) ∧
    (b = true → old ∈ teardownDone s);
  j_evict1 : ∀ w w' old old' b b', TSock w (PEvict old b) ∈ o → TSock w' (PEvict old' b') ∈ o →
    ID w = ID w' → w = w';
  j_gate : ∃ G : gset (bool * socket), (∀ x, x ∈ G ↔ TG x.1 x.2 ∈ o) ∧ ∀ id, gate_of id s = count id G;
  j_pos : ∀ id n, gate s !! id = Some n → (0 < n)%Z;
  j_down : ∀ w p, w ∈ teardownDone s → TSock w p ∈ o → p = PDown;
  j_fresh : ∀ w, TG false w ∈ o → TSock w PRem ∈ o ∨ TSock w PDown ∈ o;
  j_stale : ∀ e, e ∈ log s → stale_event e = false
}.

(** A goroutine that has ended holds no gate and no registered socket. *)
Definition Rest (o : gset token) : Prop :=
  (∀ b w, TG b w ∉ o) ∧ ∀ w, (TSock w PRem ∉ o) ∧ TSock w PLive ∉ o.

Ltac inv_open H :=
  destruct H as [Hphase Hlive Hconn Hrem Hactive Hscan Hevict Hevict1 Hgate Hpos Hdown Hfresh Hstale].

(** Events the invariant does not see. *)
Lemma Inv_quiet s o evs : forallb quiet_event evs = true → Inv s o → Inv (emit evs s) o.
Proof.
  intros Hq HI. inv_open HI.
  constructor; simpl; try assumption; intros *; rewrite ?scan_quiet by done; auto.
  rewrite elem_of_app. intros [?|Hin]; [auto|]. rewrite forallb_forall in Hq.
  specialize (Hq e (proj1 (list_elem_of_In _ _) Hin)). destruct e; simpl in *; try done.
  by apply negb_true_iff in Hq.
Qed.

(** ** Counting the gate *)

Lemma count_insert id G b w :
  (b, w) ∉ G → count id ({[(b, w)]} ∪ G) = (count id G + if decide (ID w = id) then 1 else 0)%Z.
Proof.
  intros Hn. unfold count. case_decide as Hid.
  - replace (filter (λ x, ID x.2 = id) ({[(b, w)]} ∪ G))
      with ({[(b, w)]} ∪ filter (λ x, ID x.2 = id) G) by (apply leibniz_equiv; set_solver).
    rewrite size_union; [rewrite size_singleton; lia|].
    apply disjoint_singleton_l. rewrite elem_of_filter. by intros [_ ?].
  - replace (filter (λ x, ID x.2 = id) ({[(b, w)]} ∪ G))
      with (filter (λ x, ID x.2 = id) G) by (apply leibniz_equiv; set_solver).
    lia.
Qed.

Lemma count_delete id G b w :
  (b, w) ∈ G → count id (G ∖ {[(b, w)]}) = (count id G - if decide (ID w = id) then 1 else 0)%Z.
Proof.
  intros Hin. pose proof (count_insert id (G ∖ {[(b, w)]}) b w ltac:(set_solver)) as Hc.
  rewrite <-union_difference_singleton_L in Hc by done. lia.
Qed.

Lemma count_pos id G b w : (b, w) ∈ G → ID w = id → (0 < count id G)%Z.
Proof.
  intros Hin Hid. unfold count.
  assert (Hx : (b, w) ∈ filter (λ x, ID x.2 = id) G) by (by apply elem_of_filter).
  assert (size (filter (λ x, ID x.2 = id) G) ≠ 0); [|lia].
  intros He%size_empty_inv. apply He in Hx. by apply elem_of_empty in Hx.
Qed.

Lemma gate_held s o b w : Inv s o → TG b w ∈ o → (0 < gate_of (ID w) s)%Z.
Proof.
  intros HI Hin. destruct (j_gate _ _ HI) as (G & HG & Hc). rewrite Hc.
  eapply (count_pos _ _ b w); [by apply HG|done].
Qed.

(** ** The state changes *)

(** Shorthand for the changes of the tokens of one socket. *)
Ltac sock_eq Ho := intros; rewrite Ho; clear; intuition congruence.

(** A change of phase that leaves the occupied ids alone. *)
Lemma Inv_phase s (o o' : gset token) w p p' :
  Inv s o → TSock w p ∈ o → (∀ t, t ∈ o' ↔ (t ∈ o ∧ t ≠ TSock w p) ∨ t = TSock w p') →
  match p, p' with
  | PEvict old _, PEvict old' true => old = old' ∧ old ∈ teardownDone s
  | PEvict _ _, PNew => True
  | _, _ => False
  end → w ∉ teardownDone s → Inv s o'.
Proof.
  intros HI Hin Ho Hpp Hdn. inv_open HI.
  assert (Hs : ∀ v q, TSock v q ∈ o' ↔ (TSock v q ∈ o ∧ v ≠ w) ∨ (v = w ∧ q = p')).
  { intros v q. rewrite Ho. split.
    - intros [[Hi Hne]|?]; simplify_eq; [|auto]. left. split; [done|]. intros ->.
      by rewrite (Hphase w q p Hi Hin) in Hne.
    - intros [[? ?]|[-> ->]]; [left; split; congruence|auto]. }
  assert (Hg : ∀ b v, TG b v ∈ o' ↔ TG b v ∈ o) by sock_eq Ho.
  assert (Hact : ∀ v, active v o' ↔ active v o).
  { intros v. unfold active. rewrite !Hs. destruct (decide (v = w)) as [->|]; [|tauto].
    assert (p ≠ PLive ∧ p ≠ PRem ∧ p' ≠ PLive ∧ p' ≠ PRem) as (? & ? & ? & ?) by (destruct p, p'; naive_solver).
    split; [naive_solver|]. intros [Hi|Hi]; by pose proof (Hphase _ _ _ Hi Hin). }
  constructor; try assumption.
  - intros v q q' [[? ?]|[? ?]]%Hs [[? ?]|[? ?]]%Hs; try congruence. by eapply Hphase.
  - intros v [[? ?]|[-> <-]]%Hs; [auto|]. by destruct p as [|? []| | |].
  - intros id v Hc. destruct (Hconn id v Hc) as [? Hl]. split; [done|]. apply Hs. left. split; [done|].
    intros ->. pose proof (Hphase _ _ _ Hl Hin). subst p. by destruct p'.
  - intros v [[? ?]|[-> <-]]%Hs; [rewrite Hg; auto|]. by destruct p as [|? []| | |].
  - intros v. rewrite Hact. auto.
  - intros id. setoid_rewrite Hact. auto.
  - intros v old b [[? ?]|[-> <-]]%Hs; [rewrite Hg; auto|]. destruct p as [|old0 b0| | |]; try done.
    destruct b; [|done]. destruct Hpp as [-> Hd]. destruct (Hevict _ _ _ Hin) as (? & ? & ? & _).
    rewrite Hg. auto.
  - intros v v' old old' b b' [[H1 ?]|[-> Hp]]%Hs [[H2 ?]|[-> Hp']]%Hs Hid; [by eapply Hevict1| | |done];
      destruct p as [|old0 b0| | |]; try (by destruct p'); subst p'; try done.
    + by destruct (Hevict1 _ _ _ _ _ _ H1 Hin Hid).
    + by destruct (Hevict1 _ _ _ _ _ _ Hin H2 Hid).
  - destruct Hgate as (G & HG & Hc). exists G. split; [|done]. intros x. by rewrite HG, Hg.
  - intros v q Hd [[? ?]|[-> ->]]%Hs; [eauto|done].
  - intros v Hi%Hg. rewrite !Hs. destruct (decide (v = w)) as [->|]; [|destruct (Hfresh v Hi); auto].
    destruct (Hfresh w Hi) as [H1|H1]; pose proof (Hphase _ _ _ H1 Hin); subst p; done.
Qed.

(** The tokens after a change of the phase of [w] from [p] to [p']. *)
Lemma swap_phase s (o o' : gset token) w p p' (P : token → Prop) :
  Inv s o → TSock w p ∈ o → (∀ v q, ¬ P (TSock v q)) →
  (∀ t, t ∈ o' ↔ (t ∈ o ∧ t ≠ TSock w p) ∨ t = TSock w p' ∨ P t) →
  ∀ v q, TSock v q ∈ o' ↔ (TSock v q ∈ o ∧ v ≠ w) ∨ (v = w ∧ q = p').
Proof.
  intros HI Hin HP Ho v q. rewrite Ho. specialize (HP v q). split.
  - intros [[Hi Hne]|[?|?]]; simplify_eq; [|auto|done]. left. split; [done|]. intros ->.
    by rewrite (j_phase _ _ HI w q p Hi Hin) in Hne.
  - intros [[? ?]|[-> ->]]; [left; split; congruence|auto].
Qed.

Lemma scan_conn s o id : Inv s o → scan id (log s) = Some None →
  connections s !! id = None ∧ ∀ w, ID w = id → ¬ active w o.
Proof.
  intros HI Hs. split.
  - destruct (connections s !! id) as [w|] eqn:Hc; [|done]. destruct (j_conn _ _ HI _ _ Hc) as [<- Hl].
    rewrite (j_active _ _ HI w (or_introl Hl)) in Hs. done.
  - intros w <- Ha. rewrite (j_active _ _ HI w Ha) in Hs. done.
Qed.

(** A free id: no registered socket and no held gate, or a finished eviction. *)
Lemma free_no_gate s o id : Inv s o → connections s !! id = None → (gate_of id s <= 0)%Z →
  scan id (log s) = Some None ∧ ∀ v old b, TSock v (PEvict old b) ∈ o → ID v ≠ id.
Proof.
  intros HI Hc Hg. split.
  - destruct (j_scan _ _ HI id) as [?|(w & <- & [Hl|Hr])]; [done| |].
    + rewrite (j_live _ _ HI w Hl) in Hc. done.
    + destruct (j_rem _ _ HI w Hr) as [_ Ht]. pose proof (gate_held _ _ _ _ HI Ht). lia.
  - intros v old b Hv <-. destruct (j_evict _ _ HI _ _ _ Hv) as (_ & Ht & _).
    pose proof (gate_held _ _ _ _ HI Ht). lia.
Qed.

Lemma Inv_register s (o o' : gset token) w p :
  Inv s o → TSock w p ∈ o → (p = PNew ∨ ∃ old, p = PEvict old true) → scan (ID w) (log s) = Some None →
  (∀ v old b, v ≠ w → TSock v (PEvict old b) ∈ o → ID v ≠ ID w) →
  (∀ t, t ∈ o' ↔ (t ∈ o ∧ t ≠ TSock w p) ∨ t = TSock w PLive) →
  Inv (emit [EvRegistered w] (set_conns (<[ID w := w]> (connections s)) s)) o'.
Proof.
  intros HI Hin Hp Hsc Hev Ho.
  assert (Hs : ∀ v q, TSock v q ∈ o' ↔ (TSock v q ∈ o ∧ v ≠ w) ∨ (v = w ∧ q = PLive)).
  { eapply (swap_phase s o o' w p PLive (λ _, False) HI Hin); [tauto|]. intros t. rewrite Ho. tauto. }
  assert (Hg : ∀ b v, TG b v ∈ o' ↔ TG b v ∈ o) by sock_eq Ho.
  destruct (scan_conn _ _ _ HI Hsc) as [Hcn Hna].
  assert (Hact : ∀ v, active v o' ↔ active v o ∨ v = w).
  { intros v. unfold active. rewrite !Hs. destruct (decide (v = w)) as [->|]; naive_solver. }
  assert (Hother : ∀ v, active v o → ID v ≠ ID w) by (intros v Hv Hid; by apply (Hna v)).
  inv_open HI. constructor; cbn [emit set_conns connections gate teardownDone log].
  - intros v q q' [[? ?]|[? ?]]%Hs [[? ?]|[? ?]]%Hs; try congruence. by eapply Hphase.
  - intros v [[Hl ?]|[-> _]]%Hs; [|apply lookup_insert_eq].
    rewrite lookup_insert_ne; [auto|]. intros Heq. by apply (Hother v (or_introl Hl)).
  - intros id v. rewrite lookup_insert. case_decide as Hid.
    + intros; simplify_eq. split; [done|]. apply Hs. auto.
    + intros Hc. destruct (Hconn id v Hc) as [<- ?]. split; [done|]. apply Hs. left.
      split; [done|]. by intros ->.
  - intros v [[Hr ?]|[-> ?]]%Hs; [|done]. rewrite Hg. destruct (Hrem v Hr). split; [|done].
    rewrite lookup_insert_ne; [done|]. intros Heq. by apply (Hother v (or_intror Hr)).
  - intros v [Hv| ->]%Hact; rewrite scan_snoc.
    + rewrite (Hactive v Hv). simpl. rewrite decide_False; [done|]. intros Heq. by apply (Hother v Hv).
    + rewrite Hsc. simpl. by rewrite decide_True.
  - intros id. rewrite scan_snoc. setoid_rewrite Hact.
    destruct (decide (ID w = id)) as [<-|Hne]; [right; eauto|].
    destruct (Hscan id) as [Hn|(v & <- & Hv)]; [left|right; eauto].
    rewrite Hn. simpl. by rewrite decide_False.
  - intros v old b [[Hv Hvw]|[-> ?]]%Hs; [|done]. rewrite Hg, scan_snoc.
    destruct (Hevict v old b Hv) as (? & ? & Hsv & ?). split; [done|]. split; [done|]. split; [|done].
    specialize (Hev v old b Hvw Hv). destruct Hsv as [-> | ->]; simpl; rewrite decide_False by congruence; auto.
  - intros v v' old old' b b' [[H1 ?]|[-> ?]]%Hs [[H2 ?]|[-> ?]]%Hs; [by eapply Hevict1|done..].
  - destruct Hgate as (G & HG & Hc). exists G. split; [|done]. intros x. by rewrite HG, Hg.
  - done.
  - intros v q Hd [[? ?]|[-> ->]]%Hs; [eauto|]. specialize (Hdown w p Hd Hin). naive_solver.
  - intros v Hi%Hg. rewrite !Hs. destruct (decide (v = w)) as [->|]; [|destruct (Hfresh v Hi); auto].
    destruct (Hfresh w Hi) as [H1|H1]; pose proof (Hphase _ _ _ H1 Hin); naive_solver.
  - intros e. rewrite elem_of_snoc. intros [?| ->]; auto.
Qed.

(** The gate after one more holder, and after one less. *)
Definition gate_ok (s : server) (o : gset token) : Prop :=
  (∃ G : gset (bool * socket), (∀ x, x ∈ G ↔ TG x.1 x.2 ∈ o) ∧ ∀ id, gate_of id s = count id G) ∧
  ∀ id n, gate s !! id = Some n → (0 < n)%Z.

Lemma gate_of_set id (n : Z) id' s :
  gate_of id' (set_gate (<[id := n]> (gate s)) s) = if decide (id = id') then n else gate_of id' s.
Proof. unfold gate_of. simpl. rewrite lookup_insert. by case_decide. Qed.

Lemma gate_of_unset id id' s :
  gate_of id' (set_gate (delete id (gate s)) s) = if decide (id = id') then 0%Z else gate_of id' s.
Proof. unfold gate_of. simpl. rewrite lookup_delete. by case_decide. Qed.

Lemma gate_ok_inc s (o o' : gset token) b w :
  gate_ok s o → TG b w ∉ o → (∀ c v, TG c v ∈ o' ↔ TG c v ∈ o ∨ (c = b ∧ v = w)) →
  gate_ok (gate_inc (ID w) s) o'.
Proof.
  intros [(G & HG & Hc) Hp] Hn Ho'.
  assert (Hbw : (b, w) ∉ G) by (by rewrite HG).
  split.
  - exists ({[(b, w)]} ∪ G). split.
    + intros [c v]. rewrite elem_of_union, elem_of_singleton, HG, Ho'. simpl. naive_solver.
    + intros id. unfold gate_inc. rewrite gate_of_set, count_insert by done. rewrite <-!Hc.
      case_decide; subst; lia.
  - intros id n. unfold gate_inc. simpl. rewrite lookup_insert. case_decide as Hid; [|by apply Hp].
    intros; simplify_eq. rewrite Hc. unfold count. lia.
Qed.

Lemma gate_ok_dec s (o o' : gset token) b w :
  gate_ok s o → TG b w ∈ o → (∀ c v, TG c v ∈ o' ↔ TG c v ∈ o ∧ ¬ (c = b ∧ v = w)) →
  gate_ok (gate_dec (ID w) s) o'.
Proof.
  intros [(G & HG & Hc) Hp] Hin Ho'.
  assert (Hbw : (b, w) ∈ G) by (by rewrite HG).
  pose proof (count_pos (ID w) G b w Hbw eq_refl) as Hpos.
  split.
  - exists (G ∖ {[(b, w)]}). split.
    + intros [c v]. rewrite elem_of_difference, elem_of_singleton, HG, Ho'. simpl. naive_solver.
    + intros id. unfold gate_dec. rewrite count_delete by done. rewrite <-!Hc.
      rewrite <-Hc in Hpos. case_decide.
      * rewrite gate_of_unset. case_decide; subst; lia.
      * rewrite gate_of_set. case_decide; subst; lia.
  - intros id n. unfold gate_dec. cbn [set_gate gate]. case_decide as Hz.
    + rewrite lookup_delete. case_decide; [done|by apply Hp].
    + rewrite lookup_insert. case_decide; [|by apply Hp]. intros; simplify_eq. lia.
Qed.

Lemma Inv_gate s o : Inv s o → gate_ok s o.
Proof. intros HI. split; [apply HI|]. intros id n. apply (j_pos _ _ HI). Qed.

(** The evictor takes the gate and starts waiting for the old socket. *)
Lemma Inv_evict s (o o' : gset token) w old :
  Inv s o → TSock w PNew ∈ o → connections s !! ID w = Some old → (gate_of (ID w) s <= 0)%Z →
  (∀ t, t ∈ o' ↔ (t ∈ o ∧ t ≠ TSock w PNew) ∨ t = TSock w (PEvict old false) ∨ t = TG true w) →
  Inv (gate_inc (ID w) s) o'.
Proof.
  intros HI Hin Hold Hg0 Ho.
  assert (Hs : ∀ v q, TSock v q ∈ o' ↔ (TSock v q ∈ o ∧ v ≠ w) ∨ (v = w ∧ q = PEvict old false)).
  { by eapply (swap_phase s o o' w PNew _ (λ t, t = TG true w) HI Hin). }
  assert (Hg : ∀ b v, TG b v ∈ o' ↔ TG b v ∈ o ∨ (b = true ∧ v = w)) by sock_eq Ho.
  assert (Hnt : ∀ b v, ID v = ID w → TG b v ∉ o).
  { intros b v Hid Ht. pose proof (gate_held _ _ _ _ HI Ht) as Hp. rewrite Hid in Hp. lia. }
  assert (Hne : ∀ v old' b, TSock v (PEvict old' b) ∈ o → ID v ≠ ID w).
  { intros v old' b Hv Hid. destruct (j_evict _ _ HI _ _ _ Hv) as (_ & Ht & _). by apply (Hnt true v). }
  destruct (j_conn _ _ HI _ _ Hold) as [Hido Hlo].
  destruct (gate_ok_inc s o o' true w (Inv_gate _ _ HI) (Hnt true w eq_refl) Hg) as [HG HP].
  assert (Hact : ∀ v, active v o' ↔ active v o).
  { intros v. unfold active. rewrite !Hs. destruct (decide (v = w)) as [->|]; [|tauto].
    split; [naive_solver|]. intros [Hi|Hi]; by pose proof (j_phase _ _ HI _ _ _ Hi Hin). }
  inv_open HI. constructor; try assumption;
    cbn [gate_inc set_gate connections gate teardownDone log].
  - intros v q q' [[? ?]|[? ?]]%Hs [[? ?]|[? ?]]%Hs; try congruence. by eapply Hphase.
  - intros v [[Hl ?]|[-> ?]]%Hs; [auto|done].
  - intros id v Hc. destruct (Hconn id v Hc) as [? Hl]. split; [done|]. apply Hs. left. split; [done|].
    intros ->. by pose proof (Hphase _ _ _ Hl Hin).
  - intros v [[Hr ?]|[-> ?]]%Hs; [|done]. rewrite Hg. destruct (Hrem v Hr). auto.
  - intros v. rewrite Hact. auto.
  - intros id. setoid_rewrite Hact. auto.
  - intros v old' b [[Hv ?]|[-> ?]]%Hs; rewrite Hg.
    + destruct (Hevict _ _ _ Hv) as (? & ? & ? & ?). auto.
    + simplify_eq. split; [done|]. split; [auto|]. split; [|done]. right.
      rewrite <-Hido. apply Hactive. by left.
  - intros v v' o1 o2 b b' [[H1 ?]|[-> ?]]%Hs [[H2 ?]|[-> ?]]%Hs Hid; [by eapply Hevict1|..|done].
    + by destruct (Hne _ _ _ H1).
    + by destruct (Hne _ _ _ H2).
  - intros v q Hd [[? ?]|[-> ->]]%Hs; [eauto|]. by pose proof (Hdown w _ Hd Hin).
  - intros v [Hi|[? ?]]%Hg; [|done]. rewrite !Hs. destruct (Hfresh v Hi) as [Hv|Hv].
    + left. left. split; [done|]. intros ->. by pose proof (Hphase _ _ _ Hv Hin).
    + right. left. split; [done|]. intros ->. by pose proof (Hphase _ _ _ Hv Hin).
Qed.

(** The disconnecting socket takes the gate and leaves the registry. *)
Lemma Inv_remove s (o o' : gset token) w :
  Inv s o → TSock w PLive ∈ o →
  (∀ t, t ∈ o' ↔ (t ∈ o ∧ t ≠ TSock w PLive) ∨ t = TSock w PRem ∨ t = TG false w) →
  Inv (set_conns (delete (ID w) (connections s)) (gate_inc (ID w) s)) o'.
Proof.
  intros HI Hin Ho.
  assert (Hs : ∀ v q, TSock v q ∈ o' ↔ (TSock v q ∈ o ∧ v ≠ w) ∨ (v = w ∧ q = PRem)).
  { by eapply (swap_phase s o o' w PLive _ (λ t, t = TG false w) HI Hin). }
  assert (Hg : ∀ b v, TG b v ∈ o' ↔ TG b v ∈ o ∨ (b = false ∧ v = w)) by sock_eq Ho.
  assert (Hnt : TG false w ∉ o).
  { intros Ht. destruct (j_fresh _ _ HI w Ht) as [Hv|Hv]; by pose proof (j_phase _ _ HI _ _ _ Hv Hin). }
  destruct (gate_ok_inc s o o' false w (Inv_gate _ _ HI) Hnt Hg) as [HG HP].
  assert (Hact : ∀ v, active v o' ↔ active v o).
  { intros v. unfold active. rewrite !Hs. destruct (decide (v = w)) as [->|]; naive_solver. }
  pose proof (j_live _ _ HI w Hin) as Hcw.
  inv_open HI. constructor; try assumption;
    cbn [gate_inc set_gate set_conns connections gate teardownDone log].
  - intros v q q' [[? ?]|[? ?]]%Hs [[? ?]|[? ?]]%Hs; try congruence. by eapply Hphase.
  - intros v [[Hl ?]|[-> ?]]%Hs; [|done]. rewrite lookup_delete_ne; [auto|].
    intros Heq. pose proof (Hlive v Hl) as Hv. rewrite <-Heq in Hv. congruence.
  - intros id v Hc. apply lookup_delete_Some in Hc as [Hne Hc]. destruct (Hconn id v Hc) as [<- Hl].
    split; [done|]. apply Hs. left. split; [done|]. by intros ->.
  - intros v [[Hr ?]|[-> ?]]%Hs; rewrite Hg.
    + destruct (Hrem v Hr). split; [|auto]. rewrite lookup_delete. by case_decide.
    + split; [apply lookup_delete_eq|auto].
  - intros v. rewrite Hact. auto.
  - intros id. setoid_rewrite Hact. auto.
  - intros v old' b [[Hv ?]|[-> ?]]%Hs; [|done]. rewrite Hg.
    destruct (Hevict _ _ _ Hv) as (? & ? & ? & ?). auto.
  - intros v v' o1 o2 b b' [[H1 ?]|[-> ?]]%Hs [[H2 ?]|[-> ?]]%Hs Hid; [by eapply Hevict1|done..].
  - intros v q Hd [[? ?]|[-> ->]]%Hs; [eauto|]. by pose proof (Hdown w _ Hd Hin).
  - intros v [Hi|[_ ->]]%Hg; rewrite !Hs; [|auto].
    destruct (decide (v = w)) as [->|]; [auto|]. destruct (Hfresh v Hi); auto.
Qed.

(** The disconnect is reported. *)
Lemma Inv_closed s (o o' : gset token) w :
  Inv s o → TSock w PRem ∈ o →
  (∀ t, t ∈ o' ↔ (t ∈ o ∧ t ≠ TSock w PRem) ∨ t = TSock w PDown) →
  Inv (emit [EvClosed w] s) o'.
Proof.
  intros HI Hin Ho.
  assert (Hs : ∀ v q, TSock v q ∈ o' ↔ (TSock v q ∈ o ∧ v ≠ w) ∨ (v = w ∧ q = PDown)).
  { eapply (swap_phase s o o' w PRem _ (λ _, False) HI Hin); [tauto|]. intros t. rewrite Ho. tauto. }
  assert (Hg : ∀ b v, TG b v ∈ o' ↔ TG b v ∈ o) by sock_eq Ho.
  assert (Hact : ∀ v, active v o' ↔ active v o ∧ v ≠ w).
  { intros v. unfold active. rewrite !Hs. naive_solver. }
  pose proof (j_active _ _ HI w (or_intror Hin)) as Hsw.
  assert (Huniq : ∀ v, active v o → ID v = ID w → v = w).
  { intros v Hv Hid. pose proof (j_active _ _ HI v Hv) as Hv'. rewrite Hid in Hv'. congruence. }
  assert (Hafter : scan (ID w) (log s ++ [EvClosed w]) = Some None).
  { rewrite scan_snoc, Hsw. simpl. by rewrite !decide_True. }
  assert (Hkeep : ∀ id, id ≠ ID w → scan id (log s ++ [EvClosed w]) = scan id (log s)).
  { intros id Hne. rewrite scan_snoc. destruct (scan id (log s)) as [[]|]; simpl; try done;
      by rewrite decide_False. }
  inv_open HI. constructor; try assumption; cbn [emit connections gate teardownDone log].
  - intros v q q' [[? ?]|[? ?]]%Hs [[? ?]|[? ?]]%Hs; try congruence. by eapply Hphase.
  - intros v [[Hl ?]|[-> ?]]%Hs; [auto|done].
  - intros id v Hc. destruct (Hconn id v Hc) as [? Hl]. split; [done|]. apply Hs. left. split; [done|].
    intros ->. by pose proof (Hphase _ _ _ Hl Hin).
  - intros v [[Hr ?]|[-> ?]]%Hs; [|done]. rewrite Hg. auto.
  - intros v [Hv Hne]%Hact. rewrite Hkeep; [auto|]. intros Hid. auto.
  - intros id. destruct (decide (id = ID w)) as [->|Hne]; [auto|]. rewrite Hkeep by done.
    destruct (Hscan id) as [?|(v & <- & Hv)]; [auto|]. right. exists v. rewrite Hact.
    split; [done|]. split; [done|]. by intros ->.
  - intros v old b [[Hv ?]|[-> ?]]%Hs; [|done]. rewrite Hg.
    destruct (Hevict _ _ _ Hv) as (? & ? & ? & ?). split; [done|]. split; [done|]. split; [|done].
    destruct (decide (ID v = ID w)) as [Hid|]; [rewrite Hid; auto|]. by rewrite Hkeep.
  - intros v v' o1 o2 b b' [[H1 ?]|[-> ?]]%Hs [[H2 ?]|[-> ?]]%Hs Hid; [by eapply Hevict1|done..].
  - destruct Hgate as (G & HG & Hc). exists G. split; [|done]. intros x. by rewrite HG, Hg.
  - intros v q Hd [[? ?]|[-> ->]]%Hs; [eauto|done].
  - intros v Hi%Hg. rewrite !Hs. destruct (decide (v = w)) as [->|]; [auto|].
    destruct (Hfresh v Hi); auto.
  - intros e. rewrite elem_of_snoc. intros [?| ->]; auto.
Qed.

(** The gate is released by a goroutine that no longer needs it. *)
Lemma Inv_release s (o o' : gset token) b w :
  Inv s o → TG b w ∈ o →
  (b = true → ∀ old c, TSock w (PEvict old c) ∉ o) → (b = false → TSock w PRem ∉ o) →
  (∀ t, t ∈ o' ↔ t ∈ o ∧ t ≠ TG b w) →
  Inv (gate_dec (ID w) s) o'.
Proof.
  intros HI Hin He Hr Ho.
  assert (Hs : ∀ v q, TSock v q ∈ o' ↔ TSock v q ∈ o) by sock_eq Ho.
  assert (Hg : ∀ c v, TG c v ∈ o' ↔ TG c v ∈ o ∧ ¬ (c = b ∧ v = w)).
  { intros c v. rewrite Ho. split; intros [? Hne]; (split; [done|]).
    - by intros [-> ->].
    - intros [= -> ->]. by apply Hne. }
  destruct (gate_ok_dec s o o' b w (Inv_gate _ _ HI) Hin Hg) as [HG HP].
  inv_open HI. constructor; try assumption; intros *; unfold active; rewrite ?Hs;
    cbn [gate_dec set_gate connections gate teardownDone log]; eauto.
  - intros Hv. destruct (Hrem w0 Hv). split; [done|]. apply Hg. split; [done|]. intros [<- ->]. by apply Hr.
  - setoid_rewrite Hs. apply Hscan.
  - intros Hv. destruct (Hevict _ _ _ Hv) as (? & ? & ? & ?). split; [done|]. split; [|done].
    apply Hg. split; [done|]. intros [<- ->]. by destruct (He eq_refl old b0).
  - intros [? _]%Hg. auto.
Qed.

(** [teardownDone] is closed. *)
Lemma Inv_down s o w : Inv s o → TSock w PDown ∈ o → Inv (set_down w s) o.
Proof.
  intros HI Hin. inv_open HI. constructor; try assumption; cbn [set_down teardownDone].
  - intros v old b Hv. destruct (Hevict v old b Hv) as (? & ? & ? & Hd). do 3 (split; [done|]).
    intros ->. apply elem_of_union. auto.
  - intros v p Hd Hv. apply elem_of_union in Hd as [Hd|Hd]; [|eauto].
    apply elem_of_singleton in Hd as ->. by eapply Hphase.
Qed.

(** [stopConnections] *)
Lemma Inv_stopped s o b : Inv s o → Inv (set_stopped b s) o.
Proof. intros HI. inv_open HI. by constructor. Qed.

(** ** The goroutines *)

Lemma swap_frame s (o o' r : gset token) w p p' (P : token → Prop) :
  o ## r → Inv s (o ∪ r) → TSock w p ∈ o →
  (∀ t, t ∈ o' ↔ (t ∈ o ∧ t ≠ TSock w p) ∨ t = TSock w p' ∨ P t) → (∀ t, P t → t ∉ r) →
  (o' ## r) ∧ ∀ t, t ∈ o' ∪ r ↔ (t ∈ o ∪ r ∧ t ≠ TSock w p) ∨ t = TSock w p' ∨ P t.
Proof.
  intros Hd HI Hin Ho HP.
  assert (Hp : TSock w p ∉ r) by (intros ?; by apply (Hd (TSock w p))).
  assert (Hp' : TSock w p' ∉ r).
  { intros Hr. assert (p' = p) as ->; [|done]. apply (j_phase _ _ HI w); apply elem_of_union; auto. }
  split.
  - intros t [[Ht _]|[->|Ht]]%Ho Hr; [by apply (Hd t)|done|by apply (HP t)].
  - intros t. rewrite !elem_of_union, Ho. split.
    + intros [[[? ?]|[?|?]]|Hr]; auto. left. split; [auto|]. by intros ->.
    + intros [[[?|?] ?]|[?|?]]; auto.
Qed.

Definition sock (w : socket) (p : phase) : gset token := {[TSock w p]}.
Definition held (b : bool) (w : socket) (p : phase) : gset token := {[TSock w p; TG b w]}.

Lemma safe_quiet evs o (Q : gset token → unit → Prop) :
  forallb quiet_event evs = true → Q o tt → safe Inv Rest o (modify (emit evs) : prog unit) Q.
Proof. intros Hq HQ. apply safe_modify_frame; [|done]. intros. by apply Inv_quiet. Qed.

Lemma in_left (t : token) (o r : gset token) : t ∈ o → t ∈ o ∪ r.
Proof. intros ?. apply elem_of_union. by left. Qed.

(** The first critical section of [registerNewConnection]. *)
Lemma safe_try_register w (Q : gset token → registration → Prop) :
  Q (sock w PLive) Registered → (∀ why, why ≠ RejStillExists → Q (sock w PNew) (Refused why)) →
  (∀ old, Q (held true w (PEvict old false)) (Evict old)) →
  safe Inv Rest (sock w PNew) (atomic (λ s, Some (try_register w s)) : prog registration) Q.
Proof.
  intros HR HF HE. apply safe_atomic. intros s r s' x Hd HI Hf. unfold try_register in Hf.
  assert (Hin : TSock w PNew ∈ sock w PNew) by (by apply elem_of_singleton).
  destruct (stopped s); [simplify_eq; exists (sock w PNew); eauto|].
  case_decide as Hg; [simplify_eq; exists (sock w PNew); eauto|].
  destruct (connections s !! ID w) as [old|] eqn:Hc.
  - destruct (duplicatePolicy s); simplify_eq; [exists (sock w PNew); eauto|].
    destruct (swap_frame s _ (held true w (PEvict old false)) r w PNew (PEvict old false) (λ t, t = TG true w)
      Hd HI Hin) as [Hd' Ho'].
    + clear. unfold held, sock. set_solver.
    + intros t -> Ht. pose proof (gate_held _ _ true w HI ltac:(apply elem_of_union; by right)). lia.
    + exists (held true w (PEvict old false)). split; [done|]. split; [|done].
      eapply Inv_evict; eauto using in_left. lia.
  - simplify_eq. destruct (free_no_gate _ _ _ HI Hc ltac:(lia)) as [Hs Hne].
    destruct (swap_frame s _ (sock w PLive) r w PNew PLive (λ t, False) Hd HI Hin) as [Hd' Ho'];
      [clear; unfold sock; set_solver|tauto|].
    exists (sock w PLive). split; [done|]. split; [|done].
    eapply (Inv_register s); eauto using in_left. intros t. rewrite Ho'. tauto.
Qed.

Lemma safe_await w old (Q : gset token → bool → Prop) :
  Q (held true w (PEvict old true)) true → Q (held true w (PEvict old false)) false →
  safe Inv Rest (held true w (PEvict old false)) (await_teardown old) Q.
Proof.
  intros HT HF c s r s' x Hd HI Hf.
  assert (Hin : TSock w (PEvict old false) ∈ held true w (PEvict old false)) by (unfold held; set_solver).
  destruct c; [|simplify_eq; eauto]. case_decide as Hdn; [|done]. injection Hf as <- <-.
  destruct (swap_frame s _ (held true w (PEvict old true)) r w _ (PEvict old true) (λ t, False)
    Hd HI Hin) as [Hd' Ho'].
  - clear. unfold held. set_solver.
  - tauto.
  - exists (held true w (PEvict old true)). split; [done|]. split; [|done].
    apply (Inv_phase s _ _ w _ (PEvict old true) HI (in_left _ _ _ Hin)); [intros t; rewrite Ho'; tauto|done|].
    intros Hw. by pose proof (j_down _ _ HI w _ Hw (in_left _ _ r Hin)).
Qed.

(** A torn-down old socket has left its id free. *)
Lemma evicted_free s o w old : Inv s o → TSock w (PEvict old true) ∈ o →
  scan (ID w) (log s) = Some None.
Proof.
  intros HI Hin. destruct (j_evict _ _ HI _ _ _ Hin) as (Hid & _ & [?|Hold] & Hdn); [done|].
  destruct (j_scan _ _ HI (ID w)) as [?|(v & Hv & Ha)]; [done|].
  pose proof (j_active _ _ HI v Ha) as Hs. rewrite Hv, Hold in Hs. simplify_eq.
  destruct Ha as [Ha|Ha]; by pose proof (j_down _ _ HI v _ (Hdn eq_refl) Ha).
Qed.

(** The second critical section never finds the id taken. *)
Lemma safe_register_replacement w old (Q : gset token → registration → Prop) :
  Q (held true w PLive) Registered →
  Q (held true w (PEvict old true)) (Refused RejReplacementStopping) →
  safe Inv Rest (held true w (PEvict old true))
    (atomic (λ s, Some (register_replacement w s)) : prog registration) Q.
Proof.
  intros HR HF. apply safe_atomic. intros s r s' x Hd HI Hf. unfold register_replacement in Hf.
  assert (Hin : TSock w (PEvict old true) ∈ held true w (PEvict old true)) by (unfold held; set_solver).
  pose proof (in_left _ _ r Hin) as Hin'. pose proof (evicted_free _ _ _ _ HI Hin') as Hs.
  destruct (scan_conn _ _ _ HI Hs) as [Hc _]. rewrite Hc in Hf.
  destruct (stopped s); simplify_eq; [eauto|].
  destruct (swap_frame s _ (held true w PLive) r w _ PLive (λ t, False) Hd HI Hin) as [Hd' Ho'];
    [clear; unfold held; set_solver|tauto|].
  exists (held true w PLive). split; [done|]. split; [|done].
  eapply (Inv_register s); eauto.
  - intros v old' b Hne Hv Hid. by destruct (Hne (j_evict1 _ _ HI _ _ _ _ _ _ Hv Hin' Hid)).
  - intros t. rewrite Ho'. tauto.
Qed.

(** Releasing the gate, for an evictor that gives up, one that registered and
    a disconnect. *)
Lemma safe_release b w p p' (Q : gset token → unit → Prop) :
  match b, p with
  | true, PEvict _ _ => p' = PNew
  | true, PLive | false, PDown => p' = p
  | _, _ => False
  end → Q (sock w p') tt → safe Inv Rest (held b w p) (decrementGate (ID w)) Q.
Proof.
  intros Hp HQ. apply safe_modify. intros s r Hd HI.
  assert (Hin : TSock w p ∈ held b w p) by (unfold held; set_solver).
  assert (Hmid : ∃ o', (o' ## r) ∧ o' = held b w p' ∧ Inv s (o' ∪ r)).
  { destruct p as [|old c| | |]; try by destruct b.
    - destruct b; [|done]. subst p'.
      destruct (swap_frame s _ (held true w PNew) r w _ PNew (λ t, False) Hd HI Hin) as [Hd' Ho'];
        [clear; unfold held; set_solver|tauto|].
      exists (held true w PNew). split; [done|]. split; [done|].
      apply (Inv_phase s _ _ w _ PNew HI (in_left _ _ _ Hin)); [intros t; rewrite Ho'; tauto|done|].
      intros Hw. by pose proof (j_down _ _ HI w _ Hw (in_left _ _ r Hin)).
    - destruct b; [|done]. subst. eauto.
    - destruct b; [done|]. subst. eauto. }
  destruct Hmid as (o' & Hd' & -> & HI').
  assert (Hin' : TSock w p' ∈ held b w p' ∪ r) by (unfold held; set_solver).
  exists (sock w p'). split; [unfold held, sock in *; set_solver|]. split; [|done].
  eapply (Inv_release s _ _ b w HI').
  - unfold held. set_solver.
  - intros -> old c Hx. pose proof (j_phase _ _ HI' _ _ _ Hx Hin'). subst p'. by destruct p.
  - intros -> Hx. pose proof (j_phase _ _ HI' _ _ _ Hx Hin'). subst p'. by destruct p.
  - intros t. assert (TG b w ∉ r) by (unfold held in Hd'; clear -Hd'; set_solver).
    unfold held, sock. rewrite !elem_of_union, !elem_of_singleton. clear -H. naive_solver.
Qed.

Lemma safe_reject w why o (Q : gset token → unit → Prop) :
  why ≠ RejStillExists → Q o tt → safe Inv Rest o (rejectConnection w why) Q.
Proof. intros Hw HQ. apply safe_quiet; [|done]. by destruct why. Qed.

Lemma safe_registerNewConnection w (Q : gset token → bool → Prop) :
  Q (sock w PLive) true → Q (sock w PNew) false →
  safe Inv Rest (sock w PNew) (registerNewConnection w) Q.
Proof.
  intros HT HF. apply safe_bind, safe_try_register.
  - done.
  - intros why Hw. by apply safe_bind, safe_reject.
  - intros old. apply safe_bind, safe_quiet; [done|]. apply safe_bind, safe_await; apply safe_bind.
    + apply safe_bind, safe_register_replacement.
      * apply safe_bind. by eapply safe_release.
      * apply safe_bind, safe_reject; [done|]. apply safe_bind. by eapply safe_release.
    + apply safe_bind, safe_reject; [done|]. apply safe_bind. by eapply safe_release.
Qed.

Lemma safe_handleMessage w o (Q : gset token → unit → Prop) :
  Q o tt → safe Inv Rest o (handleMessage w) Q.
Proof. intros HQ. apply safe_bind, safe_read_frame. intros []; by apply safe_quiet. Qed.

Lemma safe_messages n w o (Q : gset token → unit → Prop) :
  Q o tt → safe Inv Rest o (messages n w) Q.
Proof. intros HQ. induction n as [|n IH]; [done|]. by apply safe_bind, safe_handleMessage. Qed.

(** The disconnect of a registered socket: it is the current one, and nobody
    takes its place before the disconnect is reported. *)
Lemma safe_handleDisconnect w (Q : gset token → unit → Prop) :
  Q (sock w PDown) tt → safe Inv Rest (sock w PLive) (handleDisconnect w) Q.
Proof.
  intros HQ. unfold handleDisconnect. apply safe_bind.
  assert (Hin : ∀ p, TSock w p ∈ sock w p) by (intros p; by apply elem_of_singleton).
  assert (Hin2 : ∀ p, TSock w p ∈ held false w p) by (intros p; unfold held; set_solver).
  apply safe_atomic. intros s r s' x Hd HI Hf.
  unfold remove_current, is_current in Hf.
  rewrite (j_live _ _ HI w (in_left _ _ _ (Hin _))), bool_decide_true in Hf by done. simplify_eq.
  destruct (swap_frame s _ (held false w PRem) r w PLive PRem (λ t, t = TG false w) Hd HI (Hin _)) as [Hd' Ho'].
  { clear. unfold held, sock. set_solver. }
  { intros t -> Ht. pose proof (in_left _ _ r (Hin PLive)) as Hl.
    destruct (j_fresh _ _ HI w ltac:(apply elem_of_union; by right)) as [Hv|Hv];
      by pose proof (j_phase _ _ HI _ _ _ Hv Hl). }
  exists (held false w PRem). split; [done|].
  split; [by apply (Inv_remove s _ _ w HI (in_left _ _ _ (Hin _)))|].
  clear s r Hd HI Hd' Ho'. apply safe_bind, safe_bind, safe_read. intros s r Hd HI.
  exists (held false w PRem). split; [done|]. split; [done|].
  destruct (j_rem _ _ HI w (in_left _ _ _ (Hin2 _))) as [-> _].
  rewrite bool_decide_false by (intros [? ?]; done).
  clear s r Hd HI. apply safe_modify. intros s r Hd HI.
  destruct (swap_frame s _ (held false w PDown) r w _ PDown (λ t, False) Hd HI (Hin2 _)) as [Hd' Ho'];
    [clear; unfold held; set_solver|tauto|].
  exists (held false w PDown). split; [done|]. split.
  { apply (Inv_closed s _ _ w HI (in_left _ _ _ (Hin2 _))). intros t. rewrite Ho'. tauto. }
  apply safe_bind. eapply safe_release; [done|].
  apply safe_modify. intros s' r' Hd2 HI2. exists (sock w PDown). split; [done|]. split; [|done].
  apply Inv_down; [done|]. apply in_left, Hin.
Qed.

Lemma Rest_sock w p : p = PNew ∨ p = PDown → Rest (sock w p).
Proof.
  intros Hp. split; [intros b v|intros v; split]; unfold sock; rewrite elem_of_singleton;
    intros [=]; subst; by destruct Hp.
Qed.

Lemma Rest_none : Rest ∅.
Proof. split; [intros b v|intros v; split]; apply not_elem_of_empty. Qed.

Lemma safe_connect w n : safe Inv Rest (sock w PNew) (connect w n) (λ o _, Rest o).
Proof.
  apply safe_bind, safe_registerNewConnection; [|apply Rest_sock; auto].
  exists ∅, (sock w PLive). split; [by rewrite union_empty_l_L|]. split; [set_solver|].
  split; [apply safe_messages, Rest_none|].
  exists (sock w PLive), ∅. split; [by rewrite union_empty_r_L|]. split; [set_solver|].
  split; [apply safe_handleDisconnect, Rest_sock; auto|]. apply safe_quiet; [done|]. apply Rest_none.
Qed.

Lemma safe_stopConnections : safe Inv Rest ∅ stopConnections (λ o _, Rest o).
Proof.
  apply safe_modify. intros s r Hd HI. exists ∅. split; [done|]. split; [|apply Rest_none].
  apply Inv_stopped, Inv_quiet; [|done]. apply forallb_forall. intros e He.
  apply in_map_iff in He as (v & <- & _). done.
Qed.

(** ** The system: one goroutine per incoming connection, and shutdowns *)

Inductive op := OpConnect (w : socket) (n : nat) | OpStop.

Definition op_thread (p : op) : thread server choice :=
  Run (match p with OpConnect w n => connect w n | OpStop => stopConnections end).

Definition system (policy : DuplicateConnectionPolicy) (ops : list op) : server * list (thread server choice) :=
  (NewServer policy, op_thread <$> ops).

(** Each upgraded connection is a new object. *)
Definition sockets (ops : list op) : list socket :=
  omap (λ p, match p with OpConnect w _ => Some w | OpStop => None end) ops.

Definition op_tokens (p : op) : gset token :=
  match p with OpConnect w _ => sock w PNew | OpStop => ∅ end.

Lemma op_thread_ok p : thread_ok Inv Rest (op_tokens p) (op_thread p).
Proof. destruct p; [apply safe_connect|apply safe_stopConnections]. Qed.

Lemma op_tokens_elem ops t : t ∈ ⋃ (op_tokens <$> ops) → ∃ w, t = TSock w PNew.
Proof.
  induction ops as [|[w n|] ops IH]; simpl; [set_solver| |].
  - intros [Ht|Ht]%elem_of_union; [|auto]. unfold sock in Ht. apply elem_of_singleton in Ht as ->. eauto.
  - rewrite union_empty_l_L. auto.
Qed.

Lemma Inv_init policy (o : gset token) : (∀ t, t ∈ o → ∃ w, t = TSock w PNew) → Inv (NewServer policy) o.
Proof.
  intros Ho. constructor; simpl; try done; unfold active;
    try (intros * Hx; destruct (Ho _ Hx); simplify_eq; fail).
  - intros * Hx Hy. destruct (Ho _ Hx), (Ho _ Hy). by simplify_eq.
  - intros w [Hx|Hx]; destruct (Ho _ Hx); simplify_eq.
  - intros id. by left.
  - exists ∅. split; [|done]. intros [b w]. split; [by intros ?%not_elem_of_empty|].
    simpl. intros Hx. destruct (Ho _ Hx). simplify_eq.
  - intros e He. by apply not_elem_of_nil in He.
Qed.

Lemma system_ok policy ops : NoDup (sockets ops) →
  pool_ok Inv Rest (op_tokens <$> ops) (NewServer policy) (op_thread <$> ops).
Proof.
  intros Hnd. split; [|split].
  - apply Forall2_fmap. apply Forall2_same_length_lookup_2; [done|]. intros i x y Hx Hy.
    rewrite Hx in Hy. injection Hy as <-. apply op_thread_ok.
  - intros i j oi oj Hne Hi Hj. apply list_lookup_fmap_Some in Hi as (p & -> & Hi).
    apply list_lookup_fmap_Some in Hj as (q & -> & Hj).
    destruct p as [w n|]; [|simpl; set_solver]. destruct q as [v m|]; [|simpl; set_solver].
    cbn [op_tokens]. unfold sock. intros t Ht1 Ht2. apply elem_of_singleton in Ht1 as ->.
    apply elem_of_singleton in Ht2 as [= ->]. apply Hne.
    clear Hne. revert i j Hi Hj. induction ops as [|p ops IH]; intros [|i] [|j] Hi Hj; simplify_eq/=.
    + done.
    + apply NoDup_cons in Hnd as [Hnin _]. destruct Hnin. apply list_elem_of_omap.
      exists (OpConnect v m). split; [by eapply list_elem_of_lookup_2|done].
    + apply NoDup_cons in Hnd as [Hnin _]. destruct Hnin. apply list_elem_of_omap.
      exists (OpConnect v n). split; [by eapply list_elem_of_lookup_2|done].
    + f_equal. apply IH; [|done..]. destruct p; simpl in Hnd; [by apply NoDup_cons in Hnd as [_ ?]|done].
  - apply Inv_init. apply op_tokens_elem.
Qed.

Module Demo.
Definition old : socket := ("cp1", 0).
Definition new : socket := ("cp1", 1).
Definition ops : list op := [OpConnect old 1; OpConnect new 0].
Definition steps (i n : nat) : list (nat * choice) := replicate n (i, Go).
(** [old] connects, [new] evicts it, both disconnect. *)
Definition takeover : list (nat * choice) :=
  steps 0 4 ++ steps 1 2 ++ steps 2 2 ++ steps 3 5 ++ steps 1 6.
Definition full : list (nat * choice) := takeover ++ steps 5 5.
Definition final : server :=
  match exec full (system KeepNew ops) with Some (s, _) => s | None => NewServer KeepNew end.
Lemma ops_nodup : NoDup (sockets ops).
Proof. apply (bool_decide_unpack _). vm_compute. exact I. Qed.
End Demo.

(** ** Theorems *)

(** C8: Under every schedule of any number of connecting, disconnecting and
    replaced sockets (pairwise distinct objects, under either duplicate policy
    and with shutdowns at any time), the registrations and the reported
    disconnects of each client id strictly alternate, every disconnect being
    that of the socket registered last; and the socket in [connections] is the
    one the log names. *)
Theorem ws_connect_disconnect_alternate policy ops sched s' ts' :
  NoDup (sockets ops) → exec sched (system policy ops) = Some (s', ts') →
  (∀ id, scan id (log s') ≠ None) ∧
  (∀ id w, connections s' !! id = Some w → ID w = id ∧ scan id (log s') = Some (Some w)).
Proof.
  intros Hnd Hex. destruct (exec_invariant Inv Rest _ _ _ _ _ _ (system_ok policy ops Hnd) Hex) as [o HI].
  split.
  - intros id. destruct (j_scan _ _ HI id) as [-> |(w & <- & Ha)]; [done|].
    by rewrite (j_active _ _ HI w Ha).
  - intros id w Hc. destruct (j_conn _ _ HI _ _ Hc) as [<- Hl]. split; [done|].
    apply (j_active _ _ HI). by left.
Qed.

Lemma ws_connect_disconnect_alternate_witness :
  ∃ s' ts', exec Demo.takeover (system KeepNew Demo.ops) = Some (s', ts') ∧
    connections s' !! "cp1" = Some Demo.new ∧ scan "cp1" (log s') = Some (Some Demo.new).
Proof.
  assert (Hc : match exec Demo.takeover (system KeepNew Demo.ops) with
               | Some (s, _) => connections s !! "cp1" | None => None end = Some Demo.new)
    by (vm_compute; reflexivity).
  destruct (exec Demo.takeover (system KeepNew Demo.ops)) as [[s' ts']|] eqn:E; [|discriminate Hc].
  exists s', ts'. split; [done|]. split; [done|].
  exact (proj2 (proj2 (ws_connect_disconnect_alternate KeepNew Demo.ops _ s' ts' Demo.ops_nodup E) _ _ Hc)).
Defined.

(** The defensive branches are unreachable: no disconnect is ever
    suppressed as stale or superseded, and no replacement finds its id still
    taken once the old socket's teardown was signalled. *)
Theorem ws_no_stale_teardown policy ops sched s' ts' e :
  NoDup (sockets ops) → exec sched (system policy ops) = Some (s', ts') →
  e ∈ log s' → stale_event e = false.
Proof.
  intros Hnd Hex He. destruct (exec_invariant Inv Rest _ _ _ _ _ _ (system_ok policy ops Hnd) Hex) as [o HI].
  by apply (j_stale _ _ HI).
Qed.

Lemma ws_no_stale_teardown_witness :
  ∃ s' ts', exec Demo.full (system KeepNew Demo.ops) = Some (s', ts') ∧
    EvClosed Demo.old ∈ log s' ∧ stale_event (EvClosed Demo.old) = false.
Proof.
  assert (Hc : match exec Demo.full (system KeepNew Demo.ops) with
               | Some (s, _) => bool_decide (EvClosed Demo.old ∈ log s) | None => false end = true)
    by (vm_compute; reflexivity).
  destruct (exec Demo.full (system KeepNew Demo.ops)) as [[s' ts']|] eqn:E; [|discriminate Hc].
  apply bool_decide_eq_true in Hc. exists s', ts'. split; [done|]. split; [done|].
  exact (ws_no_stale_teardown KeepNew Demo.ops _ s' ts' _ Demo.ops_nodup E Hc).
Defined.

(** No client id stays blocked: once every goroutine has ended, the
    transition gate is empty, no socket is registered and every registration
    of the log has had its disconnect. *)
Theorem ws_quiescent_gate_open policy ops sched s' ts' :
  NoDup (sockets ops) → exec sched (system policy ops) = Some (s', ts') →
  Forall (λ t, thread_quiet t = true) ts' →
  gate s' = ∅ ∧ connections s' = ∅ ∧ ∀ id, scan id (log s') = Some None.
Proof.
  intros Hnd Hex Hq.
  destruct (exec_quiet Inv Rest _ _ _ _ _ _ (system_ok policy ops Hnd) Hex Hq) as (os & HR & HI).
  assert (Hin : ∀ t, t ∈ ⋃ os → ∃ o : gset token, Rest o ∧ t ∈ o).
  { intros t Ht. apply elem_of_union_list in Ht as (o & Ho & Ht). exists o. split; [|done].
    by eapply Forall_forall in HR. }
  split; [|split].
  - apply map_empty. intros id. destruct (gate s' !! id) as [n|] eqn:Hg; [|done].
    pose proof (j_pos _ _ HI _ _ Hg) as Hpos. destruct (j_gate _ _ HI) as (G & HG & Hc).
    assert (G = ∅) as ->.
    { apply leibniz_equiv. intros x. split; [|by intros ?%not_elem_of_empty].
      intros Hx%HG. destruct (Hin _ Hx) as (o & [Hr _] & Hxo). by destruct (Hr x.1 x.2). }
    assert (Hz : count id ∅ = 0%Z) by reflexivity.
    specialize (Hc id). rewrite Hz in Hc. unfold gate_of in Hc. rewrite Hg in Hc. simpl in Hc. lia.
  - apply map_empty. intros id. destruct (connections s' !! id) as [w|] eqn:Hc; [|done].
    destruct (j_conn _ _ HI _ _ Hc) as [_ Hl]. destruct (Hin _ Hl) as (o & [_ Hr] & Hxo).
    by destruct (Hr w).
  - intros id. destruct (j_scan _ _ HI id) as [?|(w & _ & [Ha|Ha])]; [done| |];
      destruct (Hin _ Ha) as (o & [_ Hr] & Hxo); by destruct (Hr w).
Qed.

Lemma ws_quiescent_gate_open_witness :
  ∃ s' ts', exec Demo.full (system KeepNew Demo.ops) = Some (s', ts') ∧ gate s' = ∅ ∧ connections s' = ∅.
Proof.
  assert (Hc : match exec Demo.full (system KeepNew Demo.ops) with
               | Some (_, ts) => forallb thread_quiet ts | None => false end = true)
    by (vm_compute; reflexivity).
  destruct (exec Demo.full (system KeepNew Demo.ops)) as [[s' ts']|] eqn:E; [|discriminate Hc].
  exists s', ts'. split; [done|].
  assert (Hq : Forall (λ t, thread_quiet t = true) ts').
  { apply Forall_forall. intros t Ht%list_elem_of_In. by apply (proj1 (forallb_forall _ _) Hc). }
  destruct (ws_quiescent_gate_open KeepNew Demo.ops _ s' ts' Demo.ops_nodup E Hq) as (? & ? & _). done.
Defined.

(** Taking and releasing the gate. *)
Lemma gate_dec_inc_free s s' id :
  gate s !! id = None → gate s' = gate (gate_inc id s) → gate (gate_dec id s') = gate s.
Proof.
  intros Hg Hs'. assert (Hn : gate_of id s' = 1%Z).
  { unfold gate_of. rewrite Hs'. unfold gate_inc, gate_of. simpl. by rewrite lookup_insert_eq, Hg. }
  unfold gate_dec. cbn [set_gate gate]. rewrite Hn, decide_True, Hs' by lia.
  unfold gate_inc. cbn [set_gate gate]. rewrite delete_insert_eq. by apply delete_id.
Qed.

Lemma gate_dec_inc_held s s' id (n : Z) :
  gate s !! id = Some n → (0 < n)%Z → gate s' = gate (gate_inc id s) → gate (gate_dec id s') = gate s.
Proof.
  intros Hg Hp Hs'. assert (Hn : gate_of id s' = (n + 1)%Z).
  { unfold gate_of. rewrite Hs'. unfold gate_inc, gate_of. simpl. by rewrite lookup_insert_eq, Hg. }
  unfold gate_dec. cbn [set_gate gate]. rewrite Hn, decide_False, Hs' by lia.
  unfold gate_inc. cbn [set_gate gate]. rewrite insert_insert_eq. apply insert_id. rewrite Hg. f_equal. lia.
Qed.

(** What [registerNewConnection] does with a second socket for a connected
    id.  [KeepCurrent]: the newcomer is rejected and the registry is
    unchanged.  [KeepNew]: the old socket is closed; when its disconnect
    handler has run, the newcomer takes its place, the old disconnect having
    been reported before; if the eviction timer fires first the newcomer is
    rejected and the old socket stays.  In every case the gate is as before. *)
Theorem ws_duplicate_policy s w old :
  stopped s = false → gate s !! ID w = None → connections s !! ID w = Some old → ID old = ID w →
  match duplicatePolicy s with
  | KeepCurrent => run (registerNewConnection w) [Go; Go] s = Some (emit [EvRejected w RejDuplicate] s, false, [])
  | KeepNew =>
      (∃ s', exec [(0, Go); (0, Go); (1, Go); (1, Go); (1, Go); (1, Go); (1, Go); (0, Go); (0, Go); (0, Go)]
               (s, [Run (ok <- registerNewConnection w ;; Ret tt)%proc; Run (handleDisconnect old)])
             = Some (s', [Run (Ret tt); Run (Ret tt)]) ∧
             connections s' = <[ID w := w]> (connections s) ∧ gate s' = gate s ∧
             log s' = log s ++ [EvCloseSent old; EvClosed old; EvRegistered w]) ∧
      run (registerNewConnection w) [Go; Go; TimerFires; Go; Go] s =
        Some (emit [EvCloseSent old; EvRejected w RejEvictionTimeout] s, false, [])
  end.
Proof.
  intros Hst Hg Hc Hid.
  assert (Hg0 : gate_of (ID w) s = 0%Z) by (unfold gate_of; by rewrite Hg).
  destruct (duplicatePolicy s) eqn:Hp.
  - unfold registerNewConnection. erewrite run_atomic;
      [|unfold try_register; rewrite Hst, decide_False, Hc, Hp by lia; reflexivity]. done.
  - assert (Htry : try_register w s = (gate_inc (ID w) s, Evict old)).
    { unfold try_register. by rewrite Hst, decide_False, Hc, Hp by lia. }
    split.
    + set (s3 := set_conns (delete (ID w) (connections s))
                   (gate_inc (ID w) (emit [EvCloseSent old] (gate_inc (ID w) s)))).
      set (s7 := set_down old (gate_dec (ID w) (emit [EvClosed old] s3))).
      exists (gate_dec (ID w) (emit [EvRegistered w] (set_conns (<[ID w := w]> (connections s7)) s7))).
      split; [|split; [|split]].
      * erewrite exec_atom; [|reflexivity|simpl; rewrite Htry; reflexivity].
        erewrite exec_atom; [|reflexivity|reflexivity].
        erewrite (exec_atom 1 Go _ _ _ _ _ _ s3 true); [|reflexivity|].
        2:{ unfold remove_current, is_current. simpl. rewrite Hid, Hc, bool_decide_true by done. done. }
        erewrite exec_atom; [|reflexivity|reflexivity]. simpl (bool_decide _).
        rewrite (bool_decide_false (is_Some (connections s3 !! ID old)));
          [|simpl; rewrite Hid, lookup_delete_eq; by intros [? ?]].
        erewrite exec_atom; [|reflexivity|reflexivity].
        erewrite exec_atom; [|reflexivity|reflexivity].
        erewrite exec_atom; [|reflexivity|reflexivity]. rewrite Hid. fold s7.
        erewrite (exec_atom 0 Go _ s7 _ _ _ _ s7 true); [|reflexivity|].
        2:{ simpl. rewrite decide_True; [done|set_solver]. }
        erewrite exec_atom; [|reflexivity|].
        2:{ unfold register_replacement. simpl. rewrite Hst, lookup_delete_eq. reflexivity. }
        erewrite exec_atom; [|reflexivity|reflexivity]. done.
      * simpl. by rewrite insert_delete_eq.
      * rewrite gate_dec_inc_free with (s := s); [done|done|].
        change (gate (gate_dec (ID w) (emit [EvClosed old] s3)) = gate (gate_inc (ID w) s)).
        apply (gate_dec_inc_held (gate_inc (ID w) s) _ _ 1%Z); [|done|done].
        simpl. by rewrite lookup_insert_eq, Hg0.
      * simpl. by rewrite <-!app_assoc.
    + unfold registerNewConnection. erewrite run_atomic; [|by rewrite Htry].
      cbn -[gate_dec gate_inc]. do 3 f_equal.
      pose proof (gate_dec_inc_free s (emit [EvRejected w RejEvictionTimeout]
        (emit [EvCloseSent old] (gate_inc (ID w) s))) (ID w) Hg eq_refl) as Hgate.
      unfold gate_dec, set_gate, emit in *. simpl in *. by rewrite Hgate, <-app_assoc.
Qed.

Lemma ws_duplicate_policy_witness :
  run (registerNewConnection Demo.new) [Go; Go; TimerFires; Go; Go]
    (set_conns {["cp1" := Demo.old]} (NewServer KeepNew)) =
  Some (emit [EvCloseSent Demo.old; EvRejected Demo.new RejEvictionTimeout]
          (set_conns {["cp1" := Demo.old]} (NewServer KeepNew)), false, []).
Proof.
  exact (proj2 (ws_duplicate_policy (set_conns {["cp1" := Demo.old]} (NewServer KeepNew)) Demo.new Demo.old
    eq_refl eq_refl eq_refl eq_refl)).
Defined.

(** The announcement of a client is not ordered with its disconnect: a
    socket that breaks right after its pumps were started is reported closed
    before [newClientHandler] is called for it, and a second socket of the same
    id may be registered and announced in between, so that the last event a
    handler sees is the announcement of a dead socket. *)
Theorem ws_disconnect_before_announce :
  ∃ sched s' ts', exec sched (system KeepCurrent [OpConnect Demo.old 0; OpConnect Demo.new 0]) = Some (s', ts') ∧
    connections s' !! "cp1" = Some Demo.new ∧
    log s' = [EvRegistered Demo.old; EvClosed Demo.old; EvRegistered Demo.new;
              EvNewClient Demo.new; EvNewClient Demo.old].
Proof.
  exists (Demo.steps 0 3 ++ Demo.steps 3 5 ++ Demo.steps 1 4 ++ Demo.steps 0 1).
  assert (Hr : (exec (Demo.steps 0 3 ++ Demo.steps 3 5 ++ Demo.steps 1 4 ++ Demo.steps 0 1)
                  (system KeepCurrent [OpConnect Demo.old 0; OpConnect Demo.new 0])
                ≫= λ c, Some (connections c.1 !! "cp1", log c.1)) =
               Some (Some Demo.new, [EvRegistered Demo.old; EvClosed Demo.old; EvRegistered Demo.new;
                                     EvNewClient Demo.new; EvNewClient Demo.old]))
    by (vm_compute; reflexivity).
  destruct (exec _ _) as [[s' ts']|]; [|discriminate Hr].
  exists s', ts'. split; [done|]. injection Hr. auto.
Qed.

(** ** Admission *)

Definition acceptable (supported : list string) (p : string) : Prop := supported = [] ∨ p ∈ supported.

(** The negotiated protocol: the first acceptable one of the request. *)
Definition Negotiated (requested supported : list string) (p : string) : Prop :=
  ∃ pre post, requested = pre ++ p :: post ∧ acceptable supported p ∧
    Forall (λ q, ¬ acceptable supported q) pre.

Lemma negotiate_spec requested supported p :
  p ≠ "" → negotiate requested supported = p ↔ Negotiated requested supported p.
Proof.
  intros Hp. induction requested as [|q qs IH]; simpl.
  - split; [by intros <-|]. intros (pre & post & Heq & _). by destruct pre.
  - assert (Hneg : (acceptable supported q → Negotiated (q :: qs) supported p ↔ q = p) ∧
                   (¬ acceptable supported q → Negotiated (q :: qs) supported p ↔ Negotiated qs supported p)).
    { split; intros Hq; split.
      - intros ([|a pre] & post & Heq & Ha & Hf); simplify_eq/=; try done. by inversion_clear Hf.
      - intros <-. exists [], qs. auto.
      - intros ([|a pre] & post & Heq & Ha & Hf); simplify_eq/=; try done. inversion_clear Hf.
        exists pre, post. auto.
      - intros (pre & post & -> & Ha & Hf). exists (q :: pre), post. auto. }
    destruct Hneg as [H1 H2]. destruct supported as [|u us].
    + symmetry. apply H1. by left.
    + case_decide as Hq; [symmetry; apply H1; by right|]. rewrite IH. symmetry. apply H2.
      intros [?|?]; done.
Qed.

(** [wsHandler] accepts a connection exactly when the id resolves, the
    credentials pass the basic-auth handler (when one is set), the client
    passes the client check (when one is set), the upgrade succeeds and a
    protocol is negotiated, namely the first of the requested ones the server
    supports (any, when it lists none). *)
Theorem ws_admission id requested supported basicAuth credentials checkClient upgraded i p :
  wsHandler_admit id requested supported basicAuth credentials checkClient upgraded = AcceptedConnection i p ↔
  id = Some i ∧
  (∀ h, basicAuth = Some h → ∃ user pass, credentials = Some (user, pass) ∧ h user pass = true) ∧
  (∀ h, checkClient = Some h → h i = true) ∧
  upgraded = true ∧ p ≠ "" ∧ Negotiated requested supported p.
Proof.
  unfold wsHandler_admit. destruct id as [id|]; [|naive_solver].
  set (a := match basicAuth with None => true | Some h => _ end).
  assert (Ha : a = true ↔ ∀ h, basicAuth = Some h → ∃ user pass, credentials = Some (user, pass) ∧ h user pass = true).
  { subst a. destruct basicAuth as [h|]; [|naive_solver]. destruct credentials as [[u pw]|]; naive_solver. }
  set (c := match checkClient with None => true | Some h => h id end).
  assert (Hc : c = true ↔ ∀ h, checkClient = Some h → h id = true).
  { subst c. destruct checkClient; naive_solver. }
  rewrite <-Ha. clearbody a. destruct a; simpl; [|naive_solver].
  destruct c eqn:Ec; simpl; [|split; [done|]].
  2:{ intros ([= ->] & _ & Hh & _). apply Hc in Hh. congruence. }
  destruct upgraded; simpl; [|naive_solver].
  case_decide as Hn.
  - split; [done|]. intros (_ & _ & _ & _ & Hp & Hne). apply negotiate_spec in Hne; [|done]. congruence.
  - split.
    + intros [= <- <-]. split; [done|]. split; [done|]. split; [by apply Hc|]. split; [done|].
      split; [done|]. by apply negotiate_spec.
    + intros ([= ->] & _ & _ & _ & Hp & Hne). apply negotiate_spec in Hne; [|done]. congruence.
Qed.
