(* ===== verification/WsLife.v ===== *)
(** * Starting and stopping the websocket server (src/ws/server.go)

    The server around its registry ([WsServer]): [Start], [Stop], [Shutdown],
    [Write], [StopConnection] and the error channel.  The parts of [http.Server]
    the code uses are modelled by what their documentation says: after a call of
    its [Shutdown], [Serve] returns [ErrServerClosed], and the hooks registered so
    far are started in goroutines of their own that nobody waits for.

    The programs of [WsServer] run in the same pool, lifted to the larger state;
    reports of errors by other goroutines come at any time. *)

From S2P Require Import Prelude Conc Ocpp WsServer.
Local Open Scope string_scope.
Local Open Scope list_scope.

Record lserver := mkLserver {
  reg : server;                    (* connections, gate, stopped *)
  errC : list error;               (* buffer of capacity 1 *)
  errClosed : bool;
  closes : nat;                    (* how often errC was closed *)
  badSend : bool;                  (* a send on the closed channel *)
  addr : option string;
  inShutdown : bool;               (* http.Server *)
  hooks : nat;                     (* registered with RegisterOnShutdown *)
  written : list (socket * string)
}.

(** Choices: those of the registry, and success or failure of a call. *)
Inductive lchoice := Reg (c : choice) | Ok | Err (e : error).
Abbreviation lprog A := (proc lserver lchoice A).

Definition set_reg (s : server) (l : lserver) : lserver :=
  mkLserver s (errC l) (errClosed l) (closes l) (badSend l) (addr l) (inShutdown l) (hooks l) (written l).

Fixpoint lift {A : Type} (p : prog A) : lprog A :=
  match p with
  | Ret a => Ret a
  | Atom X f k => Atom X (λ c l, match c with
                                 | Reg c' => match f c' (reg l) with Some (s, x) => Some (set_reg s l, x) | None => None end
                                 | _ => None
                                 end) (λ x, lift (k x))
  | Fork q k => Fork (lift q) (lift k)
  end.

(** [NewServer] *)
Definition NewLserver (policy : DuplicateConnectionPolicy) : lserver :=
  mkLserver (NewServer policy) [] false 0 false None false 0 [].

(** ** Errors *)

(** A non-blocking send on [errC]. *)
Definition try_send (e : error) (l : lserver) : lserver :=
  match closes l with
  | 0 => if decide (length (errC l) < 1)%nat
         then mkLserver (reg l) (errC l ++ [e]) (errClosed l) (closes l) (badSend l) (addr l) (inShutdown l) (hooks l) (written l)
         else l
  | _ => mkLserver (reg l) (errC l) (errClosed l) (closes l) true (addr l) (inShutdown l) (hooks l) (written l)
  end.

(** [server.error], under the read lock. *)
Definition report (e : error) : lprog unit := modify (λ l, if errClosed l then l else try_send e l).

(** The end of [Shutdown], under the lock. *)
Definition close_errors (l : lserver) : lserver :=
  if errClosed l then l
  else mkLserver (reg l) (errC l) true (S (closes l)) (badSend l) (addr l) (inShutdown l) (hooks l) (written l).

(** A receive from [Errors()]. *)
Definition recv_error : lprog (option error) :=
  atomic (λ l, match errC l with
               | e :: q => Some (mkLserver (reg l) q (errClosed l) (closes l) (badSend l) (addr l) (inShutdown l) (hooks l) (written l), Some e)
               | [] => match closes l with 0 => None | _ => Some (l, None) end
               end).

(** ** Start and Shutdown *)

Definition set_addr (a : string) (l : lserver) : lserver :=
  mkLserver (reg l) (errC l) (errClosed l) (closes l) (badSend l) (Some a) (inShutdown l) (hooks l) (written l).
Definition RegisterOnShutdown (l : lserver) : lserver :=
  mkLserver (reg l) (errC l) (errClosed l) (closes l) (badSend l) (addr l) (inShutdown l) (S (hooks l)) (written l).

(** [net.Listen] *)
Definition listen : lprog (option error) :=
  choose (λ c l, match c with Ok => Some (l, None) | Err e => Some (l, Some e) | Reg _ => None end).

(** [httpServer.Serve]: serves until the server is shut down ([None]) or fails. *)
Definition serve : lprog (option error) :=
  choose (λ c l, if inShutdown l then Some (l, None)
                 else match c with Err e => Some (l, Some e) | _ => None end).

Definition Start (a : string) : lprog unit :=
  (modify (λ l, set_reg (Start_reset (reg l)) l) ;;
  failed <- listen ;;
  match failed with
  | Some e => report (Errorf "failed to listen: " (Some e))
  | None =>
      modify (set_addr a) ;;
      modify RegisterOnShutdown ;;
      err <- serve ;;
      match err with
      | None => Ret tt
      | Some e => report (Errorf "failed to listen: " (Some e))
      end
  end)%proc.

(** [httpServer.Shutdown] up to its wait: the hooks that run. *)
Definition begin_shutdown (l : lserver) : lserver :=
  mkLserver (reg l) (errC l) (errClosed l) (closes l) (badSend l) (addr l) true (hooks l) (written l).

Fixpoint run_hooks {A : Type} (n : nat) (k : lprog A) : lprog A :=
  match n with 0 => k | S n' => Fork (lift stopConnections) (run_hooks n' k) end.

(** It ends when the connections are idle ([None]), or with an error of the
    context or of a listener. *)
Definition await_idle : lprog (option error) :=
  choose (λ c l, match c with Ok => Some (l, None) | Err e => Some (l, Some e) | Reg _ => None end).

Definition Shutdown : lprog (option error) :=
  (n <- atomic (λ l, Some (begin_shutdown l, hooks l)) ;;
  run_hooks n
    (err <- await_idle ;;
     match err with
     | Some e => report (Errorf "shutdown failed: " (Some e))
     | None => Ret tt
     end ;;
     modify close_errors ;;
     Ret err))%proc.

Definition Stop : lprog unit := (Shutdown ;; Ret tt)%proc.

(** ** Single connections *)

(** [s.Write]: the socket is looked up, then written to. *)
Definition write_socket (w : socket) (data : string) : lprog (option error) :=
  choose (λ c l, match c with
                 | Ok => Some (mkLserver (reg l) (errC l) (errClosed l) (closes l) (badSend l) (addr l) (inShutdown l)
                                 (hooks l) (written l ++ [(w, data)]), None)
                 | Err e => Some (l, Some e)
                 | Reg _ => None
                 end).

Definition Write (id data : string) : lprog (option error) :=
  (w <- read (λ l, GetChannel id (reg l)) ;;
  match w with
  | None => Ret (Some (Errorf ("couldn't write to websocket. No socket with id " +:+ id +:+ " is open") None))
  | Some w => write_socket w data
  end)%proc.

Definition close_socket (w : socket) : lprog (option error) :=
  choose (λ c l, match c with
                 | Ok => Some (set_reg (emit [EvCloseSent w] (reg l)) l, None)
                 | Err e => Some (l, Some e)
                 | Reg _ => None
                 end).

Definition StopConnection (id : string) : lprog (option error) :=
  (w <- read (λ l, GetChannel id (reg l)) ;;
  match w with
  | None => Ret (Some (Errorf ("couldn't stop websocket connection. No connection with id " +:+ id +:+ " is open") None))
  | Some w => close_socket w
  end)%proc.

(** ** The system *)

Inductive lop :=
| OpStart (a : string) | OpShutdown | OpStop | OpWrite (id data : string) | OpStopConnection (id : string)
| OpConnect (w : socket) (n : nat) | OpReport (e : error) | OpRecv.

Definition lop_prog (op : lop) : lprog unit :=
  match op with
  | OpStart a => Start a
  | OpShutdown => (Shutdown ;; Ret tt)%proc
  | OpStop => Stop
  | OpWrite id data => (Write id data ;; Ret tt)%proc
  | OpStopConnection id => (StopConnection id ;; Ret tt)%proc
  | OpConnect w n => lift (connect w n)
  | OpReport e => report e
  | OpRecv => (recv_error ;; Ret tt)%proc
  end.

(** Each goroutine runs a list of operations. *)
Fixpoint client (ops : list lop) : lprog unit :=
  match ops with [] => Ret tt | op :: ops' => (lop_prog op ;; client ops')%proc end.

Definition life_system (policy : DuplicateConnectionPolicy) (clients : list (list lop)) : lserver * list (thread lserver lchoice) :=
  (NewLserver policy, map (λ ops, Run (client ops)) clients).
