(* ===== verification/WsLifeTheorems.v ===== *)
(** * Starting and stopping the websocket server: theorems

    - [ws_errors_channel_safe]: the error channel is closed at most once and never
      sent on afterwards, under every schedule.
    - [ws_shutdown_closes_all]: once the server has stopped its connections, every
      socket in the registry has been closed.
    - [ws_restart_ineffective]: a server that was shut down cannot be started
      again. *)

From S2P Require Import Prelude Conc Ocpp WsServer WsLife.
Local Open Scope string_scope.
Local Open Scope list_scope.

(** ** Lifting *)

Lemma keeps_lift {A : Type} (J : server → Prop) (p : prog A) :
  keeps J p → keeps (λ l, J (reg l)) (lift p).
Proof.
  induction p as [a|A X f k IH|A q IHq k IH]; cbn [keeps lift]; [done| |naive_solver].
  intros [Hf Hk]. split; [|auto]. intros [c| |] l l' x Hl Hx; try done.
  destruct (f c (reg l)) as [[s x']|] eqn:E; simplify_eq. cbn. eauto.
Qed.

(** A lifted program leaves the rest of the state as it is. *)
Lemma keeps_lift_frame {A : Type} (J : lserver → Prop) (p : prog A) :
  (∀ s l, J l → J (set_reg s l)) → keeps J (lift p).
Proof.
  intros HJ. induction p as [a|A X f k IH|A q IHq k IH]; cbn [keeps lift]; [done| |done].
  split; [|auto]. intros [c| |] l l' x Hl Hx; try done. destruct (f c (reg l)) as [[s x']|]; simplify_eq. auto.
Qed.

Section pool.
Context (I : lserver → Prop).

Lemma keeps_run_hooks {A : Type} n (k : lprog A) :
  keeps I (lift stopConnections) → keeps I k → keeps I (run_hooks n k).
Proof. intros Hs Hk. induction n; [done|by split]. Qed.

Lemma keeps_client ops : (∀ op, op ∈ ops → keeps I (lop_prog op)) → keeps I (client ops).
Proof.
  induction ops as [|op ops IH]; intros Hop; [done|].
  apply proc_keeps_bind; [apply Hop; left|intros _; apply IH; intros; apply Hop; by right].
Qed.

Lemma life_keeps policy clients sched l ts :
  I (NewLserver policy) → (∀ op, keeps I (lop_prog op)) →
  exec sched (life_system policy clients) = Some (l, ts) → I l.
Proof.
  intros HI Hop Hex. refine (proj1 (exec_keeps I sched _ _ _ _ HI _ Hex)).
  apply Forall_fmap, Forall_forall. intros ops _. by apply keeps_client.
Qed.
End pool.

(** The steps of the proofs below: one lemma per kind of action. *)
Ltac keep_actions :=
  repeat match goal with
  | |- keeps _ (bind _ _) => apply proc_keeps_bind; [|intros ?]
  | |- keeps _ (match ?x with _ => _ end) => destruct x
  | |- keeps _ (modify _) => apply keeps_modify; intros ??
  | |- keeps _ (read _) => apply keeps_read
  | |- keeps _ (atomic _) => apply keeps_atomic; intros ?????
  | |- keeps _ (choose _) => apply keeps_choose; intros ??????
  | |- keeps _ (run_hooks _ _) => apply keeps_run_hooks
  | |- keeps _ (Ret _) => exact Logic.I
  end.

(** ** The error channel *)

Record errors_ok (l : lserver) : Prop := {
  eo_closes : closes l = if errClosed l then 1 else 0;
  eo_bad : badSend l = false;
  eo_len : (length (errC l) <= 1)%nat
}.

Lemma errors_ok_send e l : errors_ok l → errors_ok (if errClosed l then l else try_send e l).
Proof.
  intros [Hc Hb Hl]. destruct (errClosed l) eqn:E; [by split; rewrite ?E|]. unfold try_send. rewrite Hc.
  case_decide; split; cbn; rewrite ?E; try done. rewrite length_app. cbn. lia.
Qed.

Lemma errors_ok_op op : keeps errors_ok (lop_prog op).
Proof.
  assert (Hreg : ∀ s l, errors_ok l → errors_ok (set_reg s l)) by (intros s l [???]; by split).
  assert (Hrep : ∀ e, keeps errors_ok (report e)) by (intros e; apply keeps_modify, errors_ok_send).
  assert (Hsh : keeps errors_ok Shutdown).
  { unfold Shutdown, await_idle. keep_actions; try apply Hrep; try by apply keeps_lift_frame.
    - simplify_eq. destruct H. by split.
    - by case_match; simplify_eq.
    - destruct H as [Hc Hb Hl]. unfold close_errors. destruct (errClosed s) eqn:E; split; cbn; rewrite ?E; try done.
      by rewrite Hc. }
  destruct op; cbn [lop_prog]; unfold Stop, Start, Write, StopConnection, listen, serve, write_socket, close_socket, recv_error;
    keep_actions; try done; try apply Hrep; try (by apply keeps_lift_frame); try (by apply Hreg);
    repeat case_match; simplify_eq; try done; try (by apply Hreg); destruct H; split; cbn in *; try done.
  match goal with H : errC _ = _, Hl : (length (errC _) <= 1)%nat |- _ => rewrite H in Hl; cbn in Hl; lia end.
Qed.

(** C29: whatever goroutines start, stop and use the server and report errors, and
    however they are interleaved, the error channel is closed at most once, exactly
    when [errClosed] is set, nothing is sent on it afterwards, and it never holds
    more than one error, so that no report blocks. *)
Theorem ws_errors_channel_safe policy clients sched l ts :
  exec sched (life_system policy clients) = Some (l, ts) →
  badSend l = false ∧ closes l = (if errClosed l then 1 else 0) ∧ (length (errC l) <= 1)%nat.
Proof.
  intros Hex. destruct (life_keeps errors_ok policy clients sched l ts) as [Hc Hb Hl]; [split; cbn; [done..|lia]|apply errors_ok_op|done..].
Qed.

(** ** Shutdown *)

(** A stopped registry holds only sockets that were closed. *)
Definition stop_ok (s : server) : Prop :=
  stopped s = true → ∀ id w, connections s !! id = Some w → EvCloseSent w ∈ log s.

Lemma stop_ok_emit evs s : stop_ok s → stop_ok (emit evs s).
Proof. intros Hs Hst id w Hw. cbn. apply elem_of_app. left. by eapply Hs. Qed.
Lemma stop_ok_gate g s : stop_ok s → stop_ok (set_gate g s).
Proof. done. Qed.

Lemma stop_ok_connect w n : keeps stop_ok (connect w n).
Proof.
  assert (Hreg : ∀ s w, stop_ok s → stopped s = false → stop_ok (emit [EvRegistered w] (set_conns (<[ID w:=w]> (connections s)) s))).
  { intros s w' _ Hst Hst'. cbn in Hst'. congruence. }
  assert (Hd : ∀ id, keeps stop_ok (decrementGate id)) by (intros id; by apply keeps_modify).
  assert (Hr : ∀ w r, keeps stop_ok (rejectConnection w r)) by (intros w' r; apply keeps_modify, stop_ok_emit).
  assert (Hm : keeps stop_ok (messages n w)).
  { induction n as [|n IH]; [done|]. apply proc_keeps_bind; [|done]. unfold handleMessage. apply proc_keeps_bind; [apply keeps_read|].
    intros []; apply keeps_modify, stop_ok_emit. }
  assert (Hh : keeps stop_ok (handleDisconnect w)).
  { unfold handleDisconnect. keep_actions; try apply Hd; try by apply stop_ok_emit.
    - unfold remove_current in *. destruct (is_current w s); simplify_eq; [|done].
      intros Hst id w' Hw'. cbn in *. apply lookup_delete_Some in Hw' as [_ Hw']. by eapply H.
    - done. }
  unfold connect, registerNewConnection, await_teardown. keep_actions; try apply Hd; try apply Hr; try by apply stop_ok_emit.
  - unfold try_register in *. simplify_eq. repeat case_match; simplify_eq; try done. by apply Hreg.
  - repeat case_match; by simplify_eq.
  - unfold register_replacement in *. repeat case_match; simplify_eq; try done. by apply Hreg.
  - split; [done|]. split; [done|]. apply keeps_modify. intros s. apply stop_ok_emit.
Qed.

Lemma stop_ok_op op : keeps (λ l, stop_ok (reg l)) (lop_prog op).
Proof.
  assert (Hrep : ∀ e, keeps (λ l, stop_ok (reg l)) (report e)).
  { intros e. apply keeps_modify. intros l Hl. unfold try_send. by repeat case_match. }
  assert (Hst : keeps (λ l, stop_ok (reg l)) (lift stopConnections)).
  { apply keeps_lift, keeps_modify. intros s _ _ id w Hw. cbn in *. apply elem_of_app. right.
    apply list_elem_of_fmap. exists w. split; [done|]. apply list_elem_of_fmap. exists (id, w). split; [done|].
    by apply elem_of_map_to_list. }
  destruct op; cbn [lop_prog]; try (apply keeps_lift, stop_ok_connect);
    unfold Stop, Shutdown, await_idle, Start, Write, StopConnection, listen, serve, write_socket, close_socket, recv_error;
    keep_actions; try done; try apply Hrep; repeat case_match; simplify_eq; try done;
    first [by unfold close_errors; case_match|by apply stop_ok_emit].
Qed.

(** C30: in every state in which the server has stopped its connections, each
    socket still in the registry has been closed: a connection that arrives during
    the shutdown is either closed or refused. *)
Theorem ws_shutdown_closes_all policy clients sched l ts id w :
  exec sched (life_system policy clients) = Some (l, ts) →
  stopped (reg l) = true → GetChannel id (reg l) = Some w → EvCloseSent w ∈ log (reg l).
Proof.
  intros Hex Hst Hw. by refine (life_keeps (λ l, stop_ok (reg l)) policy clients sched l ts _ stop_ok_op Hex Hst id w Hw).
Qed.

(** ** Restarting *)

(** once [Shutdown] has been called, a later [Start] neither serves nor reports
    an error, whatever happens in between: it empties the registry, clears the
    stopped flag and returns; the sockets that were still registered lose their
    disconnect notification. *)
Theorem ws_restart_ineffective l a w :
  inShutdown l = true → GetChannel (ID w) (reg l) = Some w →
  ∃ l', run (Start a) [Ok; Ok; Ok; Ok; Ok] l = Some (l', tt, []) ∧
    errC l' = errC l ∧ stopped (reg l') = false ∧ (∀ id, GetChannel id (reg l') = None) ∧
    ∃ l'', run (lift (handleDisconnect w)) [Reg Go; Reg Go; Reg Go; Reg Go] l' = Some (l'', tt, []) ∧
      log (reg l'') = log (reg l) ++ [EvStale w].
Proof.
  intros Hsh Hw. eexists. split; [cbn; rewrite Hsh; reflexivity|]. cbn. split_and!; [done..| |].
  - intros id. apply lookup_empty.
  - eexists. split; [|].
    + unfold remove_current, is_current. cbn. reflexivity.
    + cbn. done.
Qed.

(** ** A run

    A server is started, a client connects, the server is shut down. *)

Module LifeDemo.
Definition w : socket := ("cp1", 0).
Definition clients : list (list lop) := [[OpStart ":8887"]; [OpShutdown]; [OpConnect w 0]].
Definition sched : list (nat * lchoice) :=
  [(0, Ok); (0, Ok); (0, Ok); (0, Ok); (2, Reg Go); (1, Ok); (1, Ok); (3, Reg Go); (1, Ok); (1, Ok)].
End LifeDemo.

Lemma ws_errors_channel_safe_witness :
  ∃ l ts, exec LifeDemo.sched (life_system KeepCurrent LifeDemo.clients) = Some (l, ts) ∧ closes l = 1 ∧ badSend l = false.
Proof.
  assert (Hc : match exec LifeDemo.sched (life_system KeepCurrent LifeDemo.clients) with
               | Some (l, _) => bool_decide (closes l = 1) | None => false end = true) by (vm_compute; reflexivity).
  destruct (exec LifeDemo.sched (life_system KeepCurrent LifeDemo.clients)) as [[l ts]|] eqn:E; [|discriminate Hc].
  apply bool_decide_eq_true in Hc. exists l, ts. split; [done|]. split; [exact Hc|].
  exact (proj1 (ws_errors_channel_safe KeepCurrent LifeDemo.clients LifeDemo.sched l ts E)).
Defined.

Lemma ws_shutdown_closes_all_witness :
  ∃ l ts, exec LifeDemo.sched (life_system KeepCurrent LifeDemo.clients) = Some (l, ts) ∧
    EvCloseSent LifeDemo.w ∈ log (reg l).
Proof.
  assert (Hc : match exec LifeDemo.sched (life_system KeepCurrent LifeDemo.clients) with
               | Some (l, _) => stopped (reg l) && bool_decide (GetChannel "cp1" (reg l) = Some LifeDemo.w)
               | None => false end = true) by (vm_compute; reflexivity).
  destruct (exec LifeDemo.sched (life_system KeepCurrent LifeDemo.clients)) as [[l ts]|] eqn:E; [|discriminate Hc].
  apply andb_true_iff in Hc as [Hs Hw%bool_decide_eq_true]. exists l, ts. split; [done|].
  exact (ws_shutdown_closes_all KeepCurrent LifeDemo.clients LifeDemo.sched l ts "cp1" LifeDemo.w E Hs Hw).
Defined.

Definition stopped_server : lserver :=
  mkLserver (set_conns (<["cp1" := LifeDemo.w]> ∅) (NewServer KeepCurrent)) [] true 1 false None true 1 [].

Lemma ws_restart_ineffective_witness :
  ∃ l', run (Start ":8887") [Ok; Ok; Ok; Ok; Ok] stopped_server = Some (l', tt, []) ∧ errC l' = [] ∧
        GetChannel "cp1" (reg l') = None.
Proof.
  destruct (ws_restart_ineffective stopped_server ":8887" LifeDemo.w eq_refl eq_refl) as (l' & Hr & He & _ & Hg & _).
  exists l'. split; [exact Hr|]. split; [exact He|apply Hg].
Defined.
