(* ===== verification/Lifecycle.v ===== *)
(** * Generations of the client facades (src/ocpp1.6/charge_point.go, src/ocpp2.0.1/charging_station.go)

    [chargePoint] and [chargingStation] own one handler goroutine per
    generation: [Start] launches it, [StopCtx] closes the generation's stop
    channel and joins it.  Forwarding closures, timeouts and synchronous sends
    run on other goroutines.  As in [ClientDispatcher] an operation is a program
    of atomic actions, so every interleaving is an execution.  [Start] and
    [StopCtx] are called by one controlling goroutine, in any order.  The
    endpoint below and the user's callbacks are steps of the environment. *)

From S2P Require Import Prelude Conc Ocpp Errors Message CallbackQueue.
Local Open Scope string_scope.
Local Open Scope list_scope.

Section lifecycle.
(** Responses. *)
Context {Response : Type}.

(** [incomingMessage] *)
Inductive incomingMessage :=
| incomingResponse (confirmation : Response) (requestID : string)
| incomingError (err : error)
| incomingRequest (requestID action : string).

(** What a synchronous send returns. *)
Definition result : Type := option Response * option error.

Inductive event :=
| EvSpawn (g : nat)                          (* go asyncCallbackHandler *)
| EvTook (g : nat) (m : incomingMessage)     (* the handler takes a message *)
| EvRan (cb : nat) (r : result)              (* a callback gets a response or an error *)
| EvRequest (requestID action : string)      (* handleIncomingRequest *)
| EvExit (g : nat)                           (* the handler closes handlerDone *)
| EvStopped                                  (* StopCtx returns nil *)
| EvReturned (k : nat) (r : result)          (* the send of caller k returns *)
| EvClientStop | EvClientStart (ok : bool)   (* client.Stop, client.Start *)
| EvCloseOfClosed.                           (* a Go run-time panic *)

(** [chargePoint]: channels are known by the generation that made them, with
    the closed ones in [stopClosed] and [doneClosed]; generation 0 is the done
    channel the constructor closes.  [slots] are the callers' [asyncResponseC],
    callback [k] sends on slot [k].  [spawned] holds a handler goroutine between
    its launch and its first action. *)
Record state := mkState {
  incoming : option incomingMessage;   (* capacity 1 *)
  callbacks : CallbackQueue nat;
  slots : gmap nat result;             (* capacity 1 each *)
  stopC : option nat;
  stopClosed : gset nat;
  stopOnce : option bool;              (* nil, or whether it has fired *)
  handlerDone : nat;
  doneClosed : gset nat;
  gens : nat;                          (* generations made so far *)
  spawned : gset nat;
  errC : option (list error);          (* nil, or a buffer of capacity 1 *)
  log : list event
}.

Definition set_incoming (x : option incomingMessage) (s : state) : state :=
  mkState x (callbacks s) (slots s) (stopC s) (stopClosed s) (stopOnce s) (handlerDone s) (doneClosed s) (gens s)
    (spawned s) (errC s) (log s).
Definition set_callbacks (x : CallbackQueue nat) (s : state) : state :=
  mkState (incoming s) x (slots s) (stopC s) (stopClosed s) (stopOnce s) (handlerDone s) (doneClosed s) (gens s)
    (spawned s) (errC s) (log s).
Definition set_slots (x : gmap nat result) (s : state) : state :=
  mkState (incoming s) (callbacks s) x (stopC s) (stopClosed s) (stopOnce s) (handlerDone s) (doneClosed s) (gens s)
    (spawned s) (errC s) (log s).
Definition set_stopC (x : option nat) (s : state) : state :=
  mkState (incoming s) (callbacks s) (slots s) x (stopClosed s) (stopOnce s) (handlerDone s) (doneClosed s) (gens s)
    (spawned s) (errC s) (log s).
Definition set_stopClosed (x : gset nat) (s : state) : state :=
  mkState (incoming s) (callbacks s) (slots s) (stopC s) x (stopOnce s) (handlerDone s) (doneClosed s) (gens s)
    (spawned s) (errC s) (log s).
Definition set_stopOnce (x : option bool) (s : state) : state :=
  mkState (incoming s) (callbacks s) (slots s) (stopC s) (stopClosed s) x (handlerDone s) (doneClosed s) (gens s)
    (spawned s) (errC s) (log s).
Definition set_handlerDone (x : nat) (s : state) : state :=
  mkState (incoming s) (callbacks s) (slots s) (stopC s) (stopClosed s) (stopOnce s) x (doneClosed s) (gens s)
    (spawned s) (errC s) (log s).
Definition set_doneClosed (x : gset nat) (s : state) : state :=
  mkState (incoming s) (callbacks s) (slots s) (stopC s) (stopClosed s) (stopOnce s) (handlerDone s) x (gens s)
    (spawned s) (errC s) (log s).
Definition set_gens (x : nat) (s : state) : state :=
  mkState (incoming s) (callbacks s) (slots s) (stopC s) (stopClosed s) (stopOnce s) (handlerDone s) (doneClosed s) x
    (spawned s) (errC s) (log s).
Definition set_spawned (x : gset nat) (s : state) : state :=
  mkState (incoming s) (callbacks s) (slots s) (stopC s) (stopClosed s) (stopOnce s) (handlerDone s) (doneClosed s)
    (gens s) x (errC s) (log s).
Definition set_errC (x : option (list error)) (s : state) : state :=
  mkState (incoming s) (callbacks s) (slots s) (stopC s) (stopClosed s) (stopOnce s) (handlerDone s) (doneClosed s)
    (gens s) (spawned s) x (log s).
Definition emit (evs : list event) (s : state) : state :=
  mkState (incoming s) (callbacks s) (slots s) (stopC s) (stopClosed s) (stopOnce s) (handlerDone s) (doneClosed s)
    (gens s) (spawned s) (errC s) (log s ++ evs).

(** The facade as its constructor leaves it. *)
Definition new_facade : state := mkState None New ∅ None ∅ None 0 {[0]} 0 ∅ None [].

(** What the environment chooses. *)
Inductive choice :=
| ArmFirst | ArmStop | ArmCtx                (* the arm of a select *)
| Sent (r : string + error)                  (* what client.SendRequestCtx returns *)
| Started (ok : bool)                        (* the result of client.Start *)
| Reported (err : option error)              (* what a request handler reports on errC *)
| Go.

Abbreviation prog A := (proc state choice A).

Definition loadStopC : prog (option nat) := read stopC.
Definition storeStopC (c : nat) : prog unit := modify (set_stopC (Some c)).
Definition loadHandlerDone : prog nat := read handlerDone.
Definition storeHandlerDone (d : nat) : prog unit := modify (set_handlerDone d).

(** A receive from a stop channel; one from a nil channel never proceeds. *)
Definition is_stopped (c : option nat) (s : state) : bool :=
  match c with Some g => bool_decide (g ∈ stopClosed s) | None => false end.

(** [select { case incoming <- m: case <-loadStopC(): }], the forwarding closures
    of [NewChargePoint]. *)
Definition forward (m : incomingMessage) : prog unit :=
  (c <- loadStopC ;;
  choose (λ ch s, match ch with
                  | ArmFirst => match incoming s with None => Some (set_incoming (Some m) s, tt) | Some _ => None end
                  | ArmStop => if is_stopped c s then Some (s, tt) else None
                  | _ => None
                  end))%proc.

Definition onRequestTimeout (err : ocpp_error) : prog unit := forward (incomingError (OcppError err)).

(** A send on the error channel of capacity 1. *)
Definition errC_push (err : error) (s : state) : option state :=
  match errC s with Some [] => Some (set_errC (Some [err]) s) | _ => None end.

(** [error]: [made] is whether the channel existed when the field was copied. *)
Definition report_error (err : error) : prog unit :=
  (made <- read (λ s, bool_decide (is_Some (errC s))) ;;
  if negb made then Ret tt else
  c <- loadStopC ;;
  choose (λ ch s, match ch with
                  | ArmFirst => match errC_push err s with Some s' => Some (s', tt) | None => None end
                  | ArmStop => if is_stopped c s then Some (s, tt) else None
                  | _ => None
                  end))%proc.

Definition errorNonBlocking (err : error) : prog unit := modify (λ s, default s (errC_push err s)).

(** [Errors], and a receive by its caller. *)
Definition Errors : prog unit := modify (λ s, match errC s with None => set_errC (Some []) s | Some _ => s end).
Definition drain_error : prog unit :=
  atomic (λ s, match errC s with Some [_] => Some (set_errC (Some []) s, tt) | _ => None end).

(** *** Synchronous sends *)

(** A receive from the channel of caller [k]. *)
Definition take_slot (k : nat) (s : state) : option (state * result) :=
  match slots s !! k with Some r => Some (set_slots (delete k (slots s)) s, r) | None => None end.

(** [select { case ar := <-asyncResponseC: default: }] *)
Definition poll_slot (k : nat) : prog (option result) :=
  atomic (λ s, Some match take_slot k s with Some (s', r) => (s', Some r) | None => (s, None) end).

(** [awaitCtxResult] of caller [k]; [stopped] is the error of the stop arm,
    [ctxErr] the error of the caller's context, if it can fire. *)
Definition awaitCtxResult (k : nat) (c : option nat) (stopped : error) (ctxErr : option error) : prog result :=
  (ready <- poll_slot k ;;
  match ready with
  | Some r => Ret r
  | None =>
      sel <- choose (λ ch s, match ch with
                             | ArmFirst => match take_slot k s with Some (s', r) => Some (s', Some (inl r)) | None => None end
                             | ArmStop => if is_stopped c s then Some (s, None) else None
                             | ArmCtx => match ctxErr with Some e => Some (s, Some (inr e)) | None => None end
                             | _ => None
                             end) ;;
      match sel with
      | Some (inl r) => Ret r
      | Some (inr e) => Ret (None, Some (OcppError (NewRequestCanceledError "" (Some e))))
      | None =>
          again <- poll_slot k ;;
          Ret match again with Some r => r | None => (None, Some stopped) end
      end
  end)%proc.

(** [SendRequestCtx]: [TryQueue] holds the queue's lock while it sends; a feature
    without a profile is a send that fails before the queue is touched. *)
Definition SendRequestCtx (k : nat) (stopped : error) (ctxErr : option error) : prog unit :=
  (err <- choose (λ ch s, match ch with
                          | Sent r => let '(q, e) := TryQueue "main" r k (callbacks s) in Some (set_callbacks q s, e)
                          | _ => None
                          end) ;;
  res <- match err with
         | Some e => Ret (None, Some e)
         | None => c <- loadStopC ;; awaitCtxResult k c stopped ctxErr
         end ;;
  modify (emit [EvReturned k res]))%proc.

(** *** The handler *)

(** The callback of a synchronous send: a send on the caller's channel. *)
Definition run_callback (cb : nat) (r : result) : prog unit :=
  atomic (λ s, match slots s !! cb with
               | None => Some (emit [EvRan cb r] (set_slots (<[cb := r]> (slots s)) s), tt)
               | Some _ => None
               end).

Definition dequeue (requestID : string) : prog (option nat) :=
  atomic (λ s, let '(q, cb) := Dequeue "main" requestID (callbacks s) in Some (set_callbacks q s, cb)).

Definition handle (m : incomingMessage) : prog unit :=
  match m with
  | incomingResponse confirmation requestID =>
      (cb <- dequeue requestID ;;
      match cb with
      | Some cb => run_callback cb (Some confirmation, None)
      | None => report_error (Errorf "no handler available for incoming response" None)
      end)%proc
  | incomingError err =>
      let requestID := match err with OcppError o => MessageId o | _ => "" end in
      if decide (requestID = "") then report_error (Errorf "cannot route error with no message id" None) else
      (cb <- dequeue requestID ;;
      match cb with
      | Some cb => run_callback cb (None, Some err)
      | None => report_error (Errorf "no handler available for error" None)
      end)%proc
  | incomingRequest requestID action =>
      (modify (emit [EvRequest requestID action]) ;;
      rep <- choose (λ ch s, match ch with Reported e => Some (s, e) | _ => None end) ;;
      match rep with Some e => report_error e | None => Ret tt end)%proc
  end.

(** One iteration of [asyncCallbackHandler] of generation [g]; the goroutine
    waits for its launch first. *)
Definition clearCallbacks : prog unit := modify (λ s, set_callbacks (DrainAll "main" (callbacks s)).1 s).

Definition close_done (g : nat) : prog unit :=
  modify (λ s, emit (if decide (g ∈ doneClosed s) then [EvCloseOfClosed] else [EvExit g])
                 (set_doneClosed ({[g]} ∪ doneClosed s) s)).

Definition handler_body (g : nat) (running : bool) : prog (option bool) :=
  if running then
    (sel <- choose (λ ch s, match ch with
                            | ArmFirst => match incoming s with
                                          | Some m => Some (emit [EvTook g m] (set_incoming None s), Some m)
                                          | None => None
                                          end
                            | ArmStop => if is_stopped (Some g) s then Some (s, None) else None
                            | _ => None
                            end) ;;
    match sel with
    | Some m => handle m ;; Ret (Some true)
    | None => clearCallbacks ;; close_done g ;; Ret None
    end)%proc
  else
    atomic (λ s, if decide (g ∈ spawned s) then Some (set_spawned (spawned s ∖ {[g]}) s, Some true) else None).

Definition asyncCallbackHandler (g : nat) : thread state choice := start_loop (handler_body g) false.

(** *** Starting and stopping *)

Definition close_stop (c : nat) (s : state) : state :=
  if decide (c ∈ stopClosed s) then emit [EvCloseOfClosed] s else set_stopClosed ({[c]} ∪ stopClosed s) s.

Definition closeStopC : prog unit :=
  (once <- read stopOnce ;;
  match once with
  | None => Ret tt
  | Some _ =>
      c <- loadStopC ;;
      modify (λ s, match stopOnce s with
                   | Some false =>
                       let s' := set_stopOnce (Some true) s in
                       match c with Some c => close_stop c s' | None => s' end
                   | _ => s
                   end)
  end)%proc.

(** [joinHandler]: [ctxErr] is the error of a context that can end. *)
Definition joinHandler (ctxErr : option error) : prog (option error) :=
  (d <- loadHandlerDone ;;
  choose (λ ch s, match ch with
                  | ArmFirst => if decide (d ∈ doneClosed s) then Some (emit [EvStopped] s, None) else None
                  | ArmCtx => match ctxErr with Some e => Some (s, Some e) | None => None end
                  | _ => None
                  end))%proc.

Definition StopCtx (ctxErr : option error) : prog (option error) :=
  (closeStopC ;; modify (emit [EvClientStop]) ;; joinHandler ctxErr)%proc.

Definition retirePreviousGeneration : prog unit :=
  (once <- read stopOnce ;;
  match once with None => Ret tt | Some _ => StopCtx None ;; Ret tt end)%proc.

(** The channels of a new generation. *)
Definition new_generation : prog nat :=
  (g <- atomic (λ s, Some (set_gens (S (gens s)) s, S (gens s))) ;;
  storeStopC g ;;
  modify (set_stopOnce (Some false)) ;;
  Ret g)%proc.

Definition launch (g : nat) : prog unit :=
  (storeHandlerDone g ;; modify (λ s, emit [EvSpawn g] (set_spawned ({[g]} ∪ spawned s) s)))%proc.

(** [Start] returns whether the endpoint below started. *)
Definition Start : prog bool :=
  (retirePreviousGeneration ;;
  g <- new_generation ;;
  ok <- choose (λ ch s, match ch with Started b => Some (emit [EvClientStart b] s, b) | _ => None end) ;;
  if ok : bool then (launch g ;; Ret true) else Ret false)%proc.

(** [StartWithRetries] of the charging station does not fail. *)
Definition StartWithRetries : prog unit :=
  (retirePreviousGeneration ;;
  g <- new_generation ;;
  modify (emit [EvClientStart true]) ;;
  launch g)%proc.

(** The controlling goroutine, and the others. *)
Inductive command := CStart | CStartWithRetries | CStop (ctxErr : option error).

Definition run_command (c : command) : prog unit :=
  match c with
  | CStart => (Start ;; Ret tt)%proc
  | CStartWithRetries => StartWithRetries
  | CStop e => (StopCtx e ;; Ret tt)%proc
  end.

Fixpoint controller (l : list command) : prog unit :=
  match l with [] => Ret tt | c :: l' => (run_command c ;; controller l')%proc end.

Inductive op :=
| OpForward (m : incomingMessage) | OpTimeout (err : ocpp_error)
| OpSend (k : nat) (stopped : error) (ctxErr : option error)
| OpReport (err : error) | OpReportNow (err : error) | OpErrors | OpDrain.

Definition run_op (o : op) : prog unit :=
  match o with
  | OpForward m => forward m
  | OpTimeout e => onRequestTimeout e
  | OpSend k st e => SendRequestCtx k st e
  | OpReport e => report_error e
  | OpReportNow e => errorNonBlocking e
  | OpErrors => Errors
  | OpDrain => drain_error
  end.

(** The controller, a handler goroutine per generation its commands can make,
    and the other operations. *)
Definition system (cmds : list command) (ops : list op) : config (S:=state) (C:=choice) :=
  (new_facade, Run (controller cmds) :: (asyncCallbackHandler <$> seq 1 (length cmds)) ++ (Run ∘ run_op <$> ops)).
End lifecycle.
Arguments incomingMessage : clear implicits.
Arguments result : clear implicits.
Arguments event : clear implicits.
Arguments state : clear implicits.
Arguments op : clear implicits.

(** ** [chargingStation]

    src/ocpp2.0.1/charging_station.go has the same code for its generations, the
    text of the stop error apart, which is an argument of [awaitCtxResult]. *)

Module ChargingStation.
Section station.
Context {Response : Type}.
Abbreviation prog A := (proc (state Response) (@choice) A).
Definition loadStopC : prog (option nat) := loadStopC.
Definition storeStopC (c : nat) : prog unit := storeStopC c.
Definition loadHandlerDone : prog nat := loadHandlerDone.
Definition storeHandlerDone (d : nat) : prog unit := storeHandlerDone d.
Definition error (err : Ocpp.error) : prog unit := report_error err.
Definition errorNonBlocking (err : Ocpp.error) : prog unit := errorNonBlocking err.
Definition Errors : prog unit := Errors.
Definition onRequestTimeout (err : ocpp_error) : prog unit := onRequestTimeout err.
Definition stopped_error (featureName : string) : Ocpp.error :=
  Errorf ("charging station stopped while awaiting response to " +:+ featureName +:+ " request") None.
Definition SendRequestCtx (k : nat) (featureName : string) (ctxErr : option Ocpp.error) : prog unit :=
  SendRequestCtx k (stopped_error featureName) ctxErr.
Definition awaitCtxResult (k : nat) (featureName : string) (c : option nat) (ctxErr : option Ocpp.error)
    : prog (result Response) := awaitCtxResult k c (stopped_error featureName) ctxErr.
Definition asyncCallbackHandler (g : nat) : thread (state Response) choice := asyncCallbackHandler g.
Definition closeStopC : prog unit := closeStopC.
Definition joinHandler (ctxErr : option Ocpp.error) : prog (option Ocpp.error) := joinHandler ctxErr.
Definition retirePreviousGeneration : prog unit := retirePreviousGeneration.
Definition Start : prog bool := Start.
Definition StopCtx (ctxErr : option Ocpp.error) : prog (option Ocpp.error) := StopCtx ctxErr.
Definition Stop : prog unit := (StopCtx None ;; Ret tt)%proc.
End station.
End ChargingStation.
