(* ===== verification/LifecycleTheorems.v ===== *)
(** * One handler at a time (src/ocpp1.6/charge_point.go, src/ocpp2.0.1/charging_station.go)

    [trace_ok] checks a log against the contract of [Start] and [StopCtx]: a
    handler goroutine is launched only when none is alive, messages, callbacks and
    requests are handled only by the live one, [StopCtx] returns nil only when none
    is alive, and no channel is closed twice.  The invariant behind it is proved
    with the ownership logic of [Conc]: the controlling goroutine owns what only it
    writes, the handler owns its life. *)

From S2P Require Import Prelude Conc Ocpp Errors Message CallbackQueue Lifecycle.
Local Open Scope list_scope.

Section trace.
Context {Response : Type}.

(** The phase is the live generation, if any; [None] is a broken contract. *)
Definition trace_step (ph : option nat) (ev : event Response) : option (option nat) :=
  match ev with
  | EvSpawn g => if ph is None then Some (Some g) else None
  | EvTook g _ => if decide (ph = Some g) then Some ph else None
  | EvRan _ _ | EvRequest _ _ => if ph is Some _ then Some ph else None
  | EvExit g => if decide (ph = Some g) then Some None else None
  | EvStopped => if ph is None then Some ph else None
  | EvCloseOfClosed => None
  | EvReturned _ _ | EvClientStop | EvClientStart _ => Some ph
  end.

Fixpoint trace_from (ph : option nat) (l : list (event Response)) : option (option nat) :=
  match l with
  | [] => Some ph
  | ev :: l' => match trace_step ph ev with Some ph' => trace_from ph' l' | None => None end
  end.

Definition trace_ok (l : list (event Response)) : option (option nat) := trace_from None l.

Lemma trace_from_app ph l1 l2 :
  trace_from ph (l1 ++ l2) = match trace_from ph l1 with Some ph' => trace_from ph' l2 | None => None end.
Proof. revert ph. induction l1 as [|ev l1 IH]; intros ph; simpl; [done|]. destruct (trace_step ph ev); auto. Qed.

Lemma trace_ok_emit (s : state Response) ev ph ph' :
  trace_ok (log s) = Some ph → trace_step ph ev = Some ph' → trace_ok (log (emit [ev] s)) = Some ph'.
Proof. intros H1 H2. unfold trace_ok in *. simpl. rewrite trace_from_app, H1. simpl. by rewrite H2. Qed.

(** Handler activity. *)
Definition handler_event (ev : event Response) : bool :=
  match ev with EvTook _ _ | EvRan _ _ | EvRequest _ _ | EvExit _ => true | _ => false end.
Definition spawn_event (ev : event Response) : bool := if ev is EvSpawn _ then true else false.

(** Without a launch an idle trace stays idle. *)
Lemma trace_idle_quiet l ph :
  trace_from None l = Some ph → Forall (λ ev, spawn_event ev = false) l →
  Forall (λ ev, handler_event ev = false) l.
Proof.
  revert ph. induction l as [|ev l IH]; intros ph Ht Hs; [constructor|].
  inversion_clear Hs as [|?? He Hl]. simpl in Ht.
  destruct ev; simplify_eq/=; try (case_decide; simplify_eq/=); constructor; eauto.
Qed.
End trace.

(** ** The invariant *)

(** What the controlling goroutine knows: nothing about the handler, that none is
    alive, or also that the channels of generation [g] are fresh. *)
Inductive knows := Busy | Idle | Fresh (g : nat).
Record ctl := mkCtl { c_stopC : option nat; c_done : nat; c_made : bool; c_knows : knows }.

Inductive tok := TCtl (x : ctl) | THandler (g : nat).

#[export] Instance knows_eq_dec : EqDecision knows.
Proof. solve_decision. Defined.
#[export] Instance knows_countable : Countable knows.
Proof.
  refine (inj_countable' (λ k, match k with Busy => inl true | Idle => inl false | Fresh g => inr g end)
    (λ x, match x with inl true => Busy | inl false => Idle | inr g => Fresh g end) _).
  by intros [].
Defined.
#[export] Instance ctl_eq_dec : EqDecision ctl.
Proof. solve_decision. Defined.
#[export] Instance ctl_countable : Countable ctl.
Proof.
  refine (inj_countable' (λ x, (c_stopC x, c_done x, c_made x, c_knows x))
    (λ '(a, b, c, d), mkCtl a b c d) _).
  by intros [].
Defined.
#[export] Instance tok_eq_dec : EqDecision tok.
Proof. solve_decision. Defined.
#[export] Instance tok_countable : Countable tok.
Proof.
  refine (inj_countable' (λ t, match t with TCtl x => inl x | THandler g => inr g end)
    (λ x, match x with inl x => TCtl x | inr g => THandler g end) _).
  by intros [].
Defined.

Section invariant.
Context {Response : Type}.
Implicit Types (s : state Response) (o r : gset tok).

Definition knows_ok (k : knows) s (ph : option nat) : Prop :=
  match k with
  | Busy => True
  | Idle => ph = None
  | Fresh g => ph = None ∧ g ≤ gens s ∧ g ∉ stopClosed s ∧ g ∉ doneClosed s
  end.

Definition ctl_ok (x : ctl) s (ph : option nat) : Prop :=
  stopC s = c_stopC x ∧ handlerDone s = c_done x ∧ (c_made x = true → stopOnce s ≠ None) ∧ knows_ok (c_knows x) s ph.

Record inv_at s o (ph : option nat) : Prop := {
  inv_trace : trace_ok (log s) = Some ph;
  inv_live (g : nat) : ph = Some g → handlerDone s = g ∧ stopC s = Some g ∧ g ∉ doneClosed s ∧
    stopOnce s ≠ None;
  inv_bound (g : nat) : g ∈ stopClosed s ∪ doneClosed s → g ≤ gens s;
  inv_cur (g : nat) : stopC s = Some g → g ≤ gens s;
  inv_once (g : nat) : stopOnce s = Some false → stopC s = Some g → g ∉ stopClosed s;
  inv_spawned (g : nat) : g ∈ spawned s → ph = Some g;
  inv_handler (g : nat) : THandler g ∈ o → ph = Some g ∧ g ∉ spawned s;
  inv_ctl x : TCtl x ∈ o → ctl_ok x s ph;
  inv_ctl_one x y : TCtl x ∈ o → TCtl y ∈ o → x = y
}.

Definition inv s o : Prop := ∃ ph, inv_at s o ph.

(** What a step that does not concern generations may change. *)
Definition same_generation s s' : Prop :=
  stopC s' = stopC s ∧ stopClosed s' = stopClosed s ∧ stopOnce s' = stopOnce s ∧ handlerDone s' = handlerDone s ∧
  doneClosed s' = doneClosed s ∧ gens s' = gens s ∧ spawned s' = spawned s.

Lemma inv_frame s s' o ph :
  inv_at s o ph → same_generation s s' → trace_ok (log s') = Some ph → inv_at s' o ph.
Proof.
  intros [] (E1 & E2 & E3 & E4 & E5 & E6 & E7) Ht.
  split; unfold ctl_ok, knows_ok in *; rewrite ?E1, ?E2, ?E3, ?E4, ?E5, ?E6, ?E7; auto.
Qed.

Lemma gen_inv_quiet s s' o : inv s o → same_generation s s' → log s' = log s → inv s' o.
Proof. intros [ph Hi] Hs Hl. exists ph. eapply inv_frame; [done..|]. rewrite Hl. apply Hi. Qed.

Lemma inv_neutral s s' o ev :
  inv s o → same_generation s s' → log s' = log s ++ [ev] → (∀ ph, trace_step ph ev = Some ph) → inv s' o.
Proof.
  intros [ph Hi] Hs Hl Hn. exists ph. eapply inv_frame; [done..|].
  rewrite Hl. apply (trace_ok_emit s ev ph ph); [apply Hi|apply Hn].
Qed.

Lemma inv_mono s o o' : inv s o → o' ⊆ o → inv s o'.
Proof. intros [ph []] Hs. exists ph. split; auto. Qed.
End invariant.

Notation safe_l := (safe inv (λ _, True)).
Notation thread_l := (thread_ok inv (λ _, True)).

(** Closes the side conditions of the frame rules. *)
Ltac frame_step :=
  intros; go_case; first
    [ done
    | eapply gen_inv_quiet; [eassumption|by repeat split|done]
    | eapply inv_neutral; [eassumption|by repeat split|done|done] ].

Section threads.
Context {Response : Type}.
Implicit Types (s : state Response) (o r : gset tok).

Lemma handler_fresh o r s g : inv s (o ∪ r) → o ## r → g ∈ spawned s → THandler g ∉ o ∪ r.
Proof. intros [ph Hi] _ Hg Ht. by apply (inv_handler _ _ _ Hi) in Ht as [_ []]. Qed.

(** *** Operations that do not concern generations *)

Lemma safe_loadStopC o (Q : gset tok → option nat → Prop) :
  (∀ c, Q o c) → safe_l o (loadStopC (Response:=Response)) Q.
Proof. intros HQ. by apply safe_read_frame. Qed.

Lemma safe_forward o m (Q : gset tok → unit → Prop) : Q o tt → safe_l o (forward (Response:=Response) m) Q.
Proof.
  intros HQ. apply safe_bind, safe_loadStopC. intros c. apply safe_choose_frame; [|by intros []].
  frame_step.
Qed.

Lemma safe_report_error o e (Q : gset tok → unit → Prop) :
  Q o tt → safe_l o (report_error (Response:=Response) e) Q.
Proof.
  intros HQ. apply safe_bind, safe_read_frame. intros []; [|done]. cbn [negb].
  apply safe_bind, safe_loadStopC. intros c. apply safe_choose_frame; [|by intros []].
  unfold errC_push. frame_step.
Qed.

Lemma safe_poll_slot o k (Q : gset tok → option (result Response) → Prop) :
  (∀ x, Q o x) → safe_l o (poll_slot k) Q.
Proof. intros HQ. apply safe_atomic_frame; [|done]. unfold take_slot. frame_step. Qed.

Lemma safe_awaitCtxResult o k c st e (Q : gset tok → result Response → Prop) :
  (∀ x, Q o x) → safe_l o (awaitCtxResult k c st e) Q.
Proof.
  intros HQ. apply safe_bind, safe_poll_slot. intros [x|]; [apply HQ|].
  apply safe_bind, safe_choose_frame; [unfold take_slot; frame_step|].
  intros [[x|x]|]; [apply HQ..|]. apply safe_bind, safe_poll_slot. intros x. apply HQ.
Qed.

Lemma safe_run_op (p : op Response) o : safe_l o (run_op p) (λ _ _, True).
Proof.
  destruct p as [m|e|k st e|e|e| |]; cbn [run_op].
  - by apply safe_forward.
  - by apply safe_forward.
  - apply safe_bind, safe_choose_frame; [frame_step|]. intros [e'|].
    + by apply safe_modify_frame; [frame_step|].
    + apply safe_bind, safe_bind, safe_loadStopC. intros c. apply safe_awaitCtxResult. intros x.
      by apply safe_modify_frame; [frame_step|].
  - by apply safe_report_error.
  - apply safe_modify_frame; [unfold errC_push; frame_step|done].
  - apply safe_modify_frame; [frame_step|done].
  - apply safe_atomic_frame; [frame_step|done].
Qed.

(** *** The handler goroutine *)

(** Events only a live handler may emit. *)
Lemma safe_handler_emit g s s' r ev :
  inv s ({[THandler g]} ∪ r) → same_generation s s' → log s' = log s ++ [ev] →
  trace_step (Some g) ev = Some (Some g) → inv s' ({[THandler g]} ∪ r).
Proof.
  intros [ph Hi] Hs Hl Hev. exists ph. eapply inv_frame; [done..|]. rewrite Hl.
  assert (ph = Some g) as -> by (apply (inv_handler _ _ _ Hi g); set_solver).
  eapply (trace_ok_emit s); [apply Hi|done].
Qed.

Lemma safe_run_callback g cb res (Q : gset tok → unit → Prop) :
  Q {[THandler g]} tt → safe_l {[THandler g]} (run_callback (Response:=Response) cb res) Q.
Proof.
  intros HQ. apply safe_atomic. intros s r s' [] Hd Hi Hf. case_match; simplify_eq.
  eexists; split; [done|]. split; [|done]. by eapply safe_handler_emit; [done|repeat split|done|].
Qed.

Lemma safe_handle g m (Q : gset tok → unit → Prop) :
  Q {[THandler g]} tt → safe_l {[THandler g]} (handle (Response:=Response) m) Q.
Proof.
  intros HQ. destruct m as [conf id|err|id act]; cbn [handle].
  - apply safe_bind, safe_atomic_frame; [frame_step|].
    intros [cb|]; [by apply safe_run_callback|by apply safe_report_error].
  - case_decide; [by apply safe_report_error|]. apply safe_bind, safe_atomic_frame; [frame_step|].
    intros [cb|]; [by apply safe_run_callback|by apply safe_report_error].
  - apply safe_bind, safe_modify. intros s r Hd Hi. eexists; split; [done|].
    split; [by eapply safe_handler_emit; [done|repeat split|done|]|].
    apply safe_bind, safe_choose_frame; [frame_step|]. intros [e|]; [by apply safe_report_error|done].
Qed.

Lemma safe_close_done g (Q : gset tok → unit → Prop) :
  Q ∅ tt → safe_l {[THandler g]} (close_done (Response:=Response) g) Q.
Proof.
  intros HQ. apply safe_modify. intros s r Hd [ph Hi]. exists ∅. split; [set_solver|]. split; [|done].
  pose proof Hi as [Ht Hl Hb Hcur Ho Hsp Hh Hc Hone].
  destruct (Hh g) as [-> Hns]; [set_solver|]. destruct (Hl g eq_refl) as (Hhd & HsC & Hnd & Hso).
  rewrite decide_False by done. exists None. split; simpl.
  - apply (trace_ok_emit s (EvExit g) (Some g)); [done|]. simpl. by rewrite decide_True.
  - done.
  - intros d Hd'. destruct (decide (d = g)) as [->|]; [auto|apply Hb; set_solver].
  - auto.
  - auto.
  - intros g' Hg'. apply Hsp in Hg' as Heq. by simplify_eq.
  - intros g' Hg'. destruct (Hh g') as [? _]; [set_solver|]. simplify_eq. set_solver.
  - intros x Hx. destruct (Hc x) as (? & ? & ? & Hk); [set_solver|].
    split_and!; [done..|]. by destruct (c_knows x); simplify_eq/=; destruct_and?.
  - intros x y Hx Hy. apply Hone; set_solver.
Qed.

Lemma handler_ok g : thread_l ∅ (asyncCallbackHandler (Response:=Response) g).
Proof.
  exists (λ (run : bool) o, o = if run then {[THandler g]} else ∅).
  assert (Hb : ∀ run o, o = (if run : bool then {[THandler g]} else ∅) →
    safe_l o (handler_body (Response:=Response) g run)
      (loop_post (λ _, True) (λ (run : bool) o, o = if run then {[THandler g]} else ∅))).
  { intros [] o ->; cbn [handler_body].
    - apply safe_bind, safe_choose. intros c s r s' x Hd Hi Hf.
      exists {[THandler g]}. split; [done|]. destruct c; simplify_eq.
      + destruct (incoming s) as [m|]; simplify_eq. split.
        * eapply safe_handler_emit; [done|repeat split|done|]. simpl. by rewrite decide_True.
        * apply safe_bind, safe_handle. done.
      + case_match; simplify_eq. split; [done|].
        apply safe_bind, safe_modify_frame; [frame_step|].
        by apply safe_bind, safe_close_done.
    - apply safe_atomic. intros s r s' x Hd [ph Hi] Hf. case_decide as Hg; simplify_eq.
      exists {[THandler g]}. pose proof Hi as [Ht Hl Hbd Hcur Ho Hsp Hh Hc Hone].
      assert (THandler g ∉ r) by (intros Hr; by destruct (Hh g) as [_ []]; [set_solver|]).
      split; [set_solver|]. split; [|done]. exists ph. split; simpl; auto.
      + intros g' Hg'. apply Hsp. set_solver.
      + intros g' Hg'. destruct (decide (g' = g)) as [->|]; [split; [by apply Hsp|set_solver]|].
        destruct (Hh g') as [? ?]; [set_solver|]. split; [done|set_solver].
      + intros x Hx. apply Hc. set_solver.
      + intros x y Hx Hy. apply Hone; set_solver. }
  split; [intros run o HJ; split; [done|by apply Hb]|by apply (Hb false)].
Qed.
(** *** The controlling goroutine *)

Definition learn (k : knows) (x : ctl) : ctl := mkCtl (c_stopC x) (c_done x) (c_made x) k.

Lemma ctl_alone x s r ph : {[TCtl x]} ## r → inv_at s ({[TCtl x]} ∪ r) ph → ∀ y, TCtl y ∉ r.
Proof.
  intros Hd Hi y Hy. assert (y = x) as -> by (apply (inv_ctl_one _ _ _ Hi); set_solver). set_solver.
Qed.

(** The state part of the invariant is enough once the controller's knowledge is
    known to be right. *)
Lemma ctl_install y s r ph :
  (∀ z, TCtl z ∉ r) → inv_at s r ph → ctl_ok y s ph → {[TCtl y]} ## r ∧ inv_at s ({[TCtl y]} ∪ r) ph.
Proof.
  intros Ha [] Hy. split; [set_solver|]. split; auto.
  - set_solver.
  - intros z Hz. by assert (z = y) as -> by set_solver.
  - set_solver.
Qed.

Lemma ctl_remove x s r ph : inv_at s ({[TCtl x]} ∪ r) ph → inv_at s r ph.
Proof. intros []. split; auto; set_solver. Qed.

(** One action of the controller: from its knowledge [x] to [y]. *)
Lemma ctl_step x y s s' r (Q : gset tok → Prop) :
  {[TCtl x]} ## r → inv s ({[TCtl x]} ∪ r) →
  (∀ ph, inv_at s r ph → ctl_ok x s ph → (∀ z, TCtl z ∉ r) → ∃ ph', inv_at s' r ph' ∧ ctl_ok y s' ph') →
  Q {[TCtl y]} → ∃ o', o' ## r ∧ inv s' (o' ∪ r) ∧ Q o'.
Proof.
  intros Hd [ph Hi] Hstep HQ. pose proof (ctl_alone _ _ _ _ Hd Hi) as Ha.
  destruct (Hstep ph) as (ph' & Hi' & Hy); [by eapply ctl_remove|apply (inv_ctl _ _ _ Hi); set_solver|done|].
  destruct (ctl_install y s' r ph') as [Hdy Hiy]; [done..|]. exists {[TCtl y]}. split; [done|]. by split; [exists ph'|].
Qed.

(** It knows the fields it alone writes. *)
Lemma safe_loadStopC_ctl x (Q : gset tok → option nat → Prop) :
  Q {[TCtl x]} (c_stopC x) → safe_l {[TCtl x]} (loadStopC (Response:=Response)) Q.
Proof.
  intros HQ. apply safe_read. intros s r Hd Hi. pose proof Hi as [ph Hi'].
  destruct (inv_ctl _ _ _ Hi' x) as (-> & _); [set_solver|]. eauto.
Qed.

(** The stop channel of the current generation is closed once. *)
Lemma inv_fire s r ph c :
  inv_at s r ph → stopOnce s = Some false → stopC s = c → (∀ z, TCtl z ∉ r) →
  inv_at (let s' := set_stopOnce (Some true) s in match c with Some c => close_stop c s' | None => s' end) r ph.
Proof.
  intros [Ht Hl Hb Hcur Ho Hsp Hh Hc Hone] Hf HsC Ha. destruct c as [c|]; simpl.
  - unfold close_stop; simpl. rewrite decide_False by eauto. split; simpl; try done; eauto.
    + intros g Hg. by destruct (Hl g Hg) as (? & ? & ? & ?).
    + intros g Hg. destruct (decide (g = c)) as [->|]; [by apply Hcur|apply Hb; set_solver].
    + intros z Hz. by destruct (Ha z).
  - split; simpl; try done; eauto.
    + intros g Hg. by destruct (Hl g Hg) as (? & ? & ? & ?).
    + intros z Hz. by destruct (Ha z).
Qed.

Lemma safe_closeStopC x (Q : gset tok → unit → Prop) :
  Q {[TCtl x]} tt → Q {[TCtl (learn Busy x)]} tt → safe_l {[TCtl x]} (closeStopC (Response:=Response)) Q.
Proof.
  intros HQx HQ.
  apply safe_bind, safe_read_frame. intros [b|]; [|done].
  apply safe_bind, safe_loadStopC_ctl, safe_modify. intros s r Hd Hi.
  apply (ctl_step x (learn Busy x) s _ r (λ o, Q o tt)); [done..| |done].
  intros ph Hr (Hs & Hhd & Hm & _) Ha. exists ph.
  assert (Hy : ctl_ok (learn Busy x) s ph) by (by split_and!).
  destruct (stopOnce s) as [[]|] eqn:Honce; [done| |done].
  split; [by apply inv_fire|]. split_and!; simpl; try done; by case_match; unfold close_stop; try case_decide.
Qed.

(** Without the controller, the state part of the invariant does not mention it. *)
Lemma inv_no_ctl s r ph :
  trace_ok (log s) = Some ph →
  (∀ g, ph = Some g → handlerDone s = g ∧ stopC s = Some g ∧ g ∉ doneClosed s ∧ stopOnce s ≠ None) →
  (∀ g, g ∈ stopClosed s ∪ doneClosed s → g ≤ gens s) → (∀ g, stopC s = Some g → g ≤ gens s) →
  (∀ g, stopOnce s = Some false → stopC s = Some g → g ∉ stopClosed s) → (∀ g, g ∈ spawned s → ph = Some g) →
  (∀ g, THandler g ∈ r → ph = Some g ∧ g ∉ spawned s) → (∀ z, TCtl z ∉ r) → inv_at s r ph.
Proof. intros ??????? Ha. split; try done; intros x **; by destruct (Ha x). Qed.

Lemma safe_joinHandler x e (Q : gset tok → option error → Prop) :
  Q {[TCtl (learn Idle x)]} None → (∀ err, e = Some err → Q {[TCtl x]} (Some err)) →
  safe_l {[TCtl x]} (joinHandler (Response:=Response) e) Q.
Proof.
  intros HQ HQe. apply safe_bind, safe_read. intros s r Hd Hi. exists {[TCtl x]}. split; [done|]. split; [done|].
  assert (handlerDone s = c_done x) as ->.
  { destruct Hi as [ph Hi]. destruct (inv_ctl _ _ _ Hi x) as (_ & ? & _); [set_solver|done]. }
  clear dependent s r. apply safe_choose. intros c s r s' y Hd Hi Hf. destruct c; try done.
  - case_decide as Hdone; simplify_eq.
    apply (ctl_step x (learn Idle x) s _ r (λ o, Q o None)); [done..| |done].
    intros ph Hr (Hs & Hhd & Hm & _) Ha. exists None.
    assert (ph = None) as ->.
    { destruct ph as [g|]; [|done]. destruct (inv_live _ _ _ Hr g eq_refl) as (? & _ & ? & _). congruence. }
    split; [|done]. eapply inv_frame; [done|by repeat split|]. by eapply trace_ok_emit; [apply Hr|].
  - destruct e as [err|]; simplify_eq. exists {[TCtl x]}. auto.
Qed.

Lemma safe_StopCtx x e (Q : gset tok → option error → Prop) :
  (∀ y, c_knows y = Idle → Q {[TCtl y]} None) → (∀ y err, e = Some err → Q {[TCtl y]} (Some err)) →
  safe_l {[TCtl x]} (StopCtx (Response:=Response) e) Q.
Proof.
  intros HQ HQe.
  assert (Hrest : ∀ y, safe_l {[TCtl y]} (bind (modify (emit [EvClientStop])) (λ _, joinHandler (Response:=Response) e)) Q).
  { intros y. apply safe_bind, safe_modify_frame; [frame_step|]. apply safe_joinHandler; auto. }
  by apply safe_bind, safe_closeStopC.
Qed.

Lemma safe_retire x (Q : gset tok → unit → Prop) :
  (∀ y, c_knows y = Idle → Q {[TCtl y]} tt) → safe_l {[TCtl x]} (retirePreviousGeneration (Response:=Response)) Q.
Proof.
  intros HQ. apply safe_bind, safe_read. intros s r Hd Hi.
  destruct (stopOnce s) as [b|] eqn:Honce.
  - exists {[TCtl x]}. split; [done|]. split; [done|]. apply safe_bind, safe_StopCtx; [apply HQ|done].
  - apply (ctl_step x (learn Idle x) s s r (λ o, Q o tt)); [done..| |by apply HQ].
    intros ph Hr (Hs & Hhd & Hm & _) Ha. exists ph. split; [done|]. split_and!; try done.
    destruct ph as [g|]; [|done]. by destruct (inv_live _ _ _ Hr g eq_refl) as (_ & _ & _ & []).
Qed.

Definition ready (g : nat) (x : ctl) : Prop := c_knows x = Fresh g ∧ c_stopC x = Some g ∧ c_made x = true.

Lemma safe_new_generation x (Q : gset tok → nat → Prop) :
  c_knows x = Idle → (∀ g y, ready g y → Q {[TCtl y]} g) → safe_l {[TCtl x]} (new_generation (Response:=Response)) Q.
Proof.
  intros Hx HQ. apply safe_bind, safe_atomic. intros s r s' g Hd Hi Hf. simplify_eq.
  apply (ctl_step x (learn (Fresh (S (gens s))) x) s _ r (λ o, safe_l o _ Q)); [done..| |].
  { intros ph Hr (Hs & Hhd & Hm & Hk) Ha. rewrite Hx in Hk. simpl in Hk. subst ph. exists None.
    pose proof Hr as [Ht Hl Hb Hcur Ho Hsp Hh Hc Hone].
    assert (∀ g, g ∈ stopClosed s ∪ doneClosed s → g ≠ S (gens s)) by (intros g Hg ->; apply Hb in Hg; lia).
    split; [apply inv_no_ctl; simpl; auto|split_and!; simpl; auto; set_solver]. }
  generalize (S (gens s)) as g. clear dependent s r. intros g.
  apply safe_bind, safe_modify. intros s r Hd Hi.
  apply (ctl_step (learn (Fresh g) x) (mkCtl (Some g) (c_done x) (c_made x) (Fresh g)) s _ r (λ o, safe_l o _ Q)); [done..| |].
  { intros ph Hr (Hs & Hhd & Hm & Hk) Ha. simpl in *. destruct Hk as (-> & ? & ? & ?). exists None.
    pose proof Hr as [Ht Hl Hb Hcur Ho Hsp Hh Hc Hone].
    split; [apply inv_no_ctl; simpl; auto; congruence|by split_and!]. }
  clear dependent s r. apply safe_bind, safe_modify. intros s r Hd Hi.
  apply (ctl_step (mkCtl (Some g) (c_done x) (c_made x) (Fresh g)) (mkCtl (Some g) (c_done x) true (Fresh g)) s _ r (λ o, safe_l o _ Q)); [done..| |by apply HQ].
  intros ph Hr (Hs & Hhd & Hm & Hk) Ha. simpl in *. destruct Hk as (-> & ? & ? & ?). exists None.
  pose proof Hr as [Ht Hl Hb Hcur Ho Hsp Hh Hc Hone].
  split; [apply inv_no_ctl; simpl; auto; congruence|by split_and!].
Qed.

Lemma safe_launch g x (Q : gset tok → unit → Prop) :
  ready g x → (∀ y, Q {[TCtl y]} tt) → safe_l {[TCtl x]} (launch (Response:=Response) g) Q.
Proof.
  intros (Hk & HsC & Hm) HQ. apply safe_bind, safe_modify. intros s r Hd Hi.
  apply (ctl_step x (mkCtl (Some g) g true (Fresh g)) s _ r (λ o, safe_l o _ Q)); [done..| |].
  { intros ph Hr (Hs & Hhd & Hm' & Hkn) Ha. rewrite Hk in Hkn. destruct Hkn as (-> & ? & ? & ?). exists None.
    pose proof Hr as [Ht Hl Hb Hcur Ho Hsp Hh Hc Hone].
    split; [apply inv_no_ctl; simpl; auto; congruence|split_and!; simpl; auto; congruence]. }
  clear dependent s r. apply safe_modify. intros s r Hd Hi.
  apply (ctl_step (mkCtl (Some g) g true (Fresh g)) (mkCtl (Some g) g true Busy) s _ r (λ o, Q o tt)); [done..| |by apply HQ].
  intros ph Hr (Hs & Hhd & Hm' & -> & ? & ? & ?) Ha. simpl in *. exists (Some g).
  pose proof Hr as [Ht Hl Hb Hcur Ho Hsp Hh Hc Hone].
  split; [|by split_and!]. apply inv_no_ctl; simpl; auto.
  - by eapply trace_ok_emit.
  - intros g' ?. simplify_eq. auto.
  - intros g' Hg'. destruct (decide (g' = g)) as [->|]; [done|]. assert (g' ∈ spawned s) as Hin by set_solver. by apply Hsp in Hin.
  - intros g' Hg'. by destruct (Hh g' Hg').
Qed.

Lemma safe_run_command c x (Q : gset tok → unit → Prop) :
  (∀ y, Q {[TCtl y]} tt) → safe_l {[TCtl x]} (run_command (Response:=Response) c) Q.
Proof.
  intros HQ. destruct c as [| |e]; cbn [run_command].
  - apply safe_bind, safe_bind, safe_retire. intros y Hy. apply safe_bind, safe_new_generation; [done|]. intros g z Hz.
    apply safe_bind, safe_choose_frame; [frame_step|]. intros []; [|apply HQ].
    apply safe_bind, (safe_launch g z); [done|]. intros; apply HQ.
  - apply safe_bind, safe_retire. intros y Hy. apply safe_bind, safe_new_generation; [done|]. intros g z Hz.
    apply safe_bind, safe_modify_frame; [frame_step|]. by apply (safe_launch g z).
  - apply safe_bind, safe_StopCtx; intros; apply HQ.
Qed.

Lemma safe_controller l : ∀ x, safe_l {[TCtl x]} (controller (Response:=Response) l) (λ _ _, True).
Proof. induction l as [|c l IH]; intros x; [done|]. apply safe_bind, safe_run_command. auto. Qed.

(** In every reachable state the invariant holds. *)
Lemma system_inv cmds ops sched s ts :
  exec sched (system (Response:=Response) cmds ops) = Some (s, ts) → ∃ o, inv s o.
Proof.
  apply (exec_invariant_head inv (λ _, True) sched {[TCtl (mkCtl None 0 false Idle)]}).
  - exists None. split; simpl; try set_solver.
    intros x Hx. assert (x = mkCtl None 0 false Idle) as -> by set_solver. by split_and!.
  - apply safe_controller.
  - apply Forall_app. split; apply Forall_fmap, Forall_forall; intros; [apply handler_ok|apply safe_run_op].
Qed.
End threads.

(** ** Stopped generations *)

Section stopped.
Context {Response : Type}.

(** The stop channel of the current generation is closed. *)
Definition stopped_gen (g : nat) (s : state Response) : Prop := stopC s = Some g ∧ g ∈ stopClosed s.

Lemma is_stopped_gen g s : stopped_gen g s → is_stopped (Some g) s = true.
Proof. intros [_ ?]. by apply bool_decide_eq_true. Qed.

Lemma forward_preempted g m : progresses_in (stopped_gen g) (forward (Response:=Response) m).
Proof.
  split; [intros s _; by exists Go, s, (stopC s)|]. intros _ s ? c [HsC _] ?. simplify_eq. rewrite HsC.
  split; [|done]. intros s1 Hs1. exists ArmStop, s1, tt. by rewrite (is_stopped_gen g).
Qed.

Lemma report_error_preempted g e : progresses_in (stopped_gen g) (report_error (Response:=Response) e).
Proof.
  split; [intros s _; by eexists Go, s, _|]. intros _ s ? b _ ?. simplify_eq.
  case_bool_decide; [|done]. split; [intros s1 _; by exists Go, s1, (stopC s1)|].
  intros _ s1 ? c [HsC _] ?. simplify_eq. rewrite HsC.
  split; [|done]. intros s2 Hs2. exists ArmStop, s2, tt. by rewrite (is_stopped_gen g).
Qed.

Lemma awaitCtxResult_preempted g k st e :
  progresses_in (stopped_gen g) (awaitCtxResult (Response:=Response) k (Some g) st e).
Proof.
  assert (Hpoll : ∀ s : state Response, ∃ (c : choice) s' x,
    Some match take_slot k s with Some (s', r) => (s', Some r) | None => (s, None) end = Some (s', x)).
  { intros s. destruct (take_slot k s) as [[s' r]|]; by eexists Go, _, _. }
  split; [intros s _; apply Hpoll|]. intros _ s s' [r|] _ _; [done|]. split.
  - intros s1 Hs1. exists ArmStop, s1, None. by rewrite (is_stopped_gen g).
  - intros _ _ _ [[r|err]|] _ _; [done..|]. split; [intros s1 _; apply Hpoll|done].
Qed.
End stopped.

Lemma lookup_DrainAll {CB : Type} id (cq : CallbackQueue CB) rid : lookup_cb id rid (DrainAll id cq).1 = None.
Proof. unfold DrainAll, lookup_cb. destruct (cq !! id) eqn:E; simpl; by rewrite ?lookup_delete_eq, ?E. Qed.

(** ** Theorems *)

(** C24: The client facades run one handler goroutine at a time: in every reachable
    state, whatever the interleaving of Start, StopCtx, forwarded messages,
    timeouts and sends, the log follows the contract (a launch only when no handler
    is alive, messages, callbacks and requests only by the live handler, StopCtx
    nil only when none is alive, no channel closed twice), and a live handler is
    never orphaned: it listens on the stop channel the next StopCtx closes and
    closes the channel that StopCtx joins. *)
Theorem facade_one_handler {Response : Type} cmds ops sched (s : state Response) ts :
  exec sched (system cmds ops) = Some (s, ts) →
  ∃ ph, trace_ok (log s) = Some ph ∧
    ∀ g, ph = Some g → stopC s = Some g ∧ handlerDone s = g ∧ g ∉ doneClosed s ∧ stopOnce s ≠ None.
Proof.
  intros (o & ph & Hi)%system_inv. exists ph. split; [apply Hi|].
  intros g Hg. destruct (inv_live _ _ _ Hi g Hg) as (? & ? & ? & ?). auto.
Qed.

(** C25: Once StopCtx has returned nil nothing is handled until the next launch: no
    message is taken, no callback and no request handler runs. *)
Theorem facade_stop_joins {Response : Type} cmds ops sched (s : state Response) ts l1 l2 :
  exec sched (system cmds ops) = Some (s, ts) →
  log s = l1 ++ EvStopped :: l2 → Forall (λ ev, spawn_event ev = false) l2 →
  Forall (λ ev, handler_event ev = false) l2.
Proof.
  intros (o & ph & Hi)%system_inv Hlog Hno. pose proof (inv_trace _ _ _ Hi) as Ht.
  rewrite Hlog in Ht. unfold trace_ok in Ht. rewrite trace_from_app in Ht.
  destruct (trace_from None l1) as [[g|]|]; simplify_eq/=. by eapply trace_idle_quiet.
Qed.

(** No goroutine of a stopped facade is wedged: once the generation's stop
    channel is closed the forwarding closures, the timeout hook, error reports and
    waiting senders can take a step in every state, with incoming and errC full,
    and a waiting handler exits, dropping the callbacks. *)
Theorem facade_stop_preempts {Response : Type} (g k : nat) (m : incomingMessage Response) err e st ctxErr :
  progresses_in (stopped_gen g) (forward m) ∧
  progresses_in (stopped_gen (Response:=Response) g) (onRequestTimeout err) ∧
  progresses_in (stopped_gen (Response:=Response) g) (report_error e) ∧
  progresses_in (stopped_gen (Response:=Response) g) (awaitCtxResult k (Some g) st ctxErr) ∧
  (∀ s : state Response, g ∈ stopClosed s → g ∉ doneClosed s →
     ∃ s', run (handler_body g true) [ArmStop; Go; Go] s = Some (s', None, []) ∧
       log s' = log s ++ [EvExit g] ∧ g ∈ doneClosed s' ∧ (∀ id, lookup_cb "main" id (callbacks s') = None)).
Proof.
  split; [apply forward_preempted|]. split; [apply forward_preempted|]. split; [apply report_error_preempted|].
  split; [apply awaitCtxResult_preempted|]. intros s Hs Hd. eexists. split.
  - simpl. rewrite bool_decide_eq_true_2 by done. done.
  - rewrite decide_False by done. split; [done|]. split; [simpl; set_solver|]. apply lookup_DrainAll.
Qed.

(** A waiting sender does not lose a response that is there: whatever states its
    actions happen in, a response present at its first action, or at its last one
    unless that is the caller's own cancellation, is what it returns; and with no
    response it returns the stopped error only if the stop channel was closed, else
    its context's error. *)
Theorem facade_await_prefers_response {Response : Type} k c st ctxErr (obs : list (choice * state Response)) res :
  observed (awaitCtxResult k c st ctxErr) obs = Some res →
  (∀ ch s r, head obs = Some (ch, s) → slots s !! k = Some r → res = r) ∧
  (∀ ch s r, last obs = Some (ch, s) → ch ≠ ArmCtx → slots s !! k = Some r → res = r) ∧
  (Forall (λ x, slots x.2 !! k = None) obs →
     (res = (None, Some st) ∧ Exists (λ x, is_stopped c x.2 = true) obs) ∨
     (∃ e, ctxErr = Some e ∧ res = (None, Some (OcppError (NewRequestCanceledError "" (Some e)))))).
Proof.
  intros Ho. unfold awaitCtxResult, poll_slot, take_slot in Ho.
  destruct obs as [|[c1 s1] obs]; [done|]. simpl in Ho.
  destruct (slots s1 !! k) as [r1|] eqn:E1; simpl in Ho.
  { destruct obs; simplify_eq. split_and!; [naive_solver..|]. rewrite Forall_singleton. simpl. congruence. }
  destruct obs as [|[c2 s2] obs]; [done|]. simpl in Ho.
  destruct c2; simplify_eq/=.
  - destruct (slots s2 !! k) as [r2|] eqn:E2; simplify_eq/=. destruct obs; simplify_eq/=.
    split_and!; [naive_solver..|]. rewrite !Forall_cons. simpl. naive_solver.
  - destruct (is_stopped c s2) eqn:Est; simplify_eq/=. destruct obs as [|[c3 s3] obs]; [done|].
    destruct (slots s3 !! k) as [r3|] eqn:E3; simplify_eq/=; destruct obs; simplify_eq/=;
      (split_and!; [naive_solver..|]; rewrite !Forall_cons; simpl; intros; try naive_solver).
  - destruct ctxErr as [e|]; simplify_eq/=. destruct obs; simplify_eq/=.
    split_and!; [naive_solver..|]. eauto.
Qed.

(** *** Executions *)

Definition ctl_start : list (nat * choice) :=
  [(0, Go); (0, Go); (0, Go); (0, Go); (0, Started true); (0, Go); (0, Go)].
Definition ctl_close : list (nat * choice) := [(0, Go); (0, Go); (0, Go); (0, Go)].
Definition handler_exit (i : nat) : list (nat * choice) := [(i, ArmStop); (i, Go); (i, Go)].

Definition run_events {Response : Type} cmds ops sched : option (list (event Response)) :=
  log ∘ fst <$> exec sched (system cmds ops).

Lemma run_events_exec {Response : Type} cmds ops sched (l : list (event Response)) :
  run_events cmds ops sched = Some l → ∃ s ts, exec sched (system cmds ops) = Some (s, ts) ∧ log s = l.
Proof. unfold run_events. destruct (exec _ _) as [[s ts]|]; intros ?; simplify_eq/=. eauto. Qed.

(** A request is forwarded and stays in the buffer; the facade is stopped and
    started again. *)
Definition restart_sched : list (nat * choice) :=
  ctl_start ++ [(1, Go); (1, Go)] ++ [(4, Go); (4, ArmFirst)] ++ ctl_close ++ handler_exit 1 ++ [(0, Go); (0, ArmFirst)] ++
  [(0, Go)] ++ ctl_close ++ [(0, Go); (0, ArmFirst)] ++ drop 1 ctl_start ++
  [(2, Go); (2, Go); (2, ArmFirst); (2, Go); (2, Reported None)].

Definition restart_log {Response : Type} (requestID action : string) : list (event Response) :=
  [EvClientStart true; EvSpawn 1; EvClientStop; EvExit 1; EvStopped; EvClientStop; EvStopped; EvClientStart true;
   EvSpawn 2; EvTook 2 (incomingRequest requestID action); EvRequest requestID action].

Lemma restart_run {Response : Type} id action :
  run_events (Response:=Response) [CStart; CStop None; CStart] [OpForward (incomingRequest id action)] restart_sched =
  Some (restart_log id action).
Proof. vm_compute. reflexivity. Qed.

(** A request buffered when the facade is stopped is not dropped: [StopCtx]
    returns nil, and after the next [Start] the new generation's handler serves the
    request of the old connection. *)
Theorem facade_stale_request {Response : Type} requestID action :
  ∃ sched s ts, exec sched (system (Response:=Response) [CStart; CStop None; CStart]
                              [OpForward (incomingRequest requestID action)]) = Some (s, ts) ∧
    log s = restart_log requestID action.
Proof. exists restart_sched. apply run_events_exec, restart_run. Qed.

Lemma facade_one_handler_witness : ∃ s ts,
  exec restart_sched (system (Response:=nat) [CStart; CStop None; CStart] [OpForward (incomingRequest "r" "Reset")])
    = Some (s, ts) ∧
  ∃ ph, trace_ok (log s) = Some ph ∧
    ∀ g, ph = Some g → stopC s = Some g ∧ handlerDone s = g ∧ g ∉ doneClosed s ∧ stopOnce s ≠ None.
Proof.
  destruct (run_events_exec _ _ _ _ (restart_run (Response:=nat) "r" "Reset")) as (s & ts & He & _).
  exists s, ts. split; [exact He|]. apply (facade_one_handler _ _ _ _ _ He).
Defined.

Lemma facade_stop_joins_witness : ∃ s ts,
  exec (take 31 restart_sched)
    (system (Response:=nat) [CStart; CStop None; CStart] [OpForward (incomingRequest "r" "Reset")]) = Some (s, ts) ∧
  Forall (λ ev : event nat, handler_event ev = false) [EvClientStop; EvStopped; EvClientStart true].
Proof.
  destruct (run_events_exec (Response:=nat) [CStart; CStop None; CStart] [OpForward (incomingRequest "r" "Reset")]
    (take 31 restart_sched)
    ([EvClientStart true; EvSpawn 1; EvClientStop; EvExit 1] ++ EvStopped :: [EvClientStop; EvStopped; EvClientStart true]))
    as (s & ts & He & Hlog); [vm_compute; reflexivity|].
  exists s, ts. split; [exact He|]. apply (facade_stop_joins _ _ _ _ _ _ _ He Hlog). repeat constructor.
Defined.

Lemma facade_await_prefers_response_witness :
  let st := Errorf "client stopped" None in
  let s0 : state nat := set_stopClosed {[1]} new_facade in
  let s1 := set_slots {[7 := (Some 3, None)]} s0 in
  observed (awaitCtxResult 7 (Some 1) st None) [(Go, s0); (ArmStop, s0); (Go, s1)] = Some (Some 3, None) ∧
  ∀ ch s r, last [(Go, s0); (ArmStop, s0); (Go, s1)] = Some (ch, s) → ch ≠ ArmCtx → slots s !! 7 = Some r →
    (Some 3, None) = r.
Proof.
  intros st s0 s1.
  assert (H : observed (awaitCtxResult 7 (Some 1) st None) [(Go, s0); (ArmStop, s0); (Go, s1)] = Some (Some 3, None))
    by (vm_compute; reflexivity).
  split; [exact H|]. exact (proj1 (proj2 (facade_await_prefers_response _ _ _ _ _ _ H))).
Defined.
