(* ===== verification/CgIR.v ===== *)
(** * The code generator: intermediate representation and naming

    src/internal/codegen: ir.go and types.go (the data), naming.go (the spelling
    of Go identifiers).  Names and enumeration values are ASCII in the schemas; a
    rune is a byte here, and the bytes from 128 on are neither letters nor digits.
    A float64 bound is a rational ([Qc]). *)

From Stdlib Require Import Ascii QArith.Qcanon.
From S2P Require Import Prelude Ocpp.
Local Open Scope string_scope.
Local Open Scope list_scope.

(** ** Data *)

(** A Go string type: any other string is an unknown kind. *)
Inductive DefinitionKind := DefinitionObject | DefinitionEnum | DefinitionRoot | OtherKind (s : string).

#[export] Instance DefinitionKind_eq_dec : EqDecision DefinitionKind.
Proof. solve_decision. Defined.

Record Bound := mkBound { Boolean : option bool; Number : option Qc }.
#[export] Instance Bound_eq_dec : EqDecision Bound.
Proof. solve_decision. Defined.

Inductive Property := mkProperty {
  p_Name : string;
  p_Pointer : string;
  p_Type : string;
  p_Format : string;
  p_Required : bool;
  p_Enum : list string;
  p_Ref : string;
  p_EnumDefinition : string;
  p_MaxLength : option Z;
  p_MinLength : option Z;
  p_Minimum : option Qc;
  p_Maximum : option Qc;
  p_ExclusiveMinimum : option Bound;
  p_ExclusiveMaximum : option Bound;
  p_MinItems : option Z;
  p_MaxItems : option Z;
  p_Pattern : string;
  p_AdditionalProperties : option bool;
  p_Items : option Property;
  p_Untyped : bool
}.

(** Induction through the element schema of an array. *)
Lemma Property_items_ind (P : Property → Prop) :
  (∀ p, (∀ i, p_Items p = Some i → P i) → P p) → ∀ p, P p.
Proof.
  intros H. refine (fix IH (p : Property) : P p := H p _).
  assert (Hitems : match p_Items p with Some q => P q | None => True end).
  { destruct p as [? ? ? ? ? ? ? ? ? ? ? ? ? ? ? ? ? ? [q|] ?]; [exact (IH q)|exact Logic.I]. }
  intros i E. rewrite E in Hitems. exact Hitems.
Qed.

(** The fields of a property and of the element schemas below it. *)
Definition layer (p : Property) :=
  ((p_Name p, p_Pointer p, p_Type p, p_Format p, p_Required p), (p_Enum p, p_Ref p, p_EnumDefinition p, p_MaxLength p),
   (p_MinLength p, p_Minimum p, p_Maximum p, p_ExclusiveMinimum p, p_ExclusiveMaximum p),
   (p_MinItems p, p_MaxItems p, p_Pattern p, p_AdditionalProperties p, p_Untyped p)).
Fixpoint layers (p : Property) :=
  layer p :: match p_Items p with Some i => layers i | None => [] end.

Lemma layers_eq p : layers p = layer p :: match p_Items p with Some i => layers i | None => [] end.
Proof. by destruct p. Qed.

Lemma layers_inj p : ∀ q, layers p = layers q → p = q.
Proof.
  induction p as [p IH] using Property_items_ind. intros q E. rewrite (layers_eq p), (layers_eq q) in E.
  pose proof (f_equal tail E) as E'. simpl in E'. apply (f_equal head) in E. simpl in E.
  assert (Hi : p_Items p = p_Items q).
  { destruct (p_Items p) as [i|], (p_Items q) as [j|]; [|by rewrite layers_eq in E'..|done]. f_equal. by apply IH. }
  destruct p, q; unfold layer in E; simpl in *. by simplify_eq.
Qed.

(** [reflect.DeepEqual] *)
#[export] Instance Property_eq_dec : EqDecision Property.
Proof.
  intros p q. destruct (decide (layers p = layers q)) as [E|N]; [left; by apply layers_inj|right; by intros ->].
Defined.

Record Definition_ := mkDefinition {
  d_Name : string;
  d_Kind : DefinitionKind;
  d_Properties : list Property;
  d_Values : list string;
  d_AdditionalProperties : option bool;
  d_Reserved : bool;
  d_Occurrences : Z;
  d_Files : list string
}.
#[export] Instance Definition_eq_dec : EqDecision Definition_.
Proof. solve_decision. Defined.

Record Message := mkMessage {
  m_Name : string;
  m_Block : string;
  m_Direction : string;
  m_Request : string;
  m_Response : string;
  m_RequestRoot : string;
  m_ResponseRoot : string;
  m_Roots : list string;
  m_Reach : list string;
  m_Emit : bool
}.

Record IR := mkIR { Definitions : list Definition_; Messages : list Message }.

Record TransformConfig := mkTransform { Initialisms : list string }.
Record PackageContext := mkPackage { PackageName : string; TypesPackage : string; InTypes : bool }.
Record PlacementPlan := mkPlacement { Home : gmap string string }.
Record FieldMapping := mkFieldMapping { FieldName : string; GoType : string; JSONTag : string; ValidateTag : string }.
Record OverrideRow := mkOverride {
  o_Version : string; o_Definition : string; o_Property : string; o_Rule : string; o_Tag : string; o_From : string;
  o_Rationale : string; o_Source : string; o_Author : string; o_Date : string
}.

(** ** Characters and strings *)

Definition chars (s : string) : list ascii := Strings.String.list_ascii_of_string s.
Definition of_chars (l : list ascii) : string := Strings.String.string_of_list_ascii l.

Lemma of_chars_inv s : of_chars (chars s) = s.
Proof. apply Strings.String.string_of_list_ascii_of_string. Qed.
Lemma chars_of_chars l : chars (of_chars l) = l.
Proof. apply Strings.String.list_ascii_of_string_of_list_ascii. Qed.

Lemma chars_app a b : chars (a +:+ b) = chars a ++ chars b.
Proof.
  induction a as [|c a IH]; [done|]. change (c :: chars (a +:+ b) = c :: (chars a ++ chars b)). by rewrite IH.
Qed.

Definition between (a c b : N) : bool := (a <=? c)%N && (c <=? b)%N.
Definition IsDigit (c : ascii) : bool := between 48 (Ascii.N_of_ascii c) 57.
Definition IsUpper (c : ascii) : bool := between 65 (Ascii.N_of_ascii c) 90.
Definition IsLower (c : ascii) : bool := between 97 (Ascii.N_of_ascii c) 122.
Definition IsLetter (c : ascii) : bool := IsUpper c || IsLower c.
Definition ToUpper (c : ascii) : ascii := if IsLower c then Ascii.ascii_of_N (Ascii.N_of_ascii c - 32) else c.
Definition ToLower (c : ascii) : ascii := if IsUpper c then Ascii.ascii_of_N (Ascii.N_of_ascii c + 32) else c.
Definition is_space (c : ascii) : bool := let n := Ascii.N_of_ascii c in between 9 n 13 || (n =? 32)%N.

(** [strings.TrimSpace(s) == ""], [strings.ToLower], [strings.EqualFold] *)
Definition blank (s : string) : bool := forallb is_space (chars s).
Definition lower_string (s : string) : string := of_chars (map ToLower (chars s)).
Definition EqualFold (a b : string) : bool := bool_decide (map ToLower (chars a) = map ToLower (chars b)).

Definition HasSuffix (s suffix : string) : bool :=
  bool_decide (String.length suffix <= String.length s)%nat &&
  bool_decide (drop (String.length s - String.length suffix) (chars s) = chars suffix).
Definition TrimSuffix (s suffix : string) : string :=
  if HasSuffix s suffix then of_chars (take (String.length s - String.length suffix) (chars s)) else s.
Definition HasPrefix (s p : string) : bool := bool_decide (take (String.length p) (chars s) = chars p).
Definition TrimPrefix (s p : string) : string :=
  if HasPrefix s p then of_chars (drop (String.length p) (chars s)) else s.

(** [strings.Join] *)
Fixpoint Join (l : list string) (sep : string) : string :=
  match l with
  | [] => ""
  | [s] => s
  | s :: l' => s +:+ sep +:+ Join l' sep
  end.

(** ** Words *)

(** A boundary between [prev] and [cur], which [next] follows. *)
Definition boundary (prev cur : ascii) (next : option ascii) : bool :=
  if negb (Bool.eqb (IsDigit prev) (IsDigit cur)) then true else
  if IsLower prev && IsUpper cur then true else
  IsUpper prev && IsUpper cur && match next with Some n => IsLower n | None => false end.

(** The loop of [splitWords]: [word] holds the runes from [start], [prev] is the
    last of them. *)
Fixpoint split_from (prev : ascii) (word rest : list ascii) : list (list ascii) :=
  match rest with
  | [] => [word]
  | cur :: rest' =>
      if boundary prev cur (head rest') then word :: split_from cur [cur] rest'
      else split_from cur (word ++ [cur]) rest'
  end.

Definition splitWords (s : string) : list string :=
  match chars s with
  | [] => []
  | c :: l => map of_chars (split_from c [c] l)
  end.

(** [matchInitialism] returns the empty string for no match. *)
Definition matchInitialism (word : string) (initialisms : list string) : string :=
  foldl (λ best entry, if EqualFold word entry && bool_decide (String.length best < String.length entry)%nat
                       then entry else best) "" initialisms.

Definition titleCaseWord (word : string) : string :=
  match chars word with [] => word | c :: l => of_chars (ToUpper c :: l) end.

Definition correct_word (config : TransformConfig) (w : string) : string :=
  let canon := matchInitialism w (Initialisms config) in
  if bool_decide (canon ≠ "") then canon else titleCaseWord w.

Definition transformWords (name : string) (config : TransformConfig) : list string :=
  map (correct_word config) (splitWords name).

(** ** Identifiers *)

Definition TransformIdentifier (name : string) (kind : DefinitionKind) (config : TransformConfig) : string + error :=
  if blank name then inr (Errorf "transform identifier: empty name" None) else
  match kind with
  | DefinitionObject =>
      let base := if bool_decide (4 < String.length name)%nat && HasSuffix name "Type" then TrimSuffix name "Type" else name in
      inl (Join (transformWords base config) "")
  | DefinitionEnum =>
      let base := if HasSuffix name "EnumType" then TrimSuffix name "EnumType" +:+ "Type" else name in
      inl (Join (transformWords base config) "")
  | DefinitionRoot => inl (Join (transformWords name config) "")
  | OtherKind k => inr (Errorf ("transform identifier " +:+ name +:+ ": unknown definition kind " +:+ k) None)
  end.

Definition transformPropertyName (name : string) (config : TransformConfig) : string + error :=
  if blank name then inr (Errorf "transform property name: empty name" None)
  else inl (Join (transformWords name config) "").

Definition goKeywords : list string :=
  ["break"; "case"; "chan"; "const"; "continue"; "default"; "defer"; "else"; "fallthrough"; "for"; "func"; "go"; "goto";
   "if"; "import"; "interface"; "map"; "package"; "range"; "return"; "select"; "struct"; "switch"; "type"; "var"].
Definition escapeGoKeyword (name : string) : string := if bool_decide (name ∈ goKeywords) then name +:+ "_" else name.

Definition lowerCamel (name : string) : string :=
  match splitWords name with [] => name | w :: ws => Join (lower_string w :: ws) "" end.
Definition snakeCase (name : string) : string := Join (map lower_string (splitWords name)) "_".
Definition splitToPhrase (name : string) : string := Join (splitWords name) " ".

(** ** Enumeration values *)

(** The runs of letters and digits; [current] is the run being read. *)
Fixpoint segments_from (current rest : list ascii) : list (list ascii) :=
  let flush l := match current with [] => l | _ => current :: l end in
  match rest with
  | [] => flush []
  | r :: rest' => if IsLetter r || IsDigit r then segments_from (current ++ [r]) rest' else flush (segments_from [] rest')
  end.
Definition enumValueSegments (value : string) : list string := map of_chars (segments_from [] (chars value)).
Definition enumValueGoWords (value : string) (config : TransformConfig) : list string :=
  map (correct_word config) (enumValueSegments value).

(** [buildEnumConstNames] (emit.go) *)
Definition buildEnumConstNames (goName : string) (values : list string) (config : TransformConfig) : list string :=
  map (λ value, goName +:+ Join (enumValueGoWords value config) "") values.
