(* ===== verification/CgMapping.v ===== *)
(** * The code generator: mapping of schema properties to Go fields

    src/internal/codegen/mapping.go.  [FormatFloat] stands for
    [strconv.FormatFloat(v, 'f', -1, 64)]. *)

From Stdlib Require Import QArith.Qcanon.
From stdpp Require Import pretty.
From S2P Require Import Prelude Ocpp CgIR.
Local Open Scope string_scope.
Local Open Scope list_scope.

Definition dq : string := String (Ascii.ascii_of_nat 34) "".

(** [%q] of a string of letters, digits and punctuation without quotes. *)
Definition quoted (s : string) : string := dq +:+ s +:+ dq.

Definition findDefinitionByName (definitions : list Definition_) (name : string) : option Definition_ :=
  head (filter (λ d, d_Name d = name) definitions).

Definition refTargetName (ref : string) : string := if bool_decide (ref = "") then "" else TrimPrefix ref "#/definitions/".

Section mapping.
Context (FormatFloat : Qc → string).

Definition formatBoundNumber (v : Qc) : string := FormatFloat v.

(** An optional token. *)
Definition token {A : Type} (f : A → string) (x : option A) : list string :=
  match x with Some v => [f v] | None => [] end.

Definition scalarBoundTokens (p : Property) : list string :=
  token (λ n : Z, "min=" +:+ pretty n) (p_MinLength p) ++
  token (λ n : Z, "max=" +:+ pretty n) (p_MaxLength p) ++
  token (λ q, "gte=" +:+ formatBoundNumber q) (p_Minimum p) ++
  token (λ q, "lte=" +:+ formatBoundNumber q) (p_Maximum p).

Definition arrayElementTokens (p : Property) : list string :=
  match p_Items p with
  | None => []
  | Some items =>
      let bounds := scalarBoundTokens items in
      if bool_decide (p_Ref items = "") && bool_decide (p_EnumDefinition items = "") && bool_decide (bounds = [])
      then [] else "dive" :: bounds
  end.

(** [required], [omitempty], or nothing for a required boolean. *)
Definition optionality (p : Property) : list string :=
  if p_Required p && bool_decide (p_Type p = "boolean") then []
  else if p_Required p then ["required"] else ["omitempty"].

Definition BaseTagSet (definition : Definition_) (p : Property) : list string :=
  if bool_decide (p_Type p = "array") then
    optionality p ++ token (λ n : Z, "min=" +:+ pretty n) (p_MinItems p) ++
    token (λ n : Z, "max=" +:+ pretty n) (p_MaxItems p) ++ arrayElementTokens p
  else optionality p ++ scalarBoundTokens p.

(** The first occurrence of [from] replaced. *)
Fixpoint replace_first (from tag : string) (l : list string) : option (list string) :=
  match l with
  | [] => None
  | t :: l' => if bool_decide (t = from) then Some (tag :: l') else (λ r, t :: r) <$> replace_first from tag l'
  end.

Definition override_error (row : OverrideRow) (what : string) : error :=
  Errorf ("apply tag override " +:+ o_Definition row +:+ "." +:+ o_Property row +:+ ": " +:+ what) None.

Definition ApplyTagOverride (base : list string) (row : OverrideRow) : list string + error :=
  if bool_decide (o_Tag row = "required") || bool_decide (o_Tag row = "omitempty") then
    inr (override_error row ("rule " +:+ o_Rule row +:+ " may not name " +:+ o_Tag row +:+ ", an optionality tag"))
  else if bool_decide (o_Rule row = "add") then inl (base ++ [o_Tag row])
  else if bool_decide (o_Rule row = "tighten") then
    match replace_first (o_From row) (o_Tag row) base with
    | Some l => inl l
    | None => inr (override_error row ("tighten names from token " +:+ o_From row +:+ ", which is not present in the base tag set"))
    end
  else inr (override_error row ("unknown override rule " +:+ o_Rule row)).

(** ** Go types *)

Section types.
Context (definitions : list Definition_) (transform : TransformConfig).

Definition validatorTagName (enumDefinitionName : string) : string + error :=
  match TransformIdentifier enumDefinitionName DefinitionEnum transform with
  | inl goName => inl (lowerCamel goName +:+ "201")
  | inr e => inr e
  end.

Definition buildJSONTag (p : Property) : string :=
  "json:" +:+ quoted (if p_Required p then p_Name p else p_Name p +:+ ",omitempty").

Definition mapNumericType (base : string) (p : Property) : string :=
  if p_Required p then base else
  match p_Minimum p with
  | None => "*" +:+ base
  | Some m => if bool_decide (m <= 0)%Qc then "*" +:+ base else base
  end.

Definition mapRefType (p : Property) : string + error :=
  if bool_decide (p_EnumDefinition p ≠ "") then TransformIdentifier (p_EnumDefinition p) DefinitionEnum transform else
  match findDefinitionByName definitions (refTargetName (p_Ref p)) with
  | None => inr (Errorf ("map property: $ref " +:+ p_Ref p +:+ " does not resolve to a known definition") None)
  | Some target =>
      if d_Reserved target then inl "*types.CustomData" else
      match TransformIdentifier (d_Name target) DefinitionObject transform with
      | inr e => inr e
      | inl goName => inl (if p_Required p then goName else "*" +:+ goName)
      end
  end.

Definition mapArrayElementType (item : Property) : string + error :=
  if bool_decide (p_EnumDefinition item ≠ "") then TransformIdentifier (p_EnumDefinition item) DefinitionEnum transform
  else if bool_decide (p_Ref item ≠ "") then
    match findDefinitionByName definitions (refTargetName (p_Ref item)) with
    | None => inr (Errorf ("map property: array element $ref " +:+ p_Ref item +:+ " does not resolve to a known definition") None)
    | Some target => if d_Reserved target then inl "types.CustomData"
                     else TransformIdentifier (d_Name target) DefinitionObject transform
    end
  else if bool_decide (p_Format item = "date-time") then inl "*types.DateTime"
  else if bool_decide (p_Type item = "integer") then inl "int"
  else if bool_decide (p_Type item = "number") then inl "float64"
  else if bool_decide (p_Type item = "boolean") then inl "bool"
  else if bool_decide (p_Type item = "string") then inl "string"
  else inr (Errorf ("map property: unsupported array element type " +:+ p_Type item) None).

Definition mapArrayType (p : Property) : string + error :=
  match p_Items p with
  | None => inr (Errorf ("map property " +:+ p_Name p +:+ ": array has no items schema") None)
  | Some item => match mapArrayElementType item with inl elem => inl ("[]" +:+ elem) | inr e => inr e end
  end.

Definition mapGoType (p : Property) : string + error :=
  if p_Untyped p then inl "any"
  else if bool_decide (p_Format p = "date-time") then inl "*types.DateTime"
  else if bool_decide (p_Ref p ≠ "") then mapRefType p
  else if bool_decide (p_Type p = "array") then mapArrayType p
  else if bool_decide (p_Type p = "integer") then inl (mapNumericType "int" p)
  else if bool_decide (p_Type p = "number") then inl (mapNumericType "float64" p)
  else if bool_decide (p_Type p = "boolean") then inl (if p_Required p then "bool" else "*bool")
  else if bool_decide (p_Type p = "string") then inl "string"
  else inr (Errorf ("map property " +:+ p_Name p +:+ ": unsupported schema type " +:+ p_Type p) None).

(** The enumeration whose validator a property's tag names. *)
Definition enum_of (p : Property) : string :=
  if bool_decide (p_EnumDefinition p = "") && bool_decide (p_Type p = "array")
  then match p_Items p with Some items => p_EnumDefinition items | None => p_EnumDefinition p end
  else p_EnumDefinition p.

Fixpoint apply_overrides (definition : Definition_) (p : Property) (tokens : list string) (overrides : list OverrideRow)
    : list string + error :=
  match overrides with
  | [] => inl tokens
  | row :: rows =>
      if bool_decide (o_Definition row = d_Name definition) && bool_decide (o_Property row = p_Name p)
      then match ApplyTagOverride tokens row with
           | inl tokens' => apply_overrides definition p tokens' rows
           | inr e => inr e
           end
      else apply_overrides definition p tokens rows
  end.

Definition map_error (definition : Definition_) (p : Property) (e : error) : error :=
  Errorf ("map property " +:+ d_Name definition +:+ "." +:+ p_Name p +:+ ": ") (Some e).

(** The tokens of the validate tag. *)
Definition tag_tokens (definition : Definition_) (p : Property) (overrides : list OverrideRow) : list string + error :=
  match (if bool_decide (enum_of p = "") then inl []
         else match validatorTagName (enum_of p) with inl t => inl [t] | inr e => inr (map_error definition p e) end) with
  | inr e => inr e
  | inl enum_token => apply_overrides definition p (BaseTagSet definition p ++ enum_token) overrides
  end.

Definition MapProperty (definition : Definition_) (p : Property) (overrides : list OverrideRow) : FieldMapping + error :=
  match transformPropertyName (p_Name p) transform with
  | inr e => inr (map_error definition p e)
  | inl fieldName =>
      match mapGoType p with
      | inr e => inr (map_error definition p e)
      | inl goType =>
          match tag_tokens definition p overrides with
          | inr e => inr e
          | inl tokens =>
              inl (mkFieldMapping fieldName goType (buildJSONTag p)
                     (match tokens with [] => "" | _ => "validate:" +:+ quoted (Join tokens ",") end))
          end
      end
  end.
End types.
End mapping.
