(* ===== verification/CgPlacement.v ===== *)
(** * The code generator: placement of definitions and collisions

    src/internal/codegen/placement.go.  A Go map iterated and then sorted is a
    sorted list of its keys here. *)

From Stdlib Require Import Sorting.Sorted.
From S2P Require Import Prelude Ocpp CgIR CgMapping.
Local Open Scope string_scope.
Local Open Scope list_scope.

(** ** Sorting *)

(** [sort.Strings], and [sort.Slice] by a name. *)
Section sorting.
Context {A : Type} (key : A → string).
Fixpoint insert_by (x : A) (l : list A) : list A :=
  match l with
  | [] => [x]
  | y :: l' => if Strings.String.leb (key x) (key y) then x :: l else y :: insert_by x l'
  end.
Definition sort_by (l : list A) : list A := foldr insert_by [] l.

Lemma insert_by_perm x l : insert_by x l ≡ₚ x :: l.
Proof.
  induction l as [|y l IH]; simpl; [done|]. destruct (Strings.String.leb _ _); [done|]. rewrite IH. apply Permutation_swap.
Qed.
Lemma sort_by_perm l : sort_by l ≡ₚ l.
Proof. induction l as [|x l IH]; simpl; [done|]. by rewrite insert_by_perm, IH. Qed.

Definition le_key (x y : A) : Prop := Strings.String.leb (key x) (key y) = true.

Lemma insert_by_sorted x l : Sorted le_key l → Sorted le_key (insert_by x l).
Proof.
  induction l as [|y l IH]; intros Hs; simpl; [by repeat constructor|].
  destruct (Strings.String.leb (key x) (key y)) eqn:E; [constructor; [done|by constructor]|].
  inversion_clear Hs as [|?? Hl Hy]. constructor; [auto|].
  assert (Hyx : le_key y x) by (destruct (Strings.String.leb_total (key x) (key y)); [congruence|done]).
  destruct l as [|z l]; simpl; [by constructor|].
  destruct (Strings.String.leb (key x) (key z)); constructor; [done|]. by inversion Hy.
Qed.
Lemma sort_by_sorted l : Sorted le_key (sort_by l).
Proof. induction l as [|x l IH]; simpl; [constructor|by apply insert_by_sorted]. Qed.
End sorting.

Definition sort_strings : list string → list string := sort_by id.

(** ** Placement *)

(** Definitions that can be placed. *)
Definition placeable (d : Definition_) : bool :=
  negb (bool_decide (d_Kind d = DefinitionRoot)) && negb (d_Reserved d).
Definition candidates (ir : IR) : gset string := list_to_set (d_Name <$> filter (λ d, placeable d = true) (Definitions ir)).

(** The loop over the messages: how often a candidate is reached, and the message
    that reached it first. *)
Definition reach_one (cands : gset string) (message : Message) (acc : gmap string nat * gmap string string) (name : string)
    : gmap string nat * gmap string string :=
  if bool_decide (name ∈ cands) then
    let n := S (default 0 (acc.1 !! name)) in
    (<[name := n]> acc.1, if bool_decide (n = 1) then <[name := m_Name message]> acc.2 else acc.2)
  else acc.
Definition reach_counts (ir : IR) : gmap string nat * gmap string string :=
  foldl (λ acc m, foldl (reach_one (candidates ir) m) acc (m_Reach m)) (∅, ∅) (Messages ir).

Fixpoint place_names (ir : IR) (counts : gmap string nat) (reaching : gmap string string) (names : list string)
    (home : gmap string string) : PlacementPlan + error :=
  match names with
  | [] => inl (mkPlacement home)
  | name :: names' =>
      match default 0 (counts !! name) with
      | 0 => let files := match findDefinitionByName (Definitions ir) name with
                          | Some d => Join (d_Files d) ", "
                          | None => ""
                          end in
             inr (Errorf ("compute definition placement: " +:+ name +:+ " is unreachable (declared in " +:+ files +:+
                          ", but no message's reach set references it)") None)
      | 1 => place_names ir counts reaching names' (<[name := "message:" +:+ default "" (reaching !! name)]> home)
      | _ => place_names ir counts reaching names' (<[name := "types"]> home)
      end
  end.

Definition ComputePlacement (ir : IR) : PlacementPlan + error :=
  let '(counts, reaching) := reach_counts ir in
  place_names ir counts reaching (sort_strings (elements (candidates ir))) ∅.

(** ** Collisions *)

Record collisionEntry := mkCollision { key : string; description : string }.

Definition messageBlocks (ir : IR) : gmap string string :=
  foldl (λ m message, if blank (m_Block message) then m else <[m_Name message := m_Block message]> m) ∅ (Messages ir).

Definition emissionPackage (home : string) (blocks : gmap string string) : string :=
  if bool_decide (home = "types") then "types" else
  let name := TrimPrefix home "message:" in
  if bool_decide (name = home) then home else
  match blocks !! name with Some block => block | None => home end.

Definition sortedPlacedNames (placement : PlacementPlan) : list string := sort_strings ((map_to_list (Home placement)).*1).

Section collisions.
Context (ir : IR) (placement : PlacementPlan) (config : TransformConfig).

Definition collision_error (what : string) (e : option error) : error :=
  Errorf ("check emission collisions: " +:+ what) e.

Definition kind_name (k : DefinitionKind) : string :=
  match k with DefinitionObject => "object" | DefinitionEnum => "enum" | DefinitionRoot => "root" | OtherKind s => s end.

(** The identifiers of one placed definition: its type, its constructor, the
    constants of an enumeration. *)
Definition placed_entries (blocks : gmap string string) (name : string) : list (string * collisionEntry) + error :=
  let home := default "" (Home placement !! name) in
  let pkg := emissionPackage home blocks in
  let entry k d := (pkg, mkCollision k (d +:+ ", emitted in " +:+ home)) in
  match findDefinitionByName (Definitions ir) name with
  | None => inr (collision_error ("placed definition " +:+ name +:+ " not found in the IR") None)
  | Some d =>
      match TransformIdentifier (d_Name d) (d_Kind d) config with
      | inr e => inr (collision_error "" (Some e))
      | inl goName =>
          let files := Join (d_Files d) ", " in
          inl (entry goName (kind_name (d_Kind d) +:+ " " +:+ d_Name d +:+ " (" +:+ files +:+ ")") ::
               (if bool_decide (d_Kind d = DefinitionObject)
                then [entry ("New" +:+ goName) ("constructor New" +:+ goName +:+ " (" +:+ files +:+ ")")] else []) ++
               (if bool_decide (d_Kind d = DefinitionEnum)
                then zip_with (λ c v, entry c ("enum constant " +:+ c +:+ " from value " +:+ quoted v +:+ " of enum " +:+
                                               d_Name d +:+ " (" +:+ files +:+ ")"))
                       (buildEnumConstNames goName (d_Values d) config) (d_Values d) else []))
      end
  end.

Fixpoint all_placed (blocks : gmap string string) (names : list string) : list (string * collisionEntry) + error :=
  match names with
  | [] => inl []
  | n :: names' => match placed_entries blocks n with
                   | inr e => inr e
                   | inl l => match all_placed blocks names' with inl l' => inl (l ++ l') | inr e => inr e end
                   end
  end.

Definition root_files (rootName : string) : string :=
  match findDefinitionByName (Definitions ir) rootName with Some root => Join (d_Files root) ", " | None => "" end.

(** The identifiers of one message: its roots, their constructors, the feature. *)
Definition message_entries (blocks : gmap string string) (message : Message) : list (string * collisionEntry) :=
  let home := "message:" +:+ m_Name message in
  let pkg := emissionPackage home blocks in
  let entry k d := (pkg, mkCollision k (d +:+ ", emitted in " +:+ home)) in
  let root r := if bool_decide (r = "") then []
                else [entry r ("root " +:+ r +:+ " (" +:+ root_files r +:+ ")");
                      entry ("New" +:+ r) ("constructor New" +:+ r +:+ " (" +:+ root_files r +:+ ")")] in
  root (m_RequestRoot message) ++ root (m_ResponseRoot message) ++
  [entry (m_Name message +:+ "Feature") ("feature " +:+ m_Name message +:+ "Feature");
   entry (m_Name message +:+ "FeatureName") ("feature-name const " +:+ m_Name message +:+ "FeatureName")].

(** The index: package and identifier, in the order of insertion. *)
Definition package_index : list (string * collisionEntry) + error :=
  let blocks := messageBlocks ir in
  match all_placed blocks (sortedPlacedNames placement) with
  | inr e => inr e
  | inl l => inl (l ++ flat_map (message_entries blocks) (Messages ir))
  end.

(** The first entry whose key was seen before. *)
Fixpoint first_duplicate (seen : gmap string collisionEntry) (l : list collisionEntry) : option (collisionEntry * collisionEntry) :=
  match l with
  | [] => None
  | e :: l' => match seen !! key e with
               | Some prior => Some (prior, e)
               | None => first_duplicate (<[key e := e]> seen) l'
               end
  end.

Fixpoint check_packages (index : list (string * collisionEntry)) (pkgs : list string) : option error :=
  match pkgs with
  | [] => None
  | pkg :: pkgs' =>
      match first_duplicate ∅ (snd <$> filter (λ pe, pe.1 = pkg) index) with
      | Some (prior, e) => Some (collision_error ("in package " +:+ pkg +:+ ": " +:+ description prior +:+
                                                  " collides with " +:+ description e) None)
      | None => check_packages index pkgs'
      end
  end.

Definition checkPackageCollisions : option error :=
  match package_index with
  | inr e => Some e
  | inl index => check_packages index (sort_strings (remove_dups index.*1))
  end.

(** The structs that are rendered. *)
Definition rendered_structs : list Definition_ :=
  filter (λ d, d_Kind d = DefinitionObject) (omap (findDefinitionByName (Definitions ir)) (sortedPlacedNames placement)) ++
  flat_map (λ message, omap (λ r, if bool_decide (r = "") then None else findDefinitionByName (Definitions ir) r)
                            [m_RequestRoot message; m_ResponseRoot message]) (Messages ir).

Fixpoint check_fields (d : Definition_) (seen : gmap string Property) (ps : list Property) : option error :=
  match ps with
  | [] => None
  | p :: ps' =>
      match transformPropertyName (p_Name p) config with
      | inr e => Some (collision_error "" (Some e))
      | inl fieldName =>
          match seen !! fieldName with
          | Some prior => Some (collision_error ("field " +:+ fieldName +:+ " on " +:+ kind_name (d_Kind d) +:+ " " +:+
              d_Name d +:+ " (" +:+ Join (d_Files d) ", " +:+ ") claimed by both properties " +:+ p_Name prior +:+
              " and " +:+ p_Name p) None)
          | None => check_fields d (<[fieldName := p]> seen) ps'
          end
      end
  end.

(** The first error of a list of checks. *)
Fixpoint first_error {A : Type} (f : A → option error) (l : list A) : option error :=
  match l with [] => None | x :: l' => match f x with Some e => Some e | None => first_error f l' end end.

Definition checkFieldCollisions : option error :=
  first_error (λ d, check_fields d ∅ (d_Properties d)) rendered_structs.

Fixpoint check_tags (seen : gmap string Definition_) (names : list string) : option error :=
  match names with
  | [] => None
  | n :: names' =>
      match findDefinitionByName (Definitions ir) n with
      | None => check_tags seen names'
      | Some d =>
          if bool_decide (d_Kind d ≠ DefinitionEnum) then check_tags seen names' else
          match validatorTagName config (d_Name d) with
          | inr e => Some (collision_error "" (Some e))
          | inl tag =>
              match seen !! tag with
              | Some prior => Some (collision_error ("validator " +:+ tag +:+ " registered by both enum " +:+ d_Name prior +:+
                  " (" +:+ Join (d_Files prior) ", " +:+ ") and enum " +:+ d_Name d +:+ " (" +:+ Join (d_Files d) ", " +:+ ")") None)
              | None => check_tags (<[tag := d]> seen) names'
              end
          end
      end
  end.

Definition checkValidatorTagCollisions : option error := check_tags ∅ (sortedPlacedNames placement).

Definition CheckEmissionCollisions : option error :=
  match checkPackageCollisions with
  | Some e => Some e
  | None => match checkFieldCollisions with
            | Some e => Some e
            | None => checkValidatorTagCollisions
            end
  end.
End collisions.
