(* ===== verification/CgSchema.v ===== *)
(** * The code generator: reading one schema file

    src/internal/codegen/schema.go.  A JSON value keeps the order of its members and
    the text of its numbers ([raw], the [json.RawMessage]s of the reader).  The file
    system, the JSON decoder and [strconv.ParseFloat] are parameters; what
    [json.Unmarshal] does with a value and a Go type is written out. *)

From Stdlib Require Import Ascii QArith.Qcanon.
From S2P Require Import Prelude Ocpp CgIR CgMapping.
Local Open Scope string_scope.
Local Open Scope list_scope.

(** ** Results *)

Definition result (A : Type) : Type := A + error.
#[export] Instance result_ret : MRet result := λ A x, inl x.
#[export] Instance result_bind : MBind result := λ A B f x, match x with inl a => f a | inr e => inr e end.

(** [fmt.Errorf("...: %v", err)] *)
Definition wrap {A : Type} (text : string) (x : result A) : result A :=
  match x with inl a => inl a | inr e => inr (Errorf (text +:+ ": " +:+ error_text e) None) end.
Definition fail {A : Type} (text : string) : result A := inr (Errorf text None).

Lemma bind_inl {A B : Type} (f : A → result B) (x : result A) b : mbind f x = inl b → ∃ a, x = inl a ∧ f a = inl b.
Proof. destruct x; [eauto|discriminate]. Qed.
Lemma wrap_inl {A : Type} text (x : result A) a : wrap text x = inl a → x = inl a.
Proof. destruct x; [auto|discriminate]. Qed.

(** ** JSON values *)

Inductive raw :=
| RNull
| RBool (b : bool)
| RNumber (literal : string)
| RString (s : string)
| RArray (l : list raw)
| RObject (members : list (string * raw)).

(** The members in the order of the text; a key may occur twice, and then the
    last value counts. *)
Definition rawObject : Type := list (string * raw).
Definition keys (o : rawObject) : list string := o.*1.
Definition value_with {B : Type} (f : raw → B) (key : string) : rawObject → option B :=
  fix go o := match o with
              | [] => None
              | (k, v) :: o' => match go o' with
                                | Some b => Some b
                                | None => if bool_decide (k = key) then Some (f v) else None
                                end
              end.
Definition value (o : rawObject) (key : string) : option raw := value_with id key o.
Definition members (r : raw) : rawObject := match r with RObject o => o | _ => [] end.

Definition decodeOrderedObject (r : raw) : result rawObject :=
  match r with RObject o => inl o | _ => fail "expected a JSON object" end.

(** What follows the first value of a file. *)
Inductive trailing := AtEOF | Content | BadContent (e : error).

Definition rawObjectField (parent : rawObject) (key : string) : result rawObject :=
  match value parent key with None => inl [] | Some r => decodeOrderedObject r end.

(** [json.Unmarshal] into a Go variable that holds the zero value: null changes
    nothing and is no error. *)
Definition type_error {A : Type} (type : string) : result A :=
  fail ("json: cannot unmarshal into Go value of type " +:+ type).
Definition unmarshal_string (r : raw) : result string :=
  match r with RNull => inl "" | RString s => inl s | _ => type_error "string" end.
Definition unmarshal_bool (r : raw) : result bool :=
  match r with RNull => inl false | RBool b => inl b | _ => type_error "bool" end.

Definition digit (c : ascii) : option Z :=
  if IsDigit c then Some (Z.of_N (Ascii.N_of_ascii c) - 48)%Z else None.
Fixpoint digits (acc : Z) (l : list ascii) : option Z :=
  match l with
  | [] => Some acc
  | c :: l' => match digit c with Some d => digits (10 * acc + d)%Z l' | None => None end
  end.
(** [strconv.ParseInt(s, 10, 64)] of a JSON number *)
Definition ParseInt (s : string) : option Z :=
  match (match chars s with
         | "-"%char :: (_ :: _) as l => Z.opp <$> digits 0 (tail l)
         | _ :: _ => digits 0 (chars s)
         | [] => None
         end) with
  | Some z => if bool_decide (in_int64 z) then Some z else None
  | None => None
  end.
Definition unmarshal_int (r : raw) : result Z :=
  match r with
  | RNull => inl 0%Z
  | RNumber s => match ParseInt s with Some z => inl z | None => type_error "int" end
  | _ => type_error "int"
  end.

Fixpoint unmarshal_elements (l : list raw) : result (list string) :=
  match l with
  | [] => mret []
  | r :: l' => s ← unmarshal_string r; k ← unmarshal_elements l'; mret (s :: k)
  end.
Definition unmarshal_strings (r : raw) : result (list string) :=
  match r with RNull => inl [] | RArray l => unmarshal_elements l | _ => type_error "[]string" end.

(** ** Recognized keywords *)

Definition rootRecognized : list string :=
  ["$schema"; "$id"; "title"; "type"; "properties"; "required"; "definitions"; "additionalProperties"; "javaType"; "comment";
   "description"].
Definition definitionRecognized : list string :=
  ["type"; "properties"; "required"; "enum"; "additionalProperties"; "$ref"; "javaType"; "comment"; "description"; "default"].
Definition propertyRecognized : list string :=
  ["type"; "format"; "$ref"; "maxLength"; "minLength"; "minimum"; "maximum"; "exclusiveMinimum"; "exclusiveMaximum";
   "minItems"; "maxItems"; "pattern"; "additionalProperties"; "items"; "javaType"; "comment"; "description"; "default";
   "additionalItems"].
Definition unrecognized (recognized : list string) (o : rawObject) : option string :=
  head (filter (λ k, k ∉ recognized) (keys o)).

Definition rootPointer : string := "#".
Definition draft06Dialect : string := "http://json-schema.org/draft-06/schema#".
Definition idPrefix : string := "urn:OCPP:Cp:2:2020:3:".
Definition rootTypes : list string := ["object"].
Definition objectDefinitionTypes : list string := ["object"].
Definition enumDefinitionTypes : list string := ["string"].
Definition propertyTypes : list string := ["array"; "boolean"; "integer"; "number"; "string"].

Definition quotedList (values : list string) : string := Join (map quoted values) ", ".

(** ** Paths *)

(** [filepath.Base] *)
Fixpoint drop_slashes (l : list ascii) : list ascii :=
  match l with "/"%char :: l' => drop_slashes l' | _ => l end.
Fixpoint until_slash (l : list ascii) : list ascii :=
  match l with [] => [] | c :: l' => if bool_decide (c = "/"%char) then [] else c :: until_slash l' end.
Definition Base (path : string) : string :=
  if bool_decide (path = "") then "." else
  match drop_slashes (reverse (chars path)) with
  | [] => "/"
  | l => of_chars (reverse (until_slash l))
  end.
Definition stem_of (path : string) : string := TrimSuffix (Base path) ".json".

(** ** Documents *)

Record SchemaDocument := mkDocument {
  doc_File : string;
  doc_ID : string;
  doc_Title : string;
  doc_AdditionalProperties : option bool;
  doc_Root : Definition_;
  doc_Definitions : list Definition_
}.

Record definitionInfo := mkInfo { i_kind : DefinitionKind; i_values : list string; i_additionalProperties : option bool }.
(** The Go zero value, read for a name that is not in the map. *)
Definition no_info : definitionInfo := mkInfo (OtherKind "") [] None.

Section reader.
Context (ReadFile : string → result string) (Decode : string → result (raw * trailing)) (ParseFloat : string → option Qc).

Definition unmarshal_float (r : raw) : result Qc :=
  match r with
  | RNull => inl 0%Qc
  | RNumber s => match ParseFloat s with Some q => inl q | None => type_error "float64" end
  | _ => type_error "float64"
  end.

Definition decodeOrderedDocument (data : string) : result rawObject :=
  rt ← Decode data;
  object ← decodeOrderedObject rt.1;
  match rt.2 with
  | AtEOF => mret object
  | Content => fail "unexpected content after the root object"
  | BadContent e => wrap "malformed content after the root object" (inr e)
  end.

Section file.
Context (path : string).

Definition read_error {A : Type} (text : string) : result A := fail ("read schema " +:+ path +:+ ": " +:+ text).
Definition in_file {A : Type} (text : string) (x : result A) : result A := wrap ("read schema " +:+ path +:+ text) x.

(** A keyword that may be absent. *)
Definition optional {A : Type} (f : raw → result A) (o : rawObject) (key : string) : result (option A) :=
  match value o key with None => mret None | Some r => v ← f r; mret (Some v) end.
Definition stringValue (o : rawObject) (key location : string) : result (option string) :=
  in_file (": " +:+ location +:+ "/" +:+ key +:+ " is not a JSON string") (optional unmarshal_string o key).
Definition boolValue : rawObject → string → result (option bool) := optional unmarshal_bool.
Definition intValue : rawObject → string → result (option Z) := optional unmarshal_int.
Definition floatValue : rawObject → string → result (option Qc) := optional unmarshal_float.

Definition checkType (objectPointer value : string) (accepted : list string) : result unit :=
  if bool_decide (value ∈ accepted) then mret tt
  else read_error (objectPointer +:+ "/type is " +:+ quoted value +:+ ", which is not a type accepted there (accepted: " +:+
                   quotedList accepted +:+ ")").
Definition requireType (objectPointer : string) (value : option string) (accepted : list string) : result unit :=
  match value with
  | None => read_error ("no type is declared at " +:+ objectPointer +:+ "/type (expected: " +:+ quotedList accepted +:+ ")")
  | Some v => checkType objectPointer v accepted
  end.

Definition parseEnumValues (name : string) (entry : rawObject) : result (list string) :=
  match value entry "enum" with
  | None => read_error ("enum definition " +:+ name +:+ " has no enum values")
  | Some r =>
      values ← in_file (": enum definition " +:+ name +:+ " has malformed enum values") (unmarshal_strings r);
      match values with
      | [] => read_error ("enum definition " +:+ name +:+ " has no enum values")
      | _ => mret values
      end
  end.

Definition requiredSet (o : rawObject) : result (list string) :=
  match value o "required" with None => mret [] | Some r => unmarshal_strings r end.

Section properties.
Context (infos : gmap string definitionInfo).

Definition resolveLocalRef (pointer ref : string) : result string :=
  if negb (HasPrefix ref "#/definitions/") then read_error (pointer +:+ " has a non-local $ref " +:+ ref) else
  let name := TrimPrefix ref "#/definitions/" in
  if bool_decide (name = "") || bool_decide ("/"%char ∈ chars name)
  then read_error (pointer +:+ " has a non-local $ref " +:+ ref)
  else if bool_decide (is_Some (infos !! name)) then mret name
  else read_error (pointer +:+ " references undefined local target " +:+ ref).

(** A property that is a reference, and one with neither a reference nor a type. *)
Definition ref_property (name pointer : string) (required : bool) (ref target : string) : Property :=
  let info := default no_info (infos !! target) in
  let is_enum := bool_decide (i_kind info = DefinitionEnum) in
  mkProperty name pointer "" "" required (if is_enum then i_values info else []) ref (if is_enum then target else "")
    None None None None None None None None "" (i_additionalProperties info) None false.
Definition untyped_property (name pointer : string) (required : bool) : Property :=
  mkProperty name pointer "" "" required [] "" "" None None None None None None None None "" None None true.

Fixpoint parseProperty (r : raw) (name pointer : string) (required : bool) : result Property :=
  let obj := members r in
  match unrecognized propertyRecognized obj with
  | Some key => read_error ("unrecognized schema keyword at " +:+ pointer +:+ "/" +:+ key)
  | None =>
      match value obj "$ref" with
      | Some refRaw =>
          ref ← in_file (": " +:+ pointer +:+ " has a malformed $ref") (unmarshal_string refRaw);
          target ← resolveLocalRef pointer ref;
          mret (ref_property name pointer required ref target)
      | None =>
          typ ← stringValue obj "type" pointer;
          match typ with
          | None => mret (untyped_property name pointer required)
          | Some typ =>
              _ ← checkType pointer typ propertyTypes;
              format ← stringValue obj "format" pointer;
              maxLength ← in_file (": " +:+ pointer +:+ " maxLength") (intValue obj "maxLength");
              minLength ← in_file (": " +:+ pointer +:+ " minLength") (intValue obj "minLength");
              minItems ← in_file (": " +:+ pointer +:+ " minItems") (intValue obj "minItems");
              maxItems ← in_file (": " +:+ pointer +:+ " maxItems") (intValue obj "maxItems");
              minimum ← in_file (": " +:+ pointer +:+ " minimum") (floatValue obj "minimum");
              maximum ← in_file (": " +:+ pointer +:+ " maximum") (floatValue obj "maximum");
              exclusiveMinimum ← in_file (": " +:+ pointer +:+ " exclusiveMinimum") (floatValue obj "exclusiveMinimum");
              exclusiveMaximum ← in_file (": " +:+ pointer +:+ " exclusiveMaximum") (floatValue obj "exclusiveMaximum");
              pattern ← stringValue obj "pattern" pointer;
              additionalProperties ← in_file (": " +:+ pointer +:+ " additionalProperties") (boolValue obj "additionalProperties");
              items ← match (match r with
                             | RObject o =>
                                 value_with (λ itemsRaw,
                                   _ ← in_file (": " +:+ pointer +:+ "/items") (decodeOrderedObject itemsRaw);
                                   parseProperty itemsRaw "" (pointer +:+ "/items") false) "items" o
                             | _ => None
                             end) with
                      | None => mret None
                      | Some x => i ← x; mret (Some i)
                      end;
              mret (mkProperty name pointer typ (default "" format) required [] "" "" maxLength minLength minimum maximum
                      ((λ q, mkBound None (Some q)) <$> exclusiveMinimum) ((λ q, mkBound None (Some q)) <$> exclusiveMaximum)
                      minItems maxItems (default "" pattern) additionalProperties items false)
          end
      end
  end.

Fixpoint parse_members (properties : rawObject) (objectPointer : string) (required : list string) (names : list string)
    : result (list Property) :=
  match names with
  | [] => mret []
  | name :: names' =>
      let r := default RNull (value properties name) in
      _ ← in_file (": malformed property " +:+ name) (decodeOrderedObject r);
      p ← parseProperty r name (objectPointer +:+ "/properties/" +:+ name) (bool_decide (name ∈ required));
      ps ← parse_members properties objectPointer required names';
      mret (p :: ps)
  end.

Definition parseProperties (obj : rawObject) (objectPointer : string) : result (list Property) :=
  required ← in_file (": malformed required array at " +:+ objectPointer +:+ "/required") (requiredSet obj);
  match value obj "properties" with
  | None => mret []
  | Some propertiesRaw =>
      properties ← in_file ": malformed properties object" (decodeOrderedObject propertiesRaw);
      parse_members properties objectPointer required (keys properties)
  end.
End properties.

(** ** The first pass: kinds and values *)

Definition classify_one (name : string) (r : raw) : result definitionInfo :=
  entry ← in_file (": malformed definition " +:+ name) (decodeOrderedObject r);
  if bool_decide (keys entry = ["$ref"]) then
    ref ← stringValue entry "$ref" ("#/definitions/" +:+ name);
    read_error ("definition " +:+ name +:+ " at #/definitions/" +:+ name +:+ " is a direct reference indirection to " +:+
                default "" ref +:+ ", which is not permitted")
  else
  match unrecognized definitionRecognized entry with
  | Some key => read_error ("unrecognized schema keyword " +:+ quoted key +:+ " on definition " +:+ name)
  | None =>
      kv ← match value entry "enum" with
           | Some _ => values ← parseEnumValues name entry; mret (DefinitionEnum, values)
           | None => mret (DefinitionObject, [])
           end;
      definitionType ← stringValue entry "type" ("#/definitions/" +:+ name);
      _ ← requireType ("#/definitions/" +:+ name) definitionType
            (if bool_decide (kv.1 = DefinitionEnum) then enumDefinitionTypes else objectDefinitionTypes);
      additionalProperties ← in_file (": additionalProperties on definition " +:+ name) (boolValue entry "additionalProperties");
      mret (mkInfo kv.1 kv.2 additionalProperties)
  end.

Fixpoint classify (definitionsRaw : rawObject) (names : list string) (infos : gmap string definitionInfo)
    : result (gmap string definitionInfo) :=
  match names with
  | [] => mret infos
  | name :: names' =>
      info ← classify_one name (default RNull (value definitionsRaw name));
      classify definitionsRaw names' (<[name := info]> infos)
  end.

(** ** The second pass: properties *)

Definition build_one (definitionsRaw : rawObject) (infos : gmap string definitionInfo) (name : string) : result Definition_ :=
  let info := default no_info (infos !! name) in
  properties ← (if bool_decide (i_kind info = DefinitionEnum) then mret []
                else parseProperties infos (members (default RNull (value definitionsRaw name))) ("#/definitions/" +:+ name));
  mret (mkDefinition name (i_kind info) properties (if bool_decide (i_kind info = DefinitionEnum) then i_values info else [])
          (i_additionalProperties info) (bool_decide (name = "CustomDataType")) 1 [Base path]).

Fixpoint build (definitionsRaw : rawObject) (infos : gmap string definitionInfo) (names : list string) : result (list Definition_) :=
  match names with
  | [] => mret []
  | name :: names' =>
      d ← build_one definitionsRaw infos name;
      ds ← build definitionsRaw infos names';
      mret (d :: ds)
  end.

(** The checks of [ReadSchema] on the keywords of the root: $id, title,
    additionalProperties. *)
Definition read_header (root : rawObject) : result (string * string * option bool) :=
  match unrecognized rootRecognized root with
  | Some key => read_error ("unrecognized schema keyword " +:+ quoted key +:+ " at the document root")
  | None =>
      schemaKeyword ← stringValue root "$schema" rootPointer;
      _ ← match schemaKeyword with
          | None => read_error ("no dialect is declared at " +:+ rootPointer +:+ "/$schema")
          | Some s => if bool_decide (s = draft06Dialect) then mret tt
                      else read_error ("unsupported schema dialect " +:+ quoted s +:+ " at " +:+ rootPointer +:+ "/$schema")
          end;
      ido ← stringValue root "$id" rootPointer;
      let id := default "" ido in
      _ ← (if HasPrefix id idPrefix then mret tt
           else read_error ("schema $id " +:+ quoted id +:+ " is not a well-formed " +:+ idPrefix +:+ " identifier"));
      _ ← (if bool_decide (TrimPrefix id idPrefix = stem_of path) then mret tt
           else read_error ("schema $id trailing segment does not match the file stem " +:+ quoted (stem_of path)));
      title ← stringValue root "title" rootPointer;
      rootType ← stringValue root "type" rootPointer;
      _ ← requireType rootPointer rootType rootTypes;
      additionalProperties ← in_file ": additionalProperties at the document root" (boolValue root "additionalProperties");
      mret (id, default "" title, additionalProperties)
  end.

Definition read_document (root : rawObject) : result SchemaDocument :=
  header ← read_header root;
  let '(id, title, additionalProperties) := header in
  definitionsRaw ← in_file ": malformed definitions object" (rawObjectField root "definitions");
  infos ← classify definitionsRaw (keys definitionsRaw) ∅;
  definitions ← build definitionsRaw infos (keys definitionsRaw);
  rootProperties ← parseProperties infos root rootPointer;
  mret (mkDocument (Base path) id title additionalProperties
          (mkDefinition (stem_of path) DefinitionRoot rootProperties [] additionalProperties false 1 [Base path]) definitions).
End file.

Definition ReadSchema (path : string) : result SchemaDocument :=
  data ← in_file path "" (ReadFile path);
  root ← in_file path "" (decodeOrderedDocument data);
  read_document path root.
End reader.
