(* ===== verification/CgWalk.v ===== *)
(** * The code generator: building the intermediate representation

    src/internal/codegen/walk.go and [WalkSchema] of schema.go: the definitions a
    message reaches ([computeReach]), the merging of equal definitions
    ([Deduplicate]), the search for reference cycles ([DetectCycles]), and
    [WalkSchemas], which reads the files of the manifest's rows.  [Join] of the
    schema directory and a file name is the parameter [schema_path]. *)

From Stdlib Require Import QArith.Qcanon.
From S2P Require Import Prelude Ocpp CgIR CgMapping CgPlacement CgSchema.
Local Open Scope string_scope.
Local Open Scope list_scope.

(** [strings.TrimPrefix(ref, "#/definitions/")] *)
Definition ref_name (ref : string) : string := TrimPrefix ref "#/definitions/".

(** ** Reach *)

Definition lookup_table (definitions : list Definition_) : gmap string Definition_ :=
  foldl (λ m d, <[d_Name d := d]> m) ∅ definitions.

Section visit.
(** What [visit] does with the properties of a definition it enters. *)
Context (enter : string → gset string → option (gset string)).

Fixpoint visit_property (p : Property) (reached : gset string) : option (gset string) :=
  match (if bool_decide (p_Ref p ≠ "") then
           let name := ref_name (p_Ref p) in
           if bool_decide (name ∈ reached) then Some reached else enter name ({[name]} ∪ reached)
         else Some reached) with
  | None => None
  | Some reached' => match p_Items p with Some items => visit_property items reached' | None => Some reached' end
  end.

Fixpoint visit_properties (ps : list Property) (reached : gset string) : option (gset string) :=
  match ps with
  | [] => Some reached
  | p :: ps' => match visit_property p reached with Some reached' => visit_properties ps' reached' | None => None end
  end.
End visit.

(** [visit]; the fuel bounds the nesting of definitions. *)
Fixpoint visit (fuel : nat) (lookup : gmap string Definition_) (ps : list Property) (reached : gset string)
    : option (gset string) :=
  visit_properties
    (λ name r, match lookup !! name with
               | Some d => match fuel with 0 => None | S fuel' => visit fuel' lookup (d_Properties d) r end
               | None => Some r
               end) ps reached.

Definition computeReach (requestDoc responseDoc : SchemaDocument) : option (list string) :=
  let lookup := lookup_table (doc_Definitions requestDoc ++ doc_Definitions responseDoc) in
  match visit (size lookup) lookup (d_Properties (doc_Root requestDoc)) ∅ with
  | None => None
  | Some r1 => match visit (size lookup) lookup (d_Properties (doc_Root responseDoc)) r1 with
               | None => None
               | Some r2 => Some (sort_strings (elements r2))
               end
  end.

(** ** Merging *)

(** The pointer of the first disagreement, or nothing. *)
Fixpoint first_difference (l k : list Property) : option string :=
  match l, k with
  | a :: l', b :: k' => if bool_decide (a = b) then first_difference l' k'
                        else Some (if bool_decide (p_Pointer a = "") then p_Pointer b else p_Pointer a)
  | _, _ => None
  end.

Definition definitionsStructurallyEqual (a b : Definition_) : option string :=
  if bool_decide (d_Kind a ≠ d_Kind b) then Some ("#/definitions/" +:+ d_Name a) else
  if bool_decide (d_AdditionalProperties a ≠ d_AdditionalProperties b)
  then Some ("#/definitions/" +:+ d_Name a +:+ "/additionalProperties") else
  if bool_decide (d_Kind a = DefinitionEnum) then
    if bool_decide (d_Values a = d_Values b) then None else Some ("#/definitions/" +:+ d_Name a +:+ "/enum")
  else
    if bool_decide (length (d_Properties a) ≠ length (d_Properties b)) then Some ("#/definitions/" +:+ d_Name a +:+ "/properties")
    else first_difference (d_Properties a) (d_Properties b).

Record group := mkGroup { canonical : Definition_; g_files : gset string; firstFiles : string }.

Definition without_files (d : Definition_) : Definition_ :=
  mkDefinition (d_Name d) (d_Kind d) (d_Properties d) (d_Values d) (d_AdditionalProperties d) (d_Reserved d) 0 [].
Definition with_files (files : gset string) (d : Definition_) : Definition_ :=
  mkDefinition (d_Name d) (d_Kind d) (d_Properties d) (d_Values d) (d_AdditionalProperties d) (d_Reserved d)
    (Z.of_nat (size files)) (sort_strings (elements files)).

Definition add_files (d : Definition_) (g : group) : group :=
  mkGroup (canonical g) (list_to_set (d_Files d) ∪ g_files g) (firstFiles g).

(** The loop of [Deduplicate]: the groups and the names in order of appearance. *)
Fixpoint group_definitions (definitions : list Definition_) (groups : gmap string group) (order : list string)
    : (gmap string group * list string) + error :=
  match definitions with
  | [] => inl (groups, order)
  | d :: ds =>
      match groups !! d_Name d with
      | None =>
          let g := mkGroup (without_files d) ∅ (Join (d_Files d) ",") in
          group_definitions ds (<[d_Name d := add_files d g]> groups) (order ++ [d_Name d])
      | Some g =>
          match definitionsStructurallyEqual (canonical g) d with
          | Some pointer => inr (Errorf ("deduplicate definitions: " +:+ firstFiles g +:+ " and " +:+ Join (d_Files d) "," +:+
              " disagree at " +:+ pointer +:+ " for definition " +:+ d_Name d) None)
          | None => group_definitions ds (<[d_Name d := add_files d g]> groups) order
          end
      end
  end.

Definition Deduplicate (definitions : list Definition_) : list Definition_ + error :=
  match group_definitions definitions ∅ [] with
  | inr e => inr e
  | inl (groups, order) =>
      inl (sort_by d_Name (omap (λ n, (λ g, with_files (g_files g) (canonical g)) <$> groups !! n) order))
  end.

(** ** Cycles *)

Record referenceHop := mkHop { h_name : string; h_pointer : string }.

Fixpoint propertyHops (p : Property) (pointer : string) : list referenceHop :=
  (if bool_decide (p_Ref p ≠ "") then [mkHop (ref_name (p_Ref p)) pointer] else []) ++
  match p_Items p with
  | Some items => propertyHops items (if bool_decide (p_Pointer items = "") then pointer +:+ "/items" else p_Pointer items)
  | None => []
  end.

Definition referencedHops (d : Definition_) : list referenceHop :=
  let prefix := if bool_decide (d_Kind d = DefinitionRoot) then "#/properties"
                else "#/definitions/" +:+ d_Name d +:+ "/properties" in
  flat_map (λ p, propertyHops p (if bool_decide (p_Pointer p = "") then prefix +:+ "/" +:+ p_Name p else p_Pointer p))
    (d_Properties d).

Inductive color := Visiting | Done.

(** The cycle found: the names entered from the first visit of the target on, and
    the target again; the pointers that join them. *)
Record cycle := mkCycle { c_names : list string; c_pointers : list string }.

Fixpoint from_hop (target : string) (trail : list referenceHop) : list referenceHop :=
  match trail with
  | [] => []
  | h :: t => if bool_decide (h_name h = target) then trail else from_hop target t
  end.

Definition found_cycle (trail : list referenceHop) (h : referenceHop) : cycle :=
  let loop := from_hop (h_name h) trail in
  mkCycle (map h_name loop ++ [h_name h]) (map h_pointer (tail loop) ++ [h_pointer h]).

Section search.
Context (enter : referenceHop → gmap string color → option (gmap string color + cycle)).
Fixpoint visit_hops (hops : list referenceHop) (st : gmap string color) : option (gmap string color + cycle) :=
  match hops with
  | [] => Some (inl st)
  | h :: hops' => match enter h st with
                  | Some (inl st') => visit_hops hops' st'
                  | r => r
                  end
  end.
End search.

(** [visit] of [DetectCycles]; the fuel bounds the length of the trail. *)
Fixpoint visit_hop (fuel : nat) (byName : gmap string Definition_) (trail : list referenceHop) (h : referenceHop)
    (st : gmap string color) : option (gmap string color + cycle) :=
  match fuel with
  | 0 => None
  | S fuel' =>
      match st !! h_name h with
      | Some Done => Some (inl st)
      | Some Visiting => Some (inr (found_cycle trail h))
      | None =>
          let st1 := <[h_name h := Visiting]> st in
          let r := match byName !! h_name h with
                   | Some d => visit_hops (visit_hop fuel' byName (trail ++ [h])) (referencedHops d) st1
                   | None => Some (inl st1)
                   end in
          match r with
          | Some (inl st2) => Some (inl (<[h_name h := Done]> st2))
          | _ => r
          end
      end
  end.

Fixpoint visit_definitions (fuel : nat) (byName : gmap string Definition_) (ds : list Definition_) (st : gmap string color)
    : option (gmap string color + cycle) :=
  match ds with
  | [] => Some (inl st)
  | d :: ds' => match (if bool_decide (st !! d_Name d = None) then visit_hop fuel byName [] (mkHop (d_Name d) "") st
                       else Some (inl st)) with
                | Some (inl st') => visit_definitions fuel byName ds' st'
                | r => r
                end
  end.

Definition DetectCycles (definitions : list Definition_) : option (option cycle) :=
  let byName := lookup_table definitions in
  match visit_definitions (S (size byName)) byName definitions ∅ with
  | None => None
  | Some (inl _) => Some None
  | Some (inr c) => Some (Some c)
  end.

(** The text of the error. *)
Definition cycle_error (c : cycle) : error :=
  Errorf ("definitions reference cycle: " +:+ Join (c_names c) " -> " +:+ " (through " +:+ Join (c_pointers c) " -> " +:+ ")") None.

(** ** The walk *)

Record ManifestMessage := mkManifestMessage {
  mm_Name : string; mm_Block : string; mm_Direction : string; mm_Request : string; mm_Response : string; mm_Emit : bool
}.

Section walk.
Context (ReadFile : string → result string) (Decode : string → result (raw * trailing)) (ParseFloat : string → option Qc)
        (schema_path : string → string).

Definition out_of_fuel : error := Errorf "out of fuel" None.

Definition WalkSchema (path : string) : SchemaDocument + error :=
  match ReadSchema ReadFile Decode ParseFloat path with
  | inr e => inr e
  | inl document =>
      match DetectCycles (doc_Root document :: doc_Definitions document) with
      | None => inr out_of_fuel
      | Some (Some c) => inr (Errorf ("walk schema " +:+ path +:+ ": " +:+ error_text (cycle_error c)) (Some (cycle_error c)))
      | Some None => inl document
      end
  end.

(** The documents read so far, and the definitions in the order of reading. *)
Definition walk_state : Type := gmap string SchemaDocument * list Definition_.

Definition readFile (filename : string) (st : walk_state) : (walk_state * SchemaDocument) + error :=
  match st.1 !! filename with
  | Some document => inl (st, document)
  | None => match WalkSchema (schema_path filename) with
            | inr e => inr e
            | inl document => inl ((<[filename := document]> st.1, st.2 ++ doc_Root document :: doc_Definitions document), document)
            end
  end.

Fixpoint walk_rows (rows : list ManifestMessage) (st : walk_state) : (walk_state * list Message) + error :=
  match rows with
  | [] => inl (st, [])
  | row :: rows' =>
      match readFile (mm_Request row) st with
      | inr e => inr e
      | inl (st1, requestDoc) =>
          match readFile (mm_Response row) st1 with
          | inr e => inr e
          | inl (st2, responseDoc) =>
              match computeReach requestDoc responseDoc with
              | None => inr out_of_fuel
              | Some reach =>
                  let q := d_Name (doc_Root requestDoc) in
                  let a := d_Name (doc_Root responseDoc) in
                  match walk_rows rows' st2 with
                  | inr e => inr e
                  | inl (st3, ms) =>
                      inl (st3, mkMessage (mm_Name row) (mm_Block row) (mm_Direction row) (mm_Request row) (mm_Response row)
                                  q a (sort_strings [q; a]) reach (mm_Emit row) :: ms)
                  end
              end
          end
      end
  end.

Definition WalkSchemas (rows : list ManifestMessage) : IR + error :=
  match walk_rows rows (∅, []) with
  | inr e => inr e
  | inl (st, messages) =>
      match Deduplicate st.2 with
      | inr e => inr e
      | inl definitions => inl (mkIR definitions (sort_by m_Name messages))
      end
  end.
End walk.
