(* ===== verification/CgOverrides.v ===== *)
(** * The code generator: the table of tag overrides

    src/internal/codegen/overrides.go: the checks of [LoadOverrides] on a decoded
    table, in two passes, the composition of rows onto base tags, the report.  The
    file system, the strict YAML decoder and [strconv.ParseFloat] are parameters;
    tokens are ASCII. *)

From Stdlib Require Import Ascii QArith.Qcanon.
From S2P Require Import Prelude Ocpp CgIR CgMapping CgPlacement CgSchema.
Local Open Scope string_scope.
Local Open Scope list_scope.

Record OverrideConfig := mkConfig { c_Version : string; TagOverrides : list OverrideRow; DedupAllowlist : list OverrideRow }.

(** The definition and the property. *)
Definition OverrideTarget : Type := string * string.
Definition target_of (row : OverrideRow) : OverrideTarget := (o_Definition row, o_Property row).
Record OverrideMapping := mkMapping { BaseTags : list string; GoKind : string; om_FieldName : string }.
Notation OverrideMappings := (gmap OverrideTarget OverrideMapping).

(** ** Text *)

(** [strings.Index(token, "=")], as the text before and after. *)
Fixpoint cut_eq (l : list ascii) : option (list ascii * list ascii) :=
  match l with
  | [] => None
  | c :: l' => if bool_decide (c = "="%char) then Some ([], l') else (λ ab, (c :: ab.1, ab.2)) <$> cut_eq l'
  end.
Definition tagFamily (token : string) : string :=
  match cut_eq (chars token) with Some (a, _) => of_chars a | None => token end.
Definition tag_value (token : string) : option string := (λ ab, of_chars ab.2) <$> cut_eq (chars token).

Definition IsPrint (c : ascii) : bool := between 32 (Ascii.N_of_ascii c) 126.
Definition all_digits (l : list ascii) : bool := forallb IsDigit l.

(** [cardinalityTagValuePattern], [boundTagValuePattern] *)
Definition whole_number (l : list ascii) : bool :=
  match l with
  | [] => false
  | "0"%char :: l' => bool_decide (l' = [])
  | _ => all_digits l
  end.
Definition cardinality_value (v : string) : bool := whole_number (chars v).
Fixpoint cut_dot (l : list ascii) : list ascii * option (list ascii) :=
  match l with
  | [] => ([], None)
  | c :: l' => if bool_decide (c = "."%char) then ([], Some l') else let ab := cut_dot l' in (c :: ab.1, ab.2)
  end.
Definition bound_value (v : string) : bool :=
  let l := match chars v with "-"%char :: l' => l' | l => l end in
  let ab := cut_dot l in
  whole_number ab.1 && match ab.2 with None => true | Some [] => false | Some f => all_digits f end.

Definition ParseUint (s : string) : option Z :=
  match chars s with
  | [] => None
  | l => match digits 0 l with Some z => if bool_decide (z < 2 ^ 64)%Z then Some z else None | None => None end
  end.

(** [time.Parse("2006-01-02", s)] succeeds. *)
Definition leap (y : Z) : bool := bool_decide (y mod 4 = 0)%Z && (negb (bool_decide (y mod 100 = 0)%Z) || bool_decide (y mod 400 = 0)%Z).
Definition days_in (y m : Z) : Z :=
  if bool_decide (m = 2)%Z then if leap y then 29 else 28
  else if bool_decide (m ∈ [4; 6; 9; 11]%Z) then 30 else 31.
Definition valid_date (s : string) : bool :=
  match chars s with
  | [y1; y2; y3; y4; "-"%char; m1; m2; "-"%char; d1; d2] =>
      match digits 0 [y1; y2; y3; y4], digits 0 [m1; m2], digits 0 [d1; d2] with
      | Some y, Some m, Some d => bool_decide (1 <= m <= 12)%Z && bool_decide (1 <= d <= days_in y m)%Z
      | _, _, _ => false
      end
  | _ => false
  end.

Fixpoint drop_spaces (l : list ascii) : list ascii :=
  match l with c :: l' => if is_space c then drop_spaces l' else l | [] => [] end.
Definition TrimSpace (s : string) : string := of_chars (reverse (drop_spaces (reverse (drop_spaces (chars s))))).

(** [strings.Split(s, ",")] *)
Fixpoint split_comma (word l : list ascii) : list string :=
  match l with
  | [] => [of_chars word]
  | c :: l' => if bool_decide (c = ","%char) then of_chars word :: split_comma [] l' else split_comma (word ++ [c]) l'
  end.
Definition splitValidateTag (validateTag : string) : list string :=
  let inner := TrimSuffix (TrimPrefix validateTag ("validate:" +:+ dq)) dq in
  if bool_decide (inner = "") then [] else split_comma [] (chars inner).

Definition rowKey (definition property : string) : string :=
  if bool_decide (property = "") then definition else definition +:+ "." +:+ property.
Definition key_of (row : OverrideRow) : string := rowKey (o_Definition row) (o_Property row).

Definition findPropertyByName (properties : list Property) (name : string) : option Property :=
  head (filter (λ p, p_Name p = name) properties).

(** ** Owners of families *)

Record familyOwner := mkOwner { fo_token : string; fo_row : string }.
(** The scope and the family; [dive] is outside every scope. *)
Definition familyKey : Type := Z * string.

(** The owners and the tokens of the targets met so far. *)
Notation targets := (gmap OverrideTarget (gmap familyKey familyOwner * list string)).

Section loader.
Context (ParseFloat : string → option Qc) (path : string).

Definition load_error {A : Type} (text : string) : result A := fail ("load overrides " +:+ path +:+ ": " +:+ text).
Definition row_error {A : Type} (key text : string) : result A := load_error ("row " +:+ key +:+ ": " +:+ text).

Definition legalOverrideVersions : list string := ["v201"].
Definition checkOverrideConfigVersion (version : string) : result unit :=
  if bool_decide (version ∈ legalOverrideVersions) then mret tt
  else load_error ("unknown version " +:+ quoted version +:+ ", want one of [" +:+ Join legalOverrideVersions " " +:+ "]").

(** ** The first pass *)

Definition checkRowIdentityFields (key : string) (row : OverrideRow) : result unit :=
  if blank (o_Definition row) then load_error "a tagOverrides row is missing its definition" else
  if blank (o_Property row) then load_error ("row " +:+ key +:+ " is missing property, the other half of its key") else
  if blank (o_Tag row) then load_error ("row " +:+ key +:+ " is missing tag") else mret tt.

Fixpoint require_fields (key : string) (fields : list (string * string)) : result unit :=
  match fields with
  | [] => mret tt
  | (name, v) :: fields' => if blank v then row_error key (name +:+ " is required and must be non-empty") else require_fields key fields'
  end.
Definition checkRecordCompleteness (key : string) (row : OverrideRow) : result unit :=
  require_fields key [("rule", o_Rule row); ("rationale", o_Rationale row); ("source", o_Source row); ("author", o_Author row);
                      ("date", o_Date row)].
Definition checkDateParseable (key : string) (row : OverrideRow) : result unit :=
  if valid_date (o_Date row) then mret tt
  else row_error key ("date " +:+ quoted (o_Date row) +:+ " is not a valid date (want YYYY-MM-DD)").
Definition checkRuleValue (key : string) (row : OverrideRow) : result unit :=
  if bool_decide (o_Rule row ∈ ["add"; "tighten"]) then mret tt else row_error key ("unknown rule " +:+ quoted (o_Rule row)).
Definition checkTightenHasFrom (key : string) (row : OverrideRow) : result unit :=
  if bool_decide (o_Rule row = "tighten") && blank (o_From row)
  then row_error key "rule tighten requires from, naming the base tag it replaces" else mret tt.

Fixpoint check_runes (key label token : string) (l : list ascii) : result unit :=
  match l with
  | [] => mret tt
  | c :: l' =>
      if bool_decide (c ∈ [","; "|"]%char) then row_error key (label +:+ " " +:+ quoted token +:+ " is not a single validator token")
      else if is_space c || negb (IsPrint c)
      then row_error key (label +:+ " " +:+ quoted token +:+ " carries whitespace or a non-printable character")
      else check_runes key label token l'
  end.
Definition checkTagTokenShape (key label token : string) : result unit :=
  _ ← check_runes key label token (chars token);
  if bool_decide (1 < length (filter (λ c, c = "="%char) (chars token)))%nat
  then row_error key (label +:+ " " +:+ quoted token +:+ " carries more than one =") else mret tt.

Definition checkValuedTagToken (key label token family : string) (pattern : string → bool) (shape : string) : result unit :=
  match tag_value token with
  | None => row_error key (label +:+ " " +:+ quoted token +:+ " carries no value: " +:+ family +:+ "= takes " +:+ shape)
  | Some v =>
      if negb (pattern v) then row_error key (label +:+ " " +:+ quoted token +:+ " carries the value " +:+ quoted v +:+ ", which is not " +:+ shape)
      else if bool_decide (family ∈ ["min"; "max"]) then
        match ParseInt v with
        | Some _ => mret tt
        | None => row_error key (label +:+ " " +:+ quoted token +:+ " is outside the range a length or item-count bound is read into")
        end
      else if bool_decide (family ∈ ["gte"; "lte"]) then
        match ParseFloat v with
        | Some _ => mret tt
        | None => row_error key (label +:+ " " +:+ quoted token +:+ " is outside the range any numeric bound is read into")
        end
      else mret tt
  end.

Definition checkTagVocabulary (key label token : string) (registeredValidators : list string) : result unit :=
  if bool_decide (token ∈ ["required"; "omitempty"]) then row_error key (label +:+ " " +:+ quoted token +:+ " is an optionality tag") else
  _ ← checkTagTokenShape key label token;
  let family := tagFamily token in
  if bool_decide (family = "dive") then
    if bool_decide (token = "dive") then mret tt else row_error key (label +:+ " " +:+ quoted token +:+ " carries a value: dive takes none")
  else if bool_decide (family ∈ ["max"; "min"]) then
    checkValuedTagToken key label token family cardinality_value "a non-negative whole number"
  else if bool_decide (family ∈ ["gte"; "lte"]) then checkValuedTagToken key label token family bound_value "a decimal number"
  else if bool_decide (token ∈ registeredValidators) then mret tt
  else row_error key (label +:+ " " +:+ quoted token +:+ " is not a recognized validator token").

Definition checkReachability (key definition property : string) (ir : IR) : result unit :=
  match findDefinitionByName (Definitions ir) definition with
  | None => row_error key ("definition " +:+ quoted definition +:+ " does not resolve to any message root or shared definition")
  | Some target =>
      if bool_decide (property = "") then mret tt else
      match findPropertyByName (d_Properties target) property with
      | None => row_error key ("property " +:+ quoted property +:+ " is not declared on " +:+ definition)
      | Some _ => mret tt
      end
  end.

Definition validate_row (ir : IR) (registeredValidators : list string) (row : OverrideRow) : result unit :=
  let key := key_of row in
  _ ← checkRowIdentityFields key row;
  _ ← checkRecordCompleteness key row;
  _ ← checkDateParseable key row;
  _ ← checkRuleValue key row;
  _ ← checkTightenHasFrom key row;
  _ ← checkTagVocabulary key "tag" (o_Tag row) registeredValidators;
  _ ← (if bool_decide (o_Rule row = "tighten") then checkTagVocabulary key "from" (o_From row) registeredValidators else mret tt);
  checkReachability key (o_Definition row) (o_Property row) ir.

(** A check of every row, up to the first failure. *)
Fixpoint each {A : Type} (f : A → result unit) (l : list A) : result unit :=
  match l with [] => mret tt | x :: l' => _ ← f x; each f l' end.

Definition validateTagOverrideRows (rows : list OverrideRow) (ir : IR) (registeredValidators : list string) : result unit :=
  each (validate_row ir registeredValidators) rows.

Definition validate_entry (ir : IR) (row : OverrideRow) : result unit :=
  let key := rowKey (o_Definition row) "" in
  _ ← (if blank (o_Definition row) then load_error "a dedupAllowlist entry is missing its definition" else mret tt);
  _ ← checkRecordCompleteness key row;
  _ ← checkDateParseable key row;
  _ ← checkRuleValue key row;
  checkReachability key (o_Definition row) "" ir.
Definition validateDedupAllowlistRows (rows : list OverrideRow) (ir : IR) : result unit := each (validate_entry ir) rows.

(** The key is the join of the four fields with NUL characters. *)
Definition nul : string := String (Ascii.ascii_of_nat 0) "".
Definition duplicate_key (row : OverrideRow) : string := Join [o_Version row; o_Definition row; o_Property row; o_Tag row] nul.
Fixpoint check_duplicates (seen : gset string) (rows : list OverrideRow) : result unit :=
  match rows with
  | [] => mret tt
  | row :: rows' =>
      if bool_decide (duplicate_key row ∈ seen) then
        load_error ("duplicate tag-override row for version " +:+ o_Version row +:+ ", " +:+ key_of row +:+ ", tag " +:+ o_Tag row)
      else check_duplicates ({[duplicate_key row]} ∪ seen) rows'
  end.
Definition checkDuplicateOverrideKeys (rows : list OverrideRow) : result unit := check_duplicates ∅ rows.

(** [sort.SliceStable] by definition, property and tag *)
Definition row_less (a b : OverrideRow) : bool :=
  if bool_decide (o_Definition a ≠ o_Definition b) then Strings.String.ltb (o_Definition a) (o_Definition b) else
  if bool_decide (o_Property a ≠ o_Property b) then Strings.String.ltb (o_Property a) (o_Property b) else
  Strings.String.ltb (o_Tag a) (o_Tag b).
Fixpoint insert_row (x : OverrideRow) (l : list OverrideRow) : list OverrideRow :=
  match l with
  | [] => [x]
  | y :: l' => if row_less y x then y :: insert_row x l' else x :: l
  end.
Definition sortOverrideRows (rows : list OverrideRow) : list OverrideRow := foldr insert_row [] rows.

(** ** Go kinds *)

Definition integerGoKinds : list string :=
  ["int"; "int8"; "int16"; "int32"; "int64"; "uint"; "uint8"; "uint16"; "uint32"; "uint64"].
Definition unsignedGoKinds : list string := ["uint"; "uint8"; "uint16"; "uint32"; "uint64"].
Definition numericGoKinds : list string := integerGoKinds ++ ["float32"; "float64"].
Definition isNumericGoKind (kind : string) : bool := bool_decide (TrimPrefix kind "*" ∈ numericGoKinds).
Definition isSliceOrMapGoKind (kind : string) : bool := HasPrefix kind "[]" || HasPrefix kind "map[".
Definition isStringGoKind (kind : string) : bool := bool_decide (TrimPrefix kind "*" = "string").

Definition checkBoundValueFitsGoKind (key tag goKind : string) : result unit :=
  match tag_value tag with
  | None => mret tt
  | Some v =>
      let base := TrimPrefix goKind "*" in
      let no text := row_error key ("tag " +:+ quoted tag +:+ " does not apply to Go kind " +:+ quoted goKind +:+ ": " +:+ text) in
      if negb (bool_decide (base ∈ integerGoKinds)) then mret tt
      else if bool_decide ("."%char ∈ chars v) then no "a bound on a whole-number field must itself be a whole number"
      else if bool_decide (base ∈ unsignedGoKinds) then
        if HasPrefix v "-" then no "a bound on an unsigned field may not be negative" else
        match ParseUint v with Some _ => mret tt | None => no "outside the range an unsigned field's bound is read into" end
      else match ParseInt v with Some _ => mret tt | None => no "outside the range a whole-number field's bound is read into" end
  end.

Definition checkFieldKindApplicability (key tag goKind : string) : result unit :=
  let family := tagFamily tag in
  let no text := row_error key ("tag " +:+ quoted tag +:+ " does not apply to Go kind " +:+ quoted goKind +:+ ": " +:+ text) in
  if bool_decide (family = "dive") then
    if isSliceOrMapGoKind goKind then mret tt else no "dive only applies to a slice or map field"
  else if bool_decide (family ∈ ["gte"; "lte"]) then
    if isNumericGoKind goKind then checkBoundValueFitsGoKind key tag goKind else no (family +:+ "= constrains a numeric field")
  else if bool_decide (family ∈ ["max"; "min"]) then
    if isStringGoKind goKind || isSliceOrMapGoKind goKind then mret tt else no (family +:+ "= constrains a string or slice field")
  else mret tt.

Definition parseNumericTagValue (token : string) : option Qc :=
  match tag_value token with Some v => ParseFloat v | None => None end.

(** ** Families and scopes *)

Definition ownershipKey (scope : Z) (family : string) : familyKey :=
  if bool_decide (family = "dive") then ((-1)%Z, family) else (scope, family).

Definition enumValueSetFamily : string := "enum value set".

Section second_pass.
Context (registeredValidators : list string).

Definition ownershipFamily (token : string) : string :=
  if bool_decide (token ∈ registeredValidators) then enumValueSetFamily else tagFamily token.

Definition validatedGoKind (goKind : string) (scope : Z) : string :=
  if bool_decide (0 < scope)%Z then TrimPrefix goKind "[]" else goKind.

Fixpoint carries_from (current scope : Z) (tokens : list string) : bool :=
  match tokens with
  | [] => false
  | t :: tokens' =>
      if bool_decide (current = scope) && bool_decide (t ∈ registeredValidators) then true
      else carries_from (if bool_decide (t = "dive") then current + 1 else current)%Z scope tokens'
  end.
Definition carriesRegisteredTokenInScope (tokens : list string) (scope : Z) : bool := carries_from 0 scope tokens.

Definition checkRegisteredTokenTarget (key token goKind : string) (tokens : list string) (scope : Z) : result unit :=
  if negb (bool_decide (token ∈ registeredValidators)) then mret tt else
  if isStringGoKind (validatedGoKind goKind scope) || carriesRegisteredTokenInScope tokens scope then mret tt
  else row_error key ("tag " +:+ quoted token +:+ " does not apply to Go kind " +:+ quoted (validatedGoKind goKind scope)).

Definition diveCount (tokens : list string) : Z := Z.of_nat (length (filter (λ t, t = "dive") tokens)).

(** The loop of [scopeOfToken]: the scope of the first occurrence, and their number. *)
Fixpoint scope_from (current : Z) (wanted : string) (tokens : list string) : option Z * nat :=
  match tokens with
  | [] => (None, 0)
  | t :: tokens' =>
      let '(found, n) := scope_from (if bool_decide (t = "dive") then current + 1 else current)%Z wanted tokens' in
      if bool_decide (t = wanted) then (Some current, S n) else (found, n)
  end.
Definition scopeOfToken (tokens : list string) (wanted : string) : Z * nat :=
  let '(found, n) := scope_from 0 wanted tokens in (default 0%Z found, n).

Definition checkTightenSource (key : string) (row : OverrideRow) (mapping : OverrideMapping) (tokens : list string) : result unit :=
  let from := o_From row in
  let tag := o_Tag row in
  let family := ownershipFamily from in
  let no text := row_error key ("tighten replacing " +:+ quoted from +:+ " with " +:+ quoted tag +:+ " " +:+ text) in
  if negb (bool_decide (from ∈ BaseTags mapping)) then
    row_error key ("tighten names from token " +:+ quoted from +:+ ", which is not present in the base tag set")
  else if bool_decide (1 < (scopeOfToken tokens from).2)%nat then
    row_error key ("tighten names from token " +:+ quoted from +:+ ", which the tag set carries on both sides of dive")
  else if bool_decide (ownershipFamily tag ≠ family) then no "crosses validator families"
  else if bool_decide (tag = from) then no "leaves the constraint unchanged"
  else if bool_decide (family ∈ ["gte"; "min"; "lte"; "max"]) then
    match parseNumericTagValue from, parseNumericTagValue tag with
    | Some fromValue, Some tagValue =>
        if bool_decide (family ∈ ["gte"; "min"]) then
          if bool_decide (fromValue < tagValue)%Qc then mret tt else no "does not raise the floor; gte/min may only increase"
        else if bool_decide (tagValue < fromValue)%Qc then mret tt else no "does not lower the ceiling; lte/max may only decrease"
    | _, _ => no "compares two bounds, and one of them carries no numeric value"
    end
  else if bool_decide (from ∈ registeredValidators) then no "swaps one enum's permitted values for another's"
  else mret tt.

Fixpoint owners_from (scope : Z) (owners : gmap familyKey familyOwner) (tags : list string) : gmap familyKey familyOwner :=
  match tags with
  | [] => owners
  | t :: tags' =>
      let k := ownershipKey scope (ownershipFamily t) in
      let owners' := match owners !! k with
                     | Some o => if bool_decide (fo_token o = "") then <[k := mkOwner t ""]> owners else owners
                     | None => <[k := mkOwner t ""]> owners
                     end in
      owners_from (if bool_decide (t = "dive") then scope + 1 else scope)%Z owners' tags'
  end.
Definition baseFamilyOwners (baseTags : list string) : gmap familyKey familyOwner := owners_from 0 ∅ baseTags.

Definition ownerDescription (owner : familyOwner) : string :=
  if bool_decide (fo_row owner = "") then "the base tag set" else "row " +:+ fo_row owner.

Definition checkNoDuplicateFamily (key : string) (row : OverrideRow) (family : string) (scope : Z)
    (owners : gmap familyKey familyOwner) : result unit :=
  match owners !! ownershipKey scope family with
  | None => mret tt
  | Some owner =>
      if bool_decide (family = enumValueSetFamily) then
        row_error key ("add tag " +:+ quoted (o_Tag row) +:+ " gives the field a second " +:+ family +:+ " alongside " +:+
                       quoted (fo_token owner) +:+ ", which " +:+ ownerDescription owner +:+ " already carries it as")
      else if bool_decide (fo_row owner = "") then
        row_error key ("add tag " +:+ quoted (o_Tag row) +:+ " duplicates the " +:+ family +:+
                       " family the base tag set already carries as " +:+ quoted (fo_token owner))
      else row_error key ("add tag " +:+ quoted (o_Tag row) +:+ " duplicates the " +:+ family +:+ " family row " +:+ fo_row owner +:+
                          " already added as " +:+ quoted (fo_token owner))
  end.

Definition checkTightenOwnership (key : string) (row : OverrideRow) (family : string) (scope : Z)
    (owners : gmap familyKey familyOwner) : result unit :=
  match owners !! ownershipKey scope family with
  | None => mret tt
  | Some owner =>
      if bool_decide (fo_row owner = "") then mret tt
      else row_error key ("tighten replacing " +:+ quoted (o_From row) +:+ " with " +:+ quoted (o_Tag row) +:+ " collides with row " +:+ fo_row owner)
  end.

Definition checkAddedTokenScope (key : string) (row : OverrideRow) (goKind : string) (tokens : list string) : result unit :=
  if bool_decide (diveCount tokens = 0)%Z then mret tt else
  if bool_decide (tagFamily (o_Tag row) ∈ ["min"; "max"])
  then row_error key ("add tag " +:+ quoted (o_Tag row) +:+ " cannot be placed: the tag set already dives")
  else mret tt.

Definition second_pass_row (mappings : OverrideMappings) (st : targets) (row : OverrideRow) : result targets :=
  let key := key_of row in
  match mappings !! target_of row with
  | None => row_error key "missing mapping: the supplied override mappings carry no entry for this row's target"
  | Some mapping =>
      let '(owners, tokens) := default (baseFamilyOwners (BaseTags mapping), BaseTags mapping) (st !! target_of row) in
      _ ← checkFieldKindApplicability key (o_Tag row) (GoKind mapping);
      let scope := if bool_decide (o_Rule row = "tighten") then (scopeOfToken tokens (o_From row)).1 else diveCount tokens in
      _ ← checkRegisteredTokenTarget key (o_Tag row) (GoKind mapping) tokens scope;
      let family := ownershipFamily (o_Tag row) in
      _ ← (if bool_decide (o_Rule row = "tighten") then
             _ ← checkTightenSource key row mapping tokens;
             checkTightenOwnership key row family scope owners
           else if bool_decide (o_Rule row = "add") then
             _ ← checkAddedTokenScope key row (GoKind mapping) tokens;
             checkNoDuplicateFamily key row family scope owners
           else mret tt);
      match ApplyTagOverride tokens row with
      | inr e => inr (Errorf ("load overrides " +:+ path +:+ ": row " +:+ key +:+ ": " +:+ error_text e) (Some e))
      | inl next => mret (<[target_of row := (<[ownershipKey scope family := mkOwner (o_Tag row) key]> owners, next)]> st)
      end
  end.

Fixpoint second_pass (mappings : OverrideMappings) (st : targets) (rows : list OverrideRow) : result targets :=
  match rows with
  | [] => mret st
  | row :: rows' => st' ← second_pass_row mappings st row; second_pass mappings st' rows'
  end.
Definition applySecondPassChecks (rows : list OverrideRow) (mappings : OverrideMappings) : result unit :=
  _ ← second_pass mappings ∅ rows; mret tt.
End second_pass.

(** ** Loading *)

Definition set_version (version : string) (r : OverrideRow) : OverrideRow :=
  mkOverride version (o_Definition r) (o_Property r) (o_Rule r) (o_Tag r) (o_From r) (o_Rationale r) (o_Source r) (o_Author r) (o_Date r).

(** After decoding: what [LoadOverrides] does with a document and its mappings. *)
Definition check_config (config : OverrideConfig) (ir : IR) (mappings : option OverrideMappings) (registeredValidators : list string)
    : result OverrideConfig :=
  _ ← checkOverrideConfigVersion (c_Version config);
  let tags := map (set_version (c_Version config)) (TagOverrides config) in
  let allow := map (set_version (c_Version config)) (DedupAllowlist config) in
  _ ← validateTagOverrideRows tags ir registeredValidators;
  _ ← validateDedupAllowlistRows allow ir;
  _ ← checkDuplicateOverrideKeys tags;
  let sorted := sortOverrideRows tags in
  _ ← match mappings with
      | Some m => applySecondPassChecks registeredValidators sorted m
      | None => mret tt
      end;
  mret (mkConfig (c_Version config) sorted (sortOverrideRows allow)).
End loader.

Section load.
Context (ParseFloat : string → option Qc) (ReadFile : string → result string)
        (DecodeYAML : string → result (OverrideConfig * trailing)).

Definition LoadOverrides (path : string) (ir : IR) (mappings : option OverrideMappings) (registeredValidators : list string)
    : result OverrideConfig :=
  match ReadFile path with
  | inr e => inr (Errorf ("load overrides " +:+ path +:+ ": " +:+ error_text e) (Some e))
  | inl data =>
      ct ← wrap ("load overrides " +:+ path) (DecodeYAML data);
      _ ← match ct.2 with
          | AtEOF => mret tt
          | Content => load_error path "the file holds more than one YAML document; the override table is a single document"
          | BadContent e => wrap ("load overrides " +:+ path) (inr e)
          end;
      check_config ParseFloat path ct.1 ir mappings registeredValidators
  end.
End load.

(** ** Mappings and report *)

Fixpoint composeTargetTags (rows : list OverrideRow) (mappings : OverrideMappings) (composed : gmap OverrideTarget (list string))
    : result (gmap OverrideTarget (list string)) :=
  match rows with
  | [] => mret composed
  | row :: rows' =>
      tokens ← match composed !! target_of row with
               | Some t => mret t
               | None => match mappings !! target_of row with
                         | Some m => mret (BaseTags m)
                         | None => fail ("row " +:+ key_of row +:+ ": no mapping entry for this target")
                         end
               end;
      match ApplyTagOverride tokens row with
      | inr e => inr (Errorf ("row " +:+ key_of row +:+ ": " +:+ error_text e) (Some e))
      | inl next => composeTargetTags rows' mappings (<[target_of row := next]> composed)
      end
  end.

Definition messagesReaching (ir : IR) (definitionName : string) : list Message :=
  filter (λ m, definitionName ∈ m_Reach m) (Messages ir).
Definition message_file (m : Message) : string := m_Block m +:+ "/" +:+ snakeCase (m_Name m) +:+ ".go".
Definition derivedFilePath (ir : IR) (definitionName : string) : result string :=
  match filter (λ m, m_RequestRoot m = definitionName ∨ m_ResponseRoot m = definitionName) (Messages ir) with
  | m :: _ => mret (message_file m)
  | [] => match messagesReaching ir definitionName with
          | [] => fail ("derive file path for " +:+ definitionName +:+ ": no declared message reaches it")
          | [m] => mret (message_file m)
          | _ => mret "types/types_gen.go"
          end
  end.

Definition newline : string := String (Ascii.ascii_of_nat 10) "".
Definition report_row (row : OverrideRow) (tokens : list string) (file fieldName : string) : string :=
  key_of row +:+ newline +:+
  "  rule: " +:+ o_Rule row +:+ newline +:+
  "  tag: " +:+ Join tokens "," +:+ newline +:+
  "  file: " +:+ file +:+ newline +:+
  "  field: " +:+ fieldName +:+ newline +:+
  "  rationale: " +:+ TrimSpace (o_Rationale row) +:+ newline +:+
  "  source: " +:+ o_Source row +:+ newline +:+
  "  author: " +:+ o_Author row +:+ newline +:+
  "  date: " +:+ o_Date row +:+ newline.

Fixpoint report_rows (ir : IR) (mappings : OverrideMappings) (composed : gmap OverrideTarget (list string)) (rows : list OverrideRow)
    : result (list string) :=
  match rows with
  | [] => mret []
  | row :: rows' =>
      match mappings !! target_of row with
      | None => fail ("render overrides report: row " +:+ key_of row +:+ ": no mapping entry for this target")
      | Some mapping =>
          file ← wrap ("render overrides report: row " +:+ key_of row) (derivedFilePath ir (o_Definition row));
          rest ← report_rows ir mappings composed rows';
          mret (report_row row (default [] (composed !! target_of row)) file (om_FieldName mapping) :: rest)
      end
  end.
Definition RenderOverridesReport (config : OverrideConfig) (ir : IR) (mappings : OverrideMappings) : result string :=
  composed ← wrap "render overrides report" (composeTargetTags (TagOverrides config) mappings ∅);
  blocks ← report_rows ir mappings composed (TagOverrides config);
  mret (Join blocks newline).

Section mappings.
Context (FormatFloat : Qc → string) (transform : TransformConfig).

Fixpoint map_properties (definitions : list Definition_) (definition : Definition_) (ps : list Property) (m : OverrideMappings)
    : result OverrideMappings :=
  match ps with
  | [] => mret m
  | p :: ps' =>
      match MapProperty FormatFloat definitions transform definition p [] with
      | inr e => inr (Errorf ("map " +:+ d_Name definition +:+ "." +:+ p_Name p +:+ ": " +:+ error_text e) (Some e))
      | inl f => map_properties definitions definition ps'
                   (<[(d_Name definition, p_Name p) := mkMapping (splitValidateTag (ValidateTag f)) (GoType f) (FieldName f)]> m)
      end
  end.
Fixpoint map_definitions (definitions ds : list Definition_) (m : OverrideMappings) : result OverrideMappings :=
  match ds with
  | [] => mret m
  | d :: ds' => m' ← (if bool_decide (d_Kind d = DefinitionEnum) then mret m else map_properties definitions d (d_Properties d) m);
                map_definitions definitions ds' m'
  end.
Fixpoint validator_names (ds : list Definition_) : result (list string) :=
  match ds with
  | [] => mret []
  | d :: ds' =>
      if bool_decide (d_Kind d ≠ DefinitionEnum) then validator_names ds' else
      match validatorTagName transform (d_Name d) with
      | inr e => inr (Errorf ("derive validator tag for " +:+ d_Name d +:+ ": " +:+ error_text e) (Some e))
      | inl tag => rest ← validator_names ds'; mret (tag :: rest)
      end
  end.
Definition buildOverrideMappings (ir : IR) : result (OverrideMappings * list string) :=
  mappings ← map_definitions (Definitions ir) (Definitions ir) ∅;
  names ← validator_names (Definitions ir);
  mret (mappings, sort_strings names).
End mappings.
