(* ===== verification/CgManifest.v ===== *)
(** * The code generator: the manifest

    src/internal/codegen/manifest.go.  The YAML decoder, the file system and the
    path functions of the standard library are parameters; the nodes of a decoded
    document are trees. *)

From Stdlib Require Import Ascii.
From stdpp Require Import pretty.
From S2P Require Import Prelude Ocpp CgIR CgMapping CgSchema CgWalk.
Local Open Scope string_scope.
Local Open Scope list_scope.

Record Manifest := mkManifest {
  mf_Version : string; mf_SchemaDir : string; mf_GoModule : string; mf_GoTree : string; mf_TypesPackage : string;
  mf_Messages : list ManifestMessage
}.

(** ** The import path of the shared types *)

Fixpoint drop_chars (p : ascii → bool) (l : list ascii) : list ascii :=
  match l with c :: l' => if p c then drop_chars p l' else l | [] => [] end.
(** [strings.TrimSpace], [strings.Trim(s, "/")] *)
Definition trim (p : ascii → bool) (s : string) : string := of_chars (reverse (drop_chars p (reverse (drop_chars p (chars s))))).
Definition trim_slashes (s : string) : string := trim (λ c, bool_decide (c = "/"%char)) (trim is_space s).

Definition TypesImportPath (m : Manifest) : string :=
  let pkg := trim_slashes (mf_TypesPackage m) in
  let module := trim_slashes (mf_GoModule m) in
  if bool_decide (pkg = "") || bool_decide (module = "") then pkg
  else if bool_decide (pkg = module) || HasPrefix pkg (module +:+ "/") then pkg
  else module +:+ "/" +:+ pkg.

(** ** Nodes of a YAML document *)

Inductive node := Node (Value : string) (Content : list node).
Definition node_value (n : node) : string := match n with Node v _ => v end.
Definition node_content (n : node) : list node := match n with Node _ c => c end.

Fixpoint pair_value (key : string) (content : list node) : option node :=
  match content with
  | k :: v :: content' => if bool_decide (node_value k = key) then Some v else pair_value key content'
  | _ => None
  end.
Definition mappingValue (mapping : node) (key : string) : option node := pair_value key (node_content mapping).
Definition mappingHasKey (mapping : node) (key : string) : bool := bool_decide (is_Some (mappingValue mapping key)).
Definition readEmitPresence (doc : node) : result (list bool) :=
  match node_content doc with
  | [] => fail "empty manifest document"
  | root :: _ => mret (match mappingValue root "messages" with
                       | None => []
                       | Some messages => map (λ row, mappingHasKey row "emit") (node_content messages)
                       end)
  end.

(** ** Checks *)

Definition legalDirections : list string := ["CS->CSMS"; "CSMS->CS"; "both"].
Definition rowLabel (row : ManifestMessage) (index : nat) : string :=
  if blank (mm_Name row) then "row " +:+ pretty (S index) else mm_Name row.

Section manifest.
(** [os.Stat]: nothing there, or whether it is a directory; [os.ReadDir]: names, and
    whether they are directories. *)
Context (Stat : string → option bool) (ReadDir : string → result (list (string * bool))) (path_join : list string → string)
        (path_dir : string → string).

(** [findModuleRoot]; a path has finitely many parents, and the fuel bounds them. *)
Fixpoint findModuleRoot (fuel : nat) (current : string) : option (result string) :=
  match fuel with
  | 0 => None
  | S fuel' =>
      if bool_decide (Stat (path_join [current; "go.mod"]) = Some false) then Some (mret current) else
      let parent := path_dir current in
      if bool_decide (parent = current) then Some (fail ("no go.mod found above " +:+ current))
      else findModuleRoot fuel' parent
  end.

Section file.
Context (path : string) (moduleRoot : string) (emitPresence : list bool) (m : Manifest).

Definition manifest_error {A : Type} (text : string) : result A := fail ("load manifest " +:+ path +:+ ": " +:+ text).

(** The checks of one row that need no other row. *)
Definition check_row (index : nat) (row : ManifestMessage) : result unit :=
  let label := rowLabel row index in
  let missing field := manifest_error (label +:+ " is missing required field " +:+ field) in
  if blank (mm_Name row) then missing "name"
  else if blank (mm_Block row) then missing "block"
  else if blank (mm_Direction row) then missing "direction"
  else if blank (mm_Request row) then missing "request"
  else if blank (mm_Response row) then missing "response"
  else if negb (default false (emitPresence !! index)) then missing "emit"
  else if negb (bool_decide (mm_Direction row ∈ legalDirections)) then
    manifest_error (label +:+ " has illegal direction " +:+ quoted (mm_Direction row))
  else if negb (bool_decide (Stat (path_join [moduleRoot; mf_GoTree m; mm_Block row]) = Some true)) then
    manifest_error (label +:+ " names unknown block " +:+ quoted (mm_Block row))
  else if negb (bool_decide (Stat (path_join [mf_SchemaDir m; mm_Request row]) = Some false)) then
    manifest_error (label +:+ " names request file " +:+ mm_Request row +:+ " not found in " +:+ mf_SchemaDir m)
  else if negb (bool_decide (Stat (path_join [mf_SchemaDir m; mm_Response row]) = Some false)) then
    manifest_error (label +:+ " names response file " +:+ mm_Response row +:+ " not found in " +:+ mf_SchemaDir m)
  else mret tt.

(** A file claimed by a row. *)
Definition claim_file (label file : string) (index : nat) (claimed : gmap string nat) : result (gmap string nat) :=
  match claimed !! file with
  | Some first => manifest_error ("row " +:+ label +:+ " claims file " +:+ file +:+ " already claimed by row " +:+ pretty (S first))
  | None => mret (<[file := index]> claimed)
  end.

Fixpoint check_rows (index : nat) (rows : list ManifestMessage) (names files : gmap string nat) : result (gmap string nat) :=
  match rows with
  | [] => mret files
  | row :: rows' =>
      _ ← check_row index row;
      match names !! mm_Name row with
      | Some first => manifest_error ("row " +:+ pretty (S index) +:+ " duplicates message name " +:+ quoted (mm_Name row) +:+
                                      " first used by row " +:+ pretty (S first))
      | None =>
          files1 ← claim_file (rowLabel row index) (mm_Request row) index files;
          files2 ← claim_file (rowLabel row index) (mm_Response row) index files1;
          check_rows (S index) rows' (<[mm_Name row := index]> names) files2
      end
  end.

Fixpoint check_entries (claimed : gmap string nat) (entries : list (string * bool)) : result unit :=
  match entries with
  | [] => mret tt
  | (name, is_dir) :: entries' =>
      if is_dir || negb (HasSuffix name ".json") then check_entries claimed entries'
      else if bool_decide (is_Some (claimed !! name)) then check_entries claimed entries'
      else manifest_error ("schema file " +:+ name +:+ " in " +:+ mf_SchemaDir m +:+ " is claimed by no row")
  end.
Definition checkUnclaimedFiles (claimed : gmap string nat) : result unit :=
  entries ← wrap ("load manifest " +:+ path +:+ ": read schema directory " +:+ mf_SchemaDir m) (ReadDir (mf_SchemaDir m));
  check_entries claimed entries.

Definition validateManifest : result unit :=
  files ← check_rows 0 (mf_Messages m) ∅ ∅;
  checkUnclaimedFiles files.
End file.

Context (ReadFile : string → result string) (DecodeYAML : string → result (Manifest * trailing)) (parse_node : string → result node)
        (path_abs : string → result string) (depth : nat).

Definition set_schema_dir (dir : string) (m : Manifest) : Manifest :=
  mkManifest (mf_Version m) dir (mf_GoModule m) (mf_GoTree m) (mf_TypesPackage m) (mf_Messages m).

Definition LoadManifest (path schemaDirOverride : string) : result Manifest :=
  data ← wrap ("load manifest " +:+ path) (ReadFile path);
  mt ← wrap ("load manifest " +:+ path) (DecodeYAML data);
  _ ← match mt.2 with
      | AtEOF => mret tt
      | Content => manifest_error path "the file holds more than one YAML document; the manifest is a single document"
      | BadContent e => wrap ("load manifest " +:+ path) (inr e)
      end;
  doc ← wrap ("load manifest " +:+ path) (parse_node data);
  presence ← wrap ("load manifest " +:+ path) (readEmitPresence doc);
  let m := set_schema_dir (if bool_decide (schemaDirOverride = "") then path_join [path_dir path; mf_SchemaDir mt.1] else schemaDirOverride) mt.1 in
  abs ← wrap ("load manifest " +:+ path) (path_abs path);
  match findModuleRoot depth (path_dir abs) with
  | None => inr out_of_fuel
  | Some r =>
      moduleRoot ← wrap ("load manifest " +:+ path) r;
      _ ← validateManifest path moduleRoot presence m;
      mret m
  end.
End manifest.

(** ** What an accepted manifest is *)

Section theorems.
Context (Stat : string → option bool) (ReadDir : string → result (list (string * bool))) (path_join : list string → string).
Context (path moduleRoot : string) (presence : list bool) (m : Manifest).
Notation check_row := (check_row Stat path_join path moduleRoot presence m).
Notation check_rows := (check_rows Stat path_join path moduleRoot presence m).
Notation validateManifest := (validateManifest Stat ReadDir path_join path moduleRoot presence m).

Definition files_of (rows : list ManifestMessage) : list string := flat_map (λ r, [mm_Request r; mm_Response r]) rows.

(** What a row needs by itself. *)
Record good_row (index : nat) (row : ManifestMessage) : Prop := {
  gr_fields : Forall (λ s, blank s = false) [mm_Name row; mm_Block row; mm_Direction row; mm_Request row; mm_Response row];
  gr_emit : presence !! index = Some true;
  gr_direction : mm_Direction row ∈ legalDirections;
  gr_block : Stat (path_join [moduleRoot; mf_GoTree m; mm_Block row]) = Some true;
  gr_files : Forall (λ f, Stat (path_join [mf_SchemaDir m; f]) = Some false) [mm_Request row; mm_Response row]
}.

Lemma check_row_ok index row : (∃ u, check_row index row = inl u) ↔ good_row index row.
Proof.
  unfold CgManifest.check_row. split.
  - intros [u H]. repeat (case_match; [discriminate H|]).
    repeat match goal with E : negb (bool_decide _) = false |- _ => apply negb_false_iff, bool_decide_eq_true in E end.
    match goal with E : negb (default false _) = false |- _ => apply negb_false_iff in E; rename E into Hp end.
    split; [by repeat constructor|by destruct (presence !! index) as [[]|]|done|done|by repeat constructor].
  - intros [Hf He Hd Hb Hs]. repeat apply Forall_cons in Hf as [? Hf]. repeat apply Forall_cons in Hs as [? Hs].
    repeat match goal with E : blank _ = false |- _ => rewrite E; clear E end. rewrite He. simpl.
    rewrite !bool_decide_eq_true_2 by done. by eexists.
Qed.

Lemma claim_file_ok label file index claimed claimed' :
  claim_file path label file index claimed = inl claimed' ↔ claimed !! file = None ∧ claimed' = <[file := index]> claimed.
Proof.
  unfold claim_file. destruct (claimed !! file); [split; [discriminate|by intros [? _]]|].
  split; [by intros [= <-]|by intros [_ ->]].
Qed.

Lemma check_rows_files rows : ∀ index names files files', check_rows index rows names files = inl files' →
  ∀ f, is_Some (files' !! f) ↔ is_Some (files !! f) ∨ f ∈ files_of rows.
Proof.
  induction rows as [|row rows IH]; intros index names files files' H f; simpl in H.
  { injection H as <-. unfold files_of. simpl. rewrite elem_of_nil. tauto. }
  apply bind_inl in H as (_ & _ & H). cbn beta in H. destruct (names !! mm_Name row); [discriminate|].
  apply bind_inl in H as (files1 & H1 & H). apply bind_inl in H as (files2 & H2 & H).
  apply claim_file_ok in H1 as [_ ->], H2 as [_ ->]. rewrite (IH _ _ _ _ H).
  rewrite !lookup_insert_is_Some. unfold files_of. simpl. rewrite !elem_of_cons.
  destruct (decide (mm_Request row = f)), (decide (mm_Response row = f)); naive_solver.
Qed.

Lemma check_rows_iff rows : ∀ index names files,
  (∃ files', check_rows index rows names files = inl files') ↔
    (∀ i row, rows !! i = Some row → good_row (index + i) row) ∧
    (NoDup (map mm_Name rows) ∧ ∀ n, n ∈ map mm_Name rows → names !! n = None) ∧
    NoDup (files_of rows) ∧ ∀ f, f ∈ files_of rows → files !! f = None.
Proof.
  induction rows as [|row rows IH]; intros index names files.
  { simpl. split; [|by eexists]. intros _. split_and!; try (by intros ? ?%not_elem_of_nil); try apply NoDup_nil_2. done. }
  change (files_of (row :: rows)) with (mm_Request row :: mm_Response row :: files_of rows). cbn [map].
  assert (Hshift : (∀ i r, (row :: rows) !! i = Some r → good_row (index + i) r) ↔
    good_row index row ∧ ∀ i r, rows !! i = Some r → good_row (S index + i) r).
  { split; [intros H; split; [rewrite <-(Nat.add_0_r index); by apply H|intros i r Hi; rewrite Nat.add_succ_comm; by apply H]|].
    intros [H0 H] [|i] r Hi; [rewrite Nat.add_0_r; by simplify_eq/=|]. rewrite <-Nat.add_succ_comm. by apply H. }
  rewrite Hshift, <-check_row_ok, !NoDup_cons. clear Hshift. split.
  - intros [files' H]. simpl in H. apply bind_inl in H as (u & Hrow & H). cbn beta in H.
    destruct (names !! mm_Name row) eqn:En; [discriminate|].
    apply bind_inl in H as (files1 & H1 & H). apply bind_inl in H as (files2 & H2 & H).
    apply claim_file_ok in H1 as [Hq ->], H2 as [[Ha Hne]%lookup_insert_None ->].
    destruct (proj1 (IH (S index) (<[mm_Name row := index]> names) _) ltac:(by eexists)) as (Hg & [Hn1 Hn2] & Hf1 & Hf2).
    split_and!; try done; [by eexists|..].
    + intros Hin%Hn2. by rewrite lookup_insert_eq in Hin.
    + intros n [->|Hn]%elem_of_cons; [done|]. by apply Hn2, lookup_insert_None in Hn as [? _].
    + rewrite not_elem_of_cons. split; [done|]. intros Hin%Hf2.
      apply lookup_insert_None in Hin as [Hin _]. by rewrite lookup_insert_eq in Hin.
    + intros Hin%Hf2. by rewrite lookup_insert_eq in Hin.
    + intros f [->|[->|Hf]%elem_of_cons]%elem_of_cons; [done..|].
      apply Hf2, lookup_insert_None in Hf as [Hf _]. by apply lookup_insert_None in Hf as [? _].
  - intros ([[u Hrow] Hg] & [[Hn0 Hn1] Hn2] & (Hq & Ha & Hf1) & Hf2). apply not_elem_of_cons in Hq as [Hqa Hq].
    destruct (proj2 (IH (S index) (<[mm_Name row := index]> names) (<[mm_Response row := index]> (<[mm_Request row := index]> files))))
      as [files' H].
    { split_and!; [done|done| |done|].
      - intros n Hn. apply lookup_insert_None. split; [apply Hn2; by right|by intros <-].
      - intros f Hf. rewrite !lookup_insert_None. split_and!; [apply Hf2; by do 2 right|by intros <-..]. }
    exists files'. simpl. rewrite Hrow. simpl. rewrite (Hn2 (mm_Name row)) by left. unfold claim_file.
    rewrite (Hf2 (mm_Request row)) by left. simpl. rewrite lookup_insert_ne, (Hf2 (mm_Response row)); [done|by right; left|done].
Qed.

Lemma check_entries_ok claimed entries :
  (∃ u, check_entries path m claimed entries = inl u) ↔
  ∀ name, (name, false) ∈ entries → HasSuffix name ".json" = true → is_Some (claimed !! name).
Proof.
  induction entries as [|[name d] entries IH]; simpl; [split; [by intros _ ? ?%not_elem_of_nil|by eexists]|].
  destruct (d || negb (HasSuffix name ".json")) eqn:E.
  - rewrite IH. apply orb_true_iff in E. setoid_rewrite elem_of_cons. split; [|naive_solver].
    intros H n [[= -> <-]|Hin] Hs; [|by apply H]. destruct E as [|E]; [done|]. by rewrite Hs in E.
  - apply orb_false_iff in E as [-> E%negb_false_iff]. setoid_rewrite elem_of_cons. case_bool_decide as Hc.
    + rewrite IH. split; [|naive_solver]. intros H n [[= ->]|Hin] Hs; [done|by apply H].
    + split; [by intros [? ?]|]. intros H. exfalso. apply Hc, H; [by left|done].
Qed.

(** A manifest is accepted exactly if every row is complete, legal and names
    files that exist, no message name is used twice, no file is claimed twice, and
    every schema file of the directory is claimed, so that each belongs to exactly
    one side of one row. *)
Theorem manifest_exact :
  (∃ u, validateManifest = inl u) ↔
  (∀ i row, mf_Messages m !! i = Some row → good_row i row) ∧
  NoDup (map mm_Name (mf_Messages m)) ∧ NoDup (files_of (mf_Messages m)) ∧
  ∃ entries, ReadDir (mf_SchemaDir m) = inl entries ∧
    ∀ name, (name, false) ∈ entries → HasSuffix name ".json" = true → name ∈ files_of (mf_Messages m).
Proof.
  pose proof (check_rows_iff (mf_Messages m) 0 ∅ ∅) as Hiff. unfold CgManifest.validateManifest. split.
  - intros [u H]. apply bind_inl in H as (files & Hr & H). destruct (proj1 Hiff ltac:(by eexists)) as (Hg & [Hn _] & Hf & _).
    split_and!; [done..|]. unfold checkUnclaimedFiles in H. apply bind_inl in H as (entries & He%wrap_inl & H).
    exists entries. split; [done|]. intros name Hin Hs. destruct (proj1 (check_entries_ok files entries) ltac:(by eexists) name Hin Hs) as [k Hk].
    destruct (proj1 (check_rows_files _ _ _ _ _ Hr name) ltac:(by eexists)) as [[? ?%lookup_empty_Some]|?]; done.
  - intros (Hg & Hn & Hf & entries & He & Hc). destruct (proj2 Hiff) as [files Hr].
    { split_and!; try done; intros; apply lookup_empty. }
    rewrite Hr. simpl. unfold checkUnclaimedFiles. rewrite He. simpl. apply check_entries_ok. intros name Hin Hs.
    apply (check_rows_files _ _ _ _ _ Hr). right. by apply Hc.
Qed.
End theorems.
