(* ===== verification/CgEmit.v ===== *)
(** * The code generator: rendering and writing the tree

    src/internal/codegen/emit.go and write.go.  [go/format.Source] is the
    parameter [format]; the path functions are parameters too.  Where the code iterates over a
    Go map and sorts what it collected by the rendered name, the names are visited
    in sorted order here. *)

From Stdlib Require Import Ascii QArith.Qcanon.
From S2P Require Import Prelude Ocpp CgIR CgMapping CgPlacement CgSchema CgWalk CgOverrides CgManifest.
Local Open Scope string_scope.
Local Open Scope list_scope.

Record EmitterOptions := mkOptions { e_Transform : TransformConfig; e_Overrides : list OverrideRow }.
Record generatedFile := mkFile { gf_path : string; gf_content : string; gf_source : string }.

(** ** Text *)

(** [strings.ReplaceAll] for a text to replace that is not empty: [skip] characters
    of an occurrence are left. *)
Fixpoint replace_from (old new : list ascii) (skip : nat) (l : list ascii) : list ascii :=
  match l with
  | [] => []
  | c :: l' => match skip with
               | S k => replace_from old new k l'
               | 0 => if bool_decide (take (length old) l = old) then new ++ replace_from old new (length old - 1) l'
                      else c :: replace_from old new 0 l'
               end
  end.
Definition ReplaceAll (s old new : string) : string := of_chars (replace_from (chars old) (chars new) 0 (chars s)).
(** [strings.Contains] *)
Fixpoint contains_from (sub l : list ascii) : bool :=
  bool_decide (take (length sub) l = sub) || match l with [] => false | _ :: l' => contains_from sub l' end.
Definition Contains (s sub : string) : bool := contains_from (chars sub) (chars s).

Definition lines (l : list string) : string := Join (map (λ s, s +:+ newline) l) "".
Definition tab : string := String (Ascii.ascii_of_nat 9) "".
Definition backtick : string := String (Ascii.ascii_of_nat 96) "".

Fixpoint mapM_result {A B : Type} (f : A → result B) (l : list A) : result (list B) :=
  match l with [] => mret [] | x :: l' => y ← f x; ys ← mapM_result f l'; mret (y :: ys) end.

(** ** Fields *)

Definition formatFieldLine (m : FieldMapping) : string :=
  FieldName m +:+ " " +:+ GoType m +:+ " " +:+ backtick +:+ JSONTag m +:+
  (if bool_decide (ValidateTag m = "") then "" else " " +:+ ValidateTag m) +:+ backtick.

Definition qualifyBareTypeName (goType pkg : string) : string :=
  if HasPrefix goType "[]" then "[]" +:+ pkg +:+ "." +:+ TrimPrefix goType "[]"
  else if HasPrefix goType "*" then "*" +:+ pkg +:+ "." +:+ TrimPrefix goType "*"
  else pkg +:+ "." +:+ goType.

Definition set_type (t : string) (m : FieldMapping) : FieldMapping := mkFieldMapping (FieldName m) t (JSONTag m) (ValidateTag m).

(** The definition that a field's type names. *)
Definition field_ref (p : Property) : string :=
  if bool_decide (p_Ref p ≠ "") then refTargetName (p_Ref p)
  else if bool_decide (p_Type p = "array") then
    match p_Items p with Some i => if bool_decide (p_Ref i ≠ "") then refTargetName (p_Ref i) else "" | None => "" end
  else "".

Section emit.
Context (FormatFloat : Qc → string) (format : string → result string).

(** The formatter fails on a text that is not Go. *)
Definition formatSource (src : string) : result string :=
  match format src with
  | inl out => inl out
  | inr e => inr (Errorf ("format generated source: " +:+ error_text e +:+ newline +:+ src) (Some e))
  end.

Section tree.
Context (ir : IR) (transform : TransformConfig) (overrides : list OverrideRow) (placement : PlacementPlan).

Definition RenderProperty (d : Definition_) (p : Property) (in_types : bool) : result string :=
  m ← MapProperty FormatFloat (Definitions ir) transform d p overrides;
  mret (formatFieldLine (if in_types then set_type (ReplaceAll (GoType m) "types." "") m else m)).

Definition qualifiedFieldMapping (d : Definition_) (p : Property) (in_types : bool) : result FieldMapping :=
  m ← MapProperty FormatFloat (Definitions ir) transform d p overrides;
  mret (if in_types then set_type (ReplaceAll (GoType m) "types." "") m
        else if bool_decide (field_ref p ≠ "") && bool_decide (Home placement !! field_ref p = Some "types")
        then set_type (qualifyBareTypeName (GoType m) "types") m else m).

Definition structBody (structName : string) (d : Definition_) (in_types : bool) : result string :=
  ms ← mapM_result (λ p, qualifiedFieldMapping d p in_types) (d_Properties d);
  mret ("type " +:+ structName +:+ " struct {" +:+ newline +:+ lines (map formatFieldLine ms) +:+ "}" +:+ newline).

(** ** Enumerations *)

Definition buildEnumTypeDecl (goName : string) : string := "type " +:+ goName +:+ " string" +:+ newline +:+ newline.
Definition buildEnumConstEntries (goName : string) (values : list string) : list string :=
  zip_with (λ n v, n +:+ " " +:+ goName +:+ " = " +:+ quoted v) (buildEnumConstNames goName values transform) values.
Definition buildIsValidFunc (goName : string) (values : list string) : string :=
  let switchVar := escapeGoKeyword (TrimSuffix (lowerCamel goName) "Type") in
  lines ["func isValid" +:+ goName +:+ "(fl validator.FieldLevel) bool {";
         switchVar +:+ " := " +:+ goName +:+ "(fl.Field().String())";
         "switch " +:+ switchVar +:+ " {";
         "case " +:+ Join (buildEnumConstNames goName values transform) ", " +:+ ":";
         "return true"; "default:"; "return false"; "}"; "}"].
Definition buildEnumDeclaration (goName : string) (values : list string) : string :=
  buildEnumTypeDecl goName +:+ "const (" +:+ newline +:+ lines (buildEnumConstEntries goName values) +:+
  ")" +:+ newline +:+ newline +:+ buildIsValidFunc goName values.

Definition RenderDefinition (d : Definition_) (in_types : bool) : result string :=
  match d_Kind d with
  | DefinitionEnum =>
      goName ← TransformIdentifier (d_Name d) DefinitionEnum transform;
      formatSource (buildEnumDeclaration goName (d_Values d))
  | DefinitionObject =>
      name ← TransformIdentifier (d_Name d) DefinitionObject transform;
      body ← structBody name d in_types;
      formatSource body
  | DefinitionRoot => body ← structBody (d_Name d) d in_types; formatSource body
  | OtherKind k => fail ("render definition " +:+ d_Name d +:+ ": unsupported kind " +:+ quoted k)
  end.

(** ** Constructors *)

(** Reached through an optional field that is not an array. *)
Definition determineReturnsPointer (name : string) (definitions : list Definition_) : bool :=
  existsb (λ d, existsb (λ p,
    negb (bool_decide (p_Type p = "array") || bool_decide (p_Ref p = "")) &&
    bool_decide (refTargetName (p_Ref p) = name) && negb (p_Required p)) (d_Properties d)) definitions.

Definition param_name (m : FieldMapping) : string := escapeGoKeyword (lowerCamel (FieldName m)).
Definition renderConstructor (structName : string) (d : Definition_) (in_types returnsPointer : bool) : result string :=
  ms ← mapM_result (λ p, qualifiedFieldMapping d p in_types) (filter (λ p, p_Required p = true) (d_Properties d));
  let params := map (λ m, param_name m +:+ " " +:+ GoType m) ms in
  let args := map (λ m, FieldName m +:+ ": " +:+ param_name m) ms in
  let literal := structName +:+ "{" +:+ Join args ", " +:+ "}" in
  mret ("func New" +:+ structName +:+ "(" +:+ Join params ", " +:+ ") " +:+ (if returnsPointer then "*" else "") +:+ structName +:+
        " {" +:+ newline +:+ "return " +:+ (if returnsPointer then "&" else "") +:+ literal +:+ newline +:+ "}" +:+ newline).

(** ** Files *)

(** The definitions of one kind placed in [pkg], with their Go names, by Go name. *)
Fixpoint local_placed (pkg : string) (kind : DefinitionKind) (names : list string) : result (list (Definition_ * string)) :=
  match names with
  | [] => mret []
  | n :: names' =>
      if bool_decide (Home placement !! n ≠ Some pkg) then local_placed pkg kind names' else
      match findDefinitionByName (Definitions ir) n with
      | None => fail ("render: placed definition " +:+ n +:+ " not found in the IR")
      | Some d =>
          if bool_decide (d_Kind d ≠ kind) then local_placed pkg kind names' else
          goName ← TransformIdentifier (d_Name d) kind transform;
          rest ← local_placed pkg kind names';
          mret ((d, goName) :: rest)
      end
  end.
Definition localPlacedDefinitions (pkg : string) (kind : DefinitionKind) : result (list (Definition_ * string)) :=
  l ← local_placed pkg kind (sortedPlacedNames placement);
  mret (sort_by snd l).

Definition formatBannerDirection (direction : string) : string := ReplaceAll direction "->" " -> ".

(** The registration of the validators of a file's enumerations. *)
Definition registrations (prefix : string) (enums : list (Definition_ * string)) : result string :=
  match enums with
  | [] => mret ""
  | _ => ls ← mapM_result (λ dg : Definition_ * string, tag ← validatorTagName transform (d_Name dg.1);
                mret ("_ = " +:+ prefix +:+ "Validate.RegisterValidation(" +:+ quoted tag +:+ ", isValid" +:+ dg.2 +:+ ")")) enums;
         mret ("func init() {" +:+ newline +:+ lines ls +:+ "}" +:+ newline)
  end.

Definition feature_text (message : ManifestMessage) (requestRoot responseRoot : string) : string :=
  let n := mm_Name message in
  let func recv body := "func (" +:+ recv +:+ newline +:+ "return " +:+ body +:+ newline +:+ "}" +:+ newline +:+ newline in
  "type " +:+ n +:+ "Feature struct{}" +:+ newline +:+ newline +:+
  func ("f " +:+ n +:+ "Feature) GetFeatureName() string {") (n +:+ "FeatureName") +:+
  func ("f " +:+ n +:+ "Feature) GetRequestType() reflect.Type {") ("reflect.TypeOf(" +:+ requestRoot +:+ "{})") +:+
  func ("f " +:+ n +:+ "Feature) GetResponseType() reflect.Type {") ("reflect.TypeOf(" +:+ responseRoot +:+ "{})") +:+
  func ("r " +:+ requestRoot +:+ ") GetFeatureName() string {") (n +:+ "FeatureName") +:+
  func ("c " +:+ responseRoot +:+ ") GetFeatureName() string {") (n +:+ "FeatureName").

Definition message_body (message : ManifestMessage) : result string :=
  let requestName := mm_Name message +:+ "Request" in
  let responseName := mm_Name message +:+ "Response" in
  match findDefinitionByName (Definitions ir) requestName, findDefinitionByName (Definitions ir) responseName with
  | None, _ => fail ("render message " +:+ mm_Name message +:+ ": request root " +:+ requestName +:+ " not found")
  | _, None => fail ("render message " +:+ mm_Name message +:+ ": response root " +:+ responseName +:+ " not found")
  | Some requestRoot, Some responseRoot =>
      enums ← localPlacedDefinitions ("message:" +:+ mm_Name message) DefinitionEnum;
      objects ← localPlacedDefinitions ("message:" +:+ mm_Name message) DefinitionObject;
      bodies ← mapM_result (λ dg : Definition_ * string, structBody dg.2 dg.1 false) objects;
      requestBody ← structBody requestName requestRoot false;
      responseBody ← structBody responseName responseRoot false;
      ctors ← mapM_result (λ dg : Definition_ * string,
                renderConstructor dg.2 dg.1 false (determineReturnsPointer (d_Name dg.1) (Definitions ir))) objects;
      requestCtor ← renderConstructor requestName requestRoot false true;
      responseCtor ← renderConstructor responseName responseRoot false true;
      init ← registrations "types." enums;
      mret ("// -------------------- " +:+ splitToPhrase (mm_Name message) +:+ " (" +:+ formatBannerDirection (mm_Direction message) +:+
            ") --------------------" +:+ newline +:+ newline +:+
            "const " +:+ mm_Name message +:+ "FeatureName = " +:+ quoted (mm_Name message) +:+ newline +:+ newline +:+
            Join (map (λ dg, buildEnumTypeDecl dg.2) enums) "" +:+
            match enums with
            | [] => ""
            | _ => "const (" +:+ newline +:+ lines (flat_map (λ dg, buildEnumConstEntries dg.2 (d_Values dg.1)) enums) +:+
                   ")" +:+ newline +:+ newline
            end +:+
            lines (map (λ dg, buildIsValidFunc dg.2 (d_Values dg.1)) enums) +:+
            lines bodies +:+ lines [requestBody; responseBody] +:+ feature_text message requestName responseName +:+
            lines ctors +:+ lines [requestCtor; responseCtor] +:+ init)
  end.
Definition RenderMessage (message : ManifestMessage) : result string :=
  body ← message_body message; formatSource body.

(** The items of the shared types file, by Go name: an object with its constructor,
    an enumeration with its constants. *)
Definition render_item (dg : Definition_ * string) : result string :=
  if bool_decide (d_Kind dg.1 = DefinitionObject) then
    body ← structBody dg.2 dg.1 true;
    ctor ← renderConstructor dg.2 dg.1 true (determineReturnsPointer (d_Name dg.1) (Definitions ir));
    mret (body +:+ newline +:+ ctor +:+ newline)
  else mret (buildEnumDeclaration dg.2 (d_Values dg.1) +:+ newline).
Definition renderTypesFileBody : result string :=
  objects ← localPlacedDefinitions "types" DefinitionObject;
  enums ← localPlacedDefinitions "types" DefinitionEnum;
  let items := sort_by snd (objects ++ enums) in
  bodies ← mapM_result render_item items;
  init ← registrations "" (filter (λ dg, d_Kind dg.1 = DefinitionEnum) items);
  mret (Join bodies "" +:+ init).
End tree.

Definition import_groups (body : string) (forcedImports : list string) (typesImportPath : string) : list (list string) :=
  match forcedImports with [] => [] | _ => [forcedImports] end ++
  (if Contains body "validator.FieldLevel" then [["gopkg.in/go-playground/validator.v9"]] else []) ++
  (if negb (bool_decide (typesImportPath = "")) && Contains body "types." then [[typesImportPath]] else []).
Definition assembleFile (packageName body : string) (forcedImports : list string) (typesImportPath : string) : result string :=
  let groups := import_groups body forcedImports typesImportPath in
  formatSource ("// Code generated by internal/codegen. DO NOT EDIT." +:+ newline +:+ newline +:+
          "package " +:+ packageName +:+ newline +:+ newline +:+
          match groups with
          | [] => ""
          | _ => "import (" +:+ newline +:+ Join (map (λ g, lines (map (λ i, tab +:+ quoted i) g)) groups) newline +:+
                 ")" +:+ newline +:+ newline
          end +:+ body).

(** ** The tree *)

Context (path_join : list string → string) (path_clean : string → string).

Definition destination (f : generatedFile) : string := lower_string (path_clean (gf_path f)).
Fixpoint check_destinations (seen : gmap string generatedFile) (files : list generatedFile) : result unit :=
  match files with
  | [] => mret tt
  | file :: files' =>
      match seen !! destination file with
      | None => check_destinations (<[destination file := file]> seen) files'
      | Some prior =>
          if bool_decide (gf_path prior = gf_path file)
          then fail (gf_source prior +:+ " and " +:+ gf_source file +:+ " both emit " +:+ gf_path file)
          else fail (gf_source prior +:+ " emits " +:+ gf_path prior +:+ " and " +:+ gf_source file +:+ " emits " +:+ gf_path file +:+
                     ", which are one file on a case-insensitive filesystem")
      end
  end.
Definition checkDestinationPaths (files : list generatedFile) : result unit := check_destinations ∅ files.

Definition message_file_of (ir : IR) (m : Manifest) (outDir : string) (placement : PlacementPlan) (options : EmitterOptions)
    (message : ManifestMessage) : result generatedFile :=
  body ← wrap ("render message " +:+ mm_Name message) (RenderMessage ir (e_Transform options) (e_Overrides options) placement message);
  content ← wrap ("assemble message " +:+ mm_Name message) (assembleFile (mm_Block message) body ["reflect"] (TypesImportPath m));
  mret (mkFile (path_join [outDir; mf_GoTree m; mm_Block message; snakeCase (mm_Name message) +:+ ".go"]) content
               ("message " +:+ mm_Name message)).

Definition renderTree (ir : IR) (m : Manifest) (outDir : string) (options : EmitterOptions) : result (list generatedFile) :=
  placement ← ComputePlacement ir;
  _ ← match CheckEmissionCollisions ir placement (e_Transform options) with Some e => inr e | None => mret tt end;
  typesBody ← renderTypesFileBody ir (e_Transform options) (e_Overrides options) placement;
  typesFile ← wrap "assemble shared types file" (assembleFile "types" typesBody [] "");
  files ← mapM_result (message_file_of ir m outDir placement options) (filter (λ r, mm_Emit r = true) (mf_Messages m));
  let all := mkFile (path_join [outDir; mf_GoTree m; "types"; "types_gen.go"]) typesFile "the shared types file" :: files in
  _ ← checkDestinationPaths all;
  mret all.

(** ** Writing *)

(** The files, and the paths renamed into place.  Directories are not part of the
    state, and the removal of a temporary file does not fail. *)
Record disk := mkDisk { contents : gmap string string; touched : list string }.

(** How an attempt to write goes: the step that fails. *)
Inductive outcome := Written | MkdirFails (e : error) | TempFails (e : error) | WriteFails (partial : string) (e : error) | RenameFails (e : error).

Definition set_content (path content : string) (d : disk) : disk := mkDisk (<[path := content]> (contents d)) (touched d).
Definition remove (path : string) (d : disk) : disk := mkDisk (delete path (contents d)) (touched d).
Definition rename (from path content : string) (d : disk) : disk :=
  mkDisk (<[path := content]> (delete from (contents d))) (touched d ++ [path]).

Context (temp_name : string → disk → string).

Definition writeIfChanged (how : outcome) (path content : string) (d : disk) : disk * result unit :=
  if bool_decide (contents d !! path = Some content) then (d, mret tt) else
  let temp := temp_name path d in
  match how with
  | MkdirFails e => (d, wrap ("create directory for " +:+ path) (inr e))
  | TempFails e => (d, wrap ("write " +:+ path) (inr e))
  | WriteFails partial e => (remove temp (set_content temp partial d), wrap ("write " +:+ path) (inr e))
  | RenameFails e => (remove temp (set_content temp content d), wrap ("write " +:+ path) (inr e))
  | Written => (rename temp path content (set_content temp content d), mret tt)
  end.

(** The attempts go as [hows] says; later ones succeed. *)
Fixpoint write_files (hows : list outcome) (files : list generatedFile) (d : disk) : disk * result unit :=
  match files with
  | [] => (d, mret tt)
  | f :: files' =>
      let '(d', r) := writeIfChanged (default Written (head hows)) (gf_path f) (gf_content f) d in
      match r with
      | inr e => (d', wrap "emit go" (inr e))
      | inl _ => write_files (tail hows) files' d'
      end
  end.
Definition EmitGo (hows : list outcome) (ir : IR) (m : Manifest) (outDir : string) (options : EmitterOptions) (d : disk) : disk * result unit :=
  match renderTree ir m outDir options with
  | inr e => (d, wrap "emit go" (inr e))
  | inl files => write_files hows files d
  end.
End emit.
