(* ===== verification/CgPlacementTheorems.v ===== *)
(** * The code generator: theorems about names, placement and collisions

    - [split_words_lossless]: words are cut without losing a character.
    - [placement_by_reach]: where a definition is placed.
    - [collisions_complete]: what passes the collision checks is free of
      collisions, and conversely. *)

From S2P Require Import Prelude Ocpp CgIR CgMapping CgPlacement.
Local Open Scope string_scope.
Local Open Scope list_scope.

(** ** Words *)

Lemma chars_Join l : chars (Join l "") = concat (map chars l).
Proof.
  induction l as [|s l IH]; [done|]. destruct l as [|s' l]; [simpl; by rewrite app_nil_r|].
  change (Join (s :: s' :: l) "") with (s +:+ "" +:+ Join (s' :: l) ""). rewrite !chars_app, IH. done.
Qed.

Lemma split_from_concat rest : ∀ prev word, concat (split_from prev word rest) = word ++ rest.
Proof.
  induction rest as [|c rest IH]; intros prev word; simpl; [by rewrite !app_nil_r|].
  destruct (boundary prev c (head rest)); simpl; rewrite IH; [done|by rewrite <-app_assoc].
Qed.

Lemma split_from_nonempty rest : ∀ prev word, word ≠ [] → Forall (λ w, w ≠ []) (split_from prev word rest).
Proof.
  induction rest as [|c rest IH]; intros prev word Hw; simpl; [by constructor|].
  destruct (boundary prev c (head rest)); [constructor; [done|by apply IH]|]. apply IH. by destruct word.
Qed.

(** Inside a word there is no boundary: a digit is never next to another
    character, and a capital never follows a small letter. *)
Definition one_word (w : list Ascii.ascii) : Prop :=
  ∀ l a b k, w = l ++ a :: b :: k → IsDigit a = IsDigit b ∧ ¬ (IsLower a = true ∧ IsUpper b = true).

Lemma boundary_false a b n :
  boundary a b n = false → IsDigit a = IsDigit b ∧ ¬ (IsLower a = true ∧ IsUpper b = true).
Proof.
  unfold boundary. destruct (IsDigit a), (IsDigit b); simpl; try done; destruct (IsLower a), (IsUpper b); simpl; naive_solver.
Qed.

Lemma one_word_snoc w prev c n :
  one_word (w ++ [prev]) → boundary prev c n = false → one_word ((w ++ [prev]) ++ [c]).
Proof.
  intros Hw Hb l a b k E. destruct (decide (k = [])) as [->|Hk].
  - change (l ++ [a; b]) with (l ++ [a] ++ [b]) in E. rewrite app_assoc in E.
    apply app_inj_tail in E as [E <-]. apply app_inj_tail in E as [_ <-]. by eapply boundary_false.
  - destruct (exists_last Hk) as (k' & x & ->). change (a :: b :: k' ++ [x]) with ((a :: b :: k') ++ [x]) in E.
    rewrite app_assoc in E. apply app_inj_tail in E as [E _]. by eapply Hw.
Qed.

Lemma split_from_words rest : ∀ prev word, one_word (word ++ [prev]) → Forall one_word (split_from prev (word ++ [prev]) rest).
Proof.
  induction rest as [|c rest IH]; intros prev word Hw; simpl; [by constructor|].
  destruct (boundary prev c (head rest)) eqn:E.
  - constructor; [done|]. apply (IH c []). intros l a b k Hl. destruct l as [|? [|]]; discriminate Hl.
  - rewrite <-app_assoc. change ([prev] ++ [c]) with ([prev; c]). rewrite (app_assoc word [prev] [c] : word ++ [prev; c] = _).
    apply IH. by eapply one_word_snoc.
Qed.

(** [splitWords] only decides where words end: joined again they give the
    name back, none is empty, and no word holds a digit next to another character
    or a capital after a small letter. *)
Theorem split_words_lossless s :
  Join (splitWords s) "" = s ∧ Forall (λ w, w ≠ "" ∧ one_word (chars w)) (splitWords s).
Proof.
  unfold splitWords. destruct (chars s) as [|c l] eqn:E.
  - split; [|constructor]. rewrite <-(of_chars_inv s), E. done.
  - split.
    + rewrite <-(of_chars_inv (Join _ _)), chars_Join, map_map.
      rewrite (map_ext _ id) by (intros; apply chars_of_chars). rewrite map_id, split_from_concat.
      change ([c] ++ l) with (c :: l). rewrite <-E. apply of_chars_inv.
    + apply Forall_fmap, Forall_and. split.
      * eapply Forall_impl; [by apply (split_from_nonempty l c [c])|]. intros w Hw Hn. simpl in Hn.
        apply Hw. rewrite <-(chars_of_chars w), Hn. done.
      * eapply Forall_impl; [apply (split_from_words l c [])|].
        -- intros l' a b k Hl. destruct l' as [|? [|]]; discriminate Hl.
        -- intros w Hw. simpl. by rewrite chars_of_chars.
Qed.

(** ** Placement *)

(** The messages that reach a definition. *)
Definition reached_by (ir : IR) (name : string) : list Message := filter (λ m, name ∈ m_Reach m) (Messages ir).

Section counts.
Context (cands : gset string).

(** One message, whose reach set names nothing twice. *)
Lemma reach_message m names : ∀ acc name, NoDup names →
  let acc' := foldl (reach_one cands m) acc names in
  acc'.1 !! name = (if bool_decide (name ∈ names ∧ name ∈ cands) then Some (S (default 0 (acc.1 !! name))) else acc.1 !! name) ∧
  acc'.2 !! name = (if bool_decide (name ∈ names ∧ name ∈ cands ∧ default 0 (acc.1 !! name) = 0) then Some (m_Name m) else acc.2 !! name).
Proof.
  induction names as [|n names IH]; intros acc name Hnd; cbn [foldl].
  - rewrite !bool_decide_eq_false_2 by set_solver. done.
  - apply NoDup_cons in Hnd as [Hn Hnd]. destruct (IH (reach_one cands m acc n) name Hnd) as [IH1 IH2].
    cbv zeta in *. rewrite IH1, IH2. clear IH IH1 IH2. unfold reach_one.
    destruct (decide (name = n)) as [->|Hne].
    + rewrite (bool_decide_eq_false_2 (n ∈ names ∧ n ∈ cands)) by set_solver.
      rewrite (bool_decide_eq_false_2 (n ∈ names ∧ _)) by set_solver.
      destruct (decide (n ∈ cands)) as [Hc|Hc].
      * rewrite (bool_decide_eq_true_2 (n ∈ cands)) by done. cbn [fst snd]. rewrite lookup_insert_eq.
        rewrite (bool_decide_eq_true_2 (n ∈ n :: names ∧ n ∈ cands)) by set_solver. split; [done|].
        destruct (default 0 (acc.1 !! n)) as [|k] eqn:Ek.
        -- rewrite !bool_decide_eq_true_2 by (done || set_solver). by rewrite lookup_insert_eq.
        -- rewrite !bool_decide_eq_false_2 by (done || naive_solver). done.
      * rewrite !bool_decide_eq_false_2 by naive_solver. done.
    + assert (E : (reach_one cands m acc n).1 !! name = acc.1 !! name ∧ (reach_one cands m acc n).2 !! name = acc.2 !! name).
      { unfold reach_one. case_bool_decide; [|done]. cbn [fst snd]. rewrite lookup_insert_ne by done. split; [done|].
        case_bool_decide; [by rewrite lookup_insert_ne|done]. }
      unfold reach_one in E. destruct E as [-> ->].
      rewrite (bool_decide_ext (name ∈ names ∧ name ∈ cands) (name ∈ n :: names ∧ name ∈ cands)) by set_solver.
      rewrite (bool_decide_ext (name ∈ names ∧ name ∈ cands ∧ default 0 (acc.1 !! name) = 0)
                 (name ∈ n :: names ∧ name ∈ cands ∧ default 0 (acc.1 !! name) = 0)) by set_solver. done.
Qed.

(** All messages: how many reach a name, and the first of them. *)
Lemma reach_messages ms : ∀ acc name, Forall (λ m, NoDup (m_Reach m)) ms → name ∈ cands →
  let reached := filter (λ m, name ∈ m_Reach m) ms in
  let acc' := foldl (λ acc m, foldl (reach_one cands m) acc (m_Reach m)) acc ms in
  default 0 (acc'.1 !! name) = default 0 (acc.1 !! name) + length reached ∧
  acc'.2 !! name = match default 0 (acc.1 !! name), reached with
                   | 0, m :: _ => Some (m_Name m)
                   | _, _ => acc.2 !! name
                   end.
Proof.
  induction ms as [|m ms IH]; intros acc name Hnd Hc; cbn [foldl].
  - simpl. split; [lia|]. by destruct (default 0 _).
  - inversion_clear Hnd as [|?? Hm Hms].
    destruct (IH (foldl (reach_one cands m) acc (m_Reach m)) name Hms Hc) as [IH1 IH2].
    destruct (reach_message m (m_Reach m) acc name Hm) as [E1 E2]. cbv zeta in *. rewrite IH1, IH2, E1, E2. clear IH1 IH2 E1 E2.
    rewrite filter_cons. destruct (decide (name ∈ m_Reach m)) as [Hr|Hr].
    + rewrite (bool_decide_eq_true_2 (name ∈ m_Reach m ∧ name ∈ cands)) by done. simpl. split; [lia|].
      destruct (default 0 (acc.1 !! name)) as [|k] eqn:Ek.
      * by rewrite bool_decide_eq_true_2 by done.
      * rewrite bool_decide_eq_false_2 by naive_solver. done.
    + rewrite !bool_decide_eq_false_2 by naive_solver. done.
Qed.
End counts.

Definition home_of (ir : IR) (name : string) : option string :=
  match reached_by ir name with
  | [] => None
  | [m] => Some ("message:" +:+ m_Name m)
  | _ => Some "types"
  end.

Lemma place_names_ok ir counts reaching names : ∀ home,
  (∀ n, n ∈ names → default 0 (counts !! n) = length (reached_by ir n) ∧
        ∀ m l, reached_by ir n = m :: l → reaching !! n = Some (m_Name m)) →
  match place_names ir counts reaching names home with
  | inl plan => (∀ n, n ∈ names → reached_by ir n ≠ []) ∧
      ∀ n, Home plan !! n = if bool_decide (n ∈ names) then home_of ir n else home !! n
  | inr _ => ∃ n, n ∈ names ∧ reached_by ir n = []
  end.
Proof.
  induction names as [|n names IH]; intros home Hok; cbn [place_names].
  - split; [by intros n ?%not_elem_of_nil|]. intros n. by rewrite bool_decide_eq_false_2 by set_solver.
  - destruct (Hok n ltac:(left)) as [Hc Hm]. rewrite Hc. unfold home_of in *.
    assert (Hrest : ∀ h, reached_by ir n ≠ [] → home_of ir n = Some h →
      match place_names ir counts reaching names (<[n := h]> home) with
      | inl plan => (∀ n', n' ∈ n :: names → reached_by ir n' ≠ []) ∧
          ∀ n', Home plan !! n' = if bool_decide (n' ∈ n :: names) then home_of ir n' else home !! n'
      | inr _ => ∃ n', n' ∈ n :: names ∧ reached_by ir n' = []
      end).
    { intros h Hne Hh. specialize (IH (<[n := h]> home) ltac:(intros; apply Hok; by right)).
      destruct (place_names ir counts reaching names _) as [plan|]; [|destruct IH as (n' & ? & ?); exists n'; set_solver].
      destruct IH as [H1 H2]. split; [by intros n' [->|?]%elem_of_cons; auto|]. intros n'. rewrite H2.
      destruct (decide (n' ∈ names)); [rewrite !bool_decide_eq_true_2 by set_solver; done|].
      rewrite (bool_decide_eq_false_2 (n' ∈ names)) by done. destruct (decide (n' = n)) as [->|Hne'].
      - rewrite bool_decide_eq_true_2 by set_solver. by rewrite lookup_insert_eq.
      - rewrite bool_decide_eq_false_2 by set_solver. by rewrite lookup_insert_ne. }
    destruct (reached_by ir n) as [|m [|m' l]] eqn:E; simpl.
    + exists n. set_solver.
    + apply Hrest; [done|]. unfold home_of. rewrite E. by rewrite (Hm _ _ eq_refl).
    + apply Hrest; [done|]. unfold home_of. by rewrite E.
Qed.

(** if no reach set names a definition twice, [ComputePlacement] fails exactly
    if some definition that is neither a root nor reserved is reached by no
    message; otherwise it places exactly these definitions, one that a single
    message reaches with that message, any other in the shared types. *)
Theorem placement_by_reach ir :
  Forall (λ m, NoDup (m_Reach m)) (Messages ir) →
  match ComputePlacement ir with
  | inl plan => (∀ name, name ∈ candidates ir → reached_by ir name ≠ []) ∧
      ∀ name, Home plan !! name = if bool_decide (name ∈ candidates ir) then home_of ir name else None
  | inr _ => ∃ name, name ∈ candidates ir ∧ reached_by ir name = []
  end.
Proof.
  intros Hnd. unfold ComputePlacement. destruct (reach_counts ir) as [counts reaching] eqn:Hr.
  assert (Hin : ∀ n, n ∈ sort_strings (elements (candidates ir)) ↔ n ∈ candidates ir).
  { intros n. unfold sort_strings. by rewrite sort_by_perm, elem_of_elements. }
  assert (Hcounts : ∀ n, n ∈ sort_strings (elements (candidates ir)) →
    default 0 (counts !! n) = length (reached_by ir n) ∧
    ∀ m l, reached_by ir n = m :: l → reaching !! n = Some (m_Name m)).
  { intros n Hn%Hin. destruct (reach_messages (candidates ir) (Messages ir) (∅, ∅) n Hnd Hn) as [E1 E2].
    unfold reach_counts in Hr. rewrite Hr in E1, E2. cbn [fst snd] in *. rewrite lookup_empty in E1, E2. simpl in *.
    split; [done|]. intros m l Hm. unfold reached_by in Hm. by rewrite Hm in E2. }
  pose proof (place_names_ok ir counts reaching _ ∅ Hcounts) as Hp.
  destruct (place_names _ _ _ _ _) as [plan|].
  - destruct Hp as [H1 H2]. split; [intros n Hn; by apply H1, Hin|]. intros n. rewrite H2, lookup_empty.
    by rewrite (bool_decide_ext _ _ (Hin n)).
  - destruct Hp as (n & Hn & E). exists n. by rewrite <-Hin.
Qed.

(** A definition of two messages is shared, one of a single message is local. *)
Module PlacementDemo.
Definition definition (n : string) : Definition_ := mkDefinition n DefinitionObject [] [] None false 1 [n].
Definition message (n : string) (reach : list string) : Message := mkMessage n n "" "" "" "" "" [] reach true.
Definition ir : IR := mkIR [definition "IdTokenType"; definition "ModemType"]
  [message "Authorize" ["IdTokenType"]; message "BootNotification" ["IdTokenType"; "ModemType"]].
End PlacementDemo.

Lemma placement_by_reach_witness :
  ∃ plan, ComputePlacement PlacementDemo.ir = inl plan ∧ Home plan !! "IdTokenType" = Some "types" ∧
    Home plan !! "ModemType" = Some "message:BootNotification".
Proof.
  assert (Hnd : Forall (λ m, NoDup (m_Reach m)) (Messages PlacementDemo.ir)).
  { repeat (constructor; [apply (bool_decide_eq_true_1 _); vm_compute; reflexivity|]). constructor. }
  pose proof (placement_by_reach PlacementDemo.ir Hnd) as H.
  destruct (ComputePlacement PlacementDemo.ir) as [plan|e] eqn:E; [|vm_compute in E; discriminate E].
  exists plan. destruct H as [_ H]. split; [done|]. rewrite !H. split; vm_compute; reflexivity.
Defined.

(** ** Collisions *)

Lemma first_duplicate_None l : ∀ seen,
  first_duplicate seen l = None ↔ NoDup (map key l) ∧ ∀ e, e ∈ l → seen !! key e = None.
Proof.
  induction l as [|e l IH]; intros seen; cbn [first_duplicate map].
  - split; [|done]. intros _. split; [apply NoDup_nil_2|by intros e ?%not_elem_of_nil].
  - destruct (seen !! key e) as [prior|] eqn:Hs.
    + split; [done|]. intros [_ H]. specialize (H e ltac:(left)). congruence.
    + rewrite IH, NoDup_cons. split.
      * intros [Hnd Hseen]. split; [split; [|done]|].
        -- intros (e' & E & Hin)%list_elem_of_fmap. specialize (Hseen e' Hin). rewrite <-E, lookup_insert_eq in Hseen. done.
        -- intros e' [->|Hin]%elem_of_cons; [done|]. specialize (Hseen e' Hin). by apply lookup_insert_None in Hseen as [? _].
      * intros [[Hn Hnd] Hseen]. split; [done|]. intros e' Hin. apply lookup_insert_None. split; [apply Hseen; by right|].
        intros E. apply Hn. rewrite E. by apply list_elem_of_fmap_2.
Qed.

Lemma NoDup_by_package (index : list (string * collisionEntry)) :
  NoDup (map (λ pe, (pe.1, key pe.2)) index) ↔
  ∀ pkg, NoDup (map key (snd <$> filter (λ pe, pe.1 = pkg) index)).
Proof.
  induction index as [|[p e] index IH]; [split; [intros; apply NoDup_nil_2|intros; apply NoDup_nil_2]|].
  cbn [map fst snd]. rewrite NoDup_cons, IH.
  assert (Hin : ∀ pkg, (pkg, key e) ∈ map (λ pe, (pe.1, key pe.2)) index ↔
    key e ∈ map key (snd <$> filter (λ pe : string * collisionEntry, pe.1 = pkg) index)).
  { intros pkg. rewrite !list_elem_of_fmap. split.
    - intros ([p' e'] & [= -> E] & Hin). exists e'. split; [done|]. apply list_elem_of_fmap. exists (p', e').
      split; [done|]. by apply list_elem_of_filter.
    - intros (e' & E & ([p' e''] & -> & [Hp Hin]%list_elem_of_filter)%list_elem_of_fmap). exists (p', e''). simpl in *.
      split; [by rewrite E, Hp|done]. }
  split.
  - intros [Hn Hnd] pkg. rewrite filter_cons. cbn [fst]. case_decide as E; [|apply Hnd]. subst pkg. simpl.
    apply NoDup_cons. split; [by rewrite <-Hin|apply Hnd].
  - intros Hnd. split.
    + rewrite Hin. specialize (Hnd p). rewrite filter_cons_True in Hnd by done. simpl in Hnd. by apply NoDup_cons in Hnd as [? _].
    + intros pkg. specialize (Hnd pkg). rewrite filter_cons in Hnd. cbn [fst] in Hnd. case_decide; [|done].
      simpl in Hnd. by apply NoDup_cons in Hnd as [_ ?].
Qed.

Lemma check_packages_None index pkgs :
  check_packages index pkgs = None ↔
  ∀ pkg, pkg ∈ pkgs → NoDup (map key (snd <$> filter (λ pe, pe.1 = pkg) index)).
Proof.
  induction pkgs as [|pkg pkgs IH]; cbn [check_packages]; [split; [by intros _ ? ?%not_elem_of_nil|done]|].
  pose proof (first_duplicate_None (snd <$> filter (λ pe, pe.1 = pkg) index) ∅) as Hd.
  destruct (first_duplicate ∅ _) as [[prior e]|].
  - split; [done|]. intros H. assert (Some (prior, e) = None); [|done]. apply Hd. split; [apply H; left|].
    intros; apply lookup_empty.
  - rewrite IH. destruct (proj1 Hd eq_refl) as [Hn _]. split; [intros H p [->|?]%elem_of_cons; auto|].
    intros H p Hp. apply H. by right.
Qed.

Section complete.
Context (ir : IR) (placement : PlacementPlan) (config : TransformConfig).

Lemma checkPackageCollisions_None :
  checkPackageCollisions ir placement config = None ↔
  ∃ index, package_index ir placement config = inl index ∧ NoDup (map (λ pe, (pe.1, key pe.2)) index).
Proof.
  unfold checkPackageCollisions. destruct (package_index ir placement config) as [index|e]; [|naive_solver].
  rewrite check_packages_None. split.
  - intros H. exists index. split; [done|]. apply NoDup_by_package. intros pkg.
    destruct (decide (pkg ∈ index.*1)) as [Hin|Hin].
    + apply H. unfold sort_strings. by rewrite sort_by_perm, elem_of_remove_dups.
    + replace (filter (λ pe, pe.1 = pkg) index) with (@nil (string * collisionEntry)); [apply NoDup_nil_2|].
      symmetry. destruct (filter _ index) as [|pe l] eqn:Ef; [done|]. destruct Hin.
      assert (Hpe : pe ∈ filter (λ pe, pe.1 = pkg) index) by (rewrite Ef; left).
      apply list_elem_of_filter in Hpe as [<- Hpe]. by apply list_elem_of_fmap_2.
  - intros (index' & [= <-] & Hnd) pkg _. by apply NoDup_by_package.
Qed.

(** The field names of a struct. *)
Definition field_names (d : Definition_) (names : list string) : Prop :=
  Forall2 (λ p n, transformPropertyName (p_Name p) config = inl n) (d_Properties d) names.

Lemma check_fields_None d ps : ∀ seen,
  check_fields config d seen ps = None ↔
  ∃ names, Forall2 (λ p n, transformPropertyName (p_Name p) config = inl n) ps names ∧ NoDup names ∧
           ∀ n, n ∈ names → seen !! n = None.
Proof.
  induction ps as [|p ps IH]; intros seen; cbn [check_fields].
  - split; [|done]. intros _. exists []. split; [constructor|]. split; [apply NoDup_nil_2|by intros n ?%not_elem_of_nil].
  - destruct (transformPropertyName (p_Name p) config) as [f|e] eqn:Ht.
    2: { split; [done|]. intros (names & H & _). inversion H; congruence. }
    destruct (seen !! f) as [prior|] eqn:Hf.
    { split; [done|]. intros (names & H & _ & Hs). inversion H as [|? n ? names' Hn ?]; subst.
      rewrite Ht in Hn. injection Hn as ->. rewrite (Hs n ltac:(left)) in Hf. done. }
    rewrite IH. split.
    + intros (names & H & Hnd & Hs). exists (f :: names). split; [by constructor|].
      assert (Hn : f ∉ names) by (intros Hin%Hs; by rewrite lookup_insert_eq in Hin).
      split; [by apply NoDup_cons|]. intros n [->|Hin]%elem_of_cons; [done|]. by apply Hs, lookup_insert_None in Hin as [? _].
    + intros (names & H & Hnd & Hs). inversion H as [|? n ? names' Hn H']; subst. rewrite Ht in Hn. injection Hn as <-.
      apply NoDup_cons in Hnd as [Hnf Hnd]. exists names'. split_and!; [done..|]. intros n Hin. apply lookup_insert_None.
      split; [apply Hs; by right|]. by intros <-.
Qed.

Lemma first_error_None {A : Type} (f : A → option error) l : first_error f l = None ↔ ∀ x, x ∈ l → f x = None.
Proof.
  induction l as [|x l IH]; cbn [first_error]; [split; [by intros _ ? ?%not_elem_of_nil|done]|].
  destruct (f x) as [e|] eqn:E.
  - split; [done|]. intros H. rewrite (H x ltac:(left)) in E. done.
  - rewrite IH. split; [intros H y [->|?]%elem_of_cons; auto|]. intros H y Hy. apply H. by right.
Qed.

(** The enumerations that are placed. *)
Definition placed_enums (names : list string) : list Definition_ :=
  filter (λ d, d_Kind d = DefinitionEnum) (omap (findDefinitionByName (Definitions ir)) names).

Lemma check_tags_None names : ∀ seen,
  check_tags ir config seen names = None ↔
  ∃ tags, Forall2 (λ d t, validatorTagName config (d_Name d) = inl t) (placed_enums names) tags ∧ NoDup tags ∧
          ∀ t, t ∈ tags → seen !! t = None.
Proof.
  unfold placed_enums. induction names as [|n names IH]; intros seen; cbn [check_tags].
  - split; [|done]. intros _. exists []. split; [constructor|]. split; [apply NoDup_nil_2|by intros t ?%not_elem_of_nil].
  - cbn. destruct (findDefinitionByName (Definitions ir) n) as [d|] eqn:Hd; [|apply IH].
    case_bool_decide as Hk.
    { rewrite filter_cons_False by done. apply IH. }
    rewrite filter_cons_True by done.
    destruct (validatorTagName config (d_Name d)) as [tag|e] eqn:Ht.
    2: { split; [done|]. intros (tags & H & _). inversion H; congruence. }
    destruct (seen !! tag) as [prior|] eqn:Hf.
    { split; [done|]. intros (tags & H & _ & Hs). inversion H as [|? t ? tags' Hn ?]; subst.
      rewrite Ht in Hn. injection Hn as ->. rewrite (Hs t ltac:(left)) in Hf. done. }
    rewrite IH. split.
    + intros (tags & H & Hnd & Hs). exists (tag :: tags). split; [by constructor|].
      assert (Hn : tag ∉ tags) by (intros Hin%Hs; by rewrite lookup_insert_eq in Hin).
      split; [by apply NoDup_cons|]. intros t [->|Hin]%elem_of_cons; [done|]. by apply Hs, lookup_insert_None in Hin as [? _].
    + intros (tags & H & Hnd & Hs). inversion H as [|? t ? tags' Hn H']; subst. rewrite Ht in Hn. injection Hn as <-.
      apply NoDup_cons in Hnd as [Hnf Hnd]. exists tags'. split_and!; [done..|]. intros t Hin. apply lookup_insert_None.
      split; [apply Hs; by right|]. by intros <-.
Qed.

(** [CheckEmissionCollisions] returns nil exactly if every name can be
    transformed, no two package-level identifiers of one Go package (types,
    constructors, constants of enumerations, roots, features, over all the files of
    the package) are equal, no two fields of a rendered struct are, and no two
    placed enumerations derive one validator tag. *)
Theorem collisions_complete :
  CheckEmissionCollisions ir placement config = None ↔
  (∃ index, package_index ir placement config = inl index ∧ NoDup (map (λ pe, (pe.1, key pe.2)) index)) ∧
  (∀ d, d ∈ rendered_structs ir placement → ∃ names, field_names d names ∧ NoDup names) ∧
  ∃ tags, Forall2 (λ d t, validatorTagName config (d_Name d) = inl t) (placed_enums (sortedPlacedNames placement)) tags ∧
          NoDup tags.
Proof.
  unfold CheckEmissionCollisions. pose proof checkPackageCollisions_None as H1.
  destruct (checkPackageCollisions ir placement config); [naive_solver|].
  assert (H2 : checkFieldCollisions ir placement config = None ↔
    ∀ d, d ∈ rendered_structs ir placement → ∃ names, field_names d names ∧ NoDup names).
  { unfold checkFieldCollisions. rewrite first_error_None. split; intros H d Hd; specialize (H d Hd).
    - apply check_fields_None in H as (names & ? & ? & _). by exists names.
    - apply check_fields_None. destruct H as (names & ? & ?). exists names. split_and!; [done..|]. intros; apply lookup_empty. }
  destruct (checkFieldCollisions ir placement config); [naive_solver|].
  unfold checkValidatorTagCollisions. rewrite check_tags_None. split.
  - intros (tags & ? & ? & _). split; [by apply H1|]. split; [by apply H2|by exists tags].
  - intros (_ & _ & tags & ? & ?). exists tags. split_and!; [done..|]. intros; apply lookup_empty.
Qed.
End complete.
