(* ===== verification/CgWalkTheorems.v ===== *)
(** * The code generator: theorems about the walk

    - [reach_exact]: the reach of a message is exactly the set of definitions its
      roots refer to, directly or through others, sorted and without repetition.
    - [cycles_detected]: the search for cycles finds one exactly if there is one,
      and what it reports is a cycle.
    - [deduplicate_exact]: merging keeps every definition, once. *)

From Stdlib Require Import Sorting.Sorted.
From S2P Require Import Prelude Ocpp CgIR CgMapping CgPlacement CgSchema CgWalk.
Local Open Scope string_scope.
Local Open Scope list_scope.

(** ** References *)

Fixpoint prop_refs (p : Property) : list string :=
  (if bool_decide (p_Ref p ≠ "") then [ref_name (p_Ref p)] else []) ++
  match p_Items p with Some items => prop_refs items | None => [] end.
Definition refs_of (ps : list Property) : list string := flat_map prop_refs ps.
Definition def_refs (d : Definition_) : list string := refs_of (d_Properties d).

Lemma prop_refs_eq p : prop_refs p =
  (if bool_decide (p_Ref p ≠ "") then [ref_name (p_Ref p)] else []) ++
  match p_Items p with Some items => prop_refs items | None => [] end.
Proof. by destruct p. Qed.

(** What the names [start] refer to. *)
Inductive reachable (lookup : gmap string Definition_) (start : list string) : string → Prop :=
| reach_start n : n ∈ start → reachable lookup start n
| reach_next n d m : reachable lookup start n → lookup !! n = Some d → m ∈ def_refs d → reachable lookup start m.

Lemma reachable_mono lookup l k n : (∀ x, x ∈ l → reachable lookup k x) → reachable lookup l n → reachable lookup k n.
Proof. intros Hlk Hn. induction Hn as [n Hn|n d m _ IH Hd Hm]; [auto|by eapply reach_next]. Qed.

Lemma lookup_table_gen ds : ∀ (m : gmap string Definition_) n d, (∀ n d, m !! n = Some d → d_Name d = n) →
  foldl (λ m d, <[d_Name d := d]> m) m ds !! n = Some d → (d ∈ ds ∨ m !! n = Some d) ∧ d_Name d = n.
Proof.
  induction ds as [|d0 ds IH]; intros m n d Hm Hd; simpl in *; [eauto|].
  destruct (IH (<[d_Name d0 := d0]> m) n d) as [[?|Hin] Hn]; [|done|split; [left; by right|done]|].
  - intros n' d' [[<- <-]|[_ ?]]%lookup_insert_Some; auto.
  - split; [|done]. apply lookup_insert_Some in Hin as [[_ <-]|[_ ?]]; [left; by left|by right].
Qed.
Lemma lookup_table_name ds n d : lookup_table ds !! n = Some d → d ∈ ds ∧ d_Name d = n.
Proof.
  intros Hd. destruct (lookup_table_gen ds ∅ n d) as [[?|He] ?]; [by intros ???%lookup_empty_Some|done|done|].
  by apply lookup_empty_Some in He.
Qed.

Lemma lookup_table_is_Some ds : ∀ (m : gmap string Definition_) n, n ∈ map d_Name ds ∨ is_Some (m !! n) →
  is_Some (foldl (λ m d, <[d_Name d := d]> m) m ds !! n).
Proof.
  induction ds as [|d ds IH]; intros m n Hn; simpl; [destruct Hn as [?%not_elem_of_nil|?]; done|].
  apply IH. rewrite lookup_insert_is_Some. simpl in Hn. rewrite elem_of_cons in Hn.
  destruct (decide (d_Name d = n)), Hn as [[?|?]|?]; naive_solver.
Qed.
Lemma lookup_table_dom ds n : n ∈ map d_Name ds → ∃ d, lookup_table ds !! n = Some d ∧ d ∈ ds ∧ d_Name d = n.
Proof.
  intros Hn. destruct (lookup_table_is_Some ds ∅ n (or_introl Hn)) as [d Hd]. exists d. split; [done|].
  by apply lookup_table_name.
Qed.
Lemma lookup_table_unique ds d : NoDup (map d_Name ds) → d ∈ ds → lookup_table ds !! d_Name d = Some d.
Proof.
  intros Hnd Hd. destruct (lookup_table_dom ds (d_Name d)) as (d' & -> & Hd' & Hn); [by apply list_elem_of_fmap_2|].
  f_equal. apply list_elem_of_lookup in Hd as [i Hi], Hd' as [j Hj]. assert (i = j) as ->; [|congruence].
  eapply NoDup_lookup; [exact Hnd|..]; rewrite (list_lookup_fmap d_Name).
  - by rewrite Hi.
  - rewrite Hj. simpl. by rewrite Hn.
Qed.

(** ** Reach *)

Section reach.
Context (lookup : gmap string Definition_).

(** From [reached], exactly what [refs] refer to is added; what is new is closed. *)
Record added (reached : gset string) (refs : list string) (r : gset string) : Prop := {
  ad_mono : reached ⊆ r;
  ad_refs : ∀ n, n ∈ refs → n ∈ r;
  ad_closed : ∀ n d m, n ∈ r → n ∉ reached → lookup !! n = Some d → m ∈ def_refs d → m ∈ r;
  ad_sound : ∀ n, n ∈ r → n ∈ reached ∨ reachable lookup refs n
}.

Lemma added_nil reached : added reached [] reached.
Proof. split; [done|by intros n ?%not_elem_of_nil|done|by left]. Qed.

Lemma added_app reached l k r1 r2 : added reached l r1 → added r1 k r2 → added reached (l ++ k) r2.
Proof.
  intros [M1 R1 C1 S1] [M2 R2 C2 S2]. split.
  - by etrans.
  - intros n [Hn|Hn]%elem_of_app; [apply M2; auto|auto].
  - intros n d m Hn Hnr Hd Hm. destruct (decide (n ∈ r1)) as [Hn1|Hn1]; [|by eapply C2].
    apply M2. by eapply C1.
  - intros n [Hn|Hn]%S2; [apply S1 in Hn as [?|Hn]; [by left|]|]; right; (eapply reachable_mono; [|exact Hn]);
      intros x Hx; apply reach_start, elem_of_app; auto.
Qed.

Definition unreached (reached : gset string) : nat := size (dom lookup ∖ reached).

Lemma unreached_mono r r' : r ⊆ r' → (unreached r' <= unreached r)%nat.
Proof. intros H. unfold unreached. apply subseteq_size. set_solver. Qed.

Section properties.
Context (enter : string → gset string → option (gset string)) (k : nat).
Context (enter_ok : ∀ name reached, name ∉ reached → (unreached reached <= k)%nat →
  ∃ r, enter name ({[name]} ∪ reached) = Some r ∧ added reached [name] r).

Lemma visit_property_ok p : ∀ reached, (unreached reached <= k)%nat →
  ∃ r, visit_property enter p reached = Some r ∧ added reached (prop_refs p) r.
Proof.
  induction p as [p IH] using Property_items_ind. intros reached Hk. rewrite prop_refs_eq.
  assert (Hstep : visit_property enter p reached =
    match (if bool_decide (p_Ref p ≠ "") then
             if bool_decide (ref_name (p_Ref p) ∈ reached) then Some reached
             else enter (ref_name (p_Ref p)) ({[ref_name (p_Ref p)]} ∪ reached)
           else Some reached) with
    | None => None
    | Some r => match p_Items p with Some i => visit_property enter i r | None => Some r end
    end) by (by destruct p).
  assert (Href : ∃ r1, (if bool_decide (p_Ref p ≠ "") then
             if bool_decide (ref_name (p_Ref p) ∈ reached) then Some reached
             else enter (ref_name (p_Ref p)) ({[ref_name (p_Ref p)]} ∪ reached)
           else Some reached) = Some r1 ∧
           added reached (if bool_decide (p_Ref p ≠ "") then [ref_name (p_Ref p)] else []) r1).
  { case_bool_decide; [|by exists reached; split; [|apply added_nil]].
    case_bool_decide as Hin; [|by apply enter_ok]. exists reached. split; [done|].
    split; [done|by intros n ->%list_elem_of_singleton|done|by left]. }
  destruct Href as (r1 & Hr1 & A1). rewrite Hstep, Hr1.
  destruct (p_Items p) as [i|]; [|rewrite app_nil_r; by exists r1].
  destruct (IH i eq_refl r1) as (r2 & -> & A2).
  { etrans; [apply unreached_mono, (ad_mono _ _ _ A1)|done]. }
  exists r2. split; [done|]. by eapply added_app.
Qed.

Lemma visit_properties_ok ps : ∀ reached, (unreached reached <= k)%nat →
  ∃ r, visit_properties enter ps reached = Some r ∧ added reached (refs_of ps) r.
Proof.
  induction ps as [|p ps IH]; intros reached Hk; simpl; [by exists reached; split; [|apply added_nil]|].
  destruct (visit_property_ok p reached Hk) as (r1 & -> & A1). destruct (IH r1) as (r2 & -> & A2).
  { etrans; [apply unreached_mono, (ad_mono _ _ _ A1)|done]. }
  exists r2. split; [done|]. by eapply added_app.
Qed.
End properties.

Lemma added_enter reached name d r :
  lookup !! name = Some d → name ∉ reached → added ({[name]} ∪ reached) (def_refs d) r → added reached [name] r.
Proof.
  intros Hd Hn [M R C S]. split.
  - set_solver.
  - intros n ->%list_elem_of_singleton. set_solver.
  - intros n d' m Hr Hnr Hd' Hm. destruct (decide (n = name)) as [->|Hne]; [simplify_eq; auto|].
    eapply C; eauto. set_solver.
  - intros n [[->%elem_of_singleton|?]%elem_of_union|Hn']%S; [right; apply reach_start; by left|by left|].
    right. eapply reachable_mono; [|exact Hn']. intros x Hx. eapply reach_next; [apply reach_start; by left|done..].
Qed.

Lemma added_leaf reached name : lookup !! name = None → added reached [name] ({[name]} ∪ reached).
Proof.
  intros Hd. split; [set_solver|set_solver|intros n d m Hn Hnr Hd'; set_solver|].
  intros n [->%elem_of_singleton|?]%elem_of_union; [right; apply reach_start; by left|by left].
Qed.

Lemma visit_ok fuel : ∀ ps reached, (unreached reached <= fuel)%nat →
  ∃ r, visit fuel lookup ps reached = Some r ∧ added reached (refs_of ps) r.
Proof.
  induction fuel as [|fuel IH]; intros ps reached Hf; cbn [visit]; eapply visit_properties_ok; try exact Hf;
    intros name r Hn Hr; (destruct (lookup !! name) as [d|] eqn:Hd; [|eexists; split; [done|by apply added_leaf]]).
  - assert (name ∈ dom lookup ∖ r) by (apply elem_of_difference; split; [by apply elem_of_dom|done]).
    unfold unreached in Hr. assert (Hz : size (dom lookup ∖ r) = 0) by lia. apply size_empty_inv in Hz. set_solver.
  - destruct (IH (d_Properties d) ({[name]} ∪ r)) as (r' & Hv & A).
    + assert (Hs : (unreached ({[name]} ∪ r) < unreached r)%nat).
      { unfold unreached. apply subset_size. split; [set_solver|]. intros Hsub.
        assert (name ∈ dom lookup ∖ r) by (apply elem_of_difference; split; [by apply elem_of_dom|done]). set_solver. }
      lia.
    + exists r'. split; [done|]. by eapply added_enter.
Qed.
End reach.

Lemma unreached_empty lookup : unreached lookup ∅ = size lookup.
Proof. unfold unreached. rewrite difference_empty_L. apply size_dom. Qed.

Lemma computeReach_ok requestDoc responseDoc :
  ∃ l, computeReach requestDoc responseDoc = Some l ∧
    NoDup l ∧ Sorted (le_key id) l ∧
    ∀ n, n ∈ l ↔ reachable (lookup_table (doc_Definitions requestDoc ++ doc_Definitions responseDoc))
                   (refs_of (d_Properties (doc_Root requestDoc)) ++ refs_of (d_Properties (doc_Root responseDoc))) n.
Proof.
  unfold computeReach. set (lookup := lookup_table _).
  destruct (visit_ok lookup (size lookup) (d_Properties (doc_Root requestDoc)) ∅) as (r1 & -> & A1).
  { by rewrite unreached_empty. }
  destruct (visit_ok lookup (size lookup) (d_Properties (doc_Root responseDoc)) r1) as (r2 & -> & A2).
  { etrans; [apply unreached_mono, empty_subseteq|by rewrite unreached_empty]. }
  destruct (added_app _ _ _ _ _ _ A1 A2) as [_ R C S]. eexists. split; [done|].
  split; [|split].
  - unfold sort_strings. rewrite sort_by_perm. apply NoDup_elements.
  - apply sort_by_sorted.
  - intros n. unfold sort_strings. rewrite sort_by_perm, elem_of_elements. split.
    + intros [?%not_elem_of_empty|?]%S; done.
    + intros Hn. induction Hn as [n Hn|n d m _ IH Hd Hm]; [auto|]. by eapply C; [exact IH|set_solver +|exact Hd|].
Qed.

(** [computeReach] returns for every pair of documents, and its result is
    exactly the set of names that the properties of the two roots refer to,
    directly, in the elements of arrays, or through the definitions referred to;
    sorted, no name twice. *)
Theorem reach_exact requestDoc responseDoc :
  ∃ l, computeReach requestDoc responseDoc = Some l ∧
    NoDup l ∧ Sorted (le_key id) l ∧
    ∀ n, n ∈ l ↔ reachable (lookup_table (doc_Definitions requestDoc ++ doc_Definitions responseDoc))
                   (refs_of (d_Properties (doc_Root requestDoc)) ++ refs_of (d_Properties (doc_Root responseDoc))) n.
Proof. apply computeReach_ok. Qed.

(** ** Cycles *)

Lemma propertyHops_names p : ∀ pointer, map h_name (propertyHops p pointer) = prop_refs p.
Proof.
  induction p as [p IH] using Property_items_ind. intros pointer. rewrite prop_refs_eq.
  assert (E : propertyHops p pointer =
    (if bool_decide (p_Ref p ≠ "") then [mkHop (ref_name (p_Ref p)) pointer] else []) ++
    match p_Items p with
    | Some i => propertyHops i (if bool_decide (p_Pointer i = "") then pointer +:+ "/items" else p_Pointer i)
    | None => []
    end) by (by destruct p).
  rewrite E, map_app. f_equal; [by case_bool_decide|]. destruct (p_Items p) as [i|]; [by apply IH|done].
Qed.

Lemma referencedHops_names d : map h_name (referencedHops d) = def_refs d.
Proof.
  unfold referencedHops, def_refs, refs_of. induction (d_Properties d) as [|p ps IH]; simpl; [done|].
  by rewrite map_app, propertyHops_names, IH.
Qed.

Section cycles.
Context (byName : gmap string Definition_).

(** [n] has a property that refers to [m]. *)
Definition edge (n m : string) : Prop := ∃ d, byName !! n = Some d ∧ m ∈ def_refs d.

(** The names on a trail, each referring to the next. *)
Definition chain (names : list string) : Prop := Sorted edge names.

Definition is_cycle (c : cycle) : Prop :=
  (∃ n l, c_names c = n :: l ++ [n]) ∧ chain (c_names c) ∧ length (c_names c) = S (length (c_pointers c)).

Record search_inv (st : gmap string color) (trail : list referenceHop) : Prop := {
  si_trail : ∀ n, st !! n = Some Visiting ↔ n ∈ map h_name trail;
  si_closed : ∀ n m, st !! n = Some Done → edge n m → st !! m = Some Done;
  si_acyclic : ∀ n, st !! n = Some Done → ¬ tc edge n n
}.

Lemma done_closed st trail n m : search_inv st trail → st !! n = Some Done → tc edge n m → st !! m = Some Done.
Proof. intros HI Hn Ht. induction Ht as [n m He|n m k He _ IH]; [by eapply si_closed|]. apply IH. by eapply si_closed. Qed.

(** What a visit leaves: done nodes stay done, the visiting ones are the same. *)
Record progress (st st' : gmap string color) : Prop := {
  pr_done : ∀ n, st !! n = Some Done → st' !! n = Some Done;
  pr_visiting : ∀ n, st !! n = Some Visiting → st' !! n = Some Visiting
}.

Lemma progress_refl st : progress st st.
Proof. by split. Qed.
Lemma progress_trans st1 st2 st3 : progress st1 st2 → progress st2 st3 → progress st1 st3.
Proof. intros [??] [??]. split; auto. Qed.

Definition uncolored (st : gmap string color) : nat := size (dom byName ∖ dom st).

Lemma uncolored_mono st st' : progress st st' → (uncolored st' <= uncolored st)%nat.
Proof.
  intros [Hd Hv]. unfold uncolored. apply subseteq_size. intros n [Hn Hst]%elem_of_difference. apply elem_of_difference.
  split; [done|]. intros [[] Hc]%elem_of_dom; apply Hst, elem_of_dom; eauto.
Qed.

Lemma uncolored_color st n c :
  is_Some (byName !! n) → st !! n = None → (uncolored (<[n := c]> st) < uncolored st)%nat.
Proof.
  intros Hb Hn. unfold uncolored. apply subset_size. rewrite dom_insert. apply elem_of_dom in Hb. split; [set_solver|].
  intros Hsub. assert (n ∈ dom byName ∖ dom st) by (apply elem_of_difference; split; [done|by apply not_elem_of_dom]).
  set_solver.
Qed.

(** The result of visiting hops whose targets the end of the trail refers to. *)
Definition visited (st : gmap string color) (trail : list referenceHop) (targets : list string)
    (r : option (gmap string color + cycle)) : Prop :=
  match r with
  | None => False
  | Some (inr c) => is_cycle c
  | Some (inl st') => search_inv st' trail ∧ progress st st' ∧ ∀ n, n ∈ targets → st' !! n = Some Done
  end.

Lemma visit_hops_ok (enter : referenceHop → gmap string color → option (gmap string color + cycle)) k trail hops :
  (∀ h st, h ∈ hops → search_inv st trail → (uncolored st <= k)%nat → visited st trail [h_name h] (enter h st)) →
  ∀ st, search_inv st trail → (uncolored st <= k)%nat → visited st trail (map h_name hops) (visit_hops enter hops st).
Proof.
  induction hops as [|h hops IH]; intros He st HI Hk; simpl.
  - split; [done|]. split; [apply progress_refl|by intros n ?%not_elem_of_nil].
  - pose proof (He h st ltac:(left) HI Hk) as Hh. destruct (enter h st) as [[st1|c]|]; [|done..].
    destruct Hh as (HI1 & P1 & D1). pose proof (uncolored_mono _ _ P1).
    specialize (IH ltac:(intros; apply He; [by right|done..]) st1 HI1 ltac:(lia)).
    destruct (visit_hops enter hops st1) as [[st2|c]|]; [|done..]. destruct IH as (HI2 & P2 & D2).
    split; [done|]. split; [by eapply progress_trans|].
    intros n [->|Hn]%elem_of_cons; [apply (pr_done _ _ P2), D1; left|auto].
Qed.

Lemma from_hop_spec target trail :
  target ∈ map h_name trail → ∃ pre h post, trail = pre ++ h :: post ∧ h_name h = target ∧ from_hop target trail = h :: post.
Proof.
  induction trail as [|h trail IH]; simpl; [by intros ?%not_elem_of_nil|]. intros Hin. case_bool_decide as E.
  - by exists [], h, trail.
  - apply elem_of_cons in Hin as [?|Hin]; [done|]. destruct (IH Hin) as (pre & h' & post & -> & ? & ?).
    by exists (h :: pre), h', post.
Qed.

Lemma chain_suffix l k : chain (l ++ k) → chain k.
Proof. induction l as [|x l IH]; simpl; [done|]. intros H. apply IH. by inversion H. Qed.

Lemma found_cycle_ok trail h :
  h_name h ∈ map h_name trail → chain (map h_name trail ++ [h_name h]) → is_cycle (found_cycle trail h).
Proof.
  intros Hin Hc. destruct (from_hop_spec _ _ Hin) as (pre & h' & post & -> & Hn & Hf).
  unfold is_cycle, found_cycle. rewrite Hf. cbn [c_names c_pointers map tail]. split_and!.
  - exists (h_name h), (map h_name post). by rewrite Hn.
  - rewrite map_app, <-app_assoc in Hc. by apply chain_suffix in Hc.
  - rewrite !length_app, !length_map. simpl. rewrite length_map. lia.
Qed.

Lemma chain_snoc l a b : chain (l ++ [a]) → edge a b → chain ((l ++ [a]) ++ [b]).
Proof.
  induction l as [|x l IH]; simpl; intros Hc He; [by repeat constructor|].
  inversion_clear Hc as [|?? Hl Hx]. constructor; [by apply IH|]. destruct l; simpl in *; inversion_clear Hx; by constructor.
Qed.

(** Entering a node, and leaving it once everything it refers to is done. *)
Lemma enter_inv st trail h :
  search_inv st trail → st !! h_name h = None → search_inv (<[h_name h := Visiting]> st) (trail ++ [h]).
Proof.
  intros [Ht Hc Ha] Hn. split.
  - intros n. rewrite map_app, elem_of_app, <-Ht. destruct (decide (n = h_name h)) as [->|Hne].
    + rewrite lookup_insert_eq. set_solver.
    + rewrite lookup_insert_ne by done. set_solver.
  - intros n m Hd He. rewrite lookup_insert_Some in Hd. destruct Hd as [[_ ?]|[Hne Hd]]; [done|].
    pose proof (Hc _ _ Hd He) as Hm. rewrite lookup_insert_ne; [done|]. intros E. congruence.
  - intros n Hd. rewrite lookup_insert_Some in Hd. destruct Hd as [[_ ?]|[_ Hd]]; [done|]. by apply Ha.
Qed.

Lemma leave_inv st st2 trail h :
  search_inv st trail → st !! h_name h = None → search_inv st2 (trail ++ [h]) →
  (∀ m, edge (h_name h) m → st2 !! m = Some Done) → search_inv (<[h_name h := Done]> st2) trail.
Proof.
  intros HI Hn HI2 Hd. pose proof HI2 as [Ht Hc Ha].
  assert (Hv : st2 !! h_name h = Some Visiting) by (apply Ht; rewrite map_app; set_solver +).
  assert (Hnt : h_name h ∉ map h_name trail) by (intros Hin%(si_trail _ _ HI); congruence).
  split.
  - intros n. destruct (decide (n = h_name h)) as [->|Hne].
    + rewrite lookup_insert_eq. split; [done|by intros ?].
    + rewrite lookup_insert_ne by done. rewrite Ht, map_app, elem_of_app. set_solver.
  - intros n m Hdn He.
    assert (Hm : st2 !! m = Some Done).
    { rewrite lookup_insert_Some in Hdn. destruct Hdn as [[<- _]|[_ Hdn]]; [by apply Hd|by eapply Hc]. }
    rewrite lookup_insert_ne; [done|]. intros E. congruence.
  - intros n Hdn Hcyc. rewrite lookup_insert_Some in Hdn. destruct Hdn as [[<- _]|[_ Hdn]]; [|by apply (Ha n)].
    assert (Hdone : st2 !! h_name h = Some Done); [|congruence].
    inversion Hcyc as [? ? He|? m ? He Hrest]; subst; [by apply Hd|]. by eapply done_closed; [exact HI2|apply Hd, He|].
Qed.

Lemma visit_hop_ok fuel : ∀ trail h st,
  search_inv st trail → chain (map h_name trail ++ [h_name h]) → (uncolored st < fuel)%nat →
  visited st trail [h_name h] (visit_hop fuel byName trail h st).
Proof.
  induction fuel as [|fuel IH]; intros trail h st HI Hch Hf; [lia|]. cbn [visit_hop].
  destruct (st !! h_name h) as [[]|] eqn:Hn.
  - cbn. apply found_cycle_ok; [by apply (si_trail _ _ HI)|done].
  - cbn. split; [done|]. split; [apply progress_refl|]. by intros n ->%list_elem_of_singleton.
  - pose proof (enter_inv _ _ _ HI Hn) as HI1. set (st1 := <[h_name h := Visiting]> st) in *.
    assert (Hr : visited st1 (trail ++ [h]) (match byName !! h_name h with Some d => def_refs d | None => [] end)
      match byName !! h_name h with
      | Some d => visit_hops (visit_hop fuel byName (trail ++ [h])) (referencedHops d) st1
      | None => Some (inl st1)
      end).
    { destruct (byName !! h_name h) as [d|] eqn:Hd.
      - rewrite <-referencedHops_names. apply visit_hops_ok with (k := uncolored st1); [|done|done].
        intros h' st' Hh' HI' Hk. apply IH; [done| |].
        + rewrite map_app. apply chain_snoc; [done|]. exists d. split; [done|].
          rewrite <-referencedHops_names. by apply list_elem_of_fmap_2.
        + assert (uncolored st1 < uncolored st)%nat by (apply uncolored_color; eauto). lia.
      - cbn. split; [done|]. split; [apply progress_refl|by intros n ?%not_elem_of_nil]. }
    revert Hr. set (r := match byName !! h_name h with Some d => visit_hops _ _ _ | None => _ end).
    destruct r as [[st2|c]|]; [|done..]. intros (HI2 & P2 & D2). cbn.
    assert (Hout : ∀ m, edge (h_name h) m → st2 !! m = Some Done).
    { intros m (d & Hd & Hm). apply D2. by rewrite Hd. }
    split; [by eapply leave_inv|]. split.
    + assert (Hst : ∀ n c, st !! n = Some c → st1 !! n = Some c ∧ n ≠ h_name h).
      { intros n c Hc. assert (n ≠ h_name h) by congruence. split; [by unfold st1; rewrite lookup_insert_ne|done]. }
      split; intros n [Hc Hne]%Hst; (rewrite lookup_insert_ne by done); [by apply (pr_done _ _ P2)|by apply (pr_visiting _ _ P2)].
    + intros n ->%list_elem_of_singleton. by rewrite lookup_insert_eq.
Qed.

Lemma visit_definitions_ok fuel ds : ∀ st,
  search_inv st [] → (uncolored st < fuel)%nat → visited st [] (map d_Name ds) (visit_definitions fuel byName ds st).
Proof.
  induction ds as [|d ds IH]; intros st HI Hf; simpl.
  - split; [done|]. split; [apply progress_refl|by intros n ?%not_elem_of_nil].
  - assert (Hd : visited st [] [d_Name d] (if bool_decide (st !! d_Name d = None)
                                           then visit_hop fuel byName [] (mkHop (d_Name d) "") st else Some (inl st))).
    { case_bool_decide as Hn; [apply (visit_hop_ok fuel [] (mkHop (d_Name d) "")); [done|by repeat constructor|done]|].
      cbn. split; [done|]. split; [apply progress_refl|]. intros n ->%list_elem_of_singleton.
      destruct (st !! d_Name d) as [[]|] eqn:E; [|done..]. apply (si_trail _ _ HI) in E. by apply not_elem_of_nil in E. }
    destruct (if bool_decide _ then _ else _) as [[st1|c]|]; [|done..]. destruct Hd as (HI1 & P1 & D1).
    pose proof (uncolored_mono _ _ P1). specialize (IH st1 HI1 ltac:(lia)).
    destruct (visit_definitions fuel byName ds st1) as [[st2|c]|]; [|done..]. destruct IH as (HI2 & P2 & D2).
    split; [done|]. split; [by eapply progress_trans|].
    intros n [->|Hn]%elem_of_cons; [apply (pr_done _ _ P2), D1; left|auto].
Qed.
End cycles.

Lemma cycle_path byName l : chain byName l → ∀ n m k, l = n :: k ++ [m] → tc (edge byName) n m.
Proof.
  intros Hc n m k ->. revert n Hc. induction k as [|x k IH]; simpl; intros n Hc; inversion_clear Hc as [|?? Hl Hx];
    inversion_clear Hx as [|?? He]; [by apply tc_once|]. eapply tc_l; [exact He|by apply IH].
Qed.

Lemma DetectCycles_ok definitions :
  ∃ r, DetectCycles definitions = Some r ∧
    (r = None ↔ ∀ n, ¬ tc (edge (lookup_table definitions)) n n) ∧
    ∀ c, r = Some c → is_cycle (lookup_table definitions) c.
Proof.
  unfold DetectCycles. set (byName := lookup_table definitions).
  assert (HI : search_inv byName ∅ []).
  { split; [|by intros n m ?%lookup_empty_Some..|by intros n ?%lookup_empty_Some].
    intros n. rewrite lookup_empty. split; [done|by intros ?%not_elem_of_nil]. }
  pose proof (visit_definitions_ok byName (S (size byName)) definitions ∅ HI) as Hv.
  assert (Hu : (uncolored byName ∅ < S (size byName))%nat).
  { unfold uncolored. rewrite dom_empty_L, difference_empty_L, size_dom. lia. }
  specialize (Hv Hu). destruct (visit_definitions _ _ _ _) as [[st|c]|]; [| |done].
  - destruct Hv as (HI' & _ & HD). exists None. split; [done|]. split; [|done]. split; [|done]. intros _ n Hn.
    assert (Hd : st !! n = Some Done).
    { apply HD. assert (He : ∃ m, edge byName n m) by (inversion Hn; eauto). destruct He as (m & d & Hd & _).
      apply lookup_table_name in Hd as [Hin <-]. by apply list_elem_of_fmap_2. }
    by apply (si_acyclic _ _ _ HI' n Hd).
  - exists (Some c). split; [done|]. split; [|by intros ? [= <-]]. split; [done|]. intros Hac.
    destruct Hv as ((n & l & E) & Hc & _). exfalso. apply (Hac n). by eapply cycle_path.
Qed.

(** [DetectCycles] ends for every list of definitions; it returns nil exactly
    if no definition refers to itself, directly or through others, and the names
    of the error it returns otherwise form such a cycle, joined by as many
    pointers. *)
Theorem cycles_detected definitions :
  ∃ r, DetectCycles definitions = Some r ∧
    (r = None ↔ ∀ n, ¬ tc (edge (lookup_table definitions)) n n) ∧
    ∀ c, r = Some c → is_cycle (lookup_table definitions) c.
Proof. apply DetectCycles_ok. Qed.

(** ** Merging *)

(** Two definitions that describe the same type. *)
Definition same_shape (a b : Definition_) : Prop :=
  d_Kind a = d_Kind b ∧ d_AdditionalProperties a = d_AdditionalProperties b ∧
  if bool_decide (d_Kind a = DefinitionEnum) then d_Values a = d_Values b else d_Properties a = d_Properties b.

Lemma same_shape_sym a b : same_shape a b → same_shape b a.
Proof.
  intros (H1 & H2 & H3). split; [done|]. split; [done|]. rewrite <-H1. by case_bool_decide.
Qed.
Lemma same_shape_trans a b c : same_shape a b → same_shape b c → same_shape a c.
Proof.
  intros (H1 & H2 & H3) (H4 & H5 & H6). split; [congruence|]. split; [congruence|]. rewrite <-H1 in H6.
  case_bool_decide; congruence.
Qed.

Lemma first_difference_None l k : length l = length k → first_difference l k = None ↔ l = k.
Proof.
  revert k. induction l as [|a l IH]; intros [|b k] Hl; simplify_eq/=; [done|].
  case_bool_decide as E; [|split; [done|by intros [=]]]. subst b. rewrite IH by done. split; [by intros ->|by intros [=]].
Qed.

Lemma structurally_equal a b : definitionsStructurallyEqual a b = None ↔ same_shape a b.
Proof.
  unfold definitionsStructurallyEqual, same_shape. case_bool_decide as H1; [split; [done|by intros [? _]]|].
  case_bool_decide as H2; [split; [done|by intros (_ & ? & _)]|].
  case_bool_decide as H3; [case_bool_decide; naive_solver|].
  case_bool_decide as H4; [split; [done|]; intros (_ & _ & E); by rewrite E in H4|].
  assert (Hl : length (d_Properties a) = length (d_Properties b)) by lia.
  rewrite first_difference_None by done. naive_solver.
Qed.

(** The groups of the definitions [seen]. *)
Record groups_ok (seen : list Definition_) (groups : gmap string group) (order : list string) : Prop := {
  go_some : ∀ n, is_Some (groups !! n) ↔ n ∈ map d_Name seen;
  go_name : ∀ n g, groups !! n = Some g → d_Name (canonical g) = n;
  go_shape : ∀ n g d, groups !! n = Some g → d ∈ seen → d_Name d = n → same_shape (canonical g) d;
  go_first : ∀ n g, groups !! n = Some g → ∃ d, d ∈ seen ∧ d_Name d = n ∧ canonical g = without_files d;
  go_files : ∀ n g f, groups !! n = Some g → f ∈ g_files g ↔ ∃ d, d ∈ seen ∧ d_Name d = n ∧ f ∈ d_Files d;
  go_order : NoDup order ∧ ∀ n, n ∈ order ↔ is_Some (groups !! n)
}.

Lemma groups_ok_add seen groups order d g order' :
  groups_ok seen groups order → d_Name (canonical g) = d_Name d → same_shape (canonical g) d →
  (groups !! d_Name d = Some g ∧ order' = order ∨
   groups !! d_Name d = None ∧ g_files g = ∅ ∧ canonical g = without_files d ∧ order' = order ++ [d_Name d]) →
  groups_ok (seen ++ [d]) (<[d_Name d := add_files d g]> groups) order'.
Proof.
  intros [Hs Hn Hsh Hf Hfi [Ho1 Ho2]] Hg Hshape Hcase.
  assert (Hnone : ∀ d', groups !! d_Name d = None → d' ∈ seen → d_Name d' ≠ d_Name d).
  { intros d' Hnone Hd' E. destruct (proj2 (Hs (d_Name d))) as [? ?]; [|congruence]. rewrite <-E. by apply list_elem_of_fmap_2. }
  split.
  - intros n. rewrite map_app, elem_of_app, <-Hs, lookup_insert_is_Some'. set_solver.
  - intros n g' [[<- <-]|[_ ?]]%lookup_insert_Some; [done|auto].
  - intros n g' d' [[<- <-]|[Hne Hg']]%lookup_insert_Some [Hd'| ->%list_elem_of_singleton]%elem_of_app E; [|done|by eapply Hsh|done].
    cbn. destruct Hcase as [[Hgr _]|(Hnn & _)]; [by eapply Hsh|by destruct (Hnone d' Hnn Hd')].
  - intros n g' [[<- <-]|[Hne Hg']]%lookup_insert_Some.
    + cbn. destruct Hcase as [[Hgr _]|(_ & _ & Hc & _)].
      * destruct (Hf _ _ Hgr) as (d0 & ? & ? & ?). exists d0. set_solver.
      * exists d. set_solver.
    + destruct (Hf _ _ Hg') as (d0 & ? & ? & ?). exists d0. set_solver.
  - intros n g' f [[<- <-]|[Hne Hg']]%lookup_insert_Some; cbn.
    + rewrite elem_of_union, elem_of_list_to_set. destruct Hcase as [[Hgr _]|(Hnn & -> & _)].
      * rewrite (Hfi _ _ f Hgr). set_solver.
      * split; [set_solver|]. intros (d' & [Hd'| ->%list_elem_of_singleton]%elem_of_app & E & Hin); [|by left].
        by destruct (Hnone d' Hnn Hd').
    + rewrite (Hfi _ _ f Hg'). split; intros (d' & Hd' & E & Hin); exists d'; [set_solver|].
      apply elem_of_app in Hd' as [?| ->%list_elem_of_singleton]; [done|congruence].
  - destruct Hcase as [[Hgr ->]|(Hnn & _ & _ & ->)].
    + split; [done|]. intros n. rewrite Ho2, lookup_insert_is_Some'. split; [by right|intros [<-|?]; eauto].
    + split.
      * apply NoDup_app. split_and!; [done| |apply NoDup_singleton].
        intros n Hn' ->%list_elem_of_singleton. apply Ho2 in Hn' as [??]. congruence.
      * intros n. rewrite elem_of_app, Ho2, lookup_insert_is_Some', list_elem_of_singleton. naive_solver.
Qed.

Lemma group_definitions_ok ds : ∀ seen groups order, groups_ok seen groups order →
  match group_definitions ds groups order with
  | inl (groups', order') => groups_ok (seen ++ ds) groups' order'
  | inr _ => ∃ d d', d ∈ seen ++ ds ∧ d' ∈ ds ∧ d_Name d = d_Name d' ∧ ¬ same_shape d d'
  end.
Proof.
  induction ds as [|d ds IH]; intros seen groups order HG; cbn [group_definitions]; [by rewrite app_nil_r|].
  assert (Hrec : ∀ g order', groups_ok (seen ++ [d]) (<[d_Name d := add_files d g]> groups) order' →
    match group_definitions ds (<[d_Name d := add_files d g]> groups) order' with
    | inl (groups', order'') => groups_ok (seen ++ d :: ds) groups' order''
    | inr _ => ∃ d1 d2, d1 ∈ seen ++ d :: ds ∧ d2 ∈ d :: ds ∧ d_Name d1 = d_Name d2 ∧ ¬ same_shape d1 d2
    end).
  { intros g order' HG'. specialize (IH _ _ _ HG'). rewrite <-app_assoc in IH. simpl in IH.
    destruct (group_definitions ds _ order') as [[??]|]; [done|]. destruct IH as (d1 & d2 & ? & ? & ? & ?).
    exists d1, d2. set_solver. }
  destruct (groups !! d_Name d) as [g|] eqn:Hg.
  - destruct (definitionsStructurallyEqual (canonical g) d) as [pointer|] eqn:E.
    + destruct (go_first _ _ _ HG _ _ Hg) as (d0 & Hin & Hn & Hc). exists d0, d. split_and!; [set_solver|left|done|].
      intros Hs. enough (definitionsStructurallyEqual (canonical g) d = None) by congruence.
      apply structurally_equal. by rewrite Hc.
    + apply structurally_equal in E. apply Hrec. eapply groups_ok_add; [done|by eapply go_name|done|by left].
  - apply Hrec. eapply groups_ok_add; [done|done| |right; split_and!; done].
    split; [done|]. split; [done|]. by case_bool_decide.
Qed.

Lemma omap_names (f : string → option Definition_) l :
  (∀ n, n ∈ l → ∃ r, f n = Some r ∧ d_Name r = n) → map d_Name (omap f l) = l.
Proof.
  induction l as [|n l IH]; intros Hf; [done|]. destruct (Hf n ltac:(left)) as (r & Hr & Hn). simpl. rewrite Hr. simpl.
  rewrite Hn. f_equal. apply IH. intros; apply Hf; by right.
Qed.

Lemma Deduplicate_ok definitions :
  match Deduplicate definitions with
  | inr _ => ∃ d d', d ∈ definitions ∧ d' ∈ definitions ∧ d_Name d = d_Name d' ∧ ¬ same_shape d d'
  | inl result =>
      NoDup (map d_Name result) ∧ Sorted (le_key d_Name) result ∧
      (∀ d, d ∈ definitions → ∃ r, r ∈ result ∧ d_Name r = d_Name d ∧ same_shape r d) ∧
      ∀ r, r ∈ result → (∃ d, d ∈ definitions ∧ without_files r = without_files d) ∧ NoDup (d_Files r) ∧
        d_Occurrences r = Z.of_nat (length (d_Files r)) ∧
        ∀ f, f ∈ d_Files r ↔ ∃ d, d ∈ definitions ∧ d_Name d = d_Name r ∧ f ∈ d_Files d
  end.
Proof.
  unfold Deduplicate. assert (HG : groups_ok [] ∅ []).
  { split; try (by intros n g ?%lookup_empty_Some); try (by intros n g d ?%lookup_empty_Some).
    - intros n. rewrite lookup_empty, is_Some_alt. split; [done|by intros ?%not_elem_of_nil].
    - split; [apply NoDup_nil_2|]. intros n. rewrite lookup_empty, is_Some_alt. split; [by intros ?%not_elem_of_nil|done]. }
  pose proof (group_definitions_ok definitions _ _ _ HG) as Hok.
  destruct (group_definitions definitions ∅ []) as [[groups order]|]; [|done].
  cbn [app] in Hok. destruct Hok as [Hs Hn Hsh Hf Hfi [Ho1 Ho2]].
  set (entry := λ n : string, (λ g, with_files (g_files g) (canonical g)) <$> groups !! n).
  assert (Hentry : ∀ r, r ∈ omap entry order ↔ ∃ g, groups !! d_Name r = Some g ∧ r = with_files (g_files g) (canonical g)).
  { intros r. rewrite list_elem_of_omap. unfold entry. split.
    - intros (n & Hin & (g & Hg & ->)%fmap_Some). exists g. split; [|done]. cbn. by rewrite (Hn _ _ Hg).
    - intros (g & Hg & ->). exists (d_Name (canonical g)). cbn in Hg. rewrite Hg. split; [|done]. apply Ho2. by eauto. }
  assert (Hnames : map d_Name (omap entry order) = order).
  { apply omap_names. intros n [g Hg]%Ho2. unfold entry. rewrite Hg. eexists. split; [done|]. cbn. by apply Hn. }
  split_and!.
  - rewrite (sort_by_perm d_Name). by rewrite Hnames.
  - apply sort_by_sorted.
  - intros d Hd. destruct (proj2 (Hs (d_Name d)) ltac:(by apply list_elem_of_fmap_2)) as [g Hg].
    exists (with_files (g_files g) (canonical g)). rewrite (sort_by_perm d_Name), Hentry. cbn. rewrite (Hn _ _ Hg).
    split_and!; [by exists g|done|]. pose proof (Hsh _ _ _ Hg Hd eq_refl) as (? & ? & ?). by split_and!.
  - intros r. rewrite (sort_by_perm d_Name), Hentry. intros (g & Hg & E).
    assert (Hfiles : d_Files r ≡ₚ elements (g_files g)) by (rewrite E; apply sort_by_perm).
    split_and!.
    + destruct (Hf _ _ Hg) as (d & Hd & Hdn & Hcan). exists d. split; [done|]. by rewrite E, Hcan.
    + rewrite Hfiles. apply NoDup_elements.
    + rewrite Hfiles, E. done.
    + intros f. rewrite Hfiles, elem_of_elements. by rewrite (Hfi _ _ f Hg).
Qed.

(** [Deduplicate] fails only if two definitions with one name differ in kind,
    additionalProperties, values or properties; otherwise its result is sorted by
    name with no name twice, every definition read is represented under its name
    with its own shape, every entry is one of the definitions read but for its
    files, and the files of an entry are those of all
    definitions with its name, counted once. *)
Theorem deduplicate_exact definitions :
  match Deduplicate definitions with
  | inr _ => ∃ d d', d ∈ definitions ∧ d' ∈ definitions ∧ d_Name d = d_Name d' ∧ ¬ same_shape d d'
  | inl result =>
      NoDup (map d_Name result) ∧ Sorted (le_key d_Name) result ∧
      (∀ d, d ∈ definitions → ∃ r, r ∈ result ∧ d_Name r = d_Name d ∧ same_shape r d) ∧
      ∀ r, r ∈ result → (∃ d, d ∈ definitions ∧ without_files r = without_files d) ∧ NoDup (d_Files r) ∧
        d_Occurrences r = Z.of_nat (length (d_Files r)) ∧
        ∀ f, f ∈ d_Files r ↔ ∃ d, d ∈ definitions ∧ d_Name d = d_Name r ∧ f ∈ d_Files d
  end.
Proof. apply Deduplicate_ok. Qed.
