(* ===== verification/CgSchemaTheorems.v ===== *)
(** * The code generator: theorems about the reader and the whole walk

    - [schema_read_closed]: what a successful read of a file says about the document.
    - [walk_closed_acyclic]: the intermediate representation of all files is closed
      under references and free of cycles although cycles are only searched for file
      by file, and the reach of a message in it is what was computed from its two
      files. *)

From Stdlib Require Import Sorting.Sorted QArith.Qcanon.
From S2P Require Import Prelude Ocpp CgIR CgMapping CgPlacement CgSchema CgWalk CgWalkTheorems.
Local Open Scope string_scope.
Local Open Scope list_scope.

(** Inversion of a successful sequence. *)
Ltac run :=
  repeat match goal with
  | H : mbind _ _ = inl _ |- _ => apply bind_inl in H as (? & ? & H); cbn beta in H
  | H : wrap _ _ = inl _ |- _ => apply wrap_inl in H
  | H : in_file _ _ _ = inl _ |- _ => apply wrap_inl in H
  | H : mret _ = inl _ |- _ => injection H as H; try subst
  | H : inr _ = inl _ |- _ => discriminate H
  | H : read_error _ _ = inl _ |- _ => discriminate H
  | H : fail _ = inl _ |- _ => discriminate H
  end.

Lemma value_with_value {B : Type} (f : raw → B) key o : value_with f key o = f <$> value o key.
Proof.
  unfold value. induction o as [|[k v] o IH]; [done|]. simpl. rewrite IH. destruct (value_with id key o); [done|].
  simpl. by case_bool_decide.
Qed.

Lemma value_in o key r : value o key = Some r → (key, r) ∈ o.
Proof.
  unfold value. induction o as [|[k v] o IH]; [done|]. simpl. destruct (value_with id key o) eqn:E.
  - intros [= ->]. right. by apply IH.
  - case_bool_decide; [|done]. intros [= ->]. subst. left.
Qed.
Lemma value_keys o key : key ∈ keys o → is_Some (value o key).
Proof.
  unfold value, keys. induction o as [|[k v] o IH]; [by intros ?%not_elem_of_nil|]. simpl.
  intros [->|Hin]%elem_of_cons; [|by destruct (IH Hin) as [? ->]]. destruct (value_with id k o); [done|].
  by rewrite bool_decide_eq_true_2.
Qed.

Lemma raw_members_ind (P : raw → Prop) : (∀ r, (∀ k v, (k, v) ∈ members r → P v) → P r) → ∀ r, P r.
Proof.
  intros H. refine (fix IH (r : raw) : P r := H r _).
  destruct r as [| | | | |o]; try (intros k v Hin; exact (False_ind _ (not_elem_of_nil _ Hin))). simpl.
  assert (Ho : Forall (λ kv, P kv.2) o).
  { revert o. refine (fix go (o : list (string * raw)) : Forall (λ kv, P kv.2) o := match o with
      | [] => Forall_nil_2 _ | kv :: o' => Forall_cons_2 _ kv o' _ (go o') end). exact (IH kv.2). }
  intros k v Hin. by apply (proj1 (Forall_forall _ _) Ho (k, v)).
Qed.

(** ** One property *)

(** The reference of a property names a definition of [ds], and the property
    holds what it takes from it. *)
Definition resolves (ds : list Definition_) (p : Property) : Prop :=
  if bool_decide (p_Ref p = "") then p_EnumDefinition p = "" ∧ p_Enum p = []
  else ∃ d, d ∈ ds ∧ d_Name d = ref_name (p_Ref p) ∧ d_Kind d ≠ DefinitionRoot ∧
         p_AdditionalProperties p = d_AdditionalProperties d ∧
         if bool_decide (d_Kind d = DefinitionEnum) then p_EnumDefinition p = d_Name d ∧ p_Enum p = d_Values d
         else p_EnumDefinition p = "" ∧ p_Enum p = [].

(** What the type mapping relies on: an accepted type unless there is a
    reference or the property is untyped. *)
Definition typed (p : Property) : Prop := p_Ref p = "" → p_Untyped p = false → p_Type p ∈ propertyTypes.

Inductive closed (ds : list Definition_) (p : Property) : Prop :=
| closed_property : resolves ds p → typed p → (∀ i, p_Items p = Some i → closed ds i) → closed ds p.

Lemma closed_refs ds p : closed ds p → ∀ n, n ∈ prop_refs p → n ∈ map d_Name ds.
Proof.
  induction 1 as [p Hr _ _ IH]. intros n. rewrite prop_refs_eq, elem_of_app. intros [Hn|Hn].
  - unfold resolves in Hr. destruct (decide (p_Ref p = "")) as [E|E].
    { rewrite bool_decide_eq_false_2 in Hn by auto. by apply not_elem_of_nil in Hn. }
    rewrite bool_decide_eq_true_2 in Hn by done. rewrite bool_decide_eq_false_2 in Hr by done.
    apply list_elem_of_singleton in Hn as ->. destruct Hr as (d & Hd & <- & _). by apply list_elem_of_fmap_2.
  - destruct (p_Items p) as [i|]; [by eapply IH|by apply not_elem_of_nil in Hn].
Qed.

Lemma resolves_mono ds ds' p :
  (∀ d, d ∈ ds → ∃ r, r ∈ ds' ∧ d_Name r = d_Name d ∧ same_shape r d) → resolves ds p → resolves ds' p.
Proof.
  intros Hm. unfold resolves. case_bool_decide; [done|]. intros (d & Hd & Hn & Hk & Ha & He).
  destruct (Hm d Hd) as (r & Hr & Hrn & Hrk & Hra & Hrv). exists r. rewrite Hrk in *. rewrite Hra, Hrn. split_and!; [done..|].
  destruct (bool_decide (d_Kind d = DefinitionEnum)); [|done]. by rewrite Hrv.
Qed.
Lemma closed_mono ds ds' p :
  (∀ d, d ∈ ds → ∃ r, r ∈ ds' ∧ d_Name r = d_Name d ∧ same_shape r d) → closed ds p → closed ds' p.
Proof. intros Hm. induction 1 as [p Hr Ht _ IH]. constructor; [by eapply resolves_mono|done|done]. Qed.

Section reader.
Context (ReadFile : string → result string) (Decode : string → result (raw * trailing)) (ParseFloat : string → option Qc).
Section file.
Context (path : string).

(** [ds] are definitions that the infos describe. *)
Definition described (infos : gmap string definitionInfo) (ds : list Definition_) : Prop :=
  ∀ n info, infos !! n = Some info → ∃ d, d ∈ ds ∧ d_Name d = n ∧ d_Kind d = i_kind info ∧ i_kind info ≠ DefinitionRoot ∧
    d_AdditionalProperties d = i_additionalProperties info ∧ (i_kind info = DefinitionEnum → d_Values d = i_values info).

Lemma resolveLocalRef_ok infos pointer ref name :
  resolveLocalRef path infos pointer ref = inl name → ref ≠ "" ∧ name = ref_name ref ∧ is_Some (infos !! name).
Proof.
  unfold resolveLocalRef. intros H. destruct (HasPrefix ref "#/definitions/") eqn:E; simpl in H; [|run].
  destruct (bool_decide _ || bool_decide _); [run|]. case_bool_decide as Hs; [|run]. injection H as <-. split_and!; [|done..].
  by intros ->.
Qed.

Lemma ref_property_closed infos ds name pointer required ref :
  described infos ds → ref ≠ "" → is_Some (infos !! ref_name ref) → closed ds (ref_property infos name pointer required ref (ref_name ref)).
Proof.
  intros Hd Hr [info Hi]. destruct (Hd _ _ Hi) as (d & Hin & Hn & Hk & Hnr & Ha & Hv). constructor; [|by intros ?|done].
  unfold resolves, ref_property. rewrite Hi. simpl. rewrite bool_decide_eq_false_2 by done. exists d.
  rewrite Hk, Ha, Hn. split_and!; [done..|]. case_bool_decide; [|done]. by rewrite Hv.
Qed.

Lemma parseProperty_ok infos ds r : described infos ds → ∀ name pointer required p,
  parseProperty ParseFloat path infos r name pointer required = inl p →
  p_Name p = name ∧ p_Required p = required ∧ closed ds p ∧ unrecognized propertyRecognized (members r) = None.
Proof.
  intros Hd. induction r as [r IH] using raw_members_ind. intros name pointer required p H.
  assert (Hu : closed ds (untyped_property name pointer required)) by (constructor; done).
  destruct r as [| | | | |o]; try (injection H as <-; by split_and!). simpl in *.
  destruct (unrecognized propertyRecognized o); [run|]. destruct (value o "$ref") as [refRaw|].
  { run. match goal with H : resolveLocalRef _ _ _ _ = inl _ |- _ => apply resolveLocalRef_ok in H as (? & -> & ?) end.
    split_and!; [done..| |done]. by apply ref_property_closed. }
  run. case_match; run; [|by split_and!]. split_and!; [done..| |done]. constructor; [done| |].
  - intros _ _. simpl. match goal with H : checkType _ _ _ _ = inl _ |- _ => unfold checkType in H; case_bool_decide; [done|run] end.
  - simpl. intros i ->.
    match goal with H : match value_with _ _ _ with _ => _ end = _ |- _ => rename H into Hi end.
    rewrite value_with_value in Hi. destruct (value o "items") as [itemsRaw|] eqn:E; simpl in Hi; [|done]. run.
    simplify_eq. eapply IH; [by apply value_in|done].
Qed.

(** ** Objects *)

Definition properties_of (obj : rawObject) : rawObject := members (default RNull (value obj "properties")).
Definition required_names (obj : rawObject) : list string := match requiredSet obj with inl l => l | inr _ => [] end.

(** [ps] are the properties of [obj]: in the order of the text, required exactly
    if the object's own required array lists them, each with recognized keywords
    only. *)
Definition declares (obj : rawObject) (ps : list Property) : Prop :=
  map p_Name ps = keys (properties_of obj) ∧
  (∀ p, p ∈ ps → p_Required p = true ↔ p_Name p ∈ required_names obj) ∧
  ∀ name, name ∈ keys (properties_of obj) →
    unrecognized propertyRecognized (members (default RNull (value (properties_of obj) name))) = None.

Lemma parse_members_ok infos ds properties pointer required names : described infos ds → ∀ ps,
  parse_members ParseFloat path infos properties pointer required names = inl ps →
  map p_Name ps = names ∧
  (∀ p, p ∈ ps → (p_Required p = true ↔ p_Name p ∈ required) ∧ closed ds p) ∧
  ∀ name, name ∈ names → unrecognized propertyRecognized (members (default RNull (value properties name))) = None.
Proof.
  intros Hd. induction names as [|name names IH]; intros ps H; simpl in H; run.
  { split_and!; [done|by intros ? ?%not_elem_of_nil..]. }
  match goal with H : parse_members _ _ _ _ _ _ _ = inl _ |- _ => apply IH in H as (Hn & Hp & Hu) end.
  match goal with H : parseProperty _ _ _ _ _ _ _ = inl _ |- _ =>
    apply (parseProperty_ok _ _ _ Hd) in H as (Hn0 & Hr0 & Hc0 & Hu0) end.
  split_and!; simpl; [congruence| |].
  - intros p [->|?]%elem_of_cons; [|by apply Hp]. rewrite Hr0, Hn0, bool_decide_eq_true. by split.
  - intros n [->|?]%elem_of_cons; [done|by apply Hu].
Qed.

Lemma parseProperties_ok infos ds obj pointer ps : described infos ds →
  parseProperties ParseFloat path infos obj pointer = inl ps → declares obj ps ∧ ∀ p, p ∈ ps → closed ds p.
Proof.
  intros Hd H. unfold parseProperties in H. run. unfold declares, properties_of, required_names.
  match goal with H : requiredSet _ = inl _ |- _ => rewrite H end.
  destruct (value obj "properties") as [r|]; run; simpl.
  - destruct r; try (match goal with H : decodeOrderedObject _ = inl _ |- _ => discriminate H end).
    match goal with H : decodeOrderedObject _ = inl _ |- _ => injection H as -> end.
    destruct (parse_members_ok _ _ _ _ _ _ Hd _ H) as (? & Hp & ?).
    split; [|by intros ? [_ ?]%Hp]. split_and!; [done| |done]. by intros ? [? _]%Hp.
  - split; [|by intros ? ?%not_elem_of_nil]. split_and!; [done|by intros ? ?%not_elem_of_nil..].
Qed.

(** ** The two passes *)

Lemma parseEnumValues_nonempty name entry l : parseEnumValues path name entry = inl l → l ≠ [].
Proof.
  unfold parseEnumValues. intros H. destruct (value entry "enum"); [|run]. apply bind_inl in H as ([|s k] & _ & H); [run|].
  by injection H as <-.
Qed.

Lemma classify_one_ok name r info : classify_one path name r = inl info →
  unrecognized definitionRecognized (members r) = None ∧
  ((i_kind info = DefinitionEnum ∧ i_values info ≠ []) ∨ (i_kind info = DefinitionObject ∧ i_values info = [])).
Proof.
  unfold classify_one. intros H. run. case_bool_decide; [run|].
  destruct r; try (match goal with H : decodeOrderedObject _ = inl _ |- _ => discriminate H end).
  match goal with H : decodeOrderedObject _ = inl _ |- _ => injection H as -> end. simpl.
  destruct (unrecognized _ _); [run|]. run. split; [done|].
  match goal with H : match value _ "enum" with _ => _ end = inl ?kv |- _ => destruct (value _ "enum") eqn:E; run end; [|by right].
  left. split; [done|]. by eapply parseEnumValues_nonempty.
Qed.

Lemma classify_ok defs names : ∀ infos infos', classify path defs names infos = inl infos' →
  ∀ n info, infos' !! n = Some info ↔
    if bool_decide (n ∈ names) then classify_one path n (default RNull (value defs n)) = inl info else infos !! n = Some info.
Proof.
  induction names as [|name names IH]; intros infos infos' H n info; simpl in H; run.
  { by rewrite bool_decide_eq_false_2 by apply not_elem_of_nil. }
  rewrite (IH _ _ H n info). destruct (decide (n ∈ names)).
  { rewrite !bool_decide_eq_true_2; [done|by right|done]. }
  rewrite (bool_decide_eq_false_2 (n ∈ names)) by done. destruct (decide (n = name)) as [->|Hne].
  - rewrite bool_decide_eq_true_2 by left. rewrite lookup_insert_eq.
    match goal with H : classify_one _ _ _ = _ |- _ => rewrite H end. naive_solver.
  - rewrite bool_decide_eq_false_2 by (by intros [|]%elem_of_cons). by rewrite lookup_insert_ne.
Qed.

Lemma classify_dom defs names : ∀ infos infos', classify path defs names infos = inl infos' →
  ∀ n, n ∈ names ∨ is_Some (infos !! n) → is_Some (infos' !! n).
Proof.
  induction names as [|name names IH]; intros infos infos' H n Hn; simpl in H; run.
  { destruct Hn as [?%not_elem_of_nil|?]; done. }
  apply (IH _ _ H). rewrite lookup_insert_is_Some. rewrite elem_of_cons in Hn.
  destruct (decide (name = n)), Hn as [[?|?]|?]; naive_solver.
Qed.

Lemma build_ok defs infos names : ∀ ds, build ParseFloat path defs infos names = inl ds →
  Forall2 (λ n d, build_one ParseFloat path defs infos n = inl d) names ds.
Proof. induction names as [|name names IH]; intros ds H; simpl in H; run; constructor; auto. Qed.

(** ** Documents *)

Definition definitions_of (root : rawObject) : rawObject := members (default RNull (value root "definitions")).

(** An enumeration has values and no properties; an object has the properties of
    its entry and no values. *)
Definition definition_of (entry : rawObject) (d : Definition_) : Prop :=
  unrecognized definitionRecognized entry = None ∧
  ((d_Kind d = DefinitionEnum ∧ d_Values d ≠ [] ∧ d_Properties d = []) ∨
   (d_Kind d = DefinitionObject ∧ d_Values d = [] ∧ declares entry (d_Properties d))).

Record document_of (root : rawObject) (doc : SchemaDocument) : Prop := {
  do_keywords : unrecognized rootRecognized root = None;
  do_id : doc_ID doc = idPrefix +:+ stem_of path;
  do_root : d_Name (doc_Root doc) = stem_of path ∧ d_Kind (doc_Root doc) = DefinitionRoot ∧
            declares root (d_Properties (doc_Root doc));
  do_names : map d_Name (doc_Definitions doc) = keys (definitions_of root);
  do_definitions : ∀ d, d ∈ doc_Definitions doc →
    definition_of (members (default RNull (value (definitions_of root) (d_Name d)))) d;
  do_closed : ∀ d p, d ∈ doc_Root doc :: doc_Definitions doc → p ∈ d_Properties d → closed (doc_Definitions doc) p
}.

Lemma HasPrefix_TrimPrefix s p : HasPrefix s p = true → s = p +:+ TrimPrefix s p.
Proof.
  unfold TrimPrefix. intros E. rewrite E. apply bool_decide_eq_true in E.
  rewrite <-(of_chars_inv s) at 1. rewrite <-(of_chars_inv (p +:+ _)), chars_app, chars_of_chars, <-E. f_equal.
  symmetry. apply take_drop.
Qed.

Lemma read_header_ok root id title add : read_header path root = inl (id, title, add) →
  unrecognized rootRecognized root = None ∧ id = idPrefix +:+ stem_of path.
Proof.
  unfold read_header. destruct (unrecognized rootRecognized root); [intros; run|]. intros H. run. split; [done|].
  destruct (HasPrefix _ idPrefix) eqn:E; [|run]. case_bool_decide as Hs; [|run]. rewrite <-Hs. by apply HasPrefix_TrimPrefix.
Qed.

Lemma build_one_ok defs infos n d : build_one ParseFloat path defs infos n = inl d →
  d_Name d = n ∧ d_Kind d = i_kind (default no_info (infos !! n)) ∧
  d_AdditionalProperties d = i_additionalProperties (default no_info (infos !! n)) ∧
  if bool_decide (d_Kind d = DefinitionEnum)
  then d_Values d = i_values (default no_info (infos !! n)) ∧ d_Properties d = []
  else d_Values d = [] ∧
       parseProperties ParseFloat path infos (members (default RNull (value defs n))) ("#/definitions/" +:+ n) = inl (d_Properties d).
Proof.
  unfold build_one. intros H. run. split_and!; [done..|]. simpl. case_bool_decide; run; by split.
Qed.

Lemma build_described defs infos ds :
  (∀ n, n ∈ map d_Name ds → ∃ info, infos !! n = Some info ∧ classify_one path n (default RNull (value defs n)) = inl info) →
  (∀ n, is_Some (infos !! n) → n ∈ map d_Name ds) →
  (∀ d, d ∈ ds → build_one ParseFloat path defs infos (d_Name d) = inl d) → described infos ds.
Proof.
  intros Hinfo Hdom Hbuilt n info Hn. destruct (proj1 (list_elem_of_fmap _ _ _) (Hdom n ltac:(eauto))) as (d & -> & Hd).
  destruct (build_one_ok _ _ _ _ (Hbuilt d Hd)) as (_ & Hk & Ha & Hv). rewrite Hn in Hk, Ha, Hv. cbn [from_option id] in Hk, Ha, Hv.
  exists d. split_and!; [done..| |done|].
  - destruct (Hinfo (d_Name d)) as (info' & Hn' & Hone); [by apply list_elem_of_fmap_2|]. simplify_eq.
    by destruct (classify_one_ok _ _ _ Hone) as (_ & [[-> _]|[-> _]]).
  - intros E. rewrite bool_decide_eq_true_2 in Hv by congruence. by destruct Hv.
Qed.

Lemma read_document_ok root doc : read_document ParseFloat path root = inl doc → document_of root doc.
Proof.
  unfold read_document. intros H. run. destruct x as [[id title] add]. run.
  match goal with H : read_header _ _ = _ |- _ => apply read_header_ok in H as (? & ->) end.
  match goal with H : rawObjectField _ _ = inl ?x |- _ => assert (x = definitions_of root) as -> end.
  { unfold rawObjectField, definitions_of in *. destruct (value root "definitions") as [[]|]; simpl in *;
    by match goal with H : _ = inl ?x |- ?x = _ => first [discriminate H|injection H] end. }
  match goal with H : classify _ _ _ _ = inl ?i |- _ => rename H into Hc; rename i into infos end.
  match goal with H : build _ _ _ _ _ = inl ?i |- _ => rename H into Hb; rename i into ds end.
  apply build_ok in Hb. pose proof (classify_ok _ _ _ _ Hc) as Hi.
  assert (Hnames : map d_Name ds = keys (definitions_of root)).
  { clear -Hb. induction Hb as [|n d l k Hd _ IH]; [done|]. simpl. by rewrite IH, (proj1 (build_one_ok _ _ _ _ Hd)). }
  assert (Hinfo : ∀ n, n ∈ keys (definitions_of root) → ∃ info, infos !! n = Some info ∧
    classify_one path n (default RNull (value (definitions_of root) n)) = inl info).
  { intros n Hn. destruct (classify_dom _ _ _ _ Hc n ltac:(by left)) as [info Hinfo]. exists info. split; [done|].
    apply Hi in Hinfo. by rewrite bool_decide_eq_true_2 in Hinfo. }
  assert (Hbuilt : ∀ d, d ∈ ds → build_one ParseFloat path (definitions_of root) infos (d_Name d) = inl d).
  { intros d [i Hd]%list_elem_of_lookup. destruct (Forall2_lookup_r _ _ _ _ _ Hb Hd) as (n & _ & Hn).
    by rewrite (proj1 (build_one_ok _ _ _ _ Hn)). }
  assert (Hd : described infos ds) .
  { eapply build_described; [by rewrite Hnames| |done]. intros n [info Hn]. rewrite Hnames. apply Hi in Hn.
    by case_bool_decide. }
  constructor; cbn [doc_ID doc_Root doc_Definitions d_Name d_Kind d_Properties]; [done|done| |done|..].
  - split_and!; [done..|]. by eapply parseProperties_ok.
  - intros d Hin. destruct (Hinfo (d_Name d)) as (info & Hin' & Hone); [rewrite <-Hnames; by apply list_elem_of_fmap_2|].
    destruct (build_one_ok _ _ _ _ (Hbuilt d Hin)) as (_ & Hk & _ & Hp). rewrite Hin' in Hk, Hp. cbn [from_option id] in Hk, Hp.
    destruct (classify_one_ok _ _ _ Hone) as (? & Hkind). split; [done|]. rewrite Hk in *.
    destruct Hkind as [[E ?]|[E ?]]; rewrite E in Hp |- *; cbn in Hp; destruct Hp as [Hv Hpp]; [left|right]; rewrite ?Hv.
    + by split_and!.
    + split_and!; [done..|]. by eapply parseProperties_ok.
  - intros d p [->|Hin]%elem_of_cons Hp; cbn [d_Properties] in Hp; [by eapply parseProperties_ok|].
    destruct (build_one_ok _ _ _ _ (Hbuilt d Hin)) as (_ & _ & _ & Hpp). case_bool_decide; destruct Hpp as [_ Hpp].
    + rewrite Hpp in Hp. by apply not_elem_of_nil in Hp.
    + by eapply parseProperties_ok.
Qed.
End file.

(** C21: a document that [ReadSchema] returns was read from a file whose keywords
    are all recognized at the three levels where they are checked; its id ends in
    the file's stem, which names the root; its definitions are those of the file
    in the order of the text, an enumeration with values, an object with the
    properties declared, each required exactly if the object's own array says so;
    and every reference in it, also in the elements of arrays, names a definition
    of the same file, from which the property has its enumeration. *)
Theorem schema_read_closed path doc :
  ReadSchema ReadFile Decode ParseFloat path = inl doc →
  ∃ data root, ReadFile path = inl data ∧ decodeOrderedDocument Decode data = inl root ∧ document_of path root doc.
Proof. unfold ReadSchema. intros H. run. eexists _, _. split_and!; [done..|by apply (read_document_ok path)]. Qed.

(** ** The walk *)

Context (schema_path : string → string).
Notation WalkSchema := (WalkSchema ReadFile Decode ParseFloat).
Notation readFile := (readFile ReadFile Decode ParseFloat schema_path).
Notation walk_rows := (walk_rows ReadFile Decode ParseFloat schema_path).
Notation WalkSchemas := (WalkSchemas ReadFile Decode ParseFloat schema_path).

Definition all_of (doc : SchemaDocument) : list Definition_ := doc_Root doc :: doc_Definitions doc.

(** What the walk relies on for one file. *)
Record sound_document (doc : SchemaDocument) : Prop := {
  sd_root : d_Kind (doc_Root doc) = DefinitionRoot;
  sd_enum : ∀ d, d ∈ all_of doc → d_Kind d = DefinitionEnum → d_Properties d = [];
  sd_closed : ∀ d p, d ∈ all_of doc → p ∈ d_Properties d → closed (doc_Definitions doc) p;
  sd_acyclic : ∀ n, ¬ tc (edge (lookup_table (all_of doc))) n n
}.

(** A file that is refused: it cannot be read, or it has a cycle. *)
Definition refused (path : string) : Prop :=
  (∃ e, ReadSchema ReadFile Decode ParseFloat path = inr e) ∨
  ∃ doc n, ReadSchema ReadFile Decode ParseFloat path = inl doc ∧ tc (edge (lookup_table (all_of doc))) n n.

Lemma WalkSchema_ok path :
  match WalkSchema path with inl doc => sound_document doc | inr _ => refused path end.
Proof.
  unfold CgWalk.WalkSchema, refused. destruct (ReadSchema _ _ _ path) as [doc|e] eqn:E; [|left; by eauto].
  unfold ReadSchema in E. run.
  match goal with H : read_document _ _ _ = _ |- _ => apply read_document_ok in H as [_ _ (Hr & Hk & _) _ Hds Hcl] end.
  destruct (DetectCycles_ok (all_of doc)) as (r & Hr' & Hc1 & Hc2). unfold all_of in Hr'. rewrite Hr'. destruct r as [c|].
  - right. exists doc. destruct (Hc2 c eq_refl) as ((n & l & En) & Hc & _). exists n. split; [done|]. by eapply cycle_path.
  - split; [done| |done|by apply Hc1].
    intros d [->|Hd]%elem_of_cons E; [congruence|]. destruct (Hds d Hd) as (_ & [(_ & _ & ?)|(? & _)]); [done|congruence].
Qed.

(** The state of the walk holds the documents of the files read, and exactly their
    definitions. *)
Record walked (st : walk_state) : Prop := {
  wk_read : ∀ f doc, st.1 !! f = Some doc → WalkSchema (schema_path f) = inl doc;
  wk_sound : ∀ f doc, st.1 !! f = Some doc → sound_document doc;
  wk_all : ∀ d, d ∈ st.2 ↔ ∃ f doc, st.1 !! f = Some doc ∧ d ∈ all_of doc
}.

Lemma readFile_ok f st : walked st →
  match readFile f st with
  | inl (st', doc) => walked st' ∧ st'.1 !! f = Some doc ∧ st.1 ⊆ st'.1 ∧ ∀ g, is_Some (st'.1 !! g) → g = f ∨ is_Some (st.1 !! g)
  | inr _ => refused (schema_path f)
  end.
Proof.
  intros [Hwr Hs Ha]. unfold CgWalk.readFile. destruct (st.1 !! f) as [doc|] eqn:E; [by split_and!; auto|].
  pose proof (WalkSchema_ok (schema_path f)) as Hw. destruct (WalkSchema (schema_path f)) as [doc|] eqn:Ew; [|done].
  split_and!; simpl; [|by rewrite lookup_insert_eq|by apply insert_subseteq|]; cycle 1.
  { intros g [->|[_ ?]]%lookup_insert_is_Some; auto. }
  split; simpl.
  - intros f' doc' [[<- <-]|[_ ?]]%lookup_insert_Some; auto.
  - intros f' doc' [[<- <-]|[_ ?]]%lookup_insert_Some; [done|by eapply Hs].
  - intros d. rewrite elem_of_app, Ha. split.
    + intros [(f' & doc' & Hf & Hd)|Hd]; [|by exists f, doc; rewrite lookup_insert_eq].
      exists f', doc'. split; [|done]. rewrite lookup_insert_ne; [done|]. congruence.
    + intros (f' & doc' & [[<- <-]|[_ Hf]]%lookup_insert_Some & Hd); [by right|left; by eauto].
Qed.

(** The message of a row, from the documents of its files. *)
Definition message_of (docs : gmap string SchemaDocument) (row : ManifestMessage) (m : Message) : Prop :=
  ∃ q a, docs !! mm_Request row = Some q ∧ docs !! mm_Response row = Some a ∧
    m_Name m = mm_Name row ∧ m_RequestRoot m = d_Name (doc_Root q) ∧ m_ResponseRoot m = d_Name (doc_Root a) ∧
    computeReach q a = Some (m_Reach m).

Definition file_of (rows : list ManifestMessage) (f : string) : Prop :=
  ∃ row, row ∈ rows ∧ (f = mm_Request row ∨ f = mm_Response row).

Lemma walk_rows_ok rows : ∀ st, walked st →
  match walk_rows rows st with
  | inl (st', ms) => walked st' ∧ st.1 ⊆ st'.1 ∧ Forall2 (message_of st'.1) rows ms ∧
      ∀ g, is_Some (st'.1 !! g) → file_of rows g ∨ is_Some (st.1 !! g)
  | inr _ => ∃ f, file_of rows f ∧ refused (schema_path f)
  end.
Proof.
  induction rows as [|row rows IH]; intros st Hw; simpl; [split_and!; auto|].
  assert (Hfirst : file_of (row :: rows) (mm_Request row) ∧ file_of (row :: rows) (mm_Response row)).
  { split; exists row; (split; [left|auto]). }
  assert (Hnext : ∀ g, file_of rows g → file_of (row :: rows) g).
  { intros g (row' & ? & ?). exists row'. split; [by right|done]. }
  pose proof (readFile_ok (mm_Request row) st Hw) as H1.
  destruct (readFile (mm_Request row) st) as [[st1 q]|]; [|by exists (mm_Request row); split; [apply Hfirst|]]. destruct H1 as (Hw1 & Hq & Hs1 & Hg1).
  pose proof (readFile_ok (mm_Response row) st1 Hw1) as H2.
  destruct (readFile (mm_Response row) st1) as [[st2 a]|]; [|by exists (mm_Response row); split; [apply Hfirst|]]. destruct H2 as (Hw2 & Ha & Hs2 & Hg2).
  destruct (computeReach_ok q a) as (l & Hl & _). rewrite Hl. specialize (IH st2 Hw2).
  destruct (walk_rows rows st2) as [[st3 ms]|].
  - destruct IH as (Hw3 & Hs3 & Hms & Hg3). split_and!; [done|by do 2 (etrans; [done|])| |]; cycle 1.
    { intros g [?|[->|[->|?]%Hg1]%Hg2]%Hg3; [left; by apply Hnext|left; apply Hfirst|left; apply Hfirst|by right]. }
    constructor; [|done]. exists q, a. split_and!; [|by eapply lookup_weaken|done..]. eapply lookup_weaken; [exact Hq|]. by etrans.
  - destruct IH as (f & ? & ?). exists f. split; [by apply Hnext|done].
Qed.

(** ** The corpus *)

Section corpus.
Context (st : walk_state) (Hst : walked st) (defs : list Definition_) (Hdefs : Deduplicate st.2 = inl defs).

Lemma defs_NoDup : NoDup (map d_Name defs).
Proof. pose proof (Deduplicate_ok st.2) as H. rewrite Hdefs in H. by destruct H. Qed.

(** An entry of the corpus has the properties of a definition of some file. *)
Lemma defs_source r : r ∈ defs → ∃ f doc d, st.1 !! f = Some doc ∧ d ∈ all_of doc ∧
  d_Name r = d_Name d ∧ d_Kind r = d_Kind d ∧ d_Properties r = d_Properties d.
Proof.
  pose proof (Deduplicate_ok st.2) as H. rewrite Hdefs in H. destruct H as (_ & _ & _ & H). intros Hr.
  destruct (H r Hr) as ((d & Hd & E) & _). apply Hst in Hd as (f & doc & Hf & Hd). exists f, doc, d.
  unfold without_files in E. by injection E as ? ? ?.
Qed.

Lemma defs_enum r : r ∈ defs → d_Kind r = DefinitionEnum → d_Properties r = [].
Proof.
  intros (f & doc & d & Hf & Hd & _ & Hk & Hp)%defs_source E. rewrite Hp.
  apply (sd_enum _ (wk_sound _ Hst _ _ Hf)); [done|congruence].
Qed.

(** A definition of a file has one entry, with the same references. *)
Lemma defs_entry f doc d : st.1 !! f = Some doc → d ∈ all_of doc →
  ∃ r, r ∈ defs ∧ d_Name r = d_Name d ∧ same_shape r d ∧ d_Properties r = d_Properties d ∧
       lookup_table defs !! d_Name d = Some r.
Proof.
  intros Hf Hd. pose proof (Deduplicate_ok st.2) as H. rewrite Hdefs in H. destruct H as (_ & _ & H & _).
  destruct (H d) as (r & Hr & Hn & Hs); [apply Hst; by eauto|]. exists r. split_and!; [done..| |].
  - destruct Hs as (Hk & _ & Hp). case_bool_decide as E; [|done]. rewrite (defs_enum r) by done. symmetry.
    apply (sd_enum _ (wk_sound _ Hst _ _ Hf)); [done|congruence].
  - rewrite <-Hn. apply lookup_table_unique; [apply defs_NoDup|done].
Qed.

Lemma refs_local f doc d n : st.1 !! f = Some doc → d ∈ all_of doc → n ∈ def_refs d → n ∈ map d_Name (doc_Definitions doc).
Proof.
  intros Hf Hd (p & Hp & Hn)%list_elem_of_In%in_flat_map. apply list_elem_of_In in Hp, Hn.
  eapply closed_refs; [|exact Hn]. by apply (sd_closed _ (wk_sound _ Hst _ _ Hf) d).
Qed.

(** References of the corpus are references of every file that has the name. *)
Lemma edge_local f doc n m : st.1 !! f = Some doc → n ∈ map d_Name (all_of doc) → edge (lookup_table defs) n m →
  edge (lookup_table (all_of doc)) n m ∧ m ∈ map d_Name (all_of doc).
Proof.
  intros Hf Hn (r & Hr & Hm). destruct (lookup_table_dom _ _ Hn) as (d & Hd & Hin & <-).
  destruct (defs_entry f doc d Hf Hin) as (r' & _ & _ & _ & Hp & Hr'). simplify_eq.
  assert (Hmd : m ∈ def_refs d) by (unfold def_refs in *; by rewrite <-Hp). split; [by exists d|].
  simpl. right. by eapply refs_local.
Qed.

Lemma path_local f doc n m : st.1 !! f = Some doc → n ∈ map d_Name (all_of doc) → tc (edge (lookup_table defs)) n m →
  tc (edge (lookup_table (all_of doc))) n m.
Proof.
  intros Hf Hn Ht. induction Ht as [n m He|n m k He _ IH]; destruct (edge_local _ _ _ _ Hf Hn He); [by apply tc_once|].
  eapply tc_l; [done|by apply IH].
Qed.

Lemma corpus_acyclic n : ¬ tc (edge (lookup_table defs)) n n.
Proof.
  intros Ht. assert (∃ r, lookup_table defs !! n = Some r) as [r Hr] by (inversion Ht as [? ? (r & ? & _)|? ? ? (r & ? & _)]; eauto).
  apply lookup_table_name in Hr as [Hr <-]. destruct (defs_source r Hr) as (f & doc & d & Hf & Hd & Hn & _).
  apply (sd_acyclic _ (wk_sound _ Hst _ _ Hf) (d_Name r)). eapply path_local; [done| |done].
  rewrite Hn. by apply list_elem_of_fmap_2.
Qed.

Lemma corpus_closed d p : d ∈ defs → p ∈ d_Properties d → closed defs p.
Proof.
  intros Hd Hp. destruct (defs_source d Hd) as (f & doc & d' & Hf & Hd' & _ & _ & E). rewrite E in Hp.
  eapply closed_mono; [|by apply (sd_closed _ (wk_sound _ Hst _ _ Hf) d')]. intros x Hx.
  destruct (defs_entry f doc x Hf) as (r & ? & ? & ? & _); [by right|]. by exists r.
Qed.

(** The reach computed from two files is the reach in the corpus. *)
Lemma reach_corpus fq q fa a start : st.1 !! fq = Some q → st.1 !! fa = Some a →
  let local := doc_Definitions q ++ doc_Definitions a in
  (∀ n, n ∈ start → n ∈ map d_Name local) →
  ∀ n, reachable (lookup_table local) start n ↔ reachable (lookup_table defs) start n.
Proof.
  intros Hq Ha local Hstart n.
  assert (Hent : ∀ d, d ∈ local → ∃ r, lookup_table defs !! d_Name d = Some r ∧ d_Properties r = d_Properties d).
  { intros d [Hd|Hd]%elem_of_app; [destruct (defs_entry fq q d Hq)|destruct (defs_entry fa a d Ha)]; try (by right); naive_solver. }
  assert (Hloc : ∀ d m, d ∈ local → m ∈ def_refs d → m ∈ map d_Name local).
  { intros d m Hd Hm. unfold local. rewrite map_app, elem_of_app. apply elem_of_app in Hd as [Hd|Hd]; [left|right];
      (eapply refs_local; [| |exact Hm]; [done|by right]). }
  split.
  - induction 1 as [n Hn|n d m _ IH Hd Hm]; [by constructor|]. apply lookup_table_name in Hd as [Hd <-].
    destruct (Hent d Hd) as (r & Hr & Hp). eapply reach_next; [done..|]. unfold def_refs in *. by rewrite Hp.
  - intros H. cut (n ∈ map d_Name local ∧ reachable (lookup_table local) start n); [by intros [_ ?]|].
    induction H as [n Hn|n r m _ [Hn IH] Hr Hm]; [split; [auto|by constructor]|].
    destruct (lookup_table_dom _ _ Hn) as (d & Hd & Hin & <-). destruct (Hent d Hin) as (r' & Hr' & Hp). simplify_eq.
    assert (Hmd : m ∈ def_refs d) by (unfold def_refs in *; by rewrite <-Hp). split; [by eapply Hloc|by eapply reach_next].
Qed.

(** The message of a row in the corpus. *)
Lemma message_corpus row m : message_of st.1 row m →
  NoDup (m_Reach m) ∧ ∃ q a, q ∈ defs ∧ a ∈ defs ∧
    d_Name q = m_RequestRoot m ∧ d_Name a = m_ResponseRoot m ∧ d_Kind q = DefinitionRoot ∧ d_Kind a = DefinitionRoot ∧
    ∀ n, n ∈ m_Reach m ↔ reachable (lookup_table defs) (def_refs q ++ def_refs a) n.
Proof.
  intros (q & a & Hq & Ha & _ & -> & -> & Hl). destruct (computeReach_ok q a) as (l & Hl' & Hnd & _ & Hr). simplify_eq.
  split; [done|]. destruct (defs_entry _ q (doc_Root q) Hq) as (q' & ? & ? & (? & _) & Pq & _); [left|].
  destruct (defs_entry _ a (doc_Root a) Ha) as (a' & ? & ? & (? & _) & Pa & _); [left|].
  pose proof (sd_root _ (wk_sound _ Hst _ _ Hq)). pose proof (sd_root _ (wk_sound _ Hst _ _ Ha)).
  exists q', a'. split_and!; try done; try congruence. intros n. rewrite Hr. unfold def_refs. rewrite Pq, Pa.
  eapply reach_corpus; [done..|]. intros x. rewrite map_app, !elem_of_app.
  intros [Hx|Hx]; [left; by eapply (refs_local _ q (doc_Root q)); [|left|]|right; by eapply (refs_local _ a (doc_Root a)); [|left|]].
Qed.
End corpus.

(** C20: [WalkSchemas] fails only if a file of some row is refused or two files
    disagree about a definition.  Otherwise the definitions have distinct names,
    every reference in them resolves within them, and none refers to itself through
    others, although cycles are searched for only within one file; there is one
    message for every row, its roots are root definitions, and its reach is exactly
    what they refer to in the whole representation, no name twice. *)
Theorem walk_closed_acyclic rows :
  match WalkSchemas rows with
  | inr _ =>
      (∃ f, file_of rows f ∧ refused (schema_path f)) ∨
      ∃ f g doc doc' d d', file_of rows f ∧ file_of rows g ∧ WalkSchema (schema_path f) = inl doc ∧
        WalkSchema (schema_path g) = inl doc' ∧ d ∈ all_of doc ∧ d' ∈ all_of doc' ∧ d_Name d = d_Name d' ∧ ¬ same_shape d d'
  | inl ir =>
      NoDup (map d_Name (Definitions ir)) ∧
      (∀ d p, d ∈ Definitions ir → p ∈ d_Properties d → closed (Definitions ir) p) ∧
      (∀ n, ¬ tc (edge (lookup_table (Definitions ir))) n n) ∧
      map m_Name (Messages ir) ≡ₚ map mm_Name rows ∧
      ∀ m, m ∈ Messages ir → NoDup (m_Reach m) ∧ ∃ q a, q ∈ Definitions ir ∧ a ∈ Definitions ir ∧
        d_Name q = m_RequestRoot m ∧ d_Name a = m_ResponseRoot m ∧ d_Kind q = DefinitionRoot ∧ d_Kind a = DefinitionRoot ∧
        ∀ n, n ∈ m_Reach m ↔ reachable (lookup_table (Definitions ir)) (def_refs q ++ def_refs a) n
  end.
Proof.
  unfold CgWalk.WalkSchemas.
  assert (H0 : walked (∅, [])).
  { split; cbn [fst snd]; [by intros ?? ?%lookup_empty_Some..|]. intros d. split; [by intros ?%not_elem_of_nil|].
    by intros (? & ? & ?%lookup_empty_Some & _). }
  pose proof (walk_rows_ok rows _ H0) as Hw. destruct (walk_rows rows (∅, [])) as [[st ms]|]; [|by left].
  destruct Hw as (Hst & _ & Hms & Hfiles). cbn [fst] in Hfiles.
  assert (Hfile : ∀ f doc, st.1 !! f = Some doc → file_of rows f).
  { intros f doc Hf. destruct (Hfiles f ltac:(by eauto)) as [?|[? ?%lookup_empty_Some]]; done. }
  destruct (Deduplicate st.2) as [defs|] eqn:Hd.
  - split_and!; simpl.
    + by eapply defs_NoDup.
    + by eapply corpus_closed.
    + by eapply corpus_acyclic.
    + rewrite (sort_by_perm m_Name). clear -Hms. induction Hms as [|row m rows ms (q & a & _ & _ & E & _) _ IH]; simpl; [done|].
      by rewrite E, IH.
    + intros m. rewrite (sort_by_perm m_Name). intros [i Hi]%list_elem_of_lookup.
      destruct (Forall2_lookup_r _ _ _ _ _ Hms Hi) as (row & _ & Hrow). by eapply message_corpus.
  - right. pose proof (Deduplicate_ok st.2) as H. rewrite Hd in H. destruct H as (d & d' & Hin & Hin' & ? & ?).
    apply Hst in Hin as (f & doc & Hf & ?), Hin' as (g & doc' & Hg & ?). exists f, g, doc, doc', d, d'.
    split_and!; try done; try (by eapply Hfile); by eapply wk_read.
Qed.
End reader.

(** A request with an enumeration and an array. *)
Definition sample : raw :=
  RObject [("$schema", RString draft06Dialect); ("$id", RString (idPrefix +:+ "PingRequest")); ("type", RString "object");
           ("definitions", RObject [("ModeEnumType", RObject [("type", RString "string"); ("enum", RArray [RString "On"; RString "Off"])])]);
           ("properties", RObject [("mode", RObject [("$ref", RString "#/definitions/ModeEnumType")]);
                                   ("levels", RObject [("type", RString "array"); ("items", RObject [("type", RString "integer")]);
                                                       ("minItems", RNumber "1")])]);
           ("required", RArray [RString "mode"])].
Definition read_sample : result SchemaDocument :=
  ReadSchema (λ _, inl "") (λ _, inl (sample, AtEOF)) (λ _, None) "schemas/PingRequest.json".

Lemma schema_read_closed_witness : ∃ doc, read_sample = inl doc ∧ map p_Required (d_Properties (doc_Root doc)) = [true; false] ∧
  ∃ data root, inl (B := error) "" = inl data ∧ decodeOrderedDocument (λ _, inl (sample, AtEOF)) data = inl root ∧
    document_of "schemas/PingRequest.json" root doc.
Proof.
  eexists. split; [vm_compute; reflexivity|]. split; [reflexivity|].
  apply (schema_read_closed (λ _, inl "") (λ _, inl (sample, AtEOF)) (λ _, None)). vm_compute. reflexivity.
Defined.

(** A keyword with the value null is read as the zero value of its Go type. *)
Example null_bound :
  (λ p, (p_MaxLength p, p_AdditionalProperties p)) <$>
  (match parseProperty (λ _, None) "x.json" ∅
           (RObject [("type", RString "string"); ("maxLength", RNull); ("additionalProperties", RNull)]) "id" "#" true with
   | inl p => Some p | inr _ => None end) = Some (Some 0%Z, Some false).
Proof. reflexivity. Qed.
