(* ===== verification/CgOverridesTheorems.v ===== *)
(** * The code generator: theorems about tag overrides

    - [overrides_only_tighten]: a table that is accepted composes onto every
      property, and leaves a tag that is at least as strict. *)

From Stdlib Require Import Ascii QArith.Qcanon.
From S2P Require Import Prelude Ocpp CgIR CgMapping CgPlacement CgSchema CgOverrides.
Local Open Scope string_scope.
Local Open Scope list_scope.

(** Inversion of a successful sequence of checks. *)
Ltac passed :=
  repeat match goal with
  | H : mbind _ _ = inl _ |- _ => apply bind_inl in H as (? & ? & H); cbn beta in H
  | H : wrap _ _ = inl _ |- _ => apply wrap_inl in H
  | H : mret _ = inl _ |- _ => injection H as H
  | H : inr _ = inl _ |- _ => discriminate H
  | H : row_error _ _ _ = inl _ |- _ => discriminate H
  | H : load_error _ _ = inl _ |- _ => discriminate H
  end.

(** ** Composition *)

Lemma replace_first_Some from tag l l' :
  replace_first from tag l = Some l' ↔ ∃ a b, l = a ++ from :: b ∧ from ∉ a ∧ l' = a ++ tag :: b.
Proof.
  revert l'. induction l as [|t l IH]; intros l'; simpl.
  { split; [done|]. by intros ([] & ? & ? & _). }
  case_bool_decide as E; [subst|].
  - split; [intros [= <-]; exists [], l; split_and!; [done|apply not_elem_of_nil|done]|].
    intros (a & b & E & Hn & ->). destruct a as [|x a]; simplify_eq/=; [done|]. exfalso. apply Hn. left.
  - rewrite fmap_Some. split.
    + intros (r & (a & b & -> & Hn & ->)%IH & ->). exists (t :: a), b. split_and!; [done| |done]. by rewrite not_elem_of_cons.
    + intros (a & b & Hl & Hn & ->). destruct a as [|x a]; simplify_eq/=. exists (a ++ tag :: b). split; [|done].
      apply IH. exists a, b. split_and!; [done| |done]. by apply not_elem_of_cons in Hn as [_ ?].
Qed.

Section table.
Context (ParseFloat : string → option Qc) (path : string) (regs : list string).

(** ** Keys of a tag set *)

(** The family and scope of every token, the scope counted from [s]. *)
Fixpoint keys_from (s : Z) (tokens : list string) : list familyKey :=
  match tokens with
  | [] => []
  | t :: tokens' => ownershipKey s (ownershipFamily regs t) :: keys_from (if bool_decide (t = "dive") then s + 1 else s)%Z tokens'
  end.

Lemma diveCount_cons t l : diveCount (t :: l) = ((if bool_decide (t = "dive") then 1 else 0) + diveCount l)%Z.
Proof. unfold diveCount. rewrite filter_cons. case_decide; case_bool_decide; simpl; try done; lia. Qed.
Lemma diveCount_app l k : diveCount (l ++ k) = (diveCount l + diveCount k)%Z.
Proof. unfold diveCount. rewrite filter_app, length_app. lia. Qed.

Lemma keys_from_app l k s : keys_from s (l ++ k) = keys_from s l ++ keys_from (s + diveCount l) k.
Proof.
  revert s. induction l as [|t l IH]; intros s; simpl.
  - by replace (s + diveCount [])%Z with s by (unfold diveCount; simpl; lia).
  - rewrite IH, diveCount_cons. do 3 f_equal. case_bool_decide; lia.
Qed.
Lemma keys_from_length s l : length (keys_from s l) = length l.
Proof. revert s. induction l; intros; simpl; auto. Qed.

Lemma scope_from_first a b w s : w ∉ a → (scope_from s w (a ++ w :: b)).1 = Some (s + diveCount a)%Z.
Proof.
  revert s. induction a as [|t a IH]; intros s Hn; simpl.
  - destruct (scope_from _ w b). rewrite bool_decide_eq_true_2 by done. simpl. f_equal. unfold diveCount. simpl. lia.
  - apply not_elem_of_cons in Hn as [Hne Hn]. specialize (IH (if bool_decide (t = "dive") then s + 1 else s)%Z Hn).
    destruct (scope_from _ w (a ++ w :: b)) as [found n]. rewrite bool_decide_eq_false_2 by congruence. simpl in *.
    rewrite IH, diveCount_cons. f_equal. case_bool_decide; lia.
Qed.
Lemma scopeOfToken_first a b w : w ∉ a → (scopeOfToken (a ++ w :: b) w).1 = diveCount a.
Proof.
  intros Hn. unfold scopeOfToken. pose proof (scope_from_first a b w 0 Hn) as H. destruct (scope_from 0 w _). simpl in *.
  by rewrite H.
Qed.

(** ** Strictness *)

Definition bound_families : list string := ["gte"; "min"; "lte"; "max"].

(** [b] bounds the same thing as [a], more tightly. *)
Definition tighter (a b : string) : Prop :=
  ∃ family va vb, ownershipFamily regs a = family ∧ ownershipFamily regs b = family ∧ family ∈ bound_families ∧
    parseNumericTagValue ParseFloat a = Some va ∧ parseNumericTagValue ParseFloat b = Some vb ∧
    if bool_decide (family ∈ ["gte"; "min"]) then (va < vb)%Qc else (vb < va)%Qc.

Lemma tighter_trans a b c : tighter a b → tighter b c → tighter a c.
Proof.
  intros (f & va & vb & Ha & Hb & Hf & Hva & Hvb & Hab) (f' & vb' & vc & Hb' & Hc & _ & Hvb' & Hvc & Hbc).
  assert (f' = f) as -> by congruence. assert (vb' = vb) as -> by congruence. exists f, va, vc. split_and!; try done.
  case_bool_decide; by eapply Qclt_trans.
Qed.

Lemma tighter_not_dive a b : tighter a b → a ≠ "dive" ∧ b ≠ "dive".
Proof.
  intros (f & _ & _ & Ha & Hb & Hf & _).
  assert (H : ownershipFamily regs "dive" ∉ bound_families).
  { unfold ownershipFamily. case_bool_decide; apply (bool_decide_eq_true_1 _); vm_compute; reflexivity. }
  split; intros ->; apply H; congruence.
Qed.

(** A token the vocabulary allows. *)
Definition token_ok (t : string) : Prop :=
  t ∉ ["required"; "omitempty"] ∧ (tagFamily t = "dive" → t = "dive") ∧
  (tagFamily t = "dive" ∨ tagFamily t ∈ bound_families ∨ t ∈ regs).
Record row_ok (row : OverrideRow) : Prop := {
  rk_definition : o_Definition row ≠ "";
  rk_rule : o_Rule row ∈ ["add"; "tighten"];
  rk_tag : token_ok (o_Tag row);
  rk_from : o_Rule row = "tighten" → token_ok (o_From row)
}.

Lemma checkTightenSource_ok key row mapping tokens u : row_ok row → o_Rule row = "tighten" →
  checkTightenSource ParseFloat path regs key row mapping tokens = inl u → tighter (o_From row) (o_Tag row).
Proof.
  intros Hrow Hr. unfold checkTightenSource. case_bool_decide; simpl; [|by intros].
  case_bool_decide; [by intros|].
  case_bool_decide as Hfam; [by intros|]. case_bool_decide as Hne; [by intros|].
  case_bool_decide as Hb.
  - destruct (parseNumericTagValue _ (o_From row)) as [va|] eqn:E1; [|by intros].
    destruct (parseNumericTagValue _ (o_Tag row)) as [vb|] eqn:E2; [|by intros].
    intros Hok. exists (ownershipFamily regs (o_From row)), va, vb. split_and!; [done..|].
    case_bool_decide; case_bool_decide; done.
  - case_bool_decide as Hin; [by intros|]. intros _. exfalso.
    destruct (rk_from _ Hrow Hr) as (_ & Hd & [Ht|[Ht|?]]); [|by unfold ownershipFamily in Hb; rewrite bool_decide_eq_false_2 in Hb by done|done].
    destruct (rk_tag _ Hrow) as (_ & Hd' & _). unfold ownershipFamily in Hfam. rewrite (bool_decide_eq_false_2 (o_From row ∈ regs)) in Hfam by done.
    rewrite Ht in Hfam. case_bool_decide; [done|]. apply Hne. rewrite Hd', Hd; done.
Qed.

(** ** The invariant of one target *)

(** The tokens are the base tokens, some of them tightened, and the tags of the add
    rows; the owners know every family present, and that of an added token is owned
    by a row. *)
Record target_inv (base adds : list string) (owners : gmap familyKey familyOwner) (tokens : list string) : Prop := {
  ti_tokens : ∃ kept, tokens = kept ++ adds ∧ Forall2 (λ b t, t = b ∨ tighter b t) base kept;
  ti_owned : ∀ k, k ∈ keys_from 0 tokens → is_Some (owners !! k);
  ti_added : ∀ k, k ∈ drop (length base) (keys_from 0 tokens) → ∃ o, owners !! k = Some o ∧ fo_row o ≠ "";
  ti_unique : NoDup (keys_from 0 base) → NoDup (keys_from 0 tokens)
}.

Lemma owners_from_some tags : ∀ s owners k,
  k ∈ keys_from s tags ∨ is_Some (owners !! k) → is_Some (owners_from regs s owners tags !! k).
Proof.
  induction tags as [|t tags IH]; intros s owners k Hk; simpl; [destruct Hk as [?%not_elem_of_nil|?]; done|].
  apply IH. simpl in Hk. rewrite elem_of_cons in Hk. set (k0 := ownershipKey _ _) in *.
  destruct Hk as [[->|?]|Hs]; [right|by left|right].
  - destruct (owners !! k0) eqn:E; [case_bool_decide; [by rewrite lookup_insert_eq|by rewrite E]|by rewrite lookup_insert_eq].
  - destruct (decide (k0 = k)) as [<-|Hne].
    + destruct (owners !! k0) eqn:E; [case_bool_decide; [by rewrite lookup_insert_eq|by rewrite E]|by rewrite lookup_insert_eq].
    + destruct (owners !! k0); [case_bool_decide|]; try rewrite lookup_insert_ne; done.
Qed.

Lemma target_inv_base base : target_inv base [] (baseFamilyOwners regs base) base.
Proof.
  split; [exists base; rewrite app_nil_r; split; [done|]| | |done].
  - induction base; constructor; auto.
  - intros k Hk. apply owners_from_some. by left.
  - intros k. rewrite drop_ge by (by rewrite keys_from_length). by intros ?%not_elem_of_nil.
Qed.

(** An add row. *)
Lemma target_inv_add base adds owners tokens tag key :
  target_inv base adds owners tokens → key ≠ "" →
  let k := ownershipKey (diveCount tokens) (ownershipFamily regs tag) in
  owners !! k = None → target_inv base (adds ++ [tag]) (<[k := mkOwner tag key]> owners) (tokens ++ [tag]).
Proof.
  intros [(kept & E & Hk) Ho Ha Hu] Hkey k Hnone.
  assert (Hl : length base <= length (keys_from 0 tokens)) by (rewrite keys_from_length, E, length_app, (Forall2_length _ _ _ Hk); lia).
  assert (Hkeys : keys_from 0 (tokens ++ [tag]) = keys_from 0 tokens ++ [k]) by (rewrite keys_from_app; done).
  split.
  - exists kept. split; [by rewrite E, app_assoc|done].
  - intros k'. rewrite Hkeys, elem_of_app, list_elem_of_singleton, lookup_insert_is_Some.
    destruct (decide (k = k')); [by left|]. intros [?|?]; [right; auto|congruence].
  - intros k'. rewrite Hkeys, drop_app_le, elem_of_app, list_elem_of_singleton by done.
    destruct (decide (k = k')) as [<-|Hne]; [rewrite lookup_insert_eq; by eauto|]. rewrite lookup_insert_ne by done.
    intros [?|?]; [auto|congruence].
  - intros Hb. rewrite Hkeys. apply NoDup_app. split_and!; [auto| |apply NoDup_singleton].
    intros k' Hin Hk'. apply list_elem_of_singleton in Hk' as ->. apply Ho in Hin as [? ?]. congruence.
Qed.

(** A tighten row that replaces a token owned by the base. *)
Lemma target_inv_tighten base adds owners a b from tag key :
  target_inv base adds owners (a ++ from :: b) → key ≠ "" → tighter from tag →
  let k := ownershipKey (diveCount a) (ownershipFamily regs tag) in
  (∀ o, owners !! k = Some o → fo_row o = "") →
  target_inv base adds (<[k := mkOwner tag key]> owners) (a ++ tag :: b).
Proof.
  intros [(kept & E & Hk) Ho Ha Hu] Hkey Ht k Hown. destruct (tighter_not_dive _ _ Ht) as [Hnd Hnd'].
  assert (Hf : ownershipFamily regs tag = ownershipFamily regs from) by (destruct Ht as (f & _ & _ & ? & ? & _); congruence).
  assert (Hkeys : keys_from 0 (a ++ tag :: b) = keys_from 0 (a ++ from :: b)).
  { rewrite !keys_from_app. simpl. by rewrite Hf, !bool_decide_eq_false_2 by done. }
  assert (Hka : keys_from 0 (a ++ from :: b) !! length a = Some k).
  { rewrite keys_from_app, lookup_app_r by (by rewrite keys_from_length). rewrite keys_from_length, Nat.sub_diag. simpl.
    unfold k. by rewrite Hf. }
  assert (Hla : (length a < length kept)%nat).
  { destruct (decide (length a < length kept)%nat) as [|Hge]; [done|]. exfalso.
    destruct (Ha k) as (o & Hok & Hr); [|by apply Hr, Hown]. apply list_elem_of_lookup. exists (length a - length base)%nat.
    rewrite lookup_drop, <-Hka. f_equal. rewrite (Forall2_length _ _ _ Hk). lia. }
  split.
  - destruct (app_eq_inv _ _ _ _ E) as [(l & E1 & E2)|(l & E1 & E2)].
    { rewrite E1, length_app in Hla. lia. }
    destruct l as [|x l]; [rewrite E1, app_nil_r in Hla; lia|]. injection E2 as <- ->. subst kept.
    apply Forall2_app_inv_r in Hk as (x & yz & Hx & Hyz & ->). inversion Hyz as [|y ? z ? Hy Hz]; subst.
    exists (a ++ tag :: l). split; [by rewrite <-app_assoc|]. apply Forall2_app; [done|]. constructor; [|done].
    right. destruct Hy as [->|Hy]; [done|by eapply tighter_trans].
  - intros k'. rewrite Hkeys, lookup_insert_is_Some. destruct (decide (k = k')); [by left|right; auto].
  - intros k'. rewrite Hkeys. intros Hin. destruct (decide (k = k')) as [<-|Hne]; [rewrite lookup_insert_eq; by eauto|].
    rewrite lookup_insert_ne by done. auto.
  - by rewrite Hkeys.
Qed.

(** ** The second pass *)

(** The tags of the add rows of a target. *)
Definition adds_of (target : OverrideTarget) (rows : list OverrideRow) : list string :=
  o_Tag <$> filter (λ r, target_of r = target ∧ o_Rule r = "add") rows.

(** The state of a target, from the base if no row met it yet. *)
Definition state_of (mapping : OverrideMapping) (st : targets) (target : OverrideTarget) : gmap familyKey familyOwner * list string :=
  default (baseFamilyOwners regs (BaseTags mapping), BaseTags mapping) (st !! target).

Lemma key_of_nonempty row : row_ok row → key_of row ≠ "".
Proof.
  intros [Hd _ _ _]. unfold key_of, rowKey. case_bool_decide; [done|]. destruct (o_Definition row); [done|discriminate].
Qed.

Lemma second_pass_row_ok mappings st row st' mapping base adds :
  row_ok row → mappings !! target_of row = Some mapping →
  second_pass_row ParseFloat path regs mappings st row = inl st' →
  let os := state_of mapping st (target_of row) in
  target_inv base adds os.1 os.2 →
  ∃ owners next, ApplyTagOverride os.2 row = inl next ∧ st' = <[target_of row := (owners, next)]> st ∧
    target_inv base (adds ++ if bool_decide (o_Rule row = "add") then [o_Tag row] else []) owners next.
Proof.
  intros Hrow Hm H os Hinv. unfold second_pass_row in H. rewrite Hm in H. change (default _ _) with os in H.
  destruct os as [owners tokens]. simpl in Hinv |- *. passed.
  destruct (ApplyTagOverride tokens row) as [next|] eqn:Happ; [|done]. injection H as <-.
  eexists _, next. split_and!; [done..|]. unfold ApplyTagOverride in Happ.
  destruct (rk_tag _ Hrow) as (Htag & _). assert (o_Tag row ≠ "required" ∧ o_Tag row ≠ "omitempty") as [??] by set_solver.
  rewrite !bool_decide_eq_false_2 in Happ by done. simpl in Happ.
  pose proof (rk_rule _ Hrow) as Hrule. apply elem_of_cons in Hrule as [Hr|Hr%list_elem_of_singleton]; rewrite Hr in *; simpl in *.
  - injection Happ as <-. passed. apply target_inv_add; [done|by apply key_of_nonempty|].
    match goal with H : checkNoDuplicateFamily _ _ _ _ _ _ = inl _ |- _ => unfold checkNoDuplicateFamily in H end.
    case_match; [|done]. repeat case_bool_decide; done.
  - destruct (replace_first _ _ tokens) as [l|] eqn:Hrep; [|done]. injection Happ as <-.
    apply replace_first_Some in Hrep as (a & b & -> & Hn & ->). rewrite app_nil_r, scopeOfToken_first by done. passed.
    apply (target_inv_tighten _ _ _ _ _ (o_From row)); [done|by apply key_of_nonempty|by eapply checkTightenSource_ok|].
    intros o Ho. match goal with H : checkTightenOwnership _ _ _ _ _ _ = inl _ |- _ => unfold checkTightenOwnership in H end.
    rewrite scopeOfToken_first in * by done. rewrite Ho in *. by case_bool_decide.
Qed.

Lemma second_pass_ok mappings d p mapping rows : mappings !! (d_Name d, p_Name p) = Some mapping → ∀ st st' adds,
  Forall row_ok rows →
  let os := state_of mapping st (d_Name d, p_Name p) in
  target_inv (BaseTags mapping) adds os.1 os.2 →
  second_pass ParseFloat path regs mappings st rows = inl st' →
  ∃ owners final, apply_overrides d p os.2 rows = inl final ∧
    target_inv (BaseTags mapping) (adds ++ adds_of (d_Name d, p_Name p) rows) owners final.
Proof.
  intros Hm. induction rows as [|row rows IH]; intros st st' adds Hrows os Hinv H; simpl in H.
  { exists os.1, os.2. split; [done|]. unfold adds_of. simpl. by rewrite app_nil_r. }
  apply Forall_cons in Hrows as [Hrow Hrows]. passed. simpl.
  destruct (decide (target_of row = (d_Name d, p_Name p))) as [Ht|Ht].
  - injection Ht as Hd Hp. rewrite !bool_decide_eq_true_2 by done. simpl.
    assert (Hmr : mappings !! target_of row = Some mapping) by (unfold target_of; by rewrite Hd, Hp).
    assert (E : target_of row = (d_Name d, p_Name p)) by (unfold target_of; by rewrite Hd, Hp).
    match goal with H1 : second_pass_row _ _ _ _ _ _ = inl ?st1 |- _ =>
      destruct (second_pass_row_ok _ _ _ _ _ (BaseTags mapping) adds Hrow Hmr H1) as (owners & next & Ha & -> & Hi) end.
    { by rewrite E. }
    rewrite E in Ha. fold os in Ha. rewrite Ha.
    destruct (IH (<[target_of row := (owners, next)]> st) st'
                 (adds ++ if bool_decide (o_Rule row = "add") then [o_Tag row] else []) Hrows) as (owners' & final & Hf & Hi').
    { cbn zeta. unfold state_of. rewrite E, lookup_insert_eq. done. }
    { done. }
    exists owners', final. unfold state_of in Hf. rewrite E, lookup_insert_eq in Hf. split; [done|].
    unfold adds_of in *. rewrite filter_cons. destruct (decide (o_Rule row = "add")) as [Hr|Hr].
    + rewrite bool_decide_eq_true_2 in Hi' by done. rewrite decide_True by done. by rewrite <-app_assoc in Hi'.
    + rewrite bool_decide_eq_false_2 in Hi' by done. rewrite decide_False by naive_solver. by rewrite app_nil_r in Hi'.
  - assert (bool_decide (o_Definition row = d_Name d) && bool_decide (o_Property row = p_Name p) = false) as ->.
    { apply not_true_iff_false. rewrite andb_true_iff, !bool_decide_eq_true. intros [E1 E2]. apply Ht. unfold target_of. congruence. }
    assert (Hst : state_of mapping x (d_Name d, p_Name p) = os).
    { match goal with H1 : second_pass_row _ _ _ _ _ _ = inl _ |- _ => unfold second_pass_row in H1; rename H1 into H1' end.
      destruct (mappings !! target_of row); [|done]. destruct (default _ (st !! target_of row)). passed.
      destruct (ApplyTagOverride _ row); [|done]. injection H1' as <-. unfold os, state_of. by rewrite lookup_insert_ne. }
    destruct (IH x st' adds Hrows) as (owners' & final & Hf & Hi'); [by rewrite Hst|done|]. exists owners', final.
    rewrite Hst in Hf. split; [done|]. unfold adds_of in *. rewrite filter_cons. case_decide; [naive_solver|done].
Qed.

(** ** The first pass *)

Lemma each_ok {A : Type} (f : A → result unit) l u : each f l = inl u → Forall (λ x, ∃ v, f x = inl v) l.
Proof. revert u. induction l as [|x l IH]; intros u H; simpl in H; passed; constructor; eauto. Qed.

Lemma blank_empty s : blank s = false → s ≠ "".
Proof. by intros H ->. Qed.

Lemma checkTagVocabulary_ok key label t u : checkTagVocabulary ParseFloat path key label t regs = inl u → token_ok t.
Proof.
  unfold checkTagVocabulary, token_ok. case_bool_decide as Ho; [done|]. intros H. passed. split; [done|].
  case_bool_decide as Hd; [case_bool_decide; [naive_solver|done]|]. split; [done|]. right.
  case_bool_decide as H1; [left; unfold bound_families; set_solver|].
  case_bool_decide as H2; [left; unfold bound_families; set_solver|]. case_bool_decide; [by right|done].
Qed.

Lemma checkRuleValue_ok key row u : checkRuleValue path key row = inl u → o_Rule row ∈ ["add"; "tighten"].
Proof. unfold checkRuleValue. by case_bool_decide. Qed.

Lemma validate_row_ok ir row u : validate_row ParseFloat path ir regs row = inl u → row_ok row.
Proof.
  unfold validate_row. intros H. cbn zeta in H. passed.
  match goal with H : checkRowIdentityFields _ _ _ = inl _ |- _ => unfold checkRowIdentityFields in H; destruct (blank (o_Definition row)) eqn:E; [done|] end.
  match goal with H : checkRuleValue _ _ _ = inl _ |- _ => apply checkRuleValue_ok in H as Hr end.
  split; [by apply blank_empty|done| |].
  - by eapply checkTagVocabulary_ok.
  - intros Ht. match goal with H : (if bool_decide (o_Rule row = "tighten") then _ else _) = inl _ |- _ =>
      rewrite bool_decide_eq_true_2 in H by done; by eapply checkTagVocabulary_ok end.
Qed.

Lemma insert_row_perm x l : insert_row x l ≡ₚ x :: l.
Proof. induction l as [|y l IH]; simpl; [done|]. destruct (row_less y x); [|done]. rewrite IH. apply Permutation_swap. Qed.
Lemma sortOverrideRows_perm l : sortOverrideRows l ≡ₚ l.
Proof. induction l as [|x l IH]; simpl; [done|]. by rewrite insert_row_perm, IH. Qed.

Lemma optionality_not_tighter a b : tighter a b → a ∉ ["required"; "omitempty"] ∧ b ∉ ["required"; "omitempty"].
Proof.
  intros (f & _ & _ & Ha & Hb & Hf & _).
  assert (H : ∀ t, t ∈ ["required"; "omitempty"] → ownershipFamily regs t ∉ bound_families).
  { intros t Ht. unfold ownershipFamily. case_bool_decide; [apply (bool_decide_eq_true_1 _); vm_compute; reflexivity|].
    repeat (apply elem_of_cons in Ht as [->|Ht]; [apply (bool_decide_eq_true_1 _); vm_compute; reflexivity|]).
    by apply not_elem_of_nil in Ht. }
  split; intros Hin; apply (H _ Hin); congruence.
Qed.

Lemma check_config_ok config ir mappings config' :
  check_config ParseFloat path config ir (Some mappings) regs = inl config' →
  Forall row_ok (TagOverrides config') ∧ ∃ st, second_pass ParseFloat path regs mappings ∅ (TagOverrides config') = inl st.
Proof.
  unfold check_config. intros H. cbn zeta in H. passed. subst config'. simpl. split.
  - rewrite sortOverrideRows_perm.
    match goal with H : validateTagOverrideRows _ _ _ _ _ = inl _ |- _ => apply each_ok in H; eapply Forall_impl; [exact H|] end.
    intros r [v Hv]. by eapply validate_row_ok.
  - match goal with H : applySecondPassChecks _ _ _ _ _ = inl _ |- _ => unfold applySecondPassChecks in H end. passed. by eauto.
Qed.

Lemma accepted_rows config ir mappings config' :
  check_config ParseFloat path config ir (Some mappings) regs = inl config' →
  ∀ d p mapping, mappings !! (d_Name d, p_Name p) = Some mapping →
  let added := adds_of (d_Name d, p_Name p) (TagOverrides config') in
  ∃ kept, apply_overrides d p (BaseTags mapping) (TagOverrides config') = inl (kept ++ added) ∧
    Forall2 (λ b t, t = b ∨ tighter b t) (BaseTags mapping) kept ∧
    (∀ t, t ∈ ["required"; "omitempty"] → t ∈ kept ++ added ↔ t ∈ BaseTags mapping) ∧
    (NoDup (keys_from 0 (BaseTags mapping)) → NoDup (keys_from 0 (kept ++ added))).
Proof.
  intros (Hrows & st & Hst)%check_config_ok d p mapping Hm added.
  destruct (second_pass_ok _ d p mapping _ Hm ∅ st [] Hrows) as (owners & final & Hf & [(kept & -> & Hk) _ _ Hu]);
    [apply target_inv_base|done|]. exists kept. split_and!; [done..| |done].
  intros t Ht. rewrite elem_of_app. assert (Ha : t ∉ added).
  { unfold added, adds_of. intros (r & -> & [_ Hr]%list_elem_of_filter)%list_elem_of_fmap.
    by apply (proj1 (rk_tag _ (proj1 (Forall_forall _ _) Hrows r Hr))). }
  split.
  - intros [Hin|?]; [|done]. apply list_elem_of_lookup in Hin as [i Hi].
    destruct (Forall2_lookup_r _ _ _ _ _ Hk Hi) as (b & Hb & [->|?%optionality_not_tighter]); [by eapply list_elem_of_lookup_2|naive_solver].
  - intros Hin. left. apply list_elem_of_lookup in Hin as [i Hi].
    destruct (Forall2_lookup_l _ _ _ _ _ Hk Hi) as (b & Hb & [->|?%optionality_not_tighter]); [by eapply list_elem_of_lookup_2|naive_solver].
Qed.
End table.
