(* ===== verification/CgEmitTheorems.v ===== *)
(** * The code generator: overrides and the emitted field

    [accepted_overrides_emit]: a table accepted against the mappings that the
    generator itself computes never makes the mapping of a property fail, and
    changes nothing of a field but its validate tag, which it only tightens. *)

From Stdlib Require Import Ascii QArith.QArith QArith.Qcanon.
From stdpp Require Import pretty.
From S2P Require Import Prelude Ocpp CgIR CgMapping CgPlacement CgSchema CgWalk CgWalkTheorems CgSchemaTheorems CgOverrides CgOverridesTheorems.
Local Open Scope string_scope.
Local Open Scope list_scope.

(** ** Splitting a tag *)

(** A token that a tag can hold: not empty, no comma. *)
Definition plain (t : string) : Prop := t ≠ "" ∧ ","%char ∉ chars t.

Lemma chars_inj s t : chars s = chars t → s = t.
Proof. intros H. by rewrite <-(of_chars_inv s), H, of_chars_inv. Qed.
Lemma chars_length s : length (chars s) = String.length s.
Proof. induction s as [|c s IH]; [done|]. simpl. by rewrite <-IH. Qed.

Lemma TrimPrefix_app p x : TrimPrefix (p +:+ x) p = x.
Proof.
  unfold TrimPrefix, HasPrefix. rewrite chars_app, <-chars_length, take_app_length, bool_decide_eq_true_2 by done.
  by rewrite drop_app_length, of_chars_inv.
Qed.
Lemma TrimSuffix_app x s : TrimSuffix (x +:+ s) s = x.
Proof.
  unfold TrimSuffix, HasSuffix.
  assert (Hl : String.length (x +:+ s) = (String.length x + String.length s)%nat) by (by rewrite <-!chars_length, chars_app, length_app).
  replace (String.length (x +:+ s) - String.length s)%nat with (length (chars x)) by (rewrite Hl, chars_length; lia).
  rewrite chars_app, drop_app_length, take_app_length, of_chars_inv.
  rewrite !bool_decide_eq_true_2; [done|done|lia].
Qed.

Lemma split_comma_word w l k : ","%char ∉ l → split_comma w (l ++ k) = split_comma (w ++ l) k.
Proof.
  revert w. induction l as [|c l IH]; intros w Hn; simpl; [by rewrite app_nil_r|]. apply not_elem_of_cons in Hn as [Hc Hn].
  rewrite bool_decide_eq_false_2 by congruence. by rewrite IH, <-app_assoc.
Qed.

Lemma split_join tokens : tokens ≠ [] → Forall plain tokens → split_comma [] (chars (Join tokens ",")) = tokens.
Proof.
  induction tokens as [|t tokens IH]; intros Hne Hp; [done|]. apply Forall_cons in Hp as [[_ Ht] Hp].
  destruct tokens as [|t' tokens].
  - simpl. rewrite <-(app_nil_r (chars t)), split_comma_word by done. simpl. by rewrite of_chars_inv.
  - change (Join (t :: t' :: tokens) ",") with (t +:+ "," +:+ Join (t' :: tokens) ",").
    rewrite !chars_app, split_comma_word by done. change (chars ",") with [","%char]. simpl.
    rewrite of_chars_inv. f_equal. by apply IH.
Qed.

(** The text of a validate tag. *)
Definition tag_text (tokens : list string) : string :=
  match tokens with [] => "" | _ => "validate:" +:+ quoted (Join tokens ",") end.

Lemma splitValidateTag_text tokens : Forall plain tokens → splitValidateTag (tag_text tokens) = tokens.
Proof.
  intros Hp. destruct tokens as [|t tokens]; [reflexivity|]. unfold splitValidateTag, tag_text, quoted.
  set (x := Join (t :: tokens) ",").
  assert (E : "validate:" +:+ dq +:+ x +:+ dq = ("validate:" +:+ dq) +:+ (x +:+ dq)).
  { apply chars_inj. by rewrite !chars_app, app_assoc. }
  rewrite E, TrimPrefix_app, TrimSuffix_app. rewrite bool_decide_eq_false_2; [by apply split_join|].
  intros Hx. apply (f_equal (λ s, split_comma [] (chars s))) in Hx. unfold x in Hx. rewrite split_join in Hx by done.
  simpl in Hx. apply Forall_cons in Hp as [[Hne _] _]. injection Hx as -> _. done.
Qed.

(** ** Base tags are plain *)

Lemma pretty_N_go_plain x : ∀ s, ","%char ∉ chars s → ","%char ∉ chars (pretty_N_go x s).
Proof.
  induction (N.lt_wf_0 x) as [x _ IH]. intros s Hs. destruct (decide (0 < x)%N) as [Hx|Hx].
  - rewrite pretty_N_go_step by done. apply IH; [by apply N.div_lt|]. simpl. apply not_elem_of_cons. split; [|done].
    assert (Hc : ∀ y, pretty_N_char y ≠ ","%char) by (intros y; unfold pretty_N_char; repeat case_match; done).
    by apply not_eq_sym.
  - by replace x with 0%N by lia.
Qed.
Lemma pretty_plain (z : Z) : ","%char ∉ chars (pretty z).
Proof.
  assert (Hp : ∀ p, ","%char ∉ chars (pretty (Npos p))).
  { intros p. apply pretty_N_go_plain. apply not_elem_of_nil. }
  destruct z as [|p|p]; [|exact (Hp p)|].
  - apply (bool_decide_eq_true_1 _). vm_compute. reflexivity.
  - change (pretty (Z.neg p)) with ("-" +:+ pretty (Npos p)). rewrite chars_app, not_elem_of_app. split; [|done].
    apply (bool_decide_eq_true_1 _). vm_compute. reflexivity.
Qed.

Lemma plain_app a x : a ≠ "" → ","%char ∉ chars a → ","%char ∉ chars x → plain (a +:+ x).
Proof. intros Ha ??. split; [by destruct a|]. rewrite chars_app, not_elem_of_app. done. Qed.

Section emit.
Context (FormatFloat : Qc → string) (Hfloat : ∀ q, ","%char ∉ chars (FormatFloat q)).

Ltac decide_it := apply (bool_decide_eq_true_1 _); vm_compute; reflexivity.

Lemma token_plain {A : Type} (f : A → string) x : (∀ v, plain (f v)) → Forall plain (token f x).
Proof. intros Hf. destruct x; repeat constructor; apply Hf. Qed.

Lemma scalar_plain p : Forall plain (scalarBoundTokens FormatFloat p).
Proof.
  unfold scalarBoundTokens. repeat apply Forall_app_2; apply token_plain; intros v; apply plain_app;
    try decide_it; [apply pretty_plain..|apply Hfloat|apply Hfloat].
Qed.
Lemma optionality_plain p : Forall plain (optionality p).
Proof.
  unfold optionality. repeat case_match; repeat constructor; try discriminate; decide_it.
Qed.
Lemma base_plain d p : Forall plain (BaseTagSet FormatFloat d p).
Proof.
  unfold BaseTagSet. case_bool_decide; [|apply Forall_app_2; [apply optionality_plain|apply scalar_plain]].
  repeat apply Forall_app_2; [apply optionality_plain|apply token_plain..|]; intros;
    try (apply plain_app; [discriminate|decide_it|apply pretty_plain]).
  unfold arrayElementTokens. destruct (p_Items p); [|constructor]. case_match; constructor; [|apply scalar_plain].
  split; [discriminate|decide_it].
Qed.

(** ** One token per family and scope *)

Context (regs : list string) (Hregs : Forall (λ r, plain r ∧ tagFamily r = r ∧ r ∉ ["required"; "omitempty"; "dive"; "min"; "max"; "gte"; "lte"]) regs).

(** The family of a base token. *)
Lemma base_family t f : tagFamily t = f → f ∈ ["required"; "omitempty"; "dive"; "min"; "max"; "gte"; "lte"] →
  ownershipFamily regs t = f.
Proof.
  intros Ht Hf. unfold ownershipFamily. rewrite bool_decide_eq_false_2; [done|]. intros Hin.
  destruct (proj1 (Forall_forall _ _) Hregs t Hin) as (_ & E & Hn). apply Hn. by rewrite <-E, Ht.
Qed.

Lemma keys_token {A : Type} (g : A → string) x f s rest : (∀ v, tagFamily (g v) = f) → f ∈ ["min"; "max"; "gte"; "lte"] →
  keys_from regs s (token g x ++ rest) `sublist_of` (s, f) :: keys_from regs s rest.
Proof.
  intros Hg Hf. destruct x as [v|]; simpl; [|by apply sublist_cons].
  assert (Hd : f ≠ "dive") by (intros ->; revert Hf; apply (bool_decide_eq_true_1 _); vm_compute; reflexivity).
  rewrite (base_family (g v) f) by (by rewrite ?Hg || set_solver). unfold ownershipKey. rewrite bool_decide_eq_false_2 by done.
  rewrite bool_decide_eq_false_2; [done|]. intros E. apply Hd. by rewrite <-(Hg v), E.
Qed.

Ltac next_key f := etrans; [apply (keys_token _ _ f); [reflexivity|set_solver]|apply sublist_skip].

Definition scope_keys (s : Z) : list familyKey := [(s, "min"); (s, "max"); (s, "gte"); (s, "lte")].

Lemma scalar_keys p s rest :
  keys_from regs s (scalarBoundTokens FormatFloat p ++ rest) `sublist_of` scope_keys s ++ keys_from regs s rest.
Proof.
  unfold scalarBoundTokens. rewrite <-!app_assoc.
  next_key "min"; next_key "max"; next_key "gte"; next_key "lte". done.
Qed.

Lemma optionality_keys p rest :
  keys_from regs 0 (optionality p ++ rest) `sublist_of` [(0%Z, "required"); (0%Z, "omitempty")] ++ keys_from regs 0 rest.
Proof.
  assert (E : ∀ t, t ∈ ["required"; "omitempty"] → keys_from regs 0 (t :: rest) = (0%Z, t) :: keys_from regs 0 rest).
  { intros t Ht. simpl. assert (tagFamily t = t) as Hf.
    { repeat (apply elem_of_cons in Ht as [->|Ht]; [reflexivity|]). by apply not_elem_of_nil in Ht. }
    rewrite (base_family t t) by (done || set_solver). unfold ownershipKey. rewrite !bool_decide_eq_false_2; [done|set_solver..]. }
  unfold optionality. repeat case_match; cbn [app]; rewrite ?E by set_solver.
  - by do 2 apply sublist_cons.
  - by apply sublist_skip, sublist_cons.
  - by apply sublist_cons, sublist_skip.
Qed.

Lemma enum_keys s et : Forall (λ t, t ∈ regs) et → (length et <= 1)%nat → keys_from regs s et `sublist_of` [(s, enumValueSetFamily)].
Proof.
  intros He Hl. destruct et as [|t [|]]; simpl in *; [apply sublist_nil_l| |lia]. inversion_clear He as [|?? Ht _].
  unfold ownershipFamily. by rewrite bool_decide_eq_true_2.
Qed.

(** The base tags of a property name every family at most once in every scope. *)
Lemma base_unique d p et : Forall (λ t, t ∈ regs) et → (length et <= 1)%nat →
  NoDup (keys_from regs 0 (BaseTagSet FormatFloat d p ++ et)).
Proof.
  intros He Hl. unfold BaseTagSet. case_bool_decide; rewrite <-!app_assoc.
  - destruct (arrayElementTokens FormatFloat p) as [|t l] eqn:E; cbn [app].
    + eapply sublist_NoDup; [|etrans; [apply optionality_keys|apply sublist_app; [done|]];
        next_key "min"; next_key "max"; by apply enum_keys].
      apply (bool_decide_eq_true_1 _). vm_compute. reflexivity.
    + unfold arrayElementTokens in E. destruct (p_Items p) as [i|]; [|done]. case_match; [done|]. injection E as <- <-.
      eapply sublist_NoDup; [|etrans; [apply optionality_keys|apply sublist_app; [done|]];
        next_key "min"; next_key "max"].
      2:{ simpl. rewrite (base_family "dive" "dive") by (done || set_solver). simpl. apply sublist_skip.
          etrans; [apply scalar_keys|apply sublist_app; [done|by apply enum_keys]]. }
      apply (bool_decide_eq_true_1 _). vm_compute. reflexivity.
  - eapply sublist_NoDup; [|etrans; [apply optionality_keys|apply sublist_app; [done|]];
      etrans; [apply scalar_keys|apply sublist_app; [done|by apply enum_keys]]].
    apply (bool_decide_eq_true_1 _). vm_compute. reflexivity.
Qed.
End emit.

(** ** The mappings of the generator *)

Section mappings.
Context (FormatFloat : Qc → string) (definitions : list Definition_) (transform : TransformConfig).

(** The validator of the property's enumeration, if any. *)
Definition enum_tokens (p : Property) (et : list string) : Prop :=
  (enum_of p = "" ∧ et = []) ∨ (enum_of p ≠ "" ∧ ∃ t, validatorTagName transform (enum_of p) = inl t ∧ et = [t]).

Lemma MapProperty_rows d p f0 : MapProperty FormatFloat definitions transform d p [] = inl f0 →
  ∃ et, enum_tokens p et ∧ ValidateTag f0 = tag_text (BaseTagSet FormatFloat d p ++ et) ∧
    ∀ rows final, apply_overrides d p (BaseTagSet FormatFloat d p ++ et) rows = inl final →
      MapProperty FormatFloat definitions transform d p rows =
        inl (mkFieldMapping (FieldName f0) (GoType f0) (JSONTag f0) (tag_text final)).
Proof.
  unfold MapProperty, tag_tokens, enum_tokens. destruct (transformPropertyName _ _); [|done]. destruct (mapGoType _ _ _); [|done].
  destruct (decide (enum_of p = "")) as [E|E].
  - rewrite bool_decide_eq_true_2 by done. intros [= <-]. exists []. split_and!; [by left|done|]. by intros rows final ->.
  - rewrite bool_decide_eq_false_2 by done. destruct (validatorTagName transform (enum_of p)) as [t|]; [|done].
    intros [= <-]. exists [t]. split_and!; [right; by eauto|done|]. by intros rows final ->.
Qed.

Definition mapping_of (f : FieldMapping) : OverrideMapping := mkMapping (splitValidateTag (ValidateTag f)) (GoType f) (FieldName f).

Lemma map_properties_other d ps : ∀ m m', map_properties FormatFloat transform definitions d ps m = inl m' →
  ∀ k, (∀ p, p ∈ ps → k ≠ (d_Name d, p_Name p)) → m' !! k = m !! k.
Proof.
  induction ps as [|p ps IH]; intros m m' H k Hk; simpl in H; [by injection H as <-|].
  destruct (MapProperty _ _ _ d p []) as [f|]; [|done]. rewrite (IH _ _ H) by (intros; apply Hk; by right).
  apply lookup_insert_ne. apply not_eq_sym, Hk. left.
Qed.

Lemma map_properties_ok d ps : ∀ m m', map_properties FormatFloat transform definitions d ps m = inl m' → NoDup (map p_Name ps) →
  ∀ p, p ∈ ps → ∃ f, MapProperty FormatFloat definitions transform d p [] = inl f ∧ m' !! (d_Name d, p_Name p) = Some (mapping_of f).
Proof.
  induction ps as [|p ps IH]; intros m m' H Hnd q Hq; simpl in H; [by apply not_elem_of_nil in Hq|].
  destruct (MapProperty _ _ _ d p []) as [f|] eqn:E; [|done]. simpl in Hnd. apply NoDup_cons in Hnd as [Hn Hnd].
  apply elem_of_cons in Hq as [->|Hq]; [|by eapply IH]. exists f. split; [done|].
  rewrite (map_properties_other _ _ _ _ H); [by rewrite lookup_insert_eq|].
  intros q Hq [= Eq]. apply Hn. rewrite Eq. by apply list_elem_of_fmap_2.
Qed.

Lemma map_definitions_other ds : ∀ m m', map_definitions FormatFloat transform definitions ds m = inl m' →
  ∀ k : OverrideTarget, (∀ d, d ∈ ds → k.1 ≠ d_Name d) → m' !! k = m !! k.
Proof.
  induction ds as [|d ds IH]; intros m m' H k Hk; simpl in H; [by injection H as <-|]. passed.
  rewrite (IH _ _ H) by (intros; apply Hk; by right). assert (Hd : k.1 ≠ d_Name d) by (apply Hk; left).
  case_bool_decide; passed; [by subst|]. eapply map_properties_other; [done|]. by intros p _ ->.
Qed.

Lemma map_definitions_ok ds : ∀ m m', map_definitions FormatFloat transform definitions ds m = inl m' → NoDup (map d_Name ds) →
  ∀ d p, d ∈ ds → d_Kind d ≠ DefinitionEnum → NoDup (map p_Name (d_Properties d)) → p ∈ d_Properties d →
  ∃ f, MapProperty FormatFloat definitions transform d p [] = inl f ∧ m' !! (d_Name d, p_Name p) = Some (mapping_of f).
Proof.
  induction ds as [|d ds IH]; intros m m' H Hnd d' p Hd Hk Hp Hin; simpl in H; [by apply not_elem_of_nil in Hd|]. passed.
  simpl in Hnd. apply NoDup_cons in Hnd as [Hn Hnd]. apply elem_of_cons in Hd as [->|Hd]; [|by eapply IH].
  rewrite (map_definitions_other _ _ _ H).
  - rewrite bool_decide_eq_false_2 in * by done. by eapply map_properties_ok.
  - intros y Hy E. apply Hn. simpl in E. rewrite E. by apply list_elem_of_fmap_2.
Qed.

Lemma validator_names_ok ds : ∀ names, validator_names transform ds = inl names →
  (∀ d t, d ∈ ds → d_Kind d = DefinitionEnum → validatorTagName transform (d_Name d) = inl t → t ∈ names) ∧
  ∀ t, t ∈ names → ∃ n, validatorTagName transform n = inl t.
Proof.
  induction ds as [|d ds IH]; intros names H; simpl in H; [injection H as <-; split; [by intros ? ? ?%not_elem_of_nil|by intros ? ?%not_elem_of_nil]|].
  case_bool_decide as Hk.
  - destruct (IH _ H) as [H1 H2]. split; [|done]. intros d' t [->|Hd]%elem_of_cons ??; [done|by eapply H1].
  - destruct (validatorTagName transform (d_Name d)) as [tag|] eqn:E; [|done]. passed. subst.
    match goal with H : validator_names _ _ = _ |- _ => destruct (IH _ H) as [H1 H2] end. split.
    + intros d' t [->|Hd]%elem_of_cons ??; [|right; by eapply H1]. assert (t = tag) as -> by congruence. left.
    + intros t [->|?]%elem_of_cons; [by eauto|auto].
Qed.
End mappings.

(** ** The fields emitted *)

Lemma closed_enum ds p : closed ds p → enum_of p ≠ "" → ∃ d, d ∈ ds ∧ d_Kind d = DefinitionEnum ∧ d_Name d = enum_of p.
Proof.
  assert (Hr : ∀ q, closed ds q → p_EnumDefinition q ≠ "" → ∃ d, d ∈ ds ∧ d_Kind d = DefinitionEnum ∧ d_Name d = p_EnumDefinition q).
  { intros q [Hq _ _] Hne. unfold resolves in Hq. case_bool_decide; [naive_solver|]. destruct Hq as (d & Hd & _ & _ & _ & He).
    case_bool_decide; [naive_solver|naive_solver]. }
  intros Hc. unfold enum_of. case_match; [|by apply Hr]. destruct (p_Items p) as [i|] eqn:E; [|by apply Hr].
  destruct Hc as [_ _ Hi]. apply Hr. auto.
Qed.

Lemma cut_eq_None l : "="%char ∉ l → cut_eq l = None.
Proof.
  induction l as [|c l IH]; intros Hn; simpl; [done|]. apply not_elem_of_cons in Hn as [Hc Hn].
  rewrite bool_decide_eq_false_2 by congruence. by rewrite IH.
Qed.

Lemma validator_tag_ok transform n r : validatorTagName transform n = inl r → "="%char ∉ chars r → ","%char ∉ chars r →
  plain r ∧ tagFamily r = r ∧ r ∉ ["required"; "omitempty"; "dive"; "min"; "max"; "gte"; "lte"].
Proof.
  unfold validatorTagName. destruct (TransformIdentifier _ _ _) as [g|]; [|done]. intros [= <-] He Hc.
  assert (Hs : TrimSuffix (lowerCamel g +:+ "201") "201" ≠ lowerCamel g +:+ "201").
  { rewrite TrimSuffix_app. intros E. apply (f_equal (λ s, length (chars s))) in E. rewrite chars_app, length_app in E. simpl in E. lia. }
  split_and!; [split; [by destruct (lowerCamel g)|done]|unfold tagFamily; by rewrite cut_eq_None|].
  intros Hin. apply Hs. set (r := lowerCamel g +:+ "201") in *. clearbody r.
  repeat (apply elem_of_cons in Hin as [->|Hin]; [vm_compute; reflexivity|]). by apply not_elem_of_nil in Hin.
Qed.

Lemma accepted_field FormatFloat ParseFloat transform path ir mappings regs config config' d p :
  (∀ q, ","%char ∉ chars (FormatFloat q)) →
  NoDup (map d_Name (Definitions ir)) → d ∈ Definitions ir → d_Kind d ≠ DefinitionEnum →
  NoDup (map p_Name (d_Properties d)) → p ∈ d_Properties d → closed (Definitions ir) p →
  buildOverrideMappings FormatFloat transform ir = inl (mappings, regs) →
  Forall (λ r, "="%char ∉ chars r ∧ ","%char ∉ chars r) regs →
  check_config ParseFloat path config ir (Some mappings) regs = inl config' →
  let added := adds_of (d_Name d, p_Name p) (TagOverrides config') in
  ∃ f base kept,
    MapProperty FormatFloat (Definitions ir) transform d p [] = inl f ∧ ValidateTag f = tag_text base ∧
    MapProperty FormatFloat (Definitions ir) transform d p (TagOverrides config') =
      inl (mkFieldMapping (FieldName f) (GoType f) (JSONTag f) (tag_text (kept ++ added))) ∧
    Forall2 (λ b t, t = b ∨ tighter ParseFloat regs b t) base kept ∧
    (∀ t, t ∈ ["required"; "omitempty"] → t ∈ kept ++ added ↔ t ∈ base) ∧
    NoDup (keys_from regs 0 (kept ++ added)).
Proof.
  intros Hff Hnd Hd Hk Hps Hp Hcl Hb Hregs Hc added. unfold buildOverrideMappings in Hb. passed. simplify_eq.
  match goal with H : map_definitions _ _ _ _ _ = _ |- _ =>
    destruct (map_definitions_ok _ _ _ _ _ _ H Hnd d p Hd Hk Hps Hp) as (f & Hf & Hm) end.
  match goal with H : validator_names _ _ = _ |- _ => destruct (validator_names_ok _ _ _ H) as [Hv1 Hv2] end.
  destruct (MapProperty_rows _ _ _ _ _ _ Hf) as (et & Het & Htag & Hrows).
  assert (Hin : ∀ t : string, t ∈ sort_strings x0 ↔ t ∈ x0) by (intros; unfold sort_strings; by rewrite sort_by_perm).
  assert (Hnames : Forall (λ r, plain r ∧ tagFamily r = r ∧ r ∉ ["required"; "omitempty"; "dive"; "min"; "max"; "gte"; "lte"]) (sort_strings x0)).
  { apply Forall_forall. intros r Hr. destruct (proj1 (Forall_forall _ _) Hregs r Hr). apply Hin, Hv2 in Hr as [n Hn]. by eapply validator_tag_ok. }
  assert (Hets : Forall (λ t, t ∈ sort_strings x0) et ∧ (length et <= 1)%nat).
  { destruct Het as [[_ ->]|(Hne & t & Ht & ->)]; [split; [constructor|simpl; lia]|]. split; [|done].
    apply Forall_singleton. destruct (closed_enum _ _ Hcl Hne) as (e & He & Hek & Hen). apply Hin. eapply Hv1; [done..|by rewrite Hen]. }
  destruct Hets as [Hets Hetl]. set (base := BaseTagSet FormatFloat d p ++ et) in *.
  assert (Hplain : Forall plain base).
  { apply Forall_app_2; [by apply base_plain|]. eapply Forall_impl; [exact Hets|]. intros t Ht. by apply (proj1 (Forall_forall _ _) Hnames t Ht). }
  destruct (accepted_rows _ _ _ _ _ _ _ Hc d p _ Hm) as (kept & Ha & Hkept & Hopt & Hu).
  unfold mapping_of in *. cbn [BaseTags] in *. rewrite Htag, splitValidateTag_text in Ha, Hkept, Hopt, Hu by done.
  exists f, base, kept. split_and!; [done..|by apply Hrows|done|done|]. apply Hu. by apply base_unique.
Qed.

(** C18: in a representation with distinct names and resolved references, a table
    of overrides that passes both passes against the mappings the generator computes
    never makes the mapping of a property fail; the field keeps its name, type and
    JSON tag; of its validate tag every base token is kept in place or replaced by a
    strictly tighter bound of the same family, the added tokens follow in order, the
    optionality is the schema's, and no family occurs twice on one side of dive. *)
Theorem accepted_overrides_emit FormatFloat ParseFloat transform path ir mappings regs config config' d p :
  (∀ q, ","%char ∉ chars (FormatFloat q)) →
  NoDup (map d_Name (Definitions ir)) → d ∈ Definitions ir → d_Kind d ≠ DefinitionEnum →
  NoDup (map p_Name (d_Properties d)) → p ∈ d_Properties d → closed (Definitions ir) p →
  buildOverrideMappings FormatFloat transform ir = inl (mappings, regs) →
  Forall (λ r, "="%char ∉ chars r ∧ ","%char ∉ chars r) regs →
  check_config ParseFloat path config ir (Some mappings) regs = inl config' →
  let added := adds_of (d_Name d, p_Name p) (TagOverrides config') in
  ∃ f base kept,
    MapProperty FormatFloat (Definitions ir) transform d p [] = inl f ∧ ValidateTag f = tag_text base ∧
    MapProperty FormatFloat (Definitions ir) transform d p (TagOverrides config') =
      inl (mkFieldMapping (FieldName f) (GoType f) (JSONTag f) (tag_text (kept ++ added))) ∧
    Forall2 (λ b t, t = b ∨ tighter ParseFloat regs b t) base kept ∧
    (∀ t, t ∈ ["required"; "omitempty"] → t ∈ kept ++ added ↔ t ∈ base) ∧
    NoDup (keys_from regs 0 (kept ++ added)).
Proof. apply accepted_field. Qed.

(** ** An example: a bound raised, another added *)

Section example.
Definition format_integer (q : Qc) : string := pretty (Qnum q).
Definition parse_integer (s : string) : option Qc := (λ z, Q2Qc (inject_Z z)) <$> ParseInt s.
Definition level : Property :=
  mkProperty "level" "#/properties/level" "integer" "" true [] "" "" None None (Some (Q2Qc 0)) None None None None None "" None None false.
Definition set_level : Definition_ := mkDefinition "SetLevelRequest" DefinitionRoot [level] [] None false 1 ["SetLevelRequest.json"].
Definition level_ir : IR := mkIR [set_level] [].
Definition level_row (rule tag from : string) : OverrideRow :=
  mkOverride "" "SetLevelRequest" "level" rule tag from "limits of the device" "datasheet" "ops" "2024-02-29".
Definition level_config : OverrideConfig := mkConfig "v201" [level_row "add" "lte=9" ""; level_row "tighten" "gte=1" "gte=0"] [].
Definition level_mappings : OverrideMappings := {[ ("SetLevelRequest", "level") := mkMapping ["required"; "gte=0"] "int" "Level" ]}.
Definition level_rows : list OverrideRow :=
  map (set_version "v201") [level_row "tighten" "gte=1" "gte=0"; level_row "add" "lte=9" ""].

Lemma accepted_overrides_emit_witness :
  ∃ f base kept,
    MapProperty format_integer [set_level] (mkTransform []) set_level level [] = inl f ∧ ValidateTag f = tag_text base ∧
    MapProperty format_integer [set_level] (mkTransform []) set_level level level_rows =
      inl (mkFieldMapping (FieldName f) (GoType f) (JSONTag f) (tag_text (kept ++ adds_of ("SetLevelRequest", "level") level_rows))) ∧
    Forall2 (λ b t, t = b ∨ tighter parse_integer [] b t) base kept ∧
    (∀ t, t ∈ ["required"; "omitempty"] → t ∈ kept ++ adds_of ("SetLevelRequest", "level") level_rows ↔ t ∈ base) ∧
    NoDup (keys_from [] 0 (kept ++ adds_of ("SetLevelRequest", "level") level_rows)).
Proof.
  apply (accepted_overrides_emit format_integer parse_integer (mkTransform []) "overrides.yaml" level_ir level_mappings []
           level_config (mkConfig "v201" level_rows []) set_level level).
  - intros q. apply pretty_plain.
  - apply NoDup_singleton.
  - left.
  - done.
  - apply NoDup_singleton.
  - left.
  - constructor; [by vm_compute|intros _ _; apply (bool_decide_eq_true_1 _); vm_compute; reflexivity|done].
  - vm_compute. reflexivity.
  - constructor.
  - vm_compute. reflexivity.
Defined.
End example.
