(* ===== verification/CgTreeTheorems.v ===== *)
(** * The code generator: theorems about the emitted tree

    - [emit_all_or_nothing]: a run that fails to render writes nothing, a failed
      write leaves whole files only, a second run touches nothing.
    - [accepted_tree_renders]: what the checks accepted, the emitter renders, unless
      the formatter refuses a text. *)

From Stdlib Require Import Ascii QArith.Qcanon.
From S2P Require Import Prelude Ocpp CgIR CgMapping CgPlacement CgSchema CgWalk CgOverrides CgManifest CgEmit CgPlacementTheorems CgWalkTheorems CgSchemaTheorems CgOverridesTheorems CgEmitTheorems.
Local Open Scope string_scope.
Local Open Scope list_scope.

(** ** Writing *)

Section writing.
Context (temp_name : string → disk → string) (Htemp : ∀ p d, contents d !! temp_name p d = None).

(** The disk after whole files were put in place. *)
Definition put (c : gmap string string) (f : generatedFile) : gmap string string := <[gf_path f := gf_content f]> c.

Lemma writeIfChanged_ok how path content d :
  let '(d', r) := writeIfChanged temp_name how path content d in
  match r with
  | inl _ => contents d' = <[path := content]> (contents d)
  | inr _ => d' = d
  end.
Proof.
  unfold writeIfChanged. case_bool_decide as E; [simpl; by rewrite insert_id|].
  assert (Hd : ∀ x, remove (temp_name path d) (set_content (temp_name path d) x d) = d).
  { intros x. unfold remove, set_content. simpl. rewrite delete_insert_id by apply Htemp. by destruct d. }
  destruct how; simpl; try done. by rewrite delete_insert_id.
Qed.

Lemma write_files_ok files : ∀ hows d,
  let '(d', r) := write_files temp_name hows files d in
  ∃ k, (k <= length files)%nat ∧ contents d' = foldl put (contents d) (take k files) ∧ (k = length files ↔ r = inl tt).
Proof.
  induction files as [|f files IH]; intros hows d; simpl; [by exists 0|].
  pose proof (writeIfChanged_ok (default Written (head hows)) (gf_path f) (gf_content f) d) as Hw.
  destruct (writeIfChanged _ _ _ _ d) as [d1 [u|e]].
  - specialize (IH (tail hows) d1). destruct (write_files _ (tail hows) files d1) as [d' r].
    destruct IH as (k & Hk & Hc & Hr). exists (S k). split_and!; [lia|by rewrite Hc, Hw|]. rewrite <-Hr. lia.
  - exists 0. split_and!; [lia|by subst|]. split; [lia|done].
Qed.

Lemma foldl_put_other files p : ∀ c, p ∉ map gf_path files → foldl put c files !! p = c !! p.
Proof.
  induction files as [|f files IH]; intros c Hp; simpl; [done|]. simpl in Hp. apply not_elem_of_cons in Hp as [Hne Hp].
  rewrite IH by done. unfold put. by rewrite lookup_insert_ne.
Qed.
Lemma foldl_put_file files f : ∀ c, NoDup (map gf_path files) → f ∈ files → foldl put c files !! gf_path f = Some (gf_content f).
Proof.
  induction files as [|g files IH]; intros c Hnd Hin; simpl in *; [by apply not_elem_of_nil in Hin|].
  apply NoDup_cons in Hnd as [Hn Hnd]. apply elem_of_cons in Hin as [->|Hin]; [|by apply IH].
  rewrite foldl_put_other by done. unfold put. by rewrite lookup_insert_eq.
Qed.

Lemma write_files_again files hows d : (∀ f, f ∈ files → contents d !! gf_path f = Some (gf_content f)) →
  write_files temp_name hows files d = (d, inl tt).
Proof.
  revert hows. induction files as [|f files IH]; intros hows Hf; simpl; [done|]. unfold writeIfChanged.
  rewrite bool_decide_eq_true_2 by (apply Hf; left). apply IH. intros; apply Hf; by right.
Qed.
End writing.

Section tree.
Context (FormatFloat : Qc → string) (format : string → result string).
Context (path_join : list string → string) (path_clean : string → string).

Lemma check_destinations_ok files : ∀ seen u, check_destinations path_clean seen files = inl u →
  NoDup (map (destination path_clean) files) ∧ ∀ x, x ∈ map (destination path_clean) files → seen !! x = None.
Proof.
  induction files as [|f files IH]; intros seen u H; simpl in H.
  { split; [apply NoDup_nil_2|by intros ? ?%not_elem_of_nil]. }
  destruct (seen !! destination path_clean f) as [g|] eqn:E; [case_bool_decide; discriminate|].
  destruct (IH _ _ H) as [Hn Hs]. simpl. split.
  - apply NoDup_cons. split; [|done]. intros Hin%Hs. by rewrite lookup_insert_eq in Hin.
  - intros x [->|Hx]%elem_of_cons; [done|]. by apply Hs, lookup_insert_None in Hx as [? _].
Qed.

Lemma destinations_paths files : NoDup (map (destination path_clean) files) → NoDup (map gf_path files).
Proof.
  intros H. replace (map (destination path_clean) files) with (map (λ p, lower_string (path_clean p)) (map gf_path files)) in H
    by (by rewrite map_map). by eapply NoDup_fmap_1.
Qed.

Notation renderTree := (renderTree FormatFloat format path_join path_clean).
Notation EmitGo := (EmitGo FormatFloat format path_join path_clean).

Lemma renderTree_paths ir m outDir options files : renderTree ir m outDir options = inl files → NoDup (map gf_path files).
Proof.
  unfold CgEmit.renderTree. intros H. passed. subst files.
  match goal with H : checkDestinationPaths _ _ = inl _ |- _ => apply check_destinations_ok in H as [H _] end.
  by apply destinations_paths.
Qed.

(** C22: if the tree cannot be rendered, [EmitGo] fails and nothing on the disk is
    changed.  Otherwise its files have distinct paths and a prefix of them is on the
    disk, each whole, with everything else as it was and no temporary file left,
    whatever write fails; if it returns nil all of them are, and running it again
    touches nothing. *)
Theorem emit_all_or_nothing temp_name hows ir m outDir options d d' r :
  (∀ p d, contents d !! temp_name p d = None) →
  EmitGo temp_name hows ir m outDir options d = (d', r) →
  match renderTree ir m outDir options with
  | inr _ => d' = d ∧ r ≠ inl tt
  | inl files =>
      NoDup (map gf_path files) ∧
      (∃ k, (k <= length files)%nat ∧ contents d' = foldl put (contents d) (take k files) ∧ (k = length files ↔ r = inl tt)) ∧
      (r = inl tt → (∀ f, f ∈ files → contents d' !! gf_path f = Some (gf_content f)) ∧
                    ∀ hows', EmitGo temp_name hows' ir m outDir options d' = (d', inl tt))
  end.
Proof.
  intros Htemp. unfold CgEmit.EmitGo. destruct (renderTree ir m outDir options) as [files|e] eqn:E; [|by intros [= <- <-]].
  intros Hw. pose proof (renderTree_paths _ _ _ _ _ E) as Hnd. split; [done|].
  pose proof (write_files_ok temp_name Htemp files hows d) as Hk. rewrite Hw in Hk. split; [done|].
  destruct Hk as (k & _ & Hc & Hr). intros ->. destruct Hr as [_ Hr]. rewrite Hr, firstn_all in Hc by done.
  assert (Hf : ∀ f, f ∈ files → contents d' !! gf_path f = Some (gf_content f)).
  { intros f Hin. rewrite Hc. by apply foldl_put_file. }
  split; [done|]. intros hows'. by apply write_files_again.
Qed.

(** ** Rendering what was accepted *)

Definition ok {A : Type} (r : result A) : Prop := ∃ x, r = inl x.

Lemma bind_ok {A B : Type} (f : A → result B) (x : result A) : ok x → (∀ a, x = inl a → ok (f a)) → ok (mbind f x).
Proof. intros [a ->] H. by apply H. Qed.
Lemma ret_ok {A : Type} (x : A) : ok (mret x).
Proof. by exists x. Qed.
Lemma mapM_ok {A B : Type} (f : A → result B) l : (∀ x, x ∈ l → ok (f x)) → ∃ ys, mapM_result f l = inl ys ∧ length ys = length l.
Proof.
  induction l as [|x l IH]; intros H; simpl; [by exists []|]. destruct (H x ltac:(left)) as [y ->]. simpl.
  destruct IH as (ys & -> & E); [intros; apply H; by right|]. simpl. exists (y :: ys). split; [done|]. simpl. lia.
Qed.
Lemma mapM_is_ok {A B : Type} (f : A → result B) l : (∀ x, x ∈ l → ok (f x)) → ok (mapM_result f l).
Proof. intros H. destruct (mapM_ok f l H) as (ys & -> & _). by exists ys. Qed.

(** What the collision check says about the placed definitions. *)
Record placed_ok (ir : IR) (placement : PlacementPlan) (transform : TransformConfig) (n : string) (d : Definition_) : Prop := {
  po_find : findDefinitionByName (Definitions ir) n = Some d;
  po_name : ok (TransformIdentifier (d_Name d) (d_Kind d) transform);
  po_tag : d_Kind d = DefinitionEnum → ok (validatorTagName transform (d_Name d));
  po_struct : d_Kind d = DefinitionObject → d ∈ rendered_structs ir placement
}.

Lemma all_placed_find ir placement config blocks names l : all_placed ir placement config blocks names = inl l →
  ∀ n, n ∈ names → ∃ d, findDefinitionByName (Definitions ir) n = Some d ∧ ok (TransformIdentifier (d_Name d) (d_Kind d) config).
Proof.
  revert l. induction names as [|n names IH]; intros l H x Hx; simpl in H; [by apply not_elem_of_nil in Hx|].
  destruct (placed_entries ir placement config blocks n) as [es|] eqn:E; [|done].
  destruct (all_placed _ _ _ _ names) as [l'|] eqn:E'; [|done]. apply elem_of_cons in Hx as [->|Hx]; [|by eapply IH].
  unfold placed_entries in E. destruct (findDefinitionByName _ n) as [d|]; [|done]. exists d. split; [done|].
  destruct (TransformIdentifier _ _ _) as [g|]; [by exists g|done].
Qed.

Lemma collisions_placed ir placement transform : CheckEmissionCollisions ir placement transform = None →
  (∀ n, n ∈ sortedPlacedNames placement → ∃ d, placed_ok ir placement transform n d) ∧
  ∀ d, d ∈ rendered_structs ir placement → NoDup (map p_Name (d_Properties d)).
Proof.
  unfold CheckEmissionCollisions. intros H. destruct (checkPackageCollisions _ _ _) eqn:E1; [done|].
  destruct (checkFieldCollisions _ _ _) eqn:E2; [done|]. split.
  - intros n Hn. apply checkPackageCollisions_None in E1 as (index & Hi & _). unfold package_index in Hi.
    destruct (all_placed _ _ _ _ _) as [l|] eqn:El; [|done]. destruct (all_placed_find _ _ _ _ _ _ El n Hn) as (d & Hd & Hok).
    exists d. split; [done|done| |].
    + intros Hk. apply check_tags_None in H as (tags & Ht & _).
      assert (Hin : d ∈ placed_enums ir (sortedPlacedNames placement)).
      { unfold placed_enums. apply list_elem_of_filter. split; [done|]. apply list_elem_of_omap. by exists n. }
      apply list_elem_of_lookup in Hin as [i Hi']. destruct (Forall2_lookup_l _ _ _ _ _ Ht Hi') as (t & _ & Ht'). by exists t.
    + intros Hk. unfold rendered_structs. apply elem_of_app. left. apply list_elem_of_filter. split; [done|].
      apply list_elem_of_omap. by exists n.
  - intros d Hd. unfold checkFieldCollisions in E2. rewrite first_error_None in E2. apply E2, check_fields_None in Hd as (names & Hf & Hnd & _).
    clear -Hf Hnd. induction Hf as [|p n ps names Hp Hf IH]; [apply NoDup_nil_2|]. apply NoDup_cons in Hnd as [Hn Hnd]. simpl.
    apply NoDup_cons. split; [|by apply IH]. intros (q & Eq & Hq)%list_elem_of_fmap. apply Hn.
    apply list_elem_of_lookup in Hq as [i Hi]. destruct (Forall2_lookup_l _ _ _ _ _ Hf Hi) as (n' & Hn' & Hq').
    rewrite <-Eq in Hq'. assert (n' = n) as -> by congruence. by eapply list_elem_of_lookup_2.
Qed.

Section accepted.
Context (ir : IR) (transform : TransformConfig) (overrides : list OverrideRow) (placement : PlacementPlan).
Context (Hplaced : ∀ n, n ∈ sortedPlacedNames placement → ∃ d, placed_ok ir placement transform n d).
Context (Hmap : ∀ d p, d ∈ rendered_structs ir placement → p ∈ d_Properties d →
           ok (MapProperty FormatFloat (Definitions ir) transform d p overrides)).

Lemma field_ok d p in_types : d ∈ rendered_structs ir placement → p ∈ d_Properties d →
  ok (qualifiedFieldMapping FormatFloat ir transform overrides placement d p in_types).
Proof. intros Hd Hp. apply bind_ok; [by apply Hmap|]. intros. apply ret_ok. Qed.

Lemma structBody_ok name d in_types : d ∈ rendered_structs ir placement →
  ok (structBody FormatFloat ir transform overrides placement name d in_types).
Proof. intros Hd. apply bind_ok; [|intros; apply ret_ok]. apply mapM_is_ok. intros p Hp. by apply field_ok. Qed.

Lemma renderConstructor_ok name d in_types ptr : d ∈ rendered_structs ir placement →
  ok (renderConstructor FormatFloat ir transform overrides placement name d in_types ptr).
Proof.
  intros Hd. apply bind_ok; [|intros; apply ret_ok]. apply mapM_is_ok. intros p [_ Hp]%list_elem_of_filter. by apply field_ok.
Qed.

(** The definitions found in a package. *)
Definition items_ok (kind : DefinitionKind) (l : list (Definition_ * string)) : Prop :=
  ∀ dg, dg ∈ l → d_Kind dg.1 = kind ∧ ∃ n, placed_ok ir placement transform n dg.1.

Lemma local_placed_ok pkg kind names : (∀ n, n ∈ names → n ∈ sortedPlacedNames placement) →
  ∃ l, local_placed ir transform placement pkg kind names = inl l ∧ items_ok kind l.
Proof.
  induction names as [|n names IH]; intros Hn; simpl; [exists []; by split; [|intros ? ?%not_elem_of_nil]|].
  destruct IH as (l & Hl & Hi); [intros; apply Hn; by right|]. case_bool_decide; [by exists l|].
  destruct (Hplaced n ltac:(apply Hn; left)) as [d Hd]. rewrite (po_find _ _ _ _ _ Hd). case_bool_decide as Hk; [by exists l|].
  subst kind. destruct (po_name _ _ _ _ _ Hd) as [g ->]. simpl. rewrite Hl. simpl. exists ((d, g) :: l). split; [done|].
  intros dg [->|?]%elem_of_cons; [|by apply Hi]. split; [done|by exists n].
Qed.
Lemma localPlaced_ok pkg kind : ∃ l, localPlacedDefinitions ir transform placement pkg kind = inl l ∧ items_ok kind l.
Proof.
  unfold localPlacedDefinitions. destruct (local_placed_ok pkg kind (sortedPlacedNames placement)) as (l & -> & Hi); [done|].
  exists (sort_by snd l). split; [done|]. intros dg. rewrite (sort_by_perm snd). apply Hi.
Qed.

Lemma registrations_ok prefix enums : items_ok DefinitionEnum enums → ok (registrations transform prefix enums).
Proof.
  intros Hi. unfold registrations. destruct enums as [|e l]; [apply ret_ok|]. apply bind_ok; [|intros; apply ret_ok].
  apply mapM_is_ok. intros dg Hdg. destruct (Hi dg Hdg) as [Hk [n Hp]]. apply bind_ok; [by eapply po_tag|intros; apply ret_ok].
Qed.

Lemma message_ok message q a :
  findDefinitionByName (Definitions ir) (mm_Name message +:+ "Request") = Some q → q ∈ rendered_structs ir placement →
  findDefinitionByName (Definitions ir) (mm_Name message +:+ "Response") = Some a → a ∈ rendered_structs ir placement →
  ok (message_body FormatFloat ir transform overrides placement message).
Proof.
  intros Hq Hqs Ha Has. unfold message_body. rewrite Hq, Ha.
  destruct (localPlaced_ok ("message:" +:+ mm_Name message) DefinitionEnum) as (enums & -> & He).
  destruct (localPlaced_ok ("message:" +:+ mm_Name message) DefinitionObject) as (objects & -> & Ho). simpl.
  assert (Hobj : ∀ dg, dg ∈ objects → dg.1 ∈ rendered_structs ir placement).
  { intros dg Hdg. destruct (Ho dg Hdg) as [Hk [n Hp]]. by eapply po_struct. }
  apply bind_ok; [apply mapM_is_ok; intros; apply structBody_ok; auto|intros ? _].
  do 2 (apply bind_ok; [by apply structBody_ok|intros ? _]).
  apply bind_ok; [apply mapM_is_ok; intros; apply renderConstructor_ok; auto|intros ? _].
  do 2 (apply bind_ok; [by apply renderConstructor_ok|intros ? _]).
  apply bind_ok; [by apply registrations_ok|intros; apply ret_ok].
Qed.

Lemma typesFile_ok : ok (renderTypesFileBody FormatFloat ir transform overrides placement).
Proof.
  unfold renderTypesFileBody. destruct (localPlaced_ok "types" DefinitionObject) as (objects & -> & Ho).
  destruct (localPlaced_ok "types" DefinitionEnum) as (enums & -> & He). simpl.
  apply bind_ok; [|intros; apply bind_ok; [|intros; apply ret_ok]].
  - apply mapM_is_ok. intros dg. rewrite (sort_by_perm snd). intros Hdg. unfold render_item. case_bool_decide as Hk; [|apply ret_ok].
    assert (Hs : dg.1 ∈ rendered_structs ir placement).
    { apply elem_of_app in Hdg as [Hdg|Hdg]; [destruct (Ho dg Hdg) as [_ [n Hp]]|destruct (He dg Hdg) as [_ [n Hp]]]; by eapply po_struct. }
    apply bind_ok; [by apply structBody_ok|intros]. apply bind_ok; [by apply renderConstructor_ok|intros; apply ret_ok].
  - apply registrations_ok. intros dg [Hk Hin]%list_elem_of_filter. split; [done|]. rewrite (sort_by_perm snd) in Hin.
    apply elem_of_app in Hin as [Hin|Hin]; [by apply Ho|by apply He].
Qed.
End accepted.

(** An error that [e0] was wrapped into, with [wrap]. *)
Inductive wrapped (e0 : error) : error → Prop :=
| wrapped_here : wrapped e0 e0
| wrapped_in text e : wrapped e0 e → wrapped e0 (Errorf (text +:+ ": " +:+ error_text e) None).

(** A result, or the report that the formatter refused a text. *)
Definition refused (e : error) : Prop :=
  ∃ src e0 e1, format src = inr e0 ∧ formatSource format src = inr e1 ∧ wrapped e1 e.
Definition formats {A : Type} (x : result A) : Prop := match x with inl _ => True | inr e => refused e end.

Lemma formatSource_formats src : formats (formatSource format src).
Proof.
  destruct (formatSource format src) as [|e] eqn:E; [done|]. simpl. unfold formatSource in E.
  destruct (format src) as [|e0] eqn:E0; [done|]. exists src, e0, e. split; [done|]. split; [|constructor].
  unfold formatSource. by rewrite E0.
Qed.
Lemma ok_formats {A : Type} (x : result A) : ok x → formats x.
Proof. by intros [a ->]. Qed.
Lemma bind_formats {A B : Type} (f : A → result B) (x : result A) :
  formats x → (∀ a, x = inl a → formats (f a)) → formats (mbind f x).
Proof. destruct x as [a|e]; intros Hx Hf; [by apply Hf|done]. Qed.
Lemma wrap_formats {A : Type} text (x : result A) : formats x → formats (wrap text x).
Proof.
  destruct x as [a|e]; [done|]. intros (src & e0 & e1 & H0 & H1 & Hw). exists src, e0, e1. split_and!; [done..|]. by constructor.
Qed.
Lemma mapM_formats {A B : Type} (f : A → result B) l :
  (∀ x, x ∈ l → formats (f x)) →
  match mapM_result f l with inl ys => length ys = length l | inr e => refused e end.
Proof.
  induction l as [|x l IH]; intros H; simpl; [done|]. pose proof (H x ltac:(left)) as Hx.
  destruct (f x) as [y|e]; simpl; [|done]. specialize (IH ltac:(intros; apply H; by right)).
  destruct (mapM_result f l) as [ys|e]; simpl; [lia|done].
Qed.

(** C19: for a representation with distinct names and resolved references that can
    be placed without collision, and an override table that both passes accepted,
    the emitter either renders the shared types file and the file of every message
    to be emitted, and then only the check of the destination paths can still refuse
    the tree, or it reports that go/format refused a text it rendered; no lookup,
    naming, mapping or override can fail any more.  Conditions besides: the two
    roots of every message to be emitted are there and rendered, what is rendered as
    a struct is no enumeration, the text of a float64 has no comma, and registered
    names have neither comma nor equals sign. *)
Theorem accepted_tree_renders ParseFloat transform path ir mappings regs config config' placement m outDir :
  (∀ q, ","%char ∉ chars (FormatFloat q)) →
  NoDup (map d_Name (Definitions ir)) → (∀ d p, d ∈ Definitions ir → p ∈ d_Properties d → closed (Definitions ir) p) →
  ComputePlacement ir = inl placement → CheckEmissionCollisions ir placement transform = None →
  buildOverrideMappings FormatFloat transform ir = inl (mappings, regs) →
  Forall (λ r, "="%char ∉ chars r ∧ ","%char ∉ chars r) regs →
  check_config ParseFloat path config ir (Some mappings) regs = inl config' →
  (∀ d, d ∈ rendered_structs ir placement → d_Kind d ≠ DefinitionEnum) →
  (∀ row, row ∈ mf_Messages m → mm_Emit row = true → ∃ q a,
    findDefinitionByName (Definitions ir) (mm_Name row +:+ "Request") = Some q ∧ q ∈ rendered_structs ir placement ∧
    findDefinitionByName (Definitions ir) (mm_Name row +:+ "Response") = Some a ∧ a ∈ rendered_structs ir placement) →
  let tree := renderTree ir m outDir (mkOptions transform (TagOverrides config')) in
  (∃ files, length files = S (length (filter (λ r, mm_Emit r = true) (mf_Messages m))) ∧
     tree = (_ ← checkDestinationPaths path_clean files; mret files)) ∨
  (∃ e, tree = inr e ∧ refused e).
Proof.
  intros Hff Hnd Hcl Hpl Hcol Hb Hregs Hc Hkind Hroots.
  destruct (collisions_placed _ _ _ Hcol) as [Hplaced Hfields].
  assert (Hin : ∀ d, d ∈ rendered_structs ir placement → d ∈ Definitions ir).
  { assert (Hfind : ∀ n d, findDefinitionByName (Definitions ir) n = Some d → d ∈ Definitions ir).
    { intros n d (l & E)%head_Some_inv. assert (Hd : d ∈ filter (λ x, d_Name x = n) (Definitions ir)) by (rewrite E; left).
      by apply list_elem_of_filter in Hd as [_ ?]. }
    intros d. unfold rendered_structs. rewrite elem_of_app. intros [[_ (n & _ & Hn)%list_elem_of_omap]%list_elem_of_filter|Hd]; [by eapply Hfind|].
    apply list_elem_of_In, in_flat_map in Hd as (x & _ & Hd). apply list_elem_of_In, list_elem_of_omap in Hd as (n & _ & Hn).
    case_bool_decide; [done|by eapply Hfind]. }
  assert (Hmap : ∀ d p, d ∈ rendered_structs ir placement → p ∈ d_Properties d →
    ok (MapProperty FormatFloat (Definitions ir) transform d p (TagOverrides config'))).
  { intros d p Hd Hp. destruct (accepted_field FormatFloat ParseFloat transform path ir mappings regs config config' d p)
      as (f & base & kept & _ & _ & Hm & _); eauto. by eexists. }
  assert (message_formats : ∀ row, row ∈ filter (λ r, mm_Emit r = true) (mf_Messages m) →
    formats (message_file_of FormatFloat format path_join ir m outDir placement (mkOptions transform (TagOverrides config')) row)).
  { intros row [He Hrow]%list_elem_of_filter. destruct (Hroots row Hrow He) as (q & a & Hq & Hqs & Ha & Has).
    apply bind_formats; [apply wrap_formats, bind_formats; [by eapply ok_formats, message_ok|intros; apply formatSource_formats]|].
    intros. apply bind_formats; [apply wrap_formats, formatSource_formats|done]. }
  unfold CgEmit.renderTree. rewrite Hpl. simpl. rewrite Hcol. simpl.
  destruct (typesFile_ok ir transform (TagOverrides config') placement Hplaced Hmap) as [tb ->]. simpl.
  pose proof (wrap_formats "assemble shared types file" (assembleFile format "types" tb [] "")
    (formatSource_formats _)) as Ht.
  destruct (wrap _ (assembleFile _ _ _ _ _)) as [tf|e]; simpl; [|by right; exists e].
  pose proof (mapM_formats (message_file_of FormatFloat format path_join ir m outDir placement (mkOptions transform (TagOverrides config')))
                (filter (λ r, mm_Emit r = true) (mf_Messages m))) as Hf.
  destruct (mapM_result _ _) as [files|e]; simpl.
  - left. eexists. split; [|reflexivity]. simpl. rewrite Hf; [done|]. intros row Hrow. by apply message_formats.
  - right. exists e. split; [done|]. apply Hf. intros row Hrow. by apply message_formats.
Qed.
End tree.

(** ** An example: one message with an overridden field *)

Module TreeDemo.
Definition response : Definition_ := mkDefinition "SetLevelResponse" DefinitionRoot [] [] None false 1 ["SetLevelResponse.json"].
Definition ir : IR :=
  mkIR [set_level; response]
    [mkMessage "SetLevel" "provisioning" "CSMS->CS" "SetLevelRequest.json" "SetLevelResponse.json" "SetLevelRequest" "SetLevelResponse"
       ["SetLevelRequest"; "SetLevelResponse"] [] true].
Definition manifest : Manifest :=
  mkManifest "v201" "schemas" "example.org/ocpp" "tree" "tree/types"
    [mkManifestMessage "SetLevel" "provisioning" "CSMS->CS" "SetLevelRequest.json" "SetLevelResponse.json" true].
Definition placement : PlacementPlan := mkPlacement ∅.
Definition format (s : string) : result string := inl s.
Definition path_join (l : list string) : string := Join l "/".
Definition options : EmitterOptions := mkOptions (mkTransform []) level_rows.
Definition temp_name (p : string) (d : disk) : string := fresh (dom (contents d)).
Definition start : disk := mkDisk ∅ [].
Definition run : disk * result unit :=
  EmitGo format_integer format path_join id temp_name [] ir manifest "out" options start.
End TreeDemo.

(** The formatter of the example accepts every text, so the other case is excluded. *)
Lemma accepted_tree_renders_witness :
  ∃ files, length files = S (length (filter (λ r, mm_Emit r = true) (mf_Messages TreeDemo.manifest))) ∧
    renderTree format_integer TreeDemo.format TreeDemo.path_join id TreeDemo.ir TreeDemo.manifest "out" TreeDemo.options =
      (_ ← checkDestinationPaths id files; mret files).
Proof.
  destruct (accepted_tree_renders format_integer TreeDemo.format TreeDemo.path_join id parse_integer (mkTransform []) "overrides.yaml"
           TreeDemo.ir level_mappings [] level_config (mkConfig "v201" level_rows []) TreeDemo.placement TreeDemo.manifest "out") as [?|(e & _ & src & e0 & e1 & Hf & _)]; [..|assumption|discriminate Hf].
  - intros q. apply pretty_plain.
  - apply (bool_decide_eq_true_1 _). vm_compute. reflexivity.
  - intros d p Hd Hp. repeat (apply elem_of_cons in Hd as [->|Hd]); [|by apply not_elem_of_nil in Hp|by apply not_elem_of_nil in Hd].
    apply list_elem_of_singleton in Hp as ->.
    constructor; [by vm_compute|intros _ _; apply (bool_decide_eq_true_1 _); vm_compute; reflexivity|done].
  - vm_compute. reflexivity.
  - vm_compute. reflexivity.
  - vm_compute. reflexivity.
  - constructor.
  - vm_compute. reflexivity.
  - intros d Hd. change (rendered_structs TreeDemo.ir TreeDemo.placement) with [set_level; TreeDemo.response] in Hd.
    repeat (apply elem_of_cons in Hd as [->|Hd]; [done|]). by apply not_elem_of_nil in Hd.
  - intros row Hrow _. apply list_elem_of_singleton in Hrow as ->. exists set_level, TreeDemo.response.
    change (rendered_structs TreeDemo.ir TreeDemo.placement) with [set_level; TreeDemo.response].
    split_and!; [vm_compute; reflexivity|left|vm_compute; reflexivity|right; left].
Defined.

Lemma emit_all_or_nothing_witness :
  ∃ d' files, TreeDemo.run = (d', inl tt) ∧ touched d' = ["out/tree/types/types_gen.go"; "out/tree/provisioning/set_level.go"] ∧
    renderTree format_integer TreeDemo.format TreeDemo.path_join id TreeDemo.ir TreeDemo.manifest "out" TreeDemo.options = inl files ∧
    ∀ hows', EmitGo format_integer TreeDemo.format TreeDemo.path_join id TreeDemo.temp_name hows' TreeDemo.ir TreeDemo.manifest "out"
               TreeDemo.options d' = (d', inl tt).
Proof.
  destruct TreeDemo.run as [d' r] eqn:E.
  assert (Hc : match TreeDemo.run with
               | (d, inl _) => bool_decide (touched d = ["out/tree/types/types_gen.go"; "out/tree/provisioning/set_level.go"])
               | (_, inr _) => false end = true) by (vm_compute; reflexivity).
  rewrite E in Hc. destruct r as [[]|]; [|discriminate Hc]. apply bool_decide_eq_true in Hc.
  pose proof (emit_all_or_nothing format_integer TreeDemo.format TreeDemo.path_join id TreeDemo.temp_name [] TreeDemo.ir TreeDemo.manifest
                "out" TreeDemo.options TreeDemo.start d' (inl tt)) as H.
  destruct (renderTree _ _ _ _ _ _ _ _) as [files|].
  - exists d', files. split_and!; [done..|]. apply H; [|done|done]. intros p d. apply not_elem_of_dom_1, is_fresh.
  - exfalso. apply H; [|done|done]. intros p d. apply not_elem_of_dom_1, is_fresh.
Defined.
