(* ===== verification/ScTypes.v ===== *)
(** * The schema check: data and type resolution

    src/internal/schemacheck/contract.go, analysis_types.go, resolver.go and the
    classes of main.go: what the check records of a Go field and of a schema
    property, the per-file import bindings and the registries that type
    expressions are resolved with.  A map that is only looked up and written is a
    [gmap]; a nil map reads as an empty one.

    A float64 is a rational number, an infinity or NaN, compared as Go compares
    them. *)

From Stdlib Require Import Ascii QArith.Qcanon.
From S2P Require Import Prelude Ocpp CgIR CgMapping CgSchema.
Local Open Scope string_scope.
Local Open Scope list_scope.

(** ** Classes *)

Definition IDENTICAL : string := "IDENTICAL".
Definition SCHEMA_FAITHFUL_CHANGE : string := "SCHEMA_FAITHFUL_CHANGE".
Definition FORK_BUG : string := "FORK_BUG".
Definition ADDITIVE : string := "ADDITIVE".
Definition OVERRIDE_CANDIDATE : string := "OVERRIDE_CANDIDATE".
Definition STRUCT_VALIDATOR : string := "STRUCT_VALIDATOR".
Definition UNEXPLAINED : string := "UNEXPLAINED".

(** ** Numbers *)

Inductive float64 := Fin (q : Qc) | PosInf | NegInf | NaN.

Definition feq (a b : float64) : bool :=
  match a, b with
  | Fin p, Fin q => bool_decide (p = q)
  | PosInf, PosInf | NegInf, NegInf => true
  | _, _ => false
  end.
Definition flt (a b : float64) : bool :=
  match a, b with
  | Fin p, Fin q => bool_decide (p < q)%Qc
  | Fin _, PosInf | NegInf, Fin _ | NegInf, PosInf => true
  | _, _ => false
  end.
Definition fle (a b : float64) : bool := flt a b || feq a b.

(** [float64(n)]: the nearest value with 53 bits, to even on a tie. *)
Definition round_half_even (n d : Z) : Z :=
  let q := (n / d)%Z in let r := (n mod d)%Z in
  if (2 * r <? d)%Z then q else if (d <? 2 * r)%Z then (q + 1)%Z else if Z.even q then q else (q + 1)%Z.
Definition round53 (n : Z) : Z :=
  let e := (Z.log2 (Z.abs n) - 52)%Z in
  if (e <=? 0)%Z then n else (Z.sgn n * (round_half_even (Z.abs n) (2 ^ e) * 2 ^ e))%Z.
Definition of_int (n : Z) : float64 := Fin (Qc_of_Z (round53 n)).

(** ** Fields *)

Record GoField := mkGoField {
  g_Path : string;
  g_Name : string;
  g_DeclaredType : string;
  g_WireType : string;
  g_Pointer : bool;
  g_Slice : bool;
  g_CustomMarshaled : bool;
  g_ElementType : string;
  g_File : string;
  g_Line : Z;
  g_JSONName : string;
  g_Omitempty : bool;
  g_Validate : list string;
  g_EnumValues : list string;
  g_StructValidators : list string
}.

(** Exactly one of the two is set. *)
Record ExclusiveBound := mkExclusive { x_Bool : option bool; x_Number : option float64 }.

Record Constraints := mkConstraints {
  c_MaxLength : option Z;
  c_MinLength : option Z;
  c_Minimum : option float64;
  c_Maximum : option float64;
  c_ExclusiveMinimum : option ExclusiveBound;
  c_ExclusiveMaximum : option ExclusiveBound;
  c_MinItems : option Z;
  c_MaxItems : option Z;
  c_Pattern : option string;
  c_AdditionalProperties : option bool
}.
Definition no_constraints : Constraints := mkConstraints None None None None None None None None None None.

Record SchemaField := mkSchemaField {
  s_Pointer : string;
  s_Type : option string;
  s_Required : bool;
  s_Format : option string;
  s_Enum : list string;
  s_Constraints : Constraints
}.

Record SchemaProperty := mkSchemaProperty {
  sp_Pointer : string;
  sp_Path : string;
  sp_Name : string;
  sp_Type : string;
  sp_Format : option string;
  sp_Required : bool;
  sp_Enum : list string;
  sp_Constraints : Constraints;
  sp_EnclosingDefinition : string
}.

Record SchemaShape := mkShape {
  sh_Schema : string;
  sh_IdentifierKeyword : string;
  sh_HasDefinitions : bool;
  sh_HasReferences : bool;
  sh_FilenameShape : string
}.

Record SchemaDocument := mkDocument {
  sd_File : string;
  sd_Shape : SchemaShape;
  sd_RootType : string;
  sd_Properties : list SchemaProperty;
  sd_IgnoredKeywords : list string
}.

Record ComparisonInput := mkInput {
  i_Go : GoField;
  i_Schema : SchemaField;
  i_GoPresent : bool;
  i_SchemaPresent : bool;
  i_Detail : string
}.

Record ClassificationResult := mkResult { r_Class : string; r_Rule : string; r_Detail : string; r_Breaking : bool }.

Record FieldSignature := mkSignature {
  f_Present : bool;
  f_Name : string;
  f_DeclaredType : string;
  f_ValidateTag : string;
  f_EnumType : string;
  f_ConstructorSignature : string
}.

Record StructInfo := mkStructInfo { st_Name : string; st_Fields : list GoField; st_Methods : list string }.

Record MethodSetInfo := mkMethodSet {
  ms_TypeName : string;
  ms_Methods : list string;
  ms_FeatureName : string;
  ms_RequestType : string;
  ms_ResponseType : string
}.

Record MarshalerInfo := mkMarshaler { mi_Type : string; mi_File : string; mi_Line : Z }.

(** ** Resolution of types *)

(** [strings.Cut] at a character. *)
Fixpoint cut_at (c : ascii) (before l : list ascii) : option (list ascii * list ascii) :=
  match l with
  | [] => None
  | d :: l' => if bool_decide (d = c) then Some (before, l') else cut_at c (before ++ [d]) l'
  end.
Definition Cut (s : string) (c : ascii) : option (string * string) :=
  (λ p, (of_chars p.1, of_chars p.2)) <$> cut_at c [] (chars s).

Record WireType := mkWireType { wt_Type : string; wt_Format : string }.
Record WireTypeRegistry := mkRegistry { wr_Types : gmap string WireType }.
Definition newWireTypeRegistry : WireTypeRegistry := mkRegistry ∅.
Definition Register (goType : string) (wireType : WireType) (r : WireTypeRegistry) : WireTypeRegistry :=
  mkRegistry (<[goType := wireType]> (wr_Types r)).

Record ImportBinding := mkBinding { ib_Alias : string; ib_Path : string }.
Record TypeResolver := mkResolver { tr_imports : gmap string (list ImportBinding); tr_packages : gmap string string }.
Definition newTypeResolver : TypeResolver := mkResolver ∅ ∅.
Definition RegisterImport (file : string) (binding : ImportBinding) (r : TypeResolver) : TypeResolver :=
  mkResolver (<[file := default [] (tr_imports r !! file) ++ [binding]]> (tr_imports r)) (tr_packages r).
Definition RegisterFile (file importPath : string) (r : TypeResolver) : TypeResolver :=
  mkResolver (tr_imports r) (<[file := importPath]> (tr_packages r)).
Definition PackageOf (r : TypeResolver) (file : string) : result string :=
  match tr_packages r !! file with
  | Some importPath => mret importPath
  | None => fail ("unregistered file: no package registered for " +:+ file)
  end.

Definition Resolve (r : TypeResolver) (file selector : string) : result string :=
  match Cut selector "."%char with
  | Some (prefix, name) =>
      if bool_decide (prefix = "") || bool_decide (name = "") then
        fail ("unknown selector " +:+ quoted selector +:+ " in " +:+ file +:+ ": not a package-qualified selector")
      else
        match head (filter (λ b, ib_Alias b = prefix) (default [] (tr_imports r !! file))) with
        | Some binding => mret (ib_Path binding +:+ "." +:+ name)
        | None => fail ("unknown selector " +:+ quoted selector +:+ " in " +:+ file
                        +:+ ": no import binding registered for alias " +:+ quoted prefix)
        end
  | None => fail ("unknown selector " +:+ quoted selector +:+ " in " +:+ file +:+ ": not a package-qualified selector")
  end.

Record Resolution := mkResolution {
  rs_Resolver : TypeResolver;
  rs_Registry : WireTypeRegistry;
  rs_Enums : gmap string (list string);
  rs_ScalarAliases : gmap string string
}.
Definition newResolution (resolver : TypeResolver) (registry : WireTypeRegistry) : Resolution :=
  mkResolution resolver registry ∅ ∅.
Definition RegisterScalarAlias (identity underlying : string) (r : Resolution) : Resolution :=
  mkResolution (rs_Resolver r) (rs_Registry r) (rs_Enums r) (<[identity := underlying]> (rs_ScalarAliases r)).
Definition scalarAliasFor (r : Resolution) (identity : string) : option string := rs_ScalarAliases r !! identity.
Definition RegisterEnum (tag : string) (values : list string) (r : Resolution) : Resolution :=
  mkResolution (rs_Resolver r) (rs_Registry r) (<[tag := values]> (rs_Enums r)) (rs_ScalarAliases r).
Definition enumRegistry (r : Resolution) : gmap string (list string) := rs_Enums r.

(** ** Tables and tags shared by the walker and the classifier *)

(** A map written as a literal. *)
Fixpoint assoc {A : Type} (key : string) (l : list (string * A)) : option A :=
  match l with [] => None | (k, v) :: l' => if bool_decide (k = key) then Some v else assoc key l' end.

Definition goBasicTypeNames : list (string * string) :=
  [("string", "string"); ("bool", "bool"); ("int", "int"); ("int8", "int8"); ("int16", "int16"); ("int32", "int32");
   ("int64", "int64"); ("uint", "uint"); ("uint8", "uint8"); ("uint16", "uint16"); ("uint32", "uint32");
   ("uint64", "uint64"); ("uintptr", "uintptr"); ("float32", "float32"); ("float64", "float64"); ("byte", "uint8");
   ("rune", "int32")].

(** The tokens before [dive]. *)
Fixpoint fieldLevelValidateTokens (validate : list string) : list string :=
  match validate with
  | [] => []
  | t :: l => if bool_decide (t = "dive") then [] else t :: fieldLevelValidateTokens l
  end.
