(* ===== verification/ScClassify.v ===== *)
(** * The schema check: classification of a field

    src/internal/schemacheck/classify.go.  A helper that returns a result and
    whether it matched returns an option.  [strconv.ParseFloat] and
    [strconv.FormatFloat] are arguments: the first gives the value of a numeral,
    the second only appears in the text of a rule. *)

From Stdlib Require Import Ascii QArith.Qcanon.
From S2P Require Import Prelude Ocpp CgIR CgMapping CgPlacement CgSchema ScTypes.
Local Open Scope string_scope.
Local Open Scope list_scope.

Definition emptyInterfaceType : string := "interface{}".

Definition classified (class rule : string) : ClassificationResult := mkResult class rule "" false.

(** ** Types *)

Definition goIntegerWireTypes : list string :=
  ["int"; "int8"; "int16"; "int32"; "int64"; "uint"; "uint8"; "uint16"; "uint32"; "uint64"; "uintptr"].
Definition goNumberWireTypes : list string := ["float32"; "float64"].
Definition schemaTypeVocabulary : list string := ["string"; "integer"; "number"; "boolean"; "array"; "object"].

Definition normalizeWireType (wireType : string) (slice : bool) : string :=
  if slice then "array"
  else if bool_decide (wireType ∈ schemaTypeVocabulary) then wireType
  else if bool_decide (wireType ∈ goIntegerWireTypes) then "integer"
  else if bool_decide (wireType ∈ goNumberWireTypes) then "number"
  else if bool_decide (wireType = "bool") then "boolean"
  else "object".

Definition isNumericWireType (wireType : string) : bool :=
  bool_decide (normalizeWireType wireType false ∈ ["integer"; "number"]).

(** Whether the field holds its empty value in a way [omitempty] can see. *)
Definition omitemptyCanOmit (field : GoField) : bool :=
  if g_Pointer field || g_Slice field then true
  else
    let declared := TrimPrefix (g_DeclaredType field) "*" in
    if bool_decide (declared = emptyInterfaceType) || bool_decide (declared = "any")
       || HasPrefix declared "map[" || HasPrefix declared "[]" then true
    else if g_CustomMarshaled field then false
    else match assoc declared goBasicTypeNames with
         | Some _ => true
         | None => match assoc (g_WireType field) goBasicTypeNames with Some _ => true | None => false end
         end.

Definition zeroExcludedByFloor (schemaType : string) (c : Constraints) : bool :=
  let zero := Fin 0 in
  if negb (bool_decide (schemaType = "integer")) && negb (bool_decide (schemaType = "number")) then false
  else if match c_Minimum c with Some m => flt zero m | None => false end then true
  else match c_ExclusiveMinimum c with
       | Some x =>
           match x_Number x with Some n => fle zero n | None => false end
           || match x_Bool x, c_Minimum c with Some true, Some m => fle zero m | _, _ => false end
       | None => false
       end.

(** ** What a change breaks *)

Definition breakingPredicate (class : string) (before after : FieldSignature) : result bool :=
  if negb (bool_decide (class = SCHEMA_FAITHFUL_CHANGE)) then mret false
  else if negb (bool_decide (f_Present before = f_Present after)) then mret true
  else if negb (bool_decide (f_Name before = f_Name after)) then mret true
  else if negb (bool_decide (f_DeclaredType before = f_DeclaredType after)) then mret true
  else if negb (bool_decide (f_ConstructorSignature before = f_ConstructorSignature after)) then mret true
  else if negb (bool_decide (f_EnumType before = f_EnumType after)) then mret true
  else mret false.

Definition signature (name declaredType enumType : string) : FieldSignature :=
  mkSignature true name declaredType "" enumType "".

(** The change of the declared type from [actual] to [expected], with the enum
    types of the two signatures. *)
Definition faithful_change (input : ComparisonInput) (expected enumBefore enumAfter rule : string)
    : result ClassificationResult :=
  breaking ← breakingPredicate SCHEMA_FAITHFUL_CHANGE
    (signature (g_Name (i_Go input)) (g_DeclaredType (i_Go input)) enumBefore)
    (signature (g_Name (i_Go input)) expected enumAfter);
  mret (mkResult SCHEMA_FAITHFUL_CHANGE rule "" breaking).

Definition schemaFaithfulShape (input : ComparisonInput) (expected rule : string)
    : result (option ClassificationResult) :=
  r ← faithful_change input expected "" "" rule; mret (Some r).

Definition compareOptionalityShape (input : ComparisonInput) (schemaType : string)
    : result (option ClassificationResult) :=
  let go := i_Go input in
  let stripped := TrimPrefix (g_DeclaredType go) "*" in
  if g_Slice go then
    if bool_decide (schemaType = "array") && g_Pointer go then
      schemaFaithfulShape input stripped
        "array -> slice (a slice already expresses absence, so the mapping wraps it in no pointer)"
    else mret None
  else if negb (bool_decide (schemaType ∈ ["object"; "integer"; "number"; "boolean"])) then mret None
  else if s_Required (i_Schema input) then
    if bool_decide (schemaType = "object") && g_Pointer go then
      schemaFaithfulShape input stripped
        "required composite -> value (the property is always present, so nothing needs a pointer to express absence)"
    else mret None
  else if zeroExcludedByFloor schemaType (s_Constraints (i_Schema input)) then
    if g_Pointer go then
      schemaFaithfulShape input stripped
        ("optional " +:+ schemaType +:+ " whose schema floor excludes zero -> value + omitempty (omitempty is unambiguous, so the pointer expresses nothing the value cannot)")
    else mret None
  else if g_Pointer go then mret None
  else if bool_decide (schemaType = "object") && negb (omitemptyCanOmit go) then
    schemaFaithfulShape input ("*" +:+ g_DeclaredType go)
      "optional composite -> pointer (a struct value always encodes, and omitempty does not apply to structs, so absence cannot be expressed)"
  else if g_Omitempty go && omitemptyCanOmit go then
    schemaFaithfulShape input ("*" +:+ g_DeclaredType go)
      ("optional " +:+ schemaType +:+ " -> pointer (value + omitempty drops "
       +:+ (if bool_decide (schemaType = "boolean") then "false" else "0") +:+ ", which the schema admits)")
  else mret None.

(** ** Value sets *)

(** The loop over [a], with the values already seen. *)
Fixpoint difference_from (b seen a : list string) : list string :=
  match a with
  | [] => []
  | v :: a' =>
      if bool_decide (v ∈ b) || bool_decide (v ∈ seen) then difference_from b seen a'
      else v :: difference_from b (v :: seen) a'
  end.
Definition setDifference (a b : list string) : list string := sort_strings (difference_from b [] a).

Definition compareEnumValueSets (input : ComparisonInput) : option ClassificationResult :=
  let goEnum := g_EnumValues (i_Go input) in
  let schemaEnum := s_Enum (i_Schema input) in
  if bool_decide (goEnum = []) || bool_decide (schemaEnum = []) then None
  else
    let missing := setDifference schemaEnum goEnum in
    let extra := setDifference goEnum schemaEnum in
    if bool_decide (missing = []) && bool_decide (extra = []) then None
    else
      let parts :=
        (if bool_decide (missing = []) then []
         else ["the schema accepts " +:+ Join missing ", " +:+ ", which the hand-written validator rejects"]) ++
        (if bool_decide (extra = []) then []
         else ["the hand-written validator accepts " +:+ Join extra ", " +:+ ", which the schema does not list"]) in
      Some (classified FORK_BUG ("enum value-set drift: " +:+ Join parts "; ")).

(** ** Optionality *)

Definition hasFieldLevelRequired (field : GoField) : bool :=
  bool_decide ("required" ∈ fieldLevelValidateTokens (g_Validate field)).

Definition schema_type (input : ComparisonInput) : string := default "" (s_Type (i_Schema input)).

Definition compareRequiredness (input : ComparisonInput) : option ClassificationResult :=
  let go := i_Go input in
  if negb (s_Required (i_Schema input)) || negb (g_Omitempty go) || negb (omitemptyCanOmit go) then None
  else if hasFieldLevelRequired go then None
  else
    Some (classified FORK_BUG
      ("optionality lie: the schema marks this property required, but the Go field is "
       +:+ (if g_Pointer go then "a pointer" else "a value type")
       +:+ " tagged json omitempty with no required validation, so the encoder omits it at its zero value")).

Definition compareNullEmission (input : ComparisonInput) : option ClassificationResult :=
  let go := i_Go input in
  if s_Required (i_Schema input) || negb (g_Pointer go) || g_Omitempty go then None
  else if hasFieldLevelRequired go then None
  else if bool_decide (schema_type input = "") then None
  else
    Some (classified FORK_BUG
      ("optionality lie: the schema marks this property optional and types it " +:+ schema_type input
       +:+ ", which admits no null, but the Go field is a pointer with no json omitempty, so a nil encodes as null instead of being omitted")).

(** ** Bounds *)

Section classify.
Context (ParseFloat : string → option float64) (FormatFloat : float64 → string).

Definition formatNumber (v : float64) : string := FormatFloat v.
Definition intToFloat (v : option Z) : option float64 := of_int <$> v.

(** The numbers of the tokens, the last one of a name kept. *)
Definition add_number (values : gmap string float64) (tok : string) : gmap string float64 :=
  match Cut tok "="%char with
  | Some (key, raw) => match ParseFloat raw with Some n => <[key := n]> values | None => values end
  | None => values
  end.
Definition parseValidateNumbers (validate : list string) : gmap string float64 := foldl add_number ∅ validate.

Definition schemaBoundForKind (input : ComparisonInput) (upper : bool) : string * option float64 :=
  let c := s_Constraints (i_Schema input) in
  if g_Slice (i_Go input) then
    if upper then ("maxItems", intToFloat (c_MaxItems c)) else ("minItems", intToFloat (c_MinItems c))
  else if isNumericWireType (g_WireType (i_Go input)) then
    if upper then ("maximum", c_Maximum c) else ("minimum", c_Minimum c)
  else
    if upper then ("maxLength", intToFloat (c_MaxLength c)) else ("minLength", intToFloat (c_MinLength c)).

Record goBound := mkGoBound { gb_token : string; gb_value : float64; gb_exclusive : bool }.
Definition describe (b : goBound) : string := gb_token b +:+ "=" +:+ formatNumber (gb_value b).

Definition upperBoundTokens : list string := ["max"; "lte"; "lt"; "len"].
Definition lowerBoundTokens : list string := ["min"; "gte"; "gt"; "len"].
Definition exclusiveBoundTokens : list string := ["gt"; "lt"].

Definition tighterBound (candidate incumbent : goBound) (upper : bool) : bool :=
  if negb (feq (gb_value candidate) (gb_value incumbent)) then
    if upper then flt (gb_value candidate) (gb_value incumbent) else flt (gb_value incumbent) (gb_value candidate)
  else gb_exclusive candidate && negb (gb_exclusive incumbent).

(** One candidate of the loop. *)
Definition tighten (tokens : gmap string float64) (upper : bool) (tightest : option goBound) (token : string)
    : option goBound :=
  match tokens !! token with
  | None => tightest
  | Some value =>
      let candidate := mkGoBound token value (bool_decide (token ∈ exclusiveBoundTokens)) in
      match tightest with
      | Some t => if tighterBound candidate t upper then Some candidate else tightest
      | None => Some candidate
      end
  end.
Definition effectiveGoBound (tokens : gmap string float64) (upper : bool) : option goBound :=
  foldl (tighten tokens upper) None (if upper then upperBoundTokens else lowerBoundTokens).

Inductive boundVerdict := boundSame | boundStricter | boundLooser.

Definition compareBoundToSchema (bound : goBound) (schemaValue : float64) (upper : bool) : boundVerdict :=
  if feq (gb_value bound) schemaValue then if gb_exclusive bound then boundStricter else boundSame
  else if bool_decide (upper = flt (gb_value bound) schemaValue) then boundStricter else boundLooser.

Definition stricterResult (bound : goBound) (schemaName schemaValue : string) : ClassificationResult :=
  classified OVERRIDE_CANDIDATE
    ("hand-written constraint " +:+ describe bound +:+ " is stricter than schema " +:+ schemaName +:+ "="
     +:+ schemaValue +:+ " and looks deliberate").
Definition looserResult (bound : goBound) (schemaName schemaValue : string) : ClassificationResult :=
  classified FORK_BUG
    ("hand-written constraint " +:+ describe bound +:+ " is looser than schema " +:+ schemaName +:+ "=" +:+ schemaValue).

(** One round of the loop over the two directions. *)
Definition compare_direction (input : ComparisonInput) (tokens : gmap string float64) (upper : bool)
    : option ClassificationResult :=
  let '(schemaName, schemaValue) := schemaBoundForKind input upper in
  match effectiveGoBound tokens upper, schemaValue with
  | Some b, Some v =>
      match compareBoundToSchema b v upper with
      | boundStricter => Some (stricterResult b schemaName (formatNumber v))
      | boundLooser => Some (looserResult b schemaName (formatNumber v))
      | boundSame => None
      end
  | Some b, None => Some (stricterResult b schemaName "no bound")
  | None, Some v =>
      Some (classified FORK_BUG
        ("hand-written code declares no " +:+ schemaName +:+ " bound where the schema sets " +:+ schemaName +:+ "="
         +:+ formatNumber v +:+ ", so it is looser than the schema"))
  | None, None => None
  end.

Definition bound_tokens (field : GoField) : gmap string float64 :=
  parseValidateNumbers (fieldLevelValidateTokens (g_Validate field)).

Definition compareConstraints (input : ComparisonInput) : option ClassificationResult :=
  let tokens := bound_tokens (i_Go input) in
  match compare_direction input tokens true with
  | Some r => Some r
  | None => compare_direction input tokens false
  end.

(** ** Syntax *)

Definition hostnames : list string := ["hostname"; "idn-hostname"].
Definition syntaxTokenFormats : list (string * list string) :=
  [("alpha", []); ("alphanum", []); ("alphaunicode", []); ("alphanumunicode", []); ("numeric", []); ("number", []);
   ("hexadecimal", []); ("hexcolor", []); ("rgb", []); ("rgba", []); ("hsl", []); ("hsla", []); ("e164", []);
   ("email", ["email"; "idn-email"]); ("url", ["uri"; "iri"]);
   ("uri", ["uri"; "uri-reference"; "iri"; "iri-reference"]); ("urn_rfc2141", ["uri"]); ("file", []); ("base64", []);
   ("base64url", []); ("isbn", []); ("isbn10", []); ("isbn13", []); ("eth_addr", []); ("btc_addr", []);
   ("btc_addr_bech32", []); ("uuid", ["uuid"]); ("uuid3", ["uuid"]); ("uuid4", ["uuid"]); ("uuid5", ["uuid"]);
   ("uuid_rfc4122", ["uuid"]); ("uuid3_rfc4122", ["uuid"]); ("uuid4_rfc4122", ["uuid"]); ("uuid5_rfc4122", ["uuid"]);
   ("ascii", []); ("printascii", []); ("multibyte", []); ("datauri", []); ("latitude", []); ("longitude", []);
   ("ssn", []); ("ipv4", ["ipv4"]); ("ipv6", ["ipv6"]); ("ip", ["ipv4"; "ipv6"]); ("cidrv4", []); ("cidrv6", []);
   ("cidr", []); ("tcp4_addr", []); ("tcp6_addr", []); ("tcp_addr", []); ("udp4_addr", []); ("udp6_addr", []);
   ("udp_addr", []); ("ip4_addr", ["ipv4"]); ("ip6_addr", ["ipv6"]); ("ip_addr", ["ipv4"; "ipv6"]); ("unix_addr", []);
   ("mac", []); ("hostname", hostnames); ("hostname_rfc1123", hostnames); ("fqdn", hostnames); ("html", []);
   ("html_encoded", []); ("url_encoded", []); ("dir", [])].

Definition describeSchemaFormat (schemaFormat : string) : string :=
  if bool_decide (schemaFormat = "") then "no format" else "format=" +:+ schemaFormat.
Definition containsString (values : list string) (want : string) : bool := existsb (λ v, bool_decide (v = want)) values.

Definition token_name (token : string) : string := match Cut token "="%char with Some (n, _) => n | None => token end.

(** The first syntax token the format does not state. *)
Fixpoint syntax_beyond (schemaFormat : string) (tokens : list string) : option string :=
  match tokens with
  | [] => None
  | token :: l =>
      match assoc (token_name token) syntaxTokenFormats with
      | None => syntax_beyond schemaFormat l
      | Some counterparts =>
          if negb (bool_decide (schemaFormat = "")) && containsString counterparts schemaFormat
          then syntax_beyond schemaFormat l else Some (token_name token)
      end
  end.

Definition compareSemanticConstraints (input : ComparisonInput) : option ClassificationResult :=
  if negb (bool_decide (s_Type (i_Schema input) = Some "string")) then None
  else
    let schemaFormat := default "" (s_Format (i_Schema input)) in
    (λ name, classified OVERRIDE_CANDIDATE
       ("hand-written constraint " +:+ name +:+ " restricts the value's syntax where the schema declares "
        +:+ describeSchemaFormat schemaFormat +:+ ", so it is stricter than the schema and looks deliberate"))
    <$> syntax_beyond schemaFormat (fieldLevelValidateTokens (g_Validate (i_Go input))).

(** ** The classifier *)

Definition generatedEnumType : string := "generated named enum type".

(** The declared type of a string property. *)
Definition compare_date_time (input : ComparisonInput) : result ClassificationResult :=
  let go := i_Go input in
  let strippedDeclared := TrimPrefix (g_DeclaredType go) "*" in
  if negb (bool_decide (strippedDeclared = g_WireType go)) && negb (g_Pointer go) then
    faithful_change input "*types.DateTime" "" ""
      "string format:date-time -> *types.DateTime (value modelled where the mapping is a pointer)"
  else if bool_decide (strippedDeclared = g_WireType go) then
    faithful_change input "*types.DateTime" "" "" "string format:date-time -> *types.DateTime"
  else mret (classified IDENTICAL "").

(** A declared type other than [string]. *)
Definition compare_string (input : ComparisonInput) : result ClassificationResult :=
  let go := i_Go input in
  let actualBase := TrimPrefix (g_DeclaredType go) "*" in
  if bool_decide (actualBase = "string") then
    faithful_change input "string" "" ""
      ((if s_Required (i_Schema input) then "required" else "optional") +:+ " string -> value + omitempty")
  else if negb (bool_decide (g_EnumValues go = [])) && negb (bool_decide (s_Enum (i_Schema input) = [])) then
    faithful_change input generatedEnumType actualBase generatedEnumType "string enum -> named enum type"
  else mret (classified UNEXPLAINED "").

Definition compare_untyped (input : ComparisonInput) : result ClassificationResult :=
  let actual := g_DeclaredType (i_Go input) in
  if bool_decide (actual = emptyInterfaceType) || bool_decide (actual = "any") then
    mret (classified IDENTICAL ("untyped property -> " +:+ emptyInterfaceType))
  else faithful_change input emptyInterfaceType "" "" ("untyped property -> " +:+ emptyInterfaceType).

(** The declared-type shape, when nothing before has settled the field. *)
Definition compare_shape (input : ComparisonInput) : result ClassificationResult :=
  let schemaType := schema_type input in
  let dateTime := bool_decide (s_Format (i_Schema input) = Some "date-time") in
  if bool_decide (schemaType = "string") && dateTime then compare_date_time input
  else if bool_decide (schemaType = "string") && negb (bool_decide (g_DeclaredType (i_Go input) = "string")) then
    compare_string input
  else if bool_decide (schemaType = "") then compare_untyped input
  else
    r ← compareOptionalityShape input schemaType;
    mret (default (classified IDENTICAL "") r).

Definition wrong_type (input : ComparisonInput) : option ClassificationResult :=
  let schemaType := schema_type input in
  let wireType := if bool_decide (g_WireType (i_Go input) = "") then ""
                  else normalizeWireType (g_WireType (i_Go input)) (g_Slice (i_Go input)) in
  if negb (bool_decide (schemaType = "")) && negb (bool_decide (wireType = ""))
     && negb (bool_decide (wireType = schemaType)) then
    Some (classified FORK_BUG
      ("wrong type: hand-written wire type " +:+ quoted (g_WireType (i_Go input)) +:+ " (schema vocabulary "
       +:+ quoted wireType +:+ ") does not match schema type " +:+ quoted schemaType))
  else None.

(** The checks in their order, the first that matches. *)
Definition compare_both (input : ComparisonInput) : result ClassificationResult :=
  let validators := g_StructValidators (i_Go input) in
  if negb (bool_decide (validators = [])) then
    mret (classified STRUCT_VALIDATOR
      ("cross-field struct validation rule " +:+ Join validators ", "
       +:+ " has no schema counterpart and needs human adjudication"))
  else
    match head (omap id [wrong_type input; compareEnumValueSets input; compareRequiredness input;
                         compareNullEmission input; compareConstraints input; compareSemanticConstraints input]) with
    | Some r => mret r
    | None => compare_shape input
    end.

Definition classifyField (input : ComparisonInput) : result ClassificationResult :=
  match i_GoPresent input, i_SchemaPresent input with
  | false, false =>
      fail ("classify field " +:+ g_JSONName (i_Go input) +:+ ": neither the Go tree nor the schema declares it")
  | true, false =>
      mret (classified FORK_BUG
        "Go field not in schema: the hand-written struct declares a field the schema does not authorize")
  | false, true =>
      if s_Required (i_Schema input) then
        mret (classified FORK_BUG
          "schema-required field missing from Go: the schema marks it required but the hand-written struct has no field for it")
      else
        mret (classified ADDITIVE
          "schema has this optional field; a schema-faithful struct would gain it and nothing that exists today would break")
  | true, true => compare_both input
  end.
End classify.
