(* ===== verification/ScClassifyTheorems.v ===== *)
(** * The schema check: what a class says of a field *)

From Stdlib Require Import Ascii QArith QArith.Qcanon Lqa.
From S2P Require Import Prelude Ocpp CgIR CgMapping CgPlacement CgSchema ScTypes ScClassify.
Local Open Scope string_scope.
Local Open Scope list_scope.

(** ** Rational arithmetic *)

Lemma Qc_eq_Qeq (p q : Qc) : p = q ↔ Qeq p q.
Proof. split; [by intros ->|apply Qc_is_canon]. Qed.

(** Linear arithmetic on [Qc], through [Q]. *)
Ltac qc_lra :=
  repeat match goal with
         | H : context [@eq Qc _ _] |- _ => rewrite Qc_eq_Qeq in H
         | |- context [@eq Qc _ _] => rewrite Qc_eq_Qeq
         end;
  unfold Qcle, Qclt in *; lra.

Lemma this_Qc (q : Q) : Qeq (Q2Qc q) q.
Proof. apply Qred_correct. Qed.

Definition above (v : Qc) : Qc := Q2Qc (v + 1)%Q.
Definition below (v : Qc) : Qc := Q2Qc (v - 1)%Q.
Definition middle (v w : Qc) : Qc := Q2Qc ((v + w) * (1 # 2))%Q.
Lemma above_spec v : (v < above v)%Qc.
Proof. pose proof (this_Qc (v + 1)%Q) as H. unfold above, Qclt. lra. Qed.
Lemma below_spec v : (below v < v)%Qc.
Proof. pose proof (this_Qc (v - 1)%Q) as H. unfold below, Qclt. lra. Qed.
Lemma middle_spec v w : (v < w)%Qc → (v < middle v w)%Qc ∧ (middle v w < w)%Qc.
Proof. pose proof (this_Qc ((v + w) * (1 # 2))%Q) as H. unfold middle, Qclt. intros. split; lra. Qed.

(** ** The values a tag and a schema admit *)

(** The half-line of a bound. *)
Definition side (upper exclusive : bool) (v x : Qc) : Prop :=
  match upper, exclusive with
  | true, true => x < v
  | true, false => x ≤ v
  | false, true => v < x
  | false, false => v ≤ x
  end%Qc.

(** ** What a field puts on the wire

    [encoding/json] by the Go type of a field.  The wire type is a builtin type, the
    JSON type that a registered marshaller writes, or the name of a struct; [byte]
    and [rune] have been replaced by the types they stand for. *)
Definition json_types : list (string * string) :=
  [("string", "string"); ("bool", "boolean"); ("int", "integer"); ("int8", "integer"); ("int16", "integer");
   ("int32", "integer"); ("int64", "integer"); ("uint", "integer"); ("uint8", "integer"); ("uint16", "integer");
   ("uint32", "integer"); ("uint64", "integer"); ("uintptr", "integer"); ("float32", "number"); ("float64", "number");
   ("integer", "integer"); ("number", "number"); ("boolean", "boolean"); ("array", "array"); ("object", "object")].
Definition json_type_of (wireType : string) : string := default "object" (assoc wireType json_types).
Definition any_json : list string := ["string"; "boolean"; "integer"; "number"; "array"; "object"].
Definition interface (t : string) : bool := bool_decide (t ∈ ["interface{}"; "any"]).

(** The JSON types of what is written, other than null: that of the declared type,
    any of them for an interface. *)
Definition writes (field : GoField) (t : string) : Prop :=
  if g_Slice field then t = "array"
  else if interface (g_WireType field) then t ∈ any_json
  else t = json_type_of (g_WireType field).
Definition numeric (field : GoField) : bool := bool_decide (json_type_of (g_WireType field) ∈ ["integer"; "number"]).

Lemma json_type_normalized w : normalizeWireType w false = json_type_of w.
Proof.
  unfold normalizeWireType, json_type_of. destruct (decide (w ∈ json_types.*1)) as [Hin|Hin].
  - simpl in Hin. repeat (apply elem_of_cons in Hin as [->|Hin]; [by vm_compute|]). by apply elem_of_nil in Hin.
  - assert (assoc w json_types = None) as ->.
    { clear -Hin. induction json_types as [|[k v] l IH]; simpl in *; [done|]. apply not_elem_of_cons in Hin as [Hk Hin].
      rewrite ?decide_False, ?bool_decide_false by congruence. by apply IH. }
    simpl in Hin. repeat (apply not_elem_of_cons in Hin as [? Hin]).
    rewrite !bool_decide_false; [done|..]; [done|set_solver..].
Qed.
Lemma numeric_wire field : isNumericWireType (g_WireType field) = numeric field.
Proof. unfold isNumericWireType, numeric. by rewrite json_type_normalized. Qed.

Section bounds.
Context (ParseFloat : string → option float64) (FormatFloat : float64 → string).

(** The bounds of a tag: the names and numbers of its tokens. *)
Definition numbers (tokens : list string) : list (string * float64) :=
  omap (λ tok, '(key, raw) ← Cut tok "="%char; n ← ParseFloat raw; Some (key, n)) tokens.

(** What the validator requires of a count, a number or a length [x], from above
    or from below: every token that bounds it in that direction passes. *)
Definition go_admits (field : GoField) (upper : bool) (x : Qc) : Prop :=
  ∀ key v, (key, Fin v) ∈ numbers (fieldLevelValidateTokens (g_Validate field)) →
    (key ∈ (if upper then ["max"; "lte"; "len"] else ["min"; "gte"; "len"]) → side upper false v x) ∧
    (key = (if upper then "lt" else "gt") → side upper true v x).

(** What the schema requires of it: the keyword for the kind of the field, and for
    numbers the exclusive bounds, as a flag on the keyword (draft-04) or as a number
    (draft-06). *)
Definition schema_keyword (input : ComparisonInput) (upper : bool) : option Qc :=
  let c := s_Constraints (i_Schema input) in
  let number (f : option float64) := match f with Some (Fin v) => Some v | _ => None end in
  if g_Slice (i_Go input) then Qc_of_Z <$> (if upper then c_MaxItems c else c_MinItems c)
  else if numeric (i_Go input) then number (if upper then c_Maximum c else c_Minimum c)
  else Qc_of_Z <$> (if upper then c_MaxLength c else c_MinLength c).
Definition schema_exclusive (input : ComparisonInput) (upper : bool) : option ExclusiveBound :=
  let c := s_Constraints (i_Schema input) in
  if negb (g_Slice (i_Go input)) && numeric (i_Go input) then if upper then c_ExclusiveMaximum c else c_ExclusiveMinimum c
  else None.
Definition schema_admits (input : ComparisonInput) (upper : bool) (x : Qc) : Prop :=
  let exclusive := schema_exclusive input upper in
  match schema_keyword input upper with
  | Some v => side upper (bool_decide ((exclusive ≫= x_Bool) = Some true)) v x
  | None => True
  end ∧
  match exclusive ≫= x_Number with Some (Fin v) => side upper true v x | Some _ => False | None => True end.

(** The numbers are finite, no token occurs twice, the integers of the schema are
    exact as float64, and the schema has no exclusive bound (see
    [exclusive_schema_bound_unseen]; on the corpus of the self-checks the check M7
    makes sure of it). *)
Definition bounds_regular (input : ComparisonInput) : Prop :=
  let c := s_Constraints (i_Schema input) in
  (∀ key v, (key, v) ∈ numbers (fieldLevelValidateTokens (g_Validate (i_Go input))) → ∃ q, v = Fin q) ∧
  NoDup (numbers (fieldLevelValidateTokens (g_Validate (i_Go input)))).*1 ∧
  (∀ v, c_Minimum c = Some v ∨ c_Maximum c = Some v → ∃ q, v = Fin q) ∧
  (∀ n, n ∈ omap id [c_MaxLength c; c_MinLength c; c_MinItems c; c_MaxItems c] → (Z.abs n < 2 ^ 53)%Z) ∧
  c_ExclusiveMinimum c = None ∧ c_ExclusiveMaximum c = None.

Definition strictly_fewer (A B : Qc → Prop) : Prop := (∀ x, A x → B x) ∧ ∃ x, B x ∧ ¬ A x.

(** ** Lemmas *)

Lemma add_numbers_eq l (acc : gmap string float64) :
  foldl (add_number ParseFloat) acc l = foldl (λ m kv, <[kv.1 := kv.2]> m) acc (numbers l).
Proof.
  revert acc. induction l as [|tok l IH]; intros acc; simpl; [done|]. rewrite IH. unfold add_number.
  destruct (Cut tok "="%char) as [[key raw]|]; simpl; [|done]. by destruct (ParseFloat raw).
Qed.

Lemma foldl_insert_lookup (l : list (string * float64)) : ∀ acc : gmap string float64,
  NoDup l.*1 → (∀ k, k ∈ l.*1 → acc !! k = None) →
  ∀ k v, foldl (λ m kv, <[kv.1 := kv.2]> m) acc l !! k = Some v ↔ (k, v) ∈ l ∨ acc !! k = Some v.
Proof.
  induction l as [|[k0 v0] l IH]; intros acc Hnd Hacc k v; simpl.
  { split; [by right|]. intros [H|H]; [by apply elem_of_nil in H|done]. }
  apply NoDup_cons in Hnd as [Hk0 Hnd]. rewrite IH; [|done|].
  2: { intros k' Hk'. rewrite lookup_insert_ne; [apply Hacc; by right|]. intros ->. done. }
  rewrite elem_of_cons, lookup_insert_Some, pair_equal_spec.
  assert (Hn : acc !! k0 = None) by (apply Hacc; left). naive_solver congruence.
Qed.

Lemma bound_tokens_lookup field k v :
  NoDup (numbers (fieldLevelValidateTokens (g_Validate field))).*1 →
  bound_tokens ParseFloat field !! k = Some v ↔ (k, v) ∈ numbers (fieldLevelValidateTokens (g_Validate field)).
Proof.
  intros Hnd. unfold bound_tokens, parseValidateNumbers. rewrite add_numbers_eq, foldl_insert_lookup;
    [|done|done]. rewrite lookup_empty. naive_solver.
Qed.

Definition admits (b : option goBound) (upper : bool) (x : Qc) : Prop :=
  match b with
  | Some (mkGoBound _ (Fin v) e) => side upper e v x
  | Some _ => False
  | None => True
  end.

Lemma tighter_admits c t upper v w x :
  gb_value c = Fin v → gb_value t = Fin w →
  admits (Some (if tighterBound c t upper then c else t)) upper x ↔
  side upper (gb_exclusive c) v x ∧ side upper (gb_exclusive t) w x.
Proof.
  destruct c as [ct cv ce], t as [tt tv te]; simpl. intros -> ->. unfold tighterBound; simpl.
  destruct (bool_decide_reflect (v = w)) as [->|Hne]; simpl.
  - destruct upper, ce, te; simpl; unfold Qcle, Qclt in *; lra.
  - assert (Hlt : (v < w ∨ w < v)%Qc) by (destruct (Q_dec v w) as [[?|?]|?]; [by left|by right|by apply Qc_is_canon in q]).
    destruct upper; case_bool_decide; destruct ce, te; simpl; unfold Qcle, Qclt in *; lra.
Qed.

Lemma tighten_admits (tokens : gmap string float64) upper x :
  (∀ k v, tokens !! k = Some v → ∃ q, v = Fin q) →
  ∀ l acc, (∀ b, acc = Some b → ∃ q, gb_value b = Fin q) →
  (admits (foldl (tighten tokens upper) acc l) upper x ↔
     admits acc upper x ∧
     ∀ k v, k ∈ l → tokens !! k = Some (Fin v) → side upper (bool_decide (k ∈ exclusiveBoundTokens)) v x) ∧
  (∀ b, foldl (tighten tokens upper) acc l = Some b → ∃ q, gb_value b = Fin q).
Proof.
  intros Hfin l. induction l as [|k l IH]; intros acc Hacc; simpl; [split; [set_solver|done]|].
  unfold tighten at 2 4. destruct (tokens !! k) as [value|] eqn:Hk; simpl.
  2: { destruct (IH acc Hacc) as [IH1 IH2]. split; [|done]. rewrite IH1. set_solver. }
  destruct (Hfin _ _ Hk) as [q ->].
  destruct acc as [[at0 av ae]|]; simpl.
  - destruct (Hacc _ eq_refl) as [w Hw]. simpl in Hw. subst av.
    set (c := mkGoBound k (Fin q) (bool_decide (k ∈ exclusiveBoundTokens))).
    set (t := mkGoBound at0 (Fin w) ae).
    pose proof (tighter_admits c t upper q w x eq_refl eq_refl) as Ht.
    destruct (IH (Some (if tighterBound c t upper then c else t))) as [IH1 IH2].
    { intros b [= <-]. destruct (tighterBound c t upper); eauto. }
    assert ((if tighterBound c t upper then Some c else Some t) = Some (if tighterBound c t upper then c else t)) as ->
      by by destruct (tighterBound c t upper).
    split; [|done]. rewrite IH1, Ht. set_solver.
  - destruct (IH (Some (mkGoBound k (Fin q) (bool_decide (k ∈ exclusiveBoundTokens))))) as [IH1 IH2].
    { intros b [= <-]. eauto. }
    split; [|done]. rewrite IH1. simpl. set_solver.
Qed.

Lemma of_int_exact n : (Z.abs n < 2 ^ 53)%Z → of_int n = Fin (Qc_of_Z n).
Proof.
  intros Hn. unfold of_int, round53. destruct (Z.eq_dec n 0) as [->|Hn0]; [done|].
  assert (Z.log2 (Z.abs n) < 53)%Z by (apply Z.log2_lt_pow2; lia).
  destruct (Z.leb_spec (Z.log2 (Z.abs n) - 52) 0); [done|lia].
Qed.

Lemma schema_bound_exact input upper :
  bounds_regular input → (schemaBoundForKind input upper).2 = Fin <$> schema_keyword input upper.
Proof.
  intros (_ & _ & Hnum & Hint & _). unfold schemaBoundForKind, schema_keyword, intToFloat. rewrite numeric_wire.
  set (c := s_Constraints (i_Schema input)) in *.
  assert (Hi : ∀ v, v ∈ [c_MaxLength c; c_MinLength c; c_MinItems c; c_MaxItems c] →
                    of_int <$> v = Fin <$> (Qc_of_Z <$> v)).
  { intros [n|] Hv; simpl; [|done]. f_equal. apply of_int_exact, Hint. apply list_elem_of_omap. eauto. }
  assert (Hf : ∀ f, f = c_Minimum c ∨ f = c_Maximum c →
                    f = Fin <$> match f with Some (Fin v) => Some v | _ => None end).
  { intros [v|] Hv; [|done]. destruct (Hnum v) as [q ->]; [|done]. destruct Hv as [->| ->]; auto. }
  destruct (g_Slice _); [destruct upper; apply Hi; set_solver|].
  destruct (numeric _); destruct upper; simpl; first [apply Hi; set_solver|apply Hf; auto].
Qed.

(** Without exclusive bounds the keyword decides. *)
Lemma schema_admits_keyword input upper :
  bounds_regular input → pointwise_relation Qc iff (schema_admits input upper)
    (λ x, match schema_keyword input upper with Some v => side upper false v x | None => True end).
Proof.
  intros (_ & _ & _ & _ & Hmin & Hmax) x. unfold schema_admits, schema_exclusive. rewrite Hmin, Hmax.
  destruct (_ && _), upper; simpl; destruct (schema_keyword input _); tauto.
Qed.

Lemma go_admits_effective input upper x :
  bounds_regular input →
  go_admits (i_Go input) upper x ↔ admits (effectiveGoBound (bound_tokens ParseFloat (i_Go input)) upper) upper x.
Proof.
  intros (Hfin & Hnd & _). unfold effectiveGoBound.
  assert (Hl : ∀ k v, bound_tokens ParseFloat (i_Go input) !! k = Some v ↔
                      (k, v) ∈ numbers (fieldLevelValidateTokens (g_Validate (i_Go input))))
    by (intros; by apply bound_tokens_lookup).
  destruct (tighten_admits (bound_tokens ParseFloat (i_Go input)) upper x
              ltac:(intros k v H; apply Hl in H; by eapply Hfin)
              (if upper then upperBoundTokens else lowerBoundTokens) None ltac:(done)) as [-> _].
  unfold go_admits. simpl. split.
  - intros H. split; [done|]. intros k v Hk Hv. apply Hl in Hv. destruct (H k v Hv) as [H1 H2].
    destruct upper; simpl in Hk; repeat (apply elem_of_cons in Hk as [->|Hk]); try by apply elem_of_nil in Hk.
    all: first [apply H1; set_solver|by apply H2].
  - intros [_ H] k v Hv. apply Hl in Hv. split.
    + intros Hk. destruct upper; simpl in Hk; repeat (apply elem_of_cons in Hk as [->|Hk]);
        try by apply elem_of_nil in Hk. all: refine (H _ _ _ Hv); set_solver.
    + intros ->. destruct upper; refine (H _ _ _ Hv); set_solver.
Qed.

Lemma effective_finite input upper b :
  bounds_regular input → effectiveGoBound (bound_tokens ParseFloat (i_Go input)) upper = Some b →
  ∃ t q e, b = mkGoBound t (Fin q) e.
Proof.
  intros (Hfin & Hnd & _) Hb. unfold effectiveGoBound in Hb.
  destruct (tighten_admits (bound_tokens ParseFloat (i_Go input)) upper 0%Qc
              ltac:(intros k v H; apply bound_tokens_lookup in H; [by eapply Hfin|done])
              (if upper then upperBoundTokens else lowerBoundTokens) None ltac:(done)) as [_ Hf].
  destruct (Hf b Hb) as [q Hq]. destruct b as [t v e]. simpl in Hq. subst. eauto.
Qed.

(** The verdict on one direction is that of the admitted values. *)
Lemma verdict_exact t v e s upper :
  let go := side upper e v in let schema := side upper false s in
  match compareBoundToSchema (mkGoBound t (Fin v) e) (Fin s) upper with
  | boundSame => ∀ x, go x ↔ schema x
  | boundStricter => strictly_fewer go schema
  | boundLooser => strictly_fewer schema go
  end.
Proof.
  unfold compareBoundToSchema; simpl.
  destruct (bool_decide_reflect (v = s)) as [->|Hne]; simpl.
  { destruct e; [|done]. split; [|exists s]; intros; destruct upper; simpl in *; unfold Qcle, Qclt in *; lra. }
  assert (Hlt : (v < s ∨ s < v)%Qc) by (destruct (Q_dec v s) as [[?|?]|?]; [by left|by right|by apply Qc_is_canon in q]).
  assert (Hm : ∀ a b : Qc, (a < b)%Qc → ∃ m, (a < m)%Qc ∧ (m < b)%Qc) by (intros a b H; exists (middle a b); by apply middle_spec).
  destruct upper; case_bool_decide as E1; case_bool_decide as E2; try done; destruct Hlt as [Hlt|Hlt]; try done;
    destruct (Hm _ _ Hlt) as (m & Hm1 & Hm2).
  all: unfold strictly_fewer; split; [|exists m]; intros; destruct e; simpl in *; unfold Qcle, Qclt in *; try split; try lra.
Qed.

#[local] Instance strictly_fewer_proper :
  Proper (pointwise_relation Qc iff ==> pointwise_relation Qc iff ==> iff) strictly_fewer.
Proof.
  intros A A' HA B B' HB. unfold strictly_fewer. setoid_rewrite (HA _). setoid_rewrite (HB _). done.
Qed.

Lemma half_line_proper upper e v : strictly_fewer (side upper e v) (λ _, True).
Proof.
  pose proof (above_spec v). pose proof (below_spec v).
  split; [done|]. exists (if upper then above v else below v). split; [done|].
  destruct upper, e; simpl; unfold Qcle, Qclt in *; lra.
Qed.

Lemma direction_exact input upper :
  bounds_regular input →
  match compare_direction FormatFloat input (bound_tokens ParseFloat (i_Go input)) upper with
  | None => ∀ x, go_admits (i_Go input) upper x ↔ schema_admits input upper x
  | Some r => (r_Class r = OVERRIDE_CANDIDATE ∧ strictly_fewer (go_admits (i_Go input) upper) (schema_admits input upper)) ∨
              (r_Class r = FORK_BUG ∧ strictly_fewer (schema_admits input upper) (go_admits (i_Go input) upper))
  end.
Proof.
  intros Hreg. pose proof (λ x, go_admits_effective input upper x Hreg) as Hgo.
  pose proof (schema_bound_exact input upper Hreg) as Hs.
  pose proof (λ b, effective_finite input upper b Hreg) as Hfin.
  change (pointwise_relation Qc iff (go_admits (i_Go input) upper)
    (admits (effectiveGoBound (bound_tokens ParseFloat (i_Go input)) upper) upper)) in Hgo.
  pose proof (schema_admits_keyword input upper Hreg) as Hsa. unfold compare_direction.
  destruct (schemaBoundForKind input upper) as [name value]. simpl in Hs. subst value.
  destruct (effectiveGoBound (bound_tokens ParseFloat (i_Go input)) upper) as [b|].
  - destruct (Hfin b eq_refl) as (t & q & e & ->).
    destruct (schema_keyword input upper) as [v|]; simpl in *.
    + pose proof (verdict_exact t q e v upper) as Hv. simpl in Hv.
      destruct (compareBoundToSchema _ _ _); [intros x; rewrite (Hgo x), (Hsa x); apply Hv|left|right]; (split; [done|]);
        by rewrite Hgo, Hsa.
    + left. split; [done|]. rewrite Hgo, Hsa. apply half_line_proper.
  - destruct (schema_keyword input upper) as [v|]; simpl in *; [|intros x; by rewrite (Hgo x), (Hsa x)].
    right. split; [done|]. rewrite Hgo, Hsa. apply half_line_proper.
Qed.

(** The class of a bound. *)
Definition bound_verdict (input : ComparisonInput) (r : option ClassificationResult) : Prop :=
  match r with
  | None => ∀ upper x, go_admits (i_Go input) upper x ↔ schema_admits input upper x
  | Some r =>
      ∃ upper,
        (r_Class r = OVERRIDE_CANDIDATE ∧ strictly_fewer (go_admits (i_Go input) upper) (schema_admits input upper)) ∨
        (r_Class r = FORK_BUG ∧ strictly_fewer (schema_admits input upper) (go_admits (i_Go input) upper))
  end.

Lemma bound_comparison_sound input :
  bounds_regular input → bound_verdict input (compareConstraints ParseFloat FormatFloat input).
Proof.
  intros Hreg. pose proof (direction_exact input true Hreg) as Hu. pose proof (direction_exact input false Hreg) as Hl.
  unfold compareConstraints. destruct (compare_direction FormatFloat input _ true); [by exists true|].
  destruct (compare_direction FormatFloat input _ false); [by exists false|]. by intros [].
Qed.

(** The bounds of a tag and those of the schema are compared exactly, from
    above and from below: no difference is reported only if they admit the same
    values; one reported as stricter means that the tag admits strictly fewer
    values than the schema in one direction, one reported as a bug strictly more.
    The numbers are finite, no token occurs twice and the schema has no exclusive
    bound; bounds are intervals of rational numbers. *)
Theorem bounds_compared input :
  bounds_regular input → bound_verdict input (compareConstraints ParseFloat FormatFloat input).
Proof. apply bound_comparison_sound. Qed.

(** ** Conforming fields *)

(** What a field may hold: nil, the empty value of its kind, or another value. *)
Inductive held := Nil | Empty | Full.
Inductive emission := Omitted | Null | Written.

(** A pointer is nil or points to something; a value that is neither a slice nor
    one of the other nilable kinds is not nil. *)
Definition nilable (field : GoField) : bool :=
  let declared := TrimPrefix (g_DeclaredType field) "*" in
  g_Slice field || bool_decide (declared = emptyInterfaceType) || bool_decide (declared = "any")
  || HasPrefix declared "map[" || HasPrefix declared "[]".
Definition may_hold (field : GoField) (v : held) : Prop :=
  match v with
  | Nil => g_Pointer field || nilable field = true
  | Empty => g_Pointer field = false
  | Full => True
  end.

(** [encoding/json] on a struct field: [omitempty] leaves out nil, an empty slice or
    map, and the zero value of a builtin type, never a struct or a value with a
    marshaller of its own. *)
Definition can_be_empty (field : GoField) : bool :=
  g_Pointer field || nilable field ||
  (negb (g_CustomMarshaled field) &&
   (bool_decide (TrimPrefix (g_DeclaredType field) "*" ∈ goBasicTypeNames.*1) ||
    bool_decide (g_WireType field ∈ goBasicTypeNames.*1))).
Definition encode (field : GoField) (v : held) : emission :=
  match v with
  | Full => Written
  | Nil => if g_Omitempty field && can_be_empty field then Omitted else Null
  | Empty => if g_Omitempty field && can_be_empty field then Omitted else Written
  end.

(** The validator's [required]: not nil for the nilable kinds, not the zero value
    for the others. *)
Definition validated (field : GoField) (v : held) : Prop :=
  hasFieldLevelRequired field = true →
  match v with Nil => False | Empty => nilable field = true | Full => True end.

(** What the schema asks of every validated value: a required property is there,
    and one with a type is not null. *)
Definition encodes_well (input : ComparisonInput) : Prop :=
  ∀ v, may_hold (i_Go input) v → validated (i_Go input) v →
    (s_Required (i_Schema input) = true → encode (i_Go input) v ≠ Omitted) ∧
    (schema_type input ≠ "" → encode (i_Go input) v ≠ Null).

(** A list of admitted values; none admits all. *)
Definition lists (values : list string) (v : string) : Prop := values = [] ∨ v ∈ values.

(** The field agrees with the schema: in the type of what is written, in the values
    listed, in the presence of the property, in the bounds, and its tag asks for no
    syntax that the format does not state (by the table of the tool). *)
Definition conforms (input : ComparisonInput) : Prop :=
  (schema_type input ≠ "" → ∀ t, writes (i_Go input) t → t = schema_type input) ∧
  (∀ v, lists (g_EnumValues (i_Go input)) v ↔ lists (s_Enum (i_Schema input)) v) ∧
  encodes_well input ∧
  (∀ upper x, go_admits (i_Go input) upper x ↔ schema_admits input upper x) ∧
  (schema_type input = "string" →
   ∀ tok formats, tok ∈ fieldLevelValidateTokens (g_Validate (i_Go input)) →
     assoc (token_name tok) syntaxTokenFormats = Some formats →
     default "" (s_Format (i_Schema input)) ≠ "" ∧ default "" (s_Format (i_Schema input)) ∈ formats).

(** What the classes do not tell: an interface where the schema says object, values
    listed on one side only, an empty slice or map that [required] admits and
    [omitempty] leaves out of a required property, and a nil that is written as null
    for a required property or for a slice, map or interface. *)
Definition unseen (input : ComparisonInput) : Prop :=
  let go := i_Go input in let required := s_Required (i_Schema input) in
  (g_Slice go = false ∧ interface (g_WireType go) = true ∧ schema_type input = "object") ∨
  bool_decide (g_EnumValues go = []) ≠ bool_decide (s_Enum (i_Schema input) = []) ∨
  (required = true ∧ hasFieldLevelRequired go = true ∧ g_Omitempty go = true ∧ g_Pointer go = false ∧ nilable go = true) ∨
  (schema_type input ≠ "" ∧ hasFieldLevelRequired go = false ∧ g_Omitempty go = false ∧
   g_Pointer go || nilable go = true ∧ (required = true ∨ g_Pointer go = false)).

#[local] Instance unseen_dec input : Decision (unseen input).
Proof. unfold unseen. apply _. Defined.

(** A pointer's declared type starts with a star, no other type's does; the type
    the generator would name is not one that is declared; the wire type is known,
    and the field is no slice of bytes, which [encoding/json] writes as a string. *)
Definition field_regular (field : GoField) : Prop :=
  (HasPrefix (g_DeclaredType field) "*" = g_Pointer field) ∧
  TrimPrefix (g_DeclaredType field) "*" ≠ generatedEnumType ∧
  g_WireType field ≠ "" ∧
  TrimPrefix (g_DeclaredType field) "*" ∉ ["[]byte"; "[]uint8"].

Lemma assoc_bool {A : Type} k (l : list (string * A)) : bool_decide (k ∈ l.*1) = match assoc k l with Some _ => true | None => false end.
Proof.
  induction l as [|[k' v] l IH]; simpl; [done|]. destruct (decide (k' = k)) as [->|Hne].
  - rewrite (bool_decide_true (k = k)) by done. apply bool_decide_true. left.
  - rewrite (bool_decide_false (k' = k)), <-IH by done. apply bool_decide_ext. rewrite elem_of_cons. naive_solver.
Qed.
Lemma can_be_empty_omitted field : omitemptyCanOmit field = can_be_empty field.
Proof.
  unfold omitemptyCanOmit, can_be_empty, nilable. rewrite !assoc_bool. unfold emptyInterfaceType.
  destruct (assoc (TrimPrefix (g_DeclaredType field) "*") goBasicTypeNames), (assoc (g_WireType field) goBasicTypeNames);
    destruct (g_Pointer field), (g_Slice field), (bool_decide _), (bool_decide _), (HasPrefix _ _), (HasPrefix _ _),
      (g_CustomMarshaled field); done.
Qed.

Lemma json_type_nonempty w : json_type_of w ≠ "".
Proof.
  unfold json_type_of. destruct (assoc w json_types) as [t|] eqn:E; [|done].
  assert (Hin : t ∈ json_types.*2).
  { clear -E. induction json_types as [|[k v] l IH]; simpl in *; [done|]. case_bool_decide; [injection E as ->; left|right; auto]. }
  simpl in Hin. simpl. intros ->. repeat (apply elem_of_cons in Hin as [Hin|Hin]; [done|]). by apply elem_of_nil in Hin.
Qed.
Lemma interface_object w : interface w = true → json_type_of w = "object".
Proof. unfold interface. intros Hi%bool_decide_eq_true. repeat (apply elem_of_cons in Hi as [->|Hi]; [by vm_compute|]). by apply elem_of_nil in Hi. Qed.

Lemma wrong_type_exact input :
  g_WireType (i_Go input) ≠ "" →
  (schema_type input ≠ "" → ∀ t, writes (i_Go input) t → t = schema_type input) ↔
  wrong_type input = None ∧
  ¬ (g_Slice (i_Go input) = false ∧ interface (g_WireType (i_Go input)) = true ∧ schema_type input = "object").
Proof.
  intros Hw. unfold wrong_type, writes. rewrite (bool_decide_false (g_WireType _ = "")) by done.
  destruct (g_Slice (i_Go input)).
  { change (normalizeWireType _ true) with "array". rewrite (bool_decide_false ("array" = "")) by done. repeat case_bool_decide; simpl; naive_solver. }
  rewrite json_type_normalized, (bool_decide_false (json_type_of _ = "")) by apply json_type_nonempty.
  destruct (interface _) eqn:Ei; [rewrite (interface_object _ Ei)|].
  - case_bool_decide as Hs; simpl; [rewrite Hs; split; [intros _; split; [done|intros (_ & _ & ?); done]|done]|].
    split; [intros H|intros [H1 H2]].
    + specialize (H Hs). pose proof (H "string" ltac:(left)) as H1. pose proof (H "object" ltac:(unfold any_json; set_solver)) as H2. congruence.
    + case_bool_decide as E; simpl in H1; [|done]. exfalso. apply H2. done.
  - repeat case_bool_decide; simpl; naive_solver.
Qed.

Lemma difference_from_elem b a : ∀ seen v, v ∈ difference_from b seen a ↔ v ∈ a ∧ v ∉ b ∧ v ∉ seen.
Proof.
  induction a as [|w a IH]; intros seen v; simpl; [by rewrite elem_of_nil; naive_solver|].
  destruct (bool_decide_reflect (w ∈ b)); [|destruct (bool_decide_reflect (w ∈ seen))]; simpl;
    rewrite !elem_of_cons, !IH, ?elem_of_cons; destruct (decide (v = w)) as [->|]; naive_solver.
Qed.

(** The values of [a] that are not in [b], once each. *)
Lemma setDifference_elem a b v : v ∈ setDifference a b ↔ v ∈ a ∧ v ∉ b.
Proof. unfold setDifference, sort_strings. rewrite sort_by_perm, difference_from_elem, elem_of_nil. naive_solver. Qed.

Lemma no_difference a b : setDifference a b = [] ↔ ∀ v, v ∈ a → v ∈ b.
Proof.
  split.
  - intros H v Hv. destruct (decide (v ∈ b)) as [?|Hb]; [done|].
    assert (v ∈ setDifference a b) by by apply setDifference_elem. rewrite H in *. set_solver.
  - intros H. destruct (setDifference a b) as [|v l] eqn:E; [done|].
    assert (v ∈ setDifference a b) as [? []]%setDifference_elem by (rewrite E; set_solver). auto.
Qed.

Lemma enums_exact input :
  (∀ v, lists (g_EnumValues (i_Go input)) v ↔ lists (s_Enum (i_Schema input)) v) ↔
  compareEnumValueSets input = None ∧
  ¬ bool_decide (g_EnumValues (i_Go input) = []) ≠ bool_decide (s_Enum (i_Schema input) = []).
Proof.
  unfold compareEnumValueSets, lists.
  set (g := g_EnumValues (i_Go input)). set (l := s_Enum (i_Schema input)).
  assert (Hfresh : ∀ k : list string, k ≠ [] → ¬ ∀ v, k = [] ∨ v ∈ k).
  { intros k Hk H. destruct (H (fresh k)) as [?|Hf]; [done|]. by apply infinite_is_fresh in Hf. }
  destruct (bool_decide_reflect (g = [])) as [Hg|Hg], (bool_decide_reflect (l = [])) as [Hs|Hs]; simpl.
  - rewrite Hg, Hs. split; [intros _; split; [done|by intros []]|done].
  - split; [|naive_solver]. intros H. exfalso. apply (Hfresh l Hs). intros v. apply H. by left.
  - split; [|naive_solver]. intros H. exfalso. apply (Hfresh g Hg). intros v. apply H. by left.
  - destruct (bool_decide_reflect (setDifference l g = [])) as [E1|E1],
      (bool_decide_reflect (setDifference g l = [])) as [E2|E2]; simpl; rewrite no_difference in E1, E2.
    { split; [intros _; split; [done|by intros []]|]. intros _ v. split; (intros [?|Hv]; [done|]); right; auto. }
    all: split; [intros H; exfalso|by intros [? _]].
    + apply E2. intros v Hv. by destruct (proj1 (H v) (or_intror Hv)).
    + apply E1. intros v Hv. by destruct (proj2 (H v) (or_intror Hv)).
    + apply E1. intros v Hv. by destruct (proj2 (H v) (or_intror Hv)).
Qed.

(** The encoder, in the terms of the two checks and of what they do not see. *)
Lemma encoding_exact input :
  encodes_well input ↔
  (compareRequiredness input = None ∧ compareNullEmission input = None) ∧
  let go := i_Go input in let required := s_Required (i_Schema input) in
  ¬ (required = true ∧ hasFieldLevelRequired go = true ∧ g_Omitempty go = true ∧ g_Pointer go = false ∧ nilable go = true) ∧
  ¬ (schema_type input ≠ "" ∧ hasFieldLevelRequired go = false ∧ g_Omitempty go = false ∧
     g_Pointer go || nilable go = true ∧ (required = true ∨ g_Pointer go = false)).
Proof.
  unfold compareRequiredness, compareNullEmission, encodes_well. rewrite can_be_empty_omitted. cbv zeta.
  set (go := i_Go input).
  assert (Hn : g_Pointer go || nilable go = true → can_be_empty go = true)
    by (intros E; unfold can_be_empty; by rewrite E).
  assert (He : ∀ P : held → Prop, (∀ v, P v) ↔ P Nil ∧ P Empty ∧ P Full).
  { intros P. split; [auto|]. intros (? & ? & ?) []; done. }
  rewrite He. unfold may_hold, validated, encode.
  destruct (s_Required (i_Schema input)), (g_Pointer go) eqn:Ep, (nilable go) eqn:En, (g_Omitempty go),
    (can_be_empty go) eqn:Ec, (hasFieldLevelRequired go); simpl in *;
    try (specialize (Hn eq_refl); discriminate Hn); try case_bool_decide; intuition congruence.
Qed.

Lemma syntax_beyond_exact format tokens :
  syntax_beyond format tokens = None ↔
  ∀ tok formats, tok ∈ tokens → assoc (token_name tok) syntaxTokenFormats = Some formats → format ≠ "" ∧ format ∈ formats.
Proof.
  assert (Hc : ∀ l x, containsString l x = true ↔ x ∈ l).
  { intros l x. unfold containsString. rewrite existsb_exists. setoid_rewrite bool_decide_eq_true.
    setoid_rewrite list_elem_of_In. naive_solver. }
  induction tokens as [|tok l IH]; cbn [syntax_beyond]; [set_solver|].
  setoid_rewrite elem_of_cons.
  destruct (assoc (token_name tok) syntaxTokenFormats) as [fs|] eqn:E; [|rewrite IH; naive_solver congruence].
  destruct (bool_decide_reflect (format = "")) as [->|Hf]; simpl; [naive_solver|].
  destruct (containsString fs format) eqn:Ec.
  - apply Hc in Ec. rewrite IH. naive_solver.
  - split; [done|]. intros H. destruct (H tok fs (or_introl eq_refl) E) as [_ Hin]. apply Hc in Hin. congruence.
Qed.

Lemma syntax_exact input :
  compareSemanticConstraints input = None ↔
  (schema_type input = "string" →
   ∀ tok formats, tok ∈ fieldLevelValidateTokens (g_Validate (i_Go input)) →
     assoc (token_name tok) syntaxTokenFormats = Some formats →
     default "" (s_Format (i_Schema input)) ≠ "" ∧ default "" (s_Format (i_Schema input)) ∈ formats).
Proof.
  unfold compareSemanticConstraints, schema_type. rewrite <- syntax_beyond_exact.
  assert (Hs : s_Type (i_Schema input) = Some "string" ↔ default "" (s_Type (i_Schema input)) = "string")
    by (destruct (s_Type (i_Schema input)); simpl; naive_solver).
  rewrite <- Hs. case_bool_decide; simpl; [|naive_solver]. destruct (syntax_beyond _ _); simpl; naive_solver.
Qed.

Lemma constraints_exact input :
  bounds_regular input →
  compareConstraints ParseFloat FormatFloat input = None ↔
  ∀ upper x, go_admits (i_Go input) upper x ↔ schema_admits input upper x.
Proof.
  intros Hreg. pose proof (bound_comparison_sound input Hreg) as H. unfold bound_verdict in H.
  destruct (compareConstraints ParseFloat FormatFloat input); [|done]. split; [done|]. intros Heq.
  destruct H as (upper & [[_ [_ (x & Hx & Hn)]]|[_ [_ (x & Hx & Hn)]]]); by apply Heq in Hx.
Qed.

(** The checks before the declared shape. *)
Definition findings (input : ComparisonInput) : list (option ClassificationResult) :=
  [wrong_type input; compareEnumValueSets input; compareRequiredness input; compareNullEmission input;
   compareConstraints ParseFloat FormatFloat input; compareSemanticConstraints input].

Lemma conforms_exact input :
  bounds_regular input → field_regular (i_Go input) →
  conforms input ↔ (∀ r, r ∈ findings input → r = None) ∧ ¬ unseen input.
Proof.
  intros Hb (_ & _ & Hw & _). unfold conforms, findings, unseen.
  rewrite (wrong_type_exact input Hw), enums_exact, encoding_exact, <- (constraints_exact input Hb), <- syntax_exact.
  rewrite <- Forall_forall, !Forall_cons, Forall_nil. cbv zeta. tauto.
Qed.

Lemma findings_class input r : Some r ∈ findings input → r_Class r = FORK_BUG ∨ r_Class r = OVERRIDE_CANDIDATE.
Proof.
  assert (Hd : ∀ tokens upper, compare_direction FormatFloat input tokens upper = Some r →
                 r_Class r = FORK_BUG ∨ r_Class r = OVERRIDE_CANDIDATE).
  { intros tokens upper. unfold compare_direction. intros. repeat case_match; simplify_eq/=; auto. }
  unfold findings. rewrite !elem_of_cons, elem_of_nil.
  intros [H|[H|[H|[H|[H|[H|[]]]]]]]; symmetry in H.
  - unfold wrong_type in H. repeat case_match; simplify_eq/=; auto.
  - unfold compareEnumValueSets in H. repeat case_match; simplify_eq/=; auto.
  - unfold compareRequiredness in H. repeat case_match; simplify_eq/=; auto.
  - unfold compareNullEmission in H. repeat case_match; simplify_eq/=; auto.
  - unfold compareConstraints in H. repeat case_match; simplify_eq/=; eauto.
  - unfold compareSemanticConstraints in H. case_match; [done|]. by apply fmap_Some in H as (? & _ & ->); right.
Qed.

(** ** The declared shape *)

Lemma trim_star d : HasPrefix d "*" = true → TrimPrefix d "*" ≠ d.
Proof.
  intros Hp Hd. unfold TrimPrefix in Hd. rewrite Hp in Hd. apply (f_equal chars) in Hd. rewrite chars_of_chars in Hd.
  apply (f_equal length) in Hd. rewrite length_drop in Hd. unfold HasPrefix in Hp. apply bool_decide_eq_true in Hp.
  destruct (chars d); simpl in *; [done|lia].
Qed.
Lemma add_star d : "*" +:+ d ≠ d.
Proof.
  intros H. apply (f_equal chars) in H. rewrite chars_app in H. apply (f_equal length) in H.
  rewrite length_app in H. simpl in H. lia.
Qed.

(** A change of the type or of the enum type breaks. *)
Lemma faithful_change_breaks input expected before after rule :
  g_DeclaredType (i_Go input) ≠ expected ∨ before ≠ after →
  faithful_change input expected before after rule = inl (mkResult SCHEMA_FAITHFUL_CHANGE rule "" true).
Proof.
  intros H. unfold faithful_change, breakingPredicate, signature. simpl. rewrite !(bool_decide_true (_ = _)) by done. simpl.
  repeat case_bool_decide; simpl; naive_solver.
Qed.

(** What the declared shape decides: a class other than the two of the findings,
    and the field breaks exactly if the type would change. *)
Definition shape_verdict (x : CgSchema.result ClassificationResult) : Prop :=
  ∃ r, x = inl r ∧ r_Class r ∉ [FORK_BUG; OVERRIDE_CANDIDATE] ∧
       (r_Breaking r = true ↔ r_Class r = SCHEMA_FAITHFUL_CHANGE).

Lemma changed_verdict input expected before after rule :
  g_DeclaredType (i_Go input) ≠ expected ∨ before ≠ after →
  shape_verdict (faithful_change input expected before after rule).
Proof. intros H. rewrite faithful_change_breaks by done. eexists; split; [done|]. simpl. split; [set_solver|done]. Qed.
Lemma unchanged_verdict class rule :
  class ∉ [FORK_BUG; OVERRIDE_CANDIDATE; SCHEMA_FAITHFUL_CHANGE] → shape_verdict (inl (classified class rule)).
Proof. intros H. eexists; split; [done|]. simpl. split; [set_solver|]. split; [done|set_solver]. Qed.

Definition shape_verdict' (x : CgSchema.result (option ClassificationResult)) : Prop :=
  x = inl None ∨ shape_verdict (o ← x; mret (default (classified IDENTICAL "") o)).

Lemma shape_changed input expected rule :
  g_DeclaredType (i_Go input) ≠ expected → shape_verdict' (schemaFaithfulShape input expected rule).
Proof.
  intros H. right. unfold schemaFaithfulShape. rewrite faithful_change_breaks by by left. simpl.
  eexists; split; [done|]. simpl. split; [set_solver|done].
Qed.

Lemma optionality_shape_verdict input t :
  HasPrefix (g_DeclaredType (i_Go input)) "*" = g_Pointer (i_Go input) →
  shape_verdict' (compareOptionalityShape input t).
Proof.
  intros Hp. unfold compareOptionalityShape.
  assert (Ht : g_Pointer (i_Go input) = true →
            g_DeclaredType (i_Go input) ≠ TrimPrefix (g_DeclaredType (i_Go input)) "*")
    by (intros E; apply not_eq_sym, trim_star; congruence).
  assert (Ha : g_DeclaredType (i_Go input) ≠ "*" +:+ g_DeclaredType (i_Go input)) by apply not_eq_sym, add_star.
  destruct (g_Slice _).
  { destruct (g_Pointer _); [|rewrite andb_false_r; by left]. case_bool_decide; simpl; [|by left].
    by apply shape_changed, Ht. }
  case_bool_decide; simpl; [|by left].
  destruct (s_Required _).
  { destruct (g_Pointer _); [|rewrite andb_false_r; by left]. case_bool_decide; simpl; [|by left].
    by apply shape_changed, Ht. }
  destruct (zeroExcludedByFloor _ _); [destruct (g_Pointer _); [by apply shape_changed, Ht|by left]|].
  destruct (g_Pointer _); [by left|].
  destruct (bool_decide _ && _); [by apply shape_changed|].
  destruct (g_Omitempty _ && _); [by apply shape_changed|by left].
Qed.

Lemma shape_verdict_of input :
  field_regular (i_Go input) → wrong_type input = None → shape_verdict (compare_shape input).
Proof.
  intros (Hp & Hg & Hne & _) Hw. unfold compare_shape.
  destruct (bool_decide_reflect (schema_type input = "string")) as [Hs|Hs]; simpl.
  - case_bool_decide; simpl.
    + unfold compare_date_time. repeat case_bool_decide; simpl.
      * apply changed_verdict. left. intros Hd.
        assert (Hx : g_WireType (i_Go input) = "types.DateTime") by (rewrite <- H0, Hd; done).
        unfold wrong_type in Hw. rewrite Hx, Hs in Hw. by destruct (g_Slice _).
      * destruct (g_Pointer (i_Go input)) eqn:Ep; simpl; [by apply unchanged_verdict; set_solver|].
        apply changed_verdict. left. intros Hd. rewrite Hd in Hp. done.
    + case_bool_decide; simpl.
      * rewrite Hs. simpl. destruct (optionality_shape_verdict input "string" Hp) as [->|H']; [|done].
        apply unchanged_verdict. set_solver.
      * unfold compare_string. repeat case_bool_decide; simpl; try (by apply unchanged_verdict; set_solver);
          apply changed_verdict; [by left|by right].
  - case_bool_decide.
    + unfold compare_untyped. repeat case_bool_decide; simpl; try (by apply unchanged_verdict; set_solver).
      apply changed_verdict. by left.
    + destruct (optionality_shape_verdict input (schema_type input) Hp) as [->|H']; [|done].
      apply unchanged_verdict. set_solver.
Qed.

Lemma head_omap_None {A} (l : list (option A)) : head (omap id l) = None ↔ ∀ o, o ∈ l → o = None.
Proof.
  induction l as [|[a|] l IH]; simpl; [set_solver| |rewrite IH; set_solver].
  split; [done|]. intros H. by specialize (H (Some a) ltac:(set_solver)).
Qed.
Lemma head_omap_Some {A} (l : list (option A)) a : head (omap id l) = Some a → Some a ∈ l.
Proof. induction l as [|[b|] l IH]; simpl; [done|intros [= ->]; set_solver|set_solver]. Qed.

Lemma findings_not_breaking input r : Some r ∈ findings input → r_Breaking r = false.
Proof.
  assert (Hd : ∀ tokens upper, compare_direction FormatFloat input tokens upper = Some r → r_Breaking r = false).
  { intros tokens upper. unfold compare_direction. intros. repeat case_match; simplify_eq/=; auto. }
  unfold findings. rewrite !elem_of_cons, elem_of_nil.
  intros [H|[H|[H|[H|[H|[H|[]]]]]]]; symmetry in H.
  - unfold wrong_type in H. repeat case_match; simplify_eq/=; auto.
  - unfold compareEnumValueSets in H. repeat case_match; simplify_eq/=; auto.
  - unfold compareRequiredness in H. repeat case_match; simplify_eq/=; auto.
  - unfold compareNullEmission in H. repeat case_match; simplify_eq/=; auto.
  - unfold compareConstraints in H. repeat case_match; simplify_eq/=; eauto.
  - unfold compareSemanticConstraints in H. case_match; [done|]. by apply fmap_Some in H as (? & _ & ->).
Qed.

(** What a row says. *)
Definition row_verdict (input : ComparisonInput) (x : CgSchema.result ClassificationResult) : Prop :=
  match x with
  | inr _ => i_GoPresent input = false ∧ i_SchemaPresent input = false
  | inl r =>
      (r_Breaking r = true ↔ r_Class r = SCHEMA_FAITHFUL_CHANGE) ∧
      (i_GoPresent input = true → i_SchemaPresent input = true → g_StructValidators (i_Go input) = [] →
       (r_Class r ∈ [FORK_BUG; OVERRIDE_CANDIDATE] → ¬ conforms input) ∧
       (¬ conforms input ↔ r_Class r ∈ [FORK_BUG; OVERRIDE_CANDIDATE] ∨ unseen input))
  end.

Lemma both_verdict input :
  bounds_regular input → field_regular (i_Go input) → g_StructValidators (i_Go input) = [] →
  row_verdict input (compare_both ParseFloat FormatFloat input).
Proof.
  intros Hb Hf Hv. unfold compare_both. rewrite Hv, (bool_decide_true (_ = _)) by done. cbn [negb].
  fold (findings input). pose proof (conforms_exact input Hb Hf) as Hcf.
  destruct (head (omap id (findings input))) as [r|] eqn:E.
  - apply head_omap_Some in E. simpl. pose proof (findings_class _ _ E) as Hc.
    pose proof (findings_not_breaking _ _ E) as Hnb.
    split; [rewrite Hnb; by destruct Hc as [-> | ->]|]. intros _ _ _.
    assert (Hno : ¬ conforms input) by (rewrite Hcf; intros [H _]; by apply H in E).
    assert (r_Class r ∈ [FORK_BUG; OVERRIDE_CANDIDATE]) by (destruct Hc as [-> | ->]; set_solver). tauto.
  - rewrite head_omap_None in E.
    assert (Hw : wrong_type input = None) by (apply E; left).
    destruct (shape_verdict_of input Hf Hw) as (r & -> & Hc & Hbr). simpl. split; [done|].
    intros _ _ _. rewrite Hcf. destruct (decide (unseen input)); tauto.
Qed.

End bounds.

(** ** Witnesses, and what the comparison does not see *)

Module ClassifyDemo.
(** Decimal numerals. *)
Definition parse (s : string) : option float64 := of_int <$> ParseInt s.
Definition text (f : float64) : string := "".

Definition field (type : string) (pointer slice omitempty : bool) (validate : list string) : GoField :=
  mkGoField "x" "X" ((if pointer then "*" else "") +:+ type) type pointer slice false "" "f.go" 1 "x" omitempty validate []
    [].
Definition property (type : string) (required : bool) (c : Constraints) : SchemaField :=
  mkSchemaField "#/properties/x" (Some type) required None [] c.
Definition both (g : GoField) (s : SchemaField) : ComparisonInput := mkInput g s true true "".

(** A string of at most 20 characters where the schema allows 25. *)
Definition short : ComparisonInput :=
  both (field "string" false false true ["omitempty"; "max=20"])
    (property "string" false (mkConstraints (Some 25%Z) None None None None None None None None None)).

Lemma short_regular : bounds_regular parse short ∧ field_regular (i_Go short).
Proof.
  assert (E : numbers parse (fieldLevelValidateTokens (g_Validate (i_Go short))) = [("max", of_int 20)]) by (by vm_compute).
  split; [|split_and!; [by vm_compute..|apply (bool_decide_eq_true_1 _); by vm_compute]].
  unfold bounds_regular. rewrite E. split; [|split; [|split; [|split; [|done]]]].
  - intros key v H%list_elem_of_singleton. simplify_eq. by eexists.
  - apply NoDup_singleton.
  - intros v [H|H]; discriminate H.
  - intros n H%list_elem_of_singleton. subst n. done.
Qed.

Lemma bounds_compared_witness :
  bound_verdict parse short (compareConstraints parse text short) ∧
  r_Class <$> compareConstraints parse text short = Some OVERRIDE_CANDIDATE.
Proof. split; [exact (bounds_compared parse text short (proj1 short_regular))|by vm_compute]. Defined.


(** A required integer held by a pointer that is written without [omitempty] and
    not validated is reported as identical, and nil is written as null. *)
Theorem null_for_required :
  let f := field "int" true false false [] in
  classifyField parse text (both f (property "integer" true no_constraints)) = inl (classified IDENTICAL "") ∧
  may_hold f Nil ∧ validated f Nil ∧ encode f Nil = Null.
Proof. split; [by vm_compute|]. split; [done|]. split; [|done]. by intros ?. Qed.

(** So is a required array, although the validator's [required] admits the empty
    slice that [omitempty] leaves out. *)
Theorem empty_slice_omitted :
  let f := field "[]string" false true true ["required"] in
  classifyField parse text (both f (property "array" true no_constraints)) = inl (classified IDENTICAL "") ∧
  may_hold f Empty ∧ validated f Empty ∧ encode f Empty = Omitted.
Proof. by vm_compute. Qed.

(** A count above 0 is reported as looser than a count of at least 1, although the
    same counts are admitted. *)
Theorem exclusive_count_misreported :
  let input := both (field "[]string" false true false ["gt=0"])
    (property "array" true (mkConstraints None None None None None None (Some 1%Z) None None None)) in
  (r_Class <$> compareConstraints parse text input) = Some FORK_BUG ∧
  ∀ n : Z, go_admits parse (i_Go input) false (Qc_of_Z n) ↔ schema_admits input false (Qc_of_Z n).
Proof.
  intros input. split; [by vm_compute|]. intros n.
  assert (E : numbers parse (fieldLevelValidateTokens (g_Validate (i_Go input))) = [("gt", Fin (Qc_of_Z 0))]) by (by vm_compute).
  unfold go_admits, schema_admits. rewrite E. change (schema_exclusive input false) with (None : option ExclusiveBound). setoid_rewrite list_elem_of_singleton.
  change (schema_keyword input false) with (Some (Qc_of_Z 1)). cbn [side].
  simpl. rewrite <- Z2Qc_inj_le. split.
  - intros H. split; [|done]. destruct (H "gt" (Qc_of_Z 0) eq_refl) as [_ H2]. specialize (H2 eq_refl). cbn [side] in H2.
    rewrite <- Z2Qc_inj_lt in H2. lia.
  - intros [H _] key v Hv. simplify_eq. split; [set_solver|]. intros _. cbn [side].
    by rewrite <- Z2Qc_inj_lt; lia.
Qed.

(** A count above 0 is reported as stricter than an exclusive minimum of 0, and a
    number without bounds as identical to it: the exclusive bounds of the schema are
    not compared. *)
Theorem exclusive_schema_bound_unseen :
  let c := mkConstraints None None None None (Some (mkExclusive None (Some (Fin (Qc_of_Z 0))))) None None None None None in
  let tagged := both (field "float64" false false false ["gt=0"]) (property "number" true c) in
  let free := both (field "float64" false false false []) (property "number" true c) in
  (r_Class <$> compareConstraints parse text tagged) = Some OVERRIDE_CANDIDATE ∧
  (∀ x, go_admits parse (i_Go tagged) false x ↔ schema_admits tagged false x) ∧
  classifyField parse text free = inl (classified IDENTICAL "") ∧
  ¬ (∀ x, go_admits parse (i_Go free) false x ↔ schema_admits free false x).
Proof.
  intros c tagged free. split; [by vm_compute|].
  assert (Hs : ∀ x, schema_admits tagged false x ↔ (Qc_of_Z 0 < x)%Qc) by (intros x; unfold schema_admits; simpl; tauto).
  split; [|split; [by vm_compute|]].
  - intros x. rewrite Hs. unfold go_admits.
    assert (numbers parse (fieldLevelValidateTokens (g_Validate (i_Go tagged))) = [("gt", Fin (Qc_of_Z 0))]) as -> by (by vm_compute).
    setoid_rewrite list_elem_of_singleton. split.
    + intros H. by apply (H "gt" (Qc_of_Z 0) eq_refl).
    + intros H key v Hv. simplify_eq. split; [set_solver|done].
  - intros H. assert (Hx : schema_admits free false (Qc_of_Z 0)).
    { apply H. intros key v Hv. vm_compute in Hv. by apply elem_of_nil in Hv. }
    apply Hs in Hx. by rewrite <- Z2Qc_inj_lt in Hx.
Qed.
End ClassifyDemo.
