(* ===== verification/ScGoWalk.v ===== *)
(** * The schema check: reading the Go tree

    src/internal/schemacheck/ast_walk.go over the syntax trees of go/ast: the
    struct declarations of a file flattened to fields the way encoding/json
    flattens them, the features, custom marshalers, struct validators and value
    sets a file declares.

    A node carries what the code looks at; expressions and statements of other
    kinds keep their dynamic type and their parts.  Parsing of a file is not
    modelled, [strconv.Unquote] is an argument.  The walk of a struct recurses
    through the struct declarations of its file; the fuel bounds the depth of
    that recursion, which never exceeds the number of declarations since a
    declaration is not entered twice. *)

From Stdlib Require Import Ascii.
From stdpp Require Import pretty.
From S2P Require Import Prelude Ocpp CgIR CgMapping CgSchema CgOverrides CgEmit ScTypes.
Local Open Scope string_scope.
Local Open Scope list_scope.

(** ** Syntax trees *)

Inductive expr :=
| Ident (name : string)
| StarExpr (x : expr)
| SelectorExpr (x : expr) (sel : string)
| ArrayType (elt : expr)
| MapType (key value : expr)
| InterfaceType
| BasicLit (is_string : bool) (value : string)
| CallExpr (f : expr) (args : list expr)
| CompositeLit (type : option expr) (elts : list expr)
| OtherExpr (dynamic : string) (parts : list expr) (body : list stmt)
with stmt :=
| ReturnStmt (results : list expr)
| SwitchStmt (head : list expr) (clauses : list (option (list expr) * list stmt))
| OtherStmt (exprs : list expr) (stmts : list stmt).

(** A field declaration; the line is that of its type. *)
Record field := mkField { fd_Names : list string; fd_Type : expr; fd_Tag : option string; fd_Line : Z }.

Inductive token := TYPE | CONST | VAR | IMPORT.
(** A struct type and the methods of an interface are only looked at in the type of
    a declaration.  Of a method that has a function type the types of its
    parameters are kept; an embedded interface has none. *)
Inductive type_expr :=
| StructType (fields : list field)
| InterfaceMethods (methods : list (option (list expr)))
| TypeExpr (e : expr).
Inductive spec :=
| TypeSpec (name : string) (type : type_expr) (line : Z)
| ValueSpec (names : list string) (values : list expr)
| OtherSpec.
Inductive decl :=
| GenDecl (tok : token) (specs : list spec)
| FuncDecl (recv : option (list expr)) (name : string) (body : option (list stmt)) (line : Z).
(** An import has an optional name and the literal of its path. *)
Record ast_file := mkFile { af_Decls : list decl; af_Imports : list (option string * string) }.

(** The specifications of the type declarations, and of the others. *)
Definition type_specs (file : ast_file) : list spec :=
  flat_map (λ d, match d with GenDecl TYPE specs => specs | _ => [] end) (af_Decls file).

Fixpoint exprString (e : expr) : string :=
  match e with
  | Ident name => name
  | StarExpr x => "*" +:+ exprString x
  | SelectorExpr x sel => exprString x +:+ "." +:+ sel
  | ArrayType elt => "[]" +:+ exprString elt
  | MapType key value => "map[" +:+ exprString key +:+ "]" +:+ exprString value
  | InterfaceType => "interface{}"
  | BasicLit _ _ => "*ast.BasicLit"
  | CallExpr _ _ => "*ast.CallExpr"
  | CompositeLit _ _ => "*ast.CompositeLit"
  | OtherExpr dynamic _ _ => dynamic
  end.

(** ** Declarations of a file *)

Definition structDeclLines (file : ast_file) : gmap string Z :=
  foldl (λ lines s, match s with TypeSpec name (StructType _) line => <[name := line]> lines | _ => lines end) ∅
    (type_specs file).

Definition localStructIndex (file : ast_file) : list string * gmap string (list field) :=
  foldl (λ acc s, match s with
                  | TypeSpec name (StructType fields) _ => (acc.1 ++ [name], <[name := fields]> acc.2)
                  | _ => acc
                  end) ([], ∅) (type_specs file).

(** Follows the declarations from [name], at most [hops] times. *)
Fixpoint follow_alias (direct : gmap string string) (hops : nat) (name : string) : option string :=
  match hops with
  | O => None
  | S hops' =>
      match direct !! name with
      | None => None
      | Some next =>
          match assoc next goBasicTypeNames with
          | Some basic => Some basic
          | None => follow_alias direct hops' next
          end
      end
  end.
Definition resolveScalarAliasChain (name : string) (direct : gmap string string) : option string :=
  follow_alias direct (S (size direct)) name.

Definition direct_aliases (file : ast_file) : gmap string string :=
  foldl (λ direct s, match s with TypeSpec name (TypeExpr (Ident n)) _ => <[name := n]> direct | _ => direct end) ∅
    (type_specs file).
Definition localScalarAliasIndex (file : ast_file) : gmap string string :=
  let direct := direct_aliases file in
  map_imap (λ name _, resolveScalarAliasChain name direct) direct.

(** ** Tags *)

Section walk.
Context (Unquote : string → option string).

Definition dquote : ascii := Ascii.ascii_of_nat 34.

(** [reflect.StructTag.Lookup]; each round consumes a name and its quoted value. *)
Fixpoint tag_name (l : list ascii) : list ascii * list ascii :=
  match l with
  | c :: l' =>
      if (32 <? Ascii.N_of_ascii c)%N && negb (bool_decide (c = ":"%char)) && negb (bool_decide (c = dquote))
         && negb (Ascii.N_of_ascii c =? 127)%N
      then let '(a, b) := tag_name l' in (c :: a, b) else ([], l)
  | [] => ([], [])
  end.
Fixpoint quoted_rest (l : list ascii) : option (list ascii * list ascii) :=
  match l with
  | [] => None
  | c :: l' =>
      if bool_decide (c = dquote) then Some ([c], l')
      else if bool_decide (c = "\"%char) then
        match l' with
        | d :: l'' => (λ p, (c :: d :: p.1, p.2)) <$> quoted_rest l''
        | [] => None
        end
      else (λ p, (c :: p.1, p.2)) <$> quoted_rest l'
  end.
Fixpoint drop_blanks (l : list ascii) : list ascii :=
  match l with c :: l' => if bool_decide (c = " "%char) then drop_blanks l' else l | [] => [] end.
Fixpoint lookup_tag (rounds : nat) (key : string) (tag : list ascii) : option string :=
  match rounds with
  | O => None
  | S rounds' =>
      match tag_name (drop_blanks tag) with
      | ((_ :: _) as name, c1 :: c2 :: rest) =>
          if bool_decide (c1 = ":"%char) && bool_decide (c2 = dquote) then
            match quoted_rest rest with
            | Some (value, rest') =>
                if bool_decide (of_chars name = key) then Unquote (of_chars (c2 :: value))
                else lookup_tag rounds' key rest'
            | None => None
            end
          else None
      | _ => None
      end
  end.
Definition Lookup (tag key : string) : option string := lookup_tag (S (String.length tag)) key (chars tag).

Record fieldTagInfo := mkTagInfo { ti_name : string; ti_omitempty : bool; ti_skip : bool; ti_validate : list string }.

(** [strings.Trim(s, "`")] *)
Fixpoint drop_ticks (l : list ascii) : list ascii :=
  match l with c :: l' => if bool_decide (c = "`"%char) then drop_ticks l' else l | [] => [] end.
Definition trim_ticks (s : string) : string := of_chars (reverse (drop_ticks (reverse (drop_ticks (chars s))))).

Definition fieldTag (f : field) : fieldTagInfo :=
  match fd_Tag f with
  | None => mkTagInfo "" false false []
  | Some literal =>
      let raw := default (trim_ticks literal) (Unquote literal) in
      let validate := match Lookup raw "validate" with
                      | Some v => if bool_decide (v = "") then [] else split_comma [] (chars v)
                      | None => []
                      end in
      match Lookup raw "json" with
      | Some jsonTag =>
          if bool_decide (jsonTag = "-") then mkTagInfo "" false true validate
          else
            let parts := split_comma [] (chars jsonTag) in
            mkTagInfo (default "" (head parts)) (bool_decide ("omitempty" ∈ tail parts)) false validate
      | None => mkTagInfo "" false false validate
      end
  end.

(** ** Flattening of structs *)

Record fieldAtDepth := mkAtDepth { fad_field : GoField; fad_depth : nat; fad_children : list GoField }.

Definition shadowKey (f : GoField) : string := if bool_decide (g_JSONName f = "") then g_Name f else g_JSONName f.

Definition survivesShadowing (f : GoField) (atDepth taggedAtDepth : nat) : bool :=
  if bool_decide (taggedAtDepth = 1) then negb (bool_decide (g_JSONName f = ""))
  else bool_decide (taggedAtDepth = 0) && bool_decide (atDepth = 1).

(** The maps of the first two loops. *)
Definition min_depths (raw : list fieldAtDepth) : gmap string nat :=
  foldl (λ m item, let key := shadowKey (fad_field item) in
           match m !! key with
           | Some d => if bool_decide (fad_depth item < d) then <[key := fad_depth item]> m else m
           | None => <[key := fad_depth item]> m
           end) ∅ raw.
Definition bump (key : string) (m : gmap string nat) : gmap string nat := <[key := S (default 0 (m !! key))]> m.
Definition counts (minDepth : gmap string nat) (raw : list fieldAtDepth) : gmap string nat * gmap string nat :=
  foldl (λ acc item, let key := shadowKey (fad_field item) in
           if bool_decide (Some (fad_depth item) = minDepth !! key) then
             (bump key acc.1, if bool_decide (g_JSONName (fad_field item) = "") then acc.2 else bump key acc.2)
           else acc) (∅, ∅) raw.

Definition survives (raw : list fieldAtDepth) (item : fieldAtDepth) : bool :=
  let key := shadowKey (fad_field item) in
  let minDepth := min_depths raw in
  let '(count, tagged) := counts minDepth raw in
  bool_decide (Some (fad_depth item) = minDepth !! key)
  && survivesShadowing (fad_field item) (default 0 (count !! key)) (default 0 (tagged !! key)).

Definition resolveShadowing (raw : list fieldAtDepth) : list GoField :=
  flat_map (λ item, if survives raw item then fad_field item :: fad_children item else []) raw.

Definition embeddedTypeName (e : expr) : string :=
  let e := match e with StarExpr x => x | _ => e end in
  match e with
  | Ident name => name
  | SelectorExpr _ sel => sel
  | _ => exprString e
  end.

Definition fieldLabel (name : string) (anonymous : bool) : string := if anonymous then "(embedded)" else name.

Definition resolveWireType (identity : string) (registry : WireTypeRegistry) : result WireType :=
  match wr_Types registry !! identity with
  | Some w => mret w
  | None => fail ("unregistered wire type " +:+ quoted identity)
  end.

Definition mergeEnumSets (base overlay : gmap string (list string)) : gmap string (list string) := overlay ∪ base.

Record goFileWalker := mkWalker {
  w_path : string;
  w_structs : gmap string (list field);
  w_scalars : gmap string string;
  w_enums : gmap string (list string);
  w_res : Resolution
}.

Section walker.
Context (w : goFileWalker).

Fixpoint enum_values (tokens : list string) : list string :=
  match tokens with
  | [] => []
  | t :: l =>
      if Contains t "=" then enum_values l
      else match w_enums w !! t with
           | Some ((_ :: _) as values) => values
           | _ => enum_values l
           end
  end.
Definition enumValuesFor (tag : fieldTagInfo) : list string := enum_values (fieldLevelValidateTokens (ti_validate tag)).

Definition qualify (typeName : string) : result string :=
  importPath ← PackageOf (rs_Resolver (w_res w)) (w_path w); mret (importPath +:+ "." +:+ typeName).

(** [w.posString] of the type of a field at [line]; the rendering of the number
    is part of the error text only. *)
Definition posString (line : Z) : string := w_path w +:+ ":" +:+ pretty line.

(** A row for one field. *)
Definition leaf (name path declared wireType : string) (pointer custom : bool) (tag : fieldTagInfo) (enums : list string)
    : GoField :=
  mkGoField path name declared wireType pointer false custom "" "" 0 (ti_name tag) (ti_omitempty tag) (ti_validate tag)
    enums [].

(** The recursion into the fields of a struct. *)
Context (gather : list field → string → gset string → nat → result (list fieldAtDepth)).

Definition flattenNestedFields (fields : list field) (pathPrefix : string) (visiting : gset string)
    : result (list GoField) :=
  raw ← gather fields pathPrefix visiting 0; mret (resolveShadowing raw).

Definition walkNamedStruct (typeName : string) (fields : list field) (name path : string) (pointer : bool)
    (tag : fieldTagInfo) (visiting : gset string) (depth : nat) : result (list fieldAtDepth) :=
  let declared := if pointer then "*" +:+ typeName else typeName in
  let anonymous := bool_decide (name = "") in
  let bare := leaf name path declared typeName pointer false tag (enumValuesFor tag) in
  if bool_decide (typeName ∈ visiting) then
    mret (if anonymous then [] else [mkAtDepth bare depth []])
  else
    let nextVisiting := {[typeName]} ∪ visiting in
    if anonymous then gather fields "" nextVisiting (S depth)
    else
      children ← flattenNestedFields fields path nextVisiting;
      mret [mkAtDepth bare depth children].

(** What the registries say of an identity. *)
Definition registered (identity : string) : option (string * bool) :=
  match resolveWireType identity (rs_Registry (w_res w)) with
  | inl wireType => Some (wt_Type wireType, true)
  | inr _ => (λ basic, (basic, false)) <$> scalarAliasFor (w_res w) identity
  end.

Definition walkFieldTypeAt (e : expr) (line : Z) (name path : string) (tag : fieldTagInfo) (visiting : gset string)
    (anonymous : bool) (depth : nat) : result (list fieldAtDepth) :=
  let '(pointer, inner) := match e with StarExpr x => (true, x) | _ => (false, e) end in
  let declared := exprString e in
  let enums := enumValuesFor tag in
  let one wireType custom := mret [mkAtDepth (leaf name path declared wireType pointer custom tag enums) depth []] in
  match inner with
  | ArrayType elt =>
      mret [mkAtDepth (mkGoField path name declared (exprString inner) pointer true false (exprString elt) "" 0
                         (ti_name tag) (ti_omitempty tag) (ti_validate tag) enums []) depth []]
  | Ident n =>
      match match qualify n with inl qualified => registered qualified | inr _ => None end with
      | Some (wireType, custom) => one wireType custom
      | None =>
          match w_structs w !! n with
          | Some fields => walkNamedStruct n fields name path pointer tag visiting depth
          | None => one (default n (w_scalars w !! n)) false
          end
      end
  | SelectorExpr (Ident pkg) sel =>
      let selector := pkg +:+ "." +:+ sel in
      match Resolve (rs_Resolver (w_res w)) (w_path w) selector with
      | inr err =>
          inr (Errorf (posString line +:+ ": field " +:+ quoted (fieldLabel name anonymous)
                       +:+ " uses unresolved selector " +:+ quoted selector) (Some err))
      | inl qualified =>
          match registered qualified with
          | Some (wireType, custom) => one wireType custom
          | None => one (if anonymous then qualified else TrimPrefix declared "*") false
          end
      end
  | SelectorExpr _ _ =>
      fail (posString line +:+ ": field " +:+ quoted (fieldLabel name anonymous)
            +:+ " has an unsupported qualified type expression")
  | _ => one (TrimPrefix declared "*") false
  end.

Definition set_position (file : string) (line : Z) (f : GoField) : GoField :=
  if bool_decide (g_File f = "") then
    mkGoField (g_Path f) (g_Name f) (g_DeclaredType f) (g_WireType f) (g_Pointer f) (g_Slice f) (g_CustomMarshaled f)
      (g_ElementType f) file line (g_JSONName f) (g_Omitempty f) (g_Validate f) (g_EnumValues f) (g_StructValidators f)
  else f.

Definition walkFieldType (e : expr) (line : Z) (name path : string) (tag : fieldTagInfo) (visiting : gset string)
    (anonymous : bool) (depth : nat) : result (list fieldAtDepth) :=
  produced ← walkFieldTypeAt e line name path tag visiting anonymous depth;
  mret ((λ p, mkAtDepth (set_position (w_path w) line (fad_field p)) (fad_depth p) (fad_children p)) <$> produced).

Fixpoint concatM (l : list (result (list fieldAtDepth))) : result (list fieldAtDepth) :=
  match l with
  | [] => mret []
  | r :: l' => a ← r; b ← concatM l'; mret (a ++ b)
  end.

Definition child_path (pathPrefix name : string) : string :=
  if bool_decide (pathPrefix = "") then name else pathPrefix +:+ "." +:+ name.

(** The rows of one field declaration. *)
Definition gather_field (pathPrefix : string) (visiting : gset string) (depth : nat) (f : field)
    : result (list fieldAtDepth) :=
  let tag := fieldTag f in
  if ti_skip tag then mret []
  else
    match fd_Names f with
    | [] =>
        if negb (bool_decide (ti_name tag = "")) then
          let typeName := embeddedTypeName (fd_Type f) in
          walkFieldType (fd_Type f) (fd_Line f) typeName (child_path pathPrefix typeName) tag visiting false depth
        else walkFieldType (fd_Type f) (fd_Line f) "" pathPrefix tag visiting true depth
    | names =>
        concatM ((λ n, walkFieldType (fd_Type f) (fd_Line f) n (child_path pathPrefix n) tag visiting false depth) <$> names)
    end.

Definition gather_body (fields : list field) (pathPrefix : string) (visiting : gset string) (depth : nat)
    : result (list fieldAtDepth) :=
  concatM (gather_field pathPrefix visiting depth <$> fields).
End walker.

Fixpoint gatherFields (w : goFileWalker) (fuel : nat) (fields : list field) (pathPrefix : string)
    (visiting : gset string) (depth : nat) : result (list fieldAtDepth) :=
  match fuel with
  | O => fail "out of fuel"
  | S fuel' => gather_body w (gatherFields w fuel') fields pathPrefix visiting depth
  end.

(** As many levels as the file declares structs, and the one the walk starts
    from. *)
Definition walk_fuel (w : goFileWalker) : nat := S (size (w_structs w)).

Definition flattenFields (w : goFileWalker) (fields : list field) (pathPrefix : string) (visiting : gset string)
    : result (list GoField) :=
  raw ← gatherFields w (walk_fuel w) fields pathPrefix visiting 0; mret (resolveShadowing raw).
Definition flattenStructFields (w : goFileWalker) (fields : list field) (visiting : gset string)
    : result (list GoField) := flattenFields w fields "" visiting.

(** ** Constants, features and imports *)

Definition fileConstStrings (file : ast_file) : gmap string string :=
  let specs := flat_map (λ d, match d with GenDecl (CONST | VAR) specs => specs | _ => [] end) (af_Decls file) in
  foldl (λ consts s,
    match s with
    | ValueSpec names values =>
        foldl (λ consts p,
          match p.2 with
          | BasicLit true value => match Unquote value with Some v => <[p.1 := v]> consts | None => consts end
          | _ => consts
          end) consts (zip names values)
    | _ => consts
    end) ∅ specs.

Definition receiverTypeName (e : expr) : string :=
  match match e with StarExpr x => x | _ => e end with Ident name => name | _ => "" end.

Fixpoint resolveReturnedString (consts : gmap string string) (body : list stmt) : string :=
  match body with
  | [] => ""
  | ReturnStmt [BasicLit true value] :: l =>
      match Unquote value with Some v => v | None => resolveReturnedString consts l end
  | ReturnStmt [Ident name] :: l =>
      match consts !! name with Some v => v | None => resolveReturnedString consts l end
  | _ :: l => resolveReturnedString consts l
  end.

Fixpoint resolveReturnedTypeOfArgument (path : string) (line : Z) (resolver : TypeResolver) (body : list stmt)
    : result string :=
  match body with
  | [] => mret ""
  | ReturnStmt [CallExpr (SelectorExpr _ sel) [CompositeLit (Some t) _]] :: l =>
      if bool_decide (sel = "TypeOf") then
        match t with
        | Ident name => mret name
        | SelectorExpr (Ident pkg) name =>
            let selector := pkg +:+ "." +:+ name in
            match Resolve resolver path selector with
            | inl qualified => mret qualified
            | inr err => inr (Errorf (path +:+ ":" +:+ pretty line +:+ ": reflect.TypeOf argument uses unresolved selector "
                                      +:+ quoted selector) (Some err))
            end
        | SelectorExpr _ _ =>
            fail (path +:+ ":" +:+ pretty line +:+ ": reflect.TypeOf argument has an unsupported qualified type expression")
        | _ => resolveReturnedTypeOfArgument path line resolver l
        end
      else resolveReturnedTypeOfArgument path line resolver l
  | _ :: l => resolveReturnedTypeOfArgument path line resolver l
  end.

(** What follows the last slash. *)
Definition after_slash (path : string) : string :=
  of_chars (reverse (until_slash (reverse (chars path)))).

Definition importBindingsFromFile (file : ast_file) : list ImportBinding :=
  omap (λ imp, (λ importPath, mkBinding (default (after_slash importPath) imp.1) importPath) <$> Unquote imp.2)
    (af_Imports file).

Definition new_resolver (path : string) (file : ast_file) : TypeResolver :=
  foldl (λ r b, RegisterImport path b r) newTypeResolver (importBindingsFromFile file).

Definition methodNames : list string := ["GetFeatureName"; "GetRequestType"; "GetResponseType"].

(** One method added to what is known of its receiver. *)
Definition add_method (path : string) (consts : gmap string string) (resolver : TypeResolver) (name : string)
    (body : list stmt) (line : Z) (acc : MethodSetInfo) : result MethodSetInfo :=
  let methods := if bool_decide (name ∈ ms_Methods acc) then ms_Methods acc else ms_Methods acc ++ [name] in
  if bool_decide (name = "GetFeatureName") then
    mret (mkMethodSet (ms_TypeName acc) methods (resolveReturnedString consts body) (ms_RequestType acc)
            (ms_ResponseType acc))
  else
    t ← resolveReturnedTypeOfArgument path line resolver body;
    mret (if bool_decide (name = "GetRequestType")
          then mkMethodSet (ms_TypeName acc) methods (ms_FeatureName acc) t (ms_ResponseType acc)
          else mkMethodSet (ms_TypeName acc) methods (ms_FeatureName acc) (ms_RequestType acc) t).

(** The receivers in the order they are first seen. *)
Fixpoint update_method_set (typeName : string) (f : MethodSetInfo → result MethodSetInfo) (l : list MethodSetInfo)
    : result (list MethodSetInfo) :=
  match l with
  | [] => a ← f (mkMethodSet typeName [] "" "" ""); mret [a]
  | m :: l' =>
      if bool_decide (ms_TypeName m = typeName) then a ← f m; mret (a :: l')
      else r ← update_method_set typeName f l'; mret (m :: r)
  end.

Fixpoint method_sets (path : string) (consts : gmap string string) (resolver : TypeResolver) (decls : list decl)
    (acc : list MethodSetInfo) : result (list MethodSetInfo) :=
  match decls with
  | [] => mret acc
  | FuncDecl (Some (t :: _)) name body line :: l =>
      if bool_decide (name ∈ methodNames) && negb (bool_decide (receiverTypeName t = "")) then
        acc' ← update_method_set (receiverTypeName t) (add_method path consts resolver name (default [] body) line) acc;
        method_sets path consts resolver l acc'
      else method_sets path consts resolver l acc
  | _ :: l => method_sets path consts resolver l acc
  end.

Definition discoverMethodSets (path : string) (file : ast_file) : result (list MethodSetInfo) :=
  method_sets path (fileConstStrings file) (new_resolver path file) (af_Decls file) [].

(** ** Custom marshalers *)

Record marshalerMethods := mkMarshalerMethods { mm_type : string; mm_marshal : bool; mm_unmarshal : bool; mm_line : Z }.

Fixpoint update_marshaler (typeName : string) (marshal : bool) (line : Z) (l : list marshalerMethods)
    : list marshalerMethods :=
  let set m := if marshal then mkMarshalerMethods typeName true (mm_unmarshal m) line
               else mkMarshalerMethods typeName (mm_marshal m) true (mm_line m) in
  match l with
  | [] => [set (mkMarshalerMethods typeName false false 0)]
  | m :: l' => if bool_decide (mm_type m = typeName) then set m :: l' else m :: update_marshaler typeName marshal line l'
  end.

Definition marshaler_methods (file : ast_file) : list marshalerMethods :=
  foldl (λ acc d,
    match d with
    | FuncDecl (Some (t :: _)) name _ line =>
        if bool_decide (name ∈ ["MarshalJSON"; "UnmarshalJSON"]) && negb (bool_decide (receiverTypeName t = ""))
        then update_marshaler (receiverTypeName t) (bool_decide (name = "MarshalJSON")) line acc else acc
    | _ => acc
    end) [] (af_Decls file).

Fixpoint check_marshalers (path pkg : string) (registry : WireTypeRegistry) (l : list marshalerMethods)
    : result (list MarshalerInfo) :=
  match l with
  | [] => mret []
  | m :: l' =>
      let qualified := pkg +:+ "." +:+ mm_type m in
      match wr_Types registry !! qualified with
      | None =>
          fail ("unregistered custom marshaler: type " +:+ mm_type m +:+ " (" +:+ path +:+ ":" +:+ pretty (mm_line m)
                +:+ ") defines a MarshalJSON/UnmarshalJSON pair but is not registered in the wire-type registry under "
                +:+ quoted qualified +:+ " — register its wire representation there")
      | Some _ =>
          infos ← check_marshalers path pkg registry l';
          mret (mkMarshaler (mm_type m) path (mm_line m) :: infos)
      end
  end.

Definition discoverCustomMarshalers (path : string) (file : ast_file) (res : Resolution) : result (list MarshalerInfo) :=
  match filter (λ m, mm_marshal m && mm_unmarshal m = true) (marshaler_methods file) with
  | [] => mret []
  | pairs => pkg ← PackageOf (rs_Resolver res) path; check_marshalers path pkg (rs_Registry res) pairs
  end.

(** ** Validators and value sets *)

(** The calls of a tree in the order [ast.Inspect] visits them. *)
Fixpoint calls_expr (e : expr) : list (expr * list expr) :=
  match e with
  | Ident _ | InterfaceType | BasicLit _ _ => []
  | StarExpr x | SelectorExpr x _ | ArrayType x => calls_expr x
  | MapType k v => calls_expr k ++ calls_expr v
  | CallExpr f args => (f, args) :: calls_expr f ++ flat_map calls_expr args
  | CompositeLit t elts => match t with Some t => calls_expr t | None => [] end ++ flat_map calls_expr elts
  | OtherExpr _ parts body => flat_map calls_expr parts ++ flat_map calls_stmt body
  end
with calls_stmt (s : stmt) : list (expr * list expr) :=
  match s with
  | ReturnStmt results => flat_map calls_expr results
  | SwitchStmt hd clauses =>
      flat_map calls_expr hd ++
      flat_map (λ c, match c.1 with Some l => flat_map calls_expr l | None => [] end ++ flat_map calls_stmt c.2) clauses
  | OtherStmt exprs stmts => flat_map calls_expr exprs ++ flat_map calls_stmt stmts
  end.
Definition file_calls (file : ast_file) : list (expr * list expr) :=
  flat_map (λ d, match d with
                 | GenDecl _ specs => flat_map (λ s, match s with ValueSpec _ vs => flat_map calls_expr vs | _ => [] end) specs
                 | FuncDecl _ _ body _ => flat_map calls_stmt (default [] body)
                 end) (af_Decls file).

Definition discoverStructValidators (file : ast_file) : list string :=
  flat_map (λ c, match c with
                 | (SelectorExpr _ sel, _ :: (_ :: _) as targets) =>
                     if bool_decide (sel = "RegisterStructValidation") then
                       omap (λ a, match a with CompositeLit (Some (Ident n)) _ => Some n | _ => None end) targets
                     else []
                 | _ => []
                 end) (file_calls file).

(** The values of the cases of every outermost switch. *)
Definition case_value (consts : gmap string string) (e : expr) : option string :=
  match e with
  | Ident name => consts !! name
  | BasicLit true value => Unquote value
  | _ => None
  end.
Fixpoint switch_expr (consts : gmap string string) (e : expr) : list string :=
  match e with
  | Ident _ | InterfaceType | BasicLit _ _ => []
  | StarExpr x | SelectorExpr x _ | ArrayType x => switch_expr consts x
  | MapType k v => switch_expr consts k ++ switch_expr consts v
  | CallExpr f args => switch_expr consts f ++ flat_map (switch_expr consts) args
  | CompositeLit t elts =>
      match t with Some t => switch_expr consts t | None => [] end ++ flat_map (switch_expr consts) elts
  | OtherExpr _ parts body => flat_map (switch_expr consts) parts ++ flat_map (switch_stmt consts) body
  end
with switch_stmt (consts : gmap string string) (s : stmt) : list string :=
  match s with
  | ReturnStmt results => flat_map (switch_expr consts) results
  | SwitchStmt _ clauses =>
      flat_map (λ c, match c.1 with Some l => omap (case_value consts) l | None => [] end) clauses
  | OtherStmt exprs stmts => flat_map (switch_expr consts) exprs ++ flat_map (switch_stmt consts) stmts
  end.
Definition extractSwitchCaseValues (consts : gmap string string) (body : option (list stmt)) : list string :=
  flat_map (switch_stmt consts) (default [] body).

(** The functions without receiver, the last of a name. *)
Definition plain_functions (file : ast_file) : list (string * option (list stmt)) :=
  omap (λ d, match d with FuncDecl None name body _ => Some (name, body) | _ => None end) (af_Decls file).
Definition function_bodies (file : ast_file) : gmap string (option (list stmt)) :=
  foldl (λ m p, <[p.1 := p.2]> m) ∅ (plain_functions file).

(** The tag and the function name of a [RegisterValidation] call. *)
Definition validation_call (c : expr * list expr) : option (string * string) :=
  match c with
  | (SelectorExpr _ sel, [BasicLit true tag; Ident fn]) =>
      if bool_decide (sel = "RegisterValidation") then (λ t, (t, fn)) <$> Unquote tag else None
  | _ => None
  end.

Definition extractEnumsFromFile (file : ast_file) : gmap string (list string) :=
  let consts := fileConstStrings file in
  let funcs := function_bodies file in
  foldl (λ enums p, match funcs !! p.2 with
                    | Some body => <[p.1 := extractSwitchCaseValues consts body]> enums
                    | None => enums
                    end) ∅ (omap validation_call (file_calls file)).
Definition extractEnums (file : ast_file) : gmap string (list string) := extractEnumsFromFile file.

Definition discoverValidatorFuncValues (file : ast_file) : gmap string (list string) :=
  let consts := fileConstStrings file in
  foldl (λ out p, match extractSwitchCaseValues consts p.2 with
                  | [] => out
                  | values => <[p.1 := values]> out
                  end) ∅ (plain_functions file).

Definition discoverValidationTagFuncNames (file : ast_file) : gmap string string :=
  foldl (λ out p, <[p.1 := p.2]> out) ∅ (omap validation_call (file_calls file)).

(** ** A file *)

Definition new_walker (path : string) (file : ast_file) (res : Resolution) : goFileWalker :=
  mkWalker path (localStructIndex file).2 (localScalarAliasIndex file)
    (mergeEnumSets (enumRegistry res) (extractEnumsFromFile file)) res.

Fixpoint walk_structs (w : goFileWalker) (names : list string) : result (list StructInfo) :=
  match names with
  | [] => mret []
  | name :: l =>
      fields ← flattenStructFields w (default [] (w_structs w !! name)) {[name]};
      structs ← walk_structs w l;
      mret (mkStructInfo name fields [] :: structs)
  end.

Definition walkGoFile (path : string) (file : ast_file) (res : Resolution) : result (list StructInfo) :=
  walk_structs (new_walker path file res) (localStructIndex file).1.
End walk.
