(* ===== verification/ScGoWalkTheorems.v ===== *)
(** * The schema check: properties of the walk of the Go tree *)

From Stdlib Require Import Ascii Sorting.Sorted.
From S2P Require Import Prelude Ocpp CgIR CgMapping CgPlacement CgSchema CgOverrides CgEmit ScTypes ScGoWalk ScClassify ScClassifyTheorems.
Local Open Scope string_scope.
Local Open Scope list_scope.
Local Open Scope nat_scope.

(** ** Shadowing

    encoding/json sorts the fields of one name by depth, those with a name in
    their tag first, and marshals the first unless the second has the same depth
    and is tagged if the first is ([dominantField]). *)

Section dominance.
Context (tagged : fieldAtDepth → bool).

(** The order of the two keys. *)
Definition json_rank (f : fieldAtDepth) : nat := 2 * fad_depth f + if tagged f then 0 else 1.
Fixpoint json_insert (f : fieldAtDepth) (l : list fieldAtDepth) : list fieldAtDepth :=
  match l with
  | [] => [f]
  | g :: l' => if bool_decide (json_rank f ≤ json_rank g) then f :: l else g :: json_insert f l'
  end.
Definition json_sort (l : list fieldAtDepth) : list fieldAtDepth := foldr json_insert [] l.
Definition dominantField (l : list fieldAtDepth) : option fieldAtDepth :=
  match json_sort l with
  | [] => None
  | [f] => Some f
  | f :: g :: _ =>
      if bool_decide (fad_depth f = fad_depth g) && bool_decide (tagged f = tagged g) then None else Some f
  end.

Lemma json_insert_perm f l : json_insert f l ≡ₚ f :: l.
Proof. induction l as [|g l IH]; simpl; [done|]. case_bool_decide; [done|]. rewrite IH. apply Permutation_swap. Qed.
Lemma json_sort_perm l : json_sort l ≡ₚ l.
Proof. induction l as [|f l IH]; simpl; [done|]. by rewrite json_insert_perm, IH. Qed.
Lemma json_insert_sorted f l :
  StronglySorted (λ a b, json_rank a ≤ json_rank b) l → StronglySorted (λ a b, json_rank a ≤ json_rank b) (json_insert f l).
Proof.
  induction l as [|g l IH]; intros Hs; simpl; [by repeat constructor|].
  apply StronglySorted_inv in Hs as [Hl Hg]. case_bool_decide as E.
  - constructor; [by constructor|]. constructor; [done|]. eapply List.Forall_impl; [|done]. simpl. lia.
  - constructor; [auto|]. rewrite json_insert_perm. constructor; [lia|done].
Qed.
Lemma json_sort_sorted l : StronglySorted (λ a b, json_rank a ≤ json_rank b) (json_sort l).
Proof. induction l as [|f l IH]; simpl; [constructor|by apply json_insert_sorted]. Qed.

Lemma filter_none {A} (P : A → Prop) `{!∀ x, Decision (P x)} (l : list A) : (∀ x, x ∈ l → ¬ P x) → filter P l = [].
Proof.
  induction l as [|x l IH]; intros Hn; [done|]. rewrite filter_cons_False by (apply Hn; left). apply IH. intros y Hy.
  apply Hn. by right.
Qed.

(** The fields of the least rank. *)
Definition at_rank (n : nat) (l : list fieldAtDepth) : list fieldAtDepth := filter (λ f, json_rank f = n) l.

Lemma rank_tie f g : json_rank f = json_rank g ↔ fad_depth f = fad_depth g ∧ tagged f = tagged g.
Proof. unfold json_rank. destruct (tagged f), (tagged g); intuition (congruence || lia). Qed.

Lemma dominant_spec l n :
  (∀ f, f ∈ l → n ≤ json_rank f) → (∃ f, f ∈ l ∧ json_rank f = n) →
  option_list (dominantField l) = if bool_decide (length (at_rank n l) = 1) then at_rank n l else [].
Proof.
  intros Hmin (f0 & Hf0 & Hr). pose proof (json_sort_sorted l) as Hs. pose proof (json_sort_perm l) as Hp.
  assert (Hperm : at_rank n (json_sort l) ≡ₚ at_rank n l) by (unfold at_rank; by rewrite Hp).
  assert (Hin : f0 ∈ json_sort l) by by rewrite Hp.
  assert (Hmin' : ∀ f, f ∈ json_sort l → n ≤ json_rank f) by (intros f; rewrite Hp; apply Hmin).
  unfold dominantField. destruct (json_sort l) as [|f [|g s]]; [by apply elem_of_nil in Hin| |].
  - apply list_elem_of_singleton in Hin as ->. unfold at_rank in Hperm at 1.
    rewrite filter_cons_True, filter_nil in Hperm by done.
    apply Permutation_singleton_l in Hperm as <-. done.
  - apply StronglySorted_inv in Hs as [Hs Hf]. apply StronglySorted_inv in Hs as [_ Hg].
    rewrite List.Forall_forall in Hf, Hg. setoid_rewrite <- list_elem_of_In in Hf. setoid_rewrite <- list_elem_of_In in Hg.
    assert (Hfn : json_rank f = n).
    { apply Nat.le_antisymm; [|apply Hmin'; left]. rewrite <- Hr. apply elem_of_cons in Hin as [->|Hin]; [done|]. by apply Hf. }
    unfold at_rank in Hperm at 1. rewrite filter_cons_True in Hperm by done.
    destruct (decide (json_rank g = n)) as [Hgn|Hgn].
    + rewrite filter_cons_True in Hperm by done. destruct (proj1 (rank_tie f g) ltac:(congruence)) as [-> ->].
      rewrite !bool_decide_true by done. simpl. rewrite bool_decide_false; [done|].
      rewrite <- Hperm. simpl. lia.
    + assert (Hno : filter (λ h, json_rank h = n) (g :: s) = []).
      { apply filter_none. intros h Hh Hn. apply elem_of_cons in Hh as [->|Hh]; [done|].
        pose proof (Hg h Hh). assert (n ≤ json_rank g) by (apply Hmin'; set_solver). lia. }
      rewrite Hno in Hperm. apply Permutation_singleton_l in Hperm. rewrite <- Hperm. simpl.
      assert (Hne : ¬ (fad_depth f = fad_depth g ∧ tagged f = tagged g)) by (rewrite <- rank_tie; congruence).
      repeat case_bool_decide; simpl; try done. by destruct Hne.
Qed.

End dominance.

Lemma json_insert_ext t1 t2 f l :
  (∀ g, g ∈ f :: l → t1 g = t2 g) → json_insert t1 f l = json_insert t2 f l.
Proof.
  induction l as [|g l IH]; intros Ht; simpl; [done|]. unfold json_rank. rewrite !Ht by set_solver.
  case_bool_decide; [done|]. f_equal. apply IH. set_solver.
Qed.
Lemma json_sort_ext t1 t2 l : (∀ g, g ∈ l → t1 g = t2 g) → json_sort t1 l = json_sort t2 l.
Proof.
  induction l as [|f l IH]; intros Ht; simpl; [done|]. rewrite IH by set_solver. apply json_insert_ext.
  intros g Hg. apply Ht. rewrite <-(json_sort_perm t2 l). set_solver.
Qed.
Lemma dominantField_ext t1 t2 l : (∀ g, g ∈ l → t1 g = t2 g) → dominantField t1 l = dominantField t2 l.
Proof.
  intros Ht. unfold dominantField. rewrite (json_sort_ext t1 t2 l Ht).
  pose proof (json_sort_perm t2 l) as Hp. destruct (json_sort t2 l) as [|f [|g s]]; [done|done|].
  rewrite !Ht; [done|rewrite <-Hp; set_solver..].
Qed.

(** The name and the tag the walk goes by. *)
Definition is_tagged (f : fieldAtDepth) : bool := negb (bool_decide (g_JSONName (fad_field f) = "")).
Definition of_name (key : string) (raw : list fieldAtDepth) : list fieldAtDepth :=
  filter (λ f, shadowKey (fad_field f) = key) raw.
Local Abbreviation rank := (json_rank is_tagged).
Local Abbreviation ranked := (at_rank is_tagged).

(** What the two loops compute of a name. *)
Lemma min_depths_spec raw key :
  match min_depths raw !! key with
  | Some d => (∃ f, f ∈ of_name key raw ∧ fad_depth f = d) ∧ ∀ f, f ∈ of_name key raw → d ≤ fad_depth f
  | None => of_name key raw = []
  end.
Proof.
  unfold min_depths. induction raw as [|f raw IH] using rev_ind; [done|].
  rewrite foldl_snoc. unfold of_name in *. rewrite filter_app. cbn [foldl].
  set (m := foldl _ _ _) in *. set (G := filter _ raw) in *.
  destruct (decide (shadowKey (fad_field f) = key)) as [Hk|Hk].
  - rewrite Hk, filter_cons_True, filter_nil by done.
    destruct (m !! key) as [d|] eqn:E.
    + destruct IH as [(g & Hg & Hd) Hmin]. case_bool_decide as Hlt.
      * rewrite lookup_insert_eq. split; [exists f; set_solver|].
        intros h [Hh| ->%list_elem_of_singleton]%elem_of_app; [|done]. specialize (Hmin h Hh). lia.
      * rewrite E. split; [exists g; set_solver|].
        intros h [Hh| ->%list_elem_of_singleton]%elem_of_app; [by apply Hmin|lia].
    + rewrite lookup_insert_eq, IH. simpl. split; [exists f; set_solver|]. by intros h ->%list_elem_of_singleton.
  - rewrite filter_cons_False, filter_nil, app_nil_r by done.
    destruct (m !! shadowKey (fad_field f)); [case_bool_decide|]; rewrite ?lookup_insert_ne by done; exact IH.
Qed.

Lemma counts_spec minDepth raw key :
  let at_min := filter (λ f, Some (fad_depth f) = minDepth !! key) (of_name key raw) in
  default 0 ((counts minDepth raw).1 !! key) = length at_min ∧
  default 0 ((counts minDepth raw).2 !! key) = length (filter (λ f, is_tagged f = true) at_min).
Proof.
  simpl. unfold counts. induction raw as [|f raw IH] using rev_ind; [done|].
  rewrite foldl_snoc. unfold of_name in *. rewrite !filter_app. cbn [foldl].
  set (acc := foldl _ _ _) in *. set (G := filter _ (filter _ raw)) in *. destruct IH as [IH1 IH2].
  assert (Hb : ∀ k m, default 0 (bump k m !! key) = if decide (k = key) then S (default 0 (m !! key)) else default 0 (m !! key)).
  { intros k m. unfold bump. case_decide as E; [by subst; rewrite lookup_insert_eq|by rewrite lookup_insert_ne]. }
  destruct (decide (shadowKey (fad_field f) = key)) as [Hk|Hk].
  - rewrite (filter_cons_True _ f), filter_nil by done. rewrite Hk.
    destruct (decide (Some (fad_depth f) = minDepth !! key)) as [Hd|Hd].
    + rewrite (bool_decide_true (Some _ = _)) by done. cbn [fst snd].
      rewrite (filter_cons_True _ f), filter_nil, !length_app by done. rewrite Hb, decide_True by done.
      split; [rewrite IH1; simpl; lia|].
      destruct (decide (is_tagged f = true)) as [Ht|Ht].
      * rewrite filter_cons_True, filter_nil by done. unfold is_tagged in Ht.
        case_bool_decide; [done|]. rewrite Hb, decide_True by done. rewrite IH2. simpl. lia.
      * rewrite filter_cons_False, filter_nil by done. unfold is_tagged in Ht.
        case_bool_decide; [|done]. rewrite IH2. simpl. lia.
    + rewrite (bool_decide_false (Some _ = _)) by done. rewrite (filter_cons_False _ f), !filter_nil, !app_nil_r by done. done.
  - rewrite (filter_cons_False _ f), !filter_nil, !app_nil_r by done.
    case_bool_decide; [|done]. cbn [fst snd]. rewrite Hb, decide_False by done. split; [done|].
    case_bool_decide; [done|]. by rewrite Hb, decide_False.
Qed.

Lemma filter_ext_in {A} (P Q : A → Prop) `{!∀ x, Decision (P x), !∀ x, Decision (Q x)} (l : list A) :
  (∀ x, x ∈ l → P x ↔ Q x) → filter P l = filter Q l.
Proof.
  induction l as [|x l IH]; intros Hx; [done|].
  assert (Hl : filter P l = filter Q l) by (apply IH; intros; apply Hx; by right).
  destruct (decide (P x)) as [HP|HP].
  - rewrite !filter_cons_True; [by rewrite Hl|by apply Hx; [left|]|done].
  - rewrite !filter_cons_False; [done|by rewrite <- Hx by left|done].
Qed.

(** The least rank of a name, and who survives. *)
Lemma survives_spec raw key d :
  min_depths raw !! key = Some d →
  ∃ n, (∀ f, f ∈ of_name key raw → n ≤ rank f) ∧ (∃ f, f ∈ of_name key raw ∧ rank f = n) ∧
    ∀ f, f ∈ of_name key raw →
      survives raw f = true ↔ rank f = n ∧ length (ranked n (of_name key raw)) = 1.
Proof.
  intros Hd. pose proof (min_depths_spec raw key) as Hm. rewrite Hd in Hm. destruct Hm as [(g & Hg & Hgd) Hmin].
  destruct (counts_spec (min_depths raw) raw key) as [Hc Ht]. rewrite Hd in Hc, Ht.
  set (G := of_name key raw) in *. set (A := filter (λ f, Some (fad_depth f) = Some d) G) in *.
  set (T := filter (λ f, is_tagged f = true) A) in *.
  assert (HA : ∀ f, f ∈ A ↔ f ∈ G ∧ fad_depth f = d).
  { intros f. unfold A. rewrite list_elem_of_filter. naive_solver. }
  assert (HT : ∀ f, f ∈ T ↔ f ∈ G ∧ fad_depth f = d ∧ is_tagged f = true).
  { intros f. unfold T. rewrite list_elem_of_filter, HA. naive_solver. }
  assert (Hkey : ∀ f, f ∈ G → survives raw f =
            bool_decide (fad_depth f = d) && survivesShadowing (fad_field f) (length A) (length T)).
  { intros f Hf. unfold survives. apply list_elem_of_filter in Hf as [-> _]. rewrite Hd.
    destruct (counts (min_depths raw) raw) as [c1 c2]. simpl in Hc, Ht. rewrite Hc, Ht.
    f_equal. apply bool_decide_ext. naive_solver. }
  destruct (decide (T = [])) as [HT0|HT0].
  - assert (Hun : ∀ f, f ∈ G → fad_depth f = d → is_tagged f = false).
    { intros f Hf Hfd. destruct (is_tagged f) eqn:E; [|done]. assert (f ∈ T) by by apply HT. rewrite HT0 in *. set_solver. }
    exists (2 * d + 1).
    assert (HR : ∀ f, f ∈ G → rank f = 2 * d + 1 ↔ fad_depth f = d).
    { intros f Hf. unfold json_rank. destruct (is_tagged f) eqn:E; [|lia]. split; [lia|]. intros Hfd.
      rewrite (Hun f Hf Hfd) in E. done. }
    split; [|split].
    + intros f Hf. specialize (Hmin f Hf). unfold json_rank. destruct (is_tagged f) eqn:E; [|lia].
      assert (fad_depth f ≠ d) by (intros Hfd; by rewrite (Hun f Hf Hfd) in E). lia.
    + exists g. split; [done|]. by apply HR.
    + intros f Hf. rewrite Hkey, HR by done. rewrite HT0.
      assert (HAeq : ranked (2 * d + 1) G = A) by (apply filter_ext_in; intros h Hh; rewrite HR by done; naive_solver).
      rewrite HAeq. unfold survivesShadowing. simpl. rewrite andb_true_iff, !bool_decide_eq_true. done.
  - exists (2 * d).
    assert (HR : ∀ f, rank f = 2 * d ↔ fad_depth f = d ∧ is_tagged f = true).
    { intros f. unfold json_rank. destruct (is_tagged f); split; intuition (done || lia). }
    assert (HTeq : ranked (2 * d) G = T).
    { unfold T, A, at_rank. rewrite list_filter_filter. apply filter_ext_in. intros h _. rewrite HR. naive_solver. }
    split; [|split].
    + intros f Hf. specialize (Hmin f Hf). unfold json_rank. lia.
    + destruct T as [|t T']; [done|]. destruct (proj1 (HT t) ltac:(left)) as (? & ? & ?). exists t. split; [done|].
      by apply HR.
    + intros f Hf. rewrite Hkey, HR, HTeq by done. unfold survivesShadowing.
      destruct (bool_decide_reflect (length T = 1)) as [E|E]; simpl.
      * rewrite andb_true_iff, bool_decide_eq_true. unfold is_tagged. naive_solver.
      * rewrite (bool_decide_false (length T = 0)) by (by destruct T). simpl. rewrite andb_false_r. naive_solver.
Qed.

Lemma survivors_dominant raw key :
  filter (λ f, survives raw f = true) (of_name key raw) = option_list (dominantField is_tagged (of_name key raw)).
Proof.
  destruct (min_depths raw !! key) as [d|] eqn:Hd.
  - destruct (survives_spec raw key d Hd) as (n & Hmin & Hex & Hs).
    rewrite (dominant_spec is_tagged _ n Hmin Hex). case_bool_decide as E.
    + apply filter_ext_in. intros f Hf. rewrite Hs by done. naive_solver.
    + apply filter_none. intros f Hf. rewrite Hs by done. naive_solver.
  - pose proof (min_depths_spec raw key) as Hm. rewrite Hd in Hm. by rewrite Hm.
Qed.

#[export] Instance GoField_eq_dec : EqDecision GoField.
Proof. solve_decision. Defined.
#[export] Instance fieldAtDepth_eq_dec : EqDecision fieldAtDepth.
Proof. solve_decision. Defined.

Lemma survives_dominant raw f :
  f ∈ raw → survives raw f = bool_decide (dominantField is_tagged (of_name (shadowKey (fad_field f)) raw) = Some f).
Proof.
  intros Hf. set (key := shadowKey (fad_field f)).
  apply eq_bool_prop_intro. rewrite !Is_true_true, bool_decide_eq_true.
  assert (Hk : f ∈ of_name key raw) by by apply list_elem_of_filter.
  transitivity (f ∈ filter (λ f, survives raw f = true) (of_name key raw)).
  { rewrite list_elem_of_filter. naive_solver. }
  rewrite survivors_dominant. destruct (dominantField _ _); simpl; [rewrite list_elem_of_singleton|rewrite elem_of_nil];
    naive_solver.
Qed.

(** encoding/json's own rules for a field: it is marshalled if its Go name is
    exported, under the name in its tag if that is valid, and under its Go name
    otherwise. *)
Definition exported (name : string) : bool :=
  match chars name with c :: _ => let n := Ascii.nat_of_ascii c in (65 <=? n) && (n <=? 90) | [] => false end.
Definition tag_char (c : ascii) : bool :=
  let n := Ascii.nat_of_ascii c in
  ((65 <=? n) && (n <=? 90)) || ((97 <=? n) && (n <=? 122)) || ((48 <=? n) && (n <=? 57)) ||
  bool_decide (c ∈ chars "!#$%&()*+-./:;<=>?@[]^_{|}~ ").
Definition isValidTag (tag : string) : bool := negb (bool_decide (tag = "")) && forallb tag_char (chars tag).
Definition json_name (f : GoField) : string := if isValidTag (g_JSONName f) then g_JSONName f else g_Name f.
Definition json_tagged (f : fieldAtDepth) : bool := isValidTag (g_JSONName (fad_field f)).

(** The field that encoding/json marshals for a name, and the rows of a struct. *)
Definition json_candidates (key : string) (raw : list fieldAtDepth) : list fieldAtDepth :=
  filter (λ f, exported (g_Name (fad_field f)) = true ∧ json_name (fad_field f) = key) raw.
Definition json_marshals (raw : list fieldAtDepth) (f : fieldAtDepth) : bool :=
  bool_decide (dominantField json_tagged (json_candidates (json_name (fad_field f)) raw) = Some f).
Definition json_rows (raw : list fieldAtDepth) : list GoField :=
  flat_map (λ f, if json_marshals raw f then fad_field f :: fad_children f else []) raw.

(** The rows the walk is made for: a field with an exported name and no invalid name
    in its tag.  An embedded type of another package without a tag has no name. *)
Definition json_field (f : fieldAtDepth) : Prop :=
  exported (g_Name (fad_field f)) = true ∧ (g_JSONName (fad_field f) = "" ∨ isValidTag (g_JSONName (fad_field f)) = true).

Lemma json_field_name f : json_field f → json_name (fad_field f) = shadowKey (fad_field f) ∧ json_tagged f = is_tagged f.
Proof.
  intros [_ [Ht|Ht]]; unfold json_name, json_tagged, shadowKey, is_tagged; rewrite Ht; [done|].
  unfold isValidTag in Ht. apply andb_true_iff in Ht as [Ht _]. by case_bool_decide.
Qed.

(** C38: of the fields gathered for a struct, its own and those promoted through
    embedding, exactly those are kept that encoding/json marshals, by its own rules
    for names: for each JSON name the dominant field (the shallowest, and of those the
    one with a name in its tag), and none where the name is ambiguous.  The gathered
    fields have exported Go names and their tags no invalid names ([json_field]); for
    other rows see [opaque_embeddings_dropped] and [unexported_field_shadows]. *)
Theorem shadowing_is_json raw : Forall json_field raw → resolveShadowing raw = json_rows raw.
Proof.
  intros Hraw. rewrite Forall_forall in Hraw. unfold resolveShadowing, json_rows.
  assert (H : ∀ f, f ∈ raw → survives raw f = json_marshals raw f).
  { intros f Hf. rewrite survives_dominant by done. unfold json_marshals.
    rewrite (proj1 (json_field_name f (Hraw f Hf))).
    assert (json_candidates (shadowKey (fad_field f)) raw = of_name (shadowKey (fad_field f)) raw) as ->.
    { apply filter_ext_in. intros g Hg. destruct (json_field_name g (Hraw g Hg)) as [-> _].
      destruct (Hraw g Hg) as [? _]. tauto. }
    apply bool_decide_ext. rewrite (dominantField_ext json_tagged is_tagged); [done|].
    intros g [_ Hg]%list_elem_of_filter. apply json_field_name. by apply Hraw. }
  set (s := survives raw) in *. set (j := json_marshals raw) in *. clearbody s j. clear Hraw.
  induction raw as [|f l IH]; simpl; [done|]. rewrite H by left. f_equal. apply IH. intros g Hg. apply H. by right.
Qed.

Module ShadowDemo.
Definition row (name json type : string) (depth : nat) : fieldAtDepth :=
  mkAtDepth (mkGoField name name type type false false false "" "f.go" 1 json false [] [] []) depth [].
(** An id in the struct, two promoted ones, and two claims of a name one of which is
    in a tag. *)
Definition promoted : list fieldAtDepth :=
  [row "ID" "id" "string" 0; row "Id" "id" "int" 1; row "Name" "" "string" 1; row "Label" "Name" "string" 1].
End ShadowDemo.
Import ShadowDemo.

Lemma shadowing_is_json_witness :
  resolveShadowing promoted = json_rows promoted ∧ g_Name <$> resolveShadowing promoted = ["ID"; "Label"].
Proof.
  split; [|vm_compute; reflexivity]. apply shadowing_is_json.
  repeat (constructor; [split; [vm_compute; reflexivity|first [left; reflexivity|right; vm_compute; reflexivity]]|]). constructor.
Defined.

(** two embedded structs of other packages without tags have no name and are dropped
    as if they shared one, although nothing shadows them: encoding/json promotes the
    fields of both. *)
Theorem opaque_embeddings_dropped :
  let a := row "" "" "types.A" 0 in let b := row "" "" "types.B" 0 in
  resolveShadowing [a; b] = [] ∧ resolveShadowing [a] = [fad_field a] ∧ resolveShadowing [b] = [fad_field b].
Proof. by vm_compute. Qed.

(** an unexported field takes part like any other: it hides the promoted field of
    its name, which encoding/json marshals. *)
Theorem unexported_field_shadows :
  let own := row "id" "" "string" 0 in let deeper := row "ID" "id" "string" 1 in
  resolveShadowing [own; deeper] = [fad_field own] ∧ json_rows [own; deeper] = [fad_field deeper].
Proof. by vm_compute. Qed.

(** one field with a name in its tag wins over others of the same depth, although
    the comments on [flattenFields] and [resolveShadowing] say that every collision
    at the same depth drops all. *)
Theorem tagged_collision_kept :
  let plain := row "Name" "" "string" 1 in let tagged := row "Label" "Name" "string" 1 in
  resolveShadowing [plain; tagged] = [fad_field tagged].
Proof. by vm_compute. Qed.

(** ** The depth of the walk *)

Section fuel.
Context (Unquote : string → option string) (w : goFileWalker).

(** Two recursions that agree on the structs not yet entered. *)
Definition agree (g1 g2 : list field → string → gset string → nat → CgSchema.result (list fieldAtDepth)) (visiting : gset string) : Prop :=
  ∀ t, t ∈ dom (w_structs w) → t ∉ visiting →
    ∀ fields prefix depth, g1 fields prefix ({[t]} ∪ visiting) depth = g2 fields prefix ({[t]} ∪ visiting) depth.

Lemma named_struct_agree g1 g2 t fields name path pointer tag visiting depth :
  agree g1 g2 visiting → t ∈ dom (w_structs w) →
  walkNamedStruct w g1 t fields name path pointer tag visiting depth =
  walkNamedStruct w g2 t fields name path pointer tag visiting depth.
Proof.
  intros Ha Ht. unfold walkNamedStruct, flattenNestedFields. case_bool_decide as Hv; [done|].
  by case_bool_decide; rewrite (Ha t Ht Hv).
Qed.

Lemma field_type_agree g1 g2 e line name path tag visiting anonymous depth :
  agree g1 g2 visiting →
  walkFieldType w g1 e line name path tag visiting anonymous depth =
  walkFieldType w g2 e line name path tag visiting anonymous depth.
Proof.
  intros Ha. unfold walkFieldType. f_equal. unfold walkFieldTypeAt.
  destruct (match e with StarExpr x => (true, x) | _ => (false, e) end) as [pointer inner].
  destruct inner as [n| | | | | | | | |]; try done.
  destruct (match qualify w n with inl q => registered w q | inr _ => None end) as [[]|]; [done|].
  destruct (w_structs w !! n) eqn:E; [|done]. apply named_struct_agree; [done|]. by eapply elem_of_dom_2.
Qed.

Lemma gather_body_agree g1 g2 fields prefix visiting depth :
  agree g1 g2 visiting →
  gather_body Unquote w g1 fields prefix visiting depth = gather_body Unquote w g2 fields prefix visiting depth.
Proof.
  intros Ha. unfold gather_body. f_equal. apply list_fmap_ext. intros _ f _. unfold gather_field.
  destruct (ti_skip _); [done|]. destruct (fd_Names f) as [|n ns]; [case_match; by apply field_type_agree|].
  f_equal. apply list_fmap_ext. intros. by apply field_type_agree.
Qed.

Lemma gatherFields_stable n : ∀ fields prefix visiting depth,
  size (dom (w_structs w) ∖ visiting) < n →
  gatherFields Unquote w (S n) fields prefix visiting depth = gatherFields Unquote w n fields prefix visiting depth.
Proof.
  induction n as [|n IH]; intros fields prefix visiting depth Hn; [lia|].
  change (gather_body Unquote w (gatherFields Unquote w (S n)) fields prefix visiting depth =
          gather_body Unquote w (gatherFields Unquote w n) fields prefix visiting depth).
  apply gather_body_agree. intros t Ht Hv fields' prefix' depth'. apply IH.
  assert (dom (w_structs w) ∖ ({[t]} ∪ visiting) ⊂ dom (w_structs w) ∖ visiting) as Hs%subset_size by set_solver. lia.
Qed.

(** The depth the walk is given is enough: more changes nothing, so the recursion
    that the walk stands for ends. *)
Theorem walk_depth_enough n fields prefix visiting depth :
  walk_fuel w ≤ n →
  gatherFields Unquote w n fields prefix visiting depth =
  gatherFields Unquote w (walk_fuel w) fields prefix visiting depth.
Proof.
  intros Hn. induction Hn as [|n Hn IH]; [done|]. rewrite <- IH. apply gatherFields_stable.
  unfold walk_fuel in Hn. rewrite <- size_dom in Hn.
  assert (size (dom (w_structs w) ∖ visiting) ≤ size (dom (w_structs w))) by (apply subseteq_size; set_solver). lia.
Qed.
End fuel.

(** ** Aliases of scalars *)

(** The declarations lead from [name] to the basic type [b], in [h] steps. *)
Inductive alias_of (direct : gmap string string) : nat → string → string → Prop :=
| alias_basic name next b : direct !! name = Some next → assoc next goBasicTypeNames = Some b → alias_of direct 1 name b
| alias_named h name next b :
    direct !! name = Some next → assoc next goBasicTypeNames = None → alias_of direct h next b →
    alias_of direct (S h) name b.

Lemma alias_of_fun direct h1 name b1 : alias_of direct h1 name b1 → ∀ h2 b2, alias_of direct h2 name b2 → h1 = h2.
Proof.
  induction 1 as [name next b Hn Hb|h name next b Hn Hb Ha IH]; intros h2 b2 H2; inversion H2; subst; simplify_eq; [done|].
  f_equal. by eapply IH.
Qed.

Lemma alias_names direct h name b :
  alias_of direct h name b →
  ∃ l, length l = h ∧ NoDup l ∧ (∀ x, x ∈ l → x ∈ dom direct ∧ ∃ k, k ≤ h ∧ alias_of direct k x b).
Proof.
  induction 1 as [name next b Hn Hb|h name next b Hn Hb Ha (l & Hl & Hnd & Hin)].
  - exists [name]. split; [done|]. split; [apply NoDup_singleton|]. intros x ->%list_elem_of_singleton.
    split; [by eapply elem_of_dom_2|]. exists 1. split; [done|]. by econstructor.
  - assert (Hname : alias_of direct (S h) name b) by by econstructor.
    exists (name :: l). split; [simpl; lia|]. split.
    + constructor; [|done]. intros Hx. destruct (Hin _ Hx) as (_ & k & Hk & Hak).
      pose proof (alias_of_fun _ _ _ _ Hname _ _ Hak). lia.
    + intros x [->|Hx]%elem_of_cons.
      * split; [by eapply elem_of_dom_2|]. by exists (S h).
      * destruct (Hin x Hx) as (Hd & k & Hk & Hak). split; [done|]. exists k. split; [lia|done].
Qed.

Lemma alias_height direct h name b : alias_of direct h name b → h ≤ size direct.
Proof.
  intros (l & <- & Hnd & Hin)%alias_names. rewrite <- size_dom, <- (size_list_to_set (C:=gset string) l Hnd).
  apply subseteq_size. intros x Hx%elem_of_list_to_set. by apply Hin.
Qed.

Lemma follow_alias_reaches direct hops : ∀ name b, follow_alias direct hops name = Some b → ∃ h, alias_of direct h name b.
Proof.
  induction hops as [|hops IH]; intros name b; [done|]. cbn [follow_alias].
  destruct (direct !! name) as [next|] eqn:Hn; [|done].
  destruct (assoc next goBasicTypeNames) as [basic|] eqn:Hb; [intros [= <-]; exists 1; by econstructor|].
  intros (h & Ha)%IH. exists (S h). by econstructor.
Qed.
Lemma follow_alias_complete direct h name b : alias_of direct h name b → ∀ hops, h ≤ hops → follow_alias direct hops name = Some b.
Proof.
  induction 1 as [name next b Hn Hb|h name next b Hn Hb Ha IH]; intros [|hops] Hh; try lia; cbn [follow_alias];
    rewrite Hn, Hb; [done|]. apply IH. lia.
Qed.

(** The bounded search for the scalar behind a name finds it exactly if the
    declarations lead there; on a cycle of declarations it ends without one. *)
Theorem alias_chain_exact direct name b :
  resolveScalarAliasChain name direct = Some b ↔ ∃ h, alias_of direct h name b.
Proof.
  unfold resolveScalarAliasChain. split; [apply follow_alias_reaches|].
  intros (h & Ha). apply (follow_alias_complete _ h); [done|]. pose proof (alias_height _ _ _ _ Ha). lia.
Qed.

(** ** Declared types of the rows *)

(** A type whose source text does not start with a star; the other kinds of nodes
    are rendered with their dynamic type, which does. *)
Definition plain_type (e : expr) : Prop :=
  match e with
  | StarExpr _ | ArrayType _ | MapType _ _ | InterfaceType => True
  | Ident n => HasPrefix n "*" = false
  | SelectorExpr (Ident p) _ => p ≠ "" ∧ HasPrefix p "*" = false
  | _ => False
  end.

Definition star_ok (f : GoField) : Prop := HasPrefix (g_DeclaredType f) "*" = g_Pointer f.

Lemma HasPrefix_star s : HasPrefix s "*" = true ↔ ∃ l, chars s = "*"%char :: l.
Proof.
  unfold HasPrefix. rewrite bool_decide_eq_true. destruct (chars s) as [|c l]; cbn; [split; [done|by intros [? ?]]|].
  split; [intros [= ->]; by exists l|intros [? [= -> _]]; done].
Qed.
Lemma HasPrefix_app s t : s ≠ "" → HasPrefix (s +:+ t) "*" = HasPrefix s "*".
Proof.
  intros Hs. apply eq_bool_prop_intro. rewrite !Is_true_true, !HasPrefix_star, chars_app.
  destruct (chars s) as [|c l] eqn:E; [|split; intros [l' [= -> _]]; eauto].
  destruct Hs. rewrite <- (of_chars_inv s), E. done.
Qed.

Lemma exprString_star e :
  plain_type e → HasPrefix (exprString e) "*" = match e with StarExpr _ => true | _ => false end.
Proof.
  destruct e as [n|x|x sel|elt|k v| | | | |]; simpl; try done.
  destruct x; try done. simpl. intros [Hp Hs]. by rewrite HasPrefix_app.
Qed.

(** The rows of a result, with those below them. *)
Definition rows (l : list fieldAtDepth) : list GoField := flat_map (λ f, fad_field f :: fad_children f) l.
Definition all_ok (r : CgSchema.result (list fieldAtDepth)) : Prop :=
  match r with inl l => Forall star_ok (rows l) | inr _ => True end.

Lemma rows_app l1 l2 : rows (l1 ++ l2) = rows l1 ++ rows l2.
Proof. apply flat_map_app. Qed.

Lemma concatM_ok l : Forall all_ok l → all_ok (concatM l).
Proof.
  induction 1 as [|r l Hr Hl IH]; [constructor|]. simpl. destruct r as [a|]; [|done]. simpl.
  destruct (concatM l) as [b|]; [|done]. simpl in *. rewrite rows_app. by apply Forall_app.
Qed.

Lemma shadowing_rows raw f : f ∈ resolveShadowing raw → f ∈ rows raw.
Proof.
  unfold resolveShadowing, rows. rewrite !list_elem_of_In, !in_flat_map. intros (x & Hx & Hf). exists x.
  destruct (survives raw x); [done|]. by destruct Hf.
Qed.

Section regular.
Context (Unquote : string → option string) (w : goFileWalker).
Context (plain : ∀ t fields f, w_structs w !! t = Some fields → f ∈ fields → plain_type (fd_Type f)).

Lemma named_struct_ok gather t fields name path pointer tag visiting depth :
  (∀ prefix v d, all_ok (gather fields prefix v d)) → HasPrefix t "*" = false →
  all_ok (walkNamedStruct w gather t fields name path pointer tag visiting depth).
Proof.
  intros Hg Ht. unfold walkNamedStruct, flattenNestedFields.
  assert (Hbare : star_ok (leaf name path (if pointer then "*" +:+ t else t) t pointer false tag (enumValuesFor w tag))).
  { unfold star_ok, leaf. simpl. destruct pointer; [|done]. apply HasPrefix_star. eexists. by rewrite chars_app. }
  case_bool_decide; [case_bool_decide; simpl; by repeat constructor|]. case_bool_decide; [done|].
  specialize (Hg path ({[t]} ∪ visiting) 0). destruct (gather _ _ _ _) as [raw|]; simpl in *; [|done].
  constructor; [done|]. rewrite app_nil_r. rewrite Forall_forall in Hg |- *. intros f Hf. by apply Hg, shadowing_rows.
Qed.

Lemma field_type_ok gather e line name path tag visiting anonymous depth :
  (∀ t fields prefix v d, w_structs w !! t = Some fields → all_ok (gather fields prefix v d)) → plain_type e →
  (∀ t, t ∈ dom (w_structs w) → HasPrefix t "*" = false) →
  all_ok (walkFieldType w gather e line name path tag visiting anonymous depth).
Proof.
  intros Hg He Hs. unfold walkFieldType.
  assert (Hmap : ∀ r, all_ok r → all_ok (produced ← r; mret
    ((λ p, mkAtDepth (set_position (w_path w) line (fad_field p)) (fad_depth p) (fad_children p)) <$> produced))).
  { intros [l|]; [|done]. simpl. induction l as [|p l IH]; simpl; [done|]. intros Hall.
    rewrite Forall_cons, Forall_app in Hall |- *. destruct Hall as (Hp & Hc & Hl).
    split; [|split; [done|by apply IH]]. unfold star_ok, set_position. by case_bool_decide. }
  apply Hmap. unfold walkFieldTypeAt. pose proof (exprString_star e He) as Hstar.
  assert (Hone : ∀ wt c, all_ok (mret [mkAtDepth (leaf name path (exprString e) wt
            (match e with StarExpr _ => true | _ => false end) c tag (enumValuesFor w tag)) depth []]))
    by (intros; simpl; by repeat constructor).
  assert (Hn : ∀ n pointer, match w_structs w !! n with
      | Some fields => all_ok (walkNamedStruct w gather n fields name path pointer tag visiting depth) | None => True end).
  { intros n pointer. destruct (w_structs w !! n) eqn:E; [|done].
    apply named_struct_ok; [by intros; eapply Hg|]. apply Hs. by eapply elem_of_dom_2. }
  destruct e as [n|x| | | | | | | |]; [|destruct x as [n| |y sel| | | | | | |]|..]; try (apply Hone); try done.
  all: try (by simpl; repeat constructor).
  all: repeat case_match; simplify_eq/=; try (apply Hone); try done.
  all: try (by repeat constructor).
  all: match goal with H : w_structs w !! ?n = Some _ |- all_ok (walkNamedStruct _ _ _ _ _ _ ?p _ _ _) =>
         specialize (Hn n p); by rewrite H in Hn end.
Qed.

Lemma gather_ok (names : ∀ t, t ∈ dom (w_structs w) → HasPrefix t "*" = false) n : ∀ fields prefix visiting depth,
  (∀ f, f ∈ fields → plain_type (fd_Type f)) → all_ok (gatherFields Unquote w n fields prefix visiting depth).
Proof.
  induction n as [|n IH]; intros fields prefix visiting depth Hf; [done|]. cbn [gatherFields]. unfold gather_body.
  apply concatM_ok. rewrite Forall_fmap, Forall_forall. intros f Hin. simpl. unfold gather_field.
  assert (Hgo : ∀ t fs p v d, w_structs w !! t = Some fs → all_ok (gatherFields Unquote w n fs p v d)).
  { intros t fs p v d Ht. apply IH. intros g Hg. by eapply plain. }
  destruct (ti_skip _); [constructor|]. destruct (fd_Names f) as [|m ms].
  - case_match; apply field_type_ok; auto.
  - apply concatM_ok. rewrite Forall_fmap, Forall_forall. intros m' _. simpl. apply field_type_ok; auto.
Qed.
End regular.

(** The struct declarations of a file have plain field types and names that are
    identifiers. *)
Definition plain_file (file : ast_file) : Prop :=
  map_Forall (λ t fields, HasPrefix t "*" = false ∧ ∀ f, f ∈ fields → plain_type (fd_Type f)) (localStructIndex file).2.

(** In every row of a walked file the declared type starts with a star exactly if
    the field is recorded as a pointer. *)
Theorem walked_pointers Unquote path file res structs s f :
  plain_file file → walkGoFile Unquote path file res = inl structs → s ∈ structs → f ∈ st_Fields s → star_ok f.
Proof.
  intros Hp. unfold walkGoFile. set (w := new_walker Unquote path file res).
  assert (Hnames : ∀ t, t ∈ dom (w_structs w) → HasPrefix t "*" = false)
    by (intros t [fields Ht]%elem_of_dom; by apply (Hp t fields Ht)).
  assert (Hplain : ∀ t fields g, w_structs w !! t = Some fields → g ∈ fields → plain_type (fd_Type g))
    by (intros t fields g Ht; by apply (Hp t fields Ht)).
  generalize (localStructIndex file).1 as names. intros names. revert structs.
  induction names as [|t names IH]; intros structs; cbn [walk_structs]; [intros [= <-]; by rewrite elem_of_nil|].
  unfold flattenStructFields, flattenFields.
  assert (Hok : all_ok (gatherFields Unquote w (walk_fuel w) (default [] (w_structs w !! t)) "" {[t]} 0)).
  { apply gather_ok; [done|done|]. intros g. destruct (w_structs w !! t) eqn:E; [by apply (Hplain t)|by rewrite elem_of_nil]. }
  destruct (gatherFields _ _ _ _ _ _ _) as [raw|]; [|done]. simpl in Hok. simpl.
  destruct (walk_structs Unquote w names) as [rest|]; [|done]. intros [= <-] [->|Hs]%elem_of_cons Hf; [|by eapply IH].
  simpl in Hf. rewrite Forall_forall in Hok. by apply Hok, shadowing_rows.
Qed.

(** ** A file *)

Module WalkDemo.
Definition plain_unquote (s : string) : option string :=
  match chars s with
  | _ :: l => Some (of_chars (take (length l - 1) l))
  | [] => None
  end.
Definition tag (json : string) : option string := Some ("`json:" +:+ dq +:+ json +:+ dq +:+ "`").
Definition var (name type json : string) : field := mkField [name] (Ident type) (tag json) 1.
(** type Base struct { ID string }; type Outer struct { Inner Inner };
    type Inner struct { Base; Name string } *)
Definition demo : ast_file :=
  mkFile [GenDecl TYPE [TypeSpec "Base" (StructType [var "ID" "string" "id"]) 1;
                        TypeSpec "Outer" (StructType [var "Inner" "Inner" "inner"]) 2;
                        TypeSpec "Inner" (StructType [mkField [] (Ident "Base") None 3; var "Name" "string" "name"]) 3]] [].
Definition resolution : Resolution := newResolution newTypeResolver newWireTypeRegistry.

(** A field promoted from a struct that a nested struct embeds loses the path of
    the nested struct, whose own fields keep it. *)
Theorem promoted_path_lost :
  match walkGoFile plain_unquote "f.go" demo resolution with
  | inl structs => (λ s, (st_Name s, (λ f, (g_Path f, g_JSONName f)) <$> st_Fields s)) <$> structs
  | inr _ => []
  end = [("Base", [("ID", "id")]);
         ("Outer", [("Inner", "inner"); ("ID", "id"); ("Inner.Name", "name")]);
         ("Inner", [("ID", "id"); ("Name", "name")])].
Proof. by vm_compute. Qed.
End WalkDemo.
