(* ===== verification/ScSchemaWalk.v ===== *)
(** * The schema check: reading the schema documents

    src/internal/schemacheck/schema_walk.go over a decoded document; an object is
    the list of its members sorted by key, which is what [sortedKeys] and the
    lookups see of a Go map.  Reading and decoding a file is not modelled.

    The walk follows every [$ref] without remembering where it has been, so it
    recurses for ever on a cyclic document: it is given a depth, and [None] is a
    walk that has not ended within it. *)

From Stdlib Require Import Ascii QArith.QArith_base QArith.Qcanon.
From S2P Require Import Prelude Ocpp Message Endpoint CgIR CgMapping CgSchema CgOverrides CgEmit ScTypes.
Local Open Scope string_scope.
Local Open Scope list_scope.

Abbreviation object := (list (string * Json)).

Definition member (obj : object) (key : string) : option Json := assoc key obj.
Definition as_string (v : option Json) : option string := match v with Some (JStr s) => Some s | _ => None end.
Definition as_object (v : option Json) : option object := match v with Some (JObj o) => Some o | _ => None end.
Definition as_number (v : option Json) : option Q := match v with Some (JNum q) => Some q | _ => None end.
Definition has (obj : object) (key : string) : bool := match member obj key with Some _ => true | None => false end.

Definition typeOf (obj : object) : string := default "" (as_string (member obj "type")).

(** ** The shape of a document *)

Definition knownSchemaDrafts : list string :=
  ["http://json-schema.org/draft-04/schema#"; "http://json-schema.org/draft-06/schema#"].

(** [strings.Split] at a character. *)
Fixpoint split_at (c : ascii) (word l : list ascii) : list string :=
  match l with
  | [] => [of_chars word]
  | d :: l' => if bool_decide (d = c) then of_chars word :: split_at c [] l' else split_at c (word ++ [d]) l'
  end.
Definition Split (s : string) (c : ascii) : list string := split_at c [] (chars s).

Definition draftLabel (schemaURL : string) : string :=
  default schemaURL (head (filter (λ s, HasPrefix s "draft-" = true) (Split schemaURL "/"%char))).

Definition filenameShape (filename : string) : string :=
  if HasSuffix filename "Response.json" then "response"
  else if HasSuffix filename "Request.json" then "request-suffixed"
  else "request-bare".

Fixpoint containsRef (node : Json) : bool :=
  match node with
  | JObj kvs => existsb (λ kv, bool_decide (kv.1 = "$ref") || containsRef kv.2) kvs
  | JArr l => existsb containsRef l
  | _ => false
  end.

Definition detectSchemaShape (document : object) (filename : string) : result SchemaShape :=
  let schema := default "" (as_string (member document "$schema")) in
  if negb (bool_decide (schema ∈ knownSchemaDrafts)) then
    fail ("unknown schema draft " +:+ quoted schema +:+ " in " +:+ filename +:+ ": dialect " +:+ draftLabel schema
          +:+ " is not recognized")
  else
    mret (mkShape schema
            (if has document "$id" then "$id" else if has document "id" then "id" else "")
            (has document "definitions") (containsRef (JObj document)) (filenameShape filename)).

Definition requestFilenameConvention (show : list string → string) (filenames : list string) : result string :=
  if bool_decide (filenames = []) then fail "determine request-filename convention: empty filename set"
  else
    match remove_dups (filter (λ s, s ≠ "response") (filenameShape <$> filenames)) with
    | [] => fail ("determine request-filename convention: empty set — no request filenames among " +:+ show filenames)
    | [shape] => mret shape
    | _ => fail ("determine request-filename convention: mixed/ambiguous filename set " +:+ show filenames
                 +:+ " carries both request-bare and request-suffixed names")
    end.

(** ** References *)

Fixpoint resolve_segments (reference : string) (current : Json) (segments : list string) : result Json :=
  match segments with
  | [] => mret current
  | segment :: l =>
      match current with
      | JObj container =>
          match member container segment with
          | Some next => resolve_segments reference next l
          | None => fail ("local $ref " +:+ quoted reference +:+ " could not be resolved: missing " +:+ quoted segment)
          end
      | _ => fail ("local $ref " +:+ quoted reference +:+ " could not be resolved: " +:+ quoted segment
                   +:+ " is not an object")
      end
  end.

Definition resolveLocalRef (document : object) (reference : string) : result object :=
  if negb (HasPrefix reference "#/") then
    fail ("non-local $ref " +:+ quoted reference +:+ ": only local references (starting with " +:+ quoted "#/"
          +:+ ") are supported")
  else
    current ← resolve_segments reference (JObj document) (Split (TrimPrefix reference "#/") "/"%char);
    match current with
    | JObj resolved =>
        if has resolved "$ref" then
          fail ("multi-level $ref chain at " +:+ quoted reference
                +:+ ": the resolved definition is itself a $ref, which is not supported")
        else mret resolved
    | _ => fail ("local $ref " +:+ quoted reference +:+ " does not resolve to an object")
    end.

Definition definitionNameFromRef (ref : string) : option string :=
  if negb (HasPrefix ref "#/definitions/") then None
  else
    let name := TrimPrefix ref "#/definitions/" in
    if bool_decide (name = "") || Contains name "/" then None else Some name.

(** ** Properties *)

(** [int(v)]: towards zero; a number outside the range of int is kept as it is. *)
Definition to_int (q : Q) : Z := Z.quot (QArith_base.Qnum q) (Zpos (QArith_base.Qden q)).
Definition to_float (q : Q) : float64 := Fin (Q2Qc q).

Definition buildExclusiveBound (raw : option Json) : option ExclusiveBound :=
  match raw with
  | Some (JBool b) => Some (mkExclusive (Some b) None)
  | Some (JNum q) => Some (mkExclusive None (Some (to_float q)))
  | _ => None
  end.

Definition buildConstraints (target : object) : Constraints :=
  let int key := to_int <$> as_number (member target key) in
  let number key := to_float <$> as_number (member target key) in
  mkConstraints (int "maxLength") (int "minLength") (number "minimum") (number "maximum")
    (buildExclusiveBound (member target "exclusiveMinimum")) (buildExclusiveBound (member target "exclusiveMaximum"))
    (int "minItems") (int "maxItems") (as_string (member target "pattern"))
    (match member target "additionalProperties" with Some (JBool b) => Some b | _ => None end).

(** The strings of an array. *)
Definition strings_of (raw : option Json) : list string :=
  match raw with
  | Some (JArr l) => omap (λ v, match v with JStr s => Some s | _ => None end) l
  | _ => []
  end.
Definition stringSet (raw : option Json) : list string := strings_of raw.

Definition buildSchemaProperty (target : object) (pointer path name : string) (required : bool)
    (enclosingDefinition : string) : SchemaProperty :=
  mkSchemaProperty pointer path name (typeOf target) (as_string (member target "format")) required
    (strings_of (member target "enum")) (buildConstraints target) enclosingDefinition.

Definition sortedKeys (m : object) : list string := m.*1.

(** ** The walk *)

(** The properties and ignored keywords recorded so far. *)
Record walked := mkWalked { wd_Properties : list SchemaProperty; wd_IgnoredKeywords : list string }.

Definition recordIgnoredKeywords (obj : object) (pointer : string) (st : walked) : walked :=
  mkWalked (wd_Properties st)
    (wd_IgnoredKeywords st ++
     ((λ keyword, pointer +:+ ":" +:+ keyword) <$> filter (λ k, has obj k = true) ["javaType"; "comment"; "description"])).
Definition recordProperty (p : SchemaProperty) (st : walked) : walked :=
  mkWalked (wd_Properties st ++ [p]) (wd_IgnoredKeywords st).

(** [None]: not ended within the depth. *)
Definition walk_out : Type := option (result walked).
Definition then_ (r : walk_out) (k : walked → walk_out) : walk_out :=
  match r with
  | Some (inl st) => k st
  | _ => r
  end.

(** What a property or an items schema stands for: itself, or what its reference
    resolves to, with the pointer and the definition its parts are declared at. *)
Definition deref (root val : object) (message pointer enclosing : string) : result (object * string * string) :=
  match member val "$ref" with
  | None => mret (val, pointer, enclosing)
  | Some (JStr refPath) =>
      target ← resolveLocalRef root refPath;
      mret match definitionNameFromRef refPath with
           | Some defName => (target, "#/definitions/" +:+ defName, defName)
           | None => (target, pointer, enclosing)
           end
  | Some _ => fail message
  end.

Section walk.
Context (root : object).

Definition child_path (pathPrefix name : string) : string :=
  if bool_decide (pathPrefix = "") then name else pathPrefix +:+ "." +:+ name.

(** The members of [properties] in order, each that is an object with [occurrence]. *)
Fixpoint walk_members (occurrence : object → string → string → string → bool → walked → walk_out)
    (pointerPrefix pathPrefix : string) (required : list string) (props : object) (st : walked) : walk_out :=
  match props with
  | [] => Some (inl st)
  | (name, JObj val) :: l =>
      then_ (occurrence val (pointerPrefix +:+ "/" +:+ name) (child_path pathPrefix name) name
               (bool_decide (name ∈ required)) st)
        (walk_members occurrence pointerPrefix pathPrefix required l)
  | _ :: l => walk_members occurrence pointerPrefix pathPrefix required l st
  end.

Definition walkObjectProperties
    (occurrence : object → string → string → string → string → bool → walked → walk_out)
    (obj : object) (pointerPrefix enclosingDefinition pathPrefix : string) (st : walked) : walk_out :=
  match member obj "properties" with
  | Some (JObj props) =>
      walk_members (λ val pointer path name, occurrence val pointer path name enclosingDefinition)
        pointerPrefix pathPrefix (stringSet (member obj "required")) props st
  | _ => Some (inl st)
  end.

Fixpoint walkPropertyOccurrence (depth : nat) (val : object) (pointer path name enclosingDefinition : string)
    (required : bool) (st : walked) : walk_out :=
  match depth with
  | O => None
  | S depth' =>
      match deref root val ("schema walk " +:+ pointer +:+ ": $ref at " +:+ pointer +:+ " is not a string") pointer
              enclosingDefinition with
      | inr e => Some (inr e)
      | inl (target, recursionPrefix, recursionEnclosing) =>
          let st := recordProperty (buildSchemaProperty target pointer path name required enclosingDefinition)
                      (recordIgnoredKeywords target pointer st) in
          if bool_decide (typeOf target = "object") then
            walkObjectProperties (walkPropertyOccurrence depth') target (recursionPrefix +:+ "/properties")
              recursionEnclosing path st
          else if bool_decide (typeOf target = "array") then
            match member target "items" with
            | Some (JObj items) => walkArrayItems depth' items (recursionPrefix +:+ "/items") recursionEnclosing path st
            | _ => Some (inl st)
            end
          else Some (inl st)
      end
  end
with walkArrayItems (depth : nat) (items : object) (pointer enclosingDefinition pathPrefix : string) (st : walked)
    : walk_out :=
  match depth with
  | O => None
  | S depth' =>
      match deref root items ("schema walk " +:+ pointer +:+ ": $ref is not a string") pointer enclosingDefinition with
      | inr e => Some (inr e)
      | inl (target, recursionPrefix, recursionEnclosing) =>
          let st := recordIgnoredKeywords target pointer st in
          if bool_decide (typeOf target = "object") then
            walkObjectProperties (walkPropertyOccurrence depth') target (recursionPrefix +:+ "/properties")
              recursionEnclosing pathPrefix st
          else if bool_decide (typeOf target = "array") then
            match member target "items" with
            | Some (JObj nested) =>
                walkArrayItems depth' nested (recursionPrefix +:+ "/items") recursionEnclosing pathPrefix st
            | _ => Some (inl st)
            end
          else Some (inl st)
      end
  end.
End walk.

(** The document read from [path]. *)
Definition walkSchema (depth : nat) (path : string) (document : object) : option (result SchemaDocument) :=
  match detectSchemaShape document (Base path) with
  | inr e => Some (inr e)
  | inl shape =>
      match walkObjectProperties (walkPropertyOccurrence document depth) document "#/properties" "" ""
              (recordIgnoredKeywords document "#" (mkWalked [] [])) with
      | None => None
      | Some (inr e) => Some (inr e)
      | Some (inl st) =>
          Some (inl (mkDocument path shape (typeOf document) (wd_Properties st) (wd_IgnoredKeywords st)))
      end
  end.
