(* ===== verification/ScSchemaWalkTheorems.v ===== *)
(** * The schema check: properties of the walk of a schema document *)

From Stdlib Require Import Ascii QArith.QArith_base QArith.Qcanon.
From S2P Require Import Prelude Ocpp Message Endpoint CgIR CgMapping CgSchema CgOverrides CgEmit ScTypes ScSchemaWalk.
Local Open Scope string_scope.
Local Open Scope list_scope.
Local Open Scope nat_scope.

(** ** The schemas a schema contains *)

(** The schemas the walk goes on to from a target: those of its properties, or
    that of its items. *)
Definition parts (target : object) : list object :=
  if bool_decide (typeOf target = "object") then
    match member target "properties" with
    | Some (JObj props) => omap (λ kv, match kv.2 with JObj o => Some o | _ => None end) props
    | _ => []
    end
  else if bool_decide (typeOf target = "array") then
    match member target "items" with Some (JObj o) => [o] | _ => [] end
  else [].

(** [val] refers to or is a schema with the part [part]. *)
Definition part_of (root part val : object) : Prop :=
  ∃ message pointer enclosing target p e,
    deref root val message pointer enclosing = inl (target, p, e) ∧ part ∈ parts target.

Lemma deref_target root val m1 p1 e1 m2 p2 e2 t1 q1 f1 t2 q2 f2 :
  deref root val m1 p1 e1 = inl (t1, q1, f1) → deref root val m2 p2 e2 = inl (t2, q2, f2) → t1 = t2.
Proof.
  unfold deref. destruct (member val "$ref") as [[]|]; try done; [|by intros [= -> _ _] [= -> _ _]].
  destruct (resolveLocalRef root s); simpl; [|done]. destruct (definitionNameFromRef s); by intros [= -> _ _] [= -> _ _].
Qed.

(** ** The depth *)

Lemma walk_members_mono (occ1 occ2 : object → string → string → string → bool → walked → walk_out) pp qp req props :
  (∀ val pointer path name r st x, occ1 val pointer path name r st = Some x → occ2 val pointer path name r st = Some x) →
  ∀ st x, walk_members occ1 pp qp req props st = Some x → walk_members occ2 pp qp req props st = Some x.
Proof.
  intros Ho. induction props as [|[name v] props IH]; intros st x; cbn [walk_members]; [done|].
  destruct v; try apply IH. unfold then_.
  destruct (occ1 _ _ _ _ _ _) as [r|] eqn:E; [|done]. rewrite (Ho _ _ _ _ _ _ _ E). destruct r; [apply IH|done].
Qed.

Lemma walk_mono root n :
  (∀ val pointer path name enc req st x,
     walkPropertyOccurrence root n val pointer path name enc req st = Some x →
     walkPropertyOccurrence root (S n) val pointer path name enc req st = Some x) ∧
  (∀ items pointer enc pp st x,
     walkArrayItems root n items pointer enc pp st = Some x → walkArrayItems root (S n) items pointer enc pp st = Some x).
Proof.
  induction n as [|n [IH1 IH2]]; [done|]. split.
  - intros val pointer path name enc req st x. cbn [walkPropertyOccurrence].
    destruct (deref _ _ _ _ _) as [[[target rp] re]|]; [|done].
    case_bool_decide.
    + unfold walkObjectProperties. destruct (member target "properties") as [[]|]; try done.
      apply walk_members_mono. intros. by apply IH1.
    + case_bool_decide; [|done]. destruct (member target "items") as [[]|]; try done. apply IH2.
  - intros items pointer enc pp st x. cbn [walkArrayItems].
    destruct (deref _ _ _ _ _) as [[[target rp] re]|]; [|done].
    case_bool_decide.
    + unfold walkObjectProperties. destruct (member target "properties") as [[]|]; try done.
      apply walk_members_mono. intros. by apply IH1.
    + case_bool_decide; [|done]. destruct (member target "items") as [[]|]; try done. apply IH2.
Qed.

Lemma walk_deeper root n m : n ≤ m →
  (∀ val pointer path name enc req st x,
     walkPropertyOccurrence root n val pointer path name enc req st = Some x →
     walkPropertyOccurrence root m val pointer path name enc req st = Some x) ∧
  (∀ items pointer enc pp st x,
     walkArrayItems root n items pointer enc pp st = Some x → walkArrayItems root m items pointer enc pp st = Some x).
Proof.
  induction 1 as [|m Hm [IH1 IH2]]; [done|]. destruct (walk_mono root m) as [H1 H2].
  split; intros; [by apply H1, IH1|by apply H2, IH2].
Qed.

(** A schema whose walks end, as a property and as an items schema. *)
Definition ends (root val : object) : Prop :=
  ∃ n, (∀ pointer path name enc req st, walkPropertyOccurrence root n val pointer path name enc req st ≠ None) ∧
       (∀ pointer enc pp st, walkArrayItems root n val pointer enc pp st ≠ None).

Lemma members_end root props :
  (∀ name o, (name, JObj o) ∈ props → ends root o) →
  ∃ n, ∀ m pp qp req enc st, n ≤ m →
    walk_members (λ val pointer path name, walkPropertyOccurrence root m val pointer path name enc) pp qp req props st ≠ None.
Proof.
  induction props as [|[name v] props IH]; intros Hp; [exists 0; done|].
  destruct IH as [n Hn]; [intros; eapply Hp; by right|].
  destruct v as [| | | | |o]; try (exists n; intros m pp qp req enc st Hm; cbn [walk_members]; by apply Hn).
  destruct (Hp name o ltac:(left)) as (k & Hk & _). exists (max n k). intros m pp qp req enc st Hm. cbn [walk_members].
  unfold then_. destruct (walkPropertyOccurrence root m o _ _ _ _ _ _) as [[]|] eqn:E; [apply Hn; lia|done|].
  exfalso. destruct (walkPropertyOccurrence root k o (pp +:+ "/" +:+ name) (child_path qp name) name enc
    (bool_decide (name ∈ req)) st) as [r|] eqn:Ek; [|by eapply Hk].
  apply (proj1 (walk_deeper root k m ltac:(lia))) in Ek. congruence.
Qed.

(** The walk below a target, whose parts end. *)
Lemma target_ends root target :
  (∀ o, o ∈ parts target → ends root o) →
  ∃ n, (bool_decide (typeOf target = "object") = true → ∀ m pp enc qp st, n ≤ m →
          walkObjectProperties (walkPropertyOccurrence root m) target pp enc qp st ≠ None) ∧
       (bool_decide (typeOf target = "object") = false → bool_decide (typeOf target = "array") = true →
          ∀ m items pp enc qp st, n ≤ m → member target "items" = Some (JObj items) →
          walkArrayItems root m items pp enc qp st ≠ None).
Proof.
  unfold parts, walkObjectProperties. intros Hp. case_bool_decide as Ho.
  - destruct (member target "properties") as [[| | | | |props]|]; try (exists 0; split; done).
    destruct (members_end root props) as [n Hn].
    { intros name o Hin. apply Hp, list_elem_of_omap. by exists (name, JObj o). }
    exists n. split; [|done]. intros _ m pp enc qp st Hm. by apply Hn.
  - case_bool_decide as Ha; [|by exists 0].
    destruct (member target "items") as [[| | | | |o]|]; try (exists 0; split; [done|by intros]).
    destruct (Hp o) as (k & _ & Hk); [by apply list_elem_of_singleton|]. exists k. split; [done|].
    intros _ _ m items pp enc qp st Hm [= <-] E.
    destruct (walkArrayItems root k o pp enc qp st) as [r|] eqn:Ek; [|by eapply Hk].
    apply (proj2 (walk_deeper root k m Hm)) in Ek. congruence.
Qed.

Lemma acc_ends root val : Acc (part_of root) val → ends root val.
Proof.
  induction 1 as [val _ IH].
  destruct (deref root val "" "" "") as [[[target p0] e0]|err] eqn:Hd.
  - destruct (target_ends root target) as (n & Hobj & Harr).
    { intros o Ho. apply IH. by exists "", "", "", target, p0, e0. }
    exists (S n). split.
    + intros pointer path name enc req st. cbn [walkPropertyOccurrence].
      destruct (deref root val _ pointer enc) as [[[target' p] e]|] eqn:Hd'; [|done].
      pose proof (deref_target _ _ _ _ _ _ _ _ _ _ _ _ _ _ Hd Hd') as <-.
      case_match eqn:Eo; [by apply Hobj|]. case_match eqn:Ea; [|done].
      destruct (member target "items") as [[]|] eqn:Ei; try done. by eapply Harr.
    + intros pointer enc pp st. cbn [walkArrayItems].
      destruct (deref root val _ pointer enc) as [[[target' p] e]|] eqn:Hd'; [|done].
      pose proof (deref_target _ _ _ _ _ _ _ _ _ _ _ _ _ _ Hd Hd') as <-.
      case_match eqn:Eo; [by apply Hobj|]. case_match eqn:Ea; [|done].
      destruct (member target "items") as [[]|] eqn:Ei; try done. by eapply Harr.
  - assert (He : ∀ m p e, ∃ err', deref root val m p e = inr err').
    { intros m p e. revert Hd. unfold deref. destruct (member val "$ref") as [[]|]; try done; try (intros; eexists; reflexivity).
      destruct (resolveLocalRef root s); simpl; [done|]. intros; by eexists. }
    exists 1. split; intros; cbn; edestruct He as [? ->]; done.
Qed.

(** A walk that succeeds has met no cycle. *)
Lemma members_acc root n pp qp req enc props :
  (∀ val pointer path name r st st', walkPropertyOccurrence root n val pointer path name enc r st = Some (inl st') →
     Acc (part_of root) val) →
  ∀ st st', walk_members (λ val pointer path name, walkPropertyOccurrence root n val pointer path name enc) pp qp req props
    st = Some (inl st') → ∀ name o, (name, JObj o) ∈ props → Acc (part_of root) o.
Proof.
  intros Ho. induction props as [|[name0 v] props IH]; intros st st' Hw name o; [by rewrite elem_of_nil|].
  cbn [walk_members] in Hw. rewrite elem_of_cons.
  destruct v as [| | | | |o0]; try (intros [Heq|Hin]; [congruence|exact (IH _ _ Hw _ _ Hin)]).
  unfold then_ in Hw. destruct (walkPropertyOccurrence root n o0 _ _ _ _ _ _) as [[st1|]|] eqn:E; [|done|done].
  intros [Heq|Hin]; [|exact (IH _ _ Hw _ _ Hin)]. assert (o = o0) as -> by congruence. exact (Ho _ _ _ _ _ _ _ E).
Qed.

Lemma success_acc root n :
  (∀ val pointer path name enc req st st',
     walkPropertyOccurrence root n val pointer path name enc req st = Some (inl st') → Acc (part_of root) val) ∧
  (∀ val pointer enc pp st st', walkArrayItems root n val pointer enc pp st = Some (inl st') → Acc (part_of root) val).
Proof.
  induction n as [|n [IH1 IH2]]; [done|].
  assert (Hparts : ∀ target pp enc qp st st',
    (if bool_decide (typeOf target = "object")
     then walkObjectProperties (walkPropertyOccurrence root n) target (pp +:+ "/properties") enc qp st
     else if bool_decide (typeOf target = "array") then
       match member target "items" with
       | Some (JObj items) => walkArrayItems root n items (pp +:+ "/items") enc qp st
       | _ => Some (inl st)
       end
     else Some (inl st)) = Some (inl st') → ∀ o, o ∈ parts target → Acc (part_of root) o).
  { intros target pp enc qp st st'. unfold parts, walkObjectProperties. case_bool_decide.
    - destruct (member target "properties") as [[| | | | |props]|]; intros Hw o; try by rewrite elem_of_nil.
      intros ([name v] & Hin & Hv)%list_elem_of_omap. simpl in Hv. destruct v; simplify_eq.
      eapply members_acc; [|done|done]. intros. by eapply IH1.
    - case_bool_decide; [|intros _ o; by rewrite elem_of_nil].
      destruct (member target "items") as [[| | | | |items]|]; intros Hw o; try by rewrite elem_of_nil.
      intros ->%list_elem_of_singleton. by eapply IH2. }
  split.
  - intros val pointer path name enc req st st'. cbn [walkPropertyOccurrence].
    destruct (deref root val _ pointer enc) as [[[target p] e]|] eqn:Hd; [|done]. intros Hw. pose proof (Hparts _ _ _ _ _ _ Hw) as Hacc.
    constructor. intros o (m & p' & e' & t & q & f & Hd' & Ho).
    pose proof (deref_target _ _ _ _ _ _ _ _ _ _ _ _ _ _ Hd Hd') as <-. by apply Hacc.
  - intros val pointer enc pp st st'. cbn [walkArrayItems].
    destruct (deref root val _ pointer enc) as [[[target p] e]|] eqn:Hd; [|done]. intros Hw. pose proof (Hparts _ _ _ _ _ _ Hw) as Hacc.
    constructor. intros o (m & p' & e' & t & q & f & Hd' & Ho).
    pose proof (deref_target _ _ _ _ _ _ _ _ _ _ _ _ _ _ Hd Hd') as <-. by apply Hacc.
Qed.

(** The properties of the document itself. *)
Definition root_parts (document : object) : list object :=
  match member document "properties" with
  | Some (JObj props) => omap (λ kv, match kv.2 with JObj o => Some o | _ => None end) props
  | _ => []
  end.

(** C39: the walk of a document ends, with the same outcome for every greater
    depth, if no chain of references and parts from its properties is endless; and
    it succeeds only then, so that on a cyclic document it never does. *)
Theorem schema_walk_terminates path document :
  ((∀ o, o ∈ root_parts document → Acc (part_of document) o) →
   ∃ n r, ∀ m, n ≤ m → walkSchema m path document = Some r) ∧
  (∀ n doc, walkSchema n path document = Some (inl doc) → ∀ o, o ∈ root_parts document → Acc (part_of document) o).
Proof.
  unfold walkSchema, walkObjectProperties, root_parts. split.
  - intros Hacc. destruct (detectSchemaShape _ _) as [shape|e]; [|exists 0; eauto].
    destruct (member document "properties") as [[| | | | |props]|]; try (exists 0; eexists; intros; reflexivity).
    destruct (members_end document props) as [n Hn].
    { intros name o Hin. apply acc_ends, Hacc, list_elem_of_omap. by exists (name, JObj o). }
    exists n. set (st0 := recordIgnoredKeywords _ _ _).
    destruct (walk_members (λ val pointer path0 name, walkPropertyOccurrence document n val pointer path0 name "")
      "#/properties" "" (stringSet (member document "required")) props st0) as [r|] eqn:E; [|by eapply Hn in E].
    exists (match r with
       | inl st => inl (mkDocument path shape (typeOf document) (wd_Properties st) (wd_IgnoredKeywords st))
       | inr e => inr e
       end).
    intros m Hm.
    rewrite (walk_members_mono _ (λ val pointer path0 name, walkPropertyOccurrence document m val pointer path0 name "")
      _ _ _ _ (λ val pointer path0 name rq st x Hx, proj1 (walk_deeper document n m Hm) _ _ _ _ _ _ _ _ Hx) _ _ E).
    by destruct r.
  - intros n doc. destruct (detectSchemaShape _ _) as [shape|e]; [|done].
    destruct (member document "properties") as [[| | | | |props]|]; intros Hw o; try by rewrite elem_of_nil.
    intros ([name v] & Hin & Hv)%list_elem_of_omap. simpl in Hv. destruct v; simplify_eq.
    destruct (walk_members _ _ _ _ _ _) as [[st|]|] eqn:E; [|done|done].
    eapply members_acc; [|exact E|done]. intros. by eapply (proj1 (success_acc document n)).
Qed.

(** ** Paths *)

(** The keys of every object are distinct, not empty and without a dot. *)
Definition name_ok (s : string) : Prop := s ≠ "" ∧ "."%char ∉ chars s.
Inductive keys_ok : Json → Prop :=
| keys_null : keys_ok JNull
| keys_bool b : keys_ok (JBool b)
| keys_num q : keys_ok (JNum q)
| keys_str s : keys_ok (JStr s)
| keys_arr l : (∀ v, v ∈ l → keys_ok v) → keys_ok (JArr l)
| keys_obj kvs : NoDup kvs.*1 → (∀ k v, (k, v) ∈ kvs → name_ok k ∧ keys_ok v) → keys_ok (JObj kvs).

Lemma assoc_elem {A} key (l : list (string * A)) v : assoc key l = Some v → (key, v) ∈ l.
Proof.
  induction l as [|[k w] l IH]; simpl; [done|]. case_bool_decide as E; [intros [= ->]; subst; left|]. intros H. right. auto.
Qed.
Lemma member_keys_ok o key v : keys_ok (JObj o) → member o key = Some v → keys_ok v.
Proof. intros Ho Hm%assoc_elem. inversion Ho as [| | | | |? _ Hk]; subst. by apply Hk in Hm as [_ ?]. Qed.

Lemma segments_keys_ok reference l : ∀ v w, keys_ok v → resolve_segments reference v l = inl w → keys_ok w.
Proof.
  induction l as [|s l IH]; intros v w Hv; simpl; [by intros [= <-]|].
  destruct v as [| | | | |o]; try done. destruct (member o s) eqn:E; [|done]. apply IH. by eapply member_keys_ok.
Qed.

Lemma deref_keys_ok root val m p e target q f :
  keys_ok (JObj root) → keys_ok (JObj val) → deref root val m p e = inl (target, q, f) → keys_ok (JObj target).
Proof.
  intros Hr Hv. unfold deref. destruct (member val "$ref") as [[]|]; try done; [|by intros [= <- _ _]].
  unfold resolveLocalRef. destruct (HasPrefix s "#/"); simpl; [|done].
  destruct (resolve_segments s (JObj root) _) as [w|] eqn:E; simpl; [|done]. apply segments_keys_ok in E; [|done].
  destruct w as [| | | | |o]; try done. destruct (has o "$ref"); simpl; [done|].
  destruct (definitionNameFromRef s); by intros [= <- _ _].
Qed.

(** [p] is the path [q] or lies below it. *)
Definition below (q p : string) : Prop := p = q ∨ ∃ s, p = q +:+ "." +:+ s.

Lemma string_app_inj (a b : string) : chars a = chars b → a = b.
Proof. intros H. rewrite <- (of_chars_inv a), <- (of_chars_inv b). by rewrite H. Qed.

Lemma below_trans a b c : below a b → below b c → below a c.
Proof.
  intros [->|[s ->]] [->|[t ->]]; [by left|right; eauto|right; eauto|].
  right. exists (s +:+ "." +:+ t). apply string_app_inj. by rewrite !chars_app, <- !(assoc_L (++)).
Qed.

(** What follows a name: nothing, or a dot and more. *)
Lemma names_split (a b r1 r2 : list ascii) :
  "."%char ∉ a → "."%char ∉ b → (r1 = [] ∨ ∃ l, r1 = "."%char :: l) → (r2 = [] ∨ ∃ l, r2 = "."%char :: l) →
  a ++ r1 = b ++ r2 → a = b.
Proof.
  revert b. induction a as [|c a IH]; intros [|d b] Ha Hb H1 H2 E; simpl in *; [done| | |].
  - destruct H1 as [->|[l ->]]; [done|]. injection E as <- _. set_solver.
  - destruct H2 as [->|[l ->]]; [done|]. injection E as -> _. set_solver.
  - injection E as <- E. f_equal. apply (IH b); set_solver.
Qed.

Lemma below_chars q p : below q p → ∃ r, chars p = chars q ++ r ∧ (r = [] ∨ ∃ l, r = "."%char :: l).
Proof.
  intros [->|[s ->]]; [exists []; by rewrite app_nil_r; auto|].
  exists ("."%char :: chars s). rewrite !chars_app. eauto.
Qed.

Lemma siblings_apart q n1 n2 p :
  name_ok n1 → name_ok n2 → below (child_path q n1) p → below (child_path q n2) p → n1 = n2.
Proof.
  intros [_ H1] [_ H2] (r1 & E1 & Hr1)%below_chars (r2 & E2 & Hr2)%below_chars. rewrite E1 in E2. apply string_app_inj.
  unfold child_path in E2. case_bool_decide; [exact (names_split _ _ _ _ H1 H2 Hr1 Hr2 E2)|].
  rewrite !chars_app, <- !(assoc_L (++)) in E2. apply app_inv_head, app_inv_head in E2.
  exact (names_split _ _ _ _ H1 H2 Hr1 Hr2 E2).
Qed.

Lemma child_strictly_below q n p : name_ok n → q ≠ "" → below (child_path q n) p → p ≠ q ∧ below q p.
Proof.
  intros [Hn _] Hq Hb. unfold child_path in Hb. rewrite bool_decide_false in Hb by done. split.
  - intros ->. apply below_chars in Hb as (r & E & _). apply (f_equal length) in E. rewrite !chars_app, !length_app in E.
    simpl in E. lia.
  - eapply below_trans; [|done]. right. eauto.
Qed.

(** The properties added by a walk: with distinct paths that satisfy [P]. *)
Definition adds (P : string → Prop) (st st' : walked) : Prop :=
  ∃ l, wd_Properties st' = wd_Properties st ++ l ∧ NoDup (sp_Path <$> l) ∧ ∀ p, p ∈ sp_Path <$> l → P p.

Lemma adds_none P st st' : wd_Properties st' = wd_Properties st → adds P st st'.
Proof. intros H. exists []. rewrite app_nil_r. split; [done|]. split; [constructor|]. intros p. by rewrite elem_of_nil. Qed.
Lemma adds_mono (P Q : string → Prop) st st' : (∀ p, P p → Q p) → adds P st st' → adds Q st st'.
Proof. intros H (l & ? & ? & ?). exists l. auto. Qed.
Lemma adds_trans (P Q : string → Prop) st1 st2 st3 :
  (∀ p, P p → ¬ Q p) → adds P st1 st2 → adds Q st2 st3 → adds (λ p, P p ∨ Q p) st1 st3.
Proof.
  intros Hd (l1 & E1 & N1 & H1) (l2 & E2 & N2 & H2). exists (l1 ++ l2).
  split; [by rewrite E2, E1, (assoc_L (++))|]. rewrite fmap_app. split.
  - apply NoDup_app. split; [done|]. split; [|done]. intros p Hp1 Hp2. by eapply Hd; [apply H1|apply H2].
  - intros p [?|?]%elem_of_app; auto.
Qed.

Lemma members_add (occ : object → string → string → string → bool → walked → walk_out) pp qp req props :
  (∀ val pointer path name r st st', keys_ok (JObj val) → path ≠ "" →
     occ val pointer path name r st = Some (inl st') → adds (below path) st st') →
  NoDup props.*1 → (∀ k v, (k, v) ∈ props → name_ok k ∧ keys_ok v) →
  ∀ st st', walk_members occ pp qp req props st = Some (inl st') →
    adds (λ p, ∃ k, k ∈ props.*1 ∧ name_ok k ∧ below (child_path qp k) p) st st'.
Proof.
  intros Ho. induction props as [|[name v] props IH]; intros Hnd Hok st st' Hw; [simplify_eq/=; by apply adds_none|].
  cbn [walk_members fmap list_fmap] in *. apply NoDup_cons in Hnd as [Hname Hnd].
  assert (Hrest : ∀ st, walk_members occ pp qp req props st = Some (inl st') →
            adds (λ p, ∃ k, k ∈ props.*1 ∧ name_ok k ∧ below (child_path qp k) p) st st').
  { intros. apply IH; [done|intros; apply Hok; by right|done]. }
  destruct (Hok name v ltac:(left)) as [Hn Hv].
  destruct v as [| | | | |val]; try (eapply adds_mono; [|by apply Hrest]; intros p (k & ? & ?); exists k; set_solver).
  unfold then_ in Hw. destruct (occ _ _ _ _ _ _) as [[st1|]|] eqn:E; [|done|done].
  eapply adds_mono; [|eapply adds_trans; [|eapply Ho; [exact Hv| |exact E]|apply Hrest, Hw]].
  - intros p [?|(k & ? & ?)]; [exists name; set_solver|exists k; set_solver].
  - intros p Hp (k & Hk & Hkn & Hkb). pose proof (siblings_apart qp name k p Hn Hkn Hp Hkb) as ->. by apply Hname.
  - unfold child_path. destruct Hn as [Hn _]. destruct (bool_decide_reflect (qp = "")); [exact Hn|]. intros Hc%(f_equal chars).
    rewrite !chars_app in Hc. by destruct (chars qp).
Qed.

Lemma object_adds root n target pp enc qp st st' :
  (∀ val pointer path name enc r st st', keys_ok (JObj val) → path ≠ "" →
     walkPropertyOccurrence root n val pointer path name enc r st = Some (inl st') → adds (below path) st st') →
  keys_ok (JObj target) →
  walkObjectProperties (walkPropertyOccurrence root n) target pp enc qp st = Some (inl st') →
  adds (λ p, ∃ k, name_ok k ∧ below (child_path qp k) p) st st'.
Proof.
  intros Ho Ht. unfold walkObjectProperties.
  destruct (member target "properties") as [[| | | | |props]|] eqn:E; intros Hw; try (by apply adds_none; congruence).
  apply member_keys_ok in E; [|done]. inversion E as [| | | | |? Hnd Hk]; subst.
  apply members_add in Hw; [|intros; by eapply Ho|done|done]. eapply adds_mono; [|exact Hw]. naive_solver.
Qed.

Lemma walk_adds root n :
  keys_ok (JObj root) →
  (∀ val pointer path name enc r st st', keys_ok (JObj val) → path ≠ "" →
     walkPropertyOccurrence root n val pointer path name enc r st = Some (inl st') → adds (below path) st st') ∧
  (∀ val pointer enc pp st st', keys_ok (JObj val) → pp ≠ "" →
     walkArrayItems root n val pointer enc pp st = Some (inl st') → adds (λ p, p ≠ pp ∧ below pp p) st st').
Proof.
  intros Hroot. induction n as [|n [IH1 IH2]]; [done|].
  assert (Hparts : ∀ target pp enc path st st', keys_ok (JObj target) → path ≠ "" →
    (if bool_decide (typeOf target = "object")
     then walkObjectProperties (walkPropertyOccurrence root n) target (pp +:+ "/properties") enc path st
     else if bool_decide (typeOf target = "array") then
       match member target "items" with
       | Some (JObj items) => walkArrayItems root n items (pp +:+ "/items") enc path st
       | _ => Some (inl st)
       end
     else Some (inl st)) = Some (inl st') → adds (λ p, p ≠ path ∧ below path p) st st').
  { intros target pp enc path st st' Ht Hp. case_bool_decide.
    - intros Hw%object_adds; [|done|done]. eapply adds_mono; [|exact Hw].
      intros p (k & Hk & Hb). by eapply child_strictly_below.
    - case_bool_decide; [|intros; by apply adds_none; congruence].
      destruct (member target "items") as [[| | | | |items]|] eqn:E; try (intros; by apply adds_none; congruence).
      apply IH2; [|done]. by eapply member_keys_ok. }
  split.
  - intros val pointer path name enc r st st' Hv Hp. cbn [walkPropertyOccurrence].
    destruct (deref root val _ pointer enc) as [[[target p] e]|] eqn:Hd; [|done].
    apply deref_keys_ok in Hd; [|done|done]. intros Hw%Hparts; [|done|done].
    eapply adds_mono; [|eapply (adds_trans (λ p, p = path)); [|clear Hw|exact Hw]].
    + intros q [->|[_ ?]]; [by left|done].
    + intros q -> [? _]. done.
    + exists [buildSchemaProperty target pointer path name r enc]. split; [done|]. split; [apply NoDup_singleton|].
      by intros q ->%list_elem_of_singleton.
  - intros val pointer enc pp st st' Hv Hp. cbn [walkArrayItems].
    destruct (deref root val _ pointer enc) as [[[target p] e]|] eqn:Hd; [|done].
    apply deref_keys_ok in Hd; [|done|done]. intros Hw%Hparts; [|done|done]. done.
Qed.

(** The properties recorded of a document have distinct paths, so none is lost
    when they are indexed by their path. *)
Theorem schema_paths_distinct n path document doc :
  keys_ok (JObj document) → walkSchema n path document = Some (inl doc) → NoDup (sp_Path <$> sd_Properties doc).
Proof.
  intros Hk. unfold walkSchema. destruct (detectSchemaShape _ _); [|done].
  destruct (walkObjectProperties _ _ _ _ _ _) as [[st|]|] eqn:E; [|done|done]. intros [= <-]. simpl.
  apply object_adds in E; [|intros; by eapply (proj1 (walk_adds document n Hk))|done].
  destruct E as (l & -> & Hnd & _). done.
Qed.

(** ** A document that refers to itself *)

Module SchemaDemo.
Definition cyclic : object :=
  [("$schema", JStr "http://json-schema.org/draft-06/schema#");
   ("definitions", JObj [("T", JObj [("properties", JObj [("next", JObj [("$ref", JStr "#/definitions/T")])]);
                                     ("type", JStr "object")])]);
   ("properties", JObj [("a", JObj [("$ref", JStr "#/definitions/T")])]); ("type", JStr "object")].
Definition flat : object :=
  [("$schema", JStr "http://json-schema.org/draft-06/schema#");
   ("properties", JObj [("a", JObj [("type", JStr "string")]);
                        ("b", JObj [("items", JObj [("type", JStr "string")]); ("type", JStr "array")])]);
   ("type", JStr "object")].

(** On a definition that contains a reference to itself the walk never ends. *)
Theorem cyclic_walk_endless n : walkSchema n "T.json" cyclic = None.
Proof.
  assert (H : ∀ n pointer path name enc req st,
    walkPropertyOccurrence cyclic n [("$ref", JStr "#/definitions/T")] pointer path name enc req st = None).
  { clear n. induction n as [|n IH]; intros; [done|]. cbn [walkPropertyOccurrence].
    change (deref cyclic _ _ _ _) with (inl (A:=object * string * string) (B:=error)
      ([("properties", JObj [("next", JObj [("$ref", JStr "#/definitions/T")])]); ("type", JStr "object")],
       "#/definitions/T", "T")).
    cbv beta iota zeta. rewrite bool_decide_true by done. unfold walkObjectProperties.
    change (member [("properties", JObj [("next", JObj [("$ref", JStr "#/definitions/T")])]); ("type", JStr "object")]
      "properties") with (Some (JObj [("next", JObj [("$ref", JStr "#/definitions/T")])])).
    cbn [walk_members]. by rewrite IH. }
  unfold walkSchema. change (detectSchemaShape cyclic (Base "T.json")) with (inl (A:=SchemaShape) (B:=error)
    (mkShape "http://json-schema.org/draft-06/schema#" "" true true "request-bare")).
  unfold walkObjectProperties. change (member cyclic "properties") with (Some (JObj [("a", JObj [("$ref", JStr "#/definitions/T")])])).
  cbn [walk_members]. by rewrite H.
Qed.

Lemma schema_walk_terminates_witness :
  ∃ n r, ∀ m, n ≤ m → walkSchema m "flat.json" flat = Some r.
Proof.
  apply (proj1 (schema_walk_terminates "flat.json" flat)). intros o Ho.
  assert (Hleaf : ∀ val, (∀ m p e, ∃ q f, deref flat val m p e = inl (val, q, f)) → parts val = [] → Acc (part_of flat) val).
  { intros val Hd Hp. constructor. intros x (m & p & e & t & q & f & Ht & Hx). destruct (Hd m p e) as (? & ? & E).
    rewrite Ht in E. injection E as -> _ _. rewrite Hp in Hx. by apply elem_of_nil in Hx. }
  change (o ∈ [[("type", JStr "string")]; [("items", JObj [("type", JStr "string")]); ("type", JStr "array")]]) in Ho.
  apply elem_of_cons in Ho as [->|Ho%list_elem_of_singleton]; [by apply Hleaf; [intros; by eexists _, _|]|]. subst o.
  constructor. intros x (m & p & e & t & q & f & Ht & Hx). unfold deref in Ht. cbn in Ht. injection Ht as <- _ _.
  change (x ∈ [[("type", JStr "string")]]) in Hx. apply list_elem_of_singleton in Hx as ->.
  apply Hleaf; [intros; by eexists _, _|done].
Defined.
End SchemaDemo.
