(* ===== verification/ScTree.v ===== *)
(** * The schema check: the index of the Go tree

    src/internal/schemacheck/treeindex.go, expand.go and what discover.go reads
    off the syntax trees.  The files are given parsed, with the import path of
    their package, so that [idx_files] stands for the file system, the parser and
    the cache of walked files; path arithmetic and the listing of directories are
    not modelled.  The set of structs used across files is state that [expandFields] adds
    to.  The fuel of [expandFields] bounds how many structs are entered below one
    another; a struct that is being expanded is not entered again. *)

From Stdlib Require Import Ascii.
From S2P Require Import Prelude Ocpp CgIR CgMapping CgPlacement CgSchema CgOverrides CgEmit ScTypes ScGoWalk.
Local Open Scope string_scope.
Local Open Scope list_scope.

(** ** Discovery *)

Section discover.
Context (Unquote : string → option string).

(** The target and the function of each [RegisterStructValidation] call; the last
    one of a target counts. *)
Definition structValidatorFunctions (file : ast_file) : gmap string string :=
  foldl (λ out c,
    match c with
    | (SelectorExpr _ sel, Ident fn :: (_ :: _) as targets) =>
        if bool_decide (sel = "RegisterStructValidation") then
          foldl (λ out a, match a with CompositeLit (Some (Ident n)) _ => <[n := fn]> out | _ => out end) out targets
        else out
    | _ => out
    end) ∅ (file_calls file).

Definition hasAllMethods (methods want : list string) : bool := forallb (λ m, bool_decide (m ∈ methods)) want.

Record featureInfo := mkFeature {
  fi_typeName : string;
  fi_featureName : string;
  fi_requestType : string;
  fi_responseType : string;
  fi_file : string;
  fi_profile : string;
  fi_goPackage : string;
  fi_direction : string
}.

(** The labels of a file are those of [packageLabelsForFile]. *)
Definition features_of (labels : string → string * string) (path : string) (sets : list MethodSetInfo) : list featureInfo :=
  (λ ms, mkFeature (ms_TypeName ms) (ms_FeatureName ms) (ms_RequestType ms) (ms_ResponseType ms) path
           (labels path).1 (labels path).2 "")
  <$> filter (λ ms, hasAllMethods (ms_Methods ms) methodNames = true) sets.

Fixpoint all_features (labels : string → string * string) (files : list (string * ast_file)) : result (list featureInfo) :=
  match files with
  | [] => mret []
  | (path, file) :: l =>
      sets ← discoverMethodSets Unquote path file;
      rest ← all_features labels l;
      mret (features_of labels path sets ++ rest)
  end.
Definition discoverAllFeatures (labels : string → string * string) (files : list (string * ast_file))
    : result (list featureInfo) :=
  features ← all_features labels files; mret (sort_by fi_featureName features).

Record profileRegistration := mkRegistration { pr_name : string; pr_featureTypes : list string; pr_file : string }.

Definition registration (path : string) (consts : gmap string string) (c : expr * list expr) : option profileRegistration :=
  match c with
  | (SelectorExpr _ sel, first :: rest) =>
      if bool_decide (sel = "NewProfile") then
        Some (mkRegistration
                match first with
                | Ident n => default "" (consts !! n)
                | BasicLit true v => default "" (Unquote v)
                | _ => ""
                end
                (omap (λ a, match a with CompositeLit (Some (Ident n)) _ => Some n | _ => None end) rest) path)
      else None
  | _ => None
  end.
Definition discoverProfileRegistrations (files : list (string * ast_file)) : list profileRegistration :=
  sort_by pr_file
    (flat_map (λ pf, omap (registration pf.1 (fileConstStrings Unquote pf.2)) (file_calls pf.2)) files).

(** The names by package, as pairs; the maps are only read by membership. *)
Fixpoint packaged {A : Type} (resolver : TypeResolver) (file : A → string) (names : A → list string) (l : list A)
    : result (list (string * string)) :=
  match l with
  | [] => mret []
  | a :: l' =>
      pkg ← PackageOf resolver (file a);
      rest ← packaged resolver file names l';
      mret (((λ n, (pkg, n)) <$> names a) ++ rest)
  end.

Definition newline : string := String (Ascii.ascii_of_nat 10) "".
Definition crossCheckFeaturesAndProfiles (features : list featureInfo) (regs : list profileRegistration)
    (resolver : TypeResolver) : option error :=
  match (registered ← packaged resolver pr_file pr_featureTypes regs;
         discovered ← packaged resolver fi_file (λ f, [fi_typeName f]) features;
         mret (registered, discovered)) with
  | inr e => Some e
  | inl (registered, discovered) =>
      let missing a b := filter (λ p, p ∉ b) (remove_dups a) in
      let problems :=
        ((λ p, p.1 +:+ "." +:+ p.2
               +:+ " implements the full Feature method set but is not registered by any ocpp.NewProfile call")
         <$> missing discovered registered) ++
        ((λ p, p.1 +:+ "." +:+ p.2
               +:+ " is registered by an ocpp.NewProfile call but does not implement the full Feature method set")
         <$> missing registered discovered) in
      if bool_decide (problems = []) then None
      else Some (Errorf ("message discovery does not match profile registrations:" +:+ newline
                         +:+ Join (sort_strings problems) newline) None)
  end.
End discover.

(** Which side handles a request type, from the handler interfaces. *)
Definition handlerInterfaceDirections : list (string * string) :=
  [("CSMSHandler", "CS->CSMS"); ("ChargingStationHandler", "CSMS->CS"); ("CentralSystemHandler", "CP->CS");
   ("ChargePointHandler", "CS->CP")].

(** The direction and the request type of each parameter that is a pointer to one,
    in the order of the file. *)
Definition declared_directions (file : ast_file) : list (string * string) :=
  flat_map (λ s, match s with
                 | TypeSpec name (InterfaceMethods methods) _ =>
                     match assoc name handlerInterfaceDirections with
                     | Some dir =>
                         flat_map (λ m, omap (λ p, match p with
                                                   | StarExpr (Ident n) => if HasSuffix n "Request" then Some (dir, n) else None
                                                   | _ => None
                                                   end) (default [] m)) methods
                     | None => []
                     end
                 | _ => []
                 end) (type_specs file).

(** One parameter: the direction map and the set of conflicts. *)
Definition note_direction (pkg : string) (acc : gmap string string * gset string) (dn : string * string)
    : gmap string string * gset string :=
  let key := pkg +:+ "." +:+ dn.2 in
  match acc.1 !! key with
  | Some existing => if bool_decide (existing = dn.1) then (<[key := dn.1]> acc.1, acc.2) else (acc.1, {[key]} ∪ acc.2)
  | None => (<[key := dn.1]> acc.1, acc.2)
  end.
Fixpoint note_directions (resolver : TypeResolver) (acc : gmap string string * gset string)
    (files : list (string * ast_file)) : result (gmap string string * gset string) :=
  match files with
  | [] => mret acc
  | (path, file) :: l =>
      pkg ← PackageOf resolver path;
      note_directions resolver (foldl (note_direction pkg) acc (declared_directions file)) l
  end.
Definition discoverDirections (files : list (string * ast_file)) (resolver : TypeResolver) : result (gmap string string) :=
  '(direction, conflicting) ← note_directions resolver (∅, ∅) files;
  mret (set_to_map (λ key, (key, "bidirectional")) conflicting ∪ direction).

Definition set_direction (dir : string) (f : featureInfo) : featureInfo :=
  mkFeature (fi_typeName f) (fi_featureName f) (fi_requestType f) (fi_responseType f) (fi_file f) (fi_profile f)
    (fi_goPackage f) dir.
(** The loop of [runComparison] that gives each feature its direction. *)
Fixpoint directed (resolver : TypeResolver) (directions : gmap string string) (features : list featureInfo)
    : result (list featureInfo) :=
  match features with
  | [] => mret []
  | f :: l =>
      pkg ← PackageOf resolver (fi_file f);
      rest ← directed resolver directions l;
      mret (match directions !! (pkg +:+ "." +:+ fi_requestType f) with
            | Some dir => set_direction dir f
            | None => f
            end :: rest)
  end.

(** ** The index *)

Record structDecl := mkStructDecl { dc_file : string; dc_name : string; dc_line : Z }.

Record treeIndex := mkIndex {
  idx_resolution : Resolution;
  idx_structs : gmap string structDecl;
  idx_validatorFns : gmap string string;
  idx_files : gmap string ast_file
}.
Definition idx_resolver (idx : treeIndex) : TypeResolver := rs_Resolver (idx_resolution idx).

Definition seedWireTypeRegistry (modulePath : string) (registry : WireTypeRegistry) : WireTypeRegistry :=
  Register (modulePath +:+ "/ocpp2.0.1/types.CustomData") (mkWireType "object" "")
    (Register (modulePath +:+ "/ocpp1.6/types.DateTime") (mkWireType "string" "date-time")
      (Register (modulePath +:+ "/ocpp2.0.1/types.DateTime") (mkWireType "string" "date-time") registry)).

Section index.
Context (Unquote : string → option string).

(** A file of the tree, with its import path. *)
Record source_file := mkSource { sf_path : string; sf_importPath : string; sf_ast : ast_file }.

(** The first loop: packages and imports. *)
Definition register_file (r : TypeResolver) (f : source_file) : TypeResolver :=
  foldl (λ r b, RegisterImport (sf_path f) b r) (RegisterFile (sf_path f) (sf_importPath f) r)
    (importBindingsFromFile Unquote (sf_ast f)).

(** The second loop: what the files declare, under qualified names. *)
Definition qualified_keys {A : Type} (importPath : string) (m : gmap string A) : gmap string A :=
  list_to_map ((λ kv, (importPath +:+ "." +:+ kv.1, kv.2)) <$> map_to_list m).
Definition aliases_of (f : source_file) : gmap string string :=
  qualified_keys (sf_importPath f) (localScalarAliasIndex (sf_ast f)).
Definition structs_of (f : source_file) : gmap string structDecl :=
  foldl (λ m name, <[sf_importPath f +:+ "." +:+ name :=
                     mkStructDecl (sf_path f) name (default 0%Z (structDeclLines (sf_ast f) !! name))]> m) ∅
    (localStructIndex (sf_ast f)).1.
Definition validators_of (f : source_file) : gmap string string :=
  qualified_keys (sf_importPath f) (structValidatorFunctions (sf_ast f)).
(** A later file wins. *)
Definition merge_files {A : Type} (of_file : source_file → gmap string A) (files : list source_file) : gmap string A :=
  foldl (λ m f, of_file f ∪ m) ∅ files.

(** The values of the validator functions of a package, and the tags. *)
Definition function_values (files : list source_file) (importPath : string) : gmap string (list string) :=
  merge_files (λ f, discoverValidatorFuncValues Unquote (sf_ast f)) (filter (λ f, sf_importPath f = importPath) files).
Definition enums_of (files : list source_file) : gmap string (list string) :=
  foldl (λ enums f,
    foldl (λ enums tf, match function_values files (sf_importPath f) !! tf.2 with
                       | Some values => <[tf.1 := values]> enums
                       | None => enums
                       end) enums (map_to_list (discoverValidationTagFuncNames Unquote (sf_ast f)))) ∅ files.

Fixpoint check_all_marshalers (res : Resolution) (files : list source_file) : result unit :=
  match files with
  | [] => mret tt
  | f :: l => _ ← discoverCustomMarshalers (sf_path f) (sf_ast f) res; check_all_marshalers res l
  end.

Definition buildTreeIndex (files : list source_file) (modulePath : string) : result treeIndex :=
  let resolver := foldl register_file newTypeResolver files in
  let registry := seedWireTypeRegistry modulePath newWireTypeRegistry in
  let resolution := mkResolution resolver registry (enums_of files) (merge_files aliases_of files) in
  _ ← check_all_marshalers resolution files;
  mret (mkIndex resolution (merge_files structs_of files) (merge_files validators_of files)
          (list_to_map (reverse ((λ f, (sf_path f, sf_ast f)) <$> files)))).

Definition structsForFile (idx : treeIndex) (file : string) : result (list StructInfo) :=
  match idx_files idx !! file with
  | Some ast => walkGoFile Unquote file ast (idx_resolution idx)
  | None => fail ("parse Go file " +:+ file)
  end.
Definition fieldsFor (idx : treeIndex) (decl : structDecl) : result (list GoField) :=
  structs ← structsForFile idx (dc_file decl);
  match head (filter (λ s, st_Name s = dc_name decl) structs) with
  | Some s => mret (st_Fields s)
  | None => fail ("internal error: struct " +:+ dc_name decl +:+ " not found in " +:+ dc_file decl
                  +:+ " despite being indexed there")
  end.

(** ** Expansion of fields *)

Record reportField := mkReportField { rf_field : GoField; rf_path : string }.

(** What precedes the last dot. *)
Fixpoint before_dot (l : list ascii) : option (list ascii) :=
  match l with
  | [] => None
  | c :: l' => match before_dot l' with
               | Some r => Some (c :: r)
               | None => if bool_decide (c = "."%char) then Some [] else None
               end
  end.
Definition parentGoPath (path : string) : string :=
  match before_dot (chars path) with Some l => of_chars l | None => "" end.

Definition resolveTypeIdentity (resolver : TypeResolver) (file typeText : string) : option string :=
  if bool_decide (typeText = "") then None
  else if HasPrefix typeText "[]" || HasPrefix typeText "map[" || bool_decide (typeText = "interface{}")
          || bool_decide (typeText = "any") then None
  else if Contains typeText "." then match Resolve resolver file typeText with inl r => Some r | inr _ => None end
  else match assoc typeText goBasicTypeNames with
       | Some _ => None
       | None => match PackageOf resolver file with inl pkg => Some (pkg +:+ "." +:+ typeText) | inr _ => None end
       end.

Definition set_validators (f : GoField) (validators : list string) : GoField :=
  mkGoField (g_Path f) (g_Name f) (g_DeclaredType f) (g_WireType f) (g_Pointer f) (g_Slice f) (g_CustomMarshaled f)
    (g_ElementType f) (g_File f) (g_Line f) (g_JSONName f) (g_Omitempty f) (g_Validate f) (g_EnumValues f) validators.

(** The frames: the Go path and the JSON path of the fields we are inside of. *)
Fixpoint pop_frames (parentGo : string) (stack : list (string * string)) : list (string * string) :=
  match stack with
  | [] => []
  | (goPath, _) :: l => if bool_decide (goPath = parentGo) then stack else pop_frames parentGo l
  end.

Section expand.
Context (idx : treeIndex).
(** The expansion of a struct's fields: [fields originFile pathPrefix visiting]. *)
Context (expand : list GoField → string → string → gset string → gset string → result (list reportField * gset string)).

Definition type_text (f : GoField) : string := if g_Slice f then g_ElementType f else TrimPrefix (g_DeclaredType f) "*".

(** The struct that a field is expanded to, if any. *)
Definition expandable (f : GoField) (originFile : string) (visiting : gset string) : option (string * structDecl) :=
  identity ← resolveTypeIdentity (idx_resolver idx) originFile (type_text f);
  if negb (g_Slice f) && negb (bool_decide (g_WireType f = type_text f)) then None
  else match resolveWireType identity (rs_Registry (idx_resolution idx)) with
       | inl _ => None
       | inr _ =>
           decl ← idx_structs idx !! identity;
           if negb (g_Slice f) && bool_decide (dc_file decl = originFile) then None
           else if bool_decide (identity ∈ visiting) then None
           else Some (identity, decl)
       end.

Definition annotate (f : GoField) (originFile : string) : GoField :=
  match (identity ← resolveTypeIdentity (idx_resolver idx) originFile (type_text f); idx_validatorFns idx !! identity) with
  | Some fn => set_validators f [fn]
  | None => f
  end.

(** The loop over the fields. *)
Fixpoint expand_loop (fields : list GoField) (originFile pathPrefix : string) (visiting : gset string)
    (stack : list (string * string)) (used : gset string) : result (list reportField * gset string) :=
  match fields with
  | [] => mret ([], used)
  | f :: l =>
      let stack := pop_frames (parentGoPath (g_Path f)) stack in
      let seg := shadowKey f in
      let jsonPath := match stack with
                      | (_, parent) :: _ => parent +:+ "." +:+ seg
                      | [] => if bool_decide (pathPrefix = "") then seg else pathPrefix +:+ "." +:+ seg
                      end in
      let stack := (g_Path f, jsonPath) :: stack in
      let row := mkReportField (annotate f originFile) jsonPath in
      match expandable f originFile visiting with
      | None =>
          '(rest, used) ← expand_loop l originFile pathPrefix visiting stack used;
          mret (row :: rest, used)
      | Some (identity, decl) =>
          targetFields ← fieldsFor idx decl;
          '(children, used) ← expand targetFields (dc_file decl) jsonPath ({[identity]} ∪ visiting) ({[identity]} ∪ used);
          '(rest, used) ← expand_loop l originFile pathPrefix visiting stack used;
          mret (row :: children ++ rest, used)
      end
  end.
End expand.

Fixpoint expandFields (idx : treeIndex) (fuel : nat) (fields : list GoField) (originFile pathPrefix : string)
    (visiting used : gset string) : result (list reportField * gset string) :=
  match fuel with
  | O => fail "out of fuel"
  | S fuel' => expand_loop idx (expandFields idx fuel') fields originFile pathPrefix visiting [] used
  end.
Definition expand_fuel (idx : treeIndex) : nat := S (size (idx_structs idx)).
End index.
