(* ===== verification/ScCompare.v ===== *)
(** * The schema check: pairing of the two sides and the report

    src/internal/schemacheck/pair.go, complexity.go, percentile.go,
    sharedtypes.go, selfcheck.go and orchestrate.go.  The digest of the schema
    files, the module root and the version label come from the file system and are
    arguments of the report.

    The percentile is computed with float64 in the code; for the percentiles that
    are asked for, 25, 50 and 75, that computation is exact, and it is done on
    integers here. *)

From Stdlib Require Import Ascii QArith.QArith_base QArith.Qcanon.
From stdpp Require Import pretty.
From S2P Require Import Prelude Ocpp Message Endpoint CgIR CgMapping CgPlacement CgSchema CgOverrides CgEmit ScTypes ScGoWalk ScClassify ScSchemaWalk ScTree.
Local Open Scope string_scope.
Local Open Scope list_scope.

(** ** The report *)

Record Field := mkReportRow {
  fl_Path : string;
  fl_Go : GoField;
  fl_Schema : SchemaField;
  fl_Class : string;
  fl_Rule : string;
  fl_Detail : string;
  fl_Breaking : bool
}.
Record MessageSide := mkSide { sd_GoType : string; sd_SchemaFile : string; sd_Fields : list Field }.
Record Message := mkMessageRow {
  me_FeatureName : string;
  me_Profile : string;
  me_Direction : string;
  me_GoPackage : string;
  me_GoFile : string;
  me_Complexity : nat;
  me_Prototype : bool;
  me_Request : MessageSide;
  me_Response : MessageSide
}.
Record ClassCounts := mkCounts {
  cc_IDENTICAL : nat;
  cc_SCHEMA_FAITHFUL_CHANGE : nat;
  cc_FORK_BUG : nat;
  cc_ADDITIVE : nat;
  cc_OVERRIDE_CANDIDATE : nat;
  cc_STRUCT_VALIDATOR : nat;
  cc_UNEXPLAINED : nat
}.
Record ComplexityDistribution := mkDistribution { cd_Min : nat; cd_P25 : nat; cd_Median : nat; cd_P75 : nat; cd_Max : nat }.
Record Summary := mkSummary {
  su_ByClass : ClassCounts;
  su_BreakingFields : nat;
  su_MessagesWithBreakingFields : nat;
  su_MessagesNeedingOverrides : nat;
  su_OverrideDensity : nat * nat;         (* numerator and denominator *)
  su_ComplexityDistribution : ComplexityDistribution;
  su_PrototypeCount : nat
}.
Record SelfCheck := mkSelfCheck { ck_ID : string; ck_Claim : string; ck_Expected : Z; ck_Actual : Z; ck_Status : string }.
Record Coverage := mkCoverage {
  cv_Messages : nat;
  cv_SchemaFiles : nat;
  cv_UnpairedMessages : list string;
  cv_UnpairedSchemaFiles : list string
}.
Record SharedType := mkShared {
  sh_GoType : string;
  sh_SchemaDefinition : string;
  sh_Occurrences : nat;
  sh_StructuralConflicts : list string
}.

(** ** Schema files by feature *)

Abbreviation documents := (list (string * SchemaDocument)).   (* by file name, sorted *)

(** The documents by the last element of their path; a later file of the same name
    takes the place of an earlier one. *)
Definition loadSchemas (files : list (string * SchemaDocument)) : documents :=
  sort_by fst (map_to_list (foldl (λ docs f, <[Base f.1 := f.2]> docs) (∅ : gmap string SchemaDocument) files)).

Fixpoint index_schemas (byName : documents) (requests responses : gmap string SchemaDocument)
    : result (gmap string SchemaDocument * gmap string SchemaDocument) :=
  match byName with
  | [] => mret (requests, responses)
  | (name, doc) :: l =>
      let claim side featureName (target : gmap string SchemaDocument) :=
        match target !! featureName with
        | Some existing =>
            fail ("two schema files claim the " +:+ side +:+ " side of " +:+ quoted featureName +:+ ": "
                  +:+ sd_File existing +:+ " and " +:+ sd_File doc)
        | None => mret (<[featureName := doc]> target)
        end in
      let shape := sh_FilenameShape (sd_Shape doc) in
      if bool_decide (shape = "response") then
        responses ← claim "response" (TrimSuffix name "Response.json") responses; index_schemas l requests responses
      else if bool_decide (shape = "request-suffixed") then
        requests ← claim "request" (TrimSuffix name "Request.json") requests; index_schemas l requests responses
      else if bool_decide (shape = "request-bare") then
        requests ← claim "request" (TrimSuffix name ".json") requests; index_schemas l requests responses
      else fail ("schema " +:+ sd_File doc +:+ ": unrecognized filename shape " +:+ quoted shape)
  end.
Definition indexSchemasByFeature (byName : documents)
    : result (gmap string SchemaDocument * gmap string SchemaDocument) := index_schemas byName ∅ ∅.

Definition empty_schema_field : SchemaField := mkSchemaField "" None false None [] no_constraints.
Definition empty_go_field : GoField := mkGoField "" "" "" "" false false false "" "" 0 "" false [] [] [].

Definition toSchemaField (prop : option SchemaProperty) : SchemaField :=
  match prop with
  | None => empty_schema_field
  | Some p =>
      mkSchemaField (sp_Pointer p) (if bool_decide (sp_Type p = "") then None else Some (sp_Type p)) (sp_Required p)
        (sp_Format p) (sp_Enum p) (sp_Constraints p)
  end.

(** ** Pairing *)

Definition parentJSONPath (path : string) : string :=
  match before_dot (chars path) with Some l => of_chars l | None => "" end.

(** [strings.Count(s, ".")] *)
Definition dots (s : string) : nat := length (filter (λ c, c = "."%char) (chars s)).

(** The order in which the paths are decided: fewer dots first, then by text. *)
Definition path_le (a b : string) : bool :=
  if bool_decide (dots a = dots b) then Strings.String.leb a b else bool_decide (dots a < dots b)%nat.
Fixpoint insert_path (p : string) (l : list string) : list string :=
  match l with
  | [] => [p]
  | q :: l' => if path_le p q then p :: l else q :: insert_path p l'
  end.
Definition sort_paths (l : list string) : list string := foldr insert_path [] l.

(** The second loop: a path is included if its parent is paired on both sides. *)
Fixpoint include_paths (goByPath : gmap string GoField) (schemaByPath : gmap string SchemaProperty)
    (paired : gset string) (paths : list string) : list string :=
  match paths with
  | [] => []
  | p :: l =>
      if bool_decide (parentJSONPath p ∈ paired) then
        p :: include_paths goByPath schemaByPath
               (if bool_decide (p ∈ dom goByPath) && bool_decide (p ∈ dom schemaByPath) then {[p]} ∪ paired else paired) l
      else include_paths goByPath schemaByPath paired l
  end.

(** The rows of a side, before they are classified. *)
Definition ordered_paths (goByPath : gmap string GoField) (schemaByPath : gmap string SchemaProperty) : list string :=
  sort_strings (include_paths goByPath schemaByPath {[""]}
    (sort_paths (elements (dom goByPath ∪ dom schemaByPath : gset string)))).

Definition comparison (goByPath : gmap string GoField) (schemaByPath : gmap string SchemaProperty) (p : string)
    : ComparisonInput :=
  mkInput (default empty_go_field (goByPath !! p)) (toSchemaField (schemaByPath !! p))
    (bool_decide (is_Some (goByPath !! p))) (bool_decide (is_Some (schemaByPath !! p))) "".

(** The last one of a path counts. *)
Definition go_by_path (expanded : list reportField) : gmap string GoField :=
  foldl (λ m rf, <[rf_path rf := rf_field rf]> m) ∅ expanded.
Definition schema_by_path (properties : list SchemaProperty) : gmap string SchemaProperty :=
  foldl (λ m p, <[sp_Path p := p]> m) ∅ properties.

Section report.
Context (ParseFloat : string → option float64) (FormatFloat : float64 → string) (Unquote : string → option string).

Definition classify_row (messageFile : string) (goByPath : gmap string GoField)
    (schemaByPath : gmap string SchemaProperty) (p : string) : result Field :=
  let input := comparison goByPath schemaByPath p in
  match classifyField ParseFloat FormatFloat input with
  | inr e => inr (Errorf ("classify " +:+ p +:+ " in " +:+ messageFile) (Some e))
  | inl r => mret (mkReportRow p (i_Go input) (i_Schema input) (r_Class r) (r_Rule r) (r_Detail r) (r_Breaking r))
  end.

Definition rootMessagePath : string := "".

Definition rootStructValidatorRow (idx : treeIndex) (rootIdentity typeName : string) (doc : SchemaDocument)
    : result (option Field) :=
  match idx_validatorFns idx !! rootIdentity with
  | None => mret None
  | Some fn =>
      let '(file, line) := match idx_structs idx !! rootIdentity with
                           | Some decl => (dc_file decl, dc_line decl)
                           | None => ("", 0%Z)
                           end in
      let goField := mkGoField "" typeName typeName "object" false false false "" file line "" false [] [] [fn] in
      let schemaField := mkSchemaField "#" (if bool_decide (sd_RootType doc = "") then None else Some (sd_RootType doc))
                           true None [] no_constraints in
      match classifyField ParseFloat FormatFloat (mkInput goField schemaField true true "") with
      | inr e => inr (Errorf ("classify the " +:+ typeName +:+ " struct-level rule") (Some e))
      | inl r =>
          mret (Some (mkReportRow rootMessagePath goField schemaField (r_Class r) (r_Rule r)
            ("registered against " +:+ typeName
             +:+ " itself rather than against one of its fields, so this row's path is the message root")
            (r_Breaking r)))
      end
  end.

(** The rows of one side of a message; the structs used across files are
    threaded. *)
Definition buildMessageSide (idx : treeIndex) (used : gset string) (typeName messageFile : string)
    (schemaDoc : SchemaDocument) : result (MessageSide * gset string) :=
  match resolveTypeIdentity (idx_resolver idx) messageFile typeName with
  | None => fail ("resolve root type identity for " +:+ typeName +:+ " in " +:+ messageFile)
  | Some rootIdentity =>
      rootFields ← fieldsFor Unquote idx (mkStructDecl messageFile typeName 0);
      '(expanded, used) ← expandFields Unquote idx (expand_fuel idx) rootFields messageFile "" {[rootIdentity]} used;
      let goByPath := go_by_path expanded in
      let schemaByPath := schema_by_path (sd_Properties schemaDoc) in
      rootRow ← rootStructValidatorRow idx rootIdentity typeName schemaDoc;
      rows ← mapM_result (classify_row messageFile goByPath schemaByPath) (ordered_paths goByPath schemaByPath);
      mret (mkSide typeName (Base (sd_File schemaDoc)) (option_list rootRow ++ rows), used)
  end.
End report.

(** ** Complexity *)

Definition messageComplexity (reqDoc respDoc : SchemaDocument) : nat :=
  let keyed (f : SchemaProperty → option string) :=
    size (list_to_set (flat_map (λ doc, omap (λ p, (λ k, (sd_File doc, k)) <$> f p) (sd_Properties doc)) [reqDoc; respDoc])
          : gset (string * string)) in
  keyed (λ p, if bool_decide (sp_EnclosingDefinition p = "") then None
              else Some ("#/definitions/" +:+ sp_EnclosingDefinition p)) +
  keyed (λ p, Some (sp_Pointer p)) +
  keyed (λ p, if bool_decide (sp_Enum p = []) then None else Some (sp_Pointer p)).

(** [sort.Ints] *)
Fixpoint insert_nat (n : nat) (l : list nat) : list nat :=
  match l with [] => [n] | m :: l' => if bool_decide (n ≤ m)%nat then n :: l else m :: insert_nat n l' end.
Definition sort_nats (l : list nat) : list nat := foldr insert_nat [] l.

(** The rank is the ceiling of the percentile of the length. *)
Definition nearestRankPercentile (values : list nat) (percentile : nat) : result nat :=
  if bool_decide (values = []) then fail "compute nearest-rank percentile: empty input"
  else
    let sorted := sort_nats values in
    let rank := (percentile * length sorted + 99) / 100 in
    let rank := if bool_decide (rank < 1)%nat then 1 else rank in
    let rank := if bool_decide (length sorted < rank)%nat then length sorted else rank in
    mret (default 0 (sorted !! (rank - 1)%nat)).

Definition complexityDistributionOf (scores : list nat) : result ComplexityDistribution :=
  if bool_decide (scores = []) then fail "compute complexity distribution: no messages"
  else
    let sorted := sort_nats scores in
    p25 ← nearestRankPercentile scores 25;
    median ← nearestRankPercentile scores 50;
    p75 ← nearestRankPercentile scores 75;
    mret (mkDistribution (default 0 (head sorted)) p25 median p75 (default 0 (last sorted))).

(** ** The summary *)

Definition no_counts : ClassCounts := mkCounts 0 0 0 0 0 0 0.
Definition count_class (class : string) (c : ClassCounts) : ClassCounts :=
  let '(mkCounts i s f a o v u) := c in
  if bool_decide (class = IDENTICAL) then mkCounts (S i) s f a o v u
  else if bool_decide (class = SCHEMA_FAITHFUL_CHANGE) then mkCounts i (S s) f a o v u
  else if bool_decide (class = FORK_BUG) then mkCounts i s (S f) a o v u
  else if bool_decide (class = ADDITIVE) then mkCounts i s f (S a) o v u
  else if bool_decide (class = OVERRIDE_CANDIDATE) then mkCounts i s f a (S o) v u
  else if bool_decide (class = STRUCT_VALIDATOR) then mkCounts i s f a o (S v) u
  else if bool_decide (class = UNEXPLAINED) then mkCounts i s f a o v (S u)
  else c.

Record tallies := mkTallies {
  ta_counts : ClassCounts;
  ta_breaking : nat;
  ta_withBreaking : gset string;
  ta_needingOverrides : gset string
}.
Definition tally_field (featureName : string) (t : tallies) (f : Field) : tallies :=
  mkTallies (count_class (fl_Class f) (ta_counts t))
    (if fl_Breaking f then S (ta_breaking t) else ta_breaking t)
    (if fl_Breaking f then {[featureName]} ∪ ta_withBreaking t else ta_withBreaking t)
    (if bool_decide (fl_Class f = OVERRIDE_CANDIDATE) then {[featureName]} ∪ ta_needingOverrides t
     else ta_needingOverrides t).
Definition tally (featureName : string) (fields : list Field) (t : tallies) : tallies :=
  foldl (tally_field featureName) t fields.
Definition tally_message (t : tallies) (m : Message) : tallies :=
  tally (me_FeatureName m) (sd_Fields (me_Response m)) (tally (me_FeatureName m) (sd_Fields (me_Request m)) t).

Definition buildSummary (messages : list Message) : result Summary :=
  let t := foldl tally_message (mkTallies no_counts 0 ∅ ∅) messages in
  distribution ← complexityDistributionOf (me_Complexity <$> messages);
  mret (mkSummary (ta_counts t) (ta_breaking t) (size (ta_withBreaking t)) (size (ta_needingOverrides t))
          (size (ta_needingOverrides t), length messages) distribution
          (length (filter (λ m, me_Prototype m = true) messages))).

Definition prototypeFeatures : list string := ["BootNotification"; "TransactionEvent"; "SetChargingProfile"; "Heartbeat"].

(** ** Corpus checks *)

Definition scopeFor (doc : SchemaDocument) (p : SchemaProperty) : string :=
  if bool_decide (sp_EnclosingDefinition p = "") then sd_File doc else sp_EnclosingDefinition p.

Definition equal_ptr {A : Type} (eqb : A → A → bool) (a b : option A) : bool :=
  match a, b with Some x, Some y => eqb x y | None, None => true | _, _ => false end.
Definition equalStringPtr : option string → option string → bool := equal_ptr (λ a b, bool_decide (a = b)).
Definition equalIntPtr : option Z → option Z → bool := equal_ptr Z.eqb.
Definition equalFloatPtr : option float64 → option float64 → bool := equal_ptr feq.
Definition equalBoolPtr : option bool → option bool → bool := equal_ptr Bool.eqb.
Definition equalExclusiveBound : option ExclusiveBound → option ExclusiveBound → bool :=
  equal_ptr (λ a b, equalBoolPtr (x_Bool a) (x_Bool b) && equalFloatPtr (x_Number a) (x_Number b)).
Definition equalStringSlice (a b : list string) : bool := bool_decide (a = b).
Definition equalConstraints (a b : Constraints) : bool :=
  equalIntPtr (c_MaxLength a) (c_MaxLength b) && equalIntPtr (c_MinLength a) (c_MinLength b)
  && equalFloatPtr (c_Minimum a) (c_Minimum b) && equalFloatPtr (c_Maximum a) (c_Maximum b)
  && equalExclusiveBound (c_ExclusiveMinimum a) (c_ExclusiveMinimum b)
  && equalExclusiveBound (c_ExclusiveMaximum a) (c_ExclusiveMaximum b)
  && equalIntPtr (c_MinItems a) (c_MinItems b) && equalIntPtr (c_MaxItems a) (c_MaxItems b)
  && equalStringPtr (c_Pattern a) (c_Pattern b) && equalBoolPtr (c_AdditionalProperties a) (c_AdditionalProperties b).
Definition sameShape (a b : SchemaProperty) : bool :=
  bool_decide (sp_Type a = sp_Type b) && Bool.eqb (sp_Required a) (sp_Required b)
  && equalStringPtr (sp_Format a) (sp_Format b) && equalStringSlice (sp_Enum a) (sp_Enum b)
  && equalConstraints (sp_Constraints a) (sp_Constraints b).

(** The first property of a key, and the files whose property differs from it. *)
Record dedupedProperty := mkDeduped { dp_sample : SchemaProperty; dp_files : gset string; dp_conflicts : list string }.
Abbreviation deduped := (gmap (string * string) dedupedProperty).
Definition dedup_one (doc : SchemaDocument) (out : deduped) (p : SchemaProperty) : deduped :=
  let k := (scopeFor doc p, sp_Name p) in
  match out !! k with
  | None => <[k := mkDeduped p {[sd_File doc]} []]> out
  | Some e => <[k := mkDeduped (dp_sample e) ({[sd_File doc]} ∪ dp_files e)
                       (if sameShape (dp_sample e) p then dp_conflicts e else dp_conflicts e ++ [sd_File doc])]> out
  end.
Definition dedupCorpus (docs : list SchemaDocument) : deduped :=
  foldl (λ out doc, foldl (dedup_one doc) out (sd_Properties doc)) ∅ docs.

Definition definitionReachCounts (docs : list SchemaDocument) : gmap string nat :=
  let reaches := flat_map (λ doc, omap (λ p, if bool_decide (sp_EnclosingDefinition p = "") then None
                                             else Some (sp_EnclosingDefinition p, (sd_File doc, parentJSONPath (sp_Path p))))
                                    (sd_Properties doc)) docs in
  list_to_map ((λ def, (def, size (list_to_set (filter (λ r, r.1 = def) reaches).*2 : gset (string * string))))
               <$> remove_dups reaches.*1).

Definition buildSharedTypes (reachCounts : gmap string nat) (conflicts : list string) (typesPackage : string)
    (idx : treeIndex) (used : gset string) : list SharedType :=
  let used_type candidate :=
    let identity := typesPackage +:+ "." +:+ candidate in
    bool_decide (is_Some (idx_structs idx !! identity)) && bool_decide (identity ∈ used) in
  let scope_of c := fst <$> Cut c "/"%char in
  sort_by sh_GoType
    (omap (λ kv, (λ goName, mkShared ("types." +:+ goName) kv.1 kv.2 (filter (λ c, scope_of c = Some kv.1) conflicts))
                 <$> head (filter (λ c, used_type c = true) [TrimSuffix kv.1 "Type"; kv.1]))
       (map_to_list reachCounts)).

Definition status (expected actual : Z) : string := if bool_decide (expected = actual) then "pass" else "fail".
Definition minimumCheckActual (count : Z) (allZero : bool) : Z := if allZero then count else (-1)%Z.
Definition minimumStatus (count : Z) (allZero : bool) : string := if allZero then status 8 count else "fail".
Fixpoint countUnionKeywords (node : Json) : nat :=
  match node with
  | JObj kvs =>
      length (filter (λ k, has kvs k = true) ["oneOf"; "anyOf"; "allOf"]) +
      (fix go l := match l with [] => 0 | (_, v) :: l' => countUnionKeywords v + go l' end) kvs
  | JArr l => (fix go l := match l with [] => 0 | v :: l' => countUnionKeywords v + go l' end) l
  | _ => 0
  end%nat.

(** ** Publication *)

Definition selfCheckCorpus : string := "v201".
Definition publicationFailures (version : string) (coverage : Coverage) (checks : list SelfCheck) : list string :=
  ((λ name, "message " +:+ name +:+ " has no schema pair, so its fields were never compared") <$> cv_UnpairedMessages coverage) ++
  ((λ name, "schema file " +:+ name +:+ " was not consumed by any message, so its properties were never compared")
   <$> cv_UnpairedSchemaFiles coverage) ++
  (if bool_decide (version = selfCheckCorpus) then
     (λ c, "self-check " +:+ ck_ID c +:+ " (" +:+ ck_Claim c +:+ ") expected " +:+ pretty (ck_Expected c) +:+ ", measured "
           +:+ pretty (ck_Actual c)) <$> filter (λ c, ck_Status c ≠ "pass") checks
   else []).

(** What follows the last slash or backslash. *)
Fixpoint until_separator (l : list ascii) : list ascii :=
  match l with
  | [] => []
  | c :: l' => if bool_decide (c = "/"%char) || bool_decide (c = "\"%char) then [] else c :: until_separator l'
  end.
Definition baseName (path : string) : string := of_chars (reverse (until_separator (reverse (chars path)))).
Definition deriveVersionLabel (treeRoot : string) : string :=
  "v" +:+ ReplaceAll (TrimPrefix (baseName treeRoot) "ocpp") "." "".

(** ** The comparison of the messages *)

Section comparison.
Context (ParseFloat : string → option float64) (FormatFloat : float64 → string) (Unquote : string → option string).

(** What the loop over the features has produced. *)
Record compared := mkCompared {
  co_messages : list Message;
  co_unpaired : list string;
  co_usedFiles : gset string;
  co_usedStructs : gset string
}.

Definition compare_feature (idx : treeIndex) (requests responses : gmap string SchemaDocument) (acc : compared)
    (f : featureInfo) : result compared :=
  match requests !! fi_featureName f, responses !! fi_featureName f with
  | Some reqDoc, Some respDoc =>
      let wrap_side side {A} (x : result A) : result A :=
        match x with
        | inl a => inl a
        | inr e => inr (Errorf ("message " +:+ fi_featureName f +:+ " " +:+ side) (Some e))
        end in
      '(reqSide, used) ← wrap_side "request"
        (buildMessageSide ParseFloat FormatFloat Unquote idx (co_usedStructs acc) (fi_requestType f) (fi_file f) reqDoc);
      '(respSide, used) ← wrap_side "response"
        (buildMessageSide ParseFloat FormatFloat Unquote idx used (fi_responseType f) (fi_file f) respDoc);
      mret (mkCompared
              (co_messages acc ++
               [mkMessageRow (fi_featureName f) (fi_profile f) (fi_direction f) (fi_goPackage f) (baseName (fi_file f))
                  (messageComplexity reqDoc respDoc) (bool_decide (fi_featureName f ∈ prototypeFeatures)) reqSide respSide])
              (co_unpaired acc) ({[baseName (sd_File reqDoc); baseName (sd_File respDoc)]} ∪ co_usedFiles acc) used)
  | _, _ =>
      mret (mkCompared (co_messages acc) (co_unpaired acc ++ [fi_featureName f]) (co_usedFiles acc) (co_usedStructs acc))
  end.

Fixpoint compare_features (idx : treeIndex) (requests responses : gmap string SchemaDocument) (acc : compared)
    (features : list featureInfo) : result compared :=
  match features with
  | [] => mret acc
  | f :: l => acc ← compare_feature idx requests responses acc f; compare_features idx requests responses acc l
  end.

(** The part of [runComparison] that compares: the messages, the coverage and the
    summary of a run, with the structs used across files, from the index, the
    features and the walked schema files. *)
Definition compare_corpus (idx : treeIndex) (features : list featureInfo) (schemaFiles : list (string * SchemaDocument))
    : result (list Message * Coverage * Summary * gset string) :=
  let schemaByName := loadSchemas schemaFiles in
  '(requests, responses) ← indexSchemasByFeature schemaByName;
  c ← compare_features idx requests responses (mkCompared [] [] ∅ ∅) features;
  let messages := sort_by me_FeatureName (co_messages c) in
  summary ← buildSummary messages;
  mret (messages,
        mkCoverage (length features) (length schemaFiles) (sort_strings (co_unpaired c))
          (sort_strings (filter (λ n, n ∉ co_usedFiles c) schemaByName.*1)),
        summary, co_usedStructs c).
End comparison.
