(* ===== verification/ScCompareTheorems.v ===== *)
(** * The schema check: properties of the report *)

From Stdlib Require Import Ascii Sorting.Sorted.
From S2P Require Import Prelude Ocpp CgIR CgMapping CgPlacement CgSchema CgOverrides CgEmit ScTypes ScGoWalk ScClassify ScSchemaWalk ScTree ScCompare.
Local Open Scope string_scope.
Local Open Scope list_scope.
Local Open Scope nat_scope.

(** ** The paths that get a row *)

Lemma before_dot_spec l r :
  before_dot l = Some r → ∃ s, l = r ++ "."%char :: s ∧ "."%char ∉ s.
Proof.
  revert r. induction l as [|c l IH]; intros r; simpl; [done|].
  destruct (before_dot l) as [r'|] eqn:E.
  - intros [= <-]. destruct (IH r' eq_refl) as (s & -> & Hs). by exists s.
  - case_bool_decide as Hc; [|done]. intros [= <-]. subst c. exists l. split; [done|].
    clear IH. intros Hin. assert (before_dot l ≠ None); [|done]. clear E.
    induction l as [|d l IH]; [by apply elem_of_nil in Hin|]. simpl. destruct (before_dot l) eqn:E; [done|].
    apply elem_of_cons in Hin as [<-|Hin]; [by rewrite bool_decide_true|]. by destruct (IH Hin).
Qed.

Lemma parent_dots p : parentJSONPath p ≠ "" → dots (parentJSONPath p) < dots p.
Proof.
  unfold parentJSONPath, dots. destruct (before_dot (chars p)) as [r|] eqn:E; [|done]. intros _.
  apply before_dot_spec in E as (s & -> & _). rewrite chars_of_chars, filter_app, length_app, filter_cons_True by done.
  simpl. lia.
Qed.

Lemma insert_path_perm p l : insert_path p l ≡ₚ p :: l.
Proof. induction l as [|q l IH]; simpl; [done|]. destruct (path_le p q); [done|]. rewrite IH. apply Permutation_swap. Qed.
Lemma sort_paths_perm l : sort_paths l ≡ₚ l.
Proof. induction l as [|p l IH]; simpl; [done|]. by rewrite insert_path_perm, IH. Qed.

Abbreviation by_dots := (StronglySorted (λ a b, dots a ≤ dots b)).
Lemma insert_path_sorted p l : by_dots l → by_dots (insert_path p l).
Proof.
  induction l as [|q l IH]; intros Hs; simpl; [by repeat constructor|].
  apply StronglySorted_inv in Hs as [Hl Hq]. destruct (path_le p q) eqn:E.
  - constructor; [by constructor|].
    assert (dots p ≤ dots q) by (unfold path_le in E; repeat case_bool_decide; lia || done).
    constructor; [done|]. eapply List.Forall_impl; [|done]. simpl. lia.
  - constructor; [auto|]. rewrite insert_path_perm.
    assert (dots q ≤ dots p) by (unfold path_le in E; repeat case_bool_decide; lia || done). by constructor.
Qed.
Lemma sort_paths_sorted l : by_dots (sort_paths l).
Proof. induction l as [|p l IH]; simpl; [constructor|by apply insert_path_sorted]. Qed.

Section pairing.
Context (goByPath : gmap string GoField) (schemaByPath : gmap string SchemaProperty).

Definition declared (p : string) : Prop := p ∈ dom goByPath ∨ p ∈ dom schemaByPath.
Definition on_both (p : string) : Prop := p ∈ dom goByPath ∧ p ∈ dom schemaByPath.

(** A path is reported if a side declares it and both sides declare every path
    above it. *)
Inductive reported : string → Prop :=
| reported_top p : declared p → parentJSONPath p = "" → reported p
| reported_below p : declared p → on_both (parentJSONPath p) → reported (parentJSONPath p) → reported p.

Lemma include_exact done_ l : ∀ paired,
  by_dots (done_ ++ l) → (∀ p, declared p ↔ p ∈ done_ ++ l) →
  (∀ q, q ∈ paired ↔ q = "" ∨ (q ∈ done_ ∧ on_both q ∧ reported q)) →
  ∀ p, p ∈ include_paths goByPath schemaByPath paired l ↔ p ∈ l ∧ reported p.
Proof.
  revert done_. induction l as [|x l IH]; intros done_ paired Hs Hd Hp p; simpl; [set_solver|].
  assert (Hx : parentJSONPath x ∈ paired ↔ reported x).
  { rewrite Hp. split.
    - intros [E|(Hin & Hb & Hr)]; [apply reported_top|apply reported_below]; try done; apply Hd; set_solver.
    - intros Hr. destruct (decide (parentJSONPath x = "")) as [E|E]; [by left|right].
      inversion Hr as [? ? E'|? _ Hb Hr']; subst; [done|]. split; [|done].
      assert (Hpar : parentJSONPath x ∈ done_ ++ x :: l) by (apply Hd; unfold declared; destruct Hb; auto).
      apply elem_of_app in Hpar as [?|Hpar]; [done|]. exfalso. pose proof (parent_dots x E) as Hlt.
      apply elem_of_cons in Hpar as [Heq|Hpar]; [rewrite Heq in Hlt; lia|].
      assert (dots x ≤ dots (parentJSONPath x)); [|lia].
      clear -Hs Hpar. induction done_ as [|y d IH]; simpl in Hs; apply StronglySorted_inv in Hs as [Hs Hf]; [|by apply IH].
      rewrite List.Forall_forall in Hf. apply Hf. by apply list_elem_of_In. }
  assert (Happ : done_ ++ x :: l = (done_ ++ [x]) ++ l) by by rewrite <- (assoc_L (++)).
  rewrite Happ in Hs, Hd. case_bool_decide as E.
  - rewrite elem_of_cons. rewrite (IH (done_ ++ [x])); [|done|done|].
    + rewrite Hx in E. set_solver.
    + intros q. repeat case_bool_decide; simpl; unfold on_both in *; rewrite ?elem_of_union, ?elem_of_singleton, Hp, elem_of_app, list_elem_of_singleton;
        rewrite Hx in E; naive_solver.
  - rewrite (IH (done_ ++ [x])); [|done|done|].
    + rewrite Hx in E. rewrite elem_of_cons. naive_solver.
    + intros q. rewrite Hp, elem_of_app, list_elem_of_singleton. rewrite Hx in E. naive_solver.
Qed.

Lemma include_sublist l : ∀ paired, include_paths goByPath schemaByPath paired l `sublist_of` l.
Proof.
  induction l as [|x l IH]; intros paired; simpl; [done|]. case_bool_decide; [by apply sublist_skip|by apply sublist_cons].
Qed.

Lemma ordered_paths_exact :
  (∀ p, p ∈ ordered_paths goByPath schemaByPath ↔ reported p) ∧ NoDup (ordered_paths goByPath schemaByPath) ∧
  Sorted (le_key id) (ordered_paths goByPath schemaByPath).
Proof.
  unfold ordered_paths, sort_strings.
  set (all := sort_paths (elements (dom goByPath ∪ dom schemaByPath : gset string))).
  assert (Hall : ∀ p, declared p ↔ p ∈ all).
  { intros p. unfold all. rewrite sort_paths_perm, elem_of_elements, elem_of_union. done. }
  split; [|split; [|apply sort_by_sorted]].
  - intros p. rewrite sort_by_perm, (include_exact [] all); [|apply sort_paths_sorted|done|].
    + split; [naive_solver|]. intros Hr. split; [|done]. apply Hall. by inversion Hr.
    + intros q. rewrite elem_of_singleton, elem_of_nil. naive_solver.
  - rewrite sort_by_perm. eapply sublist_NoDup; [|apply include_sublist].
    unfold all. rewrite sort_paths_perm. apply NoDup_elements.
Qed.
End pairing.

(** ** The rows of a side *)

Section rows.
Context (ParseFloat : string → option float64) (FormatFloat : float64 → string) (Unquote : string → option string).

Definition succeeds {A : Type} (x : CgSchema.result A) : Prop := ∃ a, x = inl a.
Lemma succeeds_ret {A} (a : A) : succeeds (mret a).
Proof. by exists a. Qed.
Lemma succeeds_bind {A B} (f : A → CgSchema.result B) x : succeeds x → (∀ a, x = inl a → succeeds (f a)) → succeeds (x ≫= f).
Proof. intros [a ->] H. simpl. by apply H. Qed.

Lemma change_succeeds input expected before after rule : succeeds (faithful_change input expected before after rule).
Proof.
  apply succeeds_bind; [|intros; apply succeeds_ret]. unfold breakingPredicate. repeat case_match; apply succeeds_ret.
Qed.
Lemma shape_succeeds input t : succeeds (compareOptionalityShape input t).
Proof.
  assert (H : ∀ expected rule, succeeds (schemaFaithfulShape input expected rule))
    by (intros; apply succeeds_bind; [apply change_succeeds|intros; apply succeeds_ret]).
  unfold compareOptionalityShape. repeat case_match; first [apply H|apply succeeds_ret].
Qed.
Lemma compare_shape_succeeds input : succeeds (compare_shape input).
Proof.
  unfold compare_shape, compare_date_time, compare_string, compare_untyped.
  repeat case_match; try first [apply change_succeeds|apply succeeds_ret].
  all: apply succeeds_bind; [apply shape_succeeds|intros; apply succeeds_ret].
Qed.
(** A field that a side declares is classified. *)
Lemma classify_succeeds input :
  i_GoPresent input = true ∨ i_SchemaPresent input = true → succeeds (classifyField ParseFloat FormatFloat input).
Proof.
  unfold classifyField. destruct (i_GoPresent input), (i_SchemaPresent input); intros [H|H]; try done;
    try (by apply succeeds_ret); try (case_match; by apply succeeds_ret).
  all: unfold compare_both; case_match; [apply succeeds_ret|]; case_match; [apply succeeds_ret|apply compare_shape_succeeds].
Qed.

(** The row of a path is what the classifier says of it. *)
Definition row_of (go : gmap string GoField) (schema : gmap string SchemaProperty) (row : Field) : Prop :=
  ∃ r, classifyField ParseFloat FormatFloat (comparison go schema (fl_Path row)) = inl r ∧
    fl_Class row = r_Class r ∧ fl_Rule row = r_Rule r ∧ fl_Breaking row = r_Breaking r ∧
    fl_Go row = i_Go (comparison go schema (fl_Path row)) ∧ fl_Schema row = i_Schema (comparison go schema (fl_Path row)).

Lemma classify_rows file go schema l :
  (∀ p, p ∈ l → declared go schema p) →
  ∃ rows, mapM_result (classify_row ParseFloat FormatFloat file go schema) l = inl rows ∧
    fl_Path <$> rows = l ∧ Forall (row_of go schema) rows.
Proof.
  induction l as [|p l IH]; intros Hd; [by exists []|]. cbn [mapM_result].
  destruct (classify_succeeds (comparison go schema p)) as [r Hr].
  { simpl. rewrite !bool_decide_eq_true, <- !elem_of_dom. apply Hd. left. }
  destruct IH as (rows & Hm & Hpaths & Hrows); [intros; apply Hd; by right|].
  set (input := comparison go schema p) in *.
  assert (Hc : classify_row ParseFloat FormatFloat file go schema p =
    inl (mkReportRow p (i_Go input) (i_Schema input) (r_Class r) (r_Rule r) (r_Detail r) (r_Breaking r)))
    by (unfold classify_row; cbv zeta; fold input; by rewrite Hr).
  rewrite Hc, Hm. eexists. split; [done|]. split; [cbn; by f_equal|]. constructor; [|done]. exists r. done.
Qed.

(** The row for a rule on the whole message. *)
Lemma root_row idx identity typeName doc :
  ∃ row, rootStructValidatorRow ParseFloat FormatFloat idx identity typeName doc = inl row ∧
    (is_Some row ↔ is_Some (idx_validatorFns idx !! identity)) ∧
    ∀ f, row = Some f → fl_Path f = rootMessagePath ∧ fl_Class f = STRUCT_VALIDATOR.
Proof.
  unfold rootStructValidatorRow. destruct (idx_validatorFns idx !! identity) as [fn|].
  - destruct (match idx_structs idx !! identity with Some d => (dc_file d, dc_line d) | None => ("", 0%Z) end) as [file line].
    eexists. split; [done|]. split; [naive_solver|]. by intros f [= <-].
  - exists None. split; [done|]. split; [|done]. split; by intros [? ?].
Qed.

(** C40: once the fields of a message are expanded, the rows of its side are
    made without failure: one for a rule on the message itself, and one for each
    path that a side declares and above which both sides declare every path,
    sorted and without repetition, each with the class, the rule and the breaking
    flag the classifier gives to what the two sides declare there. *)
Theorem side_rows_exact idx used typeName file doc identity fields expanded used' :
  resolveTypeIdentity (idx_resolver idx) file typeName = Some identity →
  fieldsFor Unquote idx (mkStructDecl file typeName 0) = inl fields →
  expandFields Unquote idx (expand_fuel idx) fields file "" {[identity]} used = inl (expanded, used') →
  let go := go_by_path expanded in
  let schema := schema_by_path (sd_Properties doc) in
  ∃ side root rows,
    buildMessageSide ParseFloat FormatFloat Unquote idx used typeName file doc = inl (side, used') ∧
    sd_Fields side = option_list root ++ rows ∧
    (is_Some root ↔ is_Some (idx_validatorFns idx !! identity)) ∧
    (∀ f, root = Some f → fl_Path f = rootMessagePath ∧ fl_Class f = STRUCT_VALIDATOR) ∧
    (∀ p, p ∈ fl_Path <$> rows ↔ reported go schema p) ∧ NoDup (fl_Path <$> rows) ∧
    Sorted (le_key id) (fl_Path <$> rows) ∧ Forall (row_of go schema) rows.
Proof.
  intros Hid Hf He go schema. unfold buildMessageSide. rewrite Hid, Hf. cbn [mbind result_bind]. rewrite He.
  destruct (root_row idx identity typeName doc) as (root & Hroot & Hsome & Hrow).
  destruct (ordered_paths_exact go schema) as (Hex & Hnd & Hsort).
  destruct (classify_rows file go schema (ordered_paths go schema)) as (rows & Hm & Hp & Hall).
  { intros p Hp%Hex. by destruct Hp. }
  eexists _, root, rows. split.
  { cbv beta iota zeta delta [mbind result_bind]. fold go schema. rewrite Hroot, Hm. reflexivity. }
  cbn [sd_Fields]. rewrite Hp. done.
Qed.
End rows.

(** ** The summary *)

Lemma insert_nat_perm n l : insert_nat n l ≡ₚ n :: l.
Proof. induction l as [|m l IH]; simpl; [done|]. case_bool_decide; [done|]. rewrite IH. apply Permutation_swap. Qed.
Lemma sort_nats_perm l : sort_nats l ≡ₚ l.
Proof. induction l as [|n l IH]; simpl; [done|]. by rewrite insert_nat_perm, IH. Qed.
Lemma insert_nat_sorted n l : StronglySorted le l → StronglySorted le (insert_nat n l).
Proof.
  induction l as [|m l IH]; intros Hs; simpl; [by repeat constructor|].
  apply StronglySorted_inv in Hs as [Hl Hm]. case_bool_decide as E.
  - constructor; [by constructor|]. constructor; [done|]. eapply List.Forall_impl; [|done]. simpl. lia.
  - constructor; [auto|]. rewrite insert_nat_perm. constructor; [lia|done].
Qed.
Lemma sort_nats_sorted l : StronglySorted le (sort_nats l).
Proof. induction l as [|n l IH]; simpl; [constructor|by apply insert_nat_sorted]. Qed.
Lemma sorted_lookup (l : list nat) i j x y : StronglySorted le l → i ≤ j → l !! i = Some x → l !! j = Some y → x ≤ y.
Proof.
  intros Hs. revert i j. induction Hs as [|z l Hs IH Hz]; intros i j Hij Hi Hj; [done|].
  destruct i as [|i], j as [|j]; simpl in *; simplify_eq; [done| |lia|].
  - rewrite List.Forall_forall in Hz. apply Hz, list_elem_of_In. by eapply list_elem_of_lookup_2.
  - eapply IH; [|done|done]. lia.
Qed.

(** The rank of a percentile: at least 1 and at most the length. *)
Definition rank_of (percentile n : nat) : nat := (percentile * n + 99) / 100.
Lemma rank_bounds p n : 0 < n → 1 ≤ p ≤ 100 → 1 ≤ rank_of p n ≤ n.
Proof.
  intros Hn Hp. unfold rank_of. split.
  - apply Nat.div_str_pos. nia.
  - apply Nat.lt_succ_r, Nat.Div0.div_lt_upper_bound. nia.
Qed.
Lemma rank_mono p q n : p ≤ q → rank_of p n ≤ rank_of q n.
Proof. intros H. unfold rank_of. apply Nat.Div0.div_le_mono. nia. Qed.

Lemma percentile_spec values p :
  values ≠ [] → 1 ≤ p ≤ 100 →
  ∃ v, nearestRankPercentile values p = inl v ∧ sort_nats values !! (rank_of p (length values) - 1) = Some v.
Proof.
  intros Hne Hp. unfold nearestRankPercentile. rewrite (bool_decide_false (values = [])) by done. cbv zeta.
  assert (Hl : length (sort_nats values) = length values) by by rewrite sort_nats_perm. rewrite Hl.
  fold (rank_of p (length values)).
  assert (Hn : 0 < length values) by (destruct values; simpl; [done|lia]).
  pose proof (rank_bounds p (length values) Hn Hp).
  rewrite (bool_decide_false (rank_of _ _ < 1)) by lia. rewrite (bool_decide_false (length values < _)) by lia.
  destruct (lookup_lt_is_Some_2 (sort_nats values) (rank_of p (length values) - 1)) as [v Hv]; [lia|].
  exists v. rewrite Hv. done.
Qed.

(** The distribution is of values that occur, in order. *)
Theorem distribution_ordered scores d :
  complexityDistributionOf scores = inl d →
  cd_Min d ≤ cd_P25 d ≤ cd_Median d ∧ cd_Median d ≤ cd_P75 d ≤ cd_Max d ∧
  (∀ v, v ∈ [cd_Min d; cd_P25 d; cd_Median d; cd_P75 d; cd_Max d] → v ∈ scores) ∧
  ∀ v, v ∈ scores → cd_Min d ≤ v ≤ cd_Max d.
Proof.
  unfold complexityDistributionOf. case_bool_decide as Hne; [done|].
  destruct (percentile_spec scores 25 Hne ltac:(lia)) as (v25 & -> & H25).
  destruct (percentile_spec scores 50 Hne ltac:(lia)) as (v50 & -> & H50).
  destruct (percentile_spec scores 75 Hne ltac:(lia)) as (v75 & -> & H75). simpl. intros [= <-]. simpl.
  pose proof (sort_nats_sorted scores) as Hs. pose proof (sort_nats_perm scores) as Hp.
  set (l := sort_nats scores) in *. assert (Hl : length l = length scores) by by rewrite Hp.
  assert (Hn : 0 < length l) by (rewrite Hl; destruct scores; simpl; [done|lia]).
  destruct (lookup_lt_is_Some_2 l 0 Hn) as [lo Hlo]. destruct (lookup_lt_is_Some_2 l (length l - 1) ltac:(lia)) as [hi Hhi].
  assert (Hhead : head l = Some lo) by (by destruct l; simplify_eq/=).
  assert (Hlast : last l = Some hi) by (rewrite last_lookup; replace (pred (length l)) with (length l - 1) by lia; done).
  rewrite Hhead, Hlast. simpl.
  assert (Hin : ∀ i v, l !! i = Some v → v ∈ scores) by (intros i v Hv; rewrite <- Hp; by eapply list_elem_of_lookup_2).
  pose proof (rank_bounds 75 (length scores) ltac:(lia) ltac:(lia)).
  pose proof (rank_mono 25 50 (length scores) ltac:(lia)). pose proof (rank_mono 50 75 (length scores) ltac:(lia)).
  split; [|split; [|split]].
  - split; [eapply (sorted_lookup l 0)|eapply sorted_lookup]; [done|lia|done|done|done|idtac|done|done]. lia.
  - split; [eapply sorted_lookup|eapply (sorted_lookup l _ (length l - 1))]; [done|idtac|done|done|done|idtac|done|done]; lia.
  - intros v Hv. repeat (apply elem_of_cons in Hv as [->|Hv]); eauto. by apply elem_of_nil in Hv.
  - intros v Hv. rewrite <- Hp in Hv. apply list_elem_of_lookup_1 in Hv as [i Hi].
    pose proof (lookup_lt_Some _ _ _ Hi). split; eapply sorted_lookup; [done|idtac|done|done|done|idtac|done|done]; lia.
Qed.

Definition classes : list string :=
  [IDENTICAL; SCHEMA_FAITHFUL_CHANGE; FORK_BUG; ADDITIVE; OVERRIDE_CANDIDATE; STRUCT_VALIDATOR; UNEXPLAINED].
Definition total (c : ClassCounts) : nat :=
  cc_IDENTICAL c + cc_SCHEMA_FAITHFUL_CHANGE c + cc_FORK_BUG c + cc_ADDITIVE c + cc_OVERRIDE_CANDIDATE c +
  cc_STRUCT_VALIDATOR c + cc_UNEXPLAINED c.

(** The rows of all messages, with the feature. *)
Definition report_rows (messages : list Message) : list (string * Field) :=
  flat_map (λ m, (λ f, (me_FeatureName m, f)) <$> (sd_Fields (me_Request m) ++ sd_Fields (me_Response m))) messages.
Definition tally_row (t : tallies) (p : string * Field) : tallies := tally_field p.1 t p.2.

Lemma tally_messages messages : ∀ t, foldl tally_message t messages = foldl tally_row t (report_rows messages).
Proof.
  induction messages as [|m l IH]; intros t; simpl; [done|]. rewrite IH, foldl_app. f_equal.
  unfold tally_message, tally. rewrite fmap_app, foldl_app, !foldl_fmap. done.
Qed.

Lemma count_class_total class c : class ∈ classes → total (count_class class c) = S (total c).
Proof.
  intros Hc. destruct c as [i s f a o v u]. unfold count_class.
  repeat (case_bool_decide; [unfold total; simpl; lia|]). exfalso. unfold classes in Hc.
  rewrite !elem_of_cons, elem_of_nil in Hc. by destruct Hc as [?|[?|[?|[?|[?|[?|[?|[]]]]]]]].
Qed.

Lemma tally_spec rows :
  Forall (λ p, fl_Class p.2 ∈ classes) rows →
  let t := foldl tally_row (mkTallies no_counts 0 ∅ ∅) rows in
  total (ta_counts t) = length rows ∧
  ta_breaking t = length (filter (λ p, fl_Breaking p.2 = true) rows) ∧
  (∀ n, n ∈ ta_withBreaking t ↔ ∃ f, (n, f) ∈ rows ∧ fl_Breaking f = true) ∧
  (∀ n, n ∈ ta_needingOverrides t ↔ ∃ f, (n, f) ∈ rows ∧ fl_Class f = OVERRIDE_CANDIDATE).
Proof.
  induction rows as [|[name f] rows IH] using rev_ind; intros Hc; simpl; [split; [done|]; split; [done|]; set_solver|].
  apply Forall_app in Hc as [Hc Hf]. rewrite Forall_singleton in Hf. cbn [snd] in Hf.
  destruct (IH Hc) as (H1 & H2 & H3 & H4). rewrite foldl_snoc. set (t := foldl _ _ rows) in *. unfold tally_row, tally_field.
  cbn [fst snd ta_counts ta_breaking ta_withBreaking ta_needingOverrides].
  rewrite (count_class_total _ _ Hf), H1, length_app. split; [simpl; lia|].
  rewrite filter_app, length_app, <- H2. split; [|split].
  - destruct (fl_Breaking f) eqn:E; [rewrite filter_cons_True by done|rewrite filter_cons_False by (simpl; congruence)];
      rewrite filter_nil; simpl; lia.
  - intros n. setoid_rewrite elem_of_app. setoid_rewrite list_elem_of_singleton.
    destruct (fl_Breaking f) eqn:E; rewrite ?elem_of_union, ?elem_of_singleton, H3; naive_solver congruence.
  - intros n. setoid_rewrite elem_of_app. setoid_rewrite list_elem_of_singleton.
    case_bool_decide as E; rewrite ?elem_of_union, ?elem_of_singleton, H4; naive_solver congruence.
Qed.

(** The counts of the summary are those of the rows, and every row is counted in
    exactly one class. *)
Theorem summary_counts messages s :
  buildSummary messages = inl s → Forall (λ p, fl_Class p.2 ∈ classes) (report_rows messages) →
  total (su_ByClass s) = length (report_rows messages) ∧
  su_BreakingFields s = length (filter (λ p, fl_Breaking p.2 = true) (report_rows messages)) ∧
  ∃ breaking overrides : gset string,
    su_MessagesWithBreakingFields s = size breaking ∧ su_MessagesNeedingOverrides s = size overrides ∧
    (∀ n, n ∈ breaking ↔ ∃ f, (n, f) ∈ report_rows messages ∧ fl_Breaking f = true) ∧
    (∀ n, n ∈ overrides ↔ ∃ f, (n, f) ∈ report_rows messages ∧ fl_Class f = OVERRIDE_CANDIDATE).
Proof.
  unfold buildSummary. rewrite tally_messages. intros Hs Hc. destruct (tally_spec (report_rows messages) Hc) as (H1 & H2 & H3 & H4).
  set (t := foldl _ _ (report_rows messages)) in *.
  destruct (complexityDistributionOf _); [|done]. simpl in Hs. injection Hs as <-. simpl.
  split; [done|]. split; [done|]. by exists (ta_withBreaking t), (ta_needingOverrides t).
Qed.

(** ** Coverage *)

Section coverage.
Context (ParseFloat : string → option float64) (FormatFloat : float64 → string) (Unquote : string → option string).

(** Every feature is a message or unpaired, and a used file is that of a message. *)
Definition covered (requests responses : gmap string SchemaDocument) (names : list string) (c : compared) : Prop :=
  (me_FeatureName <$> co_messages c) ++ co_unpaired c ≡ₚ names ∧
  ∀ n, n ∈ co_usedFiles c → ∃ m doc, m ∈ co_messages c ∧
    (requests !! me_FeatureName m = Some doc ∨ responses !! me_FeatureName m = Some doc) ∧ baseName (sd_File doc) = n.

Lemma compare_feature_covers idx requests responses acc f acc' names :
  compare_feature ParseFloat FormatFloat Unquote idx requests responses acc f = inl acc' →
  covered requests responses names acc → covered requests responses (names ++ [fi_featureName f]) acc'.
Proof.
  unfold compare_feature. intros Hc [Hn Hu].
  destruct (requests !! fi_featureName f) as [req|] eqn:Er; [destruct (responses !! fi_featureName f) as [resp|] eqn:Es|].
  - destruct (buildMessageSide _ _ _ _ (co_usedStructs acc) _ _ _) as [[s1 u1]|]; [|done]. simpl in Hc.
    destruct (buildMessageSide _ _ _ _ u1 _ _ _) as [[s2 u2]|]; [|done]. simpl in Hc. injection Hc as <-.
    split; simpl.
    + rewrite fmap_app, <- (assoc_L (++)), (Permutation_app_comm _ (co_unpaired acc)), (assoc_L (++)), Hn. done.
    + intros n. rewrite elem_of_union. intros [Hin|(m & doc & Hm & Hd)%Hu].
      * apply elem_of_union in Hin as [->%elem_of_singleton| ->%elem_of_singleton]; eexists _, _;
          (split; [apply elem_of_app; right; by apply list_elem_of_singleton|]); simpl; eauto.
      * exists m, doc. split; [|done]. apply elem_of_app. by left.
  - injection Hc as <-. split; [|done]. simpl. by rewrite (assoc_L (++)), Hn.
  - injection Hc as <-. split; [|done]. simpl. by rewrite (assoc_L (++)), Hn.
Qed.

Lemma compare_features_cover idx requests responses features : ∀ acc acc' names,
  compare_features ParseFloat FormatFloat Unquote idx requests responses acc features = inl acc' →
  covered requests responses names acc → covered requests responses (names ++ (fi_featureName <$> features)) acc'.
Proof.
  induction features as [|f l IH]; intros acc acc' names Hc Hcov; cbn [compare_features] in Hc.
  { injection Hc as <-. by rewrite app_nil_r. }
  destruct (compare_feature _ _ _ idx requests responses acc f) as [acc1|] eqn:E; [|done].
  eapply compare_feature_covers in Hcov; [|done]. eapply IH in Hcov; [|done]. by rewrite <- (assoc_L (++)) in Hcov.
Qed.

(** A run that publishes without failures has compared every feature, each once,
    and used every schema file it loaded for one of the messages. *)
Theorem published_complete idx features files messages coverage summary used version checks :
  compare_corpus ParseFloat FormatFloat Unquote idx features files = inl (messages, coverage, summary, used) →
  publicationFailures version coverage checks = [] →
  me_FeatureName <$> messages ≡ₚ fi_featureName <$> features ∧
  ∃ requests responses, indexSchemasByFeature (loadSchemas files) = inl (requests, responses) ∧
    ∀ n, n ∈ (loadSchemas files).*1 → ∃ m doc, m ∈ messages ∧
      (requests !! me_FeatureName m = Some doc ∨ responses !! me_FeatureName m = Some doc) ∧ baseName (sd_File doc) = n.
Proof.
  unfold compare_corpus. destruct (indexSchemasByFeature _) as [[requests responses]|] eqn:Ei; [|done]. cbn [mbind result_bind].
  destruct (compare_features _ _ _ _ _ _ _ _) as [c|] eqn:Ec; [|done]. cbn [mbind result_bind].
  destruct (buildSummary _) as [s|]; [|done]. cbn [mbind result_bind]. intros [= <- <- <- <-] Hp.
  apply (compare_features_cover _ _ _ _ _ _ []) in Ec as [Hn Hu]; [|split; [done|intros n; set_solver]]. simpl in Hn.
  unfold publicationFailures in Hp. cbn [cv_UnpairedMessages cv_UnpairedSchemaFiles] in Hp.
  apply app_eq_nil in Hp as [Hp1 Hp2]. apply app_eq_nil in Hp2 as [Hp2 _].
  apply fmap_nil_inv in Hp1, Hp2.
  assert (Hun : co_unpaired c = []) by (apply Permutation_nil_r; rewrite <- Hp1; unfold sort_strings; by rewrite sort_by_perm).
  rewrite Hun, app_nil_r in Hn. split; [by rewrite sort_by_perm|]. exists requests, responses. split; [done|].
  intros n Hin. destruct (decide (n ∈ co_usedFiles c)) as [Hused|Hno].
  - destruct (Hu n Hused) as (m & doc & Hm & Hd). exists m, doc. by rewrite sort_by_perm.
  - exfalso. assert (Hf : n ∈ sort_strings (filter (λ n, n ∉ co_usedFiles c) (loadSchemas files).*1)).
    { unfold sort_strings. rewrite sort_by_perm. by apply list_elem_of_filter. }
    rewrite Hp2 in Hf. by apply elem_of_nil in Hf.
Qed.
End coverage.

(** ** The depth of the expansion *)

Section depth.
Context (Unquote : string → option string) (idx : treeIndex).

Lemma expandable_fresh f file visiting identity decl :
  expandable idx f file visiting = Some (identity, decl) → identity ∈ dom (idx_structs idx) ∧ identity ∉ visiting.
Proof.
  unfold expandable. destruct (resolveTypeIdentity _ _ _) as [i|]; simpl; [|done].
  destruct (negb (g_Slice f) && _); [done|]. destruct (resolveWireType _ _); [done|].
  destruct (idx_structs idx !! i) as [d|] eqn:E; simpl; [|done]. destruct (negb (g_Slice f) && _); [done|].
  case_bool_decide; [done|]. intros [= <- <-]. split; [by eapply elem_of_dom_2|done].
Qed.

Lemma expand_loop_agree e1 e2 fields file prefix visiting :
  (∀ i fs f p u, i ∈ dom (idx_structs idx) → i ∉ visiting → e1 fs f p ({[i]} ∪ visiting) u = e2 fs f p ({[i]} ∪ visiting) u) →
  ∀ stack used, expand_loop Unquote idx e1 fields file prefix visiting stack used =
                expand_loop Unquote idx e2 fields file prefix visiting stack used.
Proof.
  intros Ha. induction fields as [|f l IH]; intros stack used; [done|]. cbn [expand_loop].
  destruct (expandable idx f file visiting) as [[i decl]|] eqn:E; [|by rewrite IH].
  apply expandable_fresh in E as [Hi Hv]. destruct (fieldsFor _ _ _); [|done]. cbn [mbind result_bind].
  rewrite (Ha i) by done. destruct (e2 _ _ _ _ _) as [[children u]|]; [|done]. cbn [mbind result_bind]. by rewrite IH.
Qed.

Lemma expandFields_stable n : ∀ fields file prefix visiting used,
  size (dom (idx_structs idx) ∖ visiting) < n →
  expandFields Unquote idx (S n) fields file prefix visiting used = expandFields Unquote idx n fields file prefix visiting used.
Proof.
  induction n as [|n IH]; intros fields file prefix visiting used Hn; [lia|].
  change (expand_loop Unquote idx (expandFields Unquote idx (S n)) fields file prefix visiting [] used =
          expand_loop Unquote idx (expandFields Unquote idx n) fields file prefix visiting [] used).
  apply expand_loop_agree. intros i fs f p u Hi Hv. apply IH.
  assert (dom (idx_structs idx) ∖ ({[i]} ∪ visiting) ⊂ dom (idx_structs idx) ∖ visiting) as Hs%subset_size by set_solver. lia.
Qed.

(** The depth the expansion is given is enough: more changes nothing. *)
Theorem expansion_depth_enough n fields file prefix visiting used :
  expand_fuel idx ≤ n →
  expandFields Unquote idx n fields file prefix visiting used =
  expandFields Unquote idx (expand_fuel idx) fields file prefix visiting used.
Proof.
  intros Hn. induction Hn as [|n Hn IH]; [done|]. rewrite <- IH. apply expandFields_stable.
  unfold expand_fuel in Hn. rewrite <- size_dom in Hn.
  assert (size (dom (idx_structs idx) ∖ visiting) ≤ size (dom (idx_structs idx))) by (apply subseteq_size; set_solver). lia.
Qed.
End depth.

(** ** A message *)

Module CompareDemo.
Definition unquote (s : string) : option string :=
  match chars s with
  | _ :: l => Some (of_chars (take (length l - 1) l))
  | [] => None
  end.
Definition parse (s : string) : option float64 := of_int <$> ParseInt s.
Definition text (f : float64) : string := "".
Definition tag (json validate : string) : option string :=
  Some ("`json:" +:+ dq +:+ json +:+ dq +:+ " validate:" +:+ dq +:+ validate +:+ dq +:+ "`").
(** type Foo struct { A string `json:"a" validate:"required,max=20"`; B *int `json:"b,omitempty"` } *)
Definition source : ast_file :=
  mkFile [GenDecl TYPE [TypeSpec "Foo" (StructType [mkField ["A"] (Ident "string") (tag "a" "required,max=20") 2;
                                                    mkField ["B"] (StarExpr (Ident "int")) (tag "b,omitempty" "") 3]) 1]] [].
Definition idx : treeIndex :=
  match buildTreeIndex unquote [mkSource "m.go" "p" source] "p" with
  | inl i => i
  | inr _ => mkIndex (newResolution newTypeResolver newWireTypeRegistry) ∅ ∅ ∅
  end.
Definition doc : SchemaDocument :=
  mkDocument "FooRequest.json" (mkShape "" "" false false "request-suffixed") "object"
    [mkSchemaProperty "#/properties/a" "a" "a" "string" None true []
       (mkConstraints (Some 20%Z) None None None None None None None None None) "";
     mkSchemaProperty "#/properties/b" "b" "b" "integer" None false [] no_constraints "";
     mkSchemaProperty "#/properties/c" "c" "c" "object" None false [] no_constraints "";
     mkSchemaProperty "#/properties/c/properties/d" "c.d" "d" "string" None true [] no_constraints ""] [].
Definition fields : list GoField := match fieldsFor unquote idx (mkStructDecl "m.go" "Foo" 0) with inl l => l | inr _ => [] end.
Definition expanded : list reportField :=
  match expandFields unquote idx (expand_fuel idx) fields "m.go" "" {["p.Foo"]} ∅ with inl p => p.1 | inr _ => [] end.

Lemma side_rows_exact_witness :
  ∃ side, buildMessageSide parse text unquote idx ∅ "Foo" "m.go" doc = inl (side, ∅) ∧
    (λ f, (fl_Path f, fl_Class f)) <$> sd_Fields side = [("a", IDENTICAL); ("b", IDENTICAL); ("c", ADDITIVE)].
Proof.
  destruct (side_rows_exact parse text unquote idx ∅ "Foo" "m.go" doc "p.Foo" fields expanded ∅) as (side & _ & _ & H & _).
  - by vm_compute.
  - by vm_compute.
  - by vm_compute.
  - exists side. split; [exact H|]. revert H. vm_compute. intros [= <-]. reflexivity.
Defined.
End CompareDemo.
