(* ===== verification/ScEvidence.v ===== *)
(** * The schema check: the evidence of a judgement

    src/internal/schemacheck/evidence.go, and [validateEvidence] and
    [validateEvidenceChain] of classifications.go.  A judgement can pin facts of
    the Go tree; they are read again on every run.

    The text of a function declaration comes from go/format and the line of a call
    from the file set: both are arguments.  Where the code ranges over a map to
    report failures, the order is one of a list here; the caller sorts them. *)

From Stdlib Require Import Ascii.
From stdpp Require Import pretty.
From S2P Require Import Prelude Ocpp CgIR CgMapping CgPlacement CgSchema CgOverrides CgEmit ScTypes ScGoWalk ScClassify ScSchemaWalk ScTree ScCompare.
Local Open Scope string_scope.
Local Open Scope list_scope.

(** ** Text *)

(** [strings.Cut] with a separator of several characters. *)
Fixpoint cut_string (sep l : list ascii) : option (list ascii * list ascii) :=
  if bool_decide (take (length sep) l = sep) then Some ([], drop (length sep) l)
  else match l with
       | [] => None
       | c :: l' => match cut_string sep l' with Some (before, after) => Some (c :: before, after) | None => None end
       end.
Definition CutString (s sep : string) : option (string * string) :=
  match cut_string (chars sep) (chars s) with Some (a, b) => Some (of_chars a, of_chars b) | None => None end.

Fixpoint drop_in (cutset l : list ascii) : list ascii :=
  match l with c :: l' => if bool_decide (c ∈ cutset) then drop_in cutset l' else l | [] => [] end.
Definition TrimRight (s : string) (cutset : list ascii) : string := of_chars (reverse (drop_in cutset (reverse (chars s)))).
Definition Trim (s : string) (cutset : list ascii) : string :=
  of_chars (reverse (drop_in cutset (reverse (drop_in cutset (chars s))))).

(** [strings.Fields] *)
Fixpoint fields_from (word l : list ascii) : list string :=
  let finished := match word with [] => [] | _ => [of_chars word] end in
  match l with
  | [] => finished
  | c :: l' => if is_space c then finished ++ fields_from [] l' else fields_from (word ++ [c]) l'
  end.
Definition Fields (s : string) : list string := fields_from [] (chars s).

(** [%v] of a list of strings *)
Definition printed (l : list string) : string := "[" +:+ Join l " " +:+ "]".

Definition line_end : ascii := Ascii.ascii_of_nat 10.
Definition tab : ascii := Ascii.ascii_of_nat 9.
Definition carriage_return : ascii := Ascii.ascii_of_nat 13.

Definition dropBlankLines (text : string) : string :=
  Join (filter (λ line, line ≠ "")
          ((λ line, TrimRight line [" "%char; tab; carriage_return]) <$> Split text line_end)) newline.

(** ** Items *)

Definition evidenceGoValidate : string := "go-validate".
Definition evidenceValidatorBinding : string := "validator-binding".
Definition evidenceValidatorBody : string := "validator-body".
Definition evidenceKinds : list string := [evidenceGoValidate; evidenceValidatorBinding; evidenceValidatorBody].

Record evidenceItem := mkEvidence { ev_Kind : string; ev_Location : string; ev_Expected : list string; ev_ExpectedText : string }.

Definition bindingFunction (binding : string) : option string :=
  match CutString binding " at " with
  | Some (name, _) => if bool_decide (name = "") then None else Some name
  | None => None
  end.
Definition bindingFile (binding : string) : option string :=
  match CutString binding " at " with
  | Some (_, file) => if bool_decide (file = "") then None else Some file
  | None => None
  end.

(** ** Facts of the tree *)

Record treeEvidence := mkTreeEvidence {
  te_functionBodies : gmap string string;
  te_bindings : gmap string (list string);
  te_bindingSites : gmap string (list string)
}.

Definition stringLiteralValue (e : expr) : option string :=
  match e with BasicLit true v => Some (Trim v ["`"%char; dquote]) | _ => None end.
Definition boundFunctionName (e : expr) : string :=
  match e with Ident n => n | _ => Join (Fields (exprString e)) " " end.

Section collect.
(** [format.Node] of a declaration without its doc comment, and the line of the
    n-th call of a file. *)
Context (format : decl → option string) (line_of : string → nat → string).

Definition functionBodies (file : ast_file) : list (string * string) :=
  omap (λ d, match d with
             | FuncDecl _ name (Some _) _ => (λ text, (name, dropBlankLines text)) <$> format d
             | _ => None
             end) (af_Decls file).

Record validationBinding := mkValidation { vb_tag : string; vb_function : string; vb_line : string }.
Definition validation_binding (path : string) (n : nat) (c : expr * list expr) : option validationBinding :=
  match c with
  | (SelectorExpr _ sel, tag :: bound :: _) =>
      if bool_decide (sel = "RegisterValidation") then
        (λ tag, mkValidation tag (boundFunctionName bound) (line_of path n)) <$> stringLiteralValue tag
      else None
  | _ => None
  end.
Definition validationBindings (path : string) (file : ast_file) : list validationBinding :=
  omap id (imap (validation_binding path) (file_calls file)).

Definition append_to (m : gmap string (list string)) (kv : string * string) : gmap string (list string) :=
  <[kv.1 := default [] (m !! kv.1) ++ [kv.2]]> m.
Definition by_tag (l : list (string * string)) : gmap string (list string) := sort_strings <$> foldl append_to ∅ l.

Definition collectTreeEvidence (files : list (string * ast_file)) : treeEvidence :=
  let bound f := flat_map (λ pf, (λ b, (vb_tag b, f pf.1 b)) <$> validationBindings pf.1 pf.2) files in
  mkTreeEvidence
    (foldl (λ m kv, <[kv.1 := kv.2]> m) ∅
       (flat_map (λ pf, (λ nb, (pf.1 +:+ ":" +:+ nb.1, nb.2)) <$> functionBodies pf.2) files))
    (by_tag (bound (λ path b, vb_function b +:+ " at " +:+ path)))
    (by_tag (bound (λ path b, vb_function b +:+ " at " +:+ path +:+ ":" +:+ vb_line b))).
End collect.

(** ** Checking what is pinned *)

Definition observeEvidence (item : evidenceItem) (field : Field) (tree : treeEvidence) : result (list string) :=
  if bool_decide (ev_Kind item = evidenceGoValidate) then mret (fieldLevelValidateTokens (g_Validate (fl_Go field)))
  else if bool_decide (ev_Kind item = evidenceValidatorBinding) then mret (default [] (te_bindings tree !! ev_Location item))
  else fail ("unknown evidence kind " +:+ quoted (ev_Kind item)).

Definition equalStrings (a b : list string) : bool := bool_decide (a = b).

Definition indentLines (lines : list string) : string := Join ((λ line, "      " +:+ line) <$> lines) newline.
Definition bodyPrintLimit : nat := 40.
Definition describeBodyChange (recorded observed : string) : string :=
  let was := Split recorded line_end in
  let now := Split observed line_end in
  if bool_decide (length was ≤ bodyPrintLimit)%nat && bool_decide (length now ≤ bodyPrintLimit)%nat then
    newline +:+ "    recorded:" +:+ newline +:+ indentLines was +:+ newline +:+ "    found:" +:+ newline +:+ indentLines now
  else
    newline +:+ Join (omap (λ i, let a := default "" (was !! i) in let b := default "" (now !! i) in
                                 if bool_decide (a = b) then None
                                 else Some ("      line " +:+ pretty (S i) +:+ ": recorded " +:+ quoted a +:+ ", found " +:+ quoted b))
                        (seq 0 (length was `max` length now))) newline.

Definition verify_item (subject : string) (field : Field) (tree : treeEvidence) (item : evidenceItem) : list string :=
  let changed := subject +:+ ": the " +:+ ev_Kind item +:+ " evidence at " +:+ ev_Location item
                 +:+ " has changed, so the hand-made judgement resting on it has to be made again" in
  if bool_decide (ev_Kind item = evidenceValidatorBody) then
    match te_functionBodies tree !! ev_Location item with
    | None => [subject +:+ ": no function at " +:+ ev_Location item +:+ ", so the evidence cannot be checked"]
    | Some observed =>
        let recorded := dropBlankLines (ev_ExpectedText item) in
        if bool_decide (recorded = observed) then [] else [changed +:+ describeBodyChange recorded observed]
    end
  else
    match observeEvidence item field tree with
    | inr e => [subject +:+ ": " +:+ error_text e]
    | inl observed =>
        if equalStrings (ev_Expected item) observed then []
        else [changed +:+ " — recorded " +:+ printed (ev_Expected item) +:+ ", found " +:+ printed observed
              +:+ (if bool_decide (ev_Kind item = evidenceValidatorBinding) then
                     " (registration sites: " +:+ printed (default [] (te_bindingSites tree !! ev_Location item)) +:+ ")"
                   else "")]
    end.
Definition verifyEvidence (subject : string) (items : list evidenceItem) (field : Field) (tree : treeEvidence) : list string :=
  flat_map (verify_item subject field tree) items.

(** ** Checking what is written *)

Definition complain (b : bool) (text : string) : list string := if b then [text] else [].

(** The function a binding reaches, as the location of its body. *)
Definition bound_location (binding : string) : option string :=
  name ← bindingFunction binding; file ← bindingFile binding; Some (file +:+ ":" +:+ name).
Definition has_kind (kind : string) (items : list evidenceItem) : bool := existsb (λ i, bool_decide (ev_Kind i = kind)) items.
Definition bindings_of (items : list evidenceItem) : list string :=
  flat_map (λ i, if bool_decide (ev_Kind i = evidenceValidatorBinding) then ev_Expected i else []) items.
Definition bodies_of (items : list evidenceItem) : list string :=
  omap (λ i, if bool_decide (ev_Kind i = evidenceValidatorBody) then Some (ev_Location i) else None) items.
(** The last binding of a location counts. *)
Definition bound_functions (items : list evidenceItem) : gmap string string :=
  foldl (λ m b, match bound_location b with Some l => <[l := b]> m | None => m end) ∅ (bindings_of items).

Definition validateEvidenceChain (subject : string) (items : list evidenceItem) : list string :=
  let form := "; a binding reads " +:+ quoted "<function> at <file>:<line>" in
  let bad := flat_map (λ binding,
    match bindingFunction binding with
    | None => [subject +:+ " records the binding " +:+ quoted binding +:+ ", which does not name a function" +:+ form]
    | Some _ =>
        complain (bool_decide (bindingFile binding = None))
          (subject +:+ " records the binding " +:+ quoted binding +:+ ", which does not name a file" +:+ form)
    end) (bindings_of items) in
  if negb (has_kind evidenceValidatorBody items) && negb (has_kind evidenceValidatorBinding items) then bad
  else
    bad ++
    complain (negb (has_kind evidenceGoValidate items))
      (subject +:+ " pins a validator but not the field's own " +:+ evidenceGoValidate
       +:+ " tokens, so the field could name a different tag with every other pin still matching") ++
    flat_map (λ location, complain (bool_decide (bound_functions items !! location = None))
      (subject +:+ " pins the body at " +:+ location +:+ " but no " +:+ evidenceValidatorBinding
       +:+ " evidence shows a tag reaching it, so the tag could be rebound to another function and this pin would still match"))
      (remove_dups (bodies_of items)) ++
    flat_map (λ lb, complain (negb (bool_decide (lb.1 ∈ bodies_of items)))
      (subject +:+ " pins the binding " +:+ quoted lb.2 +:+ " but not that function's body, so what it decides is unpinned"))
      (map_to_list (bound_functions items)).

Definition unaccountedClasses : list string := [UNEXPLAINED].

Definition validate_item (subject : string) (item : evidenceItem) : list string :=
  let records := subject +:+ " records " +:+ ev_Kind item +:+ " evidence " in
  if negb (containsString evidenceKinds (ev_Kind item)) then
    [subject +:+ " records evidence of kind " +:+ quoted (ev_Kind item) +:+ ", which is not one of " +:+ Join evidenceKinds ", "]
  else
    complain (negb (bool_decide (ev_Kind item = evidenceGoValidate)) && bool_decide (ev_Location item = ""))
      (records +:+ "with no location, so there is nothing to re-read") ++
    (if bool_decide (ev_Kind item = evidenceValidatorBody) then
       complain (bool_decide (TrimSpace (ev_ExpectedText item) = ""))
         (records +:+ "with no expectedText, so no source is pinned") ++
       complain (negb (bool_decide (ev_Expected item = [])))
         (records +:+ "with a list; this kind pins a function's source as expectedText")
     else complain (negb (bool_decide (ev_ExpectedText item = "")))
            (records +:+ "with expectedText; this kind pins a set as expected")).

Definition validateEvidence (subject class rule : string) (items : list evidenceItem) : list string :=
  flat_map (validate_item subject) items ++ validateEvidenceChain subject items ++
  complain (bool_decide (rule = "") && containsString unaccountedClasses class && bool_decide (items = []))
    (subject +:+ " is " +:+ class
     +:+ " with no rule and records no evidence, so the judgement is pinned to nothing and would survive any change to the facts it was made from").

(** ** What the checks establish *)

Lemma complain_nil b text : complain b text = [] ↔ b = false.
Proof. by destruct b. Qed.
Lemma flat_map_nil {A B} (f : A → list B) l : flat_map f l = [] ↔ ∀ x, x ∈ l → f x = [].
Proof.
  induction l as [|y l IH]; simpl; [split; [|done]; intros _ x Hx; by apply elem_of_nil in Hx|].
  rewrite app_nil, IH. setoid_rewrite elem_of_cons. naive_solver.
Qed.
Lemma containsString_spec l x : containsString l x = true ↔ x ∈ l.
Proof.
  unfold containsString. rewrite existsb_exists. setoid_rewrite bool_decide_eq_true. setoid_rewrite <- list_elem_of_In.
  naive_solver.
Qed.
Lemma has_kind_spec kind items : has_kind kind items = true ↔ ∃ i, i ∈ items ∧ ev_Kind i = kind.
Proof.
  unfold has_kind. rewrite existsb_exists. setoid_rewrite bool_decide_eq_true. setoid_rewrite <- list_elem_of_In. done.
Qed.
Lemma bodies_of_spec items l :
  l ∈ bodies_of items ↔ ∃ i, i ∈ items ∧ ev_Kind i = evidenceValidatorBody ∧ ev_Location i = l.
Proof.
  unfold bodies_of. rewrite list_elem_of_omap. split; intros (i & Hi & H); exists i; split; try done.
  - case_bool_decide; by simplify_eq.
  - destruct H as [Hk <-]. by rewrite bool_decide_true.
Qed.
Lemma bindings_of_spec items b :
  b ∈ bindings_of items ↔ ∃ i, i ∈ items ∧ ev_Kind i = evidenceValidatorBinding ∧ b ∈ ev_Expected i.
Proof.
  unfold bindings_of. rewrite list_elem_of_In, in_flat_map. setoid_rewrite <- list_elem_of_In.
  split; intros (i & Hi & H); exists i; split; try done.
  - case_bool_decide; [done|]. by apply elem_of_nil in H.
  - destruct H as [Hk H]. by rewrite bool_decide_true.
Qed.

Lemma bound_functions_spec items l :
  is_Some (bound_functions items !! l) ↔ ∃ b, b ∈ bindings_of items ∧ bound_location b = Some l.
Proof.
  unfold bound_functions. generalize (bindings_of items). intros bs.
  assert (H : ∀ m : gmap string string,
    is_Some (foldl (λ m b, match bound_location b with Some l => <[l := b]> m | None => m end) m bs !! l) ↔
    is_Some (m !! l) ∨ ∃ b, b ∈ bs ∧ bound_location b = Some l).
  { induction bs as [|b bs IH]; intros m; simpl.
    - split; [by left|]. intros [?|(b & Hb & _)]; [done|by apply elem_of_nil in Hb].
    - rewrite IH. setoid_rewrite elem_of_cons. destruct (bound_location b) as [l'|] eqn:E; [|naive_solver].
      destruct (decide (l' = l)) as [->|Hne]; [rewrite lookup_insert_eq|rewrite lookup_insert_ne by done]; naive_solver. }
  rewrite H, lookup_empty. split; [|by right]. intros [[? ?]|?]; done.
Qed.

(** An item holds of a field and the tree. *)
Definition confirmed (field : Field) (tree : treeEvidence) (i : evidenceItem) : Prop :=
  if bool_decide (ev_Kind i = evidenceValidatorBody) then
    te_functionBodies tree !! ev_Location i = Some (dropBlankLines (ev_ExpectedText i))
  else if bool_decide (ev_Kind i = evidenceGoValidate) then
    ev_Expected i = fieldLevelValidateTokens (g_Validate (fl_Go field))
  else ev_Kind i = evidenceValidatorBinding ∧ ev_Expected i = default [] (te_bindings tree !! ev_Location i).

Lemma verify_item_confirmed subject field tree i : verify_item subject field tree i = [] ↔ confirmed field tree i.
Proof.
  unfold verify_item, confirmed, observeEvidence, equalStrings. case_bool_decide.
  { destruct (te_functionBodies tree !! _); [case_bool_decide|]; naive_solver. }
  case_bool_decide; [simpl; case_bool_decide; naive_solver|]. case_bool_decide; simpl; [|naive_solver].
  case_bool_decide; naive_solver.
Qed.

(** The chain rule: a validator is pinned together with the tokens of the field,
    every pinned body is reached by a pinned binding, and every function a pinned
    binding reaches has its body pinned. *)
Lemma chain_spec subject items :
  validateEvidenceChain subject items = [] ↔
  (∀ b, b ∈ bindings_of items → is_Some (bound_location b)) ∧
  ((∃ i, i ∈ items ∧ (ev_Kind i = evidenceValidatorBody ∨ ev_Kind i = evidenceValidatorBinding)) →
   ∃ i, i ∈ items ∧ ev_Kind i = evidenceGoValidate) ∧
  ∀ l, l ∈ bodies_of items ↔ ∃ b, b ∈ bindings_of items ∧ bound_location b = Some l.
Proof.
  unfold validateEvidenceChain. cbv zeta.
  set (bad := flat_map _ (bindings_of items)).
  assert (Hbad : bad = [] ↔ ∀ b, b ∈ bindings_of items → is_Some (bound_location b)).
  { unfold bad. rewrite flat_map_nil. apply forall_proper. intros b. apply forall_proper. intros _. unfold bound_location.
    destruct (bindingFunction b); simpl; [|split; [done|by intros [? ?]]]. rewrite complain_nil, bool_decide_eq_false.
    destruct (bindingFile b); simpl; naive_solver. }
  destruct (negb (has_kind evidenceValidatorBody items) && negb (has_kind evidenceValidatorBinding items)) eqn:E.
  - apply andb_prop in E as [E1 E2]. apply negb_true_iff, not_true_iff_false in E1, E2.
    rewrite has_kind_spec in E1, E2. rewrite Hbad. split; [|naive_solver]. intros H. split; [done|]. split; [naive_solver|].
    intros l. rewrite bodies_of_spec. setoid_rewrite bindings_of_spec. naive_solver.
  - rewrite !app_nil, Hbad, complain_nil, negb_false_iff, has_kind_spec, !flat_map_nil.
    assert (Hv : ∃ i, i ∈ items ∧ (ev_Kind i = evidenceValidatorBody ∨ ev_Kind i = evidenceValidatorBinding)).
    { apply andb_false_iff in E as [E|E]; apply negb_false_iff, has_kind_spec in E; naive_solver. }
    assert (Hb : (∀ x, x ∈ remove_dups (bodies_of items) →
                   complain (bool_decide (bound_functions items !! x = None)) (subject +:+ " pins the body at " +:+ x +:+ " but no "
                     +:+ evidenceValidatorBinding +:+ " evidence shows a tag reaching it, so the tag could be rebound to another function and this pin would still match") = []) ↔
                 ∀ l, l ∈ bodies_of items → ∃ b, b ∈ bindings_of items ∧ bound_location b = Some l).
    { setoid_rewrite elem_of_remove_dups. setoid_rewrite complain_nil. setoid_rewrite bool_decide_eq_false.
      setoid_rewrite <- bound_functions_spec. by setoid_rewrite not_eq_None_Some. }
    rewrite Hb. setoid_rewrite complain_nil. setoid_rewrite negb_false_iff. setoid_rewrite bool_decide_eq_true.
    split; intros (H1 & H2 & H3).
    + destruct H3 as [H3 H4]. split; [done|]. split; [done|]. intros l. split; [by apply H3|].
      rewrite <- bound_functions_spec. intros [b Hl]. by apply (H4 (l, b)), elem_of_map_to_list.
    + split; [done|]. split; [by apply H2|]. split; [naive_solver|]. intros [l b] Hl%elem_of_map_to_list. simpl.
      apply H3, bound_functions_spec. by exists b.
Qed.

(** What an accepted and confirmed block of evidence says.  Every item holds of the
    field and the tree of this run; a row without an account has at least one; and
    a pinned function body is pinned with the whole chain that leads to it: the
    validation tokens of the field, a tag that is bound in the tree to exactly the
    functions recorded, this one among them, and the source of that function. *)
Theorem evidence_chain subject class rule items field tree :
  validateEvidence subject class rule items = [] → verifyEvidence subject items field tree = [] →
  Forall (confirmed field tree) items ∧
  (rule = "" → class = UNEXPLAINED → items ≠ []) ∧
  ∀ body, body ∈ items → ev_Kind body = evidenceValidatorBody →
    te_functionBodies tree !! ev_Location body = Some (dropBlankLines (ev_ExpectedText body)) ∧
    (∃ v, v ∈ items ∧ ev_Kind v = evidenceGoValidate ∧
          ev_Expected v = fieldLevelValidateTokens (g_Validate (fl_Go field))) ∧
    ∃ b binding, b ∈ items ∧ ev_Kind b = evidenceValidatorBinding ∧
      ev_Expected b = default [] (te_bindings tree !! ev_Location b) ∧ binding ∈ ev_Expected b ∧
      bound_location binding = Some (ev_Location body).
Proof.
  unfold validateEvidence, verifyEvidence. rewrite !app_nil, complain_nil, chain_spec, flat_map_nil.
  intros (_ & (_ & Htok & Hchain) & Hone) Hver. rewrite flat_map_nil in Hver.
  assert (Hall : ∀ i, i ∈ items → confirmed field tree i) by (intros i Hi; by apply (verify_item_confirmed subject), Hver).
  split; [by apply Forall_forall|]. split.
  { intros -> -> ->. by vm_compute in Hone. }
  intros body Hin Hk. split; [|split].
  - specialize (Hall body Hin). unfold confirmed in Hall. by rewrite bool_decide_true in Hall.
  - destruct Htok as (v & Hv & Hkv); [eauto|]. exists v. split; [done|]. split; [done|].
    specialize (Hall v Hv). unfold confirmed in Hall.
    rewrite Hkv, (bool_decide_false (_ = _)), bool_decide_true in Hall by done. done.
  - destruct (Hchain (ev_Location body)) as [H _]. destruct H as (binding & Hb & Hl); [apply bodies_of_spec; eauto|].
    apply bindings_of_spec in Hb as (b & Hb & Hkb & Hbin). exists b, binding. split; [done|]. split; [done|].
    specialize (Hall b Hb). unfold confirmed in Hall.
    rewrite Hkb, !(bool_decide_false (_ = _)) in Hall by done. naive_solver.
Qed.

(** ** Two limits of the pins *)

Module EvidenceDemo.
(** The declaration that registers what [bound] stands for under [tag]. *)
Definition registering (bound : expr) : ast_file :=
  mkFile [FuncDecl None "init" (Some [OtherStmt [CallExpr (SelectorExpr (Ident "Validate") "RegisterValidation")
                                                   [BasicLit true (quoted "tag"); bound]] []]) 1] [].
Definition literal (answer : string) : expr := OtherExpr "*ast.FuncLit" [] [ReturnStmt [Ident answer]].
Definition evidence (bound : expr) : treeEvidence :=
  collectTreeEvidence (λ _, None) (λ _ _, "1") [("v.go", registering bound)].

(** A function literal is recorded by the name of its syntax node, not by its
    source: a registration of another literal is not noticed. *)
Lemma literal_binding_unpinned :
  te_bindings (evidence (literal "true")) !! "tag" = Some ["*ast.FuncLit at v.go"] ∧
  te_bindings (evidence (literal "false")) !! "tag" = Some ["*ast.FuncLit at v.go"].
Proof. split; vm_compute; reflexivity. Qed.

(** A binding written in the form the failure message asks for, with a line, does
    not reach the body of its function; without the line it does. *)
Lemma binding_with_line_refused :
  let items binding :=
    [mkEvidence evidenceGoValidate "" ["tag"] ""; mkEvidence evidenceValidatorBinding "tag" [binding] "";
     mkEvidence evidenceValidatorBody "v.go:isValid" [] "func isValid() {}"] in
  length (validateEvidence "row" UNEXPLAINED "" (items "isValid at v.go:12")) = 2 ∧
  validateEvidence "row" UNEXPLAINED "" (items "isValid at v.go") = [].
Proof. split; vm_compute; reflexivity. Qed.
End EvidenceDemo.
