(* ===== verification/ScRegistry.v ===== *)
(** * The schema check: the registry of judgements

    src/internal/schemacheck/classifications.go: the judgements written by hand
    are checked and merged onto the rows of a report.  A row is a field of the
    report with its key and its judgement, which Go writes into the field.
    Decoding the YAML file is not modelled. *)

From Stdlib Require Import Ascii.
From S2P Require Import Prelude Ocpp CgIR CgMapping CgPlacement CgSchema CgOverrides CgEmit ScTypes ScClassify ScTree ScCompare ScEvidence.
Local Open Scope string_scope.
Local Open Scope list_scope.

(** ** Data *)

Definition SPEC_FIDELITY : string := "SPEC_FIDELITY".
Definition DELIBERATE : string := "DELIBERATE".
Definition UPSTREAM_INHERITED : string := "UPSTREAM_INHERITED".
Definition NOT_A_DIVERGENCE : string := "NOT_A_DIVERGENCE".
Definition BLOCKING_INTEROP : string := "BLOCKING_INTEROP".
Definition CORRECTNESS : string := "CORRECTNESS".
Definition COSMETIC : string := "COSMETIC".
Definition NONE : string := "NONE".

Definition classificationValues : list string := [SPEC_FIDELITY; DELIBERATE; UPSTREAM_INHERITED; NOT_A_DIVERGENCE].
Definition severityValues : list string := [BLOCKING_INTEROP; CORRECTNESS; COSMETIC; NONE].
Definition comparisonClasses : list string :=
  [IDENTICAL; SCHEMA_FAITHFUL_CHANGE; FORK_BUG; ADDITIVE; OVERRIDE_CANDIDATE; STRUCT_VALIDATOR; UNEXPLAINED].
Definition messageSides : list string := ["request"; "response"].

Record coveredRow := mkCovered { cr_Row : string; cr_Rule : string; cr_Evidence : list evidenceItem }.
Record classDefault := mkDefault { df_Classification : string; df_Severity : string; df_Note : string; df_Covers : list coveredRow }.
Record fieldClassification := mkEntry {
  fc_Message : string;
  fc_Side : string;
  fc_Path : string;
  fc_Class : string;
  fc_Rule : string;
  fc_Evidence : list evidenceItem;
  fc_Classification : string;
  fc_Severity : string;
  fc_Note : string
}.
(** The classes as the list of a map's entries, sorted by class. *)
Record classificationRegistry := mkClassRegistry {
  cg_Version : string;
  cg_Classes : list (string * classDefault);
  cg_RequireExplicit : list string;
  cg_Fields : list fieldClassification
}.

(** Message, side and path. *)
Abbreviation rowKey := (string * string * string)%type.
Definition entry_key (f : fieldClassification) : rowKey := (fc_Message f, fc_Side f, fc_Path f).
Definition key_string (k : rowKey) : string :=
  let '(message, side, path) := k in
  if bool_decide (path = "") then message +:+ "." +:+ side else message +:+ "." +:+ side +:+ "." +:+ path.

(** [strings.SplitN(text, ".", 3)] *)
Definition parseRowKey (text : string) : result rowKey :=
  match Cut text "."%char with
  | None => fail (quoted text +:+ " is not a row key (expected Message.side or Message.side.path)")
  | Some (message, rest) =>
      let '(side, path) := match Cut rest "."%char with Some p => p | None => (rest, "") end in
      if bool_decide (message = "") then fail (quoted text +:+ " names no message")
      else if negb (containsString messageSides side) then
        fail (quoted text +:+ " names side " +:+ quoted side +:+ ", which is neither " +:+ Join messageSides " nor ")
      else mret (message, side, path)
  end.

(** ** Checks of the registry *)

Definition validateJudgement (subject classification severity : string) : list string :=
  complain (negb (containsString classificationValues classification))
    (subject +:+ " carries classification " +:+ quoted classification +:+ ", which is not one of "
     +:+ Join classificationValues ", ") ++
  complain (negb (containsString severityValues severity))
    (subject +:+ " carries severity " +:+ quoted severity +:+ ", which is not one of " +:+ Join severityValues ", ") ++
  complain (negb (Bool.eqb (bool_decide (classification = NOT_A_DIVERGENCE)) (bool_decide (severity = NONE))))
    (subject +:+ " pairs classification " +:+ quoted classification +:+ " with severity " +:+ quoted severity +:+ "; "
     +:+ NOT_A_DIVERGENCE +:+ " and " +:+ NONE +:+ " are only ever used together").

Section registry.
(** The facts of the tree that evidence is checked against. *)
Context (tree : treeEvidence).

(** The loop over the covered rows of a class: the row before, the keys seen here,
    the keys claimed by classes before. *)
Fixpoint validate_covers (class : string) (explicit : list rowKey) (previous : option string) (seen : list rowKey)
    (claimedBy : gmap rowKey string) (covers : list coveredRow) : list string * gmap rowKey string :=
  match covers with
  | [] => ([], claimedBy)
  | entry :: l =>
      match parseRowKey (cr_Row entry) with
      | inr e =>
          let '(rest, claimedBy) := validate_covers class explicit (Some (cr_Row entry)) seen claimedBy l in
          (("the " +:+ class +:+ " default's covers list: " +:+ error_text e) :: rest, claimedBy)
      | inl key =>
          let sorted := match previous with Some p => negb (Strings.String.leb (cr_Row entry) p) | None => true end in
          let unsorted := complain (negb sorted)
            ("the " +:+ class +:+ " default's covers list is not in sorted order at " +:+ quoted (cr_Row entry)
             +:+ ", so it cannot be regenerated or diffed reliably") in
          if bool_decide (key ∈ seen) then
            let '(rest, claimedBy) := validate_covers class explicit (Some (cr_Row entry)) seen claimedBy l in
            (unsorted ++ (key_string key +:+ " is listed twice under the " +:+ class +:+ " default") :: rest, claimedBy)
          else
            match claimedBy !! key with
            | Some other =>
                let '(rest, claimedBy) := validate_covers class explicit (Some (cr_Row entry)) (key :: seen) claimedBy l in
                (unsorted ++ (key_string key +:+ " is listed under both the " +:+ other +:+ " and " +:+ class
                              +:+ " defaults, so which judgement it takes is undecided") :: rest, claimedBy)
            | None =>
                let '(rest, claimedBy) :=
                  validate_covers class explicit (Some (cr_Row entry)) (key :: seen) (<[key := class]> claimedBy) l in
                (unsorted ++ validateEvidence (key_string key) class (cr_Rule entry) (cr_Evidence entry) ++
                 complain (bool_decide (key ∈ explicit))
                   (key_string key +:+ " has a per-row judgement and is also listed under the " +:+ class
                    +:+ " default; the per-row one would win and the coverage entry would be a claim nothing checks")
                 ++ rest, claimedBy)
            end
      end
  end.

Fixpoint validate_classes (requireExplicit : list string) (explicit : list rowKey) (claimedBy : gmap rowKey string)
    (classes : list (string * classDefault)) : list string :=
  match classes with
  | [] => []
  | (class, fallback) :: l =>
      let '(covers, claimedBy) := validate_covers class explicit None [] claimedBy (df_Covers fallback) in
      complain (negb (containsString comparisonClasses class))
        ("classes names " +:+ quoted class +:+ ", which is not a comparison class") ++
      complain (bool_decide (class ∈ requireExplicit))
        (class +:+ " carries a class-wide default and is also listed in requireExplicit; the two say opposite things about the same class") ++
      validateJudgement ("the " +:+ class +:+ " default") (df_Classification fallback) (df_Severity fallback) ++
      complain (bool_decide (df_Covers fallback = []))
        ("the " +:+ class +:+ " default lists no covers, so it states no set of rows it was reviewed against and would apply to whatever this run produced") ++
      covers ++ validate_classes requireExplicit explicit claimedBy l
  end.

Definition validate_field (entry : fieldClassification) : list string :=
  let subject := key_string (entry_key entry) in
  complain (bool_decide (fc_Message entry = "")) "a field entry names no message" ++
  complain (negb (containsString messageSides (fc_Side entry)))
    (subject +:+ " names side " +:+ quoted (fc_Side entry) +:+ ", which is neither " +:+ Join messageSides " nor ") ++
  complain (negb (containsString comparisonClasses (fc_Class entry)))
    (subject +:+ " records class " +:+ quoted (fc_Class entry) +:+ ", which is not a comparison class") ++
  validateEvidence subject (fc_Class entry) (fc_Rule entry) (fc_Evidence entry) ++
  validateJudgement subject (fc_Classification entry) (fc_Severity entry).

Definition validateRegistry (registry : classificationRegistry) : list string :=
  let requireExplicit := filter (λ c, containsString comparisonClasses c = true) (cg_RequireExplicit registry) in
  sort_strings
    (complain (bool_decide (cg_Version registry = ""))
       "registry names no version, so nothing states which corpus it was written against" ++
     flat_map (λ c, complain (negb (containsString comparisonClasses c))
                      ("requireExplicit names " +:+ quoted c +:+ ", which is not a comparison class"))
       (cg_RequireExplicit registry) ++
     validate_classes requireExplicit (entry_key <$> cg_Fields registry) ∅ (cg_Classes registry) ++
     flat_map validate_field (cg_Fields registry)).

Definition registryError (failures : list string) : error :=
  let separator := newline +:+ "  - " in
  Errorf ("classifications do not describe this run:" +:+ separator +:+ Join failures separator) None.

(** ** Merging *)

Record judgement := mkJudgement { jd_Classification : string; jd_Severity : string; jd_Note : string }.
Definition no_judgement : judgement := mkJudgement "" "" "".
Record row := mkRow { rw_key : rowKey; rw_field : Field; rw_judgement : judgement }.

(** The rows of a report, requests before responses. *)
Definition rows_of (messages : list Message) : list row :=
  flat_map (λ m,
    ((λ f, mkRow (me_FeatureName m, "request", fl_Path f) f no_judgement) <$> sd_Fields (me_Request m)) ++
    ((λ f, mkRow (me_FeatureName m, "response", fl_Path f) f no_judgement) <$> sd_Fields (me_Response m))) messages.

Definition clearClassifications (rows : list row) : list row := (λ r, mkRow (rw_key r) (rw_field r) no_judgement) <$> rows.

(** The first entry of a key, and the entries that come after one. *)
Fixpoint explicit_entries (seen : gmap rowKey fieldClassification) (entries : list fieldClassification)
    : gmap rowKey fieldClassification * list string :=
  match entries with
  | [] => (seen, [])
  | e :: l =>
      match seen !! entry_key e with
      | Some _ =>
          let '(m, fs) := explicit_entries seen l in
          (m, (key_string (entry_key e) +:+ " is listed more than once, so which judgement applies is undecided") :: fs)
      | None => explicit_entries (<[entry_key e := e]> seen) l
      end
  end.

(** The covered rows with their keys, class and default, in the order of the
    classes; entries whose key does not parse are left out. *)
Definition covers_of (registry : classificationRegistry) : list (rowKey * (string * classDefault * coveredRow)) :=
  flat_map (λ cd, omap (λ c, match parseRowKey (cr_Row c) with
                             | inl key => Some (key, (cd.1, cd.2, c))
                             | inr _ => None
                             end) (df_Covers cd.2)) (cg_Classes registry).
Definition coveredBy (registry : classificationRegistry) : gmap rowKey (string * classDefault * coveredRow) :=
  foldl (λ m kv, <[kv.1 := kv.2]> m) ∅ (covers_of registry).

(** What becomes of one row: its judgement, or the complaints. *)
Definition judge (registry : classificationRegistry) (explicit : gmap rowKey fieldClassification) (r : row)
    : judgement + list string :=
  let key := rw_key r in
  let class := fl_Class (rw_field r) in
  let rule := fl_Rule (rw_field r) in
  let checked (as_class about_defect judged : string) (judged_class judged_rule : string) (evidence : list evidenceItem)
        (j : judgement) :=
    if negb (bool_decide (judged_class = class)) then
      inr [key_string key +:+ as_class +:+ " but this run classifies it " +:+ class +:+ ", so " +:+ judged
           +:+ " was written about a different comparison"]
    else if negb (bool_decide (judged_rule = rule)) then
      inr [key_string key +:+ about_defect +:+ " the defect " +:+ quoted judged_rule +:+ " but this run reports "
           +:+ quoted rule +:+ ", so " +:+ judged +:+ " was written about a different defect"]
    else match verifyEvidence (key_string key) evidence (rw_field r) tree with
         | [] => inl j
         | stale => inr stale
         end in
  match explicit !! key with
  | Some e =>
      checked (" was judged as " +:+ fc_Class e) " was judged about" "the judgement" (fc_Class e) (fc_Rule e) (fc_Evidence e)
        (mkJudgement (fc_Classification e) (fc_Severity e) (fc_Note e))
  | None =>
      match coveredBy registry !! key with
      | Some (c, fallback, covered) =>
          checked (" is listed under the " +:+ c +:+ " default") (" is listed under the " +:+ c +:+ " default against")
            "the judgement it would take" c (cr_Rule covered) (cr_Evidence covered)
            (mkJudgement (df_Classification fallback) (df_Severity fallback) (df_Note fallback))
      | None =>
          if bool_decide (class ∈ cg_RequireExplicit registry) then
            inr [key_string key +:+ " is " +:+ class
                 +:+ ", a class the registry requires be judged row by row, and it has no entry"]
          else if bool_decide (class ∈ (cg_Classes registry).*1) then
            inr [key_string key +:+ " is " +:+ class +:+ " but the " +:+ class
                 +:+ " default does not list it, so it is a row that appeared since the registry was written and would inherit a judgement made about other rows"]
          else
            inr [key_string key +:+ " is " +:+ class
                 +:+ " and the registry judges it neither individually nor by class, so nothing states whether it is a finding"]
      end
  end.

Definition judge_row (registry : classificationRegistry) (explicit : gmap rowKey fieldClassification) (r : row) : row :=
  match judge registry explicit r with inl j => mkRow (rw_key r) (rw_field r) j | inr _ => r end.
Definition complaints (registry : classificationRegistry) (explicit : gmap rowKey fieldClassification) (r : row)
    : list string := match judge registry explicit r with inl _ => [] | inr fs => fs end.

(** The rows with their judgements, and the error. *)
Definition applyClassifications (version : string) (rows : list row) (registry : classificationRegistry)
    : list row * option error :=
  match validateRegistry registry with
  | (_ :: _) as failures => (rows, Some (registryError failures))
  | [] =>
      if negb (bool_decide (cg_Version registry = version)) then
        (rows, Some (registryError ["registry was written for " +:+ cg_Version registry +:+ " but this run compared "
                                    +:+ version +:+ ", so its entries describe a different corpus"]))
      else
        let '(explicit, duplicates) := explicit_entries ∅ (cg_Fields registry) in
        let keys := rw_key <$> rows in
        let unused := flat_map (λ e, complain (negb (bool_decide (entry_key e ∈ keys)))
          (key_string (entry_key e) +:+ " has a judgement but no such row exists in this run, so the registry is describing a tree that has since changed"))
          (cg_Fields registry) in
        let covered := filter (λ k, explicit !! k = None) keys in
        let uncovered := flat_map (λ kc, complain (negb (bool_decide (kc.1 ∈ covered)))
          (key_string kc.1 +:+ " is listed under the " +:+ kc.2.1.1
           +:+ " default but no such row exists in this run, so the registry is describing a tree that has since changed"))
          (covers_of registry) in
        let failures := duplicates ++ flat_map (complaints registry explicit) rows ++ unused ++ uncovered in
        let judged := judge_row registry explicit <$> rows in
        if bool_decide (failures = []) then (judged, None)
        else (clearClassifications judged, Some (registryError (sort_strings failures)))
  end.

(** ** What an accepted registry says *)

Definition judgement_ok (j : judgement) : Prop :=
  jd_Classification j ∈ classificationValues ∧ jd_Severity j ∈ severityValues ∧
  (jd_Classification j = NOT_A_DIVERGENCE ↔ jd_Severity j = NONE).

(** The judgement of a row comes from an entry of its own, or from the default of
    a class that lists the row, written about the class and the rule the row has
    and with its evidence confirmed. *)
Definition justified (registry : classificationRegistry) (r : row) : Prop :=
  (∃ e, e ∈ cg_Fields registry ∧ entry_key e = rw_key r ∧ fc_Class e = fl_Class (rw_field r) ∧
     fc_Rule e = fl_Rule (rw_field r) ∧ verifyEvidence (key_string (rw_key r)) (fc_Evidence e) (rw_field r) tree = [] ∧
     rw_judgement r = mkJudgement (fc_Classification e) (fc_Severity e) (fc_Note e)) ∨
  (∃ class fallback c, (class, fallback) ∈ cg_Classes registry ∧ c ∈ df_Covers fallback ∧
     parseRowKey (cr_Row c) = inl (rw_key r) ∧ class = fl_Class (rw_field r) ∧ cr_Rule c = fl_Rule (rw_field r) ∧
     verifyEvidence (key_string (rw_key r)) (cr_Evidence c) (rw_field r) tree = [] ∧
     rw_judgement r = mkJudgement (df_Classification fallback) (df_Severity fallback) (df_Note fallback)).

Lemma explicit_entries_spec entries : ∀ seen m fs,
  explicit_entries seen entries = (m, fs) →
  (∀ k e, m !! k = Some e → seen !! k = Some e ∨ (e ∈ entries ∧ entry_key e = k)) ∧
  (fs = [] → NoDup (entry_key <$> entries) ∧ ∀ e, e ∈ entries → m !! entry_key e = Some e) ∧
  (∀ k e, seen !! k = Some e → m !! k = Some e) ∧ (fs = [] → ∀ e, e ∈ entries → seen !! entry_key e = None).
Proof.
  induction entries as [|x l IH]; intros seen m fs Hx; cbn [explicit_entries] in Hx.
  { injection Hx as <- <-. split; [by left|]. split; [|split; [done|]]; intros _; [split; [constructor|]|];
      intros e He; by apply elem_of_nil in He. }
  destruct (seen !! entry_key x) as [y|] eqn:E.
  - destruct (explicit_entries seen l) as [m' fs'] eqn:El. injection Hx as <- <-. destruct (IH _ _ _ El) as (H1 & _ & H3 & _).
    split; [|split; [done|split; [done|done]]]. intros k e [?|[? ?]]%H1; [by left|right]. split; [by right|done].
  - destruct (IH _ _ _ Hx) as (H1 & H2 & H3 & H4). split; [|split; [|split]].
    + intros k e [Hs|[? ?]]%H1; [|right; split; [by right|done]].
      apply lookup_insert_Some in Hs as [[<- <-]|[_ ?]]; [right; split; [left|done]|by left].
    + intros Hf. destruct (H2 Hf) as [Hnd Hin]. split.
      * cbn. constructor; [|done]. intros (e & Hk & He)%list_elem_of_fmap.
        specialize (H4 Hf e He). rewrite <- Hk, lookup_insert_eq in H4. done.
      * intros e [->|He]%elem_of_cons; [|by apply Hin]. apply H3. by rewrite lookup_insert_eq.
    + intros k e Hk. apply H3. rewrite lookup_insert_ne; [done|]. intros <-. congruence.
    + intros Hf e [->|He]%elem_of_cons; [done|]. specialize (H4 Hf e He).
      destruct (decide (entry_key x = entry_key e)) as [Hk|Hk]; [rewrite <- Hk, lookup_insert_eq in H4; done|].
      by rewrite lookup_insert_ne in H4.
Qed.

Lemma foldl_insert_in {A} (l : list (rowKey * A)) : ∀ (m : gmap rowKey A) k v,
  foldl (λ m kv, <[kv.1 := kv.2]> m) m l !! k = Some v → (k, v) ∈ l ∨ m !! k = Some v.
Proof.
  induction l as [|[k0 v0] l IH]; intros m k v Hl; simpl in Hl; [by right|].
  apply IH in Hl as [?|Hl]; [left; by right|]. apply lookup_insert_Some in Hl as [[<- <-]|[_ ?]]; [left; left|by right].
Qed.

Lemma covers_of_elem registry key class fallback c :
  (key, (class, fallback, c)) ∈ covers_of registry ↔
  (class, fallback) ∈ cg_Classes registry ∧ c ∈ df_Covers fallback ∧ parseRowKey (cr_Row c) = inl key.
Proof.
  unfold covers_of. rewrite list_elem_of_In, in_flat_map. split.
  - intros ([cl fb] & Hin & Hc). apply list_elem_of_In, list_elem_of_omap in Hc as (c' & Hc' & Hk). simpl in *.
    destruct (parseRowKey (cr_Row c')) eqn:E; simplify_eq. split; [by apply list_elem_of_In|done].
  - intros (Hin & Hc & Hk). exists (class, fallback). split; [by apply list_elem_of_In|].
    apply list_elem_of_In, list_elem_of_omap. exists c. by rewrite Hk.
Qed.

Lemma judge_justified registry explicit fs r j :
  explicit_entries ∅ (cg_Fields registry) = (explicit, fs) → judge registry explicit r = inl j →
  justified registry (mkRow (rw_key r) (rw_field r) j).
Proof.
  intros He Hj. unfold judge in Hj. unfold justified. cbn [rw_key rw_field rw_judgement].
  destruct (explicit !! rw_key r) as [e|] eqn:E.
  - left. destruct (explicit_entries_spec _ _ _ _ He) as (H1 & _).
    destruct (H1 _ _ E) as [H|[Hin Hk]]; [by rewrite lookup_empty in H|]. exists e.
    repeat case_bool_decide; simpl in Hj; try done. destruct (verifyEvidence _ _ _ _) eqn:Ev; [|done].
    injection Hj as <-. done.
  - destruct (coveredBy registry !! rw_key r) as [[[c fb] cov]|] eqn:Ec; [|by repeat case_match].
    right. exists c, fb, cov. unfold coveredBy in Ec. apply foldl_insert_in in Ec as [Ec|Ec]; [|by rewrite lookup_empty in Ec].
    apply covers_of_elem in Ec as (? & ? & ?).
    repeat case_bool_decide; simpl in Hj; try done. destruct (verifyEvidence _ _ _ _) eqn:Ev; [|done].
    injection Hj as <-. done.
Qed.

(** ** An accepted run *)

Lemma sort_strings_nil l : sort_strings l = [] ↔ l = [].
Proof.
  unfold sort_strings. split; [|by intros ->]. intros E. apply Permutation_nil_r. rewrite <- E. by rewrite sort_by_perm.
Qed.
Lemma validateJudgement_ok subject classification severity note :
  validateJudgement subject classification severity = [] →
  judgement_ok (mkJudgement classification severity note).
Proof.
  unfold validateJudgement, judgement_ok. rewrite !app_nil, !complain_nil, !negb_false_iff, eqb_true_iff.
  intros (Hc & Hs & He). split_and!; [by apply containsString_spec|by apply containsString_spec|].
  cbn. rewrite <- (bool_decide_eq_true (classification = _)), He. apply bool_decide_eq_true.
Qed.

Lemma validate_classes_ok required explicit classes : ∀ claimed,
  validate_classes required explicit claimed classes = [] →
  ∀ class fallback, (class, fallback) ∈ classes →
  judgement_ok (mkJudgement (df_Classification fallback) (df_Severity fallback) (df_Note fallback)).
Proof.
  induction classes as [|[c fb] l IH]; intros claimed Hv class fallback Hin; [by apply elem_of_nil in Hin|].
  cbn [validate_classes] in Hv. destruct (validate_covers _ _ _ _ _ _) as [covers claimed'].
  rewrite !app_nil in Hv. destruct Hv as (_ & _ & Hj & _ & _ & Hl).
  apply elem_of_cons in Hin as [[= -> ->]|Hin]; [by eapply validateJudgement_ok|by eapply IH].
Qed.

Lemma valid_judgements registry r :
  validateRegistry registry = [] → justified registry r → judgement_ok (rw_judgement r).
Proof.
  unfold validateRegistry. rewrite sort_strings_nil, !app_nil. intros (_ & _ & Hc & Hf).
  intros [(e & He & _ & _ & _ & _ & ->)|(class & fb & c & Hin & _ & _ & _ & _ & _ & ->)]; [|by eapply validate_classes_ok].
  pose proof (proj1 (flat_map_nil _ _) Hf _ He) as Hv. unfold validate_field in Hv. rewrite !app_nil in Hv.
  destruct Hv as (_ & _ & _ & _ & Hv). by eapply validateJudgement_ok.
Qed.

Lemma judged_justified registry explicit fs rows :
  validateRegistry registry = [] → explicit_entries ∅ (cg_Fields registry) = (explicit, fs) →
  flat_map (complaints registry explicit) rows = [] →
  Forall (λ r, justified registry r ∧ judgement_ok (rw_judgement r)) (judge_row registry explicit <$> rows).
Proof.
  intros Hv He Hf. apply Forall_forall. intros r' (r & -> & Hr)%list_elem_of_fmap.
  pose proof (proj1 (flat_map_nil _ _) Hf _ Hr) as Hn. unfold complaints in Hn. unfold judge_row.
  destruct (judge registry explicit r) as [j|ms] eqn:E.
  - assert (justified registry (mkRow (rw_key r) (rw_field r) j)) by by eapply judge_justified.
    split; [done|by eapply valid_judgements].
  - subst ms. unfold judge in E. repeat case_match; simplify_eq.
Qed.

(** What a run of [applyClassifications] leaves.  The rows and their fields are
    never changed.  Without an error every row has a judgement, which comes from
    an entry about the class and rule the row has in this run and is well formed,
    no two entries are about one row, and every entry and every covered row of the
    registry is a row of the run.  With an error no row has gained a judgement. *)
Theorem registry_applied version rows registry :
  let '(rows', e) := applyClassifications version rows registry in
  rw_key <$> rows' = rw_key <$> rows ∧ rw_field <$> rows' = rw_field <$> rows ∧
  match e with
  | None =>
      Forall (λ r, justified registry r ∧ judgement_ok (rw_judgement r)) rows' ∧ NoDup (entry_key <$> cg_Fields registry) ∧
      (∀ e, e ∈ cg_Fields registry → entry_key e ∈ rw_key <$> rows) ∧
      (∀ k c, (k, c) ∈ covers_of registry → k ∈ rw_key <$> rows ∧ k ∉ entry_key <$> cg_Fields registry)
  | Some _ => rows' = rows ∨ rows' = clearClassifications rows
  end.
Proof.
  unfold applyClassifications. destruct (validateRegistry registry) as [|? ?] eqn:Hv; [|by auto].
  case_bool_decide; simpl; [|by auto].
  destruct (explicit_entries ∅ (cg_Fields registry)) as [explicit fs] eqn:He.
  assert (rw_key <$> (judge_row registry explicit <$> rows) = rw_key <$> rows ∧
          rw_field <$> (judge_row registry explicit <$> rows) = rw_field <$> rows) as [Hk Hf].
  { rewrite <- !list_fmap_compose. split; apply list_fmap_ext; intros ? r _; simpl; unfold judge_row; by case_match. }
  case_bool_decide as Hn; [|split_and!].
  - rewrite !app_nil in Hn. destruct Hn as (-> & Hc & Hu & Hcov). destruct (explicit_entries_spec _ _ _ _ He) as (H1 & H2 & _).
    destruct (H2 eq_refl) as [Hnd Hin]. split_and!; [done|done|by eapply judged_justified|done| |].
    + intros e Hin'. pose proof (proj1 (flat_map_nil _ _) Hu _ Hin') as Hx.
      by apply complain_nil, negb_false_iff, bool_decide_eq_true in Hx.
    + intros k c Hkc. pose proof (proj1 (flat_map_nil _ _) Hcov _ Hkc) as Hx.
      apply complain_nil, negb_false_iff, bool_decide_eq_true, list_elem_of_filter in Hx as [Hx ?]. split; [done|].
      intros (e & -> & He')%list_elem_of_fmap. simpl in Hx. by rewrite (Hin e He') in Hx.
  - unfold clearClassifications. rewrite <- list_fmap_compose. exact Hk.
  - unfold clearClassifications. rewrite <- list_fmap_compose. exact Hf.
  - right. unfold clearClassifications. rewrite <- list_fmap_compose. apply list_fmap_ext. intros ? r _. simpl.
    unfold judge_row. by case_match.
Qed.
End registry.
