(* ===== verification/ScRun.v ===== *)
(** * The schema check: a run

    [runSelfChecks] of src/internal/schemacheck/selfcheck.go, [runComparison] of
    orchestrate.go and the part of [run] of main.go between the flags and the
    rendering.  The files are inputs: the parsed Go files with their import paths
    and package labels, the decoded schema documents, the digests of their
    directories.  Reading them, the flags and the writing of the two documents are
    not modelled. *)

From Stdlib Require Import Ascii.
From stdpp Require Import pretty.
From S2P Require Import Prelude Ocpp Message Endpoint CgIR CgMapping CgPlacement CgSchema CgOverrides CgEmit ScTypes ScGoWalk ScClassify ScSchemaWalk ScTree ScCompare ScEvidence ScRegistry.
Local Open Scope string_scope.
Local Open Scope list_scope.

(** ** The self-checks *)

(** The float64 nearest to n/d, for 0 ≤ n and 0 < d, as a fraction: 53 bits, to
    even on a tie. *)
Definition nearest (n d : Z) : Z * Z :=
  if bool_decide (n = 0)%Z then (0, 1)%Z
  else
    let e := (Z.log2 n - Z.log2 d)%Z in
    let scaled m := if bool_decide (0 ≤ m)%Z then (n * 2 ^ m, d)%Z else (n, d * 2 ^ (- m))%Z in
    let m := let '(a, b) := scaled (52 - e)%Z in if bool_decide (a < b * 2 ^ 52)%Z then (53 - e)%Z else (52 - e)%Z in
    let '(a, b) := scaled m in
    let r := round_half_even a b in
    if bool_decide (0 ≤ m)%Z then (r, 2 ^ m)%Z else (r * 2 ^ (- m), 1)%Z.
(** [int(math.Round(float64(n) / float64(d) * 100))] *)
Definition rounded_percent (n d : Z) : Z :=
  let '(a, b) := nearest n d in
  let '(a, b) := nearest (a * 100)%Z b in
  ((2 * a + b) / (2 * b))%Z.

Record compositionBreakdown := mkComposition {
  cb_object : Z;
  cb_plainString : Z;
  cb_stringEnum : Z;
  cb_integer : Z;
  cb_number : Z;
  cb_boolean : Z;
  cb_untyped : Z;
  cb_array : Z;
  cb_total : Z
}.
Record selfCheckResult := mkSelfChecks {
  sc_checks : list SelfCheck;
  sc_structuralConflicts : list string;
  sc_untypedPaths : list string;
  sc_composition : compositionBreakdown
}.

(** The samples of the optional properties. *)
Definition optional_samples (d : deduped) : list SchemaProperty :=
  filter (λ p, sp_Required p = false) (dp_sample <$> (map_to_list d).*2).
Definition count_of (f : SchemaProperty → bool) (l : list SchemaProperty) : Z := Z.of_nat (length (filter (λ p, f p = true) l)).
Definition of_type (t : string) (p : SchemaProperty) : bool := bool_decide (sp_Type p = t).

(** A literal minimum by file and pointer. *)
Definition minimum_occurrences (docs : list SchemaDocument) : gmap (string * string) float64 :=
  foldl (λ m dp, match c_Minimum (sp_Constraints dp.2) with Some v => <[(dp.1, sp_Pointer dp.2) := v]> m | None => m end) ∅
    (flat_map (λ d, (λ p, (sd_File d, p)) <$> sd_Properties d) docs).

(** The untyped properties: the keys seen, and the paths of the first ones. *)
Fixpoint untyped_paths (seen : gset (string * string)) (l : list (string * SchemaProperty)) : list string :=
  match l with
  | [] => []
  | (file, p) :: l' =>
      if bool_decide (sp_Type p = "") && negb (bool_decide ((file, sp_Pointer p) ∈ seen)) then
        (Base file +:+ "#" +:+ sp_Path p) :: untyped_paths ({[(file, sp_Pointer p)]} ∪ seen) l'
      else untyped_paths seen l'
  end.

Definition structural_conflicts (d : deduped) : list string :=
  sort_strings (omap (λ kd, if bool_decide (dp_conflicts kd.2 = []) then None
                            else Some (kd.1.1 +:+ "/" +:+ kd.1.2 +:+ ": conflicting shapes across " +:+ printed (dp_conflicts kd.2)))
                  (map_to_list d)).

Definition self_check (id claim : string) (expected actual : Z) : SelfCheck :=
  mkSelfCheck id claim expected actual (status expected actual).

(** [raw] is the document read again from its file, if that succeeds. *)
Definition runSelfChecks (raw : string → option Json) (docs : list SchemaDocument) : selfCheckResult :=
  let d := dedupCorpus docs in
  let optional := optional_samples d in
  let m1 := Z.of_nat (length optional) in
  let count t := count_of (of_type t) optional in
  let object := count "object" in
  let stringEnum := count_of (λ p, of_type "string" p && negb (bool_decide (sp_Enum p = []))) optional in
  let plainString := count_of (λ p, of_type "string" p && bool_decide (sp_Enum p = [])) optional in
  let dateTime := count_of (λ p, of_type "string" p && bool_decide (sp_Format p = Some "date-time")) optional in
  let customData := count_of (λ p, of_type "object" p && bool_decide (sp_Name p = "customData")) optional in
  let total := (object + plainString + stringEnum + count "integer" + count "number" + count "boolean" + count "" + count "array")%Z in
  let m3 := if bool_decide (0 < object)%Z then rounded_percent customData object else 0%Z in
  let m4 := (plainString + stringEnum - dateTime)%Z in
  let minimums := minimum_occurrences docs in
  let m5Count := Z.of_nat (size minimums) in
  let m5AllZero := forallb (λ v, negb (flt (of_int 0) v)) (map_to_list minimums).*2 in
  let untyped := untyped_paths ∅ (flat_map (λ doc, (λ p, (sd_File doc, p)) <$> sd_Properties doc) docs) in
  let m6 := Z.of_nat (length untyped) in
  let unions := sum_list ((λ doc, match raw (sd_File doc) with Some j => countUnionKeywords j | None => 0%nat end) <$> docs) in
  let exclusive := sum_list ((λ doc, length (filter (λ p,
      c_ExclusiveMinimum (sp_Constraints p) ≠ None ∨ c_ExclusiveMaximum (sp_Constraints p) ≠ None) (sd_Properties doc))) <$> docs) in
  let conflicts := structural_conflicts d in
  let m7 := Z.of_nat (unions + exclusive + length conflicts) in
  mkSelfChecks
    [self_check "M1" "deduped optional properties in the corpus" 408 m1;
     self_check "M2" "deduped optional object properties (the largest slice of M1's composition)" 252 object;
     self_check "M3" "percent of deduped optional object properties that are customData" 72 m3;
     self_check "M4" "deduped string/enum fields narrowed from pointer to value+omitempty" 58 m4;
     mkSelfCheck "M5" "literal minimum occurrences in the corpus, none greater than zero" 8
       (minimumCheckActual m5Count m5AllZero) (minimumStatus m5Count m5AllZero);
     self_check "M6" "properties untyped by design" 2 m6;
     self_check "M7" "corpus-uniformity violations (union keywords, exclusive bounds, structural conflicts)" 0 m7]
    conflicts (sort_strings untyped)
    (mkComposition object plainString stringEnum (count "integer") (count "number") (count "boolean") (count "")
       (count "array") total).

(** ** The comparison *)

Record SchemaCorpusDir := mkCorpusDir { cd_Dir : string; cd_Files : nat; cd_SHA256 : string }.
Record Report := mkReport {
  rp_Version : string;
  rp_GoTree : string;
  rp_SchemaDir : string;
  rp_Invocation : string;
  rp_SchemaCorpus : list SchemaCorpusDir;
  rp_Classifications : string;
  rp_Coverage : Coverage;
  rp_Summary : Summary;
  rp_SelfCheck : list SelfCheck;
  rp_Messages : list Message;
  rp_SharedTypes : list SharedType
}.

(** What a run reads. *)
Record inputs := mkInputs {
  in_tree : string;
  in_rawSchemaFlag : string;
  in_modulePath : string;
  in_treeImport : string;
  in_goFiles : list source_file;
  in_labels : string → string * string;
  in_schemas : list (string * object);
  in_corpus : list SchemaCorpusDir
}.
Definition parsed_files (i : inputs) : list (string * ast_file) := (λ f, (sf_path f, sf_ast f)) <$> in_goFiles i.
Definition raw_document (i : inputs) (file : string) : option Json := JObj <$> assoc file (in_schemas i).
Definition invocationOf (i : inputs) : string :=
  "go run ./internal/schemacheck -tree " +:+ in_tree i +:+ " -schemas " +:+ in_rawSchemaFlag i +:+ " -out ./schemacheck-out".

(** The walk of every schema file; [None] if one does not end within the depth. *)
Fixpoint walk_schemas (depth : nat) (files : list (string * object)) : option (result (list (string * SchemaDocument))) :=
  match files with
  | [] => Some (mret [])
  | (path, document) :: l =>
      match walkSchema depth path document with
      | None => None
      | Some (inr e) => Some (inr (Errorf ("read schema " +:+ path) (Some e)))
      | Some (inl doc) =>
          match walk_schemas depth l with
          | Some (inl docs) => Some (inl ((path, doc) :: docs))
          | r => r
          end
      end
  end.

Section run.
Context (ParseFloat : string → option float64) (FormatFloat : float64 → string) (Unquote : string → option string).

(** What the tree says: the index and the features with their directions. *)
Definition read_tree (i : inputs) : result (treeIndex * list featureInfo) :=
  idx ← buildTreeIndex Unquote (in_goFiles i) (in_modulePath i);
  features ← discoverAllFeatures Unquote (in_labels i) (parsed_files i);
  match crossCheckFeaturesAndProfiles features (discoverProfileRegistrations Unquote (parsed_files i)) (idx_resolver idx) with
  | Some e => inr e
  | None =>
      directions ← discoverDirections (parsed_files i) (idx_resolver idx);
      features ← directed (idx_resolver idx) directions features;
      mret (idx, features)
  end.

Definition build_report (i : inputs) (idx : treeIndex) (features : list featureInfo) (files : list (string * SchemaDocument))
    : result (Report * selfCheckResult) :=
  let allDocs := (loadSchemas files).*2 in
  let selfCheck := runSelfChecks (raw_document i) allDocs in
  '(messages, coverage, summary, used) ← compare_corpus ParseFloat FormatFloat Unquote idx features files;
  let sharedTypes := buildSharedTypes (definitionReachCounts allDocs) (structural_conflicts (dedupCorpus allDocs))
                       (in_treeImport i +:+ "/types") idx used in
  mret (mkReport (deriveVersionLabel (in_tree i)) (in_tree i) (in_rawSchemaFlag i) (invocationOf i) (in_corpus i) "" coverage
          summary (sc_checks selfCheck) messages sharedTypes, selfCheck).

Definition runComparison (depth : nat) (i : inputs) : option (result (Report * selfCheckResult)) :=
  match read_tree i with
  | inr e => Some (inr e)
  | inl (idx, features) =>
      match walk_schemas depth (in_schemas i) with
      | None => None
      | Some (inr e) => Some (inr e)
      | Some (inl files) => Some (build_report i idx features files)
      end
  end.

(** ** Publication *)

Context (format : decl → option string) (line_of : string → nat → string).

Definition schemacheck_error (e : error) : error := Errorf "schemacheck" (Some e).
Definition with_classifications (name : string) (r : Report) : Report :=
  mkReport (rp_Version r) (rp_GoTree r) (rp_SchemaDir r) (rp_Invocation r) (rp_SchemaCorpus r) name (rp_Coverage r)
    (rp_Summary r) (rp_SelfCheck r) (rp_Messages r) (rp_SharedTypes r).

(** The report that is rendered, with the rows and their judgements; an error if
    nothing is to be written.  The registry comes with the name of its file. *)
Definition run (depth : nat) (i : inputs) (classifications : option (string * classificationRegistry))
    : option (result (Report * list row)) :=
  match runComparison depth i with
  | None => None
  | Some (inr e) => Some (inr (schemacheck_error e))
  | Some (inl (report, _)) =>
      match publicationFailures (rp_Version report) (rp_Coverage report) (rp_SelfCheck report) with
      | (_ :: _) as failures =>
          Some (fail ("schemacheck: refusing to write a report for " +:+ rp_Version report +:+ ":" +:+ newline +:+ "  - "
                      +:+ Join failures (newline +:+ "  - ")))
      | [] =>
          match classifications with
          | None => Some (mret (report, rows_of (rp_Messages report)))
          | Some (name, registry) =>
              match applyClassifications (collectTreeEvidence format line_of (parsed_files i)) (rp_Version report)
                      (rows_of (rp_Messages report)) registry with
              | (_, Some e) => Some (inr (schemacheck_error e))
              | (rows, None) => Some (mret (with_classifications name report, rows))
              end
          end
      end
  end.
End run.
