(* ===== verification/ScRunTheorems.v ===== *)
(** * The schema check: what a published report says *)

From Stdlib Require Import Ascii.
From S2P Require Import Prelude Ocpp Message Endpoint CgIR CgMapping CgPlacement CgSchema CgOverrides CgEmit ScTypes ScGoWalk ScClassify ScSchemaWalk ScTree ScCompare ScCompareTheorems ScEvidence ScRegistry ScRun.
Local Open Scope string_scope.
Local Open Scope list_scope.

(** ** Every row has a class that is counted *)

Section classes.
Context (ParseFloat : string → option float64) (FormatFloat : float64 → string) (Unquote : string → option string).

Definition known (r : ClassificationResult) : Prop := r_Class r ∈ classes.
Ltac known := unfold known, classes; simpl; set_solver.

Lemma change_known input expected before after rule r : faithful_change input expected before after rule = inl r → known r.
Proof. unfold faithful_change. intros (b & _ & [= <-])%bind_inl. known. Qed.
Lemma shape_known input t r : compareOptionalityShape input t = inl (Some r) → known r.
Proof.
  assert (H : ∀ expected rule, schemaFaithfulShape input expected rule = inl (Some r) → known r).
  { intros expected rule. unfold schemaFaithfulShape. intros (c & Hc & [= <-])%bind_inl. by eapply change_known. }
  unfold compareOptionalityShape. repeat case_match; intros E; first [exact (H _ _ E)|discriminate E].
Qed.
Lemma compare_shape_known input r : compare_shape input = inl r → known r.
Proof.
  unfold compare_shape, compare_date_time, compare_string, compare_untyped. intros E.
  repeat case_match; try (exact (change_known _ _ _ _ _ _ E)); try (injection E as <-; known).
  all: apply bind_inl in E as ([x|] & Hx & E); injection E as <-; [exact (shape_known _ _ _ Hx)|known].
Qed.
Lemma direction_known input tokens upper r : compare_direction FormatFloat input tokens upper = Some r → known r.
Proof.
  unfold compare_direction, stricterResult, looserResult. destruct (schemaBoundForKind input upper) as [name [v|]];
    destruct (effectiveGoBound tokens upper); try case_match; intros; simplify_eq; known.
Qed.
Lemma head_elem {A} (l : list A) x : head l = Some x → x ∈ l.
Proof. destruct l; [done|]. intros [= <-]. left. Qed.
Lemma both_known input r : compare_both ParseFloat FormatFloat input = inl r → known r.
Proof.
  unfold compare_both. case_match; [intros [= <-]; known|].
  destruct (head (omap _ _)) as [r'|] eqn:E; [|apply compare_shape_known]. intros [= ->].
  apply head_elem, list_elem_of_omap in E as (x & Hx & E).
  assert (Hf : Forall (λ x, ∀ r, x = Some r → known r)
    [wrong_type input; compareEnumValueSets input; compareRequiredness input; compareNullEmission input;
     compareConstraints ParseFloat FormatFloat input; compareSemanticConstraints input]).
  { rewrite !Forall_cons, Forall_nil. split_and!; [..|done]; intros r'.
    - unfold wrong_type. cbv zeta. case_match; intros; simplify_eq; known.
    - unfold compareEnumValueSets. cbv zeta. case_match; [done|]. case_match; intros; simplify_eq; known.
    - unfold compareRequiredness. cbv zeta. repeat case_match; intros; simplify_eq; known.
    - unfold compareNullEmission. cbv zeta. repeat case_match; intros; simplify_eq; known.
    - unfold compareConstraints. cbv zeta. case_match eqn:Ed; intros; simplify_eq; by eapply direction_known.
    - unfold compareSemanticConstraints. case_match; [done|]. cbv zeta. destruct (syntax_beyond _ _); intros; simplify_eq/=; known. }
  rewrite Forall_forall in Hf. exact (Hf x Hx r E).
Qed.
Lemma classified_known input r : classifyField ParseFloat FormatFloat input = inl r → known r.
Proof.
  unfold classifyField. repeat case_match; intros E; first [by apply both_known in E|discriminate E|injection E as <-; known].
Qed.

Definition row_known (f : Field) : Prop := fl_Class f ∈ classes.
Definition side_known (s : MessageSide) : Prop := Forall row_known (sd_Fields s).
Definition message_known (m : Message) : Prop := side_known (me_Request m) ∧ side_known (me_Response m).

Lemma mapM_Forall {A B} (f : A → CgSchema.result B) (P : B → Prop) l : ∀ ys,
  (∀ x y, f x = inl y → P y) → mapM_result f l = inl ys → Forall P ys.
Proof.
  induction l as [|x l IH]; intros ys HP; cbn [mapM_result]; [intros [= <-]; constructor|].
  intros (y & Hy & (ys' & Hys & [= <-])%bind_inl)%bind_inl. constructor; eauto.
Qed.

Lemma build_side_known idx used typeName file doc side used' :
  buildMessageSide ParseFloat FormatFloat Unquote idx used typeName file doc = inl (side, used') → side_known side.
Proof.
  unfold buildMessageSide. destruct (resolveTypeIdentity _ _ _) as [identity|]; [|done].
  intros (fields & _ & H)%bind_inl. apply bind_inl in H as ([expanded u] & _ & H).
  apply bind_inl in H as (root & Hroot & H). apply bind_inl in H as (rows & Hrows & [= <- <-]).
  unfold side_known. cbn [sd_Fields]. apply Forall_app. split.
  - destruct (root_row ParseFloat FormatFloat Unquote idx identity typeName doc) as (root' & Hr & _ & Hc).
    rewrite Hr in Hroot. injection Hroot as <-. destruct root' as [f|]; simpl; [|constructor].
    constructor; [|constructor]. unfold row_known. destruct (Hc f eq_refl) as [_ ->]. known.
  - eapply mapM_Forall; [|done]. intros p f. unfold classify_row. cbv zeta.
    destruct (classifyField _ _ _) as [r|] eqn:E; [|done]. intros [= <-]. by apply classified_known in E.
Qed.

Lemma compare_features_known idx requests responses features : ∀ acc acc',
  compare_features ParseFloat FormatFloat Unquote idx requests responses acc features = inl acc' →
  Forall message_known (co_messages acc) → Forall message_known (co_messages acc').
Proof.
  induction features as [|f l IH]; intros acc acc'; cbn [compare_features]; [by intros [= <-]|].
  intros (acc1 & Hf & Hl)%bind_inl Hk. eapply IH; [done|]. unfold compare_feature in Hf.
  destruct (requests !! fi_featureName f) as [req|]; [destruct (responses !! fi_featureName f) as [resp|]|];
    [|by injection Hf as <-|by injection Hf as <-].
  destruct (buildMessageSide _ _ _ _ (co_usedStructs acc) _ _ _) as [[s1 u1]|] eqn:E1; [|done]. simpl in Hf.
  destruct (buildMessageSide _ _ _ _ u1 _ _ _) as [[s2 u2]|] eqn:E2; [|done]. simpl in Hf. injection Hf as <-.
  cbn [co_messages]. apply Forall_app. split; [done|]. constructor; [|constructor].
  split; by eapply build_side_known.
Qed.

Lemma report_rows_known messages : Forall message_known messages → Forall (λ p, fl_Class p.2 ∈ classes) (report_rows messages).
Proof.
  intros H. apply Forall_forall. intros [n f] Hin. unfold report_rows in Hin.
  apply list_elem_of_In, in_flat_map in Hin as (m & Hm & Hin). apply list_elem_of_In in Hm, Hin.
  apply list_elem_of_fmap in Hin as (f' & [= -> ->] & Hf). rewrite Forall_forall in H. destruct (H m Hm) as [H1 H2].
  unfold side_known in H1, H2. rewrite Forall_forall in H1, H2. apply elem_of_app in Hf as [Hf|Hf]; [by apply H1|by apply H2].
Qed.

(** The part of a run that compares: its messages have known classes and its
    summary is theirs. *)
Lemma compare_corpus_summary idx features files messages coverage summary used :
  compare_corpus ParseFloat FormatFloat Unquote idx features files = inl (messages, coverage, summary, used) →
  buildSummary messages = inl summary ∧ Forall message_known messages.
Proof.
  unfold compare_corpus. intros ([requests responses] & _ & H)%bind_inl. apply bind_inl in H as (c & Hc & H).
  apply bind_inl in H as (s & Hs & [= <- <- <- <-]). split; [done|].
  apply compare_features_known in Hc; [|constructor]. by rewrite sort_by_perm.
Qed.
End classes.

(** ** Features and registered profiles *)

Lemma cross_check_exact features regs resolver :
  crossCheckFeaturesAndProfiles features regs resolver = None →
  ∃ registered discovered,
    packaged resolver pr_file pr_featureTypes regs = inl registered ∧
    packaged resolver fi_file (λ f, [fi_typeName f]) features = inl discovered ∧
    ∀ p, p ∈ registered ↔ p ∈ discovered.
Proof.
  unfold crossCheckFeaturesAndProfiles.
  destruct (packaged resolver pr_file pr_featureTypes regs) as [registered|]; [|done]. cbn [mbind result_bind].
  destruct (packaged resolver fi_file _ features) as [discovered|]; [|done]. cbn [mbind result_bind mret result_ret].
  case_bool_decide as E; [|done]. intros _. exists registered, discovered. split; [done|]. split; [done|].
  apply app_nil in E as [E1%fmap_nil_inv E2%fmap_nil_inv].
  assert (H : ∀ (a b : list (string * string)) p, filter (λ p, p ∉ b) (remove_dups a) = [] → p ∈ a → p ∈ b).
  { intros a b p Hf Hp. destruct (decide (p ∈ b)) as [?|Hn]; [done|].
    assert (Hin : p ∈ filter (λ p, p ∉ b) (remove_dups a)) by (apply list_elem_of_filter; by rewrite elem_of_remove_dups).
    rewrite Hf in Hin. by apply elem_of_nil in Hin. }
  intros p. split; [by apply H|by apply H].
Qed.

Lemma directed_same resolver directions features : ∀ features',
  directed resolver directions features = inl features' →
  packaged resolver fi_file (λ f, [fi_typeName f]) features' = packaged resolver fi_file (λ f, [fi_typeName f]) features.
Proof.
  induction features as [|f l IH]; intros features'; cbn [directed]; [by intros [= <-]|].
  intros (pkg & Hp & (rest & Hr & [= <-])%bind_inl)%bind_inl. apply IH in Hr. cbn [packaged]. rewrite Hr.
  by destruct (directions !! _).
Qed.

(** ** Schema files *)

(** [baseName] and [filepath.Base] agree on a file whose last element has no
    backslash. *)
Lemma separator_slash l : "\"%char ∉ until_slash l → until_separator l = until_slash l.
Proof.
  induction l as [|c l IH]; simpl; [done|]. case_bool_decide; simpl; [done|].
  intros [Hc Hl]%not_elem_of_cons. rewrite bool_decide_false by done. simpl. by rewrite IH.
Qed.
Lemma separator_plain l : "\"%char ∉ until_separator l.
Proof.
  induction l as [|c l IH]; simpl; [apply not_elem_of_nil|]. do 2 case_bool_decide; simpl; try apply not_elem_of_nil.
  by apply not_elem_of_cons.
Qed.
Lemma drop_slashes_head l : match drop_slashes l with c :: _ => c ≠ "/"%char | [] => True end.
Proof. induction l as [|c l IH]; simpl; [done|]. destruct c as [[] [] [] [] [] [] [] []]; simpl; done. Qed.
Lemma drop_slashes_id c l : c ≠ "/"%char → drop_slashes (c :: l) = c :: l.
Proof. intros Hc. simpl. destruct c as [[] [] [] [] [] [] [] []]; simpl; done. Qed.

Lemma Base_nonempty path : Base path ≠ "".
Proof.
  unfold Base. case_bool_decide; [done|]. pose proof (drop_slashes_head (reverse (chars path))) as Hh.
  destruct (drop_slashes _) as [|c l] eqn:E; [done|]. intros Hn. apply (f_equal chars) in Hn.
  rewrite chars_of_chars in Hn. simpl in Hn. rewrite bool_decide_false in Hn by done.
  rewrite reverse_cons in Hn. by destruct (reverse (until_slash l)).
Qed.
Lemma baseName_Base path other : Base path = baseName other → baseName path ≠ "" → baseName path = Base path.
Proof.
  intros Ho Hne. unfold baseName, Base in *. case_bool_decide as E; [by subst|].
  destruct (reverse (chars path)) as [|c l] eqn:Er; [by simpl in Hne|].
  assert (Hc : c ≠ "/"%char) by (intros ->; simpl in Hne; done).
  rewrite drop_slashes_id in Ho |- * by done. rewrite separator_slash; [done|].
  apply (f_equal chars) in Ho. rewrite !chars_of_chars in Ho. apply (inj reverse) in Ho. rewrite Ho. apply separator_plain.
Qed.

(** The documents that are loaded: the last one of each base name. *)
Definition by_base (files : list (string * SchemaDocument)) : gmap string SchemaDocument :=
  foldl (λ docs f, <[Base f.1 := f.2]> docs) ∅ files.
Lemma by_base_snoc files f : by_base (files ++ [f]) = <[Base f.1 := f.2]> (by_base files).
Proof. unfold by_base. by rewrite foldl_app. Qed.
Lemma elem_of_loadSchemas files n doc : (n, doc) ∈ loadSchemas files ↔ by_base files !! n = Some doc.
Proof. unfold loadSchemas. rewrite sort_by_perm. apply elem_of_map_to_list. Qed.
Lemma by_base_file files n doc : by_base files !! n = Some doc → ∃ path, (path, doc) ∈ files ∧ Base path = n.
Proof.
  induction files as [|[p d] files IH] using rev_ind; [done|]. rewrite by_base_snoc. simpl. rewrite lookup_insert_Some.
  intros [[<- <-]|[_ (path & Hin & E)%IH]]; [exists p|exists path]; (split; [|done]); apply elem_of_app; [right; left|by left].
Qed.
Lemma by_base_last files k path doc :
  files !! k = Some (path, doc) →
  by_base files !! Base path = Some doc ∨
  ∃ j path' doc', (k < j)%nat ∧ files !! j = Some (path', doc') ∧ Base path' = Base path.
Proof.
  induction files as [|[p d] files IH] using rev_ind; [done|]. intros Hk. rewrite by_base_snoc. simpl.
  destruct (decide (k < length files)%nat) as [Hl|Hl].
  - rewrite lookup_app_l in Hk by done. destruct (decide (Base p = Base path)) as [E|E].
    + right. exists (length files), p, d. split; [done|]. split; [by rewrite lookup_app_r, Nat.sub_diag|done].
    + rewrite lookup_insert_ne by done. destruct (IH Hk) as [?|(j & p' & d' & Hj & Hf & E')]; [by left|].
      right. exists j, p', d'. split; [done|]. split; [by apply lookup_app_l_Some|done].
  - rewrite lookup_app_r in Hk by lia. apply list_lookup_singleton_Some in Hk as [_ [= -> ->]]. left. by rewrite lookup_insert_eq.
Qed.

(** The index holds loaded documents. *)
Lemma index_schemas_from byName : ∀ rq rs rq' rs', index_schemas byName rq rs = inl (rq', rs') →
  ∀ f doc, rq' !! f = Some doc ∨ rs' !! f = Some doc →
    rq !! f = Some doc ∨ rs !! f = Some doc ∨ doc ∈ byName.*2.
Proof.
  induction byName as [|[n d] l IH]; intros rq rs rq' rs' H f doc Hf; cbn [index_schemas] in H; [injection H as <- <-; tauto|].
  cbv zeta in H. repeat case_bool_decide; try done.
  all: apply bind_inl in H as (target & Ht & H); case_match; [done|]; injection Ht as <-;
    specialize (IH _ _ _ _ H f doc Hf); rewrite lookup_insert_Some in IH; simpl; rewrite elem_of_cons; naive_solver.
Qed.

Lemma walk_schemas_file depth : ∀ schemas files path doc,
  walk_schemas depth schemas = Some (inl files) → (path, doc) ∈ files → sd_File doc = path.
Proof.
  induction schemas as [|[p o] l IH]; intros files path doc H Hin; simpl in H.
  { injection H as <-. by apply not_elem_of_nil in Hin. }
  destruct (walkSchema depth p o) as [[d|]|] eqn:E; [|done|done].
  destruct (walk_schemas depth l) as [[docs|]|] eqn:El; [|done|done]. injection H as <-.
  apply elem_of_cons in Hin as [[= -> ->]|Hin]; [|by eapply IH]. unfold walkSchema in E.
  destruct (detectSchemaShape _ _); [|done]. destruct (walkObjectProperties _ _ _ _ _ _) as [[?|]|]; [|done|done].
  by injection E as <-.
Qed.

(** ** A published report *)

Section published.
Context (ParseFloat : string → option float64) (FormatFloat : float64 → string) (Unquote : string → option string).
Context (format : decl → option string) (line_of : string → nat → string).

(** The features found in the tree are the ones its profiles register. *)
Definition features_registered (i : inputs) (idx : treeIndex) (features : list featureInfo) : Prop :=
  ∃ registered discovered,
    packaged (idx_resolver idx) pr_file pr_featureTypes (discoverProfileRegistrations Unquote (parsed_files i)) = inl registered ∧
    packaged (idx_resolver idx) fi_file (λ f, [fi_typeName f]) features = inl discovered ∧
    ∀ p, p ∈ registered ↔ p ∈ discovered.

(** Every schema file is the one a message was compared with, or a later one of the
    same base name has taken its place. *)
Definition schemas_used (files : list (string * SchemaDocument)) (messages : list Message) : Prop :=
  ∃ requests responses, indexSchemasByFeature (loadSchemas files) = inl (requests, responses) ∧
    ∀ k path doc, files !! k = Some (path, doc) →
      (∃ m, m ∈ messages ∧ (requests !! me_FeatureName m = Some doc ∨ responses !! me_FeatureName m = Some doc)) ∨
      (∃ j path' doc', (k < j)%nat ∧ files !! j = Some (path', doc') ∧ Base path' = Base path).

Lemma loaded_used files messages requests responses :
  (∀ path doc, (path, doc) ∈ files → sd_File doc = path) →
  indexSchemasByFeature (loadSchemas files) = inl (requests, responses) →
  (∀ n, n ∈ (loadSchemas files).*1 → ∃ m doc, m ∈ messages ∧
     (requests !! me_FeatureName m = Some doc ∨ responses !! me_FeatureName m = Some doc) ∧ baseName (sd_File doc) = n) →
  schemas_used files messages.
Proof.
  intros Hfile Hi Hu. exists requests, responses. split; [done|]. intros k path doc Hk.
  destruct (by_base_last _ _ _ _ Hk) as [Hl|?]; [left|by right].
  assert (Hkey : ∀ n d, by_base files !! n = Some d → ∃ other, n = baseName other).
  { intros n d Hn%elem_of_loadSchemas. destruct (Hu n) as (m & d' & _ & _ & E); [apply list_elem_of_fmap; by exists (n, d)|].
    by exists (sd_File d'). }
  destruct (Hu (Base path)) as (m & d' & Hm & Hd & E).
  { apply list_elem_of_fmap. exists (Base path, doc). split; [done|]. by apply elem_of_loadSchemas. }
  exists m. split; [done|]. replace doc with d'; [done|].
  destruct (index_schemas_from _ _ _ _ _ Hi _ _ Hd) as [H|[H|H]]; [done|done|].
  apply list_elem_of_fmap in H as ([n' d''] & [= <-] & Hin%elem_of_loadSchemas).
  destruct (by_base_file _ _ _ Hin) as (path' & Hin' & <-). rewrite (Hfile _ _ Hin') in E.
  destruct (Hkey _ _ Hin) as [other Ho].
  rewrite (baseName_Base _ _ Ho) in E by (rewrite E; apply Base_nonempty). rewrite E, Hl in Hin. by injection Hin.
Qed.

(** The judgements of the rows: none without a registry; with one, each row's own. *)
Definition rows_judged (i : inputs) (classifications : option (string * classificationRegistry)) (rows : list row) : Prop :=
  match classifications with
  | None => Forall (λ r, rw_judgement r = no_judgement) rows
  | Some (_, registry) =>
      Forall (λ r, justified (collectTreeEvidence format line_of (parsed_files i)) registry r ∧
                   judgement_ok (rw_judgement r)) rows
  end.

Lemma read_tree_registered i idx features : read_tree Unquote i = inl (idx, features) → features_registered i idx features.
Proof.
  unfold read_tree. intros (idx' & _ & H)%bind_inl. apply bind_inl in H as (found & _ & H).
  destruct (crossCheckFeaturesAndProfiles _ _ _) eqn:Hc; [done|]. apply bind_inl in H as (directions & _ & H).
  apply bind_inl in H as (features' & Hd & [= -> ->]). unfold features_registered. rewrite (directed_same _ _ _ _ Hd).
  by apply cross_check_exact.
Qed.

Lemma publication_checks version coverage checks :
  publicationFailures version coverage checks = [] → version = selfCheckCorpus → Forall (λ c, ck_Status c = "pass") checks.
Proof.
  unfold publicationFailures. intros (_ & (_ & Hf)%app_nil)%app_nil ->. rewrite bool_decide_true in Hf by done.
  apply fmap_nil_inv in Hf. apply Forall_forall. intros c Hc. destruct (decide (ck_Status c = "pass")) as [|Hn]; [done|].
  assert (Hin : c ∈ filter (λ c, ck_Status c ≠ "pass") checks) by by apply list_elem_of_filter.
  rewrite Hf in Hin. by apply elem_of_nil in Hin.
Qed.

Lemma rows_of_blank messages : Forall (λ r, rw_judgement r = no_judgement) (rows_of messages).
Proof.
  apply Forall_forall. intros r Hr. unfold rows_of in Hr. apply list_elem_of_In, in_flat_map in Hr as (m & _ & Hr).
  apply list_elem_of_In, elem_of_app in Hr as [Hr|Hr]; by apply list_elem_of_fmap in Hr as (f & -> & _).
Qed.

(** C36: a report is only published if it is complete: every feature of the tree was
    compared once, the features are those the profiles register, every schema file
    is the one a message was compared with, except a file whose base name a later
    file of another directory has too (it is overwritten, see
    [overwritten_schema_published]), on the corpus the self-checks were measured on they all
    pass, the class counts of the summary add up to the number of rows, and with a
    registry of judgements every row carries a well-formed one written for it. *)
Theorem published_report depth i classifications report rows :
  run ParseFloat FormatFloat Unquote format line_of depth i classifications = Some (inl (report, rows)) →
  ∃ idx features files,
    read_tree Unquote i = inl (idx, features) ∧ walk_schemas depth (in_schemas i) = Some (inl files) ∧
    me_FeatureName <$> rp_Messages report ≡ₚ fi_featureName <$> features ∧
    features_registered i idx features ∧ schemas_used files (rp_Messages report) ∧
    (rp_Version report = selfCheckCorpus → Forall (λ c, ck_Status c = "pass") (rp_SelfCheck report)) ∧
    total (su_ByClass (rp_Summary report)) = length (report_rows (rp_Messages report)) ∧
    rw_key <$> rows = rw_key <$> rows_of (rp_Messages report) ∧
    rw_field <$> rows = rw_field <$> rows_of (rp_Messages report) ∧ rows_judged i classifications rows.
Proof.
  unfold run, runComparison. destruct (read_tree Unquote i) as [[idx features]|] eqn:Ht; [|done].
  destruct (walk_schemas depth (in_schemas i)) as [[files|]|] eqn:Hw; [|done|done].
  destruct (build_report _ _ _ _ _ _ _) as [[report0 checks]|] eqn:Hb; [|done].
  destruct (publicationFailures _ _ _) as [|? ?] eqn:Hp; [|done]. intros Hrun.
  unfold build_report in Hb. apply bind_inl in Hb as ([[[messages coverage] summary] used] & Hc & Hb). cbv zeta in Hb.
  injection Hb as <- <-. cbn [rp_Version rp_Coverage rp_SelfCheck rp_Messages] in *.
  destruct (published_complete _ _ _ _ _ _ _ _ _ _ _ _ Hc Hp) as [Hn (requests & responses & Hi & Hu)].
  pose proof (loaded_used files messages requests responses (λ p d, walk_schemas_file _ _ _ p d Hw) Hi Hu) as Hs.
  apply compare_corpus_summary in Hc as [Hsum Hk]. destruct (summary_counts _ _ Hsum (report_rows_known _ Hk)) as [Htot _].
  exists idx, features, files. split; [done|]. split; [done|].
  assert (Hall : rp_Messages report = messages ∧ rp_Summary report = summary ∧
    (rp_Version report = selfCheckCorpus → Forall (λ c, ck_Status c = "pass") (rp_SelfCheck report)) ∧
    rw_key <$> rows = rw_key <$> rows_of messages ∧ rw_field <$> rows = rw_field <$> rows_of messages ∧
    rows_judged i classifications rows).
  { destruct classifications as [[name registry]|].
    - destruct (applyClassifications _ _ _ registry) as [rows' [e|]] eqn:Ha; [done|]. injection Hrun as <- <-.
      pose proof (registry_applied (collectTreeEvidence format line_of (parsed_files i)) (deriveVersionLabel (in_tree i)) (rows_of messages) registry) as H.
      rewrite Ha in H. destruct H as (H1 & H2 & H3 & _). split_and!; try done. cbn. by eapply publication_checks.
    - injection Hrun as <- <-. split_and!; try done; [cbn; by eapply publication_checks|apply rows_of_blank]. }
  destruct Hall as (-> & -> & Hv & Hkey & Hfield & Hj). split_and!; try done. by apply read_tree_registered.
Qed.
End published.

(** ** A run *)

Module RunDemo.
Import CompareDemo.

Definition type_of (name : string) : list stmt :=
  [ReturnStmt [CallExpr (SelectorExpr (Ident "reflect") "TypeOf") [CompositeLit (Some (Ident name)) []]]].
(** A package with one feature, its request with one field, and its profile. *)
Definition package : ast_file :=
  mkFile
    [GenDecl TYPE [TypeSpec "FooRequest" (StructType [mkField ["A"] (Ident "string") (tag "a" "required,max=20") 2]) 1;
                   TypeSpec "FooResponse" (StructType []) 4;
                   TypeSpec "FooFeature" (StructType []) 5;
                   TypeSpec "CSMSHandler" (InterfaceMethods [Some [Ident "string"; StarExpr (Ident "FooRequest")]]) 6];
     FuncDecl (Some [Ident "FooFeature"]) "GetFeatureName" (Some [ReturnStmt [BasicLit true (quoted "Foo")]]) 7;
     FuncDecl (Some [Ident "FooFeature"]) "GetRequestType" (Some (type_of "FooRequest")) 8;
     FuncDecl (Some [Ident "FooFeature"]) "GetResponseType" (Some (type_of "FooResponse")) 9;
     GenDecl VAR [ValueSpec ["Profile"] [CallExpr (SelectorExpr (Ident "ocpp") "NewProfile")
                                           [BasicLit true (quoted "foo"); CompositeLit (Some (Ident "FooFeature")) []]]]] [].
Definition draft : string * Json := ("$schema", JStr "http://json-schema.org/draft-06/schema#").
Definition demo : inputs :=
  mkInputs "ocpp9" "schemas" "m" "m/ocpp9" [mkSource "ocpp9/foo.go" "m/ocpp9" package] (λ _, ("ocpp9", "ocpp9"))
    [("schemas/FooRequest.json",
      [draft; ("properties", JObj [("a", JObj [("maxLength", JNum (QArith_base.Qmake 20 1)); ("type", JStr "string")])]);
       ("required", JArr [JStr "a"]); ("type", JStr "object")]);
     ("schemas/FooResponse.json", [draft; ("type", JStr "object")])] [].
Definition registry : classificationRegistry :=
  mkClassRegistry "v9"
    [(IDENTICAL, mkDefault NOT_A_DIVERGENCE NONE "" [mkCovered "Foo.request.a" "" []])] [] [].
Definition outcome : Report * list row :=
  match run parse text unquote (λ _, None) (λ _ _, "") 3 demo (Some ("registry.yaml", registry)) with
  | Some (inl p) => p
  | _ => (mkReport "" "" "" "" [] "" (mkCoverage 0 0 [] []) (mkSummary no_counts 0 0 0 (0, 0)%nat (mkDistribution 0 0 0 0 0) 0) [] [] [], [])
  end.

Lemma published_report_witness :
  run parse text unquote (λ _, None) (λ _ _, "") 3 demo (Some ("registry.yaml", registry)) = Some (inl outcome) ∧
  me_FeatureName <$> rp_Messages outcome.1 ≡ₚ ["Foo"] ∧ total (su_ByClass (rp_Summary outcome.1)) = 1%nat ∧
  (λ m, me_Direction m) <$> rp_Messages outcome.1 = ["CS->CSMS"] ∧
  (λ r, (rw_key r, jd_Classification (rw_judgement r))) <$> outcome.2 = [(("Foo", "request", "a"), NOT_A_DIVERGENCE)].
Proof.
  assert (H : run parse text unquote (λ _, None) (λ _ _, "") 3 demo (Some ("registry.yaml", registry)) =
              Some (inl (outcome.1, outcome.2))) by (vm_compute; reflexivity).
  split; [exact H|].
  destruct (published_report parse text unquote (λ _, None) (λ _ _, "") 3 demo _ _ _ H) as (idx & features & files & Ht & _ & Hn & _ & _ & _ & Hs & _).
  split.
  - rewrite Hn. revert Ht. vm_compute. intros [= _ <-]. reflexivity.
  - split; [rewrite Hs; vm_compute; reflexivity|]. split; vm_compute; reflexivity.
Defined.

(** The schemas with another request document before them, in another directory. *)
Definition shadowed : inputs :=
  mkInputs "ocpp9" "core,schemas" "m" "m/ocpp9" [mkSource "ocpp9/foo.go" "m/ocpp9" package] (λ _, ("ocpp9", "ocpp9"))
    (("core/FooRequest.json",
      [draft; ("properties", JObj [("a", JObj [("maxLength", JNum (QArith_base.Qmake 10 1)); ("type", JStr "string")])]);
       ("required", JArr [JStr "a"]); ("type", JStr "object")]) :: in_schemas demo) [].

(** two files of one base name in different directories: the first is read and then
    silently overwritten, so a document that contradicts the Go struct (here a
    maximum of 10 where the struct says 20) is compared with nothing, and the report
    is published as for the second file alone, with three schema files counted and
    none reported as unpaired. *)
Theorem overwritten_schema_published :
  match run parse text unquote (λ _, None) (λ _ _, "") 3 shadowed None,
        run parse text unquote (λ _, None) (λ _ _, "") 3 demo None with
  | Some (inl (r1, rows1)), Some (inl (r2, rows2)) =>
      rp_Messages r1 = rp_Messages r2 ∧ rp_Summary r1 = rp_Summary r2 ∧ rows1 = rows2 ∧
      rp_Coverage r1 = mkCoverage 1 3 [] [] ∧
      (λ r, fl_Class (rw_field r)) <$> rows1 = [IDENTICAL]
  | _, _ => False
  end.
Proof. vm_compute. split_and!; reflexivity. Qed.
End RunDemo.
