(* ===== verification/CanonJson.v ===== *)
(** * Canonical JSON

    src/ocpp2.0.1_test/internal/canonjson/canonjson.go: the representation in which
    the parity checks compare messages.  A parser keeps the lexemes of scalars and
    keys, and the writer sorts the members of every object.

    Bytes are characters.  The parser's position is the length of the input less
    what is left, so its state is what is left; [len] is the length of the input,
    which only the texts of errors use, and so does [literal], what [%q] prints of a
    byte.  The recursion of the parser is bounded by a number that is proved to
    suffice ([parse_enough]). *)

From Stdlib Require Import Ascii Sorting.Sorted.
From stdpp Require Import pretty.
From S2P Require Import Prelude Ocpp CgIR CgMapping CgPlacement CgSchema ScGoWalk.
Local Open Scope string_scope.
Local Open Scope list_scope.

(** ** Bytes *)

Definition byte_in (lo hi : N) (c : ascii) : bool := bool_decide (lo ≤ Ascii.N_of_ascii c ≤ hi)%N.
Definition isDigit (c : ascii) : bool := byte_in 48 57 c.
Definition isHexDigit (c : ascii) : bool := isDigit c || byte_in 97 102 c || byte_in 65 70 c.
Definition backslash : ascii := Ascii.ascii_of_nat 92.
Definition is_blank (c : ascii) : bool :=
  bool_decide (c ∈ [" "%char; Ascii.ascii_of_nat 9; Ascii.ascii_of_nat 10; Ascii.ascii_of_nat 13]).

(** ** Keys *)

(** What [json.Unmarshal] makes of the lexeme of a string: escapes replaced, a
    lone surrogate and a byte that is not part of a UTF-8 sequence by U+FFFD. *)
Definition of_byte (n : N) : ascii := Ascii.ascii_of_N n.
Definition encode_rune (r : N) : list ascii :=
  if bool_decide (r < 128)%N then [of_byte r]
  else if bool_decide (r < 2048)%N then [of_byte (192 + r / 64); of_byte (128 + r mod 64)]
  else if bool_decide (r < 65536)%N then
    [of_byte (224 + r / 4096); of_byte (128 + r / 64 mod 64); of_byte (128 + r mod 64)]
  else [of_byte (240 + r / 262144); of_byte (128 + r / 4096 mod 64); of_byte (128 + r / 64 mod 64);
        of_byte (128 + r mod 64)]%N.
Definition replacement : N := 65533.

Definition hex_value (c : ascii) : N :=
  let n := Ascii.N_of_ascii c in
  if isDigit c then (n - 48)%N else if byte_in 97 102 c then (n - 87)%N else (n - 55)%N.
Definition hex4 (a b c d : ascii) : N := (4096 * hex_value a + 256 * hex_value b + 16 * hex_value c + hex_value d)%N.

Definition continuation (c : ascii) : bool := byte_in 128 191 c.
Definition pair_ok (c0 c1 : ascii) : bool := byte_in 194 223 c0 && continuation c1.
Definition triple_ok (c0 c1 c2 : ascii) : bool :=
  (byte_in 224 224 c0 && byte_in 160 191 c1 || byte_in 237 237 c0 && byte_in 128 159 c1
   || (byte_in 225 236 c0 || byte_in 238 239 c0) && continuation c1) && continuation c2.
Definition quad_ok (c0 c1 c2 c3 : ascii) : bool :=
  (byte_in 240 240 c0 && byte_in 144 191 c1 || byte_in 244 244 c0 && byte_in 128 143 c1
   || byte_in 241 243 c0 && continuation c1) && continuation c2 && continuation c3.

Definition escaped (e : ascii) : ascii :=
  if bool_decide (e = "b"%char) then of_byte 8
  else if bool_decide (e = "f"%char) then of_byte 12
  else if bool_decide (e = "n"%char) then of_byte 10
  else if bool_decide (e = "r"%char) then of_byte 13
  else if bool_decide (e = "t"%char) then of_byte 9
  else e.

(** The content between the quotes. *)
Fixpoint unquote_content (l : list ascii) : list ascii :=
  match l with
  | [] => []
  | c0 :: l1 =>
      if bool_decide (c0 = backslash) then
        match l1 with
        | [] => []
        | e :: l2 =>
            if bool_decide (e = "u"%char) then
              match l2 with
              | h1 :: h2 :: h3 :: h4 :: l3 =>
                  let rr := hex4 h1 h2 h3 h4 in
                  if bool_decide (55296 ≤ rr < 57344)%N then
                    match l3 with
                    | b :: u :: k1 :: k2 :: k3 :: k4 :: l4 =>
                        let rr1 := hex4 k1 k2 k3 k4 in
                        if bool_decide (b = backslash) && bool_decide (u = "u"%char) && forallb isHexDigit [k1; k2; k3; k4]
                           && bool_decide (rr < 56320)%N && bool_decide (56320 ≤ rr1 < 57344)%N
                        then encode_rune (65536 + (rr - 55296) * 1024 + (rr1 - 56320)) ++ unquote_content l4
                        else encode_rune replacement ++ unquote_content l3
                    | _ => encode_rune replacement ++ unquote_content l3
                    end
                  else encode_rune rr ++ unquote_content l3
              | _ => []
              end
            else escaped e :: unquote_content l2
        end
      else if bool_decide (Ascii.N_of_ascii c0 < 128)%N then c0 :: unquote_content l1
      else
        match l1 with
        | c1 :: l2 =>
            if pair_ok c0 c1 then c0 :: c1 :: unquote_content l2
            else match l2 with
                 | c2 :: l3 =>
                     if triple_ok c0 c1 c2 then c0 :: c1 :: c2 :: unquote_content l3
                     else match l3 with
                          | c3 :: l4 =>
                              if quad_ok c0 c1 c2 c3 then c0 :: c1 :: c2 :: c3 :: unquote_content l4
                              else encode_rune replacement ++ unquote_content l1
                          | [] => encode_rune replacement ++ unquote_content l1
                          end
                 | [] => encode_rune replacement ++ unquote_content l1
                 end
        | [] => encode_rune replacement
        end
  end.
(** The last character of a lexeme is its closing quote. *)
Definition decode_key (raw : list ascii) : string := of_chars (unquote_content (removelast (tl raw))).

(** ** Values *)

Inductive jsonValue :=
| VObject (members : list (list ascii * jsonValue))   (* the lexeme of the key *)
| VArray (items : list jsonValue)
| VLiteral (raw : list ascii).

(** A member sorts by its decoded key. *)
Definition sortKey {A : Type} (m : list ascii * A) : string := decode_key m.1.

(** ** The parser *)

Fixpoint skipSpace (l : list ascii) : list ascii :=
  match l with c :: l' => if is_blank c then skipSpace l' else l | [] => [] end.

Section parser.
Context (literal : ascii → string) (len : nat).

Definition at_offset (l : list ascii) : string := pretty (len - length l)%nat.

(** What follows the opening quote, up to the closing one. *)
Fixpoint string_rest (start : string) (l : list ascii) : result (list ascii * list ascii) :=
  match l with
  | [] => fail ("canonjson: unterminated string starting at offset " +:+ start)
  | c :: l1 =>
      if bool_decide (c = dquote) then mret ([c], l1)
      else if bool_decide (c = backslash) then
        match l1 with
        | [] => fail "canonjson: unterminated escape sequence"
        | e :: l2 =>
            if bool_decide (e ∈ [dquote; backslash; "/"%char; "b"%char; "f"%char; "n"%char; "r"%char; "t"%char]) then
              '(raw, rest) ← string_rest start l2; mret (c :: e :: raw, rest)
            else if bool_decide (e = "u"%char) then
              match l2 with
              | h1 :: h2 :: h3 :: h4 :: l3 =>
                  if forallb isHexDigit [h1; h2; h3; h4] then
                    '(raw, rest) ← string_rest start l3; mret (c :: e :: h1 :: h2 :: h3 :: h4 :: raw, rest)
                  else fail ("canonjson: invalid unicode escape at offset " +:+ at_offset l2)
              | _ => fail ("canonjson: invalid unicode escape at offset " +:+ at_offset l2)
              end
            else fail ("canonjson: invalid escape character " +:+ literal e +:+ " at offset " +:+ at_offset l1)
        end
      else if bool_decide (Ascii.N_of_ascii c < 32)%N then
        fail ("canonjson: invalid control character in string at offset " +:+ at_offset l)
      else '(raw, rest) ← string_rest start l1; mret (c :: raw, rest)
  end.
(** At the opening quote. *)
Definition parseString (l : list ascii) : result (list ascii * list ascii) :=
  match l with
  | c :: l' => '(raw, rest) ← string_rest (at_offset l) l'; mret (c :: raw, rest)
  | [] => fail ("canonjson: unterminated string starting at offset " +:+ at_offset l)
  end.

Fixpoint digits (l : list ascii) : list ascii * list ascii :=
  match l with
  | c :: l' => if isDigit c then let '(ds, rest) := digits l' in (c :: ds, rest) else ([], l)
  | [] => ([], [])
  end.
(** One digit or more, or the error. *)
Definition digits1 (message : string) (l : list ascii) : result (list ascii * list ascii) :=
  match digits l with
  | ([], _) => fail message
  | r => mret r
  end.
(** The optional character among [cs]. *)
Definition optional (cs : list ascii) (l : list ascii) : list ascii * list ascii :=
  match l with c :: l' => if bool_decide (c ∈ cs) then ([c], l') else ([], l) | [] => ([], []) end.

Definition integer_part (start : string) (l : list ascii) : result (list ascii * list ascii) :=
  match l with
  | c :: l' => if bool_decide (c = "0"%char) then mret ([c], l')
               else digits1 ("canonjson: invalid number at offset " +:+ start) l
  | [] => fail ("canonjson: invalid number at offset " +:+ start)
  end.
Definition fraction_part (start : string) (l : list ascii) : result (list ascii * list ascii) :=
  match optional ["."%char] l with
  | ([], _) => mret ([], l)
  | (dot, l1) => '(ds, rest) ← digits1 ("canonjson: invalid number fraction at offset " +:+ start) l1; mret (dot ++ ds, rest)
  end.
Definition exponent_part (start : string) (l : list ascii) : result (list ascii * list ascii) :=
  match optional ["e"%char; "E"%char] l with
  | ([], _) => mret ([], l)
  | (e, l1) =>
      let '(sign, l2) := optional ["+"%char; "-"%char] l1 in
      '(ds, rest) ← digits1 ("canonjson: invalid number exponent at offset " +:+ start) l2; mret (e ++ sign ++ ds, rest)
  end.
Definition parseNumber (l : list ascii) : result (list ascii * list ascii) :=
  let start := at_offset l in
  let '(minus, l1) := optional ["-"%char] l in
  '(int, l2) ← integer_part start l1;
  '(frac, l3) ← fraction_part start l2;
  '(exp, l4) ← exponent_part start l3;
  mret (minus ++ int ++ frac ++ exp, l4).

Definition parseLiteral (lit l : list ascii) : result (list ascii * list ascii) :=
  if bool_decide (take (length lit) l = lit) then mret (lit, drop (length lit) l)
  else fail ("canonjson: invalid literal at offset " +:+ at_offset l +:+ ", want " +:+ quoted (of_chars lit)).

Definition scalar (r : result (list ascii * list ascii)) : result (jsonValue * list ascii) :=
  '(raw, rest) ← r; mret (VLiteral raw, rest).

(** The cases of [parseValue] for a scalar that begins with [c]. *)
Definition parse_scalar (c : ascii) (l : list ascii) : result (jsonValue * list ascii) :=
  if bool_decide (c = dquote) then scalar (parseString l)
  else if bool_decide (c = "t"%char) then scalar (parseLiteral (chars "true") l)
  else if bool_decide (c = "f"%char) then scalar (parseLiteral (chars "false") l)
  else if bool_decide (c = "n"%char) then scalar (parseLiteral (chars "null") l)
  else if bool_decide (c = "-"%char) || isDigit c then scalar (parseNumber l)
  else fail ("canonjson: unexpected character " +:+ literal c +:+ " at offset " +:+ at_offset l).

(** [parse_members] and [parse_items] are the loops of [parseObject] and
    [parseArray]: what follows the opening bracket or a comma. *)
Fixpoint parseValue (n : nat) (l : list ascii) : result (jsonValue * list ascii) :=
  match n with
  | O => fail "out of fuel"
  | S n' =>
      match l with
      | [] => fail "canonjson: unexpected end of input"
      | c :: l' =>
          if bool_decide (c = "{"%char) then
            match skipSpace l' with
            | d :: l'' => if bool_decide (d = "}"%char) then mret (VObject [], l'')
                          else '(ms, rest) ← parse_members n' l'; mret (VObject ms, rest)
            | [] => '(ms, rest) ← parse_members n' l'; mret (VObject ms, rest)
            end
          else if bool_decide (c = "["%char) then
            match skipSpace l' with
            | d :: l'' => if bool_decide (d = "]"%char) then mret (VArray [], l'')
                          else '(vs, rest) ← parse_items n' l'; mret (VArray vs, rest)
            | [] => '(vs, rest) ← parse_items n' l'; mret (VArray vs, rest)
            end
          else parse_scalar c l
      end
  end
with parse_members (n : nat) (l : list ascii) : result (list (list ascii * jsonValue) * list ascii) :=
  match n with
  | O => fail "out of fuel"
  | S n' =>
      let l := skipSpace l in
      match l with
      | c :: _ =>
          if bool_decide (c = dquote) then
            '(rawKey, l1) ← parseString l;
            let l1 := skipSpace l1 in
            match l1 with
            | d :: l2 =>
                if bool_decide (d = ":"%char) then
                  '(value, l3) ← parseValue n' (skipSpace l2);
                  let l3 := skipSpace l3 in
                  match l3 with
                  | [] => fail "canonjson: unterminated object"
                  | e :: l4 =>
                      if bool_decide (e = ","%char) then '(ms, rest) ← parse_members n' l4; mret ((rawKey, value) :: ms, rest)
                      else if bool_decide (e = "}"%char) then mret ([(rawKey, value)], l4)
                      else fail ("canonjson: expected ',' or '}' at offset " +:+ at_offset l3)
                  end
                else fail ("canonjson: expected ':' after object key at offset " +:+ at_offset l1)
            | [] => fail ("canonjson: expected ':' after object key at offset " +:+ at_offset l1)
            end
          else fail ("canonjson: expected object key at offset " +:+ at_offset l)
      | [] => fail ("canonjson: expected object key at offset " +:+ at_offset l)
      end
  end
with parse_items (n : nat) (l : list ascii) : result (list jsonValue * list ascii) :=
  match n with
  | O => fail "out of fuel"
  | S n' =>
      '(value, l1) ← parseValue n' (skipSpace l);
      let l1 := skipSpace l1 in
      match l1 with
      | [] => fail "canonjson: unterminated array"
      | e :: l2 =>
          if bool_decide (e = ","%char) then '(vs, rest) ← parse_items n' l2; mret (value :: vs, rest)
          else if bool_decide (e = "]"%char) then mret ([value], l2)
          else fail ("canonjson: expected ',' or ']' at offset " +:+ at_offset l1)
      end
  end.
End parser.

(** ** The writer *)

(** The parts with commas between them. *)
Fixpoint commas (parts : list (list ascii)) : list ascii :=
  match parts with
  | [] => []
  | [p] => p
  | p :: l => p ++ ","%char :: commas l
  end.

(** The members are written and then put in order; the order only looks at the
    keys. *)
Fixpoint writeValue (v : jsonValue) : list ascii :=
  match v with
  | VObject members =>
      "{"%char ::
      commas ((λ m, m.1 ++ ":"%char :: m.2) <$> sort_by sortKey ((λ m, (m.1, writeValue m.2)) <$> members)) ++ ["}"%char]
  | VArray items => "["%char :: commas (writeValue <$> items) ++ ["]"%char]
  | VLiteral raw => raw
  end.

Definition Canonicalize (literal : ascii → string) (input : list ascii) : result (list ascii) :=
  let len := length input in
  '(value, rest) ← parseValue literal len (S (2 * len)) (skipSpace input);
  match skipSpace rest with
  | [] => mret (writeValue value)
  | l => fail ("canonjson: unexpected data after JSON value at offset " +:+ at_offset len l)
  end.
