(* ===== verification/CanonJsonTheorems.v ===== *)
(** * Canonical JSON: properties *)

From Stdlib Require Import Ascii Sorting.Sorted.
From stdpp Require Import sorting.
From S2P Require Import Prelude Ocpp CgIR CgMapping CgPlacement CgSchema ScGoWalk CanonJson.
Local Open Scope string_scope.
Local Open Scope list_scope.
Local Open Scope nat_scope.

Lemma bind_inl2 {A B C : Type} (f : A * B → CgSchema.result C) (x : CgSchema.result (A * B)) c :
  mbind f x = inl c → ∃ a b, x = inl (a, b) ∧ f (a, b) = inl c.
Proof. intros ([a b] & Hx & Hf)%bind_inl. eauto. Qed.

(** ** Lexemes *)

(** What follows a value that was written: nothing, a comma or a closing bracket. *)
Definition ends (rest : list ascii) : Prop :=
  match rest with [] => True | c :: _ => c ∈ [","%char; "}"%char; "]"%char] end.
Definition head_is (P : ascii → bool) (l : list ascii) : Prop := match l with c :: _ => P c = true | [] => False end.
Lemma ends_not P rest : forallb (λ c, negb (P c)) [","%char; "}"%char; "]"%char] = true → ends rest → ¬ head_is P rest.
Proof.
  destruct rest as [|c rest]; simpl; [by intros _ _ []|]. rewrite !elem_of_cons, elem_of_nil, !andb_true_iff, !negb_true_iff.
  intros (H1 & H2 & H3 & _) [->|[->|[->|[]]]]; congruence.
Qed.

(** *** Strings *)

Section strings.
Context (literal : ascii → string) (len : nat).

Lemma string_rest_sound n : ∀ start l raw rest, length l < n →
  string_rest literal len start l = inl (raw, rest) →
  l = raw ++ rest ∧ raw ≠ [] ∧
  ∀ literal' len' start' rest', string_rest literal' len' start' (raw ++ rest') = inl (raw, rest').
Proof.
  induction n as [|n IH]; intros start l raw rest Hn H; [lia|].
  destruct l as [|c l1]; [done|]. cbn [string_rest] in H.
  destruct (bool_decide (c = dquote)) eqn:E1.
  { injection H as <- <-. split; [done|]. split; [done|]. intros. simpl. by rewrite E1. }
  destruct (bool_decide (c = backslash)) eqn:E2.
  - destruct l1 as [|e l2]; [done|]. destruct (bool_decide (e ∈ _)) eqn:E3.
    + apply bind_inl2 in H as (r & rest1 & Hr & [= <- <-]).
      apply IH in Hr as (-> & _ & Hr); [|simpl in Hn; lia]. split; [done|]. split; [done|].
      intros. rewrite <- !app_comm_cons. cbn [string_rest]. by rewrite E1, E2, E3, Hr.
    + destruct (bool_decide (e = "u"%char)) eqn:E4; [|done].
      destruct l2 as [|h1 [|h2 [|h3 [|h4 l3]]]]; try done. destruct (forallb isHexDigit [h1; h2; h3; h4]) eqn:E5; [|done].
      apply bind_inl2 in H as (r & rest1 & Hr & [= <- <-]).
      apply IH in Hr as (-> & _ & Hr); [|simpl in Hn; lia]. split; [done|]. split; [done|].
      intros. rewrite <- !app_comm_cons. cbn [string_rest]. by rewrite E1, E2, E3, E4, E5, Hr.
  - destruct (bool_decide (Ascii.N_of_ascii c < 32)%N) eqn:E3; [done|].
    apply bind_inl2 in H as (r & rest1 & Hr & [= <- <-]).
    apply IH in Hr as (-> & _ & Hr); [|simpl in Hn; lia]. split; [done|]. split; [done|].
    intros. rewrite <- !app_comm_cons. cbn [string_rest]. by rewrite E1, E2, E3, Hr.
Qed.
End strings.

(** A lexeme of a string, whatever follows. *)
Definition string_lexeme (raw : list ascii) : Prop :=
  head_is (λ c, bool_decide (c = dquote)) raw ∧
  ∀ literal len rest, parseString literal len (raw ++ rest) = inl (raw, rest).

Lemma parseString_sound literal len l raw rest :
  head_is (λ c, bool_decide (c = dquote)) l → parseString literal len l = inl (raw, rest) →
  l = raw ++ rest ∧ string_lexeme raw.
Proof.
  destruct l as [|c l]; [done|]. intros Hc H. cbn [parseString] in H.
  apply bind_inl2 in H as (r & rest1 & Hr & [= <- <-]).
  destruct (string_rest_sound _ _ _ _ _ _ _ (Nat.lt_succ_diag_r _) Hr) as (-> & _ & Hs).
  split; [done|]. split; [exact Hc|]. intros. cbn [parseString app]. by rewrite Hs.
Qed.

(** *** Numbers *)

Lemma digits_sound l : ∀ ds rest, digits l = (ds, rest) →
  l = ds ++ rest ∧ forallb isDigit ds = true ∧ ¬ head_is isDigit rest.
Proof.
  induction l as [|c l IH]; intros ds rest; simpl; [intros [= <- <-]; split_and!; [done|done|by intros []]|].
  destruct (isDigit c) eqn:E.
  - destruct (digits l) as [ds' rest'] eqn:Ed. intros [= <- <-]. destruct (IH _ _ eq_refl) as (-> & Hd & Hr).
    split; [done|]. split; [|done]. simpl. by rewrite E, Hd.
  - intros [= <- <-]. split; [done|]. split; [done|]. simpl. congruence.
Qed.
Lemma digits_complete ds rest : forallb isDigit ds = true → ¬ head_is isDigit rest → digits (ds ++ rest) = (ds, rest).
Proof.
  intros Hd Hr. induction ds as [|c ds IH]; simpl in *.
  - destruct rest as [|c rest]; [done|]. simpl in *. by destruct (isDigit c).
  - apply andb_true_iff in Hd as [-> Hd]. by rewrite IH.
Qed.
Lemma digits1_sound message l ds rest : digits1 message l = inl (ds, rest) →
  l = ds ++ rest ∧ forallb isDigit ds = true ∧ ds ≠ [] ∧ ¬ head_is isDigit rest.
Proof.
  unfold digits1. destruct (digits l) as [d r] eqn:E. apply digits_sound in E as (-> & Hd & Hr).
  destruct d; [done|]. by intros [= <- <-].
Qed.
Lemma digits1_complete message ds rest :
  forallb isDigit ds = true → ds ≠ [] → ¬ head_is isDigit rest → digits1 message (ds ++ rest) = inl (ds, rest).
Proof. intros Hd Hne Hr. unfold digits1. rewrite digits_complete by done. by destruct ds. Qed.

Lemma optional_sound cs l a rest : optional cs l = (a, rest) →
  l = a ++ rest ∧ ((a = [] ∧ ¬ head_is (λ c, bool_decide (c ∈ cs)) rest) ∨ ∃ c, c ∈ cs ∧ a = [c]).
Proof.
  unfold optional. destruct l as [|c l]; [intros [= <- <-]; auto|].
  case_bool_decide as E; intros [= <- <-]; (split; [done|]); [right; eauto|left]. split; [done|]. simpl.
  by rewrite bool_decide_eq_true.
Qed.
Lemma optional_none cs rest : ¬ head_is (λ c, bool_decide (c ∈ cs)) rest → optional cs rest = ([], rest).
Proof. destruct rest as [|c rest]; simpl; [done|]. by rewrite bool_decide_eq_true; intros; rewrite bool_decide_false. Qed.
Lemma optional_some cs c rest : c ∈ cs → optional cs (c :: rest) = ([c], rest).
Proof. intros. simpl. by rewrite bool_decide_true. Qed.

(** The characters with which a number goes on. *)
Definition goes_on (c : ascii) : bool := isDigit c || bool_decide (c ∈ ["."%char; "e"%char; "E"%char]).

Inductive number : list ascii → Prop :=
| number_of minus int frac exp :
    minus ∈ [[]; ["-"%char]] →
    (int = ["0"%char] ∨ (forallb isDigit int = true ∧ int ≠ [] ∧ head int ≠ Some "0"%char)) →
    (frac = [] ∨ ∃ ds, frac = "."%char :: ds ∧ forallb isDigit ds = true ∧ ds ≠ []) →
    (exp = [] ∨ ∃ e sign ds, exp = e :: sign ++ ds ∧ e ∈ ["e"%char; "E"%char] ∧ sign ∈ [[]; ["+"%char]; ["-"%char]] ∧
                             forallb isDigit ds = true ∧ ds ≠ []) →
    number (minus ++ int ++ frac ++ exp).

Lemma parseNumber_sound len l raw rest :
  parseNumber len l = inl (raw, rest) → l = raw ++ rest ∧ number raw.
Proof.
  unfold parseNumber. destruct (optional ["-"%char] l) as [minus l1] eqn:E0. intros H.
  apply optional_sound in E0 as [-> Hm].
  apply bind_inl2 in H as (int & l2 & H1 & H). apply bind_inl2 in H as (frac & l3 & H2 & H).
  apply bind_inl2 in H as (exp & l4 & H3 & [= <- <-]).
  assert (Hi : l1 = int ++ l2 ∧ (int = ["0"%char] ∨ (forallb isDigit int = true ∧ int ≠ [] ∧ head int ≠ Some "0"%char))).
  { unfold integer_part in H1. destruct l1 as [|c l1]; [done|]. case_bool_decide as Ec.
    - injection H1 as <- <-. subst c. auto.
    - apply digits1_sound in H1 as (E & Hd & Hne & _). split; [done|right]. split; [done|]. split; [done|].
      destruct int; [done|]. simplify_eq/=. congruence. }
  assert (Hf : l2 = frac ++ l3 ∧ (frac = [] ∨ ∃ ds, frac = "."%char :: ds ∧ forallb isDigit ds = true ∧ ds ≠ [])).
  { unfold fraction_part in H2. destruct (optional ["."%char] l2) as [dot l2'] eqn:E.
    apply optional_sound in E as [-> [[-> _]|(c & Hc%list_elem_of_singleton & ->)]]; [|subst c].
    - injection H2 as <- <-. auto.
    - apply bind_inl2 in H2 as (ds & r & Hd & [= <- <-]). apply digits1_sound in Hd as (-> & Hd & Hne & _).
      split; [done|]. right. by exists ds. }
  assert (He : l3 = exp ++ l4 ∧ (exp = [] ∨ ∃ e sign ds, exp = e :: sign ++ ds ∧ e ∈ ["e"%char; "E"%char] ∧
      sign ∈ [[]; ["+"%char]; ["-"%char]] ∧ forallb isDigit ds = true ∧ ds ≠ [])).
  { unfold exponent_part in H3. destruct (optional ["e"%char; "E"%char] l3) as [e l3'] eqn:E.
    apply optional_sound in E as [-> [[-> _]|(c & Hc & ->)]]; [injection H3 as <- <-; auto|].
    destruct (optional ["+"%char; "-"%char] l3') as [sign l3''] eqn:E.
    apply optional_sound in E as [-> Hs]. apply bind_inl2 in H3 as (ds & r & Hd & [= <- <-]).
    apply digits1_sound in Hd as (-> & Hd & Hne & _). split; [simpl; by rewrite <- app_assoc|]. right. exists c, sign, ds.
    split; [done|]. split; [done|]. split; [|done].
    destruct Hs as [[-> _]|(c' & Hc' & ->)]; [left|]. apply elem_of_cons in Hc' as [->|Hc'%list_elem_of_singleton]; [|subst c']; set_solver. }
  destruct Hi as [-> Hi], Hf as [-> Hf], He as [-> He]. split; [by rewrite <- !app_assoc|].
  constructor; try done. destruct Hm as [[-> _]|(c & Hc%list_elem_of_singleton & ->)]; [|subst c]; set_solver.
Qed.

Lemma digit_not_in c (cs : list ascii) : isDigit c = true → forallb (λ x, negb (isDigit x)) cs = true → c ∉ cs.
Proof. intros Hd Hcs Hc. rewrite forallb_forall in Hcs. apply list_elem_of_In, Hcs in Hc. by rewrite Hd in Hc. Qed.

Lemma parseNumber_complete len raw rest :
  number raw → ¬ head_is goes_on rest → parseNumber len (raw ++ rest) = inl (raw, rest).
Proof.
  intros Hn Hr. destruct Hn as [minus int frac exp Hm Hi Hf He].
  assert (Hrd : ¬ head_is isDigit rest).
  { destruct rest as [|c r]; [done|]. simpl in *. unfold goes_on in Hr. by destruct (isDigit c). }
  assert (Hrs : ∀ cs : list ascii, (∀ c, c ∈ cs → c ∈ ["."%char; "e"%char; "E"%char]) → ¬ head_is (λ c, bool_decide (c ∈ cs)) rest).
  { intros cs Hcs. destruct rest as [|c r]; [done|]. simpl in *. unfold goes_on in Hr. rewrite bool_decide_eq_true.
    intros Hc%Hcs. rewrite (bool_decide_true (c ∈ _)), orb_true_r in Hr by done. done. }
  assert (Hexp : ¬ head_is isDigit (exp ++ rest) ∧ ¬ head_is (λ c, bool_decide (c ∈ ["."%char])) (exp ++ rest)).
  { destruct He as [->|(e & sign & ds & -> & He & _)]; [split; [done|apply Hrs; set_solver]|]. simpl.
    rewrite bool_decide_eq_true, list_elem_of_singleton. rewrite !elem_of_cons, elem_of_nil in He.
    destruct He as [->|[->|[]]]; done. }
  assert (Hfr : ¬ head_is isDigit (frac ++ exp ++ rest)).
  { destruct Hf as [->|(ds & -> & _)]; [apply Hexp|done]. }
  unfold parseNumber. rewrite <- !app_assoc.
  assert (E0 : optional ["-"%char] (minus ++ int ++ frac ++ exp ++ rest) = (minus, int ++ frac ++ exp ++ rest)).
  { rewrite elem_of_cons, list_elem_of_singleton in Hm. destruct Hm as [->| ->]; [|done]. apply optional_none.
    destruct Hi as [->|(Hd & Hne & _)]; [done|]. destruct int as [|c int]; [done|]. simpl in Hd |- *.
    apply andb_true_iff in Hd as [Hd _]. rewrite bool_decide_eq_true. by apply digit_not_in. }
  rewrite E0.
  assert (E1 : ∀ start, integer_part start (int ++ frac ++ exp ++ rest) = inl (int, frac ++ exp ++ rest)).
  { intros start. destruct Hi as [->|(Hd & Hne & Hz)]; [done|]. unfold integer_part.
    destruct int as [|c int]; [done|]. rewrite <- app_comm_cons. rewrite bool_decide_false by (simpl in Hz; congruence).
    rewrite app_comm_cons. by apply digits1_complete. }
  rewrite E1. cbn [mbind result_bind].
  assert (E2 : ∀ start, fraction_part start (frac ++ exp ++ rest) = inl (frac, exp ++ rest)).
  { intros start. unfold fraction_part. destruct Hf as [->|(ds & -> & Hd & Hne)].
    - rewrite app_nil_l, optional_none by apply Hexp. done.
    - rewrite <- app_comm_cons, optional_some by set_solver. by rewrite digits1_complete by (done || apply Hexp). }
  rewrite E2. cbn [mbind result_bind].
  assert (E3 : ∀ start, exponent_part start (exp ++ rest) = inl (exp, rest)).
  { intros start. unfold exponent_part. destruct He as [->|(e & sign & ds & -> & He & Hs & Hd & Hne)].
    - rewrite app_nil_l, optional_none by (apply Hrs; set_solver). done.
    - rewrite <- app_comm_cons, optional_some by done. rewrite <- app_assoc.
      assert (Es : optional ["+"%char; "-"%char] (sign ++ ds ++ rest) = (sign, ds ++ rest)).
      { rewrite !elem_of_cons, elem_of_nil in Hs. destruct Hs as [->|[->|[->|[]]]]; [|done|done].
        apply optional_none. destruct ds as [|d ds]; [done|]. simpl in Hd |- *. apply andb_true_iff in Hd as [Hd _].
        rewrite bool_decide_eq_true. by apply digit_not_in. }
      rewrite Es, digits1_complete by done. done. }
  rewrite E3. done.
Qed.

(** *** Values *)

Section value_ind.
Context (P : jsonValue → Prop).
Context (Hobject : ∀ ms, Forall (λ m, P m.2) ms → P (VObject ms)).
Context (Harray : ∀ vs, Forall P vs → P (VArray vs)).
Context (Hliteral : ∀ raw, P (VLiteral raw)).
Fixpoint value_ind (v : jsonValue) : P v :=
  match v with
  | VObject ms =>
      Hobject ms ((fix go ms : Forall (λ m, P m.2) ms :=
                     match ms with [] => Forall_nil_2 _ | m :: l => Forall_cons_2 _ m l (value_ind m.2) (go l) end) ms)
  | VArray vs =>
      Harray vs ((fix go vs : Forall P vs :=
                    match vs with [] => Forall_nil_2 _ | v :: l => Forall_cons_2 _ v l (value_ind v) (go l) end) vs)
  | VLiteral raw => Hliteral raw
  end.
End value_ind.

(** With what a scalar begins. *)
Definition scalar_head (c : ascii) : bool :=
  bool_decide (c ∈ [dquote; "t"%char; "f"%char; "n"%char; "-"%char]) || isDigit c.
Definition scalar_lexeme (raw : list ascii) : Prop :=
  ∃ c r, raw = c :: r ∧ scalar_head c = true ∧
  ∀ literal len rest, ends rest → parse_scalar literal len c (raw ++ rest) = inl (VLiteral raw, rest).

Inductive well_formed : jsonValue → Prop :=
| wf_object ms : Forall (λ m, string_lexeme m.1) ms → Forall (λ m, well_formed m.2) ms → well_formed (VObject ms)
| wf_array vs : Forall well_formed vs → well_formed (VArray vs)
| wf_literal raw : scalar_lexeme raw → well_formed (VLiteral raw).

Lemma skipSpace_suffix l : ∃ blanks, l = blanks ++ skipSpace l ∧ forallb is_blank blanks = true.
Proof.
  induction l as [|c l (b & E & Hb)]; [by exists []|]. simpl. destruct (is_blank c) eqn:Ec.
  - exists (c :: b). simpl. by rewrite Ec, Hb, <- E.
  - by exists [].
Qed.
Lemma skipSpace_length l : length (skipSpace l) ≤ length l.
Proof. induction l as [|c l IH]; simpl; [lia|]. destruct (is_blank c); simpl; lia. Qed.
Lemma skipSpace_id l : ¬ head_is is_blank l → skipSpace l = l.
Proof. destruct l as [|c l]; simpl; [done|]. by destruct (is_blank c). Qed.
Lemma head_is_app P l r : l ≠ [] → head_is P (l ++ r) ↔ head_is P l.
Proof. by destruct l. Qed.

(** The heads of values and what they are not. *)
Lemma scalar_head_cases c :
  scalar_head c = true → c ≠ "{"%char ∧ c ≠ "["%char ∧ c ≠ "]"%char ∧ c ≠ "}"%char ∧ is_blank c = false.
Proof.
  unfold scalar_head. rewrite orb_true_iff, bool_decide_eq_true. intros [Hc|Hd].
  - repeat (apply elem_of_cons in Hc as [->|Hc]; [by vm_compute|]). by apply elem_of_nil in Hc.
  - unfold is_blank. split_and!; try (intros ->; discriminate Hd). apply bool_decide_eq_false. by apply digit_not_in.
Qed.

(** *** What the parser returns *)

Section parse.
Context (literal : ascii → string) (len : nat).

Lemma literal_lexeme lit l raw rest :
  parseLiteral len lit l = inl (raw, rest) → raw = lit ∧ l = lit ++ rest.
Proof.
  unfold parseLiteral. case_bool_decide as E; [|done]. intros [= <- <-]. split; [done|].
  rewrite <- E at 1. by rewrite take_drop.
Qed.
Lemma parseLiteral_complete lit rest : parseLiteral len lit (lit ++ rest) = inl (lit, rest).
Proof. unfold parseLiteral. by rewrite take_app_length, bool_decide_true, drop_app_length by done. Qed.
End parse.

Lemma number_head raw : number raw → head_is (λ c, bool_decide (c = "-"%char) || isDigit c) raw.
Proof.
  intros [minus int frac exp Hm Hi _ _]. rewrite elem_of_cons, list_elem_of_singleton in Hm.
  destruct Hm as [->| ->]; [|done]. destruct Hi as [->|(Hd & Hne & _)]; [done|]. destruct int as [|c int]; [done|].
  simpl in *. apply andb_true_iff in Hd as [-> _]. by rewrite orb_true_r.
Qed.

(** A scalar that was parsed is a lexeme. *)
Lemma scalar_sound literal len c l v rest :
  parse_scalar literal len c (c :: l) = inl (v, rest) →
  ∃ raw, v = VLiteral raw ∧ c :: l = raw ++ rest ∧ scalar_lexeme raw.
Proof.
  unfold parse_scalar. intros H.
  assert (Hlit : ∀ lit head tail, lit = head :: tail → scalar_head head = true →
    (∀ literal len rest, parse_scalar literal len head (lit ++ rest) = scalar (parseLiteral len lit (lit ++ rest))) →
    scalar (parseLiteral len lit (c :: l)) = inl (v, rest) → ∃ raw, v = VLiteral raw ∧ c :: l = raw ++ rest ∧ scalar_lexeme raw).
  { intros lit head tail Hl Hh Hp Hs. apply bind_inl2 in Hs as (raw & rest' & Hr & [= <- <-]).
    apply literal_lexeme in Hr as [-> E]. exists lit. split; [done|]. split; [done|]. exists head, tail. split; [done|].
    split; [done|]. intros. by rewrite Hp, parseLiteral_complete. }
  case_bool_decide as E1; [|case_bool_decide as E2; [|case_bool_decide as E3; [|case_bool_decide as E4; [|]]]].
  - apply bind_inl2 in H as (raw & rest' & Hr & [= <- <-]). subst c. apply parseString_sound in Hr as [E [Hh Hs]]; [|done].
    exists raw. split; [done|]. split; [done|]. destruct raw as [|c raw]; [done|]. simpl in Hh. apply bool_decide_eq_true in Hh as ->.
    exists dquote, raw. split; [done|]. split; [done|]. intros. unfold parse_scalar. rewrite bool_decide_true by done. by rewrite Hs.
  - by eapply (Hlit (chars "true")).
  - by eapply (Hlit (chars "false")).
  - by eapply (Hlit (chars "null")).
  - destruct (bool_decide (c = "-"%char) || isDigit c) eqn:E5; [|done].
    apply bind_inl2 in H as (raw & rest' & Hr & [= <- <-]). apply parseNumber_sound in Hr as [E Hn].
    exists raw. split; [done|]. split; [done|]. pose proof (number_head raw Hn) as Hh.
    destruct raw as [|c' raw]; [done|]. injection E as <- E. exists c, raw. split; [done|].
    split; [unfold scalar_head; simpl in Hh; apply orb_true_iff in Hh as [->%bool_decide_eq_true| ->]; [done|by rewrite orb_true_r]|].
    intros. unfold parse_scalar. rewrite !(bool_decide_false (c = _)), E5 by done.
    rewrite parseNumber_complete; [done|done|]. by apply ends_not.
Qed.

Section sound.
Context (literal : ascii → string) (len : nat).

Lemma parseValue_S n c l :
  parseValue literal len (S n) (c :: l) =
  if bool_decide (c = "{"%char) then
    match skipSpace l with
    | d :: l' => if bool_decide (d = "}"%char) then mret (VObject [], l')
                 else '(ms, rest) ← parse_members literal len n l; mret (VObject ms, rest)
    | [] => '(ms, rest) ← parse_members literal len n l; mret (VObject ms, rest)
    end
  else if bool_decide (c = "["%char) then
    match skipSpace l with
    | d :: l' => if bool_decide (d = "]"%char) then mret (VArray [], l')
                 else '(vs, rest) ← parse_items literal len n l; mret (VArray vs, rest)
    | [] => '(vs, rest) ← parse_items literal len n l; mret (VArray vs, rest)
    end
  else parse_scalar literal len c (c :: l).
Proof. reflexivity. Qed.
(** What follows the value of a member. *)
Definition after_member (n : nat) (key : list ascii) (v : jsonValue) (l : list ascii)
    : CgSchema.result (list (list ascii * jsonValue) * list ascii) :=
  match l with
  | [] => fail "canonjson: unterminated object"
  | e :: l4 =>
      if bool_decide (e = ","%char) then '(ms, rest) ← parse_members literal len n l4; mret ((key, v) :: ms, rest)
      else if bool_decide (e = "}"%char) then mret ([(key, v)], l4)
      else fail ("canonjson: expected ',' or '}' at offset " +:+ at_offset len l)
  end.
Definition after_key (n : nat) (key : list ascii) (l : list ascii)
    : CgSchema.result (list (list ascii * jsonValue) * list ascii) :=
  match l with
  | d :: l2 =>
      if bool_decide (d = ":"%char) then
        '(v, l3) ← parseValue literal len n (skipSpace l2); after_member n key v (skipSpace l3)
      else fail ("canonjson: expected ':' after object key at offset " +:+ at_offset len l)
  | [] => fail ("canonjson: expected ':' after object key at offset " +:+ at_offset len l)
  end.
Lemma parse_members_S n l :
  parse_members literal len (S n) l =
  match skipSpace l with
  | c :: _ =>
      if bool_decide (c = dquote) then
        '(key, l1) ← parseString literal len (skipSpace l); after_key n key (skipSpace l1)
      else fail ("canonjson: expected object key at offset " +:+ at_offset len (skipSpace l))
  | [] => fail ("canonjson: expected object key at offset " +:+ at_offset len (skipSpace l))
  end.
Proof. reflexivity. Qed.
Definition after_item (n : nat) (v : jsonValue) (l : list ascii) : CgSchema.result (list jsonValue * list ascii) :=
  match l with
  | [] => fail "canonjson: unterminated array"
  | e :: l2 =>
      if bool_decide (e = ","%char) then '(vs, rest) ← parse_items literal len n l2; mret (v :: vs, rest)
      else if bool_decide (e = "]"%char) then mret ([v], l2)
      else fail ("canonjson: expected ',' or ']' at offset " +:+ at_offset len l)
  end.
Lemma parse_items_S n l :
  parse_items literal len (S n) l =
  '(v, l1) ← parseValue literal len n (skipSpace l); after_item n v (skipSpace l1).
Proof. reflexivity. Qed.

(** What is parsed is well formed, and at least a character of the input is used. *)
Lemma parse_sound n :
  (∀ l v rest, parseValue literal len n l = inl (v, rest) → well_formed v ∧ length rest < length l) ∧
  (∀ l ms rest, parse_members literal len n l = inl (ms, rest) →
     Forall (λ m, string_lexeme m.1) ms ∧ Forall (λ m, well_formed m.2) ms ∧ length rest < length l) ∧
  (∀ l vs rest, parse_items literal len n l = inl (vs, rest) → Forall well_formed vs ∧ length rest < length l).
Proof.
  induction n as [|n (IHv & IHm & IHi)]; [done|]. split; [|split].
  - intros [|c l] v rest; [done|]. rewrite parseValue_S.
    assert (Hobj : ('(ms, rest) ← parse_members literal len n l; mret (VObject ms, rest)) = inl (v, rest) →
              well_formed v ∧ length rest < S (length l)).
    { intros (ms & r & (H1 & H2 & H3)%IHm & [= <- <-])%bind_inl2. split; [by constructor|lia]. }
    assert (Harr : ('(vs, rest) ← parse_items literal len n l; mret (VArray vs, rest)) = inl (v, rest) →
              well_formed v ∧ length rest < S (length l)).
    { intros (vs & r & (H1 & H2)%IHi & [= <- <-])%bind_inl2. split; [by constructor|lia]. }
    pose proof (skipSpace_length l) as Hlen.
    case_bool_decide; [|case_bool_decide].
    + destruct (skipSpace l) as [|d l'']; [done|]. case_bool_decide; [|done]. intros [= <- <-]. split; [by repeat constructor|].
      simpl in *. lia.
    + destruct (skipSpace l) as [|d l'']; [done|]. case_bool_decide; [|done]. intros [= <- <-]. split; [by repeat constructor|].
      simpl in *. lia.
    + intros (raw & -> & E & Hl)%scalar_sound. split; [by constructor|]. change (S (length l)) with (length (c :: l)).
      destruct Hl as (c' & r & -> & _). rewrite E. simpl. rewrite length_app. lia.
  - intros l ms rest. rewrite parse_members_S. pose proof (skipSpace_length l) as Hl0.
    destruct (skipSpace l) as [|c l0] eqn:E0; [done|]. case_bool_decide as Ec; [|done]. subst c.
    intros (key & l1 & Hk & H)%bind_inl2. apply parseString_sound in Hk as [Ek Hk]; [|done].
    assert (Hl1 : length l1 < length l).
    { apply (f_equal length) in Ek. rewrite length_app in Ek. destruct Hk as [Hk _]. destruct key; [done|]. simpl in *. lia. }
    pose proof (skipSpace_length l1). destruct (skipSpace l1) as [|d l2]; [done|]. unfold after_key in *. case_bool_decide; [|done].
    apply bind_inl2 in H as (v & l3 & Hv & H). apply IHv in Hv as [Hv Hl3]. pose proof (skipSpace_length l2).
    pose proof (skipSpace_length l3). destruct (skipSpace l3) as [|e l4]; [done|]. unfold after_member in *. simpl in *.
    case_bool_decide; [|case_bool_decide; [|done]].
    + apply bind_inl2 in H as (ms' & r & (? & ? & ?)%IHm & [= <- <-]). split_and!; [by constructor|by constructor|lia].
    + injection H as <- <-. split_and!; [by apply Forall_singleton|by apply Forall_singleton|lia].
  - intros l vs rest. rewrite parse_items_S. intros (v & l1 & [Hv Hl1]%IHv & H)%bind_inl2.
    pose proof (skipSpace_length l). pose proof (skipSpace_length l1). destruct (skipSpace l1) as [|e l2]; [done|]. unfold after_item in *. simpl in *.
    case_bool_decide; [|case_bool_decide; [|done]].
    + apply bind_inl2 in H as (vs' & r & [? ?]%IHi & [= <- <-]). split; [by constructor|lia].
    + injection H as <- <-. split; [by apply Forall_singleton|lia].
Qed.

(** Twice the length of the input bounds the recursion. *)
Lemma parse_stable n :
  (∀ l m, 2 * length l < n → 2 * length l < m → parseValue literal len n l = parseValue literal len m l) ∧
  (∀ l m, 2 * length l < n → 2 * length l < m → parse_members literal len n l = parse_members literal len m l) ∧
  (∀ l m, 2 * length l + 1 < n → 2 * length l + 1 < m → parse_items literal len n l = parse_items literal len m l).
Proof.
  induction n as [|n (IHv & IHm & IHi)]; [split_and!; intros; lia|]. split; [|split]; intros l [|m] Hn Hm; try lia.
  - destruct l as [|c l]; [done|]. rewrite !parseValue_S. simpl in Hn, Hm.
    rewrite (IHm l m), (IHi l m) by lia. done.
  - rewrite !parse_members_S. pose proof (skipSpace_length l) as Hl0.
    destruct (skipSpace l) as [|c l0] eqn:E0; [done|]. case_bool_decide as Ec; [|done]. subst c.
    destruct (parseString literal len (dquote :: l0)) as [[key l1]|] eqn:Ek; [|done]. cbn [mbind result_bind].
    apply parseString_sound in Ek as [Ek [Hk _]]; [|done].
    assert (Hl1 : length l1 < length l).
    { apply (f_equal length) in Ek. rewrite length_app in Ek. destruct key; [done|]. simpl in *. lia. }
    pose proof (skipSpace_length l1). destruct (skipSpace l1) as [|d l2]; [done|]. unfold after_key in *. case_bool_decide; [|done].
    pose proof (skipSpace_length l2). simpl in *. rewrite (IHv (skipSpace l2) m) by lia.
    destruct (parseValue literal len m (skipSpace l2)) as [[v l3]|] eqn:Ev; [|done]. cbn [mbind result_bind].
    apply parse_sound in Ev as [_ Hl3]. pose proof (skipSpace_length l3). destruct (skipSpace l3) as [|e l4]; [done|]. unfold after_member in *.
    simpl in *. rewrite (IHm l4 m) by lia. done.
  - rewrite !parse_items_S. pose proof (skipSpace_length l). rewrite (IHv (skipSpace l) m) by lia.
    destruct (parseValue literal len m (skipSpace l)) as [[v l1]|] eqn:Ev; [|done]. cbn [mbind result_bind].
    apply parse_sound in Ev as [_ Hl1]. pose proof (skipSpace_length l1). destruct (skipSpace l1) as [|e l2]; [done|]. unfold after_item in *.
    simpl in *. rewrite (IHi l2 m) by lia. done.
Qed.
Theorem parse_enough n l : 2 * length l < n → parseValue literal len n l = parseValue literal len (S (2 * length l)) l.
Proof. intros H. apply parse_stable; lia. Qed.
End sound.

(** ** Sorting *)

Section sorted.
Context {A B : Type} (key : A → string) (key' : B → string) (f : A → B).
Context (Hkey : ∀ x, key' (f x) = key x).

Lemma insert_by_fmap x l : insert_by key' (f x) (f <$> l) = f <$> insert_by key x l.
Proof. induction l as [|y l IH]; csimpl; [done|]. rewrite !Hkey. case_match; csimpl; [done|]. by rewrite <- IH. Qed.
Lemma sort_by_fmap l : sort_by key' (f <$> l) = f <$> sort_by key l.
Proof. unfold sort_by. induction l as [|x l IH]; csimpl; [done|]. by rewrite <- insert_by_fmap, <- IH. Qed.
Lemma sort_by_id l : Sorted (le_key key) l → sort_by key l = l.
Proof.
  unfold sort_by. induction l as [|x l IH]; intros Hs; simpl; [done|]. inversion_clear Hs as [|? ? Hl Hx]. rewrite IH by done.
  destruct l as [|y l]; simpl; [done|]. inversion_clear Hx as [|? ? Hxy]. by rewrite Hxy.
Qed.
End sorted.

Lemma leb_trans a : ∀ b c, Strings.String.leb a b = true → Strings.String.leb b c = true → Strings.String.leb a c = true.
Proof.
  unfold Strings.String.leb. induction a as [|x a IH]; intros [|y b] [|z c]; simpl; try done.
  unfold Ascii.compare. specialize (IH b c).
  destruct (N.compare_spec (N_of_ascii x) (N_of_ascii y)), (N.compare_spec (N_of_ascii y) (N_of_ascii z)),
    (N.compare_spec (N_of_ascii x) (N_of_ascii z)); try done; try lia.
Qed.
#[local] Instance le_key_trans {A} (key : A → string) : Transitive (le_key key).
Proof. intros x y z. apply leb_trans. Qed.

(** The order of the input does not matter where the keys are distinct. *)
Lemma sort_by_distinct {A} (key : A → string) l1 l2 :
  l1 ≡ₚ l2 → NoDup (key <$> l1) → sort_by key l1 = sort_by key l2.
Proof.
  intros Hp Hnd. apply (Sorted_unique_strong (le_key key)); [|apply sort_by_sorted..|by rewrite !sort_by_perm].
  intros x y. rewrite !sort_by_perm, <- Hp. intros Hx Hy Hxy Hyx.
  pose proof (Strings.String.leb_antisym _ _ Hxy Hyx) as E. clear -Hnd Hx Hy E.
  apply list_elem_of_lookup in Hx as [i Hi], Hy as [j Hj].
  assert (i = j) as ->; [|congruence]. eapply NoDup_lookup; [exact Hnd| |]; rewrite list_lookup_fmap.
  - by rewrite Hi.
  - rewrite Hj. simpl. by rewrite E.
Qed.

(** ** Printing without sorting, and sorting without printing *)

Fixpoint print (v : jsonValue) : list ascii :=
  match v with
  | VObject ms => "{"%char :: commas ((λ m, m.1 ++ ":"%char :: print m.2) <$> ms) ++ ["}"%char]
  | VArray vs => "["%char :: commas (print <$> vs) ++ ["]"%char]
  | VLiteral raw => raw
  end.
Fixpoint canon (v : jsonValue) : jsonValue :=
  match v with
  | VObject ms => VObject (sort_by sortKey ((λ m, (m.1, canon m.2)) <$> ms))
  | VArray vs => VArray (canon <$> vs)
  | VLiteral raw => VLiteral raw
  end.

Lemma fmap_eq_Forall {A B} (f g : A → B) l : Forall (λ x, f x = g x) l → f <$> l = g <$> l.
Proof. induction 1 as [|x l Hx _ IH]; csimpl; [done|]. by rewrite Hx, IH. Qed.

Lemma print_members (ms : list (list ascii * jsonValue)) :
  (λ m, m.1 ++ ":"%char :: print m.2) <$> ms = (λ m, m.1 ++ ":"%char :: m.2) <$> ((λ m, (m.1, print m.2)) <$> ms).
Proof. by rewrite <- list_fmap_compose. Qed.

Lemma write_print v : writeValue v = print (canon v).
Proof.
  induction v as [ms IH|vs IH|raw] using value_ind; cbn [writeValue canon print]; [| |done]; f_equal; f_equal; f_equal.
  - rewrite print_members. f_equal. rewrite <- (sort_by_fmap sortKey sortKey) by done. f_equal.
    rewrite <- list_fmap_compose. apply fmap_eq_Forall. eapply Forall_impl; [exact IH|]. intros m Hm. simpl. by rewrite Hm.
  - rewrite <- list_fmap_compose. by apply fmap_eq_Forall.
Qed.

Lemma canon_idem v : canon (canon v) = canon v.
Proof.
  induction v as [ms IH|vs IH|raw] using value_ind; cbn [canon]; [| |done]; f_equal.
  - rewrite <- (sort_by_fmap sortKey sortKey), <- list_fmap_compose by done.
    assert (E : (λ m : list ascii * jsonValue, (m.1, canon m.2)) ∘ (λ m, (m.1, canon m.2)) <$> ms = (λ m, (m.1, canon m.2)) <$> ms).
    { apply fmap_eq_Forall. eapply Forall_impl; [exact IH|]. intros m Hm. simpl. by rewrite Hm. }
    rewrite E. apply sort_by_id, sort_by_sorted.
  - rewrite <- list_fmap_compose. by apply fmap_eq_Forall.
Qed.

Lemma canon_well_formed v : well_formed v → well_formed (canon v).
Proof.
  induction v as [ms IH|vs IH|raw] using value_ind; cbn [canon]; intros Hw; inversion_clear Hw as [? Hk Hv|? Hv|]; [| |by constructor].
  - constructor; rewrite sort_by_perm, Forall_fmap; [exact Hk|]. rewrite Forall_forall in IH, Hv |- *. intros m Hm. by apply IH, Hv.
  - constructor. rewrite Forall_fmap. rewrite Forall_forall in IH, Hv |- *. intros v Hin. by apply IH, Hv.
Qed.

(** ** What is printed is read back *)

Definition value_head (c : ascii) : bool := scalar_head c || bool_decide (c = "{"%char) || bool_decide (c = "["%char).
Lemma print_head v : well_formed v → ∃ c r, print v = c :: r ∧ value_head c = true.
Proof.
  intros [ms _ _|vs _|raw (c & r & -> & Hh & _)]; cbn [print]; eexists _, _; (split; [reflexivity|done || idtac]).
  unfold value_head. by rewrite Hh.
Qed.
Lemma value_head_cases c : value_head c = true → is_blank c = false ∧ c ≠ "]"%char.
Proof.
  unfold value_head. rewrite !orb_true_iff, !bool_decide_eq_true. intros [[Hc| ->]| ->]; [|done|done].
  apply scalar_head_cases in Hc as (_ & _ & ? & _ & ?). done.
Qed.
Lemma skip_print v rest : well_formed v → skipSpace (print v ++ rest) = print v ++ rest.
Proof.
  intros (c & r & -> & Hc)%print_head. apply skipSpace_id. simpl. apply value_head_cases in Hc as [-> _]. done.
Qed.
Lemma skip_key key rest : string_lexeme key → skipSpace (key ++ rest) = key ++ rest.
Proof.
  intros [Hh _]. apply skipSpace_id. destruct key as [|c key]; [done|]. simpl in *. apply bool_decide_eq_true in Hh as ->.
  by vm_compute.
Qed.

Section complete.
Context (literal : ascii → string) (len : nat).

Definition reads (v : jsonValue) : Prop :=
  ∀ n rest, length (print v) < n → ends rest → parseValue literal len n (print v ++ rest) = inl (v, rest).

Abbreviation member_text := (λ m : list ascii * jsonValue, m.1 ++ ":"%char :: print m.2).

Lemma read_members ms : ∀ n rest,
  ms ≠ [] → Forall (λ m, string_lexeme m.1) ms → Forall (λ m, well_formed m.2) ms → Forall (λ m, reads m.2) ms →
  length (commas (member_text <$> ms)) < n →
  parse_members literal len n (commas (member_text <$> ms) ++ "}"%char :: rest) = inl (ms, rest).
Proof.
  induction ms as [|[key v] ms IH]; intros n rest Hne Hk Hw Hr Hn; [done|].
  apply Forall_cons in Hk as [Hk Hks], Hw as [Hw Hws], Hr as [Hr Hrs]. simpl in Hk, Hw, Hr.
  destruct n as [|n]; [lia|].
  assert (Hgo : ∀ tail, ends tail → length (print v) < n →
    parse_members literal len (S n) ((key ++ ":"%char :: print v) ++ tail) = after_member literal len n key v (skipSpace tail)).
  { intros tail Ht Hlen. rewrite parse_members_S, <- app_assoc, skip_key by done. pose proof Hk as [Hh Hs].
    destruct key as [|c key]; [done|]. cbn [app]. simpl in Hh. rewrite Hh.
    rewrite (app_comm_cons key), Hs.
    cbn [mbind result_bind]. rewrite (skipSpace_id (":"%char :: _)) by done. cbn [after_key app].
    rewrite bool_decide_true, skip_print, Hr by done. done. }
  destruct ms as [|m ms].
  - cbn [commas fmap list_fmap fst snd] in *. rewrite length_app in Hn. simpl in Hn. rewrite Hgo by (set_solver || lia).
    rewrite skipSpace_id by done. done.
  - change (commas (member_text <$> (key, v) :: m :: ms)) with
      ((key ++ ":"%char :: print v) ++ ","%char :: commas (member_text <$> m :: ms)) in *.
    set (others := commas (member_text <$> m :: ms)) in *. rewrite <- app_assoc. rewrite !length_app in Hn. simpl in Hn.
    rewrite Hgo by (set_solver || lia). rewrite skipSpace_id by done. unfold after_member.
    rewrite <- app_comm_cons, bool_decide_true by done.
    unfold others in *. rewrite IH by (done || lia). done.
Qed.

Lemma read_items vs : ∀ n rest,
  vs ≠ [] → Forall well_formed vs → Forall reads vs → S (length (commas (print <$> vs))) < n →
  parse_items literal len n (commas (print <$> vs) ++ "]"%char :: rest) = inl (vs, rest).
Proof.
  induction vs as [|v vs IH]; intros n rest Hne Hw Hr Hn; [done|].
  apply Forall_cons in Hw as [Hw Hws], Hr as [Hr Hrs]. destruct n as [|n]; [lia|].
  assert (Hgo : ∀ tail, ends tail → length (print v) < n →
    parse_items literal len (S n) (print v ++ tail) = after_item literal len n v (skipSpace tail)).
  { intros tail Ht Hlen. by rewrite parse_items_S, skip_print, Hr. }
  destruct vs as [|w vs].
  - cbn [commas fmap list_fmap] in *. rewrite Hgo by (set_solver || lia). rewrite skipSpace_id by done. done.
  - change (commas (print <$> v :: w :: vs)) with (print v ++ ","%char :: commas (print <$> w :: vs)) in *.
    set (others := commas (print <$> w :: vs)) in *. rewrite <- app_assoc. rewrite !length_app in Hn. simpl in Hn.
    rewrite Hgo by (set_solver || lia). rewrite skipSpace_id by done. unfold after_item.
    rewrite <- app_comm_cons, bool_decide_true by done. unfold others in *. rewrite IH by (done || lia). done.
Qed.

Lemma print_reads v : well_formed v → reads v.
Proof.
  induction v as [ms IH|vs IH|raw] using value_ind; intros Hw n rest Hn Hrest; (destruct n as [|n]; [lia|]);
    inversion Hw as [? Hk Hv|? Hv|? Hl]; subst.
  - assert (Hr : Forall (λ m, reads m.2) ms) by (rewrite Forall_forall in IH, Hv |- *; intros m Hm; by apply IH, Hv).
    cbn [print] in *. rewrite <- app_comm_cons, parseValue_S, bool_decide_true, <- app_assoc by done. cbn [app].
    simpl in Hn. rewrite length_app in Hn. simpl in Hn.
    destruct ms as [|[key v] ms]; [done|].
    assert (Hskip : ∃ c r, skipSpace (commas (member_text <$> (key, v) :: ms) ++ "}"%char :: rest) = c :: r ∧ c ≠ "}"%char).
    { apply Forall_cons in Hk as [Hk _]. simpl in Hk. destruct Hk as [Hh Hs]. destruct key as [|c key]; [done|].
      simpl in Hh. apply bool_decide_eq_true in Hh as ->.
      exists dquote, (tail (commas (member_text <$> (dquote :: key, v) :: ms) ++ "}"%char :: rest)).
      split; [|done]. by destruct ms. }
    destruct Hskip as (c & r & -> & Hc). rewrite bool_decide_false by done.
    rewrite read_members by (done || lia). done.
  - assert (Hr : Forall reads vs) by (rewrite Forall_forall in IH, Hv |- *; intros m Hm; by apply IH, Hv).
    cbn [print] in *. rewrite <- app_comm_cons, parseValue_S, bool_decide_false, bool_decide_true, <- app_assoc by done. cbn [app].
    simpl in Hn. rewrite length_app in Hn. simpl in Hn.
    destruct vs as [|v vs]; [done|].
    assert (Hskip : ∃ c r, skipSpace (commas (print <$> v :: vs) ++ "]"%char :: rest) = c :: r ∧ c ≠ "]"%char).
    { apply Forall_cons in Hv as [Hv _]. destruct (print_head v Hv) as (c & r & E & Hc). apply value_head_cases in Hc as [Hb Hc].
      destruct vs; cbn [fmap list_fmap commas]; rewrite E; cbn [app skipSpace]; rewrite Hb;
        eexists _, _; (split; [reflexivity|done]). }
    destruct Hskip as (c & r & -> & Hc). rewrite bool_decide_false by done.
    rewrite read_items by (done || lia). done.
  - destruct Hl as (c & r & -> & Hh & Hs). cbn [print app]. rewrite parseValue_S.
    apply scalar_head_cases in Hh as (H1 & H2 & _). rewrite !(bool_decide_false (c = _)) by done. by apply Hs.
Qed.
End complete.

(** ** Canonical form *)

Section canonical.
Context (literal : ascii → string).

(** The value of an input. *)
Definition value_of (input : list ascii) (v : jsonValue) : Prop :=
  ∃ rest, parseValue literal (length input) (S (2 * length input)) (skipSpace input) = inl (v, rest) ∧ skipSpace rest = [].

Lemma canonicalize_spec input out :
  Canonicalize literal input = inl out ↔ ∃ v, value_of input v ∧ out = print (canon v).
Proof.
  unfold Canonicalize, value_of. cbv zeta. split.
  - intros (v & rest & Hp & H)%bind_inl2. exists v. split; [|destruct (skipSpace rest); [injection H as <-; apply write_print|done]].
    exists rest. split; [done|]. by destruct (skipSpace rest).
  - intros (v & (rest & Hp & Hr) & ->). rewrite Hp. cbn [mbind result_bind]. by rewrite Hr, write_print.
Qed.

Lemma value_of_print v : well_formed v → value_of (print v) v.
Proof.
  intros Hw. exists []. split; [|done]. rewrite <- (app_nil_r (print v)) at 3. rewrite skip_print by done.
  apply print_reads; [done| |done]. lia.
Qed.
Lemma value_of_well_formed input v : value_of input v → well_formed v.
Proof. intros (rest & Hp & _). by eapply parse_sound. Qed.
Lemma print_inj v w : well_formed v → well_formed w → print v = print w → v = w.
Proof.
  intros Hv Hw E. destruct (value_of_print v Hv) as (r1 & H1 & _), (value_of_print w Hw) as (r2 & H2 & _).
  rewrite E in H1. congruence.
Qed.

(** C33: canonicalizing is idempotent, its output is the text of a value with the same
    canonical form, and two inputs have the same output exactly if their values are
    equal once the members of every object are sorted by their decoded keys. *)
Theorem canonical_form input out :
  Canonicalize literal input = inl out →
  Canonicalize literal out = inl out ∧
  ∃ v, value_of input v ∧ value_of out (canon v) ∧
  ∀ input', Canonicalize literal input' = inl out ↔ ∃ v', value_of input' v' ∧ canon v' = canon v.
Proof.
  intros (v & Hv & ->)%canonicalize_spec. pose proof (value_of_well_formed _ _ Hv) as Hw.
  pose proof (canon_well_formed v Hw) as Hc. split.
  - apply canonicalize_spec. exists (canon v). split; [by apply value_of_print|]. by rewrite canon_idem.
  - exists v. split; [done|]. split; [by apply value_of_print|]. intros input'. rewrite canonicalize_spec.
    split; intros (v' & Hv' & E); exists v'; (split; [done|]).
    + apply print_inj; [|done|done]. by eapply canon_well_formed, value_of_well_formed.
    + by rewrite E.
Qed.

(** The order of the members is lost where their keys are distinct. *)
Theorem member_order_ignored ms ms' :
  ms ≡ₚ ms' → NoDup (sortKey <$> ms) → canon (VObject ms) = canon (VObject ms').
Proof.
  intros Hp Hnd. cbn [canon]. f_equal. apply sort_by_distinct; [by rewrite Hp|]. by rewrite <- list_fmap_compose.
Qed.
End canonical.

(** ** A message *)

Module CanonDemo.
Definition q (s : string) : string := quoted s.
Definition text (c : ascii) : string := "".
(** Members in another order, spaces, a number written with zeros. *)
Definition input : list ascii := chars (" { " +:+ q "b" +:+ " : 1.00 , " +:+ q "a" +:+ " : [ true , { } ] } ").
Definition output : list ascii := chars ("{" +:+ q "a" +:+ ":[true,{}]," +:+ q "b" +:+ ":1.00}").

Lemma canonical_form_witness :
  Canonicalize text input = inl output ∧ Canonicalize text output = inl output.
Proof.
  assert (H : Canonicalize text input = inl output) by (vm_compute; reflexivity).
  split; [exact H|]. exact (proj1 (canonical_form text input output H)).
Defined.

(** Keys that decode to the same text keep their order. *)
Example equal_keys :
  Canonicalize text (chars ("{" +:+ dq +:+ "\u0061" +:+ dq +:+ ":1," +:+ q "a" +:+ ":2}")) =
  inl (chars ("{" +:+ dq +:+ "\u0061" +:+ dq +:+ ":1," +:+ q "a" +:+ ":2}")).
Proof. vm_compute. reflexivity. Qed.
End CanonDemo.
