(* ===== verification/EvalIR.v ===== *)
(** * Evaluation of payloads against the representation of the generator

    src/ocpp2.0.1_test/internal/ireval/evaluator.go: the oracle of the parity
    fixtures.  A payload is checked against the constraints that the intermediate
    representation states for one side of a message; keywords outside a supported
    set are only reported where nothing supported rejects the payload.

    The types mirror those of src/internal/codegen and are those of [CgIR].  The
    decoders of the document and of the payload are arguments, what they returned.
    A payload is a [Json] value: numbers are the exact rationals of their lexemes and
    an object is the list of its members sorted by key, which is what lookups and the
    sorted keys of a Go map see.  [matches] is what regexp says of a pattern and a
    text.  The recursion is on the payload. *)

From Stdlib Require Import Ascii QArith.QArith_base QArith.Qcanon.
From S2P Require Import Prelude Ocpp Message Endpoint CgIR CgMapping CgPlacement CgSchema ScTypes ScGoWalk ScClassify CanonJson.
Local Open Scope string_scope.
Local Open Scope list_scope.

(** ** Types *)

Inductive Status := Valid | Invalid | Unsupported.
Record Verdict := mkVerdict { v_Status : Status; v_Keyword : string; v_Path : string }.
Inductive Half := Request | Response | OtherHalf (text : string).

Definition irProperty : Type := Property.
Definition irDefinition : Type := Definition_.
Definition irMessage : Type := CgIR.Message.
Definition irDocument : Type := IR.

Definition rootPointer : string := "#".

(** ** Helpers *)

Definition findMessage (messages : list irMessage) (name : string) : option irMessage :=
  head (filter (λ m, m_Name m = name) messages).
Definition findDefinition (definitions : list irDefinition) (name : string) : option irDefinition :=
  head (filter (λ d, d_Name d = name) definitions).
Definition definitionByName (doc : irDocument) (name : string) : option irDefinition := findDefinition (Definitions doc) name.
Definition refName (ref : string) : string := after_slash ref.
Definition describesObject (def : irDefinition) : bool :=
  bool_decide (d_Kind def = DefinitionRoot) || bool_decide (d_Kind def = DefinitionObject).

(** [utf8.RuneCountInString] of a text that is UTF-8, as what encoding/json decodes is. *)
Definition RuneCount (s : string) : Z := Z.of_nat (length (filter (λ c, continuation c = false) (chars s))).

Definition is_int (q : Q) : bool := bool_decide (Qnum q mod Zpos (Qden q) = 0)%Z.
Definition typeMatches (want : string) (value : Json) : bool :=
  if bool_decide (want = "") then true
  else if bool_decide (want = "string") then match value with JStr _ => true | _ => false end
  else if bool_decide (want = "boolean") then match value with JBool _ => true | _ => false end
  else if bool_decide (want = "integer") then match value with JNum q => is_int q | _ => false end
  else if bool_decide (want = "number") then match value with JNum _ => true | _ => false end
  else if bool_decide (want = "array") then match value with JArr _ => true | _ => false end
  else if bool_decide (want = "object") then match value with JObj _ => true | _ => false end
  else if bool_decide (want = "null") then match value with JNull => true | _ => false end
  else true.

Definition below (bound : option Qc) (q : Q) : bool := match bound with Some b => negb (Qle_bool b q) | None => false end.
Definition above (bound : option Qc) (q : Q) : bool := match bound with Some b => negb (Qle_bool q b) | None => false end.
Definition fewer (n : Z) (bound : option Z) : bool := match bound with Some b => bool_decide (n < b)%Z | None => false end.
Definition more (n : Z) (bound : option Z) : bool := match bound with Some b => bool_decide (b < n)%Z | None => false end.

(** The first unsupported keyword met. *)
Abbreviation state := (option Verdict).
(** A rejection, if there is one, and the state. *)
Abbreviation outcome := (option Verdict * option Verdict)%type.

Section evaluate.
Context (matches : string → string → bool) (doc : irDocument).

Definition target_of (prop : irProperty) : option irDefinition :=
  if bool_decide (p_Ref prop = "") then None else definitionByName doc (refName (p_Ref prop)).
Definition enum_values (prop : irProperty) : list string :=
  match p_Enum prop, target_of prop with
  | [], Some target => if bool_decide (d_Kind target = DefinitionEnum) then d_Values target else []
  | values, _ => values
  end.

(** The keyword that rejects the value, before its elements and members are looked
    at: the checks in their order. *)
Definition own_rejection (prop : irProperty) (value : Json) : option string :=
  let text := match value with JStr s => Some s | _ => None end in
  if negb (typeMatches (p_Type prop) value) then Some "type"
  else if negb (bool_decide (enum_values prop = []))
          && negb (match text with Some s => containsString (enum_values prop) s | None => false end) then Some "enum"
  else if negb (bool_decide (p_Pattern prop = ""))
          && negb (match text with Some s => matches (p_Pattern prop) s | None => false end) then Some "pattern"
  else match value with
       | JStr s => if fewer (RuneCount s) (p_MinLength prop) then Some "minLength"
                   else if more (RuneCount s) (p_MaxLength prop) then Some "maxLength" else None
       | JNum q => if below (p_Minimum prop) q then Some "minimum"
                   else if above (p_Maximum prop) q then Some "maximum" else None
       | JArr l => if fewer (Z.of_nat (length l)) (p_MinItems prop) then Some "minItems"
                   else if more (Z.of_nat (length l)) (p_MaxItems prop) then Some "maxItems" else None
       | _ => None
       end.

(** ** The evaluator *)

Definition deferUnsupported (keyword path : string) (st : state) : state :=
  match st with None => Some (mkVerdict Unsupported keyword path) | Some _ => st end.
Definition defer_own (prop : irProperty) (st : state) : state :=
  let st := if bool_decide (p_ExclusiveMinimum prop = None) then st else deferUnsupported "exclusiveMinimum" (p_Pointer prop) st in
  let st := if bool_decide (p_ExclusiveMaximum prop = None) then st else deferUnsupported "exclusiveMaximum" (p_Pointer prop) st in
  if bool_decide (p_Format prop = "") then st else deferUnsupported "format" (p_Pointer prop) st.

Definition and_then (o : outcome) (k : state → outcome) : outcome :=
  match o with (Some v, st) => (Some v, st) | (None, st) => k st end.

(** The member of a name, evaluated with [f]. *)
Definition member_with {B : Type} (f : Json → B) (name : string) : list (string * Json) → option B :=
  fix go kvs := match kvs with
                | [] => None
                | (k, v) :: l => if bool_decide (k = name) then Some (f v) else go l
                end.

(** The loop over the properties of a definition; [find] evaluates a member. *)
Fixpoint evaluate_properties (find : string → option (irProperty → state → outcome)) (props : list irProperty) (st : state)
    : outcome :=
  match props with
  | [] => (None, st)
  | p :: l =>
      match find (p_Name p) with
      | None => if p_Required p then (Some (mkVerdict Invalid "required" (p_Pointer p)), st)
                else evaluate_properties find l st
      | Some evaluate => and_then (evaluate p st) (evaluate_properties find l)
      end
  end.

(** The first member, by key, that a closed definition does not list. *)
Definition unlisted (def : irDefinition) (keys : list string) : option string :=
  if bool_decide (d_AdditionalProperties def = Some false)
  then head (filter (λ k, k ∉ p_Name <$> d_Properties def) keys) else None.

Definition evaluateObject (def : irDefinition) (find : string → option (irProperty → state → outcome)) (keys : list string)
    (st : state) : outcome :=
  and_then (evaluate_properties find (d_Properties def) st)
    (λ st, (None, match unlisted def keys with
                  | Some key => deferUnsupported "additionalProperties" ("#/" +:+ key) st
                  | None => st
                  end)).

Fixpoint evaluateProperty (value : Json) (prop : irProperty) (st : state) : outcome :=
  let reject keyword := (Some (mkVerdict Invalid keyword (p_Pointer prop)), st) in
  match own_rejection prop value with
  | Some keyword => reject keyword
  | None =>
      let elements :=
        match value, p_Items prop with
        | JArr l, Some items =>
            (fix go l st := match l with
                            | [] => (None, st)
                            | item :: l' => and_then (evaluateProperty item items st) (go l')
                            end) l st
        | _, _ => (None, st)
        end in
      and_then elements (λ st,
        and_then
          (match target_of prop with
           | Some target =>
               if describesObject target then
                 match value with
                 | JObj kvs => evaluateObject target (λ name, member_with evaluateProperty name kvs) kvs.*1 st
                 | _ => (Some (mkVerdict Invalid "type" (p_Pointer prop)), st)
                 end
               else (None, st)
           | None => (None, st)
           end)
          (λ st, (None, defer_own prop st)))
  end.

Definition members_of (value : Json) : list (string * Json) := match value with JObj kvs => kvs | _ => [] end.
Definition evaluate_root (root : irDefinition) (value : Json) : Verdict :=
  if describesObject root && negb (match value with JObj _ => true | _ => false end) then mkVerdict Invalid "type" rootPointer
  else match evaluateObject root (λ name, member_with evaluateProperty name (members_of value)) (members_of value).*1 None with
       | (Some verdict, _) => verdict
       | (None, Some unsupported) => unsupported
       | (None, None) => mkVerdict Valid "" ""
       end.
End evaluate.

Definition Evaluate (matches : string → string → bool) (irDoc : result irDocument) (message : string) (half : Half)
    (payload : result (Json * trailing)) : result Verdict :=
  match irDoc with
  | inr e => inr (Errorf "ireval: decode IR document" (Some e))
  | inl doc =>
      match findMessage (Messages doc) message with
      | None => fail ("ireval: message " +:+ quoted message +:+ " not found in IR document")
      | Some msg =>
          rootName ← match half with
                     | Request => mret (m_RequestRoot msg)
                     | Response => mret (m_ResponseRoot msg)
                     | OtherHalf text => fail ("ireval: unknown half " +:+ quoted text)
                     end;
          match findDefinition (Definitions doc) rootName with
          | None => fail ("ireval: root definition " +:+ quoted rootName +:+ " not found in IR document")
          | Some root =>
              match payload with
              | inr e => inr (Errorf "ireval: decode payload" (Some e))
              | inl (_, Content) => fail "ireval: decode payload: unexpected data after the first JSON value"
              | inl (_, BadContent e) =>
                  inr (Errorf "ireval: decode payload: unexpected data after the first JSON value" (Some e))
              | inl (value, AtEOF) => mret (evaluate_root matches doc root value)
              end
          end
      end
  end.

(** ** What is checked, without stopping *)

Section specification.
Context (matches : string → string → bool) (doc : irDocument).

(** All keywords of a property that its value violates by itself. *)
Definition own_violations (prop : irProperty) (value : Json) : list string :=
  let text := match value with JStr s => Some s | _ => None end in
  let when (b : bool) (keyword : string) := if b then [keyword] else [] in
  when (negb (typeMatches (p_Type prop) value)) "type" ++
  when (negb (bool_decide (enum_values doc prop = [])) &&
        negb (match text with Some s => containsString (enum_values doc prop) s | None => false end)) "enum" ++
  when (negb (bool_decide (p_Pattern prop = "")) &&
        negb (match text with Some s => matches (p_Pattern prop) s | None => false end)) "pattern" ++
  match value with
  | JStr s => when (fewer (RuneCount s) (p_MinLength prop)) "minLength" ++ when (more (RuneCount s) (p_MaxLength prop)) "maxLength"
  | JNum q => when (below (p_Minimum prop) q) "minimum" ++ when (above (p_Maximum prop) q) "maximum"
  | JArr l => when (fewer (Z.of_nat (length l)) (p_MinItems prop)) "minItems" ++
              when (more (Z.of_nat (length l)) (p_MaxItems prop)) "maxItems"
  | _ => []
  end.
Definition invalid (prop : irProperty) (keyword : string) : Verdict := mkVerdict Invalid keyword (p_Pointer prop).

(** The object definition that a value has to be of. *)
Definition object_target (prop : irProperty) : option irDefinition :=
  match target_of doc prop with Some t => if describesObject t then Some t else None | None => None end.

(** The violations of the properties of a definition; [find] gives those of a member. *)
Definition property_violations (find : string → option (irProperty → list Verdict)) (def : irDefinition) : list Verdict :=
  flat_map (λ p, match find (p_Name p) with
                 | Some f => f p
                 | None => if p_Required p then [invalid p "required"] else []
                 end) (d_Properties def).
(** Every violation of a supported keyword, in the value, its elements and its
    members. *)
Fixpoint violations (value : Json) (prop : irProperty) : list Verdict :=
  (invalid prop <$> own_violations prop value) ++
  match value, p_Items prop with
  | JArr l, Some items => flat_map (λ item, violations item items) l
  | _, _ => []
  end ++
  match object_target prop, value with
  | Some target, JObj kvs => property_violations (λ name, member_with violations name kvs) target
  | Some _, _ => [invalid prop "type"]
  | None, _ => []
  end.

Definition own_unsupported (prop : irProperty) : list Verdict :=
  (if bool_decide (p_ExclusiveMinimum prop = None) then [] else [mkVerdict Unsupported "exclusiveMinimum" (p_Pointer prop)]) ++
  (if bool_decide (p_ExclusiveMaximum prop = None) then [] else [mkVerdict Unsupported "exclusiveMaximum" (p_Pointer prop)]) ++
  (if bool_decide (p_Format prop = "") then [] else [mkVerdict Unsupported "format" (p_Pointer prop)]).
Definition object_unsupported (find : string → option (irProperty → list Verdict)) (def : irDefinition) (keys : list string)
    : list Verdict :=
  flat_map (λ p, match find (p_Name p) with Some f => f p | None => [] end) (d_Properties def) ++
  match unlisted def keys with
  | Some key => [mkVerdict Unsupported "additionalProperties" ("#/" +:+ key)]
  | None => []
  end.
(** The keywords outside the supported set that bear on the value. *)
Fixpoint unsupported (value : Json) (prop : irProperty) : list Verdict :=
  match value, p_Items prop with
  | JArr l, Some items => flat_map (λ item, unsupported item items) l
  | _, _ => []
  end ++
  match object_target prop, value with
  | Some target, JObj kvs => object_unsupported (λ name, member_with unsupported name kvs) target kvs.*1
  | _, _ => []
  end ++ own_unsupported prop.

(** ** The evaluator computes it *)

(** An evaluation that stops at the first of [vs], or else has met [us]. *)
Definition computes (o : outcome) (vs us : list Verdict) (st : state) : Prop :=
  o.1 = head vs ∧ (vs = [] → o.2 = match st with Some u => Some u | None => head us end).

Lemma computes_nil st : computes (None, st) [] [] st.
Proof. split; [done|]. by destruct st. Qed.
Lemma computes_reject v vs us st st' : computes (Some v, st') (v :: vs) us st.
Proof. by split. Qed.
Lemma computes_then o k vs1 us1 vs2 us2 st :
  computes o vs1 us1 st → (∀ st', computes (k st') vs2 us2 st') → computes (and_then o k) (vs1 ++ vs2) (us1 ++ us2) st.
Proof.
  intros [H1 H2] Hk. destruct o as [[v|] st']; simpl in *.
  - destruct vs1 as [|w vs1]; [done|]. by split.
  - destruct vs1; [|done]. specialize (H2 eq_refl). destruct (Hk st') as [H3 H4]. split; [done|]. simpl. intros E.
    rewrite (H4 E), H2. destruct st; [done|]. by destruct us1.
Qed.
Lemma computes_defer keyword path st (b : bool) :
  computes (None, if b then st else deferUnsupported keyword path st) []
    (if b then [] else [mkVerdict Unsupported keyword path]) st.
Proof. split; [done|]. by destruct b, st. Qed.

Lemma own_rejection_spec prop value : own_rejection matches doc prop value = head (own_violations prop value).
Proof. unfold own_rejection, own_violations. cbv zeta. destruct value; repeat case_match; done. Qed.

Lemma defer_own_spec prop st : computes (None, defer_own prop st) [] (own_unsupported prop) st.
Proof.
  unfold defer_own, own_unsupported, computes. split; [done|]. intros _. cbn [snd].
  destruct st; repeat case_bool_decide; done.
Qed.

Lemma evaluate_properties_spec find vfind ufind props st :
  (∀ p, match find (p_Name p), vfind (p_Name p), ufind (p_Name p) with
        | Some f, Some v, Some u => ∀ st, computes (f p st) (v p) (u p) st
        | None, None, None => True
        | _, _, _ => False
        end) →
  computes (evaluate_properties find props st)
    (flat_map (λ p, match vfind (p_Name p) with
                    | Some f => f p
                    | None => if p_Required p then [invalid p "required"] else []
                    end) props)
    (flat_map (λ p, match ufind (p_Name p) with Some f => f p | None => [] end) props) st.
Proof.
  intros Hf. revert st. induction props as [|p props IH]; intros st; cbn [evaluate_properties flat_map]; [apply computes_nil|].
  specialize (Hf p). destruct (find (p_Name p)), (vfind (p_Name p)), (ufind (p_Name p)); try done.
  - by apply computes_then.
  - destruct (p_Required p); [apply computes_reject|apply IH].
Qed.

Lemma evaluateObject_spec find vfind ufind def keys st :
  (∀ p, match find (p_Name p), vfind (p_Name p), ufind (p_Name p) with
        | Some f, Some v, Some u => ∀ st, computes (f p st) (v p) (u p) st
        | None, None, None => True
        | _, _, _ => False
        end) →
  computes (evaluateObject def find keys st) (property_violations vfind def) (object_unsupported ufind def keys) st.
Proof.
  intros Hf. unfold evaluateObject, object_unsupported. rewrite <- (app_nil_r (property_violations vfind def)).
  apply computes_then; [by apply evaluate_properties_spec|]. intros st'. split; [done|]. intros _. simpl.
  destruct (unlisted def keys); by destruct st'.
Qed.

Section json_ind.
Context (P : Json → Prop).
Context (Hleaf : ∀ v, (∀ l, v ≠ JArr l) → (∀ o, v ≠ JObj o) → P v).
Context (Harr : ∀ l, Forall P l → P (JArr l)) (Hobj : ∀ kvs, Forall (λ kv, P kv.2) kvs → P (JObj kvs)).
Fixpoint payload_ind (v : Json) : P v :=
  match v with
  | JArr l => Harr l ((fix go l : Forall P l :=
                         match l with [] => Forall_nil_2 _ | x :: l' => Forall_cons_2 _ x l' (payload_ind x) (go l') end) l)
  | JObj kvs =>
      Hobj kvs ((fix go kvs : Forall (λ kv, P kv.2) kvs :=
                   match kvs with [] => Forall_nil_2 _ | x :: l' => Forall_cons_2 _ x l' (payload_ind x.2) (go l') end) kvs)
  | JNull => Hleaf JNull ltac:(done) ltac:(done)
  | JBool b => Hleaf (JBool b) ltac:(done) ltac:(done)
  | JNum q => Hleaf (JNum q) ltac:(done) ltac:(done)
  | JStr s => Hleaf (JStr s) ltac:(done) ltac:(done)
  end.
End json_ind.

Lemma member_with_spec {A B C} (f : Json → A) (g : Json → B) (h : Json → C) (Q : A → B → C → Prop) name kvs :
  Forall (λ kv, Q (f kv.2) (g kv.2) (h kv.2)) kvs →
  match member_with f name kvs, member_with g name kvs, member_with h name kvs with
  | Some a, Some b, Some c => Q a b c
  | None, None, None => True
  | _, _, _ => False
  end.
Proof.
  induction 1 as [|[k v] kvs Hv _ IH]; [done|]. cbn [member_with]. by case_bool_decide.
Qed.

Definition evaluates (v : Json) : Prop :=
  ∀ prop st, computes (evaluateProperty matches doc v prop st) (violations v prop) (unsupported v prop) st.

Lemma evaluate_elements l items st :
  Forall evaluates l →
  computes ((fix go l st := match l with
                            | [] => (None, st)
                            | item :: l' => and_then (evaluateProperty matches doc item items st) (go l')
                            end) l st)
    (flat_map (λ item, violations item items) l) (flat_map (λ item, unsupported item items) l) st.
Proof.
  intros Hl. revert st. induction Hl as [|v l Hv _ IH]; intros st; cbn [flat_map]; [apply computes_nil|]. by apply computes_then.
Qed.

Lemma evaluate_members kvs target st :
  Forall (λ kv, evaluates kv.2) kvs →
  computes (evaluateObject target (λ name, member_with (evaluateProperty matches doc) name kvs) kvs.*1 st)
    (property_violations (λ name, member_with violations name kvs) target)
    (object_unsupported (λ name, member_with unsupported name kvs) target kvs.*1) st.
Proof.
  intros Hk. apply evaluateObject_spec. intros p.
  apply (member_with_spec _ _ _ (λ f v u, ∀ st, computes (f p st) (v p) (u p) st)).
  eapply Forall_impl; [exact Hk|]. intros kv Hkv st'. apply Hkv.
Qed.

(** The three parts of [evaluateProperty], and of what it computes. *)
Definition elements (v : Json) (prop : irProperty) (st : state) : outcome :=
  match v, p_Items prop with
  | JArr l, Some items =>
      (fix go l st := match l with
                      | [] => (None, st)
                      | item :: l' => and_then (evaluateProperty matches doc item items st) (go l')
                      end) l st
  | _, _ => (None, st)
  end.
Definition referenced (v : Json) (prop : irProperty) (st : state) : outcome :=
  match object_target prop, v with
  | Some target, JObj kvs => evaluateObject target (λ name, member_with (evaluateProperty matches doc) name kvs) kvs.*1 st
  | Some _, _ => (Some (invalid prop "type"), st)
  | None, _ => (None, st)
  end.
Lemma evaluateProperty_parts v prop st :
  evaluateProperty matches doc v prop st =
  match own_rejection matches doc prop v with
  | Some keyword => (Some (invalid prop keyword), st)
  | None => and_then (elements v prop st) (λ st, and_then (referenced v prop st) (λ st, (None, defer_own prop st)))
  end.
Proof.
  unfold referenced, object_target. destruct v; cbn [evaluateProperty]; case_match; try done;
    destruct (target_of doc prop) as [t|]; try destruct (describesObject t); done.
Qed.

Lemma evaluate_exact v : evaluates v.
Proof.
  assert (Hstep : ∀ v prop st ve vr ue ur,
    violations v prop = (invalid prop <$> own_violations prop v) ++ ve ++ vr →
    unsupported v prop = ue ++ ur ++ own_unsupported prop →
    (∀ st, computes (elements v prop st) ve ue st) → (∀ st, computes (referenced v prop st) vr ur st) →
    computes (evaluateProperty matches doc v prop st) (violations v prop) (unsupported v prop) st).
  { intros v' prop st ve vr ue ur -> -> He Hr. rewrite evaluateProperty_parts, own_rejection_spec.
    destruct (own_violations prop v') as [|k ks]; [|apply computes_reject]. cbn [head fmap list_fmap app].
    apply computes_then; [apply He|]. intros st1. rewrite <- (app_nil_r vr). apply computes_then; [apply Hr|].
    intros st2. apply defer_own_spec. }
  induction v as [v Hna Hno|l IH|kvs IH] using payload_ind; intros prop st.
  - eapply (Hstep v prop st [] (match object_target prop with Some _ => [invalid prop "type"] | None => [] end) [] []).
    + by destruct v; try (by destruct (Hna l)); try (by destruct (Hno kvs)); cbn [violations]; destruct (object_target prop).
    + by destruct v; try (by destruct (Hna l)); try (by destruct (Hno kvs)); cbn [unsupported]; destruct (object_target prop).
    + intros st'. replace (elements v prop st') with (None : option Verdict, st') by
        (by destruct v; try (by destruct (Hna l))). apply computes_nil.
    + intros st'. unfold referenced. destruct (object_target prop); [|apply computes_nil].
      destruct v; try apply computes_reject. by destruct (Hno kvs).
  - eapply (Hstep (JArr l) prop st (match p_Items prop with Some items => flat_map (λ i, violations i items) l | None => [] end)
      (match object_target prop with Some _ => [invalid prop "type"] | None => [] end)
      (match p_Items prop with Some items => flat_map (λ i, unsupported i items) l | None => [] end) []).
    + cbn [violations]. by destruct (object_target prop).
    + cbn [unsupported]. by destruct (object_target prop).
    + intros st'. unfold elements. destruct (p_Items prop); [by apply evaluate_elements|apply computes_nil].
    + intros st'. unfold referenced. destruct (object_target prop); [apply computes_reject|apply computes_nil].
  - eapply (Hstep (JObj kvs) prop st []
      (match object_target prop with Some t => property_violations (λ name, member_with violations name kvs) t | None => [] end) []
      (match object_target prop with Some t => object_unsupported (λ name, member_with unsupported name kvs) t kvs.*1 | None => [] end)).
    + cbn [violations]. by destruct (object_target prop).
    + cbn [unsupported]. by destruct (object_target prop).
    + intros st'. apply computes_nil.
    + intros st'. unfold referenced. destruct (object_target prop); [by apply evaluate_members|apply computes_nil].
Qed.

(** *** The verdict *)

(** All violations of a payload, and the keywords that are not supported. *)
Definition root_violations (root : irDefinition) (value : Json) : list Verdict :=
  (if describesObject root && negb (match value with JObj _ => true | _ => false end)
   then [mkVerdict Invalid "type" rootPointer] else []) ++
  property_violations (λ name, member_with violations name (members_of value)) root.
Definition root_unsupported (root : irDefinition) (value : Json) : list Verdict :=
  object_unsupported (λ name, member_with unsupported name (members_of value)) root (members_of value).*1.

(** The verdict is the first violation of a supported keyword anywhere in the
    payload, also after an unsupported keyword; an unsupported keyword is reported
    only if there is none, and then the first one that bears on the payload; without
    either the payload is valid. *)
Theorem evaluation_verdict root value :
  evaluate_root matches doc root value =
  match root_violations root value, root_unsupported root value with
  | v :: _, _ => v
  | [], u :: _ => u
  | [], [] => mkVerdict Valid "" ""
  end.
Proof.
  unfold evaluate_root, root_violations. destruct (describesObject root && _); [done|]. cbn [app].
  assert (H : computes (evaluateObject root (λ name, member_with (evaluateProperty matches doc) name (members_of value)) (members_of value).*1 None)
    (property_violations (λ name, member_with violations name (members_of value)) root) (root_unsupported root value) None).
  { apply evaluate_members. apply Forall_forall. intros kv _. apply evaluate_exact. }
  destruct H as [H1 H2]. destruct (evaluateObject _ _ _ _) as [o st]. simpl in *. subst o.
  destruct (property_violations _ root) as [|v vs]; [|done]. simpl. rewrite (H2 eq_refl).
  by destruct (root_unsupported root value).
Qed.
End specification.

(** ** A payload *)

Module EvalDemo.
Definition prop (name : string) (format : string) (max : option Z) : Property :=
  mkProperty name ("#/properties/" +:+ name) "string" format true [] "" "" max None None None None None None None "" None None false.
Definition root : Definition_ :=
  mkDefinition "FooRequest" DefinitionRoot [prop "at" "date-time" None; prop "id" "" (Some 3%Z)] [] (Some false) false 1 [].
Definition ir : IR :=
  mkIR [root] [mkMessage "Foo" "" "" "" "" "FooRequest" "FooResponse" [] [] true].
Definition evaluate (kvs : list (string * Json)) : result Verdict :=
  Evaluate (λ _ _, true) (mret ir) "Foo" Request (mret (JObj kvs, AtEOF)).

(** The format comes first and is not supported; the length decides all the same. *)
Example late_rejection :
  evaluate [("at", JStr "today"); ("id", JStr "long"); ("x", JNull)] =
  mret (mkVerdict Invalid "maxLength" "#/properties/id").
Proof. vm_compute. reflexivity. Qed.
Example undecided :
  evaluate [("at", JStr "today"); ("id", JStr "abc"); ("x", JNull)] = mret (mkVerdict Unsupported "format" "#/properties/at").
Proof. vm_compute. reflexivity. Qed.
End EvalDemo.
